(* ===== verification/_CoqProject ===== *)
-Q . S2P
Prelude.v
CoreError.v
Bytes.v
Seq.v
Crc32.v
Packet.v
Message.v
Channel.v
ChannelFacts.v
ChannelSpec.v
ChannelRead.v
Float64.v
Congestion.v
Send.v
SendFacts.v
SendSpec.v
SendPoll.v
Envelope.v
Pmtu.v
Session.v
SessionFacts.v
SessionSpec.v
Transport.v
Control.v
Video.v
Audio.v
Microphone.v
Cursor.v
Pad.v
Gamepad.v
Codecs.v
Effect.v
Png.v
Init.v
Atomic.v
Spsc.v
Handoff.v
Pool.v
PoolSpec.v
Latest.v
LatestSpec.v
Net.v
Slots.v
Injector.v
InjectorFacts.v
InjectorPads.v
InjectorSpec.v
Gate.v
Rate.v
Arbiter.v
Negotiation.v
BitWriter.v
BitReader.v
H264Write.v
H264Read.v
H264Spec.v
Dpb.v
DpbSpec.v
H264Stream.v
H264Play.v
H264StreamSpec.v
Stun.v
StunFacts.v
StunSpec.v
Conn.v
ConnSpec.v
Handshake.v
NatProbe.v
Turn.v
TurnSpec.v
Relay.v
RelaySpec.v
Endpoint.v
EndpointSpec.v
EndpointTyped.v
EndpointRelay.v
Stream.v
