(* ===== verification/Prelude.v ===== *)
(** * lowlat, the protocol core: a verification library

    lowlat streams a desktop from a host to its guests.  This library models
    the part of it that is pure protocol, the sans-IO core of
    [src/crates/core/src] (bytes in, bytes out, time as a parameter), the byte
    accessors and the lock-free structures of [src/crates/common/src], the
    relay's byte stream of [src/crates/net/src/stream.rs], what a guest's input
    becomes in [src/crates/inject/src], the decisions a host takes for the guests
    of one stream in [src/crates/host/src], and the H.264 headers an encoder writes in
    [src/crates/encode/src] with the decoder of [src/crates/decode/src] that reads
    them, and proves the properties that make the transport, the input, the delivery
    and the decoding correct.

    ** The program and its files

    A session (session.rs) owns, for each of nineteen channels, a receive ring
    (channel.rs) and a send ring (send.rs).  A message (message.rs) is a length
    prefix, a header and a payload; it is sliced into fragments, each fragment
    is a data packet (packet.rs), each packet a record sealed by the envelope
    (envelope.rs).  The receiver opens the record, parses the packet, stores
    the fragment in its ring and acknowledges every channel's frontier in one
    group acknowledgement; the sender's scan retransmits what is due, within a
    cap, and counts what is stale for the congestion controller
    (congestion.rs).  Path probing (pmtu.rs) sets the fragment size.  On top of
    messages sit the control, video, audio, microphone and pointer framings.

    Before any of that two peers must find each other.  A punch (conn.rs) sends
    sealed checks (stun.rs) to the candidates it is told of, answers the peer's,
    asks reflexive servers where it is seen, and chooses a path once one of its
    checks was answered and the peer checked it; what the servers said tells how
    the network translates addresses (nat.rs).  Where no direct path is to be had
    a relay (relay.rs) is kept through the TURN codec (turn.rs): an allocation,
    permissions and channels.  An endpoint (endpoint.rs) is one peer: the
    demultiplexer (demux.rs) hands a datagram to the punch or to the media half,
    and output is the punch's, then media on the path, through the relay if there
    is one; where UDP is blocked the relay is reached over one TCP stream, whose
    messages are found in its bytes and staged into its writes (net/stream.rs).

    The threads around the core share no locks.  Fixed-capacity rings carry values
    from one thread to one other (spsc.rs), a slot carries one answer (handoff.rs), a
    pool of byte slots is filled by one thread and read by others by index (pool.rs),
    and a ring of pictures keeps the newest for its consumer (latest.rs).

    What a guest sends to be typed, moved and pressed is expanded, on the host, into
    kernel input events (inject/src/event.rs) with the tables of keys and pads
    (usage.rs, gamepad.rs); a controller may also be sent as its own reports (pad.rs).

    Several guests share one encoder and one pointer.  A guest says what it can decode
    before it is streamed to (host/src/session.rs); a gate decides which guests take a
    frame and when a keyframe is asked for (gate.rs); a budget divides the configured
    rate into the ceilings of their congestion controllers and hands the encoder the
    lowest of their rates (rate.rs); and a floor lets one of them drive the pointer at
    a time, the others' injectors letting go (floor.rs, asked in admission.rs).

    What is streamed is coded by a device, and what surrounds the coded slices is
    written and read here.  An encoder backend keeps two counters, plans each picture
    (vaapi.rs), and writes the parameter sets and slice headers around what the device
    wrote (encode/h264.rs over bitstream.rs).  A client cuts an access unit into units
    (nal.rs), reads the sets and headers (sps.rs, pps.rs, slice.rs over bits.rs), and
    turns the unit into a job for its device: the surface to decode into, and the
    pictures its slices refer to, kept by the decoded picture buffer (dpb.rs) until
    nothing refers to them and they have been shown (decode/h264/mod.rs).

    - [Prelude]: machine integers on [Z] with their wrap-around written out,
      slices ([get_range], [put_range], [get_at], [put_at]), byte order, record
      update, the tactics and the hint database [lowlat].
    - [CoreError]: error.rs, and the [result] monad.
    - [Bytes]: common/src/bytes.rs.
    - [Seq], [Crc32], [Packet], [Message], [Pmtu]: the files of the same names;
      [Packet] also holds demux.rs.
    - [Channel]: channel.rs; [ChannelFacts] its invariant [recv_wf] and slot
      lemmas, [ChannelSpec] storing, taking and reassembly, [ChannelRead] the
      ring as a queue of messages and the escape from a gap.
    - [Float64]: IEEE binary64 through the Standard Library's [SpecFloat], the
      arithmetic of [f64]; [Congestion]: congestion.rs.
    - [Send]: send.rs; [SendFacts] its invariant [send_wf], [SendSpec]
      enqueueing and acknowledgements, [SendPoll] the scan and whole passes.
    - [Envelope]: envelope.rs and the size limits of lib.rs.
    - [Session]: session.rs; [SessionFacts] its invariant [session_ok],
      [SessionSpec] what goes out, what is let in, the freshness of nonces and what
      the end of a drain means.
    - [Transport]: two sessions and the network between them.
    - [Control], [Video], [Audio], [Microphone], [Cursor]: the message framings;
      [Codecs] the media headers behind one interface, and the packets' language.
    - [Effect]: the state-and-error monad of the code that fills buffers, and a
      buffer written front to back; [Net]: addresses; [Slots]: fixed tables of
      optional entries.
    - [Png]: png.rs, with a reader of the format; [Init]: init.rs, with a reference
      reading by key.
    - [Atomic]: the memory the threads share; on it [Spsc], [Handoff], [Pool] with
      [PoolSpec], and [Latest] with [LatestSpec]: the files of the same names.
    - [Stream]: net/stream.rs.
    - [Pad]: pad.rs.  [Gamepad], [Injector]: usage.rs with gamepad.rs, and
      event.rs of crates/inject; [InjectorFacts] (keys and pointer) and [InjectorPads]
      what each operation leaves on the devices, [InjectorSpec] whole runs.
    - [Gate], [Rate]: gate.rs and rate.rs of crates/host.  [Arbiter]: floor.rs, and the
      three places of admission.rs that ask it.  [Negotiation]: session.rs of crates/host.
    - [BitWriter], [BitReader]: bitstream.rs of crates/encode, bits.rs and nal.rs of
      crates/decode.  [H264Write]: h264.rs of crates/encode and the counters of
      vaapi.rs; [H264Read]: sps.rs, pps.rs and slice.rs; [H264Spec] the headers read
      back.  [Dpb]: dpb.rs; [DpbSpec] its invariant [dpb_ok].  [H264Stream]: mod.rs;
      [H264Play] a host's pictures decoded in turn, [H264StreamSpec] any run.
    - [Stun]: stun.rs; [StunFacts] and [StunSpec] its wire and what is believed.
    - [Conn]: conn.rs; [ConnSpec] its runs and invariant, [Handshake] the proven
      path and two attempts meeting; [NatProbe]: nat.rs.
    - [Turn]: turn.rs, [TurnSpec]; [Relay]: relay.rs, [RelaySpec] its runs and
      invariant, and the exchange that sets it up.
    - [Endpoint]: endpoint.rs; the trait [Media] is a class, [Session_media] its
      instance, and [EndpointSpec] the laws [MediaLaws] a media half keeps, which
      the session is shown to keep, and the direct attempt,
      [EndpointTyped] and [EndpointRelay] the relayed one.

    ** How code is translated

    A Rust [Type::method] is [Type_method]; a free function keeps its name, or
    takes its module's where two modules share one ([packet_parse],
    [video_parse]).  A method on [&mut self] takes the state and returns it; a
    method that fills a caller's buffer returns the buffer as it stands
    afterwards, also on the error paths.  [Result] is [result], [Option] is
    [option], early returns are nested matches in the order of the source.
    Integers are [Z] with the width of the source: [wadd], [wsub], [sat_add],
    [checked_add], [try_from] say how each operation leaves its range.  [usize]
    is 64 bits wide.

    A lock-free structure is its shared memory and, for each thread, where it stands
    in the call it is in; a step is one access of one thread, a run any sequence of
    steps of any threads, so a theorem about every run is about every interleaving.
    The memory is that of release and acquire: a location has its stores in the order
    they were made, a load answers with any of them not behind what the thread has
    seen, a read-modify-write reads the newest, an acquire load of a release store
    (or of a read-modify-write on from it) takes over what the storing thread had
    seen, and an access of an ordinary cell that some other access of it is not
    ordered before is a race, which ends the run as undefined.

    Loops that are not structural are [Fixpoint]s with fuel, and the fuel is
    shown to be enough where the loop is used: the distance to the frontier or
    to the next sequence for the rings ([advance_loop_spec], [locate_run],
    [pending_run], [nth_run], [poll_loop_scan]), the number of fragments for
    copying ([copy_loop_chain]), one turn per channel and one more for the
    drain ([drain_loop_none]), the bytes left for a walk over attributes
    ([walk_fuel]), everything an attempt can say at one instant for the loop
    over a relay attempt's checks ([CHECKS_FUEL], [relayed_loop_ends]), the bytes of
    the image for its blocks and runs ([png_encode_eq]), the bytes of the text for the
    scan by key ([value_after_loop_eq]), two turns a byte held for the framing of a
    stream ([frame_loop_found]) and two turns a message for its sending
    ([send_from_ok]).  The decoder's loops are bounded by the source's own arrays: 33
    zeros of a code ([zeros_loop]), 34 frames of a gap ([fill_loop]), one turn more than
    the eighteen slots for making room ([BUMPS]; [dpb_ok] holds of what it leaves).

    ** What the theorems show

    - End to end: a message queued on an idle channel is taken whole from the
      peer's session whatever order, loss-and-resend or duplication its records
      arrive in, clear of the sequence wrap ([end_to_end]); one pass puts every fragment on the wire
      ([pass_sends_message]).
    - The session: no nonce is ever reused over any run ([nonces_fresh], by
      rule induction on the session's steps); refused input changes nothing and
      accepted input is authentic ([input_authenticated]); every datagram is
      within the ceiling and is accepted by the peer ([output_well_formed]); a
      drain ends only with nothing due ([drain_ends]).
    - The receive ring: its invariant is kept by every operation, and storing,
      taking, peeking, skipping and escaping do what they say on every branch
      ([store_correct], [take_message_correct], [reassembly], [receive_queue],
      [escape_stall_correct]), clear of the sequence wrap; across it a fragment of
      the window can be refused ([wrap_refuses_fragment]).
    - The send ring: [enqueue_correct], [on_ack_correct] (no byte counted twice
      or lost), [poll_send_correct], [pass_correct] (a pass ends, within the
      cap), both with no fragment in flight under the last sequence number, at
      which the channel is stuck ([poll_send_wedged]).
    - The record layer: [seal_open_roundtrip], [open_iff_sealed].
    - Congestion and probing: the rate stays within its bounds and asking for
      it never panics, cuts are bounded ([rate_in_bounds], [cuts_bounded],
      [congested_run_cuts], [probing_correct]).
    - Codecs: round trips and exact acceptance conditions for packets
      ([packets_exact]), fragments, control, video, audio, microphone
      ([media_headers_roundtrip]) and pointer messages ([cursor_roundtrip]).
    - Checks: what verifies is what was sealed ([check_roundtrip],
      [check_accepted_iff]).  The punch: what may move it ([input_admitted]), how
      it sends ([output_disciplined]), a path only when proven both ways, over any
      run ([path_proven]), and two attempts that can hear each other establish
      ([handshake]).  Translation: the verdict names the translator
      ([classify_correct]).
    - The relay: requests and framings have their wire forms ([requests_wire],
      [framing_roundtrip]), an answer believed was sealed ([answer_believed_iff]);
      over any run every grant is the relay's own sealed word
      ([relay_grants_sealed]), what is asked can be sent ([relay_requests_sent]),
      ends are final ([relay_final]), and setup reaches a relayed address
      ([relay_setup]).
    - The endpoint: media only on a proven path ([media_on_proven_path]); a relay
      attempt drives its relay only as the relay's own runs allow and stays well
      formed ([relayed_endpoint_typed]), and sends to the relay alone, its own
      requests, or whole and for a peer the relay may reach what the punch or the
      media half gave ([relayed_output_confined]).
    - The relay's stream: however its bytes are cut into reads the messages handed
      out are the messages in them ([stream_reassembles]), and nothing handed over to
      it is dropped or reordered ([stream_sends]).
    - The lock-free structures, over every run: no access races, and a ring is a
      queue whose calls end ([ring_fifo]) and whose pops know what the push knew
      ([ring_carries], which is why [Pool] may take its rings as queues of views);
      an answer is taken whole and once ([handoff_whole]); a frame held reads as it
      was published and every hold comes back ([pool_sound]); a picture handed out is
      the one published under its sequence, and is not written while it is held
      ([latest_sound]).
    - Input: over any run, what is down on a guest's devices is tracked and allowed, and a
      release leaves nothing but what a pad's own last report says ([nothing_held]), where
      no button is stranded; a button pressed again while held on the other pointer is,
      for good ([repress_strands_button]); a pad is on its device what its buttons say and
      Guide is the owner's ([pads_as_tracked]); an absolute position lands on the pixel it
      names and on no other output ([absolute_lands]). Controller reports are normalised,
      framed, read and carried exactly ([wireless_input], [wireless_framing],
      [pad_state_exact], [report_messages]).
    - The guests of one stream: over any run a guest is handed only frames it can decode
      and has room for ([cascade]), and one that fell behind is asked a keyframe for as
      soon as it has room, whatever was sent before ([gate_recovers]); every controller
      runs within its share and the encoder at the lowest of their rates ([rate_shared]);
      nobody moves, presses or keeps pressed anything on a pointer another guest is using,
      stranded buttons apart ([one_driver]); what a guest is owed and told is what it
      declared ([negotiation_follows]).
    - The coded stream: the headers an encoder writes are read as they were meant, over
      every size and counter ([parameter_sets_read], [slice_header_read]), but for a
      length that leaves out emulation prevention ([slice_length_short]); whatever a host
      plans is decoded by its client, each picture against the one before it, and leaves
      at once ([stream_decodes]), and a picture whose reference was lost is refused until
      a refresh ([lost_reference_refused]). Over any run of reads, finishes, abandons and
      resets no frame or first field is decoded into a surface that is needed
      ([surfaces_exclusive]) and what waits leaves in order ([drained_in_order]); an
      abandoned picture's surface is never used again ([abandoned_slot_lost]), and of the
      frames inserted for a gap only the last is kept ([gap_evicts_inserted]).
      Modifications name the pictures a list begins with ([modifications_applied]).
    - The initialization text and the pointer images read back as they were written
      ([init_roundtrip], [png_roundtrip]).

    ** Assumptions

    The ciphers are code outside the repository: [Envelope] takes them as
    arguments with the laws [AeadLaws] and [GcmLaws] (opening inverts sealing
    and accepts only what sealing produced), and instantiates them by
    [sum_aead] to show the laws can hold.  SHA-1, HMAC-SHA1 and MD5 are the class
    [Digests], of which [DigestLaws] states the lengths and that they give bytes;
    [sample_digests] is an instance.  No theorem assumes they cannot be forged: what
    is shown is that only a datagram sealed under the key is believed.  A ring's slot is the sequence modulo
    the ring size; theorems that need two sequences of a window in two slots
    say so ([window_inj]), which holds away from the 32-bit wrap
    ([window_inj_nowrap]) or when the size divides the sequence space
    ([window_inj_divides]), and fails across the wrap for the real depth
    ([ring_wrap_collides]; [wrap_refuses_fragment] is what that costs).

    ** Not modelled

    Of the modelled files, [Debug] and trace output, the wiping of keys on drop, the metrics of the lock-free structures
    the wait word and closed flag of latest.rs, the log lines of the host's decisions
    and the poisoned lock of floor.rs are left out.  The H.265 headers and buffer are
    not modelled, nor are the backends that hand a job to a GPU.  The crates that drive
    sockets, threads, GPUs and operating-system devices are outside the library's
    scope. *)

From Stdlib Require Export ZArith Lia.
From stdpp Require Export base option list numbers decidable.

Declare Scope lowlat_scope.
Delimit Scope lowlat_scope with lowlat.
#[global] Open Scope lowlat_scope.
#[global] Open Scope Z_scope.

Create HintDb lowlat.

(** ** Record update

    Rust code mutates one field of a struct at a time.  [Eta] gives a record
    its field-by-field rebuilding; the setter of any field is then found by
    abstracting that field's projection. *)

Class Eta (R : Type) := eta_of : R -> R.

Class SetField {R E : Type} (proj : R -> E) := set_field : (E -> E) -> R -> R.
Arguments set_field {R E} proj {_} f r : assert.

Ltac derive_setter R proj :=
  let inst := constr:(_ : Eta R) in
  let body := eval cbv delta [eta_of] in inst in
  let h := lazymatch inst with ?h _ => h | ?h => h end in
  let body := eval cbv beta iota delta [h] in inst in
  let abs := eval pattern proj in body in
  lazymatch abs with
  | ?upd _ =>
      let s := eval cbv beta in (fun f => upd (fun r => f (proj r))) in
      exact s
  end.

#[global] Hint Extern 1 (@SetField ?R ?E ?proj) => derive_setter R proj : typeclass_instances.

Notation "x <| proj := v |>" := (set_field proj (fun _ => v) x)
  (at level 12, proj at level 9, v at level 99, left associativity,
   format "x  <| proj  :=  v |>") : lowlat_scope.
Notation "x <| proj ::= f |>" := (set_field proj f x)
  (at level 12, proj at level 9, f at level 99, left associativity,
   format "x  <| proj  ::=  f |>") : lowlat_scope.

(** ** Machine integers

    A [w]-bit unsigned integer is a [Z] in [0, 2^w); every operation that can
    leave the range says how it comes back. *)

Definition fits (w z : Z) : Prop := 0 <= z < 2 ^ w.

#[global] Instance fits_dec w z : Decision (fits w z).
Proof. unfold fits. apply _. Defined.

(** [wrapping_add], [wrapping_sub]. *)
Definition wrap (w z : Z) : Z := z mod 2 ^ w.
Definition wadd (w a b : Z) : Z := wrap w (a + b).
Definition wsub (w a b : Z) : Z := wrap w (a - b).
(** [x as iN] for an unsigned [x] of the same width. *)
Definition as_signed (w z : Z) : Z := if z <? 2 ^ (w - 1) then z else z - 2 ^ w.
(** [saturating_add], [saturating_sub]. *)
Definition sat_add (w a b : Z) : Z := Z.min (a + b) (2 ^ w - 1).
Definition sat_sub (a b : Z) : Z := Z.max (a - b) 0.
(** [checked_add], [checked_mul], [try_from]. *)
Definition checked_add (w a b : Z) : option Z := if a + b <? 2 ^ w then Some (a + b) else None.
Definition checked_mul (w a b : Z) : option Z := if a * b <? 2 ^ w then Some (a * b) else None.
Definition try_from (w z : Z) : option Z :=
  if (0 <=? z) && (z <? 2 ^ w) then Some z else None.

(** The width of [usize]: the supported targets are 64-bit. *)
Abbreviation USIZE := 64 (only parsing).

(** ** Slices *)

Definition zlen {A} (l : list A) : Z := Z.of_nat (length l).

(** [l.get(i)], and the assignment [l[i] = v] where [i] is in range. *)
Definition get_at {A} (l : list A) (i : Z) : option A := l !! Z.to_nat i.
Definition put_at {A} (l : list A) (i : Z) (v : A) : list A := <[Z.to_nat i := v]> l.

(** [Vec::swap_remove]: the last element takes the place of the one removed. *)
Definition swap_remove {A} (l : list A) (i : nat) : list A :=
  match l !! pred (length l) with Some x => take (pred (length l)) (<[i := x]> l) | None => l end.

Lemma Forall_swap_remove {A} (P : A -> Prop) (l : list A) i : Forall P l -> Forall P (swap_remove l i).
Proof.
  intros H. unfold swap_remove. destruct (l !! pred (length l)) as [x|] eqn:E; [|done]. apply Forall_take, Forall_insert; [done|].
  by eapply Forall_lookup_1.
Qed.

(** [l.get(a..b)]. *)
Definition get_range {A} (l : list A) (a b : Z) : option (list A) :=
  if (a <=? b) && (b <=? zlen l)
  then Some (take (Z.to_nat (b - a)) (drop (Z.to_nat a) l))
  else None.

(** [l[a..a + s.len()].copy_from_slice(s)], for a range that exists. *)
Definition put_range {A} (l : list A) (a : Z) (s : list A) : list A :=
  take (Z.to_nat a) l ++ s ++ drop (Z.to_nat a + length s) l.

(** ** Bytes on the wire *)

Definition bytes_ok (l : list Z) : Prop := Forall (fits 8) l.

(** [to_be_bytes], [from_be_bytes] and their little-endian counterparts. *)
Fixpoint to_be (n : nat) (v : Z) : list Z :=
  match n with
  | O => []
  | S n' => to_be n' (v / 256) ++ [v mod 256]
  end.
Definition from_be (l : list Z) : Z := foldl (fun acc b => acc * 256 + b) 0 l.
Definition to_le (n : nat) (v : Z) : list Z := reverse (to_be n v).
Definition from_le (l : list Z) : Z := from_be (reverse l).

#[global] Arguments fits : simpl never.
#[global] Arguments wrap : simpl never.
#[global] Arguments wadd : simpl never.
#[global] Arguments wsub : simpl never.
#[global] Arguments as_signed : simpl never.
#[global] Arguments sat_add : simpl never.
#[global] Arguments sat_sub : simpl never.
#[global] Arguments checked_add : simpl never.
#[global] Arguments checked_mul : simpl never.
#[global] Arguments try_from : simpl never.
#[global] Arguments zlen : simpl never.
#[global] Arguments get_at : simpl never.
#[global] Arguments put_at : simpl never.
#[global] Arguments get_range : simpl never.
#[global] Arguments put_range : simpl never.
#[global] Arguments from_be : simpl never.
#[global] Arguments from_le : simpl never.
#[global] Arguments to_le : simpl never.

(** ** Tactics *)

(** Case analysis on the integer comparisons a translated condition makes. *)
Ltac zcase :=
  match goal with
  | |- context [?a <? ?b] => destruct (Z.ltb_spec a b)
  | |- context [?a <=? ?b] => destruct (Z.leb_spec a b)
  | |- context [?a =? ?b] => destruct (Z.eqb_spec a b)
  | H : context [?a <? ?b] |- _ => destruct (Z.ltb_spec a b)
  | H : context [?a <=? ?b] |- _ => destruct (Z.leb_spec a b)
  | H : context [?a =? ?b] |- _ => destruct (Z.eqb_spec a b)
  end.
Ltac zcases := repeat (zcase; cbn [andb orb negb mbind option_bind] in *).

(** Evaluate [Z.to_nat] of literals. *)
Ltac closed_nat n := lazymatch n with O => idtac | S ?m => closed_nat m end.
Ltac nat_consts :=
  repeat match goal with
  | |- context [Z.to_nat ?c] =>
      let v := eval vm_compute in (Z.to_nat c) in closed_nat v; change (Z.to_nat c) with v
  | H : context [Z.to_nat ?c] |- _ =>
      let v := eval vm_compute in (Z.to_nat c) in closed_nat v; change (Z.to_nat c) with v in H
  end.

(** A list of known length, written out. *)
Ltac explicit_list H :=
  lazymatch type of H with
  | Z.of_nat (length ?l) = ?n => apply (f_equal Z.to_nat) in H; rewrite Nat2Z.id in H; cbn in H; explicit_list H
  | length ?l = _ => repeat (destruct l as [|? l]; [discriminate H|cbn in H; apply Nat.succ_inj in H]);
                     destruct l; [clear H|discriminate H]
  end.

(** Linear arithmetic after naming quotients and remainders. *)
Ltac modlia := Z.div_mod_to_equations; lia.

(** Unfold the machine-integer vocabulary and solve. *)
Ltac ulia :=
  unfold fits, wadd, wsub, wrap, as_signed, sat_add, sat_sub, zlen in *;
  zcases; try modlia; try lia.

(** ** Integer lemmas *)

Lemma fits_wrap w z : 0 <= w -> fits w (wrap w z).
Proof. intros. unfold fits, wrap. apply Z.mod_pos_bound. apply Z.pow_pos_nonneg; lia. Qed.

Lemma wrap_small w z : fits w z -> wrap w z = z.
Proof. apply Z.mod_small. Qed.

Lemma fits_wadd w a b : 0 <= w -> fits w (wadd w a b).
Proof. apply fits_wrap. Qed.

Lemma fits_wsub w a b : 0 <= w -> fits w (wsub w a b).
Proof. apply fits_wrap. Qed.

Lemma fits_0 w : 0 <= w -> fits w 0.
Proof. intros. split; [lia|]. apply Z.pow_pos_nonneg; lia. Qed.

Lemma wsub_wadd w a k : fits w a -> fits w k -> wsub w (wadd w a k) a = k.
Proof.
  intros Ha Hk. unfold wsub, wadd, wrap. rewrite Zminus_mod_idemp_l.
  replace (a + k - a) with k by lia. by apply wrap_small.
Qed.

Lemma wadd_wsub w a b : fits w a -> fits w b -> wadd w a (wsub w b a) = b.
Proof.
  intros Ha Hb. unfold wsub, wadd, wrap. rewrite Zplus_mod_idemp_r.
  replace (a + (b - a)) with b by lia. by apply wrap_small.
Qed.

Lemma wadd_assoc w a b c : wadd w (wadd w a b) c = wadd w a (b + c).
Proof. unfold wadd, wrap. rewrite Zplus_mod_idemp_l. f_equal. lia. Qed.

Lemma wadd_0 w a : fits w a -> wadd w a 0 = a.
Proof. intros. unfold wadd. rewrite Z.add_0_r. by apply wrap_small. Qed.

Lemma wadd_inj w a j k : fits w a -> fits w j -> fits w k -> wadd w a j = wadd w a k -> j = k.
Proof.
  intros Ha Hj Hk E. rewrite <- (wsub_wadd w a j), <- (wsub_wadd w a k), E by done. done.
Qed.

Lemma try_from_ok w z : fits w z -> try_from w z = Some z.
Proof. intros [? ?]. unfold try_from. by rewrite (proj2 (Z.leb_le _ _)), (proj2 (Z.ltb_lt _ _)) by lia. Qed.

#[export] Hint Resolve fits_wrap fits_wadd fits_wsub fits_0 : lowlat.
#[export] Hint Extern 1 (_ <= _) => lia : lowlat.

(** A decidable fact about a byte, checked on all 256 of them. *)
Lemma byte_forall (P : Z -> bool) :
  forallb P (map Z.of_nat (seq 0 256)) = true -> forall b, fits 8 b -> P b = true.
Proof.
  intros H b [Hb0 Hb1]. rewrite forallb_forall in H. apply H, in_map_iff.
  exists (Z.to_nat b). split; [lia|]. apply in_seq. lia.
Qed.

(** ** Slice lemmas *)

Section slices.
  Context {A : Type}.
  Implicit Types l s : list A.

Lemma zlen_nonneg l : 0 <= zlen l.
Proof. unfold zlen. lia. Qed.

Lemma zlen_app l s : zlen (l ++ s) = zlen l + zlen s.
Proof. unfold zlen. rewrite length_app. lia. Qed.

Lemma zlen_put_at l i v : zlen (put_at l i v) = zlen l.
Proof. unfold zlen, put_at. by rewrite length_insert. Qed.

Lemma get_put_at_eq l i v : 0 <= i < zlen l -> get_at (put_at l i v) i = Some v.
Proof. unfold zlen. intros. apply list_lookup_insert_eq. lia. Qed.

Lemma get_put_at_ne l i j v : 0 <= i -> 0 <= j -> i <> j -> get_at (put_at l i v) j = get_at l j.
Proof. intros. apply list_lookup_insert_ne. lia. Qed.

Lemma get_at_Some l i : 0 <= i < zlen l -> exists v, get_at l i = Some v.
Proof. unfold zlen, get_at. intros. apply lookup_lt_is_Some. lia. Qed.

Lemma get_at_lt l i v : 0 <= i -> get_at l i = Some v -> i < zlen l.
Proof. unfold zlen, get_at. intros ? ?%lookup_lt_Some. lia. Qed.

Lemma get_range_eq l a b :
  0 <= a <= b -> b <= zlen l ->
  get_range l a b = Some (take (Z.to_nat (b - a)) (drop (Z.to_nat a) l)).
Proof. intros. unfold get_range. by rewrite !(proj2 (Z.leb_le _ _)) by lia. Qed.

Lemma get_range_Some l a b s :
  get_range l a b = Some s -> a <= b /\ b <= zlen l /\ s = take (Z.to_nat (b - a)) (drop (Z.to_nat a) l).
Proof. unfold get_range. zcases; naive_solver. Qed.

Lemma get_range_zlen l a b s : 0 <= a -> get_range l a b = Some s -> zlen s = b - a.
Proof.
  intros ? (?&?&->)%get_range_Some. unfold zlen in *.
  rewrite length_take, length_drop. lia.
Qed.

Lemma zlen_put_range l a s : 0 <= a -> a + zlen s <= zlen l -> zlen (put_range l a s) = zlen l.
Proof.
  unfold put_range, zlen. intros. rewrite !length_app, length_take, length_drop. lia.
Qed.

Lemma lookup_put_range l a s i :
  0 <= a -> a + zlen s <= zlen l ->
  put_range l a s !! i =
    if decide (a <= Z.of_nat i < a + zlen s) then s !! (i - Z.to_nat a)%nat else l !! i.
Proof.
  unfold put_range, zlen. intros Ha Hl.
  destruct (decide (Z.of_nat i < a)).
  { rewrite decide_False by lia. rewrite lookup_app_l by (rewrite length_take; lia).
    by rewrite lookup_take_lt by lia. }
  rewrite lookup_app_r by (rewrite length_take; lia). rewrite length_take.
  replace (i - Nat.min (Z.to_nat a) (length l))%nat with (i - Z.to_nat a)%nat by lia.
  case_decide as D.
  - rewrite lookup_app_l by lia. done.
  - rewrite lookup_app_r by lia. rewrite lookup_drop. f_equal. lia.
Qed.

Lemma lookup_get_range l a b s i :
  0 <= a -> get_range l a b = Some s -> Z.of_nat i < b - a -> s !! i = l !! (Z.to_nat a + i)%nat.
Proof.
  intros ? (?&?&->)%get_range_Some Hi.
  rewrite lookup_take_lt by lia. by rewrite lookup_drop.
Qed.

(** Reading back what was just written, and reading beside it. *)
Lemma get_put_range_eq l a s :
  0 <= a -> a + zlen s <= zlen l -> get_range (put_range l a s) a (a + zlen s) = Some s.
Proof.
  intros Ha Hl. pose proof (zlen_nonneg s).
  rewrite get_range_eq by (rewrite ?zlen_put_range; lia). f_equal.
  unfold put_range. unfold zlen in *.
  rewrite drop_app_length' by (rewrite length_take; lia).
  rewrite take_app_length' by lia. done.
Qed.

Lemma get_put_range_ne l a s c d :
  0 <= a -> a + zlen s <= zlen l -> 0 <= c -> (d <= a \/ a + zlen s <= c) ->
  get_range (put_range l a s) c d = get_range l c d.
Proof.
  intros Ha Hl Hc Hd. unfold get_range. rewrite zlen_put_range by done.
  zcases; [|done..]. f_equal. apply list_eq. intros i.
  destruct (decide (Z.of_nat i < d - c)).
  - rewrite !lookup_take_lt, !lookup_drop by lia.
    rewrite lookup_put_range by done. rewrite decide_False by lia. done.
  - rewrite !lookup_take_ge by lia. done.
Qed.

Lemma get_range_app_l l s : get_range (l ++ s) 0 (zlen l) = Some l.
Proof.
  rewrite get_range_eq by (rewrite ?zlen_app; unfold zlen; lia).
  unfold zlen. rewrite Z.sub_0_r. change (Z.to_nat 0) with 0%nat. rewrite drop_0.
  rewrite take_app_length' by lia. done.
Qed.

Lemma put_range_0 l s : put_range l 0 s = s ++ drop (length s) l.
Proof. done. Qed.

Lemma put_range_app l t s a :
  a = zlen l -> put_range (l ++ t) a s = l ++ s ++ drop (length s) t.
Proof.
  intros ->. unfold put_range, zlen. rewrite Nat2Z.id.
  rewrite take_app_length, drop_app_add. done.
Qed.

Lemma zlen_nil : zlen (@nil A) = 0.
Proof. done. Qed.

Lemma put_range_nil l a : put_range l a [] = l.
Proof. unfold put_range. cbn [length app]. by rewrite Nat.add_0_r, take_drop. Qed.

(** Two consecutive writes are one. *)
Lemma put_range_twice l a s t :
  0 <= a -> a + zlen s + zlen t <= zlen l ->
  put_range (put_range l a s) (a + zlen s) t = put_range l a (s ++ t).
Proof.
  intros Ha Hl. pose proof (zlen_nonneg s). pose proof (zlen_nonneg t).
  apply list_eq. intros i.
  rewrite !lookup_put_range by (rewrite ?zlen_put_range, ?zlen_app; lia).
  rewrite zlen_app. unfold zlen in *. repeat case_decide; try lia; try done.
  - rewrite lookup_app_r by lia. f_equal. lia.
  - by rewrite lookup_app_l by lia.
Qed.

Lemma zlen_cons x l : zlen (x :: l) = zlen l + 1.
Proof. unfold zlen. cbn [length]. lia. Qed.

Lemma zlen_drop n l : zlen (drop n l) = Z.max 0 (zlen l - Z.of_nat n).
Proof. unfold zlen. rewrite length_drop. lia. Qed.

Lemma zlen_take n l : zlen (take n l) = Z.min (Z.of_nat n) (zlen l).
Proof. unfold zlen. rewrite length_take. lia. Qed.

Lemma get_range_drop l a : 0 <= a <= zlen l -> get_range l a (zlen l) = Some (drop (Z.to_nat a) l).
Proof.
  unfold zlen. intros. rewrite get_range_eq by (unfold zlen; lia).
  rewrite take_ge by (rewrite length_drop; unfold zlen; lia). done.
Qed.
(** A range in the middle of a layout, and a byte of it. *)
Lemma get_range_mid (pre s post : list A) a b :
  a = zlen pre -> b = a + zlen s -> get_range (pre ++ s ++ post) a b = Some s.
Proof.
  intros -> ->. pose proof (zlen_nonneg pre). pose proof (zlen_nonneg s). pose proof (zlen_nonneg post).
  rewrite get_range_eq by (rewrite ?zlen_app; lia). unfold zlen.
  rewrite drop_app_length' by lia. rewrite take_app_length' by lia. done.
Qed.

Lemma get_range_head (s post : list A) b : b = zlen s -> get_range (s ++ post) 0 b = Some s.
Proof. intros ->. apply get_range_app_l. Qed.

Lemma get_at_mid (pre : list A) x post a : a = zlen pre -> get_at (pre ++ x :: post) a = Some x.
Proof. intros ->. unfold get_at, zlen. rewrite Nat2Z.id. by rewrite list_lookup_middle. Qed.

Lemma get_range_None l a b : a <= b -> zlen l < b -> get_range l a b = None.
Proof. intros. unfold get_range. by rewrite (proj2 (Z.leb_gt b _)), andb_false_r. Qed.

(** One element is a range of one. *)
Lemma put_at_range l i v : 0 <= i < zlen l -> put_at l i v = put_range l i [v].
Proof.
  intros Hi. unfold put_at, put_range, zlen in *. rewrite insert_take_drop by lia.
  cbn [length app]. by rewrite Nat.add_1_r.
Qed.

Lemma get_at_range l i v : 0 <= i -> get_range l i (i + 1) = Some [v] -> get_at l i = Some v.
Proof.
  intros Hi H. unfold get_at. rewrite <- (Nat.add_0_r (Z.to_nat i)).
  rewrite <- (lookup_get_range _ _ _ _ 0 Hi H) by lia. done.
Qed.
End slices.

#[export] Hint Resolve zlen_nonneg : lowlat.

Lemma map_seq_shift {A} (f : nat -> A) n len :
  map f (seq n len) = map (fun k => f (n + k)%nat) (seq 0 len).
Proof. induction len; [done|]. by rewrite !seq_S, !map_app, IHlen. Qed.

(** ** Byte-order lemmas *)

Lemma fits8_byte b : fits 8 b -> 0 <= b < 256.
Proof. done. Qed.

Lemma length_to_be n v : length (to_be n v) = n.
Proof. revert v. induction n; intros; cbn [to_be]; [done|]. rewrite length_app, IHn. cbn. lia. Qed.

Lemma zlen_to_be n v : zlen (to_be n v) = Z.of_nat n.
Proof. unfold zlen. by rewrite length_to_be. Qed.

Lemma to_be_ok n v : bytes_ok (to_be n v).
Proof.
  revert v. induction n; intros; cbn [to_be]; [constructor|].
  apply Forall_app. split; [apply IHn|]. constructor; [|constructor].
  unfold fits. change (2 ^ 8) with 256. modlia.
Qed.

Lemma from_be_snoc l b : from_be (l ++ [b]) = from_be l * 256 + b.
Proof. unfold from_be. by rewrite foldl_app. Qed.

Lemma pow256_succ n : 2 ^ (8 * Z.of_nat (S n)) = 256 * 2 ^ (8 * Z.of_nat n).
Proof. replace (8 * Z.of_nat (S n)) with (8 + 8 * Z.of_nat n) by lia. rewrite Z.pow_add_r by lia. done. Qed.

Lemma from_to_be n v : fits (8 * Z.of_nat n) v -> from_be (to_be n v) = v.
Proof.
  unfold fits. revert v. induction n; intros v Hv.
  - unfold from_be; cbn in *; lia.
  - cbn [to_be]. rewrite from_be_snoc. rewrite pow256_succ in Hv.
    rewrite IHn; [modlia|]. split; [modlia|]. apply Z.div_lt_upper_bound; lia.
Qed.

Lemma to_from_be l : bytes_ok l -> to_be (length l) (from_be l) = l.
Proof.
  induction l as [|b l IH] using rev_ind; intros Hl; [done|].
  apply Forall_app in Hl as [Hl Hb]. inversion_clear Hb as [|?? Hb' _].
  rewrite length_app, from_be_snoc. cbn [length]. rewrite Nat.add_1_r. cbn [to_be].
  apply fits8_byte in Hb'.
  replace ((from_be l * 256 + b) / 256) with (from_be l) by modlia.
  replace ((from_be l * 256 + b) mod 256) with b by modlia.
  by rewrite IH.
Qed.

Lemma from_be_fits l : bytes_ok l -> fits (8 * zlen l) (from_be l).
Proof.
  unfold fits, zlen. induction l as [|b l IH] using rev_ind; intros Hl; [unfold from_be; cbn; lia|].
  apply Forall_app in Hl as [Hl Hb]. inversion_clear Hb as [|?? Hb' _].
  rewrite length_app, from_be_snoc. cbn [length]. rewrite Nat.add_1_r, pow256_succ.
  apply fits8_byte in Hb'. specialize (IH Hl). lia.
Qed.

Lemma from_to_le n v : fits (8 * Z.of_nat n) v -> from_le (to_le n v) = v.
Proof. intros. unfold from_le, to_le. rewrite reverse_involutive. by apply from_to_be. Qed.

Lemma to_from_le l : bytes_ok l -> to_le (length l) (from_le l) = l.
Proof.
  intros H. unfold from_le, to_le. rewrite <- length_reverse, to_from_be.
  - apply reverse_involutive.
  - by apply Forall_reverse.
Qed.

Lemma zlen_to_le n v : zlen (to_le n v) = Z.of_nat n.
Proof. unfold zlen, to_le. by rewrite length_reverse, length_to_be. Qed.

Lemma to_le_ok n v : bytes_ok (to_le n v).
Proof. apply Forall_reverse, to_be_ok. Qed.

Lemma from_le_fits l : bytes_ok l -> fits (8 * zlen l) (from_le l).
Proof.
  intros H. unfold from_le. replace (zlen l) with (zlen (reverse l)) by (unfold zlen; by rewrite length_reverse).
  by apply from_be_fits, Forall_reverse.
Qed.

#[export] Hint Resolve to_be_ok to_le_ok : lowlat.
