(* ===== verification/CoreError.v ===== *)
(** The core's error type (crates/core/src/error.rs) and the [Result] monad the
    translated operations return in. *)

From Stdlib Require Import String.
From S2P Require Import Prelude.

(** [Error]: every way the core can refuse an input. *)
Inductive Error :=
  | ShortDatagram
  | Decrypt
  | ShortPacket
  | Malformed
  | ShortAck
  | BufferTooSmall
  | BadLength
  | Oversized
  | BadKeyLength.

#[global] Instance Error_eq_dec : EqDecision Error.
Proof. solve_decision. Defined.

(** [Error::as_str]. *)
Definition Error_as_str (e : Error) : string :=
  match e with
  | ShortDatagram => "short-datagram"
  | Decrypt => "decrypt"
  | ShortPacket => "short-packet"
  | Malformed => "malformed"
  | ShortAck => "short-ack"
  | BufferTooSmall => "buffer-too-small"
  | BadLength => "bad-length"
  | Oversized => "oversized"
  | BadKeyLength => "bad-key-length"
  end%string.

(** [Result<T>]. *)
Inductive result (A : Type) :=
  | Ok (a : A)
  | Err (e : Error).
Arguments Ok {A} a.
Arguments Err {A} e.

#[global] Instance result_ret : MRet result := fun A a => Ok a.
#[global] Instance result_bind : MBind result := fun A B f m =>
  match m with Ok a => f a | Err e => Err e end.

#[global] Instance result_eq_dec {A} `{EqDecision A} : EqDecision (result A).
Proof. solve_decision. Defined.

(** [Option::ok_or]. *)
Definition ok_or {A} (o : option A) (e : Error) : result A :=
  match o with Some a => Ok a | None => Err e end.

(** Split the next [Result] or [Option] bound in a hypothesis. *)
Ltac bind_inv H :=
  repeat (
    cbn [mbind result_bind option_bind] in H;
    match type of H with
    | context [mbind _ ?m] => let E := fresh "E" in destruct m eqn:E; cbn in H; try discriminate
    | context [match ?m with Ok _ => _ | Err _ => _ end] =>
        let E := fresh "E" in destruct m eqn:E; cbn in H; try discriminate
    | context [match ?m with Some _ => _ | None => _ end] =>
        let E := fresh "E" in destruct m eqn:E; cbn in H; try discriminate
    end).

(** The short names identify the error. *)
Lemma Error_as_str_inj (a b : Error) : Error_as_str a = Error_as_str b -> a = b.
Proof. destruct a, b; cbn; intros; congruence. Qed.
