(* ===== verification/Bytes.v ===== *)
(** Bounds-checked fixed-width reads and writes (crates/common/src/bytes.rs).

    The source generates its accessors from two macros; [reader] and [writer]
    are those macros, with the conversion and the width as arguments. *)

From S2P Require Import Prelude.

(** [macro_rules! reader]. *)
Definition reader (conv : list Z -> Z) (width : nat) (src : list Z) (offset : Z) : option Z :=
  end_ ← checked_add USIZE offset (Z.of_nat width);
  slice ← get_range src offset end_;
  Some (conv slice).

(** [macro_rules! writer]: the destination afterwards, or [None] when refused
    (the destination is then as it was). *)
Definition writer (conv : nat -> Z -> list Z) (width : nat) (dst : list Z) (offset value : Z) :
    option (list Z) :=
  end_ ← checked_add USIZE offset (Z.of_nat width);
  _ ← get_range dst offset end_;
  Some (put_range dst offset (conv width value)).

Definition read_u16_be := reader from_be 2.
Definition read_u32_be := reader from_be 4.
Definition read_u64_be := reader from_be 8.
Definition read_u16_le := reader from_le 2.
Definition read_u32_le := reader from_le 4.
Definition read_u64_le := reader from_le 8.

Definition write_u16_be := writer to_be 2.
Definition write_u32_be := writer to_be 4.
Definition write_u64_be := writer to_be 8.
Definition write_u16_le := writer to_le 2.
Definition write_u32_le := writer to_le 4.
Definition write_u64_le := writer to_le 8.

Definition read_u8 (src : list Z) (offset : Z) : option Z := get_at src offset.
Definition write_u8 (dst : list Z) (offset value : Z) : option (list Z) :=
  _ ← get_at dst offset;
  Some (put_at dst offset value).

(** ** Properties *)

(** A codec: [width] bytes out, and the value back. *)
Class Codec (enc : nat -> Z -> list Z) (dec : list Z -> Z) := {
  codec_len : forall n v, zlen (enc n v) = Z.of_nat n;
  codec_inv : forall n v, fits (8 * Z.of_nat n) v -> dec (enc n v) = v;
}.

#[export] Instance be_codec : Codec to_be from_be :=
  { codec_len := zlen_to_be; codec_inv := from_to_be }.
#[export] Instance le_codec : Codec to_le from_le :=
  { codec_len := zlen_to_le; codec_inv := from_to_le }.

Section accessors.
  Context `{C : Codec enc dec} (width : nat).

Lemma writer_Some dst offset value dst' :
  0 <= offset ->
  writer enc width dst offset value = Some dst' <->
  offset + Z.of_nat width < 2 ^ USIZE /\ offset + Z.of_nat width <= zlen dst /\
  dst' = put_range dst offset (enc width value).
Proof.
  intros Ho. unfold writer, checked_add, get_range. cbn [mbind option_bind].
  zcases; cbn; split; intros HH; try (destruct HH as (?&?&->)); simplify_eq; split_and?; try done; lia.
Qed.

(** What a writer stored, the matching reader returns; every other range of
    the buffer reads as before, and the buffer keeps its length. *)
Lemma writer_reader dst offset value dst' :
  0 <= offset -> fits (8 * Z.of_nat width) value ->
  writer enc width dst offset value = Some dst' ->
  reader dec width dst' offset = Some value /\
  zlen dst' = zlen dst /\
  forall c d, 0 <= c -> d <= offset \/ offset + Z.of_nat width <= c ->
    get_range dst' c d = get_range dst c d.
Proof.
  intros Ho Hv (H1 & H2 & ->)%writer_Some; [|done].
  pose proof (codec_len width value) as HL. split_and!.
  - unfold reader, checked_add. rewrite (proj2 (Z.ltb_lt _ _) H1). cbn [mbind option_bind].
    rewrite <- HL, get_put_range_eq by lia. cbn. by rewrite codec_inv.
  - apply zlen_put_range; lia.
  - intros c d Hc Hd. apply get_put_range_ne; lia.
Qed.
End accessors.
