(* ===== verification/Seq.v ===== *)
(** RFC 1982 serial-number comparison of 32-bit sequences (crates/core/src/seq.rs). *)

From S2P Require Import Prelude.

Definition seq_gt (a b : Z) : bool := 0 <? as_signed 32 (wsub 32 a b).
Definition seq_ge (a b : Z) : bool := 0 <=? as_signed 32 (wsub 32 a b).
Definition seq_lt (a b : Z) : bool := seq_gt b a.
Definition seq_le (a b : Z) : bool := seq_ge b a.
Definition seq_distance (a b : Z) : Z := wsub 32 b a.

(** ** Properties *)

(** Half the sequence space: the reach of a comparison. *)
Definition HALF : Z := 2 ^ 31.

Lemma wsub_wadd2 a j k : wsub 32 (wadd 32 a j) (wadd 32 a k) = wrap 32 (j - k).
Proof.
  unfold wsub, wadd, wrap. rewrite <- Zminus_mod. f_equal. lia.
Qed.

Lemma as_signed_wrap d : - HALF <= d < HALF -> as_signed 32 (wrap 32 d) = d.
Proof.
  unfold as_signed, wrap, HALF. intros. destruct (decide (0 <= d)).
  - rewrite Z.mod_small by lia. rewrite (proj2 (Z.ltb_lt _ _)) by lia. done.
  - rewrite <- (Z.mod_add d 1) by lia. rewrite Z.mod_small by lia.
    rewrite (proj2 (Z.ltb_ge _ _)) by lia. lia.
Qed.

Section window.
  Context (a j k : Z) (Hjk : - HALF <= j - k < HALF).

Lemma seq_gt_offset : seq_gt (wadd 32 a j) (wadd 32 a k) = (k <? j).
Proof. unfold seq_gt. rewrite wsub_wadd2, as_signed_wrap by done. zcases; lia. Qed.

Lemma seq_ge_offset : seq_ge (wadd 32 a j) (wadd 32 a k) = (k <=? j).
Proof. unfold seq_ge. rewrite wsub_wadd2, as_signed_wrap by done. zcases; lia. Qed.
End window.

Lemma seq_lt_offset a j k : - HALF < j - k <= HALF -> seq_lt (wadd 32 a j) (wadd 32 a k) = (j <? k).
Proof. intros. apply seq_gt_offset. lia. Qed.

Lemma seq_le_offset a j k : - HALF < j - k <= HALF -> seq_le (wadd 32 a j) (wadd 32 a k) = (j <=? k).
Proof. intros. apply seq_ge_offset. lia. Qed.

Lemma seq_distance_fits a b : fits 32 (seq_distance a b).
Proof. apply fits_wsub. lia. Qed.

Lemma seq_distance_offset a k : fits 32 a -> fits 32 k -> seq_distance a (wadd 32 a k) = k.
Proof. apply wsub_wadd. Qed.

Lemma seq_distance_split a b : fits 32 a -> fits 32 b -> b = wadd 32 a (seq_distance a b).
Proof. intros. symmetry. by apply wadd_wsub. Qed.

Lemma seq_distance_refl a : seq_distance a a = 0.
Proof. unfold seq_distance, wsub. rewrite Z.sub_diag. done. Qed.

Lemma seq_lt_distance a b : fits 32 a -> fits 32 b -> seq_lt b a = (HALF <? seq_distance a b).
Proof.
  intros Ha Hb. unfold seq_lt, seq_gt, seq_distance, as_signed, wsub, wrap, fits, HALF in *.
  zcases; modlia.
Qed.

Lemma seq_distance_0 a b : fits 32 a -> fits 32 b -> seq_distance a b = 0 -> a = b.
Proof. intros Ha Hb E. rewrite (seq_distance_split a b), E, wadd_0 by done. done. Qed.

Lemma seq_distance_succ s c :
  fits 32 s -> fits 32 c -> s <> c ->
  seq_distance s c = seq_distance (wadd 32 s 1) c + 1.
Proof.
  unfold seq_distance, wsub, wadd, wrap, fits. intros. modlia.
Qed.

Lemma seq_distance_shift d s n :
  fits 32 d -> fits 32 s -> 0 <= n <= seq_distance d s ->
  seq_distance (wadd 32 d n) s = seq_distance d s - n.
Proof. unfold seq_distance, wsub, wadd, wrap, fits. intros. modlia. Qed.

(** Inside any half-space window starting at [a], the four comparisons and
    the distance agree with the plain order of the offsets, wherever the wrap
    falls; a value is never before or after itself. *)
Theorem seq_window_order (a j k : Z) :
  fits 32 a -> 0 <= j < HALF -> 0 <= k < HALF ->
  seq_gt (wadd 32 a j) (wadd 32 a k) = (k <? j) /\
  seq_ge (wadd 32 a j) (wadd 32 a k) = (k <=? j) /\
  seq_lt (wadd 32 a j) (wadd 32 a k) = (j <? k) /\
  seq_le (wadd 32 a j) (wadd 32 a k) = (j <=? k) /\
  (k <= j -> seq_distance (wadd 32 a k) (wadd 32 a j) = j - k).
Proof.
  intros Ha Hj Hk. unfold HALF in *.
  rewrite seq_gt_offset, seq_ge_offset, seq_lt_offset, seq_le_offset by (unfold HALF; lia).
  split_and!; try done. intros Hkj. unfold seq_distance. rewrite wsub_wadd2.
  apply wrap_small. unfold fits. lia.
Qed.

Lemma seq_window_order_witness :
  seq_gt (wadd 32 4294967295 2) (wadd 32 4294967295 0) = true /\ wadd 32 4294967295 2 = 1.
Proof.
  split; [|reflexivity].
  refine (proj1 (seq_window_order 4294967295 2 0 _ _ _)); unfold fits, HALF; lia.
Defined.
