(* ===== verification/Crc32.v ===== *)
(** The reflected CRC-32 (crates/core/src/crc32.rs). *)

From S2P Require Import Prelude.

(** [Crc32(u32)], the running register. *)
Record Crc32 := mkCrc32 { crc_reg : Z }.

Definition CRC_POLY : Z := 0xEDB88320.

Definition Crc32_new : Crc32 := mkCrc32 0xFFFFFFFF.

(** One turn of the inner loop. *)
Definition crc_bit (s : Z) : Z :=
  let mask := wrap 32 (- Z.land s 1) in
  Z.lxor (Z.shiftr s 1) (Z.land CRC_POLY mask).

(** The inner loop, [n] turns. *)
Fixpoint crc_bits (n : nat) (s : Z) : Z :=
  match n with
  | O => s
  | S n' => crc_bits n' (crc_bit s)
  end.

(** One turn of the outer loop. *)
Definition crc_byte (s byte : Z) : Z := crc_bits 8 (Z.lxor s byte).

Definition Crc32_update (c : Crc32) (bytes : list Z) : Crc32 :=
  mkCrc32 (foldl crc_byte (crc_reg c) bytes).

Definition Crc32_finish (c : Crc32) : Z := Z.lxor (crc_reg c) 0xFFFFFFFF.

Definition crc32_of (bytes : list Z) : Z := Crc32_finish (Crc32_update Crc32_new bytes).

(** ** Properties *)

(** The published check value of this polynomial, over the bytes "123456789". *)
Example crc32_standard_vector :
  crc32_of [0x31; 0x32; 0x33; 0x34; 0x35; 0x36; 0x37; 0x38; 0x39] = 0xCBF43926.
Proof. reflexivity. Qed.

Lemma lxor_fits w a b : 0 <= w -> fits w a -> fits w b -> fits w (Z.lxor a b).
Proof.
  unfold fits. intros Hw [Ha Ha'] [Hb Hb'].
  assert (0 <= Z.lxor a b) by (by apply Z.lxor_nonneg; split; lia).
  split; [done|]. destruct (decide (Z.lxor a b = 0)) as [->|]; [apply Z.pow_pos_nonneg; lia|].
  apply Z.log2_lt_pow2; [lia|].
  eapply Z.le_lt_trans; [by apply Z.log2_lxor|]. apply Z.max_lub_lt.
  - destruct (decide (a = 0)) as [->|]; [|apply Z.log2_lt_pow2; lia].
    destruct (decide (w = 0)) as [->|]; [|cbn; lia].
    change (2 ^ 0) with 1 in *. assert (b = 0) as -> by lia. done.
  - destruct (decide (b = 0)) as [->|]; [|apply Z.log2_lt_pow2; lia].
    destruct (decide (w = 0)) as [->|]; [|cbn; lia].
    change (2 ^ 0) with 1 in *. assert (a = 0) as -> by lia. done.
Qed.

Lemma lxor_cancel_l a b c : Z.lxor a b = Z.lxor a c -> b = c.
Proof.
  intros E. rewrite <- (Z.lxor_0_l b), <- (Z.lxor_0_l c), <- (Z.lxor_nilpotent a).
  by rewrite !Z.lxor_assoc, E.
Qed.

Lemma shiftr1_fits s : fits 32 s -> fits 31 (Z.shiftr s 1).
Proof. unfold fits. intros. rewrite Z.shiftr_div_pow2 by lia. change (2 ^ 1) with 2. modlia. Qed.

Lemma crc_bit_eq s : crc_bit s = Z.lxor (Z.shiftr s 1) (if Z.odd s then CRC_POLY else 0).
Proof.
  unfold crc_bit. f_equal. rewrite <- Z.bit0_odd.
  assert (Z.land s 1 = Z.b2z (Z.testbit s 0)) as ->.
  { change 1 with (Z.ones 1). rewrite Z.land_ones by lia. change (2 ^ 1) with 2.
    rewrite Z.bit0_odd. rewrite Zmod_odd. by destruct (Z.odd s). }
  by destruct (Z.testbit s 0).
Qed.

Lemma crc_bit_fits s : fits 32 s -> fits 32 (crc_bit s).
Proof.
  intros Hs. rewrite crc_bit_eq. apply lxor_fits; [lia| |].
  - apply shiftr1_fits in Hs. unfold fits in *. lia.
  - destruct (Z.odd s); unfold fits, CRC_POLY; lia.
Qed.

(** The bit that leaves the register is readable in the top bit of the next
    one, so a step loses nothing. *)
Lemma crc_bit_top s : fits 32 s -> Z.testbit (crc_bit s) 31 = Z.odd s.
Proof.
  intros Hs. rewrite crc_bit_eq, Z.lxor_spec.
  assert (Z.testbit (Z.shiftr s 1) 31 = false) as ->.
  { apply shiftr1_fits in Hs. unfold fits in Hs.
    destruct (decide (Z.shiftr s 1 = 0)) as [->|]; [done|].
    apply Z.bits_above_log2; [lia|]. apply Z.log2_lt_pow2; lia. }
  by destruct (Z.odd s).
Qed.

Lemma crc_bit_inj s t : fits 32 s -> fits 32 t -> crc_bit s = crc_bit t -> s = t.
Proof.
  intros Hs Ht E.
  assert (Z.odd s = Z.odd t) as Ho by (by rewrite <- (crc_bit_top s Hs), <- (crc_bit_top t Ht), E).
  rewrite !crc_bit_eq, Ho in E.
  assert (Z.shiftr s 1 = Z.shiftr t 1) as Eh.
  { rewrite !(Z.lxor_comm (Z.shiftr _ _)) in E. by apply lxor_cancel_l in E. }
  rewrite !Z.shiftr_div_pow2 in Eh by lia. change (2 ^ 1) with 2 in Eh.
  rewrite (Z.div_mod s 2), (Z.div_mod t 2), Eh, !Zmod_odd, Ho by lia. done.
Qed.

Lemma crc_bits_fits n s : fits 32 s -> fits 32 (crc_bits n s).
Proof. revert s. induction n; intros s Hs; [done|]. by apply IHn, crc_bit_fits. Qed.

Lemma crc_bits_inj n s t :
  fits 32 s -> fits 32 t -> crc_bits n s = crc_bits n t -> s = t.
Proof.
  revert s t. induction n; intros s t Hs Ht E; [done|].
  apply crc_bit_inj; [done..|]. by apply IHn; [apply crc_bit_fits..|].
Qed.

Lemma fits_8_32 b : fits 8 b -> fits 32 b.
Proof. unfold fits. lia. Qed.

Lemma crc_byte_eq s b : crc_byte s b = crc_bits 8 (Z.lxor s b).
Proof. unfold crc_byte. exact eq_refl. Qed.
#[global] Opaque crc_byte.

Lemma crc_byte_fits s b : fits 32 s -> fits 8 b -> fits 32 (crc_byte s b).
Proof.
  intros Hs Hb. rewrite crc_byte_eq.
  apply crc_bits_fits, lxor_fits; auto using fits_8_32; lia.
Qed.

Lemma crc_byte_inj s t b c :
  fits 32 s -> fits 32 t -> fits 8 b -> fits 8 c ->
  crc_byte s b = crc_byte t c -> Z.lxor s b = Z.lxor t c.
Proof.
  intros Hs Ht Hb Hc. rewrite !crc_byte_eq.
  apply (crc_bits_inj 8); apply lxor_fits; auto using fits_8_32; lia.
Qed.

Lemma crc_fold_inj l s t :
  bytes_ok l -> fits 32 s -> fits 32 t -> foldl crc_byte s l = foldl crc_byte t l -> s = t.
Proof.
  intros Hl. revert s t. induction Hl as [|b l Hb Hl IH]; intros s t Hs Ht E; [done|].
  cbn in E. apply IH in E; [|by apply crc_byte_fits..].
  apply crc_byte_inj in E; try done.
  rewrite (Z.lxor_comm s), (Z.lxor_comm t) in E. by apply lxor_cancel_l in E.
Qed.

Lemma crc_fold_fits l s : bytes_ok l -> fits 32 s -> fits 32 (foldl crc_byte s l).
Proof.
  intros Hl. revert s. induction Hl as [|b l Hb _ IH]; intros s Hs; [done|].
  by apply IH, crc_byte_fits.
Qed.

(** Feeding the bytes in pieces is feeding them whole, and the checksum
    tells apart any two messages of bytes that differ in exactly one byte. *)
Theorem crc32_streams_and_detects (pre post : list Z) (x y : Z) :
  bytes_ok pre -> bytes_ok post -> fits 8 x -> fits 8 y ->
  Crc32_finish (Crc32_update (Crc32_update Crc32_new pre) (x :: post))
    = crc32_of (pre ++ x :: post) /\
  fits 32 (crc32_of (pre ++ x :: post)) /\
  (x <> y -> crc32_of (pre ++ x :: post) <> crc32_of (pre ++ y :: post)).
Proof.
  intros Hpre Hpost Hx Hy.
  assert (fits 32 (foldl crc_byte 0xFFFFFFFF pre)) as Hs.
  { apply crc_fold_fits; [done|]. unfold fits. lia. }
  unfold crc32_of, Crc32_finish, Crc32_update. cbn [crc_reg Crc32_new].
  rewrite !foldl_app. split_and!; [done| |].
  - apply lxor_fits; [lia| |unfold fits; lia].
    cbn [foldl]. apply crc_fold_fits; [done|]. by apply crc_byte_fits.
  - intros Hne E. apply Hne. rewrite !(Z.lxor_comm _ 0xFFFFFFFF) in E.
    apply lxor_cancel_l in E. cbn [foldl] in E.
    apply crc_fold_inj in E; [|done|by apply crc_byte_fits..].
    apply crc_byte_inj in E; try done. by apply lxor_cancel_l in E.
Qed.

Lemma crc32_streams_and_detects_witness :
  crc32_of ([1] ++ 2 :: [3]) <> crc32_of ([1] ++ 5 :: [3]).
Proof.
  refine (proj2 (proj2 (crc32_streams_and_detects [1] [3] 2 5 _ _ _ _)) _);
    try (repeat constructor; unfold fits; lia); try (unfold fits; lia); lia.
Defined.
