(* ===== verification/Packet.v ===== *)
(** The demultiplexer, and cleartext packets: the data packet and the group acknowledgement
    (crates/core/src/demux.rs, crates/core/src/packet.rs). *)

From S2P Require Import Prelude CoreError.

(** Which of the two protocols on the socket a datagram belongs to
    (crates/core/src/demux.rs). *)

Inductive Datagram :=
  | Check
  | Record_.

(** [demux::classify]. *)
Definition demux_classify (datagram : list Z) : Datagram :=
  match get_at datagram 0, get_at datagram 1 with
  | Some high, Some low =>
      if (high <=? 1) && (low =? 1) && (2 <? zlen datagram) then Check else Record_
  | _, _ => Record_
  end.

Lemma demux_check_iff (d : list Z) :
  demux_classify d = Check <->
  exists high rest, d = high :: 1 :: rest /\ high <= 1 /\ rest <> [].
Proof.
  unfold demux_classify, get_at, zlen. nat_consts.
  destruct d as [|h [|l [|x rest]]]; cbn.
  - split; [done|]. intros (?&?&?&_). done.
  - split; [done|]. intros (?&?&?&_). done.
  - zcases; split; try done; intros (?&?&?&?&?); simplify_eq; try done; lia.
  - zcases; split; try done; try (intros (?&?&?&?&?); simplify_eq; lia).
    intros _. subst. eexists _, _. split_and!; done.
Qed.

Definition MARKER : Z := 0x01.
Definition HEADER_LEN : Z := 7.
Definition ACK_LEN : Z := 83.
Definition CHANNEL_COUNT : Z := 19.

Definition FLAG_DATA : Z := 0x01.
Definition FLAG_ACK : Z := 0x02.
Definition FLAG_KEEPALIVE : Z := 0x08.
Definition FLAG_NACK : Z := 0x10.
Definition FLAG_LAST : Z := 0x20.
Definition RESERVED_MASK : Z := 0xC4.
Definition KIND_MASK : Z := 0x0B.

Definition U32_MAX : Z := 0xFFFFFFFF.

Record Data := mkData {
  d_channel : Z;
  d_seq : Z;
  d_last : bool;
  d_body : list Z;
}.

Inductive AckKind := AckKind_Ack | AckKind_Keepalive.

#[global] Instance AckKind_eq_dec : EqDecision AckKind.
Proof. solve_decision. Defined.

Record Ack := mkAck {
  ack_kind : AckKind;
  ack_nack : bool;
  ack_trigger_channel : Z;
  ack_trigger_seq : Z;
  ack_cumulative : list Z;
  ack_reported : Z;
}.

Inductive Packet :=
  | Packet_Data (d : Data)
  | Packet_Ack (a : Ack).

Definition be32 (src : list Z) (offset : Z) : result Z :=
  ok_or (s ← get_range src offset (offset + 4); Some (from_be s)) ShortPacket.

(** The loop of [parse] over the reported cumulative values. *)
Fixpoint read_cumulative (cleartext : list Z) (n : nat) (index : Z) (cumulative : list Z) :
    result (list Z) :=
  match n with
  | O => Ok cumulative
  | S n' =>
      v ← be32 cleartext (HEADER_LEN + index * 4);
      read_cumulative cleartext n' (index + 1) (put_at cumulative index v)
  end.

(** [packet::parse]. *)
Definition packet_parse (cleartext : list Z) : result Packet :=
  marker ← ok_or (get_at cleartext 0) ShortPacket;
  flags ← ok_or (get_at cleartext 1) ShortPacket;
  channel ← ok_or (get_at cleartext 2) ShortPacket;
  if zlen cleartext <? HEADER_LEN then Err ShortPacket
  else if negb (Z.land flags RESERVED_MASK =? 0) then Err Malformed
  else
  let kind := Z.land flags KIND_MASK in
  if negb (kind =? FLAG_DATA) && negb (kind =? FLAG_ACK) && negb (kind =? FLAG_KEEPALIVE)
  then Err Malformed
  else
  let nack := negb (Z.land flags FLAG_NACK =? 0) in
  if nack && negb (kind =? FLAG_ACK) then Err Malformed
  else
  let last := negb (Z.land flags FLAG_LAST =? 0) in
  if last && (negb (kind =? FLAG_DATA) || nack) then Err Malformed
  else if negb (marker =? MARKER) then Err Malformed
  else if CHANNEL_COUNT <=? channel then Err Malformed
  else
  seq ← be32 cleartext 3;
  if seq =? U32_MAX then Err Malformed
  else if kind =? FLAG_DATA then
    body ← ok_or (get_range cleartext HEADER_LEN (zlen cleartext)) ShortPacket;
    Ok (Packet_Data (mkData channel seq last body))
  else
  let reported := sat_sub (zlen cleartext) HEADER_LEN / 4 in
  if reported =? 0 then Err ShortAck
  else
  let reported := Z.min reported CHANNEL_COUNT in
  cumulative ← read_cumulative cleartext (Z.to_nat reported) 0
                 (replicate (Z.to_nat CHANNEL_COUNT) 0);
  Ok (Packet_Ack (mkAck (if kind =? FLAG_ACK then AckKind_Ack else AckKind_Keepalive)
                    nack channel seq cumulative reported)).

(** [packet::encode_data]: the buffer afterwards and the bytes written. *)
Definition encode_data (out : list Z) (data : Data) : list Z * result Z :=
  if (CHANNEL_COUNT <=? d_channel data) || (d_seq data =? U32_MAX) then (out, Err Malformed)
  else
  match checked_add USIZE HEADER_LEN (zlen (d_body data)) with
  | None => (out, Err BufferTooSmall)
  | Some total =>
      match get_range out 0 total with
      | None => (out, Err BufferTooSmall)
      | Some _ =>
          let flags := if d_last data then Z.lor FLAG_DATA FLAG_LAST else FLAG_DATA in
          let header := [MARKER; flags; d_channel data] ++ to_be 4 (d_seq data) in
          (put_range (put_range out 0 header) HEADER_LEN (d_body data), Ok total)
      end
  end.

(** The loop of [encode_ack] over the cumulative values; [tail] is the region
    after the header, [ACK_LEN - HEADER_LEN] bytes long. *)
Fixpoint write_cumulative (out : list Z) (index : Z) (values : list Z) : list Z * result Z :=
  match values with
  | [] => (out, Ok ACK_LEN)
  | value :: rest =>
      if index * 4 + 4 <=? ACK_LEN - HEADER_LEN
      then write_cumulative (put_range out (HEADER_LEN + index * 4) (to_be 4 value)) (index + 1) rest
      else (out, Err BufferTooSmall)
  end.

(** [packet::encode_ack]. *)
Definition encode_ack (out : list Z) (ack : Ack) : list Z * result Z :=
  if CHANNEL_COUNT <=? ack_trigger_channel ack then (out, Err Malformed)
  else if ack_nack ack && bool_decide (ack_kind ack <> AckKind_Ack) then (out, Err Malformed)
  else
  match get_range out 0 ACK_LEN with
  | None => (out, Err BufferTooSmall)
  | Some _ =>
      let flags := match ack_kind ack with
                   | AckKind_Ack => FLAG_ACK
                   | AckKind_Keepalive => FLAG_KEEPALIVE
                   end in
      let flags := if ack_nack ack then Z.lor flags FLAG_NACK else flags in
      let header := [MARKER; flags; ack_trigger_channel ack] ++ to_be 4 (ack_trigger_seq ack) in
      write_cumulative (put_range out 0 header) 0 (ack_cumulative ack)
  end.

(** ** The wire format *)

Definition data_ok (d : Data) : Prop :=
  0 <= d_channel d < CHANNEL_COUNT /\ fits 32 (d_seq d) /\ d_seq d <> U32_MAX.

Definition data_flags (d : Data) : Z := if d_last d then 0x21 else 0x01.
Definition data_wire (d : Data) : list Z :=
  [MARKER; data_flags d; d_channel d] ++ to_be 4 (d_seq d) ++ d_body d.

Definition ack_flags (a : Ack) : Z :=
  match ack_kind a with
  | AckKind_Ack => if ack_nack a then 0x12 else 0x02
  | AckKind_Keepalive => 0x08
  end.
Definition ack_header (a : Ack) : list Z :=
  [MARKER; ack_flags a; ack_trigger_channel a] ++ to_be 4 (ack_trigger_seq a).

(** What a peer accepts in an acknowledgement's header. *)
Definition ack_ok (a : Ack) : Prop :=
  0 <= ack_trigger_channel a < CHANNEL_COUNT /\
  fits 32 (ack_trigger_seq a) /\ ack_trigger_seq a <> U32_MAX /\
  (ack_nack a = true -> ack_kind a = AckKind_Ack).

(** The flag bytes [parse] lets through. *)
Definition flags_ok (f : Z) : bool :=
  negb (negb (Z.land f RESERVED_MASK =? 0)) &&
  negb (negb (Z.land f KIND_MASK =? FLAG_DATA) && negb (Z.land f KIND_MASK =? FLAG_ACK)
          && negb (Z.land f KIND_MASK =? FLAG_KEEPALIVE)) &&
  negb (negb (Z.land f FLAG_NACK =? 0) && negb (Z.land f KIND_MASK =? FLAG_ACK)) &&
  negb (negb (Z.land f FLAG_LAST =? 0) &&
          (negb (Z.land f KIND_MASK =? FLAG_DATA) || negb (Z.land f FLAG_NACK =? 0))).

Lemma flags_ok_cases f :
  fits 8 f -> flags_ok f = true -> f = 0x01 \/ f = 0x21 \/ f = 0x02 \/ f = 0x12 \/ f = 0x08.
Proof.
  intros Hf Hok.
  pose proof (byte_forall (fun f => implb (flags_ok f)
    ((f =? 0x01) || (f =? 0x21) || (f =? 0x02) || (f =? 0x12) || (f =? 0x08))) eq_refl f Hf) as H.
  cbv beta in H. rewrite Hok in H. cbn [implb] in H. zcases; lia.
Qed.

(** ** Parsing, unfolded on a packet with a whole header *)

Lemma be32_eq l a : 0 <= a -> a + 4 <= zlen l -> be32 l a = Ok (from_be (take 4 (drop (Z.to_nat a) l))).
Proof.
  intros. unfold be32. rewrite get_range_eq by lia.
  replace (Z.to_nat (a + 4 - a)) with 4%nat by lia. done.
Qed.

Lemma packet_parse_short l : zlen l < HEADER_LEN -> packet_parse l = Err ShortPacket.
Proof.
  intros H. unfold packet_parse.
  destruct (get_at l 0); [|done]. destruct (get_at l 1); [|done]. destruct (get_at l 2); [|done].
  cbn. by rewrite (proj2 (Z.ltb_lt _ _)).
Qed.

(** What follows the seven header bytes of an acknowledgement. *)
Definition parse_ack_tail (k : AckKind) (nack : bool) (channel seq : Z) (l : list Z) : result Packet :=
  let reported := sat_sub (zlen l) HEADER_LEN / 4 in
  if reported =? 0 then Err ShortAck
  else
  let reported := Z.min reported CHANNEL_COUNT in
  cumulative ← read_cumulative l (Z.to_nat reported) 0 (replicate (Z.to_nat CHANNEL_COUNT) 0);
  Ok (Packet_Ack (mkAck k nack channel seq cumulative reported)).

Lemma parse_ack_tail_not_data k nack c sq l d : parse_ack_tail k nack c sq l <> Ok (Packet_Data d).
Proof. unfold parse_ack_tail. destruct (_ =? 0); [done|]. by destruct (read_cumulative _ _ _ _). Qed.

Section whole_header.
  Context (m f c s0 s1 s2 s3 : Z) (rest : list Z).
Let l : list Z := [m; f; c; s0; s1; s2; s3] ++ rest.
Let sq : Z := from_be [s0; s1; s2; s3].

Lemma packet_parse_whole :
  packet_parse l =
    if negb (flags_ok f) then Err Malformed
    else if negb (m =? MARKER) then Err Malformed
    else if CHANNEL_COUNT <=? c then Err Malformed
    else if sq =? U32_MAX then Err Malformed
    else if Z.land f KIND_MASK =? FLAG_DATA
    then Ok (Packet_Data (mkData c sq (negb (Z.land f FLAG_LAST =? 0)) rest))
    else parse_ack_tail (if Z.land f KIND_MASK =? FLAG_ACK then AckKind_Ack else AckKind_Keepalive)
           (negb (Z.land f FLAG_NACK =? 0)) c sq l.
Proof.
  assert (zlen l = 7 + zlen rest) as Hl by (unfold l; rewrite zlen_app; done).
  pose proof (zlen_nonneg rest).
  assert (be32 l 3 = Ok sq) as Hseq by (rewrite be32_eq by lia; done).
  assert (get_range l HEADER_LEN (zlen l) = Some rest) as Hbody
    by (rewrite get_range_drop by (unfold HEADER_LEN; lia); done).
  unfold packet_parse. change (get_at l 0) with (Some m). change (get_at l 1) with (Some f).
  change (get_at l 2) with (Some c). cbn [ok_or mbind result_bind].
  rewrite (proj2 (Z.ltb_ge _ _)) by (unfold HEADER_LEN; lia). rewrite Hseq, Hbody.
  cbn [ok_or mbind result_bind]. unfold flags_ok, parse_ack_tail.
  destruct (Z.land f RESERVED_MASK =? 0); [|done]. cbn [negb andb].
  destruct (_ && _ && _); [done|]. cbn [negb andb].
  destruct (_ && _); [done|]. cbn [negb andb].
  by destruct (_ && _).
Qed.
End whole_header.

Lemma seven_bytes (l : list Z) :
  HEADER_LEN <= zlen l ->
  exists m f c s0 s1 s2 s3 rest, l = [m; f; c; s0; s1; s2; s3] ++ rest.
Proof.
  unfold HEADER_LEN, zlen. intros H.
  destruct l as [|m [|f [|c [|s0 [|s1 [|s2 [|s3 rest]]]]]]]; cbn in H; try lia.
  by exists m, f, c, s0, s1, s2, s3, rest.
Qed.

Lemma to_be4 v : exists a b c d, to_be 4 v = [a; b; c; d].
Proof. cbn. by eexists _, _, _, _. Qed.

Lemma from_to_be4 v : fits 32 v -> from_be (to_be 4 v) = v.
Proof. intros. by apply from_to_be. Qed.

Lemma to_from_be4 a b c d : bytes_ok [a; b; c; d] -> to_be 4 (from_be [a; b; c; d]) = [a; b; c; d].
Proof. intros H. apply (to_from_be _ H). Qed.

(** The header checks, forwards: a well-formed header is accepted. *)
Lemma packet_parse_header f c sq rest :
  flags_ok f = true -> c < CHANNEL_COUNT -> fits 32 sq -> sq <> U32_MAX ->
  let l := [MARKER; f; c] ++ to_be 4 sq ++ rest in
  packet_parse l =
    if Z.land f KIND_MASK =? FLAG_DATA
    then Ok (Packet_Data (mkData c sq (negb (Z.land f FLAG_LAST =? 0)) rest))
    else parse_ack_tail (if Z.land f KIND_MASK =? FLAG_ACK then AckKind_Ack else AckKind_Keepalive)
           (negb (Z.land f FLAG_NACK =? 0)) c sq l.
Proof.
  intros Hf Hc Hs Hm l. subst l. destruct (to_be4 sq) as (s0 & s1 & s2 & s3 & E). rewrite E.
  change ([MARKER; f; c] ++ [s0; s1; s2; s3] ++ rest) with ([MARKER; f; c; s0; s1; s2; s3] ++ rest).
  rewrite packet_parse_whole, <- E, from_to_be4, Hf by done.
  rewrite (proj2 (Z.leb_gt _ _)), (proj2 (Z.eqb_neq sq _)) by done. done.
Qed.

(** The header checks, backwards: only a well-formed header is accepted. *)
Lemma packet_parse_inv l p :
  bytes_ok l -> packet_parse l = Ok p ->
  exists f c sq rest, l = [MARKER; f; c] ++ to_be 4 sq ++ rest /\
    fits 8 f /\ flags_ok f = true /\ 0 <= c < CHANNEL_COUNT /\ fits 32 sq /\ sq <> U32_MAX.
Proof.
  intros Hb Hp. destruct (Z.lt_ge_cases (zlen l) HEADER_LEN).
  { by rewrite packet_parse_short in Hp. }
  destruct (seven_bytes l) as (m&f&c&s0&s1&s2&s3&rest&->); [lia|].
  rewrite packet_parse_whole in Hp.
  apply Forall_app in Hb as [Hh Hrest].
  rewrite !Forall_cons_iff in Hh. destruct Hh as (_&Hf&Hc&Hs).
  assert (bytes_ok [s0; s1; s2; s3]) as H4 by (unfold bytes_ok; by rewrite !Forall_cons_iff).
  destruct (flags_ok f) eqn:Ef; [|done]. cbn [negb] in Hp.
  destruct (Z.eqb_spec m MARKER) as [->|]; [|done]. cbn [negb] in Hp.
  destruct (Z.leb_spec CHANNEL_COUNT c); [done|].
  destruct (Z.eqb_spec (from_be [s0; s1; s2; s3]) U32_MAX) as [|Hne]; [done|].
  exists f, c, (from_be [s0; s1; s2; s3]), rest. rewrite to_from_be4 by done.
  split_and!; try done; [by destruct Hc|]. apply (from_be_fits _ H4).
Qed.

(** ** Data packets *)

Lemma encode_data_wire out d :
  data_ok d -> HEADER_LEN + zlen (d_body d) <= zlen out -> HEADER_LEN + zlen (d_body d) < 2 ^ USIZE ->
  encode_data out d =
    (data_wire d ++ drop (Z.to_nat (HEADER_LEN + zlen (d_body d))) out,
     Ok (HEADER_LEN + zlen (d_body d))).
Proof.
  intros (Hc & Hs & Hm) Hl Hu. pose proof (zlen_nonneg (d_body d)).
  unfold encode_data, checked_add. unfold HEADER_LEN in *.
  rewrite (proj2 (Z.leb_gt _ _)), (proj2 (Z.eqb_neq _ _)) by (lia || done). cbn [orb].
  rewrite (proj2 (Z.ltb_lt _ _)) by lia.
  rewrite get_range_eq by lia. f_equal. rewrite put_range_0.
  rewrite put_range_app by (rewrite zlen_app, zlen_to_be; done).
  assert ((if d_last d then Z.lor FLAG_DATA FLAG_LAST else FLAG_DATA) = data_flags d) as ->
    by (unfold data_flags; by destruct (d_last d)).
  rewrite length_app, length_to_be. unfold data_wire, zlen in *. cbn [length].
  rewrite drop_drop, <- !app_assoc.
  replace (Z.to_nat (7 + Z.of_nat (length (d_body d)))) with (3 + 4 + length (d_body d))%nat by lia.
  done.
Qed.

Lemma zlen_data_wire d : zlen (data_wire d) = HEADER_LEN + zlen (d_body d).
Proof. unfold data_wire. rewrite !zlen_app, zlen_to_be. unfold HEADER_LEN, zlen. cbn. lia. Qed.

Lemma packet_parse_data_wire d : data_ok d -> packet_parse (data_wire d) = Ok (Packet_Data d).
Proof.
  intros (Hc & Hs & Hm). unfold data_wire.
  rewrite packet_parse_header; [|by destruct d as [? ? [] ?]|lia|done|done].
  by destruct d as [c s [] b].
Qed.

(** A successful encode was asked for a packet the wire can carry. *)
Lemma encode_data_inv out d out' n :
  0 <= d_channel d -> fits 32 (d_seq d) -> encode_data out d = (out', Ok n) ->
  data_ok d /\ n = HEADER_LEN + zlen (d_body d) /\
  exists rest, out' = data_wire d ++ rest /\ zlen out' = zlen out.
Proof.
  intros Hc Hs H. pose proof (zlen_nonneg (d_body d)).
  assert (data_ok d /\ HEADER_LEN + zlen (d_body d) <= zlen out /\ HEADER_LEN + zlen (d_body d) < 2 ^ 64)
    as (Hd & Hl & Hu).
  { unfold encode_data, checked_add in H. destruct (Z.leb_spec CHANNEL_COUNT (d_channel d)); [done|].
    destruct (Z.eqb_spec (d_seq d) U32_MAX); [done|]. cbn [orb] in H.
    destruct (Z.ltb_spec (HEADER_LEN + zlen (d_body d)) (2 ^ 64)); [|done].
    unfold get_range in H. destruct ((0 <=? _) && _) eqn:El; [|done].
    split; [done|]. revert El. zcases; lia. }
  rewrite encode_data_wire in H by done. apply pair_equal_spec in H as [<- [= <-]]. split_and!; try done.
  eexists. split; [reflexivity|].
  rewrite zlen_app, zlen_drop, zlen_data_wire. unfold HEADER_LEN in *. lia.
Qed.
Lemma packet_parse_data_inv l d :
  bytes_ok l -> packet_parse l = Ok (Packet_Data d) -> data_ok d /\ l = data_wire d.
Proof.
  intros Hb Hp. destruct (packet_parse_inv l _ Hb Hp) as (f&c&sq&rest&->&Hf&Ef&Hc&Hs&Hm).
  rewrite packet_parse_header in Hp by (done || lia).
  destruct (Z.land f KIND_MASK =? FLAG_DATA) eqn:Ek;
    [|by apply parse_ack_tail_not_data in Hp].
  injection Hp as <-. split; [exact (conj Hc (conj Hs Hm))|]. unfold data_wire, data_flags; cbn [d_last].
  destruct (flags_ok_cases f Hf Ef) as [->|[->|[->|[->| ->]]]]; by vm_compute in Ek.
Qed.

(** [parse] reads back exactly what [encode_data] writes: into any buffer
    that is long enough, the encoder writes the packet and nothing after it,
    and parsing those bytes gives the packet again. *)
Theorem data_roundtrip (out : list Z) (d : Data) :
  data_ok d -> HEADER_LEN + zlen (d_body d) <= zlen out -> zlen out < 2 ^ USIZE ->
  exists out' n,
    encode_data out d = (out', Ok n) /\ n = HEADER_LEN + zlen (d_body d) /\
    packet_parse (take (Z.to_nat n) out') = Ok (Packet_Data d) /\
    drop (Z.to_nat n) out' = drop (Z.to_nat n) out.
Proof.
  intros Hd Hl Hu. rewrite encode_data_wire by (done || lia).
  eexists _, _. split_and!; [done..| |].
  - rewrite <- zlen_data_wire. unfold zlen. rewrite Nat2Z.id, take_app_length.
    by apply packet_parse_data_wire.
  - rewrite <- zlen_data_wire. unfold zlen. rewrite Nat2Z.id, drop_app_length. done.
Qed.

Lemma data_roundtrip_witness :
  exists out' n,
    encode_data (replicate 16 0) (mkData 5 0x12345678 true [0xAA; 0xBB]) = (out', Ok n) /\
    n = 9 /\
    packet_parse (take (Z.to_nat n) out') = Ok (Packet_Data (mkData 5 0x12345678 true [0xAA; 0xBB])) /\
    drop (Z.to_nat n) out' = drop (Z.to_nat n) (replicate 16 0).
Proof.
  apply (data_roundtrip (replicate 16 0) (mkData 5 0x12345678 true [0xAA; 0xBB])).
  - unfold data_ok, fits, U32_MAX, CHANNEL_COUNT; cbn; lia.
  - vm_compute. discriminate.
  - vm_compute. reflexivity.
Defined.

(** [parse] accepts a datagram as a data packet only when it is byte for
    byte the encoding of that packet: the marker, a reserved bit, an ambiguous
    kind, a stray flag, the channel and the sequence are all checked. *)
Theorem data_parse_iff (l : list Z) (d : Data) :
  bytes_ok l -> packet_parse l = Ok (Packet_Data d) <-> data_ok d /\ l = data_wire d.
Proof.
  intros Hb. split; [by apply packet_parse_data_inv|].
  intros [Hd ->]. by apply packet_parse_data_wire.
Qed.

Lemma data_parse_iff_witness :
  packet_parse [0x01; 0x21; 0x05; 0; 0; 0; 7; 9] = Ok (Packet_Data (mkData 5 7 true [9])).
Proof.
  apply (data_parse_iff [0x01; 0x21; 0x05; 0; 0; 0; 7; 9] (mkData 5 7 true [9])).
  - repeat constructor; unfold fits; lia.
  - split; [|reflexivity]. unfold data_ok, fits, U32_MAX, CHANNEL_COUNT; cbn; lia.
Defined.

(** ** Acknowledgements *)

(** The cumulative value a packet carries for channel [i]. *)
Definition reported_value (l : list Z) (i : nat) : Z := from_be (take 4 (drop (7 + 4 * i) l)).

(** The nineteen values an acknowledgement of [n] reported channels stands for. *)
Definition reported_values (l : list Z) (n : nat) : list Z :=
  map (reported_value l) (seq 0 n) ++ replicate (19 - n) 0.

Lemma put_at_app {A} (l : list A) x r v : put_at (l ++ x :: r) (zlen l) v = (l ++ [v]) ++ r.
Proof.
  unfold put_at, zlen. rewrite Nat2Z.id, insert_app_r_alt by lia.
  rewrite Nat.sub_diag. cbn. by rewrite <- app_assoc.
Qed.

Lemma read_cumulative_eq l n k seen :
  HEADER_LEN + 4 * (zlen seen + Z.of_nat n) <= zlen l ->
  read_cumulative l n (zlen seen) (seen ++ replicate (n + k) 0) =
    Ok (seen ++ map (reported_value l) (seq (length seen) n) ++ replicate k 0).
Proof.
  revert seen. induction n as [|n IH]; intros seen H; [done|].
  cbn [read_cumulative]. pose proof (zlen_nonneg seen). unfold HEADER_LEN in *.
  rewrite be32_eq by lia. cbn [mbind result_bind].
  replace (S n + k)%nat with (S (n + k)) by lia. cbn [replicate].
  rewrite put_at_app. replace (zlen seen + 1) with (zlen (seen ++ [0])) by (rewrite zlen_app; done).
  set (v := from_be _).
  replace (zlen (seen ++ [0])) with (zlen (seen ++ [v])) by (by rewrite !zlen_app).
  rewrite IH by (rewrite zlen_app; unfold zlen in *; cbn [length]; lia).
  f_equal. rewrite <- app_assoc, length_app. cbn [length app seq map].
  replace (length seen + 1)%nat with (S (length seen)) by lia.
  do 3 f_equal. unfold v, reported_value. do 3 f_equal. unfold zlen. lia.
Qed.

Lemma parse_ack_tail_eq k nack c sq l :
  parse_ack_tail k nack c sq l =
    if zlen l <? HEADER_LEN + 4 then Err ShortAck
    else let n := Z.min ((zlen l - HEADER_LEN) / 4) CHANNEL_COUNT in
         Ok (Packet_Ack (mkAck k nack c sq (reported_values l (Z.to_nat n)) n)).
Proof.
  unfold parse_ack_tail, sat_sub, HEADER_LEN, CHANNEL_COUNT. pose proof (zlen_nonneg l).
  destruct (Z.ltb_spec (zlen l) (7 + 4)).
  { rewrite (proj2 (Z.eqb_eq _ _)); [done|]. modlia. }
  rewrite (proj2 (Z.eqb_neq _ _)) by modlia. cbv zeta.
  replace (Z.max (zlen l - 7) 0) with (zlen l - 7) by lia.
  set (n := Z.min _ _).
  assert (1 <= n <= 19 /\ 7 + 4 * n <= zlen l) as [Hn Hl] by (unfold n; modlia).
  change (Z.to_nat 19) with 19%nat.
  pose proof (read_cumulative_eq l (Z.to_nat n) (19 - Z.to_nat n) []) as HR.
  replace (Z.to_nat n + (19 - Z.to_nat n))%nat with 19%nat in HR by lia.
  cbn [app] in HR. change (zlen []) with 0 in HR.
  rewrite HR by (unfold HEADER_LEN; lia). done.
Qed.

Lemma zlen_header f c sq (rest : list Z) :
  zlen ([MARKER; f; c] ++ to_be 4 sq ++ rest) = HEADER_LEN + zlen rest.
Proof. rewrite !zlen_app, zlen_to_be. unfold zlen, HEADER_LEN; cbn [length]; lia. Qed.

Lemma ack_parse_inv l a :
  bytes_ok l -> packet_parse l = Ok (Packet_Ack a) ->
  ack_ok a /\
  exists rest, l = ack_header a ++ rest /\ 4 <= zlen rest /\
    ack_reported a = Z.min (zlen rest / 4) CHANNEL_COUNT /\
    ack_cumulative a = reported_values l (Z.to_nat (ack_reported a)).
Proof.
  intros Hb Hp. destruct (packet_parse_inv l _ Hb Hp) as (f&c&sq&rest&->&Hf&Ef&Hc&Hs&Hm).
  rewrite packet_parse_header, parse_ack_tail_eq, zlen_header in Hp by (done || lia).
  destruct (Z.land f KIND_MASK =? FLAG_DATA) eqn:Ek; [done|].
  destruct (Z.ltb_spec (HEADER_LEN + zlen rest) (HEADER_LEN + 4)); [done|].
  injection Hp as <-.
  replace (HEADER_LEN + zlen rest - HEADER_LEN) with (zlen rest) by lia. split.
  - split_and!; try done; [apply Hc..|].
    destruct (flags_ok_cases f Hf Ef) as [->|[->|[->|[->| ->]]]]; done.
  - exists rest. split_and!; [|lia|done..].
    unfold ack_header, ack_flags; cbn [ack_kind ack_nack ack_trigger_channel ack_trigger_seq].
    destruct (flags_ok_cases f Hf Ef) as [->|[->|[->|[->| ->]]]]; by vm_compute in Ek.
Qed.

Lemma ack_parse_header a rest :
  ack_ok a -> 4 <= zlen rest ->
  packet_parse (ack_header a ++ rest) =
    let n := Z.min (zlen rest / 4) CHANNEL_COUNT in
    Ok (Packet_Ack (mkAck (ack_kind a) (ack_nack a) (ack_trigger_channel a) (ack_trigger_seq a)
                      (reported_values (ack_header a ++ rest) (Z.to_nat n)) n)).
Proof.
  intros (Hc & Hs & Hm & Hn) Hrest. unfold ack_header. rewrite <- app_assoc.
  rewrite packet_parse_header; [|by unfold ack_flags; destruct a as [[] []]|lia|done|done].
  rewrite parse_ack_tail_eq, zlen_header.
  rewrite (proj2 (Z.ltb_ge _ _)) by lia.
  replace (HEADER_LEN + zlen rest - HEADER_LEN) with (zlen rest) by lia.
  destruct a as [[] [] c sq cum rep]; try done. by specialize (Hn eq_refl).
Qed.

(** An acknowledgement is read whatever number of channels its sender
    carries: header, then at least one cumulative value; the values present
    are read in order up to nineteen, the absent ones stand as zero with
    [reported] saying how many were there, and bytes past them are ignored. *)
Theorem ack_parse_iff (l : list Z) (a : Ack) :
  bytes_ok l ->
  packet_parse l = Ok (Packet_Ack a) <->
  ack_ok a /\
  exists rest, l = ack_header a ++ rest /\ 4 <= zlen rest /\
    ack_reported a = Z.min (zlen rest / 4) CHANNEL_COUNT /\
    ack_cumulative a = reported_values l (Z.to_nat (ack_reported a)).
Proof.
  intros Hb. split; [by apply ack_parse_inv|].
  intros (Hok & rest & -> & Hrest & Hrep & Hcum).
  rewrite ack_parse_header by done. cbv zeta. rewrite <- Hrep, <- Hcum. by destruct a.
Qed.

(** Four reported channels of the older generation, in 23 bytes. *)
Lemma ack_parse_iff_witness :
  packet_parse ([1; 2; 3; 0; 0; 0; 9] ++ [0; 0; 0; 1; 0; 0; 0; 2; 0; 0; 0; 3; 0; 0; 0; 4]) =
  Ok (Packet_Ack (mkAck AckKind_Ack false 3 9 ([1; 2; 3; 4] ++ replicate 15 0) 4)).
Proof.
  apply (ack_parse_iff ([1; 2; 3; 0; 0; 0; 9] ++ [0; 0; 0; 1; 0; 0; 0; 2; 0; 0; 0; 3; 0; 0; 0; 4])).
  - repeat constructor; unfold fits; lia.
  - split; [unfold ack_ok, fits, U32_MAX, CHANNEL_COUNT; cbn; split_and!; done || lia|].
    exists [0; 0; 0; 1; 0; 0; 0; 2; 0; 0; 0; 3; 0; 0; 0; 4].
    split_and!; [reflexivity|vm_compute; discriminate|reflexivity..].
Defined.

(** The cumulative values of an acknowledgement, as written. *)
Definition values_wire (vs : list Z) : list Z := concat (map (to_be 4) vs).

Lemma length_values_wire vs : length (values_wire vs) = (4 * length vs)%nat.
Proof.
  induction vs as [|v vs IH]; [done|]. unfold values_wire in *. cbn [map concat].
  rewrite length_app, length_to_be, IH. cbn [length]. lia.
Qed.

Lemma write_cumulative_eq vs pre t index :
  zlen pre = HEADER_LEN + 4 * index -> 0 <= index -> index + zlen vs <= CHANNEL_COUNT ->
  write_cumulative (pre ++ t) index vs =
    (pre ++ values_wire vs ++ drop (4 * length vs) t, Ok ACK_LEN).
Proof.
  unfold HEADER_LEN, CHANNEL_COUNT. revert pre t index.
  induction vs as [|v vs IH]; intros pre t index Hpre Hi Hv; [done|].
  cbn [write_cumulative]. rewrite zlen_cons in Hv. pose proof (zlen_nonneg vs).
  rewrite (proj2 (Z.leb_le _ _)) by (unfold ACK_LEN, HEADER_LEN; lia).
  rewrite put_range_app by (unfold HEADER_LEN; lia). rewrite length_to_be.
  rewrite app_assoc, IH by (rewrite ?zlen_app, ?zlen_to_be; lia).
  rewrite drop_drop, <- app_assoc. f_equal. unfold values_wire. cbn [map concat].
  rewrite <- app_assoc. do 3 f_equal. cbn [length]. f_equal. lia.
Qed.

Lemma reported_value_wire hd vs t i v :
  length hd = 7%nat -> vs !! i = Some v -> fits 32 v ->
  reported_value (hd ++ values_wire vs ++ t) i = v.
Proof.
  intros Hh Hi Hv. unfold reported_value.
  rewrite <- Hh, drop_app_add.
  revert i Hi. induction vs as [|w vs IH]; intros i Hi; [done|].
  unfold values_wire in *. cbn [map concat]. destruct i as [|i]; cbn in Hi.
  - injection Hi as ->. rewrite Nat.mul_0_r, drop_0, <- app_assoc.
    rewrite take_app_length' by (by rewrite length_to_be). by apply from_to_be4.
  - replace (4 * S i)%nat with (length (to_be 4 w) + 4 * i)%nat by (rewrite length_to_be; lia).
    rewrite <- app_assoc, drop_app_add. by apply IH.
Qed.

Lemma reported_values_wire hd vs t :
  length hd = 7%nat -> length vs = 19%nat -> Forall (fits 32) vs ->
  reported_values (hd ++ values_wire vs ++ t) 19 = vs.
Proof.
  intros Hh Hl Hf. unfold reported_values. cbn [Nat.sub replicate]. rewrite app_nil_r.
  apply list_eq. intros i. destruct (decide (i < 19)%nat).
  - destruct (lookup_lt_is_Some_2 vs i) as [v Hv]; [lia|]. rewrite Hv.
    rewrite list_lookup_fmap, lookup_seq_lt by done. cbn. f_equal.
    eapply reported_value_wire; [done..|]. rewrite Forall_lookup in Hf. by eapply Hf.
  - rewrite !lookup_ge_None_2; [done|lia|]. by rewrite length_map, length_seq; lia.
Qed.

Lemma encode_ack_wire out a :
  ack_ok a -> zlen (ack_cumulative a) = CHANNEL_COUNT -> ACK_LEN <= zlen out ->
  encode_ack out a =
    (ack_header a ++ values_wire (ack_cumulative a) ++ drop (Z.to_nat ACK_LEN) out, Ok ACK_LEN).
Proof.
  intros (Hc & Hs & Hm & Hn) Hl Ho. unfold encode_ack.
  rewrite (proj2 (Z.leb_gt _ _)) by lia.
  assert (ack_nack a && bool_decide (ack_kind a <> AckKind_Ack) = false) as ->.
  { destruct (ack_nack a); [|done]. cbn [andb]. rewrite Hn by done. reflexivity. }
  unfold ACK_LEN in *. rewrite get_range_eq by lia. rewrite put_range_0.
  rewrite write_cumulative_eq;
    [|by rewrite zlen_app, zlen_to_be|lia|lia].
  rewrite drop_drop, length_app, length_to_be. f_equal.
  assert (length (ack_cumulative a) = 19%nat) as Hl' by (unfold zlen, CHANNEL_COUNT in Hl; lia).
  rewrite Hl'. unfold ack_header, ack_flags.
  destruct (ack_kind a), (ack_nack a); try done. by specialize (Hn eq_refl).
Qed.

Lemma ack_wire_parse a :
  ack_ok a -> zlen (ack_cumulative a) = CHANNEL_COUNT -> Forall (fits 32) (ack_cumulative a) ->
  ack_reported a = CHANNEL_COUNT ->
  zlen (ack_header a ++ values_wire (ack_cumulative a)) = ACK_LEN /\
  packet_parse (ack_header a ++ values_wire (ack_cumulative a)) = Ok (Packet_Ack a).
Proof.
  intros Hok Hl Hf Hr.
  assert (length (ack_cumulative a) = 19%nat) as Hl' by (unfold zlen, CHANNEL_COUNT in Hl; lia).
  assert (length (ack_header a) = 7%nat) as Hh
    by (unfold ack_header; by rewrite length_app, length_to_be).
  split; [unfold zlen; by rewrite length_app, length_values_wire, Hh, Hl'|].
  rewrite ack_parse_header
    by (done || unfold zlen; rewrite length_values_wire; lia).
  assert (zlen (values_wire (ack_cumulative a)) / 4 = 19) as ->
    by (unfold zlen; rewrite length_values_wire, Hl'; done).
  cbv zeta. change (Z.min 19 CHANNEL_COUNT) with 19. change (Z.to_nat 19) with 19%nat.
  rewrite <- (app_nil_r (values_wire _)), reported_values_wire by done.
  destruct a; cbn in *; by subst.
Qed.

(** Every group acknowledgement or keepalive the encoder is asked for is
    exactly 83 bytes and parses back to itself, all nineteen channels reported. *)
Theorem ack_roundtrip (out : list Z) (a : Ack) :
  ack_ok a -> zlen (ack_cumulative a) = CHANNEL_COUNT -> Forall (fits 32) (ack_cumulative a) ->
  ack_reported a = CHANNEL_COUNT -> ACK_LEN <= zlen out ->
  exists out', encode_ack out a = (out', Ok ACK_LEN) /\
    packet_parse (take (Z.to_nat ACK_LEN) out') = Ok (Packet_Ack a).
Proof.
  intros Hok Hl Hf Hr Ho. rewrite encode_ack_wire by done. eexists. split; [done|].
  destruct (ack_wire_parse a Hok Hl Hf Hr) as [Hz Hp].
  rewrite app_assoc, take_app_length' by (unfold zlen, ACK_LEN in *; lia). done.
Qed.

Definition sample_ack : Ack := mkAck AckKind_Ack true 5 0x12345678 (replicate 19 1000) 19.

Lemma ack_roundtrip_witness :
  exists out', encode_ack (replicate 100 7) sample_ack = (out', Ok ACK_LEN) /\
    packet_parse (take (Z.to_nat ACK_LEN) out') = Ok (Packet_Ack sample_ack).
Proof.
  apply (ack_roundtrip (replicate 100 7) sample_ack).
  - unfold ack_ok, fits, U32_MAX, CHANNEL_COUNT; cbn; split_and!; done || lia.
  - reflexivity.
  - apply Forall_replicate. unfold fits. lia.
  - reflexivity.
  - vm_compute. congruence.
Defined.
