(* ===== verification/Message.v ===== *)
(** Message framing and fragmentation (crates/core/src/message.rs). *)

From S2P Require Import Prelude CoreError.

Definition LENGTH_PREFIX_LEN : Z := 4.

(** [message::fragment_count]. *)
Definition fragment_count (total_len body_capacity : Z) : Z :=
  if body_capacity =? 0 then 0
  else
  let stream := total_len + LENGTH_PREFIX_LEN in
  let whole := stream / body_capacity in
  if stream mod body_capacity =? 0 then whole else whole + 1.

(** [message::parse_length_prefix]. *)
Definition parse_length_prefix (first_body : list Z) : result Z :=
  ok_or (s ← get_range first_body 0 LENGTH_PREFIX_LEN; Some (from_be s)) BadLength.

Record Message := mkMessage {
  msg_prefix : list Z;
  msg_header : list Z;
  msg_payload : list Z;
}.

Record Fragment := mkFragment {
  frag_len : Z;
  frag_last : bool;
}.

Definition Message_new (header payload : list Z) : result Message :=
  total ← ok_or (checked_add USIZE (zlen header) (zlen payload)) BadLength;
  total ← ok_or (try_from 32 total) BadLength;
  Ok (mkMessage (to_be 4 total) header payload).

Definition Message_total_len (m : Message) : Z := from_be (msg_prefix m).

Definition Message_stream_len (m : Message) : Z :=
  LENGTH_PREFIX_LEN + zlen (msg_header m) + zlen (msg_payload m).

Definition Message_fragment_count (m : Message) (body_capacity : Z) : Z :=
  fragment_count (Message_total_len m) body_capacity.

Definition Message_byte_at (m : Message) (position : Z) : option Z :=
  if position <? LENGTH_PREFIX_LEN then get_at (msg_prefix m) position
  else
  let position := position - LENGTH_PREFIX_LEN in
  if position <? zlen (msg_header m) then get_at (msg_header m) position
  else get_at (msg_payload m) (position - zlen (msg_header m)).

(** The loop of [Message::fragment] over the [n] bytes of the destination
    still to write: the buffer, and whether every byte was there. *)
Fixpoint fill_fragment (m : Message) (start : Z) (n : nat) (offset : Z) (out : list Z) :
    list Z * bool :=
  match n with
  | O => (out, true)
  | S n' =>
      match Message_byte_at m (start + offset) with
      | Some value => fill_fragment m start n' (offset + 1) (put_at out offset value)
      | None => (out, false)
      end
  end.

(** [Message::fragment]. *)
Definition Message_fragment (m : Message) (index body_capacity : Z) (out : list Z) :
    list Z * option (result Fragment) :=
  if body_capacity =? 0 then (out, Some (Err BadLength))
  else
  let stream_len := Message_stream_len m in
  match checked_mul USIZE index body_capacity with
  | None => (out, None)
  | Some start =>
      if stream_len <=? start then (out, None)
      else
      let end_ := Z.min (start + body_capacity) stream_len in
      let len := end_ - start in
      match get_range out 0 len with
      | None => (out, Some (Err BufferTooSmall))
      | Some _ =>
          match fill_fragment m start (Z.to_nat len) 0 out with
          | (out', true) => (out', Some (Ok (mkFragment len (end_ =? stream_len))))
          | (out', false) => (out', Some (Err BadLength))
          end
      end
  end.

(** ** The virtual stream *)

Definition Message_stream (m : Message) : list Z :=
  msg_prefix m ++ msg_header m ++ msg_payload m.

(** Fragment [i] of a stream sliced at [cap]. *)
Definition chunk (cap : Z) (l : list Z) (i : nat) : list Z :=
  take (Z.to_nat cap) (drop (i * Z.to_nat cap) l).

(** A message as [Message::new] builds one. *)
Definition message_ok (m : Message) : Prop :=
  Message_new (msg_header m) (msg_payload m) = Ok m.

Lemma message_ok_inv m :
  message_ok m ->
  msg_prefix m = to_be 4 (zlen (msg_header m) + zlen (msg_payload m)) /\
  zlen (msg_header m) + zlen (msg_payload m) < 2 ^ 32.
Proof.
  unfold message_ok, Message_new, checked_add, try_from. pose proof (zlen_nonneg (msg_header m)).
  pose proof (zlen_nonneg (msg_payload m)).
  destruct (Z.ltb_spec (zlen (msg_header m) + zlen (msg_payload m)) (2 ^ 64)); [|done]. cbn.
  destruct (Z.leb_spec 0 (zlen (msg_header m) + zlen (msg_payload m))); [|lia].
  destruct (Z.ltb_spec (zlen (msg_header m) + zlen (msg_payload m)) (2 ^ 32)); [|done].
  cbn. intros [= E]. split; [|done]. by rewrite <- E at 1.
Qed.

Section stream.
  Context (m : Message) (Hm : message_ok m).

Lemma zlen_prefix : zlen (msg_prefix m) = 4.
Proof. destruct (message_ok_inv m Hm) as [-> _]. apply zlen_to_be. Qed.

Lemma zlen_stream : zlen (Message_stream m) = Message_stream_len m.
Proof.
  unfold Message_stream, Message_stream_len, LENGTH_PREFIX_LEN.
  rewrite !zlen_app, zlen_prefix. lia.
Qed.

Lemma total_len_eq : Message_total_len m = zlen (msg_header m) + zlen (msg_payload m).
Proof.
  unfold Message_total_len. destruct (message_ok_inv m Hm) as [-> H].
  apply from_to_be. unfold fits.
  pose proof (zlen_nonneg (msg_header m)). pose proof (zlen_nonneg (msg_payload m)). lia.
Qed.

Lemma stream_len_eq : Message_stream_len m = Message_total_len m + LENGTH_PREFIX_LEN.
Proof. rewrite total_len_eq. unfold Message_stream_len. lia. Qed.

Lemma stream_len_bounds : 4 <= Message_stream_len m < 2 ^ 32 + 4.
Proof.
  destruct (message_ok_inv m Hm) as [_ H]. unfold Message_stream_len, LENGTH_PREFIX_LEN.
  pose proof (zlen_nonneg (msg_header m)). pose proof (zlen_nonneg (msg_payload m)). lia.
Qed.

Lemma byte_at_stream p : 0 <= p -> Message_byte_at m p = get_at (Message_stream m) p.
Proof.
  intros Hp. unfold Message_byte_at, Message_stream, get_at, LENGTH_PREFIX_LEN.
  pose proof zlen_prefix as Hpre. unfold zlen in *.
  destruct (Z.ltb_spec p 4); [by rewrite lookup_app_l by lia|].
  rewrite lookup_app_r by lia.
  destruct (Z.ltb_spec (p - 4) (Z.of_nat (length (msg_header m)))).
  - rewrite lookup_app_l by lia. f_equal. lia.
  - rewrite lookup_app_r by lia. f_equal. lia.
Qed.

Lemma fill_fragment_eq start n offset done_ rest :
  0 <= start -> offset = zlen done_ ->
  start + offset + Z.of_nat n <= Message_stream_len m -> (n <= length rest)%nat ->
  fill_fragment m start n offset (done_ ++ rest) =
    (done_ ++ take n (drop (Z.to_nat (start + offset)) (Message_stream m)) ++ drop n rest, true).
Proof.
  intros Hs. revert offset done_ rest.
  induction n as [|n IH]; intros offset done_ rest Ho Hl Hr; [done|].
  destruct rest as [|x rest]; cbn [length] in Hr; [lia|]. cbn [fill_fragment].
  pose proof (zlen_nonneg done_).
  destruct (get_at_Some (Message_stream m) (start + offset)) as [v Hv].
  { rewrite zlen_stream. lia. }
  rewrite byte_at_stream, Hv by lia.
  assert (put_at (done_ ++ x :: rest) offset v = (done_ ++ [v]) ++ rest) as ->.
  { unfold put_at, zlen in *. subst offset. rewrite Nat2Z.id, insert_app_r_alt by lia.
    rewrite Nat.sub_diag. cbn. by rewrite <- app_assoc. }
  rewrite IH by (rewrite ?zlen_app; unfold zlen in *; cbn [length] in *; lia).
  rewrite <- app_assoc. do 2 f_equal. cbn [app drop].
  unfold get_at in Hv. rewrite (drop_S _ _ _ Hv). cbn [take app]. do 4 f_equal. lia.
Qed.

End stream.

(** ** Slicing *)

Lemma concat_chunks cap l n :
  concat (map (chunk cap l) (seq 0 n)) = take (n * Z.to_nat cap) l.
Proof.
  induction n as [|n IH]; [done|].
  rewrite seq_S, map_app, concat_app, IH. cbn [map concat]. rewrite app_nil_r. unfold chunk.
  rewrite take_take_drop. f_equal. lia.
Qed.

Lemma zlen_chunk cap l i :
  0 <= cap -> zlen (chunk cap l i) = Z.max 0 (Z.min cap (zlen l - Z.of_nat i * cap)).
Proof. intros. unfold chunk. rewrite zlen_take, zlen_drop. nia. Qed.

Lemma fragment_count_spec total cap i :
  0 <= total -> 0 < cap -> i < fragment_count total cap <-> i * cap < total + LENGTH_PREFIX_LEN.
Proof.
  intros Ht Hc. unfold fragment_count, LENGTH_PREFIX_LEN.
  rewrite (proj2 (Z.eqb_neq cap 0)) by lia. cbv zeta.
  pose proof (Z.div_mod (total + 4) cap ltac:(lia)) as E.
  pose proof (Z.mod_pos_bound (total + 4) cap ltac:(lia)) as B.
  destruct (Z.eqb_spec ((total + 4) mod cap) 0); split; intros; nia.
Qed.

Section fragments.
  Context (m : Message) (cap : Z) (Hm : message_ok m) (Hcap : 0 < cap).

Lemma fragment_count_stream i :
  i < Message_fragment_count m cap <-> i * cap < Message_stream_len m.
Proof.
  rewrite stream_len_eq by done. apply fragment_count_spec; [|done].
  rewrite total_len_eq by done. pose proof (zlen_nonneg (msg_header m)).
  pose proof (zlen_nonneg (msg_payload m)). lia.
Qed.

Lemma fragment_count_pos : 1 <= Message_fragment_count m cap.
Proof.
  pose proof (stream_len_bounds m Hm). enough (0 < Message_fragment_count m cap) by lia.
  apply fragment_count_stream. lia.
Qed.

Lemma fragment_count_le : Message_fragment_count m cap <= Message_stream_len m.
Proof.
  destruct (Z.le_gt_cases (Message_fragment_count m cap) (Message_stream_len m)); [done|].
  assert (Message_stream_len m < Message_fragment_count m cap) as H1%fragment_count_stream by lia.
  pose proof (stream_len_bounds m Hm). nia.
Qed.

Lemma Message_fragment_eq i out :
  Z.of_nat i * cap < Message_stream_len m ->
  zlen (chunk cap (Message_stream m) i) <= zlen out ->
  Message_fragment m (Z.of_nat i) cap out =
    (put_range out 0 (chunk cap (Message_stream m) i),
     Some (Ok (mkFragment (zlen (chunk cap (Message_stream m) i))
                 (Message_stream_len m <=? (Z.of_nat i + 1) * cap)))).
Proof.
  intros Hi Ho. pose proof (stream_len_bounds m Hm) as Hb.
  rewrite zlen_chunk in * by lia. rewrite (zlen_stream m Hm) in *.
  unfold Message_fragment, checked_mul.
  rewrite (proj2 (Z.eqb_neq cap 0)), (proj2 (Z.ltb_lt (Z.of_nat i * cap) (2 ^ 64))) by lia.
  cbv zeta. rewrite (proj2 (Z.leb_gt (Message_stream_len m) _)) by lia.
  rewrite get_range_eq by lia.
  rewrite (fill_fragment_eq m Hm _ _ 0 [] out) by (unfold zlen in *; cbn [length]; lia).
  cbn [app]. f_equal.
  - rewrite put_range_0, Z.add_0_r. unfold chunk.
    replace (Z.to_nat (Z.of_nat i * cap)) with (i * Z.to_nat cap)%nat by nia.
    set (s := drop _ _).
    assert (Z.of_nat (length s) = Message_stream_len m - Z.of_nat i * cap) as Hs.
    { unfold s. rewrite length_drop. pose proof (zlen_stream m Hm) as E. unfold zlen in E. nia. }
    rewrite length_take.
    replace (Z.to_nat (Z.min (Z.of_nat i * cap + cap) (Message_stream_len m) - Z.of_nat i * cap))
      with (Z.to_nat cap `min` length s)%nat by lia.
    f_equal. destruct (Nat.min_spec (Z.to_nat cap) (length s)) as [[_ ->]|[? ->]]; [done|].
    by rewrite !take_ge by lia.
  - do 3 f_equal; [lia|]. zcases; lia.
Qed.

Lemma Message_fragment_none i out :
  Message_stream_len m <= Z.of_nat i * cap -> Message_fragment m (Z.of_nat i) cap out = (out, None).
Proof.
  intros Hi. unfold Message_fragment, checked_mul.
  rewrite (proj2 (Z.eqb_neq cap 0)) by lia. cbv zeta.
  destruct (_ <? _); [|done]. by rewrite (proj2 (Z.leb_le (Message_stream_len m) _)) by lia.
Qed.
End fragments.

(** Driving [fragment] from index zero until it says [None] slices the
    message's virtual stream: there are exactly [fragment_count] fragments
    (at least one), each writes its chunk at the front of the buffer and
    nothing after it, the last-fragment flag is on the last one only, every
    earlier one is full, and together they are the length prefix, the header
    and the payload. *)
Theorem fragmentation (m : Message) (cap : Z) (out : list Z) :
  message_ok m -> 0 < cap -> cap <= zlen out ->
  let n := Z.to_nat (Message_fragment_count m cap) in
  let part := chunk cap (Message_stream m) in
  (0 < n)%nat /\
  (forall i, (i < n)%nat ->
     Message_fragment m (Z.of_nat i) cap out =
       (put_range out 0 (part i),
        Some (Ok (mkFragment (zlen (part i)) (bool_decide (i = n - 1)%nat))))) /\
  (forall i, (n <= i)%nat -> Message_fragment m (Z.of_nat i) cap out = (out, None)) /\
  (forall i, (i + 1 < n)%nat -> zlen (part i) = cap) /\
  concat (map part (seq 0 n)) =
    to_be 4 (zlen (msg_header m) + zlen (msg_payload m)) ++ msg_header m ++ msg_payload m.
Proof.
  intros Hm Hc Ho n part.
  pose proof (fragment_count_stream m cap Hm Hc) as Hcount.
  pose proof (fragment_count_pos m cap Hm Hc) as Hpos.
  pose proof (zlen_stream m Hm) as Hlen. split_and!.
  - lia.
  - intros i Hi.
    assert (Z.of_nat i * cap < Message_stream_len m) as Hi' by (apply Hcount; lia).
    rewrite Message_fragment_eq; [|done..|unfold part; rewrite zlen_chunk by lia; lia].
    do 4 f_equal. specialize (Hcount (Z.of_nat i + 1)).
    case_bool_decide; zcases; try done; lia.
  - intros i Hi. apply Message_fragment_none; [done|]. specialize (Hcount (Z.of_nat i)). lia.
  - intros i Hi. unfold part. rewrite zlen_chunk by lia. specialize (Hcount (Z.of_nat i + 1)). lia.
  - unfold part. rewrite concat_chunks, take_ge.
    + unfold Message_stream. by destruct (message_ok_inv m Hm) as [-> _].
    + specialize (Hcount (Z.of_nat n)). unfold zlen in Hlen. nia.
Qed.

Definition sample_message : Message := mkMessage [0; 0; 0; 6] [1; 2] [3; 4; 5; 6].

Lemma fragmentation_witness :
  Message_fragment sample_message 1 8 (replicate 8 0) =
    ([5; 6; 0; 0; 0; 0; 0; 0], Some (Ok (mkFragment 2 true))).
Proof.
  refine (proj1 (proj2 (fragmentation sample_message 8 (replicate 8 0) _ _ _)) 1%nat _);
    [reflexivity|lia|vm_compute; congruence|vm_compute; lia].
Defined.
