(* ===== verification/Channel.v ===== *)
(** The per-channel receive ring and message reassembly
    (crates/core/src/channel.rs). *)

From S2P Require Import Prelude CoreError Seq Message.

Definition RING_SLOTS : Z := 4000.
Definition PEER_RING_FLOOR : Z := 1500.

Inductive Stored := Accepted | Duplicate | OutOfWindow | TooLarge.

#[global] Instance Stored_eq_dec : EqDecision Stored.
Proof. solve_decision. Defined.

Record Drops := mkDrops {
  drop_duplicate : Z;
  drop_out_of_window : Z;
  drop_too_large : Z;
}.

Record Arrivals := mkArrivals {
  arr_fragments : Z;
  arr_late : Z;
}.

Record SlotMeta := mkSlotMeta {
  sm_len : Z;
  sm_ready : bool;
}.

Definition SlotMeta_default : SlotMeta := mkSlotMeta 0 false.

Record RecvRing := mkRecvRing {
  rr_bodies : list Z;
  rr_meta : list SlotMeta;
  rr_slot_len : Z;
  rr_delivered : Z;
  rr_cumulative : Z;
  rr_highest : Z;
  rr_drops : Drops;
  rr_arrivals : Arrivals;
}.

#[export] Instance Drops_eta : Eta Drops := fun d =>
  mkDrops (drop_duplicate d) (drop_out_of_window d) (drop_too_large d).
#[export] Instance Arrivals_eta : Eta Arrivals := fun a =>
  mkArrivals (arr_fragments a) (arr_late a).
#[export] Instance RecvRing_eta : Eta RecvRing := fun r =>
  mkRecvRing (rr_bodies r) (rr_meta r) (rr_slot_len r) (rr_delivered r) (rr_cumulative r)
    (rr_highest r) (rr_drops r) (rr_arrivals r).

Definition RecvRing_new (bodies : list Z) (meta : list SlotMeta) (slot_len : Z) : result RecvRing :=
  if (slot_len =? 0) || (zlen meta =? 0) then Err BadLength
  else
  expected ← ok_or (checked_mul USIZE (zlen meta) slot_len) BadLength;
  if negb (zlen bodies =? expected) then Err BadLength
  else Ok (mkRecvRing bodies meta slot_len 0 0 0 (mkDrops 0 0 0) (mkArrivals 0 0)).

Definition RecvRing_reset_to (r : RecvRing) (start : Z) : RecvRing :=
  r <| rr_meta := map (fun _ => SlotMeta_default) (rr_meta r) |>
    <| rr_delivered := start |> <| rr_cumulative := start |> <| rr_highest := start |>.

Definition RecvRing_has_gap (r : RecvRing) : bool := negb (rr_cumulative r =? rr_highest r).

Definition RecvRing_slots (r : RecvRing) : Z := zlen (rr_meta r).

(** [RecvRing::index], on the bookkeeping array. *)
Definition slot_index (meta : list SlotMeta) (sequence : Z) : Z := sequence mod zlen meta.
Definition RecvRing_index (r : RecvRing) (sequence : Z) : Z := slot_index (rr_meta r) sequence.

Definition RecvRing_slot_body (r : RecvRing) (sequence : Z) : option (list Z) :=
  let index := RecvRing_index r sequence in
  meta ← get_at (rr_meta r) index;
  if negb (sm_ready meta) then None
  else
  start ← checked_mul USIZE index (rr_slot_len r);
  end_ ← checked_add USIZE start (sm_len meta);
  get_range (rr_bodies r) start end_.

(** Whether the slot a sequence maps to is ready: the match in [advance]. *)
Definition slot_ready (meta : list SlotMeta) (sequence : Z) : bool :=
  match get_at meta (slot_index meta sequence) with
  | Some m => sm_ready m
  | None => false
  end.

(** The loop of [advance]; the distance left to [highest] is fuel enough. *)
Fixpoint advance_loop (fuel : nat) (meta : list SlotMeta) (highest cumulative : Z) : Z :=
  match fuel with
  | O => cumulative
  | S fuel' =>
      if cumulative =? highest then cumulative
      else if slot_ready meta cumulative
      then advance_loop fuel' meta highest (wadd 32 cumulative 1)
      else cumulative
  end.

Definition RecvRing_advance (r : RecvRing) : RecvRing :=
  r <| rr_cumulative := advance_loop (Z.to_nat (seq_distance (rr_cumulative r) (rr_highest r)))
                          (rr_meta r) (rr_highest r) (rr_cumulative r) |>.

Definition RecvRing_store_inner (r : RecvRing) (sequence : Z) (body : list Z) : RecvRing * Stored :=
  if seq_lt sequence (rr_delivered r) then (r, Duplicate)
  else if zlen (rr_meta r) <=? seq_distance (rr_delivered r) sequence then (r, OutOfWindow)
  else if rr_slot_len r <? zlen body then (r, TooLarge)
  else
  match try_from 16 (zlen body) with
  | None => (r, TooLarge)
  | Some len =>
  let index := RecvRing_index r sequence in
  match get_at (rr_meta r) index with
  | None => (r, OutOfWindow)
  | Some meta =>
  if sm_ready meta then (r, Duplicate)
  else
  match checked_mul USIZE index (rr_slot_len r) with
  | None => (r, OutOfWindow)
  | Some start =>
  match get_range (rr_bodies r) start (start + zlen body) with
  | None => (r, OutOfWindow)
  | Some _ =>
  let r := r <| rr_bodies := put_range (rr_bodies r) start body |>
             <| rr_meta := put_at (rr_meta r) index (mkSlotMeta len true) |> in
  let next := wadd 32 sequence 1 in
  let r := if seq_gt next (rr_highest r)
           then r <| rr_highest := next |>
           else r <| rr_arrivals := (rr_arrivals r) <| arr_late ::= fun n => sat_add 64 n 1 |> |> in
  (RecvRing_advance r, Accepted)
  end end end end.

Definition RecvRing_store (r : RecvRing) (sequence : Z) (body : list Z) : RecvRing * Stored :=
  let '(r, stored) := RecvRing_store_inner r sequence body in
  let r :=
    match stored with
    | Accepted => r <| rr_arrivals := (rr_arrivals r) <| arr_fragments ::= fun n => sat_add 64 n 1 |> |>
    | Duplicate => r <| rr_drops := (rr_drops r) <| drop_duplicate ::= fun n => sat_add 64 n 1 |> |>
    | OutOfWindow => r <| rr_drops := (rr_drops r) <| drop_out_of_window ::= fun n => sat_add 64 n 1 |> |>
    | TooLarge => r <| rr_drops := (rr_drops r) <| drop_too_large ::= fun n => sat_add 64 n 1 |> |>
    end in
  (r, stored).

Definition RecvRing_window_used (r : RecvRing) : Z := wsub 32 (rr_highest r) (rr_delivered r).

(** The scan of [escape_stall]: the furthest occupied and the furthest
    resumable slots between [cursor] and [highest]. *)
Fixpoint escape_scan (fuel : nat) (r : RecvRing) (resumable : list Z -> bool)
    (cursor : Z) (furthest furthest_resumable : option Z) : option Z * option Z :=
  match fuel with
  | O => (furthest, furthest_resumable)
  | S fuel' =>
      if cursor =? rr_highest r then (furthest, furthest_resumable)
      else
      match RecvRing_slot_body r cursor with
      | Some body =>
          escape_scan fuel' r resumable (wadd 32 cursor 1) (Some cursor)
            (if resumable body then Some cursor else furthest_resumable)
      | None => escape_scan fuel' r resumable (wadd 32 cursor 1) furthest furthest_resumable
      end
  end.

(** Clear [n] slots from [cursor] on: the releasing loops of [escape_stall]
    and [release]. *)
Fixpoint clear_slots (n : nat) (cursor : Z) (meta : list SlotMeta) : list SlotMeta :=
  match n with
  | O => meta
  | S n' =>
      let index := slot_index meta cursor in
      let meta := match get_at meta index with
                  | Some _ => put_at meta index SlotMeta_default
                  | None => meta
                  end in
      clear_slots n' (wadd 32 cursor 1) meta
  end.

Definition RecvRing_escape_stall (r : RecvRing) (resumable : list Z -> bool) : RecvRing * option Z :=
  if negb (RecvRing_has_gap r) then (r, None)
  else
  let '(furthest, furthest_resumable) :=
    escape_scan (Z.to_nat (seq_distance (rr_delivered r) (rr_highest r))) r resumable
      (rr_delivered r) None None in
  match (match furthest_resumable with Some t => Some t | None => furthest end) with
  | None => (r, None)
  | Some target =>
      if seq_le target (rr_delivered r) then (r, None)
      else
      let r := r <| rr_meta := clear_slots (Z.to_nat (seq_distance (rr_delivered r) target))
                                 (rr_delivered r) (rr_meta r) |>
                 <| rr_delivered := target |> in
      let r := if seq_lt (rr_cumulative r) target then r <| rr_cumulative := target |> else r in
      (RecvRing_advance r, Some target)
  end.

(** The loop of [locate]: fragment lengths accumulated until they reach
    [stream].  Reaching [cumulative] first means the tail has not arrived. *)
Fixpoint locate_loop (fuel : nat) (r : RecvRing) (stream collected fragments cursor : Z) :
    option (Z * Z) :=
  if collected <? stream then
    if cursor =? rr_cumulative r then None
    else
    match fuel with
    | O => None
    | S fuel' =>
        body ← RecvRing_slot_body r cursor;
        collected ← checked_add USIZE collected (zlen body);
        fragments ← checked_add 32 fragments 1;
        locate_loop fuel' r stream collected fragments (wadd 32 cursor 1)
    end
  else Some (collected, fragments).

Definition RecvRing_locate (r : RecvRing) (start : Z) : option (result (Z * Z)) :=
  if start =? rr_cumulative r then None
  else
  first ← RecvRing_slot_body r start;
  match parse_length_prefix first with
  | Err error => Some (Err error)
  | Ok total =>
      stream ← checked_add USIZE total LENGTH_PREFIX_LEN;
      located ← locate_loop (Z.to_nat (seq_distance start (rr_cumulative r))) r stream 0 0 start;
      let '(collected, fragments) := located in
      if negb (collected =? stream) then Some (Err BadLength)
      else Some (Ok (total, fragments))
  end.

(** The loop of [nth]; every located message spans at least one fragment, so
    the distance to [cumulative] is fuel enough. *)
Fixpoint nth_loop (fuel : nat) (r : RecvRing) (n start behind : Z) : option (Z * Z * Z) :=
  located ← RecvRing_locate r start;
  match located with
  | Err _ => None
  | Ok (total, fragments) =>
      if behind =? n then Some (start, total, fragments)
      else
      match fuel with
      | O => None
      | S fuel' => nth_loop fuel' r n (wadd 32 start fragments) (wadd 32 behind 1)
      end
  end.

Definition RecvRing_nth (r : RecvRing) (n : Z) : option (Z * Z * Z) :=
  nth_loop (Z.to_nat (seq_distance (rr_delivered r) (rr_cumulative r))) r n (rr_delivered r) 0.

Fixpoint pending_loop (fuel : nat) (r : RecvRing) (start count : Z) : Z :=
  match RecvRing_locate r start with
  | Some (Ok (_, fragments)) =>
      match fuel with
      | O => count
      | S fuel' => pending_loop fuel' r (wadd 32 start fragments) (wadd 32 count 1)
      end
  | _ => count
  end.

Definition RecvRing_pending_messages (r : RecvRing) : Z :=
  pending_loop (Z.to_nat (seq_distance (rr_delivered r) (rr_cumulative r))) r (rr_delivered r) 0.

(** The copying loop of [peek_message] and [take_message], with the error each
    early exit stands for; [fuel] is the number of fragments located. *)
Fixpoint copy_loop (fuel : nat) (r : RecvRing) (wanted written skip cursor : Z) (out : list Z) :
    list Z * result Z :=
  if written <? wanted then
    match fuel with
    | O => (out, Err BadLength)
    | S fuel' =>
        match RecvRing_slot_body r cursor with
        | None => (out, Err BadLength)
        | Some body =>
            let src := default [] (get_range body skip (zlen body)) in
            let take_ := Z.min (zlen src) (wanted - written) in
            match get_range out written (written + take_), get_range src 0 take_ with
            | Some _, Some src =>
                copy_loop fuel' r wanted (written + take_) 0 (wadd 32 cursor 1)
                  (put_range out written src)
            | _, _ => (out, Err BufferTooSmall)
            end
        end
    end
  else (out, Ok written).

(** [RecvRing::peek_message]: the caller's buffer and the bytes copied. *)
Definition RecvRing_peek_message (r : RecvRing) (n : Z) (out : list Z) : list Z * option Z :=
  match RecvRing_nth r n with
  | None => (out, None)
  | Some (start, total, fragments) =>
      match copy_loop (Z.to_nat fragments) r (Z.min total (zlen out)) 0 LENGTH_PREFIX_LEN start out with
      | (out, Ok written) => (out, Some written)
      | (out, Err _) => (out, None)
      end
  end.

Definition RecvRing_release (r : RecvRing) (fragments : Z) : RecvRing :=
  r <| rr_meta := clear_slots (Z.to_nat fragments) (rr_delivered r) (rr_meta r) |>
    <| rr_delivered := wadd 32 (rr_delivered r) fragments |>.

(** The loop of [skip_messages]: [n] bounds it. *)
Fixpoint skip_loop (fuel : nat) (r : RecvRing) (skipped : Z) : RecvRing * Z :=
  match fuel with
  | O => (r, skipped)
  | S fuel' =>
      match RecvRing_locate r (rr_delivered r) with
      | Some (Ok (_, fragments)) =>
          skip_loop fuel' (RecvRing_release r fragments) (wadd 32 skipped 1)
      | _ => (r, skipped)
      end
  end.

Definition RecvRing_skip_messages (r : RecvRing) (n : Z) : RecvRing * Z := skip_loop (Z.to_nat n) r 0.

(** [RecvRing::take_message]: the ring, the caller's buffer and the outcome. *)
Definition RecvRing_take_message (r : RecvRing) (out : list Z) :
    RecvRing * list Z * option (result Z) :=
  match RecvRing_locate r (rr_delivered r) with
  | None => (r, out, None)
  | Some (Err error) => (r, out, Some (Err error))
  | Some (Ok (total, fragments)) =>
      if zlen out <? total then (r, out, Some (Err BufferTooSmall))
      else
      match copy_loop (Z.to_nat fragments) r total 0 LENGTH_PREFIX_LEN (rr_delivered r) out with
      | (out, Err error) => (r, out, Some (Err error))
      | (out, Ok _) => (RecvRing_release r fragments, out, Some (Ok total))
      end
  end.
