(* ===== verification/ChannelFacts.v ===== *)
(** The receive ring's invariant, and how each slot operation reads through it. *)

From S2P Require Import Prelude CoreError Seq Message Channel.

(** ** Direct mapping

    A sequence's slot is [seq mod slots].  Inside one window the mapping must
    not put two sequences in one slot; it does not where the window stays clear
    of the 32-bit wrap, or where the ring divides the sequence space. *)
Definition window_inj (slots d : Z) : Prop :=
  forall j k, 0 <= j < slots -> 0 <= k < slots ->
    (wadd 32 d j) mod slots = (wadd 32 d k) mod slots -> j = k.

Lemma mod_inj_window n d j k :
  0 < n -> 0 <= j < n -> 0 <= k < n -> (d + j) mod n = (d + k) mod n -> j = k.
Proof.
  intros Hn Hj Hk E.
  assert ((j - k) mod n = 0) as E0.
  { replace (j - k) with ((d + j) - (d + k)) by lia.
    rewrite Zminus_mod, E, Z.sub_diag. by rewrite Z.mod_0_l by lia. }
  apply Z.mod_divide in E0 as [q E0]; [|lia].
  assert (q = 0) by nia. lia.
Qed.

Lemma window_inj_nowrap slots d : 0 <= d -> 0 < slots -> d + slots <= 2 ^ 32 -> window_inj slots d.
Proof.
  intros Hd Hs Hw j k Hj Hk. unfold wadd. rewrite !wrap_small by (unfold fits; lia).
  by apply mod_inj_window.
Qed.

Lemma window_inj_divides slots d : 0 < slots -> (slots | 2 ^ 32) -> window_inj slots d.
Proof.
  intros Hs Hdiv j k Hj Hk. unfold wadd, wrap.
  rewrite !Z.mod_mod_divide by done.
  by apply mod_inj_window.
Qed.

(** A ring of the peers' depth does not: across the wrap two sequences of one
    window share a slot. *)
Lemma ring_wrap_collides : ~ window_inj 4000 4294967294.
Proof. intros H. discriminate (H 0 3296 ltac:(lia) ltac:(lia) eq_refl). Qed.

(** ** Invariant *)

(** Distance of a sequence past the reader. *)
Definition roff (r : RecvRing) (s : Z) : Z := seq_distance (rr_delivered r) s.
(** The sequence [k] past the reader. *)
Definition pos (r : RecvRing) (k : Z) : Z := wadd 32 (rr_delivered r) k.
Definition ready_at (r : RecvRing) (k : Z) : bool := slot_ready (rr_meta r) (pos r k).

(** Storage shape: what [new] establishes and nothing changes. *)
Record geom_ok (bodies : list Z) (meta : list SlotMeta) (slot_len : Z) : Prop := {
  g_slot_len : 0 < slot_len;
  g_slots : 0 < zlen meta < HALF;
  g_bodies : zlen bodies = zlen meta * slot_len;
  g_usize : zlen bodies < 2 ^ USIZE;
  g_bytes : bytes_ok bodies;
  g_meta : Forall (fun m => 0 <= sm_len m <= slot_len /\ sm_len m < 2 ^ 16) meta;
}.

(** The ring invariant.  Everything below the frontier is ready, the frontier
    itself is not, nothing is ready outside the window, and the window is never
    deeper than the ring. *)
Record recv_wf (r : RecvRing) : Prop := {
  wf_geom : geom_ok (rr_bodies r) (rr_meta r) (rr_slot_len r);
  wf_delivered : fits 32 (rr_delivered r);
  wf_cumulative : fits 32 (rr_cumulative r);
  wf_highest : fits 32 (rr_highest r);
  wf_order : roff r (rr_cumulative r) <= roff r (rr_highest r) <= zlen (rr_meta r);
  wf_front : forall k, 0 <= k < roff r (rr_cumulative r) -> ready_at r k = true;
  wf_gap : rr_cumulative r <> rr_highest r -> slot_ready (rr_meta r) (rr_cumulative r) = false;
  wf_top : 0 < roff r (rr_highest r) -> ready_at r (roff r (rr_highest r) - 1) = true;
  wf_window : forall i m, 0 <= i -> get_at (rr_meta r) i = Some m -> sm_ready m = true ->
    exists k, 0 <= k < roff r (rr_highest r) /\ slot_index (rr_meta r) (pos r k) = i;
}.

#[export] Hint Resolve wf_geom wf_delivered wf_cumulative wf_highest : lowlat.

Lemma roff_fits r s : fits 32 (roff r s).
Proof. apply seq_distance_fits. Qed.

Lemma pos_fits r k : fits 32 (pos r k).
Proof. apply fits_wadd. lia. Qed.

Lemma pos_roff r s : fits 32 (rr_delivered r) -> fits 32 s -> pos r (roff r s) = s.
Proof. intros. symmetry. by apply seq_distance_split. Qed.

Lemma roff_pos r k : fits 32 (rr_delivered r) -> fits 32 k -> roff r (pos r k) = k.
Proof. apply seq_distance_offset. Qed.

Lemma pos_succ r k : wadd 32 (pos r k) 1 = pos r (k + 1).
Proof. apply wadd_assoc. Qed.

Lemma pos_add r k n : wadd 32 (pos r k) n = pos r (k + n).
Proof. apply wadd_assoc. Qed.

Lemma pos_0 r : fits 32 (rr_delivered r) -> pos r 0 = rr_delivered r.
Proof. apply wadd_0. Qed.

#[export] Hint Resolve roff_fits pos_fits : lowlat.

(** ** Slots *)

Section geometry.
  Context (bodies : list Z) (meta : list SlotMeta) (slot_len : Z).
  Context (G : geom_ok bodies meta slot_len).

Lemma slot_index_bounds s : 0 <= slot_index meta s < zlen meta.
Proof. apply Z.mod_pos_bound. apply (g_slots _ _ _ G). Qed.

Lemma slot_get s : exists m, get_at meta (slot_index meta s) = Some m.
Proof. apply get_at_Some, slot_index_bounds. Qed.

Lemma meta_len i m : 0 <= i -> get_at meta i = Some m -> 0 <= sm_len m <= slot_len /\ sm_len m < 2 ^ 16.
Proof.
  intros Hi Hm. pose proof (g_meta _ _ _ G) as H. rewrite Forall_lookup in H. by eapply H.
Qed.

Lemma slot_region i : 0 <= i < zlen meta -> 0 <= i * slot_len /\ i * slot_len + slot_len <= zlen bodies.
Proof. intros. rewrite (g_bodies _ _ _ G). pose proof (g_slot_len _ _ _ G). nia. Qed.
End geometry.

Section slots.
  Context (r : RecvRing) (G : geom_ok (rr_bodies r) (rr_meta r) (rr_slot_len r)).

Lemma slot_body_eq s :
  RecvRing_slot_body r s =
    (m ← get_at (rr_meta r) (slot_index (rr_meta r) s);
     if sm_ready m
     then get_range (rr_bodies r) (slot_index (rr_meta r) s * rr_slot_len r)
            (slot_index (rr_meta r) s * rr_slot_len r + sm_len m)
     else None).
Proof.
  unfold RecvRing_slot_body, RecvRing_index.
  destruct (get_at _ _) as [m|] eqn:Em; [|done]. cbn [mbind option_bind].
  destruct (sm_ready m); [|done]. cbn [negb].
  pose proof (slot_index_bounds _ _ _ G s) as Hi.
  pose proof (slot_region _ _ _ G _ Hi). pose proof (meta_len _ _ _ G _ _ (proj1 Hi) Em).
  pose proof (g_usize _ _ _ G).
  unfold checked_mul, checked_add.
  rewrite (proj2 (Z.ltb_lt (slot_index _ _ * _) _)) by lia. cbn [mbind option_bind].
  rewrite (proj2 (Z.ltb_lt (_ + _) _)) by lia. done.
Qed.

(** A slot reads back as bytes exactly when it is ready. *)
Lemma slot_body_ready s :
  slot_ready (rr_meta r) s = true ->
  exists b, RecvRing_slot_body r s = Some b /\ zlen b < 2 ^ 16 /\ bytes_ok b.
Proof.
  unfold slot_ready. rewrite slot_body_eq.
  destruct (get_at _ _) as [m|] eqn:Em; [|done]. cbn. intros ->.
  pose proof (slot_index_bounds _ _ _ G s) as Hi.
  pose proof (slot_region _ _ _ G _ Hi). pose proof (meta_len _ _ _ G _ _ (proj1 Hi) Em).
  rewrite get_range_eq by lia. eexists. split; [done|]. split.
  - rewrite zlen_take. lia.
  - apply Forall_take, Forall_drop, (g_bytes _ _ _ G).
Qed.

Lemma slot_body_not_ready s : slot_ready (rr_meta r) s = false -> RecvRing_slot_body r s = None.
Proof.
  unfold slot_ready. rewrite slot_body_eq.
  destruct (get_at _ _) as [m|]; [|done]. cbn. by intros ->.
Qed.
End slots.

(** ** The contiguous run up to the frontier *)

Inductive run (r : RecvRing) : Z -> list (list Z) -> Prop :=
  | run_nil : run r (rr_cumulative r) []
  | run_cons s f fs :
      s <> rr_cumulative r -> fits 32 s -> RecvRing_slot_body r s = Some f ->
      bytes_ok f -> zlen f < 2 ^ 16 ->
      run r (wadd 32 s 1) fs -> run r s (f :: fs).

(** The fragments between the reader and the frontier. *)
Definition frags (r : RecvRing) : list (list Z) :=
  map (fun k => default [] (RecvRing_slot_body r (pos r (Z.of_nat k))))
    (seq 0 (Z.to_nat (roff r (rr_cumulative r)))).

Lemma run_length r s fs :
  fits 32 (rr_cumulative r) -> run r s fs -> zlen fs = seq_distance s (rr_cumulative r).
Proof.
  intros Hc. induction 1 as [|s f fs Hne Hs Hb _ _ Hrun IH].
  - by rewrite seq_distance_refl.
  - rewrite seq_distance_succ, <- IH by done. by rewrite zlen_cons.
Qed.

Lemma run_fits r s fs : fits 32 (rr_cumulative r) -> run r s fs -> fits 32 s.
Proof. intros Hc. by destruct 1. Qed.

Lemma run_drop r s fs n :
  fits 32 (rr_cumulative r) -> run r s fs -> (n <= length fs)%nat ->
  run r (wadd 32 s (Z.of_nat n)) (drop n fs).
Proof.
  intros Hc H. revert n. induction H as [|s f fs Hne Hs Hb Hbs Hl Hrun IH]; intros n Hn.
  - destruct n; cbn in Hn; [|lia]. rewrite wadd_0 by done. constructor.
  - destruct n as [|n].
    + rewrite wadd_0 by done. by constructor.
    + cbn in Hn. cbn [drop].
      replace (wadd 32 s (Z.of_nat (S n))) with (wadd 32 (wadd 32 s 1) (Z.of_nat n)).
      * apply IH. lia.
      * rewrite wadd_assoc. f_equal. lia.
Qed.

Lemma run_from_wf r n :
  recv_wf r -> 0 <= n <= roff r (rr_cumulative r) ->
  run r (pos r (roff r (rr_cumulative r) - n))
    (map (fun k => default [] (RecvRing_slot_body r (pos r (Z.of_nat k))))
       (seq (Z.to_nat (roff r (rr_cumulative r) - n)) (Z.to_nat n))).
Proof.
  intros W Hn. set (c := roff r (rr_cumulative r)) in *.
  assert (fits 32 c) as Hc by apply roff_fits.
  replace n with (Z.of_nat (Z.to_nat n)) by lia.
  assert (Z.of_nat (Z.to_nat n) <= c) as Hm by lia. revert Hm. generalize (Z.to_nat n) as m.
  clear n Hn. induction m as [|m IH]; intros Hm.
  - rewrite Z.sub_0_r. cbn. unfold c. rewrite pos_roff by auto with lowlat. constructor.
  - rewrite !Nat2Z.id. cbn [seq map].
    destruct (slot_body_ready r (wf_geom r W) (pos r (c - Z.of_nat (S m)))) as (b & Hb & Hl & Hok).
    { apply (wf_front r W). lia. }
    replace (Z.of_nat (Z.to_nat (c - Z.of_nat (S m)))) with (c - Z.of_nat (S m)) by lia.
    rewrite Hb. cbn [default from_option id].
    constructor; [|apply pos_fits|done..|].
    + intros E. apply (f_equal (roff r)) in E. rewrite roff_pos in E; auto with lowlat.
      * fold c in E. lia.
      * unfold fits in *. lia.
    + rewrite pos_succ.
      replace (c - Z.of_nat (S m) + 1) with (c - Z.of_nat m) by lia.
      replace (S (Z.to_nat (c - Z.of_nat (S m)))) with (Z.to_nat (c - Z.of_nat m)) by lia.
      rewrite Nat2Z.id in IH. apply IH. lia.
Qed.

Lemma run_frags r : recv_wf r -> run r (rr_delivered r) (frags r).
Proof.
  intros W. pose proof (roff_fits r (rr_cumulative r)) as F. unfold fits in F.
  pose proof (run_from_wf r (roff r (rr_cumulative r)) W ltac:(lia)) as H.
  rewrite Z.sub_diag, pos_0 in H by auto with lowlat. exact H.
Qed.

(** ** Locating a message in a run of fragments *)

(** [locate] on the fragments themselves: accumulate lengths until [stream]. *)
Fixpoint gather (stream collected n : Z) (fs : list (list Z)) : option (Z * Z) :=
  if collected <? stream then
    match fs with
    | [] => None
    | f :: fs => gather stream (collected + zlen f) (n + 1) fs
    end
  else Some (collected, n).

Definition locate_in (fs : list (list Z)) : option (result (Z * Z)) :=
  match fs with
  | [] => None
  | f :: _ =>
      match parse_length_prefix f with
      | Err e => Some (Err e)
      | Ok total =>
          match gather (total + LENGTH_PREFIX_LEN) 0 0 fs with
          | None => None
          | Some (collected, n) =>
              if collected =? total + LENGTH_PREFIX_LEN then Some (Ok (total, n))
              else Some (Err BadLength)
          end
      end
  end.

Lemma parse_length_prefix_inv f total :
  bytes_ok f -> parse_length_prefix f = Ok total ->
  fits 32 total /\ 4 <= zlen f /\ total = from_be (take 4 f).
Proof.
  unfold parse_length_prefix, LENGTH_PREFIX_LEN. intros Hf H.
  destruct (get_range f 0 4) as [b|] eqn:E; [|done]. injection H as <-.
  pose proof (get_range_zlen f 0 4 b ltac:(lia) E) as Hl.
  apply get_range_Some in E as (_ & H4 & ->). change (Z.to_nat 0) with 0%nat in *. rewrite drop_0 in *.
  split_and!; [|done|done].
  pose proof (from_be_fits (take 4 f) (Forall_take _ _ _ Hf)) as HF.
  change (Z.to_nat (4 - 0)) with 4%nat in *. by rewrite Hl in HF.
Qed.

Lemma gather_bounds stream collected n fs c m :
  Forall (fun f => zlen f < 2 ^ 16) fs ->
  gather stream collected n fs = Some (c, m) ->
  n <= m <= n + zlen fs /\
  c = collected + zlen (concat (take (Z.to_nat (m - n)) fs)) /\ stream <= c /\
  (collected < stream -> n < m).
Proof.
  intros Hf. revert collected n. induction Hf as [|f fs Hl _ IH]; intros collected n; cbn [gather].
  - destruct (Z.ltb_spec collected stream); [done|]. intros [= <- <-].
    rewrite Z.sub_diag. change (Z.to_nat 0) with 0%nat. cbn [take concat]. rewrite !(@zlen_nil Z), ?(@zlen_nil (list Z)). lia.
  - destruct (Z.ltb_spec collected stream).
    + intros H1%IH. destruct H1 as (Hm & -> & Hs & _). rewrite zlen_cons.
      replace (Z.to_nat (m - n)) with (S (Z.to_nat (m - (n + 1)))) by lia.
      cbn [take concat]. rewrite zlen_app. split_and!; lia.
    + intros [= <- <-]. rewrite Z.sub_diag. pose proof (zlen_nonneg (f :: fs)).
      change (Z.to_nat 0) with 0%nat. cbn [take concat]. rewrite zlen_nil. lia.
Qed.

Lemma run_small r s fs : run r s fs -> Forall (fun f => zlen f < 2 ^ 16) fs.
Proof. induction 1; by constructor. Qed.

Lemma locate_loop_run r stream s fs fuel collected n :
  run r s fs -> (length fs <= fuel)%nat ->
  0 <= n -> n + zlen fs < 2 ^ 32 -> stream < 2 ^ 34 ->
  locate_loop fuel r stream collected n s = gather stream collected n fs.
Proof.
  intros H. revert fuel collected n.
  induction H as [|s f fs Hne Hs Hb Hbs Hl Hrun IH]; intros fuel collected n Hfuel Hn Hlen Hst.
  - destruct fuel; cbn [locate_loop gather]; by rewrite Z.eqb_refl.
  - cbn [length] in Hfuel. rewrite zlen_cons in Hlen. pose proof (zlen_nonneg fs).
    destruct fuel as [|fuel]; [lia|]. cbn [locate_loop gather].
    destruct (Z.ltb_spec collected stream); [|done].
    rewrite (proj2 (Z.eqb_neq _ _) Hne), Hb. cbn [mbind option_bind].
    unfold checked_add. rewrite (proj2 (Z.ltb_lt (collected + zlen f) _)) by lia.
    cbn [mbind option_bind].
    rewrite (proj2 (Z.ltb_lt (n + 1) _)) by lia. cbn [mbind option_bind].
    apply IH; lia.
Qed.

Lemma locate_run r s fs :
  fits 32 (rr_cumulative r) -> run r s fs -> RecvRing_locate r s = locate_in fs.
Proof.
  intros Hc H. pose proof (run_length r s fs Hc H) as HL.
  pose proof (seq_distance_fits s (rr_cumulative r)) as HF. unfold fits in HF.
  unfold RecvRing_locate, locate_in.
  destruct H as [|s f fs Hne Hs Hb Hbs Hl Hrun].
  - by rewrite Z.eqb_refl.
  - rewrite (proj2 (Z.eqb_neq _ _) Hne), Hb. cbn [mbind option_bind].
    destruct (parse_length_prefix f) as [total|e] eqn:Et; [|done].
    destruct (parse_length_prefix_inv f total Hbs Et) as (Ht & _ & _). unfold fits in Ht.
    unfold checked_add, LENGTH_PREFIX_LEN.
    rewrite (proj2 (Z.ltb_lt (total + 4) _)) by lia. cbn [mbind option_bind].
    rewrite (locate_loop_run r (total + 4) s (f :: fs)) by (constructor || unfold zlen in *; done || lia).
    destruct (gather _ _ _ _) as [[c n]|]; [|done]. cbn.
    by destruct (Z.eqb_spec c (total + 4)).
Qed.

(** ** Copying a message out *)

Inductive chain (r : RecvRing) : Z -> list (list Z) -> Prop :=
  | chain_nil s : chain r s []
  | chain_cons s f fs :
      RecvRing_slot_body r s = Some f -> chain r (wadd 32 s 1) fs -> chain r s (f :: fs).

Lemma run_chain r s fs n : run r s fs -> chain r s (take n fs).
Proof.
  intros H. revert n. induction H; intros [|n]; cbn [take]; constructor; auto.
Qed.

Lemma copy_loop_chain r cursor fs wanted written skip out :
  chain r cursor fs ->
  0 <= skip -> (forall f, head fs = Some f -> skip <= zlen f) ->
  0 <= written <= wanted -> wanted <= zlen out ->
  skip + (wanted - written) <= zlen (concat fs) ->
  copy_loop (length fs) r wanted written skip cursor out =
    (put_range out written
       (take (Z.to_nat (wanted - written)) (drop (Z.to_nat skip) (concat fs))), Ok wanted).
Proof.
  intros H. revert written skip out.
  induction H as [s|s f fs Hb _ IH]; intros written skip out Hskip Hhead Hw Ho Hlen.
  - cbn [length copy_loop concat] in *. rewrite zlen_nil in Hlen.
    rewrite (proj2 (Z.ltb_ge _ _)) by lia.
    replace wanted with written by lia. rewrite Z.sub_diag. change (Z.to_nat 0) with 0%nat.
    by rewrite take_0, put_range_nil.
  - cbn [length copy_loop concat] in *. rewrite zlen_app in Hlen.
    specialize (Hhead f eq_refl). pose proof (zlen_nonneg (concat fs)).
    destruct (Z.ltb_spec written wanted); cycle 1.
    { replace wanted with written by lia. rewrite Z.sub_diag. change (Z.to_nat 0) with 0%nat.
      by rewrite take_0, put_range_nil. }
    rewrite Hb, get_range_drop by lia. cbn [default from_option id].
    set (src := drop (Z.to_nat skip) f).
    assert (zlen src = zlen f - skip) as Hsrc by (unfold src; rewrite zlen_drop; lia).
    set (tk := Z.min (zlen src) (wanted - written)).
    rewrite (get_range_eq out) by lia. rewrite (get_range_eq src) by lia.
    change (Z.to_nat 0) with 0%nat. rewrite drop_0, Z.sub_0_r.
    assert (zlen (take (Z.to_nat tk) src) = tk) as Htk by (rewrite zlen_take; lia).
    rewrite IH; [|lia|by intros; apply zlen_nonneg|lia|rewrite zlen_put_range; lia|lia].
    f_equal. change (Z.to_nat 0) with 0%nat. rewrite drop_0.
    rewrite drop_app_le by (unfold zlen in *; lia). fold src.
    pose proof (put_range_twice out written (take (Z.to_nat tk) src)
      (take (Z.to_nat (wanted - (written + tk))) (concat fs))) as HT.
    rewrite Htk in HT. rewrite HT by (rewrite ?zlen_take; lia).
    f_equal. unfold zlen in *. rewrite take_app.
    destruct (Z.le_gt_cases (wanted - written) (Z.of_nat (length src))).
    + replace (Z.to_nat (wanted - (written + tk))) with 0%nat by lia.
      replace (Z.to_nat (wanted - written) - length src)%nat with 0%nat by lia.
      by replace tk with (wanted - written) by lia.
    + rewrite !(take_ge src) by lia. do 2 f_equal. lia.
Qed.

(** ** Clearing slots *)

Lemma zlen_clear_slots n c meta : zlen (clear_slots n c meta) = zlen meta.
Proof.
  revert c meta. induction n as [|n IH]; intros; [done|]. cbn [clear_slots]. rewrite IH.
  destruct (get_at _ _); [|done]. apply zlen_put_at.
Qed.

Lemma slot_index_len (m1 m2 : list SlotMeta) s : zlen m1 = zlen m2 -> slot_index m1 s = slot_index m2 s.
Proof. unfold slot_index. by intros ->. Qed.

Lemma clear_slots_index n c meta s : slot_index (clear_slots n c meta) s = slot_index meta s.
Proof. apply slot_index_len, zlen_clear_slots. Qed.

Lemma clear_slots_out n c meta i :
  0 < zlen meta -> 0 <= i ->
  (forall k, 0 <= k < Z.of_nat n -> slot_index meta (wadd 32 c k) <> i) -> fits 32 c ->
  get_at (clear_slots n c meta) i = get_at meta i.
Proof.
  intros Hm Hi. revert c meta Hm. induction n as [|n IH]; intros c meta Hm Hk Hc; [done|].
  cbn [clear_slots]. set (j := slot_index meta c).
  assert (j <> i) as Hj by (specialize (Hk 0 ltac:(lia)); rewrite wadd_0 in Hk by done; done).
  assert (0 <= j < zlen meta) by (apply Z.mod_pos_bound; done).
  set (meta' := match get_at meta j with Some _ => _ | None => _ end).
  assert (zlen meta' = zlen meta) as HL by (unfold meta'; destruct (get_at _ _); [apply zlen_put_at|done]).
  rewrite IH; [|lia| |auto with lowlat].
  - unfold meta'. destruct (get_at _ _); [|done]. apply get_put_at_ne; lia.
  - intros k Hk'. rewrite (slot_index_len _ _ _ HL), wadd_assoc. apply Hk. lia.
Qed.

Lemma clear_slots_cleared n c meta i :
  0 < zlen meta -> 0 <= i -> get_at meta i = Some SlotMeta_default ->
  get_at (clear_slots n c meta) i = Some SlotMeta_default.
Proof.
  intros Hm Hi. revert c meta Hm. induction n as [|n IH]; intros c meta Hm H; [done|].
  cbn [clear_slots]. set (j := slot_index meta c).
  assert (0 <= j < zlen meta) as Hj by (apply Z.mod_pos_bound; done).
  destruct (get_at_Some meta j Hj) as [m ->]. apply IH; [by rewrite zlen_put_at|].
  destruct (decide (j = i)) as [<-|]; [by apply get_put_at_eq|].
  by rewrite get_put_at_ne by lia.
Qed.

Lemma clear_slots_in n c meta k :
  0 < zlen meta -> fits 32 c -> 0 <= k < Z.of_nat n ->
  get_at (clear_slots n c meta) (slot_index meta (wadd 32 c k)) = Some SlotMeta_default.
Proof.
  revert c meta k. induction n as [|n IH]; intros c meta k Hm Hc Hk; [lia|].
  cbn [clear_slots]. set (j := slot_index meta c).
  assert (0 <= j < zlen meta) as Hj by (apply Z.mod_pos_bound; done).
  destruct (get_at_Some meta j Hj) as [m ->].
  assert (zlen (put_at meta j SlotMeta_default) = zlen meta) as HL by apply zlen_put_at.
  destruct (decide (k = 0)) as [->|].
  - rewrite wadd_0 by done. apply clear_slots_cleared; [lia|apply Hj|]. by apply get_put_at_eq.
  - replace (wadd 32 c k) with (wadd 32 (wadd 32 c 1) (k - 1)) by (rewrite wadd_assoc; f_equal; lia).
    rewrite <- (slot_index_len _ _ _ HL). apply IH; [lia|auto with lowlat|lia].
Qed.

Lemma clear_slots_Forall (P : SlotMeta -> Prop) n c meta :
  P SlotMeta_default -> Forall P meta -> Forall P (clear_slots n c meta).
Proof.
  intros Hd. revert c meta. induction n as [|n IH]; intros c meta Hm; [done|].
  cbn [clear_slots]. apply IH. destruct (get_at _ _); [|done].
  by apply Forall_insert.
Qed.

Lemma clear_slots_geom bodies meta slot_len n c :
  geom_ok bodies meta slot_len -> geom_ok bodies (clear_slots n c meta) slot_len.
Proof.
  intros [? ? ? ? ? Hm]. split; rewrite ?zlen_clear_slots; try done.
  apply clear_slots_Forall; [cbn; lia|done].
Qed.

(** ** Moving the reader *)

Section shift.
  Context (r : RecvRing) (W : recv_wf r) (n : Z).
  Context (Hinj : window_inj (zlen (rr_meta r)) (rr_delivered r)).
Let meta' := clear_slots (Z.to_nat n) (rr_delivered r) (rr_meta r).

Lemma shift_keep j :
  0 <= n <= j -> j < zlen (rr_meta r) ->
  get_at meta' (slot_index meta' (pos r j)) = get_at (rr_meta r) (slot_index (rr_meta r) (pos r j)).
Proof.
  intros Hn Hj. pose proof (g_slots _ _ _ (wf_geom r W)) as [Hs _].
  unfold meta'. rewrite clear_slots_index.
  apply clear_slots_out; [done|by apply Z.mod_pos_bound| |auto with lowlat].
  intros k Hk E. assert (k = j); [|lia].
  apply Hinj; [lia..|]. exact E.
Qed.

Lemma shift_ready j :
  0 <= n <= j -> j < zlen (rr_meta r) -> slot_ready meta' (pos r j) = ready_at r j.
Proof. intros. unfold slot_ready, ready_at, slot_ready. by rewrite shift_keep. Qed.

Lemma shift_body j (r' : RecvRing) :
  rr_bodies r' = rr_bodies r -> rr_slot_len r' = rr_slot_len r -> rr_meta r' = meta' ->
  0 <= n <= j -> j < zlen (rr_meta r) ->
  RecvRing_slot_body r' (pos r j) = RecvRing_slot_body r (pos r j).
Proof.
  intros E1 E2 E3 Hn Hj. pose proof (wf_geom r W) as G.
  rewrite !slot_body_eq; [|done|].
  - rewrite E3, shift_keep by done. rewrite E1, E2.
    unfold meta'. by rewrite clear_slots_index.
  - rewrite E1, E2, E3. by apply clear_slots_geom.
Qed.

Lemma shift_window i m :
  0 <= n -> 0 <= i -> get_at meta' i = Some m -> sm_ready m = true ->
  exists k, n <= k < roff r (rr_highest r) /\ slot_index meta' (pos r k) = i.
Proof.
  intros Hn Hi Hm Hr. pose proof (g_slots _ _ _ (wf_geom r W)) as [Hs _].
  assert (forall k, 0 <= k < n -> slot_index (rr_meta r) (pos r k) <> i) as Hout.
  { intros k Hk E. pose proof (clear_slots_in (Z.to_nat n) (rr_delivered r) (rr_meta r) k) as HC.
    change (wadd 32 (rr_delivered r) k) with (pos r k) in HC.
    rewrite E in HC. fold meta' in HC. rewrite HC in Hm by (auto with lowlat; lia).
    by injection Hm as <-. }
  unfold meta' in Hm. rewrite clear_slots_out in Hm; [|done..| |auto with lowlat].
  - destruct (wf_window r W i m Hi Hm Hr) as (k & Hk & E). exists k.
    split; [|unfold meta'; by rewrite clear_slots_index].
    destruct (decide (k < n)); [|lia]. exfalso. apply (Hout k); [lia|done].
  - intros k Hk. apply Hout. lia.
Qed.
End shift.

(** ** Releasing what was delivered *)

Section release.
  Context (r : RecvRing) (W : recv_wf r) (n : Z).
  Context (Hinj : window_inj (zlen (rr_meta r)) (rr_delivered r)).
  Context (Hn : 0 <= n <= roff r (rr_cumulative r)).
Let r' := RecvRing_release r n.

Lemma release_pos k : pos r' k = pos r (n + k).
Proof. apply wadd_assoc. Qed.

Lemma release_roff s : fits 32 s -> n <= roff r s -> roff r' s = roff r s - n.
Proof. intros. apply seq_distance_shift; auto with lowlat. Qed.

Lemma release_wf : recv_wf r'.
Proof.
  destruct (wf_order r W) as [Hch Hhs].
  assert (roff r' (rr_cumulative r) = roff r (rr_cumulative r) - n) as Hc
    by (apply release_roff; [auto with lowlat|lia]).
  assert (roff r' (rr_highest r) = roff r (rr_highest r) - n) as Hh
    by (apply release_roff; [auto with lowlat|lia]).
  assert (zlen (rr_meta r') = zlen (rr_meta r)) as HL by apply zlen_clear_slots.
  split; cbn [rr_cumulative rr_highest r' RecvRing_release set_field]; fold r'.
  - apply clear_slots_geom. exact (wf_geom r W).
  - apply fits_wadd. lia.
  - auto with lowlat.
  - auto with lowlat.
  - rewrite Hc, Hh, HL. lia.
  - intros k Hk. rewrite Hc in Hk. unfold ready_at. rewrite release_pos.
    rewrite (shift_ready r W n Hinj) by lia. apply (wf_front r W). lia.
  - intros Hne. rewrite <- (pos_roff r (rr_cumulative r)) by auto with lowlat.
    assert (roff r (rr_cumulative r) <> roff r (rr_highest r)).
    { intros E. apply Hne. rewrite <- (pos_roff r (rr_cumulative r)), E, pos_roff; auto with lowlat. }
    rewrite (shift_ready r W n Hinj) by lia. unfold ready_at.
    rewrite pos_roff by auto with lowlat. by apply (wf_gap r W).
  - rewrite Hh. intros Hp. unfold ready_at. rewrite release_pos.
    replace (n + (roff r (rr_highest r) - n - 1)) with (roff r (rr_highest r) - 1) by lia.
    rewrite (shift_ready r W n Hinj) by lia. apply (wf_top r W). lia.
  - intros i m Hi Hm Hr. rewrite Hh.
    destruct (shift_window r W n i m ltac:(lia) Hi Hm Hr) as (k & Hk & E).
    exists (k - n). split; [lia|]. rewrite release_pos.
    replace (n + (k - n)) with k by lia. exact E.
Qed.

Lemma release_frags : frags r' = drop (Z.to_nat n) (frags r).
Proof.
  destruct (wf_order r W) as [Hch Hhs]. unfold frags.
  change (rr_cumulative r') with (rr_cumulative r).
  rewrite (release_roff (rr_cumulative r)) by (auto with lowlat; lia).
  rewrite skipn_map, skipn_seq.
  replace (Z.to_nat (roff r (rr_cumulative r)) - Z.to_nat n)%nat
    with (Z.to_nat (roff r (rr_cumulative r) - n)) by lia.
  rewrite (map_seq_shift _ (0 + Z.to_nat n)).
  apply map_ext_in. intros k Hk%in_seq. f_equal. rewrite release_pos.
  rewrite (shift_body r W n Hinj (n + Z.of_nat k) r') by (done || lia).
  do 2 f_equal. lia.
Qed.
End release.

(** ** The frontier's walk *)

Lemma advance_loop_spec fuel meta high cum :
  fits 32 cum -> fits 32 high -> fuel = Z.to_nat (seq_distance cum high) ->
  exists n, 0 <= n <= seq_distance cum high /\
    advance_loop fuel meta high cum = wadd 32 cum n /\
    (forall k, 0 <= k < n -> slot_ready meta (wadd 32 cum k) = true) /\
    (wadd 32 cum n <> high -> slot_ready meta (wadd 32 cum n) = false).
Proof.
  intros Hc Hh. revert cum Hc. induction fuel as [|fuel IH]; intros cum Hc Hfuel.
  - pose proof (seq_distance_fits cum high) as F. unfold fits in F.
    exists 0. rewrite wadd_0 by done. split_and!; try done; try lia.
    intros Hne. exfalso. apply Hne. apply seq_distance_0; [done..|lia].
  - cbn [advance_loop]. destruct (Z.eqb_spec cum high) as [->|Hne].
    { exists 0. rewrite seq_distance_refl, wadd_0 by done. split_and!; try done; lia. }
    pose proof (seq_distance_succ cum high Hc Hh Hne) as Hd.
    pose proof (seq_distance_fits (wadd 32 cum 1) high) as F. unfold fits in F.
    destruct (slot_ready meta cum) eqn:Er.
    + destruct (IH (wadd 32 cum 1)) as (n & Hn & E & Hk & Hstop); [auto with lowlat|lia|].
      exists (1 + n). rewrite E, !wadd_assoc in *. split_and!; try done; try lia.
      intros k Hk'. destruct (decide (k = 0)) as [->|]; [by rewrite wadd_0|].
      specialize (Hk (k - 1) ltac:(lia)). rewrite wadd_assoc in Hk.
      by replace (1 + (k - 1)) with k in Hk by lia.
    + exists 0. rewrite wadd_0 by done. split_and!; try done; lia.
Qed.
