(* ===== verification/ChannelSpec.v ===== *)
(** What the receive ring promises: stores, deliveries and escapes, each as a
    function of what the window held. *)

From S2P Require Import Prelude CoreError Seq Message Channel ChannelFacts.

(** The fragment held [k] past the reader. *)
Definition held (r : RecvRing) (k : Z) : option (list Z) := RecvRing_slot_body r (pos r k).

(** ** Storing *)

(** The outcome a store must have, from the window alone. *)
Definition store_verdict (r : RecvRing) (s : Z) (body : list Z) : Stored :=
  let k := roff r s in
  if HALF <? k then Duplicate
  else if zlen (rr_meta r) <=? k then OutOfWindow
  else if (rr_slot_len r <? zlen body) || (2 ^ 16 <=? zlen body) then TooLarge
  else if ready_at r k then Duplicate
  else Accepted.

(** A fragment written to its slot, the cursors untouched. *)
Definition place (r : RecvRing) (s : Z) (body : list Z) : RecvRing :=
  r <| rr_bodies := put_range (rr_bodies r) (slot_index (rr_meta r) s * rr_slot_len r) body |>
    <| rr_meta := put_at (rr_meta r) (slot_index (rr_meta r) s) (mkSlotMeta (zlen body) true) |>.

(** The ring after an accepted store, counters of accepted fragments apart. *)
Definition accept (r : RecvRing) (s : Z) (body : list Z) : RecvRing :=
  let r' := place r s body in
  let next := wadd 32 s 1 in
  RecvRing_advance
    (if seq_gt next (rr_highest r)
     then r' <| rr_highest := next |>
     else r' <| rr_arrivals := (rr_arrivals r) <| arr_late ::= fun n => sat_add 64 n 1 |> |>).

Section store.
  Context (r : RecvRing) (W : recv_wf r) (s : Z) (Hs : fits 32 s) (body : list Z).
Let k := roff r s.

Lemma store_inner_eq :
  RecvRing_store_inner r s body =
    (if bool_decide (store_verdict r s body = Accepted) then accept r s body else r,
     store_verdict r s body).
Proof.
  pose proof (wf_geom r W) as G. pose proof (zlen_nonneg body).
  unfold RecvRing_store_inner, store_verdict. fold k.
  rewrite seq_lt_distance by auto with lowlat. change (seq_distance (rr_delivered r) s) with k.
  destruct (Z.ltb_spec HALF k); [done|].
  destruct (Z.leb_spec (zlen (rr_meta r)) k); [done|].
  destruct (Z.ltb_spec (rr_slot_len r) (zlen body)); [done|]. cbn [orb].
  unfold try_from. rewrite (proj2 (Z.leb_le 0 _)) by lia. cbn [andb].
  rewrite Z.leb_antisym. destruct (Z.ltb_spec (zlen body) (2 ^ 16)); [|done]. cbn [negb].
  unfold ready_at, k. rewrite pos_roff by auto with lowlat. unfold RecvRing_index, slot_ready.
  destruct (slot_get _ _ _ G s) as [m Hm]. rewrite Hm.
  destruct (sm_ready m); [done|].
  pose proof (slot_index_bounds _ _ _ G s) as Hi. pose proof (slot_region _ _ _ G _ Hi).
  pose proof (g_usize _ _ _ G). unfold checked_mul.
  rewrite (proj2 (Z.ltb_lt (slot_index _ _ * _) _)) by lia.
  rewrite get_range_eq by lia. rewrite bool_decide_eq_true_2 by done. done.
Qed.

Context (HA : store_verdict r s body = Accepted) (Hok : bytes_ok body).

Lemma accepted_inv :
  0 <= k < zlen (rr_meta r) /\ zlen body <= rr_slot_len r /\ zlen body < 2 ^ 16 /\
  slot_ready (rr_meta r) s = false.
Proof.
  pose proof (roff_fits r s) as F. unfold fits in F. fold k in F.
  unfold store_verdict, ready_at in HA. fold k in HA. unfold k in HA.
  rewrite pos_roff in HA by auto with lowlat. fold k in HA.
  destruct (Z.ltb_spec HALF k); [done|]. destruct (Z.leb_spec (zlen (rr_meta r)) k); [done|].
  destruct (Z.ltb_spec (rr_slot_len r) (zlen body)); [done|].
  destruct (Z.leb_spec (2 ^ 16) (zlen body)); [done|]. cbn [orb] in HA.
  destruct (slot_ready (rr_meta r) s); [done|]. lia.
Qed.

Lemma place_index t : slot_index (rr_meta (place r s body)) t = slot_index (rr_meta r) t.
Proof. apply slot_index_len, zlen_put_at. Qed.

Lemma place_geom :
  geom_ok (rr_bodies (place r s body)) (rr_meta (place r s body)) (rr_slot_len (place r s body)).
Proof.
  destruct accepted_inv as (Hk & Hl & H16 & _).
  pose proof (wf_geom r W) as G. pose proof (slot_index_bounds _ _ _ G s) as Hi.
  pose proof (slot_region _ _ _ G _ Hi). pose proof (zlen_nonneg body).
  destruct G as [? ? Hb ? Hby Hm].
  split; cbn [place rr_bodies rr_meta rr_slot_len set_field]; rewrite ?zlen_put_at; try done.
  - rewrite zlen_put_range by lia. done.
  - rewrite zlen_put_range by lia. done.
  - unfold put_range, bytes_ok. rewrite !Forall_app. split_and!; [by apply Forall_take|done|by apply Forall_drop].
  - apply Forall_insert; [done|]. cbn [sm_len]. lia.
Qed.

Lemma place_body t :
  RecvRing_slot_body (place r s body) t =
    if slot_index (rr_meta r) t =? slot_index (rr_meta r) s then Some body
    else RecvRing_slot_body r t.
Proof.
  destruct accepted_inv as (Hk & Hl & H16 & _).
  pose proof (wf_geom r W) as G.
  rewrite slot_body_eq by apply place_geom. rewrite place_index.
  pose proof (slot_index_bounds _ _ _ G s) as Hi. pose proof (slot_index_bounds _ _ _ G t) as Ht.
  pose proof (slot_region _ _ _ G _ Hi). pose proof (slot_region _ _ _ G _ Ht).
  pose proof (g_slot_len _ _ _ G).
  cbn [place rr_bodies rr_meta rr_slot_len set_field].
  destruct (Z.eqb_spec (slot_index (rr_meta r) t) (slot_index (rr_meta r) s)) as [->|Hne].
  - rewrite get_put_at_eq by done. cbn. by apply get_put_range_eq; lia.
  - rewrite get_put_at_ne by lia. rewrite slot_body_eq by done.
    destruct (get_at (rr_meta r) (slot_index (rr_meta r) t)) as [m|] eqn:Em; [|done]. cbn.
    pose proof (meta_len _ _ _ G _ _ (proj1 Ht) Em).
    destruct (sm_ready m); [|done]. apply get_put_range_ne; nia.
Qed.

Lemma place_ready t :
  slot_ready (rr_meta (place r s body)) t =
    (slot_index (rr_meta r) t =? slot_index (rr_meta r) s) || slot_ready (rr_meta r) t.
Proof.
  pose proof (wf_geom r W) as G. unfold slot_ready. rewrite place_index.
  pose proof (slot_index_bounds _ _ _ G s). pose proof (slot_index_bounds _ _ _ G t).
  cbn [place rr_meta set_field].
  destruct (Z.eqb_spec (slot_index (rr_meta r) t) (slot_index (rr_meta r) s)) as [->|Hne].
  - by rewrite get_put_at_eq.
  - by rewrite get_put_at_ne by lia.
Qed.

(** One past the highest sequence once [s] is stored. *)
Definition high' : Z := if roff r (rr_highest r) <? k + 1 then wadd 32 s 1 else rr_highest r.

Lemma seq_gt_high : seq_gt (wadd 32 s 1) (rr_highest r) = (roff r (rr_highest r) <? k + 1).
Proof.
  destruct accepted_inv as (Hk & _). destruct (wf_order r W) as [? Hh].
  pose proof (g_slots _ _ _ (wf_geom r W)) as [_ Hslots].
  pose proof (roff_fits r (rr_highest r)) as F. unfold fits in F.
  rewrite <- (pos_roff r s), <- (pos_roff r (rr_highest r)) at 1 by auto with lowlat.
  rewrite pos_succ. fold k. apply seq_gt_offset. unfold HALF in *. lia.
Qed.

Lemma high'_spec :
  fits 32 high' /\ roff r high' = Z.max (roff r (rr_highest r)) (k + 1) /\
  roff r high' <= zlen (rr_meta r).
Proof.
  destruct accepted_inv as (Hk & _). destruct (wf_order r W) as [? Hh].
  pose proof (g_slots _ _ _ (wf_geom r W)) as [_ Hslots]. unfold HALF in Hslots.
  assert (roff r (wadd 32 s 1) = k + 1) as E.
  { rewrite <- (pos_roff r s), pos_succ, roff_pos; auto with lowlat. unfold fits. fold k. lia. }
  unfold high'. destruct (Z.ltb_spec (roff r (rr_highest r)) (k + 1)).
  - rewrite E. split_and!; [auto with lowlat|lia..].
  - split_and!; [auto with lowlat|lia..].
Qed.

Lemma accept_fields :
  exists n, 0 <= n <= seq_distance (rr_cumulative r) high' /\
    let r' := accept r s body in
    rr_bodies r' = rr_bodies (place r s body) /\ rr_meta r' = rr_meta (place r s body) /\
    rr_slot_len r' = rr_slot_len r /\ rr_delivered r' = rr_delivered r /\
    rr_highest r' = high' /\ rr_cumulative r' = wadd 32 (rr_cumulative r) n /\
    (forall j, 0 <= j < n -> slot_ready (rr_meta r') (wadd 32 (rr_cumulative r) j) = true) /\
    (rr_cumulative r' <> high' -> slot_ready (rr_meta r') (rr_cumulative r') = false).
Proof.
  destruct high'_spec as (Hf & _).
  destruct (advance_loop_spec (Z.to_nat (seq_distance (rr_cumulative r) high'))
              (rr_meta (place r s body)) high' (rr_cumulative r)) as (n & Hn & E & Hk & Hstop);
    [auto with lowlat|done..|].
  exists n. split; [done|]. unfold accept. rewrite seq_gt_high. unfold high' in *.
  destruct (_ <? _); cbn [RecvRing_advance rr_bodies rr_meta rr_slot_len rr_delivered rr_highest
    rr_cumulative set_field place] in *; rewrite E; split_and!; done.
Qed.

(** The frontier after the store, as an offset past the reader. *)
Lemma accept_frontier :
  let r' := accept r s body in
  exists c', roff r (rr_cumulative r) <= c' <= roff r high' /\
    rr_cumulative r' = pos r c' /\ roff r (rr_cumulative r') = c' /\
    (forall j, roff r (rr_cumulative r) <= j < c' -> slot_ready (rr_meta r') (pos r j) = true).
Proof.
  destruct accept_fields as (n & Hn & _ & _ & _ & _ & _ & Ec & Hrun & _).
  destruct high'_spec as (Hhf & Hh & _). destruct (wf_order r W) as [Hch _]. cbv zeta.
  pose proof (roff_fits r (rr_cumulative r)) as F1. pose proof (roff_fits r high') as F2.
  unfold fits in F1, F2.
  assert (seq_distance (rr_cumulative r) high' = roff r high' - roff r (rr_cumulative r)) as Hd.
  { rewrite <- (pos_roff r (rr_cumulative r)) at 1 by auto with lowlat.
    apply seq_distance_shift; auto with lowlat. unfold roff in *. lia. }
  assert (forall j, wadd 32 (rr_cumulative r) j = pos r (roff r (rr_cumulative r) + j)) as Hp.
  { intros. rewrite <- pos_add, pos_roff by auto with lowlat. done. }
  rewrite Hp in Ec. exists (roff r (rr_cumulative r) + n). split_and!; try lia; try done.
  - rewrite Ec. apply roff_pos; [auto with lowlat|]. unfold fits. lia.
  - intros j Hj. specialize (Hrun (j - roff r (rr_cumulative r)) ltac:(lia)).
    rewrite Hp in Hrun.
    by replace (roff r (rr_cumulative r) + (j - roff r (rr_cumulative r))) with j in Hrun by lia.
Qed.

Lemma place_ready_mono t :
  slot_ready (rr_meta r) t = true -> slot_ready (rr_meta (place r s body)) t = true.
Proof. rewrite place_ready. intros ->. apply orb_true_r. Qed.

Lemma accept_wf : recv_wf (accept r s body).
Proof.
  destruct accept_fields as (n & _ & Eb & Em & El & Ed & Eh & _ & _ & Hstop).
  destruct accept_frontier as (c' & Hc' & Ecp & Ecr & Hrun).
  destruct high'_spec as (Hhf & Hh & Hhs). destruct accepted_inv as (Hk & _).
  set (r' := accept r s body) in *.
  assert (forall t, roff r' t = roff r t) as Hro by (intros; unfold roff; by rewrite Ed).
  assert (forall j, pos r' j = pos r j) as Hpos by (intros; unfold pos; by rewrite Ed).
  assert (zlen (rr_meta r') = zlen (rr_meta r)) as HL by (rewrite Em; apply zlen_put_at).
  split; unfold ready_at; rewrite ?Hro, ?Eh, ?Ecr, ?Ed.
  - rewrite Eb, Em, El. apply place_geom.
  - auto with lowlat.
  - rewrite Ecp. auto with lowlat.
  - done.
  - lia.
  - intros j Hj. rewrite Hpos. destruct (decide (j < roff r (rr_cumulative r))).
    + rewrite Em. apply place_ready_mono, (wf_front r W). lia.
    + apply Hrun. lia.
  - exact Hstop.
  - intros Hp. rewrite Hpos, Em.
    destruct (decide (roff r high' = k + 1)) as [->|].
    + rewrite place_ready. replace (k + 1 - 1) with k by lia. unfold k.
      rewrite pos_roff by auto with lowlat. by rewrite Z.eqb_refl.
    + rewrite Hh, Z.max_l by lia. apply place_ready_mono, (wf_top r W). lia.
  - intros i m Hi Hm Hr. rewrite Em in Hm. cbn [place rr_meta set_field] in Hm.
    setoid_rewrite Hpos. setoid_rewrite (slot_index_len _ _ _ HL).
    destruct (decide (i = slot_index (rr_meta r) s)) as [->|Hne].
    + exists k. split; [lia|]. unfold k. by rewrite pos_roff by auto with lowlat.
    + rewrite get_put_at_ne in Hm by (apply (slot_index_bounds _ _ _ (wf_geom r W)) || done).
      destruct (wf_window r W i m Hi Hm Hr) as (j & Hj & E). exists j. split; [lia|done].
Qed.

Lemma accept_held j :
  window_inj (zlen (rr_meta r)) (rr_delivered r) -> 0 <= j < zlen (rr_meta r) ->
  held (accept r s body) j = if j =? k then Some body else held r j.
Proof.
  intros Hinj Hj. destruct accept_fields as (n & _ & Eb & Em & El & Ed & _).
  destruct accepted_inv as (Hk & _). unfold held.
  assert (pos (accept r s body) j = pos r j) as -> by (unfold pos; by rewrite Ed).
  transitivity (RecvRing_slot_body (place r s body) (pos r j)).
  { unfold RecvRing_slot_body, RecvRing_index. by rewrite Eb, Em, El. }
  rewrite place_body. destruct (Z.eqb_spec j k) as [->|Hne].
  - unfold k. rewrite pos_roff by auto with lowlat. by rewrite Z.eqb_refl.
  - rewrite (proj2 (Z.eqb_neq _ _)); [done|]. intros E. apply Hne, Hinj; [done..|].
    rewrite <- (pos_roff r s) in E by auto with lowlat. exact E.
Qed.
End store.

(** ** Rings that differ in their diagnostics only *)

Definition same_ring (r r' : RecvRing) : Prop :=
  rr_bodies r = rr_bodies r' /\ rr_meta r = rr_meta r' /\ rr_slot_len r = rr_slot_len r' /\
  rr_delivered r = rr_delivered r' /\ rr_cumulative r = rr_cumulative r' /\
  rr_highest r = rr_highest r'.

#[export] Instance same_ring_equiv : Equivalence same_ring.
Proof.
  split; [by intros r|by intros r r' (?&?&?&?&?&?)|].
  intros r1 r2 r3 (?&?&?&?&?&?) (?&?&?&?&?&?). repeat split; congruence.
Qed.

#[export] Instance slot_body_proper : Proper (same_ring ==> eq ==> eq) RecvRing_slot_body.
Proof.
  intros r r' (Eb&Em&El&_) s ? <-. unfold RecvRing_slot_body, RecvRing_index. by rewrite Eb, Em, El.
Qed.

#[export] Instance roff_proper : Proper (same_ring ==> eq ==> eq) roff.
Proof. intros r r' (_&_&_&Ed&_) s ? <-. unfold roff. by rewrite Ed. Qed.

#[export] Instance pos_proper : Proper (same_ring ==> eq ==> eq) pos.
Proof. intros r r' (_&_&_&Ed&_) s ? <-. unfold pos. by rewrite Ed. Qed.

#[export] Instance held_proper : Proper (same_ring ==> eq ==> eq) held.
Proof. intros r r' E k ? <-. unfold held. by rewrite E. Qed.

#[export] Instance frags_proper : Proper (same_ring ==> eq) frags.
Proof.
  intros r r' E. unfold frags. pose proof E as (_&_&_&_&Ec&_). rewrite Ec, E.
  apply map_ext. intros k. by rewrite E.
Qed.

#[export] Instance recv_wf_proper : Proper (same_ring ==> iff) recv_wf.
Proof.
  assert (forall r r', same_ring r r' -> recv_wf r -> recv_wf r') as H.
  { intros r r' E W. pose proof E as (Eb&Em&El&Ed&Ec&Eh).
    destruct W as [W1 W2 W3 W4 W5 W6 W7 W8 W9].
    split; unfold ready_at, roff, pos in *; rewrite <- ?Eb, <- ?Em, <- ?El, <- ?Ed, <- ?Ec, <- ?Eh; done. }
  intros r r' E. split; apply H; done.
Qed.

(** The counter a store bumps. *)
Definition bump (st : Stored) (r : RecvRing) : RecvRing :=
  match st with
  | Accepted => r <| rr_arrivals := (rr_arrivals r) <| arr_fragments ::= fun n => sat_add 64 n 1 |> |>
  | Duplicate => r <| rr_drops := (rr_drops r) <| drop_duplicate ::= fun n => sat_add 64 n 1 |> |>
  | OutOfWindow => r <| rr_drops := (rr_drops r) <| drop_out_of_window ::= fun n => sat_add 64 n 1 |> |>
  | TooLarge => r <| rr_drops := (rr_drops r) <| drop_too_large ::= fun n => sat_add 64 n 1 |> |>
  end.

Lemma bump_same st r : same_ring (bump st r) r.
Proof. by destruct st. Qed.

Lemma store_eq r s body :
  recv_wf r -> fits 32 s ->
  RecvRing_store r s body =
    (bump (store_verdict r s body)
       (if bool_decide (store_verdict r s body = Accepted) then accept r s body else r),
     store_verdict r s body).
Proof. intros W Hs. unfold RecvRing_store. rewrite store_inner_eq by done. done. Qed.

Lemma held_ready r k : recv_wf r -> ready_at r k = true <-> is_Some (held r k).
Proof.
  intros W. unfold ready_at, held. split.
  - intros H. destruct (slot_body_ready r (wf_geom r W) _ H) as (b & -> & _). by eexists.
  - intros [b Hb]. destruct (slot_ready _ _) eqn:E; [done|].
    by rewrite (slot_body_not_ready r (wf_geom r W)) in Hb.
Qed.

(** The acknowledged frontier is the first sequence not held. *)
Definition frontier_ok (r : RecvRing) : Prop :=
  let c := roff r (rr_cumulative r) in
  (forall j, 0 <= j < c -> is_Some (held r j)) /\ (c < zlen (rr_meta r) -> held r c = None).

Lemma held_none_past r j :
  recv_wf r -> window_inj (zlen (rr_meta r)) (rr_delivered r) ->
  roff r (rr_highest r) <= j < zlen (rr_meta r) -> held r j = None.
Proof.
  intros W Hinj Hj. pose proof (roff_fits r (rr_highest r)) as F. unfold fits in F.
  destruct (ready_at r j) eqn:E.
  - unfold ready_at, slot_ready in E.
    destruct (get_at _ _) as [m|] eqn:Em; [|done].
    destruct (wf_window r W _ m (proj1 (slot_index_bounds _ _ _ (wf_geom r W) _)) Em E) as (k & Hk & Ek).
    destruct (wf_order r W) as [_ ?]. assert (k = j); [|lia]. apply Hinj; [lia..|exact Ek].
  - apply slot_body_not_ready; [apply (wf_geom r W)|done].
Qed.

Lemma wf_frontier r :
  recv_wf r -> window_inj (zlen (rr_meta r)) (rr_delivered r) -> frontier_ok r.
Proof.
  intros W Hinj. split.
  - intros j Hj. by apply held_ready, (wf_front r W).
  - intros Hc. destruct (decide (rr_cumulative r = rr_highest r)) as [E|Hne].
    + apply held_none_past; [done..|]. rewrite E in *. lia.
    + unfold held. rewrite pos_roff by auto with lowlat.
      apply slot_body_not_ready; [apply (wf_geom r W)|]. by apply (wf_gap r W).
Qed.

Lemma store_effect r s body :
  recv_wf r -> window_inj (zlen (rr_meta r)) (rr_delivered r) -> fits 32 s -> bytes_ok body ->
  exists r', RecvRing_store r s body = (r', store_verdict r s body) /\
    recv_wf r' /\ rr_delivered r' = rr_delivered r /\ zlen (rr_meta r') = zlen (rr_meta r) /\
    rr_slot_len r' = rr_slot_len r /\
    (store_verdict r s body <> Accepted -> same_ring r' r) /\
    (store_verdict r s body = Accepted ->
       forall j, 0 <= j < zlen (rr_meta r) ->
         held r' j = if j =? roff r s then Some body else held r j).
Proof.
  intros W Hinj Hs Hb. rewrite store_eq by done. eexists. split; [done|].
  pose proof (bump_same (store_verdict r s body)) as HB.
  set (r1 := if bool_decide _ then _ else _).
  assert (recv_wf r1 /\ rr_delivered r1 = rr_delivered r /\ zlen (rr_meta r1) = zlen (rr_meta r) /\
          rr_slot_len r1 = rr_slot_len r) as (W1 & Ed & El & Es).
  { unfold r1. case_bool_decide as E; [|done].
    destruct (accept_fields r W s Hs body E) as (n & _ & _ & Em & Esl & -> & _).
    split_and!; [by apply accept_wf|done| |done]. rewrite Em. apply zlen_put_at. }
  destruct (HB r1) as (_&Em'&Es'&Ed'&_).
  split_and!.
  - by rewrite HB.
  - by rewrite Ed'.
  - by rewrite Em'.
  - by rewrite Es'.
  - intros Hne. unfold r1. rewrite bool_decide_eq_false_2 by done. apply HB.
  - intros E j Hj. rewrite HB. unfold r1. rewrite bool_decide_eq_true_2 by done. by apply accept_held.
Qed.

(** Storing a fragment.  The outcome is decided by where the sequence
    stands against the reader: behind it a duplicate, past the ring out of the
    window, wider than a slot too large, already held a duplicate, otherwise
    accepted.  A refused store changes nothing but a counter; an accepted one
    puts the body at that sequence and leaves every other sequence of the
    window as it was.  Either way the invariant holds and the acknowledged
    frontier is exactly the first sequence not held. *)
Theorem store_correct (r : RecvRing) (s : Z) (body : list Z) :
  recv_wf r -> window_inj (zlen (rr_meta r)) (rr_delivered r) -> fits 32 s -> bytes_ok body ->
  exists r', RecvRing_store r s body = (r', store_verdict r s body) /\
    recv_wf r' /\ frontier_ok r' /\
    rr_delivered r' = rr_delivered r /\ zlen (rr_meta r') = zlen (rr_meta r) /\
    (store_verdict r s body <> Accepted -> same_ring r' r) /\
    (store_verdict r s body = Accepted ->
       forall j, 0 <= j < zlen (rr_meta r) ->
         held r' j = if j =? roff r s then Some body else held r j).
Proof.
  intros W Hinj Hs Hb. destruct (store_effect r s body W Hinj Hs Hb) as (r' & E & W' & Ed & Em & _ & Hr & Ha).
  exists r'. split_and!; try done. apply wf_frontier; [done|]. by rewrite Em, Ed.
Qed.

(** ** Building a ring *)

Lemma new_wf bodies meta slot_len r :
  RecvRing_new bodies meta slot_len = Ok r -> 0 <= slot_len -> bytes_ok bodies ->
  zlen meta < HALF -> Forall (fun m => m = SlotMeta_default) meta ->
  recv_wf r /\ rr_delivered r = 0 /\ rr_meta r = meta /\ rr_slot_len r = slot_len /\
  frags r = [] /\ roff r (rr_highest r) = 0.
Proof.
  unfold RecvRing_new, checked_mul. intros H Hs Hb Hl Hm. pose proof (zlen_nonneg meta).
  destruct (Z.eqb_spec slot_len 0); [done|]. destruct (Z.eqb_spec (zlen meta) 0); [done|].
  cbn [orb] in H. destruct (Z.ltb_spec (zlen meta * slot_len) (2 ^ 64)); [|done]. cbn in H.
  destruct (Z.eqb_spec (zlen bodies) (zlen meta * slot_len)); [|done]. injection H as <-.
  set (r := mkRecvRing _ _ _ _ _ _ _ _).
  assert (roff r 0 = 0) as Hr0 by done.
  split_and!; try done.
  split; change (rr_cumulative r) with 0; change (rr_highest r) with 0; rewrite ?Hr0;
    change (rr_meta r) with meta; try (unfold fits; lia); try lia; try done.
  - change (rr_slot_len r) with slot_len. change (rr_bodies r) with bodies.
    split; try done; try lia. eapply Forall_impl; [|exact Hm]. intros ? ->. cbn. lia.
  - intros i m Hi Em Hr. rewrite Forall_lookup in Hm. by rewrite (Hm _ _ Em) in Hr.
Qed.

Lemma reset_wf r start :
  recv_wf r -> fits 32 start ->
  recv_wf (RecvRing_reset_to r start) /\ frags (RecvRing_reset_to r start) = [] /\
  rr_delivered (RecvRing_reset_to r start) = start.
Proof.
  intros W Hf. destruct (wf_geom r W) as [? Hsl Hbl ? ? ?].
  assert (zlen (map (fun _ => SlotMeta_default) (rr_meta r)) = zlen (rr_meta r)) as HL
    by (unfold zlen; by rewrite length_map).
  assert (roff (RecvRing_reset_to r start) start = 0) as H0 by apply seq_distance_refl.
  split_and!; [|unfold frags; cbn [RecvRing_reset_to rr_cumulative set_field]; by rewrite H0|done].
  split; cbn [RecvRing_reset_to rr_cumulative rr_highest rr_delivered rr_bodies rr_meta rr_slot_len
    set_field]; try done.
  - split; rewrite ?HL; try done. apply Forall_map. eapply Forall_impl; [|done].
    cbn. intros; lia.
  - rewrite !H0, HL. lia.
  - rewrite H0. lia.
  - rewrite H0. lia.
  - intros i m Hi Em Hr. unfold get_at in Em. rewrite list_lookup_fmap in Em.
    by destruct (rr_meta r !! Z.to_nat i); cbn in Em; simplify_eq.
Qed.

(** ** Taking a message *)

Lemma run_bytes r s fs : run r s fs -> Forall bytes_ok fs.
Proof. induction 1; by constructor. Qed.

Lemma locate_in_inv fs total n :
  Forall bytes_ok fs -> Forall (fun f => zlen f < 2 ^ 16) fs ->
  locate_in fs = Some (Ok (total, n)) ->
  0 < n <= zlen fs /\ fits 32 total /\
  zlen (concat (take (Z.to_nat n) fs)) = total + LENGTH_PREFIX_LEN /\
  exists f fs', fs = f :: fs' /\ LENGTH_PREFIX_LEN <= zlen f /\ total = from_be (take 4 f).
Proof.
  intros Hb Hl. unfold locate_in. destruct fs as [|f fs']; [done|].
  destruct (parse_length_prefix f) as [t|] eqn:Et; [|done].
  inversion_clear Hb as [|?? Hf _].
  destruct (parse_length_prefix_inv f t Hf Et) as (Ht & H4 & E4). unfold fits in Ht.
  destruct (gather _ _ _ _) as [[c m]|] eqn:Eg; [|done].
  destruct (Z.eqb_spec c (t + LENGTH_PREFIX_LEN)) as [Ec|]; [|done]. intros [= -> ->].
  destruct (gather_bounds _ _ _ _ _ _ Hl Eg) as (Hn & Hc & _ & Hp).
  unfold LENGTH_PREFIX_LEN in *. rewrite Z.sub_0_r in Hc.
  split_and!; try (done || lia). by exists f, fs'.
Qed.

(** What a located message delivers: its fragments less the length prefix. *)
Definition content (fs : list (list Z)) (n : Z) : list Z := drop 4 (concat (take (Z.to_nat n) fs)).

(** Copying the message that starts a run. *)
Lemma copy_run r start fs total n wanted out :
  run r start fs -> locate_in fs = Some (Ok (total, n)) -> 0 <= wanted <= total -> wanted <= zlen out ->
  copy_loop (Z.to_nat n) r wanted 0 LENGTH_PREFIX_LEN start out =
    (put_range out 0 (take (Z.to_nat wanted) (content fs n)), Ok wanted).
Proof.
  intros Hrun E Hw Ho.
  destruct (locate_in_inv _ _ _ (run_bytes _ _ _ Hrun) (run_small _ _ _ Hrun) E)
    as (Hn & Ht & Hc & f & fs' & Ef & H4 & _).
  assert (length (take (Z.to_nat n) fs) = Z.to_nat n) as Hlen
    by (rewrite length_take; unfold zlen in Hn; lia).
  rewrite <- Hlen at 1. unfold LENGTH_PREFIX_LEN in *.
  rewrite (copy_loop_chain r _ (take (Z.to_nat n) fs)); try lia; try done.
  - by rewrite Z.sub_0_r.
  - by apply run_chain.
  - intros f0. rewrite Ef. replace (Z.to_nat n) with (S (Z.to_nat n - 1)) by lia.
    cbn. by intros [= <-].
Qed.

Section take.
  Context (r : RecvRing) (W : recv_wf r).
  Context (Hinj : window_inj (zlen (rr_meta r)) (rr_delivered r)).

Lemma locate_frags : RecvRing_locate r (rr_delivered r) = locate_in (frags r).
Proof. apply locate_run; [auto with lowlat|by apply run_frags]. Qed.

Lemma frags_bounds total n :
  locate_in (frags r) = Some (Ok (total, n)) ->
  0 < n <= roff r (rr_cumulative r) /\ 0 <= total /\ zlen (content (frags r) n) = total.
Proof.
  intros E. pose proof (run_frags r W) as Hrun.
  destruct (locate_in_inv _ _ _ (run_bytes _ _ _ Hrun) (run_small _ _ _ Hrun) E)
    as (Hn & Ht & Hc & _). unfold fits in Ht.
  pose proof (run_length r _ _ (wf_cumulative r W) Hrun) as HL.
  change (seq_distance (rr_delivered r) (rr_cumulative r)) with (roff r (rr_cumulative r)) in HL.
  split_and!; try lia. unfold content. rewrite zlen_drop, Hc. unfold LENGTH_PREFIX_LEN. lia.
Qed.

Lemma copy_frags total n wanted out :
  locate_in (frags r) = Some (Ok (total, n)) -> 0 <= wanted <= total -> wanted <= zlen out ->
  copy_loop (Z.to_nat n) r wanted 0 LENGTH_PREFIX_LEN (rr_delivered r) out =
    (put_range out 0 (take (Z.to_nat wanted) (content (frags r) n)), Ok wanted).
Proof. intros E. by apply copy_run, E; apply run_frags. Qed.
End take.

(** Taking a message that is there and fits. *)
Lemma take_located r out total n :
  recv_wf r -> window_inj (zlen (rr_meta r)) (rr_delivered r) ->
  locate_in (frags r) = Some (Ok (total, n)) -> total <= zlen out ->
  exists r', RecvRing_take_message r out = (r', put_range out 0 (content (frags r) n), Some (Ok total)) /\
    zlen (content (frags r) n) = total /\
    recv_wf r' /\ frags r' = drop (Z.to_nat n) (frags r) /\
    rr_delivered r' = wadd 32 (rr_delivered r) n /\ rr_cumulative r' = rr_cumulative r.
Proof.
  intros W Hinj E Ho. unfold RecvRing_take_message. rewrite locate_frags, E by done.
  destruct (frags_bounds r W total n E) as (Hn & Ht & Hc).
  rewrite (proj2 (Z.ltb_ge _ _)) by lia.
  rewrite (copy_frags r W total n total out E) by lia.
  rewrite take_ge by (unfold zlen in Hc; lia).
  eexists. split_and!; [done|done|apply release_wf; done || lia|apply release_frags; done || lia|done..].
Qed.

(** [take_message].  With nothing complete at the reader it returns
    nothing and changes nothing; with a broken length it reports that and
    changes nothing; with a buffer too small for the message likewise.
    Otherwise the buffer starts with the message's content, exactly the
    message's fragments are consumed, everything behind them is still
    waiting in order, and the acknowledged frontier has not moved. *)
Theorem take_message_correct (r : RecvRing) (out : list Z) :
  recv_wf r -> window_inj (zlen (rr_meta r)) (rr_delivered r) ->
  match locate_in (frags r) with
  | None => RecvRing_take_message r out = (r, out, None)
  | Some (Err e) => RecvRing_take_message r out = (r, out, Some (Err e))
  | Some (Ok (total, n)) =>
      (zlen out < total -> RecvRing_take_message r out = (r, out, Some (Err BufferTooSmall))) /\
      (total <= zlen out -> exists r',
         RecvRing_take_message r out =
           (r', put_range out 0 (content (frags r) n), Some (Ok total)) /\
         zlen (content (frags r) n) = total /\
         recv_wf r' /\ frags r' = drop (Z.to_nat n) (frags r) /\
         rr_delivered r' = wadd 32 (rr_delivered r) n /\ rr_cumulative r' = rr_cumulative r)
  end.
Proof.
  intros W Hinj. destruct (locate_in (frags r)) as [[[total n]|e]|] eqn:E.
  - split; intros Ho; [|by apply take_located].
    unfold RecvRing_take_message. rewrite locate_frags, E by done. by rewrite (proj2 (Z.ltb_lt _ _)).
  - unfold RecvRing_take_message. by rewrite locate_frags, E.
  - unfold RecvRing_take_message. by rewrite locate_frags, E.
Qed.

(** ** Reassembly *)

(** Offer fragments one after another, as they arrive. *)
Fixpoint store_all (r : RecvRing) (arrivals : list (Z * list Z)) : RecvRing :=
  match arrivals with
  | [] => r
  | (s, body) :: rest => store_all (fst (RecvRing_store r s body)) rest
  end.

Section arrivals.
  (** What the sender put at each offset past the reader. *)
  Context (part : nat -> list Z).

Definition consistent (r : RecvRing) : Prop :=
  forall j b, 0 <= j < zlen (rr_meta r) -> held r j = Some b -> b = part (Z.to_nat j).

(** A fragment the ring has room for. *)
Definition storable (r : RecvRing) (i : nat) : Prop :=
  Z.of_nat i < zlen (rr_meta r) /\ bytes_ok (part i) /\
  zlen (part i) <= rr_slot_len r /\ zlen (part i) < 2 ^ 16.

Lemma store_arrival r i :
  recv_wf r -> window_inj (zlen (rr_meta r)) (rr_delivered r) -> consistent r -> storable r i ->
  exists r', fst (RecvRing_store r (pos r (Z.of_nat i)) (part i)) = r' /\
    recv_wf r' /\ rr_delivered r' = rr_delivered r /\ zlen (rr_meta r') = zlen (rr_meta r) /\
    rr_slot_len r' = rr_slot_len r /\ consistent r' /\ held r' (Z.of_nat i) = Some (part i) /\
    forall j b, 0 <= j < zlen (rr_meta r) -> held r j = Some b -> held r' j = Some b.
Proof.
  intros W Hinj HC (Hi & Hb & Hl & H16).
  pose proof (g_slots _ _ _ (wf_geom r W)) as [_ Hs]. unfold HALF in Hs.
  assert (roff r (pos r (Z.of_nat i)) = Z.of_nat i) as Ho
    by (apply roff_pos; [auto with lowlat|unfold fits; lia]).
  destruct (store_effect r (pos r (Z.of_nat i)) (part i) W Hinj (pos_fits _ _) Hb)
    as (r' & E & W' & Ed & Em & El & Href & Hacc).
  exists r'. rewrite E. split_and!; try done.
  all: unfold store_verdict in *; rewrite Ho in *; cbv zeta in *;
    rewrite (proj2 (Z.ltb_ge _ _)), (proj2 (Z.leb_gt _ _)), (proj2 (Z.ltb_ge (rr_slot_len r) _)),
      (proj2 (Z.leb_gt _ (zlen (part i)))) in * by (unfold HALF; lia); cbn [orb] in *.
  all: destruct (ready_at r (Z.of_nat i)) eqn:Er.
  - intros j b Hj. rewrite Em in Hj. rewrite (Href ltac:(done)). by apply HC.
  - intros j b Hj. rewrite Em in Hj. rewrite (Hacc eq_refl j Hj).
    destruct (Z.eqb_spec j (Z.of_nat i)) as [->|]; [|by apply HC].
    intros [= <-]. by rewrite Nat2Z.id.
  - rewrite (Href ltac:(done)). apply held_ready in Er as [b Hb']; [|done]. rewrite Hb'.
    apply HC in Hb'; [|lia]. by rewrite Hb', Nat2Z.id.
  - rewrite (Hacc eq_refl) by lia. by rewrite Z.eqb_refl.
  - intros j b Hj. by rewrite (Href ltac:(done)).
  - intros j b Hj Hjb. rewrite (Hacc eq_refl j Hj).
    destruct (Z.eqb_spec j (Z.of_nat i)) as [->|]; [|done].
    apply HC in Hjb as Hb'; [|done]. by rewrite Hb', Nat2Z.id.
Qed.

Lemma store_all_spec r ids :
  recv_wf r -> window_inj (zlen (rr_meta r)) (rr_delivered r) -> consistent r ->
  Forall (storable r) ids ->
  let r' := store_all r (map (fun i => (pos r (Z.of_nat i), part i)) ids) in
  recv_wf r' /\ rr_delivered r' = rr_delivered r /\ zlen (rr_meta r') = zlen (rr_meta r) /\
  consistent r' /\
  (forall j b, 0 <= j < zlen (rr_meta r) -> held r j = Some b -> held r' j = Some b) /\
  (forall i, In i ids -> held r' (Z.of_nat i) = Some (part i)).
Proof.
  intros W Hinj HC Hst. revert r W Hinj HC Hst.
  induction ids as [|i ids IH]; intros r W Hinj HC Hst; [by split_and!|].
  inversion_clear Hst as [|?? Hi Hst']. cbn [map store_all].
  destruct (store_arrival r i W Hinj HC Hi) as (r1 & E & W1 & Ed & Em & El & HC1 & Hi1 & Hkeep).
  rewrite E. destruct (IH r1) as (W' & Ed' & Em' & HC' & Hkeep' & Hin'); try done.
  { by rewrite Ed, Em. }
  { eapply Forall_impl; [|exact Hst']. unfold storable. by rewrite Em, El. }
  assert (forall j, pos r1 j = pos r j) as Hp by (intros; unfold pos; by rewrite Ed).
  rewrite (map_ext _ (fun i => (pos r (Z.of_nat i), part i))) in W', Ed', Em', HC', Hkeep', Hin'
    by (intros; by rewrite Hp).
  cbv zeta. split_and!; try done; try congruence.
  - intros j b Hj Hb. apply Hkeep'; [by rewrite Em|]. by apply Hkeep.
  - intros i' [<-|Hin]; [|by apply Hin']. apply Hkeep'; [|done].
    destruct Hi as (Hi & _). rewrite Em. lia.
Qed.
End arrivals.

(** A window that holds its first [n] fragments acknowledges them. *)
Lemma held_frontier r n :
  recv_wf r -> window_inj (zlen (rr_meta r)) (rr_delivered r) -> n <= zlen (rr_meta r) ->
  (forall j, 0 <= j < n -> is_Some (held r j)) -> n <= roff r (rr_cumulative r).
Proof.
  intros W Hinj Hn Hh. destruct (Z.le_gt_cases n (roff r (rr_cumulative r))); [done|].
  destruct (wf_frontier r W Hinj) as [_ Hnone].
  destruct (Hh (roff r (rr_cumulative r))) as [b Hb].
  { pose proof (roff_fits r (rr_cumulative r)) as F. unfold fits in F. lia. }
  rewrite Hnone in Hb by lia. done.
Qed.

Lemma frags_prefix r (part : nat -> list Z) n :
  (Z.of_nat n <= roff r (rr_cumulative r)) ->
  (forall i, (i < n)%nat -> held r (Z.of_nat i) = Some (part i)) ->
  exists rest, frags r = map part (seq 0 n) ++ rest.
Proof.
  intros Hn Hh. unfold frags.
  replace (Z.to_nat (roff r (rr_cumulative r)))
    with (n + (Z.to_nat (roff r (rr_cumulative r)) - n))%nat by lia.
  rewrite seq_app, map_app. eexists. f_equal. apply map_ext_in.
  intros i Hi%in_seq. unfold held in Hh. by rewrite Hh by lia.
Qed.

Lemma gather_all stream collected n fs rest :
  collected + zlen (concat fs) = stream -> Forall (fun f => 0 < zlen f) fs ->
  gather stream collected n (fs ++ rest) = Some (stream, n + zlen fs).
Proof.
  intros Hc Hf. revert collected n Hc. induction Hf as [|f fs Hpos Hf IH]; intros collected n Hc.
  - cbn in Hc. rewrite zlen_nil in Hc. rewrite zlen_nil. cbn [app].
    replace collected with stream by lia.
    destruct rest; cbn [gather]; rewrite Z.ltb_irrefl; do 2 f_equal; lia.
  - cbn [app gather concat] in *. rewrite zlen_app in Hc. pose proof (zlen_nonneg (concat fs)).
    rewrite (proj2 (Z.ltb_lt _ _)) by lia. rewrite IH by lia. rewrite zlen_cons. do 2 f_equal. lia.
Qed.

Section reassembly.
  Context (m : Message) (cap : Z) (Hm : message_ok m) (Hcap : 4 <= cap < 2 ^ 16).
Let n := Message_fragment_count m cap.
Let parts := map (chunk cap (Message_stream m)) (seq 0 (Z.to_nat n)).

Lemma parts_concat : concat parts = Message_stream m.
Proof.
  unfold parts. rewrite concat_chunks. apply take_ge.
  pose proof (zlen_stream m Hm) as E. unfold zlen in E.
  pose proof (fragment_count_stream m cap Hm ltac:(lia) n) as H. fold n in H. nia.
Qed.

Lemma parts_nonempty : Forall (fun f => 0 < zlen f) parts.
Proof.
  apply Forall_map, List.Forall_forall. intros i Hi%in_seq. cbn.
  rewrite zlen_chunk, (zlen_stream m Hm) by lia.
  pose proof (fragment_count_stream m cap Hm ltac:(lia) (Z.of_nat i)) as H. fold n in H. lia.
Qed.

Lemma locate_parts rest :
  locate_in (parts ++ rest) = Some (Ok (Message_total_len m, n)).
Proof.
  pose proof (fragment_count_pos m cap Hm ltac:(lia)) as Hp. fold n in Hp.
  assert (zlen parts = n) as Hl by (unfold parts, zlen; rewrite length_map, length_seq; lia).
  assert (exists tl, parts = chunk cap (Message_stream m) 0 :: tl) as [tl Etl].
  { unfold parts. replace (Z.to_nat n) with (S (Z.to_nat n - 1)) by lia. cbn [seq map]. eauto. }
  assert (parse_length_prefix (chunk cap (Message_stream m) 0) = Ok (Message_total_len m)) as E.
  { unfold parse_length_prefix, chunk, LENGTH_PREFIX_LEN. rewrite drop_0.
    pose proof (zlen_stream m Hm) as Es. pose proof (stream_len_bounds m Hm).
    rewrite get_range_eq by (rewrite ?zlen_take; lia).
    change (Z.to_nat (4 - 0)) with 4%nat. change (Z.to_nat 0) with 0%nat. rewrite drop_0.
    rewrite take_take, Nat.min_l by lia. cbn. unfold Message_stream, Message_total_len.
    pose proof (zlen_prefix m Hm) as Hpre. unfold zlen in Hpre.
    by rewrite take_app_length' by lia. }
  unfold locate_in. rewrite Etl. cbn [app]. rewrite E.
  change (chunk cap (Message_stream m) 0 :: tl ++ rest)
    with ((chunk cap (Message_stream m) 0 :: tl) ++ rest). rewrite <- Etl.
  rewrite gather_all; [|by rewrite parts_concat, (zlen_stream m Hm), (stream_len_eq m Hm)|apply parts_nonempty].
  rewrite Z.eqb_refl, Hl, Z.add_0_l. done.
Qed.

Lemma content_parts rest : content (parts ++ rest) n = msg_header m ++ msg_payload m.
Proof.
  assert (length parts = Z.to_nat n) as Hl by (unfold parts; by rewrite length_map, length_seq).
  unfold content. rewrite <- Hl, take_app_length, parts_concat. unfold Message_stream.
  pose proof (zlen_prefix m Hm) as Hpre. unfold zlen in Hpre.
  rewrite drop_app_length' by lia. done.
Qed.
End reassembly.

Lemma take_reassembled (r : RecvRing) (m : Message) (cap : Z) (part : nat -> list Z)
    (arrivals : list nat) (out : list Z) :
  recv_wf r -> window_inj (zlen (rr_meta r)) (rr_delivered r) ->
  message_ok m -> 4 <= cap < 2 ^ 16 ->
  Message_fragment_count m cap <= zlen (rr_meta r) ->
  (forall i, Z.of_nat i < Message_fragment_count m cap -> part i = chunk cap (Message_stream m) i) ->
  consistent part r -> Forall (storable part r) arrivals ->
  (forall i, Z.of_nat i < Message_fragment_count m cap -> In i arrivals) ->
  Message_total_len m <= zlen out ->
  exists r', RecvRing_take_message (store_all r (map (fun i => (pos r (Z.of_nat i), part i)) arrivals)) out
      = (r', put_range out 0 (msg_header m ++ msg_payload m), Some (Ok (Message_total_len m))) /\
    recv_wf r' /\ rr_delivered r' = pos r (Message_fragment_count m cap).
Proof.
  intros W Hinj Hm Hcap Hn Hpart HC Hst Hall Hout.
  destruct (store_all_spec part r arrivals W Hinj HC Hst) as (W1 & Ed & Em & _ & _ & Hin).
  set (r1 := store_all r _) in *. rewrite <- Em, <- Ed in Hinj. set (n := Message_fragment_count m cap) in *.
  assert (forall j, 0 <= j < n -> held r1 j = Some (chunk cap (Message_stream m) (Z.to_nat j))) as Hheld.
  { intros j Hj. replace j with (Z.of_nat (Z.to_nat j)) at 1 by lia.
    rewrite Hin by (apply Hall; lia). by rewrite Hpart by lia. }
  assert (n <= roff r1 (rr_cumulative r1)) as Hf.
  { apply held_frontier; [done..|lia|]. intros j Hj. rewrite Hheld by done. by eexists. }
  destruct (frags_prefix r1 (chunk cap (Message_stream m)) (Z.to_nat n)) as [rest Efr].
  { pose proof (fragment_count_pos m cap Hm ltac:(lia)). lia. }
  { intros i Hi. rewrite Hheld by lia. by rewrite Nat2Z.id. }
  destruct (take_located r1 out (Message_total_len m) n W1 Hinj) as (r' & E & _ & W' & _ & Ed' & _).
  { rewrite Efr. by apply locate_parts. }
  { done. }
  rewrite Efr in E. unfold n in E.
  rewrite content_parts in E by done.
  exists r'. split_and!; [done..|]. unfold pos. by rewrite <- Ed.
Qed.

(** C31: reassembly, clear of the sequence wrap.  Let no two sequences of the
    ring's window share a slot, as none do unless the window straddles the
    32-bit wrap (where they may: [wrap_refuses_fragment]), and let what the
    ring holds already be the peer's fragments.  Let a message that the ring can hold be sliced into fragments of at most a slot and let the
    peer's fragments within the window (this message's and any after it) reach
    the ring in any order, any of them any number of times, until every fragment
    of the message has arrived once.  Then, the output having room, [take_message] delivers
    the message's header and payload, byte for byte, and moves the reader
    past exactly its fragments. *)
Theorem reassembly (r : RecvRing) (m : Message) (cap : Z) (part : nat -> list Z)
    (arrivals : list nat) (out : list Z) :
  recv_wf r -> window_inj (zlen (rr_meta r)) (rr_delivered r) ->
  message_ok m -> 4 <= cap < 2 ^ 16 ->
  Message_fragment_count m cap <= zlen (rr_meta r) ->
  (forall i, Z.of_nat i < Message_fragment_count m cap -> part i = chunk cap (Message_stream m) i) ->
  consistent part r -> Forall (storable part r) arrivals ->
  (forall i, Z.of_nat i < Message_fragment_count m cap -> In i arrivals) ->
  Message_total_len m <= zlen out ->
  exists r', RecvRing_take_message (store_all r (map (fun i => (pos r (Z.of_nat i), part i)) arrivals)) out
      = (r', put_range out 0 (msg_header m ++ msg_payload m), Some (Ok (Message_total_len m))) /\
    recv_wf r' /\ rr_delivered r' = pos r (Message_fragment_count m cap).
Proof. by apply take_reassembled. Qed.

(** ** Concrete rings *)

Definition ring8 : RecvRing :=
  mkRecvRing (repeat 0 64) (repeat SlotMeta_default 8) 8 0 0 0 (mkDrops 0 0 0) (mkArrivals 0 0).

Lemma ring8_wf : recv_wf ring8.
Proof.
  apply (new_wf (repeat 0 64) (repeat SlotMeta_default 8) 8); [reflexivity|lia| |done|].
  - unfold bytes_ok. repeat constructor; unfold fits; lia.
  - repeat constructor.
Qed.

Lemma ring8_inj : window_inj (zlen (rr_meta ring8)) (rr_delivered ring8).
Proof. by apply window_inj_nowrap; vm_compute. Qed.

Definition hello : Message :=
  mkMessage [0; 0; 0; 12] [7] [104; 101; 108; 108; 111; 32; 119; 111; 114; 108; 100].

(** The ring once both fragments of [hello] have arrived, out of order. *)
Definition hello_ring : RecvRing :=
  store_all ring8 [(1, chunk 8 (Message_stream hello) 1); (0, chunk 8 (Message_stream hello) 0)].

Lemma hello_storable i : (i < 2)%nat -> storable (chunk 8 (Message_stream hello)) ring8 i.
Proof.
  intros Hi. destruct i as [|[|?]]; [| |lia]; (split_and!; [by vm_compute| |by vm_compute..]);
    repeat constructor; unfold fits; lia.
Qed.

Lemma ring8_consistent part : consistent part ring8.
Proof.
  intros j b Hj. unfold held. rewrite slot_body_not_ready; [done|apply (wf_geom _ ring8_wf)|].
  unfold slot_ready. destruct (get_at _ _) as [x|] eqn:E; [|done].
  unfold get_at in E. apply list_elem_of_lookup_2, list_elem_of_In, repeat_spec in E. by subst x.
Qed.

Lemma hello_ring_wf : recv_wf hello_ring /\ rr_delivered hello_ring = 0.
Proof.
  destruct (store_all_spec (chunk 8 (Message_stream hello)) ring8 [1%nat; 0%nat]
    ring8_wf ring8_inj (ring8_consistent _)) as (W & Ed & _); [|done].
  repeat apply List.Forall_cons; [apply hello_storable; lia..|apply List.Forall_nil].
Qed.

Lemma store_correct_witness : exists r',
  RecvRing_store ring8 3 [9; 9] = (r', Accepted) /\ held r' 3 = Some [9; 9] /\ frontier_ok r'.
Proof.
  destruct (store_correct ring8 3 [9; 9] ring8_wf ring8_inj) as (r' & E & _ & F & _ & _ & _ & H).
  { unfold fits. lia. }
  { repeat constructor; unfold fits; lia. }
  exists r'. split_and!; [exact E| |exact F]. rewrite H; [reflexivity..|]. by vm_compute.
Defined.

Lemma take_message_correct_witness : exists r',
  RecvRing_take_message hello_ring (repeat 0 16)
    = (r', [7; 104; 101; 108; 108; 111; 32; 119; 111; 114; 108; 100; 0; 0; 0; 0], Some (Ok 12)) /\
  frags r' = [].
Proof.
  pose proof (take_message_correct hello_ring (repeat 0 16) (proj1 hello_ring_wf)) as H.
  replace (locate_in (frags hello_ring)) with (Some (Ok (A := Z * Z) (12, 2))) in H by reflexivity.
  destruct H as [_ H]; [by apply window_inj_nowrap; vm_compute|].
  destruct H as (r' & E & _ & _ & F & _); [by vm_compute|].
  exists r'. split; [exact E|]. rewrite F. reflexivity.
Defined.

Lemma reassembly_witness : exists r',
  RecvRing_take_message hello_ring (repeat 0 16)
    = (r', [7; 104; 101; 108; 108; 111; 32; 119; 111; 114; 108; 100; 0; 0; 0; 0], Some (Ok 12)) /\
  rr_delivered r' = 2.
Proof.
  destruct (reassembly ring8 hello 8 (chunk 8 (Message_stream hello)) [1%nat; 0%nat] (repeat 0 16)
    ring8_wf ring8_inj) as (r' & E & _ & D).
  - reflexivity.
  - lia.
  - by vm_compute.
  - reflexivity.
  - apply ring8_consistent.
  - repeat apply List.Forall_cons; [apply hello_storable; lia..|apply List.Forall_nil].
  - intros i Hi. change (Message_fragment_count hello 8) with 2 in Hi.
    destruct i as [|[|?]]; cbn; [tauto..|lia].
  - by vm_compute.
  - exists r'. split; [exact E|exact D].
Defined.

(** ** Across the wrap *)

(** C40: the ring is not direct-mapped across the 32-bit wrap.  With the
    depth the peers use and the reader two short of the wrap, the fragment
    3296 past it lies within the window but falls on the reader's own slot; as
    long as that slot holds its fragment, the other is refused as a duplicate
    it is not, and the ring keeps what it had. *)
Theorem wrap_refuses_fragment (r : RecvRing) (body : list Z) :
  zlen (rr_meta r) = RING_SLOTS -> rr_delivered r = 4294967294 ->
  slot_ready (rr_meta r) 4294967294 = true -> zlen body <= rr_slot_len r -> zlen body < 2 ^ 16 ->
  seq_distance (rr_delivered r) 3294 < RecvRing_slots r /\
  exists r', RecvRing_store r 3294 body = (r', Duplicate) /\ rr_meta r' = rr_meta r /\
    rr_bodies r' = rr_bodies r /\ rr_cumulative r' = rr_cumulative r.
Proof.
  intros Hz Hd Hr Hl H16. pose proof (zlen_nonneg body).
  assert (seq_distance (rr_delivered r) 3294 = 3296) as Es by (by rewrite Hd).
  assert (seq_lt 3294 (rr_delivered r) = false) as El by (by rewrite Hd).
  unfold RecvRing_slots. rewrite Es, Hz. split; [done|].
  assert (slot_index (rr_meta r) 4294967294 = slot_index (rr_meta r) 3294) as Ei
    by (unfold slot_index; by rewrite Hz).
  unfold RecvRing_store, RecvRing_store_inner, RecvRing_index. rewrite El, Es, Hz.
  rewrite (proj2 (Z.leb_gt RING_SLOTS 3296)), (proj2 (Z.ltb_ge (rr_slot_len r) _)) by done.
  unfold try_from. rewrite (proj2 (Z.leb_le 0 _)), (proj2 (Z.ltb_lt _ (2 ^ 16))) by lia. cbn [andb].
  unfold slot_ready in Hr. rewrite Ei in Hr.
  destruct (get_at _ _) as [m|]; [|done]. rewrite Hr. by eexists.
Qed.

(** The reader two short of the wrap, holding one fragment. *)
Definition wrap_ring : RecvRing :=
  let empty := mkRecvRing (repeat 0 4000) (repeat SlotMeta_default 4000) 1 0 0 0 (mkDrops 0 0 0) (mkArrivals 0 0) in
  fst (RecvRing_store (RecvRing_reset_to empty 4294967294) 4294967294 [5]).

Lemma wrap_refuses_fragment_witness : exists r', RecvRing_store wrap_ring 3294 [6] = (r', Duplicate).
Proof.
  destruct (wrap_refuses_fragment wrap_ring [6]) as [_ (r' & E & _)];
    [by vm_compute|by vm_compute|by vm_compute|by vm_compute|by vm_compute|].
  exists r'. exact E.
Defined.
