(* ===== verification/ChannelRead.v ===== *)
(** The receive ring as a queue of messages: counting, looking ahead and
    skipping, and the escape from a gap that will not fill. *)

From S2P Require Import Prelude CoreError Seq Message Channel ChannelFacts ChannelSpec.

(** ** The complete messages of a run

    The contents of the messages that have arrived whole, in order.  Every
    located message spans at least one fragment, so a run's length is fuel
    enough. *)
Fixpoint backlog_in (fuel : nat) (fs : list (list Z)) : list (list Z) :=
  match fuel with
  | O => []
  | S fuel' =>
      match locate_in fs with
      | Some (Ok (_, n)) => content fs n :: backlog_in fuel' (drop (Z.to_nat n) fs)
      | _ => []
      end
  end.

Definition backlog (r : RecvRing) : list (list Z) := backlog_in (length (frags r)) (frags r).

(** A located message, from any position of the run. *)
Lemma run_located r s fs total n :
  fits 32 (rr_cumulative r) -> run r s fs -> locate_in fs = Some (Ok (total, n)) ->
  0 < n <= zlen fs /\ 0 <= total < 2 ^ 32 /\ zlen (content fs n) = total /\
  run r (wadd 32 s n) (drop (Z.to_nat n) fs) /\ (length (drop (Z.to_nat n) fs) < length fs)%nat.
Proof.
  intros Hc Hrun E.
  destruct (locate_in_inv _ _ _ (run_bytes _ _ _ Hrun) (run_small _ _ _ Hrun) E) as (Hn & Ht & Hl & _).
  unfold fits in Ht. split_and!; try lia.
  - unfold content. rewrite zlen_drop, Hl. unfold LENGTH_PREFIX_LEN. lia.
  - replace n with (Z.of_nat (Z.to_nat n)) at 1 by lia. apply run_drop; [done..|]. unfold zlen in Hn. lia.
  - rewrite length_drop. unfold zlen in Hn. lia.
Qed.

Lemma backlog_length r s fs fuel :
  fits 32 (rr_cumulative r) -> run r s fs -> (length fs <= fuel)%nat -> (length (backlog_in fuel fs) <= length fs)%nat.
Proof.
  intros Hc. revert s fs. induction fuel as [|fuel IH]; intros s fs Hrun Hf; cbn [backlog_in length]; [lia|].
  destruct (locate_in fs) as [[[total n]|]|] eqn:E; cbn [length]; try lia.
  destruct (run_located r s fs total n Hc Hrun E) as (Hn & _ & _ & Hd & Hl).
  specialize (IH _ _ Hd ltac:(lia)). lia.
Qed.

Lemma backlog_fuel r s fs fuel fuel' :
  fits 32 (rr_cumulative r) -> run r s fs -> (length fs <= fuel)%nat -> (length fs <= fuel')%nat ->
  backlog_in fuel fs = backlog_in fuel' fs.
Proof.
  intros Hc. revert s fs fuel'. induction fuel as [|fuel IH]; intros s fs fuel' Hrun Hf Hf'.
  - destruct fs; [|cbn in Hf; lia]. by destruct fuel'.
  - destruct fuel' as [|fuel']; [destruct fs; [done|cbn in Hf'; lia]|]. cbn [backlog_in].
    destruct (locate_in fs) as [[[total n]|]|] eqn:E; [|done..].
    destruct (run_located r s fs total n Hc Hrun E) as (Hn & _ & _ & Hd & Hl).
    f_equal. eapply IH; [done|lia..].
Qed.

(** ** Counting and looking ahead *)

Lemma pending_run r s fs fuel count :
  fits 32 (rr_cumulative r) -> run r s fs -> (length fs <= fuel)%nat ->
  0 <= count -> count + zlen fs < 2 ^ 32 ->
  pending_loop fuel r s count = count + zlen (backlog_in fuel fs).
Proof.
  intros Hc. revert s fs count. induction fuel as [|fuel IH]; intros s fs count Hrun Hf H0 Hlt;
    cbn [pending_loop backlog_in]; rewrite (locate_run r s fs Hc Hrun).
  - destruct fs; [|cbn in Hf; lia]. cbn. rewrite zlen_nil. lia.
  - destruct (locate_in fs) as [[[total n]|]|] eqn:E; [|rewrite zlen_nil; lia..].
    destruct (run_located r s fs total n Hc Hrun E) as (Hn & _ & _ & Hd & Hl).
    rewrite (IH _ (drop (Z.to_nat n) fs)); [|done|lia|auto with lowlat| ].
    + rewrite zlen_cons. unfold wadd. rewrite wrap_small by (unfold fits; lia). lia.
    + apply fits_wadd. lia.
    + unfold wadd. rewrite wrap_small by (unfold fits; lia). rewrite zlen_drop. lia.
Qed.

Lemma nth_run r s fs fuel n behind :
  fits 32 (rr_cumulative r) -> run r s fs -> (length fs <= fuel)%nat ->
  0 <= behind <= n -> n < 2 ^ 32 ->
  match backlog_in fuel fs !! Z.to_nat (n - behind) with
  | Some c => exists start fs' m, nth_loop fuel r n s behind = Some (start, zlen c, m) /\
      run r start fs' /\ locate_in fs' = Some (Ok (zlen c, m)) /\ content fs' m = c
  | None => nth_loop fuel r n s behind = None
  end.
Proof.
  intros Hc. revert s fs behind. induction fuel as [|fuel IH]; intros s fs behind Hrun Hf Hb Hn;
    cbn [nth_loop backlog_in]; rewrite (locate_run r s fs Hc Hrun).
  - destruct fs; [done|cbn in Hf; lia].
  - destruct (locate_in fs) as [[[total m]|]|] eqn:E; [|done..].
    destruct (run_located r s fs total m Hc Hrun E) as (Hm & _ & Hz & Hd & Hl). cbn [mbind option_bind].
    destruct (Z.eqb_spec behind n) as [->|Hne].
    + rewrite Z.sub_diag. cbn. exists s, fs, m. by rewrite Hz.
    + replace (Z.to_nat (n - behind)) with (S (Z.to_nat (n - (behind + 1)))) by lia. cbn [lookup list_lookup].
      assert (wadd 32 behind 1 = behind + 1) as -> by (apply wrap_small; unfold fits; lia).
      apply IH; [done|lia..].
Qed.

(** The mapping stays injective wherever the reader may come to stand. *)
Definition windows_inj (r : RecvRing) : Prop :=
  forall k, 0 <= k <= roff r (rr_cumulative r) -> window_inj (zlen (rr_meta r)) (pos r k).

Lemma windows_inj_here r : recv_wf r -> windows_inj r -> window_inj (zlen (rr_meta r)) (rr_delivered r).
Proof.
  intros W H. rewrite <- (pos_0 r) by auto with lowlat. apply H.
  pose proof (roff_fits r (rr_cumulative r)) as F. unfold fits in F. lia.
Qed.

Lemma release_windows r n :
  recv_wf r -> 0 <= n <= roff r (rr_cumulative r) -> windows_inj r -> windows_inj (RecvRing_release r n).
Proof.
  intros W Hn H k. rewrite (release_pos r n).
  change (rr_cumulative (RecvRing_release r n)) with (rr_cumulative r).
  rewrite (release_roff r W n Hn) by (auto with lowlat; lia). intros Hk.
  replace (zlen (rr_meta (RecvRing_release r n))) with (zlen (rr_meta r)) by (symmetry; apply zlen_clear_slots).
  apply H. lia.
Qed.

Lemma frags_length r : recv_wf r -> zlen (frags r) = roff r (rr_cumulative r).
Proof. intros W. apply (run_length r _ _ (wf_cumulative r W) (run_frags r W)). Qed.

(** The head of the queue, and what is left when it goes. *)
Lemma backlog_cases r :
  recv_wf r -> windows_inj r ->
  match locate_in (frags r) with
  | Some (Ok (total, n)) => exists c,
      c = content (frags r) n /\ zlen c = total /\ 0 < n <= roff r (rr_cumulative r) /\
      let r' := RecvRing_release r n in
      recv_wf r' /\ windows_inj r' /\ backlog r = c :: backlog r'
  | _ => backlog r = []
  end.
Proof.
  intros W Hw. pose proof (run_frags r W) as Hrun. pose proof (wf_cumulative r W) as Hc.
  pose proof (frags_length r W) as HL. unfold backlog.
  destruct (locate_in (frags r)) as [[[total n]|e]|] eqn:E.
  2,3: destruct (frags r) as [|f fs] eqn:Ef; [done|]; cbn [length backlog_in]; by rewrite E.
  destruct (run_located r _ _ total n Hc Hrun E) as (Hn & _ & Hz & Hd & Hl). rewrite HL in Hn.
  exists (content (frags r) n). split_and!; try done; try lia.
  - apply release_wf; [done|by apply windows_inj_here|lia].
  - by apply release_windows; [|lia|].
  - rewrite release_frags by (done || lia || by apply windows_inj_here).
    destruct (length (frags r)) as [|k] eqn:Ek; [lia|]. cbn [backlog_in]. rewrite E. f_equal.
    apply (backlog_fuel r _ _ _ _ Hc Hd); lia.
Qed.

Lemma skip_queue n r skipped :
  recv_wf r -> windows_inj r -> 0 <= skipped -> skipped + Z.of_nat n < 2 ^ 32 ->
  exists r', skip_loop n r skipped = (r', skipped + Z.min (Z.of_nat n) (zlen (backlog r))) /\
    recv_wf r' /\ windows_inj r' /\ backlog r' = drop n (backlog r) /\ rr_cumulative r' = rr_cumulative r.
Proof.
  revert r skipped. induction n as [|n IH]; intros r skipped W Hw H0 Hlt; cbn [skip_loop].
  { exists r. pose proof (zlen_nonneg (backlog r)). split_and!; try done. f_equal. lia. }
  rewrite locate_frags by done. pose proof (backlog_cases r W Hw) as HB.
  destruct (locate_in (frags r)) as [[[total k]|e]|] eqn:E.
  2,3: exists r; rewrite HB; split_and!; try done; change (zlen (@nil (list Z))) with 0; f_equal; lia.
  destruct HB as (c & _ & _ & _ & W' & Hw' & ->).
  assert (wadd 32 skipped 1 = skipped + 1) as -> by (apply wrap_small; unfold fits; lia).
  destruct (IH (RecvRing_release r k) (skipped + 1) W' Hw') as (r' & -> & W'' & Hw'' & Hb & Hcu); [lia..|].
  exists r'. rewrite zlen_cons. split_and!; try done. f_equal. lia.
Qed.

(** The receive ring is a queue of messages.  [pending_messages] is its
    length; [peek_message] copies the leading bytes of the [n]th without moving
    anything, and finds nothing past the end; [skip_messages] drops from the
    front, never past an incomplete message; [take_message] pops the head, and
    with no complete message at the front takes nothing.  The acknowledged
    frontier never moves. *)
Theorem receive_queue (r : RecvRing) (n : Z) (out : list Z) :
  recv_wf r -> windows_inj r -> fits 32 n ->
  RecvRing_pending_messages r = zlen (backlog r) /\
  RecvRing_peek_message r n out =
    match backlog r !! Z.to_nat n with
    | Some c => let wanted := Z.min (zlen c) (zlen out) in
        (put_range out 0 (take (Z.to_nat wanted) c), Some wanted)
    | None => (out, None)
    end /\
  (exists r', RecvRing_skip_messages r n = (r', Z.min n (zlen (backlog r))) /\ recv_wf r' /\
     backlog r' = drop (Z.to_nat n) (backlog r) /\ rr_cumulative r' = rr_cumulative r) /\
  match backlog r with
  | [] => exists res, RecvRing_take_message r out = (r, out, res) /\ forall len, res <> Some (Ok len)
  | c :: rest => zlen c <= zlen out -> exists r',
      RecvRing_take_message r out = (r', put_range out 0 c, Some (Ok (zlen c))) /\ recv_wf r' /\
      backlog r' = rest /\ rr_cumulative r' = rr_cumulative r
  end.
Proof.
  intros W Hw Hn. pose proof (wf_cumulative r W) as Hc. pose proof (run_frags r W) as Hrun.
  pose proof (frags_length r W) as HL. pose proof (roff_fits r (rr_cumulative r)) as F. unfold fits in F, Hn.
  assert (Z.to_nat (roff r (rr_cumulative r)) = length (frags r)) as Hlen by (unfold zlen in HL; lia).
  split_and!.
  - unfold RecvRing_pending_messages. fold (roff r (rr_cumulative r)). rewrite Hlen.
    rewrite (pending_run r _ (frags r)) by (done || lia). unfold backlog. lia.
  - unfold RecvRing_peek_message, RecvRing_nth. fold (roff r (rr_cumulative r)). rewrite Hlen.
    pose proof (nth_run r _ (frags r) (length (frags r)) n 0 Hc Hrun) as HN. rewrite Z.sub_0_r in HN.
    fold (backlog r) in HN. specialize (HN ltac:(lia) ltac:(lia) ltac:(lia)).
    destruct (backlog r !! Z.to_nat n) as [c|]; [|by rewrite HN].
    destruct HN as (start & fs & m & -> & Hr & El & <-). cbv zeta.
    pose proof (zlen_nonneg (content fs m)). pose proof (zlen_nonneg out).
    by rewrite (copy_run r start fs (zlen (content fs m)) m) by (done || lia).
  - unfold RecvRing_skip_messages.
    destruct (skip_queue (Z.to_nat n) r 0 W Hw) as (r' & -> & W' & _ & Hb & Hcu); [lia..|].
    exists r'. split_and!; try done. f_equal. lia.
  - pose proof (backlog_cases r W Hw) as HB. unfold RecvRing_take_message. rewrite locate_frags by done.
    destruct (locate_in (frags r)) as [[[total k]|e]|] eqn:E.
    2,3: rewrite HB; eexists; split; [done|]; done.
    destruct HB as (c & -> & Hz & Hk & W' & Hw' & ->). intros Ho.
    pose proof (zlen_nonneg (content (frags r) k)).
    rewrite (proj2 (Z.ltb_ge _ _)) by lia.
    rewrite (copy_frags r W total k total out E) by lia.
    rewrite take_ge by (unfold zlen in Hz; lia). rewrite <- Hz. by eexists.
Qed.

Lemma hello_windows : windows_inj hello_ring.
Proof.
  intros k Hk. change (roff hello_ring (rr_cumulative hello_ring)) with 2 in Hk.
  assert (pos hello_ring k = k) as -> by (apply wrap_small; unfold fits; change (rr_delivered hello_ring) with 0; lia).
  change (zlen (rr_meta hello_ring)) with 8. apply window_inj_divides; [lia|]. exists (2 ^ 29). done.
Qed.

Lemma receive_queue_witness :
  RecvRing_pending_messages hello_ring = 1 /\
  RecvRing_peek_message hello_ring 0 [0; 0; 0] = ([7; 104; 101], Some 3).
Proof.
  destruct (receive_queue hello_ring 0 [0; 0; 0] (proj1 hello_ring_wf) hello_windows) as (H1 & H2 & _);
    [unfold fits; lia|].
  split; [rewrite H1; reflexivity|rewrite H2; reflexivity].
Defined.

(** ** Escaping a gap *)

(** The last offset below [n] with a property. *)
Fixpoint last_below (P : Z -> bool) (n : nat) : option Z :=
  match n with
  | O => None
  | S m => if P (Z.of_nat m) then Some (Z.of_nat m) else last_below P m
  end.

Lemma last_below_spec P n :
  match last_below P n with
  | Some k => 0 <= k < Z.of_nat n /\ P k = true /\ forall j, k < j < Z.of_nat n -> P j = false
  | None => forall j, 0 <= j < Z.of_nat n -> P j = false
  end.
Proof.
  induction n as [|n IH]; cbn [last_below]; [intros; lia|].
  destruct (P (Z.of_nat n)) eqn:E; [split_and!; done || lia|].
  destruct (last_below P n) as [k|].
  - destruct IH as (Hk & HP & Hj). split_and!; [lia..|done|].
    intros j ?. destruct (Z.eq_dec j (Z.of_nat n)) as [->|]; [done|]. apply Hj. lia.
  - intros j ?. destruct (Z.eq_dec j (Z.of_nat n)) as [->|]; [done|]. apply IH. lia.
Qed.

Definition occupied_at (r : RecvRing) (k : Z) : bool := bool_decide (is_Some (held r k)).
Definition resumable_at (r : RecvRing) (resumable : list Z -> bool) (k : Z) : bool :=
  match held r k with Some body => resumable body | None => false end.

Lemma escape_scan_spec r resumable fuel a :
  fits 32 (rr_delivered r) -> fits 32 (rr_highest r) ->
  Z.of_nat a + Z.of_nat fuel = roff r (rr_highest r) ->
  escape_scan fuel r resumable (pos r (Z.of_nat a))
    (pos r <$> last_below (occupied_at r) a) (pos r <$> last_below (resumable_at r resumable) a)
  = (pos r <$> last_below (occupied_at r) (a + fuel), pos r <$> last_below (resumable_at r resumable) (a + fuel)).
Proof.
  intros Hd Hh. revert a. induction fuel as [|fuel IH]; intros a Ha; [by rewrite Nat.add_0_r|].
  cbn [escape_scan]. pose proof (roff_fits r (rr_highest r)) as F. unfold fits in F.
  rewrite (proj2 (Z.eqb_neq _ _)).
  2: { intros E. apply (f_equal (roff r)) in E. rewrite roff_pos in E; [lia|done|unfold fits; lia]. }
  rewrite pos_succ. replace (Z.of_nat a + 1) with (Z.of_nat (S a)) by lia.
  replace (a + S fuel)%nat with (S a + fuel)%nat by lia. rewrite <- IH by lia. cbn [last_below].
  destruct (RecvRing_slot_body r (pos r (Z.of_nat a))) as [body|] eqn:Eb.
  - assert (occupied_at r (Z.of_nat a) = true) as ->
      by (unfold occupied_at, held; rewrite Eb; by apply bool_decide_true).
    assert (resumable_at r resumable (Z.of_nat a) = resumable body) as ->
      by (unfold resumable_at, held; by rewrite Eb).
    by destruct (resumable body).
  - assert (occupied_at r (Z.of_nat a) = false) as ->
      by (unfold occupied_at, held; rewrite Eb; by apply bool_decide_false; intros []).
    assert (resumable_at r resumable (Z.of_nat a) = false) as ->
      by (unfold resumable_at, held; by rewrite Eb).
    done.
Qed.

Section escape.
  Context (r : RecvRing) (W : recv_wf r) (k : Z).
  Context (Hinj : window_inj (zlen (rr_meta r)) (rr_delivered r)).
  Context (Hk : 0 <= k < roff r (rr_highest r)).
Let h := roff r (rr_highest r).
Let c := Z.max k (roff r (rr_cumulative r)).
Let r1 := r <| rr_meta := clear_slots (Z.to_nat k) (rr_delivered r) (rr_meta r) |>
              <| rr_delivered := pos r k |> <| rr_cumulative := pos r c |>.
Let r' := RecvRing_advance r1.

Lemma escape_pos j : pos r' j = pos r (k + j).
Proof. apply wadd_assoc. Qed.

Lemma escape_roff s : fits 32 s -> k <= roff r s -> roff r' s = roff r s - k.
Proof. intros. apply seq_distance_shift; [auto with lowlat|done|]. unfold roff in *. lia. Qed.

(** The frontier after the jump, as an offset past the old reader. *)
Lemma escape_frontier : exists c', c <= c' <= h /\ rr_cumulative r' = pos r c' /\ roff r (rr_cumulative r') = c' /\
  (forall j, c <= j < c' -> slot_ready (rr_meta r') (pos r j) = true) /\
  (rr_cumulative r' <> rr_highest r -> slot_ready (rr_meta r') (rr_cumulative r') = false).
Proof.
  destruct (wf_order r W) as [Hch _]. pose proof (roff_fits r (rr_highest r)) as F. unfold fits in F.
  pose proof (roff_fits r (rr_cumulative r)) as F'. unfold fits in F'.
  assert (seq_distance (pos r c) (rr_highest r) = h - c) as Ed.
  { apply seq_distance_shift; [auto with lowlat..|]. fold (roff r (rr_highest r)). lia. }
  destruct (advance_loop_spec (Z.to_nat (seq_distance (pos r c) (rr_highest r))) (rr_meta r1) (rr_highest r) (pos r c))
    as (n & Hn & E & Hrun & Hstop); [auto with lowlat..|done|].
  assert (rr_cumulative r' = pos r (c + n)) as Ec.
  { unfold r', RecvRing_advance. cbn [rr_cumulative rr_highest rr_meta set_field r1] in *.
    rewrite E. apply pos_add. }
  rewrite pos_add in Hstop. exists (c + n). rewrite Ed in Hn. split_and!; [lia|lia|done| | |].
  - rewrite Ec. apply roff_pos; [auto with lowlat|]. unfold fits, h in *. lia.
  - intros j Hj. specialize (Hrun (j - c) ltac:(lia)). rewrite pos_add in Hrun.
    by replace (c + (j - c)) with j in Hrun by lia.
  - rewrite Ec. exact Hstop.
Qed.

Lemma escape_held j : 0 <= j -> k + j < zlen (rr_meta r) -> held r' j = held r (k + j).
Proof.
  intros Hj Hz. unfold held. rewrite escape_pos. by apply (shift_body r W k Hinj (k + j) r'); done || lia.
Qed.

Lemma escape_wf : recv_wf r'.
Proof.
  destruct escape_frontier as (c' & Hc' & Ecp & Ecr & Hrun & Hstop).
  destruct (wf_order r W) as [Hch Hhs].
  assert (roff r' (rr_highest r) = h - k) as Hh by (apply escape_roff; [auto with lowlat|unfold h; lia]).
  assert (roff r' (rr_cumulative r') = c' - k) as Hc.
  { rewrite escape_roff; [lia|rewrite Ecp; auto with lowlat|lia]. }
  assert (zlen (rr_meta r') = zlen (rr_meta r)) as HL by apply zlen_clear_slots.
  split; change (rr_highest r') with (rr_highest r).
  - apply (clear_slots_geom _ _ _ (Z.to_nat k) (rr_delivered r)). exact (wf_geom r W).
  - apply pos_fits.
  - rewrite Ecp. apply pos_fits.
  - auto with lowlat.
  - rewrite Hc, Hh, HL. unfold h in *. lia.
  - intros j Hj. rewrite Hc in Hj. unfold ready_at. rewrite escape_pos.
    destruct (Z.lt_ge_cases (k + j) c); [|apply Hrun; lia].
    change (slot_ready (clear_slots (Z.to_nat k) (rr_delivered r) (rr_meta r)) (pos r (k + j)) = true).
    rewrite (shift_ready r W k Hinj) by (unfold c in *; lia). apply (wf_front r W). lia.
  - exact Hstop.
  - rewrite Hh. intros Hp. unfold ready_at. rewrite escape_pos.
    replace (k + (h - k - 1)) with (h - 1) by lia.
    change (slot_ready (clear_slots (Z.to_nat k) (rr_delivered r) (rr_meta r)) (pos r (h - 1)) = true).
    rewrite (shift_ready r W k Hinj) by (unfold h in *; lia). apply (wf_top r W). lia.
  - intros i m Hi Hm Hr. rewrite Hh.
    destruct (shift_window r W k i m ltac:(lia) Hi Hm Hr) as (j & Hj & E).
    exists (j - k). split; [unfold h; lia|]. rewrite escape_pos.
    replace (k + (j - k)) with j by lia. exact E.
Qed.
End escape.

(** With a gap, the highest slot is occupied and is not the reader's own. *)
Lemma gap_top r :
  recv_wf r -> RecvRing_has_gap r = true ->
  0 < roff r (rr_highest r) - 1 /\ occupied_at r (roff r (rr_highest r) - 1) = true.
Proof.
  intros W Hgap. destruct (wf_order r W) as [Hch _]. unfold RecvRing_has_gap in Hgap.
  destruct (Z.eqb_spec (rr_cumulative r) (rr_highest r)) as [|Hne]; [done|].
  pose proof (wf_gap r W Hne) as Hnot. pose proof (roff_fits r (rr_cumulative r)) as F. unfold fits in F.
  assert (roff r (rr_cumulative r) <> roff r (rr_highest r)) as Hlt.
  { intros E. apply Hne. rewrite <- (pos_roff r (rr_cumulative r)), E, pos_roff; auto with lowlat. }
  pose proof (wf_top r W ltac:(lia)) as Htop. split.
  - destruct (Z.eq_dec (roff r (rr_highest r) - 1) 0) as [E|]; [|lia]. exfalso.
    rewrite E in Htop. unfold ready_at in Htop. replace 0 with (roff r (rr_cumulative r)) in Htop by lia.
    rewrite pos_roff in Htop by auto with lowlat. congruence.
  - unfold occupied_at. apply bool_decide_true. by apply held_ready.
Qed.

(** Where the escape lands: the last resumable fragment, or failing any the
    last one. *)
Definition escape_offset (r : RecvRing) (resumable : list Z -> bool) : Z :=
  let h := roff r (rr_highest r) in
  default (h - 1) (last_below (resumable_at r resumable) (Z.to_nat h)).

Lemma escape_offset_spec r resumable :
  recv_wf r -> RecvRing_has_gap r = true ->
  let h := roff r (rr_highest r) in let k := escape_offset r resumable in
  0 <= k < h /\ is_Some (held r k) /\
  (forall j, k < j < h -> resumable_at r resumable j = false) /\
  (resumable_at r resumable k = true \/
   k = h - 1 /\ forall j, 0 <= j < h -> resumable_at r resumable j = false).
Proof.
  intros W Hgap. destruct (gap_top r W Hgap) as [H0 Hocc]. cbv zeta. unfold escape_offset.
  pose proof (last_below_spec (resumable_at r resumable) (Z.to_nat (roff r (rr_highest r)))) as HS.
  rewrite Z2Nat.id in HS by lia.
  destruct (last_below _ _) as [k|]; cbn [default from_option id].
  - destruct HS as (Hk & Hr & Hj). split_and!; try done; try lia; [|by left].
    unfold resumable_at in Hr. destruct (held r k); [by eexists|done].
  - apply bool_decide_eq_true in Hocc.
    split; [lia|]. split; [done|]. split; [intros; lia|]. right. by split.
Qed.

Lemma escape_eq r resumable :
  recv_wf r -> RecvRing_has_gap r = true ->
  let k := escape_offset r resumable in
  RecvRing_escape_stall r resumable =
    if k =? 0 then (r, None)
    else (RecvRing_advance (r <| rr_meta := clear_slots (Z.to_nat k) (rr_delivered r) (rr_meta r) |>
                              <| rr_delivered := pos r k |>
                              <| rr_cumulative := pos r (Z.max k (roff r (rr_cumulative r))) |>),
          Some (pos r k)).
Proof.
  intros W Hgap. destruct (escape_offset_spec r resumable W Hgap) as (Hk & _). cbv zeta in *.
  destruct (gap_top r W Hgap) as [H0 Hocc]. destruct (wf_order r W) as [Hch Hhs].
  pose proof (g_slots _ _ _ (wf_geom r W)) as [_ Hs]. unfold HALF in Hs.
  pose proof (roff_fits r (rr_cumulative r)) as F. unfold fits in F.
  unfold RecvRing_escape_stall. rewrite Hgap. cbn [negb].
  pose proof (escape_scan_spec r resumable (Z.to_nat (roff r (rr_highest r))) 0) as HE. cbn [Z.of_nat] in HE.
  rewrite pos_0 in HE by auto with lowlat. cbn [last_below fmap option_fmap option_map] in HE.
  fold (roff r (rr_highest r)). rewrite HE by (auto with lowlat; lia). rewrite Nat.add_0_l.
  assert (last_below (occupied_at r) (Z.to_nat (roff r (rr_highest r))) = Some (roff r (rr_highest r) - 1)) as ->.
  { replace (Z.to_nat (roff r (rr_highest r))) with (S (Z.to_nat (roff r (rr_highest r) - 1))) by lia.
    cbn [last_below]. rewrite Z2Nat.id by lia. by rewrite Hocc. }
  assert ((match pos r <$> last_below (resumable_at r resumable) (Z.to_nat (roff r (rr_highest r))) with
           | Some t => Some t | None => pos r <$> Some (roff r (rr_highest r) - 1) end)
          = Some (pos r (escape_offset r resumable))) as ->
    by (unfold escape_offset; cbv zeta;
        destruct (last_below (resumable_at r resumable) (Z.to_nat (roff r (rr_highest r)))); reflexivity).
  assert (seq_le (pos r (escape_offset r resumable)) (rr_delivered r) = (escape_offset r resumable =? 0)) as ->.
  { rewrite <- (pos_0 r) at 1 by auto with lowlat. unfold pos. rewrite seq_le_offset by (unfold HALF; lia). zcases; lia. }
  destruct (Z.eqb_spec (escape_offset r resumable) 0); [done|]. cbn [rr_cumulative set_field].
  assert (seq_distance (rr_delivered r) (pos r (escape_offset r resumable)) = escape_offset r resumable) as ->
    by (apply seq_distance_offset; [auto with lowlat|unfold fits; lia]).
  assert (seq_lt (rr_cumulative r) (pos r (escape_offset r resumable))
          = (roff r (rr_cumulative r) <? escape_offset r resumable)) as ->.
  { rewrite <- (pos_roff r (rr_cumulative r)) at 1 by auto with lowlat. apply seq_lt_offset. unfold HALF. lia. }
  destruct (Z.ltb_spec (roff r (rr_cumulative r)) (escape_offset r resumable)).
  - by rewrite Z.max_l by lia.
  - rewrite Z.max_r, pos_roff by (auto with lowlat; lia). by destruct r.
Qed.

(** C32: the escape from a gap that will not fill, clear of the sequence wrap
    (no two sequences of the window share a slot).  Without a gap nothing
    happens.  With one, the reader jumps forward in one move to the furthest
    fragment the consumer can resume from, which need not be the furthest
    fragment held, the one docs/01-protocol.md asks for; only if there is none
    does it jump to the furthest fragment held.  Everything from there on is
    kept, and the frontier has passed the landing point.  The one case in which
    a gap is not escaped is the reader already standing on the furthest
    resumable fragment. *)
Theorem escape_stall_correct (r : RecvRing) (resumable : list Z -> bool) :
  recv_wf r -> window_inj (zlen (rr_meta r)) (rr_delivered r) ->
  let h := roff r (rr_highest r) in let k := escape_offset r resumable in
  (RecvRing_has_gap r = false -> RecvRing_escape_stall r resumable = (r, None)) /\
  (RecvRing_has_gap r = true ->
    0 <= k < h /\ is_Some (held r k) /\
    (forall j, k < j < h -> resumable_at r resumable j = false) /\
    (resumable_at r resumable k = true \/
     k = h - 1 /\ 0 < k /\ forall j, 0 <= j < h -> resumable_at r resumable j = false) /\
    (k = 0 -> RecvRing_escape_stall r resumable = (r, None)) /\
    (0 < k -> exists r', RecvRing_escape_stall r resumable = (r', Some (pos r k)) /\
       recv_wf r' /\ rr_delivered r' = pos r k /\ rr_highest r' = rr_highest r /\
       (forall j, 0 <= j < zlen (rr_meta r) - k -> held r' j = held r (k + j)) /\
       Z.max k (roff r (rr_cumulative r)) <= roff r (rr_cumulative r') /\ k < roff r (rr_cumulative r'))).
Proof.
  intros W Hinj. cbv zeta. split.
  { intros Hgap. unfold RecvRing_escape_stall. by rewrite Hgap. }
  intros Hgap. destruct (escape_offset_spec r resumable W Hgap) as (Hk & Hheld & Hj & Hr).
  destruct (gap_top r W Hgap) as [Htop _]. pose proof (escape_eq r resumable W Hgap) as E. cbv zeta in E.
  set (k := escape_offset r resumable) in *. destruct (wf_order r W) as [_ Hhs].
  split; [done|]. split; [done|]. split; [done|]. split; [|split].
  - destruct Hr as [|[Ek ?]]; [by left|right]. split_and!; [done|lia|done].
  - intros H0. by rewrite H0 in E.
  - intros H0. rewrite (proj2 (Z.eqb_neq k 0)) in E by lia. eexists. split; [exact E|].
    destruct (escape_frontier r W k Hk) as (c' & Hc' & Ecp & Ecr & _ & Hstop).
    split_and!; [by apply escape_wf|done|done| |by rewrite Ecr; lia|].
    + intros j Hj'. apply escape_held; [done..|lia|lia].
    + rewrite Ecr. destruct (Z.eq_dec c' k) as [Ec|]; [|lia]. exfalso.
      pose proof (escape_held r W k Hinj Hk 0 ltac:(lia) ltac:(lia)) as H.
      pose proof (escape_wf r W k Hinj Hk) as W'. pose proof (escape_pos r k 0) as Ep.
      set (r' := RecvRing_advance _) in *. clearbody r'. rewrite Z.add_0_r in H, Ep.
      rewrite <- H in Hheld. apply held_ready in Hheld; [|done]. unfold ready_at in Hheld.
      rewrite Ep, <- Ec, <- Ecp in Hheld. rewrite Hstop in Hheld; [done|].
      intros Eh. apply (f_equal (roff r)) in Eh. lia.
Qed.

(** A ring with its first sequence lost, two fragments behind the hole. *)
Definition gap_ring : RecvRing := store_all ring8 [(1, [0; 0; 0; 1; 7]); (2, [0; 0; 0; 1; 8]); (5, [0; 0; 0; 1; 9])].

Lemma gap_ring_wf : recv_wf gap_ring.
Proof.
  set (part := fun i : nat => match i with 1%nat => [0; 0; 0; 1; 7] | 2%nat => [0; 0; 0; 1; 8] | _ => [0; 0; 0; 1; 9] end).
  destruct (store_all_spec part ring8 [1%nat; 2%nat; 5%nat] ring8_wf ring8_inj (ring8_consistent _)) as (W & _); [|done].
  repeat apply List.Forall_cons; try apply List.Forall_nil;
    (split_and!; [by vm_compute| |by vm_compute..]; repeat constructor; unfold fits; lia).
Qed.

Lemma escape_stall_correct_witness : exists r',
  RecvRing_escape_stall gap_ring (fun body => bool_decide (list.last body = Some 8)) = (r', Some 2) /\
  recv_wf r' /\ rr_delivered r' = 2.
Proof.
  set (resumable := fun body => bool_decide (list.last body = Some 8)).
  destruct (escape_stall_correct gap_ring resumable gap_ring_wf) as [_ H].
  { by apply window_inj_nowrap; vm_compute. }
  destruct (H eq_refl) as (_ & _ & _ & _ & _ & He).
  destruct He as (r' & E & W' & Ed & _); [by vm_compute|].
  exists r'. split_and!; [exact E|exact W'|exact Ed].
Defined.
