(* ===== verification/Float64.v ===== *)
(** 64-bit floats as the transport uses them: [f64] with round-to-nearest
    arithmetic, IEEE comparisons and the clamp of the language's library.
    Numbers are [SpecFloat]'s binary64 values; NaN payloads are not modelled. *)

From Stdlib Require Import SpecFloat.
From S2P Require Import Prelude.

Definition f64 := spec_float.

Definition f64_add : f64 -> f64 -> f64 := SFadd 53 1024.
Definition f64_sub : f64 -> f64 -> f64 := SFsub 53 1024.
Definition f64_mul : f64 -> f64 -> f64 := SFmul 53 1024.
Definition f64_div : f64 -> f64 -> f64 := SFdiv 53 1024.
Definition f64_ltb : f64 -> f64 -> bool := SFltb.
Definition f64_leb : f64 -> f64 -> bool := SFleb.
Definition f64_gtb (x y : f64) : bool := SFltb y x.
Definition f64_geb (x y : f64) : bool := SFleb y x.
Definition f64_eqb : f64 -> f64 -> bool := SFeqb.

(** [f64::from] of an integer, and the integral literals. *)
Definition f64_of_Z (z : Z) : f64 := binary_normalize 53 1024 z 0 false.

(** The decimal literal [n / d]: correctly rounded, as the compiler rounds it,
    since both integers are exact. *)
Definition f64_lit (n d : Z) : f64 := f64_div (f64_of_Z n) (f64_of_Z d).

Definition f64_zero : f64 := S754_zero false.

Definition f64_is_nan (x : f64) : bool :=
  match x with S754_nan => true | _ => false end.

Definition f64_is_finite (x : f64) : bool :=
  match x with S754_zero _ | S754_finite _ _ _ => true | _ => false end.

(** The two comparisons of [f64::clamp], after its assertion. *)
Definition f64_clamp_to (x lo hi : f64) : f64 :=
  let x := if f64_ltb x lo then lo else x in
  if f64_gtb x hi then hi else x.

(** [f64::clamp]: a bound that is out of order, or not a number, panics
    ([None]). *)
Definition f64_clamp (x lo hi : f64) : option f64 :=
  if f64_leb lo hi then Some (f64_clamp_to x lo hi) else None.

(** [f64::min] and [f64::max] take the other operand where one is a NaN. *)
Definition f64_max (x y : f64) : f64 :=
  if f64_is_nan x then y else if f64_is_nan y then x else if f64_ltb x y then y else x.
Definition f64_min (x y : f64) : f64 :=
  if f64_is_nan x then y else if f64_is_nan y then x else if f64_ltb y x then y else x.

Example lit_rounds : f64_lit 7 10 = S754_finite false 6305039478318694 (-53).
Proof. reflexivity. Qed.

(** ** Comparisons *)

Lemma SFcompare_swap x y : SFcompare y x = option_map CompOpp (SFcompare x y).
Proof.
  destruct x as [?|[]| |[] ? ?], y as [?|[]| |[] ? ?]; cbn; try reflexivity;
    rewrite (Z.compare_antisym e e0); destruct (e ?= e0); cbn; try reflexivity;
    fold (Pos.compare m m0); fold (Pos.compare m0 m);
    rewrite (Pos.compare_antisym m m0); by destruct (m ?= m0)%positive.
Qed.

Lemma compare_nan x y : SFcompare x y = None <-> f64_is_nan x = true \/ f64_is_nan y = true.
Proof.
  destruct x as [?|[]| |[] ? ?], y as [?|[]| |[] ? ?]; cbn; intuition congruence.
Qed.

Lemma ltb_asym x y : f64_ltb x y = true -> f64_ltb y x = false.
Proof.
  unfold f64_ltb, SFltb. rewrite (SFcompare_swap x y).
  by destruct (SFcompare x y) as [[]|].
Qed.

Lemma ltb_false_geb x y :
  f64_is_nan x = false -> f64_is_nan y = false -> f64_ltb x y = false -> f64_leb y x = true.
Proof.
  intros Hx Hy. unfold f64_ltb, f64_leb, SFltb, SFleb. rewrite (SFcompare_swap x y).
  destruct (SFcompare x y) as [[]|] eqn:E; cbn; try done.
  apply compare_nan in E as [?|?]; congruence.
Qed.

Lemma ltb_leb x y : f64_ltb x y = true -> f64_leb x y = true.
Proof. unfold f64_ltb, f64_leb, SFltb, SFleb. by destruct (SFcompare x y) as [[]|]. Qed.

Lemma leb_not_nan x y : f64_leb x y = true -> f64_is_nan x = false /\ f64_is_nan y = false.
Proof.
  unfold f64_leb, SFleb. destruct (f64_is_nan x) eqn:Ex; [|destruct (f64_is_nan y) eqn:Ey; [|done]].
  - by rewrite (proj2 (compare_nan x y)) by tauto.
  - by rewrite (proj2 (compare_nan x y)) by tauto.
Qed.

Lemma leb_refl x : f64_is_nan x = false -> f64_leb x x = true.
Proof. intros H. apply ltb_false_geb; [done..|]. destruct (f64_ltb x x) eqn:E; [|done]. by rewrite (ltb_asym _ _ E) in E. Qed.

(** A clamp whose bounds are in order keeps any number between them. *)
Lemma clamp_bounds x lo hi y :
  f64_clamp x lo hi = Some y -> f64_is_nan x = false ->
  f64_leb lo y = true /\ f64_leb y hi = true.
Proof.
  unfold f64_clamp, f64_clamp_to, f64_gtb. intros H Hx.
  destruct (f64_leb lo hi) eqn:Elh; [|done]. injection H as <-.
  destruct (leb_not_nan _ _ Elh). change SFltb with f64_ltb.
  destruct (f64_ltb x lo) eqn:E1.
  - destruct (f64_ltb hi lo) eqn:E2; [by split; [done|apply leb_refl]|]. split; [by apply leb_refl|done].
  - destruct (f64_ltb hi x) eqn:E2; [split; [done|by apply leb_refl]|].
    split; by apply ltb_false_geb.
Qed.

(** ** Arithmetic that cannot make a NaN *)

Lemma shr_1_nonneg r : 0 <= shr_m r -> 0 <= shr_m (shr_1 r).
Proof. destruct r as [[|[]|[]] ? ?]; cbn; lia. Qed.

Lemma iter_shr_nonneg p r : 0 <= shr_m r -> 0 <= shr_m (SpecFloat.iter_pos shr_1 p r).
Proof.
  revert r. induction p as [p IH|p IH|]; intros r H; cbn [SpecFloat.iter_pos];
    auto using shr_1_nonneg.
Qed.

Lemma shr_fexp_nonneg m e l : 0 <= m -> 0 <= shr_m (fst (shr_fexp 53 1024 m e l)).
Proof.
  intros Hm. unfold shr_fexp, shr.
  assert (0 <= shr_m (shr_record_of_loc m l)) by (by destruct l as [|[]]).
  destruct (_ - _)%Z; cbn [fst]; auto using iter_shr_nonneg.
Qed.

Lemma round_nonneg m l : 0 <= m -> 0 <= round_nearest_even m l.
Proof. destruct l as [|[]]; cbn; try lia. destruct (Z.even m); lia. Qed.

Lemma round_aux_not_nan s m e l : 0 <= m -> f64_is_nan (binary_round_aux 53 1024 s m e l) = false.
Proof.
  intros Hm. unfold binary_round_aux.
  pose proof (shr_fexp_nonneg m e l Hm) as H1. destruct (shr_fexp 53 1024 m e l) as [r1 e1].
  cbn [fst] in H1.
  pose proof (shr_fexp_nonneg _ e1 loc_Exact (round_nonneg _ (loc_of_shr_record r1) H1)) as H2.
  destruct (shr_fexp _ _ _ e1 loc_Exact) as [r2 e2]. cbn [fst] in H2.
  destruct (shr_m r2); [done| |lia]. by destruct (_ <=? _).
Qed.

Lemma normalize_not_nan m e s : f64_is_nan (binary_normalize 53 1024 m e s) = false.
Proof.
  destruct m; cbn [binary_normalize]; [done|..]; unfold binary_round;
    destruct (shl_align _ _ _); apply round_aux_not_nan; lia.
Qed.

Lemma of_Z_not_nan z : f64_is_nan (f64_of_Z z) = false.
Proof. apply normalize_not_nan. Qed.

(** Scaling by a finite non-zero factor. *)
Lemma mul_finite_not_nan x s m e :
  f64_is_nan x = false -> f64_is_nan (f64_mul x (S754_finite s m e)) = false.
Proof. destruct x; cbn; try done. intros _. apply round_aux_not_nan. lia. Qed.

Lemma add_finite_not_nan x y :
  f64_is_nan x = false -> f64_is_finite y = true -> f64_is_nan (f64_add x y) = false.
Proof.
  destruct x as [[]|[]| |], y as [[]|[]| |]; cbn; try done.
  intros _ _. apply normalize_not_nan.
Qed.

(** ** Numbers that are not negative *)

Definition f64_nonneg (x : f64) : bool :=
  match x with
  | S754_zero _ => true
  | S754_infinity s | S754_finite s _ _ => negb s
  | S754_nan => false
  end.

Lemma nonneg_not_nan x : f64_nonneg x = true -> f64_is_nan x = false.
Proof. by destruct x. Qed.

Lemma round_aux_nonneg m e l : 0 <= m -> f64_nonneg (binary_round_aux 53 1024 false m e l) = true.
Proof.
  intros Hm. pose proof (round_aux_not_nan false m e l Hm) as H. unfold binary_round_aux in *.
  destruct (shr_fexp 53 1024 m e l) as [r1 e1]. destruct (shr_fexp _ _ _ e1 loc_Exact) as [r2 e2].
  destruct (shr_m r2); [done| |done]. by destruct (_ <=? _).
Qed.

Lemma mul_nonneg x m e :
  f64_nonneg x = true -> f64_nonneg (f64_mul x (S754_finite false m e)) = true.
Proof.
  destruct x as [[]|[]| |[] ? ?]; cbn; try done. intros _. by apply round_aux_nonneg.
Qed.

Lemma add_nonneg x y : f64_nonneg x = true -> f64_nonneg y = true -> f64_nonneg (f64_add x y) = true.
Proof.
  destruct x as [[]|[]| |[] ? ?], y as [[]|[]| |[] ? ?]; cbn; try done.
  intros _ _. generalize (shl_align m e (Z.min e e0)).1, (shl_align m0 e0 (Z.min e e0)).1.
  intros p q. change (Z.pos p + Z.pos q) with (Z.pos (p + q)). unfold binary_normalize, binary_round.
  destruct (shl_align _ _ _). by apply round_aux_nonneg.
Qed.

Lemma finite_geb_nonneg x : f64_is_finite x = true -> f64_ltb x f64_zero = false -> f64_nonneg x = true.
Proof. by destruct x as [[]|[]| |[] ? ?]. Qed.

Lemma sub_not_nan x y : f64_is_finite x = true -> f64_is_finite y = true -> f64_is_nan (f64_sub x y) = false.
Proof.
  destruct x as [[]|[]| |[] ? ?], y as [[]|[]| |[] ? ?]; cbn; try done; intros _ _;
    apply (normalize_not_nan _ _ false).
Qed.
