(* ===== verification/Congestion.v ===== *)
(** Host-local congestion control (crates/core/src/congestion.rs).

    [None] as a rate is the panic of [f64::clamp] on bounds out of order. *)

From S2P Require Import Prelude Float64.

Definition WINDOW_FLOOR : Z := 100.
Definition INCREASE_PERIOD : Z := 30.
Definition DECREASE_PERIOD : Z := 60.
Definition DECREASE_FACTOR : f64 := f64_lit 7 10.
Definition EASE_FACTOR : f64 := f64_lit 9 10.
Definition INCREASE_STEP_MBPS : f64 := f64_lit 15 100.
Definition STEP_GROWTH : Z := 2.
Definition STEP_CAP : Z := 5.

Record Level := mkLevel {
  lv_rtt_mult : f64;
  lv_base_ms : f64;
  lv_stale_ratio : f64;
}.

Definition LEVELS : list Level :=
  [mkLevel f64_zero f64_zero f64_zero;
   mkLevel (f64_lit 11 10) (f64_of_Z 20) (f64_lit 15 100);
   mkLevel (f64_lit 15 10) (f64_of_Z 50) (f64_lit 35 100)].

Definition DEFAULT_LEVEL : Z := 1.
Definition ADAPTIVE : Z := 3.

(** [LEVELS[DEFAULT_LEVEL]]. *)
Definition default_level : Level :=
  nth (Z.to_nat DEFAULT_LEVEL) LEVELS (mkLevel f64_zero f64_zero f64_zero).

Definition congestion_level (index : Z) : Level :=
  if index =? ADAPTIVE then default_level
  else default default_level (get_at LEVELS index).

Record Controller := mkController {
  cc_level : Z;
  cc_min_mbps : f64;
  cc_max_mbps : f64;
  cc_current_mbps : f64;
  cc_peak_mbps : f64;
  cc_increase_ticks : Z;
  cc_decrease_ticks : Z;
  cc_step : Z;
  cc_reset_pending : bool;
  cc_total_decreases : Z;
}.

#[export] Instance Controller_eta : Eta Controller := fun c =>
  mkController (cc_level c) (cc_min_mbps c) (cc_max_mbps c) (cc_current_mbps c) (cc_peak_mbps c)
    (cc_increase_ticks c) (cc_decrease_ticks c) (cc_step c) (cc_reset_pending c)
    (cc_total_decreases c).

Definition Controller_new (level : Z) (min_mbps max_mbps : f64) : Controller :=
  mkController level min_mbps max_mbps min_mbps min_mbps 0 0 1 true 0.

Definition Controller_set_bounds (c : Controller) (min_mbps max_mbps : f64) : Controller :=
  let c := c <| cc_min_mbps := min_mbps |> <| cc_max_mbps := max_mbps |> in
  let c := if f64_gtb (cc_current_mbps c) max_mbps then c <| cc_current_mbps := max_mbps |> else c in
  let c := if f64_gtb (cc_peak_mbps c) max_mbps then c <| cc_peak_mbps := max_mbps |> else c in
  c <| cc_reset_pending := true |>.

Definition Controller_set_level (c : Controller) (level : Z) : Controller := c <| cc_level := level |>.

Definition Controller_adaptive (c : Controller) : bool := cc_level c =? ADAPTIVE.

Definition Controller_rate_mbps (c : Controller) : option f64 :=
  f64_clamp (cc_current_mbps c) (cc_min_mbps c) (cc_max_mbps c).

Definition Controller_is_congested (c : Controller) (window stale : Z) : bool :=
  if window <=? WINDOW_FLOOR then false
  else
  let ratio := f64_div (f64_of_Z stale) (f64_of_Z window) in
  f64_gtb ratio (lv_stale_ratio (congestion_level (cc_level c))).

Definition Controller_cut (c : Controller) : Controller * option f64 :=
  let observed := cc_decrease_ticks c in
  let c := c <| cc_decrease_ticks := wadd 32 (cc_decrease_ticks c) 1 |> in
  let c :=
    if observed mod DECREASE_PERIOD =? 0 then
      let c := c <| cc_total_decreases := sat_add 32 (cc_total_decreases c) 1 |>
                 <| cc_increase_ticks := 0 |>
                 <| cc_peak_mbps := f64_mul (cc_peak_mbps c) DECREASE_FACTOR |> in
      c <| cc_current_mbps := cc_peak_mbps c |>
    else c in
  (c, Controller_rate_mbps c).

Definition Controller_tick (c : Controller) (window stale : Z) (measured_mbps : f64) :
    Controller * option f64 :=
  if Controller_is_congested c window stale then Controller_cut c
  else
  let c := c <| cc_increase_ticks := wadd 32 (cc_increase_ticks c) 1 |> in
  let c :=
    if cc_increase_ticks c mod INCREASE_PERIOD =? 0 then
      let c := c <| cc_decrease_ticks := 0 |> in
      if cc_reset_pending c then
        c <| cc_current_mbps := cc_min_mbps c |> <| cc_peak_mbps := cc_min_mbps c |>
          <| cc_reset_pending := false |>
      else
        let c := if f64_gtb measured_mbps (cc_peak_mbps c)
                 then c <| cc_peak_mbps := measured_mbps |> else c in
        let step := Z.min (cc_step c) STEP_CAP in
        c <| cc_current_mbps := f64_add (cc_current_mbps c) (f64_mul (f64_of_Z step) INCREASE_STEP_MBPS) |>
          <| cc_step := sat_add 32 (cc_step c) STEP_GROWTH |>
    else c in
  (c, Controller_rate_mbps c).

Definition Controller_forget_congested_ticks (c : Controller) : Controller :=
  c <| cc_decrease_ticks := 0 |>.

Definition Controller_ease (c : Controller) : Controller * option f64 :=
  let c := c <| cc_peak_mbps := f64_mul (cc_peak_mbps c) EASE_FACTOR |>
             <| cc_current_mbps := f64_mul (cc_current_mbps c) EASE_FACTOR |> in
  (c, Controller_rate_mbps c).

(** ** The rate stays between its bounds *)

(** Every call the host makes on a controller. *)
Inductive cc_call :=
  | CallTick (window stale : Z) (measured : f64)
  | CallCut
  | CallEase
  | CallForget
  | CallLevel (level : Z)
  | CallBounds (lo hi : f64).

Definition cc_run (c : Controller) (call : cc_call) : Controller :=
  match call with
  | CallTick window stale measured => fst (Controller_tick c window stale measured)
  | CallCut => fst (Controller_cut c)
  | CallEase => fst (Controller_ease c)
  | CallForget => Controller_forget_congested_ticks c
  | CallLevel level => Controller_set_level c level
  | CallBounds lo hi => Controller_set_bounds c lo hi
  end.

(** Bounds are set in order, as the callers compute them. *)
Definition call_ok (call : cc_call) : Prop :=
  match call with CallBounds lo hi => f64_leb lo hi = true | _ => True end.

Record cc_wf (c : Controller) : Prop := {
  cc_bounds : f64_leb (cc_min_mbps c) (cc_max_mbps c) = true;
  cc_current : f64_is_nan (cc_current_mbps c) = false;
  cc_peak : f64_is_nan (cc_peak_mbps c) = false;
  cc_step_pos : 1 <= cc_step c;
}.

Lemma new_cc_wf level lo hi : f64_leb lo hi = true -> cc_wf (Controller_new level lo hi).
Proof. intros H. destruct (leb_not_nan _ _ H). by split. Qed.

Lemma cut_wf c : cc_wf c -> cc_wf (fst (Controller_cut c)).
Proof.
  intros [? ? ? ?]. unfold Controller_cut. cbn [fst].
  destruct (_ =? 0); [|by split].
  split; cbn; try done; by apply mul_finite_not_nan.
Qed.

Lemma gtb_not_nan x y : f64_gtb x y = true -> f64_is_nan x = false.
Proof. intros H%ltb_leb%leb_not_nan. apply H. Qed.

Lemma increase_not_nan c x :
  1 <= cc_step c -> f64_is_nan x = false ->
  f64_is_nan (f64_add x (f64_mul (f64_of_Z (Z.min (cc_step c) STEP_CAP)) INCREASE_STEP_MBPS)) = false.
Proof.
  intros Hs Hx. apply add_finite_not_nan; [done|].
  assert (exists s, Z.min (cc_step c) STEP_CAP = s /\
    (s = 1 \/ s = 2 \/ s = 3 \/ s = 4 \/ s = 5)) as (s & -> & Hc)
    by (unfold STEP_CAP; eexists; split; [done|lia]).
  by destruct Hc as [->|[->|[->|[->| ->]]]].
Qed.

Lemma tick_wf c window stale measured :
  cc_wf c -> cc_wf (fst (Controller_tick c window stale measured)).
Proof.
  intros W. unfold Controller_tick. destruct (Controller_is_congested _ _ _); [by apply cut_wf|].
  destruct W as [Hb Hc Hp Hs]. destruct (leb_not_nan _ _ Hb) as [Hn _].
  cbn [fst]. destruct (_ =? 0); [|by split]. cbn [cc_reset_pending set_field].
  destruct (cc_reset_pending c); [by split|].
  destruct (f64_gtb measured _) eqn:E; split; cbn; try done;
    try (apply increase_not_nan; done); try (unfold sat_add, STEP_GROWTH; lia).
  by eapply gtb_not_nan.
Qed.

Lemma run_wf c call : cc_wf c -> call_ok call -> cc_wf (cc_run c call).
Proof.
  intros W Hok. destruct call; cbn [cc_run call_ok] in *;
    [by apply tick_wf|by apply cut_wf|..]; destruct W as [Hb Hc Hp Hs].
  - split; cbn; try done; by apply mul_finite_not_nan.
  - by split.
  - by split.
  - destruct (leb_not_nan _ _ Hok) as [_ Hh]. unfold Controller_set_bounds.
    cbn [cc_current_mbps cc_peak_mbps set_field].
    destruct (f64_gtb (cc_current_mbps c) hi); cbn [cc_peak_mbps set_field];
      destruct (f64_gtb (cc_peak_mbps c) hi); split; done.
Qed.

Lemma runs_wf c calls : cc_wf c -> Forall call_ok calls -> cc_wf (foldl cc_run c calls).
Proof. intros W H. revert c W. induction H; intros c W; cbn; auto using run_wf. Qed.

(** Whatever the host does with a controller (ticks at any window, stale
    count and measured rate, NaN and infinities included, cuts, eases, level
    changes, and bounds moved as long as they are in order), asking for the
    rate never panics and the answer lies between the bounds in force. *)
Theorem rate_in_bounds (level : Z) (lo hi : f64) (calls : list cc_call) :
  f64_leb lo hi = true -> Forall call_ok calls ->
  let c := foldl cc_run (Controller_new level lo hi) calls in
  exists rate, Controller_rate_mbps c = Some rate /\
    f64_leb (cc_min_mbps c) rate = true /\ f64_leb rate (cc_max_mbps c) = true.
Proof.
  intros Hb Hc c. destruct (runs_wf _ calls (new_cc_wf level lo hi Hb) Hc) as [Hlh Hn _ _].
  fold c in Hlh, Hn. unfold Controller_rate_mbps.
  destruct (f64_clamp (cc_current_mbps c) (cc_min_mbps c) (cc_max_mbps c)) as [x|] eqn:E.
  - exists x. split; [done|]. by eapply clamp_bounds.
  - unfold f64_clamp in E. by rewrite Hlh in E.
Qed.

Lemma rate_in_bounds_witness :
  let c := foldl cc_run (Controller_new 1 (f64_of_Z 2) (f64_of_Z 10))
             [CallTick 200 150 f64_zero; CallBounds (f64_of_Z 1) (f64_of_Z 4); CallEase] in
  exists rate, Controller_rate_mbps c = Some rate /\
    f64_leb (cc_min_mbps c) rate = true /\ f64_leb rate (cc_max_mbps c) = true.
Proof.
  apply (rate_in_bounds 1 (f64_of_Z 2) (f64_of_Z 10)
    [CallTick 200 150 f64_zero; CallBounds (f64_of_Z 1) (f64_of_Z 4); CallEase]).
  - reflexivity.
  - repeat constructor.
Defined.

(** ** Cadence *)

(** The counters of a controller, which decide when it acts. *)
Record cadence := mkCadence { cd_inc : Z; cd_dec : Z; cd_cuts : Z }.

Definition cadence_of (c : Controller) : cadence :=
  mkCadence (cc_increase_ticks c) (cc_decrease_ticks c) (cc_total_decreases c).

(** One tick of the counters, given the predicate's answer. *)
Definition cadence_tick (s : cadence) (congested : bool) : cadence :=
  if congested then
    if cd_dec s mod 60 =? 0 then mkCadence 0 (wadd 32 (cd_dec s) 1) (sat_add 32 (cd_cuts s) 1)
    else mkCadence (cd_inc s) (wadd 32 (cd_dec s) 1) (cd_cuts s)
  else
    let inc := wadd 32 (cd_inc s) 1 in
    if inc mod 30 =? 0 then mkCadence inc 0 (cd_cuts s) else mkCadence inc (cd_dec s) (cd_cuts s).

Lemma tick_cadence c window stale measured :
  cadence_of (fst (Controller_tick c window stale measured))
    = cadence_tick (cadence_of c) (Controller_is_congested c window stale).
Proof.
  unfold Controller_tick, cadence_tick, cadence_of. cbn [cd_inc cd_dec cd_cuts].
  destruct (Controller_is_congested _ _ _).
  - unfold Controller_cut, DECREASE_PERIOD. cbn [fst]. by destruct (_ =? 0).
  - unfold INCREASE_PERIOD. cbn [fst cc_increase_ticks set_field]. destruct (_ =? 0); [|done].
    cbn [cc_reset_pending set_field]. destruct (cc_reset_pending c); [done|].
    by destruct (f64_gtb _ _).
Qed.

(** A run of ticks, and how many of them were congested. *)
Fixpoint tick_all (c : Controller) (ticks : list (Z * Z * f64)) : Controller * Z :=
  match ticks with
  | [] => (c, 0)
  | (window, stale, measured) :: rest =>
      let congested := Controller_is_congested c window stale in
      let '(c', n) := tick_all (fst (Controller_tick c window stale measured)) rest in
      (c', n + if congested then 1 else 0)
  end.

(** What bounds the cuts: [phi] congested ticks are still owed before the next
    one, unless thirty clean ticks clear the debt. *)
Record cadence_ok (s : cadence) (congested clean : Z) : Prop := {
  co_inc : 0 <= cd_inc s <= clean;
  co_dec : 0 <= cd_dec s <= congested;
  co_cuts : 0 <= cd_cuts s <= congested;
  co_debt : exists resets, 0 <= resets /\ 30 * resets + cd_inc s mod 30 <= clean /\
    60 * cd_cuts s <= congested + 60 * resets + (- cd_dec s) mod 60;
}.

Lemma cadence_ok_congested s g q :
  cadence_ok s g q -> g + q + 1 < 2 ^ 32 -> cadence_ok (cadence_tick s true) (g + 1) q.
Proof.
  intros [Hi Hd Hc (n & Hn & H30 & H60)] Hl. unfold cadence_tick.
  destruct (Z.eqb_spec (cd_dec s mod 60) 0) as [E|E]; split; cbn [cd_inc cd_dec cd_cuts];
    unfold wadd, sat_add; rewrite ?wrap_small by (unfold fits; lia); try lia;
    exists n; (split; [done|]); split; try (by modlia); revert H60 E;
    generalize (cd_cuts s), (cd_dec s); intros; modlia.
Qed.

Lemma cadence_ok_clean s g q :
  cadence_ok s g q -> g + q + 1 < 2 ^ 32 -> cadence_ok (cadence_tick s false) g (q + 1).
Proof.
  intros [Hi Hd Hc (n & Hn & H30 & H60)] Hl. unfold cadence_tick.
  rewrite (wrap_small 32 (cd_inc s + 1) ltac:(unfold fits; lia) : wadd 32 (cd_inc s) 1 = _).
  destruct (Z.eqb_spec ((cd_inc s + 1) mod 30) 0) as [E|E]; split; cbn [cd_inc cd_dec cd_cuts]; try lia.
  - exists (n + 1). split; [lia|]. split; [modlia|]. change ((- 0) mod 60) with 0. modlia.
  - exists n. split; [done|]. split; [modlia|done].
Qed.

Lemma tick_all_cadence c ticks g q :
  cadence_ok (cadence_of c) g q -> g + q + zlen ticks < 2 ^ 32 ->
  let '(c', n) := tick_all c ticks in
  0 <= n <= zlen ticks /\ cadence_ok (cadence_of c') (g + n) (q + (zlen ticks - n)).
Proof.
  revert c g q. induction ticks as [|[[w st] m] ticks IH]; intros c g q H Hl.
  - cbn [tick_all]. change (zlen (@nil (Z * Z * f64))) with 0. split; [lia|]. by rewrite !Z.add_0_r.
  - rewrite zlen_cons in *. pose proof (zlen_nonneg ticks). cbn [tick_all].
    pose proof (tick_cadence c w st m) as E.
    destruct (Controller_is_congested c w st).
    + specialize (IH (fst (Controller_tick c w st m)) (g + 1) q).
      destruct (tick_all _ ticks) as [c' n]. rewrite E in IH.
      destruct IH as [Hn Hok]; [apply cadence_ok_congested; [done|lia]|lia|]. split; [lia|].
      replace (g + (n + 1)) with (g + 1 + n) by lia.
      replace (q + (zlen ticks + 1 - (n + 1))) with (q + (zlen ticks - n)) by lia. done.
    + specialize (IH (fst (Controller_tick c w st m)) g (q + 1)).
      destruct (tick_all _ ticks) as [c' n]. rewrite E in IH.
      destruct IH as [Hn Hok]; [apply cadence_ok_clean; [done|lia]|lia|]. split; [lia|].
      replace (g + (n + 0)) with (g + n) by lia.
      replace (q + (zlen ticks + 1 - (n + 0))) with (q + 1 + (zlen ticks - n)) by lia. done.
Qed.

(** However congested and clean ticks interleave, the rate is cut at most
    once per sixty congested ticks, plus once at the start and once for every
    thirty clean ticks. *)
Theorem cuts_bounded (level : Z) (lo hi : f64) (ticks : list (Z * Z * f64)) :
  zlen ticks < 2 ^ 32 ->
  let '(c, congested) := tick_all (Controller_new level lo hi) ticks in
  60 * cc_total_decreases c <= congested + 60 * ((zlen ticks - congested) / 30) + 59.
Proof.
  intros Hl. pose proof (tick_all_cadence (Controller_new level lo hi) ticks 0 0) as H.
  destruct (tick_all _ ticks) as [c n]. destruct H as [Hn [_ _ _ (k & Hk & H30 & H60)]].
  - split; cbn; try lia. exists 0. split_and!; by vm_compute.
  - lia.
  - cbn [cadence_of cd_inc cd_dec cd_cuts] in *.
    assert (k <= (zlen ticks - n) / 30) by (apply Z.div_le_lower_bound; modlia).
    pose proof (Z.mod_pos_bound (- cc_decrease_ticks c) 60). lia.
Qed.

Lemma cuts_bounded_witness :
  let '(c, congested) := tick_all (Controller_new 1 (f64_of_Z 1) (f64_of_Z 9)) (repeat (200, 200, f64_zero) 61) in
  60 * cc_total_decreases c
    <= congested + 60 * ((zlen (repeat (200, 200, f64_zero) 61) - congested) / 30) + 59.
Proof.
  apply (cuts_bounded 1 (f64_of_Z 1) (f64_of_Z 9) (repeat (200, 200, f64_zero) 61)). reflexivity.
Defined.

Lemma tick_all_le c ticks : snd (tick_all c ticks) <= zlen ticks.
Proof.
  revert c. induction ticks as [|[[w st] m] ticks IH]; intros c; [done|]. cbn [tick_all].
  specialize (IH (fst (Controller_tick c w st m))). destruct (tick_all _ ticks).
  cbn [snd] in *. rewrite zlen_cons. destruct (Controller_is_congested _ _ _); lia.
Qed.

Lemma congested_run_from c d ticks :
  cc_decrease_ticks c = d -> 0 <= d -> d + zlen ticks < 2 ^ 32 ->
  0 <= cc_total_decreases c -> cc_total_decreases c + zlen ticks < 2 ^ 32 ->
  snd (tick_all c ticks) = zlen ticks ->
  cc_total_decreases (fst (tick_all c ticks))
    = cc_total_decreases c + ((d + zlen ticks + 59) / 60 - (d + 59) / 60).
Proof.
  revert c d. induction ticks as [|[[w st] m] ticks IH]; intros c d Hd Hd0 Hl H0 Ht Hall.
  { cbn [tick_all fst]. change (zlen (@nil (Z * Z * f64))) with 0. rewrite Z.add_0_r. lia. }
  rewrite zlen_cons in *. pose proof (zlen_nonneg ticks). cbn [tick_all] in *.
  pose proof (tick_cadence c w st m) as E.
  pose proof (tick_all_le (fst (Controller_tick c w st m)) ticks) as Hle.
  specialize (IH (fst (Controller_tick c w st m)) (d + 1)).
  destruct (tick_all _ ticks) as [c' n]. cbn [fst snd] in *.
  destruct (Controller_is_congested c w st); [|lia].
  unfold cadence_of, cadence_tick in E. cbn [cd_dec cd_inc cd_cuts] in E. rewrite Hd in E.
  unfold wadd, sat_add in E. rewrite wrap_small in E by (unfold fits; lia).
  destruct (Z.eqb_spec (d mod 60) 0); injection E as _ Edec Ecut;
    rewrite IH by (rewrite ?Ecut; lia); rewrite Ecut; (rewrite ?Z.min_r by lia); modlia.
Qed.

(** A run of [n] congested ticks that starts with no debt cuts on its
    first tick and on every sixtieth after it: [n / 60] rounded up. *)
Theorem congested_run_cuts (c : Controller) (ticks : list (Z * Z * f64)) :
  cc_decrease_ticks c = 0 -> zlen ticks < 2 ^ 32 ->
  0 <= cc_total_decreases c -> cc_total_decreases c + zlen ticks < 2 ^ 32 ->
  snd (tick_all c ticks) = zlen ticks ->
  cc_total_decreases (fst (tick_all c ticks)) = cc_total_decreases c + (zlen ticks + 59) / 60.
Proof.
  intros Hd Hl H0 Ht Hall. rewrite (congested_run_from c 0 ticks) by (done || lia).
  change ((0 + 59) / 60) with 0. rewrite Z.add_0_l. lia.
Qed.

Lemma congested_run_cuts_witness :
  cc_total_decreases (fst (tick_all (Controller_new 1 (f64_of_Z 1) (f64_of_Z 9))
                             (repeat (200, 200, f64_zero) 61))) = 0 + (61 + 59) / 60.
Proof.
  apply (congested_run_cuts (Controller_new 1 (f64_of_Z 1) (f64_of_Z 9)) (repeat (200, 200, f64_zero) 61));
    vm_compute; congruence.
Defined.
