(* ===== verification/Send.v ===== *)
(** The per-channel send ring, retransmission and the staleness scan
    (crates/core/src/send.rs). *)

From S2P Require Import Prelude CoreError Seq Packet Message Channel Float64 Congestion.

Definition OUTSTANDING_CAP : Z := WINDOW_FLOOR.
Definition RTO_FLOOR_MS : f64 := f64_of_Z 50.
Definition RTO_CEILING_MS : f64 := f64_of_Z 1000.
Definition RTO_GRACE_MS : f64 := f64_of_Z 30.

Record SendSlot := mkSendSlot {
  ss_len : Z;
  ss_occupied : bool;
  ss_last : bool;
  ss_sent : bool;
  ss_nack_resent : bool;
  ss_retransmits : Z;
  ss_first_sent_ms : f64;
  ss_last_sent_ms : f64;
  ss_srtt_at_enqueue_ms : f64;
}.

#[export] Instance SendSlot_eta : Eta SendSlot := fun s =>
  mkSendSlot (ss_len s) (ss_occupied s) (ss_last s) (ss_sent s) (ss_nack_resent s)
    (ss_retransmits s) (ss_first_sent_ms s) (ss_last_sent_ms s) (ss_srtt_at_enqueue_ms s).

Definition SendSlot_default : SendSlot :=
  mkSendSlot 0 false false false false 0 f64_zero f64_zero f64_zero.

Record SendRing := mkSendRing {
  sr_bodies : list Z;
  sr_meta : list SendSlot;
  sr_slot_len : Z;
  sr_channel : Z;
  sr_base : Z;
  sr_next : Z;
  sr_cursor : Z;
  sr_nack_below : option Z;
  sr_outstanding : Z;
  sr_stale : Z;
  sr_peer_depth : Z;
  sr_bytes_sent : Z;
  sr_packets_sent : Z;
  sr_acked : Z;
  sr_acked_bytes : Z;
  sr_nack_resends : Z;
  sr_timeout_resends : Z;
}.

#[export] Instance SendRing_eta : Eta SendRing := fun r =>
  mkSendRing (sr_bodies r) (sr_meta r) (sr_slot_len r) (sr_channel r) (sr_base r) (sr_next r)
    (sr_cursor r) (sr_nack_below r) (sr_outstanding r) (sr_stale r) (sr_peer_depth r)
    (sr_bytes_sent r) (sr_packets_sent r) (sr_acked r) (sr_acked_bytes r) (sr_nack_resends r)
    (sr_timeout_resends r).

Definition SendRing_new (bodies : list Z) (meta : list SendSlot) (slot_len channel : Z) :
    result SendRing :=
  if (slot_len =? 0) || (zlen meta =? 0) || (CHANNEL_COUNT <=? channel) then Err BadLength
  else
  expected ← ok_or (checked_mul USIZE (zlen meta) slot_len) BadLength;
  if negb (zlen bodies =? expected) then Err BadLength
  else
  let ours := default U32_MAX (try_from 32 (zlen meta)) in
  let depth := Z.min ours PEER_RING_FLOOR in
  Ok (mkSendRing bodies meta slot_len channel 0 0 0 None 0 0 depth 0 0 0 0 0 0).

Definition SendRing_raise_peer_depth (r : SendRing) (peer_slots : Z) : SendRing :=
  let ours := default U32_MAX (try_from 32 (zlen (sr_meta r))) in
  r <| sr_peer_depth := Z.min peer_slots ours |>.

Definition SendRing_in_flight (r : SendRing) : Z := wsub 32 (sr_next r) (sr_base r).

Definition SendRing_window_free (r : SendRing) : Z := sat_sub (sr_peer_depth r) (SendRing_in_flight r).

Definition SendRing_index (r : SendRing) (sequence : Z) : Z := sequence mod zlen (sr_meta r).

(** The loop of [enqueue] over the [n] fragments from [index] on. *)
Fixpoint enqueue_loop (n : nat) (r : SendRing) (message : Message) (srtt_ms : f64) (index : Z) :
    SendRing * result unit :=
  match n with
  | O => (r, Ok ())
  | S n' =>
      match try_from 32 index with
      | None => (r, Err BadLength)
      | Some step =>
      let sequence := wadd 32 (sr_next r) step in
      let slot := SendRing_index r sequence in
      match checked_mul USIZE slot (sr_slot_len r) with
      | None => (r, Err BadLength)
      | Some start =>
      match get_range (sr_bodies r) start (start + sr_slot_len r) with
      | None => (r, Err BadLength)
      | Some region =>
      let '(region, res) := Message_fragment message index (sr_slot_len r) region in
      let r := r <| sr_bodies := put_range (sr_bodies r) start region |> in
      match res with
      | None => (r, Err BadLength)
      | Some (Err e) => (r, Err e)
      | Some (Ok fragment) =>
      match get_at (sr_meta r) slot with
      | None => (r, Err BadLength)
      | Some _ =>
      match try_from 16 (frag_len fragment) with
      | None => (r, Err BadLength)
      | Some len =>
      let entry := SendSlot_default <| ss_len := len |> <| ss_occupied := true |>
                     <| ss_last := frag_last fragment |> <| ss_srtt_at_enqueue_ms := srtt_ms |> in
      enqueue_loop n' (r <| sr_meta := put_at (sr_meta r) slot entry |>) message srtt_ms (index + 1)
      end end end end end end
  end.

Definition SendRing_enqueue (r : SendRing) (message : Message) (srtt_ms : f64) : SendRing * result Z :=
  let fragments := Message_fragment_count message (sr_slot_len r) in
  if SendRing_window_free r <? fragments then (r, Err BufferTooSmall)
  else
  match enqueue_loop (Z.to_nat fragments) r message srtt_ms 0 with
  | (r, Err e) => (r, Err e)
  | (r, Ok _) =>
      match try_from 32 fragments with
      | None => (r, Err BadLength)
      | Some count => (r <| sr_next := wadd 32 (sr_next r) count |>, Ok count)
      end
  end.

(** The walk of [apply_cumulative]: bytes of the occupied slots from
    [sequence] up to [cumulative]. *)
Fixpoint covered_loop (fuel : nat) (r : SendRing) (cumulative sequence covered : Z) : Z :=
  match fuel with
  | O => covered
  | S fuel' =>
      if seq_lt sequence cumulative then
        let covered := match get_at (sr_meta r) (SendRing_index r sequence) with
                       | Some slot => if ss_occupied slot then sat_add 64 covered (ss_len slot) else covered
                       | None => covered
                       end in
        covered_loop fuel' r cumulative (wadd 32 sequence 1) covered
      else covered
  end.

(** [SendRing::apply_cumulative]: the ring, and the base it had. *)
Definition SendRing_apply_cumulative (r : SendRing) (ack : Ack) : SendRing * Z :=
  let previous := sr_base r in
  let cumulative :=
    match get_at (ack_cumulative ack) (sr_channel r) with
    | Some v => if sr_channel r <? ack_reported ack then v else sr_base r
    | None => sr_base r
    end in
  if seq_gt cumulative (sr_base r) && seq_le cumulative (sr_next r) then
    let covered := covered_loop (Z.to_nat (seq_distance (sr_base r) cumulative)) r cumulative (sr_base r) 0 in
    let r := r <| sr_acked_bytes ::= fun n => sat_add 64 n covered |> in
    let r := r <| sr_acked := sat_add 64 (sr_acked r) (wsub 32 cumulative (sr_base r)) |> in
    let r := r <| sr_base := cumulative |> in
    let r := if seq_lt (sr_cursor r) (sr_base r) then r <| sr_cursor := sr_base r |> else r in
    (r, previous)
  else (r, previous).

Definition SendRing_on_keepalive (r : SendRing) (ack : Ack) : SendRing :=
  fst (SendRing_apply_cumulative r ack).

Definition SendRing_on_ack (r : SendRing) (ack : Ack) (now_ms : f64) : SendRing * option f64 :=
  let '(r, previous) := SendRing_apply_cumulative r ack in
  let r := if ack_nack ack && (ack_trigger_channel ack =? sr_channel r)
           then r <| sr_nack_below := Some (ack_trigger_seq ack) |> else r in
  if negb (ack_trigger_channel ack =? sr_channel r) then (r, None)
  else if seq_lt (ack_trigger_seq ack) previous || seq_ge (ack_trigger_seq ack) (sr_next r)
  then (r, None)
  else
  let index := SendRing_index r (ack_trigger_seq ack) in
  let ahead := seq_ge (ack_trigger_seq ack) (sr_base r) in
  match get_at (sr_meta r) index with
  | None => (r, None)
  | Some slot =>
      if negb (ss_occupied slot) || negb (ss_sent slot) then (r, None)
      else
      let sample := f64_sub now_ms (ss_first_sent_ms slot) in
      let delivered := ss_len slot in
      let r := r <| sr_meta := put_at (sr_meta r) index (slot <| ss_occupied := false |>) |> in
      let r := if ahead then r <| sr_acked_bytes ::= fun n => sat_add 64 n delivered |> else r in
      (r, if f64_is_finite sample && f64_geb sample f64_zero then Some sample else None)
  end.

(** [SendRing::rto_ms]; the clamp's bounds are constants in order, so its
    assertion holds. *)
Definition SendRing_rto_ms (retransmits : Z) (srtt_ms : f64) : f64 :=
  let scaled := f64_mul (f64_mul (f64_of_Z 2) (f64_of_Z (retransmits + 1))) srtt_ms in
  f64_add (f64_clamp_to scaled RTO_FLOOR_MS RTO_CEILING_MS) RTO_GRACE_MS.

(** The staleness test of [classify]. *)
Definition slot_is_stale (slot : SendSlot) (now_ms srtt_ms : f64) (level : Level) : bool :=
  let age := f64_sub now_ms (ss_last_sent_ms slot) in
  let threshold := f64_add (f64_mul (lv_rtt_mult level) srtt_ms) (lv_base_ms level) in
  f64_gtb age threshold
  || f64_gtb srtt_ms (f64_add (f64_mul (lv_rtt_mult level) (ss_srtt_at_enqueue_ms slot)) (lv_base_ms level))
  || (0 <? ss_retransmits slot)
  || ss_nack_resent slot
  || negb (ss_sent slot).

Definition SendRing_classify (r : SendRing) (index : Z) (now_ms srtt_ms : f64) (level : Level) : SendRing :=
  match get_at (sr_meta r) index with
  | None => r
  | Some slot =>
      if negb (ss_occupied slot) then r
      else if slot_is_stale slot now_ms srtt_ms level
      then r <| sr_stale ::= fun n => sat_add 32 n 1 |>
      else r
  end.

(** [self.cursor = self.cursor.wrapping_add(1)]. *)
Definition bump_cursor (r : SendRing) : SendRing := r <| sr_cursor ::= fun n => wadd 32 n 1 |>.

(** Whether a negative acknowledgement asks for this fragment, once. *)
Definition slot_nacked (r : SendRing) (sequence : Z) (slot : SendSlot) : bool :=
  match sr_nack_below r with
  | Some below => seq_lt sequence below && negb (ss_nack_resent slot)
  | None => false
  end.

(** What a send does to the fragment's bookkeeping. *)
Definition mark_sent (entry : SendSlot) (nacked : bool) (now_ms : f64) : SendSlot :=
  let entry :=
    if ss_sent entry then
      if nacked then entry <| ss_nack_resent := true |>
      else entry <| ss_retransmits ::= fun n => sat_add 16 n 1 |>
    else entry <| ss_sent := true |> <| ss_first_sent_ms := now_ms |> in
  entry <| ss_last_sent_ms := now_ms |>.

(** The counters a send moves. *)
Definition count_sent (r : SendRing) (resent nacked : bool) (len : Z) : SendRing :=
  let r := if resent then
             if nacked then r <| sr_nack_resends ::= fun n => sat_add 64 n 1 |>
             else r <| sr_timeout_resends ::= fun n => sat_add 64 n 1 |>
           else r in
  let r := r <| sr_outstanding ::= fun n => sat_add 32 n 1 |> in
  let r := r <| sr_bytes_sent ::= fun n => sat_add 64 n len |> in
  if resent then r else r <| sr_packets_sent ::= fun n => sat_add 64 n 1 |>.

(** The end of a pass: the counters stand and the scan rewinds. *)
Definition end_pass (r : SendRing) : SendRing :=
  r <| sr_nack_below := None |> <| sr_cursor := sr_base r |>.

(** The loop of [poll_send]; [fuel] is the distance left to [next]. *)
Fixpoint poll_loop (fuel : nat) (r : SendRing) (now_ms srtt_ms : f64) (level : Level) (out : list Z) :
    SendRing * list Z * option (result Z) :=
  if sr_cursor r =? sr_next r then (end_pass r, out, None)
  else
  match fuel with
  | O => (r, out, None)
  | S fuel' =>
  let sequence := sr_cursor r in
  let index := SendRing_index r sequence in
  match get_at (sr_meta r) index with
  | None => poll_loop fuel' (bump_cursor r) now_ms srtt_ms level out
  | Some slot =>
  if negb (ss_occupied slot) then poll_loop fuel' (bump_cursor r) now_ms srtt_ms level out
  else if OUTSTANDING_CAP <=? sr_outstanding r then
    poll_loop fuel' (bump_cursor (SendRing_classify r index now_ms srtt_ms level)) now_ms srtt_ms level out
  else
  let age := f64_sub now_ms (ss_last_sent_ms slot) in
  let nacked := slot_nacked r sequence slot in
  let due := if negb (ss_sent slot) then true
             else if nacked then true
             else f64_gtb age (SendRing_rto_ms (ss_retransmits slot) srtt_ms) in
  if negb due then
    let r := if (0 <? ss_retransmits slot) || ss_nack_resent slot
             then r <| sr_outstanding ::= fun n => sat_add 32 n 1 |> else r in
    poll_loop fuel' (bump_cursor (SendRing_classify r index now_ms srtt_ms level)) now_ms srtt_ms level out
  else
  match checked_mul USIZE index (sr_slot_len r) with
  | None => (r, out, None)
  | Some start =>
  match checked_add USIZE start (ss_len slot) with
  | None => (r, out, None)
  | Some end_ =>
  match get_range (sr_bodies r) start end_ with
  | None => (r, out, None)
  | Some body =>
  match encode_data out (mkData (sr_channel r) sequence (ss_last slot) body) with
  | (out, Err error) => (r, out, Some (Err error))
  | (out, Ok written) =>
      let r := count_sent (r <| sr_meta := put_at (sr_meta r) index (mark_sent slot nacked now_ms) |>)
                 (ss_sent slot) nacked (ss_len slot) in
      (bump_cursor (SendRing_classify r index now_ms srtt_ms level), out, Some (Ok written))
  end end end end end
  end.

Definition SendRing_poll_send (r : SendRing) (now_ms srtt_ms : f64) (level_index : Z) (out : list Z) :
    SendRing * list Z * option (result Z) :=
  poll_loop (Z.to_nat (seq_distance (sr_cursor r) (sr_next r))) r now_ms srtt_ms
    (congestion_level level_index) out.

Definition SendRing_begin_pass (r : SendRing) : SendRing :=
  r <| sr_outstanding := 0 |> <| sr_stale := 0 |> <| sr_cursor := sr_base r |>.
