(* ===== verification/SendFacts.v ===== *)
(** The send ring's invariant, and what enqueueing and acknowledgements do to
    the fragments in flight. *)

From S2P Require Import Prelude CoreError Seq Packet Message Channel ChannelFacts Float64 Congestion Send.

(** Distance of a sequence past the base, and the sequence [k] past it. *)
Definition soff (r : SendRing) (s : Z) : Z := seq_distance (sr_base r) s.
Definition spos (r : SendRing) (k : Z) : Z := wadd 32 (sr_base r) k.

Record send_geom (r : SendRing) : Prop := {
  sg_slot_len : 0 < sr_slot_len r < 2 ^ 16;
  sg_slots : 0 < zlen (sr_meta r) < HALF;
  sg_bodies : zlen (sr_bodies r) = zlen (sr_meta r) * sr_slot_len r;
  sg_channel : 0 <= sr_channel r < CHANNEL_COUNT;
  sg_meta : Forall (fun m => 0 <= ss_len m <= sr_slot_len r) (sr_meta r);
}.

(** The ring never runs further ahead of the peer than its own storage, and
    the scan stands between the base and the next sequence. *)
Record send_wf (r : SendRing) : Prop := {
  sw_geom : send_geom r;
  sw_base : fits 32 (sr_base r);
  sw_next : fits 32 (sr_next r);
  sw_cursor : fits 32 (sr_cursor r);
  sw_depth : 0 <= sr_peer_depth r <= zlen (sr_meta r);
  sw_window : soff r (sr_next r) <= zlen (sr_meta r);
  sw_scan : soff r (sr_cursor r) <= soff r (sr_next r);
  sw_outstanding : fits 32 (sr_outstanding r);
}.

#[export] Hint Resolve sw_geom sw_base sw_next sw_cursor : lowlat.

(** What a slot holds: its bookkeeping and its bytes. *)
Definition slot_view (r : SendRing) (i : Z) : option (SendSlot * list Z) :=
  m ← get_at (sr_meta r) i;
  body ← get_range (sr_bodies r) (i * sr_slot_len r) (i * sr_slot_len r + ss_len m);
  Some (m, body).

(** The fragment in flight [k] past the base, unless it was acknowledged by
    itself: its last-fragment flag and its bytes. *)
Definition queued (r : SendRing) (k : Z) : option (bool * list Z) :=
  match slot_view r (SendRing_index r (spos r k)) with
  | Some (m, body) => if ss_occupied m then Some (ss_last m, body) else None
  | None => None
  end.

Lemma in_flight_soff r : SendRing_in_flight r = soff r (sr_next r).
Proof. done. Qed.

Section geometry.
  Context (r : SendRing) (G : send_geom r).

Lemma send_index_bounds s : 0 <= SendRing_index r s < zlen (sr_meta r).
Proof. apply Z.mod_pos_bound. apply (sg_slots r G). Qed.

Lemma send_slot_get s : exists m, get_at (sr_meta r) (SendRing_index r s) = Some m.
Proof. apply get_at_Some, send_index_bounds. Qed.

Lemma send_region i :
  0 <= i < zlen (sr_meta r) ->
  0 <= i * sr_slot_len r /\ i * sr_slot_len r + sr_slot_len r <= zlen (sr_bodies r) /\
  zlen (sr_bodies r) < 2 ^ 48.
Proof.
  intros. rewrite (sg_bodies r G). pose proof (sg_slot_len r G). pose proof (sg_slots r G).
  unfold HALF in *. nia.
Qed.

Lemma send_meta_len i m : get_at (sr_meta r) i = Some m -> 0 <= ss_len m <= sr_slot_len r.
Proof. pose proof (sg_meta r G) as H. rewrite Forall_lookup in H. apply H. Qed.

Lemma slot_view_get i m :
  0 <= i < zlen (sr_meta r) -> get_at (sr_meta r) i = Some m ->
  exists body, slot_view r i = Some (m, body) /\ zlen body = ss_len m.
Proof.
  intros Hi Hm. pose proof (send_region i Hi). pose proof (send_meta_len i m Hm).
  unfold slot_view. rewrite Hm. cbn [mbind option_bind].
  rewrite get_range_eq by lia. cbn [mbind option_bind]. eexists. split; [done|].
  rewrite zlen_take, zlen_drop. lia.
Qed.
End geometry.

(** Overwriting part of a slot's region is a write at the region's start. *)
Lemma put_range_region {A} (l region s : list A) a b :
  0 <= a <= b -> get_range l a b = Some region -> zlen s <= zlen region ->
  put_range l a (put_range region 0 s) = put_range l a s.
Proof.
  intros Ha Hr Hs. pose proof (get_range_zlen l a b region ltac:(lia) Hr) as Hz.
  unfold get_range in Hr. destruct ((a <=? b) && (b <=? zlen l)) eqn:E; [|done].
  injection Hr as Hreg. rewrite put_range_0. unfold put_range. f_equal.
  unfold zlen in Hs, Hz. rewrite <- app_assoc. f_equal. rewrite length_app, length_drop.
  rewrite <- Hreg, skipn_firstn_comm, drop_drop.
  rewrite <- (take_drop (Z.to_nat (b - a) - length s) (drop (Z.to_nat a + length s) l)) at 2.
  f_equal. rewrite drop_drop. f_equal. rewrite <- Hreg in *. lia.
Qed.

(** ** Enqueueing *)

Definition fresh_slot (len : Z) (last : bool) (srtt_ms : f64) : SendSlot :=
  mkSendSlot len true last false false 0 f64_zero f64_zero srtt_ms.

(** The ring with fragment [i] of a message laid [i] past [next]. *)
Definition lay (r : SendRing) (m : Message) (srtt_ms : f64) (i : Z) : SendRing :=
  let part := chunk (sr_slot_len r) (Message_stream m) (Z.to_nat i) in
  let slot := SendRing_index r (wadd 32 (sr_next r) i) in
  r <| sr_bodies := put_range (sr_bodies r) (slot * sr_slot_len r) part |>
    <| sr_meta := put_at (sr_meta r) slot
         (fresh_slot (zlen part) (Message_stream_len m <=? (i + 1) * sr_slot_len r) srtt_ms) |>.

Fixpoint lay_all (n : nat) (r : SendRing) (m : Message) (srtt_ms : f64) (i : Z) : SendRing :=
  match n with
  | O => r
  | S n' => lay_all n' (lay r m srtt_ms i) m srtt_ms (i + 1)
  end.

Section enqueue.
  Context (m : Message) (Hm : message_ok m) (srtt : f64).

Lemma chunk_len r i :
  send_geom r -> 0 <= i -> i * sr_slot_len r < Message_stream_len m ->
  0 < zlen (chunk (sr_slot_len r) (Message_stream m) (Z.to_nat i)) <= sr_slot_len r.
Proof.
  intros G Hi Hl. pose proof (sg_slot_len r G).
  rewrite zlen_chunk, zlen_stream by (done || lia). lia.
Qed.

Lemma lay_geom r i :
  send_geom r -> 0 <= i -> i * sr_slot_len r < Message_stream_len m -> send_geom (lay r m srtt i).
Proof.
  intros G Hi Hl. pose proof (chunk_len r i G Hi Hl) as Hc.
  pose proof (send_index_bounds r G (wadd 32 (sr_next r) i)) as Hs.
  pose proof (send_region r G _ Hs) as (? & ? & _). destruct G as [? ? Hb ? Hmeta].
  split; cbn [lay sr_bodies sr_meta sr_slot_len sr_channel set_field]; rewrite ?zlen_put_at; try done.
  - rewrite zlen_put_range by lia. done.
  - apply Forall_insert; [done|]. cbn [fresh_slot ss_len]. lia.
Qed.

Lemma lay_index r i s : SendRing_index (lay r m srtt i) s = SendRing_index r s.
Proof. unfold SendRing_index, lay. cbn. by rewrite zlen_put_at. Qed.

Lemma lay_view r i j :
  send_geom r -> 0 <= i -> i * sr_slot_len r < Message_stream_len m -> 0 <= j < zlen (sr_meta r) ->
  let part := chunk (sr_slot_len r) (Message_stream m) (Z.to_nat i) in
  slot_view (lay r m srtt i) j =
    if j =? SendRing_index r (wadd 32 (sr_next r) i)
    then Some (fresh_slot (zlen part) (Message_stream_len m <=? (i + 1) * sr_slot_len r) srtt, part)
    else slot_view r j.
Proof.
  intros G Hi Hl Hj part. pose proof (chunk_len r i G Hi Hl) as Hc. fold part in Hc.
  pose proof (send_index_bounds r G (wadd 32 (sr_next r) i)) as Hs.
  set (slot := SendRing_index r _) in *. pose proof (send_region r G _ Hs) as (? & ? & _).
  pose proof (send_region r G _ Hj) as (? & ? & _). pose proof (sg_slot_len r G).
  unfold slot_view, lay. fold part slot. cbn [sr_bodies sr_meta sr_slot_len set_field].
  destruct (Z.eqb_spec j slot) as [->|Hne].
  - rewrite get_put_at_eq by done. cbn [mbind option_bind fresh_slot ss_len].
    rewrite get_put_range_eq by lia. done.
  - rewrite get_put_at_ne by lia. destruct (get_at (sr_meta r) j) as [mj|] eqn:Ej; [|done].
    cbn [mbind option_bind]. pose proof (send_meta_len r G j mj Ej).
    rewrite get_put_range_ne; [done|nia..].
Qed.

Lemma enqueue_loop_lay n r i :
  send_geom r -> 0 <= i -> (i + Z.of_nat n <= Message_fragment_count m (sr_slot_len r)) ->
  i + Z.of_nat n < 2 ^ 32 ->
  enqueue_loop n r m srtt i = (lay_all n r m srtt i, Ok ()).
Proof.
  revert r i. induction n as [|n IH]; intros r i G Hi Hn H32; [done|].
  pose proof (sg_slot_len r G) as Hsl.
  assert (i * sr_slot_len r < Message_stream_len m) as Hl
    by (apply fragment_count_stream; [done|lia..]).
  pose proof (chunk_len r i G Hi Hl) as Hc.
  cbn [enqueue_loop lay_all]. unfold try_from at 1.
  rewrite (proj2 (Z.leb_le 0 i)), (proj2 (Z.ltb_lt i (2 ^ 32))) by lia. cbn [andb]. cbv zeta.
  pose proof (send_index_bounds r G (wadd 32 (sr_next r) i)) as Hs.
  set (slot := SendRing_index r _) in *. pose proof (send_region r G _ Hs) as (? & ? & Hu).
  unfold checked_mul. rewrite (proj2 (Z.ltb_lt (slot * _) _)) by lia.
  destruct (get_range (sr_bodies r) (slot * sr_slot_len r) _) as [region|] eqn:Er;
    [|rewrite get_range_eq in Er by lia; done].
  assert (zlen region = sr_slot_len r) as Hz by (apply get_range_zlen in Er; lia).
  rewrite <- (Z2Nat.id i) at 1 by lia.
  rewrite Message_fragment_eq by (done || lia).
  cbn [sr_meta sr_bodies set_field frag_len frag_last].
  destruct (get_at_Some (sr_meta r) slot Hs) as [old ->]. unfold try_from.
  rewrite (proj2 (Z.leb_le 0 (zlen _))), (proj2 (Z.ltb_lt (zlen _) (2 ^ 16))) by lia. cbn [andb].
  rewrite (put_range_region _ region _ _ (slot * sr_slot_len r + sr_slot_len r)) by (done || lia).
  rewrite Z2Nat.id by lia.
  change (r <| sr_bodies := _ |> <| sr_meta := _ |>) with (lay r m srtt i).
  rewrite IH; [done|by apply lay_geom|lia| |lia].
  cbn [lay sr_slot_len set_field]. lia.
Qed.

(** [r] with other storage of the same shape. *)
Definition restored (r r' : SendRing) : Prop :=
  exists b mt, r' = r <| sr_bodies := b |> <| sr_meta := mt |> /\ zlen mt = zlen (sr_meta r).

Lemma lay_restored r i : restored r (lay r m srtt i).
Proof. do 2 eexists. split; [reflexivity|]. apply zlen_put_at. Qed.

Lemma restored_trans r1 r2 r3 : restored r1 r2 -> restored r2 r3 -> restored r1 r3.
Proof.
  intros (b & mt & -> & E) (b' & mt' & -> & E'). exists b', mt'. split; [done|]. by rewrite E'.
Qed.

Lemma next_spos r i : fits 32 (sr_base r) -> fits 32 (sr_next r) ->
  wadd 32 (sr_next r) i = spos r (SendRing_in_flight r + i).
Proof.
  intros Hb Hn. unfold spos. rewrite <- wadd_assoc. f_equal. by apply seq_distance_split.
Qed.

Lemma lay_all_spec n r i :
  send_geom r -> fits 32 (sr_base r) -> fits 32 (sr_next r) ->
  window_inj (zlen (sr_meta r)) (sr_base r) ->
  0 <= i -> i + Z.of_nat n <= Message_fragment_count m (sr_slot_len r) ->
  SendRing_in_flight r + i + Z.of_nat n <= zlen (sr_meta r) ->
  let r' := lay_all n r m srtt i in
  let f := SendRing_in_flight r in
  send_geom r' /\ restored r r' /\
  forall k, 0 <= k < zlen (sr_meta r) ->
    slot_view r' (SendRing_index r (spos r k)) =
      if (f + i <=? k) && (k <? f + i + Z.of_nat n)
      then let part := chunk (sr_slot_len r) (Message_stream m) (Z.to_nat (k - f)) in
           Some (fresh_slot (zlen part) (Message_stream_len m <=? (k - f + 1) * sr_slot_len r) srtt, part)
      else slot_view r (SendRing_index r (spos r k)).
Proof.
  revert r i. induction n as [|n IH]; intros r i G Hb Hn Hinj Hi Hc Hw r' f.
  { split_and!; [done| |]. { by exists (sr_bodies r), (sr_meta r); destruct r. }
    intros k Hk. zcases; done || lia. }
  assert (0 <= f) as Hf by (apply seq_distance_fits).
  assert (i * sr_slot_len r < Message_stream_len m) as Hl
    by (apply fragment_count_stream; [done|pose proof (sg_slot_len r G); lia|lia]).
  pose proof (lay_geom r i G Hi Hl) as G1. pose proof (zlen_put_at (sr_meta r)) as Hz.
  destruct (IH (lay r m srtt i) (i + 1)) as (G' & R' & V); try done; try lia.
  { cbn. by rewrite Hz. } { cbn [lay sr_slot_len set_field]. lia. }
  { change (SendRing_in_flight (lay r m srtt i)) with f. cbn [lay sr_meta set_field]. rewrite Hz. lia. }
  split_and!; [done|eapply restored_trans; [apply lay_restored|done]|]. intros k Hk.
  specialize (V k). rewrite !lay_index in V. change (spos (lay r m srtt i) k) with (spos r k) in V.
  change (SendRing_in_flight (lay r m srtt i)) with f in V.
  change (sr_slot_len (lay r m srtt i)) with (sr_slot_len r) in V.
  cbn [r' lay_all]. rewrite V by (cbn [lay sr_meta set_field]; by rewrite Hz).
  rewrite lay_view by (done || apply send_index_bounds; done).
  rewrite next_spos by done. fold f. unfold SendRing_index, spos.
  destruct (Z.eqb_spec ((wadd 32 (sr_base r) k) mod zlen (sr_meta r))
    ((wadd 32 (sr_base r) (f + i)) mod zlen (sr_meta r))) as [E|E].
  - apply Hinj in E; [|lia..]. subst k. replace (f + i - f) with i by lia. zcases; done || lia.
  - assert (k <> f + i) by congruence. zcases; done || lia.
Qed.
End enqueue.

Lemma enqueue_effect r m srtt :
  send_wf r -> window_inj (zlen (sr_meta r)) (sr_base r) -> message_ok m ->
  Message_fragment_count m (sr_slot_len r) <= SendRing_window_free r ->
  let n := Message_fragment_count m (sr_slot_len r) in
  let r1 := lay_all (Z.to_nat n) r m srtt 0 in
  SendRing_enqueue r m srtt = (r1 <| sr_next := wadd 32 (sr_next r) n |>, Ok n) /\
  restored r r1 /\ send_geom r1 /\ 1 <= n /\ SendRing_in_flight r + n <= zlen (sr_meta r) /\
  SendRing_in_flight (r1 <| sr_next := wadd 32 (sr_next r) n |>) = SendRing_in_flight r + n.
Proof.
  intros W Hinj Hm Hfree n r1. destruct W as [G Hb Hn _ Hd Hw _ _].
  pose proof (sg_slot_len r G). pose proof (sg_slots r G) as Hs. unfold HALF in Hs.
  pose proof (fragment_count_pos m (sr_slot_len r) Hm ltac:(lia)) as Hp. fold n in Hp, Hfree.
  pose proof (seq_distance_fits (sr_base r) (sr_next r)) as F.
  change (seq_distance (sr_base r) (sr_next r)) with (SendRing_in_flight r) in F.
  unfold SendRing_window_free, sat_sub in Hfree. unfold fits in F.
  destruct (lay_all_spec m Hm srtt (Z.to_nat n) r 0) as (G1 & R1 & _); try done; try lia.
  fold r1 in G1, R1.
  assert (SendRing_in_flight (r1 <| sr_next := wadd 32 (sr_next r) n |>) = SendRing_in_flight r + n) as Ef.
  { destruct R1 as (b & mt & -> & _). cbn [set_field].
    change (seq_distance (sr_base r) (wadd 32 (sr_next r) n) = SendRing_in_flight r + n).
    rewrite next_spos by done. apply seq_distance_offset; [done|]. unfold fits. lia. }
  split_and!; try done; try lia.
  unfold SendRing_enqueue. fold n.
  rewrite (proj2 (Z.ltb_ge _ _)) by (unfold SendRing_window_free, sat_sub; lia).
  rewrite enqueue_loop_lay by (done || lia). fold r1. unfold try_from.
  rewrite (proj2 (Z.leb_le 0 n)), (proj2 (Z.ltb_lt n (2 ^ 32))) by lia. cbn [andb].
  by destruct R1 as (b & mt & -> & _).
Qed.

(** ** Bytes in flight *)

Fixpoint zsum (n : nat) (k : Z) (f : Z -> Z) : Z :=
  match n with
  | O => 0
  | S n' => f k + zsum n' (k + 1) f
  end.

Lemma zsum_ext n k f g :
  (forall j, k <= j < k + Z.of_nat n -> f j = g j) -> zsum n k f = zsum n k g.
Proof.
  revert k. induction n as [|n IH]; intros k H; [done|]. cbn. rewrite H by lia.
  rewrite IH; [done|]. intros. apply H. lia.
Qed.

Lemma zsum_app n n' k f : zsum (n + n') k f = zsum n k f + zsum n' (k + Z.of_nat n) f.
Proof.
  revert k. induction n as [|n IH]; intros k; cbn [zsum Nat.add]; [by rewrite Z.add_0_r|].
  rewrite IH. replace (k + Z.of_nat (S n)) with (k + 1 + Z.of_nat n) by lia. lia.
Qed.

Lemma zsum_shift n k d f : zsum n (k + d) f = zsum n k (fun j => f (j + d)).
Proof.
  revert k. induction n as [|n IH]; intros k; cbn [zsum]; [done|]. f_equal.
  rewrite <- IH. f_equal. lia.
Qed.

Lemma zsum_bounds n k f b : (forall j, 0 <= f j <= b) -> 0 <= zsum n k f <= Z.of_nat n * b.
Proof.
  intros H. revert k. induction n as [|n IH]; intros k; cbn [zsum]; [lia|].
  specialize (IH (k + 1)). specialize (H k). nia.
Qed.

(** Two summands that differ at one place. *)
Lemma zsum_change n k i f g d :
  k <= i < k + Z.of_nat n -> f i = g i + d -> (forall j, k <= j < k + Z.of_nat n -> j <> i -> f j = g j) ->
  zsum n k f = zsum n k g + d.
Proof.
  revert k. induction n as [|n IH]; intros k Hi Hd Ho; [lia|]. cbn [zsum].
  destruct (Z.eq_dec k i) as [->|Hne].
  - rewrite (zsum_ext n (i + 1) f g) by (intros; apply Ho; lia). lia.
  - rewrite (IH (k + 1)); [|lia|done|intros; apply Ho; lia]. rewrite Ho by lia. lia.
Qed.

Definition slot_bytes (r : SendRing) (k : Z) : Z :=
  match get_at (sr_meta r) (SendRing_index r (spos r k)) with
  | Some s => if ss_occupied s then ss_len s else 0
  | None => 0
  end.

(** Payload bytes the peer has not acknowledged. *)
Definition unacked_bytes (r : SendRing) : Z := zsum (Z.to_nat (SendRing_in_flight r)) 0 (slot_bytes r).

Lemma slot_bytes_bounds r k : send_geom r -> 0 <= slot_bytes r k <= sr_slot_len r.
Proof.
  intros G. unfold slot_bytes. pose proof (sg_slot_len r G).
  destruct (get_at _ _) as [s|] eqn:E; [|lia]. pose proof (send_meta_len r G _ _ E).
  destruct (ss_occupied s); lia.
Qed.

Lemma covered_loop_sum n r k c :
  send_geom r -> 0 <= k -> k + Z.of_nat n < HALF -> 0 <= c -> c + Z.of_nat n * 2 ^ 16 < 2 ^ 63 ->
  covered_loop n r (spos r (k + Z.of_nat n)) (spos r k) c = c + zsum n k (slot_bytes r).
Proof.
  intros G. revert k c. induction n as [|n IH]; intros k c Hk Hh Hc Hs; [cbn; lia|].
  cbn [covered_loop zsum]. unfold HALF in *.
  assert (seq_lt (spos r k) (spos r (k + Z.of_nat (S n))) = true) as ->
    by (unfold spos; rewrite seq_lt_offset by (unfold HALF; lia); apply Z.ltb_lt; lia).
  pose proof (slot_bytes_bounds r k G) as Hb. pose proof (sg_slot_len r G).
  replace (match get_at (sr_meta r) (SendRing_index r (spos r k)) with
           | Some slot => if ss_occupied slot then sat_add 64 c (ss_len slot) else c
           | None => c end) with (c + slot_bytes r k).
  - rewrite (wadd_assoc 32 (sr_base r) k 1 : wadd 32 (spos r k) 1 = spos r (k + 1)).
    replace (k + Z.of_nat (S n)) with (k + 1 + Z.of_nat n) by lia.
    rewrite IH by lia. lia.
  - unfold slot_bytes in *. destruct (get_at _ _) as [s|]; [|lia].
    destruct (ss_occupied s); [|lia]. unfold sat_add. lia.
Qed.

(** ** Acknowledgements *)

(** Values of the width the wire carries; nothing else is asked of a peer. *)
Definition ack_fits (ack : Ack) : Prop :=
  Forall (fits 32) (ack_cumulative ack) /\ fits 32 (ack_trigger_seq ack).

(** The fragments past the base an acknowledgement covers: none unless the
    channel is reported and the value lies in (base, next]. *)
Definition ack_advance (r : SendRing) (ack : Ack) : Z :=
  match get_at (ack_cumulative ack) (sr_channel r) with
  | Some v => if (sr_channel r <? ack_reported ack) && (soff r v <=? SendRing_in_flight r)
              then soff r v else 0
  | None => 0
  end.

Lemma spos_soff r s : fits 32 (sr_base r) -> fits 32 s -> spos r (soff r s) = s.
Proof. intros. symmetry. by apply seq_distance_split. Qed.

Lemma soff_spos r k : fits 32 (sr_base r) -> fits 32 k -> soff r (spos r k) = k.
Proof. apply seq_distance_offset. Qed.

Lemma soff_fits r s : fits 32 (soff r s).
Proof. apply seq_distance_fits. Qed.

Lemma spos_fits r k : fits 32 (spos r k).
Proof. apply fits_wadd. lia. Qed.

#[export] Hint Resolve soff_fits spos_fits : lowlat.

Lemma in_flight_bounds r : send_wf r -> 0 <= SendRing_in_flight r <= zlen (sr_meta r).
Proof. intros W. split; [apply soff_fits|apply (sw_window r W)]. Qed.

Lemma ack_advance_bounds r ack : send_wf r -> 0 <= ack_advance r ack <= SendRing_in_flight r.
Proof.
  intros W. pose proof (in_flight_bounds r W). unfold ack_advance.
  destruct (get_at _ _) as [v|]; [|lia]. pose proof (soff_fits r v) as F. unfold fits in F.
  zcases; lia.
Qed.

(** Whether the advance test of [apply_cumulative] passes. *)
Lemma advance_test r v :
  send_wf r -> fits 32 v ->
  seq_gt v (sr_base r) && seq_le v (sr_next r)
    = (0 <? soff r v) && (soff r v <=? SendRing_in_flight r).
Proof.
  intros W Hv. pose proof (in_flight_bounds r W). pose proof (sg_slots r (sw_geom r W)) as Hs.
  pose proof (soff_fits r v) as F. unfold fits in F.
  rewrite <- (spos_soff r v) at 1 2 by auto with lowlat.
  rewrite <- (spos_soff r (sr_next r)) at 1 by auto with lowlat.
  rewrite <- (wadd_0 32 (sr_base r)) at 1 by auto with lowlat. unfold spos.
  rewrite <- in_flight_soff. unfold HALF in *.
  destruct (Z.leb_spec (soff r v) (2 ^ 31 - 1)).
  - rewrite seq_gt_offset, seq_le_offset by (unfold HALF; lia). done.
  - rewrite (proj2 (Z.leb_gt (soff r v) _)), andb_false_r by lia.
    destruct (Z.leb_spec (soff r v) (2 ^ 31)) as [|Hgt].
    + assert (seq_gt (wadd 32 (sr_base r) (soff r v)) (wadd 32 (sr_base r) 0) = false) as ->; [|done].
      replace (soff r v) with (2 ^ 31) by lia. unfold seq_gt.
      rewrite wsub_wadd2. done.
    + assert (seq_gt (wadd 32 (sr_base r) (soff r v)) (wadd 32 (sr_base r) 0) = false) as ->; [|done].
      unfold seq_gt. rewrite wsub_wadd2. unfold as_signed, wrap.
      rewrite Z.mod_small by lia. zcases; lia.
Qed.

Lemma apply_cumulative_effect r ack :
  send_wf r -> ack_fits ack ->
  let n := ack_advance r ack in
  exists acked cursor,
    SendRing_apply_cumulative r ack =
      (r <| sr_acked_bytes := (if n =? 0 then sr_acked_bytes r
                               else sat_add 64 (sr_acked_bytes r) (zsum (Z.to_nat n) 0 (slot_bytes r))) |>
         <| sr_acked := acked |> <| sr_base := spos r n |> <| sr_cursor := cursor |>, sr_base r) /\
    fits 32 cursor /\ seq_distance (spos r n) cursor <= SendRing_in_flight r - n.
Proof.
  intros W [Hc _] n. pose proof (ack_advance_bounds r ack W) as Hn. fold n in Hn.
  pose proof (in_flight_bounds r W) as Hf. pose proof (sg_slots r (sw_geom r W)) as Hs.
  unfold SendRing_apply_cumulative.
  assert (exists v, (match get_at (ack_cumulative ack) (sr_channel r) with
    | Some v => if sr_channel r <? ack_reported ack then v else sr_base r
    | None => sr_base r end) = v /\ fits 32 v /\ n = if soff r v <=? SendRing_in_flight r then soff r v else 0)
    as (v & -> & Hv & En).
  { unfold n, ack_advance. destruct (get_at _ _) as [v|] eqn:E.
    - destruct (sr_channel r <? ack_reported ack); cbn [andb].
      + exists v. split_and!; [done| |done]. rewrite Forall_lookup in Hc. by eapply Hc.
      + exists (sr_base r). split_and!; [done|auto with lowlat|].
        unfold soff. rewrite seq_distance_refl. by destruct (_ <=? _).
    - exists (sr_base r). split_and!; [done|auto with lowlat|].
      unfold soff. rewrite seq_distance_refl. by destruct (_ <=? _). }
  rewrite advance_test by done. pose proof (soff_fits r v) as Fv. unfold fits in Fv.
  pose proof (sw_scan r W) as Hsc. rewrite <- in_flight_soff in Hsc.
  destruct ((0 <? soff r v) && (soff r v <=? SendRing_in_flight r)) eqn:Etest.
  2: { assert (n = 0) as -> by (rewrite En; revert Etest; zcases; lia). exists (sr_acked r), (sr_cursor r).
       unfold spos. rewrite wadd_0, Z.sub_0_r by auto with lowlat.
       split_and!; [by destruct r|auto with lowlat|done]. }
  assert (n = soff r v /\ 0 < n) as [Env Hpos] by (rewrite En; revert Etest; zcases; lia).
  assert (v = spos r n) as Ev by (rewrite Env; symmetry; by apply spos_soff; auto with lowlat).
  fold (soff r v). rewrite <- Env, (proj2 (Z.eqb_neq n 0)) by lia.
  pose proof (covered_loop_sum (Z.to_nat n) r 0 0 (sw_geom r W)) as Hcov.
  rewrite Z2Nat.id, !Z.add_0_l in Hcov by lia. rewrite <- Ev in Hcov. unfold HALF in *.
  unfold spos in Hcov. rewrite wadd_0 in Hcov by auto with lowlat. rewrite Hcov by lia.
  cbn [sr_acked_bytes sr_acked sr_base sr_cursor set_field].
  assert (seq_lt (sr_cursor r) v = (soff r (sr_cursor r) <? n)) as ->.
  { rewrite Ev. rewrite <- (spos_soff r (sr_cursor r)) at 1 by auto with lowlat.
    pose proof (soff_fits r (sr_cursor r)) as Fc. unfold fits in Fc.
    unfold spos. apply seq_lt_offset. unfold HALF. lia. }
  exists (sat_add 64 (sr_acked r) (wsub 32 v (sr_base r))),
    (if soff r (sr_cursor r) <? n then v else sr_cursor r).
  rewrite <- Ev. destruct (Z.ltb_spec (soff r (sr_cursor r)) n).
  - split_and!; [done|done|]. rewrite seq_distance_refl. lia.
  - split_and!; [by destruct r|auto with lowlat|]. rewrite Ev. unfold spos.
    rewrite seq_distance_shift; [unfold soff in *; lia|auto with lowlat..|unfold soff in *; lia].
Qed.

(** ** Building a ring *)

Lemma send_new_wf bodies meta slot_len channel r :
  SendRing_new bodies meta slot_len channel = Ok r -> 0 <= slot_len < 2 ^ 16 -> 0 <= channel ->
  zlen meta < HALF -> Forall (fun m => 0 <= ss_len m <= slot_len) meta ->
  send_wf r /\ SendRing_in_flight r = 0 /\ sr_meta r = meta /\ sr_slot_len r = slot_len /\
  sr_channel r = channel /\ sr_peer_depth r = Z.min (zlen meta) PEER_RING_FLOOR.
Proof.
  unfold SendRing_new, checked_mul, try_from. intros H Hs Hc Hl Hm. pose proof (zlen_nonneg meta).
  destruct (Z.eqb_spec slot_len 0); [done|]. destruct (Z.eqb_spec (zlen meta) 0); [done|].
  destruct (Z.leb_spec CHANNEL_COUNT channel); [done|]. cbn [orb] in H.
  destruct (_ <? 2 ^ 64); [|done]. cbn [ok_or mbind result_bind] in H.
  destruct (Z.eqb_spec (zlen bodies) (zlen meta * slot_len)); [|done]. cbn [negb] in H.
  unfold HALF in Hl. rewrite (proj2 (Z.leb_le 0 (zlen meta))), (proj2 (Z.ltb_lt (zlen meta) (2 ^ 32))) in H by lia.
  cbn [andb default] in H. injection H as <-. unfold PEER_RING_FLOOR. split_and!; try done.
  split; [split|..]; cbn [sr_slot_len sr_meta sr_bodies sr_channel sr_base sr_next sr_cursor sr_peer_depth
    sr_outstanding]; unfold HALF, fits, default, id; try done; try lia; by vm_compute.
Qed.
