(* ===== verification/SendSpec.v ===== *)
(** What the send ring promises: enqueueing never disturbs what is in flight,
    acknowledgements remove exactly what they name, and every byte is counted
    once. *)

From S2P Require Import Prelude CoreError Seq Packet Message Channel ChannelFacts Float64 Congestion.
From S2P Require Import Send SendFacts.

(** ** Enqueueing *)

Lemma queued_view r k v :
  slot_view r (SendRing_index r (spos r k)) = v ->
  queued r k = match v with
               | Some (m, body) => if ss_occupied m then Some (ss_last m, body) else None
               | None => None
               end.
Proof. unfold queued. by intros ->. Qed.

Lemma last_fragment_test m cap i :
  message_ok m -> 0 < cap -> 0 <= i < Message_fragment_count m cap ->
  (Message_stream_len m <=? (i + 1) * cap) = (i =? Message_fragment_count m cap - 1).
Proof.
  intros Hm Hc Hi. pose proof (fragment_count_stream m cap Hm Hc (i + 1)). zcases; lia.
Qed.

Lemma enqueue_wf r m srtt :
  send_wf r -> window_inj (zlen (sr_meta r)) (sr_base r) -> message_ok m ->
  send_wf (fst (SendRing_enqueue r m srtt)).
Proof.
  intros W Hinj Hm. destruct (Z.ltb_spec (SendRing_window_free r) (Message_fragment_count m (sr_slot_len r))) as [Hlt|Hge].
  { unfold SendRing_enqueue. by rewrite (proj2 (Z.ltb_lt _ _)). }
  destruct (enqueue_effect r m srtt W Hinj Hm Hge) as (E & (b & mt & Er & Hz) & G1 & Hn & Hw & Ef).
  rewrite E. cbn [fst]. rewrite Er in *. pose proof (sw_scan r W) as Hs. rewrite <- in_flight_soff in Hs.
  destruct W as [G Hb Hnx Hc Hd _ _ Ho].
  split; cbn [sr_base sr_next sr_cursor sr_peer_depth sr_meta sr_outstanding set_field];
    rewrite ?Hz; try done.
  - destruct G1; by split.
  - apply fits_wadd. lia.
  - rewrite <- in_flight_soff, Ef. lia.
  - rewrite <- in_flight_soff, Ef. unfold soff in *. cbn. lia.
Qed.

(** Every slot of the window after a message went in. *)
Lemma enqueue_slots r m srtt :
  send_wf r -> window_inj (zlen (sr_meta r)) (sr_base r) -> message_ok m ->
  let n := Message_fragment_count m (sr_slot_len r) in
  let f := SendRing_in_flight r in
  n <= SendRing_window_free r -> exists r',
    SendRing_enqueue r m srtt = (r', Ok n) /\ send_wf r' /\
    sr_base r' = sr_base r /\ sr_channel r' = sr_channel r /\ sr_slot_len r' = sr_slot_len r /\
    zlen (sr_meta r') = zlen (sr_meta r) /\
    SendRing_in_flight r' = f + n /\ 1 <= n /\ f + n <= zlen (sr_meta r) /\
    forall k, 0 <= k < zlen (sr_meta r) ->
      slot_view r' (SendRing_index r' (spos r' k)) =
        if (f <=? k) && (k <? f + n)
        then let part := chunk (sr_slot_len r) (Message_stream m) (Z.to_nat (k - f)) in
             Some (fresh_slot (zlen part) (k - f =? n - 1) srtt, part)
        else slot_view r (SendRing_index r (spos r k)).
Proof.
  intros W Hinj Hm n f Hfree.
  destruct (enqueue_effect r m srtt W Hinj Hm Hfree) as (E & R & G1 & Hn & Hw & Ef).
  fold n f in E, R, G1, Hn, Hw, Ef. pose proof (in_flight_bounds r W) as Hf. fold f in Hf.
  destruct (lay_all_spec m Hm srtt (Z.to_nat n) r 0) as (_ & _ & V);
    [auto with lowlat..|done|lia|fold n; lia|fold f; lia|]. fold f in V.
  set (r1 := lay_all _ _ _ _ _) in *. destruct R as (b & mt & Er & Hz).
  exists (r1 <| sr_next := wadd 32 (sr_next r) n |>). rewrite Er in E, Ef |- *.
  split_and!; try done.
  - pose proof (enqueue_wf r m srtt W Hinj Hm) as W'. rewrite E in W'. exact W'.
  - intros k Hk. rewrite <- Er.
    replace (SendRing_index _ _) with (SendRing_index r (spos r k))
      by (rewrite Er; unfold SendRing_index, spos; cbn; by rewrite Hz).
    change (slot_view (r1 <| sr_next := wadd 32 (sr_next r) n |>)) with (slot_view r1).
    rewrite V by done. rewrite Z2Nat.id, Z.add_0_r by lia.
    destruct ((f <=? k) && (k <? f + n)) eqn:Eb; [|done].
    rewrite last_fragment_test; [done|done|apply (sg_slot_len r (sw_geom r W))|]. revert Eb. zcases; fold n; lia.
Qed.

(** Enqueueing.  A message that does not fit the peer's window is refused
    and nothing changes.  Otherwise its fragments are queued behind what is
    already in flight, in order, the flag on the last one only, and every
    fragment in flight keeps its bytes. *)
Theorem enqueue_correct (r : SendRing) (m : Message) (srtt_ms : f64) :
  send_wf r -> window_inj (zlen (sr_meta r)) (sr_base r) -> message_ok m ->
  let n := Message_fragment_count m (sr_slot_len r) in
  let f := SendRing_in_flight r in
  (SendRing_window_free r < n -> SendRing_enqueue r m srtt_ms = (r, Err BufferTooSmall)) /\
  (n <= SendRing_window_free r -> exists r',
     SendRing_enqueue r m srtt_ms = (r', Ok n) /\ send_wf r' /\
     sr_base r' = sr_base r /\ SendRing_in_flight r' = f + n /\
     (forall k, 0 <= k < f -> queued r' k = queued r k) /\
     (forall i, 0 <= i < n -> queued r' (f + i) =
        Some (i =? n - 1, chunk (sr_slot_len r) (Message_stream m) (Z.to_nat i)))).
Proof.
  intros W Hinj Hm n f. split; intros Hfree.
  { unfold SendRing_enqueue. fold n. by rewrite (proj2 (Z.ltb_lt _ _)). }
  destruct (enqueue_slots r m srtt_ms W Hinj Hm Hfree) as (r' & E & W' & Eb & _ & _ & _ & Ef & Hn & Hw & V).
  pose proof (in_flight_bounds r W) as Hf. fold n f in Ef, Hn, Hw, V, Hf.
  exists r'. split_and!; try done.
  - intros k Hk. rewrite (queued_view _ _ _ (V k ltac:(lia))).
    rewrite (proj2 (Z.ltb_lt k _)), (proj2 (Z.leb_gt f k)) by lia. done.
  - intros i Hi. rewrite (queued_view _ _ _ (V (f + i) ltac:(lia))).
    rewrite (proj2 (Z.leb_le _ _)), (proj2 (Z.ltb_lt _ _)) by lia. cbn [andb fresh_slot ss_occupied ss_last].
    by replace (f + i - f) with i by lia.
Qed.

(** ** Acknowledgements *)

(** The ring with its base moved [n] fragments on. *)
Definition rebase (r : SendRing) (n bytes acked cursor : Z) (nb : option Z) : SendRing :=
  r <| sr_acked_bytes := bytes |> <| sr_acked := acked |> <| sr_base := spos r n |>
    <| sr_cursor := cursor |> <| sr_nack_below := nb |>.

Section rebase.
  Context (r : SendRing) (W : send_wf r) (n : Z) (Hn : 0 <= n <= SendRing_in_flight r).
  Context (bytes acked cursor : Z) (Hc : fits 32 cursor)
    (Hcur : seq_distance (spos r n) cursor <= SendRing_in_flight r - n).
  Context (nb : option Z).
Let r' := rebase r n bytes acked cursor nb.

Lemma rebase_spos k : spos r' k = spos r (n + k).
Proof. apply wadd_assoc. Qed.

Lemma rebase_bytes k : slot_bytes r' k = slot_bytes r (k + n).
Proof. unfold slot_bytes. rewrite rebase_spos, Z.add_comm. done. Qed.

Lemma rebase_queued k : queued r' k = queued r (n + k).
Proof. unfold queued. by rewrite rebase_spos. Qed.

Lemma rebase_in_flight : SendRing_in_flight r' = SendRing_in_flight r - n.
Proof. exact (seq_distance_shift _ _ n (sw_base r W) (sw_next r W) Hn). Qed.

Lemma rebase_wf : send_wf r'.
Proof.
  pose proof rebase_in_flight as Ef. pose proof (in_flight_bounds r W) as Hf. destruct W as [[]].
  split; try done; cbn [r' rebase sr_meta sr_base sr_next sr_cursor set_field].
  - apply spos_fits.
  - change (SendRing_in_flight r' <= zlen (sr_meta r)). lia.
  - change (seq_distance (spos r n) cursor <= SendRing_in_flight r'). by rewrite Ef.
Qed.

Lemma rebase_unacked : unacked_bytes r = zsum (Z.to_nat n) 0 (slot_bytes r) + unacked_bytes r'.
Proof.
  unfold unacked_bytes. rewrite rebase_in_flight.
  replace (Z.to_nat (SendRing_in_flight r))
    with (Z.to_nat n + Z.to_nat (SendRing_in_flight r - n))%nat by lia.
  rewrite zsum_app. f_equal. rewrite zsum_shift. apply zsum_ext. intros j _.
  rewrite rebase_bytes. f_equal. lia.
Qed.
End rebase.

(** The bytes the advance covers are counted when it happens. *)
Definition ack_counted (r : SendRing) (n : Z) : Z :=
  if n =? 0 then sr_acked_bytes r
  else sat_add 64 (sr_acked_bytes r) (zsum (Z.to_nat n) 0 (slot_bytes r)).

(** The trigger test of [on_ack] passes a sequence that was in flight before
    the advance, or, with nothing in flight, the one half the space away. *)
Lemma trigger_test r t :
  send_wf r -> fits 32 t -> seq_lt t (sr_base r) || seq_ge t (sr_next r) = false ->
  soff r t < SendRing_in_flight r \/ SendRing_in_flight r = 0 /\ soff r t = HALF.
Proof.
  intros W Ht [H1 H2]%orb_false_iff. pose proof (in_flight_bounds r W).
  pose proof (sg_slots r (sw_geom r W)). pose proof (soff_fits r t) as F. unfold fits in F.
  rewrite seq_lt_distance in H1 by auto with lowlat. apply Z.ltb_ge in H1. fold (soff r t) in H1.
  rewrite <- (spos_soff r t), <- (spos_soff r (sr_next r)) in H2 by auto with lowlat.
  unfold spos in H2. rewrite <- in_flight_soff in H2. unfold HALF in *.
  destruct (Z.eq_dec (soff r t - SendRing_in_flight r) (2 ^ 31)); [lia|].
  rewrite seq_ge_offset in H2 by (unfold HALF; lia). lia.
Qed.

Lemma on_ack_shape r ack now :
  send_wf r -> ack_fits ack ->
  let n := ack_advance r ack in
  exists acked cursor nb,
    let r1 := rebase r n (ack_counted r n) acked cursor nb in
    fits 32 cursor /\ seq_distance (spos r n) cursor <= SendRing_in_flight r - n /\
    (SendRing_on_ack r ack now = (r1, None) \/
     exists j slot sample,
       0 <= j /\ (j < SendRing_in_flight r \/ SendRing_in_flight r = 0) /\
       ack_trigger_seq ack = spos r j /\
       get_at (sr_meta r) (SendRing_index r (spos r j)) = Some slot /\
       ss_occupied slot = true /\ ss_sent slot = true /\
       (forall x, sample = Some x -> f64_is_finite x = true /\ f64_geb x f64_zero = true) /\
       SendRing_on_ack r ack now =
         (let r2 := r1 <| sr_meta := put_at (sr_meta r) (SendRing_index r (spos r j))
                                       (slot <| ss_occupied := false |>) |> in
          if (n <=? j) && (j <? SendRing_in_flight r)
          then r2 <| sr_acked_bytes ::= fun b => sat_add 64 b (ss_len slot) |> else r2, sample)).
Proof.
  intros W Ha n. destruct (apply_cumulative_effect r ack W Ha) as (acked & cursor & E & Hc & Hcur).
  fold n in E, Hcur. fold (ack_counted r n) in E.
  pose proof (ack_advance_bounds r ack W) as Hn. fold n in Hn. destruct Ha as [_ Ht].
  set (nb := if ack_nack ack && (ack_trigger_channel ack =? sr_channel r)
             then Some (ack_trigger_seq ack) else sr_nack_below r).
  exists acked, cursor, nb. cbv zeta. split_and!; [done..|].
  unfold SendRing_on_ack. rewrite E. cbn [sr_channel set_field].
  replace (if ack_nack ack && (ack_trigger_channel ack =? sr_channel r) then _ else _)
    with (rebase r n (ack_counted r n) acked cursor nb)
    by (unfold nb; destruct (_ && _); by destruct r).
  cbn [sr_channel sr_base sr_meta rebase set_field].
  destruct (negb _); [by left|].
  change (sr_next (rebase _ _ _ _ _ _)) with (sr_next r).
  destruct (seq_lt _ _ || seq_ge _ _) eqn:Etest; [by left|].
  pose proof (trigger_test r _ W Ht Etest) as Hj. set (j := soff r (ack_trigger_seq ack)) in *.
  assert (0 <= j) by apply soff_fits.
  assert (ack_trigger_seq ack = spos r j) as Ej by (symmetry; apply spos_soff; auto with lowlat).
  change (SendRing_index (rebase _ _ _ _ _ _)) with (SendRing_index r).
  rewrite Ej. destruct (get_at _ _) as [slot|] eqn:Eslot; [|by left].
  destruct (ss_occupied slot) eqn:Eo; [|by left]. destruct (ss_sent slot) eqn:Es; [|by left].
  cbn [negb orb]. right. pose proof (in_flight_bounds r W). pose proof (sg_slots r (sw_geom r W)).
  assert (seq_ge (spos r j) (spos r n) = (n <=? j) && (j <? SendRing_in_flight r)) as ->.
  { unfold spos. destruct Hj as [Hj|[Hf ->]].
    - rewrite seq_ge_offset by (unfold HALF in *; lia). rewrite (proj2 (Z.ltb_lt j _)) by done.
      by rewrite andb_true_r.
    - replace n with 0 by lia. rewrite Hf. unfold seq_ge. by rewrite wsub_wadd2. }
  exists j, slot. eexists. split_and!; try done; [lia|].
  intros x. destruct (f64_is_finite _) eqn:?; [|done]. destruct (f64_geb _ _) eqn:?; [|done].
  by intros [= <-].
Qed.

(** ** Every byte counted once *)

Lemma slot_bytes_cleared r i slot k :
  send_geom r -> get_at (sr_meta r) i = Some slot -> 0 <= i < zlen (sr_meta r) ->
  slot_bytes (r <| sr_meta := put_at (sr_meta r) i (slot <| ss_occupied := false |>) |>) k
    = if SendRing_index r (spos r k) =? i then 0 else slot_bytes r k.
Proof.
  intros G Hi Hb. pose proof (send_index_bounds r G (spos r k)).
  unfold slot_bytes, SendRing_index, spos in *. cbn [sr_meta sr_base set_field]. rewrite zlen_put_at.
  destruct (Z.eqb_spec (wadd 32 (sr_base r) k mod zlen (sr_meta r)) i) as [->|Hne].
  - by rewrite get_put_at_eq.
  - by rewrite get_put_at_ne by lia.
Qed.

Lemma queued_cleared r i slot k :
  send_geom r -> get_at (sr_meta r) i = Some slot -> 0 <= i < zlen (sr_meta r) ->
  queued (r <| sr_meta := put_at (sr_meta r) i (slot <| ss_occupied := false |>) |>) k
    = if SendRing_index r (spos r k) =? i then None else queued r k.
Proof.
  intros G Hi Hb. pose proof (send_index_bounds r G (spos r k)).
  unfold queued, slot_view, SendRing_index, spos in *. cbn [sr_meta sr_base sr_bodies sr_slot_len set_field].
  rewrite zlen_put_at. destruct (Z.eqb_spec (wadd 32 (sr_base r) k mod zlen (sr_meta r)) i) as [->|Hne].
  - rewrite get_put_at_eq by done. cbn. by destruct (get_range _ _ _).
  - by rewrite get_put_at_ne by lia.
Qed.

Lemma cleared_wf r i slot :
  send_wf r -> get_at (sr_meta r) i = Some slot ->
  send_wf (r <| sr_meta := put_at (sr_meta r) i (slot <| ss_occupied := false |>) |>).
Proof.
  intros [[? ? ? ? Hm] ? ? ? ? ? ? ?] Hi. rewrite Forall_lookup in Hm.
  split; [split|..]; cbn [sr_meta sr_base sr_next sr_cursor sr_bodies sr_slot_len sr_channel
    sr_peer_depth sr_outstanding set_field]; rewrite ?zlen_put_at; try done.
  apply Forall_insert; [by apply Forall_lookup|]. exact (Hm _ _ Hi).
Qed.

Lemma counted_wf r f : send_wf r -> send_wf (r <| sr_acked_bytes ::= f |>).
Proof. intros [[] ]. by split. Qed.

Lemma ack_counted_eq r n :
  send_wf r -> 0 <= sr_acked_bytes r -> 0 <= n <= SendRing_in_flight r ->
  sr_acked_bytes r + unacked_bytes r < 2 ^ 64 ->
  ack_counted r n = sr_acked_bytes r + zsum (Z.to_nat n) 0 (slot_bytes r).
Proof.
  intros W Ha Hn Hs. unfold ack_counted. destruct (Z.eqb_spec n 0) as [->|]; [change (Z.to_nat 0) with 0%nat; cbn [zsum]; lia|].
  pose proof (rebase_unacked r W n Hn 0 0 0 None) as E.
  pose proof (zsum_bounds (Z.to_nat (SendRing_in_flight (rebase r n 0 0 0 None))) 0
    (slot_bytes (rebase r n 0 0 0 None)) (sr_slot_len r)) as Hb.
  unfold sat_add. rewrite Z.min_l; [done|]. unfold unacked_bytes in E at 2.
  enough (0 <= zsum (Z.to_nat (SendRing_in_flight (rebase r n 0 0 0 None))) 0
    (slot_bytes (rebase r n 0 0 0 None))) by lia.
  apply Hb. intros k. rewrite (rebase_bytes r n 0 0 0 None). apply slot_bytes_bounds, W.
Qed.

(** Clearing the fragment an acknowledgement names takes its bytes out of the
    unacknowledged ones if it was still past the base, and nothing otherwise. *)
Lemma unacked_cleared r n j slot bytes acked cursor nb :
  send_wf r -> window_inj (zlen (sr_meta r)) (sr_base r) -> 0 <= n <= SendRing_in_flight r ->
  0 <= j -> (j < SendRing_in_flight r \/ SendRing_in_flight r = 0) ->
  get_at (sr_meta r) (SendRing_index r (spos r j)) = Some slot -> ss_occupied slot = true ->
  let r1 := rebase r n bytes acked cursor nb in
  unacked_bytes r1 =
    unacked_bytes (r1 <| sr_meta := put_at (sr_meta r) (SendRing_index r (spos r j))
                                      (slot <| ss_occupied := false |>) |>)
    + if (n <=? j) && (j <? SendRing_in_flight r) then ss_len slot else 0.
Proof.
  intros W Hinj Hn Hj Hjf Hslot Ho r1. pose proof (in_flight_bounds r W) as Hf.
  set (r2 := r1 <| sr_meta := _ |>). unfold unacked_bytes.
  change (SendRing_in_flight r2) with (SendRing_in_flight r1).
  unfold r1 at 1 3. rewrite rebase_in_flight by done.
  pose proof (send_index_bounds r (sw_geom r W) (spos r j)) as Hi.
  assert (forall k, slot_bytes r2 k =
    if SendRing_index r (spos r (n + k)) =? SendRing_index r (spos r j) then 0 else slot_bytes r1 k) as H2.
  { intros k. unfold r2. rewrite (slot_bytes_cleared r1 _ slot k).
    - unfold r1. by rewrite rebase_spos.
    - destruct (sw_geom r W). by split.
    - done.
    - done. }
  assert (forall k, 0 <= k < SendRing_in_flight r - n -> n + k <> j -> slot_bytes r1 k = slot_bytes r2 k) as Hne.
  { intros k Hk Hkj. rewrite H2. destruct (Z.eqb_spec (SendRing_index r (spos r (n + k))) (SendRing_index r (spos r j))) as [E|]; [|done].
    apply Hinj in E; lia. }
  destruct ((n <=? j) && (j <? SendRing_in_flight r)) eqn:E.
  - assert (n <= j < SendRing_in_flight r) as Hb by (revert E; zcases; lia).
    apply (zsum_change _ _ (j - n)); [lia| |intros; apply Hne; lia].
    rewrite H2. replace (n + (j - n)) with j by lia. rewrite Z.eqb_refl.
    unfold r1. rewrite rebase_bytes. replace (j - n + n) with j by lia.
    unfold slot_bytes. by rewrite Hslot, Ho.
  - rewrite Z.add_0_r. apply zsum_ext. intros k Hk. apply Hne; [lia|]. revert E. zcases; lia.
Qed.

Lemma on_ack_wf r ack now : send_wf r -> ack_fits ack -> send_wf (fst (SendRing_on_ack r ack now)).
Proof.
  intros W Ha. pose proof (ack_advance_bounds r ack W) as Hn.
  destruct (on_ack_shape r ack now W Ha) as (acked & cursor & nb & Hc & Hcur & H).
  pose proof (rebase_wf r W _ Hn (ack_counted r (ack_advance r ack)) acked cursor Hc Hcur nb) as W1.
  destruct H as [->|(j & slot & sample & _ & _ & _ & Hslot & _ & _ & _ & ->)]; [done|]. cbn [fst].
  pose proof (cleared_wf _ _ slot W1 Hslot) as W2. destruct (_ && _); [by apply counted_wf|done].
Qed.

(** Acknowledgements.  Whatever a peer sends, the base moves forward by
    what the acknowledgement covers and never past the next sequence; the
    fragments past it keep their bytes, except the one the acknowledgement
    names; and no byte is counted twice or lost: acknowledged plus
    unacknowledged bytes stay the same.  A round-trip sample is finite and not
    negative. *)
Theorem on_ack_correct (r : SendRing) (ack : Ack) (now_ms : f64) :
  send_wf r -> window_inj (zlen (sr_meta r)) (sr_base r) -> ack_fits ack ->
  0 <= sr_acked_bytes r -> sr_acked_bytes r + unacked_bytes r < 2 ^ 64 ->
  let n := ack_advance r ack in
  let '(r', sample) := SendRing_on_ack r ack now_ms in
  send_wf r' /\ 0 <= n <= SendRing_in_flight r /\
  sr_base r' = spos r n /\ sr_next r' = sr_next r /\
  sr_acked_bytes r' + unacked_bytes r' = sr_acked_bytes r + unacked_bytes r /\
  (forall k, n <= k < SendRing_in_flight r ->
     queued r' (k - n) = queued r k \/
     (spos r k = ack_trigger_seq ack /\ queued r' (k - n) = None)) /\
  (forall x, sample = Some x -> f64_is_finite x = true /\ f64_geb x f64_zero = true).
Proof.
  intros W Hinj Ha H0 Hs n. pose proof (on_ack_wf r ack now_ms W Ha) as W'.
  pose proof (ack_advance_bounds r ack W) as Hn. fold n in Hn. pose proof (in_flight_bounds r W) as Hf.
  destruct (on_ack_shape r ack now_ms W Ha) as (acked & cursor & nb & Hc & Hcur & H). fold n in Hcur, H.
  pose proof (ack_counted_eq r n W H0 Hn Hs) as Ec.
  pose proof (rebase_unacked r W n Hn (ack_counted r n) acked cursor nb) as Eu.
  set (r1 := rebase r n (ack_counted r n) acked cursor nb) in *.
  assert (forall k, n <= k -> queued r1 (k - n) = queued r k) as Hq.
  { intros k Hk. unfold r1. rewrite rebase_queued. f_equal. lia. }
  destruct H as [H|(j & slot & sample & Hj & Hjf & Ht & Hslot & Ho & _ & Hsample & H)];
    rewrite H in W' |- *; cbn [fst] in W'.
  { split_and!; try done; try lia; [change (sr_acked_bytes r1) with (ack_counted r n); lia|].
    intros k Hk. left. apply Hq. lia. }
  pose proof (unacked_cleared r n j slot (ack_counted r n) acked cursor nb W Hinj Hn Hj Hjf Hslot Ho) as Ed.
  cbv zeta in Ed. fold r1 in Ed. pose proof (zsum_bounds (Z.to_nat n) 0 (slot_bytes r) (sr_slot_len r)
    (fun k => slot_bytes_bounds r k (sw_geom r W))) as Hz.
  set (r2 := r1 <| sr_meta := _ |>) in *.
  assert (0 <= unacked_bytes r2) as Hu2.
  { apply (zsum_bounds _ _ _ (sr_slot_len r2)). intros k. apply slot_bytes_bounds.
    destruct ((n <=? j) && _); destruct (sw_geom _ W'); by split. }
  assert (forall k, n <= k < SendRing_in_flight r -> queued r2 (k - n) = queued r k \/
            (spos r k = ack_trigger_seq ack /\ queued r2 (k - n) = None)) as Hq2.
  { intros k Hk. unfold r2. rewrite (queued_cleared r1 _ slot);
      [|destruct (sw_geom r W); by split|done|exact (send_index_bounds r (sw_geom r W) _)].
    rewrite (rebase_spos r n (ack_counted r n) acked cursor nb). replace (n + (k - n)) with k by lia.
    change (SendRing_index r1) with (SendRing_index r).
    destruct (Z.eqb_spec (SendRing_index r (spos r k)) (SendRing_index r (spos r j))) as [E|E]; [|left; apply Hq; lia].
    apply Hinj in E; [|lia..]. subst k. by right. }
  revert Ed W'. destruct ((n <=? j) && (j <? SendRing_in_flight r)); intros Ed W'; cbv iota in Ed;
    split_and!; try done; try lia.
  - change (sat_add 64 (ack_counted r n) (ss_len slot) + unacked_bytes r2 = sr_acked_bytes r + unacked_bytes r).
    unfold sat_add. lia.
  - change (ack_counted r n + unacked_bytes r2 = sr_acked_bytes r + unacked_bytes r). lia.
Qed.

(** ** Concrete rings *)

(** Four slots of eight bytes on channel 3. *)
Definition sring0 : SendRing :=
  mkSendRing (repeat 0 32) (repeat SendSlot_default 4) 8 3 0 0 0 None 0 0 4 0 0 0 0 0 0.

Lemma sring0_wf : send_wf sring0.
Proof.
  apply (send_new_wf (repeat 0 32) (repeat SendSlot_default 4) 8 3); try done.
  repeat constructor; by vm_compute.
Qed.

Lemma sring0_inj : window_inj (zlen (sr_meta sring0)) (sr_base sring0).
Proof. by apply window_inj_nowrap; vm_compute. Qed.

Definition sring2 : SendRing := fst (SendRing_enqueue sring0 sample_message (f64_of_Z 20)).

Lemma enqueue_correct_witness : exists r',
  SendRing_enqueue sring0 sample_message (f64_of_Z 20) = (r', Ok 2) /\
  queued r' 1 = Some (true, [5; 6]).
Proof.
  destruct (enqueue_correct sring0 sample_message (f64_of_Z 20) sring0_wf sring0_inj eq_refl) as [_ H].
  destruct H as (r' & E & _ & _ & _ & _ & Hq); [by vm_compute|].
  exists r'. split; [exact E|]. exact (Hq 1 ltac:(by vm_compute)).
Defined.

Definition sack : Ack := mkAck AckKind_Ack false 3 0 (replicate 19 1) 19.

Lemma on_ack_correct_witness :
  let '(r', _) := SendRing_on_ack sring2 sack (f64_of_Z 30) in
  sr_base r' = 1 /\ sr_acked_bytes r' + unacked_bytes r' = 10.
Proof.
  pose proof (on_ack_correct sring2 sack (f64_of_Z 30)
    (enqueue_wf sring0 sample_message (f64_of_Z 20) sring0_wf sring0_inj eq_refl) sring0_inj) as H.
  destruct (SendRing_on_ack sring2 sack (f64_of_Z 30)) as [r' x].
  destruct H as (_ & _ & Eb & _ & Ea & _).
  - split; [|by vm_compute]. repeat constructor; by vm_compute.
  - by vm_compute.
  - by vm_compute.
  - split; [rewrite Eb; reflexivity|rewrite Ea; reflexivity].
Defined.
