(* ===== verification/SendPoll.v ===== *)
(** The retransmission scan: what one poll emits, and what a whole pass does. *)

From S2P Require Import Prelude CoreError Seq Packet Message Channel ChannelFacts Float64 Congestion.
From S2P Require Import Send SendFacts SendSpec.

(** Whether the scan wants to send the fragment [k] past the base. *)
Definition slot_due (r : SendRing) (k : Z) (m : SendSlot) (now_ms srtt_ms : f64) : bool :=
  negb (ss_sent m) || slot_nacked r (spos r k) m
  || f64_gtb (f64_sub now_ms (ss_last_sent_ms m)) (SendRing_rto_ms (ss_retransmits m) srtt_ms).

(** The ring with the scan at [k] and the pass counters as given. *)
Definition scanned (r : SendRing) (o s k : Z) : SendRing :=
  r <| sr_outstanding := o |> <| sr_stale := s |> <| sr_cursor := spos r k |>.

(** The ring once the fragment at [k] has gone out. *)
Definition emitted (r : SendRing) (o s k : Z) (m : SendSlot) (now_ms srtt_ms : f64) (level : Level) : SendRing :=
  let index := SendRing_index r (spos r k) in
  let nacked := slot_nacked r (spos r k) m in
  bump_cursor (SendRing_classify
    (count_sent (scanned r o s k <| sr_meta := put_at (sr_meta r) index (mark_sent m nacked now_ms) |>)
       (ss_sent m) nacked (ss_len m)) index now_ms srtt_ms level).

(** Why the scan passed a fragment by: acknowledged by itself, not due, or the
    outstanding cap was reached. *)
Definition passed_by (r : SendRing) (i o : Z) (now_ms srtt_ms : f64) : Prop :=
  forall m, get_at (sr_meta r) (SendRing_index r (spos r i)) = Some m -> ss_occupied m = true ->
    OUTSTANDING_CAP <= o \/ slot_due r i m now_ms srtt_ms = false.

Section scan.
  Context (r : SendRing) (W : send_wf r) (now srtt : f64) (level : Level) (out : list Z).
Let F := SendRing_in_flight r.

Lemma classify_scanned o s k i :
  exists s', SendRing_classify (scanned r o s k) i now srtt level = scanned r o s' k.
Proof.
  unfold SendRing_classify. destruct (get_at _ _) as [m|]; [|by exists s].
  destruct (negb _); [by exists s|]. destruct (slot_is_stale _ _ _ _); [|by exists s].
  by exists (sat_add 32 s 1).
Qed.

Lemma bump_scanned o s k : bump_cursor (scanned r o s k) = scanned r o s (k + 1).
Proof.
  unfold scanned at 2.
  by rewrite <- (wadd_assoc 32 (sr_base r) k 1 : wadd 32 (spos r k) 1 = spos r (k + 1)).
Qed.

(** What the scan from [c] on comes to. *)
Definition scan_result (o0 c : Z) (res : SendRing * list Z * option (result Z)) : Prop :=
  exists o s k, c <= k <= F /\ o0 <= o <= o0 + (k - c) /\ fits 32 o /\
    (forall i, c <= i < k -> passed_by r i o now srtt) /\
    ((k = F /\ res = (end_pass (scanned r o s k), out, None)) \/
     (k < F /\ o < OUTSTANDING_CAP /\ exists m body,
        slot_view r (SendRing_index r (spos r k)) = Some (m, body) /\ ss_occupied m = true /\
        slot_due r k m now srtt = true /\
        res = match encode_data out (mkData (sr_channel r) (spos r k) (ss_last m) body) with
              | (out', Err e) => (scanned r o s k, out', Some (Err e))
              | (out', Ok written) => (emitted r o s k m now srtt level, out', Some (Ok written))
              end)).

Lemma scan_result_step o0 o1 c res :
  scan_result o1 (c + 1) res -> o0 <= o1 <= o0 + 1 ->
  (forall m, get_at (sr_meta r) (SendRing_index r (spos r c)) = Some m -> ss_occupied m = true ->
     OUTSTANDING_CAP <= o1 \/ slot_due r c m now srtt = false) ->
  scan_result o0 c res.
Proof.
  intros (o & s & k & Hk & Ho & Hf & Hp & H) Hle Hc.
  exists o, s, k. split_and!; [lia..|done| |done].
  intros i Hi. destruct (Z.eq_dec i c) as [->|]; [|apply Hp; lia].
  intros m Hm Hocc. destruct (Hc m Hm Hocc); [left; lia|by right].
Qed.

Lemma due_test c m :
  (if negb (ss_sent m) then true else if slot_nacked r (spos r c) m then true
   else f64_gtb (f64_sub now (ss_last_sent_ms m)) (SendRing_rto_ms (ss_retransmits m) srtt))
  = slot_due r c m now srtt.
Proof. unfold slot_due. by destruct (ss_sent m), (slot_nacked r (spos r c) m). Qed.

(** The checked arithmetic that finds a fragment's bytes finds them. *)
Lemma slot_bytes_found i m :
  let index := SendRing_index r (spos r i) in
  get_at (sr_meta r) index = Some m ->
  exists body, slot_view r index = Some (m, body) /\
    checked_mul USIZE index (sr_slot_len r) = Some (index * sr_slot_len r) /\
    checked_add USIZE (index * sr_slot_len r) (ss_len m) = Some (index * sr_slot_len r + ss_len m) /\
    get_range (sr_bodies r) (index * sr_slot_len r) (index * sr_slot_len r + ss_len m) = Some body.
Proof.
  intros index Hm. pose proof (send_index_bounds r (sw_geom r W) (spos r i)) as Hi. fold index in Hi.
  destruct (slot_view_get r (sw_geom r W) index m Hi Hm) as (body & Hv & _).
  pose proof (send_region r (sw_geom r W) index Hi) as (? & ? & ?). pose proof (send_meta_len r (sw_geom r W) _ m Hm).
  exists body. split; [done|]. unfold checked_mul, checked_add.
  rewrite !(proj2 (Z.ltb_lt _ _)) by lia. split_and!; try done.
  unfold slot_view in Hv. rewrite Hm in Hv. cbn [mbind option_bind] in Hv.
  destruct (get_range (sr_bodies r) _ _) as [body'|]; [|done]. by injection Hv as ->.
Qed.

Lemma poll_loop_scan fuel o s c :
  0 <= c <= F -> Z.of_nat fuel = F - c -> fits 32 o ->
  scan_result o c (poll_loop fuel (scanned r o s c) now srtt level out).
Proof.
  pose proof (in_flight_bounds r W) as HF. fold F in HF. pose proof (sg_slots r (sw_geom r W)) as Hs.
  unfold HALF in Hs. revert o s c. induction fuel as [|fuel IH]; intros o s c Hc Hfuel Ho.
  - assert (c = F) as -> by lia. cbn [poll_loop].
    replace (sr_cursor (scanned r o s F) =? sr_next (scanned r o s F)) with true.
    2: { symmetry. apply Z.eqb_eq. change (spos r F = sr_next r). apply spos_soff; auto with lowlat. }
    exists o, s, F. split_and!; [lia..|done|intros; lia|by left].
  - cbn [poll_loop].
    assert ((sr_cursor (scanned r o s c) =? sr_next (scanned r o s c)) = false) as ->.
    { apply Z.eqb_neq. change (spos r c <> sr_next r). intros E.
      assert (soff r (spos r c) = F) by (by rewrite E).
      rewrite soff_spos in * by (auto with lowlat; unfold fits; lia). lia. }
    change (sr_cursor (scanned r o s c)) with (spos r c).
    change (SendRing_index (scanned r o s c)) with (SendRing_index r).
    change (sr_meta (scanned r o s c)) with (sr_meta r).
    change (sr_outstanding (scanned r o s c)) with o.
    destruct (send_slot_get r (sw_geom r W) (spos r c)) as [m Hm]. rewrite Hm.
    destruct (ss_occupied m) eqn:Eo; cbn [negb].
    2: { rewrite bump_scanned. eapply scan_result_step; [apply IH; done || lia|lia|].
         intros m' Hm'. rewrite Hm in Hm'. injection Hm' as <-. congruence. }
    destruct (Z.leb_spec OUTSTANDING_CAP o).
    { destruct (classify_scanned o s c (SendRing_index r (spos r c))) as [s' ->].
      rewrite bump_scanned. eapply scan_result_step; [apply IH; done || lia|lia|]. by left. }
    change (slot_nacked (scanned r o s c)) with (slot_nacked r).
    rewrite due_test.
    destruct (slot_due r c m now srtt) eqn:Edue; cbn [negb].
    + destruct (slot_bytes_found c m Hm) as (body & Hv & Emul & Eadd & Eget).
      change (sr_slot_len (scanned r o s c)) with (sr_slot_len r).
      change (sr_bodies (scanned r o s c)) with (sr_bodies r). rewrite Emul, Eadd, Eget.
      exists o, s, c. split_and!; [lia..|done|intros; lia|]. right. split_and!; [lia..|].
      exists m, body. split_and!; try done.
    + set (o1 := if (0 <? ss_retransmits m) || ss_nack_resent m then sat_add 32 o 1 else o).
      replace (if (0 <? ss_retransmits m) || ss_nack_resent m then _ else scanned r o s c)
        with (scanned r o1 s c) by (unfold o1; by destruct (_ || _)).
      assert (o <= o1 <= o + 1 /\ fits 32 o1) as [? ?].
      { unfold o1, sat_add, fits in *. destruct (_ || _); lia. }
      destruct (classify_scanned o1 s c (SendRing_index r (spos r c))) as [s' ->].
      rewrite bump_scanned. eapply scan_result_step; [apply IH; done || lia|lia|].
      intros m' Hm' _. right. congruence.
Qed.

Lemma poll_send_scan level_index :
  level = congestion_level level_index ->
  scan_result (sr_outstanding r) (soff r (sr_cursor r)) (SendRing_poll_send r now srtt level_index out).
Proof.
  intros Hl. unfold SendRing_poll_send. rewrite <- Hl.
  pose proof (sw_scan r W) as Hs. rewrite <- in_flight_soff in Hs.
  pose proof (soff_fits r (sr_cursor r)) as Fc. unfold fits in Fc.
  assert (scanned r (sr_outstanding r) (sr_stale r) (soff r (sr_cursor r)) = r) as Er.
  { unfold scanned. rewrite spos_soff by auto with lowlat. by destruct r. }
  pose proof (poll_loop_scan (Z.to_nat (seq_distance (sr_cursor r) (sr_next r)))
    (sr_outstanding r) (sr_stale r) (soff r (sr_cursor r))) as H.
  rewrite Er in H. apply H; [fold F in Hs; lia| |apply (sw_outstanding r W)].
  rewrite Z2Nat.id by apply seq_distance_fits.
  rewrite <- (spos_soff r (sr_cursor r)) at 1 by auto with lowlat.
  apply seq_distance_shift; [auto with lowlat..|]. split; [lia|exact Hs].
Qed.
End scan.

(** ** One poll *)

(** The ring after an emission, field by field. *)
Definition after_send (r : SendRing) (o s k : Z) (meta : list SendSlot) (bs ps nr tr : Z) : SendRing :=
  r <| sr_outstanding := o |> <| sr_stale := s |> <| sr_cursor := spos r k |> <| sr_meta := meta |>
    <| sr_bytes_sent := bs |> <| sr_packets_sent := ps |> <| sr_nack_resends := nr |>
    <| sr_timeout_resends := tr |>.

Lemma classify_stale r i now srtt level :
  exists s, SendRing_classify r i now srtt level = r <| sr_stale := s |>.
Proof.
  unfold SendRing_classify.
  assert (r = r <| sr_stale := sr_stale r |>) as E by (by destruct r).
  destruct (get_at _ _) as [m|]; [|by exists (sr_stale r)].
  destruct (negb _); [by exists (sr_stale r)|].
  destruct (slot_is_stale _ _ _ _); [|by exists (sr_stale r)]. by exists (sat_add 32 (sr_stale r) 1).
Qed.

Lemma emitted_shape r o s k m now srtt level :
  exists s' bs ps nr tr, emitted r o s k m now srtt level =
    after_send r (sat_add 32 o 1) s' (k + 1)
      (put_at (sr_meta r) (SendRing_index r (spos r k)) (mark_sent m (slot_nacked r (spos r k) m) now))
      bs ps nr tr.
Proof.
  unfold emitted. set (r1 := count_sent _ _ _ _).
  destruct (classify_stale r1 (SendRing_index r (spos r k)) now srtt level) as [s' ->].
  assert (exists bs ps nr tr, r1 = after_send r (sat_add 32 o 1) s k
    (put_at (sr_meta r) (SendRing_index r (spos r k)) (mark_sent m (slot_nacked r (spos r k) m) now)) bs ps nr tr)
    as (bs & ps & nr & tr & ->).
  { exists (sr_bytes_sent r1), (sr_packets_sent r1), (sr_nack_resends r1), (sr_timeout_resends r1).
    unfold r1, count_sent. by destruct (ss_sent m), (slot_nacked r (spos r k) m). }
  exists s', bs, ps, nr, tr.
  unfold after_send at 2.
  by rewrite <- (wadd_assoc 32 (sr_base r) k 1 : wadd 32 (spos r k) 1 = spos r (k + 1)).
Qed.

Lemma mark_sent_keeps m nacked now :
  ss_len (mark_sent m nacked now) = ss_len m /\ ss_last (mark_sent m nacked now) = ss_last m /\
  ss_occupied (mark_sent m nacked now) = ss_occupied m /\ ss_sent (mark_sent m nacked now) = true.
Proof. unfold mark_sent. by destruct m as [? ? ? [] ? ? ? ? ?], nacked. Qed.

Section emission.
  Context (r : SendRing) (W : send_wf r) (o s k bs ps nr tr : Z) (m : SendSlot) (nacked : bool) (now : f64).
  Context (Hk : 0 <= k < SendRing_in_flight r) (Ho : fits 32 o)
    (Hm : get_at (sr_meta r) (SendRing_index r (spos r k)) = Some m).
Let i := SendRing_index r (spos r k).
Let r' := after_send r o s (k + 1) (put_at (sr_meta r) i (mark_sent m nacked now)) bs ps nr tr.

Lemma after_send_wf : send_wf r'.
Proof.
  pose proof (in_flight_bounds r W) as HF. pose proof (sg_slots r (sw_geom r W)) as Hs.
  pose proof (send_meta_len r (sw_geom r W) _ m Hm) as Hl.
  destruct (mark_sent_keeps m nacked now) as (El & _). destruct W as [[]].
  split; [split|..]; cbn [r' after_send sr_meta sr_base sr_next sr_cursor sr_bodies sr_slot_len sr_channel
    sr_peer_depth sr_outstanding set_field]; rewrite ?zlen_put_at; try done.
  - apply Forall_insert; [done|]. by rewrite El.
  - apply spos_fits.
  - change (seq_distance (sr_base r) (spos r (k + 1)) <= SendRing_in_flight r).
    unfold spos. rewrite seq_distance_offset; [lia|done|]. unfold fits, HALF in *. lia.
Qed.

Lemma after_send_index t : SendRing_index r' t = SendRing_index r t.
Proof. unfold SendRing_index. cbn. by rewrite zlen_put_at. Qed.

Lemma after_send_get j :
  get_at (sr_meta r') (SendRing_index r j) =
    if SendRing_index r j =? i then Some (mark_sent m nacked now)
    else get_at (sr_meta r) (SendRing_index r j).
Proof.
  pose proof (send_index_bounds r (sw_geom r W) j). pose proof (send_index_bounds r (sw_geom r W) (spos r k)).
  cbn [r' after_send sr_meta set_field]. fold i in H0.
  destruct (Z.eqb_spec (SendRing_index r j) i) as [->|].
  - by rewrite get_put_at_eq.
  - by rewrite get_put_at_ne by lia.
Qed.

Lemma after_send_queued j : queued r' j = queued r j.
Proof.
  unfold queued. rewrite after_send_index. change (spos r' j) with (spos r j).
  unfold slot_view. rewrite after_send_get.
  change (sr_bodies r') with (sr_bodies r). change (sr_slot_len r') with (sr_slot_len r).
  destruct (Z.eqb_spec (SendRing_index r (spos r j)) i) as [E|]; [|done].
  rewrite E. fold i in Hm. rewrite Hm. cbn [mbind option_bind].
  destruct (mark_sent_keeps m nacked now) as (-> & El & Eo & _).
  destruct (get_range _ _ _); [|done]. cbn [mbind option_bind]. by rewrite El, Eo.
Qed.
End emission.

(** What is asked of a poll's environment: a buffer a fragment fits, and no
    sequence in flight that the wire cannot carry. *)
Definition sendable (r : SendRing) (out : list Z) : Prop :=
  HEADER_LEN + sr_slot_len r <= zlen out < 2 ^ 64 /\
  forall k, 0 <= k < SendRing_in_flight r -> spos r k <> U32_MAX.

Definition slot_data (r : SendRing) (k : Z) (m : SendSlot) (body : list Z) : Data :=
  mkData (sr_channel r) (spos r k) (ss_last m) body.

Lemma encode_sendable r out k m body :
  send_wf r -> sendable r out -> 0 <= k < SendRing_in_flight r ->
  slot_view r (SendRing_index r (spos r k)) = Some (m, body) ->
  exists out', encode_data out (slot_data r k m body) = (out', Ok (HEADER_LEN + zlen body)) /\
    zlen out' = zlen out /\
    packet_parse (take (Z.to_nat (HEADER_LEN + zlen body)) out') = Ok (Packet_Data (slot_data r k m body)).
Proof.
  intros W [Hout Hmax] Hk Hv.
  assert (zlen body <= sr_slot_len r) as Hl.
  { unfold slot_view in Hv. destruct (get_at _ _) as [m'|] eqn:Em; [|done]. cbn [mbind option_bind] in Hv.
    pose proof (send_meta_len r (sw_geom r W) _ m' Em).
    pose proof (send_region r (sw_geom r W) _ (send_index_bounds r (sw_geom r W) (spos r k))) as [? _].
    destruct (get_range _ _ _) as [b|] eqn:Eb; [|done]. injection Hv as <- <-.
    apply get_range_zlen in Eb; lia. }
  assert (data_ok (slot_data r k m body)) as Hd.
  { split; [exact (sg_channel r (sw_geom r W))|]. split; [apply spos_fits|by apply Hmax]. }
  pose proof (zlen_nonneg body). unfold HEADER_LEN in *.
  exists (data_wire (slot_data r k m body) ++ drop (Z.to_nat (7 + zlen body)) out).
  split_and!.
  - apply encode_data_wire; [done|..]; unfold HEADER_LEN; cbn [slot_data d_body]; lia.
  - unfold data_wire, zlen in *. rewrite !length_app, length_drop, length_to_be.
    cbn [length slot_data d_body]. lia.
  - rewrite take_app_length' by (unfold data_wire; rewrite !length_app, length_to_be; unfold zlen; cbn; lia).
    by apply packet_parse_data_wire.
Qed.

(** One poll's outcome: the scan ran off the end, or it stopped at [k] and
    sent that fragment. *)
Definition poll_ended (r : SendRing) (out : list Z) (o k : Z) (res : SendRing * list Z * option (result Z)) : Prop :=
  k = SendRing_in_flight r /\ exists s, res = (end_pass (scanned r o s k), out, None).

Definition poll_sent (r : SendRing) (now srtt : f64) (out : list Z) (o k : Z)
    (res : SendRing * list Z * option (result Z)) : Prop :=
  k < SendRing_in_flight r /\ o < OUTSTANDING_CAP /\
  exists m body out' s bs ps nr tr,
    slot_view r (SendRing_index r (spos r k)) = Some (m, body) /\ ss_occupied m = true /\
    slot_due r k m now srtt = true /\ zlen out' = zlen out /\
    packet_parse (take (Z.to_nat (HEADER_LEN + zlen body)) out') = Ok (Packet_Data (slot_data r k m body)) /\
    res = (after_send r (o + 1) s (k + 1)
             (put_at (sr_meta r) (SendRing_index r (spos r k)) (mark_sent m (slot_nacked r (spos r k) m) now))
             bs ps nr tr, out', Some (Ok (HEADER_LEN + zlen body))).

Lemma poll_step r now srtt li out :
  send_wf r -> sendable r out ->
  exists o k, soff r (sr_cursor r) <= k <= SendRing_in_flight r /\
    sr_outstanding r <= o <= sr_outstanding r + (k - soff r (sr_cursor r)) /\ fits 32 o /\
    (forall i, soff r (sr_cursor r) <= i < k -> passed_by r i o now srtt) /\
    (poll_ended r out o k (SendRing_poll_send r now srtt li out) \/
     poll_sent r now srtt out o k (SendRing_poll_send r now srtt li out)).
Proof.
  intros W Hs. destruct (poll_send_scan r W now srtt _ out li eq_refl) as (o & s & k & Hk & Ho & Hf & Hp & H).
  exists o, k. split_and!; try done; try lia.
  pose proof (soff_fits r (sr_cursor r)) as Fc. unfold fits in Fc, Hf.
  destruct H as [[-> ->]|(Hlt & Hcap & m & body & Hv & Hocc & Hdue & ->)].
  { left. split; [done|]. by exists s. }
  right. split_and!; [done..|].
  destruct (encode_sendable r out k m body W Hs ltac:(lia) Hv) as (out' & E & Hl & Hparse).
  unfold slot_data in E. rewrite E.
  destruct (emitted_shape r o s k m now srtt (congestion_level li)) as (s' & bs & ps & nr & tr & ->).
  exists m, body, out', s', bs, ps, nr, tr. split_and!; try done.
  unfold sat_add. rewrite Z.min_l; [done|]. unfold OUTSTANDING_CAP, WINDOW_FLOOR in Hcap. lia.
Qed.

Lemma slot_view_meta r i m body : slot_view r i = Some (m, body) -> get_at (sr_meta r) i = Some m.
Proof.
  unfold slot_view. destruct (get_at _ _) as [m'|]; [|done]. cbn [mbind option_bind].
  destruct (get_range _ _ _); [|done]. by intros [= -> _].
Qed.

Lemma poll_sent_wf r now srtt out o k r' out' res :
  send_wf r -> 0 <= k -> fits 32 o -> poll_sent r now srtt out o k (r', out', res) ->
  send_wf r' /\ sr_base r' = sr_base r /\ sr_next r' = sr_next r /\
  sr_cursor r' = spos r (k + 1) /\ sr_outstanding r' = o + 1 /\
  (forall j, queued r' j = queued r j).
Proof.
  intros W Hk Ho (Hlt & Hcap & m & body & out1 & s & bs & ps & nr & tr & Hv & _ & _ & _ & _ & E).
  injection E as -> _ _. apply slot_view_meta in Hv.
  assert (fits 32 (o + 1)) by (unfold fits, OUTSTANDING_CAP, WINDOW_FLOOR in *; lia).
  split_and!; try done.
  - apply after_send_wf; done || lia.
  - intros j. by apply after_send_queued.
Qed.

Lemma end_pass_wf r o s k : send_wf r -> fits 32 o -> send_wf (end_pass (scanned r o s k)).
Proof.
  intros W Ho. pose proof (in_flight_bounds r W) as Hf. destruct W as [[]].
  split; cbn [end_pass scanned sr_cursor sr_base set_field]; try done.
  change (seq_distance (sr_base r) (sr_base r) <= SendRing_in_flight r).
  rewrite seq_distance_refl. lia.
Qed.


(** ** A whole pass *)

(** Poll until the scan says [None]: the ring, the datagrams in order, and
    whether the end was reached. *)
Fixpoint run_pass (fuel : nat) (r : SendRing) (now srtt : f64) (li : Z) (out : list Z) :
    SendRing * list (list Z) * bool :=
  match fuel with
  | O => (r, [], false)
  | S fuel' =>
      match SendRing_poll_send r now srtt li out with
      | (r, out, Some (Ok n)) =>
          let '(r, sent, ended) := run_pass fuel' r now srtt li out in
          (r, take (Z.to_nat n) out :: sent, ended)
      | (r, out, Some (Err _)) => (r, [], false)
      | (r, out, None) => (r, [], true)
      end
  end.

(** The datagrams carry fragments of [r] at offsets that grow from [c] on. *)
Fixpoint datagrams_from (r : SendRing) (c : Z) (sent : list (list Z)) : Prop :=
  match sent with
  | [] => True
  | datagram :: rest => exists k last body,
      c <= k < SendRing_in_flight r /\ queued r k = Some (last, body) /\
      packet_parse datagram = Ok (Packet_Data (mkData (sr_channel r) (spos r k) last body)) /\
      datagrams_from r (k + 1) rest
  end.

(** A fragment the pass leaves behind has been on the wire, unless the cap was
    reached. *)
Definition settled (r : SendRing) (i o : Z) : Prop :=
  forall m, get_at (sr_meta r) (SendRing_index r (spos r i)) = Some m -> ss_occupied m = true ->
    OUTSTANDING_CAP <= o \/ ss_sent m = true.

Lemma passed_settled r i o o' now srtt : passed_by r i o now srtt -> o <= o' -> settled r i o'.
Proof.
  intros H Hle m Hm Ho. destruct (H m Hm Ho) as [?|Hdue]; [left; lia|right].
  unfold slot_due in Hdue. by destruct (ss_sent m).
Qed.

Lemma settled_after r i o o' s k bs ps nr tr m nacked now :
  send_wf r -> get_at (sr_meta r) (SendRing_index r (spos r k)) = Some m ->
  settled r i o -> o <= o' ->
  settled (after_send r o' s (k + 1) (put_at (sr_meta r) (SendRing_index r (spos r k)) (mark_sent m nacked now))
             bs ps nr tr) i o'.
Proof.
  intros W Hm H Hle m' Hm' Ho. revert Hm'. rewrite after_send_index.
  change (spos (after_send _ _ _ _ _ _ _ _ _) i) with (spos r i).
  rewrite after_send_get by done. destruct (_ =? _).
  - intros [= <-]. right. apply mark_sent_keeps.
  - intros Hm'. destruct (H m' Hm' Ho); [left; lia|by right].
Qed.

Lemma settled_mono r i o o' : settled r i o -> o <= o' -> settled r i o'.
Proof. intros H Hle m Hm Ho. destruct (H m Hm Ho); [left; lia|by right]. Qed.

Lemma datagrams_from_ext r r' c sent :
  sr_base r' = sr_base r -> sr_next r' = sr_next r -> sr_channel r' = sr_channel r ->
  (forall j, queued r' j = queued r j) -> datagrams_from r' c sent -> datagrams_from r c sent.
Proof.
  intros Eb En Ec Hq. revert c. induction sent as [|d sent IH]; intros c; [done|].
  cbn. unfold SendRing_in_flight, spos. rewrite Eb, En, Ec.
  intros (k & last & body & Hk & E & Hp & H). exists k, last, body. rewrite <- Hq. auto.
Qed.

(** An emission at [k] settles everything up to it. *)
Lemma poll_sent_settled r now srtt out o k r' out' res :
  send_wf r -> poll_sent r now srtt out o k (r', out', res) ->
  (forall i, 0 <= i < k -> settled r i o) -> forall i, 0 <= i < k + 1 -> settled r' i (o + 1).
Proof.
  intros W (_ & _ & m & body & out2 & s & bs & ps & nr & tr & Hv & _ & _ & _ & _ & E) Hset i Hi.
  injection E as -> _ _. apply slot_view_meta in Hv. destruct (Z.eq_dec i k) as [->|].
  - intros m' Hm' _. right. revert Hm'. rewrite after_send_index.
    change (spos (after_send _ _ _ _ _ _ _ _ _) k) with (spos r k).
    rewrite after_send_get by done. rewrite Z.eqb_refl. intros [= <-]. apply mark_sent_keeps.
  - apply (settled_after r i o); [done..|apply Hset; lia|lia].
Qed.

Lemma run_pass_spec fuel r now srtt li out :
  send_wf r -> sendable r out ->
  SendRing_in_flight r - soff r (sr_cursor r) < Z.of_nat fuel ->
  (forall i, 0 <= i < soff r (sr_cursor r) -> settled r i (sr_outstanding r)) ->
  let '(r', sent, ended) := run_pass fuel r now srtt li out in
  ended = true /\ send_wf r' /\ sr_base r' = sr_base r /\ sr_next r' = sr_next r /\
  sr_cursor r' = sr_base r /\
  sr_outstanding r + zlen sent <= sr_outstanding r' /\
  sr_outstanding r' <= sr_outstanding r + (SendRing_in_flight r - soff r (sr_cursor r)) /\
  (sent = [] \/ sr_outstanding r + zlen sent <= OUTSTANDING_CAP) /\
  datagrams_from r (soff r (sr_cursor r)) sent /\
  (forall i, 0 <= i < SendRing_in_flight r -> settled r' i (sr_outstanding r')).
Proof.
  revert r out. induction fuel as [|fuel IH]; intros r out W Hs Hfuel Hset.
  { pose proof (sw_scan r W) as Hsc. rewrite <- in_flight_soff in Hsc. lia. }
  cbn [run_pass]. destruct (poll_step r now srtt li out W Hs) as (o & k & Hk & Ho & Hf & Hp & H).
  pose proof (soff_fits r (sr_cursor r)) as Fc. unfold fits in Fc.
  assert (forall i, 0 <= i < k -> settled r i o) as Hall.
  { intros i Hi. destruct (Z.lt_ge_cases i (soff r (sr_cursor r))).
    - exact (settled_mono r i _ o (Hset i ltac:(lia)) (proj1 Ho)).
    - exact (passed_settled r i o o now srtt (Hp i ltac:(lia)) ltac:(lia)). }
  destruct (SendRing_poll_send r now srtt li out) as [[r1 out1] res1]. destruct H as [(-> & s & E)|H].
  - injection E as -> -> ->. pose proof (end_pass_wf r o s (SendRing_in_flight r) W Hf) as W'.
    split_and!; try done; [change (sr_outstanding r + 0 <= o); lia|cbn; lia|by left].
  - pose proof (poll_sent_settled r now srtt out o k r1 out1 res1 W H Hall) as Hset1.
    destruct (poll_sent_wf r now srtt out o k r1 out1 res1 W ltac:(lia) Hf H) as (W1 & Eb & En & Ec & Eo & Hq).
    destruct H as (Hlt & Hcap & m & body & out2 & s & bs & ps & nr & tr & Hv & Hocc & Hdue & Hl & Hparse & E).
    injection E as E1 -> ->. pose proof (in_flight_bounds r W) as HF.
    pose proof (sg_slots r (sw_geom r W)) as Hsl. unfold HALF in Hsl.
    assert (SendRing_in_flight r1 = SendRing_in_flight r) as Ef by (unfold SendRing_in_flight; by rewrite Eb, En).
    assert (soff r1 (sr_cursor r1) = k + 1) as Ecur.
    { unfold soff. rewrite Eb, Ec. apply soff_spos; [auto with lowlat|]. unfold fits. lia. }
    specialize (IH r1 out2 W1). destruct (run_pass fuel r1 now srtt li out2) as [[r' sent] ended].
    destruct IH as (-> & W' & Eb' & En' & Ec' & Ho' & Hu & Hn & Hd & Hset').
    + destruct Hs as [Hs1 Hs2]. split; [by rewrite Hl, E1|]. rewrite Ef. unfold spos. by rewrite Eb.
    + rewrite Ef, Ecur. lia.
    + by rewrite Ecur, Eo.
    + rewrite zlen_cons. split_and!; try congruence; try lia.
      * right. destruct Hn as [->|Hn]; [rewrite zlen_nil|]; lia.
      * exists k, (ss_last m), body. split_and!; [lia..| |done|].
        -- by rewrite (queued_view _ _ _ Hv), Hocc.
        -- rewrite Ecur in Hd. apply (datagrams_from_ext r r1); try done. by rewrite E1.
      * intros i Hi. apply Hset'. by rewrite Ef.
Qed.

Lemma begin_pass_wf r : send_wf r -> send_wf (SendRing_begin_pass r).
Proof.
  intros W. pose proof (in_flight_bounds r W). destruct W as [[]].
  split; cbn [SendRing_begin_pass sr_cursor sr_base sr_outstanding set_field]; try done.
  change (seq_distance (sr_base r) (sr_base r) <= SendRing_in_flight r).
  rewrite seq_distance_refl. lia.
Qed.

(** C34: a pass, into a buffer with room for a whole packet and with no
    fragment in flight under the last sequence number, at which it would never
    end ([poll_send_wedged]).  Started afresh and polled until it says [None], the scan
    ends within one poll per fragment in flight and one more; it sends at most
    the outstanding cap, each fragment at most once and in order, every
    datagram carrying a fragment in flight; and unless the cap was reached,
    every unacknowledged fragment has been on the wire. *)
Theorem pass_correct (r : SendRing) (now_ms srtt_ms : f64) (level_index : Z) (out : list Z) :
  send_wf r -> sendable r out ->
  let '(r', sent, ended) :=
    run_pass (S (Z.to_nat (SendRing_in_flight r))) (SendRing_begin_pass r) now_ms srtt_ms level_index out in
  ended = true /\ send_wf r' /\ SendRing_in_flight r' = SendRing_in_flight r /\
  zlen sent <= OUTSTANDING_CAP /\ datagrams_from r 0 sent /\
  (sr_outstanding r' < OUTSTANDING_CAP ->
   forall i m, 0 <= i < SendRing_in_flight r ->
     get_at (sr_meta r') (SendRing_index r' (spos r' i)) = Some m -> ss_occupied m = true ->
     ss_sent m = true).
Proof.
  intros W Hs. pose proof (in_flight_bounds r W).
  assert (soff (SendRing_begin_pass r) (sr_cursor (SendRing_begin_pass r)) = 0) as E0
    by exact (seq_distance_refl (sr_base r)).
  pose proof (run_pass_spec (S (Z.to_nat (SendRing_in_flight r))) (SendRing_begin_pass r)
    now_ms srtt_ms level_index out (begin_pass_wf r W) Hs) as HP. rewrite E0 in HP.
  destruct (run_pass _ _ _ _ _ _) as [[r' sent] ended].
  destruct HP as (-> & W' & Eb & En & _ & Ho & _ & Hcap & Hd & Hset).
  - change (SendRing_in_flight r - 0 < Z.of_nat (S (Z.to_nat (SendRing_in_flight r)))). lia.
  - lia.
  - split_and!; try done.
    + unfold SendRing_in_flight. by rewrite Eb, En.
    + destruct Hcap as [->|Hcap]; [by vm_compute|exact Hcap].
    + by apply (datagrams_from_ext r (SendRing_begin_pass r)).
    + intros Hlt i m Hi Hm Hocc. destruct (Hset i Hi m Hm Hocc); [lia|done].
Qed.

(** C38: at the last sequence number the channel is stuck.  When the scan
    reaches a pending fragment whose sequence is all ones, every poll reports
    a malformed packet and leaves the ring as it is, so no later poll gets past
    it either. *)
Theorem poll_send_wedged (r : SendRing) (m : SendSlot) (now_ms srtt_ms : f64) (level_index : Z) (out : list Z) :
  send_wf r -> sr_cursor r = U32_MAX -> sr_cursor r <> sr_next r ->
  get_at (sr_meta r) (SendRing_index r U32_MAX) = Some m -> ss_occupied m = true -> ss_sent m = false ->
  sr_outstanding r < OUTSTANDING_CAP ->
  SendRing_poll_send r now_ms srtt_ms level_index out = (r, out, Some (Err Malformed)).
Proof.
  intros W Hc Hne Hm Hocc Hsent Ho. unfold SendRing_poll_send.
  pose proof (seq_distance_fits (sr_cursor r) (sr_next r)) as Hf. unfold fits in Hf.
  assert (seq_distance (sr_cursor r) (sr_next r) <> 0) as Hd
    by (intros E; apply Hne, seq_distance_0; auto with lowlat).
  replace (Z.to_nat (seq_distance (sr_cursor r) (sr_next r)))
    with (S (Z.to_nat (seq_distance (sr_cursor r) (sr_next r) - 1))) by lia.
  cbn [poll_loop]. rewrite (proj2 (Z.eqb_neq _ _) Hne), Hc, Hm, Hocc. cbn [negb].
  rewrite (proj2 (Z.leb_gt _ _) Ho), Hsent. cbn [negb].
  pose proof (send_index_bounds r (sw_geom r W) U32_MAX) as Hi.
  pose proof (send_region r (sw_geom r W) _ Hi) as (? & ? & ?).
  pose proof (send_meta_len r (sw_geom r W) _ m Hm).
  unfold checked_mul. rewrite (proj2 (Z.ltb_lt (SendRing_index _ _ * _) _)) by lia.
  unfold checked_add. rewrite (proj2 (Z.ltb_lt (_ + ss_len m) _)) by lia.
  rewrite get_range_eq by lia. unfold encode_data. cbn [d_seq d_channel].
  by rewrite Z.eqb_refl, orb_true_r.
Qed.

(** ** Concrete passes *)

Lemma sring2_wf : send_wf sring2.
Proof.
  pose proof (enqueue_wf sring0 sample_message (f64_of_Z 20) sring0_wf sring0_inj eq_refl) as W.
  exact W.
Qed.

Lemma sring2_sendable : sendable sring2 (repeat 0 15).
Proof.
  split; [by vm_compute|]. intros k Hk. change (SendRing_in_flight sring2) with 2 in Hk.
  change (wadd 32 0 k <> U32_MAX). unfold wadd. rewrite wrap_small by (unfold fits; lia).
  unfold U32_MAX. lia.
Qed.


Lemma pass_correct_witness :
  let '(r', sent, ended) :=
    run_pass 3 (SendRing_begin_pass sring2) (f64_of_Z 5) (f64_of_Z 20) 1 (repeat 0 15) in
  ended = true /\ zlen sent = 2 /\ datagrams_from sring2 0 sent.
Proof.
  pose proof (pass_correct sring2 (f64_of_Z 5) (f64_of_Z 20) 1 (repeat 0 15) sring2_wf sring2_sendable) as H.
  change (S (Z.to_nat (SendRing_in_flight sring2))) with 3%nat in H.
  destruct (run_pass 3 (SendRing_begin_pass sring2) (f64_of_Z 5) (f64_of_Z 20) 1 (repeat 0 15))
    as [[r' sent] ended] eqn:E.
  split; [apply H|]. split; [|apply H]. vm_compute in E. by injection E as <- <- <-.
Defined.

(** A ring whose next fragment to send has the last sequence number. *)
Definition sring_last : SendRing :=
  sring2 <| sr_base := U32_MAX |> <| sr_cursor := U32_MAX |> <| sr_next := 1 |>
         <| sr_meta := repeat (fresh_slot 8 false f64_zero) 4 |>.

Lemma sring_last_wf : send_wf sring_last.
Proof.
  destruct sring2_wf as [[]]. split; [split|..]; try done; try (by vm_compute).
  repeat constructor; by vm_compute.
Qed.

Lemma poll_send_wedged_witness :
  SendRing_poll_send sring_last (f64_of_Z 5) (f64_of_Z 20) 1 (repeat 0 15)
    = (sring_last, repeat 0 15, Some (Err Malformed)).
Proof.
  apply (poll_send_wedged sring_last (fresh_slot 8 false f64_zero)); try reflexivity;
    [apply sring_last_wf|by vm_compute].
Defined.
