(* ===== verification/Envelope.v ===== *)
(** The record envelope: authenticated encryption around every media datagram
    (crates/core/src/envelope.rs), and the size limits of crates/core/src/lib.rs.

    The ciphers are code outside the repository.  [Gcm] is what the aes-gcm
    crate's cipher objects offer, [AesGcm] the crate's constructors, [Aead]
    the trait an outside implementation satisfies; [AeadLaws] is what either
    documents. *)

From S2P Require Import Prelude CoreError Crc32 Packet.

Definition MAX_DATAGRAM : Z := 2000.
Definition DEFAULT_DATAGRAM : Z := 1229.
Definition ENVELOPE_LEN : Z := 29.
Definition MAX_CLEARTEXT : Z := MAX_DATAGRAM - ENVELOPE_LEN.
Definition MAGIC : list Z := [0x17; 0xFE; 0xFD].
Definition NONCE_OFFSET : Z := 3.
Definition SIZE_OFFSET : Z := 11.
Definition TAG_OFFSET : Z := 13.
Definition TAG_LEN : Z := 16.
Definition NONCE_LEN : Z := 12.
Definition NONCE_PREFIX_LEN : Z := 4.
Definition COUNTER_LIMIT : Z := 2 ^ 48.
Definition CIPHERTEXT_OFFSET : Z := 29.
Definition SIZE_FIELD_BIAS : Z := 45.

Inductive Cipher := Aes128 | Aes256.

(** [encrypt_in_place_detached] and [decrypt_in_place_detached]: the buffer
    they leave, and the tag or the acceptance. *)
Record Gcm := mkGcm {
  gcm_encrypt : list Z -> list Z -> list Z -> list Z * option (list Z);
  gcm_decrypt : list Z -> list Z -> list Z -> list Z -> list Z * option unit;
}.

Class AesGcm := {
  Aes128Gcm_new : list Z -> Gcm;
  Aes256Gcm_new : list Z -> Gcm;
}.

(** The trait [Aead]. *)
Record Aead := mkAead {
  aead_seal : list Z -> list Z -> list Z * result (list Z);
  aead_open : list Z -> list Z -> list Z -> list Z * result unit;
}.

Inductive Keyed :=
  | Keyed_Aes128 (c : Gcm)
  | Keyed_Aes256 (c : Gcm)
  | Keyed_Lent (cipher : Cipher) (aead : Aead).

Record Envelope := mkEnvelope {
  env_keyed : Keyed;
  env_nonce_prefix : list Z;
}.

Definition Cipher_key_len (c : Cipher) : Z := match c with Aes128 => 16 | Aes256 => 32 end.

Definition Cipher_key (c : Cipher) (material : list Z) : result (list Z) :=
  ok_or (get_range material 0 (Cipher_key_len c)) BadKeyLength.

Definition Cipher_nonce_prefix (c : Cipher) (material : list Z) : result (list Z) :=
  let key_len := Cipher_key_len c in
  ok_or (get_range material key_len (key_len + NONCE_PREFIX_LEN)) BadKeyLength.

Section build.
  Context `{AesGcm}.

Definition Envelope_build (key : list Z) (cipher : Cipher) (nonce_prefix : list Z) : Envelope :=
  let keyed := match cipher with
               | Aes128 => Keyed_Aes128 (Aes128Gcm_new key)
               | Aes256 => Keyed_Aes256 (Aes256Gcm_new key)
               end in
  mkEnvelope keyed nonce_prefix.

Definition Envelope_from_credential (material : list Z) (cipher : Cipher) : result Envelope :=
  key ← Cipher_key cipher material;
  prefix ← Cipher_nonce_prefix cipher material;
  Ok (Envelope_build key cipher prefix).

Definition Envelope_from_key (key : list Z) : result Envelope :=
  if zlen key =? 16 then Ok (Envelope_build key Aes128 (repeat 0 4))
  else if zlen key =? 32 then Ok (Envelope_build key Aes256 (repeat 0 4))
  else Err BadKeyLength.
End build.

Definition Envelope_lent (aead : Aead) (material : list Z) (cipher : Cipher) : result Envelope :=
  prefix ← Cipher_nonce_prefix cipher material;
  Ok (mkEnvelope (Keyed_Lent cipher aead) prefix).

Definition Envelope_cipher (e : Envelope) : Cipher :=
  match env_keyed e with
  | Keyed_Aes128 _ => Aes128
  | Keyed_Aes256 _ => Aes256
  | Keyed_Lent cipher _ => cipher
  end.

Definition Envelope_nonce_bytes (e : Envelope) (counter : Z) : list Z :=
  let nonce := repeat 0 (Z.to_nat NONCE_LEN) in
  put_range (put_range nonce 0 (env_nonce_prefix e)) NONCE_PREFIX_LEN (to_be 8 counter).

(** The three arms of the cipher match in [seal_in_place] and in [open]. *)
Definition keyed_seal (k : Keyed) (nonce body : list Z) : list Z * result (list Z) :=
  match k with
  | Keyed_Aes128 c | Keyed_Aes256 c =>
      match gcm_encrypt c nonce [] body with
      | (body, Some tag) => (body, Ok tag)
      | (body, None) => (body, Err Decrypt)
      end
  | Keyed_Lent _ aead => aead_seal aead nonce body
  end.

Definition keyed_open (k : Keyed) (nonce body tag : list Z) : list Z * result unit :=
  match k with
  | Keyed_Aes128 c | Keyed_Aes256 c =>
      match gcm_decrypt c nonce [] body tag with
      | (body, Some _) => (body, Ok ())
      | (body, None) => (body, Err Decrypt)
      end
  | Keyed_Lent _ aead => aead_open aead nonce body tag
  end.

Definition Envelope_seal_in_place (e : Envelope) (counter plaintext_len : Z) (out : list Z) :
    list Z * result Z :=
  if COUNTER_LIMIT <=? counter then (out, Err Oversized)
  else
  match checked_add USIZE plaintext_len ENVELOPE_LEN with
  | None => (out, Err Oversized)
  | Some total =>
  if MAX_DATAGRAM <? total then (out, Err Oversized)
  else
  match get_range out 0 total, get_range out CIPHERTEXT_OFFSET total with
  | Some _, Some body =>
      let '(body, res) := keyed_seal (env_keyed e) (Envelope_nonce_bytes e counter) body in
      let out := put_range out CIPHERTEXT_OFFSET body in
      match res with
      | Err error => (out, Err error)
      | Ok tag =>
          let out := put_range out 0 MAGIC in
          let out := put_range out NONCE_OFFSET (to_be 8 counter) in
          let size := wadd 16 (default (2 ^ 16 - 1) (try_from 16 plaintext_len)) SIZE_FIELD_BIAS in
          let out := put_range out SIZE_OFFSET (to_be 2 size) in
          let out := put_range out TAG_OFFSET tag in
          (out, Ok total)
      end
  | _, _ => (out, Err BufferTooSmall)
  end
  end.

Definition Envelope_seal (e : Envelope) (counter : Z) (plaintext out : list Z) : list Z * result Z :=
  match checked_add USIZE (zlen plaintext) ENVELOPE_LEN with
  | None => (out, Err Oversized)
  | Some total =>
      match get_range out CIPHERTEXT_OFFSET total with
      | None => (out, Err BufferTooSmall)
      | Some _ =>
          Envelope_seal_in_place e counter (zlen plaintext) (put_range out CIPHERTEXT_OFFSET plaintext)
      end
  end.

Record Opened := mkOpened {
  op_counter : Z;
  op_cleartext : list Z;
}.

Definition Envelope_open (e : Envelope) (datagram out : list Z) : list Z * result Opened :=
  if zlen datagram <? ENVELOPE_LEN then (out, Err ShortDatagram)
  else
  let cleartext_len := zlen datagram - ENVELOPE_LEN in
  match get_range datagram NONCE_OFFSET (NONCE_OFFSET + 8),
        get_range datagram TAG_OFFSET (TAG_OFFSET + TAG_LEN),
        get_range datagram CIPHERTEXT_OFFSET (zlen datagram) with
  | Some counter_bytes, Some tag, Some ciphertext =>
      let counter := from_be counter_bytes in
      match get_range out 0 cleartext_len with
      | None => (out, Err BufferTooSmall)
      | Some _ =>
          let '(body, res) :=
            keyed_open (env_keyed e) (Envelope_nonce_bytes e counter) ciphertext tag in
          let out := put_range out 0 body in
          match res with
          | Err error => (out, Err error)
          | Ok _ => (out, Ok (mkOpened counter body))
          end
      end
  | _, _, _ => (out, Err ShortDatagram)
  end.

(** ** What the ciphers promise *)

(** Authenticated encryption in place, with no associated data: sealing a body
    of bytes keeps its length and yields a sixteen-byte tag; opening accepts
    exactly what sealing produced under the same nonce, and buffers hold
    bytes. *)
Class AeadLaws (k : Keyed) : Prop := {
  seal_total : forall nonce body, zlen nonce = NONCE_LEN -> bytes_ok body ->
    zlen body <= MAX_CLEARTEXT -> exists c tag,
      keyed_seal k nonce body = (c, Ok tag) /\ zlen tag = TAG_LEN /\ zlen c = zlen body /\
      bytes_ok c /\ bytes_ok tag;
  seal_len : forall nonce body c tag, keyed_seal k nonce body = (c, Ok tag) ->
    zlen c = zlen body /\ zlen tag = TAG_LEN;
  open_bytes : forall nonce c tag, bytes_ok c -> bytes_ok (fst (keyed_open k nonce c tag));
  open_sealed : forall nonce body c tag,
    keyed_seal k nonce body = (c, Ok tag) -> keyed_open k nonce c tag = (body, Ok ());
  sealed_open : forall nonce c tag body,
    keyed_open k nonce c tag = (body, Ok ()) -> keyed_seal k nonce body = (c, Ok tag);
}.

(** The crate's cipher objects, wherever they document those laws, satisfy
    them inside an envelope. *)
Class GcmLaws (c : Gcm) : Prop := {
  gcm_total : forall nonce body, zlen nonce = NONCE_LEN -> bytes_ok body ->
    zlen body <= MAX_CLEARTEXT -> exists ct tag,
      gcm_encrypt c nonce [] body = (ct, Some tag) /\ zlen tag = TAG_LEN /\ zlen ct = zlen body /\
      bytes_ok ct /\ bytes_ok tag;
  gcm_len : forall nonce body ct tag, gcm_encrypt c nonce [] body = (ct, Some tag) ->
    zlen ct = zlen body /\ zlen tag = TAG_LEN;
  gcm_bytes : forall nonce ct tag, bytes_ok ct -> bytes_ok (fst (gcm_decrypt c nonce [] ct tag));
  gcm_open_sealed : forall nonce body ct tag,
    gcm_encrypt c nonce [] body = (ct, Some tag) -> gcm_decrypt c nonce [] ct tag = (body, Some ());
  gcm_sealed_open : forall nonce ct tag body,
    gcm_decrypt c nonce [] ct tag = (body, Some ()) -> gcm_encrypt c nonce [] body = (ct, Some tag);
}.

Lemma gcm_keyed_laws c k : GcmLaws c -> k = Keyed_Aes128 c \/ k = Keyed_Aes256 c -> AeadLaws k.
Proof.
  intros L Hk. assert (forall n b, keyed_seal k n b = let '(b, t) := gcm_encrypt c n [] b in
    match t with Some t => (b, Ok t) | None => (b, Err Decrypt) end) as Es.
  { intros. destruct Hk as [-> | ->]; cbn; by destruct (gcm_encrypt _ _ _ _) as [? []]. }
  assert (forall n b t, keyed_open k n b t = let '(b, o) := gcm_decrypt c n [] b t in
    match o with Some _ => (b, Ok ()) | None => (b, Err Decrypt) end) as Eo.
  { intros. destruct Hk as [-> | ->]; cbn; by destruct (gcm_decrypt _ _ _ _ _) as [? []]. }
  split.
  - intros n b Hn Hb Hl. destruct (gcm_total n b Hn Hb Hl) as (ct & tag & E & H).
    exists ct, tag. rewrite Es, E. done.
  - intros n b ct t. rewrite Es. destruct (gcm_encrypt c n [] b) as [b' [t'|]] eqn:E; [|done].
    intros [= -> ->]. by apply gcm_len in E.
  - intros n ct t Hb. rewrite Eo. pose proof (gcm_bytes n ct t Hb) as H.
    by destruct (gcm_decrypt _ _ _ _ _) as [? []].
  - intros n b ct t. rewrite Es, Eo. destruct (gcm_encrypt c n [] b) as [b' [t'|]] eqn:E; [|done].
    intros [= -> ->]. by rewrite (gcm_open_sealed _ _ _ _ E).
  - intros n ct t b. rewrite Es, Eo. destruct (gcm_decrypt c n [] ct t) as [b' [[]|]] eqn:E; [|done].
    intros [= ->]. by rewrite (gcm_sealed_open _ _ _ _ E).
Qed.

(** ** The record *)

Definition record_header (counter size : Z) (tag : list Z) : list Z :=
  MAGIC ++ to_be 8 counter ++ to_be 2 size ++ tag.

Lemma zlen_record_header counter size tag : zlen tag = 16 -> zlen (record_header counter size tag) = 29.
Proof. intros H. unfold record_header. rewrite !zlen_app, !zlen_to_be, H. reflexivity. Qed.

Definition size_field (n : Z) : Z := wadd 16 (default (2 ^ 16 - 1) (try_from 16 n)) SIZE_FIELD_BIAS.

(** An envelope as a credential builds one, over a cipher that keeps its laws. *)
Class EnvelopeOk (e : Envelope) : Prop := {
  env_laws :: AeadLaws (env_keyed e);
  env_prefix_len : zlen (env_nonce_prefix e) = 4;
}.

Lemma nonce_bytes_eq e counter :
  zlen (env_nonce_prefix e) = 4 -> Envelope_nonce_bytes e counter = env_nonce_prefix e ++ to_be 8 counter.
Proof.
  intros H. unfold Envelope_nonce_bytes, NONCE_LEN, NONCE_PREFIX_LEN.
  replace 4 with (0 + zlen (env_nonce_prefix e)) by lia.
  rewrite put_range_twice; [|lia|rewrite H, zlen_to_be; reflexivity].
  rewrite put_range_0. rewrite drop_ge; [by rewrite app_nil_r|].
  rewrite repeat_length, length_app, length_to_be. unfold zlen in H. lia.
Qed.

Lemma nonce_bytes_inj e c1 c2 :
  zlen (env_nonce_prefix e) = 4 -> fits 64 c1 -> fits 64 c2 ->
  Envelope_nonce_bytes e c1 = Envelope_nonce_bytes e c2 -> c1 = c2.
Proof.
  intros H H1 H2. rewrite !nonce_bytes_eq by done. intros E%app_inv_head.
  rewrite <- (from_to_be 8 c1), <- (from_to_be 8 c2) by done. by rewrite E.
Qed.

Lemma zlen_nonce_bytes e counter :
  zlen (env_nonce_prefix e) = 4 -> zlen (Envelope_nonce_bytes e counter) = NONCE_LEN.
Proof. intros H. rewrite nonce_bytes_eq, zlen_app, H, zlen_to_be by done. reflexivity. Qed.

Lemma header_writes h c rest counter size tag :
  zlen h = 29 -> zlen tag = 16 ->
  put_range (put_range (put_range (put_range (h ++ c ++ rest) 0 MAGIC) NONCE_OFFSET (to_be 8 counter))
    SIZE_OFFSET (to_be 2 size)) TAG_OFFSET tag = record_header counter size tag ++ c ++ rest.
Proof.
  intros Hh Ht. unfold record_header. generalize (to_be 8 counter), (length_to_be 8 counter).
  generalize (to_be 2 size), (length_to_be 2 size). intros sz Hsz cnt Hcnt.
  unfold zlen in Hh, Ht. explicit_list Hh. explicit_list Ht. explicit_list Hsz. explicit_list Hcnt.
  reflexivity.
Qed.

Section records.
  Context (e : Envelope) `{!EnvelopeOk e}.

(** Sealing in place: the cleartext [p] sits at the ciphertext offset. *)
Lemma seal_in_place_wire counter h p rest :
  0 <= counter < COUNTER_LIMIT -> zlen h = 29 -> bytes_ok p -> zlen p <= MAX_CLEARTEXT ->
  exists c tag,
    keyed_seal (env_keyed e) (Envelope_nonce_bytes e counter) p = (c, Ok tag) /\
    zlen c = zlen p /\ zlen tag = 16 /\ bytes_ok c /\ bytes_ok tag /\
    Envelope_seal_in_place e counter (zlen p) (h ++ p ++ rest) =
      (record_header counter (size_field (zlen p)) tag ++ c ++ rest, Ok (29 + zlen p)).
Proof.
  intros Hc Hh Hp Hl. pose proof (zlen_nonneg p). pose proof (zlen_nonneg rest).
  destruct (seal_total (Envelope_nonce_bytes e counter) p (zlen_nonce_bytes e counter env_prefix_len) Hp Hl)
    as (c & tag & E & Ht & Hlc & Hbc & Hbt).
  exists c, tag. split_and!; try done. unfold Envelope_seal_in_place, checked_add, MAX_CLEARTEXT, MAX_DATAGRAM, ENVELOPE_LEN in *.
  rewrite (proj2 (Z.leb_gt _ _)), (proj2 (Z.ltb_lt _ (2 ^ 64))), (proj2 (Z.ltb_ge _ _)) by lia.
  assert (zlen (h ++ p ++ rest) = 29 + zlen p + zlen rest) as Hz by (rewrite !zlen_app; lia).
  unfold CIPHERTEXT_OFFSET. rewrite !get_range_eq by lia.
  replace (take (Z.to_nat (zlen p + 29 - 29)) (drop (Z.to_nat 29) (h ++ p ++ rest))) with p.
  2: { rewrite drop_app_length' by (unfold zlen in Hh; lia).
       rewrite take_app_length' by (unfold zlen; lia). done. }
  rewrite E. rewrite put_range_app by done. rewrite drop_app_length' by (unfold zlen in Hlc; lia).
  rewrite header_writes by done. by rewrite Z.add_comm.
Qed.

(** What a successful seal did, whatever the buffer held. *)
Lemma seal_in_place_inv counter n out out' m :
  Envelope_seal_in_place e counter n out = (out', Ok m) ->
  exists h p rest c tag,
    out = h ++ p ++ rest /\ zlen h = 29 /\ zlen p = n /\ m = 29 + n /\ m <= MAX_DATAGRAM /\
    counter < COUNTER_LIMIT /\
    keyed_seal (env_keyed e) (Envelope_nonce_bytes e counter) p = (c, Ok tag) /\
    zlen c = n /\ zlen tag = 16 /\
    out' = record_header counter (size_field n) tag ++ c ++ rest.
Proof.
  unfold Envelope_seal_in_place, checked_add. intros H.
  destruct (Z.leb_spec COUNTER_LIMIT counter); [done|]. destruct (n + ENVELOPE_LEN <? 2 ^ 64); [|done].
  destruct (Z.ltb_spec MAX_DATAGRAM (n + ENVELOPE_LEN)); [done|].
  destruct (get_range out 0 _) as [all|]; [|done].
  destruct (get_range out CIPHERTEXT_OFFSET _) as [p|] eqn:Ep; [|done].
  unfold CIPHERTEXT_OFFSET, ENVELOPE_LEN in *. assert (zlen p = n) as Hp by (apply get_range_zlen in Ep; lia).
  unfold get_range in Ep. destruct (29 <=? n + 29) eqn:E1; [|done]. destruct (n + 29 <=? zlen out) eqn:E2; [|done].
  cbn [andb] in Ep. injection Ep as Ep. apply Z.leb_le in E1, E2.
  destruct (keyed_seal _ _ p) as [c [tag|]] eqn:Ek; [|done]. apply pair_equal_spec in H as [<- [= <-]].
  destruct (seal_len _ _ _ _ Ek) as [Hc Ht].
  assert (out = take 29 out ++ p ++ drop (29 + length p) out) as Eo.
  { rewrite <- (take_drop 29 out) at 1. f_equal. rewrite <- Ep.
    change (Z.to_nat 29) with 29%nat. rewrite <- (take_drop (Z.to_nat (n + 29 - 29)) (drop 29 out)) at 1.
    f_equal. rewrite drop_drop, length_take, length_drop. f_equal. unfold zlen in E2. lia. }
  assert (zlen (take 29 out) = 29) as Hh by (rewrite zlen_take; lia).
  exists (take 29 out), p, (drop (29 + length p) out), c, tag. split_and!; try done; try lia.
  rewrite Eo at 1. rewrite put_range_app by done. rewrite drop_app_length' by (unfold zlen in *; lia).
  by rewrite header_writes.
Qed.

(** Opening reads the counter, the tag and the ciphertext, and nothing else. *)
Lemma open_fields m counter size tag c out :
  zlen m = 3 -> zlen size = 2 -> zlen tag = 16 -> fits 64 counter -> zlen c <= zlen out ->
  Envelope_open e (m ++ to_be 8 counter ++ size ++ tag ++ c) out =
    let '(body, res) := keyed_open (env_keyed e) (Envelope_nonce_bytes e counter) c tag in
    (put_range out 0 body,
     match res with Err error => Err error | Ok _ => Ok (mkOpened counter body) end).
Proof.
  intros Hm Hs Ht Hc Hl. pose proof (zlen_nonneg c). unfold Envelope_open.
  assert (zlen (m ++ to_be 8 counter ++ size ++ tag ++ c) = 29 + zlen c) as Hz
    by (rewrite !zlen_app, zlen_to_be; lia).
  rewrite Hz. unfold ENVELOPE_LEN. rewrite (proj2 (Z.ltb_ge _ _)) by lia.
  rewrite (get_range_mid m) by (rewrite ?zlen_to_be; unfold NONCE_OFFSET; lia).
  replace (m ++ to_be 8 counter ++ size ++ tag ++ c)
    with ((m ++ to_be 8 counter ++ size) ++ tag ++ c) by (by rewrite <- !app_assoc).
  assert (zlen (m ++ to_be 8 counter ++ size) = 13) as H13 by (rewrite !zlen_app, zlen_to_be; lia).
  rewrite (get_range_mid (m ++ to_be 8 counter ++ size)) by (unfold TAG_OFFSET, TAG_LEN; lia).
  replace ((m ++ to_be 8 counter ++ size) ++ tag ++ c)
    with (((m ++ to_be 8 counter ++ size) ++ tag) ++ c ++ []) by (by rewrite app_nil_r, <- !app_assoc).
  rewrite (get_range_mid _ c) by (rewrite ?zlen_app, ?zlen_to_be; unfold CIPHERTEXT_OFFSET; lia).
  rewrite get_range_eq by lia. rewrite from_to_be by done.
  destruct (keyed_open _ _ _ _) as [body []]; done.
Qed.

Lemma put_range_prefix {A} (l s : list A) : zlen s <= zlen l -> take (length s) (put_range l 0 s) = s.
Proof. intros H. rewrite put_range_0, take_app_length. done. Qed.

(** A datagram of record length, by its fields. *)
Lemma record_split d :
  bytes_ok d -> 29 <= zlen d -> exists m counter size tag c,
    d = m ++ to_be 8 counter ++ size ++ tag ++ c /\
    zlen m = 3 /\ fits 64 counter /\ zlen size = 2 /\ zlen tag = 16 /\ zlen c = zlen d - 29.
Proof.
  intros Hb Hl. set (d1 := drop 3 d). set (d2 := drop 8 d1). set (d3 := drop 2 d2).
  exists (take 3 d), (from_be (take 8 d1)), (take 2 d2), (take 16 d3), (drop 16 d3).
  assert (zlen (take 8 d1) = 8) as H8 by (unfold d1; rewrite zlen_take, zlen_drop; lia).
  assert (bytes_ok (take 8 d1)) as Hb8 by (by apply Forall_take, Forall_drop).
  split_and!; try (unfold d3, d2, d1; rewrite ?zlen_take, ?zlen_drop; lia).
  - replace 8%nat with (length (take 8 d1)) at 1 by (unfold zlen in H8; lia).
    rewrite to_from_be by done. rewrite (take_drop 16 d3 : _ = drop 2 d2), (take_drop 2 d2 : _ = drop 8 d1),
      (take_drop 8 d1 : _ = drop 3 d). by rewrite take_drop.
  - pose proof (from_be_fits _ Hb8) as F. by rewrite H8 in F.
Qed.
End records.

(** Sealing and opening.  A cleartext up to the ceiling, sealed under a
    counter below the limit, is a datagram within the absolute ceiling that
    the demultiplexer hands to the session and that the peer's envelope opens
    to the same counter and the same bytes. *)
Theorem seal_open_roundtrip (e : Envelope) (counter : Z) (p out buf : list Z) :
  EnvelopeOk e -> 0 <= counter < COUNTER_LIMIT -> bytes_ok p -> zlen p <= MAX_CLEARTEXT ->
  zlen p + ENVELOPE_LEN <= zlen out -> zlen p <= zlen buf ->
  exists out' d, Envelope_seal e counter p out = (out', Ok (zlen d)) /\
    d = take (length d) out' /\ zlen d = zlen p + ENVELOPE_LEN /\ zlen d <= MAX_DATAGRAM /\
    demux_classify d = Record_ /\
    Envelope_open e d buf = (put_range buf 0 p, Ok (mkOpened counter p)).
Proof.
  intros He Hc Hp Hl Ho Hb. pose proof (zlen_nonneg p). unfold ENVELOPE_LEN in *.
  unfold MAX_CLEARTEXT, MAX_DATAGRAM, ENVELOPE_LEN in Hl.
  destruct (seal_in_place_wire e counter (take 29 out) p (drop (29 + length p) out) Hc)
    as (c & tag & Ek & Hlc & Ht & Hbc & Hbt & E);
    [rewrite zlen_take; lia|done|unfold MAX_CLEARTEXT, MAX_DATAGRAM, ENVELOPE_LEN; lia|].
  set (hd := record_header counter (size_field (zlen p)) tag) in *.
  pose proof (zlen_record_header counter (size_field (zlen p)) tag Ht) as Hhd. fold hd in Hhd.
  eexists. exists (hd ++ c). split_and!.
  - unfold Envelope_seal, checked_add, CIPHERTEXT_OFFSET, ENVELOPE_LEN.
    rewrite (proj2 (Z.ltb_lt _ _)) by lia. rewrite get_range_eq by lia.
    change (put_range out 29 p) with (take 29 out ++ p ++ drop (29 + length p) out).
    rewrite E. rewrite zlen_app, Hhd, Hlc. reflexivity.
  - by rewrite app_assoc, take_app_length.
  - rewrite zlen_app. lia.
  - rewrite zlen_app. unfold MAX_DATAGRAM. lia.
  - reflexivity.
  - unfold hd, record_header. rewrite <- !app_assoc. rewrite open_fields; try done.
    + rewrite (open_sealed _ _ _ _ Ek). done.
    + unfold fits, COUNTER_LIMIT in *. lia.
    + lia.
Qed.

(** C35: what a record is authenticated by.  A datagram opens to a counter and
    a cleartext exactly when its tag and ciphertext are the seal of that
    cleartext under that counter; the magic and the size field play no part,
    and the cleartext's length comes from the datagram's. *)
Theorem open_iff_sealed (e : Envelope) (m size tag c buf : list Z) (counter : Z) (p : list Z) :
  EnvelopeOk e -> zlen m = 3 -> zlen size = 2 -> zlen tag = 16 -> fits 64 counter -> zlen c <= zlen buf ->
  let datagram := m ++ to_be 8 counter ++ size ++ tag ++ c in
  snd (Envelope_open e datagram buf) = Ok (mkOpened counter p) <->
  keyed_seal (env_keyed e) (Envelope_nonce_bytes e counter) p = (c, Ok tag).
Proof.
  intros He Hm Hs Ht Hc Hl datagram. unfold datagram. rewrite open_fields by done. split.
  - destruct (keyed_open _ _ _ _) as [body [[]|error]] eqn:E; cbn; [|done].
    intros [= ->]. by apply sealed_open.
  - intros E. by rewrite (open_sealed _ _ _ _ E).
Qed.

(** ** A cipher that keeps its laws *)

(** Not a secure one: the body in the clear under a checksum of the nonce and
    the body.  It shows the laws can hold. *)
Definition sum_tag (nonce body : list Z) : list Z := to_be 4 (crc32_of (nonce ++ body)) ++ repeat 0 12.

Definition sum_aead : Aead := mkAead
  (fun nonce body => (body, Ok (sum_tag nonce body)))
  (fun nonce body tag => if bool_decide (tag = sum_tag nonce body) then (body, Ok ()) else (body, Err Decrypt)).

Definition sum_envelope : Envelope := mkEnvelope (Keyed_Lent Aes128 sum_aead) [1; 2; 3; 4].

#[global] Instance sum_envelope_ok : EnvelopeOk sum_envelope.
Proof.
  split; [|done]. split; cbn [env_keyed sum_envelope keyed_seal keyed_open sum_aead aead_seal aead_open].
  - intros nonce body _ Hb _. exists body, (sum_tag nonce body). split_and!; try done.
    unfold sum_tag, bytes_ok. apply Forall_app. split; [apply to_be_ok|].
    repeat constructor; unfold fits; lia.
  - by intros nonce body c tag [= -> <-].
  - intros nonce c tag Hb. by case_bool_decide.
  - intros nonce body c tag [= -> ->]. by rewrite bool_decide_eq_true_2.
  - intros nonce c tag body. case_bool_decide as E; [|done]. intros [= ->]. by rewrite E.
Qed.

Lemma seal_open_roundtrip_witness : exists out' d,
  Envelope_seal sum_envelope 7 [10; 20; 30] (repeat 0 64) = (out', Ok (zlen d)) /\ zlen d = 32 /\
  Envelope_open sum_envelope d (repeat 0 3) = ([10; 20; 30], Ok (mkOpened 7 [10; 20; 30])).
Proof.
  destruct (seal_open_roundtrip sum_envelope 7 [10; 20; 30] (repeat 0 64) (repeat 0 3) _)
    as (out' & d & E & _ & Hd & _ & _ & Ho).
  - by vm_compute.
  - repeat constructor; unfold fits; lia.
  - by vm_compute.
  - by vm_compute.
  - by vm_compute.
  - exists out', d. split_and!; [exact E|exact Hd|exact Ho].
Defined.

Lemma open_iff_sealed_witness :
  snd (Envelope_open sum_envelope
         ([9; 9; 9] ++ to_be 8 7 ++ [0; 0] ++ sum_tag (Envelope_nonce_bytes sum_envelope 7) [5] ++ [5]) [0])
    = Ok (mkOpened 7 [5]).
Proof.
  apply (open_iff_sealed sum_envelope [9; 9; 9] [0; 0] (sum_tag (Envelope_nonce_bytes sum_envelope 7) [5])
    [5] [0] 7 [5] _); try reflexivity; by vm_compute.
Defined.
