(* ===== verification/Pmtu.v ===== *)
(** Path probing (crates/core/src/pmtu.rs). *)

From S2P Require Import Prelude Seq Packet Envelope.

Definition FLOOR : Z := DEFAULT_DATAGRAM.
Definition CEILING : Z := MAX_DATAGRAM.
Definition DIRECT_CLAMP : Z := 1472.
Definition LADDER : list Z := [1280; 1350; 1400].
Definition RELAY_INDICATION_OVERHEAD : Z := 36.
Definition RELAY_CHANNEL_OVERHEAD : Z := 4.

Inductive Path := Path_Direct | Path_RelayIndication | Path_RelayChannel.

Definition Path_overhead (p : Path) : Z :=
  match p with
  | Path_Direct => 0
  | Path_RelayIndication => RELAY_INDICATION_OVERHEAD
  | Path_RelayChannel => RELAY_CHANNEL_OVERHEAD
  end.

Record PathMtu := mkPathMtu {
  pm_current : Z;
  pm_clamp : Z;
  pm_rung : Z;
  pm_probe : option (Z * Z * Z);
  pm_settled : bool;
}.

#[export] Instance PathMtu_eta : Eta PathMtu := fun p =>
  mkPathMtu (pm_current p) (pm_clamp p) (pm_rung p) (pm_probe p) (pm_settled p).

Definition PathMtu_clamp_for (path : Path) : Z := Z.min (sat_sub DIRECT_CLAMP (Path_overhead path)) CEILING.

Definition PathMtu_new (path : Path) : PathMtu := mkPathMtu FLOOR (PathMtu_clamp_for path) 0 None false.

Definition PathMtu_body_capacity (p : PathMtu) : Z := sat_sub (pm_current p) (ENVELOPE_LEN + HEADER_LEN).

(** The loop of [next_probe_size] over the rungs left. *)
Fixpoint probe_loop (p : PathMtu) (rungs : list Z) : option Z :=
  match rungs with
  | [] => None
  | size :: rest =>
      if (pm_current p <? size) && (size <=? pm_clamp p) then Some size else probe_loop p rest
  end.

Definition PathMtu_next_probe_size (p : PathMtu) : option Z :=
  if pm_settled p || (match pm_probe p with Some _ => true | None => false end) then None
  else probe_loop p (drop (Z.to_nat (pm_rung p)) LADDER).

Definition PathMtu_on_probe_sent (p : PathMtu) (channel sequence size : Z) : PathMtu :=
  if (pm_clamp p <? size) || (CEILING <? size) then p
  else p <| pm_probe := Some (channel, sequence, size) |>.

Definition PathMtu_on_ack (p : PathMtu) (channel cumulative : Z) : PathMtu * bool :=
  match pm_probe p with
  | None => (p, false)
  | Some (probe_channel, probe_seq, size) =>
      if negb (probe_channel =? channel) || negb (seq_gt cumulative probe_seq) then (p, false)
      else
      let p := p <| pm_probe := None |> <| pm_current := Z.min (Z.min size (pm_clamp p)) CEILING |>
                 <| pm_rung ::= fun n => n + 1 |> in
      let p := match PathMtu_next_probe_size p with
               | None => p <| pm_settled := true |>
               | Some _ => p
               end in
      (p, true)
  end.

Definition PathMtu_on_probe_lost (p : PathMtu) : PathMtu :=
  match pm_probe p with
  | Some _ => p <| pm_probe := None |> <| pm_settled := true |>
  | None => p
  end.

Definition PathMtu_reset (p : PathMtu) (path : Path) : PathMtu := PathMtu_new path.

(** ** Probing *)

(** One probe after another, each on the fragment [sequence] of [channel],
    each acknowledged or lost. *)
Fixpoint probe_all (p : PathMtu) (channel sequence : Z) (outcomes : list bool) : PathMtu :=
  match outcomes with
  | [] => p
  | acked :: rest =>
      match PathMtu_next_probe_size p with
      | None => p
      | Some size =>
          let p := PathMtu_on_probe_sent p channel sequence size in
          let p := if acked : bool then fst (PathMtu_on_ack p channel (wadd 32 sequence 1))
                   else PathMtu_on_probe_lost p in
          probe_all p channel (wadd 32 sequence 1) rest
      end
  end.

(** The size a run of outcomes must end at: one rung per acknowledgement until
    the first loss. *)
Definition confirmed (outcomes : list bool) : Z :=
  match outcomes with
  | true :: true :: true :: _ => 1400
  | true :: true :: _ => 1350
  | true :: _ => 1280
  | _ => FLOOR
  end.

Lemma probe_all_done p channel sequence outcomes :
  PathMtu_next_probe_size p = None -> probe_all p channel sequence outcomes = p.
Proof. intros E. destruct outcomes; cbn; [done|]. by rewrite E. Qed.

Lemma probe_loop_clamp p rungs size : probe_loop p rungs = Some size -> size <= pm_clamp p.
Proof. induction rungs as [|x rungs IH]; cbn; [done|]. zcases; intros; simplify_eq; auto. Qed.

(** The state after a probe of [size] is confirmed. *)
Definition climbed (p : PathMtu) (size : Z) : PathMtu :=
  let p' := mkPathMtu size (pm_clamp p) (pm_rung p + 1) None false in
  match PathMtu_next_probe_size p' with None => p' <| pm_settled := true |> | Some _ => p' end.

Lemma next_probe_inv p size :
  PathMtu_next_probe_size p = Some size -> pm_settled p = false /\ pm_probe p = None /\ size <= pm_clamp p.
Proof.
  unfold PathMtu_next_probe_size. destruct (pm_settled p), (pm_probe p); cbn; try done.
  intros H. split_and!; [done..|]. by eapply probe_loop_clamp.
Qed.

Lemma probe_acked p channel sequence size rest :
  PathMtu_next_probe_size p = Some size -> pm_clamp p <= CEILING -> fits 32 sequence ->
  probe_all p channel sequence (true :: rest) = probe_all (climbed p size) channel (wadd 32 sequence 1) rest.
Proof.
  intros H Hc Hs. destruct (next_probe_inv p size H) as (E1 & E2 & Hle).
  cbn [probe_all]. rewrite H. unfold PathMtu_on_probe_sent.
  rewrite (proj2 (Z.ltb_ge (pm_clamp p) size)), (proj2 (Z.ltb_ge CEILING size)) by lia. cbn [orb].
  unfold PathMtu_on_ack. cbn [pm_probe set_field]. rewrite Z.eqb_refl. cbn [negb orb].
  assert (seq_gt (wadd 32 sequence 1) sequence = true) as ->.
  { rewrite <- (wadd_0 32 sequence) at 2 by done. by rewrite seq_gt_offset by (unfold HALF; lia). }
  cbn [negb fst]. f_equal. unfold climbed.
  replace (p <| pm_probe := Some (channel, sequence, size) |> <| pm_probe := None |>
    <| pm_current := Z.min (Z.min size (pm_clamp p)) CEILING |> <| pm_rung ::= fun n => n + 1 |>)
    with (mkPathMtu size (pm_clamp p) (pm_rung p + 1) None false); [done|].
  destruct p. cbn [pm_settled pm_probe pm_clamp pm_current pm_rung] in *. subst.
  by rewrite !Z.min_l by lia.
Qed.

Lemma probe_lost p channel sequence size rest :
  PathMtu_next_probe_size p = Some size -> pm_clamp p <= CEILING ->
  probe_all p channel sequence (false :: rest) = p <| pm_settled := true |>.
Proof.
  intros H Hc. destruct (next_probe_inv p size H) as (E1 & E2 & Hle).
  cbn [probe_all]. rewrite H. unfold PathMtu_on_probe_sent.
  rewrite (proj2 (Z.ltb_ge (pm_clamp p) size)), (proj2 (Z.ltb_ge CEILING size)) by lia. cbn [orb].
  unfold PathMtu_on_probe_lost. cbn [pm_probe set_field].
  rewrite probe_all_done by done. destruct p. cbn in *. by subst.
Qed.

(** Probing.  On every path the size climbs one rung per acknowledged
    probe and stops at the first loss, at the largest size that was confirmed;
    it is never below the floor, never above what the path carries without
    fragmenting, nor above the absolute ceiling; and three probes are always
    enough to settle. *)
Theorem probing_correct (path : Path) (channel sequence : Z) (outcomes : list bool) :
  fits 32 sequence ->
  let p := probe_all (PathMtu_new path) channel sequence outcomes in
  pm_current p = confirmed outcomes /\
  FLOOR <= pm_current p <= DIRECT_CLAMP - Path_overhead path /\ pm_current p <= CEILING /\
  ((3 <= length outcomes)%nat \/ In false outcomes -> PathMtu_next_probe_size p = None /\ pm_settled p = true).
Proof.
  intros Hs p. unfold p.
  destruct outcomes as [|[] [|[] [|[] rest]]], path;
    repeat (erewrite probe_acked by (reflexivity || done || (apply fits_wadd; lia) || by vm_compute));
    try (erewrite probe_lost by (reflexivity || by vm_compute));
    rewrite ?probe_all_done by reflexivity;
    (split_and!; [reflexivity|by vm_compute..|]); cbn; intuition (congruence || lia || reflexivity).
Qed.

Lemma probing_correct_witness :
  pm_current (probe_all (PathMtu_new Path_RelayIndication) 0 4294967295 [true; true; false]) = 1350.
Proof.
  apply (probing_correct Path_RelayIndication 0 4294967295 [true; true; false]). unfold fits. lia.
Defined.
