(* ===== verification/Session.v ===== *)
(** The sans-IO session: bytes in, bytes out, time as a parameter
    (crates/core/src/session.rs). *)

From Stdlib Require Import SpecFloat.
From S2P Require Import Prelude CoreError Seq Packet Message Channel Float64 Congestion Send Envelope.

Definition ACK_CADENCE_MS : f64 := f64_of_Z 30.
Definition ACK_DATA_FLOOR_MS : f64 := f64_of_Z 10.
Definition LIVENESS_SOFT_MS : f64 := f64_of_Z 60000.
Definition LIVENESS_HARD_MS : f64 := f64_of_Z 120000.
Definition DELIVERY_DEADLINE_MS : f64 := f64_of_Z 15000.
Definition SRTT_ALPHA : f64 := f64_lit 1 10.
Definition RTT_WINDOW : Z := 64.

Inductive Inbound :=
  | Inbound_Data (channel : Z)
  | Inbound_Ack
  | Inbound_Keepalive
  | Inbound_Unhandled (channel : Z).

Inductive Health := Health_Alive | Health_Stalled | Health_Dead | Health_Undeliverable.

Record Delivery := mkDelivery {
  dv_acked_seen : Z;
  dv_since_ms : f64;
}.

Record Pressure := mkPressure {
  pr_window : Z;
  pr_stale : Z;
  pr_bytes_sent : Z;
  pr_packets_sent : Z;
  pr_acked_bytes : Z;
  pr_nack_resends : Z;
  pr_timeout_resends : Z;
}.

Record Session := mkSession {
  se_envelope : Envelope;
  se_recv : list (option RecvRing);
  se_send : list (option SendRing);
  se_level : Z;
  se_tx_counter : Z;
  se_srtt_ms : f64;
  se_srtt_seeded : bool;
  se_rtt_window : list f64;
  se_rtt_window_len : Z;
  se_rtt_window_at : Z;
  se_last_ack_sent_ms : f64;
  se_last_ack_in_ms : f64;
  se_last_progress_ms : f64;
  se_delivery : list Delivery;
  se_ack_due : bool;
  se_ack_kind : AckKind;
  se_trigger : Z * Z;
  se_trigger_nack : bool;
  se_nacks_sent : list Z;
  se_drain_channel : Z;
  se_drain_started : bool;
  se_peer_identified : bool;
}.

#[export] Instance Session_eta : Eta Session := fun s =>
  mkSession (se_envelope s) (se_recv s) (se_send s) (se_level s) (se_tx_counter s) (se_srtt_ms s)
    (se_srtt_seeded s) (se_rtt_window s) (se_rtt_window_len s) (se_rtt_window_at s)
    (se_last_ack_sent_ms s) (se_last_ack_in_ms s) (se_last_progress_ms s) (se_delivery s)
    (se_ack_due s) (se_ack_kind s) (se_trigger s) (se_trigger_nack s) (se_nacks_sent s)
    (se_drain_channel s) (se_drain_started s) (se_peer_identified s).

Definition Session_new (envelope : Envelope) (level : Z) (now_ms : f64) : Session :=
  let n := Z.to_nat CHANNEL_COUNT in
  mkSession envelope (repeat None n) (repeat None n) level 0 f64_zero false
    (repeat f64_zero (Z.to_nat RTT_WINDOW)) 0 0 now_ms now_ms now_ms
    (repeat (mkDelivery 0 now_ms) n) false AckKind_Ack (0, 0) false (repeat 0 n) 0 false false.

Definition Session_attach_recv (s : Session) (channel : Z) (ring : RecvRing) : Session * result unit :=
  match get_at (se_recv s) channel with
  | None => (s, Err Malformed)
  | Some _ => (s <| se_recv := put_at (se_recv s) channel (Some ring) |>, Ok ())
  end.

Definition Session_attach_send (s : Session) (channel : Z) (ring : SendRing) : Session * result unit :=
  match get_at (se_send s) channel with
  | None => (s, Err Malformed)
  | Some _ => (s <| se_send := put_at (se_send s) channel (Some ring) |>, Ok ())
  end.

(** [rings.get(channel).and_then(Option::as_ref)]. *)
Definition ring_at {A} (rings : list (option A)) (channel : Z) : option A :=
  match get_at rings channel with Some (Some ring) => Some ring | _ => None end.

(** Whether one channel has held unacknowledged data past the deadline. *)
Definition channel_undeliverable (s : Session) (now_ms : f64) (channel : Z) : bool :=
  match ring_at (se_send s) channel with
  | None => false
  | Some ring =>
      (0 <? SendRing_in_flight ring) &&
      match get_at (se_delivery s) channel with
      | None => false
      | Some entry => f64_geb (f64_sub now_ms (dv_since_ms entry)) DELIVERY_DEADLINE_MS
      end
  end.

Definition Session_undeliverable (s : Session) (now_ms : f64) : bool :=
  existsb (channel_undeliverable s now_ms) (map Z.of_nat (seq 0 (length (se_send s)))).

Definition Session_health (s : Session) (now_ms : f64) : Health :=
  let idle := f64_sub now_ms (se_last_progress_ms s) in
  if f64_geb idle LIVENESS_HARD_MS then Health_Dead
  else if Session_undeliverable s now_ms then Health_Undeliverable
  else if f64_geb idle LIVENESS_SOFT_MS then Health_Stalled
  else Health_Alive.

Definition Session_set_level (s : Session) (level : Z) : Session := s <| se_level := level |>.

Definition Session_send_pressure (s : Session) (channel : Z) : option Pressure :=
  ring ← ring_at (se_send s) channel;
  Some (mkPressure (SendRing_in_flight ring) (sr_stale ring) (sr_bytes_sent ring) (sr_packets_sent ring)
          (sr_acked_bytes ring) (sr_nack_resends ring) (sr_timeout_resends ring)).

Definition Session_recv_cumulative (s : Session) (channel : Z) : option Z :=
  ring ← ring_at (se_recv s) channel; Some (rr_cumulative ring).

Definition Session_recv_drops (s : Session) (channel : Z) : option Drops :=
  ring ← ring_at (se_recv s) channel; Some (rr_drops ring).

Definition Session_recv_arrivals (s : Session) (channel : Z) : option Arrivals :=
  ring ← ring_at (se_recv s) channel; Some (rr_arrivals ring).

Definition Session_nacks_sent (s : Session) (channel : Z) : Z := default 0 (get_at (se_nacks_sent s) channel).

(** Write a ring back after a call on it. *)
Definition put_recv (s : Session) (channel : Z) (ring : RecvRing) : Session :=
  s <| se_recv := put_at (se_recv s) channel (Some ring) |>.
Definition put_send (s : Session) (channel : Z) (ring : SendRing) : Session :=
  s <| se_send := put_at (se_send s) channel (Some ring) |>.

Definition Session_reset_recv (s : Session) (channel sequence : Z) : Session * result unit :=
  match ring_at (se_recv s) channel with
  | None => (s, Err Malformed)
  | Some ring => (put_recv s channel (RecvRing_reset_to ring sequence), Ok ())
  end.

Definition Session_send_message (s : Session) (channel : Z) (header payload : list Z) : Session * result Z :=
  match ring_at (se_send s) channel with
  | None => (s, Err Malformed)
  | Some ring =>
      match Message_new header payload with
      | Err e => (s, Err e)
      | Ok message =>
          let '(ring, res) := SendRing_enqueue ring message (se_srtt_ms s) in
          (put_send s channel ring, res)
      end
  end.

Definition Session_take_message (s : Session) (channel : Z) (out : list Z) :
    Session * list Z * option (result Z) :=
  match ring_at (se_recv s) channel with
  | None => (s, out, None)
  | Some ring =>
      let '(ring, out, res) := RecvRing_take_message ring out in
      (put_recv s channel ring, out, res)
  end.

Definition Session_pending_messages (s : Session) (channel : Z) : Z :=
  match ring_at (se_recv s) channel with
  | None => 0
  | Some ring => RecvRing_pending_messages ring
  end.

Definition Session_peek_message (s : Session) (channel n : Z) (out : list Z) : list Z * option Z :=
  match ring_at (se_recv s) channel with
  | None => (out, None)
  | Some ring => RecvRing_peek_message ring n out
  end.

Definition Session_skip_messages (s : Session) (channel n : Z) : Session * Z :=
  match ring_at (se_recv s) channel with
  | None => (s, 0)
  | Some ring =>
      let '(ring, skipped) := RecvRing_skip_messages ring n in
      (put_recv s channel ring, skipped)
  end.

Definition Session_has_gap (s : Session) (channel : Z) : bool :=
  match ring_at (se_recv s) channel with
  | None => false
  | Some ring => RecvRing_has_gap ring
  end.

Definition Session_escape_stall (s : Session) (channel : Z) (resumable : list Z -> bool) :
    Session * option Z :=
  match ring_at (se_recv s) channel with
  | None => (s, None)
  | Some ring =>
      let '(ring, target) := RecvRing_escape_stall ring resumable in
      (put_recv s channel ring, target)
  end.

(** ** Receiving *)

(** [for ring in self.send.iter_mut().flatten() { f(ring) }]. *)
Definition each_ring (f : SendRing -> SendRing) (rings : list (option SendRing)) : list (option SendRing) :=
  map (option_map f) rings.

(** The acknowledgement loop: every ring in turn, the last sample taken. *)
Fixpoint ack_rings (ack : Ack) (now_ms : f64) (rings : list (option SendRing)) (sample : option f64) :
    list (option SendRing) * option f64 :=
  match rings with
  | [] => ([], sample)
  | None :: rest =>
      let '(rest, sample) := ack_rings ack now_ms rest sample in (None :: rest, sample)
  | Some ring :: rest =>
      let '(ring, taken) := SendRing_on_ack ring ack now_ms in
      let '(rest, sample) :=
        ack_rings ack now_ms rest (match taken with Some x => Some x | None => sample end) in
      (Some ring :: rest, sample)
  end.

Definition Session_identify_peer (s : Session) (ack : Ack) : Session :=
  if ack_reported ack <? CHANNEL_COUNT then s
  else if se_peer_identified s then s
  else
  let s := s <| se_peer_identified := true |> in
  let slots := default U32_MAX (try_from 32 RING_SLOTS) in
  s <| se_send ::= each_ring (fun ring => SendRing_raise_peer_depth ring slots) |>.

Definition Session_observe_rtt (s : Session) (sample_ms : f64) : Session :=
  if negb (f64_is_finite sample_ms) || f64_ltb sample_ms f64_zero then s
  else
  let s :=
    match get_at (se_rtt_window s) (se_rtt_window_at s) with
    | Some _ =>
        s <| se_rtt_window := put_at (se_rtt_window s) (se_rtt_window_at s) sample_ms |>
          <| se_rtt_window_len := Z.min (se_rtt_window_len s + 1) RTT_WINDOW |>
          <| se_rtt_window_at := (se_rtt_window_at s + 1) mod RTT_WINDOW |>
    | None => s
    end in
  if se_srtt_seeded s then
    s <| se_srtt_ms := f64_add (f64_mul (se_srtt_ms s) (f64_sub (f64_of_Z 1) SRTT_ALPHA))
                         (f64_mul sample_ms SRTT_ALPHA) |>
  else s <| se_srtt_ms := sample_ms |> <| se_srtt_seeded := true |>.

Definition Session_rtt_min_ms (s : Session) : f64 :=
  let populated := Z.min (se_rtt_window_len s) RTT_WINDOW in
  if populated =? 0 then f64_zero
  else foldl f64_min (S754_infinity false) (default [] (get_range (se_rtt_window s) 0 populated)).

(** The data arm of [process_input], for a channel with a ring. *)
Definition Session_on_data (s : Session) (data : Data) (ring : RecvRing) (now_ms : f64) : Session :=
  let '(ring, stored) := RecvRing_store ring (d_seq data) (d_body data) in
  let s := put_recv s (d_channel data) ring in
  match stored with
  | Accepted =>
      let nack := seq_gt (d_seq data) (wadd 32 (rr_cumulative ring) 2) in
      let held := se_ack_due s && bool_decide (se_ack_kind s = AckKind_Ack)
                  && se_trigger_nack s && negb nack in
      let s := if negb held
               then s <| se_trigger := (d_channel data, d_seq data) |> <| se_trigger_nack := nack |>
               else s in
      if nack || d_last data || f64_geb (f64_sub now_ms (se_last_ack_sent_ms s)) ACK_DATA_FLOOR_MS
      then s <| se_ack_due := true |> <| se_ack_kind := AckKind_Ack |>
      else s
  | _ => s
  end.

(** The acknowledgement arm. *)
Definition Session_on_acknowledgement (s : Session) (ack : Ack) (now_ms : f64) : Session * Inbound :=
  let s := s <| se_last_ack_in_ms := now_ms |> in
  let s := Session_identify_peer s ack in
  match ack_kind ack with
  | AckKind_Ack =>
      let '(rings, sample) := ack_rings ack now_ms (se_send s) None in
      let s := s <| se_send := rings |> in
      let s := match sample with Some x => Session_observe_rtt s x | None => s end in
      (s, Inbound_Ack)
  | AckKind_Keepalive =>
      (s <| se_send ::= each_ring (fun ring => SendRing_on_keepalive ring ack) |>, Inbound_Keepalive)
  end.

Definition Session_process_input (s : Session) (datagram : list Z) (now_ms : f64) (scratch : list Z) :
    Session * list Z * result Inbound :=
  match Envelope_open (se_envelope s) datagram scratch with
  | (scratch, Err e) => (s, scratch, Err e)
  | (scratch, Ok opened) =>
      match packet_parse (op_cleartext opened) with
      | Err e => (s, scratch, Err e)
      | Ok packet =>
          let s := s <| se_last_progress_ms := now_ms |> in
          match packet with
          | Packet_Data data =>
              match ring_at (se_recv s) (d_channel data) with
              | None => (s, scratch, Ok (Inbound_Unhandled (d_channel data)))
              | Some ring =>
                  (Session_on_data s data ring now_ms, scratch, Ok (Inbound_Data (d_channel data)))
              end
          | Packet_Ack ack =>
              let '(s, inbound) := Session_on_acknowledgement s ack now_ms in
              (s, scratch, Ok inbound)
          end
      end
  end.

(** ** Housekeeping *)

(** The loop of [poll] over the channels, send rings beside their delivery
    records. *)
Fixpoint poll_delivery (rings : list (option SendRing)) (delivery : list Delivery) (now_ms : f64) :
    list Delivery :=
  match rings, delivery with
  | Some ring :: rings, entry :: delivery =>
      let acked := sr_acked ring in
      (if (SendRing_in_flight ring =? 0) || negb (acked =? dv_acked_seen entry)
       then mkDelivery acked now_ms else entry) :: poll_delivery rings delivery now_ms
  | None :: rings, entry :: delivery => entry :: poll_delivery rings delivery now_ms
  | _, _ => delivery
  end.

Definition Session_poll (s : Session) (now_ms : f64) : Session :=
  let s := if negb (se_ack_due s) && f64_geb (f64_sub now_ms (se_last_ack_sent_ms s)) ACK_CADENCE_MS
           then s <| se_ack_due := true |> <| se_ack_kind := AckKind_Keepalive |> else s in
  s <| se_delivery := poll_delivery (se_send s) (se_delivery s) now_ms |>.

Definition Session_next_timer_ms (s : Session) (now_ms : f64) : f64 :=
  let since_ack := f64_sub now_ms (se_last_ack_sent_ms s) in
  f64_max (f64_sub ACK_CADENCE_MS since_ack) f64_zero.

(** ** Sending *)

Definition Session_seal (s : Session) (cleartext_len : Z) (out : list Z) : Session * list Z * result Z :=
  let counter := se_tx_counter s in
  match checked_add 64 (se_tx_counter s) 1 with
  | None => (s, out, Err Oversized)
  | Some next =>
      let s := s <| se_tx_counter := next |> in
      let '(out, res) := Envelope_seal_in_place (se_envelope s) counter cleartext_len out in
      (s, out, res)
  end.

(** The acknowledgement [emit_ack] builds. *)
Definition Session_ack (s : Session) : Ack :=
  let cumulative :=
    map (fun slot => match slot with Some ring => rr_cumulative ring | None => 0 end) (se_recv s) in
  let keepalive := bool_decide (se_ack_kind s = AckKind_Keepalive) in
  mkAck (se_ack_kind s) (se_trigger_nack s && negb keepalive)
    (if keepalive then 0 else fst (se_trigger s)) (if keepalive then 0 else snd (se_trigger s))
    cumulative CHANNEL_COUNT.

Definition Session_emit_ack (s : Session) (out : list Z) : Session * list Z * result Z :=
  let ack := Session_ack s in
  let s :=
    if ack_nack ack then
      match get_at (se_nacks_sent s) (ack_trigger_channel ack) with
      | Some count => s <| se_nacks_sent := put_at (se_nacks_sent s) (ack_trigger_channel ack) (sat_add 64 count 1) |>
      | None => s
      end
    else s in
  let s := s <| se_trigger_nack := false |> in
  match get_range out ENVELOPE_LEN (zlen out) with
  | None => (s, out, Err BufferTooSmall)
  | Some body =>
      match encode_ack body ack with
      | (body, Err e) => (s, put_range out ENVELOPE_LEN body, Err e)
      | (body, Ok written) => Session_seal s written (put_range out ENVELOPE_LEN body)
      end
  end.

(** The channel loop of [get_output]: [Some] is an early return. *)
Fixpoint drain_loop (fuel : nat) (s : Session) (now_ms : f64) (out : list Z) :
    Session * list Z * option (result Z) :=
  match fuel with
  | O => (s, out, None)
  | S fuel' =>
      if CHANNEL_COUNT <=? se_drain_channel s then (s, out, None)
      else
      let index := se_drain_channel s in
      match ring_at (se_send s) index with
      | None => drain_loop fuel' (s <| se_drain_channel ::= fun n => n + 1 |>) now_ms out
      | Some ring =>
          match get_range out ENVELOPE_LEN (zlen out) with
          | None => (s, out, Some (Err BufferTooSmall))
          | Some body =>
              let '(ring, body, res) := SendRing_poll_send ring now_ms (se_srtt_ms s) (se_level s) body in
              let s := put_send s index ring in
              let out := put_range out ENVELOPE_LEN body in
              match res with
              | Some (Ok written) =>
                  let '(s, out, res) := Session_seal s written out in (s, out, Some res)
              | Some (Err error) => (s, out, Some (Err error))
              | None => drain_loop fuel' (s <| se_drain_channel ::= fun n => n + 1 |>) now_ms out
              end
          end
      end
  end.

(** Nineteen channels and one more turn. *)
Definition DRAIN_FUEL : nat := S (Z.to_nat CHANNEL_COUNT).

Definition Session_get_output (s : Session) (now_ms : f64) (out : list Z) :
    Session * list Z * option (result Z) :=
  let s := if negb (se_drain_started s)
           then s <| se_send ::= each_ring SendRing_begin_pass |> <| se_drain_channel := 0 |>
                  <| se_drain_started := true |>
           else s in
  match drain_loop DRAIN_FUEL s now_ms out with
  | (s, out, Some res) => (s, out, Some res)
  | (s, out, None) =>
      if se_ack_due s then
        let s := s <| se_ack_due := false |> <| se_last_ack_sent_ms := now_ms |>
                   <| se_drain_started := false |> in
        let '(s, out, res) := Session_emit_ack s out in (s, out, Some res)
      else (s <| se_drain_started := false |>, out, None)
  end.
