(* ===== verification/SessionFacts.v ===== *)
(** The session's invariant, and that nothing a peer or the clock does breaks
    it. *)

From S2P Require Import Prelude CoreError Seq Packet Message Channel ChannelFacts ChannelSpec Float64.
From S2P Require Import Congestion Send SendFacts SendSpec SendPoll Envelope Session.

(** Every ring that is attached satisfies [P]. *)
Definition rings_ok {A} (P : A -> Prop) (rings : list (option A)) : Prop :=
  Forall (fun slot => match slot with Some ring => P ring | None => True end) rings.

Record session_ok (s : Session) : Prop := {
  so_env : EnvelopeOk (se_envelope s);
  so_recv_len : zlen (se_recv s) = CHANNEL_COUNT;
  so_recv : rings_ok recv_wf (se_recv s);
  so_send : rings_ok send_wf (se_send s);
  so_counter : fits 64 (se_tx_counter s);
  so_trigger : 0 <= fst (se_trigger s) < CHANNEL_COUNT /\ fits 32 (snd (se_trigger s)) /\
    snd (se_trigger s) <> U32_MAX;
  so_srtt : f64_nonneg (se_srtt_ms s) = true;
}.

Section rings.
  Context {A : Type} (P : A -> Prop).

Lemma ring_at_ok rings c ring : rings_ok P rings -> ring_at rings c = Some ring -> P ring.
Proof.
  unfold rings_ok, ring_at, get_at. rewrite Forall_lookup. intros H.
  destruct (rings !! Z.to_nat c) as [[r|]|] eqn:E; try done. intros [= <-]. exact (H _ _ E).
Qed.

Lemma rings_ok_put rings c ring : rings_ok P rings -> P ring -> rings_ok P (put_at rings c (Some ring)).
Proof. intros H Hr. by apply Forall_insert. Qed.

Lemma rings_ok_map (f : A -> A) rings :
  (forall r, P r -> P (f r)) -> rings_ok P rings -> rings_ok P (map (option_map f) rings).
Proof.
  intros Hf H. apply Forall_map. eapply Forall_impl; [|exact H]. intros [r|] Hr; cbn; auto.
Qed.
End rings.

(** ** Input *)

Lemma raise_wf r slots : send_wf r -> 0 <= slots -> send_wf (SendRing_raise_peer_depth r slots).
Proof.
  intros W Hs. pose proof (sg_slots r (sw_geom r W)) as Hm. destruct W as [[]].
  split; try done. cbn [SendRing_raise_peer_depth sr_peer_depth sr_meta set_field].
  unfold try_from, HALF in *. rewrite (proj2 (Z.leb_le 0 _)), (proj2 (Z.ltb_lt _ (2 ^ 32))) by lia.
  cbn [andb default]. unfold default, id. lia.
Qed.

Lemma keepalive_wf r ack : send_wf r -> ack_fits ack -> send_wf (SendRing_on_keepalive r ack).
Proof.
  intros W Ha. unfold SendRing_on_keepalive. pose proof (ack_advance_bounds r ack W) as Hn.
  destruct (apply_cumulative_effect r ack W Ha) as (acked & cursor & -> & Hc & Hcur). cbn [fst].
  exact (rebase_wf r W _ Hn _ acked cursor Hc Hcur (sr_nack_below r)).
Qed.

Lemma ack_rings_ok ack now rings sample :
  ack_fits ack -> rings_ok send_wf rings -> rings_ok send_wf (fst (ack_rings ack now rings sample)).
Proof.
  intros Ha H. revert sample. induction H as [|[r|] rings Hr H IH]; intros sample; cbn [ack_rings].
  - constructor.
  - pose proof (on_ack_wf r ack now Hr Ha) as Hr'.
    destruct (SendRing_on_ack r ack now) as [r' taken]. cbn [fst] in Hr'.
    specialize (IH (match taken with Some x => Some x | None => sample end)).
    destruct (ack_rings _ _ _ _) as [rest sample']. by constructor.
  - specialize (IH sample). destruct (ack_rings _ _ _ _) as [rest sample']. by constructor.
Qed.

(** A smoothed round trip is always a number and never negative. *)
Lemma observe_rtt_ok s x :
  session_ok s -> session_ok (Session_observe_rtt s x).
Proof.
  intros S. unfold Session_observe_rtt. destruct (f64_is_finite x) eqn:Ex; [|done]. cbn [negb orb].
  destruct (f64_ltb x f64_zero) eqn:Ez; [done|]. pose proof (finite_geb_nonneg x Ex Ez) as Hx.
  set (s1 := match get_at _ _ with Some _ => _ | None => _ end).
  assert (session_ok s1) as S1 by (unfold s1; destruct (get_at _ _); [|done]; by destruct S).
  destruct S1. destruct (se_srtt_seeded s1); split; try done.
  cbn [se_srtt_ms set_field]. apply add_nonneg; by apply mul_nonneg.
Qed.

(** ** The acknowledgement and data arms *)

Lemma identify_ok s ack : session_ok s -> session_ok (Session_identify_peer s ack).
Proof.
  intros S. unfold Session_identify_peer. destruct (_ <? _); [done|].
  destruct (se_peer_identified s); [done|]. destruct S. split; try done.
  cbn [se_send set_field]. apply rings_ok_map; [|done]. intros r Hr. by apply raise_wf.
Qed.

Lemma on_acknowledgement_ok s ack now :
  session_ok s -> ack_fits ack -> session_ok (fst (Session_on_acknowledgement s ack now)).
Proof.
  intros S Ha. unfold Session_on_acknowledgement.
  assert (session_ok (s <| se_last_ack_in_ms := now |>)) as S1 by (by destruct S).
  pose proof (identify_ok _ ack S1) as S2. set (s2 := Session_identify_peer _ _) in *.
  destruct (ack_kind ack).
  - pose proof (ack_rings_ok ack now (se_send s2) None Ha (so_send s2 S2)) as Hr.
    destruct (ack_rings ack now (se_send s2) None) as [rings sample]. cbn [fst] in *.
    assert (session_ok (s2 <| se_send := rings |>)) by (by destruct S2).
    destruct sample; [by apply observe_rtt_ok|done].
  - cbn [fst]. destruct S2. split; try done. cbn [se_send set_field].
    apply rings_ok_map; [|done]. intros r Hr. by apply keepalive_wf.
Qed.

Lemma store_wf r sq body :
  recv_wf r -> fits 32 sq -> bytes_ok body -> recv_wf (fst (RecvRing_store r sq body)).
Proof.
  intros W Hs Hb. rewrite store_eq by done. cbn [fst]. rewrite bump_same.
  case_bool_decide; [by apply accept_wf|done].
Qed.

Lemma put_recv_ok s c ring : session_ok s -> recv_wf ring -> session_ok (put_recv s c ring).
Proof.
  intros [] W. split; try done; cbn [put_recv se_recv set_field].
  - by rewrite zlen_put_at.
  - by apply rings_ok_put.
Qed.

Lemma put_send_ok s c ring : session_ok s -> send_wf ring -> session_ok (put_send s c ring).
Proof. intros [] W. split; try done. by apply rings_ok_put. Qed.

Lemma on_data_ok s data ring now :
  session_ok s -> data_ok data -> bytes_ok (d_body data) -> recv_wf ring ->
  session_ok (Session_on_data s data ring now).
Proof.
  intros S (Hc & Hsq & Hmax) Hb W. unfold Session_on_data.
  pose proof (store_wf ring (d_seq data) (d_body data) W Hsq Hb) as W'.
  destruct (RecvRing_store _ _ _) as [ring' stored]. cbn [fst] in W'.
  pose proof (put_recv_ok s (d_channel data) ring' S W') as S'.
  set (s1 := put_recv s (d_channel data) ring') in *.
  destruct stored; try done. cbv zeta. set (nack := seq_gt _ _).
  set (s2 := if negb _ then _ else s1).
  assert (session_ok s2) as S2.
  { unfold s2. destruct (negb _); [|done]. destruct S'. by split. }
  destruct (_ || _); [|done]. destruct S2. by split.
Qed.

Lemma reported_values_fits l n : bytes_ok l -> Forall (fits 32) (reported_values l n).
Proof.
  intros Hb. unfold reported_values. apply Forall_app. split.
  - apply Forall_map, List.Forall_forall. intros i _. unfold reported_value.
    pose proof (from_be_fits (take 4 (drop (7 + 4 * i) l)) (Forall_take _ _ _ (Forall_drop _ _ _ Hb))) as F.
    rewrite zlen_take in F. pose proof (zlen_nonneg (drop (7 + 4 * i) l)).
    unfold fits in *. assert (2 ^ (8 * Z.min (Z.of_nat 4) (zlen (drop (7 + 4 * i) l))) <= 2 ^ 32)
      by (apply Z.pow_le_mono_r; lia). lia.
  - apply Forall_replicate. unfold fits. lia.
Qed.

Lemma parsed_ack_fits l ack : bytes_ok l -> packet_parse l = Ok (Packet_Ack ack) -> ack_fits ack.
Proof.
  intros Hb Hp. destruct (ack_parse_inv l ack Hb Hp) as ((_ & Hs & _) & rest & _ & _ & _ & Hc).
  split; [|done]. rewrite Hc. by apply reported_values_fits.
Qed.

Lemma open_cleartext_ok e d out out' opened :
  EnvelopeOk e -> bytes_ok d -> Envelope_open e d out = (out', Ok opened) -> bytes_ok (op_cleartext opened).
Proof.
  intros He Hb. unfold Envelope_open. destruct (_ <? _); [done|].
  destruct (get_range d NONCE_OFFSET _) as [cb|]; [|done].
  destruct (get_range d TAG_OFFSET _) as [tag|]; [|done].
  destruct (get_range d CIPHERTEXT_OFFSET _) as [ct|] eqn:Ec; [|done].
  destruct (get_range out 0 _); [|done].
  assert (bytes_ok ct) as Hct.
  { unfold get_range in Ec. destruct (_ && _); [|done]. injection Ec as <-. by apply Forall_take, Forall_drop. }
  pose proof (open_bytes (Envelope_nonce_bytes e (from_be cb)) ct tag Hct) as Ho.
  destruct (keyed_open _ _ _ _) as [body [[]|]]; [|done]. by intros [= _ <-].
Qed.

Lemma process_input_ok s datagram now scratch :
  session_ok s -> bytes_ok datagram ->
  session_ok (fst (fst (Session_process_input s datagram now scratch))).
Proof.
  intros S Hb. unfold Session_process_input.
  destruct (Envelope_open _ _ _) as [scratch' [opened|e]] eqn:Eo; [|done].
  pose proof (open_cleartext_ok _ _ _ _ _ (so_env s S) Hb Eo) as Hcl.
  destruct (packet_parse _) as [[data|ack]|e] eqn:Ep; [| |done]; cbv zeta;
    (assert (session_ok (s <| se_last_progress_ms := now |>)) as S1 by (by destruct S)).
  - destruct (packet_parse_data_inv _ _ Hcl Ep) as [Hd El].
    destruct (ring_at _ _) as [ring|] eqn:Er; [|done]. cbn [fst].
    apply on_data_ok; [done..| |by apply (ring_at_ok _ _ _ _ (so_recv _ S1) Er)].
    rewrite El in Hcl. unfold data_wire in Hcl. by apply Forall_app in Hcl as [_ [_ ?]%Forall_app].
  - pose proof (on_acknowledgement_ok _ ack now S1 (parsed_ack_fits _ _ Hcl Ep)) as S2.
    by destruct (Session_on_acknowledgement _ _ _).
Qed.

Lemma poll_ok s now : session_ok s -> session_ok (Session_poll s now).
Proof. intros []. unfold Session_poll. by destruct (_ && _). Qed.

(** ** Output *)

Lemma poll_send_wf r now srtt li out :
  send_wf r -> send_wf (fst (fst (SendRing_poll_send r now srtt li out))).
Proof.
  intros W. destruct (poll_send_scan r W now srtt _ out li eq_refl) as (o & s & k & Hk & Ho & Hf & _ & H).
  pose proof (soff_fits r (sr_cursor r)) as Fc. unfold fits in Fc.
  destruct H as [[-> ->]|(Hlt & Hcap & m & body & Hv & _ & _ & ->)]; [by apply end_pass_wf|].
  destruct (encode_data _ _) as [out' [w|e]]; cbn [fst].
  - destruct (emitted_shape r o s k m now srtt (congestion_level li)) as (s' & bs & ps & nr & tr & ->).
    apply after_send_wf; [done|lia| |by eapply slot_view_meta].
    unfold sat_add, fits in *. lia.
  - pose proof (in_flight_bounds r W). pose proof (sg_slots r (sw_geom r W)).
    destruct W as [[]]. split; try done; cbn [scanned sr_cursor sr_base set_field].
    + apply spos_fits.
    + change (seq_distance (sr_base r) (spos r k) <= SendRing_in_flight r). unfold spos.
      rewrite seq_distance_offset; [lia|done|]. unfold fits, HALF in *. lia.
Qed.

Lemma seal_ok s n out : session_ok s -> session_ok (fst (fst (Session_seal s n out))).
Proof.
  intros S. unfold Session_seal, checked_add. destruct (Z.ltb_spec (se_tx_counter s + 1) (2 ^ 64)); [|done].
  destruct (Envelope_seal_in_place _ _ _ _). cbn [fst]. destruct S as [? ? ? ? Hc ? ?].
  split; try done. unfold fits in *. cbn. lia.
Qed.

Lemma emit_ack_ok s out : session_ok s -> session_ok (fst (fst (Session_emit_ack s out))).
Proof.
  intros S. unfold Session_emit_ack. set (s1 := if ack_nack _ then _ else s).
  assert (session_ok (s1 <| se_trigger_nack := false |>)) as S1.
  { unfold s1. destruct (ack_nack _); [|by destruct S].
    destruct (get_at _ _); by destruct S. }
  destruct (get_range _ _ _); [|done]. destruct (encode_ack _ _) as [body [w|e]]; [|done].
  by apply seal_ok.
Qed.

Lemma drain_loop_ok fuel s now out :
  session_ok s -> session_ok (fst (fst (drain_loop fuel s now out))).
Proof.
  revert s out. induction fuel as [|fuel IH]; intros s out S; [done|]. cbn [drain_loop].
  destruct (_ <=? _); [done|]. destruct (ring_at _ _) as [ring|] eqn:Er.
  - destruct (get_range _ _ _) as [body|]; [|done].
    pose proof (poll_send_wf ring now (se_srtt_ms s) (se_level s) body
      (ring_at_ok _ _ _ _ (so_send s S) Er)) as W.
    destruct (SendRing_poll_send _ _ _ _ _) as [[ring' body'] res]. cbn [fst] in W.
    pose proof (put_send_ok s (se_drain_channel s) ring' S W) as S1.
    destruct res as [[w|e]|]; cbn [fst].
    + pose proof (seal_ok _ w (put_range out ENVELOPE_LEN body') S1).
      by destruct (Session_seal _ _ _) as [[? ?] ?].
    + done.
    + apply IH. by destruct S1.
  - apply IH. by destruct S.
Qed.

Lemma get_output_ok s now out : session_ok s -> session_ok (fst (fst (Session_get_output s now out))).
Proof.
  intros S. unfold Session_get_output. set (s1 := if negb _ then _ else s).
  assert (session_ok s1) as S1.
  { unfold s1. destruct (negb _); [|done]. destruct S. split; try done. cbn [se_send set_field].
    apply rings_ok_map; [|done]. apply begin_pass_wf. }
  pose proof (drain_loop_ok DRAIN_FUEL s1 now out S1) as S2.
  destruct (drain_loop _ _ _ _) as [[s2 out2] [res|]]; cbn [fst] in *; [done|].
  destruct (se_ack_due s2); [|by destruct S2].
  match goal with |- context [Session_emit_ack ?s ?o] =>
    assert (session_ok s) as S3 by (by destruct S2); pose proof (emit_ack_ok s o S3);
    by destruct (Session_emit_ack s o) as [[? ?] ?] end.
Qed.
