(* ===== verification/SessionSpec.v ===== *)
(** What a session promises the network: what it sends is well formed, sealed
    under a counter no other record used, and within the ceiling; what it does
    not authenticate leaves no trace; and a drain that ends has nothing due. *)

From Stdlib Require Import Sorted.
From S2P Require Import Prelude CoreError Seq Packet Message Channel ChannelFacts ChannelSpec Float64.
From S2P Require Import Congestion Send SendFacts SendSpec SendPoll Envelope Session SessionFacts.

(** The counter a record carries. *)
Definition record_counter (d : list Z) : Z := from_be (take 8 (drop 3 d)).

(** A datagram that is the session's record number [counter] around the
    cleartext [p]. *)
Record is_record (e : Envelope) (counter : Z) (p d : list Z) : Prop := {
  ir_len : zlen d = zlen p + ENVELOPE_LEN;
  ir_ceiling : zlen d <= MAX_DATAGRAM;
  ir_counter : record_counter d = counter;
  ir_class : demux_classify d = Record_;
  ir_opens : forall buf, zlen p <= zlen buf ->
    Envelope_open e d buf = (put_range buf 0 p, Ok (mkOpened counter p));
}.

Lemma sealed_record e counter n out out' m :
  EnvelopeOk e -> 0 <= counter -> Envelope_seal_in_place e counter n out = (out', Ok m) ->
  m = n + ENVELOPE_LEN /\ counter < COUNTER_LIMIT /\
  is_record e counter (take (Z.to_nat n) (drop 29 out)) (take (Z.to_nat m) out').
Proof.
  intros He Hc H. destruct (seal_in_place_inv e counter n out out' m H)
    as (h & p & rest & c & tag & -> & Hh & Hp & -> & Hm & Hlim & Ek & Hlc & Ht & ->).
  rewrite drop_app_length' by (unfold zlen in Hh; lia).
  rewrite take_app_length' by (unfold zlen in Hp; lia). unfold ENVELOPE_LEN.
  pose proof (zlen_record_header counter (size_field n) tag Ht) as Hhd.
  rewrite app_assoc, take_app_length' by (rewrite length_app; unfold zlen in *; lia).
  assert (fits 64 counter) as H64 by (unfold fits, COUNTER_LIMIT in *; lia).
  split_and!; [lia|done|]. split.
  - rewrite zlen_app. unfold ENVELOPE_LEN. lia.
  - rewrite zlen_app. lia.
  - unfold record_counter, record_header. rewrite <- !app_assoc.
    rewrite drop_app_length' by done. rewrite take_app_length' by (by rewrite length_to_be).
    by apply from_to_be.
  - reflexivity.
  - intros buf Hb. unfold record_header. rewrite <- !app_assoc.
    rewrite open_fields by (done || lia). by rewrite (open_sealed _ _ _ _ Ek).
Qed.

(** ** Output *)

(** A packet that carries a fragment some send ring has in flight. *)
Definition carries_fragment (s : Session) (packet : Packet) : Prop :=
  exists index ring k last body,
    ring_at (se_send s) index = Some ring /\ 0 <= k < SendRing_in_flight ring /\
    queued ring k = Some (last, body) /\
    packet = Packet_Data (mkData (sr_channel ring) (spos ring k) last body).

Lemma ring_at_put {A} (rings : list (option A)) i j ring old :
  ring_at rings i = Some old ->
  ring_at (put_at rings i (Some ring)) j =
    if decide (Z.to_nat i = Z.to_nat j) then Some ring else ring_at rings j.
Proof.
  unfold ring_at, get_at, put_at. intros H.
  destruct (rings !! Z.to_nat i) as [[x|]|] eqn:E; try done. case_decide as D.
  - rewrite <- D. rewrite list_lookup_insert_eq; [done|]. by apply lookup_lt_Some in E.
  - by rewrite list_lookup_insert_ne.
Qed.

(** What a ring has in flight is the same after a scan that sent nothing. *)
Lemma carries_put s index ring o sc k packet :
  ring_at (se_send s) index = Some ring ->
  carries_fragment (put_send s index (end_pass (scanned ring o sc k))) packet -> carries_fragment s packet.
Proof.
  intros Hr (j & ring' & k' & last & body & Hj & Hk & Hq & ->). cbn [put_send se_send set_field] in Hj.
  rewrite (ring_at_put _ _ _ _ ring Hr) in Hj. case_decide as D.
  - injection Hj as <-. exists index, ring, k', last, body.
    split; [done|]. split; [exact Hk|]. split; [exact Hq|done].
  - exists j, ring', k', last, body. done.
Qed.

Lemma poll_emits r now srtt li out r' out' n :
  send_wf r -> SendRing_poll_send r now srtt li out = (r', out', Some (Ok n)) ->
  exists k last body, 0 <= k < SendRing_in_flight r /\ queued r k = Some (last, body) /\
    zlen (take (Z.to_nat n) out') = n /\
    packet_parse (take (Z.to_nat n) out') = Ok (Packet_Data (mkData (sr_channel r) (spos r k) last body)).
Proof.
  intros W H. destruct (poll_send_scan r W now srtt _ out li eq_refl) as (o & s & k & Hk & _ & _ & _ & Hres).
  pose proof (soff_fits r (sr_cursor r)) as Fc. unfold fits in Fc. rewrite H in Hres.
  destruct Hres as [[_ E]|(Hlt & _ & m & body & Hv & Hocc & _ & E)]; [done|].
  destruct (encode_data _ _) as [out1 [w|e]] eqn:Ee; [|done].
  injection E as -> -> ->.
  destruct (encode_data_inv out (mkData (sr_channel r) (spos r k) (ss_last m) body) _ _ (proj1 (sg_channel r (sw_geom r W))) (spos_fits r k) Ee)
    as (Hd & -> & rest & -> & Hl).
  pose proof (zlen_data_wire (mkData (sr_channel r) (spos r k) (ss_last m) body)) as Hw.
  rewrite take_app_length' by (unfold zlen in *; cbn [d_body] in *; lia).
  exists k, (ss_last m), body. split_and!; try lia; [by rewrite (queued_view _ _ _ Hv), Hocc|].
  by apply packet_parse_data_wire.
Qed.

Lemma put_range_drop29 {A} (out body : list A) :
  29 <= zlen out -> drop 29 (put_range out 29 body) = body ++ drop (29 + length body) out.
Proof.
  intros H. unfold put_range. change (Z.to_nat 29) with 29%nat.
  rewrite drop_app_length' by (rewrite length_take; unfold zlen in H; lia). done.
Qed.

Lemma seal_emits s w out s' out' n body p :
  session_ok s -> 29 <= zlen out -> p = take (Z.to_nat w) body -> zlen p = w ->
  Session_seal s w (put_range out ENVELOPE_LEN body) = (s', out', Ok n) ->
  is_record (se_envelope s) (se_tx_counter s) p (take (Z.to_nat n) out') /\
  se_tx_counter s < COUNTER_LIMIT /\ s' = s <| se_tx_counter := se_tx_counter s + 1 |>.
Proof.
  intros S Ho Hp Hw H. unfold Session_seal, checked_add in H.
  destruct (_ <? 2 ^ 64); [|done]. cbn [se_envelope set_field] in H.
  destruct (Envelope_seal_in_place _ _ _ _) as [out1 [m|]] eqn:Es; [|done].
  injection H as <- <- <-.
  destruct (sealed_record _ _ _ _ _ _ (so_env s S) (proj1 (so_counter s S)) Es) as (_ & Hlim & Hr).
  split_and!; [|done..]. unfold ENVELOPE_LEN in Hr. rewrite put_range_drop29 in Hr by done.
  rewrite take_app_le in Hr by (rewrite Hp, zlen_take in Hw; unfold zlen in Hw; lia). by rewrite <- Hp in Hr.
Qed.

(** What one emission is: the session's next record around [packet]. *)
Definition emission (s s' : Session) (d : list Z) (packet : Packet) : Prop :=
  exists p, is_record (se_envelope s) (se_tx_counter s) p d /\ packet_parse p = Ok packet /\
    se_tx_counter s < COUNTER_LIMIT /\ se_tx_counter s' = se_tx_counter s + 1 /\
    se_envelope s' = se_envelope s.

Lemma emission_from s1 s s' d packet :
  se_envelope s1 = se_envelope s -> se_tx_counter s1 = se_tx_counter s ->
  emission s1 s' d packet -> emission s s' d packet.
Proof. intros Ee Et (p & H). rewrite Ee, Et in H. by exists p. Qed.

Lemma get_tail_len (out body : list Z) : get_range out ENVELOPE_LEN (zlen out) = Some body -> 29 <= zlen out.
Proof. unfold get_range, ENVELOPE_LEN. destruct (Z.leb_spec 29 (zlen out)); [done|]. cbn. done. Qed.

Lemma drain_loop_emits fuel s now out s' out' n :
  session_ok s -> drain_loop fuel s now out = (s', out', Some (Ok n)) ->
  exists packet, emission s s' (take (Z.to_nat n) out') packet /\ carries_fragment s packet.
Proof.
  revert s out. induction fuel as [|fuel IH]; intros s out S H; [done|]. cbn [drain_loop] in H.
  destruct (_ <=? _); [done|]. destruct (ring_at _ _) as [ring|] eqn:Er.
  2: { destruct (IH (s <| se_drain_channel ::= fun n => n + 1 |>) out) as (packet & He & Hc);
         [by destruct S|done|]. exists packet. split; [done|exact Hc]. }
  destruct (get_range _ _ _) as [body|] eqn:Eb; [|done]. apply get_tail_len in Eb as Hl.
  pose proof (ring_at_ok _ _ _ _ (so_send s S) Er) as W.
  destruct (SendRing_poll_send _ _ _ _ _) as [[ring' body'] res] eqn:Ep.
  pose proof (poll_send_wf ring now (se_srtt_ms s) (se_level s) body W) as W'. rewrite Ep in W'. cbn [fst] in W'.
  pose proof (put_send_ok s (se_drain_channel s) ring' S W') as S1.
  destruct res as [[w|e]|]; [| |].
  - destruct (poll_emits _ _ _ _ _ _ _ _ W Ep) as (k & last & fb & Hk & Hq & Hw & Hparse).
    destruct (Session_seal _ _ _) as [[s2 out2] res2] eqn:Es. injection H as -> -> ->.
    destruct (seal_emits _ _ _ _ _ _ body' _ S1 Hl eq_refl Hw Es) as (Hr & Hlim & ->).
    eexists. split.
    + exists (take (Z.to_nat w) body'). by split_and!.
    + exists (se_drain_channel s), ring, k, last, fb. done.
  - done.
  - destruct (poll_send_scan ring W now (se_srtt_ms s) _ body (se_level s) eq_refl) as (o & sc & k & _ & _ & _ & _ & Hres).
    rewrite Ep in Hres. destruct Hres as [[_ [= -> _]]|(_ & _ & m & fb & _ & _ & _ & E)];
      [|destruct (encode_data _ _) as [? []]; done].
    destruct (IH (put_send s (se_drain_channel s) (end_pass (scanned ring o sc k)) <| se_drain_channel ::= fun n => n + 1 |>)
      (put_range out ENVELOPE_LEN body')) as (packet & He & Hc); [by destruct S1|done|].
    exists packet. split; [done|]. exact (carries_put s _ ring o sc k packet Er Hc).
Qed.

(** A drain that emitted nothing leaves the counter's future to later. *)
Lemma drain_loop_quiet fuel s now out :
  let '(s', _, res) := drain_loop fuel s now out in
  se_envelope s' = se_envelope s /\ se_tx_counter s <= se_tx_counter s' /\
  (res = None -> se_tx_counter s' = se_tx_counter s) /\ se_recv s' = se_recv s /\
  se_ack_kind s' = se_ack_kind s /\ se_trigger s' = se_trigger s /\ se_trigger_nack s' = se_trigger_nack s.
Proof.
  revert s out. induction fuel as [|fuel IH]; intros s out; [cbn; split_and!; done || lia|]. cbn [drain_loop].
  destruct (_ <=? _); [split_and!; done || lia|]. destruct (ring_at _ _) as [ring|].
  2: { exact (IH (s <| se_drain_channel ::= fun n => n + 1 |>) out). }
  destruct (get_range _ _ _) as [body|]; [|split_and!; done || lia].
  destruct (SendRing_poll_send _ _ _ _ _) as [[ring' body'] [[w|e]|]].
  - unfold Session_seal, checked_add. destruct (_ <? _); [|split_and!; done || lia].
    destruct (Envelope_seal_in_place _ _ _ _) as [o2 r2]. cbn. split_and!; done || lia.
  - split_and!; done || (cbn; lia).
  - exact (IH (put_send s (se_drain_channel s) ring' <| se_drain_channel ::= fun n => n + 1 |>) _).
Qed.

(** ** Acknowledgements *)

(** The frontiers a session reports. *)
Lemma session_ack_ok s :
  session_ok s ->
  ack_ok (Session_ack s) /\ zlen (ack_cumulative (Session_ack s)) = CHANNEL_COUNT /\
  Forall (fits 32) (ack_cumulative (Session_ack s)) /\ ack_reported (Session_ack s) = CHANNEL_COUNT.
Proof.
  intros S. destruct (so_trigger s S) as (Ht1 & Ht2 & Ht3). split_and!.
  - unfold Session_ack, ack_ok. cbn [ack_trigger_channel ack_trigger_seq ack_nack ack_kind].
    destruct (se_ack_kind s); cbn [bool_decide decide decide_rel];
      [rewrite bool_decide_eq_false_2 by done|rewrite bool_decide_eq_true_2 by done];
      unfold fits, U32_MAX, CHANNEL_COUNT in *; split_and!; try done; try lia.
  - unfold Session_ack. cbn [ack_cumulative]. unfold zlen. rewrite length_map. exact (so_recv_len s S).
  - unfold Session_ack. cbn [ack_cumulative]. apply Forall_map. pose proof (so_recv s S) as H.
    eapply Forall_impl; [|exact H]. intros [ring|] Hr; cbn; [by apply wf_cumulative|unfold fits; lia].
  - done.
Qed.

Lemma encode_ack_small out a : zlen out < ACK_LEN -> exists e, encode_ack out a = (out, Err e).
Proof.
  intros H. unfold encode_ack. destruct (_ <=? _); [by eexists|]. destruct (_ && _); [by eexists|].
  unfold get_range. rewrite (proj2 (Z.leb_gt ACK_LEN (zlen out))), andb_false_r by done. by eexists.
Qed.

Lemma emit_ack_emits s out s' out' n :
  session_ok s -> Session_emit_ack s out = (s', out', Ok n) ->
  emission s s' (take (Z.to_nat n) out') (Packet_Ack (Session_ack s)).
Proof.
  intros S H. unfold Session_emit_ack in H. set (s1 := if ack_nack _ then _ else s) in H.
  assert (session_ok (s1 <| se_trigger_nack := false |>) /\ se_envelope s1 = se_envelope s /\
          se_tx_counter s1 = se_tx_counter s) as (S1 & Ee & Et).
  { unfold s1. destruct (ack_nack _); [|by destruct S]. destruct (get_at _ _); by destruct S. }
  destruct (get_range _ _ _) as [body|] eqn:Eb; [|done]. apply get_tail_len in Eb as Hl.
  destruct (session_ack_ok s S) as (Hok & Hz & Hf & Hr). destruct (ack_wire_parse _ Hok Hz Hf Hr) as [Hw Hp].
  destruct (Z.le_gt_cases ACK_LEN (zlen body)) as [Hbig|Hsmall].
  - rewrite encode_ack_wire in H by done.
    set (w := ack_header (Session_ack s) ++ values_wire (ack_cumulative (Session_ack s))) in *.
    assert (w = take (Z.to_nat ACK_LEN) (ack_header (Session_ack s) ++
      values_wire (ack_cumulative (Session_ack s)) ++ drop (Z.to_nat ACK_LEN) body)) as Htake
      by (rewrite app_assoc, take_app_length'; [done|]; fold w; unfold zlen, ACK_LEN in *; lia).
    destruct (seal_emits _ _ _ _ _ _ _ w S1 Hl Htake Hw H)
      as (Hrec & Hlim & ->).
    cbn [se_envelope se_tx_counter set_field] in Hrec, Hlim. rewrite Ee, Et in Hrec. rewrite Et in Hlim.
    eexists. split_and!; [exact Hrec|done..| |]; cbn; congruence.
  - destruct (encode_ack_small body (Session_ack s) Hsmall) as [e E]. by rewrite E in H.
Qed.

Lemma ring_at_map {A} (f : A -> A) rings i ring :
  ring_at (map (option_map f) rings) i = Some ring -> exists old, ring_at rings i = Some old /\ ring = f old.
Proof.
  unfold ring_at, get_at. rewrite list_lookup_fmap. destruct (rings !! Z.to_nat i) as [[old|]|]; try done.
  cbn. intros [= <-]. by exists old.
Qed.

(** Opening a pass moves nothing in flight. *)
Lemma carries_begin s packet :
  carries_fragment (s <| se_send ::= each_ring SendRing_begin_pass |> <| se_drain_channel := 0 |>
                      <| se_drain_started := true |>) packet -> carries_fragment s packet.
Proof.
  intros (i & ring & k & last & body & Hr & Hk & Hq & ->).
  apply ring_at_map in Hr as (old & Hr & ->). exists i, old, k, last, body.
  split; [done|]. split; [exact Hk|]. split; [exact Hq|done].
Qed.

Lemma get_output_emits s now out s' out' n :
  session_ok s -> Session_get_output s now out = (s', out', Some (Ok n)) ->
  exists packet, emission s s' (take (Z.to_nat n) out') packet /\
    (carries_fragment s packet \/ packet = Packet_Ack (Session_ack s)).
Proof.
  intros S H. unfold Session_get_output in H. set (s1 := if negb _ then _ else s) in H.
  assert (session_ok s1 /\ se_envelope s1 = se_envelope s /\ se_tx_counter s1 = se_tx_counter s /\
    Session_ack s1 = Session_ack s /\ (forall packet, carries_fragment s1 packet -> carries_fragment s packet))
    as (S1 & Ee & Et & Ea & Hc).
  { unfold s1. destruct (negb _); [|done]. split_and!; try done; [|apply carries_begin].
    destruct S. split; try done. apply rings_ok_map; [apply begin_pass_wf|done]. }
  pose proof (drain_loop_quiet DRAIN_FUEL s1 now out) as Hq. pose proof (drain_loop_ok DRAIN_FUEL s1 now out S1) as S2.
  destruct (drain_loop DRAIN_FUEL s1 now out) as [[s2 out2] [res|]] eqn:Ed.
  - injection H as -> -> ->. destruct (drain_loop_emits _ _ _ _ _ _ _ S1 Ed) as (packet & He & Hcar).
    exists packet. split; [by apply (emission_from s1)|left; by apply Hc].
  - destruct Hq as (Ee2 & _ & Et2 & Er2 & Ek2 & Etr2 & En2). specialize (Et2 eq_refl).
    destruct (se_ack_due s2); [|done]. cbn [fst] in S2.
    set (s3 := s2 <| se_ack_due := false |> <| se_last_ack_sent_ms := now |> <| se_drain_started := false |>) in H.
    assert (session_ok s3) as S3 by (by destruct S2).
    destruct (Session_emit_ack s3 out2) as [[s4 out4] res4] eqn:E4. injection H as -> -> ->.
    exists (Packet_Ack (Session_ack s)). split; [|by right]. rewrite <- Ea.
    apply (emission_from s3); [cbn; congruence..|].
    replace (Session_ack s1) with (Session_ack s3); [by apply (emit_ack_emits s3 out2)|].
    unfold Session_ack. cbn. by rewrite Er2, Ek2, Etr2, En2.
Qed.

(** C13: what a session emits.  Whatever its state, a datagram it hands to the
    socket is within the absolute ceiling, is taken for a record by the
    demultiplexer, and opens under the session's key, at the session's own
    counter, to a packet the peer's parser accepts: either a fragment one of
    its channels has in flight, or the group acknowledgement of every
    channel's frontier. *)
Theorem output_well_formed (s : Session) (now_ms : f64) (out : list Z) (s' : Session) (out' : list Z) (n : Z) :
  session_ok s -> Session_get_output s now_ms out = (s', out', Some (Ok n)) ->
  session_ok s' /\
  exists p packet,
    let d := take (Z.to_nat n) out' in
    zlen d <= MAX_DATAGRAM /\ demux_classify d = Record_ /\
    (forall buf, zlen p <= zlen buf ->
       Envelope_open (se_envelope s) d buf = (put_range buf 0 p, Ok (mkOpened (se_tx_counter s) p))) /\
    packet_parse p = Ok packet /\
    (carries_fragment s packet \/ packet = Packet_Ack (Session_ack s)).
Proof.
  intros S H. split.
  - pose proof (get_output_ok s now_ms out S) as S'. by rewrite H in S'.
  - destruct (get_output_emits _ _ _ _ _ _ S H) as (packet & (p & Hr & Hp & _) & Hc).
    exists p, packet. destruct Hr. done.
Qed.

(** ** Input *)

(** A datagram that opened is, field by field, the seal of what it opened to. *)
Lemma open_ok_inv e d out out' opened :
  EnvelopeOk e -> bytes_ok d -> Envelope_open e d out = (out', Ok opened) ->
  exists m size tag c,
    d = m ++ to_be 8 (op_counter opened) ++ size ++ tag ++ c /\
    zlen m = 3 /\ zlen size = 2 /\ zlen tag = 16 /\
    keyed_seal (env_keyed e) (Envelope_nonce_bytes e (op_counter opened)) (op_cleartext opened) = (c, Ok tag).
Proof.
  intros He Hb H.
  destruct (Z.lt_ge_cases (zlen d) 29) as [Hs|Hl].
  { unfold Envelope_open, ENVELOPE_LEN in H. by rewrite (proj2 (Z.ltb_lt _ _)) in H. }
  destruct (record_split d Hb Hl) as (m & counter & size & tag & c & -> & Hm & Hc & Hsz & Ht & Hlc).
  destruct (Z.le_gt_cases (zlen c) (zlen out)) as [Hfit|Hbig].
  - rewrite open_fields in H by done. destruct (keyed_open _ _ _ _) as [body [[]|err]] eqn:Eo; [|done].
    injection H as _ <-. exists m, size, tag, c. split_and!; try done. by apply sealed_open.
  - exfalso. revert H. unfold Envelope_open, ENVELOPE_LEN in *. rewrite (proj2 (Z.ltb_ge _ _)) by done.
    destruct (get_range _ NONCE_OFFSET _); [|done]. destruct (get_range _ TAG_OFFSET _); [|done].
    destruct (get_range _ CIPHERTEXT_OFFSET _); [|done].
    unfold get_range. rewrite (proj2 (Z.leb_gt _ (zlen out))), andb_false_r by lia. done.
Qed.

(** C5: only authenticated input counts.  A datagram that is refused, for
    whatever reason, leaves the session exactly as it was; one that is not is,
    field by field, the seal under the session's key of a packet that parses,
    and the session's invariant still holds after it. *)
Theorem input_authenticated (s : Session) (datagram : list Z) (now_ms : f64) (scratch : list Z) :
  session_ok s -> bytes_ok datagram ->
  let '(s', _, res) := Session_process_input s datagram now_ms scratch in
  match res with
  | Err _ => s' = s
  | Ok _ =>
      session_ok s' /\
      exists m counter size tag c p packet,
        datagram = m ++ to_be 8 counter ++ size ++ tag ++ c /\
        zlen m = 3 /\ zlen size = 2 /\ zlen tag = 16 /\
        keyed_seal (env_keyed (se_envelope s)) (Envelope_nonce_bytes (se_envelope s) counter) p = (c, Ok tag) /\
        packet_parse p = Ok packet
  end.
Proof.
  intros S Hb. pose proof (process_input_ok s datagram now_ms scratch S Hb) as S'.
  destruct (Session_process_input s datagram now_ms scratch) as [[s' scratch'] res] eqn:E. cbn [fst] in S'.
  unfold Session_process_input in E.
  destruct (Envelope_open _ _ _) as [o2 [opened|e]] eqn:Eo; [|by injection E as <- <- <-].
  destruct (packet_parse (op_cleartext opened)) as [packet|e] eqn:Ep; [|by injection E as <- <- <-].
  destruct (open_ok_inv _ _ _ _ _ (so_env s S) Hb Eo) as (m & size & tag & c & Hd & Hm & Hs & Ht & Hk).
  assert (exists inbound, res = Ok inbound) as [inbound ->].
  { destruct packet as [data|ack]; [destruct (ring_at _ _)|destruct (Session_on_acknowledgement _ _ _)];
      injection E as <- <- <-; by eexists. }
  split; [done|]. exists m, (op_counter opened), size, tag, c, (op_cleartext opened), packet. done.
Qed.

(** ** The life of a session *)

(** What can happen to a session; the label is the datagram it emits, if any.
    The reader's and the sender's windows are clear of the wrap where a ring's
    contents are moved. *)
Inductive session_step : Session -> option (list Z) -> Session -> Prop :=
  | step_input s d now scratch :
      bytes_ok d -> session_step s None (fst (fst (Session_process_input s d now scratch)))
  | step_poll s now : session_step s None (Session_poll s now)
  | step_output s now out s' out' n :
      Session_get_output s now out = (s', out', Some (Ok n)) ->
      session_step s (Some (take (Z.to_nat n) out')) s'
  | step_idle s now out s' out' res :
      Session_get_output s now out = (s', out', res) -> (forall n, res <> Some (Ok n)) ->
      session_step s None s'
  | step_send s channel ring header payload :
      ring_at (se_send s) channel = Some ring -> window_inj (zlen (sr_meta ring)) (sr_base ring) ->
      session_step s None (fst (Session_send_message s channel header payload))
  | step_take s channel ring out :
      ring_at (se_recv s) channel = Some ring -> window_inj (zlen (rr_meta ring)) (rr_delivered ring) ->
      session_step s None (fst (fst (Session_take_message s channel out)))
  | step_level s level : session_step s None (Session_set_level s level)
  | step_reset s channel sequence :
      fits 32 sequence -> session_step s None (fst (Session_reset_recv s channel sequence))
  | step_attach_recv s channel ring :
      recv_wf ring -> session_step s None (fst (Session_attach_recv s channel ring))
  | step_attach_send s channel ring :
      send_wf ring -> session_step s None (fst (Session_attach_send s channel ring)).

(** A run, and the datagrams it emitted, in order. *)
Inductive session_run : Session -> list (list Z) -> Session -> Prop :=
  | run_done s : session_run s [] s
  | run_step s label s' ds s'' :
      session_step s label s' -> session_run s' ds s'' ->
      session_run s (match label with Some d => d :: ds | None => ds end) s''.

(** The key and the counter, which only an emission moves. *)
Definition same_sealing (s s' : Session) : Prop :=
  se_envelope s' = se_envelope s /\ se_tx_counter s <= se_tx_counter s'.

Lemma observe_sealing s x :
  se_envelope (Session_observe_rtt s x) = se_envelope s /\
  se_tx_counter (Session_observe_rtt s x) = se_tx_counter s.
Proof.
  unfold Session_observe_rtt. destruct (_ || _); [done|].
  destruct (get_at _ _); cbv zeta; by destruct (se_srtt_seeded _).
Qed.

Lemma identify_sealing s ack :
  se_envelope (Session_identify_peer s ack) = se_envelope s /\
  se_tx_counter (Session_identify_peer s ack) = se_tx_counter s.
Proof. unfold Session_identify_peer. destruct (_ <? _); [done|]. by destruct (se_peer_identified s). Qed.

Lemma same_sealing_eq s s' :
  se_envelope s' = se_envelope s -> se_tx_counter s' = se_tx_counter s -> same_sealing s s'.
Proof. intros E1 E2. split; [done|]. lia. Qed.

Lemma on_acknowledgement_sealing s ack now :
  same_sealing s (fst (Session_on_acknowledgement s ack now)).
Proof.
  unfold Session_on_acknowledgement.
  destruct (identify_sealing (s <| se_last_ack_in_ms := now |>) ack) as [E1 E2].
  set (s2 := Session_identify_peer _ _) in *. destruct (ack_kind ack).
  - destruct (ack_rings _ _ _ _) as [rings [x|]]; cbn [fst]; [|by apply same_sealing_eq].
    destruct (observe_sealing (s2 <| se_send := rings |>) x) as [F1 F2].
    apply same_sealing_eq; [by rewrite F1|by rewrite F2].
  - by apply same_sealing_eq.
Qed.

Lemma process_input_sealing s d now scratch :
  same_sealing s (fst (fst (Session_process_input s d now scratch))).
Proof.
  unfold Session_process_input. destruct (Envelope_open _ _ _) as [o [opened|]]; [|by apply same_sealing_eq].
  destruct (packet_parse _) as [[data|ack]|]; [| |by apply same_sealing_eq].
  - destruct (ring_at _ _) as [ring|]; [|by apply same_sealing_eq]. cbn [fst]. unfold Session_on_data.
    destruct (RecvRing_store _ _ _) as [ring' []]; try by apply same_sealing_eq.
    cbv zeta. destruct (negb _), (_ || _); by apply same_sealing_eq.
  - pose proof (on_acknowledgement_sealing (s <| se_last_progress_ms := now |>) ack now).
    by destruct (Session_on_acknowledgement _ _ _).
Qed.

Lemma emit_ack_sealing s out : same_sealing s (fst (fst (Session_emit_ack s out))).
Proof.
  unfold Session_emit_ack. set (s1 := if ack_nack _ then _ else s).
  assert (se_envelope s1 = se_envelope s /\ se_tx_counter s1 = se_tx_counter s) as [E1 E2].
  { unfold s1. destruct (ack_nack _); [|done]. by destruct (get_at _ _). }
  destruct (get_range _ _ _); [|by apply same_sealing_eq].
  destruct (encode_ack _ _) as [body [w|]]; [|by apply same_sealing_eq].
  unfold Session_seal, checked_add. destruct (_ <? _); [|by apply same_sealing_eq].
  destruct (Envelope_seal_in_place _ _ _ _). split; [done|]. cbn. lia.
Qed.

Lemma get_output_sealing s now out : same_sealing s (fst (fst (Session_get_output s now out))).
Proof.
  unfold Session_get_output. set (s1 := if negb _ then _ else s).
  assert (se_envelope s1 = se_envelope s /\ se_tx_counter s1 = se_tx_counter s) as [E1 E2]
    by (unfold s1; by destruct (negb _)).
  pose proof (drain_loop_quiet DRAIN_FUEL s1 now out) as H.
  destruct (drain_loop _ _ _ _) as [[s2 out2] [res|]]; destruct H as (E3 & H4 & _); unfold same_sealing;
    [cbn [fst]; split; [congruence|lia]|].
  destruct (se_ack_due s2); [|cbn; split; [congruence|lia]].
  match goal with |- context [Session_emit_ack ?s3 ?o] => pose proof (emit_ack_sealing s3 o) as [E5 H6];
    destruct (Session_emit_ack s3 o) as [[s4 out4] res4] end.
  cbn in E5, H6 |- *. split; [congruence|lia].
Qed.

Lemma send_message_step s channel ring header payload :
  session_ok s -> ring_at (se_send s) channel = Some ring -> window_inj (zlen (sr_meta ring)) (sr_base ring) ->
  session_ok (fst (Session_send_message s channel header payload)) /\
  same_sealing s (fst (Session_send_message s channel header payload)).
Proof.
  intros S Hr Hinj. unfold Session_send_message. rewrite Hr.
  destruct (Message_new header payload) as [m|e] eqn:Em; [|split; [done|by apply same_sealing_eq]].
  assert (message_ok m) as Hm.
  { unfold message_ok. rewrite <- Em. unfold Message_new in Em.
    destruct (checked_add _ _ _) as [t|]; [|done]. cbn in Em. destruct (try_from _ _) as [t'|]; [|done].
    by injection Em as <-. }
  pose proof (enqueue_wf ring m (se_srtt_ms s) (ring_at_ok _ _ _ _ (so_send s S) Hr) Hinj Hm) as W.
  destruct (SendRing_enqueue _ _ _) as [ring' res]. split; [by apply put_send_ok|by apply same_sealing_eq].
Qed.

Lemma take_message_wf r out :
  recv_wf r -> window_inj (zlen (rr_meta r)) (rr_delivered r) ->
  recv_wf (fst (fst (RecvRing_take_message r out))).
Proof.
  intros W Hinj. destruct (locate_in (frags r)) as [[[total n]|e]|] eqn:E.
  - destruct (Z.le_gt_cases total (zlen out)).
    + destruct (take_located r out total n W Hinj E) as (r' & -> & _ & W' & _); done.
    + unfold RecvRing_take_message. rewrite locate_frags, E by done. by rewrite (proj2 (Z.ltb_lt _ _)).
  - unfold RecvRing_take_message. by rewrite locate_frags, E.
  - unfold RecvRing_take_message. by rewrite locate_frags, E.
Qed.

(** One step keeps the invariant and the key; it uses at most the next
    counter. *)
Lemma step_preserves s label s' :
  session_step s label s' -> session_ok s ->
  session_ok s' /\ same_sealing s s' /\
  forall d, label = Some d -> record_counter d = se_tx_counter s /\
    se_tx_counter s < COUNTER_LIMIT /\ se_tx_counter s' = se_tx_counter s + 1.
Proof.
  intros H S. destruct H as [s d now scratch Hd|s now|s now out s' out' n H|s now out s' out' res H Hn
    |s ch ring header payload Hr Hinj|s ch ring out Hr Hinj|s level|s ch sequence Hf|s ch ring W|s ch ring W].
  - split_and!; [by apply process_input_ok|apply process_input_sealing|done].
  - split_and!; [by apply poll_ok| |done]. unfold Session_poll. by destruct (_ && _); apply same_sealing_eq.
  - pose proof (get_output_ok s now out S) as S'. pose proof (get_output_sealing s now out) as Hs.
    rewrite H in S', Hs. split_and!; [done|done|]. intros d [= <-].
    destruct (get_output_emits _ _ _ _ _ _ S H) as (packet & (p & Hrec & _ & Hlim & Htx & _) & _).
    by destruct Hrec.
  - pose proof (get_output_ok s now out S) as S'. pose proof (get_output_sealing s now out) as Hs.
    rewrite H in S', Hs. by split_and!.
  - destruct (send_message_step s ch ring header payload S Hr Hinj). by split_and!.
  - unfold Session_take_message. rewrite Hr.
    pose proof (take_message_wf ring out (ring_at_ok _ _ _ _ (so_recv s S) Hr) Hinj) as W.
    destruct (RecvRing_take_message _ _) as [[ring' out'] res].
    split_and!; [by apply put_recv_ok|by apply same_sealing_eq|done].
  - split_and!; [by destruct S|by apply same_sealing_eq|done].
  - unfold Session_reset_recv. destruct (ring_at _ _) as [ring|] eqn:Er; [|split_and!; [done|by apply same_sealing_eq|done]].
    split_and!; [|by apply same_sealing_eq|done]. apply put_recv_ok; [done|].
    by apply reset_wf; [apply (ring_at_ok _ _ _ _ (so_recv s S) Er)|].
  - unfold Session_attach_recv. destruct (get_at _ _); (split_and!; [|by apply same_sealing_eq|done]); [|done].
    by apply put_recv_ok.
  - unfold Session_attach_send. destruct (get_at _ _); (split_and!; [|by apply same_sealing_eq|done]); [|done].
    by apply put_send_ok.
Qed.

Lemma run_preserves s ds s' :
  session_run s ds s' -> session_ok s ->
  session_ok s' /\ same_sealing s s' /\
  Forall (fun d => se_tx_counter s <= record_counter d < se_tx_counter s' /\ record_counter d < COUNTER_LIMIT) ds /\
  StronglySorted Z.lt (map record_counter ds).
Proof.
  induction 1 as [s|s label s1 ds s2 Hstep Hrun IH]; intros S.
  { split_and!; [done|by apply same_sealing_eq|constructor..]. }
  destruct (step_preserves _ _ _ Hstep S) as (S1 & [E1 H1] & Hl).
  destruct (IH S1) as (S2 & [E2 H2] & Hf & Hsort).
  assert (same_sealing s s2) as Hss by (split; [congruence|lia]).
  destruct label as [d|].
  - destruct (Hl d eq_refl) as (Hc & Hlim & Htx). split_and!; try done.
    + constructor; [lia|]. eapply Forall_impl; [|exact Hf]. cbn. intros x Hx. lia.
    + cbn [map]. constructor; [done|]. apply Forall_map. eapply Forall_impl; [|exact Hf]. cbn. intros x Hx. lia.
  - split_and!; try done. eapply Forall_impl; [|exact Hf]. cbn. intros x Hx. lia.
Qed.

(** C2: no nonce is used twice.  Over any run of a session (whatever arrives,
    whenever it is polled, drained, written to or read from), the records it
    emits carry strictly increasing counters below the limit, so no two are
    sealed under the same nonce; and the session's invariant holds throughout. *)
Theorem nonces_fresh (s s' : Session) (ds : list (list Z)) :
  session_run s ds s' -> session_ok s ->
  session_ok s' /\
  StronglySorted Z.lt (map record_counter ds) /\
  Forall (fun d => 0 <= record_counter d < COUNTER_LIMIT) ds /\
  NoDup (map (fun d => Envelope_nonce_bytes (se_envelope s) (record_counter d)) ds).
Proof.
  intros Hrun S. destruct (run_preserves s ds s' Hrun S) as (S' & _ & Hf & Hsort).
  destruct (so_counter s S) as [H0 _].
  assert (Forall (fun d => 0 <= record_counter d < COUNTER_LIMIT) ds) as Hb.
  { eapply Forall_impl; [|exact Hf]. cbn. intros x Hx. lia. }
  split_and!; try done. clear Hf Hrun. induction ds as [|d ds IH]; cbn [map]; constructor.
  - inversion_clear Hsort as [|?? _ Hlt]. inversion_clear Hb as [|?? Hd Hds].
    rewrite list_elem_of_In, in_map_iff. intros (d' & E & Hin).
    rewrite List.Forall_forall in Hds, Hlt. specialize (Hds d' Hin).
    assert (record_counter d' = record_counter d) as Ec.
    { apply (nonce_bytes_inj (se_envelope s)); [apply (so_env s S)|unfold fits, COUNTER_LIMIT in *; lia..|done]. }
    specialize (Hlt (record_counter d') ltac:(apply in_map_iff; by exists d')). lia.
  - inversion_clear Hsort. inversion_clear Hb. by apply IH.
Qed.

(** ** A concrete session *)

(** Channel 3 both ways, with a message queued. *)
Definition session3 : Session :=
  Session_new sum_envelope 1 f64_zero
    <| se_recv := put_at (repeat None 19) 3 (Some ring8) |>
    <| se_send := put_at (repeat None 19) 3 (Some sring2) |>.

Lemma session3_ok : session_ok session3.
Proof.
  split; try done.
  - apply _.
  - apply rings_ok_put; [by repeat constructor|exact ring8_wf].
  - apply rings_ok_put; [by repeat constructor|exact sring2_wf].
Qed.

Lemma output3 : exists s' out', Session_get_output session3 (f64_of_Z 5) (repeat 0 64) = (s', out', Some (Ok 44)).
Proof.
  assert (snd (Session_get_output session3 (f64_of_Z 5) (repeat 0 64)) = Some (Ok 44)) as H by (by vm_compute).
  destruct (Session_get_output session3 (f64_of_Z 5) (repeat 0 64)) as [[s' out'] res]. cbn in H. subst. by do 2 eexists.
Qed.

Lemma output_well_formed_witness : exists s' out',
  Session_get_output session3 (f64_of_Z 5) (repeat 0 64) = (s', out', Some (Ok 44)) /\
  session_ok s' /\ demux_classify (take 44 out') = Record_.
Proof.
  destruct output3 as (s' & out' & E).
  destruct (output_well_formed session3 (f64_of_Z 5) (repeat 0 64) s' out' 44 session3_ok E)
    as (S' & p & packet & _ & Hc & _).
  exists s', out'. split; [exact E|]. split; [exact S'|exact Hc].
Defined.

(** The record [session3] emits first. *)
Definition record3 : list Z :=
  take 44 (snd (fst (Session_get_output session3 (f64_of_Z 5) (repeat 0 64)))).

Lemma record3_bytes : bytes_ok record3.
Proof.
  assert (Forall (fun b => (0 <=? b) && (b <? 2 ^ 8) = true) record3) as H by (vm_compute; repeat constructor).
  eapply Forall_impl; [|exact H]. cbn. intros b. unfold fits. zcases; done || lia.
Qed.

Lemma input_authenticated_witness :
  let '(s', _, res) := Session_process_input session3 record3 (f64_of_Z 6) (repeat 0 64) in
  match res with Err _ => s' = session3 | Ok _ => session_ok s' end.
Proof.
  pose proof (input_authenticated session3 record3 (f64_of_Z 6) (repeat 0 64) session3_ok record3_bytes) as H.
  destruct (Session_process_input session3 record3 (f64_of_Z 6) (repeat 0 64)) as [[s' o] [i|e]]; [apply H|exact H].
Defined.

Lemma record3_accepted :
  snd (Session_process_input session3 record3 (f64_of_Z 6) (repeat 0 64)) = Ok (Inbound_Data 3).
Proof. by vm_compute. Qed.

Lemma nonces_fresh_witness : exists d s',
  session_run session3 [d] s' /\
  NoDup (map (fun d => Envelope_nonce_bytes sum_envelope (record_counter d)) [d]) /\ session_ok s'.
Proof.
  destruct output3 as (s1 & out1 & E1).
  assert (session_run session3 [take 44 out1] s1) as Hrun.
  { apply (run_step session3 (Some (take 44 out1)) s1 []); [exact (step_output _ _ _ _ _ _ E1)|constructor]. }
  destruct (nonces_fresh session3 s1 _ Hrun session3_ok) as (S' & _ & _ & Hn).
  exists (take 44 out1), s1. split; [exact Hrun|]. split; [exact Hn|exact S'].
Defined.

(** Draining a session: what it means for [get_output] to say it is done. *)

(** A channel polled to its end: its pass is over, nothing of it changed, and
    every fragment the scan went by was acknowledged by itself, not due, or
    behind the outstanding cap. *)
Definition drained (now_ms srtt_ms : f64) (r r' : SendRing) : Prop :=
  sr_meta r' = sr_meta r /\ sr_bodies r' = sr_bodies r /\ sr_slot_len r' = sr_slot_len r /\
  sr_base r' = sr_base r /\ sr_next r' = sr_next r /\
  sr_cursor r' = sr_base r /\ sr_nack_below r' = None /\
  forall i, soff r (sr_cursor r) <= i < SendRing_in_flight r ->
    passed_by r i (sr_outstanding r') now_ms srtt_ms.

Lemma poll_none_drained r now srtt li out r' out' :
  send_wf r -> SendRing_poll_send r now srtt li out = (r', out', None) -> drained now srtt r r'.
Proof.
  intros W E. destruct (poll_send_scan r W now srtt _ out li eq_refl) as (o & s & k & Hk & _ & _ & Hp & H).
  rewrite E in H. destruct H as [(-> & [= -> _])|(_ & _ & m & body & _ & _ & _ & H)].
  - split_and!; done.
  - by destruct (encode_data _ _) as [? []].
Qed.

(** The loop over the channels, when it ends without a datagram: with the fuel
    given it ended because every channel from the current one on was drained. *)
Lemma drain_loop_none fuel s now out s' out' :
  session_ok s -> CHANNEL_COUNT - se_drain_channel s < Z.of_nat fuel -> 0 <= se_drain_channel s ->
  drain_loop fuel s now out = (s', out', None) ->
  CHANNEL_COUNT <= se_drain_channel s' /\ se_ack_due s' = se_ack_due s /\ se_srtt_ms s' = se_srtt_ms s /\
  forall i ring, 0 <= i < CHANNEL_COUNT -> ring_at (se_send s) i = Some ring ->
    exists ring', ring_at (se_send s') i = Some ring' /\
      if se_drain_channel s <=? i then drained now (se_srtt_ms s) ring ring' else ring' = ring.
Proof.
  revert s out. induction fuel as [|fuel IH]; intros s out S Hf H0 H;
    (destruct (Z.leb_spec CHANNEL_COUNT (se_drain_channel s)) as [Hge|Hlt];
     [assert (s' = s) as -> by (cbn [drain_loop] in H; rewrite ?(proj2 (Z.leb_le _ _) Hge) in H; congruence);
      split_and!; try done; intros i ring Hi Hr; exists ring; split; [done|];
      by rewrite (proj2 (Z.leb_gt _ _)) by lia|]).
  { lia. }
  cbn [drain_loop] in H. rewrite (proj2 (Z.leb_gt _ _) Hlt) in H.
  destruct (ring_at (se_send s) (se_drain_channel s)) as [ring0|] eqn:Er.
  - destruct (get_range _ _ _) as [body|]; [|done].
    pose proof (ring_at_ok _ _ _ _ (so_send s S) Er) as W.
    pose proof (poll_send_wf ring0 now (se_srtt_ms s) (se_level s) body W) as W'.
    destruct (SendRing_poll_send _ _ _ _ _) as [[ring' body'] res] eqn:Ep. cbn [fst] in W'.
    destruct res as [[w|e]|]; [by destruct (Session_seal _ _ _) as [[? ?] ?]|done|].
    pose proof (put_send_ok s (se_drain_channel s) ring' S W') as S1.
    pose proof (poll_none_drained _ _ _ _ _ _ _ W Ep) as D.
    set (s1 := put_send s (se_drain_channel s) ring' <| se_drain_channel ::= fun n => n + 1 |>) in *.
    destruct (IH s1 (put_range out ENVELOPE_LEN body')) as (Hd & Ea & Et & Hrings); [by destruct S1|cbn; lia|cbn; lia|done|].
    split_and!; [done..|]. intros i ring Hi Hr.
    assert (ring_at (se_send s1) i = Some (if decide (i = se_drain_channel s) then ring' else ring)) as Hr1.
    { change (se_send s1) with (put_at (se_send s) (se_drain_channel s) (Some ring')).
      rewrite (ring_at_put _ _ _ _ ring0 Er). rewrite Hr. by repeat case_decide; try lia. }
    destruct (Hrings i _ Hi Hr1) as (ring2 & Hr2 & H2). exists ring2. split; [done|].
    change (se_drain_channel s1) with (se_drain_channel s + 1) in H2.
    change (se_srtt_ms s1) with (se_srtt_ms s) in H2. case_decide as Hdec.
    + subst i. rewrite (proj2 (Z.leb_gt _ _)) in H2 by lia. rewrite Z.leb_refl.
      rewrite Er in Hr. injection Hr as <-. by subst ring2.
    + destruct (Z.leb_spec (se_drain_channel s) i).
      * by rewrite (proj2 (Z.leb_le _ _)) in H2 by lia.
      * by rewrite (proj2 (Z.leb_gt _ _)) in H2 by lia.
  - destruct (IH (s <| se_drain_channel ::= fun n => n + 1 |>) out) as (Hd & Ea & Et & Hrings);
      [by destruct S|cbn; lia|cbn; lia|done|].
    split_and!; [done..|]. intros i ring Hi Hr. destruct (Hrings i ring Hi Hr) as (ring2 & Hr2 & H2).
    exists ring2. split; [done|]. cbn [se_drain_channel se_srtt_ms set_field] in H2.
    destruct (Z.leb_spec (se_drain_channel s) i).
    + assert (i <> se_drain_channel s) by congruence. by rewrite (proj2 (Z.leb_le _ _)) in H2 by lia.
    + by rewrite (proj2 (Z.leb_gt _ _)) in H2 by lia.
Qed.

Lemma ring_at_each (f : SendRing -> SendRing) rings i ring :
  ring_at rings i = Some ring -> ring_at (each_ring f rings) i = Some (f ring).
Proof.
  unfold ring_at, each_ring, get_at. rewrite list_lookup_fmap.
  destruct (rings !! Z.to_nat i) as [[old|]|]; try done. cbn. by intros [= <-].
Qed.

(** A drain that ends has nothing left to say.  When a fresh call of
    [get_output] returns nothing, no acknowledgement was due, all nineteen
    channels have been polled to the end of their pass, and every fragment in
    flight on any of them was acknowledged by itself, is not due at this time,
    or waits behind the outstanding cap; the next call starts a new pass. *)
Theorem drain_ends (s s' : Session) (now_ms : f64) (out out' : list Z) :
  session_ok s -> se_drain_started s = false ->
  Session_get_output s now_ms out = (s', out', None) ->
  se_ack_due s = false /\ se_drain_started s' = false /\
  forall c ring, 0 <= c < CHANNEL_COUNT -> ring_at (se_send s) c = Some ring ->
    exists ring', ring_at (se_send s') c = Some ring' /\
      (forall i, queued ring' i = queued ring i) /\ sr_cursor ring' = sr_base ring' /\
      forall i m, 0 <= i < SendRing_in_flight ring ->
        get_at (sr_meta ring) (SendRing_index ring (spos ring i)) = Some m -> ss_occupied m = true ->
        OUTSTANDING_CAP <= sr_outstanding ring' \/
        slot_due (SendRing_begin_pass ring) i m now_ms (se_srtt_ms s) = false.
Proof.
  intros S Hst. unfold Session_get_output. rewrite Hst. cbn [negb].
  set (s1 := s <| se_send ::= _ |> <| se_drain_channel := 0 |> <| se_drain_started := true |>).
  assert (session_ok s1) as S1.
  { destruct S. split; try done. cbn [se_send set_field s1]. apply rings_ok_map; [|done]. apply begin_pass_wf. }
  destruct (drain_loop DRAIN_FUEL s1 now_ms out) as [[s2 out2] [res|]] eqn:Ed; [done|].
  assert (CHANNEL_COUNT - se_drain_channel s1 < Z.of_nat DRAIN_FUEL) as Hf
    by (change (se_drain_channel s1) with 0; unfold DRAIN_FUEL, CHANNEL_COUNT; lia).
  assert (0 <= se_drain_channel s1) as H0 by (change (se_drain_channel s1) with 0; lia).
  destruct (drain_loop_none _ _ _ _ _ _ S1 Hf H0 Ed) as (_ & Ea & _ & Hrings).
  destruct (se_ack_due s2) eqn:Ed2.
  { by destruct (Session_emit_ack _ _) as [[? ?] ?]. }
  intros [= <- _]. split_and!; [exact (eq_sym Ea)|done|]. intros c ring Hc Hr.
  destruct (Hrings c (SendRing_begin_pass ring) Hc) as (ring' & Hr' & HD).
  { cbn [se_send set_field s1]. unfold each_ring. by apply ring_at_each. }
  change (se_drain_channel s1) with 0 in HD. rewrite (proj2 (Z.leb_le _ _)) in HD by lia.
  destruct HD as (Em & Eb & Esl & Ebase & En & Ecur & _ & Hp).
  pose proof (seq_distance_refl (sr_base ring) : soff (SendRing_begin_pass ring) (sr_cursor (SendRing_begin_pass ring)) = 0) as E0.
  exists ring'. split; [done|]. split_and!.
  - intros i. unfold queued, slot_view, SendRing_index, spos. by rewrite Em, Eb, Esl, Ebase.
  - by rewrite Ecur, Ebase.
  - intros i m Hi Hm Hocc. rewrite E0 in Hp.
    destruct (Hp i Hi m Hm Hocc) as [|]; [by left|by right].
Qed.

(** ** A quiet session *)

(** The third session's state after three calls: both fragments sent, the
    drain ended. *)
Definition session3_sent : Session :=
  Nat.iter 3 (fun s => fst (fst (Session_get_output s (f64_of_Z 5) (repeat 0 64)))) session3.

Lemma session3_sent_ok : session_ok session3_sent.
Proof. unfold session3_sent. cbn [Nat.iter]. do 3 apply get_output_ok. exact session3_ok. Qed.

Lemma drain_ends_witness : exists s' out',
  Session_get_output session3_sent (f64_of_Z 6) (repeat 0 64) = (s', out', None) /\ se_drain_started s' = false.
Proof.
  assert (snd (Session_get_output session3_sent (f64_of_Z 6) (repeat 0 64)) = None) as E by (by vm_compute).
  assert (se_drain_started session3_sent = false) as Hd by (by vm_compute).
  destruct (Session_get_output session3_sent (f64_of_Z 6) (repeat 0 64)) as [[s' out'] res] eqn:Eo.
  cbn [snd] in E. subst res. exists s', out'. split; [reflexivity|].
  exact (proj1 (proj2 (drain_ends session3_sent s' (f64_of_Z 6) (repeat 0 64) out' session3_sent_ok Hd Eo))).
Defined.
