(* ===== verification/Transport.v ===== *)
(** The transport end to end: a message queued on one session's channel,
    fragmented, sealed and scattered by the network, is taken whole from the
    other's. *)

From S2P Require Import Prelude CoreError Seq Packet Message Channel ChannelFacts ChannelSpec.
From S2P Require Import Float64 Congestion Send SendFacts SendSpec SendPoll Envelope Session.
From S2P Require Import SessionFacts SessionSpec.

(** A cleartext packet carrying the fragment [i] past the base of [r]. *)
Definition carries (r : SendRing) (p : list Z) (i : Z) : Prop :=
  exists last body, queued r i = Some (last, body) /\
    packet_parse p = Ok (Packet_Data (mkData (sr_channel r) (spos r i) last body)).

(** ** A pass sends everything that has not been sent *)

Lemma run_pass_frame fuel r now srtt li out :
  send_wf r -> sendable r out -> window_inj (zlen (sr_meta r)) (sr_base r) ->
  let '(r', sent, _) := run_pass fuel r now srtt li out in
  zlen (sr_meta r') = zlen (sr_meta r) /\
  forall i, 0 <= i < SendRing_in_flight r ->
    (exists p, In p sent /\ carries r p i) \/
    get_at (sr_meta r') (SendRing_index r (spos r i)) = get_at (sr_meta r) (SendRing_index r (spos r i)).
Proof.
  revert r out. induction fuel as [|fuel IH]; intros r out W Hs Hinj; [by split; [|right]|].
  cbn [run_pass]. destruct (poll_step r now srtt li out W Hs) as (o & k & Hk & Ho & Hf & _ & H).
  pose proof (soff_fits r (sr_cursor r)) as Fc. unfold fits in Fc.
  destruct (SendRing_poll_send r now srtt li out) as [[r1 out1] res1]. destruct H as [(-> & s & E)|H].
  { injection E as -> -> ->. by split; [|right]. }
  destruct (poll_sent_wf r now srtt out o k r1 out1 res1 W ltac:(lia) Hf H) as (W1 & Eb & En & Ec & Eo & Hq).
  destruct H as (Hlt & Hcap & m & body & out2 & s & bs & ps & nr & tr & Hv & Hocc & Hdue & Hl & Hparse & E).
  injection E as E1 -> ->. pose proof (slot_view_meta _ _ _ _ Hv) as Hm.
  assert (zlen (sr_meta r1) = zlen (sr_meta r)) as Hz by (rewrite E1; apply zlen_put_at).
  assert (SendRing_in_flight r1 = SendRing_in_flight r) as Ef by (unfold SendRing_in_flight; by rewrite Eb, En).
  assert (sendable r1 out2) as Hs1.
  { destruct Hs as [Hs1 Hs2]. split; [by rewrite Hl, E1|]. rewrite Ef. unfold spos. by rewrite Eb. }
  specialize (IH r1 out2 W1 Hs1 ltac:(by rewrite Hz, Eb)).
  destruct (run_pass fuel r1 now srtt li out2) as [[r' sent] ended].
  destruct IH as [IHz IH]. split; [by rewrite IHz|].
  intros i Hi. destruct (IH i ltac:(by rewrite Ef)) as [(p & Hin & last & fb & Hqi & Hp)|Hsame].
  - left. exists p. split; [by right|]. exists last, fb. split; [by rewrite <- Hq|].
    unfold spos in Hp. rewrite Eb in Hp. rewrite E1 in Hp. exact Hp.
  - destruct (Z.eq_dec i k) as [->|Hne].
    + left. eexists. split; [by left|]. exists (ss_last m), body.
      split; [by rewrite (queued_view _ _ _ Hv), Hocc|exact Hparse].
    + right. unfold SendRing_index, spos in Hsame. rewrite Hz, Eb in Hsame.
      fold (spos r i) (SendRing_index r (spos r i)) in Hsame. rewrite Hsame. subst r1.
      rewrite after_send_get by done. destruct (Z.eqb_spec (SendRing_index r (spos r i)) (SendRing_index r (spos r k))) as [E|]; [|done].
      pose proof (in_flight_bounds r W). apply Hinj in E; lia.
Qed.

(** A channel whose fragments have all still to be sent. *)
Definition unsent (r : SendRing) : Prop :=
  forall i, 0 <= i < SendRing_in_flight r ->
    exists m, get_at (sr_meta r) (SendRing_index r (spos r i)) = Some m /\
      ss_occupied m = true /\ ss_sent m = false.

Lemma begin_pass_frame r now srtt li out i r' sent ended :
  send_wf r -> sendable r out -> window_inj (zlen (sr_meta r)) (sr_base r) -> unsent r ->
  SendRing_in_flight r < OUTSTANDING_CAP -> 0 <= i < SendRing_in_flight r ->
  run_pass (S (Z.to_nat (SendRing_in_flight r))) (SendRing_begin_pass r) now srtt li out = (r', sent, ended) ->
  exists p, In p sent /\ carries r p i.
Proof.
  intros W Hs Hinj Hu Hcap Hi E.
  pose proof (begin_pass_wf r W) as Wb.
  assert (soff (SendRing_begin_pass r) (sr_cursor (SendRing_begin_pass r)) = 0) as E0
    by exact (seq_distance_refl (sr_base r)).
  pose proof (run_pass_frame (S (Z.to_nat (SendRing_in_flight r))) (SendRing_begin_pass r) now srtt li out Wb Hs Hinj) as HF.
  pose proof (run_pass_spec (S (Z.to_nat (SendRing_in_flight r))) (SendRing_begin_pass r) now srtt li out Wb Hs) as HP.
  rewrite E in HF, HP. rewrite E0 in HP. destruct HF as [Hz HF].
  destruct HP as (_ & _ & Eb & En & _ & _ & Ho & _ & _ & Hset).
  - change (SendRing_in_flight r - 0 < Z.of_nat (S (Z.to_nat (SendRing_in_flight r)))). lia.
  - lia.
  - change (SendRing_in_flight (SendRing_begin_pass r)) with (SendRing_in_flight r) in *.
    change (sr_outstanding (SendRing_begin_pass r)) with 0 in Ho.
    destruct (HF i Hi) as [(p & Hin & Hc)|Hsame]; [by exists p|].
    change (SendRing_index (SendRing_begin_pass r) (spos (SendRing_begin_pass r) i))
      with (SendRing_index r (spos r i)) in Hsame.
    change (sr_meta (SendRing_begin_pass r)) with (sr_meta r) in Hsame.
    destruct (Hu i Hi) as (m & Hm & Hocc & Hsent). rewrite Hm in Hsame.
    destruct (Hset i Hi m) as [Hge|Hbad]; [|done|lia|congruence].
    unfold SendRing_index, spos. rewrite Hz, Eb. exact Hsame.
Qed.

Lemma enqueue_unsent r0 m srtt r :
  send_wf r0 -> window_inj (zlen (sr_meta r0)) (sr_base r0) -> message_ok m -> SendRing_in_flight r0 = 0 ->
  let n := Message_fragment_count m (sr_slot_len r0) in
  n <= SendRing_window_free r0 -> SendRing_enqueue r0 m srtt = (r, Ok n) ->
  send_wf r /\ sr_base r = sr_base r0 /\ sr_channel r = sr_channel r0 /\ sr_slot_len r = sr_slot_len r0 /\
  zlen (sr_meta r) = zlen (sr_meta r0) /\ SendRing_in_flight r = n /\ unsent r /\
  forall i, 0 <= i < n -> queued r i = Some (i =? n - 1, chunk (sr_slot_len r0) (Message_stream m) (Z.to_nat i)).
Proof.
  intros W Hinj Hm H0 n Hfree E.
  destruct (enqueue_slots r0 m srtt W Hinj Hm Hfree) as (r' & E' & W' & Eb & Ec & Es & Ez & Ef & Hn & Hw & V).
  fold n in E', Ef, Hn, Hw, V. rewrite E in E'. injection E' as <-. rewrite H0, !Z.add_0_l in *.
  assert (forall i, 0 <= i < n -> slot_view r (SendRing_index r (spos r i)) =
    Some (fresh_slot (zlen (chunk (sr_slot_len r0) (Message_stream m) (Z.to_nat i))) (i =? n - 1) srtt,
          chunk (sr_slot_len r0) (Message_stream m) (Z.to_nat i))) as V'.
  { intros i Hi. rewrite V by lia. rewrite (proj2 (Z.leb_le _ _)), (proj2 (Z.ltb_lt _ _)) by lia.
    cbn [andb]. by rewrite Z.sub_0_r. }
  split_and!; try done.
  - intros i Hi. rewrite Ef in Hi. eexists. split; [exact (slot_view_meta _ _ _ _ (V' i Hi))|done].
  - intros i Hi. by rewrite (queued_view _ _ _ (V' i Hi)).
Qed.

(** One pass is enough.  A message queued on an idle channel, of fewer
    fragments than the outstanding cap, is sent whole by the next pass: every
    fragment is carried by one of its datagrams. *)
Theorem pass_sends_message (r0 r : SendRing) (m : Message) (now_ms srtt_ms : f64) (level_index : Z)
    (out : list Z) (i : Z) :
  send_wf r0 -> window_inj (zlen (sr_meta r0)) (sr_base r0) -> message_ok m -> SendRing_in_flight r0 = 0 ->
  let n := Message_fragment_count m (sr_slot_len r0) in
  n <= SendRing_window_free r0 -> n < OUTSTANDING_CAP -> SendRing_enqueue r0 m srtt_ms = (r, Ok n) ->
  sendable r out -> 0 <= i < n ->
  let '(_, sent, ended) :=
    run_pass (S (Z.to_nat n)) (SendRing_begin_pass r) now_ms srtt_ms level_index out in
  exists p, In p sent /\ carries r p i.
Proof.
  intros W Hinj Hm H0 n Hfree Hcap E Hs Hi.
  destruct (enqueue_unsent r0 m srtt_ms r W Hinj Hm H0 Hfree E) as (W' & Eb & _ & _ & Ez & Ef & Hu & _).
  fold n in Ef. destruct (run_pass _ _ _ _ _ _) as [[r' sent] ended] eqn:Er.
  apply (begin_pass_frame r now_ms srtt_ms level_index out i r' sent ended); try done.
  - by rewrite Ez, Eb.
  - by rewrite Ef.
  - by rewrite Ef.
  - by rewrite Ef.
Qed.

(** ** The receiving session *)

(** Datagrams arriving one after another. *)
Fixpoint feed (t : Session) (ds : list (list Z)) (now : f64) (scratch : list Z) : Session :=
  match ds with
  | [] => t
  | d :: rest => feed (fst (fst (Session_process_input t d now scratch))) rest now scratch
  end.

(** A record around a packet that carries the fragment [i] of [r]. *)
Definition record_of (e : Envelope) (r : SendRing) (i : nat) (d : list Z) : Prop :=
  exists counter p, is_record e counter p d /\ carries r p (Z.of_nat i).

Lemma on_data_recv s data ring now :
  se_recv (Session_on_data s data ring now)
    = put_at (se_recv s) (d_channel data) (Some (fst (RecvRing_store ring (d_seq data) (d_body data)))).
Proof.
  unfold Session_on_data. destruct (RecvRing_store _ _ _) as [ring' []]; try done.
  cbv zeta. by destruct (negb _), (_ || _).
Qed.

(** Each such record is one store on the channel's ring. *)
Lemma feed_one t q r i d last body now scratch :
  ring_at (se_recv t) (sr_channel r) = Some q -> record_of (se_envelope t) r i d ->
  queued r (Z.of_nat i) = Some (last, body) -> MAX_DATAGRAM <= zlen scratch ->
  let t' := fst (fst (Session_process_input t d now scratch)) in
  se_envelope t' = se_envelope t /\
  ring_at (se_recv t') (sr_channel r) = Some (fst (RecvRing_store q (spos r (Z.of_nat i)) body)).
Proof.
  intros Hr (counter & p & Hrec & last' & body' & Hq' & Hp) Hq Hscr. rewrite Hq in Hq'. injection Hq' as <- <-.
  split; [apply process_input_sealing|]. unfold Session_process_input.
  destruct Hrec as [Hl Hc _ _ Ho]. unfold ENVELOPE_LEN in Hl. rewrite Ho by lia. cbn [op_cleartext].
  rewrite Hp. cbn [d_channel se_recv set_field]. rewrite Hr. cbn [fst].
  rewrite on_data_recv. cbn [d_channel d_seq d_body se_recv set_field].
  rewrite (ring_at_put _ _ _ _ q Hr). by rewrite decide_True.
Qed.

Lemma feed_store_all t q r part ids ds now scratch :
  ring_at (se_recv t) (sr_channel r) = Some q -> MAX_DATAGRAM <= zlen scratch ->
  Forall2 (record_of (se_envelope t) r) ids ds ->
  Forall (fun i => exists last, queued r (Z.of_nat i) = Some (last, part i)) ids ->
  ring_at (se_recv (feed t ds now scratch)) (sr_channel r)
    = Some (store_all q (map (fun i => (spos r (Z.of_nat i), part i)) ids)).
Proof.
  intros Hr Hscr H. revert t q Hr H. revert ds.
  induction ids as [|i ids IH]; intros ds t q Hr H Hparts; inversion H as [|? d ? ds' Hd Hds]; subst; [done|].
  inversion_clear Hparts as [|?? [last Hq] Hrest]. cbn [feed map store_all].
  destruct (feed_one t q r i d last (part i) now scratch Hr Hd Hq Hscr) as [Ee Er].
  apply IH; [exact Er|by rewrite Ee|done].
Qed.

Lemma stream_bytes m :
  message_ok m -> bytes_ok (msg_header m) -> bytes_ok (msg_payload m) -> bytes_ok (Message_stream m).
Proof.
  intros Hm Hh Hp. destruct (message_ok_inv m Hm) as [E _]. unfold Message_stream, bytes_ok.
  rewrite !Forall_app, E. split_and!; [apply to_be_ok|done..].
Qed.

Lemma chunk_storable m cap q i :
  message_ok m -> bytes_ok (msg_header m) -> bytes_ok (msg_payload m) -> 0 < cap < 2 ^ 16 ->
  cap <= rr_slot_len q -> Z.of_nat i < zlen (rr_meta q) -> storable (chunk cap (Message_stream m)) q i.
Proof.
  intros Hm Hh Hp Hc Hs Hi. pose proof (stream_bytes m Hm Hh Hp) as Hb.
  assert (zlen (chunk cap (Message_stream m) i) <= cap) as Hl
    by (rewrite zlen_chunk by lia; lia).
  split_and!; [done| |lia..]. by apply Forall_take, Forall_drop.
Qed.

(** C1: end to end, clear of the sequence wrap.  A message is queued on an idle
    channel whose window has room for it; the peer's ring for that channel is
    empty, stands at the same sequence, and has slots enough and as large; and
    neither window puts two of its sequences in one slot, as it may where it
    straddles the 32-bit wrap ([wrap_refuses_fragment]).  Then, whatever the
    order in which the records that carry its fragments arrive and however
    often each is repeated, as long as one copy of each arrives, once the peer's
    session has been fed them with buffers large enough, taking a message from
    the channel yields the header and the payload, byte for byte. *)
Theorem end_to_end (r0 r : SendRing) (m : Message) (srtt_ms : f64) (t : Session) (q : RecvRing)
    (ids : list nat) (ds : list (list Z)) (now_ms : f64) (scratch out : list Z) :
  send_wf r0 -> window_inj (zlen (sr_meta r0)) (sr_base r0) -> SendRing_in_flight r0 = 0 ->
  message_ok m -> bytes_ok (msg_header m) -> bytes_ok (msg_payload m) ->
  let n := Message_fragment_count m (sr_slot_len r0) in
  n <= SendRing_window_free r0 -> SendRing_enqueue r0 m srtt_ms = (r, Ok n) ->
  ring_at (se_recv t) (sr_channel r0) = Some q -> recv_wf q ->
  window_inj (zlen (rr_meta q)) (rr_delivered q) -> rr_delivered q = sr_base r0 ->
  (forall j, 0 <= j < zlen (rr_meta q) -> held q j = None) ->
  4 <= sr_slot_len r0 <= rr_slot_len q -> n <= zlen (rr_meta q) ->
  Forall2 (record_of (se_envelope t) r) ids ds ->
  Forall (fun i => Z.of_nat i < n) ids -> (forall i, Z.of_nat i < n -> In i ids) ->
  MAX_DATAGRAM <= zlen scratch -> Message_total_len m <= zlen out ->
  exists t', Session_take_message (feed t ds now_ms scratch) (sr_channel r0) out
    = (t', put_range out 0 (msg_header m ++ msg_payload m), Some (Ok (Message_total_len m))).
Proof.
  intros W Hinj H0 Hm Hbh Hbp n Hfree E Hq Wq Hqinj Hbase Hempty Hcap Hn Hds Hids Hall Hscr Hout.
  destruct (enqueue_unsent r0 m srtt_ms r W Hinj Hm H0 Hfree E) as (_ & Eb & Ec & _ & _ & _ & _ & Hqueued).
  pose proof (sg_slot_len r0 (sw_geom r0 W)) as Hsl.
  set (part := chunk (sr_slot_len r0) (Message_stream m)) in *.
  rewrite <- Ec in Hq |- *. pose proof (feed_store_all t q r part ids ds now_ms scratch Hq Hscr Hds) as Hfeed.
  assert (forall i, pos q (Z.of_nat i) = spos r (Z.of_nat i)) as Hpos
    by (intros i; unfold pos, spos; by rewrite Hbase, Eb).
  rewrite (map_ext _ (fun i => (pos q (Z.of_nat i), part i))) in Hfeed by (intros i; by rewrite Hpos).
  destruct (take_reassembled q m (sr_slot_len r0) part ids out) as (q' & Et & _); try done; try lia.
  - intros j b Hj. by rewrite Hempty.
  - eapply Forall_impl; [|exact Hids]. cbn. intros i Hi. apply chunk_storable; done || lia.
  - unfold Session_take_message. rewrite Hfeed.
    + rewrite Et. by eexists.
    + eapply Forall_impl; [|exact Hids]. cbn. intros i Hi. eexists. rewrite Hqueued by lia. by rewrite Nat2Z.id.
Qed.

(** ** A message across *)

Lemma pass_sends_message_witness :
  let '(_, sent, _) := run_pass 3 (SendRing_begin_pass sring2) (f64_of_Z 5) (f64_of_Z 20) 1 (repeat 0 15) in
  exists p, In p sent /\ carries sring2 p 1.
Proof.
  apply (pass_sends_message sring0 sring2 sample_message (f64_of_Z 5) (f64_of_Z 20) 1 (repeat 0 15) 1
    sring0_wf sring0_inj).
  - reflexivity.
  - reflexivity.
  - by vm_compute.
  - by vm_compute.
  - unfold sring2. by vm_compute.
  - exact sring2_sendable.
  - by vm_compute.
Defined.

(** Any cleartext within the ceiling has a record. *)
Lemma record_exists e counter p :
  EnvelopeOk e -> 0 <= counter < COUNTER_LIMIT -> bytes_ok p -> zlen p <= MAX_CLEARTEXT ->
  exists d, is_record e counter p d.
Proof.
  intros He Hc Hp Hl.
  destruct (seal_in_place_wire e counter (repeat 0 29) p [] Hc) as (c & tag & _ & _ & _ & _ & _ & E); try done.
  destruct (sealed_record e counter _ _ _ _ He (proj1 Hc) E) as (_ & _ & Hr).
  rewrite drop_app_length' in Hr by done. unfold zlen in Hr. rewrite Nat2Z.id, take_app_length in Hr.
  by eexists.
Qed.

Lemma sring2_records : exists d0 d1, record_of sum_envelope sring2 0 d0 /\ record_of sum_envelope sring2 1 d1.
Proof.
  destruct (record_exists sum_envelope 0 (data_wire (mkData 3 0 false [0; 0; 0; 6; 1; 2; 3; 4]))) as [d0 H0];
    [apply _|by vm_compute|repeat constructor; unfold fits; by vm_compute|by vm_compute|].
  destruct (record_exists sum_envelope 1 (data_wire (mkData 3 1 true [5; 6]))) as [d1 H1];
    [apply _|by vm_compute|repeat constructor; unfold fits; by vm_compute|by vm_compute|].
  exists d0, d1. split; (do 2 eexists; split; [eassumption|]; do 2 eexists; split; [by vm_compute|by vm_compute]).
Qed.

Lemma end_to_end_witness : exists d0 d1 t',
  Session_take_message (feed session3 [d1; d1; d0] (f64_of_Z 6) (repeat 0 2000)) 3 (repeat 9 8)
    = (t', [1; 2; 3; 4; 5; 6; 9; 9], Some (Ok 6)).
Proof.
  destruct sring2_records as (d0 & d1 & H0 & H1). exists d0, d1.
  apply (end_to_end sring0 sring2 sample_message (f64_of_Z 20) session3 ring8 [1%nat; 1%nat; 0%nat] [d1; d1; d0]
    (f64_of_Z 6) (repeat 0 2000) (repeat 9 8) sring0_wf sring0_inj).
  - reflexivity.
  - reflexivity.
  - repeat constructor; unfold fits; by vm_compute.
  - repeat constructor; unfold fits; by vm_compute.
  - by vm_compute.
  - by vm_compute.
  - reflexivity.
  - exact ring8_wf.
  - exact ring8_inj.
  - reflexivity.
  - intros j Hj. destruct (held ring8 j) as [b|] eqn:E; [|reflexivity].
    pose proof (ring8_consistent (fun _ => []) j b Hj E). pose proof (ring8_consistent (fun _ => [0]) j b Hj E).
    congruence.
  - by vm_compute.
  - by vm_compute.
  - repeat constructor; assumption.
  - repeat constructor; by vm_compute.
  - intros i Hi. change (Message_fragment_count sample_message (sr_slot_len sring0)) with 2 in Hi.
    destruct i as [|[|i]]; cbn; [tauto..|lia].
  - by vm_compute.
  - by vm_compute.
Defined.
