(* ===== verification/Control.v ===== *)
(** Control and input messages (crates/core/src/control.rs): the thirteen-byte
    header, the opcode names and the application message's framing. *)

From Stdlib Require Import String.
From S2P Require Import Prelude CoreError.

Definition CONTROL_HEADER_LEN : Z := 13.
Definition CONTROL_CHANNEL : Z := 0.

(** ** [mod op] *)

Definition op_KEYBOARD : Z := 0.
Definition op_MOUSE_BUTTON : Z := 1.
Definition op_MOUSE_WHEEL : Z := 2.
Definition op_MOUSE_MOTION : Z := 3.
Definition op_GAMEPAD_BUTTON : Z := 4.
Definition op_GAMEPAD_AXIS : Z := 5.
Definition op_GAMEPAD_UNPLUG : Z := 6.
Definition op_INIT : Z := 11.
Definition op_ENCODER_CONFIG : Z := 13.
Definition op_USER_DATA : Z := 17.
Definition op_GAMEPAD_STATE : Z := 23.
Definition op_RELEASE : Z := 24.
Definition op_MOUSE_MOTION_STREAM : Z := 26.
Definition op_PEN_TOUCH : Z := 30.
Definition op_PAD_REPORT : Z := 31.
Definition op_VIRTUAL_DEVICE : Z := 32.
Definition op_DIAGNOSTICS : Z := 35.
Definition op_CURSOR : Z := 9.
Definition op_DISCONNECT : Z := 10.
Definition op_STREAM_ENDED : Z := 27.
Definition op_BLOCKED : Z := 16.
Definition op_RUMBLE : Z := 20.
Definition op_ENCODE_LATENCY : Z := 21.
Definition op_GUEST_LIST : Z := 25.
Definition op_HOST_MODE : Z := 28.
Definition op_ENCODER_GENERATION : Z := 29.
Definition op_PAD_OUTPUT : Z := 33.
Definition op_FRAME_TIMING : Z := 34.

(** [op::name]: the arms of the match, in its order. *)
Definition op_name_arms : list (Z * string) :=
  [ (op_KEYBOARD, "keyboard");
    (op_MOUSE_BUTTON, "mouse-button");
    (op_MOUSE_WHEEL, "mouse-wheel");
    (op_MOUSE_MOTION, "mouse-motion");
    (op_GAMEPAD_BUTTON, "gamepad-button");
    (op_GAMEPAD_AXIS, "gamepad-axis");
    (op_GAMEPAD_UNPLUG, "gamepad-unplug");
    (op_CURSOR, "cursor");
    (op_DISCONNECT, "disconnect");
    (op_STREAM_ENDED, "stream-ended");
    (op_INIT, "init");
    (op_ENCODER_CONFIG, "encoder-config");
    (op_BLOCKED, "blocked");
    (op_USER_DATA, "user-data");
    (op_RUMBLE, "rumble");
    (op_ENCODE_LATENCY, "latency");
    (op_GAMEPAD_STATE, "gamepad-state");
    (op_RELEASE, "release");
    (op_GUEST_LIST, "guest-list");
    (op_MOUSE_MOTION_STREAM, "mouse-motion-stream");
    (op_HOST_MODE, "host-mode");
    (op_ENCODER_GENERATION, "encoder-generation");
    (op_PEN_TOUCH, "pen-touch");
    (op_PAD_REPORT, "pad-report");
    (op_VIRTUAL_DEVICE, "virtual-device");
    (op_PAD_OUTPUT, "pad-output");
    (op_DIAGNOSTICS, "diagnostics");
    (op_FRAME_TIMING, "frame-timing") ]%string.

Definition op_name (opcode : Z) : string :=
  match find (fun arm => opcode =? fst arm) op_name_arms with
  | Some arm => snd arm
  | None => "unknown"%string
  end.

(** ** Messages *)

Record Control := mkControl {
  ct_a0 : Z;
  ct_a1 : Z;
  ct_a2 : Z;
  ct_opcode : Z;
  ct_body : list Z;
}.

(** [control::be32]. *)
Definition control_be32 (src : list Z) (offset : Z) : result Z :=
  ok_or (s ← get_range src offset (offset + 4); Some (from_be s)) ShortPacket.

(** [control::parse]. *)
Definition control_parse (content : list Z) : result Control :=
  a0 ← control_be32 content 0;
  a1 ← control_be32 content 4;
  a2 ← control_be32 content 8;
  opcode ← ok_or (get_at content 12) ShortPacket;
  body ← ok_or (get_range content CONTROL_HEADER_LEN (zlen content)) ShortPacket;
  Ok (mkControl a0 a1 a2 opcode body).

(** [control::encode_header]: the buffer afterwards and the bytes written. *)
Definition encode_header (out : list Z) (control : Control) : list Z * result Z :=
  match get_range out 0 CONTROL_HEADER_LEN with
  | None => (out, Err BufferTooSmall)
  | Some _ =>
      let bytes := to_be 4 (ct_a0 control) ++ to_be 4 (ct_a1 control) ++ to_be 4 (ct_a2 control)
                     ++ [ct_opcode control] in
      (put_range out 0 bytes, Ok CONTROL_HEADER_LEN)
  end.

Definition USER_DATA_MAX : Z := 0x100000.

(** [slice::strip_suffix(&[0])], with its [unwrap_or]. *)
Definition strip_terminator (body : list Z) : list Z :=
  match list.last body with
  | Some 0 => take (length body - 1) body
  | _ => body
  end.

(** [control::user_data]. *)
Definition user_data (message : Control) : option (Z * list Z) :=
  if negb (ct_opcode message =? op_USER_DATA) then None
  else
  let declared := default (2 ^ USIZE - 1) (try_from USIZE (ct_a0 message)) in
  let body := default (ct_body message) (get_range (ct_body message) 0 declared) in
  Some (ct_a1 message, strip_terminator body).

(** [control::string_body_len]. *)
Definition string_body_len (text_len : Z) : Z := text_len + 1.

(** ** The names *)

(** Reading a name back. *)
Definition opcode_of (name : string) : option Z :=
  fst <$> find (fun arm => String.eqb name (snd arm)) op_name_arms.

Lemma opcode_of_name a :
  In a (map fst op_name_arms) /\ opcode_of (op_name a) = Some a \/
  ~ In a (map fst op_name_arms) /\ op_name a = "unknown"%string /\ opcode_of (op_name a) = None.
Proof.
  assert (forallb (fun k => bool_decide (opcode_of (op_name k) = Some k)) (map fst op_name_arms) = true) as H
    by (by vm_compute).
  rewrite forallb_forall in H.
  destruct (in_dec Z.eq_dec a (map fst op_name_arms)) as [Hin|Hout]; [left|right].
  - split; [done|]. specialize (H a Hin). by apply bool_decide_eq_true in H.
  - split; [done|]. assert (op_name a = "unknown"%string) as E; [|by rewrite E].
    unfold op_name. destruct (find _ op_name_arms) as [arm|] eqn:E; [|done].
    apply find_some in E as [Hin Ea%Z.eqb_eq]. destruct Hout. subst a. by apply in_map.
Qed.

(** A name in the log identifies the opcode.  Exactly the opcodes outside
    the table render as [unknown], and no two of those inside it share a name. *)
Theorem op_name_identifies (a b : Z) :
  (op_name a = "unknown"%string <-> ~ In a (map fst op_name_arms)) /\
  (op_name a = op_name b -> a = b \/ op_name a = "unknown"%string).
Proof.
  split.
  - destruct (opcode_of_name a) as [[Hin E]|(Hout & E & _)]; [|done].
    split; [|done]. intros E'. by rewrite E' in E.
  - intros E. destruct (opcode_of_name a) as [[_ Ea]|(_ & Ea & _)]; [left|by right].
    destruct (opcode_of_name b) as [[_ Eb]|(_ & _ & Eb)]; congruence.
Qed.

Lemma op_name_identifies_witness :
  op_name 17 = "user-data"%string /\ (17 = 17 \/ op_name 17 = "unknown"%string).
Proof. split; [reflexivity|]. apply (proj2 (op_name_identifies 17 17)). reflexivity. Defined.

(** ** The header *)

(** The thirteen bytes, as laid out on the wire. *)
Definition control_header (c : Control) : list Z :=
  to_be 4 (ct_a0 c) ++ to_be 4 (ct_a1 c) ++ to_be 4 (ct_a2 c) ++ [ct_opcode c].

Definition control_ok (c : Control) : Prop :=
  fits 32 (ct_a0 c) /\ fits 32 (ct_a1 c) /\ fits 32 (ct_a2 c) /\ fits 8 (ct_opcode c).

Lemma zlen_control_header c : zlen (control_header c) = CONTROL_HEADER_LEN.
Proof. unfold control_header. by rewrite !zlen_app, !zlen_to_be. Qed.

Lemma control_be32_mid pre a v rest :
  a = zlen pre -> fits 32 v -> control_be32 (pre ++ to_be 4 v ++ rest) a = Ok v.
Proof.
  intros -> Hv. unfold control_be32. rewrite get_range_mid by (rewrite ?zlen_to_be; lia).
  cbn [mbind option_bind ok_or]. by rewrite (from_to_be 4).
Qed.

(** A message as one list. *)
Definition control_wire (c : Control) : list Z := control_header c ++ ct_body c.

Lemma control_parse_wire c : control_ok c -> control_parse (control_wire c) = Ok c.
Proof.
  intros (H0 & H1 & H2 & _). unfold control_wire, control_parse.
  rewrite get_range_drop by
    (rewrite zlen_app, zlen_control_header; pose proof (zlen_nonneg (ct_body c)); unfold CONTROL_HEADER_LEN; lia).
  rewrite drop_app_length' by (pose proof (zlen_control_header c) as E; unfold zlen in E; lia).
  unfold control_header. rewrite <- !app_assoc.
  rewrite (control_be32_mid [] 0 _ _ eq_refl H0 : control_be32 (to_be 4 (ct_a0 c) ++ _) 0 = _).
  cbn [mbind result_bind].
  rewrite (control_be32_mid (to_be 4 (ct_a0 c)) 4) by (done || by rewrite zlen_to_be).
  cbn [mbind result_bind].
  rewrite (app_assoc (to_be 4 (ct_a0 c)) (to_be 4 (ct_a1 c))).
  rewrite (control_be32_mid _ 8) by (done || by rewrite zlen_app, !zlen_to_be). cbn [mbind result_bind].
  rewrite (app_assoc _ (to_be 4 (ct_a2 c))).
  rewrite (get_at_mid _ (ct_opcode c) (ct_body c) 12) by (by rewrite !zlen_app, !zlen_to_be).
  by destruct c.
Qed.

Lemma control_parse_short l : zlen l < CONTROL_HEADER_LEN -> control_parse l = Err ShortPacket.
Proof.
  unfold CONTROL_HEADER_LEN. intros H. unfold control_parse, control_be32.
  destruct (get_range l 0 (0 + 4)); [|done]. destruct (get_range l 4 (4 + 4)); [|done].
  destruct (get_range l 8 (8 + 4)); [|done]. cbn.
  destruct (get_at l 12) eqn:E; [|done]. apply get_at_lt in E; lia.
Qed.

(** Every content with a whole header is some message's wire form. *)
Lemma control_split l :
  bytes_ok l -> CONTROL_HEADER_LEN <= zlen l -> exists c, control_ok c /\ l = control_wire c.
Proof.
  unfold CONTROL_HEADER_LEN, zlen. intros Hb H.
  destruct l as [|a [|b [|c [|d [|e [|f [|g [|h [|i [|j [|k [|m [|o body]]]]]]]]]]]]]; cbn in H; try lia.
  change (a :: b :: c :: d :: e :: f :: g :: h :: i :: j :: k :: m :: o :: body)
    with ([a; b; c; d] ++ [e; f; g; h] ++ [i; j; k; m] ++ [o] ++ body) in Hb |- *.
  unfold bytes_ok in Hb. rewrite !Forall_app in Hb. destruct Hb as (H0 & H1 & H2 & Ho & _).
  exists (mkControl (from_be [a; b; c; d]) (from_be [e; f; g; h]) (from_be [i; j; k; m]) o body).
  split.
  - split_and!; [apply (from_be_fits _ H0)|apply (from_be_fits _ H1)|apply (from_be_fits _ H2)|].
    by inversion Ho.
  - unfold control_wire, control_header. cbn [ct_a0 ct_a1 ct_a2 ct_opcode ct_body].
    rewrite (to_from_be _ H0 : to_be 4 _ = _), (to_from_be _ H1 : to_be 4 _ = _),
      (to_from_be _ H2 : to_be 4 _ = _). by rewrite <- !app_assoc.
Qed.

(** Parsing inverts the layout.  A content parses to a message exactly
    when it is that message's big-endian header followed by its body, whatever
    the opcode; what is shorter than a header, and only that, is refused. *)
Theorem control_parse_iff (content : list Z) (c : Control) :
  bytes_ok content ->
  (control_parse content = Ok c <-> control_ok c /\ content = control_header c ++ ct_body c) /\
  (control_parse content = Err ShortPacket <-> zlen content < CONTROL_HEADER_LEN).
Proof.
  intros Hb. destruct (Z.lt_ge_cases (zlen content) CONTROL_HEADER_LEN) as [Hs|Hl].
  - rewrite (control_parse_short _ Hs). split; [|by split].
    split; [done|]. intros [_ ->]. rewrite zlen_app, zlen_control_header in Hs.
    pose proof (zlen_nonneg (ct_body c)). lia.
  - destruct (control_split content Hb ltac:(lia)) as (c' & Hc & ->).
    rewrite (control_parse_wire _ Hc). split; [|split; [done|lia]]. split.
    + intros [= <-]. done.
    + intros [Hc' E]. fold (control_wire c) in E. pose proof (control_parse_wire c Hc') as P.
      rewrite <- E, (control_parse_wire _ Hc) in P. exact P.
Qed.

Definition sample_control : Control := mkControl 0x01020304 0x05060708 0x090A0B0C op_MOUSE_MOTION [42].

Lemma control_parse_iff_witness :
  control_parse [1; 2; 3; 4; 5; 6; 7; 8; 9; 10; 11; 12; 3; 42] = Ok sample_control.
Proof.
  apply (control_parse_iff [1; 2; 3; 4; 5; 6; 7; 8; 9; 10; 11; 12; 3; 42] sample_control).
  - repeat constructor; unfold fits; by vm_compute.
  - split; [by vm_compute|reflexivity].
Defined.

(** ** Application messages *)

Lemma encode_header_wire out c :
  CONTROL_HEADER_LEN <= zlen out ->
  encode_header out c = (put_range out 0 (control_header c), Ok CONTROL_HEADER_LEN).
Proof.
  intros H. unfold encode_header. rewrite get_range_eq by (unfold CONTROL_HEADER_LEN in *; lia). done.
Qed.

Lemma strip_terminator_snoc l : strip_terminator (l ++ [0]) = l.
Proof.
  unfold strip_terminator. rewrite last_snoc, length_app. cbn [length].
  rewrite Nat.add_sub. by rewrite take_app_length.
Qed.

Lemma strip_terminator_spec l :
  l = strip_terminator l ++ [0] \/ l = strip_terminator l /\ list.last l <> Some 0.
Proof.
  destruct l as [|x l _] using rev_ind; [by right|].
  destruct (Z.eq_dec x 0) as [->|Hx]; [left; by rewrite strip_terminator_snoc|right].
  unfold strip_terminator. rewrite last_snoc. split; [by destruct x|congruence].
Qed.

(** What an application message carries: a prefix of the body no longer than
    was declared. *)
Lemma user_data_body c :
  control_ok c -> ct_opcode c = op_USER_DATA ->
  user_data c = Some (ct_a1 c, strip_terminator (take (Z.to_nat (ct_a0 c)) (ct_body c))).
Proof.
  intros (H0 & _) Ho. unfold user_data. rewrite Ho. cbn [negb Z.eqb op_USER_DATA].
  change (negb (op_USER_DATA =? op_USER_DATA)) with false. cbv iota.
  assert (try_from USIZE (ct_a0 c) = Some (ct_a0 c)) as ->.
  { unfold try_from, fits in *.
    rewrite (proj2 (Z.leb_le 0 _)), (proj2 (Z.ltb_lt _ (2 ^ 64))) by lia. done. }
  cbn [default from_option id]. unfold fits in H0.
  destruct (Z.le_gt_cases (ct_a0 c) (zlen (ct_body c))).
  - rewrite get_range_eq by lia. cbn. by rewrite Z.sub_0_r.
  - rewrite get_range_None by lia. cbn. rewrite take_ge by (unfold zlen in *; lia). done.
Qed.

(** Application text survives its framing.  A text written with its
    terminator behind the header [encode_header] produces, declared at
    [string_body_len] and followed by any padding, is handed over byte for byte
    with its sub-identifier; and whatever a peer declares, what is handed over
    is a prefix of what arrived, at most as long as was declared, short by one
    terminating zero exactly when there was one. *)
Theorem user_data_roundtrip (out text junk : list Z) (id a2 : Z) (m : Control) :
  CONTROL_HEADER_LEN <= zlen out -> fits 32 (string_body_len (zlen text)) -> fits 32 id -> fits 32 a2 ->
  control_ok m -> ct_opcode m = op_USER_DATA ->
  (exists out' c,
    encode_header out (mkControl (string_body_len (zlen text)) id a2 op_USER_DATA [])
      = (out', Ok CONTROL_HEADER_LEN) /\ zlen out' = zlen out /\
    control_parse (take (Z.to_nat CONTROL_HEADER_LEN) out' ++ text ++ [0] ++ junk) = Ok c /\
    user_data c = Some (id, text)) /\
  exists got rest, user_data m = Some (ct_a1 m, got) /\ ct_body m = got ++ rest /\
    zlen got <= ct_a0 m /\
    (zlen got = Z.min (ct_a0 m) (zlen (ct_body m)) \/
     head rest = Some 0 /\ zlen got + 1 = Z.min (ct_a0 m) (zlen (ct_body m))).
Proof.
  intros Ho Hl Hid Ha2 Hm Hop. split.
  - set (h := mkControl (string_body_len (zlen text)) id a2 op_USER_DATA []).
    rewrite encode_header_wire by done. exists (put_range out 0 (control_header h)).
    pose proof (zlen_control_header h) as Eh.
    set (c := mkControl (string_body_len (zlen text)) id a2 op_USER_DATA (text ++ [0] ++ junk)).
    assert (control_ok c) as Hc by (by split_and!). exists c.
    split_and!; [done|apply zlen_put_range; lia| |].
    + rewrite put_range_0, take_app_length' by (unfold zlen in Eh; lia).
      exact (control_parse_wire c Hc).
    + rewrite user_data_body by done. cbn [ct_a0 ct_a1 ct_body c].
      rewrite app_assoc, take_app_length'
        by (rewrite length_app; unfold string_body_len, zlen; cbn [length]; lia).
      by rewrite strip_terminator_snoc.
  - rewrite user_data_body by done. destruct Hm as ([H0 _] & _).
    set (p := take (Z.to_nat (ct_a0 m)) (ct_body m)).
    assert (zlen p = Z.min (ct_a0 m) (zlen (ct_body m))) as Hp
      by (unfold p; rewrite zlen_take; lia).
    assert (ct_body m = p ++ drop (Z.to_nat (ct_a0 m)) (ct_body m)) as Hb
      by (symmetry; apply take_drop).
    exists (strip_terminator p). destruct (strip_terminator_spec p) as [E|[E _]].
    + exists ([0] ++ drop (Z.to_nat (ct_a0 m)) (ct_body m)).
      assert (zlen p = zlen (strip_terminator p) + 1) as Hz by (rewrite E at 1; by rewrite zlen_app).
      split_and!; [done|by rewrite app_assoc, <- E|lia|right; split; [done|lia]].
    + exists (drop (Z.to_nat (ct_a0 m)) (ct_body m)). rewrite <- E. split_and!; [done|done|lia|left; lia].
Qed.

Lemma user_data_roundtrip_witness :
  user_data (mkControl 4096 1 0 op_USER_DATA [104; 105; 0]) = Some (1, [104; 105]) /\
  exists out' c,
    encode_header (repeat 9 20) (mkControl (string_body_len 2) 11 0 op_USER_DATA [])
      = (out', Ok CONTROL_HEADER_LEN) /\ zlen out' = 20 /\
    control_parse (take (Z.to_nat CONTROL_HEADER_LEN) out' ++ [104; 105] ++ [0] ++ [7]) = Ok c /\
    user_data c = Some (11, [104; 105]).
Proof.
  split; [reflexivity|].
  apply (user_data_roundtrip (repeat 9 20) [104; 105] [7] 11 0
    (mkControl 4096 1 0 op_USER_DATA [104; 105; 0])); by vm_compute.
Defined.
