(* ===== verification/Video.v ===== *)
(** Video message framing (crates/core/src/video.rs): the ten-byte header, the
    keyframe-metadata message and the classification of a bitstream. *)

From S2P Require Import Prelude CoreError.

Definition VIDEO_HEADER_LEN : Z := 10.
Definition METADATA_LEN : Z := 21.

Definition ROTATION_MASK : Z := 0x07.
Definition FLAG_TEN_BIT : Z := 0x08.
Definition FLAG_LOCKED : Z := 0x10.
Definition FLAG_ANNOUNCED : Z := 0x20.
Definition FLAG_METADATA : Z := 0x40.
Definition METADATA_LEAD : Z := 1.
Definition META_REBUILT : Z := 0x01.
Definition META_KEYFRAME : Z := 0x02.
Definition CHROMA_420 : Z := 2.
Definition CHROMA_444 : Z := 0.

Inductive Rotation :=
  | Rotation_Unknown
  | Rotation_None
  | Rotation_Deg90
  | Rotation_Deg180
  | Rotation_Deg270.

(** [rotation as u8]. *)
Definition Rotation_as_u8 (r : Rotation) : Z :=
  match r with
  | Rotation_Unknown => 0
  | Rotation_None => 1
  | Rotation_Deg90 => 2
  | Rotation_Deg180 => 3
  | Rotation_Deg270 => 4
  end.

(** [Rotation::from_bits]. *)
Definition Rotation_from_bits (bits : Z) : Rotation :=
  let b := Z.land bits ROTATION_MASK in
  if b =? 1 then Rotation_None
  else if b =? 2 then Rotation_Deg90
  else if b =? 3 then Rotation_Deg180
  else if b =? 4 then Rotation_Deg270
  else Rotation_Unknown.

(** [Rotation::quarter_turn]. *)
Definition Rotation_quarter_turn (r : Rotation) : bool :=
  match r with Rotation_Deg90 | Rotation_Deg270 => true | _ => false end.

Inductive VideoCodec := H264 | H265.

(** [Codec::wire], [Codec::from_wire]. *)
Definition VideoCodec_wire (c : VideoCodec) : Z := match c with H264 => 1 | H265 => 2 end.
Definition VideoCodec_from_wire (byte : Z) : VideoCodec := if byte =? 2 then H265 else H264.

Record VideoHeader := mkVideoHeader {
  vh_frame_id : Z;
  vh_width : Z;
  vh_height : Z;
  vh_codec : VideoCodec;
  vh_rotation : Rotation;
  vh_ten_bit : bool;
  vh_locked : bool;
  vh_announced : bool;
  vh_metadata : bool;
}.

#[global] Instance VideoHeader_eta : Eta VideoHeader := fun h =>
  mkVideoHeader (vh_frame_id h) (vh_width h) (vh_height h) (vh_codec h) (vh_rotation h)
    (vh_ten_bit h) (vh_locked h) (vh_announced h) (vh_metadata h).

Record KeyframeMetadata := mkKeyframeMetadata {
  km_rebuilt : bool;
  km_keyframe : bool;
  km_ten_bit : bool;
  km_chroma_444 : bool;
  km_rotation : Rotation;
}.

(** [VideoHeader::display_dimensions]. *)
Definition VideoHeader_display_dimensions (h : VideoHeader) : Z * Z :=
  if Rotation_quarter_turn (vh_rotation h) then (vh_height h, vh_width h)
  else (vh_width h, vh_height h).

(** [video::le16]. *)
Definition le16 (src : list Z) (offset : Z) : result Z :=
  ok_or (s ← get_range src offset (offset + 2); Some (from_le s)) ShortPacket.

(** [video::parse]. *)
Definition video_parse (content : list Z) : result VideoHeader :=
  frame_id ← ok_or (s ← get_range content 0 4; Some (from_le s)) ShortPacket;
  width ← le16 content 4;
  height ← le16 content 6;
  codec ← ok_or (get_at content 8) ShortPacket;
  flags ← ok_or (get_at content 9) ShortPacket;
  Ok (mkVideoHeader frame_id width height (VideoCodec_from_wire codec) (Rotation_from_bits flags)
        (negb (Z.land flags FLAG_TEN_BIT =? 0))
        (negb (Z.land flags FLAG_LOCKED =? 0))
        (negb (Z.land flags FLAG_ANNOUNCED =? 0))
        (negb (Z.land flags FLAG_METADATA =? 0))).

(** [video::encode]: the buffer afterwards and the bytes written. *)
Definition video_encode (out : list Z) (header : VideoHeader) : list Z * result Z :=
  match get_range out 0 VIDEO_HEADER_LEN with
  | None => (out, Err BufferTooSmall)
  | Some _ =>
      let flags := Rotation_as_u8 (vh_rotation header) in
      let flags := if vh_ten_bit header then Z.lor flags FLAG_TEN_BIT else flags in
      let flags := if vh_locked header then Z.lor flags FLAG_LOCKED else flags in
      let flags := if vh_announced header then Z.lor flags FLAG_ANNOUNCED else flags in
      let flags := if vh_metadata header then Z.lor flags FLAG_METADATA else flags in
      let bytes := to_le 4 (vh_frame_id header) ++ to_le 2 (vh_width header)
                     ++ to_le 2 (vh_height header) ++ [VideoCodec_wire (vh_codec header); flags] in
      (put_range out 0 bytes, Ok VIDEO_HEADER_LEN)
  end.

(** [video::encode_metadata]. *)
Definition encode_metadata (out : list Z) (header : VideoHeader) (metadata : KeyframeMetadata) :
    list Z * result Z :=
  let announced := header <| vh_announced := true |> <| vh_metadata := true |> in
  match video_encode out announced with
  | (out, Err e) => (out, Err e)
  | (out, Ok _) =>
      match get_range out VIDEO_HEADER_LEN METADATA_LEN with
      | None => (out, Err BufferTooSmall)
      | Some _ =>
          let word := 0 in
          let word := if km_rebuilt metadata then Z.lor word META_REBUILT else word in
          let word := if km_keyframe metadata then Z.lor word META_KEYFRAME else word in
          let depth := if km_ten_bit metadata then 2 else 1 in
          let chroma := if km_chroma_444 metadata then CHROMA_444 else CHROMA_420 in
          let body := to_le 4 METADATA_LEAD ++ to_le 4 word
                        ++ [depth; chroma; Rotation_as_u8 (km_rotation metadata)] in
          (put_range out VIDEO_HEADER_LEN body, Ok METADATA_LEN)
      end
  end.

(** [video::parse_metadata]. *)
Definition parse_metadata (content : list Z) : result KeyframeMetadata :=
  word ← ok_or (s ← get_range content 14 18; Some (from_le s)) ShortPacket;
  depth ← ok_or (get_at content 18) ShortPacket;
  chroma ← ok_or (get_at content 19) ShortPacket;
  rotation ← ok_or (get_at content 20) ShortPacket;
  Ok (mkKeyframeMetadata
        (negb (Z.land word META_REBUILT =? 0))
        (negb (Z.land word META_KEYFRAME =? 0))
        (depth =? 2)
        (chroma =? CHROMA_444)
        (Rotation_from_bits rotation)).

(** [video::first_unit_byte]. *)
Definition first_unit_byte (bitstream : list Z) : option Z :=
  if decide (get_range bitstream 0 4 = Some [0; 0; 0; 1]) then get_at bitstream 4
  else if decide (get_range bitstream 0 3 = Some [0; 0; 1]) then get_at bitstream 3
  else None.

(** [video::is_keyframe]. *)
Definition is_keyframe (content : list Z) (codec : VideoCodec) : bool :=
  match get_range content VIDEO_HEADER_LEN (zlen content) with
  | None => false
  | Some bitstream =>
      match first_unit_byte bitstream with
      | None => false
      | Some unit =>
          match codec with
          | H264 => let t := Z.land unit 0x1F in (t =? 7) || (t =? 5)
          | H265 =>
              let unit_type := Z.land (Z.shiftr unit 1) 0x3F in
              (32 <=? unit_type) && (unit_type <=? 34) || (16 <=? unit_type) && (unit_type <=? 21)
          end
      end
  end.

(** [video::parameter_set_codec]. *)
Definition parameter_set_codec (content : list Z) : option VideoCodec :=
  bitstream ← get_range content VIDEO_HEADER_LEN (zlen content);
  unit ← first_unit_byte bitstream;
  if Z.land unit 0x1F =? 7 then Some H264
  else if unit =? 0x40 then Some H265
  else None.

(** ** The header *)

Definition video_flags (h : VideoHeader) : Z :=
  Rotation_as_u8 (vh_rotation h) + (if vh_ten_bit h then 8 else 0) + (if vh_locked h then 16 else 0)
    + (if vh_announced h then 32 else 0) + (if vh_metadata h then 64 else 0).

(** The ten bytes, as laid out on the wire. *)
Definition video_header (h : VideoHeader) : list Z :=
  to_le 4 (vh_frame_id h) ++ to_le 2 (vh_width h) ++ to_le 2 (vh_height h)
    ++ [VideoCodec_wire (vh_codec h); video_flags h].

Definition video_ok (h : VideoHeader) : Prop :=
  fits 32 (vh_frame_id h) /\ fits 16 (vh_width h) /\ fits 16 (vh_height h).

Lemma zlen_video_header h : zlen (video_header h) = VIDEO_HEADER_LEN.
Proof. unfold video_header. by rewrite !zlen_app, !zlen_to_le. Qed.

Lemma video_encode_wire out h :
  VIDEO_HEADER_LEN <= zlen out ->
  video_encode out h = (put_range out 0 (video_header h), Ok VIDEO_HEADER_LEN).
Proof.
  intros H. unfold video_encode. rewrite get_range_eq by (unfold VIDEO_HEADER_LEN in *; lia).
  unfold video_header. do 5 f_equal. unfold video_flags.
  by destruct (vh_rotation h), (vh_ten_bit h), (vh_locked h), (vh_announced h), (vh_metadata h).
Qed.

(** The flags byte says what the fields said. *)
Lemma video_flags_read h :
  Rotation_from_bits (video_flags h) = vh_rotation h /\
  negb (Z.land (video_flags h) FLAG_TEN_BIT =? 0) = vh_ten_bit h /\
  negb (Z.land (video_flags h) FLAG_LOCKED =? 0) = vh_locked h /\
  negb (Z.land (video_flags h) FLAG_ANNOUNCED =? 0) = vh_announced h /\
  negb (Z.land (video_flags h) FLAG_METADATA =? 0) = vh_metadata h.
Proof.
  unfold video_flags.
  by destruct (vh_rotation h), (vh_ten_bit h), (vh_locked h), (vh_announced h), (vh_metadata h).
Qed.

Lemma le16_mid pre a v rest : a = zlen pre -> fits 16 v -> le16 (pre ++ to_le 2 v ++ rest) a = Ok v.
Proof.
  intros -> Hv. unfold le16. rewrite get_range_mid by (rewrite ?zlen_to_le; lia).
  cbn [mbind option_bind ok_or]. by rewrite (from_to_le 2).
Qed.

Lemma video_parse_wire h rest : video_ok h -> video_parse (video_header h ++ rest) = Ok h.
Proof.
  intros (Hf & Hw & Hh). unfold video_parse, video_header. rewrite <- !app_assoc.
  rewrite get_range_head by (by rewrite zlen_to_le).
  cbn [mbind option_bind result_bind ok_or]. rewrite (from_to_le 4) by done.
  rewrite (le16_mid (to_le 4 (vh_frame_id h)) 4) by (done || by rewrite zlen_to_le).
  cbn [mbind result_bind]. rewrite (app_assoc (to_le 4 _) (to_le 2 _)).
  rewrite (le16_mid _ 6) by (done || by rewrite zlen_app, !zlen_to_le).
  cbn [mbind result_bind]. rewrite (app_assoc _ (to_le 2 (vh_height h))). cbn [app].
  rewrite (get_at_mid _ (VideoCodec_wire (vh_codec h)) _ 8) by (by rewrite !zlen_app, !zlen_to_le).
  rewrite (cons_middle (VideoCodec_wire (vh_codec h))), app_assoc.
  rewrite (get_at_mid _ (video_flags h) rest 9) by (by rewrite !zlen_app, !zlen_to_le).
  cbn [ok_or mbind result_bind]. destruct (video_flags_read h) as (-> & -> & -> & -> & ->).
  by destruct h as [? ? ? [] ? ? ? ? ?].
Qed.

Lemma video_parse_total content :
  (exists h, video_parse content = Ok h) /\ VIDEO_HEADER_LEN <= zlen content \/
  video_parse content = Err ShortPacket /\ zlen content < VIDEO_HEADER_LEN.
Proof.
  unfold VIDEO_HEADER_LEN, video_parse, le16. destruct (Z.lt_ge_cases (zlen content) 10).
  - right. split; [|done]. destruct (get_range content 0 4); [|done].
    destruct (get_range content 4 (4 + 2)); [|done]. destruct (get_range content 6 (6 + 2)); [|done]. cbn.
    destruct (get_at content 8); [|done]. destruct (get_at content 9) eqn:E; [|done].
    apply get_at_lt in E; lia.
  - left. split; [|done]. rewrite !get_range_eq by lia.
    destruct (get_at_Some content 8) as [c ->]; [lia|]. destruct (get_at_Some content 9) as [f ->]; [lia|].
    cbn. by eexists.
Qed.

(** The video header round-trips, little endian, with all nine of its
    fields, whatever follows it; the dimensions a peer maps its pointer against
    are the swapped pair exactly for a quarter turn; and a content is refused
    exactly when it is shorter than a header. *)
Theorem video_roundtrip (out rest content : list Z) (h : VideoHeader) :
  video_ok h -> VIDEO_HEADER_LEN <= zlen out ->
  (exists out', video_encode out h = (out', Ok VIDEO_HEADER_LEN) /\ zlen out' = zlen out /\
    video_parse (take (Z.to_nat VIDEO_HEADER_LEN) out' ++ rest) = Ok h) /\
  VideoHeader_display_dimensions h =
    (if decide (Z.land (video_flags h) 7 ∈ [2; 4]) then (vh_height h, vh_width h)
     else (vh_width h, vh_height h)) /\
  (video_parse content = Err ShortPacket <-> zlen content < VIDEO_HEADER_LEN).
Proof.
  intros Hok Hl. split_and!.
  - rewrite video_encode_wire by done. eexists. split; [done|].
    pose proof (zlen_video_header h) as E. split; [apply zlen_put_range; lia|].
    rewrite put_range_0, take_app_length' by (unfold zlen in E; lia). by apply video_parse_wire.
  - unfold VideoHeader_display_dimensions, video_flags.
    by destruct (vh_rotation h), (vh_ten_bit h), (vh_locked h), (vh_announced h), (vh_metadata h).
  - destruct (video_parse_total content) as [[[h' ->] ?]|[-> ?]]; (split; [done || lia|]); done || lia.
Qed.

Definition sample_video : VideoHeader :=
  mkVideoHeader 0x04030201 1920 1080 H265 Rotation_Deg90 true false false false.

Lemma video_roundtrip_witness :
  exists out', video_encode (repeat 9 16) sample_video = (out', Ok VIDEO_HEADER_LEN) /\ zlen out' = 16 /\
    video_parse (take (Z.to_nat VIDEO_HEADER_LEN) out' ++ [0; 0; 0; 1; 0x67]) = Ok sample_video.
Proof.
  apply (video_roundtrip (repeat 9 16) [0; 0; 0; 1; 0x67] [] sample_video); by vm_compute.
Defined.

(** ** Classification *)

(** The start codes a bitstream may begin with. *)
Definition start_code (s : list Z) : Prop := s = [0; 0; 0; 1] \/ s = [0; 0; 1].

(** The unit types that make a picture a keyframe. *)
Definition refresh_unit (codec : VideoCodec) (unit : Z) : Prop :=
  match codec with
  | H264 => Z.land unit 0x1F = 7 \/ Z.land unit 0x1F = 5
  | H265 => 32 <= Z.land (Z.shiftr unit 1) 0x3F <= 34 \/ 16 <= Z.land (Z.shiftr unit 1) 0x3F <= 21
  end.

Lemma first_unit_byte_iff bs unit :
  first_unit_byte bs = Some unit <-> exists sc rest, start_code sc /\ bs = sc ++ unit :: rest.
Proof.
  unfold first_unit_byte. split.
  - intros H. destruct (decide (get_range bs 0 4 = _)) as [E|_];
      [|destruct (decide (get_range bs 0 3 = _)) as [E|_]; [|done]];
      apply get_range_Some in E as (_ & _ & E); cbn in E.
    + exists [0; 0; 0; 1], (drop 5 bs). split; [by left|].
      rewrite <- (take_drop_middle bs 4 unit H) at 1. f_equal. symmetry. exact E.
    + exists [0; 0; 1], (drop 4 bs). split; [by right|].
      rewrite <- (take_drop_middle bs 3 unit H) at 1. f_equal. symmetry. exact E.
  - intros (sc & rest & [->| ->] & ->).
    + rewrite get_range_head by done. rewrite decide_True by done. done.
    + pose proof (get_range_head [0; 0; 1] (unit :: rest) 3 eq_refl) as E3.
      destruct (decide (get_range ([0; 0; 1] ++ unit :: rest) 0 4 = _)) as [E|_].
      * apply get_range_Some in E as (_ & _ & E). done.
      * rewrite E3. rewrite decide_True by done. done.
Qed.

(** The first unit of a video message. *)
Definition led_by (content : list Z) (unit : Z) : Prop :=
  exists hdr sc rest, zlen hdr = VIDEO_HEADER_LEN /\ start_code sc /\ content = hdr ++ sc ++ unit :: rest.

Lemma led_by_iff content unit :
  led_by content unit <->
  exists bs, get_range content VIDEO_HEADER_LEN (zlen content) = Some bs /\ first_unit_byte bs = Some unit.
Proof.
  split.
  - intros (hdr & sc & rest & Hh & Hs & ->). exists (sc ++ unit :: rest).
    split; [|apply first_unit_byte_iff; by eexists _, _].
    rewrite get_range_drop by (rewrite zlen_app, Hh; pose proof (zlen_nonneg (sc ++ unit :: rest));
      unfold VIDEO_HEADER_LEN; lia).
    rewrite drop_app_length' by (unfold zlen in Hh; lia). done.
  - intros (bs & Hg & (sc & rest & Hs & ->)%first_unit_byte_iff).
    pose proof Hg as (H1 & _ & E)%get_range_Some. rewrite get_range_drop in Hg by (unfold VIDEO_HEADER_LEN in *; lia).
    injection Hg as Hg. exists (take (Z.to_nat VIDEO_HEADER_LEN) content), sc, rest.
    rewrite zlen_take, <- Hg, take_drop. split_and!; [unfold VIDEO_HEADER_LEN in *; lia|done..].
Qed.

Lemma led_by_unique content u v : led_by content u -> led_by content v -> u = v.
Proof. intros (b & Hb & Hu)%led_by_iff (c & Hc & Hv)%led_by_iff. congruence. Qed.

Lemma is_keyframe_true content codec :
  is_keyframe content codec = true <-> exists unit, led_by content unit /\ refresh_unit codec unit.
Proof.
  setoid_rewrite led_by_iff. unfold is_keyframe.
  destruct (get_range content _ _) as [bs|] eqn:E.
  2: { split; [done|]. intros (? & (? & ? & _) & _). congruence. }
  destruct (first_unit_byte bs) as [unit|] eqn:Eu.
  - trans (refresh_unit codec unit).
    + unfold refresh_unit. destruct codec; cbv zeta; zcases; split; intros; try done; lia.
    + split; [intros; exists unit; naive_solver|].
      intros (u & (bs' & [= <-] & E') & Hr). by simplify_eq.
  - split; [done|]. intros (u & (bs' & [= <-] & E') & _). congruence.
Qed.

Lemma parameter_set_some content codec :
  parameter_set_codec content = Some codec <->
  exists unit, led_by content unit /\
    match codec with H264 => Z.land unit 0x1F = 7 | H265 => unit = 0x40 end.
Proof.
  setoid_rewrite led_by_iff. unfold parameter_set_codec.
  destruct (get_range content _ _) as [bs|] eqn:E; cbn [mbind option_bind].
  2: { split; [done|]. intros (? & (? & ? & _) & _). congruence. }
  destruct (first_unit_byte bs) as [unit|] eqn:Eu; cbn [mbind option_bind].
  2: { split; [done|]. intros (u & (bs' & [= <-] & E') & _). congruence. }
  split.
  - intros H. exists unit. split; [by exists bs|]. by destruct codec; zcases.
  - intros (u & (bs' & [= <-] & E') & Hr). rewrite Eu in E'. injection E' as <-.
    destruct codec; [by rewrite Hr|by subst].
Qed.

(** A message is a keyframe exactly when its bitstream opens with a start
    code of either length and a unit of the codec's refresh types, whatever the
    header's flags say.  A leading parameter set names its codec and makes the
    message a keyframe of that codec; the two codecs' sets are told apart: the
    first codec's always has the low bit set, the second's is no keyframe unit
    of the first. *)
Theorem keyframe_classified (content : list Z) (codec : VideoCodec) :
  (is_keyframe content codec = true <-> exists unit, led_by content unit /\ refresh_unit codec unit) /\
  (parameter_set_codec content = Some codec ->
     is_keyframe content codec = true /\
     forall unit, led_by content unit ->
       match codec with H264 => Z.odd unit = true | H265 => is_keyframe content H264 = false end).
Proof.
  split; [apply is_keyframe_true|]. intros (unit & Hu & H)%parameter_set_some. split.
  - apply is_keyframe_true. exists unit. split; [done|]. destruct codec; [by left|subst; left; by vm_compute].
  - intros u Hu'. rewrite (led_by_unique _ _ _ Hu' Hu). destruct codec.
    + rewrite <- Z.bit0_odd. pose proof (f_equal (fun z => Z.testbit z 0) H) as B. cbv beta in B.
      rewrite Z.land_spec in B. change (Z.testbit 31 0) with true in B. by rewrite andb_true_r in B.
    + subst. apply not_true_is_false. intros (v & Hv & Hr)%is_keyframe_true.
      rewrite (led_by_unique _ _ _ Hv Hu) in Hr. by destruct Hr.
Qed.

Definition sample_picture : list Z := video_header sample_video ++ [0; 0; 1; 0x40; 1].

Lemma keyframe_classified_witness :
  parameter_set_codec sample_picture = Some H265 /\ is_keyframe sample_picture H265 = true.
Proof. split; [reflexivity|]. apply (keyframe_classified sample_picture H265). reflexivity. Defined.

(** ** Keyframe metadata *)

Definition meta_word (m : KeyframeMetadata) : Z :=
  (if km_rebuilt m then 1 else 0) + (if km_keyframe m then 2 else 0).

(** The eleven bytes after the header. *)
Definition metadata_body (m : KeyframeMetadata) : list Z :=
  to_le 4 METADATA_LEAD ++ to_le 4 (meta_word m)
    ++ [if km_ten_bit m then 2 else 1; if km_chroma_444 m then 0 else 2; Rotation_as_u8 (km_rotation m)].

Lemma zlen_metadata_body m : zlen (metadata_body m) = METADATA_LEN - VIDEO_HEADER_LEN.
Proof. unfold metadata_body. by rewrite !zlen_app, !zlen_to_le. Qed.

Definition announced (h : VideoHeader) : VideoHeader := h <| vh_announced := true |> <| vh_metadata := true |>.

Lemma encode_metadata_wire out h m :
  encode_metadata out h m =
    if zlen out <? VIDEO_HEADER_LEN then (out, Err BufferTooSmall)
    else if zlen out <? METADATA_LEN then (put_range out 0 (video_header (announced h)), Err BufferTooSmall)
    else (put_range out 0 (video_header (announced h) ++ metadata_body m), Ok METADATA_LEN).
Proof.
  unfold encode_metadata. fold (announced h). pose proof (zlen_video_header (announced h)) as Eh.
  destruct (Z.ltb_spec (zlen out) VIDEO_HEADER_LEN) as [H|H].
  { unfold video_encode. by rewrite get_range_None by (done || unfold VIDEO_HEADER_LEN; lia). }
  rewrite video_encode_wire by done.
  assert (zlen (put_range out 0 (video_header (announced h))) = zlen out) as Ez
    by (apply zlen_put_range; lia).
  destruct (Z.ltb_spec (zlen out) METADATA_LEN).
  { rewrite get_range_None by (rewrite ?Ez; unfold VIDEO_HEADER_LEN, METADATA_LEN in *; lia). done. }
  rewrite get_range_eq by (rewrite ?Ez; unfold VIDEO_HEADER_LEN, METADATA_LEN in *; lia). f_equal.
  rewrite <- (put_range_twice out 0 (video_header (announced h)) (metadata_body m));
    [|done|by rewrite Eh, zlen_metadata_body].
  rewrite Z.add_0_l, Eh. unfold metadata_body, meta_word, CHROMA_444, CHROMA_420.
  by destruct (km_rebuilt m), (km_keyframe m).
Qed.

Lemma parse_metadata_wire h m rest :
  parse_metadata (video_header h ++ metadata_body m ++ rest) = Ok m.
Proof.
  unfold parse_metadata, metadata_body. rewrite <- !app_assoc.
  rewrite (app_assoc (video_header h)).
  assert (zlen (video_header h ++ to_le 4 METADATA_LEAD) = 14) as E
    by (by rewrite zlen_app, zlen_video_header, zlen_to_le).
  rewrite get_range_mid by (by rewrite ?zlen_to_le).
  cbn [mbind option_bind result_bind ok_or]. rewrite (app_assoc _ (to_le 4 (meta_word m))). cbn [app].
  set (pre := (video_header h ++ to_le 4 METADATA_LEAD) ++ to_le 4 (meta_word m)).
  assert (zlen pre = 18) as Ep by (unfold pre; by rewrite zlen_app, E, zlen_to_le).
  rewrite (get_at_mid pre _ _ 18) by done. cbn [mbind result_bind ok_or].
  rewrite (cons_middle _ pre), (app_assoc pre).
  rewrite (get_at_mid _ _ _ 19) by (by rewrite zlen_app, Ep). cbn [mbind result_bind ok_or].
  rewrite (cons_middle _ (pre ++ _)), (app_assoc (pre ++ _)).
  rewrite (get_at_mid _ _ rest 20) by (by rewrite !zlen_app, Ep). cbn [mbind result_bind ok_or].
  rewrite (from_to_le 4) by (unfold meta_word; by destruct (km_rebuilt m), (km_keyframe m)).
  by destruct m as [[] [] [] [] []].
Qed.

Lemma metadata_not_led h m rest unit : ~ led_by (video_header h ++ metadata_body m ++ rest) unit.
Proof.
  intros (hdr & sc & r & Hh & Hs & E). apply app_inj_1 in E as [_ E].
  - destruct Hs as [->| ->]; unfold metadata_body in E; discriminate E.
  - pose proof (zlen_video_header h) as Hv. unfold zlen in *. lia.
Qed.

(** The keyframe-metadata message is twenty-one bytes, reads back as both
    the header (with the two protocol bits set) and the description of the
    keyframe after it, and is never itself taken for a picture: no codec
    classifies it as a keyframe or finds a parameter set in it.  Into a buffer
    that holds the header and not the body, the header has been written before
    the refusal. *)
Theorem metadata_roundtrip (out rest : list Z) (h : VideoHeader) (m : KeyframeMetadata) (codec : VideoCodec) :
  video_ok h -> METADATA_LEN <= zlen out ->
  (exists out', encode_metadata out h m = (out', Ok METADATA_LEN) /\ zlen out' = zlen out /\
    let content := take (Z.to_nat METADATA_LEN) out' ++ rest in
    video_parse content = Ok (h <| vh_announced := true |> <| vh_metadata := true |>) /\
    parse_metadata content = Ok m /\
    is_keyframe content codec = false /\ parameter_set_codec content = None) /\
  (forall n, VIDEO_HEADER_LEN <= n < METADATA_LEN ->
    encode_metadata (take (Z.to_nat n) out) h m
      = (put_range (take (Z.to_nat n) out) 0 (video_header (announced h)), Err BufferTooSmall)).
Proof.
  intros Hok Hl. split.
  - rewrite encode_metadata_wire. unfold METADATA_LEN, VIDEO_HEADER_LEN in *.
    rewrite !(proj2 (Z.ltb_ge _ _)) by lia. eexists. split; [done|].
    assert (zlen (video_header (announced h) ++ metadata_body m) = 21) as E
      by (by rewrite zlen_app, zlen_video_header, zlen_metadata_body).
    split; [apply zlen_put_range; lia|]. cbv zeta.
    rewrite put_range_0, take_app_length' by (unfold zlen in E; lia). rewrite <- app_assoc.
    split_and!.
    + by apply (video_parse_wire (announced h)).
    + apply parse_metadata_wire.
    + apply not_true_is_false. intros (u & Hu & _)%is_keyframe_true. by eapply metadata_not_led.
    + apply eq_None_not_Some. intros (c & (u & Hu & _)%parameter_set_some). by eapply metadata_not_led.
  - intros n Hn. rewrite encode_metadata_wire. unfold METADATA_LEN, VIDEO_HEADER_LEN in *.
    rewrite zlen_take, (proj2 (Z.ltb_ge _ _)), (proj2 (Z.ltb_lt _ _)) by lia. done.
Qed.

Definition sample_metadata : KeyframeMetadata := mkKeyframeMetadata true true true false Rotation_Deg90.

Lemma metadata_roundtrip_witness :
  encode_metadata (take (Z.to_nat 20) (repeat 9 32)) sample_video sample_metadata
    = (put_range (repeat 9 20) 0 (video_header (announced sample_video)), Err BufferTooSmall) /\
  exists out', encode_metadata (repeat 9 32) sample_video sample_metadata = (out', Ok METADATA_LEN) /\
    zlen out' = 32 /\
    let content := take (Z.to_nat METADATA_LEN) out' ++ [] in
    video_parse content = Ok (sample_video <| vh_announced := true |> <| vh_metadata := true |>) /\
    parse_metadata content = Ok sample_metadata /\
    is_keyframe content H264 = false /\ parameter_set_codec content = None.
Proof.
  split.
  - apply (metadata_roundtrip (repeat 9 32) [] sample_video sample_metadata H264); by vm_compute.
  - apply (metadata_roundtrip (repeat 9 32) [] sample_video sample_metadata H264); by vm_compute.
Defined.
