(* ===== verification/Audio.v ===== *)
(** Audio message framing (crates/core/src/audio.rs). *)

From S2P Require Import Prelude CoreError.

Definition AUDIO_HEADER_LEN : Z := 15.
Definition SAMPLE_RATE : Z := 48000.
Definition STEREO_MASK : Z := 0x3.
Definition UNREAD_BYTE : Z := 2.

Inductive AudioCodec := Opus | Pcm.

(** [codec as u8], [Codec::from_bits], [Codec::sample_bytes]. *)
Definition AudioCodec_as_u8 (c : AudioCodec) : Z := match c with Opus => 1 | Pcm => 2 end.
Definition AudioCodec_from_bits (bits : Z) : AudioCodec := if bits =? 2 then Pcm else Opus.
Definition AudioCodec_sample_bytes (c : AudioCodec) : option Z :=
  match c with Pcm => Some 2 | Opus => None end.

Record AudioHeader := mkAudioHeader {
  ah_mask : Z;
  ah_samples : Z;
  ah_rate : Z;
  ah_codec : AudioCodec;
  ah_channels : Z;
}.

(** [AudioHeader::stereo]. *)
Definition AudioHeader_stereo (samples : Z) (codec : AudioCodec) : AudioHeader :=
  mkAudioHeader STEREO_MASK samples SAMPLE_RATE codec 2.

(** [AudioHeader::payload_len]; the products are taken in [usize]. *)
Definition AudioHeader_payload_len (h : AudioHeader) : option Z :=
  match AudioCodec_sample_bytes (ah_codec h) with
  | None => None
  | Some width => Some (wrap USIZE (wrap USIZE (ah_samples h * ah_channels h) * width))
  end.

Definition PCM_PAYLOAD_MAX : Z := 32000.

(** [audio::le32]. *)
Definition audio_le32 (src : list Z) (offset : Z) : result Z :=
  ok_or (s ← get_range src offset (offset + 4); Some (from_le s)) ShortPacket.

(** [audio::parse]. *)
Definition audio_parse (content : list Z) : result AudioHeader :=
  mask ← audio_le32 content 0;
  samples ← audio_le32 content 4;
  rate ← audio_le32 content 8;
  codec ← ok_or (get_at content 12) ShortPacket;
  channels ← ok_or (get_at content 14) ShortPacket;
  Ok (mkAudioHeader mask samples rate (AudioCodec_from_bits codec) channels).

(** [audio::encode]: the buffer afterwards and the bytes written. *)
Definition audio_encode (out : list Z) (header : AudioHeader) : list Z * result Z :=
  match get_range out 0 AUDIO_HEADER_LEN with
  | None => (out, Err BufferTooSmall)
  | Some _ =>
      let bytes := to_le 4 (ah_mask header) ++ to_le 4 (ah_samples header) ++ to_le 4 (ah_rate header)
                     ++ [AudioCodec_as_u8 (ah_codec header); UNREAD_BYTE; ah_channels header] in
      (put_range out 0 bytes, Ok AUDIO_HEADER_LEN)
  end.

(** ** The header *)

(** A header on the wire: any codec byte, anything in the byte nobody reads. *)
Definition audio_layout (mask samples rate codec unread channels : Z) : list Z :=
  to_le 4 mask ++ to_le 4 samples ++ to_le 4 rate ++ [codec; unread; channels].

Definition audio_ok (h : AudioHeader) : Prop :=
  fits 32 (ah_mask h) /\ fits 32 (ah_samples h) /\ fits 32 (ah_rate h) /\ fits 8 (ah_channels h).

Lemma zlen_audio_layout a b c d e f : zlen (audio_layout a b c d e f) = AUDIO_HEADER_LEN.
Proof. unfold audio_layout. by rewrite !zlen_app, !zlen_to_le. Qed.

Lemma audio_le32_mid pre a v rest :
  a = zlen pre -> fits 32 v -> audio_le32 (pre ++ to_le 4 v ++ rest) a = Ok v.
Proof.
  intros -> Hv. unfold audio_le32. rewrite get_range_mid by (rewrite ?zlen_to_le; lia).
  cbn [mbind option_bind ok_or]. by rewrite (from_to_le 4).
Qed.

Lemma audio_parse_layout mask samples rate codec unread channels rest :
  fits 32 mask -> fits 32 samples -> fits 32 rate ->
  audio_parse (audio_layout mask samples rate codec unread channels ++ rest)
    = Ok (mkAudioHeader mask samples rate (AudioCodec_from_bits codec) channels).
Proof.
  intros Hm Hs Hr. unfold audio_parse, audio_layout. rewrite <- !app_assoc.
  rewrite (audio_le32_mid [] 0 _ _ eq_refl Hm : audio_le32 (to_le 4 mask ++ _) 0 = _).
  cbn [mbind result_bind]. rewrite (audio_le32_mid _ 4) by (done || by rewrite zlen_to_le).
  cbn [mbind result_bind]. rewrite (app_assoc (to_le 4 mask)).
  rewrite (audio_le32_mid _ 8) by (done || by rewrite zlen_app, !zlen_to_le).
  cbn [mbind result_bind]. rewrite (app_assoc _ (to_le 4 rate)). cbn [app].
  rewrite (get_at_mid _ codec _ 12) by (by rewrite !zlen_app, !zlen_to_le).
  rewrite (cons_middle codec), (app_assoc _ [codec]), (cons_middle unread), (app_assoc _ [unread]).
  rewrite (get_at_mid _ channels rest 14) by (by rewrite !zlen_app, !zlen_to_le). done.
Qed.

Lemma audio_parse_short l : zlen l < AUDIO_HEADER_LEN -> audio_parse l = Err ShortPacket.
Proof.
  unfold AUDIO_HEADER_LEN. intros H. unfold audio_parse, audio_le32.
  destruct (get_range l 0 (0 + 4)); [|done]. destruct (get_range l 4 (4 + 4)); [|done].
  destruct (get_range l 8 (8 + 4)); [|done]. cbn. destruct (get_at l 12); [|done]. cbn.
  destruct (get_at l 14) eqn:E; [|done]. apply get_at_lt in E; lia.
Qed.

(** The audio header round-trips, each field at its own bytes; a receiver
    is indifferent to the byte nobody reads, and takes every codec byte but 2
    as compressed; a content short of the header is refused.  The uncompressed
    payload length is exact, no product of it wrapping, and the stereo packets a receiver accepts uncompressed are those
    of at most eight thousand samples. *)
Theorem audio_roundtrip (out rest : list Z) (h : AudioHeader) (codec unread samples : Z) :
  audio_ok h -> AUDIO_HEADER_LEN <= zlen out -> fits 32 samples ->
  (exists out', audio_encode out h = (out', Ok AUDIO_HEADER_LEN) /\ zlen out' = zlen out /\
    audio_parse (take (Z.to_nat AUDIO_HEADER_LEN) out' ++ rest) = Ok h) /\
  audio_parse (audio_layout (ah_mask h) (ah_samples h) (ah_rate h) codec unread (ah_channels h) ++ rest)
    = Ok (mkAudioHeader (ah_mask h) (ah_samples h) (ah_rate h)
            (if decide (codec = 2) then Pcm else Opus) (ah_channels h)) /\
  (zlen rest < AUDIO_HEADER_LEN -> audio_parse rest = Err ShortPacket) /\
  AudioHeader_payload_len h =
    match ah_codec h with Pcm => Some (ah_samples h * ah_channels h * 2) | Opus => None end /\
  exists len, AudioHeader_payload_len (AudioHeader_stereo samples Pcm) = Some len /\
    (len <= PCM_PAYLOAD_MAX <-> samples <= 8000).
Proof.
  intros Hok Hl Hsa. pose proof Hok as (Hm & Hs & Hr & Hc). split_and!.
  - unfold audio_encode. rewrite get_range_eq by (unfold AUDIO_HEADER_LEN in *; lia).
    fold (audio_layout (ah_mask h) (ah_samples h) (ah_rate h) (AudioCodec_as_u8 (ah_codec h)) UNREAD_BYTE (ah_channels h)).
    set (w := audio_layout _ _ _ _ _ _). assert (zlen w = AUDIO_HEADER_LEN) as E by apply zlen_audio_layout.
    eexists. split; [done|]. split; [apply zlen_put_range; lia|].
    rewrite put_range_0, take_app_length' by (unfold zlen in E; lia).
    unfold w. rewrite audio_parse_layout by done. by destruct h as [? ? ? [] ?].
  - rewrite audio_parse_layout by done. unfold AudioCodec_from_bits. by case_decide; zcases.
  - apply audio_parse_short.
  - unfold AudioHeader_payload_len, fits in *. destruct (ah_codec h); [done|]. cbn.
    rewrite !wrap_small; [done|..]; rewrite ?wrap_small; unfold fits; nia.
  - unfold AudioHeader_payload_len, fits in *. cbn. eexists. split; [done|].
    rewrite !wrap_small by (rewrite ?wrap_small; unfold fits; nia). unfold PCM_PAYLOAD_MAX. lia.
Qed.

Lemma audio_roundtrip_witness :
  exists out', audio_encode (repeat 9 20) (mkAudioHeader 0x3F 960 48000 Pcm 6) = (out', Ok AUDIO_HEADER_LEN) /\
    zlen out' = 20 /\
    audio_parse (take (Z.to_nat AUDIO_HEADER_LEN) out' ++ [1; 2]) = Ok (mkAudioHeader 0x3F 960 48000 Pcm 6).
Proof.
  apply (audio_roundtrip (repeat 9 20) [1; 2] (mkAudioHeader 0x3F 960 48000 Pcm 6) 3 7 960); by vm_compute.
Defined.
