(* ===== verification/Microphone.v ===== *)
(** A guest's microphone on the control channel (crates/core/src/microphone.rs). *)

From S2P Require Import Prelude CoreError Control.

Definition MICROPHONE_SELECTOR : Z := 0xF055F055.
Definition MICROPHONE_ARGUMENT : Z := 1.
Definition MICROPHONE_KIND : Z := 12.
Definition BODY_LEN : Z := 1932.
Definition PAYLOAD_MAX : Z := 1920.
Definition KIND_AT : Z := 0.
Definition PAYLOAD_AT : Z := 4.
Definition LENGTH_AT : Z := 1924.
Definition ENCODING_AT : Z := 1928.

Inductive Encoding := Raw | Compressed.

#[global] Instance Encoding_eq_dec : EqDecision Encoding.
Proof. solve_decision. Defined.

(** [Encoding::from_bits]. *)
Definition Encoding_from_bits (bits : Z) : result Encoding :=
  if bits =? 0 then Ok Raw else if bits =? 1 then Ok Compressed else Err Malformed.

(** [microphone::Packet]. *)
Record MicPacket := mkMicPacket {
  mp_payload : list Z;
  mp_encoding : Encoding;
}.

(** [microphone::le32]. *)
Definition microphone_le32 (src : list Z) (at_ : Z) : result Z :=
  ok_or (s ← get_range src at_ (at_ + 4); Some (from_le s)) ShortPacket.

(** [microphone::write32]: the slice afterwards. *)
Definition write32 (out : list Z) (at_ value : Z) : result (list Z) :=
  _ ← ok_or (get_range out at_ (at_ + 4)) BufferTooSmall;
  Ok (put_range out at_ (to_le 4 value)).

(** [microphone::parse]. *)
Definition microphone_parse (a0 a1 a2 : Z) (body : list Z) : result (option MicPacket) :=
  if negb (a2 =? MICROPHONE_SELECTOR) then Ok None
  else if negb (a1 =? MICROPHONE_ARGUMENT) then Err Malformed
  else
  let body := default body (get_range body 0 (Z.min a0 (zlen body))) in
  body ← ok_or (get_range body 0 BODY_LEN) ShortPacket;
  kind ← microphone_le32 body KIND_AT;
  if negb (kind =? MICROPHONE_KIND) then Err Malformed
  else
  length ← microphone_le32 body LENGTH_AT;
  if PAYLOAD_MAX <? length then Err Malformed
  else
  bits ← ok_or (get_at body ENCODING_AT) ShortPacket;
  encoding ← Encoding_from_bits bits;
  if bool_decide (encoding = Raw) && negb (length mod 2 =? 0) then Err Malformed
  else
  payload ← ok_or (get_range body PAYLOAD_AT (PAYLOAD_AT + length)) ShortPacket;
  Ok (Some (mkMicPacket payload encoding)).

(** [microphone::encode] on the slice [out.get_mut(..BODY_LEN)], after its
    [fill(0)]: the slice afterwards, and what is returned. *)
Definition microphone_encode_body (body : list Z) (packet : MicPacket) : list Z * result Z :=
  match write32 body KIND_AT MICROPHONE_KIND with
  | Err e => (body, Err e)
  | Ok body =>
  match try_from 32 (zlen (mp_payload packet)) with
  | None => (body, Err Malformed)
  | Some len =>
  match write32 body LENGTH_AT len with
  | Err e => (body, Err e)
  | Ok body =>
  let encoding := match mp_encoding packet with Raw => 0 | Compressed => 1 end in
  match get_at body ENCODING_AT with
  | None => (body, Err BufferTooSmall)
  | Some _ =>
  let body := put_at body ENCODING_AT encoding in
  match get_range body PAYLOAD_AT (PAYLOAD_AT + zlen (mp_payload packet)) with
  | None => (body, Err BufferTooSmall)
  | Some _ => (put_range body PAYLOAD_AT (mp_payload packet), Ok BODY_LEN)
  end end end end end.

(** [microphone::encode]: the buffer afterwards and the bytes written. *)
Definition microphone_encode (out : list Z) (packet : MicPacket) : list Z * result Z :=
  match get_range out 0 BODY_LEN with
  | None => (out, Err BufferTooSmall)
  | Some _ =>
      if PAYLOAD_MAX <? zlen (mp_payload packet) then (out, Err BufferTooSmall)
      else
        let '(body, r) := microphone_encode_body (repeat 0 (Z.to_nat BODY_LEN)) packet in
        (put_range out 0 body, r)
  end.

(** ** What is read back *)

(** The fields of a body, where [parse] reads them. *)
Record mic_body (body : list Z) (p : MicPacket) : Prop := {
  mb_len : zlen body = BODY_LEN;
  mb_kind : get_range body KIND_AT (KIND_AT + 4) = Some (to_le 4 MICROPHONE_KIND);
  mb_length : get_range body LENGTH_AT (LENGTH_AT + 4) = Some (to_le 4 (zlen (mp_payload p)));
  mb_encoding : get_at body ENCODING_AT = Some (match mp_encoding p with Raw => 0 | Compressed => 1 end);
  mb_payload : get_range body PAYLOAD_AT (PAYLOAD_AT + zlen (mp_payload p)) = Some (mp_payload p);
}.

Ltac mic_consts :=
  unfold BODY_LEN, PAYLOAD_MAX, KIND_AT, PAYLOAD_AT, LENGTH_AT, ENCODING_AT in *.

Lemma write32_ok out at_ v :
  0 <= at_ -> at_ + 4 <= zlen out -> write32 out at_ v = Ok (put_range out at_ (to_le 4 v)).
Proof. intros. unfold write32. by rewrite get_range_eq by lia. Qed.

Lemma encode_body_fields body p :
  zlen body = BODY_LEN -> zlen (mp_payload p) <= PAYLOAD_MAX ->
  exists body', microphone_encode_body body p = (body', Ok BODY_LEN) /\ mic_body body' p.
Proof.
  mic_consts. intros Hb Hp. pose proof (zlen_nonneg (mp_payload p)) as H0.
  unfold microphone_encode_body. mic_consts. rewrite write32_ok by lia.
  set (b1 := put_range body 0 _). assert (zlen b1 = 1932) as Z1 by (unfold b1; by rewrite zlen_put_range by (rewrite ?zlen_to_le; lia)).
  unfold try_from. rewrite (proj2 (Z.leb_le _ _)), (proj2 (Z.ltb_lt _ _)) by lia. cbn [andb].
  rewrite write32_ok by lia. set (b2 := put_range b1 _ _).
  assert (zlen b2 = 1932) as Z2 by (unfold b2; by rewrite zlen_put_range by (rewrite ?zlen_to_le; lia)).
  destruct (get_at_Some b2 1928) as [x ->]; [lia|]. rewrite put_at_range by lia.
  set (tag := match mp_encoding p with Raw => 0 | Compressed => 1 end).
  assert (zlen [tag] = 1) as Zt by done.
  set (b3 := put_range b2 _ _). assert (zlen b3 = 1932) as Z3 by (unfold b3; by rewrite zlen_put_range by lia).
  rewrite get_range_eq by lia. eexists. split; [done|].
  split; mic_consts.
  - rewrite zlen_put_range by lia. done.
  - rewrite get_put_range_ne by lia. unfold b3. rewrite get_put_range_ne by lia.
    unfold b2. rewrite get_put_range_ne by (rewrite ?zlen_to_le; lia).
    apply (get_put_range_eq body 0 (to_le 4 MICROPHONE_KIND)); rewrite ?zlen_to_le; lia.
  - rewrite get_put_range_ne by lia. unfold b3. rewrite get_put_range_ne by lia.
    apply (get_put_range_eq b1 1924 (to_le 4 (zlen (mp_payload p)))); rewrite ?zlen_to_le; lia.
  - apply get_at_range; [lia|]. rewrite get_put_range_ne by lia.
    apply (get_put_range_eq b2 1928 [tag]); lia.
  - apply get_put_range_eq; lia.
Qed.

(** A packet a receiver takes: it fits, and uncompressed it is whole samples. *)
Definition mic_ok (p : MicPacket) : Prop :=
  zlen (mp_payload p) <= PAYLOAD_MAX /\ (mp_encoding p = Raw -> zlen (mp_payload p) mod 2 = 0).

Lemma declared_body (a0 : Z) (body : list Z) :
  0 <= a0 ->
  default body (get_range body 0 (Z.min a0 (zlen body))) = take (Z.to_nat a0) body.
Proof.
  intros. pose proof (zlen_nonneg body). rewrite get_range_eq by lia.
  cbn [default from_option id]. rewrite Z.sub_0_r. change (Z.to_nat 0) with 0%nat. rewrite drop_0.
  destruct (Z.le_gt_cases a0 (zlen body)); [by rewrite Z.min_l by lia|].
  rewrite Z.min_r by lia. rewrite !take_ge by (unfold zlen in *; lia). done.
Qed.

Lemma microphone_le32_read l a v :
  fits 32 v -> get_range l a (a + 4) = Some (to_le 4 v) -> microphone_le32 l a = Ok v.
Proof. intros Hv E. unfold microphone_le32. rewrite E. cbn [mbind option_bind ok_or]. by rewrite (from_to_le 4). Qed.

Lemma microphone_parse_body p body rest a0 :
  mic_body body p -> zlen (mp_payload p) <= PAYLOAD_MAX -> BODY_LEN <= a0 ->
  microphone_parse a0 MICROPHONE_ARGUMENT MICROPHONE_SELECTOR (body ++ rest)
    = if decide (mp_encoding p = Raw /\ zlen (mp_payload p) mod 2 <> 0) then Err Malformed
      else Ok (Some p).
Proof.
  intros [Hl Hk Hn He Hp] Hmax Ha. pose proof (zlen_nonneg (mp_payload p)) as H0.
  unfold microphone_parse. rewrite !Z.eqb_refl. cbn [negb]. cbv zeta.
  rewrite declared_body by (mic_consts; lia).
  assert (get_range (take (Z.to_nat a0) (body ++ rest)) 0 BODY_LEN = Some body) as ->.
  { rewrite take_app_ge by (unfold zlen in Hl; mic_consts; lia). by apply get_range_head. }
  cbn [ok_or mbind result_bind]. rewrite (microphone_le32_read body KIND_AT MICROPHONE_KIND); [|by vm_compute|done].
  cbn [mbind result_bind]. rewrite Z.eqb_refl. cbn [negb].
  rewrite (microphone_le32_read body LENGTH_AT (zlen (mp_payload p))); [|unfold fits; mic_consts; lia|done].
  cbn [mbind result_bind]. rewrite (proj2 (Z.ltb_ge _ _)) by lia.
  rewrite He. cbn [ok_or mbind result_bind]. rewrite Hp.
  destruct p as [pl []]; cbn [mp_encoding mp_payload Encoding_from_bits mbind result_bind ok_or].
  - change (Encoding_from_bits 0) with (Ok Raw). cbn [mbind result_bind].
    rewrite bool_decide_true by done. cbn [andb]. case_decide as D; zcases; done || (exfalso; tauto).
  - change (Encoding_from_bits 1) with (Ok Compressed). cbn [mbind result_bind].
    rewrite bool_decide_false by done. cbn [andb]. rewrite decide_False by (by intros []). done.
Qed.

(** What an accepted message must have been. *)
Lemma microphone_parse_some a0 a1 body o :
  0 <= a0 -> microphone_parse a0 a1 MICROPHONE_SELECTOR body = Ok o ->
  exists p, o = Some p /\ a1 = MICROPHONE_ARGUMENT /\ BODY_LEN <= Z.min a0 (zlen body) /\
  mic_ok p /\ get_range body PAYLOAD_AT (PAYLOAD_AT + zlen (mp_payload p)) = Some (mp_payload p).
Proof.
  intros Ha. unfold microphone_parse. rewrite Z.eqb_refl. cbn [negb].
  destruct (Z.eqb_spec a1 MICROPHONE_ARGUMENT) as [->|]; [|done]. cbn [negb]. cbv zeta.
  rewrite declared_body by done. destruct (get_range _ 0 BODY_LEN) as [b|] eqn:Eb; [|done].
  cbn [ok_or mbind result_bind]. destruct (microphone_le32 b KIND_AT) as [kind|]; [|done].
  cbn [mbind result_bind]. destruct (negb (kind =? MICROPHONE_KIND)); [done|].
  destruct (microphone_le32 b LENGTH_AT) as [n|]; [|done]. cbn [mbind result_bind].
  destruct (Z.ltb_spec PAYLOAD_MAX n); [done|]. destruct (get_at b ENCODING_AT) as [bits|]; [|done].
  cbn [ok_or mbind result_bind]. destruct (Encoding_from_bits bits) as [enc|]; [|done].
  cbn [mbind result_bind]. destruct (bool_decide (enc = Raw) && negb (n mod 2 =? 0)) eqn:Er; [done|].
  destruct (get_range b PAYLOAD_AT (PAYLOAD_AT + n)) as [pl|] eqn:Ep; [|done].
  intros [= <-]. eexists. split; [done|]. cbn [mp_payload mp_encoding].
  assert (zlen pl = n) as Hn by (apply get_range_zlen in Ep; mic_consts; lia).
  apply get_range_Some in Eb as (_ & Hl & ->). rewrite zlen_take, Z2Nat.id in Hl by done.
  split_and!; try done.
  - split; [cbn [mp_payload]; lia|]. cbn [mp_encoding mp_payload]. intros ->.
    rewrite bool_decide_true in Er by done. cbn [andb] in Er. rewrite Hn. by zcases.
  - rewrite Hn. apply get_range_Some in Ep as (H1 & H2 & ->). mic_consts.
    rewrite get_range_eq by lia. f_equal. rewrite Z.sub_0_r, drop_0, take_take, skipn_firstn_comm, take_take.
    f_equal. lia.
Qed.

(** A guest's microphone packet survives the body it is padded into: the
    1932-byte body written over whatever the buffer held parses back to the
    packet, whatever follows it, and is refused exactly when an uncompressed
    payload is not whole samples. *)
Theorem microphone_roundtrip (out rest : list Z) (p : MicPacket) (a0 : Z) :
  zlen (mp_payload p) <= PAYLOAD_MAX -> BODY_LEN <= zlen out -> BODY_LEN <= a0 ->
  exists out', microphone_encode out p = (out', Ok BODY_LEN) /\ zlen out' = zlen out /\
    drop (Z.to_nat BODY_LEN) out' = drop (Z.to_nat BODY_LEN) out /\
    microphone_parse a0 MICROPHONE_ARGUMENT MICROPHONE_SELECTOR (take (Z.to_nat BODY_LEN) out' ++ rest)
      = if decide (mp_encoding p = Raw /\ zlen (mp_payload p) mod 2 <> 0) then Err Malformed
        else Ok (Some p).
Proof.
  intros Hp Ho Ha. unfold microphone_encode. rewrite get_range_eq by (mic_consts; lia).
  rewrite (proj2 (Z.ltb_ge _ _)) by done.
  destruct (encode_body_fields (repeat 0 (Z.to_nat BODY_LEN)) p) as (b & -> & Hb);
    [unfold zlen; by rewrite repeat_length|done|].
  pose proof (mb_len _ _ Hb) as El. eexists. split; [done|].
  assert (length b = Z.to_nat BODY_LEN) as El' by (unfold zlen in El; lia).
  rewrite put_range_0, <- El', drop_app_length, take_app_length. split_and!; [|done|].
  - rewrite zlen_app, zlen_drop. unfold zlen in *. lia.
  - by apply microphone_parse_body.
Qed.

Lemma microphone_roundtrip_witness :
  exists out', microphone_encode (repeat 9 2000) (mkMicPacket [0x11; 0x22; 0x33; 0x44] Raw) = (out', Ok BODY_LEN) /\
    zlen out' = zlen (repeat 9 2000) /\
    drop (Z.to_nat BODY_LEN) out' = drop (Z.to_nat BODY_LEN) (repeat 9 2000) /\
    microphone_parse BODY_LEN MICROPHONE_ARGUMENT MICROPHONE_SELECTOR (take (Z.to_nat BODY_LEN) out' ++ [])
      = Ok (Some (mkMicPacket [0x11; 0x22; 0x33; 0x44] Raw)).
Proof.
  apply (microphone_roundtrip (repeat 9 2000) [] (mkMicPacket [0x11; 0x22; 0x33; 0x44] Raw) BODY_LEN);
    by vm_compute.
Defined.

(** What a guest can make of the microphone message.  Another device's
    selector, and nothing else, is passed over in silence; what is accepted
    carries the selector and the family, declares and has a whole body, and its
    payload is that body's bytes from offset 4, within the ceiling and, when
    uncompressed, whole samples: no length a guest writes reaches further. *)
Theorem microphone_parse_safe (a0 a1 a2 : Z) (body : list Z) (p : MicPacket) :
  fits 32 a0 ->
  (microphone_parse a0 a1 a2 body = Ok None <-> a2 <> MICROPHONE_SELECTOR) /\
  (microphone_parse a0 a1 a2 body = Ok (Some p) ->
    a1 = MICROPHONE_ARGUMENT /\ a2 = MICROPHONE_SELECTOR /\ BODY_LEN <= Z.min a0 (zlen body) /\
    mic_ok p /\ get_range body PAYLOAD_AT (PAYLOAD_AT + zlen (mp_payload p)) = Some (mp_payload p)).
Proof.
  intros [Ha _]. destruct (Z.eq_dec a2 MICROPHONE_SELECTOR) as [->|Hne].
  - split.
    + split; [|done]. intros (q & ? & _)%microphone_parse_some; done.
    + intros (q & [= <-] & H1 & H2)%microphone_parse_some; done.
  - unfold microphone_parse. rewrite (proj2 (Z.eqb_neq _ _) Hne). by split.
Qed.

Definition mic_sample : list Z := fst (microphone_encode (repeat 9 2000) (mkMicPacket [7; 8] Raw)).

Lemma microphone_parse_safe_witness :
  microphone_parse 1932 1 0xF055F055 mic_sample = Ok (Some (mkMicPacket [7; 8] Raw)) /\
  get_range mic_sample PAYLOAD_AT (PAYLOAD_AT + zlen [7; 8]) = Some [7; 8].
Proof.
  assert (fits 32 1932) as F by (by vm_compute).
  assert (microphone_parse 1932 1 0xF055F055 mic_sample = Ok (Some (mkMicPacket [7; 8] Raw))) as E
    by (by vm_compute).
  split; [exact E|].
  destruct (microphone_parse_safe 1932 1 0xF055F055 mic_sample (mkMicPacket [7; 8] Raw) F) as [_ H].
  destruct (H E) as (_ & _ & _ & _ & P). exact P.
Defined.
