(* ===== verification/Cursor.v ===== *)
(** The pointer message (crates/core/src/cursor.rs). *)

From S2P Require Import Prelude CoreError Control.

(** [cursor::BODY_LEN]. *)
Definition CURSOR_BODY_LEN : Z := 21.

(** ** [Flags], a set of bits *)

Definition Flags_NONE : Z := 0.
Definition Flags_IMAGE : Z := 0x0002.
Definition Flags_CACHED : Z := 0x0010.
Definition Flags_FORGET : Z := 0x0020.
Definition Flags_RELATIVE : Z := 0x0100.
Definition Flags_HIDDEN : Z := 0x0200.
Definition Flags_SUPPRESSED : Z := 0x0800.

(** [Flags::contains]. *)
Definition Flags_contains (self other : Z) : bool := Z.land self other =? other.

(** ** Messages *)

Record Update := mkUpdate {
  up_stream : Z;
  up_x : Z;
  up_y : Z;
  up_hot_x : Z;
  up_hot_y : Z;
  up_hidden : bool;
  up_relative : bool;
  up_suppressed : bool;
}.

Inductive Image :=
  | Image_Unchanged
  | Image_Fresh (png : list Z) (width height checksum : Z)
  | Image_Cached (checksum : Z).

(** [cursor::encoded_len]. *)
Definition encoded_len (image : Z) : Z := CONTROL_HEADER_LEN + CURSOR_BODY_LEN + image.

(** [cursor::put], on the buffer and the position. *)
Definition cursor_put (out : list Z) (at_ : Z) (bytes : list Z) : list Z * Z * result unit :=
  match get_range out at_ (at_ + zlen bytes) with
  | None => (out, at_, Err BufferTooSmall)
  | Some _ => (put_range out at_ bytes, at_ + zlen bytes, Ok ())
  end.

(** Consecutive [put]s, each with its [?]; the position they end at. *)
Fixpoint cursor_puts (out : list Z) (at_ : Z) (chunks : list (list Z)) : list Z * result Z :=
  match chunks with
  | [] => (out, Ok at_)
  | bytes :: rest =>
      match cursor_put out at_ bytes with
      | (out, _, Err e) => (out, Err e)
      | (out, at_, Ok _) => cursor_puts out at_ rest
      end
  end.

(** [cursor::encode]. *)
Definition cursor_encode (out : list Z) (update : Update) (image : Image) (forget : bool) :
    list Z * result Z :=
  let flags := Flags_NONE in
  let flags := if up_hidden update then Z.lor flags Flags_HIDDEN else flags in
  let flags := if up_relative update then Z.lor flags Flags_RELATIVE else flags in
  let flags := if up_suppressed update then Z.lor flags Flags_SUPPRESSED else flags in
  let flags := if forget then Z.lor flags Flags_FORGET else flags in
  let form : result (Z * Z * Z * Z * Z * Z) :=
    match image with
    | Image_Unchanged => Ok (flags, 0, 0, 0, up_hot_x update, up_hot_y update)
    | Image_Fresh png _ _ _ =>
        let flags := Z.lor flags Flags_IMAGE in
        size ← ok_or (try_from 32 (zlen png)) BufferTooSmall;
        Ok (flags, size, 0, 0, up_hot_x update, up_hot_y update)
    | Image_Cached checksum =>
        let flags := Z.lor flags Flags_CACHED in
        Ok (flags, 0, up_hot_x update, up_hot_y update,
            wrap 16 (Z.land checksum 0xFFFF), wrap 16 (Z.shiftr checksum 16))
    end in
  match form with
  | Err e => (out, Err e)
  | Ok (flags, size, header_a0, header_a1, at15, at17) =>
      let header := mkControl header_a0 header_a1 (up_stream update) op_CURSOR [] in
      match encode_header out header with
      | (out, Err e) => (out, Err e)
      | (out, Ok at_) =>
          let '(width, height) :=
            match image with Image_Fresh _ width height _ => (width, height) | _ => (0, 0) end in
          cursor_puts out at_
            ([[0; 0; 0]; to_be 4 size; to_be 2 width; to_be 2 height; to_be 2 (up_x update);
              to_be 2 (up_y update); to_be 2 at15; to_be 2 at17; to_be 2 flags]
             ++ match image with Image_Fresh png _ _ _ => [png] | _ => [] end)
      end
  end.

(** [cursor::Message]. *)
Record CursorMessage := mkCursorMessage {
  cm_update : Update;
  cm_flags : Z;
  cm_width : Z;
  cm_height : Z;
  cm_checksum : Z;
  cm_image : list Z;
}.

(** [cursor::be16]. *)
Definition be16 (body : list Z) (at_ : Z) : result Z :=
  ok_or (s ← get_range body at_ (at_ + 2); Some (from_be s)) ShortPacket.

(** [cursor::parse]. *)
Definition cursor_parse (message : Control) : result CursorMessage :=
  if negb (ct_opcode message =? op_CURSOR) then Err ShortPacket
  else
  let body := ct_body message in
  size ← ok_or (s ← get_range body 3 7; Some (from_be s)) ShortPacket;
  width ← be16 body 7;
  height ← be16 body 9;
  x ← be16 body 11;
  y ← be16 body 13;
  at15 ← be16 body 15;
  at17 ← be16 body 17;
  flags ← be16 body 19;
  let '(hot_x, hot_y, checksum) :=
    if Flags_contains flags Flags_CACHED then
      (default 0 (try_from 16 (Z.land (ct_a0 message) 0xFFFF)),
       default 0 (try_from 16 (Z.land (ct_a1 message) 0xFFFF)),
       Z.lor at15 (wrap 32 (Z.shiftl at17 16)))
    else (at15, at17, 0) in
  let image :=
    if Flags_contains flags Flags_IMAGE then
      let rest := default [] (get_range body CURSOR_BODY_LEN (zlen body)) in
      default rest (get_range rest 0 (default (2 ^ USIZE - 1) (try_from USIZE size)))
    else [] in
  Ok (mkCursorMessage
        (mkUpdate (default 0 (try_from 8 (Z.land (ct_a2 message) 0xFF))) x y hot_x hot_y
           (Flags_contains flags Flags_HIDDEN) (Flags_contains flags Flags_RELATIVE)
           (Flags_contains flags Flags_SUPPRESSED))
        flags width height checksum image).

(** ** What goes on the wire *)

Definition update_ok (u : Update) : Prop :=
  fits 8 (up_stream u) /\ fits 16 (up_x u) /\ fits 16 (up_y u) /\ fits 16 (up_hot_x u) /\ fits 16 (up_hot_y u).

Definition image_ok (image : Image) : Prop :=
  match image with
  | Image_Unchanged => True
  | Image_Fresh png width height _ => fits 32 (zlen png) /\ fits 16 width /\ fits 16 height
  | Image_Cached checksum => fits 32 checksum
  end.

Definition image_bytes (image : Image) : list Z :=
  match image with Image_Fresh png _ _ _ => png | _ => [] end.

Definition cursor_flags (u : Update) (image : Image) (forget : bool) : Z :=
  (if up_hidden u then 0x200 else 0) + (if up_relative u then 0x100 else 0)
  + (if up_suppressed u then 0x800 else 0) + (if forget then 0x20 else 0)
  + match image with Image_Unchanged => 0 | Image_Fresh _ _ _ _ => 2 | Image_Cached _ => 0x10 end.

(** The fields of a form: size, header arguments, dimensions, the two words at
    offsets 15 and 17. *)
Definition cursor_fields (u : Update) (image : Image) : Z * Z * Z * Z * Z * Z * Z :=
  match image with
  | Image_Unchanged => (0, 0, 0, 0, 0, up_hot_x u, up_hot_y u)
  | Image_Fresh png w h _ => (zlen png, 0, 0, w, h, up_hot_x u, up_hot_y u)
  | Image_Cached c => (0, up_hot_x u, up_hot_y u, 0, 0, c mod 2 ^ 16, c / 2 ^ 16)
  end.

Definition cursor_body (u : Update) (image : Image) (forget : bool) : list Z :=
  let '(size, _, _, w, h, p, q) := cursor_fields u image in
  [0; 0; 0] ++ to_be 4 size ++ to_be 2 w ++ to_be 2 h ++ to_be 2 (up_x u) ++ to_be 2 (up_y u)
    ++ to_be 2 p ++ to_be 2 q ++ to_be 2 (cursor_flags u image forget).

Definition cursor_control (u : Update) (image : Image) (forget : bool) (tail : list Z) : Control :=
  let '(_, a0, a1, _, _, _, _) := cursor_fields u image in
  mkControl a0 a1 (up_stream u) op_CURSOR (cursor_body u image forget ++ tail).

Lemma zlen_cursor_body u image forget : zlen (cursor_body u image forget) = CURSOR_BODY_LEN.
Proof. unfold cursor_body. by destruct (cursor_fields u image) as [[[[[[? ?] ?] ?] ?] ?] ?]. Qed.

(** ** Writing *)

Lemma cursor_puts_ok out at_ chunks :
  0 <= at_ -> at_ + zlen (concat chunks) <= zlen out ->
  cursor_puts out at_ chunks = (put_range out at_ (concat chunks), Ok (at_ + zlen (concat chunks))).
Proof.
  revert out at_. induction chunks as [|b chunks IH]; intros out at_ H0 Hl; cbn [cursor_puts concat] in *.
  - rewrite put_range_nil. change (zlen (@nil Z)) with 0. by rewrite Z.add_0_r.
  - rewrite zlen_app in Hl. pose proof (zlen_nonneg b). pose proof (zlen_nonneg (concat chunks)).
    unfold cursor_put. rewrite get_range_eq by lia.
    rewrite IH by (rewrite ?zlen_put_range; lia). rewrite put_range_twice by lia.
    rewrite zlen_app. do 2 f_equal. lia.
Qed.

Definition cursor_wire (u : Update) (image : Image) (forget : bool) : list Z :=
  control_wire (cursor_control u image forget (image_bytes image)).

Lemma zlen_cursor_wire u image forget :
  zlen (cursor_wire u image forget) = encoded_len (zlen (image_bytes image)).
Proof.
  unfold cursor_wire, control_wire, cursor_control, encoded_len.
  destruct (cursor_fields u image) as [[[[[[? ?] ?] ?] ?] ?] ?]. cbn [ct_body].
  rewrite zlen_app, zlen_control_header, zlen_app, zlen_cursor_body. lia.
Qed.

Lemma halves c : fits 32 c ->
  wrap 16 (Z.land c 0xFFFF) = c mod 2 ^ 16 /\ wrap 16 (Z.shiftr c 16) = c / 2 ^ 16 /\
  fits 16 (c mod 2 ^ 16) /\ fits 16 (c / 2 ^ 16).
Proof.
  unfold fits. intros H. assert (0 <= c mod 2 ^ 16 < 2 ^ 16) as H1 by (apply Z.mod_pos_bound; lia).
  assert (0 <= c / 2 ^ 16 < 2 ^ 16) as H2
    by (split; [apply Z.div_pos; lia|apply Z.div_lt_upper_bound; lia]).
  change 0xFFFF with (Z.ones 16). rewrite Z.land_ones, Z.shiftr_div_pow2 by lia.
  rewrite !wrap_small by (unfold fits; lia). done.
Qed.

(** The flags, as the encoder accumulates them. *)
Lemma cursor_flags_or (u : Update) (image : Image) (forget : bool) :
  let flags := Flags_NONE in
  let flags := if up_hidden u then Z.lor flags Flags_HIDDEN else flags in
  let flags := if up_relative u then Z.lor flags Flags_RELATIVE else flags in
  let flags := if up_suppressed u then Z.lor flags Flags_SUPPRESSED else flags in
  let flags := if forget then Z.lor flags Flags_FORGET else flags in
  match image with
  | Image_Unchanged => flags
  | Image_Fresh _ _ _ _ => Z.lor flags Flags_IMAGE
  | Image_Cached _ => Z.lor flags Flags_CACHED
  end = cursor_flags u image forget.
Proof. unfold cursor_flags. by destruct image, (up_hidden u), (up_relative u), (up_suppressed u), forget. Qed.

Lemma put_chunks out chunks c :
  CONTROL_HEADER_LEN + zlen (concat chunks) <= zlen out ->
  cursor_puts (put_range out 0 (control_header c)) CONTROL_HEADER_LEN chunks
  = (put_range out 0 (control_header c ++ concat chunks), Ok (CONTROL_HEADER_LEN + zlen (concat chunks))).
Proof.
  intros Hl. pose proof (zlen_control_header c) as Eh. pose proof (zlen_nonneg (concat chunks)).
  assert (zlen (put_range out 0 (control_header c)) = zlen out) as Ez
    by (apply zlen_put_range; unfold CONTROL_HEADER_LEN in *; lia).
  rewrite cursor_puts_ok by (rewrite ?Ez; unfold CONTROL_HEADER_LEN in *; lia). f_equal.
  rewrite <- Eh, <- (Z.add_0_l (zlen (control_header c))). apply put_range_twice; lia.
Qed.

Lemma put_cursor out u image forget chunks c :
  concat chunks = cursor_body u image forget ++ image_bytes image ->
  control_header c = control_header (cursor_control u image forget (image_bytes image)) ->
  encoded_len (zlen (image_bytes image)) <= zlen out ->
  cursor_puts (put_range out 0 (control_header c)) CONTROL_HEADER_LEN chunks
    = (put_range out 0 (cursor_wire u image forget), Ok (encoded_len (zlen (image_bytes image)))).
Proof.
  intros Ec Eh Hl. unfold encoded_len in *.
  assert (zlen (concat chunks) = CURSOR_BODY_LEN + zlen (image_bytes image)) as El
    by (by rewrite Ec, zlen_app, zlen_cursor_body).
  rewrite put_chunks by lia. rewrite El, Eh, Ec. f_equal; [|f_equal; lia].
  unfold cursor_wire, control_wire. f_equal. f_equal. unfold cursor_control.
  by destruct (cursor_fields u image) as [[[[[[? ?] ?] ?] ?] ?] ?].
Qed.

Lemma cursor_encode_wire out u image forget :
  image_ok image -> encoded_len (zlen (image_bytes image)) <= zlen out ->
  cursor_encode out u image forget
    = (put_range out 0 (cursor_wire u image forget), Ok (encoded_len (zlen (image_bytes image)))).
Proof.
  intros Hi Hl. pose proof (zlen_nonneg (image_bytes image)) as Hn.
  assert (CONTROL_HEADER_LEN <= zlen out) as Hh by (unfold encoded_len, CURSOR_BODY_LEN in Hl; lia).
  pose proof (cursor_flags_or u image forget) as EF. cbv zeta in EF. unfold cursor_encode. cbv zeta.
  destruct image as [|png w h c|c]; cbn [image_ok] in Hi; rewrite ?EF.
  - rewrite encode_header_wire by done. apply put_cursor; [cbn [concat app image_bytes]; by rewrite ?app_nil_r|done|done].
  - unfold try_from. destruct Hi as ([Hp1 Hp2] & _).
    rewrite (proj2 (Z.leb_le _ _) Hp1), (proj2 (Z.ltb_lt _ _) Hp2). cbn [andb ok_or mbind result_bind].
    rewrite encode_header_wire by done. apply put_cursor; [cbn [concat app image_bytes]; by rewrite ?app_nil_r|done|done].
  - destruct (halves c Hi) as (-> & -> & _). rewrite encode_header_wire by done. apply put_cursor; [cbn [concat app image_bytes]; by rewrite ?app_nil_r|done|done].
Qed.

(** ** Reading *)

Lemma be16_mid pre a v rest : a = zlen pre -> fits 16 v -> be16 (pre ++ to_be 2 v ++ rest) a = Ok v.
Proof.
  intros -> Hv. unfold be16. rewrite get_range_mid by (rewrite ?zlen_to_be; lia).
  cbn [mbind option_bind ok_or]. by rewrite (from_to_be 2).
Qed.

(** Twenty-one bytes of body and what follows them. *)
Definition cursor_layout (size w h x y p q f : Z) (tail : list Z) : list Z :=
  [0; 0; 0] ++ to_be 4 size ++ to_be 2 w ++ to_be 2 h ++ to_be 2 x ++ to_be 2 y
    ++ to_be 2 p ++ to_be 2 q ++ to_be 2 f ++ tail.

Lemma cursor_layout_read size w h x y p q f tail :
  fits 16 w -> fits 16 h -> fits 16 x -> fits 16 y -> fits 16 p -> fits 16 q -> fits 16 f ->
  let body := cursor_layout size w h x y p q f tail in
  get_range body 3 7 = Some (to_be 4 size) /\ be16 body 7 = Ok w /\ be16 body 9 = Ok h /\
  be16 body 11 = Ok x /\ be16 body 13 = Ok y /\ be16 body 15 = Ok p /\ be16 body 17 = Ok q /\
  be16 body 19 = Ok f /\ get_range body CURSOR_BODY_LEN (zlen body) = Some tail.
Proof.
  intros Hw Hh Hx Hy Hp Hq Hf body.
  pose (p3 := [0; 0; 0] : list Z). pose (p7 := p3 ++ to_be 4 size). pose (p9 := p7 ++ to_be 2 w).
  pose (p11 := p9 ++ to_be 2 h). pose (p13 := p11 ++ to_be 2 x). pose (p15 := p13 ++ to_be 2 y).
  pose (p17 := p15 ++ to_be 2 p). pose (p19 := p17 ++ to_be 2 q). split_and!.
  - exact (get_range_mid p3 (to_be 4 size) _ 3 7 eq_refl eq_refl).
  - exact (be16_mid p7 7 w _ eq_refl Hw).
  - exact (be16_mid p9 9 h _ eq_refl Hh).
  - exact (be16_mid p11 11 x _ eq_refl Hx).
  - exact (be16_mid p13 13 y _ eq_refl Hy).
  - exact (be16_mid p15 15 p _ eq_refl Hp).
  - exact (be16_mid p17 17 q _ eq_refl Hq).
  - exact (be16_mid p19 19 f tail eq_refl Hf).
  - rewrite get_range_drop; [done|]. change (zlen body) with (zlen (p19 ++ to_be 2 f ++ tail)).
    rewrite !zlen_app. pose proof (zlen_nonneg tail).
    change (zlen p19) with 19. change (zlen (to_be 2 f)) with 2. unfold CURSOR_BODY_LEN. lia.
Qed.

Lemma cursor_flags_read u image forget :
  let flags := cursor_flags u image forget in
  fits 16 flags /\
  Flags_contains flags Flags_HIDDEN = up_hidden u /\
  Flags_contains flags Flags_RELATIVE = up_relative u /\
  Flags_contains flags Flags_SUPPRESSED = up_suppressed u /\
  Flags_contains flags Flags_FORGET = forget /\
  Flags_contains flags Flags_IMAGE = match image with Image_Fresh _ _ _ _ => true | _ => false end /\
  Flags_contains flags Flags_CACHED = match image with Image_Cached _ => true | _ => false end.
Proof.
  unfold cursor_flags. by destruct image, (up_hidden u), (up_relative u), (up_suppressed u), forget.
Qed.

(** The declared length of a picture, cut at what arrived. *)
Lemma declared_image (rest : list Z) (size : Z) :
  fits 32 size ->
  default rest (get_range rest 0 (default (2 ^ USIZE - 1) (try_from USIZE size))) = take (Z.to_nat size) rest.
Proof.
  intros [H0 H1]. unfold try_from. rewrite (proj2 (Z.leb_le _ _)), (proj2 (Z.ltb_lt _ _)) by lia.
  cbn [andb from_option id]. destruct (Z.le_gt_cases size (zlen rest)).
  - rewrite get_range_eq by lia. cbn. by rewrite Z.sub_0_r.
  - rewrite get_range_None by lia. cbn. symmetry. apply take_ge. unfold zlen in *. lia.
Qed.

(** What a receiver reads of a message whose picture arrived as [tail]. *)
Definition cursor_read (u : Update) (image : Image) (forget : bool) (tail : list Z) : CursorMessage :=
  mkCursorMessage u (cursor_flags u image forget)
    (match image with Image_Fresh _ w _ _ => w | _ => 0 end)
    (match image with Image_Fresh _ _ h _ => h | _ => 0 end)
    (match image with Image_Cached c => c | _ => 0 end)
    (match image with Image_Fresh png _ _ _ => take (length png) tail | _ => [] end).

Lemma rejoin c : fits 32 c -> Z.lor (c mod 2 ^ 16) (wrap 32 (Z.shiftl (c / 2 ^ 16) 16)) = c.
Proof.
  intros H. destruct (halves c H) as (_ & _ & [Hl1 Hl2] & [Hh1 Hh2]).
  rewrite <- (Z.shiftr_div_pow2 c 16), <- (Z.land_ones c 16) by lia.
  rewrite <- (Z.shiftr_div_pow2 c 16) in Hh1, Hh2 by lia.
  rewrite wrap_small by (unfold fits; rewrite Z.shiftl_mul_pow2 by lia; lia).
  apply Z.bits_inj'. intros i Hi. rewrite Z.lor_spec, Z.land_spec, Z.testbit_ones_nonneg by lia.
  rewrite Z.shiftl_spec by lia. destruct (Z.ltb_spec i 16).
  - rewrite (Z.testbit_neg_r _ (i - 16)) by lia. by destruct (Z.testbit c i).
  - rewrite Z.shiftr_spec by lia. replace (i - 16 + 16) with i by lia. by destruct (Z.testbit c i).
Qed.

Lemma low_byte w v : 0 < w -> fits w v -> default 0 (try_from w (Z.land v (Z.ones w))) = v.
Proof.
  intros Hw [H0 H1]. rewrite Z.land_ones, Z.mod_small by lia. unfold try_from.
  by rewrite (proj2 (Z.leb_le _ _)), (proj2 (Z.ltb_lt _ _)) by lia.
Qed.

Lemma cursor_parse_wire u image forget tail :
  update_ok u -> image_ok image ->
  cursor_parse (cursor_control u image forget tail) = Ok (cursor_read u image forget tail).
Proof.
  intros (Hs & Hx & Hy & Ha & Hb) Hi.
  destruct (cursor_flags_read u image forget) as (Ff & Eh & Er & Es & _ & Ei & Ec).
  assert (fits 16 0) as H16 by done. assert (fits 32 0) as H32 by done.
  unfold cursor_parse, cursor_control, cursor_body, cursor_read.
  destruct image as [|png w h c|c]; cbn [cursor_fields ct_opcode ct_body ct_a0 ct_a1 ct_a2 image_ok] in *;
    [|destruct Hi as (Hp & Hw & Hh)|destruct (halves c Hi) as (_ & _ & Hp & Hq)];
    change (negb (op_CURSOR =? op_CURSOR)) with false; cbv iota.
  all: match goal with
    |- context [([0; 0; 0] ++ to_be 4 ?size ++ to_be 2 ?w ++ to_be 2 ?h ++ to_be 2 ?x ++ to_be 2 ?y
                   ++ to_be 2 ?p ++ to_be 2 ?q ++ to_be 2 ?f) ++ ?tl] =>
      change (([0; 0; 0] ++ to_be 4 size ++ to_be 2 w ++ to_be 2 h ++ to_be 2 x ++ to_be 2 y
                   ++ to_be 2 p ++ to_be 2 q ++ to_be 2 f) ++ tl) with (cursor_layout size w h x y p q f tl);
      destruct (cursor_layout_read size w h x y p q f tl) as (-> & -> & -> & -> & -> & -> & -> & -> & ->);
        [done..|]
    end; cbn [mbind option_bind result_bind ok_or]; rewrite (from_to_be 4) by done;
    rewrite Ei, Ec, Eh, Er, Es; change 0xFF with (Z.ones 8); change 0xFFFF with (Z.ones 16);
    rewrite ?low_byte by (lia || done).
  - by destruct u.
  - cbn [from_option id]. rewrite declared_image by done. unfold zlen. rewrite Nat2Z.id. by destruct u.
  - rewrite rejoin by done. by destruct u.
Qed.

Lemma cursor_control_ok u image forget tail : update_ok u -> control_ok (cursor_control u image forget tail).
Proof.
  intros (Hs & _ & _ & Ha & Hb). unfold control_ok, fits in *.
  destruct image; cbn -[Z.pow]; unfold op_CURSOR; split_and!; lia.
Qed.

(** ** Refusals *)

Lemma cursor_puts_short out at_ chunks :
  0 <= at_ <= zlen out -> zlen out < at_ + zlen (concat chunks) ->
  (cursor_puts out at_ chunks).2 = Err BufferTooSmall.
Proof.
  revert out at_. induction chunks as [|b chunks IH]; intros out at_ H0 Hl; cbn [cursor_puts concat] in *.
  - rewrite zlen_nil in Hl. lia.
  - rewrite zlen_app in Hl. pose proof (zlen_nonneg b). unfold cursor_put.
    destruct (Z.le_gt_cases (at_ + zlen b) (zlen out)).
    + rewrite get_range_eq by lia. apply IH; rewrite zlen_put_range; lia.
    + by rewrite get_range_None by lia.
Qed.

Lemma cursor_encode_short out u image forget :
  zlen out < encoded_len (zlen (image_bytes image)) ->
  (cursor_encode out u image forget).2 = Err BufferTooSmall.
Proof.
  intros Hl. unfold encoded_len in Hl.
  assert (forall c chunks, zlen (concat chunks) = CURSOR_BODY_LEN + zlen (image_bytes image) ->
    (match encode_header out c with
     | (out, Err e) => (out, Err e)
     | (out, Ok at_) => cursor_puts out at_ chunks
     end).2 = Err BufferTooSmall) as Hput.
  { intros c chunks Ec. destruct (Z.le_gt_cases CONTROL_HEADER_LEN (zlen out)) as [Hh|Hh].
    - rewrite encode_header_wire by done. pose proof (zlen_control_header c) as E.
      assert (zlen (put_range out 0 (control_header c)) = zlen out) as Ez by (apply zlen_put_range; lia).
      apply cursor_puts_short; rewrite Ez; unfold CONTROL_HEADER_LEN in *; lia.
    - unfold encode_header. by rewrite get_range_None by (unfold CONTROL_HEADER_LEN in *; lia). }
  unfold cursor_encode. cbv zeta. destruct image as [|png w h c|c].
  - by apply Hput.
  - destruct (try_from 32 (zlen png)); [|done]. cbn [ok_or mbind result_bind]. apply Hput.
    cbn [concat app image_bytes]. rewrite app_nil_r. exact (zlen_app (cursor_layout _ _ _ _ _ _ _ _ []) png).
  - by apply Hput.
Qed.

Lemma cursor_parse_refuses m :
  cursor_parse m = Err ShortPacket <-> ct_opcode m <> op_CURSOR \/ zlen (ct_body m) < CURSOR_BODY_LEN.
Proof.
  unfold cursor_parse, CURSOR_BODY_LEN. destruct (Z.eqb_spec (ct_opcode m) op_CURSOR) as [E|E]; cbn [negb]; [|naive_solver].
  unfold be16. destruct (Z.lt_ge_cases (zlen (ct_body m)) 21) as [Hl|Hl].
  - split; [by right|]. intros _. rewrite (get_range_None _ 19 (19 + 2)) by lia.
    destruct (get_range _ 3 7); [|done]. destruct (get_range _ 7 (7 + 2)); [|done].
    destruct (get_range _ 9 (9 + 2)); [|done]. destruct (get_range _ 11 (11 + 2)); [|done].
    destruct (get_range _ 13 (13 + 2)); [|done]. destruct (get_range _ 15 (15 + 2)); [|done].
    by destruct (get_range _ 17 (17 + 2)).
  - split; [|lia]. rewrite !(get_range_eq (ct_body m)) by lia. cbn [mbind option_bind result_bind ok_or].
    by destruct (Flags_contains _ Flags_CACHED).
Qed.

(** The pointer message round-trips in each of its three forms. Written to
    a buffer that has room for it and read back through the control header, the
    update is the one sent, hotspot included although one form keeps it in the
    header's arguments, the three states are read independently, and the picture
    (or the checksum that names one) arrives in the form that carries it and in
    no other; a picture cut short is taken at what arrived, with the update
    intact; a buffer without room is refused, and a message is refused exactly
    when it is not a pointer message or is shorter than the fixed part. *)
Theorem cursor_roundtrip (out tail : list Z) (u : Update) (image : Image) (forget : bool) (m : Control) :
  update_ok u -> image_ok image ->
  let len := encoded_len (zlen (image_bytes image)) in
  (len <= zlen out -> exists out' c r,
    cursor_encode out u image forget = (out', Ok len) /\ zlen out' = zlen out /\
    control_parse (take (Z.to_nat len) out') = Ok c /\ cursor_parse c = Ok r /\
    cm_update r = u /\ Flags_contains (cm_flags r) Flags_FORGET = forget /\
    match image with
    | Image_Unchanged => cm_checksum r = 0 /\ cm_image r = []
    | Image_Fresh png w h _ => cm_width r = w /\ cm_height r = h /\ cm_checksum r = 0 /\ cm_image r = png
    | Image_Cached checksum => cm_checksum r = checksum /\ cm_image r = []
    end) /\
  (zlen out < len -> (cursor_encode out u image forget).2 = Err BufferTooSmall) /\
  cursor_parse (cursor_control u image forget tail) = Ok (cursor_read u image forget tail) /\
  (cursor_parse m = Err ShortPacket <-> ct_opcode m <> op_CURSOR \/ zlen (ct_body m) < CURSOR_BODY_LEN).
Proof.
  intros Hu Hi len. split_and!; [|apply cursor_encode_short|by apply cursor_parse_wire|apply cursor_parse_refuses].
  intros Hl. pose proof (zlen_cursor_wire u image forget) as Ez. fold len in Ez.
  eexists _, (cursor_control u image forget (image_bytes image)), _.
  split; [by apply cursor_encode_wire|]. split; [apply zlen_put_range; lia|].
  split; [|split; [by apply cursor_parse_wire|]].
  - rewrite put_range_0, take_app_length' by (unfold zlen in Ez; lia). apply control_parse_wire.
    by apply cursor_control_ok.
  - cbn [cursor_read cm_update cm_flags cm_width cm_height cm_checksum cm_image].
    split; [done|]. split; [apply cursor_flags_read|]. destruct image; [done| |done].
    by rewrite take_ge.
Qed.

Lemma cursor_roundtrip_witness :
  exists out' c r,
    cursor_encode (repeat 9 64) (mkUpdate 1 640 360 7 9 false true false) (Image_Cached 0xDEADBEEF) true
      = (out', Ok 34) /\ zlen out' = 64 /\ control_parse (take (Z.to_nat 34) out') = Ok c /\ cursor_parse c = Ok r /\
    cm_update r = mkUpdate 1 640 360 7 9 false true false /\ Flags_contains (cm_flags r) Flags_FORGET = true /\
    cm_checksum r = 0xDEADBEEF /\ cm_image r = [].
Proof.
  apply (cursor_roundtrip (repeat 9 64) [] (mkUpdate 1 640 360 7 9 false true false) (Image_Cached 0xDEADBEEF) true
           (mkControl 0 0 0 0 [])); by vm_compute.
Defined.
