(* ===== verification/Pad.v ===== *)
(** A controller's own reports (crates/core/src/pad.rs): the products, the forms their
    reports take over a wire and over the air, the standard state a report implies, and
    the messages that carry them. *)

From Stdlib Require Import String.
From S2P Require Import Prelude CoreError Crc32 Control.

(** ** Products *)

Inductive Product := DualShock4 | DualSense.
#[global] Instance Product_eq_dec : EqDecision Product.
Proof. solve_decision. Defined.

Definition FEATURE_BIT : Z := Z.shiftl 1 16.
Definition INPUT_LEN : Z := 64.
Definition USB_INPUT_ID : Z := 0x01.
Definition DS4_BODY_LEN : Z := 63.
Definition DS4_TOUCH_AT : Z := 33.
Definition DS4_TOUCH_LEN : Z := 10.
Definition BT_INPUT_LEN : Z := 78.
Definition DS4_BT_INPUT_ID : Z := 0x11.
Definition DS5_BT_INPUT_ID : Z := 0x31.
Definition DS4_BT_INPUT_AT : Z := 3.
Definition DS5_BT_INPUT_AT : Z := 2.
Definition DS4_BT_INPUT_MAPPED : Z := 61.
Definition DS4_OUTPUT_ID : Z := 0x05.
Definition DS4_OUTPUT_LEN : Z := 32.
Definition DS5_OUTPUT_ID : Z := 0x02.
Definition DS5_OUTPUT_LEN : Z := 63.
Definition DS5_OUTPUT_MIN_LEN : Z := 48.
Definition BT_OUTPUT_LEN : Z := 78.
Definition DS4_BT_OUTPUT_ID : Z := 0x11.
Definition DS5_BT_OUTPUT_ID : Z := 0x31.
Definition BT_OUTPUT_AT : Z := 3.
Definition DS4_BT_OUTPUT_CONTROL : Z := 0xC0.
Definition DS5_BT_OUTPUT_TAG : Z := 0x10.
Definition DS5_OUTPUT_FLAGS1_AT : Z := 2.
Definition DS5_FLAG1_LIGHTBAR : Z := 0x04.
Definition DS5_FLAG1_RESET_LIGHTS : Z := 0x08.
Definition DS5_FLAG1_PLAYER_LIGHTS : Z := 0x10.
Definition DS5_CLOCK_AT : Z := 28.
Definition DS5_LIGHTS_SETTLED : Z := 10200000.
Definition REPORT_MAX : Z := 78.
Definition FEATURE_MAX : Z := 64.
Definition CRC_SEED_INPUT : Z := 0xA1.
Definition CRC_SEED_OUTPUT : Z := 0xA2.
Definition CRC_SEED_FEATURE : Z := 0xA3.
Definition DS4_BT_CALIBRATION_ID : Z := 0x05.
Definition DS4_BT_CALIBRATION_LEN : Z := 41.
Definition DS4_CALIBRATION_RANGES_AT : Z := 7.

Definition Product_product_id (p : Product) : Z := match p with DualShock4 => 0x09CC | DualSense => 0x0CE6 end.
Definition VENDOR_ID : Z := 0x054C.

Definition Product_from_product_id (id : Z) : option Product :=
  if (id =? 0x09CC) || (id =? 0x05C4) then Some DualShock4
  else if id =? 0x0CE6 then Some DualSense
  else None.

Definition Product_name (p : Product) : string :=
  match p with
  | DualShock4 => "Sony Interactive Entertainment Wireless Controller"
  | DualSense => "Sony Interactive Entertainment DualSense Wireless Controller"
  end%string.

Definition Product_output_lens (p : Product) : Z * Z :=
  match p with
  | DualShock4 => (DS4_OUTPUT_LEN, DS4_OUTPUT_LEN)
  | DualSense => (DS5_OUTPUT_MIN_LEN, DS5_OUTPUT_LEN)
  end.
Definition Product_output_id (p : Product) : Z := match p with DualShock4 => DS4_OUTPUT_ID | DualSense => DS5_OUTPUT_ID end.
Definition Product_bt_input_id (p : Product) : Z := match p with DualShock4 => DS4_BT_INPUT_ID | DualSense => DS5_BT_INPUT_ID end.
Definition Product_bt_output_id (p : Product) : Z := match p with DualShock4 => DS4_BT_OUTPUT_ID | DualSense => DS5_BT_OUTPUT_ID end.

(** [pad::Transport]. *)
Inductive PadTransport := Usb | Bluetooth.

(** ** The DualSense's lights *)

Definition ds5_clock (report : list Z) : Z :=
  from_le match get_range report DS5_CLOCK_AT (DS5_CLOCK_AT + 4) with Some bytes => bytes | None => [0; 0; 0; 0] end.

Definition ds5_sets_lights (report : list Z) : bool :=
  bool_decide (head report = Some DS5_OUTPUT_ID) &&
  match get_at report DS5_OUTPUT_FLAGS1_AT with
  | Some flags => negb (Z.land flags (Z.lor DS5_FLAG1_LIGHTBAR DS5_FLAG1_PLAYER_LIGHTS) =? 0)
  | None => false
  end.

Definition ds5_reset_lights : list Z :=
  put_at (put_at (repeat 0 (Z.to_nat DS5_OUTPUT_MIN_LEN)) 0 DS5_OUTPUT_ID) DS5_OUTPUT_FLAGS1_AT DS5_FLAG1_RESET_LIGHTS.

(** ** Feature reports *)

Inductive Feature := Calibration | Firmware.
#[global] Instance Feature_eq_dec : EqDecision Feature.
Proof. solve_decision. Defined.

Definition Feature_id (f : Feature) (p : Product) : Z :=
  match f, p with
  | Calibration, DualShock4 => 0x02
  | Firmware, DualShock4 => 0xA3
  | Calibration, DualSense => 0x05
  | Firmware, DualSense => 0x20
  end.
Definition Feature_len (f : Feature) (p : Product) : Z :=
  match f, p with
  | Calibration, DualShock4 => 37
  | Firmware, DualShock4 => 49
  | Calibration, DualSense => 41
  | Firmware, DualSense => 64
  end.
Definition Feature_of (p : Product) (report : list Z) : option Feature :=
  id ← head report;
  find (fun f => (Feature_id f p =? id) && (Feature_len f p =? zlen report)) [Calibration; Firmware].

(** ** The standard state *)

Definition bit_DPAD_UP : Z := 0x0001.
Definition bit_DPAD_DOWN : Z := 0x0002.
Definition bit_DPAD_LEFT : Z := 0x0004.
Definition bit_DPAD_RIGHT : Z := 0x0008.
Definition bit_START : Z := 0x0010.
Definition bit_BACK : Z := 0x0020.
Definition bit_LEFT_THUMB : Z := 0x0040.
Definition bit_RIGHT_THUMB : Z := 0x0080.
Definition bit_LEFT_SHOULDER : Z := 0x0100.
Definition bit_RIGHT_SHOULDER : Z := 0x0200.
Definition bit_GUIDE : Z := 0x0400.
Definition bit_TOUCHPAD : Z := 0x0800.
Definition bit_A : Z := 0x1000.
Definition bit_B : Z := 0x2000.
Definition bit_X : Z := 0x4000.
Definition bit_Y : Z := 0x8000.

(** [pad::State]; the sticks are signed. *)
Record PadState := mkPadState {
  pd_buttons : Z;
  pd_lx : Z;
  pd_ly : Z;
  pd_rx : Z;
  pd_ry : Z;
  pd_lt : Z;
  pd_rt : Z;
}.

Definition stick (v : Z) (invert : bool) : Z :=
  let d := wrap 16 (v * 257) in
  if invert then as_signed 16 (wsub 16 0x7FFF d) else as_signed 16 (Z.lxor d 0x8000).

Definition hat (v : Z) : Z :=
  match v with
  | 0 => bit_DPAD_UP
  | 1 => Z.lor bit_DPAD_UP bit_DPAD_RIGHT
  | 2 => bit_DPAD_RIGHT
  | 3 => Z.lor bit_DPAD_RIGHT bit_DPAD_DOWN
  | 4 => bit_DPAD_DOWN
  | 5 => Z.lor bit_DPAD_DOWN bit_DPAD_LEFT
  | 6 => bit_DPAD_LEFT
  | 7 => Z.lor bit_DPAD_LEFT bit_DPAD_UP
  | _ => 0
  end.

(** The table of [state]: a button's byte masked, and its bit. *)
Definition button_table (b0 b1 b2 : Z) : list (Z * Z) :=
  [ (Z.land b0 0x10, bit_X); (Z.land b0 0x20, bit_A); (Z.land b0 0x40, bit_B); (Z.land b0 0x80, bit_Y);
    (Z.land b1 0x01, bit_LEFT_SHOULDER); (Z.land b1 0x02, bit_RIGHT_SHOULDER); (Z.land b1 0x10, bit_BACK);
    (Z.land b1 0x20, bit_START); (Z.land b1 0x40, bit_LEFT_THUMB); (Z.land b1 0x80, bit_RIGHT_THUMB);
    (Z.land b2 0x01, bit_GUIDE); (Z.land b2 0x02, bit_TOUCHPAD) ].

Definition pad_state (product : Product) (report : list Z) : PadState :=
  let '(buttons_at, triggers_at) := match product with DualShock4 => (5, 8) | DualSense => (8, 5) end in
  let byte at_ := default 0 (get_at report at_) in
  let b0 := byte buttons_at in
  let b1 := byte (buttons_at + 1) in
  let b2 := byte (buttons_at + 2) in
  let buttons := foldl (fun buttons '(set, b) => if negb (set =? 0) then Z.lor buttons b else buttons)
                   (hat (Z.land b0 0x0F)) (button_table b0 b1 b2) in
  mkPadState buttons (stick (byte 1) false) (stick (byte 2) true) (stick (byte 3) false) (stick (byte 4) true)
    (byte triggers_at) (byte (triggers_at + 1)).

Definition ds4_touch_block (report : list Z) : list Z :=
  match get_range report DS4_TOUCH_AT (DS4_TOUCH_AT + DS4_TOUCH_LEN) with
  | Some src => src
  | None => repeat 0 (Z.to_nat DS4_TOUCH_LEN)
  end.

Definition ds4_body (report : list Z) : list Z := default [] (get_range report 1 (zlen report)).

(** ** Wireless reports *)

Definition bt_crc (seed : Z) (report : list Z) : Z :=
  Crc32_finish (Crc32_update (Crc32_update Crc32_new [seed]) report).

Definition bt_checked (seed : Z) (report : list Z) : bool :=
  if zlen report <? 4 then false
  else
  let at_ := zlen report - 4 in
  from_le (drop (Z.to_nat at_) report) =? bt_crc seed (take (Z.to_nat at_) report).

(** [bt_seal]: the report afterwards. *)
Definition bt_seal (seed : Z) (report : list Z) : list Z :=
  if zlen report <? 4 then report
  else
  let at_ := zlen report - 4 in
  put_range report at_ (to_le 4 (bt_crc seed (take (Z.to_nat at_) report))).

(** [if let (Some(dst), Some(src)) = (out.get_mut(a..b), src)] then a copy. *)
Definition copy_into (out : list Z) (a b : Z) (src : option (list Z)) : list Z :=
  match get_range out a b, src with
  | Some _, Some src => put_range out a src
  | _, _ => out
  end.

(** [normalize_input]: the buffer afterwards, and what is returned. *)
Definition normalize_input (product : Product) (report out : list Z) : list Z * result PadTransport :=
  match head report with
  | None => (out, Err ShortPacket)
  | Some id =>
      if (id =? USB_INPUT_ID) && (zlen report =? INPUT_LEN) then (report, Ok Usb)
      else if negb (id =? Product_bt_input_id product) || negb (zlen report =? BT_INPUT_LEN) then (out, Err Malformed)
      else if negb (bt_checked CRC_SEED_INPUT report) then (out, Err Decrypt)
      else
      let out := put_at (repeat 0 (length out)) 0 USB_INPUT_ID in
      let '(from, len) := match product with
                          | DualShock4 => (DS4_BT_INPUT_AT, DS4_BT_INPUT_MAPPED - 1)
                          | DualSense => (DS5_BT_INPUT_AT, INPUT_LEN - 1)
                          end in
      (copy_into out 1 (1 + len) (get_range report from (from + len)), Ok Bluetooth)
  end.

(** The gyro ranges, grouped to interleaved. *)
Definition interleave (grouped : list Z) : option (list Z) :=
  match grouped with
  | [p0; p1; y0; y1; r0; r1; mp0; mp1; my0; my1; mr0; mr1] => Some [p0; p1; mp0; mp1; y0; y1; my0; my1; r0; r1; mr0; mr1]
  | _ => None
  end.

(** [normalize_feature]: the buffer afterwards, and what is returned. *)
Definition normalize_feature (product : Product) (report out : list Z) : list Z * result (Feature * Z) :=
  if bool_decide (product = DualShock4) && bool_decide (head report = Some DS4_BT_CALIBRATION_ID)
     && (zlen report =? DS4_BT_CALIBRATION_LEN) then
    if negb (bt_checked CRC_SEED_FEATURE report) then (out, Err Decrypt)
    else
    let len := Feature_len Calibration product in
    match get_range out 0 len with
    | None => (out, Err BufferTooSmall)
    | Some _ =>
        match get_range report 0 len with
        | None => (out, Err ShortPacket)
        | Some src =>
            let out := put_at (put_range out 0 src) 0 (Feature_id Calibration product) in
            let at_ := DS4_CALIBRATION_RANGES_AT in
            let out := copy_into out at_ (at_ + 12) (r ← get_range report at_ (at_ + 12); interleave r) in
            (out, Ok (Calibration, len))
        end
    end
  else
  match Feature_of product report with
  | None => (out, Err Malformed)
  | Some feature =>
      match get_range out 0 (zlen report) with
      | None => (out, Err BufferTooSmall)
      | Some _ =>
          let out := put_range out 0 report in
          let out := if bt_checked CRC_SEED_FEATURE report && (4 <=? zlen report)
                     then put_range out (zlen report - 4) [0; 0; 0; 0] else out in
          (out, Ok (feature, zlen report))
      end
  end.

(** [frame_output]: the buffer afterwards, and what is returned. *)
Definition frame_output (product : Product) (transport : PadTransport) (seq : Z) (report out : list Z) : list Z * result Z :=
  let '(shortest, longest) := Product_output_lens product in
  if negb (bool_decide (head report = Some (Product_output_id product))) || (zlen report <? shortest) || (longest <? zlen report)
  then (out, Err Malformed)
  else
  match transport with
  | Usb =>
      match get_range out 0 (zlen report) with
      | None => (out, Err BufferTooSmall)
      | Some _ => (put_range out 0 report, Ok (zlen report))
      end
  | Bluetooth =>
      let out := repeat 0 (length out) in
      let '(b1, b2) := match product with
                       | DualShock4 => (DS4_BT_OUTPUT_CONTROL, 0)
                       | DualSense => (wrap 8 (Z.shiftl seq 4), DS5_BT_OUTPUT_TAG)
                       end in
      let out := copy_into out 0 BT_OUTPUT_AT (Some [Product_bt_output_id product; b1; b2]) in
      match get_range report 1 (zlen report) with
      | None => (out, Err ShortPacket)
      | Some content =>
          let out := copy_into out BT_OUTPUT_AT (BT_OUTPUT_AT + zlen content) (Some content) in
          let out := match get_range out 0 BT_OUTPUT_LEN with
                     | Some framed => put_range out 0 (bt_seal CRC_SEED_OUTPUT framed)
                     | None => out
                     end in
          (out, Ok BT_OUTPUT_LEN)
      end
  end.

(** ** Messages *)

(** [pad::Inbound]. *)
Inductive PadInbound :=
| PadInput (product : Product) (report : list Z)
| PadFeature (product : Product) (feature : Feature) (report : list Z)
| TouchBlock.

Definition whole (product : Product) (body : list Z) : PadInbound :=
  PadInput product (if zlen body =? INPUT_LEN then body else repeat 0 (Z.to_nat INPUT_LEN)).

(** The declared length bounds the body and never extends it. *)
Definition declared_body (message : Control) : list Z :=
  let declared := default (2 ^ USIZE - 1) (try_from USIZE (ct_a0 message)) in
  default (ct_body message) (get_range (ct_body message) 0 declared).

Definition parse_report (message : Control) : option PadInbound :=
  if negb (ct_opcode message =? op_PAD_REPORT) then None
  else
  let body := declared_body message in
  let product := id ← try_from 16 (Z.land (ct_a2 message) 0xFFFF); Product_from_product_id id in
  let feature := negb (Z.land (ct_a2 message) FEATURE_BIT =? 0) in
  let starts := bool_decide (head body = Some USB_INPUT_ID) in
  match product, feature with
  | None, false =>
      if zlen body =? DS4_TOUCH_LEN then Some TouchBlock
      else if (zlen body =? INPUT_LEN) && starts then Some (whole DualSense body)
      else None
  | None, true => None
  | Some DualShock4, false =>
      if zlen body =? DS4_BODY_LEN then
        Some (PadInput DualShock4 (put_range (put_at (repeat 0 (Z.to_nat INPUT_LEN)) 0 USB_INPUT_ID) 1 body))
      else None
  | Some DualSense, false =>
      if (zlen body =? INPUT_LEN) && starts then Some (whole DualSense body) else None
  | Some product, true => feature ← Feature_of product body; Some (PadFeature product feature body)
  end.

(** [encode_with]: the buffer afterwards, and what is returned. *)
Definition encode_with (out : list Z) (opcode a1 a2 : Z) (body : list Z) : list Z * result Z :=
  match try_from 32 (zlen body) with
  | None => (out, Err Oversized)
  | Some a0 =>
      match encode_header out (mkControl a0 a1 a2 opcode []) with
      | (out, Err e) => (out, Err e)
      | (out, Ok header) =>
          match get_range out header (header + zlen body) with
          | None => (out, Err BufferTooSmall)
          | Some _ => (put_range out header body, Ok (header + zlen body))
          end
      end
  end.

Definition encode_report (out : list Z) (pad : Z) (product : Product) (feature : bool) (body : list Z) : list Z * result Z :=
  let flags := if feature then FEATURE_BIT else 0 in
  encode_with out op_PAD_REPORT pad (Z.lor (Product_product_id product) flags) body.

Definition encode_touch_block (out : list Z) (pad : Z) (report : list Z) : list Z * result Z :=
  encode_with out op_PAD_REPORT pad 0 (ds4_touch_block report).

Inductive OutputKind := KindFeature | KindOutput.

Definition OutputKind_wire (k : OutputKind) : Z := match k with KindFeature => 0 | KindOutput => 1 end.
Definition OutputKind_from_wire (kind : Z) : option OutputKind :=
  match kind with 0 => Some KindFeature | 1 => Some KindOutput | _ => None end.

(** [pad::Output]. *)
Record PadOutput := mkPadOutput { po_pad : Z; po_kind : OutputKind; po_report : list Z }.

Definition parse_output (message : Control) : option PadOutput :=
  if negb (ct_opcode message =? op_PAD_OUTPUT) then None
  else
  let report := declared_body message in
  match report with
  | [] => None
  | _ => kind ← OutputKind_from_wire (ct_a1 message); Some (mkPadOutput (ct_a2 message) kind report)
  end.

Definition encode_output (out : list Z) (pad : Z) (kind : OutputKind) (report : list Z) : list Z * result Z :=
  encode_with out op_PAD_OUTPUT (OutputKind_wire kind) pad report.

(** ** Wireless reports, as they are made *)

(** A report and its checksum. *)
Definition sealed (seed : Z) (content : list Z) : list Z := content ++ to_le 4 (bt_crc seed content).

Lemma bt_crc_of seed l : bt_crc seed l = crc32_of (seed :: l).
Proof. reflexivity. Qed.

Lemma bt_crc_fits seed l : fits 8 seed -> bytes_ok l -> fits 32 (bt_crc seed l).
Proof.
  intros Hs Hl. rewrite bt_crc_of.
  by destruct (crc32_streams_and_detects [] l seed seed (Forall_nil_2 _) Hl Hs Hs) as (_ & H & _).
Qed.

Lemma zlen_sealed seed content : zlen (sealed seed content) = zlen content + 4.
Proof. unfold sealed. by rewrite zlen_app, zlen_to_le. Qed.

Lemma bt_checked_iff seed report :
  fits 8 seed -> bytes_ok report ->
  bt_checked seed report = true <-> exists content, zlen report = zlen content + 4 /\ report = sealed seed content.
Proof.
  intros Hs Hb. unfold bt_checked. destruct (Z.ltb_spec (zlen report) 4) as [Hl|Hl].
  { split; [done|]. intros (c & E & _). pose proof (zlen_nonneg c). lia. }
  set (n := Z.to_nat (zlen report - 4)). assert (zlen (take n report) = zlen report - 4) as Ht by (rewrite zlen_take; lia).
  assert (length (drop n report) = 4%nat) as Hd by (rewrite length_drop; unfold zlen in *; lia).
  assert (bytes_ok (drop n report)) as Hbd by (by apply Forall_drop).
  rewrite Z.eqb_eq. split.
  - intros E. exists (take n report). split; [lia|]. unfold sealed. rewrite <- E, <- Hd, (to_from_le _ Hbd). symmetry. apply take_drop.
  - intros (content & El & ->). unfold sealed in *. assert (n = length content) as -> by (unfold zlen in *; lia).
    assert (bytes_ok content) by (by apply Forall_app in Hb as [? _]).
    rewrite drop_app_length, take_app_length. rewrite (from_to_le 4); [done|]. by apply bt_crc_fits.
Qed.

Lemma sealed_checked seed content : fits 8 seed -> bytes_ok content -> bt_checked seed (sealed seed content) = true.
Proof.
  intros Hs Hb. apply bt_checked_iff; [done| |].
  - apply Forall_app. split; [done|apply to_le_ok].
  - exists content. by rewrite zlen_sealed.
Qed.

Lemma bt_seal_app seed content tail : zlen tail = 4 -> bt_seal seed (content ++ tail) = sealed seed content.
Proof.
  intros Ht. unfold bt_seal. pose proof (zlen_nonneg content). rewrite zlen_app. rewrite (proj2 (Z.ltb_ge _ 4)) by lia.
  replace (Z.to_nat (zlen content + zlen tail - 4)) with (length content) by (unfold zlen in *; lia). rewrite take_app_length.
  rewrite put_range_app by (unfold zlen in *; lia). rewrite drop_ge by (pose proof (zlen_to_le 4 (bt_crc seed content)); unfold zlen in *; lia).
  unfold sealed. by rewrite app_nil_r.
Qed.

(** A single byte changed never passes. *)
Lemma sealed_detects seed pre x y post :
  fits 8 seed -> bytes_ok (pre ++ x :: post) -> fits 8 y -> x <> y ->
  bt_checked seed (pre ++ x :: post) = true -> bt_checked seed (pre ++ y :: post) = false.
Proof.
  intros Hs Hb Hy Hne Hc. apply not_true_iff_false. intros Hc'. pose proof Hb as [Hp [Hx Hq]%Forall_cons_iff]%Forall_app.
  assert (bytes_ok (pre ++ y :: post)) as Hb' by (apply Forall_app; split; [done|by constructor]).
  apply bt_checked_iff in Hc as (c & El & E); [|done..]. apply bt_checked_iff in Hc' as (c' & El' & E'); [|done..].
  assert (length c = length c') as Hcl by (rewrite zlen_app, zlen_cons in El, El'; unfold zlen in *; lia).
  unfold sealed in *. destruct (Nat.lt_ge_cases (length pre) (length c)) as [Hlt|Hge].
  - pose proof (f_equal (take (length c)) E) as Ec. rewrite take_app_length, take_app_ge in Ec by lia.
    pose proof (f_equal (take (length c)) E') as Ec'. rewrite Hcl, take_app_length, take_app_ge in Ec' by lia.
    pose proof (f_equal (drop (length c)) E) as Et. rewrite drop_app_length, drop_app_ge in Et by lia.
    pose proof (f_equal (drop (length c)) E') as Et'. rewrite Hcl, drop_app_length, drop_app_ge in Et' by lia.
    rewrite <- Hcl in Ec', Et'. destruct (length c - length pre)%nat as [|k] eqn:Ek; [lia|]. cbn [take drop] in *.
    rewrite Et in Et'. apply (f_equal from_le) in Et'.
    assert (bytes_ok c /\ bytes_ok c') as [Hbc Hbc'] by (split; [rewrite E in Hb; by apply Forall_app in Hb as [? _]|rewrite E' in Hb'; by apply Forall_app in Hb' as [? _]]).
    rewrite !(from_to_le 4) in Et' by (by apply bt_crc_fits). rewrite !bt_crc_of, <- Ec, <- Ec' in Et'.
    refine (proj2 (proj2 (crc32_streams_and_detects (seed :: pre) (take k post) x y _ _ Hx Hy)) Hne Et'); [by constructor|by apply Forall_take].
  - pose proof (f_equal (take (length c)) E) as Ec. rewrite take_app_length, take_app_le in Ec by lia.
    pose proof (f_equal (take (length c)) E') as Ec'. rewrite Hcl, take_app_length, take_app_le in Ec' by lia.
    rewrite <- Hcl, Ec in Ec'. subst c'. rewrite <- E in E'. apply app_inv_head in E'. by injection E'.
Qed.

(** ** Input reports *)

Lemma seeds_ok : fits 8 CRC_SEED_INPUT /\ fits 8 CRC_SEED_OUTPUT /\ fits 8 CRC_SEED_FEATURE.
Proof. by vm_compute. Qed.

Lemma copy_into_eq out a b src : 0 <= a <= b -> b <= zlen out -> copy_into out a b (Some src) = put_range out a src.
Proof. intros H Hb. unfold copy_into. by rewrite get_range_eq by lia. Qed.

(** The USB form of what a wireless input report holds. *)
Definition usb_form (product : Product) (content : list Z) : list Z :=
  USB_INPUT_ID :: match product with
                  | DualShock4 => take 60 (drop 3 content) ++ [0; 0; 0]
                  | DualSense => take 63 (drop 2 content)
                  end.

(** A report as the product sends it over the air. *)
Definition airborne (product : Product) (report : list Z) : Prop :=
  exists content, report = sealed CRC_SEED_INPUT content /\ zlen content = 74 /\ head content = Some (Product_bt_input_id product).

Lemma input_layout product (content out : list Z) :
  zlen out = INPUT_LEN -> zlen content = 74 ->
  let '(from, len) := match product with
                      | DualShock4 => (DS4_BT_INPUT_AT, DS4_BT_INPUT_MAPPED - 1)
                      | DualSense => (DS5_BT_INPUT_AT, INPUT_LEN - 1)
                      end in
  copy_into (put_at (repeat 0 (length out)) 0 USB_INPUT_ID) 1 (1 + len) (get_range (sealed CRC_SEED_INPUT content) from (from + len)) =
  usb_form product content.
Proof.
  intros Ho Hc. assert (length out = 64%nat) as -> by (unfold zlen, INPUT_LEN in Ho; lia).
  assert (forall from len, 0 <= from -> 0 <= len -> from + len <= 74 -> get_range (sealed CRC_SEED_INPUT content) from (from + len) =
    Some (take (Z.to_nat len) (drop (Z.to_nat from) content))) as Hg.
  { intros from len Hf Hl Hs. rewrite get_range_eq by (rewrite ?zlen_sealed; lia). f_equal. unfold sealed.
    rewrite drop_app_le by (unfold zlen in Hc; lia). rewrite take_app_le by (rewrite length_drop; unfold zlen in Hc; lia). f_equal. lia. }
  assert (forall k n, length (take k (drop n content)) = Nat.min k (74 - n)) as Hl
    by (intros k n; rewrite length_take, length_drop; unfold zlen in Hc; lia).
  destruct product; unfold DS4_BT_INPUT_AT, DS4_BT_INPUT_MAPPED, DS5_BT_INPUT_AT, INPUT_LEN.
  - rewrite (Hg 3 (61 - 1)) by lia. change (Z.to_nat (61 - 1)) with 60%nat. change (Z.to_nat 3) with 3%nat.
    rewrite copy_into_eq by (rewrite ?zlen_put_at; unfold zlen; cbn; lia). unfold put_range. rewrite Hl. reflexivity.
  - rewrite (Hg 2 (64 - 1)) by lia. change (Z.to_nat (64 - 1)) with 63%nat. change (Z.to_nat 2) with 2%nat.
    rewrite copy_into_eq by (rewrite ?zlen_put_at; unfold zlen; cbn; lia). unfold put_range. rewrite Hl.
    unfold usb_form. cbn [Nat.min Nat.sub drop take repeat put_at app]. by rewrite app_nil_r.
Qed.

Lemma airborne_iff product report :
  bytes_ok report ->
  (head report = Some (Product_bt_input_id product) /\ zlen report = BT_INPUT_LEN /\ bt_checked CRC_SEED_INPUT report = true) <->
  airborne product report.
Proof.
  intros Hb. pose proof seeds_ok as (Hs & _). rewrite bt_checked_iff by done. unfold airborne, BT_INPUT_LEN. split.
  - intros (Hh & Hl & c & El & ->). exists c. split; [done|]. split; [lia|]. destruct c; [change (zlen []) with 0 in El; lia|done].
  - intros (c & -> & Hl & Hh). rewrite zlen_sealed. split; [by destruct c|]. split; [lia|]. by exists c.
Qed.

(** What an input report a pad delivers comes to.  A USB report is passed on as it is; a
    report of the product's own wireless form, its checksum the one of its content, is
    brought to the USB form; and nothing else is let through or touches the buffer, in
    particular no wireless report with any one byte changed. *)
Theorem wireless_input (product : Product) (report out : list Z) :
  bytes_ok report -> zlen out = INPUT_LEN ->
  match normalize_input product report out with
  | (out', Ok Usb) => out' = report /\ zlen report = INPUT_LEN /\ head report = Some USB_INPUT_ID
  | (out', Ok Bluetooth) =>
      (exists content, report = sealed CRC_SEED_INPUT content /\ zlen content = 74 /\ head content = Some (Product_bt_input_id product) /\
        out' = usb_form product content /\ zlen out' = INPUT_LEN) /\
      (forall pre x y post, report = pre ++ x :: post -> fits 8 y -> x <> y ->
        exists e, normalize_input product (pre ++ y :: post) out = (out, Err e))
  | (out', Err _) => out' = out /\ ~ (zlen report = INPUT_LEN /\ head report = Some USB_INPUT_ID) /\ ~ airborne product report
  end.
Proof.
  intros Hb Ho. pose proof seeds_ok as (Hs & _). pose proof (airborne_iff product report Hb) as Ha. unfold normalize_input.
  assert (Product_bt_input_id product <> USB_INPUT_ID) as Hid by (by destruct product).
  destruct (head report) as [id|] eqn:Eh.
  2: { split; [done|]. split; [by intros [_ ?]|]. by intros ([=] & _)%Ha. }
  destruct ((id =? USB_INPUT_ID) && (zlen report =? INPUT_LEN)) eqn:Eu.
  { apply andb_true_iff in Eu as [->%Z.eqb_eq El%Z.eqb_eq]. done. }
  assert (~ (zlen report = INPUT_LEN /\ Some id = Some USB_INPUT_ID)) as Hnu
    by (intros [El [= ->]]; rewrite El, !Z.eqb_refl in Eu; done).
  destruct (negb (id =? Product_bt_input_id product) || negb (zlen report =? BT_INPUT_LEN)) eqn:Ei.
  { split; [done|]. split; [done|]. intros ([= ->] & El & _)%Ha. rewrite El, !Z.eqb_refl in Ei. done. }
  apply orb_false_iff in Ei as [->%negb_false_iff%Z.eqb_eq El%negb_false_iff%Z.eqb_eq].
  destruct (bt_checked CRC_SEED_INPUT report) eqn:Ec; cbn [negb].
  2: { split; [done|]. split; [done|]. by intros (_ & _ & [=])%Ha. }
  assert (airborne product report) as (content & Er & Hl & Hh) by (by apply Ha). pose proof (input_layout product content out Ho Hl) as Hlay.
  rewrite Er. destruct (match product with DualShock4 => _ | DualSense => _ end) as [from len] eqn:Efl. rewrite Hlay. split.
  - exists content. split_and!; try done. unfold usb_form, INPUT_LEN. rewrite zlen_cons. destruct product; rewrite ?zlen_app, zlen_take, zlen_drop, Hl; done.
  - intros pre x y post E Hy Hne. rewrite <- Er in E. rewrite E in Hb, Ec, Eh, El.
    pose proof (sealed_detects _ pre x y post Hs Hb Hy Hne Ec) as Hd.
    assert (zlen (pre ++ y :: post) = BT_INPUT_LEN) as El' by (by rewrite <- El, !zlen_app, !zlen_cons).
    destruct (head (pre ++ y :: post)) as [id|]; [|by eexists]. rewrite El'. rewrite andb_false_r.
    destruct (_ || _); [by eexists|]. rewrite Hd. by eexists.
Qed.

Definition sample_air : list Z := sealed CRC_SEED_INPUT (0x31 :: repeat 7 73).

Lemma wireless_input_witness :
  bytes_ok sample_air /\ snd (normalize_input DualSense sample_air (repeat 9 64)) = Ok Bluetooth /\
  exists e, normalize_input DualSense ([0x31] ++ 8 :: drop 2 sample_air) (repeat 9 64) = (repeat 9 64, Err e).
Proof.
  assert (bytes_ok sample_air) as Hb by (apply Forall_app; split; [vm_compute; repeat constructor; discriminate|apply to_le_ok]).
  split; [exact Hb|]. pose proof (wireless_input DualSense sample_air (repeat 9 64) Hb eq_refl) as H.
  destruct (normalize_input DualSense sample_air (repeat 9 64)) as [out' r] eqn:E.
  assert (r = Ok Bluetooth) as -> by (apply (f_equal snd) in E; vm_compute in E; by rewrite <- E). split; [reflexivity|].
  destruct H as [_ H]. apply (H [0x31] 7 8 (drop 2 sample_air)); [vm_compute; reflexivity|unfold fits; lia|discriminate].
Defined.

(** ** What is written to a pad, and its feature reports *)

Lemma head_cons {A} (l : list A) x : head l = Some x -> l = x :: drop 1 l.
Proof. destruct l; [done|]. intros [= ->]. cbn. by rewrite drop_0. Qed.

(** The head a wireless output report has. *)
Definition output_head (product : Product) (seq : Z) : list Z :=
  [Product_bt_output_id product; match product with DualShock4 => DS4_BT_OUTPUT_CONTROL | DualSense => wrap 8 (Z.shiftl seq 4) end;
   match product with DualShock4 => 0 | DualSense => DS5_BT_OUTPUT_TAG end].

Definition output_ok (product : Product) (report : list Z) : Prop :=
  head report = Some (Product_output_id product) /\ fst (Product_output_lens product) <= zlen report <= snd (Product_output_lens product).

Lemma repeat_put (n : nat) pre s :
  (length pre + length s <= n)%nat ->
  put_range (pre ++ repeat 0 (n - length pre)) (zlen pre) s = (pre ++ s) ++ repeat 0 (n - length (pre ++ s)).
Proof.
  intros H. rewrite put_range_app by done. rewrite <- app_assoc. do 2 f_equal. rewrite length_app.
  replace (n - length pre)%nat with (length s + (n - (length pre + length s)))%nat by lia. rewrite repeat_app.
  by rewrite drop_app_length' by (by rewrite repeat_length).
Qed.

Lemma frame_output_air product seq report out :
  output_ok product report -> zlen out = REPORT_MAX ->
  frame_output product Bluetooth seq report out =
    (sealed CRC_SEED_OUTPUT (output_head product seq ++ drop 1 report ++ repeat 0 (Z.to_nat (72 - zlen report))), Ok BT_OUTPUT_LEN).
Proof.
  intros [Hh [Hlo Hhi]] Ho. unfold frame_output. destruct (Product_output_lens product) as [shortest longest] eqn:El. cbn [fst snd] in *.
  rewrite bool_decide_eq_true_2 by done. rewrite (proj2 (Z.ltb_ge _ shortest)), (proj2 (Z.ltb_ge longest _)) by lia. cbn [negb orb].
  assert (1 <= zlen report <= 63) as Hl by (destruct product; injection El as <- <-; unfold DS4_OUTPUT_LEN, DS5_OUTPUT_MIN_LEN, DS5_OUTPUT_LEN in *; lia).
  assert (length out = 78%nat) as -> by (unfold zlen, REPORT_MAX in Ho; lia).
  set (hd := output_head product seq). assert (zlen hd = 3) as Hhd by reflexivity.
  replace (match product with DualShock4 => (DS4_BT_OUTPUT_CONTROL, 0) | DualSense => (wrap 8 (Z.shiftl seq 4), DS5_BT_OUTPUT_TAG) end)
    with (nth 1 hd 0, nth 2 hd 0) by (by destruct product).
  assert (copy_into (repeat 0 78) 0 BT_OUTPUT_AT (Some hd) = hd ++ repeat 0 75) as E1 by reflexivity.
  change ([Product_bt_output_id product; nth 1 hd 0; nth 2 hd 0]) with hd. rewrite E1.
  rewrite get_range_drop by lia. change (Z.to_nat 1) with 1%nat. set (content := drop 1 report).
  assert (zlen content = zlen report - 1) as Hcl by (unfold content; rewrite zlen_drop; lia).
  rewrite copy_into_eq by (rewrite ?zlen_app, ?Hhd; unfold BT_OUTPUT_AT; change (zlen (repeat 0 75)) with 75; lia).
  pose proof (repeat_put 78 hd content ltac:(unfold zlen in *; lia)) as E2. change (78 - length hd)%nat with 75%nat in E2.
  change (zlen hd) with BT_OUTPUT_AT in E2. rewrite E2.
  replace (78 - length (hd ++ content))%nat with (Z.to_nat (72 - zlen report) + 4)%nat by (rewrite length_app; unfold zlen in *; lia).
  rewrite repeat_app. set (z := repeat 0 (Z.to_nat (72 - zlen report))). change (repeat 0 4) with [0; 0; 0; 0].
  assert (zlen z = 72 - zlen report) as Hz by (unfold z, zlen in *; rewrite repeat_length; lia).
  set (whole_ := (hd ++ content) ++ z ++ [0; 0; 0; 0]). assert (zlen whole_ = BT_OUTPUT_LEN) as Hw.
  { unfold whole_, BT_OUTPUT_LEN. rewrite !zlen_app, Hz, Hcl, Hhd. change (zlen [0; 0; 0; 0]) with 4. lia. }
  rewrite <- Hw, get_range_drop by (rewrite Hw; unfold BT_OUTPUT_LEN; lia). rewrite drop_0. rewrite put_range_0, drop_ge.
  - rewrite app_nil_r. unfold whole_. rewrite app_assoc, bt_seal_app by done. by rewrite <- !app_assoc.
  - unfold whole_. rewrite app_assoc, bt_seal_app by done. pose proof (zlen_sealed CRC_SEED_OUTPUT ((hd ++ content) ++ z)) as E.
    rewrite !length_app. unfold zlen in *. rewrite !length_app in E. cbn [length]. lia.
Qed.

Lemma frame_output_refused product transport seq report out :
  ~ output_ok product report -> frame_output product transport seq report out = (out, Err Malformed).
Proof.
  intros H. unfold frame_output. unfold output_ok in H. destruct (Product_output_lens product) as [shortest longest]. cbn [fst snd] in H.
  destruct (_ || _ || _) eqn:E; [done|]. destruct H. apply orb_false_iff in E as [[E1%negb_false_iff E2]%orb_false_iff E3].
  apply bool_decide_eq_true in E1. split; [done|lia].
Qed.

(** A feature answer that ends in zeros, as the USB answers do. *)
Lemma normalize_feature_usb product feature c seed_tail out :
  Feature_of product (c ++ [0; 0; 0; 0]) = Some feature -> bytes_ok c -> zlen out = FEATURE_MAX ->
  seed_tail = [0; 0; 0; 0] \/ seed_tail = to_le 4 (bt_crc CRC_SEED_FEATURE c) ->
  normalize_feature product (c ++ seed_tail) out = ((c ++ [0; 0; 0; 0]) ++ drop (length c + 4) out, Ok (feature, zlen c + 4)).
Proof.
  intros Hf Hb Ho Ht. assert (zlen seed_tail = 4) as Htl by (destruct Ht as [-> | ->]; by rewrite ?zlen_to_le).
  assert (zlen (c ++ [0; 0; 0; 0]) = zlen c + 4) as Hz by (by rewrite zlen_app).
  destruct c as [|id c]. { by destruct product. }
  set (l := id :: c) in *. unfold Feature_of in Hf. change (head (l ++ [0; 0; 0; 0])) with (Some id) in Hf. cbn [mbind option_bind] in Hf. rewrite Hz in Hf.
  assert (Feature_of product (l ++ seed_tail) = Some feature) as Hf' by (unfold Feature_of; change (head (l ++ seed_tail)) with (Some id);
    cbn [mbind option_bind]; by rewrite zlen_app, Htl).
  pose proof Hf as Hfind. apply find_some in Hfind as [_ [Hid%Z.eqb_eq Hlen%Z.eqb_eq]%andb_true_iff].
  unfold normalize_feature. change (head (l ++ seed_tail)) with (Some id).
  assert (bool_decide (product = DualShock4) && bool_decide (Some id = Some DS4_BT_CALIBRATION_ID) = false) as ->.
  { destruct product; [|done]. apply andb_false_iff. right. apply bool_decide_eq_false. intros [= ->]. by destruct feature. }
  cbn [andb]. rewrite Hf'. assert (zlen l + 4 <= 64) as Hle by (destruct product, feature; cbn in Hlen; lia).
  unfold FEATURE_MAX in Ho. rewrite zlen_app, Htl, get_range_eq by (pose proof (zlen_nonneg l); lia). f_equal.
  assert (put_range out 0 (l ++ seed_tail) = l ++ seed_tail ++ drop (length l + 4) out) as Ep.
  { rewrite put_range_0, <- app_assoc. do 3 f_equal. rewrite length_app. unfold zlen in Htl. lia. }
  rewrite Ep. rewrite (proj2 (Z.leb_le 4 _)) by (pose proof (zlen_nonneg l); lia). rewrite andb_true_r.
  assert (put_range (l ++ seed_tail ++ drop (length l + 4) out) (zlen l + 4 - 4) [0; 0; 0; 0] = (l ++ [0; 0; 0; 0]) ++ drop (length l + 4) out) as Ez.
  { rewrite put_range_app by lia. rewrite drop_app_length' by (unfold zlen in Htl; cbn; lia). by rewrite <- app_assoc. }
  rewrite Ez. destruct Ht as [-> | ->].
  - destruct (bt_checked _ _); [done|]. by rewrite <- app_assoc.
  - pose proof seeds_ok as (_ & _ & Hs). fold (sealed CRC_SEED_FEATURE l). by rewrite sealed_checked.
Qed.

Lemma interleave_length grouped ranges : interleave grouped = Some ranges -> length grouped = 12%nat /\ length ranges = 12%nat.
Proof. unfold interleave. intros H. do 12 (destruct grouped as [|? grouped]; [discriminate H|]). destruct grouped; [|discriminate H]. by injection H as <-. Qed.

(** A DualShock 4's calibration, answered over the air. *)
Lemma normalize_calibration a grouped ranges rest out :
  zlen a = 6 -> zlen rest = 18 -> interleave grouped = Some ranges -> bytes_ok (a ++ grouped ++ rest) -> zlen out = FEATURE_MAX ->
  normalize_feature DualShock4 (sealed CRC_SEED_FEATURE (DS4_BT_CALIBRATION_ID :: a ++ grouped ++ rest)) out =
    ((Feature_id Calibration DualShock4 :: a ++ ranges ++ rest) ++ drop 37 out, Ok (Calibration, 37)).
Proof.
  intros Ha Hr Hi Hb Ho. destruct (interleave_length _ _ Hi) as [Hg Hrl]. pose proof seeds_ok as (_ & _ & Hs).
  set (c := DS4_BT_CALIBRATION_ID :: a ++ grouped ++ rest).
  assert (bytes_ok c) as Hc by (constructor; [by vm_compute|done]).
  assert (zlen c = 37) as Hcl by (unfold c; rewrite zlen_cons, !zlen_app; unfold zlen in *; lia).
  unfold normalize_feature. rewrite zlen_sealed, Hcl. change (head (sealed CRC_SEED_FEATURE c)) with (Some DS4_BT_CALIBRATION_ID).
  rewrite !bool_decide_eq_true_2 by done. change (37 + 4 =? DS4_BT_CALIBRATION_LEN) with true. cbn [andb].
  rewrite sealed_checked by done. cbn [negb]. unfold FEATURE_MAX in Ho. cbn [Feature_len Feature_id].
  rewrite get_range_eq by lia. unfold sealed at 1. rewrite get_range_head by done.
  assert (put_at (put_range out 0 c) 0 2 = 2 :: a ++ grouped ++ rest ++ drop 37 out) as E1.
  { rewrite put_range_0. unfold c. cbn [app length]. replace (S (length (a ++ grouped ++ rest))) with 37%nat by (unfold zlen in Hcl; cbn in Hcl; lia).
    unfold put_at. cbn. by rewrite <- !app_assoc. }
  rewrite E1. unfold DS4_CALIBRATION_RANGES_AT.
  assert (get_range (sealed CRC_SEED_FEATURE c) 7 (7 + 12) = Some grouped) as E2.
  { unfold sealed, c. change (?x :: a ++ grouped ++ rest) with ([x] ++ a ++ grouped ++ rest). rewrite <- !app_assoc.
    rewrite app_assoc. apply get_range_mid; rewrite ?zlen_app, ?zlen_cons; unfold zlen in *; cbn; lia. }
  rewrite E2. cbn [mbind option_bind]. rewrite Hi. f_equal.
  change (2 :: a ++ grouped ++ rest ++ drop 37 out) with ([2] ++ a ++ grouped ++ rest ++ drop 37 out). rewrite (app_assoc [2]).
  assert (zlen ([2] ++ a) = 7) as H7 by (rewrite zlen_app, Ha; done).
  rewrite copy_into_eq by (rewrite !zlen_app in *; unfold zlen in *; cbn in *; lia). rewrite put_range_app by done.
  rewrite drop_app_length' by congruence. cbn [app]. by rewrite <- !app_assoc.
Qed.

Lemma frame_output_usb product seq report out :
  output_ok product report -> zlen out = REPORT_MAX ->
  frame_output product Usb seq report out = (report ++ drop (length report) out, Ok (zlen report)).
Proof.
  intros [Hh [Hlo Hhi]] Ho. unfold frame_output. destruct (Product_output_lens product) as [shortest longest] eqn:El. cbn [fst snd] in *.
  rewrite bool_decide_eq_true_2 by done. rewrite (proj2 (Z.ltb_ge _ shortest)), (proj2 (Z.ltb_ge longest _)) by lia. cbn [negb orb].
  assert (longest <= 63) by (destruct product; injection El as <- <-; unfold DS4_OUTPUT_LEN, DS5_OUTPUT_LEN; lia).
  unfold REPORT_MAX in Ho. pose proof (zlen_nonneg report). rewrite get_range_eq by lia. by rewrite put_range_0.
Qed.

(** What is written to a pad reaches it: an output report of the product's own identifier
    and length goes to a USB pad as it is and to a wireless one behind its head, padded
    and sealed, and nothing else is framed.  A feature answer comes back in the USB form
    from either transport, a wireless DualShock 4's calibration with its gyro ranges in
    the USB order. *)
Theorem wireless_framing (product : Product) (seq : Z) (report out : list Z) :
  zlen out = REPORT_MAX ->
  (~ output_ok product report -> forall transport, frame_output product transport seq report out = (out, Err Malformed)) /\
  (output_ok product report ->
    frame_output product Usb seq report out = (report ++ drop (length report) out, Ok (zlen report)) /\
    exists content, frame_output product Bluetooth seq report out = (sealed CRC_SEED_OUTPUT content, Ok BT_OUTPUT_LEN) /\
      zlen (sealed CRC_SEED_OUTPUT content) = BT_OUTPUT_LEN /\
      exists padding, content = output_head product seq ++ drop 1 report ++ padding /\ Forall (fun b => b = 0) padding) /\
  (forall feature answer store, bytes_ok answer -> zlen store = FEATURE_MAX -> Feature_of product (answer ++ [0; 0; 0; 0]) = Some feature ->
    let usb := ((answer ++ [0; 0; 0; 0]) ++ drop (length answer + 4) store, Ok (feature, zlen answer + 4)) in
    normalize_feature product (answer ++ [0; 0; 0; 0]) store = usb /\ normalize_feature product (sealed CRC_SEED_FEATURE answer) store = usb) /\
  (forall a grouped ranges rest store, zlen a = 6 -> zlen rest = 18 -> interleave grouped = Some ranges -> bytes_ok (a ++ grouped ++ rest) ->
    zlen store = FEATURE_MAX ->
    normalize_feature DualShock4 (sealed CRC_SEED_FEATURE (DS4_BT_CALIBRATION_ID :: a ++ grouped ++ rest)) store =
      ((Feature_id Calibration DualShock4 :: a ++ ranges ++ rest) ++ drop 37 store, Ok (Calibration, 37))).
Proof.
  intros Ho. split; [|split; [|split]].
  - intros H transport. by apply frame_output_refused.
  - intros H. split; [by apply frame_output_usb|]. eexists. split; [by apply frame_output_air|].
    assert (1 <= zlen report <= 63) as Hl by (destruct H as [_ H]; destruct product; cbn in H; unfold DS4_OUTPUT_LEN, DS5_OUTPUT_MIN_LEN, DS5_OUTPUT_LEN in H; lia).
    split.
    + rewrite zlen_sealed, !zlen_app, zlen_drop. change (zlen (output_head product seq)) with 3. unfold BT_OUTPUT_LEN.
      assert (zlen (repeat 0 (Z.to_nat (72 - zlen report))) = 72 - zlen report) as -> by (unfold zlen in *; rewrite repeat_length; lia). lia.
    + eexists. split; [done|]. apply Forall_forall. intros x Hx. by apply repeat_spec in Hx.
  - intros feature answer store Hb Hs Hf usb. split; (eapply normalize_feature_usb; [done..|]); [by left|by right].
  - intros a grouped ranges rest store Ha Hr Hi Hb Hs. by apply normalize_calibration.
Qed.

Definition sample_output : list Z := 0x02 :: repeat 6 47.

Lemma wireless_framing_witness :
  exists content, frame_output DualSense Bluetooth 3 sample_output (repeat 9 78) = (sealed CRC_SEED_OUTPUT content, Ok BT_OUTPUT_LEN) /\
    zlen (sealed CRC_SEED_OUTPUT content) = BT_OUTPUT_LEN.
Proof.
  destruct (wireless_framing DualSense 3 sample_output (repeat 9 78) eq_refl) as (_ & H & _).
  destruct H as [_ (content & H1 & H2 & _)]; [split; [reflexivity|split; vm_compute; discriminate]|].
  exists content. split; [exact H1|exact H2].
Defined.

(** ** Messages, written and read *)

(** What arrives of what an encoder wrote. *)
Definition carried (sent : list Z * result Z) : option Control :=
  match sent with
  | (out, Ok n) => match control_parse (take (Z.to_nat n) out) with Ok m => Some m | Err _ => None end
  | (_, Err _) => None
  end.

Lemma encode_with_carried out opcode a1 a2 body :
  CONTROL_HEADER_LEN + zlen body <= zlen out -> fits 32 (zlen body) -> fits 32 a1 -> fits 32 a2 -> fits 8 opcode ->
  carried (encode_with out opcode a1 a2 body) = Some (mkControl (zlen body) a1 a2 opcode body).
Proof.
  intros Ho Hb H1 H2 Hop. unfold encode_with. rewrite try_from_ok by done. pose proof (zlen_nonneg body).
  rewrite encode_header_wire by lia. set (h := control_header _). assert (zlen h = CONTROL_HEADER_LEN) as Hh by apply zlen_control_header.
  rewrite put_range_0. assert (zlen (drop (length h) out) = zlen out - CONTROL_HEADER_LEN) as Hd by (rewrite zlen_drop; unfold zlen in *; lia).
  rewrite get_range_eq by (rewrite ?zlen_app; unfold CONTROL_HEADER_LEN in *; lia). rewrite put_range_app by done.
  unfold carried. rewrite app_assoc, take_app_length' by (rewrite length_app; unfold zlen in *; lia).
  set (m := mkControl (zlen body) a1 a2 opcode body). change (h ++ body) with (control_wire m). by rewrite control_parse_wire.
Qed.

Lemma declared_body_whole body a1 a2 opcode : fits 32 (zlen body) -> declared_body (mkControl (zlen body) a1 a2 opcode body) = body.
Proof.
  intros H. unfold declared_body. cbn [ct_a0 ct_body]. rewrite try_from_ok by (unfold fits in *; lia). cbn [default from_option id].
  rewrite get_range_drop by (pose proof (zlen_nonneg body); lia). by rewrite drop_0.
Qed.

Lemma report_ids product : Z.land (Product_product_id product) 0xFFFF = Product_product_id product /\
  Z.land (Product_product_id product) FEATURE_BIT = 0 /\
  Z.land (Z.lor (Product_product_id product) FEATURE_BIT) 0xFFFF = Product_product_id product /\
  Z.land (Z.lor (Product_product_id product) FEATURE_BIT) FEATURE_BIT = FEATURE_BIT /\
  (id ← try_from 16 (Product_product_id product); Product_from_product_id id) = Some product.
Proof. by destruct product. Qed.

Lemma Feature_of_len product report feature : Feature_of product report = Some feature -> 0 < zlen report <= FEATURE_MAX.
Proof.
  unfold Feature_of. destruct report as [|id report]; [done|]. cbn [head mbind option_bind].
  intros [_ [_ H%Z.eqb_eq]%andb_true_iff]%find_some. rewrite <- H. unfold FEATURE_MAX. destruct product, feature; cbn; lia.
Qed.

Lemma report_carried out pad product (b : bool) body :
  CONTROL_HEADER_LEN + REPORT_MAX <= zlen out -> fits 32 pad -> zlen body <= 64 ->
  carried (encode_report out pad product b body) =
    Some (mkControl (zlen body) pad (Z.lor (Product_product_id product) (if b then FEATURE_BIT else 0)) op_PAD_REPORT body).
Proof.
  intros Ho Hp Hb. unfold CONTROL_HEADER_LEN, REPORT_MAX in Ho. pose proof (zlen_nonneg body).
  apply encode_with_carried; [unfold CONTROL_HEADER_LEN; lia|unfold fits; lia|done| |by vm_compute]. by destruct product, b.
Qed.

Lemma input_messages out pad report :
  CONTROL_HEADER_LEN + REPORT_MAX <= zlen out -> fits 32 pad ->
  zlen report = INPUT_LEN -> head report = Some USB_INPUT_ID ->
  (m ← carried (encode_report out pad DualShock4 false (ds4_body report)); parse_report m) = Some (PadInput DualShock4 report) /\
  (m ← carried (encode_report out pad DualSense false report); parse_report m) = Some (PadInput DualSense report) /\
  (m ← carried (encode_touch_block out pad report); parse_report m) = Some TouchBlock.
Proof.
  intros Ho Hp Hl Hh. unfold INPUT_LEN in Hl. assert (ds4_body report = drop 1 report) as Ed
    by (unfold ds4_body; rewrite get_range_drop by lia; done).
  assert (zlen (drop 1 report) = 63) as Hd by (rewrite zlen_drop, Hl; lia). split; [|split].
  + rewrite Ed, (report_carried out pad) by (done || lia). cbn [mbind option_bind]. unfold parse_report. cbn [ct_opcode ct_a2]. rewrite declared_body_whole by (unfold fits; lia).
    change (op_PAD_REPORT =? op_PAD_REPORT) with true. cbn [negb]. rewrite Z.lor_0_r. destruct (report_ids DualShock4) as (-> & -> & _ & _ & ->).
    cbn [Z.eqb negb]. rewrite Hd. change (63 =? DS4_BODY_LEN) with true. cbv iota. do 2 f_equal.
    rewrite (head_cons report USB_INPUT_ID Hh) at 2. unfold put_range. replace (length (drop 1 report)) with 63%nat by (unfold zlen in Hd; lia).
    change (drop (Z.to_nat 1 + 63) (put_at (repeat 0 (Z.to_nat INPUT_LEN)) 0 USB_INPUT_ID)) with (@nil Z). by rewrite app_nil_r.
  + rewrite (report_carried out pad) by (done || lia). cbn [mbind option_bind]. unfold parse_report. cbn [ct_opcode ct_a2]. rewrite declared_body_whole by (unfold fits; lia).
    change (op_PAD_REPORT =? op_PAD_REPORT) with true. cbn [negb]. rewrite Z.lor_0_r. destruct (report_ids DualSense) as (-> & -> & _ & _ & ->).
    cbn [Z.eqb negb]. unfold whole. rewrite Hl, Hh. by vm_compute.
  + unfold encode_touch_block. assert (zlen (ds4_touch_block report) = 10) as Ht.
    { unfold ds4_touch_block, DS4_TOUCH_AT, DS4_TOUCH_LEN. rewrite get_range_eq by lia. rewrite zlen_take, zlen_drop. lia. }
    rewrite encode_with_carried by (done || unfold CONTROL_HEADER_LEN, REPORT_MAX, fits in *; lia). cbn [mbind option_bind]. unfold parse_report. cbn [ct_opcode ct_a2].
    rewrite declared_body_whole by (unfold fits; lia). rewrite Ht. reflexivity.
Qed.

Lemma feature_messages out pad product feature report :
  CONTROL_HEADER_LEN + REPORT_MAX <= zlen out -> fits 32 pad ->
  Feature_of product report = Some feature ->
  (m ← carried (encode_report out pad product true report); parse_report m) = Some (PadFeature product feature report).
Proof.
  intros Ho Hp Hf. pose proof (Feature_of_len _ _ _ Hf) as Hl. unfold FEATURE_MAX in Hl. rewrite (report_carried out pad) by (done || lia).
  cbn [mbind option_bind]. unfold parse_report. cbn [ct_opcode ct_a2]. rewrite declared_body_whole by (unfold fits; lia).
  change (op_PAD_REPORT =? op_PAD_REPORT) with true. cbn [negb]. destruct (report_ids product) as (_ & _ & -> & -> & ->).
  change (FEATURE_BIT =? 0) with false. cbn [negb]. rewrite Hf. by destruct product.
Qed.

Lemma output_messages out pad kind report :
  CONTROL_HEADER_LEN + REPORT_MAX <= zlen out -> fits 32 pad ->
  0 < zlen report <= REPORT_MAX ->
  (m ← carried (encode_output out pad kind report); parse_output m) = Some (mkPadOutput pad kind report).
Proof.
  intros Ho Hp Hl. unfold REPORT_MAX, CONTROL_HEADER_LEN in *. unfold encode_output.
  rewrite encode_with_carried by (done || (unfold CONTROL_HEADER_LEN, fits; lia) || by destruct kind). cbn [mbind option_bind].
  unfold parse_output. cbn [ct_opcode ct_a1 ct_a2]. rewrite declared_body_whole by (unfold fits; lia).
  change (op_PAD_OUTPUT =? op_PAD_OUTPUT) with true. cbn [negb]. destruct report; [change (zlen []) with 0 in Hl; lia|]. by destruct kind.
Qed.

Lemma parse_report_typed m :
  match parse_report m with
  | Some (PadInput _ report) => zlen report = INPUT_LEN /\ head report = Some USB_INPUT_ID
  | Some (PadFeature product feature report) => Feature_of product report = Some feature
  | _ => True
  end.
Proof.
  unfold parse_report. destruct (negb _); [done|]. set (body := declared_body m). clearbody body.
  destruct (_ ≫= _) as [[|]|], (negb _); try done.
  + destruct (Feature_of DualShock4 body) eqn:E; [exact E|done].
  + destruct (Z.eqb_spec (zlen body) DS4_BODY_LEN) as [Hl|]; [|done]. unfold DS4_BODY_LEN in Hl. unfold put_range.
    replace (length body) with 63%nat by (unfold zlen in Hl; lia).
    change (drop (Z.to_nat 1 + 63) (put_at (repeat 0 (Z.to_nat INPUT_LEN)) 0 USB_INPUT_ID)) with (@nil Z). rewrite app_nil_r.
    change (take (Z.to_nat 1) (put_at (repeat 0 (Z.to_nat INPUT_LEN)) 0 USB_INPUT_ID)) with [USB_INPUT_ID]. split; [|done].
    cbn [app]. by rewrite zlen_cons, Hl.
  + destruct (Feature_of DualSense body) eqn:E; [exact E|done].
  + destruct (Z.eqb_spec (zlen body) INPUT_LEN) as [Hl|]; [|done]. destruct (bool_decide_reflect (head body = Some USB_INPUT_ID)); [|done].
    cbn. unfold whole. by rewrite Hl, Z.eqb_refl.
  + destruct (zlen body =? DS4_TOUCH_LEN); [done|].
    destruct (Z.eqb_spec (zlen body) INPUT_LEN) as [Hl|]; [|done]. destruct (bool_decide_reflect (head body = Some USB_INPUT_ID)); [|done].
    cbn. unfold whole. by rewrite Hl, Z.eqb_refl.
Qed.

(** The standard bodies are read back whole, with the product and the feature they were
    written for; whatever a peer sends, what is read as an input report is a whole USB
    report with its identifier, and what is read as a feature report is one the product
    answers; and what a device was written comes back as it was, with its pad and kind. *)
Theorem report_messages (out : list Z) (pad : Z) :
  CONTROL_HEADER_LEN + REPORT_MAX <= zlen out -> fits 32 pad ->
  (forall report, zlen report = INPUT_LEN -> head report = Some USB_INPUT_ID ->
    (m ← carried (encode_report out pad DualShock4 false (ds4_body report)); parse_report m) = Some (PadInput DualShock4 report) /\
    (m ← carried (encode_report out pad DualSense false report); parse_report m) = Some (PadInput DualSense report) /\
    (m ← carried (encode_touch_block out pad report); parse_report m) = Some TouchBlock) /\
  (forall product feature report, Feature_of product report = Some feature ->
    (m ← carried (encode_report out pad product true report); parse_report m) = Some (PadFeature product feature report)) /\
  (forall kind report, 0 < zlen report <= REPORT_MAX ->
    (m ← carried (encode_output out pad kind report); parse_output m) = Some (mkPadOutput pad kind report)) /\
  (forall m, match parse_report m with
             | Some (PadInput _ report) => zlen report = INPUT_LEN /\ head report = Some USB_INPUT_ID
             | Some (PadFeature product feature report) => Feature_of product report = Some feature
             | _ => True
             end).
Proof.
  intros Ho Hp. split; [|split; [|split]].
  - intros report Hl Hh. by apply input_messages.
  - intros product feature report Hf. by apply feature_messages.
  - intros kind report Hl. by apply output_messages.
  - apply parse_report_typed.
Qed.

Definition sample_report : list Z := USB_INPUT_ID :: repeat 7 63.

Lemma report_messages_witness :
  (m ← carried (encode_report (repeat 9 100) 2 DualShock4 false (ds4_body sample_report)); parse_report m) = Some (PadInput DualShock4 sample_report) /\
  (m ← carried (encode_output (repeat 9 100) 2 KindOutput sample_output); parse_output m) = Some (mkPadOutput 2 KindOutput sample_output).
Proof.
  destruct (report_messages (repeat 9 100) 2) as (H1 & _ & H2 & _); [vm_compute; discriminate|unfold fits; lia|]. split.
  - apply (H1 sample_report); reflexivity.
  - apply H2. vm_compute. split; [reflexivity|discriminate].
Defined.

(** ** The state a report implies *)

Lemma stick_eq v : fits 8 v -> stick v false = v * 257 - 32768 /\ stick v true = 32767 - v * 257.
Proof.
  intros Hv. pose proof (byte_forall (fun v => (stick v false =? v * 257 - 32768) && (stick v true =? 32767 - v * 257)) ltac:(by vm_compute) v Hv) as H.
  apply andb_true_iff in H as [H1%Z.eqb_eq H2%Z.eqb_eq]. done.
Qed.

Definition press (buttons : Z) (e : Z * Z) : Z := let '(set, b) := e in if negb (set =? 0) then Z.lor buttons b else buttons.

Lemma press_bits table h j :
  Z.testbit (foldl press h table) j = Z.testbit h j || existsb (fun e => negb (fst e =? 0) && Z.testbit (snd e) j) table.
Proof.
  revert h. induction table as [|[set b] table IH]; intros h; cbn [foldl existsb fst snd]; [by rewrite orb_false_r|].
  rewrite IH. cbn [press]. destruct (negb (set =? 0)); cbn [andb orb]; [|done]. by rewrite Z.lor_spec, orb_assoc.
Qed.

Lemma land_pow2 a k : 0 <= k -> (Z.land a (2 ^ k) <> 0 <-> Z.testbit a k = true).
Proof.
  intros Hk. rewrite <- not_false_iff_true. split; intros H E; apply H; clear H.
  - apply Z.bits_inj'. intros n Hn. rewrite Z.land_spec, Z.bits_0. destruct (Z.eq_dec n k) as [->|Hne]; [by rewrite E|].
    by rewrite Z.pow2_bits_false, andb_false_r by congruence.
  - assert (Z.testbit (Z.land a (2 ^ k)) k = false) as H by (rewrite E; apply Z.bits_0). rewrite Z.land_spec, Z.pow2_bits_true, andb_true_r in H by done. done.
Qed.

Lemma hat_small v j : 4 <= j -> Z.testbit (hat v) j = false.
Proof.
  intros Hj. assert (0 <= hat v < 2 ^ 4) as H by (unfold hat; destruct v as [|[[[]|[]|]|[[]|[]|]|]|]; vm_compute; split; congruence).
  rewrite Z.testbit_false by lia. rewrite Z.div_small; [done|]. split; [lia|]. apply Z.lt_le_trans with (2 ^ 4); [lia|]. apply Z.pow_le_mono_r; lia.
Qed.

(** A button is held in the state exactly when its bit is set in the report. *)
Lemma pressed_iff nibble b0 b1 b2 set b :
  In (set, b) (button_table b0 b1 b2) -> (Z.land (foldl press (hat nibble) (button_table b0 b1 b2)) b <> 0 <-> set <> 0).
Proof.
  intros Hin. assert (exists k, 4 <= k /\ b = 2 ^ k) as (k & Hk & ->).
  { unfold button_table in Hin. cbn [In] in Hin. decompose [or] Hin; try done;
      match goal with H : (_, _) = _ |- _ => injection H as _ <- end;
      lazymatch goal with |- exists k, _ /\ ?b = _ => let n := eval vm_compute in (Z.log2 b) in exists n; split; [lia|reflexivity] end. }
  rewrite land_pow2 by lia. rewrite press_bits, hat_small by lia. cbn [orb]. rewrite existsb_exists.
  unfold button_table in *. cbn [In] in Hin. split.
  - intros ([set' b'] & Hin' & [Hs Hb]%andb_true_iff). cbn [fst snd] in *. apply negb_true_iff, Z.eqb_neq in Hs.
    decompose [or] Hin; try done; match goal with H : (_, _) = (_, _) |- _ => injection H as <- Ek end;
    cbn [In] in Hin'; decompose [or] Hin'; try done; match goal with H : (_, _) = (_, _) |- _ => injection H as <- <- end; try exact Hs; exfalso;
    apply (f_equal Z.log2) in Ek; rewrite Z.log2_pow2 in Ek by lia; rewrite <- Ek in Hb; vm_compute in Hb; discriminate.
  - intros Hs. exists (set, 2 ^ k). split; [exact Hin|]. cbn [fst snd]. apply andb_true_iff.
    split; [by apply negb_true_iff, Z.eqb_neq|]. by apply Z.pow2_bits_true; lia.
Qed.

Lemma hat_exclusive v :
  (Z.testbit (hat v) 0 && Z.testbit (hat v) 1 = false) /\ (Z.testbit (hat v) 2 && Z.testbit (hat v) 3 = false).
Proof. unfold hat. by destruct v as [|[[[]|[]|]|[[]|[]|]|]|]. Qed.

Lemma pressed_low nibble b0 b1 b2 : Z.land (foldl press (hat nibble) (button_table b0 b1 b2)) 15 = hat nibble.
Proof.
  apply Z.bits_inj'. intros j Hj. rewrite Z.land_spec, press_bits. change 15 with (Z.ones 4).
  destruct (Z.lt_ge_cases j 4) as [Hlt|Hge].
  - rewrite Z.ones_spec_low by lia. rewrite andb_true_r. unfold button_table. cbn [existsb fst snd].
    assert (j = 0 \/ j = 1 \/ j = 2 \/ j = 3) as [-> |[-> |[-> | ->]]] by lia;
      rewrite ?orb_false_r; repeat rewrite andb_false_r; cbn [orb]; by rewrite ?orb_false_r.
  - rewrite Z.ones_spec_high by lia. by rewrite andb_false_r, hat_small.
Qed.

(** The state is the report's, exactly: a stick byte over the whole signed range with the
    vertical ones turned over, each button held when its bit is, the hat as its direction
    bits with no two opposite, the triggers as they are. *)
Theorem pad_state_exact (product : Product) (report : list Z) :
  bytes_ok report -> zlen report = INPUT_LEN ->
  let s := pad_state product report in
  let byte at_ := default 0 (get_at report at_) in
  let '(buttons_at, triggers_at) := match product with DualShock4 => (5, 8) | DualSense => (8, 5) end in
  (pd_lx s = byte 1 * 257 - 32768 /\ pd_ly s = 32767 - byte 2 * 257 /\ pd_rx s = byte 3 * 257 - 32768 /\ pd_ry s = 32767 - byte 4 * 257) /\
  (pd_lt s = byte triggers_at /\ pd_rt s = byte (triggers_at + 1)) /\
  (forall set b, In (set, b) (button_table (byte buttons_at) (byte (buttons_at + 1)) (byte (buttons_at + 2))) ->
    Z.land (pd_buttons s) b <> 0 <-> set <> 0) /\
  Z.land (pd_buttons s) 15 = hat (Z.land (byte buttons_at) 15) /\
  ~ (Z.testbit (pd_buttons s) 0 = true /\ Z.testbit (pd_buttons s) 1 = true) /\
  ~ (Z.testbit (pd_buttons s) 2 = true /\ Z.testbit (pd_buttons s) 3 = true).
Proof.
  intros Hb Hl s byte.
  assert (forall i, 0 <= i < 64 -> fits 8 (byte i)) as Hby.
  { intros i Hi. unfold byte. destruct (get_at_Some report i) as [v Ev]; [unfold INPUT_LEN in Hl; lia|]. rewrite Ev.
    apply (proj1 (Forall_lookup _ _) Hb _ _ Ev). }
  assert (forall (n : Z) (h : Z), Z.land n 15 = h -> forall j, 0 <= j < 4 -> Z.testbit n j = Z.testbit h j) as Hlow.
  { intros n h <- j Hj. rewrite Z.land_spec. change 15 with (Z.ones 4). by rewrite Z.ones_spec_low, andb_true_r by lia. }
  assert (forall nb b0 b1 b2, let n := foldl press (hat nb) (button_table b0 b1 b2) in
    Z.land n 15 = hat nb /\ ~ (Z.testbit n 0 = true /\ Z.testbit n 1 = true) /\ ~ (Z.testbit n 2 = true /\ Z.testbit n 3 = true)) as Hhat.
  { intros nb b0 b1 b2 n. pose proof (pressed_low nb b0 b1 b2) as E. split; [exact E|]. pose proof (hat_exclusive nb) as [H1 H2].
    rewrite !(Hlow n _ E) by lia. split; intros [E1 E2]; [rewrite E1, E2 in H1|rewrite E1, E2 in H2]; done. }
  destruct product; (split; [split_and!; apply stick_eq, Hby; lia|]); (split; [done|]); (split; [intros set b; apply pressed_iff|apply Hhat]).
Qed.

Lemma pad_state_exact_witness :
  bytes_ok sample_report /\ pd_lx (pad_state DualSense sample_report) = 7 * 257 - 32768.
Proof.
  assert (bytes_ok sample_report) as Hb by (vm_compute; repeat constructor; discriminate).
  split; [exact Hb|]. exact (proj1 (proj1 (pad_state_exact DualSense sample_report Hb eq_refl))).
Defined.
