(* ===== verification/Gamepad.v ===== *)
(** The key table of crates/inject/src/usage.rs, and a peer's controller as the kernel's own pad layout (crates/inject/src/gamepad.rs):
    the two button enumerations, the axes, and the whole report folded back from the
    events. *)

From S2P Require Import Prelude CoreError Pad.

(** Peer key codes to kernel key codes (crates/inject/src/usage.rs). *)

(** Usage codes zero through 255, as the kernel translates them. *)
Definition KERNEL_KEY : list Z :=
  [ 0; 0; 0; 0; 30; 48; 46; 32; 18; 33; 34; 35; 23; 36; 37; 38;
    50; 49; 24; 25; 16; 19; 31; 20; 22; 47; 17; 45; 21; 44; 2; 3;
    4; 5; 6; 7; 8; 9; 10; 11; 28; 1; 14; 15; 57; 12; 13; 26;
    27; 43; 43; 39; 40; 41; 51; 52; 53; 58; 59; 60; 61; 62; 63; 64;
    65; 66; 67; 68; 87; 88; 99; 70; 119; 110; 102; 104; 111; 107; 109; 106;
    105; 108; 103; 69; 98; 55; 74; 78; 96; 79; 80; 81; 75; 76; 77; 71;
    72; 73; 82; 83; 86; 127; 116; 117; 183; 184; 185; 186; 187; 188; 189; 190;
    191; 192; 193; 194; 134; 138; 130; 132; 128; 129; 131; 137; 133; 135; 136; 113;
    115; 114; 0; 0; 0; 121; 0; 89; 93; 124; 92; 94; 95; 0; 0; 0;
    122; 123; 90; 91; 85; 0; 0; 0; 0; 0; 0; 0; 111; 0; 0; 0;
    0; 0; 0; 0; 0; 0; 0; 0; 0; 0; 0; 0; 0; 0; 0; 0;
    0; 0; 0; 0; 0; 0; 179; 180; 0; 0; 0; 0; 0; 0; 0; 0;
    0; 0; 0; 0; 0; 0; 0; 0; 0; 0; 0; 0; 0; 0; 0; 0;
    0; 0; 0; 0; 0; 0; 0; 0; 111; 0; 0; 0; 0; 0; 0; 0;
    29; 42; 56; 125; 97; 54; 100; 126; 164; 166; 165; 163; 161; 115; 114; 113;
    150; 158; 159; 128; 136; 177; 178; 176; 142; 152; 173; 140; 0; 0; 0; 0 ].

Definition EXTRA_FIRST : Z := 258.
Definition EXTRA : list Z := [163; 165; 166; 164; 113; 226].
Definition OVERRIDE : list (Z * Z) := [(118, 127)].
Definition USAGE_PAGE : Z := 0x00070000.

(** [usage::key_code]. *)
Definition key_code (usage : Z) : option Z :=
  match find (fun e => fst e =? usage) OVERRIDE with
  | Some (_, code) => Some code
  | None =>
      code ← (if usage <=? 255 then get_at KERNEL_KEY usage
              else if usage <? EXTRA_FIRST then None else get_at EXTRA (usage - EXTRA_FIRST));
      if negb (code =? 0) then Some code else None
  end.

(** [usage::scan_code]. *)
Definition scan_code (usage : Z) : option Z := if usage <=? 255 then Some (Z.lor USAGE_PAGE usage) else None.

(** Every key the table produces is below 256, so the tracker has a place for it. *)
Lemma key_code_bound usage key : 0 <= usage -> key_code usage = Some key -> 0 < key < 256.
Proof.
  assert (forall l i x, Forall (fun c => 0 <= c < 256) l -> get_at l i = Some x -> 0 <= x < 256) as Hl.
  { intros l i x Hl E. by apply (proj1 (Forall_lookup _ _) Hl _ _ E). }
  unfold key_code. intros Hu. destruct (find _ OVERRIDE) as [[from code]|] eqn:Ef.
  { apply find_some in Ef as [[[= <- <-]|[]] _]. intros [= <-]. lia. }
  assert (forall o, (forall x, o = Some x -> 0 <= x < 256) ->
    (code ← o; if negb (code =? 0) then Some code else None) = Some key -> 0 < key < 256) as Ho.
  { intros [code|] Hb; [|done]. cbn [mbind option_bind]. destruct (Z.eqb_spec code 0); [done|]. intros [= <-].
    specialize (Hb code eq_refl). lia. }
  apply Ho. intros x. destruct (usage <=? 255).
  - apply Hl. repeat constructor; lia.
  - destruct (usage <? EXTRA_FIRST); [done|]. apply Hl. repeat constructor; lia.
Qed.

Definition MAX_PADS : Z := 4.

(** [mod key]. *)
Definition key_SOUTH : Z := 0x130.
Definition key_EAST : Z := 0x131.
Definition key_NORTH : Z := 0x133.
Definition key_WEST : Z := 0x134.
Definition key_TL : Z := 0x136.
Definition key_TR : Z := 0x137.
Definition key_SELECT : Z := 0x13a.
Definition key_START : Z := 0x13b.
Definition key_MODE : Z := 0x13c.
Definition key_THUMBL : Z := 0x13d.
Definition key_THUMBR : Z := 0x13e.

(** [mod axis]. *)
Definition axis_X : Z := 0x00.
Definition axis_Y : Z := 0x01.
Definition axis_Z : Z := 0x02.
Definition axis_RX : Z := 0x03.
Definition axis_RY : Z := 0x04.
Definition axis_RZ : Z := 0x05.
Definition axis_HAT0X : Z := 0x10.
Definition axis_HAT0Y : Z := 0x11.

Definition STICK_RANGE : Z := 32767.
Definition TRIGGER_RANGE : Z := 255.

Definition bit_for_index (index : Z) : option Z :=
  match index with
  | 0 => Some bit_A
  | 1 => Some bit_B
  | 2 => Some bit_X
  | 3 => Some bit_Y
  | 4 => Some bit_BACK
  | 5 => Some bit_GUIDE
  | 6 => Some bit_START
  | 7 => Some bit_LEFT_THUMB
  | 8 => Some bit_RIGHT_THUMB
  | 9 => Some bit_LEFT_SHOULDER
  | 10 => Some bit_RIGHT_SHOULDER
  | 11 => Some bit_DPAD_UP
  | 12 => Some bit_DPAD_DOWN
  | 13 => Some bit_DPAD_LEFT
  | 14 => Some bit_DPAD_RIGHT
  | _ => None
  end.

(** The arms of [key_for_bit], in its order. *)
Definition key_arms : list (Z * Z) :=
  [ (bit_A, key_SOUTH); (bit_B, key_EAST); (bit_X, key_NORTH); (bit_Y, key_WEST); (bit_LEFT_SHOULDER, key_TL);
    (bit_RIGHT_SHOULDER, key_TR); (bit_BACK, key_SELECT); (bit_START, key_START); (bit_GUIDE, key_MODE);
    (bit_LEFT_THUMB, key_THUMBL); (bit_RIGHT_THUMB, key_THUMBR) ].
Definition key_for_bit (button : Z) : option Z :=
  match find (fun e => fst e =? button) key_arms with Some (_, code) => Some code | None => None end.

Definition KEYED_BITS : list Z :=
  [ bit_A; bit_B; bit_X; bit_Y; bit_LEFT_SHOULDER; bit_RIGHT_SHOULDER; bit_BACK; bit_START; bit_GUIDE; bit_LEFT_THUMB;
    bit_RIGHT_THUMB ].

Definition axis_of (buttons negative positive : Z) : Z :=
  match negb (Z.land buttons negative =? 0), negb (Z.land buttons positive =? 0) with
  | true, true | false, false => 0
  | true, false => -1
  | false, true => 1
  end.
Definition hat_x (buttons : Z) : Z := axis_of buttons bit_DPAD_LEFT bit_DPAD_RIGHT.
Definition hat_y (buttons : Z) : Z := axis_of buttons bit_DPAD_UP bit_DPAD_DOWN.

(** [gamepad::stick] on a signed position. *)
Definition pad_stick (value : Z) (vertical : bool) : Z := if vertical then - Z.max value (- STICK_RANGE) else value.

Definition clamp (value low high : Z) : Z := Z.max low (Z.min value high).
Definition trigger_from_axis (value : Z) : Z := clamp (Z.quot (TRIGGER_RANGE * value) STICK_RANGE) 0 TRIGGER_RANGE.

(** One kernel input event, without its timestamp (crates/inject/src/event.rs). *)
Record Event := mkEvent { ev_kind : Z; ev_code : Z; ev_value : Z }.
Definition EV_SYN : Z := 0x00.
Definition EV_KEY : Z := 0x01.
Definition EV_REL : Z := 0x02.
Definition EV_ABS : Z := 0x03.
Definition EV_MSC : Z := 0x04.

(** [gamepad::Report]. *)
Record XReport := mkXReport {
  xr_buttons : Z;
  xr_lx : Z;
  xr_ly : Z;
  xr_rx : Z;
  xr_ry : Z;
  xr_left_trigger : Z;
  xr_right_trigger : Z;
}.
#[export] Instance XReport_eta : Eta XReport := fun r =>
  mkXReport (xr_buttons r) (xr_lx r) (xr_ly r) (xr_rx r) (xr_ry r) (xr_left_trigger r) (xr_right_trigger r).

(** [!bits] on sixteen bits. *)
Definition not16 (bits : Z) : Z := Z.lxor bits 0xFFFF.

(** [gamepad::signed]: the clamp puts it in range. *)
Definition signed16 (value : Z) : Z := clamp value (-32768) 32767.

Definition direction (buttons value negative positive : Z) : Z :=
  let rest := Z.land buttons (not16 (Z.lor negative positive)) in
  match Z.sgn value with
  | -1 => Z.lor rest negative
  | 1 => Z.lor rest positive
  | _ => rest
  end.

(** [i32::saturating_neg]. *)
Definition saturating_neg (value : Z) : Z := Z.min (- value) (2 ^ 31 - 1).

Definition XReport_axis (code value : Z) (r : XReport) : XReport :=
  if code =? axis_X then r <| xr_lx := signed16 value |>
  else if code =? axis_Y then r <| xr_ly := signed16 (saturating_neg value) |>
  else if code =? axis_RX then r <| xr_rx := signed16 value |>
  else if code =? axis_RY then r <| xr_ry := signed16 (saturating_neg value) |>
  else if code =? axis_Z then r <| xr_left_trigger := clamp value 0 255 |>
  else if code =? axis_RZ then r <| xr_right_trigger := clamp value 0 255 |>
  else if code =? axis_HAT0X then r <| xr_buttons := direction (xr_buttons r) value bit_DPAD_LEFT bit_DPAD_RIGHT |>
  else if code =? axis_HAT0Y then r <| xr_buttons := direction (xr_buttons r) value bit_DPAD_UP bit_DPAD_DOWN |>
  else r.

(** One event taken into the report. *)
Definition XReport_event (r : XReport) (event : Event) : XReport :=
  if ev_kind event =? EV_KEY then
    match find (fun b => bool_decide (key_for_bit b = Some (ev_code event))) KEYED_BITS with
    | None => r
    | Some b =>
        if ev_value event =? 0 then r <| xr_buttons := Z.land (xr_buttons r) (not16 b) |>
        else r <| xr_buttons := Z.lor (xr_buttons r) b |>
    end
  else if ev_kind event =? EV_ABS then XReport_axis (ev_code event) (ev_value event) r
  else r.

Definition XReport_apply (r : XReport) (events : list Event) : XReport := foldl XReport_event r events.
