(* ===== verification/Codecs.v ===== *)
(** The codecs together: one interface for the media headers that are written in
    front of a payload and read back off it, and the cleartext packets' language. *)

From S2P Require Import Prelude CoreError Packet Video Audio Microphone.

(** ** Headers *)

(** A header of [fr_len] bytes in front of whatever follows it. *)
Class Framing (A : Type) := {
  fr_ok : A -> Prop;
  fr_len : Z;
  fr_encode : list Z -> A -> list Z * result Z;
  fr_parse : list Z -> result A;
}.
Arguments fr_len A {_}.

(** What goes in comes out, whatever follows it, in a buffer that keeps its length. *)
Class FramingLaws (A : Type) {F : Framing A} : Prop := {
  fr_roundtrip : forall (x : A) out rest, fr_ok x -> fr_len A <= zlen out ->
    exists out', fr_encode out x = (out', Ok (fr_len A)) /\ zlen out' = zlen out /\
      fr_parse (take (Z.to_nat (fr_len A)) out' ++ rest) = Ok x;
}.

(** Two headers that look alike are the same one. *)
Lemma framing_injective `{FramingLaws A} (x y : A) out o1 o2 rest1 rest2 :
  fr_ok x -> fr_ok y -> fr_len A <= zlen out ->
  fr_encode out x = (o1, Ok (fr_len A)) -> fr_encode out y = (o2, Ok (fr_len A)) ->
  take (Z.to_nat (fr_len A)) o1 ++ rest1 = take (Z.to_nat (fr_len A)) o2 ++ rest2 -> x = y.
Proof.
  intros Hx Hy Ho E1 E2 E. destruct (fr_roundtrip x out rest1 Hx Ho) as (o1' & F1 & _ & P1).
  destruct (fr_roundtrip y out rest2 Hy Ho) as (o2' & F2 & _ & P2).
  rewrite E1 in F1. rewrite E2 in F2. apply pair_equal_spec in F1 as [<- _], F2 as [<- _]. rewrite E, P2 in P1. by injection P1.
Qed.

#[export] Instance video_framing : Framing VideoHeader := {|
  fr_ok := video_ok; fr_len := VIDEO_HEADER_LEN; fr_encode := video_encode; fr_parse := video_parse |}.

(** The metadata message: the header that announces it, and the metadata. *)
#[export] Instance metadata_framing : Framing (VideoHeader * KeyframeMetadata) := {|
  fr_ok := fun '(h, m) => video_ok h /\ vh_announced h = true /\ vh_metadata h = true;
  fr_len := METADATA_LEN;
  fr_encode := fun out '(h, m) => encode_metadata out h m;
  fr_parse := fun content => h ← video_parse content; m ← parse_metadata content; Ok (h, m) |}.

#[export] Instance audio_framing : Framing AudioHeader := {|
  fr_ok := audio_ok; fr_len := AUDIO_HEADER_LEN; fr_encode := audio_encode; fr_parse := audio_parse |}.

(** A microphone packet as the control message that carries it declares it. *)
#[export] Instance microphone_framing : Framing MicPacket := {|
  fr_ok := mic_ok; fr_len := BODY_LEN; fr_encode := microphone_encode;
  fr_parse := fun body =>
    p ← microphone_parse BODY_LEN MICROPHONE_ARGUMENT MICROPHONE_SELECTOR body; ok_or p Malformed |}.

#[export] Instance video_framing_laws : FramingLaws VideoHeader.
Proof. split. intros h out rest Hok Ho. exact (proj1 (video_roundtrip out rest [] h Hok Ho)). Qed.

#[export] Instance metadata_framing_laws : FramingLaws (VideoHeader * KeyframeMetadata).
Proof.
  split. intros [h m] out rest (Hok & Ha & Hm) Ho.
  destruct (metadata_roundtrip out rest h m H264 Hok Ho) as [(out' & E1 & E2 & E3 & E4 & _) _].
  exists out'. split; [exact E1|]. split; [exact E2|]. cbn [fr_parse metadata_framing fr_len]. rewrite E3, E4. cbn.
  do 2 f_equal. by destruct h; cbn in *; subst.
Qed.

#[export] Instance audio_framing_laws : FramingLaws AudioHeader.
Proof. split. intros h out rest Hok Ho. exact (proj1 (audio_roundtrip out rest h 0 0 0 Hok Ho ltac:(done))). Qed.

#[export] Instance microphone_framing_laws : FramingLaws MicPacket.
Proof.
  split. intros p out rest [Hl Hr] Ho.
  destruct (microphone_roundtrip out rest p BODY_LEN Hl Ho ltac:(done)) as (out' & E1 & E2 & _ & E4).
  exists out'. split; [exact E1|]. split; [exact E2|]. cbn [fr_parse microphone_framing fr_len]. rewrite E4.
  rewrite decide_False; [done|]. intros [Hp Hn]. by apply Hn, Hr.
Qed.

(** Every media header survives its wire.  A video header, a keyframe's
    metadata message, an audio header and a microphone packet that fit their fields are
    encoded into any buffer that holds them without changing its length, and read
    back as they were, whatever payload follows; so no two of a kind ever share an
    encoding. *)
Theorem media_headers_roundtrip :
  (FramingLaws VideoHeader /\ FramingLaws (VideoHeader * KeyframeMetadata) /\ FramingLaws AudioHeader /\ FramingLaws MicPacket) /\
  forall (A : Type) (F : Framing A), FramingLaws A ->
  forall (x y : A) out o1 o2 rest1 rest2,
    fr_ok x -> fr_ok y -> fr_len A <= zlen out ->
    fr_encode out x = (o1, Ok (fr_len A)) -> fr_encode out y = (o2, Ok (fr_len A)) ->
    take (Z.to_nat (fr_len A)) o1 ++ rest1 = take (Z.to_nat (fr_len A)) o2 ++ rest2 -> x = y.
Proof.
  split; [split_and!; apply _|]. intros A F HF x y out o1 o2 rest1 rest2. exact (framing_injective x y out o1 o2 rest1 rest2).
Qed.

Lemma media_headers_roundtrip_witness :
  exists out', video_encode (repeat 9 16) sample_video = (out', Ok VIDEO_HEADER_LEN) /\ zlen out' = 16 /\
    video_parse (take (Z.to_nat VIDEO_HEADER_LEN) out' ++ [0; 0; 0; 1; 0x67]) = Ok sample_video.
Proof.
  apply (fr_roundtrip (FramingLaws := proj1 (proj1 media_headers_roundtrip)) sample_video (repeat 9 16) [0; 0; 0; 1; 0x67]); by vm_compute.
Defined.

(** ** Packets *)

(** C36: the cleartext packets are exactly a language.  Of a datagram's bytes,
    [packet_parse] accepts as data those that are the encoding of a packet on a known
    channel under a sequence other than the reserved one, and as an acknowledgement
    those with such a header and the reported values, at least one, whose absent
    tail reads as zero.  With room in the buffer, what [encode_data] writes of data on a
    known channel under a sequence other than the reserved one is read back as it was and
    nothing behind it is touched; what [encode_ack] writes is read back as it was if the
    acknowledgement's header is such a one too, its values fit and it reports all nineteen
    channels. *)
Theorem packets_exact (l out : list Z) (d : Data) (a : Ack) :
  bytes_ok l ->
  (packet_parse l = Ok (Packet_Data d) <-> data_ok d /\ l = data_wire d) /\
  (packet_parse l = Ok (Packet_Ack a) <-> ack_ok a /\ exists rest, l = ack_header a ++ rest /\ 4 <= zlen rest /\
     ack_reported a = Z.min (zlen rest / 4) CHANNEL_COUNT /\
     ack_cumulative a = reported_values l (Z.to_nat (ack_reported a))) /\
  (data_ok d -> HEADER_LEN + zlen (d_body d) <= zlen out -> zlen out < 2 ^ USIZE ->
   exists out' n, encode_data out d = (out', Ok n) /\ n = HEADER_LEN + zlen (d_body d) /\
     packet_parse (take (Z.to_nat n) out') = Ok (Packet_Data d) /\
     drop (Z.to_nat n) out' = drop (Z.to_nat n) out) /\
  (ack_ok a -> zlen (ack_cumulative a) = CHANNEL_COUNT -> Forall (fits 32) (ack_cumulative a) ->
   ack_reported a = CHANNEL_COUNT -> ACK_LEN <= zlen out ->
   exists out', encode_ack out a = (out', Ok ACK_LEN) /\
     packet_parse (take (Z.to_nat ACK_LEN) out') = Ok (Packet_Ack a)).
Proof.
  intros Hb. split_and!; [by apply data_parse_iff|by apply ack_parse_iff|by apply data_roundtrip|by apply ack_roundtrip].
Qed.

Lemma packets_exact_witness :
  packet_parse ([1; 2; 3; 0; 0; 0; 9] ++ [0; 0; 0; 1; 0; 0; 0; 2; 0; 0; 0; 3; 0; 0; 0; 4]) =
  Ok (Packet_Ack (mkAck AckKind_Ack false 3 9 ([1; 2; 3; 4] ++ replicate 15 0) 4)).
Proof.
  apply (proj1 (proj2 (packets_exact ([1; 2; 3; 0; 0; 0; 9] ++ [0; 0; 0; 1; 0; 0; 0; 2; 0; 0; 0; 3; 0; 0; 0; 4]) []
    (mkData 0 0 false []) (mkAck AckKind_Ack false 3 9 ([1; 2; 3; 4] ++ replicate 15 0) 4)
    ltac:(repeat constructor; unfold fits; lia)))).
  split; [unfold ack_ok, fits, U32_MAX, CHANNEL_COUNT; cbn; split_and!; done || lia|].
  exists [0; 0; 0; 1; 0; 0; 0; 2; 0; 0; 0; 3; 0; 0; 0; 4].
  split_and!; [reflexivity|vm_compute; discriminate|reflexivity..].
Defined.
