(* ===== verification/Effect.v ===== *)
(** Code that mutates a buffer (or a struct around one) and can refuse: a small
    state-and-error monad.  The state survives a refusal as it stands at that
    point, as it does in the source.  On it, a buffer written front to back. *)

From S2P Require Import Prelude CoreError Crc32.

Definition eff (S A : Type) : Type := S -> S * result A.

#[global] Instance eff_ret S : MRet (eff S) := fun A a s => (s, Ok a).
#[global] Instance eff_bind S : MBind (eff S) := fun A B f m s =>
  match m s with
  | (s, Ok a) => f a s
  | (s, Err e) => (s, Err e)
  end.

(** [return Err(e)], and [?] on a value computed without effects. *)
Definition fail {S A} (e : Error) : eff S A := fun s => (s, Err e).
Definition lift {S A} (r : result A) : eff S A := fun s => (s, r).
Definition ask {S} : eff S S := fun s => (s, Ok s).

(** A computation on one part of the state. *)
Definition on_part {S T A} (get : S -> T) (put : T -> S -> S) (m : eff T A) : eff S A := fun s =>
  let '(t, r) := m (get s) in (put t s, r).

(** [out.get_mut(a..b).ok_or(BufferTooSmall)?.copy_from_slice(bytes)]. *)
Definition write_at (a : Z) (bytes : list Z) : eff (list Z) unit := fun buf =>
  match get_range buf a (a + zlen bytes) with
  | None => (buf, Err BufferTooSmall)
  | Some _ => (put_range buf a bytes, Ok ())
  end.

(** [bytes ^ mask], byte by byte. *)
Definition xor_bytes (mask bytes : list Z) : list Z := zip_with Z.lxor mask bytes.

(** The constant-time comparison: the differences accumulated, then tested. *)
Definition ct_eq (a b : list Z) : bool := foldl Z.lor 0 (zip_with Z.lxor a b) =? 0.

Lemma eff_step {S A B} (m : eff S A) (k : A -> eff S B) s s' a :
  m s = (s', Ok a) -> (x ← m; k x) s = k a s'.
Proof. intros E. unfold mbind, eff_bind. by rewrite E. Qed.

Lemma lift_step {S A B} (r : result A) (k : A -> eff S B) s a : r = Ok a -> (x ← lift r; k x) s = k a s.
Proof. by intros ->. Qed.

Lemma ask_step {S B} (k : S -> eff S B) s : (x ← ask; k x) s = k s s.
Proof. done. Qed.

Lemma write_at_ok buf a bytes :
  0 <= a -> a + zlen bytes <= zlen buf -> write_at a bytes buf = (put_range buf a bytes, Ok ()).
Proof.
  intros H0 Hl. unfold write_at. pose proof (zlen_nonneg bytes). by rewrite get_range_eq by lia.
Qed.

Lemma write_at_short buf a bytes :
  zlen buf < a + zlen bytes -> write_at a bytes buf = (buf, Err BufferTooSmall).
Proof. intros H. unfold write_at. pose proof (zlen_nonneg bytes). by rewrite get_range_None by lia. Qed.

(** ** Masks *)

Lemma length_xor_bytes mask l : (length l <= length mask)%nat -> length (xor_bytes mask l) = length l.
Proof. intros H. unfold xor_bytes. rewrite length_zip_with. lia. Qed.

Lemma xor_bytes_involutive mask l : (length l <= length mask)%nat -> xor_bytes mask (xor_bytes mask l) = l.
Proof.
  unfold xor_bytes. revert mask. induction l as [|b l IH]; intros [|m mask] H; cbn in *; [done|done|lia|].
  rewrite IH by lia. f_equal. by rewrite <- Z.lxor_assoc, Z.lxor_nilpotent, Z.lxor_0_l.
Qed.

Lemma xor_bytes_ok mask l : bytes_ok mask -> bytes_ok l -> bytes_ok (xor_bytes mask l).
Proof.
  unfold bytes_ok, xor_bytes. revert mask. induction l as [|b l IH]; intros [|m mask] Hm Hl; cbn; [constructor..|].
  inversion_clear Hm. inversion_clear Hl. constructor; [by apply lxor_fits|by apply IH].
Qed.

(** ** Comparison *)

Lemma foldl_lor_0 l acc :
  0 <= acc -> Forall (Z.le 0) l -> (foldl Z.lor acc l = 0 <-> acc = 0 /\ Forall (eq 0) l).
Proof.
  revert acc. induction l as [|x l IH]; intros acc Ha Hl; cbn.
  - by split; [intros ->|intros [-> _]].
  - inversion_clear Hl as [|? ? Hx Hl']. rewrite IH by (try apply Z.lor_nonneg; done).
    rewrite Z.lor_eq_0_iff. split.
    + intros [[-> ->] H]. split; [done|by constructor].
    + intros [-> H]. inversion_clear H. done.
Qed.

Lemma ct_eq_iff a b :
  bytes_ok a -> bytes_ok b -> length a = length b -> ct_eq a b = true <-> a = b.
Proof.
  intros Ha Hb Hl. unfold ct_eq. rewrite Z.eqb_eq, foldl_lor_0; [|done|].
  - split.
    + intros [_ H]. revert b Hb Hl H. induction a as [|x a IH]; intros [|y b] Hb Hl H; cbn in *; try done.
      inversion_clear Ha. inversion_clear Hb. inversion_clear H as [|? ? E H'].
      f_equal; [by apply Z.lxor_eq|]. apply IH; [done..|lia|done].
    + intros ->. split; [done|]. clear. induction b as [|y b IH]; cbn; constructor; [by rewrite Z.lxor_nilpotent|done].
  - revert b Hb Hl. induction a as [|x a IH]; intros [|y b] Hb Hl; cbn; constructor;
      inversion_clear Ha as [|? ? [? ?] ?]; inversion_clear Hb as [|? ? [? ?] ?].
    + apply Z.lxor_nonneg. lia.
    + apply IH; [done..|cbn in Hl; lia].
Qed.

(** A buffer filled from its front: the cursor several encoders write through, and
    how writes compose. *)

(** The buffer and how much of it is used: [out] and [at]. *)
Record Sink := mkSink { sk_out : list Z; sk_at : Z }.

(** [out.get_mut(at..at + bytes.len()).ok_or(err)?.copy_from_slice(bytes)], the
    cursor moved past it. *)
Definition sink_put (err : Error) (bytes : list Z) : eff Sink unit := fun s =>
  match get_range (sk_out s) (sk_at s) (sk_at s + zlen bytes) with
  | None => (s, Err err)
  | Some _ => (mkSink (put_range (sk_out s) (sk_at s) bytes) (sk_at s + zlen bytes), Ok ())
  end.

(** ** Writing in sequence *)

Definition at_sink (pre rest : list Z) : Sink := mkSink (pre ++ rest) (zlen pre).

(** [m] appends [l] and gives [a], wherever it starts. *)
Definition emits {A} (m : eff Sink A) (l : list Z) (a : A) : Prop :=
  forall pre rest, zlen l <= zlen rest -> m (at_sink pre rest) = (at_sink (pre ++ l) (drop (length l) rest), Ok a).

Lemma emits_put err l : emits (sink_put err l) l ().
Proof.
  intros pre rest Hl. rewrite <- (take_drop (length l) rest). set (h := take _ _). set (t := drop _ _).
  assert (zlen h = zlen l) as Eh by (unfold h; rewrite zlen_take; unfold zlen in *; lia). unfold zlen in Eh.
  unfold sink_put, at_sink. cbn [sk_out sk_at].
  rewrite get_range_mid by (unfold zlen; lia || done). rewrite put_range_app by done. rewrite zlen_app, <- app_assoc.
  by rewrite !drop_app_length' by lia.
Qed.

Lemma emits_ret {A} (a : A) : emits (mret a) [] a.
Proof. intros pre rest _. unfold mret, eff_ret. by rewrite app_nil_r, drop_0. Qed.

Lemma emits_bind {A B} (m : eff Sink A) (k : A -> eff Sink B) l l' a b :
  emits m l a -> emits (k a) l' b -> emits (m ≫= k) (l ++ l') b.
Proof.
  intros Hm Hk pre rest Hl. rewrite zlen_app in Hl. pose proof (zlen_nonneg l'). unfold mbind, eff_bind.
  rewrite Hm by lia. rewrite Hk by (rewrite zlen_drop; unfold zlen in *; lia).
  by rewrite drop_drop, length_app, <- app_assoc.
Qed.

Lemma emits_put_bind {B} err (k : unit -> eff Sink B) l l' b :
  emits (k ()) l' b -> emits (sink_put err l ≫= k) (l ++ l') b.
Proof. apply emits_bind, emits_put. Qed.

Lemma emits_lift {A B} (a : A) (k : A -> eff Sink B) l b : emits (k a) l b -> emits (lift (Ok a) ≫= k) l b.
Proof. intros Hk. exact Hk. Qed.

Lemma emits_eq {A} (m : eff Sink A) l l' a : emits m l a -> l = l' -> emits m l' a.
Proof. by intros H <-. Qed.

Ltac emit := repeat first [apply emits_put_bind | apply emits_lift | apply emits_put | apply emits_ret].

(** ** Writing all or refusing *)

(** [m] appends [l] where it fits and is refused with [err] where it does not. *)
Definition writes {A} (err : Error) (m : eff Sink A) (l : list Z) (a : A) : Prop :=
  emits m l a /\ forall pre rest, zlen rest < zlen l -> exists s, m (at_sink pre rest) = (s, Err err).

Lemma sink_writes_put err l : writes err (sink_put err l) l ().
Proof.
  split; [apply emits_put|]. intros pre rest Hl. eexists. unfold sink_put, at_sink. cbn [sk_out sk_at].
  rewrite get_range_None; [done| |rewrite zlen_app; lia]. pose proof (zlen_nonneg l). lia.
Qed.

Lemma writes_ret {A} err (a : A) : writes err (mret a) [] a.
Proof. split; [apply emits_ret|]. intros pre rest Hl. pose proof (zlen_nonneg rest). change (zlen []) with 0 in Hl. lia. Qed.

Lemma sink_writes_bind {A B} err (m : eff Sink A) (k : A -> eff Sink B) l l' a b :
  writes err m l a -> writes err (k a) l' b -> writes err (m ≫= k) (l ++ l') b.
Proof.
  intros [Hm Fm] [Hk Fk]. split; [by eapply emits_bind|]. intros pre rest Hl. rewrite zlen_app in Hl. unfold mbind, eff_bind.
  destruct (Z.le_gt_cases (zlen l) (zlen rest)) as [Hle|Hgt].
  - rewrite Hm by done. apply Fk. rewrite zlen_drop. unfold zlen in *. lia.
  - destruct (Fm pre rest Hgt) as [s ->]. by exists s.
Qed.

Lemma writes_eq {A} err (m : eff Sink A) l l' a : writes err m l a -> l = l' -> writes err m l' a.
Proof. by intros H <-. Qed.
