(* ===== verification/Png.v ===== *)
(** Writing a pointer image as a PNG (crates/core/src/png.rs), against a reader of
    the format: what is written is read back as the rows it came from, and the
    bound callers size their buffers by is enough. *)

From S2P Require Import Prelude CoreError Crc32 Effect.

Definition CHANNELS : Z := 4.
Definition BLOCK : Z := 0xFFFF.

(** Products and sums of [usize] as a release build computes them. *)
Definition umul (a b : Z) : Z := wrap USIZE (a * b).
Definition uadd (a b : Z) : Z := wadd USIZE a b.

Definition upper_bound (width height : Z) : Z :=
  let raw := umul height (uadd 1 (umul width CHANNELS)) in
  uadd (uadd (8 + 25 + 12 + 12 + 6) raw) (umul 5 (uadd (raw / BLOCK) 1)).

(** ** [Adler32] *)

Record Adler32 := mkAdler32 { ad_low : Z; ad_high : Z }.

Definition Adler32_new : Adler32 := mkAdler32 1 0.

Definition adler_byte (a : Adler32) (byte : Z) : Adler32 :=
  let low := (ad_low a + byte) mod 65521 in
  mkAdler32 low ((ad_high a + low) mod 65521).

Definition Adler32_update (a : Adler32) (bytes : list Z) : Adler32 := foldl adler_byte a bytes.

Definition Adler32_finish (a : Adler32) : Z := Z.lor (Z.shiftl (ad_high a) 16) (ad_low a).

(** ** Writing *)

(** [png::put]. *)
Definition png_put (bytes : list Z) : eff Sink unit := sink_put Malformed bytes.

Definition png_chunk (name body : list Z) : eff Sink unit :=
  length ← lift (ok_or (try_from 32 (zlen body)) Malformed);
  _ ← png_put (to_be 4 length);
  _ ← png_put name;
  _ ← png_put body;
  png_put (to_be 4 (Crc32_finish (Crc32_update (Crc32_update Crc32_new name) body))).

(** The locals of [data] that outlive a turn of its loops. *)
Record Scan := mkScan { sc_row : Z; sc_column : Z; sc_adler : Adler32 }.

(** The inner loop: [left] more bytes of the filtered rows. *)
Fixpoint run_loop (fuel : nat) (pixels : list Z) (row_bytes stride left : Z) (c : Scan) : eff Sink Scan :=
  match fuel with
  | O => mret c
  | S fuel' =>
      if left <=? 0 then mret c
      else if sc_column c =? 0 then
        _ ← png_put [0];
        run_loop fuel' pixels row_bytes stride (left - 1) (mkScan (sc_row c) 1 (Adler32_update (sc_adler c) [0]))
      else
        let taken := Z.min left (row_bytes - (sc_column c - 1)) in
        let from := uadd (umul (sc_row c) stride) (sc_column c - 1) in
        slice ← lift (ok_or (get_range pixels from (uadd from taken)) Malformed);
        _ ← png_put slice;
        let adler := Adler32_update (sc_adler c) slice in
        let column := sc_column c + taken in
        run_loop fuel' pixels row_bytes stride (left - taken)
          (if column - 1 =? row_bytes then mkScan (sc_row c + 1) 0 adler else mkScan (sc_row c) column adler)
  end.

(** The outer loop: one stored block a turn. *)
Fixpoint block_loop (fuel : nat) (pixels : list Z) (row_bytes stride raw written : Z) (c : Scan) : eff Sink Scan :=
  match fuel with
  | O => mret c
  | S fuel' =>
      if raw <=? written then mret c
      else
      let run := Z.min BLOCK (raw - written) in
      _ ← png_put [if written + run =? raw then 1 else 0];
      length ← lift (ok_or (try_from 16 run) Malformed);
      _ ← png_put (to_le 2 length);
      _ ← png_put (to_le 2 (Z.lxor length 0xFFFF));
      c ← run_loop (Z.to_nat run) pixels row_bytes stride run c;
      block_loop fuel' pixels row_bytes stride raw (written + run) c
  end.

Definition NAME_IHDR : list Z := [73; 72; 68; 82].
Definition NAME_IDAT : list Z := [73; 68; 65; 84].
Definition NAME_IEND : list Z := [73; 69; 78; 68].
Definition SIGNATURE : list Z := [0x89; 80; 78; 71; 0x0D; 0x0A; 0x1A; 0x0A].

(** The chunk's checksum, and its length in the place reserved for it. *)
Definition data_close (length_at body_at : Z) : eff Sink unit :=
  s ← ask;
  body ← lift (ok_or (get_range (sk_out s) body_at (sk_at s)) Malformed);
  let checksum := Crc32_finish (Crc32_update Crc32_new body) in
  length ← lift (ok_or (try_from 32 (sk_at s - body_at - 4)) Malformed);
  _ ← (fun s => match get_range (sk_out s) length_at (length_at + 4) with
                | None => (s, Err Malformed)
                | Some _ => (mkSink (put_range (sk_out s) length_at (to_be 4 length)) (sk_at s), Ok ())
                end);
  png_put (to_be 4 checksum).

Definition png_data (pixels : list Z) (width height stride : Z) : eff Sink unit :=
  let row_bytes := umul width CHANNELS in
  let raw := umul height (uadd 1 row_bytes) in
  s ← ask;
  let length_at := sk_at s in
  _ ← png_put [0; 0; 0; 0];
  s ← ask;
  let body_at := sk_at s in
  _ ← png_put NAME_IDAT;
  _ ← png_put [0x78; 0x01];
  c ← block_loop (Z.to_nat (raw / BLOCK + 1)) pixels row_bytes stride raw 0 (mkScan 0 0 Adler32_new);
  _ ← png_put (to_be 4 (Adler32_finish (sc_adler c)));
  data_close length_at body_at.

(** [png::encode]. *)
Definition png_encode (pixels : list Z) (width height stride : Z) (out : list Z) : list Z * result Z :=
  if (width =? 0) || (height =? 0) then (out, Err Malformed)
  else
  let '(s, res) :=
    (_ ← png_put SIGNATURE;
     _ ← png_chunk NAME_IHDR (to_be 4 width ++ to_be 4 height ++ [8; 6; 0; 0; 0]);
     _ ← png_data pixels width height stride;
     _ ← png_chunk NAME_IEND [];
     s ← ask;
     mret (sk_at s)) (mkSink out 0) in
  (sk_out s, res).

(** ** A reader of the format *)

(** The first [n] bytes, and the rest. *)
Definition split_off (n : Z) (l : list Z) : option (list Z * list Z) :=
  if (0 <=? n) && (n <=? zlen l) then Some (take (Z.to_nat n) l, drop (Z.to_nat n) l) else None.

Definition read_chunk (l : list Z) : option (list Z * list Z * list Z) :=
  '(len, l) ← split_off 4 l;
  '(name, l) ← split_off 4 l;
  '(body, l) ← split_off (from_be len) l;
  '(crc, l) ← split_off 4 l;
  if from_be crc =? crc32_of (name ++ body) then Some (name, body, l) else None.

(** Stored deflate blocks, to the last. *)
Fixpoint inflate_stored (fuel : nat) (l : list Z) : option (list Z * list Z) :=
  match fuel with
  | O => None
  | S fuel' =>
      '(final, l) ← split_off 1 l;
      '(len, l) ← split_off 2 l;
      '(nlen, l) ← split_off 2 l;
      if negb (Z.lxor (from_le len) 0xFFFF =? from_le nlen) then None
      else
      '(stored, l) ← split_off (from_le len) l;
      match final with
      | [1] => Some (stored, l)
      | [0] => '(more, l) ← inflate_stored fuel' l; Some (stored ++ more, l)
      | _ => None
      end
  end.

Definition read_zlib (l : list Z) : option (list Z) :=
  '(head, l) ← split_off 2 l;
  if negb (bool_decide (head = [0x78; 0x01])) then None
  else
  '(raw, l) ← inflate_stored (S (length l)) l;
  if bool_decide (l = to_be 4 (Adler32_finish (Adler32_update Adler32_new raw))) then Some raw else None.

(** The rows of an unfiltered image. *)
Fixpoint read_rows (n : nat) (row_bytes : Z) (l : list Z) : option (list (list Z)) :=
  match n with
  | O => match l with [] => Some [] | _ => None end
  | S n' =>
      match l with
      | 0 :: l => '(row, l) ← split_off row_bytes l; rows ← read_rows n' row_bytes l; Some (row :: rows)
      | _ => None
      end
  end.

Record Picture := mkPicture { pc_width : Z; pc_height : Z; pc_rows : list (list Z) }.

(** An eight-bit truecolour picture with alpha, neither filtered nor interlaced. *)
Definition read_png (l : list Z) : option Picture :=
  '(sig, l) ← split_off 8 l;
  if negb (bool_decide (sig = SIGNATURE)) then None
  else
  '(n1, header, l) ← read_chunk l;
  '(n2, body, l) ← read_chunk l;
  '(n3, last, l) ← read_chunk l;
  if negb (bool_decide (n1 = NAME_IHDR /\ n2 = NAME_IDAT /\ n3 = NAME_IEND /\ last = [] /\ l = [])) then None
  else
  '(w, header) ← split_off 4 header;
  '(h, header) ← split_off 4 header;
  if negb (bool_decide (header = [8; 6; 0; 0; 0])) then None
  else
  raw ← read_zlib body;
  rows ← read_rows (Z.to_nat (from_be h)) (4 * from_be w) raw;
  Some (mkPicture (from_be w) (from_be h) rows).

Example png_sample :
  let '(out, res) := png_encode (map Z.of_nat (seq 0 40)) 2 3 16 (repeat 9 200) in
  match res with Ok n => read_png (take (Z.to_nat n) out) | Err _ => None end =
    Some (mkPicture 2 3 [[0;1;2;3;4;5;6;7]; [16;17;18;19;20;21;22;23]; [32;33;34;35;36;37;38;39]]).
Proof. vm_compute. reflexivity. Qed.

(** ** The format, as bytes *)

Definition chunk_wire (name body : list Z) : list Z :=
  to_be 4 (zlen body) ++ name ++ body ++ to_be 4 (crc32_of (name ++ body)).

Lemma crc32_app name body :
  Crc32_finish (Crc32_update (Crc32_update Crc32_new name) body) = crc32_of (name ++ body).
Proof. unfold crc32_of, Crc32_update. cbn [crc_reg]. by rewrite foldl_app. Qed.

Lemma chunk_emits name body : fits 32 (zlen body) -> emits (png_chunk name body) (chunk_wire name body) ().
Proof.
  intros Hf. unfold png_chunk. rewrite try_from_ok by done. cbn [ok_or]. unfold chunk_wire. rewrite crc32_app. emit.
Qed.

(** The rows, each behind its filter marker. *)
Definition filtered (rows : list (list Z)) : list Z := concat (map (cons 0) rows).

(** What is left to write from a row and a column. *)
Definition from_scan (rows : list (list Z)) (row column : nat) : list Z :=
  match column with
  | O => filtered (drop row rows)
  | S c => drop c (default [] (rows !! row)) ++ filtered (drop (S row) rows)
  end.

Lemma from_scan_marker rows row : (row < length rows)%nat -> from_scan rows row 0 = 0 :: from_scan rows row 1.
Proof.
  intros [x Hx]%lookup_lt_is_Some. cbn. rewrite Hx. cbn [default from_option id]. rewrite drop_0.
  by rewrite (drop_S rows x row Hx).
Qed.

Lemma from_scan_split rows row c n x :
  rows !! row = Some x -> (c + n <= length x)%nat ->
  from_scan rows row (S c) = take n (drop c x) ++
    (if decide (c + n = length x)%nat then from_scan rows (S row) 0 else from_scan rows row (S (c + n))).
Proof.
  intros Hx Hn. cbn. rewrite Hx. cbn [default from_option id]. destruct (decide _) as [E|_].
  - rewrite take_ge by (rewrite length_drop; lia). done.
  - rewrite app_assoc. f_equal. rewrite <- (take_drop n (drop c x)) at 1. by rewrite drop_drop.
Qed.

(** Stored blocks: each the whole of what is left, up to the largest. *)
Definition stored_block (run : list Z) (final : bool) : list Z :=
  [if final then 1 else 0] ++ to_le 2 (zlen run) ++ to_le 2 (Z.lxor (zlen run) 0xFFFF) ++ run.

Fixpoint stored_wire (fuel : nat) (raw : list Z) : list Z :=
  match fuel, raw with
  | O, _ | _, [] => []
  | S fuel', _ =>
      let rest := drop (Z.to_nat BLOCK) raw in
      stored_block (take (Z.to_nat BLOCK) raw) (bool_decide (rest = [])) ++ stored_wire fuel' rest
  end.

Lemma stored_wire_cons fuel raw :
  raw <> [] -> stored_wire (S fuel) raw =
    stored_block (take (Z.to_nat BLOCK) raw) (bool_decide (drop (Z.to_nat BLOCK) raw = [])) ++
    stored_wire fuel (drop (Z.to_nat BLOCK) raw).
Proof. by destruct raw. Qed.

Lemma zlen_stored_block run final : zlen (stored_block run final) = zlen run + 5.
Proof. unfold stored_block. rewrite !zlen_app, !zlen_to_le. change (zlen [_]) with 1. lia. Qed.

Lemma zlen_stored_wire fuel raw :
  zlen raw < Z.of_nat fuel * BLOCK -> zlen (stored_wire fuel raw) <= zlen raw + 5 * (zlen raw / BLOCK + 1).
Proof.
  revert raw. induction fuel as [|fuel IH]; intros raw Hf; [pose proof (zlen_nonneg raw); lia|].
  destruct (decide (raw = [])) as [->|Hne]; [by vm_compute|]. rewrite stored_wire_cons by done. rewrite zlen_app, zlen_stored_block.
  unfold BLOCK in *. pose proof (zlen_nonneg raw).
  destruct (Z.le_gt_cases (zlen raw) 65535) as [Hle|Hgt].
  - rewrite drop_ge, take_ge by (unfold zlen in *; lia).
    assert (zlen (stored_wire fuel []) = 0) as -> by (by destruct fuel). assert (0 <= zlen raw / 65535) by (by apply Z.div_pos). lia.
  - specialize (IH (drop (Z.to_nat 65535) raw)). rewrite zlen_drop in IH. rewrite zlen_take.
    replace (Z.max 0 (zlen raw - Z.of_nat (Z.to_nat 65535))) with (zlen raw - 65535) in IH by lia.
    replace (Z.min (Z.of_nat (Z.to_nat 65535)) (zlen raw)) with 65535 by lia.
    specialize (IH ltac:(lia)). replace (zlen raw / 65535) with ((zlen raw - 65535) / 65535 + 1); [lia|].
    replace (zlen raw) with (zlen raw - 65535 + 1 * 65535) at 2 by lia. rewrite Z.div_add by lia. lia.
Qed.

Lemma data_close_eq pre z body rest :
  zlen z = 4 -> 4 <= zlen rest -> 4 <= zlen body -> fits 32 (zlen body - 4) ->
  data_close (zlen pre) (zlen pre + 4) (at_sink (pre ++ z ++ body) rest) =
    (at_sink (pre ++ to_be 4 (zlen body - 4) ++ body ++ to_be 4 (crc32_of body)) (drop 4 rest), Ok ()).
Proof.
  intros Hz Hr Hb Hf. unfold data_close. rewrite ask_step. unfold at_sink at 1 2 3. cbn [sk_out sk_at].
  rewrite (app_assoc pre z), <- (app_assoc (pre ++ z)). rewrite get_range_mid by (rewrite !zlen_app; lia). cbn [ok_or].
  rewrite (lift_step _ _ _ body eq_refl).
  rewrite (lift_step _ _ _ (zlen body - 4)) by (rewrite !zlen_app, try_from_ok; [cbn; f_equal; lia|unfold fits in *; lia]).
  unfold at_sink. rewrite <- !app_assoc.
  rewrite (eff_step _ _ _ (at_sink (pre ++ to_be 4 (zlen body - 4) ++ body) rest) ()).
  - unfold png_put. rewrite emits_put by (by rewrite zlen_to_be). rewrite length_to_be, <- !app_assoc. unfold at_sink. by rewrite <- !app_assoc.
  - cbn [sk_out sk_at]. rewrite get_range_mid by lia. rewrite put_range_app by done.
    rewrite drop_app_length' by (rewrite length_to_be; unfold zlen in Hz; lia). unfold at_sink.
    rewrite <- !app_assoc. do 2 f_equal. rewrite !zlen_app, zlen_to_be. lia.
Qed.

Lemma bind_five {A B C E} (m1 m2 : eff Sink A) (m3 : eff Sink B) (m4 : B -> eff Sink C) (k : eff Sink E) s s' c :
  (_ ← m1; _ ← m2; x ← m3; m4 x) s = (s', Ok c) -> (_ ← m1; _ ← m2; x ← m3; _ ← m4 x; k) s = k s'.
Proof.
  unfold mbind, eff_bind. destruct (m1 s) as [s1 [a1|]]; [|done]. destruct (m2 s1) as [s2 [a2|]]; [|done].
  destruct (m3 s2) as [s3 [a3|]]; [|done]. destruct (m4 a3 s3) as [s4 [a4|]]; [|done]. by intros [= -> _].
Qed.

Section rows.
  Context (pixels : list Z) (width height stride : Z).
  Hypothesis Hw : 0 < width < 2 ^ 32.
  Hypothesis Hh : 0 < height < 2 ^ 32.
  Hypothesis Hs : 0 <= stride.
  Hypothesis Hp : (height - 1) * stride + 4 * width <= zlen pixels < 2 ^ 63.

(** The rows of the picture, as the stride finds them. *)
Definition picture_row (i : nat) : list Z := take (Z.to_nat (4 * width)) (drop (Z.to_nat (Z.of_nat i * stride)) pixels).
Definition picture_rows : list (list Z) := map picture_row (seq 0 (Z.to_nat height)).

Lemma length_picture_rows : length picture_rows = Z.to_nat height.
Proof. unfold picture_rows. by rewrite length_map, length_seq. Qed.

Lemma row_in_range i : (i < Z.to_nat height)%nat -> Z.of_nat i * stride + 4 * width <= zlen pixels.
Proof. intros Hi. assert (Z.of_nat i * stride <= (height - 1) * stride) by (apply Z.mul_le_mono_nonneg_r; lia). lia. Qed.

Lemma picture_rows_lookup i : (i < Z.to_nat height)%nat -> picture_rows !! i = Some (picture_row i).
Proof. intros Hi. unfold picture_rows. rewrite list_lookup_fmap, lookup_seq_lt by done. done. Qed.

Lemma length_picture_row i : (i < Z.to_nat height)%nat -> length (picture_row i) = Z.to_nat (4 * width).
Proof. intros Hi. pose proof (row_in_range i Hi). unfold picture_row. rewrite length_take, length_drop. unfold zlen in *. lia. Qed.

(** A run inside one row, read from the source picture. *)
Lemma row_slice row c n :
  (row < Z.to_nat height)%nat -> (c + n <= Z.to_nat (4 * width))%nat ->
  let from := uadd (umul (Z.of_nat row) stride) (Z.of_nat (S c) - 1) in
  get_range pixels from (uadd from (Z.of_nat n)) = Some (take n (drop c (picture_row row))).
Proof.
  intros Hr Hc from. pose proof (row_in_range row Hr) as Hin.
  assert (from = Z.of_nat row * stride + Z.of_nat c) as ->.
  { unfold from, uadd, umul, wadd. rewrite !wrap_small; unfold fits; try lia. rewrite wrap_small; unfold fits; lia. }
  unfold uadd, wadd. rewrite wrap_small by (unfold fits; lia).
  rewrite get_range_eq by lia. f_equal. unfold picture_row. rewrite skipn_firstn_comm, take_take, drop_drop.
  f_equal; [lia|f_equal; lia].
Qed.

Local Abbreviation rows := picture_rows.
Local Abbreviation rb := (4 * width).

Lemma scan_row row column : column <> O \/ from_scan rows row column <> [] ->
  (column <> O -> (row < Z.to_nat height)%nat) -> (row < Z.to_nat height)%nat.
Proof.
  intros H Hc. destruct column as [|c]; [|by apply Hc]. destruct H as [|H]; [done|].
  apply Nat.nle_gt. intros Hle. apply H. cbn. rewrite drop_ge by (rewrite length_picture_rows; lia). done.
Qed.

Lemma run_loop_emits fuel left row column a :
  (Z.to_nat left <= fuel)%nat -> 0 <= left <= zlen (from_scan rows row column) ->
  (column <= Z.to_nat rb)%nat -> (column <> O -> (row < Z.to_nat height)%nat) ->
  exists row' column',
    emits (run_loop fuel pixels rb stride left (mkScan (Z.of_nat row) (Z.of_nat column) a))
      (take (Z.to_nat left) (from_scan rows row column))
      (mkScan (Z.of_nat row') (Z.of_nat column') (Adler32_update a (take (Z.to_nat left) (from_scan rows row column)))) /\
    from_scan rows row' column' = drop (Z.to_nat left) (from_scan rows row column) /\
    (column' <= Z.to_nat rb)%nat /\ (column' <> O -> (row' < Z.to_nat height)%nat).
Proof.
  revert left row column a. induction fuel as [|fuel IH]; intros left row column a Hf Hl Hc Hr.
  { assert (left = 0) as -> by lia. exists row, column. cbn [Z.to_nat take run_loop]. split; [apply emits_ret|done]. }
  cbn [run_loop sc_column sc_row sc_adler]. destruct (Z.leb_spec left 0) as [Hz|Hz].
  { assert (left = 0) as -> by lia. exists row, column. split; [apply emits_ret|done]. }
  assert (row < Z.to_nat height)%nat as Hrow.
  { apply (scan_row row column); [|done]. right. intros E. rewrite E in Hl. change (zlen []) with 0 in Hl. lia. }
  destruct column as [|c].
  - cbn [Z.of_nat Z.eqb]. rewrite from_scan_marker in * by (rewrite length_picture_rows; lia). rewrite zlen_cons in Hl.
    destruct (IH (left - 1) row 1%nat (Adler32_update a [0]) ltac:(lia) ltac:(lia) ltac:(lia) ltac:(done))
      as (row' & column' & E1 & E2 & E3 & E4).
    exists row', column'. replace (Z.to_nat left) with (S (Z.to_nat (left - 1))) by lia. cbn [take drop].
    split; [|done]. apply (emits_eq _ ([0] ++ take (Z.to_nat (left - 1)) (from_scan rows row 1))); [|done].
    apply emits_put_bind. exact E1.
  - rewrite (proj2 (Z.eqb_neq _ _)) by lia. set (n := Z.to_nat (Z.min left (rb - (Z.of_nat (S c) - 1)))).
    assert (Z.min left (rb - (Z.of_nat (S c) - 1)) = Z.of_nat n) as -> by (unfold n; lia).
    rewrite row_slice by lia. cbn [ok_or].
    pose proof (from_scan_split rows row c n (picture_row row) (picture_rows_lookup row Hrow)) as Es.
    rewrite length_picture_row in Es by done. specialize (Es ltac:(lia)).
    set (slice := take n (drop c (picture_row row))) in *.
    assert (length slice = n) as Hn by (unfold slice; rewrite length_take, length_drop, length_picture_row by done; lia).
    set (row1 := if decide (c + n = Z.to_nat rb)%nat then S row else row).
    set (column1 := if decide (c + n = Z.to_nat rb)%nat then O else S (c + n)).
    assert (from_scan rows row (S c) = slice ++ from_scan rows row1 column1) as E0
      by (rewrite Es; unfold row1, column1; by destruct (decide _)).
    assert ((if Z.of_nat (S c) + Z.of_nat n - 1 =? rb
             then mkScan (Z.of_nat row + 1) 0 (Adler32_update a slice)
             else mkScan (Z.of_nat row) (Z.of_nat (S c) + Z.of_nat n) (Adler32_update a slice)) =
            mkScan (Z.of_nat row1) (Z.of_nat column1) (Adler32_update a slice)) as Eif.
    { unfold row1, column1. destruct (Z.eqb_spec (Z.of_nat (S c) + Z.of_nat n - 1) rb), (decide (c + n = Z.to_nat rb)%nat);
        try lia; f_equal; lia. }
    rewrite E0, zlen_app in Hl. unfold zlen in Hl at 1. rewrite Hn in Hl.
    destruct (IH (left - Z.of_nat n) row1 column1 (Adler32_update a slice)) as (row' & column' & E1 & E2 & E3 & E4);
      [lia|lia|unfold column1; destruct (decide _); lia|unfold row1, column1; by destruct (decide _)|].
    exists row', column'. rewrite E0.
    rewrite take_app_ge, drop_app_ge by lia. rewrite Hn.
    replace (Z.to_nat left - n)%nat with (Z.to_nat (left - Z.of_nat n)) by lia.
    split; [|split; [exact E2|done]]. apply emits_lift, emits_put_bind. cbv zeta. rewrite Eif.
    unfold Adler32_update in *. rewrite foldl_app. exact E1.
Qed.

Lemma block_loop_emits fuel raw written row column a :
  let left := from_scan rows row column in
  raw - written = zlen left -> zlen left <= Z.of_nat fuel * BLOCK ->
  (column <= Z.to_nat rb)%nat -> (column <> O -> (row < Z.to_nat height)%nat) ->
  exists row' column',
    emits (block_loop fuel pixels rb stride raw written (mkScan (Z.of_nat row) (Z.of_nat column) a))
      (stored_wire fuel left) (mkScan row' column' (Adler32_update a left)).
Proof.
  revert written row column a. induction fuel as [|fuel IH]; intros written row column a left Hw0 Hf Hc Hr.
  { assert (left = []) as -> by (destruct left; [done|rewrite zlen_cons in Hf; pose proof (zlen_nonneg left); lia]).
    eexists _, _. apply emits_ret. }
  cbn [block_loop]. destruct (Z.leb_spec raw written) as [Hz|Hz].
  { assert (left = []) as -> by (destruct left; [done|rewrite zlen_cons in Hw0; pose proof (zlen_nonneg left); lia]).
    exists (Z.of_nat row), (Z.of_nat column). apply emits_ret. }
  set (run := Z.min BLOCK (raw - written)). assert (0 <= run <= zlen left) as Hrun by (unfold run, BLOCK in *; lia).
  destruct (run_loop_emits (Z.to_nat run) run row column a ltac:(lia) Hrun Hc Hr) as (row1 & column1 & E1 & E2 & E3 & E4).
  fold left in E1, E2.
  assert (take (Z.to_nat run) left = take (Z.to_nat BLOCK) left /\ drop (Z.to_nat run) left = drop (Z.to_nat BLOCK) left) as [Et Ed].
  { unfold run, BLOCK, zlen in *. destruct (Z.le_gt_cases 65535 (raw - written)); [by rewrite Z.min_l by lia|].
    rewrite Z.min_r by lia. by rewrite !take_ge, !drop_ge by lia. }
  rewrite Et in E1. rewrite Ed in E2.
  destruct (IH (written + run) row1 column1 (Adler32_update a (take (Z.to_nat BLOCK) left))) as (row2 & column2 & E5).
  { rewrite E2, zlen_drop. unfold run, BLOCK in *. lia. }
  { rewrite E2, zlen_drop. unfold BLOCK in *. lia. }
  { done. } { done. }
  rewrite E2 in E5. exists row2, column2.
  assert (left <> []) as Hne by (intros Hl; rewrite Hl in Hw0; change (zlen []) with 0 in Hw0; lia).
  rewrite stored_wire_cons by done. unfold stored_block.
  assert (zlen (take (Z.to_nat BLOCK) left) = run) as Elen by (rewrite zlen_take; unfold run, BLOCK in *; lia).
  rewrite Elen. rewrite <- !app_assoc.
  assert ((if written + run =? raw then 1 else 0) = (if bool_decide (drop (Z.to_nat BLOCK) left = []) then 1 else 0)) as ->.
  { destruct (Z.eqb_spec (written + run) raw) as [E|E]; [rewrite bool_decide_eq_true_2|rewrite bool_decide_eq_false_2]; try done.
    - apply drop_ge. unfold run, BLOCK, zlen in *. lia.
    - intros Hd. apply (f_equal length) in Hd. rewrite length_drop in Hd. cbn in Hd. unfold run, BLOCK, zlen in *. lia. }
  apply emits_put_bind. rewrite try_from_ok by (unfold fits, run, BLOCK; lia). apply emits_lift, emits_put_bind, emits_put_bind.
  eapply emits_bind; [exact E1|].
  assert (Adler32_update a left = Adler32_update (Adler32_update a (take (Z.to_nat BLOCK) left)) (drop (Z.to_nat BLOCK) left)) as ->
    by (unfold Adler32_update; by rewrite <- foldl_app, take_drop).
  exact E5.
Qed.

Lemma zlen_filtered l : Forall (fun row => length row = Z.to_nat rb) l -> zlen (filtered l) = zlen l * (1 + rb).
Proof.
  induction 1 as [|row l Hrow _ IH]; [done|]. unfold filtered in *. cbn [map concat]. rewrite zlen_app, !zlen_cons, IH.
  unfold zlen at 1. rewrite Hrow. lia.
Qed.

Lemma zlen_filtered_rows : zlen (filtered rows) = height * (1 + rb).
Proof.
  rewrite zlen_filtered; [unfold zlen; rewrite length_picture_rows; lia|].
  apply Forall_lookup. intros i x Hi. pose proof (lookup_lt_Some _ _ _ Hi) as Hlt.
  rewrite length_picture_rows in Hlt. rewrite picture_rows_lookup in Hi by done. injection Hi as <-. by apply length_picture_row.
Qed.

(** ** The image data *)

Hypothesis Hfit : height * (1 + 4 * width) < 2 ^ 31.

Local Abbreviation raw := (filtered rows).

Definition zlib_wire : list Z :=
  [0x78; 0x01] ++ stored_wire (Z.to_nat (zlen raw / BLOCK + 1)) raw ++
  to_be 4 (Adler32_finish (Adler32_update Adler32_new raw)).

Lemma zlen_zlib_wire : zlen zlib_wire <= 6 + zlen raw + 5 * (zlen raw / BLOCK + 1).
Proof.
  unfold zlib_wire. rewrite !zlen_app, zlen_to_be. change (zlen [120; 1]) with 2.
  pose proof (zlen_stored_wire (Z.to_nat (zlen raw / BLOCK + 1)) raw) as H. pose proof (zlen_nonneg raw).
  unfold BLOCK in *. pose proof (Z.mul_succ_div_gt (zlen raw) 65535 ltac:(lia)). assert (0 <= zlen raw / 65535) by (by apply Z.div_pos).
  specialize (H ltac:(lia)). lia.
Qed.

Lemma data_emits : emits (png_data pixels width height stride) (chunk_wire NAME_IDAT zlib_wire) ().
Proof.
  pose proof zlen_filtered_rows as Eraw. pose proof (zlen_nonneg raw).
  assert (0 <= 65535 * (zlen raw / BLOCK) <= zlen raw) as Hdiv
    by (unfold BLOCK; pose proof (Z.mul_div_le (zlen raw) 65535 ltac:(lia)); assert (0 <= zlen raw / 65535) by (by apply Z.div_pos); lia).
  pose proof zlen_zlib_wire as Hz. pose proof (zlen_nonneg zlib_wire) as Hz0. rewrite Eraw in Hz, Hdiv.
  assert (zlen zlib_wire < 2 ^ 32) as Hz32 by lia.
  unfold png_data, CHANNELS. assert (umul width 4 = rb) as -> by (unfold umul; rewrite wrap_small; unfold fits; lia).
  assert (umul height (uadd 1 rb) = zlen raw) as ->
    by (rewrite Eraw; unfold uadd, wadd; rewrite (wrap_small USIZE (1 + rb)) by (unfold fits; lia);
        unfold umul; rewrite wrap_small; unfold fits; lia).
  destruct (block_loop_emits (Z.to_nat (zlen raw / BLOCK + 1)) (zlen raw) 0 0 0 Adler32_new) as (row' & column' & E).
  { change (from_scan rows 0 0) with raw. lia. }
  { change (from_scan rows 0 0) with raw. unfold BLOCK in *. pose proof (Z.mul_succ_div_gt (zlen raw) 65535 ltac:(lia)). lia. }
  { lia. } { done. }
  change (from_scan rows 0 0) with raw in E. cbn [Z.of_nat] in E.
  intros pre rest Hl. unfold chunk_wire in Hl. rewrite !zlen_app, !zlen_to_be in Hl. change (zlen NAME_IDAT) with 4 in Hl.
  set (body := NAME_IDAT ++ zlib_wire).
  assert (emits (_ ← png_put NAME_IDAT; _ ← png_put [0x78; 0x01];
    c ← block_loop (Z.to_nat (zlen raw / BLOCK + 1)) pixels rb stride (zlen raw) 0 (mkScan 0 0 Adler32_new);
    png_put (to_be 4 (Adler32_finish (sc_adler c)))) body ()) as Eb.
  { unfold body, zlib_wire. do 2 apply emits_put_bind. eapply emits_bind; [exact E|]. apply emits_put. }
  set (r4 := drop 4 rest). assert (zlen body <= zlen r4) as Hb4.
  { unfold body, r4. rewrite zlen_app, zlen_drop. change (zlen NAME_IDAT) with 4. lia. }
  cbv zeta. rewrite ask_step. rewrite (eff_step _ _ _ _ _ (emits_put Malformed [0; 0; 0; 0] pre rest ltac:(change (zlen [0; 0; 0; 0]) with 4; lia))).
  rewrite ask_step. change (length [0; 0; 0; 0]) with 4%nat. fold r4.
  rewrite (bind_five _ _ _ _ _ _ _ _ (Eb (pre ++ [0; 0; 0; 0]) r4 Hb4)).
  change (sk_at (at_sink pre rest)) with (zlen pre). change (sk_at (at_sink (pre ++ [0; 0; 0; 0]) r4)) with (zlen (pre ++ [0; 0; 0; 0])).
  rewrite zlen_app. change (zlen [0; 0; 0; 0]) with 4. rewrite <- app_assoc.
  assert (zlen body = 4 + zlen zlib_wire) as Elen by (unfold body; rewrite zlen_app; done).
  assert (zlen r4 = zlen rest - 4) as E4 by (unfold r4; rewrite zlen_drop; lia).
  rewrite data_close_eq; [|done|rewrite zlen_drop; unfold zlen in *; lia|lia|unfold fits; lia].
  unfold chunk_wire, r4. rewrite !drop_drop, Elen. f_equal. f_equal.
  - unfold body. rewrite <- !app_assoc. do 2 f_equal. f_equal. lia.
  - f_equal. unfold body. rewrite !length_app, !length_to_be. cbn [length NAME_IDAT]. lia.
Qed.
End rows.

(** ** Reading it back *)

Lemma split_off_app n (l rest : list Z) : zlen l = n -> split_off n (l ++ rest) = Some (l, rest).
Proof.
  intros <-. unfold split_off. pose proof (zlen_nonneg l). pose proof (zlen_nonneg rest).
  rewrite (proj2 (Z.leb_le 0 _)), (proj2 (Z.leb_le _ _)) by (rewrite ?zlen_app; lia). cbn [andb].
  by rewrite take_app_length', drop_app_length' by (unfold zlen; lia).
Qed.

Lemma crc32_fits l : bytes_ok l -> fits 32 (crc32_of l).
Proof. intros Hl. unfold crc32_of, Crc32_finish, Crc32_update. cbn [crc_reg]. apply lxor_fits; [lia| |done]. by apply crc_fold_fits. Qed.

Lemma read_chunk_wire name body rest :
  zlen name = 4 -> bytes_ok name -> bytes_ok body -> fits 32 (zlen body) ->
  read_chunk (chunk_wire name body ++ rest) = Some (name, body, rest).
Proof.
  intros Hn Bn Bb Hf. unfold read_chunk, chunk_wire. rewrite <- !app_assoc.
  rewrite split_off_app by (by rewrite zlen_to_be). cbn [mbind option_bind]. rewrite split_off_app by done. cbn [mbind option_bind].
  rewrite (from_to_be 4) by done. rewrite split_off_app by done. cbn [mbind option_bind].
  rewrite split_off_app by (by rewrite zlen_to_be). cbn [mbind option_bind].
  rewrite (from_to_be 4) by (apply crc32_fits; by apply Forall_app). by rewrite Z.eqb_refl.
Qed.

Lemma inflate_block run final fuel rest :
  fits 16 (zlen run) ->
  inflate_stored (S fuel) (stored_block run final ++ rest) =
    if final then Some (run, rest) else '(more, l) ← inflate_stored fuel rest; Some (run ++ more, l).
Proof.
  intros Hf. cbn [inflate_stored]. unfold stored_block. rewrite <- !app_assoc.
  rewrite split_off_app by done. cbn [mbind option_bind]. rewrite split_off_app by (by rewrite zlen_to_le). cbn [mbind option_bind].
  rewrite split_off_app by (by rewrite zlen_to_le). cbn [mbind option_bind].
  rewrite !(from_to_le 2) by (done || apply lxor_fits; done). rewrite Z.eqb_refl. cbn [negb].
  rewrite split_off_app by done. cbn [mbind option_bind]. by destruct final.
Qed.

Lemma inflate_wire fuel fuel' raw rest :
  raw <> [] -> zlen raw <= Z.of_nat fuel * BLOCK -> (fuel <= fuel')%nat ->
  inflate_stored fuel' (stored_wire fuel raw ++ rest) = Some (raw, rest).
Proof.
  revert fuel' raw. induction fuel as [|fuel IH]; intros fuel' raw Hne Hf Hle.
  { destruct raw; [done|]. rewrite zlen_cons in Hf. pose proof (zlen_nonneg raw). lia. }
  destruct fuel' as [|fuel']; [lia|]. rewrite stored_wire_cons by done. rewrite <- app_assoc, inflate_block.
  2: { pose proof (zlen_nonneg raw). rewrite zlen_take. unfold fits, BLOCK. lia. }
  case_bool_decide as Hd.
  - rewrite Hd. assert (stored_wire fuel [] = []) as -> by (by destruct fuel).
    rewrite <- (take_drop (Z.to_nat BLOCK) raw) at 2. by rewrite Hd, app_nil_r.
  - rewrite IH by (done || lia || (rewrite zlen_drop; unfold BLOCK in *; lia)). cbn [mbind option_bind]. by rewrite take_drop.
Qed.

Lemma length_stored_wire fuel raw :
  zlen raw <= Z.of_nat fuel * BLOCK -> (length raw <= length (stored_wire fuel raw))%nat.
Proof.
  revert raw. induction fuel as [|fuel IH]; intros raw Hf; [unfold zlen in Hf; lia|].
  destruct (decide (raw = [])) as [->|Hne]; [cbn; lia|]. rewrite stored_wire_cons by done. rewrite length_app.
  specialize (IH (drop (Z.to_nat BLOCK) raw)). rewrite zlen_drop in IH. specialize (IH ltac:(unfold BLOCK in *; lia)).
  rewrite length_drop in IH. pose proof (zlen_stored_block (take (Z.to_nat BLOCK) raw) (bool_decide (drop (Z.to_nat BLOCK) raw = []))) as E.
  rewrite zlen_take in E. unfold zlen in *. lia.
Qed.

Lemma read_rows_filtered rb rows :
  Forall (fun row => zlen row = rb) rows -> read_rows (length rows) rb (filtered rows) = Some rows.
Proof.
  induction 1 as [|row rows Hrow _ IH]; [done|]. unfold filtered in *. cbn [length map concat read_rows app].
  rewrite split_off_app by done. cbn [mbind option_bind]. by rewrite IH.
Qed.

Section written.
  Context (pixels : list Z) (width height stride : Z).
  Hypothesis Hw : 0 < width < 2 ^ 32.
  Hypothesis Hh : 0 < height < 2 ^ 32.
  Hypothesis Hs : 0 <= stride.
  Hypothesis Hp : (height - 1) * stride + 4 * width <= zlen pixels < 2 ^ 63.
  Hypothesis Hb : bytes_ok pixels.
  Hypothesis Hfit : height * (1 + 4 * width) < 2 ^ 31.

Local Abbreviation rows := (picture_rows pixels width height stride).
Local Abbreviation zlib := (zlib_wire pixels width height stride).

Lemma rows_bytes : Forall bytes_ok rows.
Proof.
  apply Forall_lookup. intros i x Hi. pose proof (lookup_lt_Some _ _ _ Hi) as Hlt. rewrite length_picture_rows in Hlt.
  rewrite picture_rows_lookup in Hi by done. injection Hi as <-. by apply Forall_take, Forall_drop.
Qed.

Lemma filtered_bytes l : Forall bytes_ok l -> bytes_ok (filtered l).
Proof.
  induction 1 as [|x l Hx _ IH]; [constructor|]. unfold filtered in *. cbn [map concat]. apply Forall_app. split; [|done].
  constructor; [done|exact Hx].
Qed.

Lemma stored_bytes fuel l : bytes_ok l -> bytes_ok (stored_wire fuel l).
Proof.
  revert l. induction fuel as [|fuel IH]; intros l Hl; [constructor|].
  destruct (decide (l = [])) as [->|]; [constructor|]. rewrite stored_wire_cons by done. unfold stored_block.
  repeat (apply Forall_app; split); try apply to_le_ok; [|by apply Forall_take|by apply IH, Forall_drop].
  constructor; [by case_bool_decide|constructor].
Qed.

Lemma zlib_bytes : bytes_ok zlib.
Proof.
  unfold zlib_wire. apply Forall_app. split; [repeat constructor; done|]. apply Forall_app. split; [|apply to_be_ok].
  apply stored_bytes, filtered_bytes, rows_bytes.
Qed.

Lemma zlib_bound : zlen zlib <= 6 + height * (1 + 4 * width) + 5 * (height * (1 + 4 * width) / BLOCK + 1) /\ zlen zlib < 2 ^ 32.
Proof.
  pose proof (zlen_zlib_wire pixels width height stride) as Hz. rewrite zlen_filtered_rows in Hz by done. split; [done|].
  pose proof (Z.mul_div_le (height * (1 + 4 * width)) 65535 ltac:(lia)). unfold BLOCK in Hz. lia.
Qed.

Lemma read_zlib_wire : read_zlib zlib = Some (filtered rows).
Proof.
  unfold read_zlib, zlib_wire. rewrite split_off_app by done. cbn [mbind option_bind]. rewrite bool_decide_eq_true_2 by done. cbn [negb].
  pose proof (zlen_filtered_rows pixels width height stride Hw Hh Hs Hp) as E. pose proof (zlen_nonneg (filtered rows)) as H0.
  pose proof (Z.mul_succ_div_gt (zlen (filtered rows)) 65535 ltac:(lia)) as Hm.
  assert (0 <= zlen (filtered rows) / 65535) by (apply Z.div_pos; lia).
  assert (zlen (filtered rows) <= Z.of_nat (Z.to_nat (zlen (filtered rows) / BLOCK + 1)) * BLOCK) as Hle by (unfold BLOCK; lia).
  rewrite inflate_wire; [|intros Hn; rewrite Hn in E; change (zlen []) with 0 in E; lia|done|].
  - cbn [mbind option_bind]. by rewrite bool_decide_eq_true_2.
  - pose proof (length_stored_wire _ _ Hle). rewrite length_app. unfold BLOCK.
    assert (zlen (filtered rows) / 65535 <= zlen (filtered rows)) by (apply Z.div_le_upper_bound; lia). unfold BLOCK, zlen in *. lia.
Qed.

Definition IHDR_body : list Z := to_be 4 width ++ to_be 4 height ++ [8; 6; 0; 0; 0].

Definition png_wire : list Z :=
  SIGNATURE ++ chunk_wire NAME_IHDR IHDR_body ++ chunk_wire NAME_IDAT zlib ++ chunk_wire NAME_IEND [].

Lemma zlen_png_wire : zlen png_wire <= upper_bound width height.
Proof.
  unfold png_wire, chunk_wire, IHDR_body. rewrite !zlen_app, !zlen_to_be. change (zlen SIGNATURE) with 8.
  change (zlen NAME_IHDR) with 4. change (zlen NAME_IDAT) with 4. change (zlen NAME_IEND) with 4. change (zlen [8; 6; 0; 0; 0]) with 5.
  change (zlen []) with 0. destruct zlib_bound as [Hz _]. set (raw := height * (1 + 4 * width)) in *.
  assert (0 <= raw / BLOCK <= raw) as Hd by (unfold raw, BLOCK; split; [apply Z.div_pos; lia|apply Z.div_le_upper_bound; lia]).
  unfold upper_bound, uadd, umul, wadd, CHANNELS. rewrite (wrap_small USIZE (width * 4)) by (unfold fits; lia).
  rewrite (wrap_small USIZE (1 + width * 4)) by (unfold fits; lia).
  replace (height * (1 + width * 4)) with raw by (unfold raw; lia).
  rewrite (wrap_small USIZE raw), (wrap_small USIZE (raw / BLOCK + 1)), (wrap_small USIZE (8 + 25 + 12 + 12 + 6 + raw)), (wrap_small USIZE (5 * _))
    by (unfold fits; lia).
  rewrite wrap_small by (unfold fits; lia). lia.
Qed.

Lemma png_encode_eq out :
  zlen png_wire <= zlen out ->
  png_encode pixels width height stride out = (png_wire ++ drop (length png_wire) out, Ok (zlen png_wire)).
Proof.
  intros Ho. unfold png_encode. rewrite (proj2 (Z.eqb_neq width 0)), (proj2 (Z.eqb_neq height 0)) by lia. cbn [orb].
  assert (emits (_ ← png_put SIGNATURE; _ ← png_chunk NAME_IHDR IHDR_body; _ ← png_data pixels width height stride;
    png_chunk NAME_IEND []) png_wire ()) as E.
  { unfold png_wire. apply emits_put_bind. eapply emits_bind; [by apply chunk_emits|].
    eapply emits_bind; [by apply data_emits|]. by apply chunk_emits. }
  change (mkSink out 0) with (at_sink [] out). fold IHDR_body.
  rewrite (bind_five _ _ _ (fun _ => png_chunk NAME_IEND []) _ _ _ _ (E [] out Ho)). done.
Qed.

Lemma read_png_wire : read_png png_wire = Some (mkPicture width height rows).
Proof.
  unfold read_png, png_wire. rewrite split_off_app by done. cbn [mbind option_bind]. rewrite bool_decide_eq_true_2 by done. cbn [negb].
  destruct zlib_bound as [_ Hz]. pose proof (zlen_nonneg zlib).
  assert (bytes_ok IHDR_body) as Bi by (apply Forall_app; split; [apply to_be_ok|apply Forall_app; split; [apply to_be_ok|repeat constructor; done]]).
  rewrite read_chunk_wire by (first [done | repeat constructor; done]). cbn [mbind option_bind].
  rewrite read_chunk_wire by (first [done | apply zlib_bytes | unfold fits; lia | repeat constructor; done]). cbn [mbind option_bind].
  rewrite <- (app_nil_r (chunk_wire NAME_IEND [])). rewrite read_chunk_wire by (first [done | repeat constructor; done]). cbn [mbind option_bind].
  rewrite bool_decide_eq_true_2 by done. cbn [negb]. unfold IHDR_body.
  rewrite split_off_app by (by rewrite zlen_to_be). cbn [mbind option_bind]. rewrite split_off_app by (by rewrite zlen_to_be). cbn [mbind option_bind].
  rewrite bool_decide_eq_true_2 by done. cbn [negb]. rewrite read_zlib_wire. cbn [mbind option_bind].
  rewrite !(from_to_be 4) by (unfold fits; lia). rewrite <- (length_picture_rows pixels width height stride).
  rewrite read_rows_filtered; [done|]. apply Forall_lookup. intros i x Hi. pose proof (lookup_lt_Some _ _ _ Hi) as Hlt.
  rewrite length_picture_rows in Hlt. rewrite picture_rows_lookup in Hi by done. injection Hi as <-. unfold zlen.
  rewrite (length_picture_row pixels width height stride) by done. lia.
Qed.
End written.

(** A pointer image survives its encoding.  A picture of at least one pixel
    whose rows lie inside the source at the given stride is written into any buffer of
    the size callers allocate for it, nothing behind it touched, and what is written
    is a PNG that a reader of the format, checking every chunk's CRC, the
    stored blocks' lengths and the stream's Adler checksum, reads back as exactly those
    rows; so equal pictures have equal encodings, which a peer's cache is keyed on,
    wherever in a larger source they came from. *)
Theorem png_roundtrip (pixels out : list Z) (width height stride : Z) :
  0 < width < 2 ^ 32 -> 0 < height < 2 ^ 32 -> 0 <= stride -> height * (1 + 4 * width) < 2 ^ 31 ->
  (height - 1) * stride + 4 * width <= zlen pixels < 2 ^ 63 -> bytes_ok pixels ->
  upper_bound width height <= zlen out ->
  let rows := picture_rows pixels width height stride in
  exists wire, png_encode pixels width height stride out = (wire ++ drop (length wire) out, Ok (zlen wire)) /\
    zlen wire <= upper_bound width height /\ read_png wire = Some (mkPicture width height rows) /\
    forall pixels' stride', 0 <= stride' -> (height - 1) * stride' + 4 * width <= zlen pixels' < 2 ^ 63 ->
      picture_rows pixels' width height stride' = rows ->
      png_encode pixels' width height stride' out = (wire ++ drop (length wire) out, Ok (zlen wire)).
Proof.
  intros Hw Hh Hs Hfit Hp Hb Ho rows.
  pose proof (zlen_png_wire pixels width height stride Hw Hh Hs Hp Hfit) as Hl.
  exists (png_wire pixels width height stride). split; [by apply png_encode_eq; [..|lia]|]. split; [done|].
  split; [by apply read_png_wire|]. intros pixels' stride' Hs' Hp' Er.
  assert (png_wire pixels width height stride = png_wire pixels' width height stride') as Ew
    by (unfold png_wire, zlib_wire; by rewrite Er).
  rewrite Ew in Hl |- *. by apply png_encode_eq; [..|lia].
Qed.

Lemma png_roundtrip_witness :
  exists wire, png_encode (map Z.of_nat (seq 0 40)) 2 3 16 (repeat 9 200) = (wire ++ drop (length wire) (repeat 9 200), Ok (zlen wire)) /\
    read_png wire = Some (mkPicture 2 3 [[0;1;2;3;4;5;6;7]; [16;17;18;19;20;21;22;23]; [32;33;34;35;36;37;38;39]]).
Proof.
  assert (zlen (map Z.of_nat (seq 0 40)) = 40) as El by reflexivity.
  assert (bytes_ok (map Z.of_nat (seq 0 40))) as Bp by (repeat constructor; done).
  assert (upper_bound 2 3 <= zlen (repeat 9 200)) as Ho by (vm_compute; discriminate).
  destruct (png_roundtrip (map Z.of_nat (seq 0 40)) (repeat 9 200) 2 3 16 ltac:(lia) ltac:(lia) ltac:(lia) ltac:(lia)
    ltac:(rewrite El; lia) Bp Ho) as (wire & E & _ & R & _).
  exists wire. split; [exact E|]. rewrite R. vm_compute. reflexivity.
Defined.
