(* ===== verification/Init.v ===== *)
(** The connecting side's declared preferences (crates/core/src/init.rs): a flat
    object read by key name, and the object a client writes. *)

From Stdlib Require Import String Ascii.
From S2P Require Import Prelude CoreError Effect.

(** A string literal's bytes. *)
Fixpoint text (s : string) : list Z :=
  match s with
  | EmptyString => []
  | String a s => Z.of_N (N_of_ascii a) :: text s
  end.
#[global] Arguments text : simpl never.

Definition VERSION : Z := 1.
Definition NO_LIMIT : Z := 60000.
Definition FLAG_HEVC : Z := 0x01.
Definition FLAG_COLOR444 : Z := 0x02.
Definition FLAG_FULL_RANGE : Z := 0x08.
Definition FLAG_10BIT : Z := 0x10.

Record Init := mkInit {
  in_version : Z;
  in_max_width : Z;
  in_max_height : Z;
  in_flags : Z;
  in_resolution_x : Z;
  in_resolution_y : Z;
  in_media_container : Z;
  in_refresh_rate : Z;
  in_channels : Z;
  in_channel_mask : Z;
  in_caches_cursor : bool;
  in_raw_audio : bool;
  in_video_protocol_version : Z;
}.

Definition Init_hevc (i : Init) : bool := negb (Z.land (in_flags i) FLAG_HEVC =? 0).
Definition Init_color444 (i : Init) : bool := negb (Z.land (in_flags i) FLAG_COLOR444 =? 0).
Definition Init_ten_bit (i : Init) : bool := negb (Z.land (in_flags i) FLAG_10BIT =? 0).
Definition Init_announces_keyframes (i : Init) : bool := negb (in_video_protocol_version i =? 0).
Definition Init_has_preferred_size (i : Init) : bool :=
  negb (in_resolution_x i =? 0) && negb (in_resolution_y i =? 0).
Definition Init_has_size_limit (i : Init) : bool :=
  negb (in_max_width i =? NO_LIMIT) && negb (in_max_height i =? NO_LIMIT) &&
  negb (in_max_width i =? 0) && negb (in_max_height i =? 0).

(** ** Reading *)

Definition QUOTE : Z := 34.
Definition COLON : Z := 58.

Definition is_space (byte : Z) : bool := (byte =? 32) || (byte =? 9) || (byte =? 10) || (byte =? 13).

(** [while body.get(cursor).is_some_and(is_space) { cursor += 1 }]. *)
Fixpoint skip_space (fuel : nat) (body : list Z) (cursor : Z) : Z :=
  match fuel with
  | O => cursor
  | S fuel' =>
      match get_at body cursor with
      | Some b => if is_space b then skip_space fuel' body (cursor + 1) else cursor
      | None => cursor
      end
  end.

(** [rest.iter().position(|byte| *byte == value)]. *)
Fixpoint byte_position (value : Z) (l : list Z) : option Z :=
  match l with
  | [] => None
  | b :: l => if b =? value then Some 0 else n ← byte_position value l; Some (n + 1)
  end.

(** The loop of [value_after], from [at_]. *)
Fixpoint value_after_loop (fuel : nat) (body key : list Z) (at_ : Z) : option (list Z) :=
  match fuel with
  | O => None
  | S fuel' =>
      if zlen body <? at_ + zlen key + 2 then None
      else
      rest ← get_range body at_ (zlen body);
      offset ← byte_position QUOTE rest;
      let quote := at_ + offset in
      name ← get_range body (quote + 1) (quote + 1 + zlen key);
      let closing := get_at body (quote + 1 + zlen key) in
      if bool_decide (name = key) && bool_decide (closing = Some QUOTE) then
        let cursor := skip_space (S (length body)) body (quote + 2 + zlen key) in
        if negb (bool_decide (get_at body cursor = Some COLON)) then value_after_loop fuel' body key (quote + 1)
        else
        let cursor := skip_space (S (length body)) body (cursor + 1) in
        get_range body cursor (zlen body)
      else value_after_loop fuel' body key (quote + 1)
  end.

Definition value_after (body key : list Z) : option (list Z) := value_after_loop (S (length body)) body key 0.

Definition is_digit (byte : Z) : bool := (48 <=? byte) && (byte <=? 57).

(** The loop of [number]: the value and how many digits made it. *)
Fixpoint number_loop (bytes : list Z) (value digits : Z) : Z * Z :=
  match bytes with
  | [] => (value, digits)
  | byte :: bytes =>
      if negb (is_digit byte) then (value, digits)
      else number_loop bytes (sat_add 32 (Z.min (value * 10) (2 ^ 32 - 1)) (byte - 48)) (digits + 1)
  end.

Definition number (bytes : list Z) (fallback : Z) : Z :=
  let '(value, digits) := number_loop bytes 0 0 in if digits =? 0 then fallback else value.

Definition init_field (body : list Z) (key : string) (fallback : Z) : Z :=
  match value_after body (text key) with
  | None => fallback
  | Some rest => number rest fallback
  end.

Definition truth (body : list Z) (key : string) : bool :=
  match value_after body (text key) with
  | None => false
  | Some rest => bool_decide (take 4 rest = text "true")
  end.

(** [split_last] and the terminator. *)
Definition strip_nul (body : list Z) : list Z :=
  match get_at body (zlen body - 1) with
  | Some 0 => take (length body - 1) body
  | _ => body
  end.

Definition init_parse (body : list Z) : result Init :=
  let body := strip_nul body in
  if negb (bool_decide (head body = Some 123)) then Err Malformed
  else
  let version := init_field body "_version" 0 in
  if negb (version =? VERSION) then Err Malformed
  else Ok {|
    in_version := version;
    in_max_width := init_field body "_max_w" 0;
    in_max_height := init_field body "_max_h" 0;
    in_flags := init_field body "_flags" 0;
    in_resolution_x := init_field body "resolutionX" 0;
    in_resolution_y := init_field body "resolutionY" 0;
    in_media_container := init_field body "mediaContainer" 0;
    in_refresh_rate := init_field body "refreshRate" 60;
    in_channels := init_field body "channels" 2;
    in_channel_mask := init_field body "channelMask" 3;
    in_caches_cursor := truth body "_cache_cursor";
    in_raw_audio := truth body "rawAudio";
    in_video_protocol_version := init_field body "_VideoProtocolVersion" 0;
  |}.

(** ** Writing *)

(** [init::Writer]. *)
Definition InitWriter_put (bytes : list Z) : eff Sink unit := sink_put BufferTooSmall bytes.

Definition InitWriter_key (key : list Z) : eff Sink unit :=
  let '(comma, name) := match key with 44 :: name => (true, name) | _ => (false, key) end in
  _ ← (if comma : bool then InitWriter_put (text ",") else mret ());
  _ ← InitWriter_put [QUOTE];
  _ ← InitWriter_put name;
  InitWriter_put [QUOTE; COLON].

(** The loop that writes the digits from the end of the scratch buffer. *)
Fixpoint digits_loop (fuel : nat) (digits : list Z) (start rest : Z) : list Z * Z :=
  match fuel with
  | O => (digits, start)
  | S fuel' =>
      let start := start - 1 in
      let digits := match get_at digits start with
                    | Some _ => put_at digits start (48 + rest mod 10)
                    | None => digits
                    end in
      let rest := rest / 10 in
      if rest =? 0 then (digits, start) else digits_loop fuel' digits start rest
  end.

Definition InitWriter_number (key : string) (value : Z) : eff Sink unit :=
  _ ← InitWriter_key (text key);
  let '(digits, start) := digits_loop 10 (repeat 0 10) 10 value in
  InitWriter_put (default [] (get_range digits start (zlen digits))).

Definition InitWriter_truth (key : string) (value : bool) : eff Sink unit :=
  _ ← InitWriter_key (text key);
  InitWriter_put (if value then text "true" else text "false").

(** One turn of the loop over the streams' sizes. *)
Definition put_resolution (stream width height : Z) : eff Sink unit :=
  _ ← (if negb (stream =? 0) then InitWriter_put (text ",") else mret ());
  _ ← InitWriter_put (text "{");
  _ ← InitWriter_number "width" width;
  _ ← InitWriter_number ",height" height;
  InitWriter_put (text "}").

(** The calls of [encode] on its writer, in order. *)
Definition init_write (init : Init) : eff Sink unit :=
  _ ← InitWriter_put (text "{");
  _ ← InitWriter_number "_version" (in_version init);
  _ ← InitWriter_number ",_max_w" (in_max_width init);
  _ ← InitWriter_number ",_max_h" (in_max_height init);
  _ ← InitWriter_number ",_flags" (in_flags init);
  _ ← InitWriter_number ",resolutionX" (in_resolution_x init);
  _ ← InitWriter_number ",resolutionY" (in_resolution_y init);
  _ ← InitWriter_number ",mediaContainer" (in_media_container init);
  _ ← InitWriter_number ",refreshRate" (in_refresh_rate init);
  _ ← InitWriter_number ",channels" (in_channels init);
  _ ← InitWriter_number ",channelMask" (in_channel_mask init);
  _ ← InitWriter_truth ",rawAudio" (in_raw_audio init);
  _ ← InitWriter_truth ",_cache_cursor" (in_caches_cursor init);
  _ ← InitWriter_number ",_VideoProtocolVersion" (in_video_protocol_version init);
  _ ← InitWriter_put ([44; QUOTE] ++ text "resolutions" ++ [QUOTE] ++ text ":[");
  _ ← put_resolution 0 (in_resolution_x init) (in_resolution_y init);
  _ ← put_resolution 1 0 0;
  _ ← put_resolution 2 0 0;
  InitWriter_put (text "]}" ++ [0]).

Definition init_encode (out : list Z) (init : Init) : list Z * result Z :=
  match init_write init (mkSink out 0) with
  | (w, Ok _) => (sk_out w, Ok (sk_at w))
  | (w, Err e) => (sk_out w, Err e)
  end.

Definition sample_init : Init := mkInit 1 60000 60000 17 1920 1080 0 60 2 3 true false 4294967295.
Example init_sample :
  match init_encode (repeat 9 400) sample_init with
  | (out, Ok n) => init_parse (take (Z.to_nat n) out)
  | (_, Err e) => Err e
  end = Ok sample_init.
Proof. vm_compute. reflexivity. Qed.

(** ** Reading by key, as a reference *)

Fixpoint drop_space (l : list Z) : list Z :=
  match l with
  | [] => []
  | b :: l' => if is_space b then drop_space l' else l
  end.

(** What follows the first ["key"] that a colon follows. *)
Fixpoint find_key (key l : list Z) : option (list Z) :=
  match l with
  | [] => None
  | b :: l' =>
      if (b =? QUOTE) && bool_decide (take (S (length key)) l' = key ++ [QUOTE]) then
        match drop_space (drop (S (length key)) l') with
        | c :: rest => if c =? COLON then Some (drop_space rest) else find_key key l'
        | [] => find_key key l'
        end
      else find_key key l'
  end.

Lemma drop_space_split l : exists sp, l = sp ++ drop_space l.
Proof.
  induction l as [|b l [sp IH]]; [by exists []|]. cbn [drop_space]. destruct (is_space b); [|by exists []].
  exists (b :: sp). cbn. by f_equal.
Qed.

Lemma skip_space_eq fuel pre l sp :
  (length l < fuel)%nat -> l = sp ++ drop_space l -> skip_space fuel (pre ++ l) (zlen pre) = zlen (pre ++ sp).
Proof.
  revert pre l sp. induction fuel as [|fuel IH]; intros pre l sp Hf Hl; [lia|]. cbn [skip_space].
  destruct l as [|b l].
  { destruct sp; [|done]. rewrite !app_nil_r. destruct (get_at pre (zlen pre)) eqn:E; [|done].
    apply get_at_lt in E; [lia|apply zlen_nonneg]. }
  rewrite get_at_mid by done. cbn [drop_space] in Hl. destruct (is_space b).
  - destruct sp as [|b' sp].
    { apply (f_equal length) in Hl. cbn in Hl. destruct (drop_space_split l) as [s E]. apply (f_equal length) in E.
      rewrite length_app in E. lia. }
    injection Hl as <- Hl. specialize (IH (pre ++ [b]) l sp). rewrite <- !app_assoc in IH. rewrite zlen_app in IH.
    change (zlen [b]) with 1 in IH. apply IH; [cbn in Hf; lia|done].
  - assert (sp = []) as ->; [|by rewrite app_nil_r]. apply (f_equal length) in Hl. rewrite length_app in Hl.
    destruct sp; [done|cbn in Hl; lia].
Qed.

Lemma find_key_short key l : zlen l < zlen key + 3 -> find_key key l = None.
Proof.
  induction l as [|b l IH]; intros H; [done|]. rewrite zlen_cons in H. cbn [find_key].
  destruct (_ && _) eqn:E; [|apply IH; lia]. apply andb_true_iff in E as [_ E%bool_decide_eq_true].
  destruct (drop_space_split (drop (S (length key)) l)) as [sp Es]. apply (f_equal length) in E, Es.
  rewrite length_app, length_drop in Es. rewrite length_take, length_app in E. cbn [length] in E. unfold zlen in H.
  destruct (drop_space _) as [|c rest]; [apply IH; unfold zlen; lia|cbn in Es; lia].
Qed.

Lemma byte_position_spec v l :
  match byte_position v l with
  | None => Forall (fun b => b <> v) l
  | Some n => exists a l', l = a ++ v :: l' /\ n = zlen a /\ Forall (fun b => b <> v) a
  end.
Proof.
  induction l as [|b l IH]; [constructor|]. cbn [byte_position]. destruct (Z.eqb_spec b v) as [->|Hb].
  { by exists [], l. }
  destruct (byte_position v l) as [n|]; cbn; [|by constructor]. destruct IH as (a & l' & -> & -> & Ha).
  exists (b :: a), l'. rewrite zlen_cons. split; [done|]. split; [lia|]. by constructor.
Qed.

Lemma find_key_skip key a l : Forall (fun b => b <> QUOTE) a -> find_key key (a ++ l) = find_key key l.
Proof.
  induction 1 as [|b a Hb _ IH]; [done|]. cbn [app find_key]. by rewrite (proj2 (Z.eqb_neq b QUOTE)) by done.
Qed.

Lemma value_after_loop_eq fuel pre l key :
  (length l < fuel)%nat -> value_after_loop fuel (pre ++ l) key (zlen pre) = find_key key l.
Proof.
  revert pre l. induction fuel as [|fuel IH]; intros pre l Hf; [lia|]. cbn [value_after_loop].
  pose proof (zlen_nonneg key). pose proof (zlen_nonneg pre).
  destruct (Z.ltb_spec (zlen (pre ++ l)) (zlen pre + zlen key + 2)) as [Hs|Hs]; rewrite zlen_app in Hs.
  { by rewrite find_key_short by lia. }
  rewrite get_range_drop by (rewrite zlen_app; pose proof (zlen_nonneg l); lia).
  rewrite drop_app_length' by (unfold zlen; lia). cbn [mbind option_bind].
  pose proof (byte_position_spec QUOTE l) as Hb. destruct (byte_position QUOTE l) as [n|]; cbn [mbind option_bind].
  2: { rewrite <- (app_nil_r l), find_key_skip by done. done. }
  destruct Hb as (a & l' & -> & -> & Ha). rewrite find_key_skip by done. cbn [find_key]. rewrite Z.eqb_refl. cbn [andb].
  rewrite length_app in Hf. cbn [length] in Hf.
  assert (pre ++ a ++ QUOTE :: l' = ((pre ++ a) ++ [QUOTE]) ++ l') as Ebody by (by rewrite <- !app_assoc).
  assert (zlen pre + zlen a + 1 = zlen ((pre ++ a) ++ [QUOTE])) as Equote by (rewrite !zlen_app; done).
  assert (value_after_loop fuel (pre ++ a ++ QUOTE :: l') key (zlen pre + zlen a + 1) = find_key key l') as Enext
    by (rewrite Ebody, Equote; apply IH; lia).
  destruct (Z.lt_ge_cases (zlen l') (zlen key)) as [Hshort|Hlong].
  { rewrite (get_range_None _ (zlen pre + zlen a + 1) (zlen pre + zlen a + 1 + zlen key)) by (rewrite ?zlen_app, ?zlen_cons; lia).
    cbn [mbind option_bind].
    rewrite bool_decide_eq_false_2; [by rewrite find_key_short by lia|]. intros E. apply (f_equal length) in E.
    rewrite length_take, length_app in E. change (length [QUOTE]) with 1%nat in E. unfold zlen in *. lia. }
  assert (get_range (pre ++ a ++ QUOTE :: l') (zlen pre + zlen a + 1) (zlen pre + zlen a + 1 + zlen key) =
    Some (take (length key) l')) as ->.
  { rewrite Ebody. rewrite <- (take_drop (length key) l') at 1.
    rewrite get_range_mid; [done|done|]. rewrite zlen_take. unfold zlen in *. lia. }
  cbn [mbind option_bind].
  assert (get_at (pre ++ a ++ QUOTE :: l') (zlen pre + zlen a + 1 + zlen key) = l' !! length key) as Ecl.
  { rewrite Ebody. unfold get_at. rewrite lookup_app_r by (unfold zlen in *; lia). f_equal. unfold zlen in *. lia. }
  rewrite Ecl. assert (bool_decide (take (length key) l' = key) && bool_decide (l' !! length key = Some QUOTE) =
    bool_decide (take (S (length key)) l' = key ++ [QUOTE])) as ->.
  { apply eq_bool_prop_intro. rewrite andb_True, !bool_decide_spec. split.
    - intros [E1 E2]. by rewrite (take_S_r _ _ _ E2), E1.
    - intros E. destruct (l' !! length key) as [q|] eqn:Eq.
      + rewrite (take_S_r _ _ _ Eq) in E. by apply app_inj_tail in E as [-> ->].
      + apply lookup_ge_None in Eq. rewrite take_ge in E by lia. apply (f_equal length) in E. rewrite length_app in E. change (length [QUOTE]) with 1%nat in E. lia. }
  case_bool_decide as Em; [|exact Enext].
  set (r := drop (S (length key)) l'). destruct (drop_space_split r) as [sp Esp].
  assert (pre ++ a ++ QUOTE :: l' = (((pre ++ a) ++ [QUOTE]) ++ take (S (length key)) l') ++ r) as Ebody2
    by (rewrite Ebody, <- (app_assoc _ (take _ _)); unfold r; by rewrite take_drop).
  set (p := ((pre ++ a) ++ [QUOTE]) ++ take (S (length key)) l') in *.
  assert (zlen pre + zlen a + 2 + zlen key = zlen p) as ->.
  { unfold p. rewrite zlen_app, <- Equote, Em, zlen_app. change (zlen [QUOTE]) with 1. lia. }
  rewrite Ebody2 in *. rewrite (skip_space_eq _ p r sp) by (done || rewrite length_app; lia).
  assert (p ++ r = (p ++ sp) ++ drop_space r) as Ebody3 by (rewrite <- app_assoc, <- Esp; done).
  rewrite Ebody3 in *. destruct (drop_space r) as [|c rest].
  - rewrite bool_decide_eq_false_2; [exact Enext|]. rewrite app_nil_r. intros E. apply get_at_lt in E; [lia|apply zlen_nonneg].
  - rewrite get_at_mid by done. destruct (Z.eqb_spec c COLON) as [->|Hc].
    + rewrite bool_decide_eq_true_2 by done. cbn [negb]. destruct (drop_space_split rest) as [sp2 Esp2].
      assert ((p ++ sp) ++ COLON :: rest = ((p ++ sp) ++ [COLON]) ++ rest) as -> by (by rewrite <- (app_assoc (p ++ sp) [COLON])).
      assert (zlen (p ++ sp) + 1 = zlen ((p ++ sp) ++ [COLON])) as -> by (rewrite (zlen_app (p ++ sp)); done).
      rewrite (skip_space_eq _ _ rest sp2) by (done || rewrite length_app; lia).
      assert (((p ++ sp) ++ [COLON]) ++ rest = (((p ++ sp) ++ [COLON]) ++ sp2) ++ drop_space rest) as ->
        by (by rewrite <- (app_assoc _ sp2), <- Esp2).
      rewrite get_range_drop by (rewrite (zlen_app (_ ++ sp2)); pose proof (zlen_nonneg (drop_space rest));
        pose proof (zlen_nonneg (((p ++ sp) ++ [COLON]) ++ sp2)); lia).
      by rewrite drop_app_length' by (unfold zlen; lia).
    + rewrite bool_decide_eq_false_2 by (by intros [= ->]). exact Enext.
Qed.

Lemma value_after_eq body key : value_after body key = find_key key body.
Proof. apply (value_after_loop_eq _ [] body key). lia. Qed.

(** ** Numbers in decimal *)

Definition dec_value (acc : Z) (l : list Z) : Z := fold_left (fun acc b => acc * 10 + (b - 48)) l acc.
Definition digit_list (l : list Z) : Prop := Forall (fun b => 48 <= b <= 57) l.

Lemma dec_value_cons acc b l : dec_value acc (b :: l) = dec_value (acc * 10 + (b - 48)) l.
Proof. done. Qed.

Lemma dec_value_mono acc l : digit_list l -> 0 <= acc -> acc <= dec_value acc l.
Proof.
  intros Hl. revert acc. induction Hl as [|b l Hb _ IH]; intros acc Ha; [done|]. rewrite dec_value_cons.
  cbn beta in Hb. specialize (IH (acc * 10 + (b - 48)) ltac:(lia)). lia.
Qed.

(** Reading stops at the first byte that is no digit, and below 2^32 nothing
    saturates. *)
Lemma number_loop_eq l tail value digits :
  digit_list l -> 0 <= value -> dec_value value l < 2 ^ 32 -> match tail with b :: _ => is_digit b = false | [] => True end ->
  number_loop (l ++ tail) value digits = (dec_value value l, digits + zlen l).
Proof.
  intros Hl Hv Hmax Ht. revert value digits Hv Hmax. induction Hl as [|b l Hb Hl IH]; intros value digits Hv Hmax.
  - cbn [app]. replace (digits + zlen []) with digits by (change (zlen []) with 0; lia). destruct tail as [|b tail]; [done|].
    cbn [number_loop]. by rewrite Ht.
  - cbn beta in Hb. rewrite dec_value_cons in Hmax |- *. pose proof (dec_value_mono (value * 10 + (b - 48)) l Hl ltac:(lia)).
    cbn [app number_loop]. replace (is_digit b) with true by (unfold is_digit; lia). cbn [negb].
    rewrite Z.min_l by lia. unfold sat_add. rewrite Z.min_l by lia. rewrite IH by lia. rewrite zlen_cons. f_equal. lia.
Qed.

(** What [number] puts after the key. *)
Definition decimal (value : Z) : list Z :=
  let '(digits, start) := digits_loop 10 (repeat 0 10) 10 value in default [] (get_range digits start (zlen digits)).

Lemma digits_loop_eq n fuel a post v :
  length a = n -> (0 < n <= fuel)%nat -> 0 <= v < 10 ^ Z.of_nat n ->
  exists a' ds, digits_loop fuel (a ++ post) (Z.of_nat n) v = (a' ++ ds ++ post, zlen a') /\
    digit_list ds /\ ds <> [] /\ dec_value 0 ds = v /\ (length ds <= n)%nat.
Proof.
  revert fuel a post v. induction n as [|n IH]; intros fuel a post v Ha Hn Hv; [lia|]. destruct fuel as [|fuel]; [lia|].
  cbn [digits_loop]. destruct a as [|x a _] using rev_ind; [done|]. rewrite length_app in Ha. cbn in Ha.
  replace (Z.of_nat (S n) - 1) with (zlen a) by (unfold zlen; lia). rewrite <- app_assoc. cbn [app].
  rewrite get_at_mid by done. rewrite put_at_range by (rewrite zlen_app, zlen_cons; pose proof (zlen_nonneg a); pose proof (zlen_nonneg post); lia).
  rewrite put_range_app by done. cbn [length drop app]. pose proof (Z.mod_pos_bound v 10 ltac:(lia)). pose proof (Z.div_mod v 10 ltac:(lia)).
  set (d := 48 + v mod 10) in *. assert (48 <= d <= 57) as Hd by lia. destruct (Z.eqb_spec (v / 10) 0) as [Hz|Hz].
  - exists a, [d]. split; [done|]. split; [by apply Forall_singleton|]. split; [done|]. split; cbn; lia.
  - assert (0 <= v / 10 < 10 ^ Z.of_nat n) as Hv'.
    { rewrite Nat2Z.inj_succ, Z.pow_succ_r in Hv by lia. split; [apply Z.div_pos; lia|apply Z.div_lt_upper_bound; lia]. }
    destruct n as [|n]; [lia|]. destruct (IH fuel a (d :: post) (v / 10)) as (a' & ds & E & Hds & Hne & Ev & Hlen); [lia|lia|done|].
    exists a', (ds ++ [d]). replace (zlen a) with (Z.of_nat (S n)) by (unfold zlen; lia). rewrite drop_0, E, <- app_assoc. split; [done|].
    split; [by apply Forall_app; split; [|apply Forall_singleton]|]. split; [by destruct ds|].
    split; [unfold dec_value in *; rewrite fold_left_app, Ev; cbn; lia|]. rewrite length_app. cbn. lia.
Qed.

Lemma decimal_spec v : fits 32 v -> digit_list (decimal v) /\ decimal v <> [] /\ dec_value 0 (decimal v) = v /\ (length (decimal v) <= 10)%nat.
Proof.
  intros Hv. destruct (digits_loop_eq 10 10 (repeat 0 10) [] v) as (a & ds & E & H); [done|lia|unfold fits in Hv; lia|].
  unfold decimal. rewrite app_nil_r in E. change 10 with (Z.of_nat 10). rewrite E, app_nil_r. rewrite get_range_drop.
  - by rewrite drop_app_length' by (unfold zlen; lia).
  - rewrite zlen_app. pose proof (zlen_nonneg a). pose proof (zlen_nonneg ds). lia.
Qed.

Lemma number_decimal v tail fallback :
  fits 32 v -> match tail with b :: _ => is_digit b = false | [] => True end -> number (decimal v ++ tail) fallback = v.
Proof.
  intros Hv Hb. destruct (decimal_spec v Hv) as (Hd & Hne & Ev & _). unfold number. unfold fits in Hv.
  rewrite number_loop_eq by (done || lia). rewrite Ev. destruct (Z.eqb_spec (0 + zlen (decimal v)) 0) as [E|]; [|done].
  destruct (decimal v); [done|]. rewrite zlen_cons in E. pose proof (zlen_nonneg l). lia.
Qed.

(** ** The object [encode] writes *)

(** ["key":value]. *)
Definition entry (key value : list Z) : list Z := QUOTE :: key ++ QUOTE :: COLON :: value.

(** Entries, each behind its comma. *)
Fixpoint entries (l : list (list Z * list Z)) (tail : list Z) : list Z :=
  match l with
  | [] => tail
  | (key, value) :: l => 44 :: entry key value ++ entries l tail
  end.

Definition quoteless (l : list Z) : Prop := Forall (fun b => b <> QUOTE) l.

(** A key as this object has them: a byte that is neither a quote nor a colon, and
    no quote after it. *)
Definition key_ok (key : list Z) : Prop := quoteless key /\ match key with [] => False | b :: _ => b <> COLON end.

(** A value: something unquoted that no space opens. *)
Definition value_ok (value : list Z) : Prop := quoteless value /\ match value with [] => False | b :: _ => is_space b = false end.

Lemma take_quote_inj key key' x :
  quoteless key -> quoteless key' -> take (S (length key)) (key' ++ QUOTE :: x) = key ++ [QUOTE] -> key' = key.
Proof.
  intros Hk. revert key'. induction Hk as [|b key Hb _ IH]; intros key' Hk' E.
  - destruct Hk' as [|b' key' Hb' _]; [done|]. cbn in E. by injection E.
  - destruct Hk' as [|b' key' Hb' Hk']; cbn [length app] in E; rewrite firstn_cons in E; injection E as E1 E2.
    + by subst b.
    + subst b'. f_equal. by apply IH.
Qed.

Lemma find_key_here key value tail :
  value_ok value -> find_key key (entry key value ++ tail) = Some (value ++ tail).
Proof.
  intros [_ Hv]. unfold entry. cbn [app find_key]. rewrite Z.eqb_refl. cbn [andb]. rewrite <- app_assoc. cbn [app].
  rewrite bool_decide_eq_true_2.
  2: { change (key ++ QUOTE :: COLON :: value ++ tail) with (key ++ [QUOTE] ++ COLON :: value ++ tail). rewrite app_assoc.
       apply take_app_length'. rewrite length_app. cbn. lia. }
  change (key ++ QUOTE :: COLON :: value ++ tail) with (key ++ [QUOTE] ++ COLON :: value ++ tail). rewrite app_assoc.
  rewrite drop_app_length' by (rewrite length_app; cbn; lia). cbn [drop_space].
  change (is_space COLON) with false. cbn iota. rewrite Z.eqb_refl. f_equal.
  destruct value as [|b value]; [done|]. cbn [app drop_space]. by rewrite Hv.
Qed.

Lemma find_key_other key key' value tail :
  key_ok key -> quoteless key' -> quoteless value -> key' <> key ->
  find_key key (entry key' value ++ tail) = find_key key tail.
Proof.
  intros [Hk Hc] Hk' Hv Hne. unfold entry. cbn [app find_key]. rewrite Z.eqb_refl. cbn [andb]. rewrite <- app_assoc. cbn [app].
  rewrite bool_decide_eq_false_2 by (intros E; by apply Hne, (take_quote_inj _ _ (COLON :: value ++ tail))).
  rewrite find_key_skip by done. cbn [find_key]. rewrite Z.eqb_refl. cbn [andb]. rewrite bool_decide_eq_false_2.
  - change (COLON =? QUOTE) with false. cbn [andb]. by apply find_key_skip.
  - destruct key as [|b key]; [done|]. cbn [length app]. rewrite firstn_cons. by intros [= <- _].
Qed.

(** The first entry of a key's name, the value read there ending at the next comma
    or at the tail. *)
Fixpoint assoc (key : list Z) (l : list (list Z * list Z)) : option (list Z) :=
  match l with
  | [] => None
  | (k, value) :: l => if bool_decide (k = key) then Some value else assoc key l
  end.

Definition entry_ok (e : list Z * list Z) : Prop := quoteless (fst e) /\ value_ok (snd e).

(** The tail ends the last value. *)
Definition ends_value (tail : list Z) : Prop := match tail with [] => False | c :: _ => is_digit c = false end.

Lemma find_key_entries key l tail value :
  key_ok key -> Forall entry_ok l -> ends_value tail -> assoc key l = Some value ->
  exists rest, find_key key (entries l tail) = Some (value ++ rest) /\ ends_value rest.
Proof.
  intros Hk Hl Ht. induction Hl as [|[k v] l [Hq Hv] Hl IH]; [done|]. cbn [assoc entries fst snd] in *. intros E.
  change (find_key key (44 :: entry k v ++ entries l tail)) with (find_key key (entry k v ++ entries l tail)).
  case_bool_decide as Ek.
  - subst k. injection E as ->. rewrite find_key_here by done. exists (entries l tail). split; [done|]. by destruct l as [|[k' v'] l].
  - destruct Hv as [Hv _]. rewrite find_key_other by done. by apply IH.
Qed.

Definition truth_text (b : bool) : list Z := if b then text "true" else text "false".

(** The thirteen scalar entries after the version. *)
Definition init_entries (i : Init) : list (list Z * list Z) :=
  [(text "_max_w", decimal (in_max_width i)); (text "_max_h", decimal (in_max_height i));
   (text "_flags", decimal (in_flags i)); (text "resolutionX", decimal (in_resolution_x i));
   (text "resolutionY", decimal (in_resolution_y i)); (text "mediaContainer", decimal (in_media_container i));
   (text "refreshRate", decimal (in_refresh_rate i)); (text "channels", decimal (in_channels i));
   (text "channelMask", decimal (in_channel_mask i)); (text "rawAudio", truth_text (in_raw_audio i));
   (text "_cache_cursor", truth_text (in_caches_cursor i));
   (text "_VideoProtocolVersion", decimal (in_video_protocol_version i))].

Definition size_text (width height : Z) : list Z :=
  text "{" ++ entry (text "width") (decimal width) ++ 44 :: entry (text "height") (decimal height) ++ text "}".

(** The sizes per stream, and the end. *)
Definition init_tail (i : Init) : list Z :=
  44 :: entry (text "resolutions") (text "[") ++ size_text (in_resolution_x i) (in_resolution_y i) ++
  44 :: size_text 0 0 ++ 44 :: size_text 0 0 ++ text "]}".

Definition init_object (i : Init) : list Z :=
  123 :: entry (text "_version") (decimal (in_version i)) ++ entries (init_entries i) (init_tail i).

Definition init_wire (i : Init) : list Z := init_object i ++ [0].

Lemma quoted_writes name :
  writes BufferTooSmall (_ ← InitWriter_put [QUOTE]; _ ← InitWriter_put name; InitWriter_put [QUOTE; COLON])
    (QUOTE :: name ++ [QUOTE; COLON]) ().
Proof. eapply (sink_writes_bind _ _ _ [QUOTE]); [apply sink_writes_put|]. eapply sink_writes_bind; apply sink_writes_put. Qed.

Lemma key_writes_next key name :
  text key = 44 :: name -> writes BufferTooSmall (InitWriter_key (text key)) (44 :: QUOTE :: name ++ [QUOTE; COLON]) ().
Proof.
  intros ->. eapply (sink_writes_bind _ _ _ [44]); [apply sink_writes_put|apply quoted_writes].
Qed.

(** A key string with no leading comma. *)
Definition first_key (key : string) : Prop :=
  InitWriter_key (text key) =
  (_ ← mret (); _ ← InitWriter_put [QUOTE]; _ ← InitWriter_put (text key); InitWriter_put [QUOTE; COLON]).

Lemma key_writes_first key :
  first_key key -> writes BufferTooSmall (InitWriter_key (text key)) (QUOTE :: text key ++ [QUOTE; COLON]) ().
Proof. intros ->. eapply (sink_writes_bind _ _ _ []); [apply writes_ret|apply quoted_writes]. Qed.

Lemma number_bind key v l : 
  writes BufferTooSmall (InitWriter_key (text key)) l () ->
  writes BufferTooSmall (InitWriter_number key v) (l ++ decimal v) ().
Proof.
  intros H. unfold InitWriter_number. eapply sink_writes_bind; [exact H|]. unfold decimal.
  destruct (digits_loop 10 (repeat 0 10) 10 v). apply sink_writes_put.
Qed.

Lemma number_next key name v :
  text key = 44 :: name -> writes BufferTooSmall (InitWriter_number key v) (44 :: entry name (decimal v)) ().
Proof.
  intros E. eapply writes_eq; [by apply number_bind, key_writes_next|]. unfold entry. cbn [app]. by rewrite <- app_assoc.
Qed.

Lemma number_first key v :
  first_key key -> writes BufferTooSmall (InitWriter_number key v) (entry (text key) (decimal v)) ().
Proof.
  intros E. eapply writes_eq; [by apply number_bind, key_writes_first|]. unfold entry. cbn [app]. by rewrite <- app_assoc.
Qed.

Lemma truth_next key name v :
  text key = 44 :: name -> writes BufferTooSmall (InitWriter_truth key v) (44 :: entry name (truth_text v)) ().
Proof.
  intros E. eapply writes_eq; [eapply sink_writes_bind; [by apply key_writes_next|apply sink_writes_put]|].
  unfold entry. cbn [app]. by rewrite <- app_assoc.
Qed.

Lemma resolution_writes stream w h :
  writes BufferTooSmall (put_resolution stream w h) ((if stream =? 0 then [] else [44]) ++ size_text w h) ().
Proof.
  unfold put_resolution, size_text. eapply sink_writes_bind; [destruct (stream =? 0); [apply writes_ret|apply sink_writes_put]|].
  eapply sink_writes_bind; [apply sink_writes_put|]. eapply sink_writes_bind; [by apply number_first|].
  rewrite app_comm_cons. eapply sink_writes_bind; [by apply (number_next ",height" (text "height"))|apply sink_writes_put].
Qed.

Lemma init_writes i : writes BufferTooSmall (init_write i) (init_wire i) ().
Proof.
  unfold init_write. eapply writes_eq.
  { eapply sink_writes_bind; [apply sink_writes_put|]. eapply sink_writes_bind; [by apply number_first|].
    do 9 (eapply sink_writes_bind; [by apply number_next|]). do 2 (eapply sink_writes_bind; [by apply truth_next|]).
    eapply sink_writes_bind; [by apply number_next|]. eapply sink_writes_bind; [apply sink_writes_put|].
    do 3 (eapply sink_writes_bind; [apply resolution_writes|]). apply sink_writes_put. }
  unfold init_wire, init_object, init_entries, entries, init_tail.
  cbn [app Z.eqb]. repeat (rewrite <- ?app_assoc; cbn [app]). reflexivity.
Qed.

(** ** What [parse] reads *)

(** Every scalar of the object, the version first. *)
Definition init_scalars (i : Init) : list (list Z * list Z) :=
  (text "_version", decimal (in_version i)) :: init_entries i.

(** An object of these entries. *)
Definition object_of (l : list (list Z * list Z)) (tail : list Z) : list Z := 123 :: drop 1 (entries l tail).

Definition init_ok (i : Init) : Prop :=
  in_version i = VERSION /\ fits 32 (in_max_width i) /\ fits 32 (in_max_height i) /\ fits 32 (in_flags i) /\
  fits 32 (in_resolution_x i) /\ fits 32 (in_resolution_y i) /\ fits 32 (in_media_container i) /\
  fits 32 (in_refresh_rate i) /\ fits 32 (in_channels i) /\ fits 32 (in_channel_mask i) /\
  fits 32 (in_video_protocol_version i).

Lemma value_after_object key l tail value :
  key_ok key -> Forall entry_ok l -> ends_value tail -> assoc key l = Some value ->
  exists rest, value_after (object_of l tail) key = Some (value ++ rest) /\ ends_value rest.
Proof.
  intros Hk Hl Ht E. rewrite value_after_eq. unfold object_of. destruct l as [|[k v] l]; [done|].
  exact (find_key_entries key _ tail value Hk Hl Ht E).
Qed.

Lemma field_object key l tail v fallback :
  key_ok (text key) -> Forall entry_ok l -> ends_value tail -> fits 32 v -> assoc (text key) l = Some (decimal v) ->
  init_field (object_of l tail) key fallback = v.
Proof.
  intros Hk Hl Ht Hv E. destruct (value_after_object _ _ _ _ Hk Hl Ht E) as (rest & Ev & Hr).
  unfold init_field. rewrite Ev. apply number_decimal; [done|]. by destruct rest.
Qed.

Lemma truth_object key l tail b :
  key_ok (text key) -> Forall entry_ok l -> ends_value tail -> assoc (text key) l = Some (truth_text b) ->
  truth (object_of l tail) key = b.
Proof.
  intros Hk Hl Ht E. destruct (value_after_object _ _ _ _ Hk Hl Ht E) as (rest & Ev & _).
  unfold truth. rewrite Ev. by destruct b.
Qed.

Lemma strip_nul_snoc l : strip_nul (l ++ [0]) = l.
Proof.
  unfold strip_nul. rewrite get_at_mid by (rewrite zlen_app; change (zlen [0]) with 1; lia).
  apply take_app_length'. rewrite length_app. cbn. lia.
Qed.

Ltac key_ok_tac := split; [apply (bool_decide_unpack (Forall _ _)); vm_compute; exact I|vm_compute; discriminate].

(** Whatever the order of the keys and whatever keys are beside them. *)
Lemma parse_object i l tail :
  init_ok i -> Forall entry_ok l -> ends_value tail ->
  (forall key value, assoc key (init_scalars i) = Some value -> assoc key l = Some value) ->
  init_parse (object_of l tail ++ [0]) = Ok i.
Proof.
  intros (Ev & Hi) Hl Ht Hsub. destruct_and! Hi. unfold init_parse. rewrite strip_nul_snoc. cbn [object_of head].
  rewrite bool_decide_eq_true_2 by done. cbn [negb]. fold (object_of l tail).
  rewrite (field_object "_version" l tail (in_version i) 0); [|key_ok_tac|done|done|rewrite Ev; done|by apply Hsub].
  rewrite Ev, Z.eqb_refl. cbn [negb].
  rewrite (field_object "_max_w" l tail (in_max_width i)) by (done || key_ok_tac || by apply Hsub).
  rewrite (field_object "_max_h" l tail (in_max_height i)) by (done || key_ok_tac || by apply Hsub).
  rewrite (field_object "_flags" l tail (in_flags i)) by (done || key_ok_tac || by apply Hsub).
  rewrite (field_object "resolutionX" l tail (in_resolution_x i)) by (done || key_ok_tac || by apply Hsub).
  rewrite (field_object "resolutionY" l tail (in_resolution_y i)) by (done || key_ok_tac || by apply Hsub).
  rewrite (field_object "mediaContainer" l tail (in_media_container i)) by (done || key_ok_tac || by apply Hsub).
  rewrite (field_object "refreshRate" l tail (in_refresh_rate i)) by (done || key_ok_tac || by apply Hsub).
  rewrite (field_object "channels" l tail (in_channels i)) by (done || key_ok_tac || by apply Hsub).
  rewrite (field_object "channelMask" l tail (in_channel_mask i)) by (done || key_ok_tac || by apply Hsub).
  rewrite (truth_object "_cache_cursor" l tail (in_caches_cursor i)) by (done || key_ok_tac || by apply Hsub).
  rewrite (truth_object "rawAudio" l tail (in_raw_audio i)) by (done || key_ok_tac || by apply Hsub).
  rewrite (field_object "_VideoProtocolVersion" l tail (in_video_protocol_version i)) by (done || key_ok_tac || by apply Hsub).
  rewrite <- Ev. by destruct i.
Qed.

Lemma digits_quoteless l : digit_list l -> quoteless l.
Proof. intros H. eapply Forall_impl; [|exact H]. cbn. unfold QUOTE. lia. Qed.

Lemma decimal_ok v : fits 32 v -> value_ok (decimal v).
Proof.
  intros Hv. destruct (decimal_spec v Hv) as (Hd & Hne & _). split; [by apply digits_quoteless|].
  destruct (decimal v) as [|b l]; [done|]. inversion Hd as [|? ? Hb]; subst. cbn beta in Hb. unfold is_space. lia.
Qed.

Lemma truth_ok b : value_ok (truth_text b).
Proof. destruct b; (split; [apply (bool_decide_unpack (Forall _ _)); vm_compute; exact I|done]). Qed.

Lemma scalars_ok i : init_ok i -> Forall entry_ok (init_scalars i).
Proof.
  intros (Ev & Hi). destruct_and! Hi. unfold init_scalars, init_entries. rewrite Ev.
  repeat (constructor; [split; [apply (bool_decide_unpack (Forall _ _)); vm_compute; exact I|
    apply truth_ok || by apply decimal_ok]|]). constructor.
Qed.

Lemma zlen_decimal v : fits 32 v -> zlen (decimal v) <= 10.
Proof. intros Hv. destruct (decimal_spec v Hv) as (_ & _ & _ & H). unfold zlen. lia. Qed.

Lemma zlen_truth_text b : zlen (truth_text b) <= 5.
Proof. by destruct b. Qed.

Lemma zlen_entry key value : zlen (entry key value) = zlen key + zlen value + 3.
Proof. unfold entry. rewrite zlen_cons, zlen_app, !zlen_cons. lia. Qed.

Lemma zlen_size_text w h : fits 32 w -> fits 32 h -> zlen (size_text w h) <= 40.
Proof.
  intros Hw Hh. apply zlen_decimal in Hw, Hh. unfold size_text. rewrite !zlen_app, zlen_cons, zlen_app, !zlen_entry.
  change (zlen (text "{")) with 1. change (zlen (text "}")) with 1. change (zlen (text "width")) with 5. change (zlen (text "height")) with 6. lia.
Qed.

Lemma zlen_init_wire i : init_ok i -> zlen (init_wire i) <= 512.
Proof.
  intros (Ev & Hi). destruct_and! Hi. unfold init_wire, init_object, init_entries, entries, init_tail. rewrite Ev.
  repeat (rewrite ?zlen_app, ?zlen_cons, ?zlen_entry).
  pose proof (zlen_decimal VERSION). pose proof (zlen_decimal (in_max_width i)).
  pose proof (zlen_decimal (in_max_height i)). pose proof (zlen_decimal (in_flags i)).
  pose proof (zlen_decimal (in_resolution_x i)). pose proof (zlen_decimal (in_resolution_y i)).
  pose proof (zlen_decimal (in_media_container i)). pose proof (zlen_decimal (in_refresh_rate i)).
  pose proof (zlen_decimal (in_channels i)). pose proof (zlen_decimal (in_channel_mask i)).
  pose proof (zlen_decimal (in_video_protocol_version i)). pose proof (zlen_truth_text (in_raw_audio i)).
  pose proof (zlen_truth_text (in_caches_cursor i)). pose proof (zlen_size_text (in_resolution_x i) (in_resolution_y i)).
  pose proof (zlen_size_text 0 0). 
  repeat match goal with |- context [zlen (text ?k)] => let n := eval vm_compute in (zlen (text k)) in change (zlen (text k)) with n end.
  assert (fits 32 VERSION) by done. assert (fits 32 0) by done. repeat match goal with H : fits _ _ -> _ |- _ => specialize (H ltac:(assumption)) end. change (zlen []) with 0.
  lia.
Qed.

(** Written into room enough, the object is [init_wire] and reads back; with less
    room nothing but an error comes of it, and the client's 512 bytes are enough.
    An object from elsewhere reads the same whatever the order of its keys and
    whatever unknown keys stand among them. *)
Theorem init_roundtrip (i : Init) :
  init_ok i ->
  zlen (init_wire i) <= 512 /\
  (forall out, zlen (init_wire i) <= zlen out ->
    init_encode out i = (init_wire i ++ drop (length (init_wire i)) out, Ok (zlen (init_wire i)))) /\
  (forall out, zlen out < zlen (init_wire i) -> snd (init_encode out i) = Err BufferTooSmall) /\
  init_parse (init_wire i) = Ok i /\
  forall l tail, Forall entry_ok l -> ends_value tail ->
    (forall key value, assoc key (init_scalars i) = Some value -> assoc key l = Some value) ->
    init_parse (object_of l tail ++ [0]) = Ok i.
Proof.
  intros Hi. split; [by apply zlen_init_wire|]. destruct (init_writes i) as [He Hr]. split; [|split; [|split]].
  - intros out Ho. unfold init_encode. change (mkSink out 0) with (at_sink [] out). by rewrite He.
  - intros out Ho. unfold init_encode. change (mkSink out 0) with (at_sink [] out). by destruct (Hr [] out Ho) as [s ->].
  - apply (parse_object i (init_scalars i) (init_tail i)); [done|by apply scalars_ok|done|done].
  - intros l tail. by apply parse_object.
Qed.

Lemma init_roundtrip_witness :
  init_parse (init_wire sample_init) = Ok sample_init /\
  init_encode (repeat 9 512) sample_init =
    (init_wire sample_init ++ drop (length (init_wire sample_init)) (repeat 9 512), Ok (zlen (init_wire sample_init))).
Proof.
  assert (init_ok sample_init) as Hi by (unfold init_ok, fits; vm_compute; repeat split; discriminate).
  destruct (init_roundtrip sample_init Hi) as (Hl & He & _ & Hp & _). split; [exact Hp|]. apply He. exact Hl.
Defined.
