(* ===== verification/Atomic.v ===== *)
(** Shared memory as crates/common/src/sync.rs gives it to the cross-thread
    components: atomic words under the Relaxed, Acquire, Release and AcqRel
    orderings of the language, and unsynchronised cells.

    A location keeps every value it was given, oldest first; a thread keeps a view,
    how far along each history it is known to be, and a load may answer with any
    value not behind the view.  A release attaches the storing thread's view to the
    value and an acquire that reads it takes the view over.  A read-modify-write
    reads the newest value and carries on what was attached to it.  A cell access
    that the view does not order after every conflicting access is a data race.
    Which of the values a load answers with is an argument of the operation, so a
    run is a function of the choices and a claim about every run quantifies over
    them. *)

From S2P Require Import Prelude.

(** ** Views *)

Inductive Key :=
| KAtomic (l : nat)
| KWrite (c : nat)
| KRead (c tid : nat).

#[global] Instance Key_eq_dec : EqDecision Key.
Proof. solve_decision. Defined.

Definition view := Key -> nat.

Definition view_bot : view := fun _ => O.
Definition view_join (V W : view) : view := fun k => Nat.max (V k) (W k).
Definition view_at (k : Key) (n : nat) : view := fun k' => if decide (k = k') then n else O.
Definition view_le (V W : view) : Prop := forall k, (V k <= W k)%nat.

(** Advance one entry. *)
Definition view_see (V : view) (k : Key) (n : nat) : view := view_join V (view_at k n).

(** ** Memory *)

Inductive Ordering := Relaxed | Acquire | Release | AcqRel.

Definition acquires (o : Ordering) : bool := match o with Acquire | AcqRel => true | _ => false end.
Definition releases (o : Ordering) : bool := match o with Release | AcqRel => true | _ => false end.

Record Msg := mkMsg { m_val : Z; m_view : view }.

Record Cell (T : Type) := mkCell { c_val : option T; c_writes : nat; c_reads : nat -> nat }.
Arguments mkCell {_}. Arguments c_val {_}. Arguments c_writes {_}. Arguments c_reads {_}.

Record Mem (T : Type) := mkMem { m_at : nat -> list Msg; m_cell : nat -> Cell T }.
Arguments mkMem {_}. Arguments m_at {_}. Arguments m_cell {_}.

(** One entry of a map replaced. *)
Definition upd {A} (f : nat -> A) (i : nat) (a : A) : nat -> A := fun j => if decide (i = j) then a else f j.

Definition mem_init {T} (first : nat -> Z) (cell : option T) : Mem T :=
  mkMem (fun l => [mkMsg (first l) view_bot]) (fun _ => mkCell cell 0 (fun _ => O)).

Section Operations.
Context {T : Type}.
Implicit Types (m : Mem T) (V : view) (o : Ordering).

Definition m_push m (l : nat) (x : Msg) : Mem T := mkMem (upd (m_at m) l (m_at m l ++ [x])) (m_cell m).

(** [load], answering with the value at [t]. *)
Definition atomic_load m o (l t : nat) V : option (Z * view) :=
  if decide (V (KAtomic l) <= t)%nat then
    x ← m_at m l !! t;
    Some (m_val x, view_join (view_see V (KAtomic l) t) (if acquires o then m_view x else view_bot))
  else None.

(** [store]. *)
Definition atomic_store m o (l : nat) (v : Z) V : Mem T * view :=
  let t := length (m_at m l) in
  let V' := view_see V (KAtomic l) t in
  (m_push m l (mkMsg v (if releases o then V' else view_at (KAtomic l) t)), V').

(** [fetch_add], [fetch_sub], [fetch_or] and a [compare_exchange] that succeeds. *)
Definition atomic_rmw m o (l : nat) (f : Z -> Z) V : option (Z * Mem T * view) :=
  x ← m_at m l !! pred (length (m_at m l));
  let t := length (m_at m l) in
  let V' := view_join (view_see V (KAtomic l) t) (if acquires o then m_view x else view_bot) in
  Some (m_val x, m_push m l (mkMsg (f (m_val x)) (view_join (m_view x) (if releases o then V' else view_at (KAtomic l) t))), V').

(** [compare_exchange]: a failure is a load of a value that differs. *)
Definition compare_exchange m (success failure : Ordering) (l : nat) (expected new : Z) (t : nat) V
    : option (bool * Mem T * view) :=
  x ← m_at m l !! t;
  if m_val x =? expected then
    if decide (S t = length (m_at m l)) then
      '(_, m', V') ← atomic_rmw m success l (fun _ => new) V; Some (true, m', V')
    else None
  else
    '(_, V') ← atomic_load m failure l t V; Some (false, m, V').

(** [UnsafeCell::with_mut] that overwrites; [None] is a race.  [threads] is how many
    threads there are. *)
Definition cell_write m (threads : nat) (c : nat) (v : T) V : option (Mem T * view) :=
  let x := m_cell m c in
  if decide (c_writes x <= V (KWrite c))%nat then
    if forallb (fun i => bool_decide (c_reads x i <= V (KRead c i))%nat) (seq 0 threads) then
      Some (mkMem (m_at m) (upd (m_cell m) c (mkCell (Some v) (S (c_writes x)) (c_reads x))),
            view_see V (KWrite c) (S (c_writes x)))
    else None
  else None.

(** [UnsafeCell::with] that reads; [None] is a race or an uninitialised value. *)
Definition cell_read m (tid c : nat) V : option (T * Mem T * view) :=
  let x := m_cell m c in
  if decide (c_writes x <= V (KWrite c))%nat then
    v ← c_val x;
    let n := S (c_reads x tid) in
    Some (v, mkMem (m_at m) (upd (m_cell m) c (mkCell (c_val x) (c_writes x) (upd (c_reads x) tid n))),
          view_see V (KRead c tid) n)
  else None.

End Operations.

(** ** Facts on views *)

Lemma view_see_eq V k n : view_see V k n k = Nat.max (V k) n.
Proof. unfold view_see, view_join, view_at. by rewrite decide_True. Qed.

Lemma view_see_ne V k n k' : k <> k' -> view_see V k n k' = V k'.
Proof. intros H. unfold view_see, view_join, view_at. rewrite decide_False by done. lia. Qed.

Lemma upd_eq {A} (f : nat -> A) i a : upd f i a i = a.
Proof. unfold upd. by rewrite decide_True. Qed.

Lemma upd_ne {A} (f : nat -> A) i a j : i <> j -> upd f i a j = f j.
Proof. intros H. unfold upd. by rewrite decide_False. Qed.

(** ** What an operation did *)

Section Inversion.
Context {T : Type}.
Implicit Types (m : Mem T) (V : view) (o : Ordering).

Lemma atomic_load_inv m o l t V v V' :
  atomic_load m o l t V = Some (v, V') ->
  exists x, m_at m l !! t = Some x /\ (V (KAtomic l) <= t)%nat /\ v = m_val x /\
    V' = view_join (view_see V (KAtomic l) t) (if acquires o then m_view x else view_bot).
Proof.
  unfold atomic_load. destruct (decide _) as [Ht|]; [|done]. destruct (m_at m l !! t) as [x|]; [|done].
  cbn. intros [= <- <-]. by exists x.
Qed.

Lemma m_push_at_eq m l x : m_at (m_push m l x) l = m_at m l ++ [x].
Proof. unfold m_push. cbn. apply upd_eq. Qed.

Lemma m_push_at_ne m l x l' : l <> l' -> m_at (m_push m l x) l' = m_at m l'.
Proof. intros H. unfold m_push. cbn. by apply upd_ne. Qed.

Lemma m_push_cell m l x : m_cell (m_push m l x) = m_cell m.
Proof. done. Qed.

Lemma cell_write_ok m threads c v V :
  (c_writes (m_cell m c) <= V (KWrite c))%nat ->
  (forall i, (i < threads)%nat -> (c_reads (m_cell m c) i <= V (KRead c i))%nat) ->
  cell_write m threads c v V =
    Some (mkMem (m_at m) (upd (m_cell m) c (mkCell (Some v) (S (c_writes (m_cell m c))) (c_reads (m_cell m c)))),
          view_see V (KWrite c) (S (c_writes (m_cell m c)))).
Proof.
  intros Hw Hr. unfold cell_write. rewrite decide_True by done.
  replace (forallb _ _) with true; [done|]. symmetry. apply forallb_forall. intros i Hi%in_seq.
  apply bool_decide_eq_true_2, Hr. lia.
Qed.

Lemma cell_read_ok m tid c v V :
  (c_writes (m_cell m c) <= V (KWrite c))%nat -> c_val (m_cell m c) = Some v ->
  cell_read m tid c V =
    Some (v, mkMem (m_at m) (upd (m_cell m) c (mkCell (Some v) (c_writes (m_cell m c))
            (upd (c_reads (m_cell m c)) tid (S (c_reads (m_cell m c) tid))))),
          view_see V (KRead c tid) (S (c_reads (m_cell m c) tid))).
Proof. intros Hw Hv. unfold cell_read. rewrite decide_True by done. by rewrite Hv. Qed.

(** Taking over a view that already knows the value read. *)
Lemma view_acquire V W k t : (t <= W k)%nat -> forall k', view_join (view_see V k t) W k' = view_join V W k'.
Proof.
  intros Ht k'. change (Nat.max (view_see V k t k') (W k') = Nat.max (V k') (W k')). destruct (decide (k = k')) as [<-|Hne].
  - rewrite view_see_eq. lia.
  - by rewrite view_see_ne.
Qed.

End Inversion.

(** ** Views stay within the histories *)

Section Closed.
Context {T : Type}.
Implicit Types (m : Mem T) (V W : view) (o : Ordering).

Definition closed m V : Prop := forall l, (V (KAtomic l) < length (m_at m l))%nat.
Definition mem_closed m : Prop := forall l t x, m_at m l !! t = Some x -> closed m (m_view x).

Lemma mem_closed_init (first : nat -> Z) (cell : option T) : mem_closed (mem_init first cell).
Proof. intros l [|t] x E; [|done]. injection E as <-. intros l'. cbn. unfold view_bot. lia. Qed.

Lemma closed_bot_init (first : nat -> Z) (cell : option T) : closed (mem_init first cell) view_bot.
Proof. intros l. cbn. unfold view_bot. lia. Qed.

Lemma closed_join m V W : closed m V -> closed m W -> closed m (view_join V W).
Proof. intros HV HW l. specialize (HV l). specialize (HW l). unfold view_join. lia. Qed.

Lemma closed_at m l t : (t < length (m_at m l))%nat -> (forall l', 0 < length (m_at m l'))%nat -> closed m (view_at (KAtomic l) t).
Proof. intros Ht H l'. unfold view_at. destruct (decide _) as [[= <-]|]; [done|apply H]. Qed.

Lemma closed_pos m V : closed m V -> forall l, (0 < length (m_at m l))%nat.
Proof. intros H l. specialize (H l). lia. Qed.

Lemma closed_grow m l x V : closed m V -> closed (m_push m l x) V.
Proof.
  intros H l'. specialize (H l'). destruct (decide (l = l')) as [<-|Hne].
  - rewrite m_push_at_eq, length_app. lia.
  - by rewrite m_push_at_ne.
Qed.

Lemma mem_closed_push m l x : mem_closed m -> closed (m_push m l x) (m_view x) -> mem_closed (m_push m l x).
Proof.
  intros Hm Hx l' t y E. destruct (decide (l = l')) as [<-|Hne].
  - rewrite m_push_at_eq in E. apply lookup_app_Some in E as [E|[_ E]]; [by eapply closed_grow, Hm|].
    destruct (t - length (m_at m l))%nat as [|n]; [by injection E as <-|by destruct n].
  - rewrite m_push_at_ne in E by done. by eapply closed_grow, Hm.
Qed.

Lemma load_closed m o l t V v V' :
  mem_closed m -> closed m V -> atomic_load m o l t V = Some (v, V') -> closed m V'.
Proof.
  intros Hm HV E. apply atomic_load_inv in E as (x & Ex & _ & _ & ->). apply closed_join.
  - apply closed_join; [done|]. apply closed_at; [by apply lookup_lt_Some in Ex|by eapply closed_pos].
  - destruct (acquires o); [by eapply Hm|]. intros l'. unfold view_bot. by eapply closed_pos.
Qed.

Lemma see_closed m l x V : closed m V -> closed (m_push m l x) (view_see V (KAtomic l) (length (m_at m l))).
Proof.
  intros HV. assert (closed (m_push m l x) V) as HV' by (by apply closed_grow). apply closed_join; [done|].
  apply closed_at; [rewrite m_push_at_eq, length_app; cbn; lia|by eapply closed_pos].
Qed.

Lemma store_closed m o l v V m' V' :
  mem_closed m -> closed m V -> atomic_store m o l v V = (m', V') -> mem_closed m' /\ closed m' V'.
Proof.
  intros Hm HV [= <- <-]. split; [|by apply see_closed]. apply mem_closed_push; [done|]. cbn [m_view].
  destruct (releases o); [by apply see_closed|]. apply closed_at; [rewrite m_push_at_eq, length_app; cbn; lia|].
  eapply closed_pos, closed_grow, HV.
Qed.

Lemma rmw_closed m o l f V v m' V' :
  mem_closed m -> closed m V -> atomic_rmw m o l f V = Some (v, m', V') -> mem_closed m' /\ closed m' V'.
Proof.
  intros Hm HV E. unfold atomic_rmw in E. destruct (m_at m l !! _) as [x|] eqn:Ex; [|done]. cbn in E. injection E as <- <- <-.
  assert (forall y, closed (m_push m l y) (m_view x)) as Hx by (intros y; by eapply closed_grow, Hm).
  assert (forall y, closed (m_push m l y) (view_join (view_see V (KAtomic l) (length (m_at m l))) (if acquires o then m_view x else view_bot))) as HW.
  { intros y. apply closed_join; [by apply see_closed|]. destruct (acquires o); [apply Hx|].
    intros l'. unfold view_bot. eapply closed_pos, Hx. }
  split; [|apply HW]. apply mem_closed_push; [done|]. cbn [m_view]. apply closed_join; [apply Hx|].
  destruct (releases o); [apply HW|]. apply closed_at; [rewrite m_push_at_eq, length_app; cbn; lia|].
  eapply closed_pos, Hx.
Qed.

Lemma exchange_closed m success failure l expected new t V b m' V' :
  mem_closed m -> closed m V -> compare_exchange m success failure l expected new t V = Some (b, m', V') ->
  mem_closed m' /\ closed m' V'.
Proof.
  intros Hm HV E. unfold compare_exchange in E. destruct (m_at m l !! t) as [x|]; [|done]. cbn in E.
  destruct (m_val x =? expected).
  - destruct (decide _); [|done]. destruct (atomic_rmw _ _ _ _ _) as [[[? ?] ?]|] eqn:Er; [|done]. cbn in E.
    injection E as <- <- <-. by eapply rmw_closed.
  - destruct (atomic_load _ _ _ _ _) as [[? ?]|] eqn:El; [|done]. cbn in E. injection E as <- <- <-.
    split; [done|]. by eapply load_closed.
Qed.

Lemma store_grows m o l v V m' V' W : atomic_store m o l v V = (m', V') -> closed m W -> closed m' W.
Proof. intros [= <- _]. apply closed_grow. Qed.

Lemma exchange_grows m so fo l e n t V b m' V' W :
  compare_exchange m so fo l e n t V = Some (b, m', V') -> closed m W -> closed m' W.
Proof.
  unfold compare_exchange. destruct (m_at m l !! t) as [x|]; [|done]. cbn. destruct (m_val x =? e).
  - destruct (decide _); [|done]. unfold atomic_rmw. destruct (m_at m l !! _); [|done]. cbn. intros [= _ <- _]. apply closed_grow.
  - destruct (atomic_load _ _ _ _ _) as [[? ?]|]; [|done]. cbn. by intros [= _ <- _].
Qed.

(** The newest value is always there to read. *)
Lemma load_newest m o l V x :
  closed m V -> m_at m l !! pred (length (m_at m l)) = Some x ->
  atomic_load m o l (pred (length (m_at m l))) V =
    Some (m_val x, view_join (view_see V (KAtomic l) (pred (length (m_at m l)))) (if acquires o then m_view x else view_bot)).
Proof. intros HV Ex. unfold atomic_load. rewrite decide_True by (specialize (HV l); lia). by rewrite Ex. Qed.

End Closed.

(** ** The newest value *)

Section Newest.
Context {T : Type}.
Implicit Types (m : Mem T) (V W : view) (o : Ordering).

Definition newest m (l : nat) : option Msg := m_at m l !! pred (length (m_at m l)).

Lemma newest_push_eq m l x : newest (m_push m l x) l = Some x.
Proof.
  unfold newest. rewrite m_push_at_eq, length_app. cbn. rewrite Nat.add_1_r. cbn. by rewrite lookup_app_r, Nat.sub_diag.
Qed.

Lemma newest_push_ne m l x l' : l <> l' -> newest (m_push m l x) l' = newest m l'.
Proof. intros H. unfold newest. by rewrite m_push_at_ne. Qed.

Lemma newest_at m l t x : newest m l = Some x -> m_at m l !! t = Some x \/ S t <> length (m_at m l).
Proof.
  intros E. destruct (decide (S t = length (m_at m l))) as [Ht|]; [left|by right].
  unfold newest in E. by rewrite <- Ht in E.
Qed.

Lemma rmw_newest m o l f V x :
  newest m l = Some x -> atomic_rmw m o l f V =
    let t := length (m_at m l) in
    let V' := view_join (view_see V (KAtomic l) t) (if acquires o then m_view x else view_bot) in
    Some (m_val x, m_push m l (mkMsg (f (m_val x)) (view_join (m_view x) (if releases o then V' else view_at (KAtomic l) t))), V').
Proof. intros E. unfold atomic_rmw. unfold newest in E. by rewrite E. Qed.

Lemma view_see_le V k n : view_le V (view_see V k n).
Proof. intros k'. unfold view_see, view_join. lia. Qed.

Lemma view_join_l V W : view_le V (view_join V W).
Proof. intros k'. unfold view_join. lia. Qed.

Lemma view_join_r V W : view_le W (view_join V W).
Proof. intros k'. unfold view_join. lia. Qed.

Lemma view_le_trans V W X : view_le V W -> view_le W X -> view_le V X.
Proof. intros H H' k. specialize (H k). specialize (H' k). lia. Qed.

(** An exchange wins on the newest value, or changes nothing. *)
Lemma exchange_inv m success failure l expected new t V b m' V' :
  compare_exchange m success failure l expected new t V = Some (b, m', V') ->
  (b = true /\ exists x, newest m l = Some x /\ m_val x = expected /\
    V' = view_join (view_see V (KAtomic l) (length (m_at m l))) (if acquires success then m_view x else view_bot) /\
    m' = m_push m l (mkMsg new (view_join (m_view x) (if releases success then V' else view_at (KAtomic l) (length (m_at m l)))))) \/
  (b = false /\ m' = m /\ view_le V V').
Proof.
  unfold compare_exchange. intros E. destruct (m_at m l !! t) as [x|] eqn:Ex; [|done]. cbn in E. destruct (Z.eqb_spec (m_val x) expected) as [Hv|Hv].
  - destruct (decide _) as [Ht|]; [|done]. assert (newest m l = Some x) as En by (unfold newest; by rewrite <- Ht).
    rewrite (rmw_newest _ _ _ _ _ _ En) in E. cbn in E. injection E as <- <- <-. left. split; [done|]. exists x. done.
  - destruct (atomic_load _ _ _ _ _) as [[? W]|] eqn:El; [|done]. cbn in E. injection E as <- <- <-. right. split; [done|]. split; [done|].
    apply atomic_load_inv in El as (y & _ & _ & _ & ->). eapply view_le_trans; [apply view_see_le|apply view_join_l].
Qed.

Lemma load_view_le m o l t V v V' : atomic_load m o l t V = Some (v, V') -> view_le V V'.
Proof. intros E. apply atomic_load_inv in E as (x & _ & _ & _ & ->). eapply view_le_trans; [apply view_see_le|apply view_join_l]. Qed.

End Newest.

Ltac view_lia := unfold view_see, view_join, view_bot in *; lia.
