(* ===== verification/Spsc.v ===== *)
(** The bounded single-producer single-consumer ring (crates/common/src/spsc.rs),
    one step per shared access, under the memory of Atomic. *)

From S2P Require Import Prelude Atomic.

(** The words of [Ring]; its slots are the cells. *)
Definition HEAD : nat := 0.
Definition TAIL : nat := 1.
Definition PRODUCER : nat := 0.
Definition CONSUMER : nat := 1.

Section Ring.
Context {T : Type} (N : Z).

(** Where [push] is: before its first load; the value and the tail it read; the slot
    found free; the slot written. *)
Inductive PushPc :=
| PushIdle
| PushTail (value : T) (tail : Z)
| PushFree (value : T) (tail : Z)
| PushWritten (value : T) (tail : Z).

(** Where [pop] is. *)
Inductive PopPc :=
| PopIdle
| PopHead (head : Z)
| PopFull (head : Z)
| PopRead (value : T) (head : Z).

(** The ring, its two threads, and what their calls have answered so far. *)
Record Ring := mkRing {
  rg_mem : Mem T;
  rg_push : PushPc;
  rg_pview : view;
  rg_pop : PopPc;
  rg_cview : view;
  rg_pushed : list T;
  rg_refused : list T;
  rg_popped : list T;
  rg_ub : bool;
}.

(** [Ring::new]. *)
Definition Ring_new : Ring :=
  mkRing (mem_init (fun _ => 0) None) PushIdle view_bot PopIdle view_bot [] [] [] false.

Definition ring_index (counter : Z) : nat := Z.to_nat (counter mod N).

Definition on_push (s : Ring) (m : Mem T) (pc : PushPc) (V : view) : Ring :=
  mkRing m pc V (rg_pop s) (rg_cview s) (rg_pushed s) (rg_refused s) (rg_popped s) (rg_ub s).
Definition on_pop (s : Ring) (m : Mem T) (pc : PopPc) (V : view) : Ring :=
  mkRing m (rg_push s) (rg_pview s) pc V (rg_pushed s) (rg_refused s) (rg_popped s) (rg_ub s).
Definition undefined (s : Ring) : Ring :=
  mkRing (rg_mem s) (rg_push s) (rg_pview s) (rg_pop s) (rg_cview s) (rg_pushed s) (rg_refused s) (rg_popped s) true.
Definition answer_push (s : Ring) (r : T + T) : Ring :=
  match r with
  | inl v => mkRing (rg_mem s) (rg_push s) (rg_pview s) (rg_pop s) (rg_cview s) (rg_pushed s ++ [v]) (rg_refused s) (rg_popped s) (rg_ub s)
  | inr v => mkRing (rg_mem s) (rg_push s) (rg_pview s) (rg_pop s) (rg_cview s) (rg_pushed s) (rg_refused s ++ [v]) (rg_popped s) (rg_ub s)
  end.
Definition answer_pop (s : Ring) (v : T) : Ring :=
  mkRing (rg_mem s) (rg_push s) (rg_pview s) (rg_pop s) (rg_cview s) (rg_pushed s) (rg_refused s) (rg_popped s ++ [v]) (rg_ub s).

(** The producer's next access; a call that starts here pushes [value]. *)
Definition push_step (value : T) (t : nat) (s : Ring) : option Ring :=
  match rg_push s with
  | PushIdle =>
      '(tail, V) ← atomic_load (rg_mem s) Relaxed TAIL t (rg_pview s);
      Some (on_push s (rg_mem s) (PushTail value tail) V)
  | PushTail value tail =>
      '(head, V) ← atomic_load (rg_mem s) Acquire HEAD t (rg_pview s);
      if N <=? wsub 64 tail head then Some (answer_push (on_push s (rg_mem s) PushIdle V) (inr value))
      else Some (on_push s (rg_mem s) (PushFree value tail) V)
  | PushFree value tail =>
      match cell_write (rg_mem s) 2 (ring_index tail) value (rg_pview s) with
      | None => Some (undefined s)
      | Some (m, V) => Some (on_push s m (PushWritten value tail) V)
      end
  | PushWritten value tail =>
      let '(m, V) := atomic_store (rg_mem s) Release TAIL (wadd 64 tail 1) (rg_pview s) in
      Some (answer_push (on_push s m PushIdle V) (inl value))
  end.

(** The consumer's next access. *)
Definition pop_step (t : nat) (s : Ring) : option Ring :=
  match rg_pop s with
  | PopIdle =>
      '(head, V) ← atomic_load (rg_mem s) Relaxed HEAD t (rg_cview s);
      Some (on_pop s (rg_mem s) (PopHead head) V)
  | PopHead head =>
      '(tail, V) ← atomic_load (rg_mem s) Acquire TAIL t (rg_cview s);
      if head =? tail then Some (on_pop s (rg_mem s) PopIdle V)
      else Some (on_pop s (rg_mem s) (PopFull head) V)
  | PopFull head =>
      match cell_read (rg_mem s) CONSUMER (ring_index head) (rg_cview s) with
      | None => Some (undefined s)
      | Some (v, m, V) => Some (on_pop s m (PopRead v head) V)
      end
  | PopRead v head =>
      let '(m, V) := atomic_store (rg_mem s) Release HEAD (wadd 64 head 1) (rg_cview s) in
      Some (answer_pop (on_pop s m PopIdle V) v)
  end.

(** One access of either thread, and which value it reads. *)
Inductive RingAct := Pushing (value : T) (t : nat) | Popping (t : nat).

Definition ring_step (a : RingAct) (s : Ring) : option Ring :=
  if rg_ub s then None
  else match a with
       | Pushing value t => push_step value t s
       | Popping t => pop_step t s
       end.

Fixpoint ring_run (acts : list RingAct) (s : Ring) : option Ring :=
  match acts with
  | [] => Some s
  | a :: acts => s ← ring_step a s; ring_run acts s
  end.

(** [len] as one of the two ends calls it: the tail, then the head. *)
Definition ring_len (s : Ring) (V : view) (t t' : nat) : option (Z * view) :=
  '(tail, V) ← atomic_load (rg_mem s) Acquire TAIL t V;
  '(head, V) ← atomic_load (rg_mem s) Acquire HEAD t' V;
  Some (wsub 64 tail head, V).

End Ring.

Arguments Ring : clear implicits.
Arguments PushPc : clear implicits.
Arguments PopPc : clear implicits.
Arguments RingAct : clear implicits.

(** ** Every interleaving *)

Section Safety.
Context {T : Type} (N : Z) (HN : 0 < N < 2 ^ 64).
Implicit Types (s : Ring T) (V W : view) (p c i k : nat).

(** The slot of the [k]th push. *)
Definition slot_of k : nat := ring_index N (wrap 64 (Z.of_nat k)).

(** How many of the first [n] pushes used slot [i]. *)
Fixpoint uses (n i : nat) : nat :=
  match n with
  | O => O
  | S n => (uses n i + if decide (slot_of n = i) then 1 else 0)%nat
  end.

Lemma uses_mono n n' i : (n <= n')%nat -> (uses n i <= uses n' i)%nat.
Proof. induction 1; cbn; lia. Qed.

Lemma uses_same n n' i : (n <= n')%nat -> (forall k, (n <= k < n')%nat -> slot_of k <> i) -> uses n' i = uses n i.
Proof.
  induction 1 as [|n' Hn IH]; intros H; [done|]. cbn. rewrite decide_False by (apply H; lia).
  rewrite IH; [lia|]. intros k Hk. apply H. lia.
Qed.

(** Pushes less than a lap apart use different slots. *)
Definition spread p : Prop :=
  forall k k', (k < k' <= p)%nat -> Z.of_nat k' < Z.of_nat k + N -> slot_of k <> slot_of k'.

Lemma slot_of_mod k : (N | 2 ^ 64) \/ Z.of_nat k < 2 ^ 64 -> slot_of k = Z.to_nat (Z.of_nat k mod N).
Proof.
  intros H. unfold slot_of, ring_index, wrap. destruct H as [[q Hq]|H].
  - rewrite Hq. f_equal. rewrite (Z.mod_eq (Z.of_nat k) (q * N)) by lia.
    replace (Z.of_nat k - q * N * (Z.of_nat k / (q * N))) with (Z.of_nat k + (- q * (Z.of_nat k / (q * N))) * N) by lia.
    apply Z_mod_plus_full.
  - by rewrite (Z.mod_small (Z.of_nat k) (2 ^ 64)) by lia.
Qed.

Lemma spread_ok p : (N | 2 ^ 64) \/ Z.of_nat p < 2 ^ 64 -> spread p.
Proof.
  intros H k k' Hk Hn E. rewrite !slot_of_mod in E by (destruct H; [by left|right; lia]).
  pose proof (Z.mod_pos_bound (Z.of_nat k) N ltac:(lia)). pose proof (Z.mod_pos_bound (Z.of_nat k') N ltac:(lia)).
  assert (Z.of_nat k mod N = Z.of_nat k' mod N) as Em by lia.
  pose proof (Z.div_mod (Z.of_nat k) N ltac:(lia)). pose proof (Z.div_mod (Z.of_nat k') N ltac:(lia)).
  destruct (Z.le_gt_cases (Z.of_nat k' / N) (Z.of_nat k / N)); nia.
Qed.

Lemma spread_le p p' : spread p' -> (p <= p')%nat -> spread p.
Proof. intros H Hp k k' Hk. apply H. lia. Qed.

(** What a view that knows [head] and [tail] knows of the slots. *)
Record good p c V : Prop := mkGood {
  gd_head : (V (KAtomic HEAD) <= c)%nat;
  gd_tail : (V (KAtomic TAIL) <= p)%nat;
  gd_reads : forall i, (uses (V (KAtomic HEAD)) i <= V (KRead i CONSUMER))%nat;
  gd_writes : forall i, (uses (V (KAtomic TAIL)) i <= V (KWrite i))%nat;
}.

Lemma good_ext p c V W : (forall key, V key = W key) -> good p c V -> good p c W.
Proof. intros E [Hh Ht Hr Hw]. split; intros; rewrite <- !E; eauto. Qed.

Lemma good_bot p c : good p c view_bot.
Proof. split; intros; unfold view_bot; cbn; lia. Qed.

Lemma good_mono p p' c c' V : good p c V -> (p <= p')%nat -> (c <= c')%nat -> good p' c' V.
Proof. intros [Hh Ht Hr Hw] Hp Hc. split; [lia..|done|done]. Qed.

Lemma good_join p c V W : good p c V -> good p c W -> good p c (view_join V W).
Proof.
  intros [Hh Ht Hr Hw] [Hh' Ht' Hr' Hw']. unfold view_join. split; [lia..| |]; intros i.
  - specialize (Hr i). specialize (Hr' i).
    destruct (Nat.max_spec (V (KAtomic HEAD)) (W (KAtomic HEAD))) as [[_ ->]|[_ ->]]; lia.
  - specialize (Hw i). specialize (Hw' i).
    destruct (Nat.max_spec (V (KAtomic TAIL)) (W (KAtomic TAIL))) as [[_ ->]|[_ ->]]; lia.
Qed.

(** The history of a counter: its [t]th value is [t], and says so. *)
Definition history p c (l : nat) (h : list Msg) (n : nat) : Prop :=
  length h = S n /\
  forall t x, h !! t = Some x -> m_val x = wrap 64 (Z.of_nat t) /\ good p c (m_view x) /\ (t <= m_view x (KAtomic l))%nat.

(** Every value written to a slot, the one not yet published included. *)
Definition written s : list T := rg_pushed s ++ match rg_push s with PushWritten v _ => [v] | _ => [] end.
Definition reads_done s : nat := (length (rg_popped s) + match rg_pop s with PopRead _ _ => 1 | _ => 0 end)%nat.

Record Inv s : Prop := mkInv {
  iv_ub : rg_ub s = false;
  iv_tail : history (length (rg_pushed s)) (length (rg_popped s)) TAIL (m_at (rg_mem s) TAIL) (length (rg_pushed s));
  iv_head : history (length (rg_pushed s)) (length (rg_popped s)) HEAD (m_at (rg_mem s) HEAD) (length (rg_popped s));
  iv_pgood : good (length (rg_pushed s)) (length (rg_popped s)) (rg_pview s);
  iv_ptail : rg_pview s (KAtomic TAIL) = length (rg_pushed s);
  iv_cgood : good (length (rg_pushed s)) (length (rg_popped s)) (rg_cview s);
  iv_chead : rg_cview s (KAtomic HEAD) = length (rg_popped s);
  iv_room : Z.of_nat (length (rg_pushed s)) <= Z.of_nat (rg_pview s (KAtomic HEAD)) + N;
  iv_seen : (length (rg_popped s) <= rg_cview s (KAtomic TAIL))%nat;
  iv_prefix : rg_popped s = take (length (rg_popped s)) (rg_pushed s);
  iv_cells : forall i, c_writes (m_cell (rg_mem s) i) = uses (length (written s)) i /\
    c_reads (m_cell (rg_mem s) i) CONSUMER = uses (reads_done s) i /\ c_reads (m_cell (rg_mem s) i) PRODUCER = O;
  iv_vals : forall k v, (length (rg_popped s) <= k)%nat -> written s !! k = Some v ->
    c_val (m_cell (rg_mem s) (slot_of k)) = Some v;
  iv_push : match rg_push s with
            | PushIdle => True
            | PushTail _ tail => tail = wrap 64 (Z.of_nat (length (rg_pushed s)))
            | PushFree _ tail => tail = wrap 64 (Z.of_nat (length (rg_pushed s))) /\
                Z.of_nat (length (rg_pushed s)) < Z.of_nat (rg_pview s (KAtomic HEAD)) + N
            | PushWritten _ tail => tail = wrap 64 (Z.of_nat (length (rg_pushed s))) /\
                Z.of_nat (length (rg_pushed s)) < Z.of_nat (rg_pview s (KAtomic HEAD)) + N /\
                forall i, (uses (S (length (rg_pushed s))) i <= rg_pview s (KWrite i))%nat
            end;
  iv_pop : match rg_pop s with
           | PopIdle => True
           | PopHead head => head = wrap 64 (Z.of_nat (length (rg_popped s)))
           | PopFull head => head = wrap 64 (Z.of_nat (length (rg_popped s))) /\
               (length (rg_popped s) < rg_cview s (KAtomic TAIL))%nat
           | PopRead v head => head = wrap 64 (Z.of_nat (length (rg_popped s))) /\
               (length (rg_popped s) < rg_cview s (KAtomic TAIL))%nat /\
               rg_pushed s !! length (rg_popped s) = Some v /\
               forall i, (uses (S (length (rg_popped s))) i <= rg_cview s (KRead i CONSUMER))%nat
           end;
}.

Lemma Inv_init : Inv Ring_new.
Proof.
  assert (forall l, history 0 0 l [mkMsg 0 view_bot] 0) as Hh.
  { intros l. split; [done|]. intros [|t] x E; [|done]. injection E as <-. split; [done|]. split; [apply good_bot|]. cbn. lia. }
  split; try done; try apply Hh; try apply good_bot. cbn. lia.
Qed.

(** Acquiring a value of a counter. *)
Lemma good_acquire p c l h n V t x :
  history p c l h n -> h !! t = Some x -> good p c V -> good p c (view_join (view_see V (KAtomic l) t) (m_view x)).
Proof.
  intros [_ Hh] Ex Hg. destruct (Hh t x Ex) as (_ & Hx & Ht).
  apply (good_ext _ _ (view_join V (m_view x))); [|by apply good_join]. intros key. symmetry. by apply view_acquire.
Qed.

Lemma history_lt p c l h n t x : history p c l h n -> h !! t = Some x -> (t <= n)%nat.
Proof. intros [Hl _] E. apply lookup_lt_Some in E. lia. Qed.

Lemma history_mono p p' c c' l h n :
  history p c l h n -> (p <= p')%nat -> (c <= c')%nat -> history p' c' l h n.
Proof.
  intros [Hl Hh] Hp Hc. split; [done|]. intros t x E. destruct (Hh t x E) as (Hv & Hg & Ht). split; [done|].
  split; [|done]. by apply (good_mono p p' c c').
Qed.

Lemma history_push p c l h n V :
  history p c l h n -> good p c V -> (S n <= V (KAtomic l))%nat ->
  history p c l (h ++ [mkMsg (wrap 64 (Z.of_nat (S n))) V]) (S n).
Proof.
  intros [Hl Hh] Hg Hv. split; [rewrite length_app; cbn; lia|]. intros t x E. apply lookup_app_Some in E as [E|[Hge E]]; [by apply Hh|].
  assert (t = S n) as -> by (apply lookup_lt_Some in E; cbn in E; lia). rewrite Hl, Nat.sub_diag in E. by injection E as <-.
Qed.

Lemma wadd_count n : wadd 64 (wrap 64 (Z.of_nat n)) 1 = wrap 64 (Z.of_nat (S n)).
Proof. unfold wadd, wrap. rewrite Z.add_mod_idemp_l by lia. f_equal. lia. Qed.

Lemma wsub_count n t : (t <= n)%nat -> Z.of_nat n < Z.of_nat t + 2 ^ 64 ->
  wsub 64 (wrap 64 (Z.of_nat n)) (wrap 64 (Z.of_nat t)) = Z.of_nat n - Z.of_nat t.
Proof. intros H1 H2. unfold wsub, wrap. rewrite <- Zminus_mod. apply Z.mod_small. lia. Qed.

Lemma load_own (V : view) l t key : view_join (view_see V (KAtomic l) t) view_bot key = view_see V (KAtomic l) t key.
Proof. unfold view_join, view_bot. lia. Qed.

(** Reading one's own counter changes nothing known. *)
Lemma own_view_same V l t key : V (KAtomic l) = t -> view_join (view_see V (KAtomic l) t) view_bot key = V key.
Proof.
  intros E. rewrite load_own. destruct (decide (KAtomic l = key)) as [<-|Hne]; [rewrite view_see_eq; lia|by apply view_see_ne].
Qed.

Lemma push_idle value t s s' : rg_push s = PushIdle -> Inv s -> push_step N value t s = Some s' -> Inv s'.
Proof.
  intros Ep [] E. unfold push_step in E. rewrite Ep in E.
  destruct (atomic_load _ _ _ _ _) as [[tail V]|] eqn:El; [|done]. cbn in E. injection E as <-.
  apply atomic_load_inv in El as (x & Ex & Ht & -> & ->). cbn [acquires].
  pose proof (history_lt _ _ _ _ _ _ _ iv_tail0 Ex). assert (t = length (rg_pushed s)) as -> by lia.
  assert (forall key, view_join (view_see (rg_pview s) (KAtomic TAIL) (length (rg_pushed s))) view_bot key = rg_pview s key) as EV
    by (intros key; by apply own_view_same).
  destruct iv_tail0 as [Hl Hh]. destruct (Hh _ _ Ex) as (Hv & _).
  unfold written in *. rewrite Ep in *.
  split; unfold written; cbn [on_push rg_ub rg_mem rg_push rg_pview rg_pop rg_cview rg_pushed rg_popped]; try done.
  - by apply (good_ext _ _ (rg_pview s)).
  - by rewrite EV.
  - by rewrite EV.
Qed.

Lemma push_tail value t s s' v tail :
  rg_push s = PushTail v tail -> Inv s -> push_step N value t s = Some s' -> Inv s'.
Proof.
  intros Ep [] E. unfold push_step in E. rewrite Ep in E, iv_push0. subst tail.
  destruct (atomic_load _ _ _ _ _) as [[head V]|] eqn:El; [|done]. cbn in E.
  apply atomic_load_inv in El as (x & Ex & Ht & -> & ->). cbn [acquires] in E.
  pose proof (history_lt _ _ _ _ _ _ _ iv_head0 Ex) as Hle. pose proof (good_acquire _ _ _ _ _ _ _ _ iv_head0 Ex iv_pgood0) as Hg.
  destruct (proj2 iv_head0 _ _ Ex) as (Hv & Hgx & Htx). rewrite Hv in E.
  set (V := view_join _ _) in *. assert (rg_pview s (KAtomic HEAD) <= V (KAtomic HEAD) /\ t <= V (KAtomic HEAD))%nat as [HV HVt]
    by (unfold V; split; (transitivity (view_see (rg_pview s) (KAtomic HEAD) t (KAtomic HEAD)); [rewrite view_see_eq; lia|apply Nat.le_max_l])).
  assert (V (KAtomic TAIL) = length (rg_pushed s)) as EV.
  { pose proof (gd_tail _ _ _ Hg). assert (rg_pview s (KAtomic TAIL) <= V (KAtomic TAIL))%nat; [|lia].
    unfold V. transitivity (view_see (rg_pview s) (KAtomic HEAD) t (KAtomic TAIL)); [by rewrite view_see_ne|apply Nat.le_max_l]. }
  assert (length (rg_popped s) <= length (rg_pushed s))%nat as Hpc
    by (rewrite iv_prefix0, length_take; lia).
  rewrite wsub_count in E by lia. unfold written in *. rewrite Ep in *.
  destruct (Z.leb_spec N (Z.of_nat (length (rg_pushed s)) - Z.of_nat t)) as [Hfull|Hfree]; injection E as <-;
    (split; unfold written; cbn [on_push answer_push rg_ub rg_mem rg_push rg_pview rg_pop rg_cview rg_pushed rg_popped]; try done; try lia).
Qed.

Lemma popped_le s : Inv s -> (length (rg_popped s) <= length (rg_pushed s))%nat.
Proof. intros I. rewrite (iv_prefix _ I), length_take. lia. Qed.

Lemma reads_le s : Inv s -> (reads_done s <= length (rg_pushed s))%nat.
Proof.
  intros I. pose proof (popped_le s I). pose proof (gd_tail _ _ _ (iv_cgood _ I)). pose proof (iv_pop _ I) as H2. unfold reads_done.
  destruct (rg_pop s); lia.
Qed.

Lemma push_free value t s s' v tail :
  rg_push s = PushFree v tail -> Inv s -> spread (length (rg_pushed s)) -> push_step N value t s = Some s' -> Inv s'.
Proof.
  intros Ep I Hsp E. pose proof (reads_le s I) as Hrd. pose proof (popped_le s I). destruct I.
  unfold push_step in E. rewrite Ep in E, iv_push0. destruct iv_push0 as [-> Hroom].
  pose proof (gd_head _ _ _ iv_pgood0) as Hph.
  unfold written in *. rewrite Ep, app_nil_r in *. fold (slot_of (length (rg_pushed s))) in E.
  set (p := length (rg_pushed s)) in *. set (i := slot_of p) in *. destruct (iv_cells0 i) as (Hw & Hr & Hr0).
  rewrite cell_write_ok in E.
  - cbn in E. injection E as <-.
    assert (forall n, view_see (rg_pview s) (KWrite i) n (KAtomic HEAD) = rg_pview s (KAtomic HEAD)) as E1 by (intros; by apply view_see_ne).
    assert (forall n, view_see (rg_pview s) (KWrite i) n (KAtomic TAIL) = rg_pview s (KAtomic TAIL)) as E2 by (intros; by apply view_see_ne).
    assert (forall j n, (rg_pview s (KWrite j) <= view_see (rg_pview s) (KWrite i) n (KWrite j))%nat) as E3
      by (intros; apply Nat.le_max_l).
    split; unfold written; cbn [on_push rg_ub rg_mem rg_push rg_pview rg_pop rg_cview rg_pushed rg_popped m_at m_cell];
      rewrite ?E1, ?E2; try done.
    + destruct iv_pgood0 as [G1 G2 G3 G4]. split; rewrite ?E1, ?E2; try done; intros j.
      * rewrite view_see_ne by done. apply G3.
      * etransitivity; [apply G4|apply E3].
    + intros j. rewrite length_app. fold p. cbn [length]. rewrite Nat.add_1_r. cbn [uses].
      destruct (decide (i = j)) as [<-|Hne].
      * rewrite upd_eq. cbn [c_writes c_reads]. rewrite Hw. fold i. rewrite decide_True by done. split; [lia|done].
      * rewrite upd_ne by done. fold i. rewrite decide_False by done. rewrite Nat.add_0_r. apply iv_cells0.
    + intros k w Hk Ew. apply lookup_app_Some in Ew as [Ew|[Hge Ew]].
      * pose proof (lookup_lt_Some _ _ _ Ew) as Hlt. rewrite upd_ne; [by apply iv_vals0|].
        intros Ei. symmetry in Ei. revert Ei. apply Hsp; lia.
      * assert (k = p) as -> by (apply lookup_lt_Some in Ew; cbn in Ew; lia).
        fold p in Ew. rewrite Nat.sub_diag in Ew. injection Ew as ->. fold i. by rewrite upd_eq.
    + split; [done|]. split; [done|]. fold p. intros j. cbn [uses].
      assert (uses p j <= rg_pview s (KWrite j))%nat as G by (rewrite <- iv_ptail0; apply (gd_writes _ _ _ iv_pgood0)).
      fold i. destruct (decide (i = j)) as [<-|Hne].
      * rewrite view_see_eq. lia.
      * rewrite view_see_ne by congruence. lia.
  - rewrite Hw, <- iv_ptail0. apply (gd_writes _ _ _ iv_pgood0).
  - intros tid Htid. destruct tid as [|[|tid]]; [|change (S O) with CONSUMER|lia].
    + change O with PRODUCER. rewrite Hr0. lia.
    + rewrite Hr. etransitivity; [|apply (gd_reads _ _ _ iv_pgood0)].
      destruct (Nat.le_ge_cases (rg_pview s (KAtomic HEAD)) (reads_done s)) as [Hle|Hge]; [|by apply uses_mono].
      rewrite (uses_same _ _ _ Hle); [done|]. intros k Hk. apply Hsp; lia.
Qed.

Lemma push_written value t s s' v tail :
  rg_push s = PushWritten v tail -> Inv s -> push_step N value t s = Some s' -> Inv s'.
Proof.
  intros Ep I E. pose proof (popped_le s I). destruct I. unfold push_step in E. rewrite Ep in E, iv_push0.
  destruct iv_push0 as (-> & Hroom & Hknow). unfold atomic_store in E. injection E as <-.
  rewrite wadd_count. cbn [releases]. destruct iv_tail0 as [Hl Hh]. rewrite Hl.
  set (p := length (rg_pushed s)) in *. set (V := view_see (rg_pview s) (KAtomic TAIL) (S p)).
  assert (V (KAtomic HEAD) = rg_pview s (KAtomic HEAD)) as E1 by (by apply view_see_ne).
  assert (V (KAtomic TAIL) = S p) as E2 by (unfold V; rewrite view_see_eq; lia).
  assert (length (rg_pushed s ++ [v]) = S p) as Elen by (rewrite length_app; cbn; lia).
  assert (good (S p) (length (rg_popped s)) V) as Hg.
  { destruct iv_pgood0 as [G1 G2 G3 G4]. split; rewrite ?E1, ?E2; [done|done| |]; intros j; unfold V; rewrite view_see_ne by done; [apply G3|].
    apply Hknow. }
  unfold written in *. rewrite Ep in *.
  split; unfold written; cbn [on_push answer_push rg_ub rg_mem rg_push rg_pview rg_pop rg_cview rg_pushed rg_popped];
    rewrite ?Elen, ?E1, ?E2, ?m_push_cell, ?app_nil_r; try done; try lia.
  - rewrite m_push_at_eq. apply history_push; [|done|lia]. by apply (history_mono p _ (length (rg_popped s))); [|lia|].
  - rewrite m_push_at_ne by done. by apply (history_mono p _ (length (rg_popped s))); [|lia|].
  - by apply (good_mono p _ (length (rg_popped s))); [|lia|].
  - rewrite take_app_le by done. done.
  - pose proof iv_pop0 as H'. destruct (rg_pop s); try done. destruct H' as (? & ? & Hv & ?). split; [done|]. split; [done|]. split; [|done].
    by apply lookup_app_l_Some.
Qed.

Lemma pop_idle t s s' : rg_pop s = PopIdle -> Inv s -> pop_step N t s = Some s' -> Inv s'.
Proof.
  intros Ep [] E. unfold pop_step in E. rewrite Ep in E.
  destruct (atomic_load _ _ _ _ _) as [[head V]|] eqn:El; [|done]. cbn in E. injection E as <-.
  apply atomic_load_inv in El as (x & Ex & Ht & -> & ->). cbn [acquires].
  pose proof (history_lt _ _ _ _ _ _ _ iv_head0 Ex). assert (t = length (rg_popped s)) as -> by lia.
  assert (forall key, view_join (view_see (rg_cview s) (KAtomic HEAD) (length (rg_popped s))) view_bot key = rg_cview s key) as EV
    by (intros key; by apply own_view_same).
  destruct iv_head0 as [Hl Hh]. destruct (Hh _ _ Ex) as (Hv & _).
  unfold reads_done in *. rewrite Ep in *.
  split; unfold reads_done; cbn [on_pop rg_ub rg_mem rg_push rg_pview rg_pop rg_cview rg_pushed rg_popped]; try done.
  - by apply (good_ext _ _ (rg_cview s)).
  - by rewrite EV.
  - by rewrite EV.
Qed.

Lemma pop_head t s s' head :
  rg_pop s = PopHead head -> Inv s -> pop_step N t s = Some s' -> Inv s'.
Proof.
  intros Ep I E. pose proof (popped_le s I) as Hpc. destruct I. unfold pop_step in E. rewrite Ep in E, iv_pop0. subst head.
  destruct (atomic_load _ _ _ _ _) as [[tail V]|] eqn:El; [|done]. cbn in E.
  apply atomic_load_inv in El as (x & Ex & Ht & -> & ->). cbn [acquires] in E.
  pose proof (history_lt _ _ _ _ _ _ _ iv_tail0 Ex) as Hle. pose proof (good_acquire _ _ _ _ _ _ _ _ iv_tail0 Ex iv_cgood0) as Hg.
  destruct (proj2 iv_tail0 _ _ Ex) as (Hv & Hgx & Htx). rewrite Hv in E.
  set (V := view_join _ _) in *. assert (rg_cview s (KAtomic TAIL) <= V (KAtomic TAIL) /\ t <= V (KAtomic TAIL))%nat as [HV HVt]
    by (unfold V; split; (transitivity (view_see (rg_cview s) (KAtomic TAIL) t (KAtomic TAIL)); [rewrite view_see_eq; lia|apply Nat.le_max_l])).
  assert (V (KAtomic HEAD) = length (rg_popped s)) as EV.
  { pose proof (gd_head _ _ _ Hg). assert (rg_cview s (KAtomic HEAD) <= V (KAtomic HEAD))%nat; [|lia].
    unfold V. transitivity (view_see (rg_cview s) (KAtomic TAIL) t (KAtomic HEAD)); [by rewrite view_see_ne|apply Nat.le_max_l]. }
  unfold reads_done in *. rewrite Ep in *. pose proof (gd_head _ _ _ iv_pgood0).
  destruct (Z.eqb_spec (wrap 64 (Z.of_nat (length (rg_popped s)))) (wrap 64 (Z.of_nat t))) as [Eq|Hne]; injection E as <-;
    (split; unfold reads_done; cbn [on_pop rg_ub rg_mem rg_push rg_pview rg_pop rg_cview rg_pushed rg_popped]; try done; try lia).
  split; [done|]. assert (length (rg_popped s) <> t) by (intros E0; apply Hne; by rewrite E0). lia.
Qed.

Lemma pop_full t s s' head :
  rg_pop s = PopFull head -> Inv s -> spread (length (rg_pushed s)) -> pop_step N t s = Some s' -> Inv s'.
Proof.
  intros Ep I Hsp E. pose proof (popped_le s I). destruct I.
  unfold pop_step in E. rewrite Ep in E, iv_pop0. destruct iv_pop0 as [-> Hmore].
  pose proof (gd_tail _ _ _ iv_cgood0) as Hct. pose proof (gd_head _ _ _ iv_pgood0) as Hph.
  unfold reads_done in *. rewrite Ep in *. fold (slot_of (length (rg_popped s))) in E.
  set (p := length (rg_pushed s)) in *. set (c := length (rg_popped s)) in *. set (i := slot_of c) in *.
  destruct (iv_cells0 i) as (Hw & Hr & Hr0). rewrite Nat.add_0_r in Hr.
  destruct (lookup_lt_is_Some_2 (rg_pushed s) c ltac:(lia)) as [v Ev].
  assert (p <= length (written s))%nat as Hwr by (unfold written; rewrite length_app; lia).
  assert (length (written s) <= S p)%nat as Hwr'
    by (unfold written; rewrite length_app; destruct (rg_push s); cbn; lia).
  assert (Z.of_nat (length (written s)) <= Z.of_nat c + N) as Hlap.
  { unfold written. rewrite length_app. pose proof iv_push0 as Hp. destruct (rg_push s); cbn; lia. }
  rewrite (cell_read_ok _ _ _ v) in E.
  - cbn in E. injection E as <-.
    assert (forall n, view_see (rg_cview s) (KRead i CONSUMER) n (KAtomic HEAD) = rg_cview s (KAtomic HEAD)) as E1 by (intros; by apply view_see_ne).
    assert (forall n, view_see (rg_cview s) (KRead i CONSUMER) n (KAtomic TAIL) = rg_cview s (KAtomic TAIL)) as E2 by (intros; by apply view_see_ne).
    split; unfold reads_done; cbn [on_pop rg_ub rg_mem rg_push rg_pview rg_pop rg_cview rg_pushed rg_popped m_at m_cell];
      rewrite ?E1, ?E2; try done.
    + destruct iv_cgood0 as [G1 G2 G3 G4]. split; rewrite ?E1, ?E2; try done; intros j.
      * etransitivity; [apply G3|apply Nat.le_max_l].
      * rewrite view_see_ne by done. apply G4.
    + intros j. fold c. rewrite Nat.add_1_r. cbn [uses]. fold i. destruct (decide (i = j)) as [<-|Hne].
      * rewrite upd_eq. cbn [c_writes c_reads]. rewrite upd_eq, upd_ne by done. split; [done|]. split; [lia|done].
      * rewrite upd_ne by done. rewrite !Nat.add_0_r in *. apply iv_cells0.
    + intros k w Hk Ew. destruct (decide (i = slot_of k)) as [Ei|Hne].
      * rewrite <- Ei, upd_eq. cbn [c_val]. rewrite <- (iv_vals0 k w Hk Ew), <- Ei. symmetry. apply iv_vals0; [done|].
        unfold written. by apply lookup_app_l_Some.
      * rewrite upd_ne by done. by apply iv_vals0.
    + split; [done|]. split; [done|]. split; [done|]. intros j. cbn [uses]. fold c. fold i.
      pose proof (gd_reads _ _ _ iv_cgood0 j) as G. rewrite iv_chead0 in G.
      destruct (decide (i = j)) as [<-|Hne]; [rewrite view_see_eq; lia|]. rewrite view_see_ne by congruence. lia.
  - rewrite Hw. etransitivity; [|apply (gd_writes _ _ _ iv_cgood0)].
    destruct (Nat.le_ge_cases (rg_cview s (KAtomic TAIL)) (length (written s))) as [Hle|Hge]; [|by apply uses_mono].
    rewrite (uses_same _ _ _ Hle); [done|]. intros k Hk Ei. unfold i in Ei. symmetry in Ei. revert Ei. apply Hsp; lia.
  - apply iv_vals0; [done|]. unfold written. by apply lookup_app_l_Some.
Qed.

Lemma pop_read t s s' v head : rg_pop s = PopRead v head -> Inv s -> pop_step N t s = Some s' -> Inv s'.
Proof.
  intros Ep [] E. unfold pop_step in E. rewrite Ep in E, iv_pop0.
  destruct iv_pop0 as (-> & Hmore & Ev & Hknow). unfold atomic_store in E. injection E as <-.
  rewrite wadd_count. cbn [releases]. destruct iv_head0 as [Hl Hh]. rewrite Hl.
  set (c := length (rg_popped s)) in *. set (V := view_see (rg_cview s) (KAtomic HEAD) (S c)).
  assert (V (KAtomic TAIL) = rg_cview s (KAtomic TAIL)) as E1 by (by apply view_see_ne).
  assert (V (KAtomic HEAD) = S c) as E2 by (unfold V; rewrite view_see_eq; lia).
  assert (length (rg_popped s ++ [v]) = S c) as Elen by (rewrite length_app; cbn; lia).
  assert (good (length (rg_pushed s)) (S c) V) as Hg.
  { destruct iv_cgood0 as [G1 G2 G3 G4]. split; rewrite ?E1, ?E2; [done|done| |]; intros j; unfold V; rewrite view_see_ne by done; [|apply G4].
    apply Hknow. }
  unfold reads_done in *. rewrite Ep in *.
  split; unfold reads_done; cbn [on_pop answer_pop rg_ub rg_mem rg_push rg_pview rg_pop rg_cview rg_pushed rg_popped];
    rewrite ?Elen, ?E1, ?E2, ?m_push_cell, ?Nat.add_0_r; try done; try lia.
  - rewrite m_push_at_ne by done. by apply (history_mono (length (rg_pushed s)) _ c); [| |lia].
  - rewrite m_push_at_eq. apply history_push; [|done|lia]. by apply (history_mono (length (rg_pushed s)) _ c); [| |lia].
  - by apply (good_mono (length (rg_pushed s)) _ c); [| |lia].
  - rewrite iv_prefix0 at 1. symmetry. by apply take_S_r.
  - intros i. fold c in iv_cells0. rewrite Nat.add_1_r in iv_cells0. apply iv_cells0.
  - intros k w Hk. apply iv_vals0. lia.
Qed.

(** ** Runs *)

Lemma step_prefix a s s' : ring_step N a s = Some s' -> exists l, rg_pushed s' = rg_pushed s ++ l.
Proof.
  assert (exists l, rg_pushed s = rg_pushed s ++ l) as H0 by (exists []; by rewrite app_nil_r).
  unfold ring_step. destruct (rg_ub s); [done|]. destruct a as [value t|t]; unfold push_step, pop_step; intros E.
  - destruct (rg_push s).
    + destruct (atomic_load _ _ _ _ _) as [[? ?]|]; [|done]. by injection E as <-.
    + destruct (atomic_load _ _ _ _ _) as [[? ?]|]; [|done]. cbn in E. destruct (N <=? _); by injection E as <-.
    + destruct (cell_write _ _ _ _ _) as [[? ?]|]; by injection E as <-.
    + cbn in E. injection E as <-. by eexists.
  - destruct (rg_pop s).
    + destruct (atomic_load _ _ _ _ _) as [[? ?]|]; [|done]. by injection E as <-.
    + destruct (atomic_load _ _ _ _ _) as [[? ?]|]; [|done]. cbn in E. destruct (_ =? _); by injection E as <-.
    + destruct (cell_read _ _ _ _) as [[[? ?] ?]|]; by injection E as <-.
    + cbn in E. by injection E as <-.
Qed.

Lemma step_pushed a s s' : ring_step N a s = Some s' -> (length (rg_pushed s) <= length (rg_pushed s'))%nat.
Proof. intros E. apply step_prefix in E as [l ->]. rewrite length_app. lia. Qed.

Lemma run_prefix acts s s' : ring_run N acts s = Some s' -> exists l, rg_pushed s' = rg_pushed s ++ l.
Proof.
  revert s. induction acts as [|a acts IH]; intros s E; [injection E as <-; exists []; by rewrite app_nil_r|]. cbn in E.
  destruct (ring_step N a s) as [s1|] eqn:E1; [|done]. apply step_prefix in E1 as [l1 E1]. apply IH in E as [l ->].
  exists (l1 ++ l). by rewrite E1, app_assoc.
Qed.

Lemma run_pushed acts s s' : ring_run N acts s = Some s' -> (length (rg_pushed s) <= length (rg_pushed s'))%nat.
Proof. intros E. apply run_prefix in E as [l ->]. rewrite length_app. lia. Qed.

Lemma Inv_step a s s' : Inv s -> spread (length (rg_pushed s)) -> ring_step N a s = Some s' -> Inv s'.
Proof.
  intros I Hsp E. unfold ring_step in E. rewrite (iv_ub _ I) in E. destruct a as [value t|t].
  - destruct (rg_push s) eqn:Ep; [by eapply push_idle|by eapply push_tail|by eapply push_free|by eapply push_written].
  - destruct (rg_pop s) eqn:Ep; [by eapply pop_idle|by eapply pop_head|by eapply pop_full|by eapply pop_read].
Qed.

Lemma Inv_run acts s s' : Inv s -> ring_run N acts s = Some s' -> spread (length (rg_pushed s')) -> Inv s'.
Proof.
  revert s. induction acts as [|a acts IH]; intros s I E Hsp; [by injection E as <-|]. cbn in E.
  destruct (ring_step N a s) as [s1|] eqn:E1; [|done]. apply (IH s1); [|done|done].
  apply (Inv_step a s); [done| |done]. eapply spread_le; [exact Hsp|].
  transitivity (length (rg_pushed s1)); [by eapply step_pushed|by eapply run_pushed].
Qed.

Lemma queue_of s : Inv s -> exists queue, rg_pushed s = rg_popped s ++ queue /\ zlen queue <= N.
Proof.
  intros I. exists (drop (length (rg_popped s)) (rg_pushed s)). split.
  - rewrite (iv_prefix _ I) at 1. by rewrite take_drop.
  - rewrite zlen_drop. pose proof (iv_room _ I). pose proof (gd_head _ _ _ (iv_pgood _ I)). unfold zlen. lia.
Qed.

(** A step of a thread that is in the middle of a call is always there to take, and
    it decides on the value it reads. *)
Lemma load_there p c l h n m o (V : view) t :
  m_at m l = h -> history p c l h n -> (V (KAtomic l) <= t <= n)%nat ->
  exists x V', h !! t = Some x /\ @atomic_load T m o l t V = Some (wrap 64 (Z.of_nat t), V') /\
    V' = view_join (view_see V (KAtomic l) t) (if acquires o then m_view x else view_bot).
Proof.
  intros <- [Hl Hh] Ht. destruct (lookup_lt_is_Some_2 (m_at m l) t ltac:(lia)) as [x Ex].
  exists x. eexists. split; [done|]. unfold atomic_load. rewrite decide_True by lia. rewrite Ex. cbn.
  split; [|done]. by destruct (Hh _ _ Ex) as (-> & _).
Qed.

Lemma ring_run_app acts acts' s s1 : ring_run N acts s = Some s1 -> ring_run N (acts ++ acts') s = ring_run N acts' s1.
Proof.
  revert s. induction acts as [|a acts IH]; intros s E; [by injection E as ->|]. cbn in *.
  destruct (ring_step N a s) as [s2|]; [|done]. cbn in *. by apply IH.
Qed.

Lemma ring_step_push v t s : Inv s -> ring_step N (Pushing v t) s = push_step N v t s.
Proof. intros I. unfold ring_step. by rewrite (iv_ub _ I). Qed.

Lemma ring_step_pop t s : Inv s -> ring_step N (Popping t) s = pop_step N t s.
Proof. intros I. unfold ring_step. by rewrite (iv_ub _ I). Qed.

(** A call of [push] that finds the head at [t]. *)
Lemma push_call v t s :
  Inv s -> spread (length (rg_pushed s)) -> rg_push s = PushIdle ->
  (rg_pview s (KAtomic HEAD) <= t <= length (rg_popped s))%nat ->
  exists n s', ring_run N (firstn n [Pushing v (length (rg_pushed s)); Pushing v t; Pushing v 0; Pushing v 0]) s = Some s' /\
    rg_push s' = PushIdle /\ rg_popped s' = rg_popped s /\
    if N <=? Z.of_nat (length (rg_pushed s)) - Z.of_nat t
    then rg_pushed s' = rg_pushed s /\ rg_refused s' = rg_refused s ++ [v]
    else rg_pushed s' = rg_pushed s ++ [v] /\ rg_refused s' = rg_refused s.
Proof.
  intros I Hsp Ep Ht. pose proof (popped_le s I) as Hpc. pose proof (iv_room s I) as Hroom.
  destruct (load_there _ _ _ _ _ (rg_mem s) Relaxed (rg_pview s) (length (rg_pushed s)) eq_refl (iv_tail _ I)
    ltac:(rewrite (iv_ptail _ I); lia)) as (x & V & _ & E1 & EV). cbn [acquires] in EV.
  assert (ring_step N (Pushing v (length (rg_pushed s))) s =
    Some (on_push s (rg_mem s) (PushTail v (wrap 64 (Z.of_nat (length (rg_pushed s))))) V)) as S1.
  { rewrite ring_step_push by done. unfold push_step. rewrite Ep, E1. done. }
  pose proof (Inv_step _ _ _ I Hsp S1) as I1. set (s1 := on_push s _ _ V) in *.
  destruct (load_there _ _ _ _ _ (rg_mem s1) Acquire (rg_pview s1) t eq_refl (iv_head _ I1)) as (y & V2 & _ & E2 & _).
  { cbn. rewrite EV, own_view_same by apply (iv_ptail _ I). done. }
  assert (push_step N v t s1 = if N <=? Z.of_nat (length (rg_pushed s)) - Z.of_nat t
    then Some (answer_push (on_push s1 (rg_mem s1) PushIdle V2) (inr v))
    else Some (on_push s1 (rg_mem s1) (PushFree v (wrap 64 (Z.of_nat (length (rg_pushed s))))) V2)) as S2.
  { unfold push_step at 1. cbn [rg_push s1 on_push]. rewrite E2. cbn [mbind option_bind].
    rewrite wsub_count by lia. done. }
  destruct (N <=? _) eqn:Efull.
  { exists 2%nat. eexists. cbn [firstn ring_run]. rewrite S1. cbn [mbind option_bind]. rewrite ring_step_push by done.
    rewrite S2. cbn. done. }
  rewrite <- (ring_step_push v t s1 I1) in S2. pose proof (Inv_step _ _ _ I1 Hsp S2) as I2. set (s2 := on_push s1 _ _ V2) in *.
  destruct (push_step N v 0 s2) as [s3|] eqn:S3.
  2: { unfold push_step in S3. cbn [rg_push s2 on_push] in S3. by destruct (cell_write _ _ _ _ _) as [[? ?]|]. }
  pose proof S3 as S3'. rewrite <- (ring_step_push v 0 s2 I2) in S3'. pose proof (Inv_step _ _ _ I2 Hsp S3') as I3.
  unfold push_step in S3. cbn [rg_push s2 on_push] in S3.
  destruct (cell_write _ _ _ _ _) as [[m3 V3]|]; injection S3 as <-; [|by apply iv_ub in I3].
  exists 4%nat. eexists. cbn [firstn ring_run]. rewrite S1. cbn [mbind option_bind]. rewrite S2. cbn [mbind option_bind].
  rewrite S3'. cbn [mbind option_bind]. rewrite ring_step_push by done. cbn. done.
Qed.

(** A call of [pop] that finds the tail at [t]. *)
Lemma pop_call t s :
  Inv s -> spread (length (rg_pushed s)) -> rg_pop s = PopIdle ->
  (rg_cview s (KAtomic TAIL) <= t <= length (rg_pushed s))%nat ->
  exists n s', ring_run N (firstn n [Popping (length (rg_popped s)); Popping t; Popping 0; Popping 0]) s = Some s' /\
    rg_pop s' = PopIdle /\ rg_pushed s' = rg_pushed s /\
    if decide (t = length (rg_popped s)) then rg_popped s' = rg_popped s
    else exists v, rg_pushed s !! length (rg_popped s) = Some v /\ rg_popped s' = rg_popped s ++ [v].
Proof.
  intros I Hsp Ep Ht. pose proof (popped_le s I) as Hpc. pose proof (iv_room s I) as Hroom. pose proof (iv_seen s I) as Hseen.
  pose proof (gd_head _ _ _ (iv_pgood _ I)).
  destruct (load_there _ _ _ _ _ (rg_mem s) Relaxed (rg_cview s) (length (rg_popped s)) eq_refl (iv_head _ I)
    ltac:(rewrite (iv_chead _ I); lia)) as (x & V & _ & E1 & EV). cbn [acquires] in EV.
  assert (ring_step N (Popping (length (rg_popped s))) s =
    Some (on_pop s (rg_mem s) (PopHead (wrap 64 (Z.of_nat (length (rg_popped s))))) V)) as S1.
  { rewrite ring_step_pop by done. unfold pop_step. rewrite Ep, E1. done. }
  pose proof (Inv_step _ _ _ I Hsp S1) as I1. set (s1 := on_pop s _ _ V) in *.
  destruct (load_there _ _ _ _ _ (rg_mem s1) Acquire (rg_cview s1) t eq_refl (iv_tail _ I1)) as (y & V2 & _ & E2 & _).
  { cbn. rewrite EV, own_view_same by apply (iv_chead _ I). done. }
  assert (pop_step N t s1 = if decide (t = length (rg_popped s)) then Some (on_pop s1 (rg_mem s1) PopIdle V2)
    else Some (on_pop s1 (rg_mem s1) (PopFull (wrap 64 (Z.of_nat (length (rg_popped s))))) V2)) as S2.
  { unfold pop_step at 1. cbn [rg_pop s1 on_pop]. rewrite E2. cbn [mbind option_bind].
    destruct (Z.eqb_spec (wrap 64 (Z.of_nat (length (rg_popped s)))) (wrap 64 (Z.of_nat t))) as [Eq|Hne].
    - rewrite decide_True; [done|]. pose proof (wsub_count t (length (rg_popped s)) ltac:(lia) ltac:(lia)) as Hs.
      rewrite Eq in Hs. unfold wsub, wrap in Hs. rewrite Z.sub_diag in Hs. change (0 mod 2 ^ 64) with 0 in Hs. lia.
    - rewrite decide_False; [done|]. intros ->. by apply Hne. }
  destruct (decide (t = length (rg_popped s))) as [Eq|Hne].
  { exists 2%nat. eexists. cbn [firstn ring_run]. rewrite S1. cbn [mbind option_bind]. rewrite ring_step_pop by done.
    rewrite S2. cbn. done. }
  rewrite <- (ring_step_pop t s1 I1) in S2. pose proof (Inv_step _ _ _ I1 Hsp S2) as I2. set (s2 := on_pop s1 _ _ V2) in *.
  destruct (pop_step N 0 s2) as [s3|] eqn:S3.
  2: { unfold pop_step in S3. cbn [rg_pop s2 on_pop] in S3. by destruct (cell_read _ _ _ _) as [[[? ?] ?]|]. }
  pose proof S3 as S3'. rewrite <- (ring_step_pop 0 s2 I2) in S3'. pose proof (Inv_step _ _ _ I2 Hsp S3') as I3.
  unfold pop_step in S3. cbn [rg_pop s2 on_pop] in S3.
  destruct (cell_read _ _ _ _) as [[[v m3] V3]|]; injection S3 as <-; [|by apply iv_ub in I3].
  exists 4%nat. eexists. cbn [firstn ring_run]. rewrite S1. cbn [mbind option_bind]. rewrite S2. cbn [mbind option_bind].
  rewrite S3'. cbn [mbind option_bind]. rewrite ring_step_pop by done. cbn. split; [done|]. split; [done|]. split; [done|].
  exists v. split; [|done]. pose proof (iv_pop _ I3) as H3. cbn in H3. apply H3.
Qed.

Lemma len_producer s t t' n V : Inv s -> ring_len s (rg_pview s) t t' = Some (n, V) ->
  zlen (rg_pushed s) - zlen (rg_popped s) <= n <= N.
Proof.
  intros I E. unfold ring_len in E. pose proof (popped_le s I). pose proof (iv_room s I).
  destruct (atomic_load (rg_mem s) Acquire TAIL _ _) as [[tail V1]|] eqn:E1; [|done]. cbn in E.
  destruct (atomic_load (rg_mem s) Acquire HEAD _ _) as [[head V2]|] eqn:E2; [|done]. cbn in E. injection E as <- _.
  apply atomic_load_inv in E1 as (x & Ex & Ht & -> & ->). apply atomic_load_inv in E2 as (y & Ey & Ht' & -> & _).
  pose proof (history_lt _ _ _ _ _ _ _ (iv_tail _ I) Ex). pose proof (history_lt _ _ _ _ _ _ _ (iv_head _ I) Ey).
  rewrite (iv_ptail _ I) in Ht. assert (t = length (rg_pushed s)) as -> by lia.
  destruct (proj2 (iv_tail _ I) _ _ Ex) as (-> & _). destruct (proj2 (iv_head _ I) _ _ Ey) as (-> & _).
  assert (rg_pview s (KAtomic HEAD) <= t')%nat.
  { etransitivity; [|exact Ht']. transitivity (view_see (rg_pview s) (KAtomic TAIL) (length (rg_pushed s)) (KAtomic HEAD));
      [by rewrite view_see_ne|apply Nat.le_max_l]. }
  unfold zlen. rewrite wsub_count; lia.
Qed.

Lemma len_consumer s t t' n V : Inv s -> ring_len s (rg_cview s) t t' = Some (n, V) ->
  0 <= n <= zlen (rg_pushed s) - zlen (rg_popped s).
Proof.
  intros I E. unfold ring_len in E. pose proof (popped_le s I). pose proof (iv_room s I). pose proof (iv_seen s I).
  pose proof (gd_head _ _ _ (iv_pgood _ I)).
  destruct (atomic_load (rg_mem s) Acquire TAIL _ _) as [[tail V1]|] eqn:E1; [|done]. cbn in E.
  destruct (atomic_load (rg_mem s) Acquire HEAD _ _) as [[head V2]|] eqn:E2; [|done]. cbn in E. injection E as <- _.
  apply atomic_load_inv in E1 as (x & Ex & Ht & -> & ->). apply atomic_load_inv in E2 as (y & Ey & Ht' & -> & _).
  pose proof (history_lt _ _ _ _ _ _ _ (iv_tail _ I) Ex). pose proof (history_lt _ _ _ _ _ _ _ (iv_head _ I) Ey).
  assert (length (rg_popped s) <= t')%nat.
  { rewrite <- (iv_chead _ I). etransitivity; [|exact Ht']. transitivity (view_see (rg_cview s) (KAtomic TAIL) t (KAtomic HEAD));
      [by rewrite view_see_ne|apply Nat.le_max_l]. }
  assert (t' = length (rg_popped s)) as -> by lia.
  destruct (proj2 (iv_tail _ I) _ _ Ex) as (-> & _). destruct (proj2 (iv_head _ I) _ _ Ey) as (-> & _).
  unfold zlen. rewrite wsub_count; lia.
Qed.

End Safety.

(** C15: Whatever the interleaving of the two threads' accesses and whichever of the
    values still open to it each load answers with: no access of a slot races with
    another and no slot is read before it is written; what was popped is a prefix
    of what was pushed, in order, with at most [N] between them; a push ends, and
    is refused exactly when [N] values are in the ring by the head it read; a pop
    ends, and gives the next value unless the tail it read is there; and [len] asked
    by an end never exceeds the capacity.  The counters wrap at 2^64: where the
    capacity does not divide it, up to the wrap. *)
Theorem ring_fifo {T} (N : Z) (acts : list (RingAct T)) (s : Ring T) :
  0 < N < 2 ^ 64 -> ring_run N acts Ring_new = Some s -> (N | 2 ^ 64) \/ zlen (rg_pushed s) < 2 ^ 64 ->
  rg_ub s = false /\
  (exists queue, rg_pushed s = rg_popped s ++ queue /\ zlen queue <= N) /\
  (forall v t, rg_push s = PushIdle -> (rg_pview s (KAtomic HEAD) <= t <= length (rg_popped s))%nat ->
    exists n s', ring_run N (firstn n [Pushing v (length (rg_pushed s)); Pushing v t; Pushing v 0; Pushing v 0]) s = Some s' /\
      rg_push s' = PushIdle /\ rg_popped s' = rg_popped s /\
      if N <=? Z.of_nat (length (rg_pushed s)) - Z.of_nat t
      then rg_pushed s' = rg_pushed s /\ rg_refused s' = rg_refused s ++ [v]
      else rg_pushed s' = rg_pushed s ++ [v] /\ rg_refused s' = rg_refused s) /\
  (forall t, rg_pop s = PopIdle -> (rg_cview s (KAtomic TAIL) <= t <= length (rg_pushed s))%nat ->
    exists n s', ring_run N (firstn n [Popping (length (rg_popped s)); Popping t; Popping 0; Popping 0]) s = Some s' /\
      rg_pop s' = PopIdle /\ rg_pushed s' = rg_pushed s /\
      if decide (t = length (rg_popped s)) then rg_popped s' = rg_popped s
      else exists v, rg_pushed s !! length (rg_popped s) = Some v /\ rg_popped s' = rg_popped s ++ [v]) /\
  (forall V t t' n V', V = rg_pview s \/ V = rg_cview s -> ring_len s V t t' = Some (n, V') -> 0 <= n <= N).
Proof.
  intros HN Er Hw. pose proof (spread_ok N HN (length (rg_pushed s)) Hw) as Hsp.
  pose proof (Inv_run N HN acts _ _ (Inv_init N HN) Er Hsp) as I. pose proof (popped_le N s I).
  destruct (queue_of N HN s I) as (queue & Eq & Hq).
  split; [apply (iv_ub _ _ I)|]. split; [by exists queue|]. split; [by intros; apply push_call|]. split; [by intros; apply pop_call|].
  intros V t t' n V' [-> | ->] El.
  - eapply len_producer in El; [|done..]. unfold zlen in *. lia.
  - eapply len_consumer in El; [|done..]. rewrite Eq, zlen_app in El. lia.
Qed.

(** A run in which the head read is behind. *)
Definition sample_ring : list (RingAct Z) :=
  [Pushing 7 0; Pushing 7 0; Popping 0; Pushing 7 0; Popping 0; Pushing 7 0; Popping 0; Popping 1;
   Pushing 8 1; Pushing 8 0; Pushing 8 0; Popping 0; Pushing 8 0; Popping 0; Pushing 9 2; Pushing 9 0].

Lemma ring_fifo_witness :
  exists s, ring_run 2 sample_ring Ring_new = Some s /\ rg_ub s = false /\
    exists queue, rg_pushed s = rg_popped s ++ queue /\ zlen queue <= 2.
Proof.
  destruct (ring_run 2 sample_ring Ring_new) as [s|] eqn:E; [|vm_compute in E; discriminate].
  exists s. split; [reflexivity|].
  destruct (ring_fifo 2 sample_ring s ltac:(lia) E ltac:(left; exists (2 ^ 63); lia)) as (Hu & Hq & _).
  split; [exact Hu|exact Hq].
Defined.

(** ** What a push carries *)

Section Carry.
Context {T : Type} (N : Z) (HN : 0 < N < 2 ^ 64).
Implicit Types (s : Ring T).

Local Abbreviation tails s := (m_at (rg_mem s) TAIL).

Record Carry s : Prop := mkCarry {
  ca_own : forall t x, tails s !! t = Some x -> view_le (m_view x) (rg_pview s);
  ca_mono : forall t t' x x', (t <= t')%nat -> tails s !! t = Some x -> tails s !! t' = Some x' -> view_le (m_view x) (m_view x');
  ca_top : forall t x, tails s !! t = Some x -> (m_view x (KAtomic TAIL) <= t)%nat;
  ca_seen : forall t x, tails s !! t = Some x -> (t <= rg_cview s (KAtomic TAIL))%nat -> view_le (m_view x) (rg_cview s);
}.

Lemma Carry_init : Carry Ring_new.
Proof.
  assert (forall t x, tails (Ring_new (T:=T)) !! t = Some x -> m_view x = view_bot) as Hb
    by (intros [|t] x E; [by injection E as <-|done]).
  split; intros; repeat match goal with H : _ !! _ = Some _ |- _ => apply Hb in H; rewrite H end; try (intros key); unfold view_bot; lia.
Qed.

(** The histories only grow. *)
Lemma push_step_tails v t s s' : push_step N v t s = Some s' -> exists l, tails s' = tails s ++ l.
Proof.
  unfold push_step. destruct (rg_push s); intros E.
  - destruct (atomic_load _ _ _ _ _) as [[? ?]|]; [|done]. injection E as <-. exists []. by rewrite app_nil_r.
  - destruct (atomic_load _ _ _ _ _) as [[? ?]|]; [|done]. cbn in E. exists []. rewrite app_nil_r. by destruct (N <=? _); injection E as <-.
  - exists []. rewrite app_nil_r. destruct (cell_write _ _ _ _ _) as [[m V]|] eqn:Ew; injection E as <-; [|done]. cbn.
    unfold cell_write in Ew. destruct (decide _); [|done]. destruct (forallb _ _); [|done]. by injection Ew as <- _.
  - cbn in E. injection E as <-. eexists. cbn. apply upd_eq.
Qed.

Lemma pop_step_tails t s s' : pop_step N t s = Some s' -> tails s' = tails s.
Proof.
  unfold pop_step. destruct (rg_pop s); intros E.
  - destruct (atomic_load _ _ _ _ _) as [[? ?]|]; [|done]. by injection E as <-.
  - destruct (atomic_load _ _ _ _ _) as [[? ?]|]; [|done]. cbn in E. by destruct (_ =? _); injection E as <-.
  - destruct (cell_read _ _ _ _) as [[[v m] V]|] eqn:Er; injection E as <-; [|done]. cbn.
    unfold cell_read in Er. destruct (decide _); [|done]. destruct (c_val _); [|done]. cbn in Er. by injection Er as _ <- _.
  - cbn in E. injection E as <-. cbn. by apply upd_ne.
Qed.

(** The producer's view grows, the consumer's stays. *)
Lemma Carry_push_local s s' :
  Carry s -> tails s' = tails s -> view_le (rg_pview s) (rg_pview s') -> rg_cview s' = rg_cview s -> Carry s'.
Proof.
  intros [] Et HV Ec. split; rewrite ?Et, ?Ec; try done. intros t x E. eapply view_le_trans; [by eapply ca_own0|done].
Qed.

Lemma Carry_push v t s s' : Inv N s -> Carry s -> push_step N v t s = Some s' -> Carry s'.
Proof.
  intros I C E. unfold push_step in E. destruct (rg_push s) eqn:Ep.
  - destruct (atomic_load _ _ _ _ _) as [[? V]|] eqn:El; [|done]. injection E as <-. apply (Carry_push_local s); [done..| |done].
    apply atomic_load_inv in El as (x & _ & _ & _ & ->). intros key. cbn. view_lia.
  - destruct (atomic_load _ _ _ _ _) as [[? V]|] eqn:El; [|done]. cbn in E. apply atomic_load_inv in El as (x & _ & _ & _ & ->).
    destruct (N <=? _); injection E as <-; (apply (Carry_push_local s); [done..| |done]; intros key; cbn; view_lia).
  - destruct (cell_write _ _ _ _ _) as [[m V]|] eqn:Ew; injection E as <-; [|by apply (Carry_push_local s); [| |intros key|]].
    unfold cell_write in Ew. destruct (decide _); [|done]. destruct (forallb _ _); [|done]. injection Ew as <- <-.
    apply (Carry_push_local s); [done..| |done]. apply view_see_le.
  - unfold atomic_store in E. cbn [releases] in E. injection E as <-. destruct C. pose proof (iv_ptail _ _ I) as Hp. destruct (iv_tail _ _ I) as [Hl _].
    pose proof (gd_tail _ _ _ _ (iv_cgood _ _ I)) as Hc. set (V := view_see _ _ _). set (y := mkMsg _ V).
    assert (forall t x, tails s !! t = Some x -> view_le (m_view x) V) as Hle
      by (intros ? ? Ex; eapply view_le_trans; [by eapply ca_own0|apply view_see_le]).
    split; cbn [on_push answer_push rg_mem rg_pview rg_cview]; rewrite m_push_at_eq.
    + intros t' x Ex. apply lookup_app_Some in Ex as [Ex|[_ Ex]]; [by eapply Hle|]. apply list_lookup_singleton_Some in Ex as [_ <-]. by intros key.
    + intros t1 t2 x1 x2 Ht E1 E2. apply lookup_app_Some in E2 as [E2|[Hge E2]].
      * apply lookup_app_Some in E1 as [E1|[Hge1 E1]]; [by eapply ca_mono0|]. apply lookup_lt_Some in E2. lia.
      * apply list_lookup_singleton_Some in E2 as [_ <-]. apply lookup_app_Some in E1 as [E1|[_ E1]]; [by eapply Hle|].
        apply list_lookup_singleton_Some in E1 as [_ <-]. by intros key.
    + intros t' x Ex. apply lookup_app_Some in Ex as [Ex|[Hge Ex]]; [by apply ca_top0|].
      apply list_lookup_singleton_Some in Ex as [Et <-]. unfold y, V. cbn [m_view]. rewrite view_see_eq. lia.
    + intros t' x Ex Ht. apply lookup_app_Some in Ex as [Ex|[Hge Ex]]; [by eapply ca_seen0|]. lia.
Qed.

(** The consumer's view grows, what it knows of the tail stays. *)
Lemma Carry_pop_local s s' :
  Carry s -> tails s' = tails s -> rg_pview s' = rg_pview s -> view_le (rg_cview s) (rg_cview s') ->
  rg_cview s' (KAtomic TAIL) = rg_cview s (KAtomic TAIL) -> Carry s'.
Proof.
  intros [] Et Ep HV Ec. split; rewrite ?Et, ?Ep, ?Ec; try done. intros t x E Ht. eapply view_le_trans; [by eapply ca_seen0|done].
Qed.

Lemma Carry_pop t s s' : Carry s -> pop_step N t s = Some s' -> Carry s'.
Proof.
  intros C E. pose proof (pop_step_tails _ _ _ E) as Et. unfold pop_step in E. destruct (rg_pop s) eqn:Ep.
  - destruct (atomic_load _ _ _ _ _) as [[? V]|] eqn:El; [|done]. injection E as <-. apply atomic_load_inv in El as (x & _ & _ & _ & ->).
    apply (Carry_pop_local s); [done..| |]; cbn; [intros key; view_lia|]. unfold view_join. rewrite view_see_ne by done. unfold view_bot. lia.
  - destruct (atomic_load _ _ _ _ _) as [[? V]|] eqn:El; [|done]. cbn in E. apply atomic_load_inv in El as (x & Ex & _ & _ & ->).
    destruct C. pose proof (ca_top0 _ _ Ex) as Htop. set (V := view_join _ _) in *.
    assert (rg_pview s' = rg_pview s /\ rg_cview s' = V) as [Epv Ecv] by (destruct (_ =? _); by injection E as <-).
    split; rewrite ?Et, ?Epv, ?Ecv; try done. intros t' y Ey Ht'.
    assert (t' <= rg_cview s (KAtomic TAIL) \/ t' <= t)%nat as [H|H].
    { unfold V, view_join in Ht'. rewrite view_see_eq in Ht'. cbn [acquires] in Ht'. lia. }
    + eapply view_le_trans; [by eapply ca_seen0|]. intros key. unfold V. view_lia.
    + eapply view_le_trans; [by eapply (ca_mono0 t' t)|]. unfold V. cbn [acquires]. apply view_join_r.
  - destruct (cell_read _ _ _ _) as [[[v m] V]|] eqn:Er; injection E as <-; [|by apply (Carry_pop_local s); [| | |intros key|]].
    unfold cell_read in Er. destruct (decide _); [|done]. destruct (c_val _); [|done]. cbn in Er. injection Er as _ <- <-.
    apply (Carry_pop_local s); [done..| |]; cbn; [apply view_see_le|by rewrite view_see_ne].
  - unfold atomic_store in E. injection E as <-. apply (Carry_pop_local s); [done..| |]; cbn; [apply view_see_le|by rewrite view_see_ne].
Qed.

Lemma Carry_run acts s s' :
  Inv N s -> Carry s -> ring_run N acts s = Some s' -> spread N (length (rg_pushed s')) ->
  Inv N s' /\ Carry s' /\ exists l, tails s' = tails s ++ l.
Proof.
  revert s. induction acts as [|a acts IH]; intros s I C E Hsp; [injection E as <-; split; [done|]; split; [done|]; exists []; by rewrite app_nil_r|].
  cbn in E. destruct (ring_step N a s) as [s1|] eqn:E1; [|done].
  assert (spread N (length (rg_pushed s))) as Hsp0.
  { eapply spread_le; [exact Hsp|]. transitivity (length (rg_pushed s1)); [by eapply step_pushed|by eapply run_pushed]. }
  pose proof (Inv_step N HN a s s1 I Hsp0 E1) as I1. unfold ring_step in E1. rewrite (iv_ub _ _ I) in E1.
  assert (Carry s1 /\ exists l, tails s1 = tails s ++ l) as [C1 [l1 El1]].
  { destruct a as [v t|t].
    - split; [exact (Carry_push v t s s1 I C E1)|exact (push_step_tails v t s s1 E1)].
    - split; [exact (Carry_pop t s s1 C E1)|exists []; rewrite app_nil_r; exact (pop_step_tails t s s1 E1)]. }
  destruct (IH s1 I1 C1 E Hsp) as (I' & C' & l & El). split; [done|]. split; [done|]. exists (l1 ++ l). by rewrite El, El1, app_assoc.
Qed.

End Carry.

(** What the producer knew when it published a value, the consumer knows when it has
    read that value: the ring orders everything done before a push before everything
    done after the pop that returns it, whatever else the two threads share. *)
Theorem ring_carries {T} (N : Z) (before after : list (RingAct T)) (s1 s2 s3 : Ring T) (v v' : T) (t : nat) (tail head : Z) (w : T) :
  0 < N < 2 ^ 64 -> ring_run N before Ring_new = Some s1 -> rg_push s1 = PushWritten v tail ->
  ring_step N (Pushing w t) s1 = Some s2 -> ring_run N after s2 = Some s3 ->
  rg_pop s3 = PopRead v' head -> length (rg_popped s3) = length (rg_pushed s1) ->
  (N | 2 ^ 64) \/ zlen (rg_pushed s3) < 2 ^ 64 ->
  v' = v /\ view_le (rg_pview s1) (rg_cview s3).
Proof.
  intros HN E1 Ep E2 E3 Eo Hlen Hw. pose proof (spread_ok N HN (length (rg_pushed s3)) Hw) as Hsp.
  pose proof (step_pushed _ _ _ _ E2) as P2. pose proof (run_pushed _ _ _ _ E3) as P3.
  assert (spread N (length (rg_pushed s1))) as Hsp1 by (eapply spread_le; [exact Hsp|lia]).
  destruct (Carry_run N HN before _ _ (Inv_init N HN) (Carry_init) E1 Hsp1) as (I1 & C1 & _).
  pose proof (Inv_step N HN _ _ _ I1 Hsp1 E2) as I2.
  unfold ring_step in E2. rewrite (iv_ub _ _ I1) in E2. pose proof (Carry_push N _ _ _ _ I1 C1 E2) as C2.
  destruct (Carry_run N HN after _ _ I2 C2 E3 Hsp) as (I3 & C3 & l & El).
  unfold push_step in E2. rewrite Ep in E2. unfold atomic_store in E2. cbn [releases] in E2.
  destruct (iv_tail _ _ I1) as [Hl _]. rewrite Hl in E2. injection E2 as <-. cbn [on_push answer_push rg_mem] in El. rewrite m_push_at_eq in El.
  pose proof (iv_pop _ _ I3) as Hpop. rewrite Eo in Hpop. destruct Hpop as (_ & Hseen & Hv & _).
  set (y := mkMsg _ _) in El. assert (m_at (rg_mem s3) TAIL !! S (length (rg_pushed s1)) = Some y) as Ey.
  { rewrite El, <- app_assoc, lookup_app_r by lia. by rewrite Hl, Nat.sub_diag. }
  split.
  - apply run_prefix in E3 as [l' El']. cbn [on_push answer_push rg_pushed] in El'. rewrite Hlen, El', <- app_assoc, lookup_app_r, Nat.sub_diag in Hv by done. by injection Hv.
  - rewrite <- Hlen in Ey. eapply view_le_trans; [|eapply (ca_seen _ C3); [exact Ey|lia]]. apply view_see_le.
Qed.

Definition sample_state (acts : list (RingAct Z)) (s : Ring Z) : Ring Z := default Ring_new (ring_run 2 acts s).

Lemma ring_carries_witness :
  let s1 := sample_state [Pushing 7 0; Pushing 7 0; Pushing 7 0] Ring_new in
  let s2 := sample_state [Pushing 7 0] s1 in
  let s3 := sample_state [Popping 0; Popping 1; Popping 0] s2 in
  7 = 7 /\ view_le (rg_pview s1) (rg_cview s3).
Proof.
  intros s1 s2 s3.
  apply (ring_carries 2 [Pushing 7 0; Pushing 7 0; Pushing 7 0] [Popping 0; Popping 1; Popping 0] s1 s2 s3 7 7 0 0 0 7);
    [lia|vm_compute; reflexivity..|left; exists (2 ^ 63); lia].
Defined.
