(* ===== verification/Handoff.v ===== *)
(** One answer handed from another thread to the thread whose call it answers
    (crates/common/src/handoff.rs): any number of posters and one taker, one step per
    shared access, under the memory of Atomic. *)

From S2P Require Import Prelude Atomic.

(** The words of [Handoff]. *)
Definition STATE : nat := 0.
Definition VALUE : nat := 1.
Definition STATUS : nat := 2.

(** What the state word holds. *)
Definition EMPTY : Z := 0.
Definition WRITING : Z := 1.
Definition POSTED : Z := 2.

(** Where a poster is in [post]: before the exchange; holding the slot; the value
    stored; the status stored too. *)
Inductive PostPc :=
| PostIdle
| PostHeld (value status : Z)
| PostValue (value status : Z)
| PostStatus (value status : Z).

(** Where the taker is in [take]. *)
Inductive TakePc :=
| TakeIdle
| TakeSeen
| TakeValue (value : Z)
| TakeStatus (value status : Z).

Record Handoff := mkHandoff {
  ho_mem : Mem unit;
  ho_post : nat -> PostPc;
  ho_pview : nat -> view;
  ho_take : TakePc;
  ho_tview : view;
  ho_posted : list (Z * Z);
  ho_taken : list (Z * Z);
}.

(** [Handoff::new]. *)
Definition Handoff_new : Handoff :=
  mkHandoff (mem_init (fun _ => 0) None) (fun _ => PostIdle) (fun _ => view_bot) TakeIdle view_bot [] [].

Definition on_post (s : Handoff) (i : nat) (m : Mem unit) (pc : PostPc) (V : view) : Handoff :=
  mkHandoff m (upd (ho_post s) i pc) (upd (ho_pview s) i V) (ho_take s) (ho_tview s) (ho_posted s) (ho_taken s).
Definition on_take (s : Handoff) (m : Mem unit) (pc : TakePc) (V : view) : Handoff :=
  mkHandoff m (ho_post s) (ho_pview s) pc V (ho_posted s) (ho_taken s).

(** Poster [i]'s next access; a call that starts here posts [value] and [status]. *)
Definition post_step (i : nat) (value status : Z) (t : nat) (s : Handoff) : option Handoff :=
  let m := ho_mem s in
  let V := ho_pview s i in
  match ho_post s i with
  | PostIdle =>
      '(won, m, V) ← compare_exchange m Acquire Relaxed STATE EMPTY WRITING t V;
      Some (on_post s i m (if won : bool then PostHeld value status else PostIdle) V)
  | PostHeld value status =>
      let '(m, V) := atomic_store m Relaxed VALUE value V in Some (on_post s i m (PostValue value status) V)
  | PostValue value status =>
      let '(m, V) := atomic_store m Relaxed STATUS status V in Some (on_post s i m (PostStatus value status) V)
  | PostStatus value status =>
      let '(m, V) := atomic_store m Release STATE POSTED V in
      let s := on_post s i m PostIdle V in
      Some (mkHandoff (ho_mem s) (ho_post s) (ho_pview s) (ho_take s) (ho_tview s) (ho_posted s ++ [(value, status)]) (ho_taken s))
  end.

(** The taker's next access. *)
Definition take_step (t : nat) (s : Handoff) : option Handoff :=
  let m := ho_mem s in
  let V := ho_tview s in
  match ho_take s with
  | TakeIdle =>
      '(state, V) ← atomic_load m Acquire STATE t V;
      Some (on_take s m (if state =? POSTED then TakeSeen else TakeIdle) V)
  | TakeSeen => '(value, V) ← atomic_load m Relaxed VALUE t V; Some (on_take s m (TakeValue value) V)
  | TakeValue value => '(status, V) ← atomic_load m Relaxed STATUS t V; Some (on_take s m (TakeStatus value status) V)
  | TakeStatus value status =>
      let '(m, V) := atomic_store m Release STATE EMPTY V in
      let s := on_take s m TakeIdle V in
      Some (mkHandoff (ho_mem s) (ho_post s) (ho_pview s) (ho_take s) (ho_tview s) (ho_posted s) (ho_taken s ++ [(value, status)]))
  end.

Inductive HandoffAct := Posting (i : nat) (value status : Z) (t : nat) | Taking (t : nat).

Definition handoff_step (a : HandoffAct) (s : Handoff) : option Handoff :=
  match a with
  | Posting i value status t => post_step i value status t s
  | Taking t => take_step t s
  end.

Fixpoint handoff_run (acts : list HandoffAct) (s : Handoff) : option Handoff :=
  match acts with
  | [] => Some s
  | a :: acts => s ← handoff_step a s; handoff_run acts s
  end.

(** ** Every interleaving *)

(** The answer being written and how much of it is stored. *)
Definition in_hand (pc : PostPc) : option (Z * Z * nat * nat) :=
  match pc with
  | PostIdle => None
  | PostHeld v st => Some (v, st, 0%nat, 0%nat)
  | PostValue v st => Some (v, st, 1%nat, 0%nat)
  | PostStatus v st => Some (v, st, 1%nat, 1%nat)
  end.

(** Who holds the slot: nobody; poster [i], with its answer; the taker. *)
Inductive Phase := Free | Held (i : nat) (answer : Z * Z) (a b : nat) | Waiting (answer : Z * Z).

Definition phase_of (ph : Phase) : nat := match ph with Free => 0 | Held _ _ _ _ => 1 | Waiting _ => 2 end.
Definition values_of (ph : Phase) : nat := match ph with Free => 0 | Held _ _ a _ => a | Waiting _ => 1 end.
Definition statuses_of (ph : Phase) : nat := match ph with Free => 0 | Held _ _ _ b => b | Waiting _ => 1 end.
Definition answer_of (ph : Phase) : list (Z * Z) := match ph with Free => [] | Held _ x _ _ => [x] | Waiting x => [x] end.

Record HInv (s : Handoff) (ph : Phase) : Prop := mkHInv {
  hi_len : length (m_at (ho_mem s) STATE) = S (3 * length (ho_taken s) + phase_of ph);
  hi_state : forall t x, m_at (ho_mem s) STATE !! t = Some x -> m_val x = Z.of_nat (t mod 3);
  hi_release : forall t x, m_at (ho_mem s) STATE !! t = Some x -> (t mod 3 = 2)%nat ->
    (S (t / 3) <= m_view x (KAtomic VALUE))%nat /\ (S (t / 3) <= m_view x (KAtomic STATUS))%nat;
  hi_vlen : length (m_at (ho_mem s) VALUE) = S (length (ho_taken s) + values_of ph);
  hi_slen : length (m_at (ho_mem s) STATUS) = S (length (ho_taken s) + statuses_of ph);
  hi_values : forall r x, m_at (ho_mem s) VALUE !! S r = Some x -> (ho_taken s ++ answer_of ph).*1 !! r = Some (m_val x);
  hi_statuses : forall r x, m_at (ho_mem s) STATUS !! S r = Some x -> (ho_taken s ++ answer_of ph).*2 !! r = Some (m_val x);
  hi_posted : ho_posted s = ho_taken s ++ match ph with Waiting x => [x] | _ => [] end;
  hi_posters : forall i, match in_hand (ho_post s i) with
      | None => match ph with Held j _ _ _ => i <> j | _ => True end
      | Some (v, st, a, b) => ph = Held i (v, st) a b /\
          (a = 1%nat -> (S (length (ho_taken s)) <= ho_pview s i (KAtomic VALUE))%nat) /\
          (b = 1%nat -> (S (length (ho_taken s)) <= ho_pview s i (KAtomic STATUS))%nat)
      end;
  hi_tview : (3 * length (ho_taken s) <= ho_tview s (KAtomic STATE))%nat;
  hi_take : match ho_take s with
      | TakeIdle => True
      | pc => exists x, ph = Waiting x /\ (S (length (ho_taken s)) <= ho_tview s (KAtomic VALUE))%nat /\
          (S (length (ho_taken s)) <= ho_tview s (KAtomic STATUS))%nat /\
          match pc with
          | TakeValue v => v = fst x
          | TakeStatus v st => (v, st) = x
          | _ => True
          end
      end;
}.

Lemma HInv_init : HInv Handoff_new Free.
Proof.
  split; try done.
  - intros [|t] x E; [|done]. by injection E as <-.
  - intros [|t] x E; done.
Qed.

Lemma mod3 n k : (k < 3)%nat -> ((3 * n + k) mod 3 = k /\ (3 * n + k) / 3 = n)%nat.
Proof.
  intros Hk. rewrite (Nat.mul_comm 3 n), (Nat.add_comm (n * 3)). rewrite Nat.Div0.mod_add, Nat.div_add by lia.
  rewrite Nat.mod_small, Nat.div_small by done. lia.
Qed.

(** The last value of a history, and the others. *)
Lemma lookup_snoc_inv {A} (l : list A) x t y :
  (l ++ [x]) !! t = Some y -> (t < length l /\ l !! t = Some y)%nat \/ (t = length l /\ y = x).
Proof.
  intros E. apply lookup_app_Some in E as [E|[Hge E]]; [left; split; [by apply lookup_lt_Some in E|done]|right].
  pose proof (lookup_lt_Some _ _ _ E) as Hl. cbn in Hl. assert (t = length l) as -> by lia.
  rewrite Nat.sub_diag in E. by injection E.
Qed.

Ltac ho_cbn := cbn [on_post on_take ho_mem ho_post ho_pview ho_take ho_tview ho_posted ho_taken phase_of values_of statuses_of answer_of].

(** Another poster's part of the invariant is untouched. *)
Ltac others Hne := rewrite !(upd_ne _ _ _ _ Hne).

Lemma post_idle i v st t s s' ph :
  ho_post s i = PostIdle -> HInv s ph -> post_step i v st t s = Some s' -> exists ph', HInv s' ph'.
Proof.
  intros Ep I E. unfold post_step, compare_exchange in E. rewrite Ep in E.
  destruct (m_at (ho_mem s) STATE !! t) as [x|] eqn:Ex; [|done]. cbn in E. rewrite (hi_state _ _ I _ _ Ex) in E.
  destruct (Z.eqb_spec (Z.of_nat (t mod 3)) EMPTY) as [Hz|Hz].
  - destruct (decide (S t = _)) as [Hlast|]; [|done]. unfold atomic_rmw in E.
    rewrite (hi_len _ _ I) in Hlast, E. cbn [pred] in E.
    assert (t = 3 * length (ho_taken s) + phase_of ph)%nat as -> by lia. rewrite Ex in E. cbn in E. injection E as <-.
    assert (phase_of ph = 0)%nat as Hph.
    { destruct (mod3 (length (ho_taken s)) (phase_of ph)) as [Hm _]; [destruct ph; cbn; lia|]. rewrite Hm in Hz. unfold EMPTY in Hz. lia. }
    destruct ph; try done. exists (Held i (v, st) 0 0). destruct I. cbn [phase_of values_of statuses_of answer_of] in *.
    split; ho_cbn; try done.
    + rewrite m_push_at_eq, length_app. cbn. lia.
    + intros t y Ey. rewrite m_push_at_eq in Ey. apply lookup_snoc_inv in Ey as [[_ Ey]|[-> ->]]; [by apply hi_state0|].
      rewrite hi_len0. cbn [m_val]. replace (S (3 * length (ho_taken s) + 0)) with (3 * length (ho_taken s) + 1)%nat by lia.
      by destruct (mod3 (length (ho_taken s)) 1) as [-> _]; [lia|].
    + intros t y Ey Ht. rewrite m_push_at_eq in Ey. apply lookup_snoc_inv in Ey as [[_ Ey]|[-> ->]]; [by apply hi_release0|].
      exfalso. rewrite hi_len0 in Ht. replace (S (3 * length (ho_taken s) + 0)) with (3 * length (ho_taken s) + 1)%nat in Ht by lia.
      destruct (mod3 (length (ho_taken s)) 1) as [Hm _]; lia.
    + intros r y Ey. rewrite m_push_at_ne in Ey by done. pose proof (lookup_lt_Some _ _ _ Ey). specialize (hi_values0 r y Ey).
      rewrite app_nil_r in hi_values0. rewrite fmap_app. by apply lookup_app_l_Some.
    + intros r y Ey. rewrite m_push_at_ne in Ey by done. specialize (hi_statuses0 r y Ey).
      rewrite app_nil_r in hi_statuses0. rewrite fmap_app. by apply lookup_app_l_Some.
    + intros j. destruct (decide (i = j)) as [<-|Hne].
      * rewrite !upd_eq. cbn. split; [done|]. split; lia.
      * others Hne. specialize (hi_posters0 j). destruct (in_hand (ho_post s j)) as [[[[? ?] ?] ?]|]; [by destruct hi_posters0|]. congruence.
    + destruct (ho_take s); try done; destruct hi_take0 as (? & ? & _); congruence.
  - destruct (atomic_load _ _ _ _ _) as [[? V]|] eqn:El; [|done]. cbn in E. injection E as <-. exists ph. destruct I.
    split; ho_cbn; try done. intros j. destruct (decide (i = j)) as [<-|Hne].
    + rewrite !upd_eq. specialize (hi_posters0 i). rewrite Ep in hi_posters0. done.
    + others Hne. apply hi_posters0.
Qed.

Lemma post_held i v0 st0 v st t s s' ph :
  ho_post s i = PostHeld v st -> HInv s ph -> post_step i v0 st0 t s = Some s' -> exists ph', HInv s' ph'.
Proof.
  intros Ep I E. unfold post_step, atomic_store in E. rewrite Ep in E. cbn [releases] in E. injection E as <-. destruct I.
  pose proof (hi_posters0 i) as Hi. rewrite Ep in Hi. cbn in Hi. destruct Hi as (-> & _ & _).
  exists (Held i (v, st) 1 0). cbn [phase_of values_of statuses_of answer_of] in *.
  split; ho_cbn; rewrite ?m_push_at_ne by done; try done.
  - rewrite m_push_at_eq, length_app. cbn. lia.
  - intros r y Ey. rewrite m_push_at_eq in Ey. apply lookup_snoc_inv in Ey as [[_ Ey]|[Er ->]]; [by apply hi_values0|].
    assert (r = length (ho_taken s)) as -> by lia. cbn [m_val]. rewrite fmap_app, lookup_app_r by (by rewrite length_fmap).
    by rewrite length_fmap, Nat.sub_diag.
  - intros j. destruct (decide (i = j)) as [<-|Hne].
    + rewrite !upd_eq. cbn. split; [done|]. split; [|lia]. intros _. rewrite view_see_eq, hi_vlen0. lia.
    + others Hne. specialize (hi_posters0 j). destruct (in_hand (ho_post s j)) as [[[[? ?] ?] ?]|]; [|congruence].
      destruct hi_posters0 as [[=] _]. congruence.
  - destruct (ho_take s); try done; destruct hi_take0 as (? & ? & _); congruence.
Qed.

Lemma post_value i v0 st0 v st t s s' ph :
  ho_post s i = PostValue v st -> HInv s ph -> post_step i v0 st0 t s = Some s' -> exists ph', HInv s' ph'.
Proof.
  intros Ep I E. unfold post_step, atomic_store in E. rewrite Ep in E. cbn [releases] in E. injection E as <-. destruct I.
  pose proof (hi_posters0 i) as Hi. rewrite Ep in Hi. cbn in Hi. destruct Hi as (-> & Hv & _).
  exists (Held i (v, st) 1 1). cbn [phase_of values_of statuses_of answer_of] in *.
  split; ho_cbn; rewrite ?m_push_at_ne by done; try done.
  - rewrite m_push_at_eq, length_app. cbn. lia.
  - intros r y Ey. rewrite m_push_at_eq in Ey. apply lookup_snoc_inv in Ey as [[_ Ey]|[Er ->]]; [by apply hi_statuses0|].
    assert (r = length (ho_taken s)) as -> by lia. cbn [m_val]. rewrite fmap_app, lookup_app_r by (by rewrite length_fmap).
    by rewrite length_fmap, Nat.sub_diag.
  - intros j. destruct (decide (i = j)) as [<-|Hne].
    + rewrite !upd_eq. cbn. split; [done|]. split; intros _; [rewrite view_see_ne by done; by apply Hv|].
      rewrite view_see_eq, hi_slen0. lia.
    + others Hne. specialize (hi_posters0 j). destruct (in_hand (ho_post s j)) as [[[[? ?] ?] ?]|]; [|congruence].
      destruct hi_posters0 as [[=] _]. congruence.
  - destruct (ho_take s); try done; destruct hi_take0 as (? & ? & _); congruence.
Qed.

Lemma post_status i v0 st0 v st t s s' ph :
  ho_post s i = PostStatus v st -> HInv s ph -> post_step i v0 st0 t s = Some s' -> exists ph', HInv s' ph'.
Proof.
  intros Ep I E. unfold post_step, atomic_store in E. rewrite Ep in E. cbn [releases] in E. injection E as <-. destruct I.
  pose proof (hi_posters0 i) as Hi. rewrite Ep in Hi. cbn in Hi. destruct Hi as (-> & Hv & Hs).
  exists (Waiting (v, st)). cbn [phase_of values_of statuses_of answer_of] in *. destruct (mod3 (length (ho_taken s)) 2) as [Hm Hd]; [lia|].
  split; ho_cbn; rewrite ?m_push_at_ne by done; try done.
  - rewrite m_push_at_eq, length_app. cbn. lia.
  - intros r y Ey. rewrite m_push_at_eq in Ey. apply lookup_snoc_inv in Ey as [[_ Ey]|[-> ->]]; [by apply hi_state0|].
    rewrite hi_len0. cbn [m_val]. replace (S (3 * length (ho_taken s) + 1)) with (3 * length (ho_taken s) + 2)%nat by lia. by rewrite Hm.
  - intros r y Ey Hr. rewrite m_push_at_eq in Ey. apply lookup_snoc_inv in Ey as [[_ Ey]|[-> ->]]; [by apply hi_release0|].
    rewrite hi_len0. cbn [m_view]. replace (S (3 * length (ho_taken s) + 1)) with (3 * length (ho_taken s) + 2)%nat by lia. rewrite Hd.
    rewrite !view_see_ne by done. split; [by apply Hv|by apply Hs].
  - by rewrite hi_posted0, app_nil_r.
  - intros j. destruct (decide (i = j)) as [<-|Hne].
    + by rewrite !upd_eq.
    + others Hne. specialize (hi_posters0 j). destruct (in_hand (ho_post s j)) as [[[[? ?] ?] ?]|]; [|done].
      destruct hi_posters0 as [[=] _]. congruence.
  - destruct (ho_take s); try done; destruct hi_take0 as (? & ? & _); congruence.
Qed.

Lemma take_idle t s s' ph : ho_take s = TakeIdle -> HInv s ph -> take_step t s = Some s' -> HInv s' ph.
Proof.
  intros Ep I E. unfold take_step in E. rewrite Ep in E.
  destruct (atomic_load _ _ _ _ _) as [[state V]|] eqn:El; [|done]. cbn in E. injection E as <-.
  apply atomic_load_inv in El as (x & Ex & Ht & -> & ->). cbn [acquires].
  assert (forall key, (ho_tview s key <= view_join (view_see (ho_tview s) (KAtomic STATE) t) (m_view x) key)%nat) as HV
    by (intros key; unfold view_see, view_join; lia).
  assert (forall key, (m_view x key <= view_join (view_see (ho_tview s) (KAtomic STATE) t) (m_view x) key)%nat) as HX
    by (intros key; unfold view_see, view_join; lia).
  set (W := view_join _ _) in *. rewrite (hi_state _ _ I _ _ Ex).
  pose proof (lookup_lt_Some _ _ _ Ex) as Hlt. destruct I. rewrite hi_len0 in Hlt.
  split; ho_cbn; try done; [etransitivity; [exact hi_tview0|apply HV]|].
  destruct (Z.eqb_spec (Z.of_nat (t mod 3)) POSTED) as [Hz|]; [|done]. unfold POSTED in Hz.
  assert (t mod 3 = 2)%nat as Hm by lia. pose proof (Nat.div_mod_eq t 3) as Hd.
  assert (t / 3 = length (ho_taken s))%nat as Hq by (destruct ph; cbn in Hlt; lia).
  assert (phase_of ph = 2)%nat as Hph by (destruct ph; cbn in *; lia).
  destruct ph as [| |y]; try done. exists y. destruct (hi_release0 _ _ Ex Hm) as [H1 H2]. rewrite Hq in H1, H2.
  split; [done|]. pose proof (HX (KAtomic VALUE)). pose proof (HX (KAtomic STATUS)). split; [lia|]. split; [lia|done].
Qed.

Lemma take_seen t s s' ph : ho_take s = TakeSeen -> HInv s ph -> take_step t s = Some s' -> HInv s' ph.
Proof.
  intros Ep I E. unfold take_step in E. rewrite Ep in E.
  destruct (atomic_load _ _ _ _ _) as [[v V]|] eqn:El; [|done]. cbn in E. injection E as <-.
  apply atomic_load_inv in El as (x & Ex & Ht & -> & ->). cbn [acquires]. destruct I.
  rewrite Ep in hi_take0. destruct hi_take0 as (y & -> & Hv & Hs & _). cbn [values_of statuses_of answer_of] in *.
  pose proof (lookup_lt_Some _ _ _ Ex) as Hlt. assert (t = S (length (ho_taken s))) as -> by lia.
  split; ho_cbn; try done.
  - unfold view_see, view_join. lia.
  - exists y. split; [done|]. split; [unfold view_see, view_join; lia|]. split; [unfold view_see, view_join; lia|].
    specialize (hi_values0 _ _ Ex). rewrite fmap_app, lookup_app_r in hi_values0 by (by rewrite length_fmap).
    rewrite length_fmap, Nat.sub_diag in hi_values0. by injection hi_values0.
Qed.

Lemma take_value t s s' ph v : ho_take s = TakeValue v -> HInv s ph -> take_step t s = Some s' -> HInv s' ph.
Proof.
  intros Ep I E. unfold take_step in E. rewrite Ep in E.
  destruct (atomic_load _ _ _ _ _) as [[st V]|] eqn:El; [|done]. cbn in E. injection E as <-.
  apply atomic_load_inv in El as (x & Ex & Ht & -> & ->). cbn [acquires]. destruct I.
  rewrite Ep in hi_take0. destruct hi_take0 as (y & -> & Hv & Hs & ->). cbn [values_of statuses_of answer_of] in *.
  pose proof (lookup_lt_Some _ _ _ Ex) as Hlt. assert (t = S (length (ho_taken s))) as -> by lia.
  split; ho_cbn; try done.
  - unfold view_see, view_join. lia.
  - exists y. split; [done|]. split; [unfold view_see, view_join; lia|]. split; [unfold view_see, view_join; lia|].
    specialize (hi_statuses0 _ _ Ex). rewrite fmap_app, lookup_app_r in hi_statuses0 by (by rewrite length_fmap).
    rewrite length_fmap, Nat.sub_diag in hi_statuses0. injection hi_statuses0 as <-. by destruct y.
Qed.

Lemma take_status t s s' ph v st :
  ho_take s = TakeStatus v st -> HInv s ph -> take_step t s = Some s' -> HInv s' Free.
Proof.
  intros Ep I E. unfold take_step, atomic_store in E. rewrite Ep in E. cbn [releases] in E. injection E as <-. destruct I.
  rewrite Ep in hi_take0. destruct hi_take0 as (y & -> & Hv & Hs & ->). cbn [phase_of values_of statuses_of answer_of] in *.
  assert (length (ho_taken s ++ [y]) = S (length (ho_taken s))) as Elen by (rewrite length_app; cbn; lia).
  destruct (mod3 (S (length (ho_taken s))) 0) as [Hm Hd]; [lia|].
  assert (S (3 * length (ho_taken s) + 2) = 3 * S (length (ho_taken s)) + 0)%nat as E3 by lia.
  split; ho_cbn; rewrite ?Elen, ?app_nil_r; try done; rewrite ?m_push_at_ne by done; try done; try lia.
  - rewrite m_push_at_eq, length_app. cbn. lia.
  - intros r x Ex. rewrite m_push_at_eq in Ex. apply lookup_snoc_inv in Ex as [[_ Ex]|[-> ->]]; [by apply hi_state0|].
    rewrite hi_len0, E3, Hm. done.
  - intros r x Ex Hr. rewrite m_push_at_eq in Ex. apply lookup_snoc_inv in Ex as [[_ Ex]|[-> ->]]; [by apply hi_release0|].
    rewrite hi_len0, E3, Hm in Hr. done.
  - intros i. specialize (hi_posters0 i). destruct (in_hand (ho_post s i)) as [[[[? ?] ?] ?]|]; [by destruct hi_posters0|done].
  - rewrite view_see_eq, hi_len0. lia.
Qed.

(** ** Runs *)

Lemma HInv_step a s s' ph : HInv s ph -> handoff_step a s = Some s' -> exists ph', HInv s' ph'.
Proof.
  intros I E. destruct a as [i v st t|t]; cbn in E.
  - destruct (ho_post s i) eqn:Ep; [by eapply post_idle|by eapply post_held|by eapply post_value|by eapply post_status].
  - destruct (ho_take s) eqn:Ep; eexists; [by eapply take_idle|by eapply take_seen|by eapply take_value|by eapply take_status].
Qed.

Record ho_closed (s : Handoff) : Prop := mkHoClosed {
  hc_mem : mem_closed (ho_mem s);
  hc_post : forall i, closed (ho_mem s) (ho_pview s i);
  hc_take : closed (ho_mem s) (ho_tview s);
}.

Lemma on_post_closed s i m pc V :
  ho_closed s -> mem_closed m -> closed m V -> (forall W, closed (ho_mem s) W -> closed m W) -> ho_closed (on_post s i m pc V).
Proof.
  intros [Hm Hp Ht] Hm' HV Hg. split; ho_cbn; [done| |by apply Hg].
  intros j. destruct (decide (i = j)) as [<-|Hne]; [by rewrite upd_eq|]. rewrite upd_ne by done. by apply Hg.
Qed.

Lemma on_take_closed s m pc V :
  ho_closed s -> mem_closed m -> closed m V -> (forall W, closed (ho_mem s) W -> closed m W) -> ho_closed (on_take s m pc V).
Proof. intros [Hm Hp Ht] Hm' HV Hg. split; ho_cbn; [done| |done]. intros j. by apply Hg. Qed.

Lemma ho_closed_step a s s' : ho_closed s -> handoff_step a s = Some s' -> ho_closed s'.
Proof.
  intros C E. pose proof C as [Hm Hp Ht]. destruct a as [i v st t|t]; cbn in E; unfold post_step, take_step in E.
  - destruct (ho_post s i).
    + destruct (compare_exchange _ _ _ _ _ _ _ _) as [[[b m] V]|] eqn:Ex; [|done]. cbn in E. injection E as <-.
      destruct (exchange_closed _ _ _ _ _ _ _ _ _ _ _ Hm (Hp i) Ex). apply on_post_closed; [done..|]. intros W. by eapply exchange_grows.
    + destruct (atomic_store _ _ _ _ _) as [m V] eqn:Ex. injection E as <-.
      destruct (store_closed _ _ _ _ _ _ _ Hm (Hp i) Ex). apply on_post_closed; [done..|]. intros W. by eapply store_grows.
    + destruct (atomic_store _ _ _ _ _) as [m V] eqn:Ex. injection E as <-.
      destruct (store_closed _ _ _ _ _ _ _ Hm (Hp i) Ex). apply on_post_closed; [done..|]. intros W. by eapply store_grows.
    + destruct (atomic_store _ _ _ _ _) as [m V] eqn:Ex. injection E as <-.
      destruct (store_closed _ _ _ _ _ _ _ Hm (Hp i) Ex).
      destruct (on_post_closed s i m PostIdle V C) as [? ? ?]; [done..| |]; [intros W; by eapply store_grows|]. by split.
  - destruct (ho_take s).
    + destruct (atomic_load _ _ _ _ _) as [[v V]|] eqn:Ex; [|done]. cbn in E. injection E as <-.
      apply on_take_closed; [done|done| |done]. by eapply load_closed.
    + destruct (atomic_load _ _ _ _ _) as [[v V]|] eqn:Ex; [|done]. cbn in E. injection E as <-.
      apply on_take_closed; [done|done| |done]. by eapply load_closed.
    + destruct (atomic_load _ _ _ _ _) as [[v' V]|] eqn:Ex; [|done]. cbn in E. injection E as <-.
      apply on_take_closed; [done|done| |done]. by eapply load_closed.
    + destruct (atomic_store _ _ _ _ _) as [m V] eqn:Ex. injection E as <-.
      destruct (store_closed _ _ _ _ _ _ _ Hm Ht Ex).
      destruct (on_take_closed s m TakeIdle V C) as [? ? ?]; [done..| |]; [intros W; by eapply store_grows|]. by split.
Qed.

Lemma HInv_run acts s s' ph : HInv s ph -> ho_closed s -> handoff_run acts s = Some s' ->
  ho_closed s' /\ exists ph', HInv s' ph'.
Proof.
  revert s ph. induction acts as [|a acts IH]; intros s ph I C E; [injection E as <-; eauto|]. cbn in E.
  destruct (handoff_step a s) as [s1|] eqn:E1; [|done]. destruct (HInv_step _ _ _ _ I E1) as [ph1 I1].
  apply (IH s1 ph1); [done| |done]. by eapply ho_closed_step.
Qed.

Lemma handoff_run_inv acts s : handoff_run acts Handoff_new = Some s -> ho_closed s /\ exists ph, HInv s ph.
Proof.
  apply (HInv_run _ _ _ Free); [apply HInv_init|]. split; [apply mem_closed_init|intros i|]; apply closed_bot_init.
Qed.

(** Nothing is in the way of a take that sees the newest state of a posted slot. *)
Lemma take_fresh s x :
  HInv s (Waiting x) -> ho_closed s -> ho_take s = TakeIdle ->
  exists t1 t2 t3 s', handoff_run [Taking t1; Taking t2; Taking t3; Taking 0] s = Some s' /\
    ho_taken s' = ho_taken s ++ [x] /\ ho_take s' = TakeIdle.
Proof.
  intros I C Ep. destruct (lookup_lt_is_Some_2 (m_at (ho_mem s) STATE) (pred (length (m_at (ho_mem s) STATE)))) as [y Ey];
    [rewrite (hi_len _ _ I); lia|].
  set (t1 := pred (length (m_at (ho_mem s) STATE))) in *.
  assert (exists s1, take_step t1 s = Some s1 /\ ho_take s1 = TakeSeen /\ ho_mem s1 = ho_mem s /\ ho_taken s1 = ho_taken s) as (s1 & S1 & P1 & M1 & T1).
  { eexists. unfold take_step. rewrite Ep. unfold t1. rewrite (load_newest _ _ _ _ _ (hc_take _ C) Ey). cbn [mbind option_bind].
    split; [done|]. split; [|done]. cbn [on_take ho_take]. rewrite (hi_state _ _ I _ _ Ey).
    replace t1 with (3 * length (ho_taken s) + 2)%nat by (unfold t1; rewrite (hi_len _ _ I); cbn; lia).
    by destruct (mod3 (length (ho_taken s)) 2) as [-> _]; [lia|]. }
  pose proof (take_idle _ _ _ _ Ep I S1) as I1. pose proof (ho_closed_step (Taking t1) _ _ C S1) as C1.
  destruct (lookup_lt_is_Some_2 (m_at (ho_mem s1) VALUE) (pred (length (m_at (ho_mem s1) VALUE)))) as [yv Ev];
    [rewrite (hi_vlen _ _ I1); lia|].
  assert (exists s2, take_step (pred (length (m_at (ho_mem s1) VALUE))) s1 = Some s2 /\ (exists v, ho_take s2 = TakeValue v) /\
    ho_taken s2 = ho_taken s1) as (s2 & S2 & [v P2] & T2).
  { eexists. unfold take_step. rewrite P1. rewrite (load_newest _ _ _ _ _ (hc_take _ C1) Ev). cbn [mbind option_bind].
    split; [done|]. split; [by eexists|done]. }
  pose proof (take_seen _ _ _ _ P1 I1 S2) as I2. pose proof (ho_closed_step (Taking _) _ _ C1 S2) as C2.
  destruct (lookup_lt_is_Some_2 (m_at (ho_mem s2) STATUS) (pred (length (m_at (ho_mem s2) STATUS)))) as [ys Es];
    [rewrite (hi_slen _ _ I2); lia|].
  assert (exists s3, take_step (pred (length (m_at (ho_mem s2) STATUS))) s2 = Some s3 /\ (exists st, ho_take s3 = TakeStatus v st) /\
    ho_taken s3 = ho_taken s2) as (s3 & S3 & [st P3] & T3).
  { eexists. unfold take_step. rewrite P2. rewrite (load_newest _ _ _ _ _ (hc_take _ C2) Es). cbn [mbind option_bind].
    split; [done|]. split; [by eexists|done]. }
  pose proof (take_value _ _ _ _ _ P2 I2 S3) as I3. pose proof (hi_take _ _ I3) as H3. rewrite P3 in H3. destruct H3 as (x' & [= <-] & _ & _ & Ex).
  do 3 eexists. eexists. cbn [handoff_run handoff_step]. rewrite S1. cbn [mbind option_bind]. rewrite S2. cbn [mbind option_bind].
  rewrite S3. cbn [mbind option_bind]. unfold take_step at 1. rewrite P3. cbn. rewrite T3, T2, T1, Ex. done.
Qed.

(** Nor of a post that sees the newest state of a free slot. *)
Lemma post_fresh s i v st :
  HInv s Free -> ho_closed s ->
  exists t s', handoff_run [Posting i v st t; Posting i v st 0; Posting i v st 0; Posting i v st 0] s = Some s' /\
    ho_posted s' = ho_posted s ++ [(v, st)].
Proof.
  intros I C. assert (ho_post s i = PostIdle) as Ep.
  { pose proof (hi_posters _ _ I i) as H. destruct (ho_post s i); [done|by destruct H..]. }
  set (t := pred (length (m_at (ho_mem s) STATE))). destruct (lookup_lt_is_Some_2 (m_at (ho_mem s) STATE) t) as [x Ex];
    [unfold t; rewrite (hi_len _ _ I); lia|].
  assert (exists s1, post_step i v st t s = Some s1 /\ ho_post s1 i = PostHeld v st /\ ho_posted s1 = ho_posted s) as (s1 & S1 & P1 & Q1).
  { eexists. unfold post_step. rewrite Ep. unfold compare_exchange. rewrite Ex. cbn [mbind option_bind]. rewrite (hi_state _ _ I _ _ Ex).
    replace (t mod 3)%nat with 0%nat.
    2: { unfold t. rewrite (hi_len _ _ I). cbn [pred phase_of]. by destruct (mod3 (length (ho_taken s)) 0) as [-> _]; [lia|]. }
    change (Z.of_nat 0 =? EMPTY) with true. cbn iota. rewrite decide_True by (unfold t; rewrite (hi_len _ _ I); done).
    unfold atomic_rmw. fold t. rewrite Ex. cbn [mbind option_bind]. split; [done|]. cbn. by rewrite upd_eq. }
  assert (exists s2, post_step i v st 0 s1 = Some s2 /\ ho_post s2 i = PostValue v st /\ ho_posted s2 = ho_posted s) as (s2 & S2 & P2 & Q2).
  { eexists. unfold post_step. rewrite P1. split; [done|]. cbn. by rewrite upd_eq. }
  assert (exists s3, post_step i v st 0 s2 = Some s3 /\ ho_post s3 i = PostStatus v st /\ ho_posted s3 = ho_posted s) as (s3 & S3 & P3 & Q3).
  { eexists. unfold post_step. rewrite P2. split; [done|]. cbn. by rewrite upd_eq. }
  assert (exists s4, post_step i v st 0 s3 = Some s4 /\ ho_posted s4 = ho_posted s ++ [(v, st)]) as (s4 & S4 & Q4).
  { eexists. unfold post_step. rewrite P3. cbn. by rewrite Q3. }
  exists t, s4. cbn [handoff_run handoff_step]. rewrite S1. cbn [mbind option_bind]. rewrite S2. cbn [mbind option_bind].
  rewrite S3. cbn [mbind option_bind]. by rewrite S4.
Qed.

(** Whatever the interleaving of any number of posters and the taker, and whichever
    of the values open to it each load answers with: the answers taken are the
    answers posted, whole, in the order they were posted and each once, at most one
    still waiting; no two posters hold the slot; and neither a take of a posted
    answer nor a post into a free slot is kept from happening. *)
Theorem handoff_whole (acts : list HandoffAct) (s : Handoff) :
  handoff_run acts Handoff_new = Some s ->
  (exists waiting, ho_posted s = ho_taken s ++ waiting /\ (length waiting <= 1)%nat) /\
  (forall i j, ho_post s i <> PostIdle -> ho_post s j <> PostIdle -> i = j /\ ho_posted s = ho_taken s) /\
  (forall x, ho_posted s = ho_taken s ++ [x] -> ho_take s = TakeIdle ->
    exists t1 t2 t3 s', handoff_run [Taking t1; Taking t2; Taking t3; Taking 0] s = Some s' /\
      ho_taken s' = ho_posted s /\ ho_take s' = TakeIdle) /\
  (ho_posted s = ho_taken s -> (forall i, ho_post s i = PostIdle) -> forall i v st,
    exists t s', handoff_run [Posting i v st t; Posting i v st 0; Posting i v st 0; Posting i v st 0] s = Some s' /\
      ho_posted s' = ho_posted s ++ [(v, st)]).
Proof.
  intros E. apply handoff_run_inv in E as (C & ph & I). pose proof (hi_posted _ _ I) as Hp. split; [|split; [|split]].
  - eexists. split; [exact Hp|]. destruct ph; cbn; lia.
  - intros i j Hi Hj. pose proof (hi_posters _ _ I i) as Pi. pose proof (hi_posters _ _ I j) as Pj.
    destruct (ho_post s i); [done|..]; destruct (ho_post s j); try done; cbn in Pi, Pj; destruct Pi as (-> & _), Pj as ([= ->] & _);
      by rewrite app_nil_r in Hp.
  - intros x Ex Et. rewrite Ex in Hp |- *. apply app_inv_head in Hp. destruct ph as [| |y]; try done. injection Hp as <-. by apply take_fresh.
  - intros Ee Hi i v st. assert (ph = Free) as ->; [|by apply post_fresh]. destruct ph as [|j y a b|y]; [done| |].
    + pose proof (hi_posters _ _ I j) as H. rewrite Hi in H. by destruct H.
    + rewrite Ee in Hp. apply (f_equal length) in Hp. rewrite length_app in Hp. cbn in Hp. lia.
Qed.

(** The first poster is overtaken by a refused one and by a take that finds nothing. *)
Definition sample_handoff : list HandoffAct :=
  [Posting 3 16 1 0; Posting 4 32 2 1; Posting 3 0 0 0; Taking 0; Posting 3 0 0 0; Posting 3 0 0 0; Taking 2; Taking 1].

Lemma handoff_whole_witness :
  exists s, handoff_run sample_handoff Handoff_new = Some s /\
    exists waiting, ho_posted s = ho_taken s ++ waiting /\ (length waiting <= 1)%nat.
Proof.
  destruct (handoff_run sample_handoff Handoff_new) as [s|] eqn:E; [|vm_compute in E; discriminate].
  exists s. split; [reflexivity|]. apply (handoff_whole sample_handoff s E).
Defined.
