(* ===== verification/Pool.v ===== *)
(** The pool of byte slots filled by one thread and read by others by index
    (crates/common/src/pool.rs): the producer, any number of consumers and the rings
    between them, one step per shared access, under the memory of Atomic.

    A ring is what Spsc shows it to be: a queue from the producer to one consumer
    that hands over, with an index, the producer's view at the push; a push may be
    refused. *)

From S2P Require Import Prelude Atomic.

Section Model.
(** [slots] and [bytes] of [Pool::new], and how many consumers there are. *)
Context (slots : nat) (size : Z) (consumers : nat).

(** The words of slot [i]; its bytes are cell [i]. *)
Definition HOLDERS (i : nat) : nat := 3 * i.
Definition LEN (i : nat) : nat := 3 * i + 1.
Definition TAG (i : nat) : nat := 3 * i + 2.

(** Where the producer is: between units; scanning in [acquire]; a free slot found;
    a [Writer] in hand; in [publish] with the length stored, the tag stored, the
    holders raised with these rings to go, one refused; the writer's own hold left
    to drop. *)
Inductive PoolPc :=
| PoolIdle
| PoolScan (start step : nat)
| PoolFound (index : nat)
| PoolWriter (index : nat) (len : Z)
| PoolLen (index : nat) (tag : Z) (rings : list nat)
| PoolTag (index : nat) (rings : list nat)
| PoolPush (index : nat) (rings : list nat) (at_ : Z) (taken : Z)
| PoolRefused (index : nat) (rings : list nat) (at_ : Z) (taken : Z)
| PoolDrop (index : nat).

(** The pool, the producer, and each consumer with the ring it reads, the frames it
    holds and the length it has loaded of the one it is reading.  What was last
    published in each slot and what was read are kept beside. *)
Record Pool := mkPool {
  pl_mem : Mem (list Z);
  pl_hint : nat;
  pl_pc : PoolPc;
  pl_view : view;
  pl_queue : nat -> list (nat * view);
  pl_held : nat -> list nat;
  pl_reading : nat -> option (nat * Z);
  pl_cview : nat -> view;
  pl_unit : nat -> list Z * Z;
  pl_bytes : list (list Z * list Z);
  pl_tags : list (Z * Z);
  pl_ub : bool;
}.

(** [Pool::new]. *)
Definition Pool_new : Pool :=
  mkPool (mem_init (fun _ => 0) (Some (repeat 0 (Z.to_nat size)))) 0 PoolIdle view_bot (fun _ => []) (fun _ => []) (fun _ => None)
    (fun _ => view_bot) (fun _ => ([], 0)) [] [] false.

Definition pl_produce (s : Pool) (m : Mem (list Z)) (pc : PoolPc) (V : view) : Pool :=
  mkPool m (pl_hint s) pc V (pl_queue s) (pl_held s) (pl_reading s) (pl_cview s) (pl_unit s) (pl_bytes s) (pl_tags s) (pl_ub s).
Definition pl_set_hint (s : Pool) (h : nat) : Pool :=
  mkPool (pl_mem s) h (pl_pc s) (pl_view s) (pl_queue s) (pl_held s) (pl_reading s) (pl_cview s) (pl_unit s) (pl_bytes s) (pl_tags s) (pl_ub s).
Definition pl_set_unit (s : Pool) (i : nat) (u : list Z * Z) : Pool :=
  mkPool (pl_mem s) (pl_hint s) (pl_pc s) (pl_view s) (pl_queue s) (pl_held s) (pl_reading s) (pl_cview s) (upd (pl_unit s) i u) (pl_bytes s) (pl_tags s) (pl_ub s).
Definition pl_set_queue (s : Pool) (r : nat) (q : list (nat * view)) : Pool :=
  mkPool (pl_mem s) (pl_hint s) (pl_pc s) (pl_view s) (upd (pl_queue s) r q) (pl_held s) (pl_reading s) (pl_cview s) (pl_unit s) (pl_bytes s) (pl_tags s) (pl_ub s).
Definition pl_set_held (s : Pool) (j : nat) (h : list nat) : Pool :=
  mkPool (pl_mem s) (pl_hint s) (pl_pc s) (pl_view s) (pl_queue s) (upd (pl_held s) j h) (pl_reading s) (pl_cview s) (pl_unit s) (pl_bytes s) (pl_tags s) (pl_ub s).
Definition pl_consume (s : Pool) (j : nat) (m : Mem (list Z)) (r : option (nat * Z)) (V : view) : Pool :=
  mkPool m (pl_hint s) (pl_pc s) (pl_view s) (pl_queue s) (pl_held s) (upd (pl_reading s) j r) (upd (pl_cview s) j V) (pl_unit s) (pl_bytes s) (pl_tags s) (pl_ub s).
Definition pl_saw_bytes (s : Pool) (i : nat) (b : list Z) : Pool :=
  mkPool (pl_mem s) (pl_hint s) (pl_pc s) (pl_view s) (pl_queue s) (pl_held s) (pl_reading s) (pl_cview s) (pl_unit s)
    (pl_bytes s ++ [(b, fst (pl_unit s i))]) (pl_tags s) (pl_ub s).
Definition pl_saw_tag (s : Pool) (i : nat) (tag : Z) : Pool :=
  mkPool (pl_mem s) (pl_hint s) (pl_pc s) (pl_view s) (pl_queue s) (pl_held s) (pl_reading s) (pl_cview s) (pl_unit s)
    (pl_bytes s) (pl_tags s ++ [(tag, snd (pl_unit s i))]) (pl_ub s).
Definition pl_undefined (s : Pool) : Pool :=
  mkPool (pl_mem s) (pl_hint s) (pl_pc s) (pl_view s) (pl_queue s) (pl_held s) (pl_reading s) (pl_cview s) (pl_unit s) (pl_bytes s) (pl_tags s) true.

(** [release]: one hold given back. *)
Definition pool_release (m : Mem (list Z)) (i : nat) (V : view) : option (Mem (list Z) * view) :=
  '(_, m, V) ← atomic_rmw m Release (HOLDERS i) (fun h => wsub 64 h 1) V; Some (m, V).

(** What the producer does next, where it has a choice: the value a load answers
    with, a unit to fill in, looking at what was written, publishing, dropping the
    writer, and whether the ring takes the index. *)
Inductive PoolCall :=
| CallAcquire
| CallLoad (t : nat)
| CallFill (unit_ : list Z)
| CallWritten
| CallPublish (tag : Z) (rings : list nat)
| CallDrop
| CallPush (accepted : bool)
| CallNext.

Definition produce_step (call : PoolCall) (s : Pool) : option Pool :=
  let m := pl_mem s in
  let V := pl_view s in
  match pl_pc s, call with
  | PoolIdle, CallAcquire => Some (pl_produce s m (PoolScan (pl_hint s) 0) V)
  | PoolScan start step, CallLoad t =>
      if decide (step = slots) then Some (pl_produce s m PoolIdle V)
      else
      let index := ((start + step) mod slots)%nat in
      '(holders, V) ← atomic_load m Acquire (HOLDERS index) t V;
      Some (pl_produce s m (if holders =? 0 then PoolFound index else PoolScan start (S step)) V)
  | PoolFound index, CallNext =>
      let '(m, V) := atomic_store m Relaxed (HOLDERS index) 1 V in
      Some (pl_set_hint (pl_produce s m (PoolWriter index 0) V) ((index + 1) mod slots))
  | PoolWriter index len, CallFill unit_ =>
      if size <? zlen unit_ then Some s
      else
      match cell_write m (S consumers) index (put_range (default [] (c_val (m_cell m index))) 0 unit_) V with
      | None => Some (pl_undefined s)
      | Some (m, V) => Some (pl_produce s m (PoolWriter index (zlen unit_)) V)
      end
  | PoolWriter index len, CallWritten =>
      match cell_read m consumers index V with
      | None => Some (pl_undefined s)
      | Some (_, m, V) => Some (pl_produce s m (PoolWriter index len) V)
      end
  | PoolWriter index len, CallPublish tag rings =>
      if forallb (fun r => bool_decide (r < consumers)%nat) rings && (zlen rings <? 2 ^ 63) then
        let bytes := take (Z.to_nat len) (default [] (c_val (m_cell m index))) in
        let '(m, V) := atomic_store m Relaxed (LEN index) len V in
        Some (pl_set_unit (pl_produce s m (PoolLen index tag rings) V) index (bytes, tag))
      else None
  | PoolWriter index _, CallDrop => Some (pl_produce s m (PoolDrop index) V)
  | PoolLen index tag rings, CallNext =>
      let '(m, V) := atomic_store m Relaxed (TAG index) tag V in
      Some (pl_produce s m (PoolTag index rings) V)
  | PoolTag index rings, CallNext =>
      '(_, m, V) ← atomic_rmw m Relaxed (HOLDERS index) (fun h => wadd 64 h (zlen rings)) V;
      Some (pl_produce s m (PoolPush index rings 0 0) V)
  | PoolPush index [] _ _, CallNext => Some (pl_produce s m (PoolDrop index) V)
  | PoolPush index (r :: rings) at_ taken, CallPush true =>
      let s := pl_set_queue s r (pl_queue s r ++ [(index, V)]) in
      Some (pl_produce s m (PoolPush index rings (at_ + 1) (Z.lor taken (Z.shiftl 1 (at_ mod 32)))) V)
  | PoolPush index (_ :: rings) at_ taken, CallPush false => Some (pl_produce s m (PoolRefused index rings at_ taken) V)
  | PoolRefused index rings at_ taken, CallNext =>
      '(m, V) ← pool_release m index V;
      Some (pl_produce s m (PoolPush index rings (at_ + 1) taken) V)
  | PoolDrop index, CallNext =>
      '(m, V) ← pool_release m index V;
      Some (pl_produce s m PoolIdle V)
  | _, _ => None
  end.

(** What consumer [j] does next: take an index off its ring and claim it; read a
    frame's length, then its bytes; read its tag; drop it. *)
Inductive FrameCall :=
| CallClaim
| CallLength (index t : nat)
| CallBytes
| CallTag (index t : nat)
| CallRelease (index : nat).

Definition holds (s : Pool) (j i : nat) : bool := existsb (Nat.eqb i) (pl_held s j).

(** One occurrence removed. *)
Fixpoint remove1 (i : nat) (l : list nat) : list nat :=
  match l with
  | [] => []
  | x :: l => if Nat.eqb i x then l else x :: remove1 i l
  end.

Definition consume_step (j : nat) (call : FrameCall) (s : Pool) : option Pool :=
  if bool_decide (j < consumers)%nat then
    let m := pl_mem s in
    let V := pl_cview s j in
    match call with
    | CallClaim =>
        match pl_queue s j with
        | [] => None
        | (index, W) :: queue =>
            Some (pl_consume (pl_set_held (pl_set_queue s j queue) j (pl_held s j ++ [index])) j m (pl_reading s j) (view_join V W))
        end
    | CallLength index t =>
        if holds s j index then
          '(len, V) ← atomic_load m Relaxed (LEN index) t V; Some (pl_consume s j m (Some (index, len)) V)
        else None
    | CallBytes =>
        '(index, len) ← pl_reading s j;
        match cell_read m j index V with
        | None => Some (pl_undefined s)
        | Some (storage, m, V) => Some (pl_saw_bytes (pl_consume s j m None V) index (default [] (get_range storage 0 len)))
        end
    | CallTag index t =>
        if holds s j index then
          '(tag, V) ← atomic_load m Relaxed (TAG index) t V; Some (pl_saw_tag (pl_consume s j m (pl_reading s j) V) index tag)
        else None
    | CallRelease index =>
        if holds s j index && negb (bool_decide (fst <$> pl_reading s j = Some index)) then
          '(m, V) ← pool_release m index V;
          Some (pl_consume (pl_set_held s j (remove1 index (pl_held s j))) j m (pl_reading s j) V)
        else None
    end
  else None.

Inductive PoolAct := Producing (call : PoolCall) | Consuming (j : nat) (call : FrameCall).

Definition pool_step (a : PoolAct) (s : Pool) : option Pool :=
  if pl_ub s then None
  else match a with
       | Producing call => produce_step call s
       | Consuming j call => consume_step j call s
       end.

Fixpoint pool_run (acts : list PoolAct) (s : Pool) : option Pool :=
  match acts with
  | [] => Some s
  | a :: acts => s ← pool_step a s; pool_run acts s
  end.

End Model.

(** Published to two consumers, the second of which refuses; read, released, and the
    slot taken again. *)
Definition sample_pool : list PoolAct :=
  [Producing CallAcquire; Producing (CallLoad 0); Producing CallNext; Producing (CallFill [5; 6]); Producing (CallPublish 9 [0%nat; 1%nat]);
   Producing CallNext; Producing CallNext; Producing (CallPush true); Consuming 0 CallClaim; Producing (CallPush false);
   Consuming 0 (CallLength 0 1); Producing CallNext; Consuming 0 (CallTag 0 1); Producing CallNext; Consuming 0 CallBytes; Producing CallNext;
   Consuming 0 (CallRelease 0); Producing CallAcquire; Producing (CallLoad 5); Producing CallNext].
Example pool_sample :
  (s ← pool_run 1 4 2 sample_pool (Pool_new 4); Some (pl_bytes s, pl_tags s, pl_pc s, pl_ub s))
  = Some ([([5; 6], [5; 6])], [(9, 9)], PoolWriter 0 0, false).
Proof. vm_compute. reflexivity. Qed.
