(* ===== verification/PoolSpec.v ===== *)
(** The pool's contract: a slot's bytes are written by nobody while anybody may read
    them, readers see the unit published, and every hold comes back. *)

From S2P Require Import Prelude Atomic Pool.

Section Spec.
Context (slots : nat) (size : Z) (consumers : nat).
Implicit Types (s : Pool) (V W : view) (i j : nat).

(** Occurrences of an index. *)
Definition times (i : nat) (l : list nat) : nat := count_occ Nat.eq_dec l i.

(** How many holds on [i] the first [n] consumers have, queued or in hand. *)
Fixpoint held_by (queue : nat -> list (nat * view)) (held : nat -> list nat) (n i : nat) : nat :=
  match n with
  | O => O
  | S n => (held_by queue held n i + times i (queue n).*1 + times i (held n))%nat
  end.

Definition total s i : nat := held_by (pl_queue s) (pl_held s) consumers i.

(** The holds the producer still has to give away or back. *)
Definition mine (pc : PoolPc) (i : nat) : nat :=
  match pc with
  | PoolWriter index _ | PoolLen index _ _ | PoolTag index _ | PoolDrop index => if decide (index = i) then 1 else 0
  | PoolPush index rings _ _ => if decide (index = i) then S (length rings) else 0
  | PoolRefused index rings _ _ => if decide (index = i) then S (S (length rings)) else 0
  | _ => 0
  end.

Definition knows s i W : Prop :=
  (c_writes (m_cell (pl_mem s) i) <= W (KWrite i))%nat /\
  (length (m_at (pl_mem s) (LEN i)) <= S (W (KAtomic (LEN i))))%nat /\
  (length (m_at (pl_mem s) (TAG i)) <= S (W (KAtomic (TAG i))))%nat.

(** The slot holds the unit last published in it. *)
Definition len_ok s i : Prop :=
  exists b xl, c_val (m_cell (pl_mem s) i) = Some b /\ newest (pl_mem s) (LEN i) = Some xl /\
    0 <= m_val xl <= zlen b /\ take (Z.to_nat (m_val xl)) b = fst (pl_unit s i).
Definition tag_ok s i : Prop := exists xt, newest (pl_mem s) (TAG i) = Some xt /\ m_val xt = snd (pl_unit s i).
Definition unit_ok s i : Prop := len_ok s i /\ tag_ok s i.

(** Every read of the slot so far is known to the producer. *)
Definition clean s i : Prop :=
  forall j, (j < consumers)%nat -> (c_reads (m_cell (pl_mem s) i) j <= pl_view s (KRead i j))%nat.

Definition rings_ok (rings : list nat) : Prop := Forall (fun r => (r < consumers)%nat) rings /\ zlen rings < 2 ^ 63.

Definition pc_ok s : Prop :=
  match pl_pc s with
  | PoolIdle | PoolScan _ _ | PoolDrop _ => True
  | PoolFound i => total s i = O /\ clean s i
  | PoolWriter i len => total s i = O /\ clean s i /\ 0 <= len <= size
  | PoolLen i tag rings => total s i = O /\ rings_ok rings /\ len_ok s i /\ tag = snd (pl_unit s i)
  | PoolTag i rings => total s i = O /\ rings_ok rings /\ unit_ok s i
  | PoolPush i rings _ _ | PoolRefused i rings _ _ => rings_ok rings /\ unit_ok s i /\ knows s i (pl_view s)
  end.

Record PInv s : Prop := mkPInv {
  pi_ub : pl_ub s = false;
  pi_pc : pc_ok s;
  pi_out : forall i, exists x, newest (pl_mem s) (HOLDERS i) = Some x /\
    m_val x = Z.of_nat (mine (pl_pc s) i + total s i) /\ m_val x < 2 ^ 64;
  pi_zero : forall i t x, m_at (pl_mem s) (HOLDERS i) !! t = Some x -> m_val x = 0 ->
    S t = length (m_at (pl_mem s) (HOLDERS i)) \/ (t < pl_view s (KAtomic (HOLDERS i)))%nat;
  pi_reads : forall i j x, (j < consumers)%nat -> newest (pl_mem s) (HOLDERS i) = Some x -> i ∉ pl_held s j ->
    (c_reads (m_cell (pl_mem s) i) j <= Nat.max (m_view x (KRead i j)) (pl_view s (KRead i j)))%nat;
  pi_creads : forall i j, (j < consumers)%nat -> (c_reads (m_cell (pl_mem s) i) j <= pl_cview s j (KRead i j))%nat;
  pi_preads : forall i, (c_reads (m_cell (pl_mem s) i) consumers <= pl_view s (KRead i consumers))%nat;
  pi_writes : forall i, (c_writes (m_cell (pl_mem s) i) <= pl_view s (KWrite i))%nat;
  pi_lens : forall i, (length (m_at (pl_mem s) (LEN i)) <= S (pl_view s (KAtomic (LEN i))))%nat /\
    (length (m_at (pl_mem s) (TAG i)) <= S (pl_view s (KAtomic (TAG i))))%nat;
  pi_queue : forall j i W, (i, W) ∈ pl_queue s j -> knows s i W;
  pi_held : forall j i, i ∈ pl_held s j -> knows s i (pl_cview s j);
  pi_range : forall j, (consumers <= j)%nat -> pl_queue s j = [] /\ pl_held s j = [];
  pi_unit : forall i, (0 < total s i)%nat -> unit_ok s i;
  pi_reading : forall j i len, pl_reading s j = Some (i, len) -> (j < consumers)%nat /\ i ∈ pl_held s j /\ len = zlen (fst (pl_unit s i));
  pi_size : forall i, exists b, c_val (m_cell (pl_mem s) i) = Some b /\ zlen b = size;
  pi_bytes : Forall (fun p => fst p = snd p) (pl_bytes s);
  pi_tags : Forall (fun p => fst p = snd p) (pl_tags s);
}.

(** ** Counting holds *)

Lemma times_snoc i l x : times i (l ++ [x]) = (times i l + if decide (x = i) then 1 else 0)%nat.
Proof.
  unfold times. rewrite count_occ_app. cbn. destruct (Nat.eq_dec x i) as [->|H]; [by rewrite decide_True|by rewrite decide_False].
Qed.

Lemma times_cons i l x : times i (x :: l) = ((if decide (x = i) then 1 else 0) + times i l)%nat.
Proof.
  unfold times. cbn. destruct (Nat.eq_dec x i) as [->|H]; [by rewrite decide_True|by rewrite decide_False].
Qed.

Lemma times_remove1 i x l : x ∈ l -> (times i (remove1 x l) + if decide (x = i) then 1 else 0)%nat = times i l.
Proof.
  induction l as [|y l IH]; intros Hx; [by apply not_elem_of_nil in Hx|]. cbn [remove1].
  destruct (Nat.eqb_spec x y) as [->|Hne]; [rewrite times_cons; lia|].
  apply elem_of_cons in Hx as [->|Hx]; [done|]. rewrite !times_cons, <- (IH Hx). lia.
Qed.

Lemma elem_remove1 i x l : i ∈ remove1 x l -> i ∈ l.
Proof.
  induction l as [|y l IH]; [done|]. cbn [remove1]. rewrite elem_of_cons. destruct (Nat.eqb x y); [by right|].
  intros [->|H]%elem_of_cons; [by left|]. right. by apply IH.
Qed.

Lemma times_pos i l : i ∈ l -> (0 < times i l)%nat.
Proof. intros H%list_elem_of_In. unfold times. by apply count_occ_In. Qed.

Lemma held_by_ext queue held queue' held' n i :
  (forall j, (j < n)%nat -> times i (queue' j).*1 = times i (queue j).*1 /\ times i (held' j) = times i (held j)) ->
  held_by queue' held' n i = held_by queue held n i.
Proof.
  induction n as [|n IH]; intros H; [done|]. cbn. rewrite IH by (intros; apply H; lia). destruct (H n) as [-> ->]; [lia|done].
Qed.

(** One consumer's part replaced. *)
Lemma held_by_upd queue held n i j q h :
  (j < n)%nat ->
  (held_by (upd queue j q) (upd held j h) n i + (times i (queue j).*1 + times i (held j)) =
   held_by queue held n i + (times i q.*1 + times i h))%nat.
Proof.
  induction n as [|n IH]; intros Hj; [lia|]. cbn. destruct (decide (j = n)) as [->|Hne].
  - rewrite !upd_eq. rewrite (held_by_ext queue held) by (intros k Hk; by rewrite !upd_ne by lia). lia.
  - rewrite !upd_ne by done. specialize (IH ltac:(lia)). lia.
Qed.

Lemma held_by_upd_queue queue held n i j q :
  (j < n)%nat -> (held_by (upd queue j q) held n i + times i (queue j).*1 = held_by queue held n i + times i q.*1)%nat.
Proof.
  induction n as [|n IH]; intros Hj; [lia|]. cbn. destruct (decide (j = n)) as [->|Hne].
  - rewrite !upd_eq. rewrite (held_by_ext queue held) by (intros k Hk; by rewrite !upd_ne by lia). lia.
  - rewrite !upd_ne by done. specialize (IH ltac:(lia)). lia.
Qed.

Lemma held_by_upd_held queue held n i j h :
  (j < n)%nat -> (held_by queue (upd held j h) n i + times i (held j) = held_by queue held n i + times i h)%nat.
Proof.
  induction n as [|n IH]; intros Hj; [lia|]. cbn. destruct (decide (j = n)) as [->|Hne].
  - rewrite !upd_eq. rewrite (held_by_ext queue held) by (intros k Hk; by rewrite !upd_ne by lia). lia.
  - rewrite !upd_ne by done. specialize (IH ltac:(lia)). lia.
Qed.

Lemma held_by_le queue held n i j : (j < n)%nat -> (times i (queue j).*1 + times i (held j) <= held_by queue held n i)%nat.
Proof. induction n as [|n IH]; intros Hj; [lia|]. cbn. destruct (decide (j = n)) as [->|Hne]; [lia|]. specialize (IH ltac:(lia)). lia. Qed.

Lemma total_queue s i j W : PInv s -> (i, W) ∈ pl_queue s j -> (0 < total s i)%nat.
Proof.
  intros I H. destruct (Nat.lt_ge_cases j consumers) as [Hj|Hj].
  - pose proof (held_by_le (pl_queue s) (pl_held s) consumers i j Hj). unfold total.
    assert (0 < times i (pl_queue s j).*1)%nat; [|lia]. apply times_pos. rewrite list_elem_of_fmap. by exists (i, W).
  - destruct (pi_range _ I j Hj) as [E _]. rewrite E in H. by apply not_elem_of_nil in H.
Qed.

Lemma total_held s i j : PInv s -> i ∈ pl_held s j -> (0 < total s i)%nat.
Proof.
  intros I H. destruct (Nat.lt_ge_cases j consumers) as [Hj|Hj].
  - pose proof (held_by_le (pl_queue s) (pl_held s) consumers i j Hj). unfold total.
    assert (0 < times i (pl_held s j))%nat; [|lia]. by apply times_pos.
  - destruct (pi_range _ I j Hj) as [_ E]. rewrite E in H. by apply not_elem_of_nil in H.
Qed.

Lemma PInv_init : 0 <= size -> PInv (Pool_new size).
Proof.
  intros Hs. assert (forall n i, held_by (fun _ => []) (fun _ => []) n i = O) as Hz by (intros n i; induction n; cbn; lia).
  split; try done; unfold total; cbn; intros; try lia; try (by apply not_elem_of_nil in H); try (rewrite Hz in H; lia).
  - eexists. split; [done|]. cbn. rewrite Hz. lia.
  - destruct t as [|t]; [by left|done].
  - eexists. split; [done|]. unfold zlen. rewrite repeat_length. lia.
Qed.

(** The words are distinct. *)
Lemma words_ne i i' : HOLDERS i <> LEN i' /\ HOLDERS i <> TAG i' /\ LEN i <> HOLDERS i' /\ LEN i <> TAG i' /\
  TAG i <> HOLDERS i' /\ TAG i <> LEN i' /\ (i <> i' -> HOLDERS i <> HOLDERS i' /\ LEN i <> LEN i' /\ TAG i <> TAG i').
Proof. unfold HOLDERS, LEN, TAG. lia. Qed.

Ltac pl_cbn := cbn [pl_produce pl_set_hint pl_set_unit pl_set_queue pl_set_held pl_consume pl_saw_bytes pl_saw_tag
  pl_mem pl_hint pl_pc pl_view pl_queue pl_held pl_reading pl_cview pl_unit pl_bytes pl_tags pl_ub].
Ltac grow H := etransitivity; [|apply H].

(** ** The producer's steps *)

(** Nothing shared is written. *)
Lemma PInv_local s pc V :
  PInv s -> view_le (pl_view s) V -> (forall i, mine pc i = mine (pl_pc s) i) ->
  pc_ok (pl_produce s (pl_mem s) pc V) -> PInv (pl_produce s (pl_mem s) pc V).
Proof.
  intros [] HV Hm Hpc. split; unfold total, knows, unit_ok, len_ok, tag_ok in *; pl_cbn; try done.
  - intros i. rewrite Hm. apply pi_out0.
  - intros i t x Ex Hx. destruct (pi_zero0 i t x Ex Hx) as [|H]; [by left|right]. specialize (HV (KAtomic (HOLDERS i))). lia.
  - intros i j x Hj Ex Hn. specialize (pi_reads0 i j x Hj Ex Hn). specialize (HV (KRead i j)). lia.
  - intros i. grow HV. apply pi_preads0.
  - intros i. grow HV. apply pi_writes0.
  - intros i. pose proof (HV (KAtomic (LEN i))). pose proof (HV (KAtomic (TAG i))). specialize (pi_lens0 i). lia.
Qed.

(** A word of the holders is written. *)
Lemma PInv_holders s k x pc V :
  PInv s -> view_le (pl_view s) V -> (length (m_at (pl_mem s) (HOLDERS k)) <= V (KAtomic (HOLDERS k)))%nat ->
  (forall i, i <> k -> mine pc i = mine (pl_pc s) i) ->
  m_val x = Z.of_nat (mine pc k + total s k) -> m_val x < 2 ^ 64 ->
  (forall j, (j < consumers)%nat -> k ∉ pl_held s j ->
    (c_reads (m_cell (pl_mem s) k) j <= Nat.max (m_view x (KRead k j)) (V (KRead k j)))%nat) ->
  pc_ok (pl_produce s (m_push (pl_mem s) (HOLDERS k) x) pc V) -> PInv (pl_produce s (m_push (pl_mem s) (HOLDERS k) x) pc V).
Proof.
  intros [] HV Hsee Hm Hx Hb Hr Hpc.
  assert (forall i, m_at (m_push (pl_mem s) (HOLDERS k) x) (LEN i) = m_at (pl_mem s) (LEN i)) as EL
    by (intros i; apply m_push_at_ne, words_ne).
  assert (forall i, m_at (m_push (pl_mem s) (HOLDERS k) x) (TAG i) = m_at (pl_mem s) (TAG i)) as ET
    by (intros i; apply m_push_at_ne, words_ne).
  split; unfold total, knows, unit_ok, len_ok, tag_ok, newest in *; pl_cbn; try done.
  - intros i. destruct (decide (i = k)) as [->|Hne].
    + exists x. split; [apply newest_push_eq|done].
    + fold (newest (m_push (pl_mem s) (HOLDERS k) x) (HOLDERS i)). rewrite newest_push_ne by (by apply words_ne). rewrite Hm by done. apply pi_out0.
  - intros i t y Ey Hy. destruct (decide (i = k)) as [->|Hne].
    + rewrite m_push_at_eq in Ey |- *. rewrite length_app. change (length [x]) with 1%nat. apply lookup_app_Some in Ey as [Ey|[Hge Ey]].
      * right. apply lookup_lt_Some in Ey. lia.
      * left. apply lookup_lt_Some in Ey. change (length [x]) with 1%nat in Ey. lia.
    + rewrite m_push_at_ne in Ey |- * by (by apply words_ne). destruct (pi_zero0 i t y Ey Hy) as [|H]; [by left|right].
      specialize (HV (KAtomic (HOLDERS i))). lia.
  - intros i j y Hj Ey Hn. destruct (decide (i = k)) as [->|Hne].
    + fold (newest (m_push (pl_mem s) (HOLDERS k) x) (HOLDERS k)) in Ey. rewrite newest_push_eq in Ey. injection Ey as <-. by apply Hr.
    + rewrite m_push_at_ne in Ey by (by apply words_ne). specialize (pi_reads0 i j y Hj Ey Hn). specialize (HV (KRead i j)). rewrite m_push_cell. lia.
  - intros i. grow HV. apply pi_preads0.
  - intros i. grow HV. apply pi_writes0.
  - intros i. rewrite EL, ET. pose proof (HV (KAtomic (LEN i))). pose proof (HV (KAtomic (TAG i))). specialize (pi_lens0 i). lia.
  - intros j i W H. rewrite EL, ET. by apply (pi_queue0 j).
  - intros j i H. rewrite EL, ET. by apply (pi_held0 j).
  - intros i H. rewrite EL, ET. by apply pi_unit0.
Qed.

(** The length or the tag of a slot nobody else has is written. *)
Lemma PInv_word s k l x pc V :
  PInv s -> l = LEN k \/ l = TAG k -> total s k = O ->
  view_le (pl_view s) V -> (length (m_at (pl_mem s) l) <= V (KAtomic l))%nat ->
  (forall i, mine pc i = mine (pl_pc s) i) ->
  pc_ok (pl_produce s (m_push (pl_mem s) l x) pc V) -> PInv (pl_produce s (m_push (pl_mem s) l x) pc V).
Proof.
  intros I Hl Hk HV Hsee Hm Hpc.
  assert (forall i, l <> HOLDERS i) as EH by (intros i; destruct Hl as [-> | ->]; apply words_ne).
  assert (forall i, i <> k -> l <> LEN i /\ l <> TAG i) as EO.
  { intros i Hne. pose proof (words_ne k i) as Hw. destruct Hl as [-> | ->]; split; intros E; unfold LEN, TAG in E; lia. }
  assert (forall j i W, (i, W) ∈ pl_queue s j -> i <> k) as Hq by (intros j i W H ->; apply total_queue in H; [lia|done]).
  assert (forall j i, i ∈ pl_held s j -> i <> k) as Hh by (intros j i H ->; apply total_held in H; [lia|done]).
  destruct I. split; unfold total, knows, unit_ok, len_ok, tag_ok, newest in *; pl_cbn; try done.
  - intros i. rewrite m_push_at_ne by apply EH. rewrite Hm. apply pi_out0.
  - intros i t y Ey Hy. rewrite m_push_at_ne in Ey |- * by apply EH. destruct (pi_zero0 i t y Ey Hy) as [|H]; [by left|right].
    specialize (HV (KAtomic (HOLDERS i))). lia.
  - intros i j y Hj Ey Hn. rewrite m_push_at_ne in Ey by apply EH. specialize (pi_reads0 i j y Hj Ey Hn). specialize (HV (KRead i j)). rewrite m_push_cell. lia.
  - intros i. grow HV. apply pi_preads0.
  - intros i. grow HV. apply pi_writes0.
  - intros i. pose proof (HV (KAtomic (LEN i))). pose proof (HV (KAtomic (TAG i))). specialize (pi_lens0 i).
    assert (forall l', (length (m_at (pl_mem s) l') <= S (pl_view s (KAtomic l')))%nat -> (pl_view s (KAtomic l') <= V (KAtomic l'))%nat ->
      (length (m_at (m_push (pl_mem s) l x) l') <= S (V (KAtomic l')))%nat) as Hw.
    { intros l' H1 H2. destruct (decide (l = l')) as [<-|Hne]; [rewrite m_push_at_eq, length_app; change (length [x]) with 1%nat; lia|].
      rewrite m_push_at_ne by done. lia. }
    split; apply Hw; lia.
  - intros j i W H. destruct (EO i (Hq _ _ _ H)) as [E1 E2]. rewrite !m_push_at_ne by done. by apply (pi_queue0 j).
  - intros j i H. destruct (EO i (Hh _ _ H)) as [E1 E2]. rewrite !m_push_at_ne by done. by apply (pi_held0 j).
  - intros i H. assert (i <> k) as Hne by (intros ->; lia). destruct (EO i Hne) as [E1 E2]. rewrite !m_push_at_ne by done. by apply pi_unit0.
Qed.

(** A unit is written into a slot nobody else has. *)
Lemma PInv_fill s k len unit_ :
  PInv s -> pl_pc s = PoolWriter k len -> zlen unit_ <= size ->
  exists m V, cell_write (pl_mem s) (S consumers) k (put_range (default [] (c_val (m_cell (pl_mem s) k))) 0 unit_) (pl_view s) = Some (m, V) /\
    PInv (pl_produce s m (PoolWriter k (zlen unit_)) V).
Proof.
  intros I Ep Hu. pose proof (pi_pc _ I) as Hpc. unfold pc_ok in Hpc. rewrite Ep in Hpc. destruct Hpc as (Ht & Hc & Hlen).
  assert (forall j i W, (i, W) ∈ pl_queue s j -> i <> k) as Hq by (intros j i W H ->; apply total_queue in H; [lia|done]).
  assert (forall j i, i ∈ pl_held s j -> i <> k) as Hh by (intros j i H ->; apply total_held in H; [lia|done]).
  destruct (pi_size _ I k) as (b & Eb & Hb). eexists _, _. split.
  { apply cell_write_ok; [apply (pi_writes _ I)|]. intros j Hj. destruct (decide (j = consumers)) as [->|Hne]; [apply (pi_preads _ I)|].
    apply Hc. lia. }
  rewrite Eb. change (default [] (Some b)) with b. set (V := view_see _ _ _). assert (view_le (pl_view s) V) as HV by apply view_see_le.
  destruct I. split; unfold total, knows, unit_ok, len_ok, tag_ok in *; pl_cbn; try done; cbn [m_at m_cell].
  - unfold pc_ok. pl_cbn. split; [done|]. split; [|pose proof (zlen_nonneg unit_); lia]. intros j Hj. pl_cbn. cbn [m_cell].
    rewrite upd_eq. cbn [c_reads]. grow HV. by apply Hc.
  - intros i. destruct (pi_out0 i) as (x & Ex & Hv & Hx). exists x. rewrite Ep in Hv. done.
  - intros i t x Ex Hx. destruct (pi_zero0 i t x Ex Hx) as [|H]; [by left|right]. specialize (HV (KAtomic (HOLDERS i))). lia.
  - intros i j x Hj Ex Hn. specialize (pi_reads0 i j x Hj Ex Hn). specialize (HV (KRead i j)).
    destruct (decide (k = i)) as [<-|Hne]; [rewrite upd_eq|rewrite upd_ne by done]; cbn [c_reads]; lia.
  - intros i j Hj. destruct (decide (k = i)) as [<-|Hne]; [rewrite upd_eq|rewrite upd_ne by done]; cbn [c_reads]; by apply pi_creads0.
  - intros i. specialize (pi_preads0 i). specialize (HV (KRead i consumers)).
    destruct (decide (k = i)) as [<-|Hne]; [rewrite upd_eq|rewrite upd_ne by done]; cbn [c_reads]; lia.
  - intros i. destruct (decide (k = i)) as [<-|Hne]; [rewrite upd_eq|rewrite upd_ne by done]; cbn [c_writes].
    + unfold V. rewrite view_see_eq. lia.
    + grow HV. apply pi_writes0.
  - intros i. pose proof (HV (KAtomic (LEN i))). pose proof (HV (KAtomic (TAG i))). specialize (pi_lens0 i). lia.
  - intros j i W H. rewrite upd_ne by (intros ->; by apply (Hq _ _ _ H)). by apply (pi_queue0 j).
  - intros j i H. rewrite upd_ne by (intros ->; by apply (Hh _ _ H)). by apply (pi_held0 j).
  - intros i H. rewrite upd_ne by (intros ->; lia). by apply pi_unit0.
  - intros i. destruct (decide (k = i)) as [<-|Hne]; [rewrite upd_eq|rewrite upd_ne by done; apply pi_size0].
    eexists. split; [done|]. rewrite zlen_put_range; lia.
Qed.

(** The producer looks at what it wrote. *)
Lemma PInv_written s k len :
  PInv s -> pl_pc s = PoolWriter k len ->
  exists b m V, cell_read (pl_mem s) consumers k (pl_view s) = Some (b, m, V) /\ PInv (pl_produce s m (PoolWriter k len) V).
Proof.
  intros I Ep. pose proof (pi_pc _ I) as Hpc. unfold pc_ok in Hpc. rewrite Ep in Hpc. destruct Hpc as (Ht & Hc & Hlen).
  destruct (pi_size _ I k) as (b & Eb & Hb). eexists _, _, _. split; [apply cell_read_ok; [apply (pi_writes _ I)|exact Eb]|].
  set (V := view_see _ _ _). assert (view_le (pl_view s) V) as HV by apply view_see_le.
  destruct I. split; unfold total, knows, unit_ok, len_ok, tag_ok in *; pl_cbn; try done; cbn [m_at m_cell].
  - unfold pc_ok. pl_cbn. split; [done|]. split; [|done]. intros j Hj. pl_cbn. cbn [m_cell].
    rewrite upd_eq. cbn [c_reads]. rewrite upd_ne by lia. grow HV. by apply Hc.
  - intros i. destruct (pi_out0 i) as (x & Ex & Hv & Hx). exists x. rewrite Ep in Hv. done.
  - intros i t x Ex Hx. destruct (pi_zero0 i t x Ex Hx) as [|H]; [by left|right]. specialize (HV (KAtomic (HOLDERS i))). lia.
  - intros i j x Hj Ex Hn. specialize (pi_reads0 i j x Hj Ex Hn). specialize (HV (KRead i j)).
    destruct (decide (k = i)) as [<-|Hne]; [rewrite upd_eq|rewrite upd_ne by done]; cbn [c_reads]; rewrite ?upd_ne by lia; lia.
  - intros i j Hj. destruct (decide (k = i)) as [<-|Hne]; [rewrite upd_eq|rewrite upd_ne by done]; cbn [c_reads]; rewrite ?upd_ne by lia;
      by apply pi_creads0.
  - intros i. specialize (pi_preads0 i). specialize (HV (KRead i consumers)).
    destruct (decide (k = i)) as [<-|Hne]; [rewrite upd_eq|rewrite upd_ne by done]; cbn [c_reads]; [|lia].
    rewrite upd_eq. unfold V. rewrite view_see_eq. lia.
  - intros i. grow HV. destruct (decide (k = i)) as [<-|Hne]; [rewrite upd_eq|rewrite upd_ne by done]; apply pi_writes0.
  - intros i. pose proof (HV (KAtomic (LEN i))). pose proof (HV (KAtomic (TAG i))). specialize (pi_lens0 i). lia.
  - intros j i W H. destruct (decide (k = i)) as [<-|Hne]; [rewrite upd_eq|rewrite upd_ne by done]; by apply (pi_queue0 j).
  - intros j i H. destruct (decide (k = i)) as [<-|Hne]; [rewrite upd_eq|rewrite upd_ne by done]; by apply (pi_held0 j).
  - intros i H. rewrite upd_ne by (intros ->; lia). by apply pi_unit0.
  - intros i. destruct (decide (k = i)) as [<-|Hne]; [rewrite upd_eq; by exists b|rewrite upd_ne by done; apply pi_size0].
Qed.

(** A ring takes the index. *)
Lemma PInv_push s k r rings at_ taken taken' :
  PInv s -> pl_pc s = PoolPush k (r :: rings) at_ taken ->
  PInv (pl_produce (pl_set_queue s r (pl_queue s r ++ [(k, pl_view s)])) (pl_mem s) (PoolPush k rings (at_ + 1) taken') (pl_view s)).
Proof.
  intros I Ep. pose proof (pi_pc _ I) as Hpc. unfold pc_ok in Hpc. rewrite Ep in Hpc. destruct Hpc as ([Hr Hn] & Hu & Hk).
  inversion Hr as [|? ? Hrc Hrs]; subst. rewrite zlen_cons in Hn.
  assert (forall i, held_by (upd (pl_queue s) r (pl_queue s r ++ [(k, pl_view s)])) (pl_held s) consumers i =
    (total s i + if decide (k = i) then 1 else 0)%nat) as Etot.
  { intros i. pose proof (held_by_upd_queue (pl_queue s) (pl_held s) consumers i r (pl_queue s r ++ [(k, pl_view s)]) Hrc) as H.
    rewrite fmap_app in H. cbn [fmap list_fmap fst] in H. rewrite times_snoc in H. unfold total. lia. }
  destruct I. split; unfold total, knows, unit_ok, len_ok, tag_ok in *; pl_cbn; try done.
  - unfold pc_ok, unit_ok, len_ok, tag_ok, knows, rings_ok in *. pl_cbn. split; [split; [done|lia]|done].
  - intros i. destruct (pi_out0 i) as (x & Ex & Hv & Hx). exists x. split; [done|]. split; [|done]. rewrite Hv, Etot, Ep. cbn [mine].
    unfold total. cbn [length]. destruct (decide (k = i)); lia.
  - intros j i W H. destruct (decide (r = j)) as [<-|Hne].
    + rewrite upd_eq in H. apply elem_of_app in H as [H|H]; [by apply (pi_queue0 r)|].
      apply list_elem_of_singleton in H. injection H as -> ->. done.
    + rewrite upd_ne in H by done. by apply (pi_queue0 j).
  - intros j Hj. rewrite upd_ne by lia. by apply pi_range0.
  - intros i H. rewrite Etot in H. destruct (decide (k = i)) as [<-|Hne]; [done|]. apply pi_unit0. unfold total in H. lia.
Qed.

Lemma PInv_hint s h : PInv s -> PInv (pl_set_hint s h).
Proof. intros []. by split. Qed.

Lemma PInv_set_unit s k len u : PInv s -> pl_pc s = PoolWriter k len -> PInv (pl_set_unit s k u).
Proof.
  intros I Ep. pose proof (pi_pc _ I) as Hpc. unfold pc_ok in Hpc. rewrite Ep in Hpc. destruct Hpc as (Ht & Hc).
  assert (forall j i, i ∈ pl_held s j -> i <> k) as Hh by (intros j i H ->; apply total_held in H; [lia|done]).
  destruct I. split; unfold total, knows, unit_ok, len_ok, tag_ok in *; pl_cbn; try done.
  - unfold pc_ok. pl_cbn. by rewrite Ep.
  - intros i H. rewrite upd_ne by (intros ->; lia). by apply pi_unit0.
  - intros j i l H. destruct (pi_reading0 j i l H) as (Hj & Hi & ->). split; [done|]. split; [done|].
    by rewrite upd_ne by (intros ->; by apply (Hh _ _ Hi)).
Qed.

(** The scan finds a free slot only where the newest count is zero, and then every
    reader has let go. *)
Lemma PInv_scan s index t x :
  PInv s -> (forall i, mine (pl_pc s) i = O) -> m_at (pl_mem s) (HOLDERS index) !! t = Some x -> (pl_view s (KAtomic (HOLDERS index)) <= t)%nat ->
  m_val x = 0 ->
  PInv (pl_produce s (pl_mem s) (PoolFound index) (view_join (view_see (pl_view s) (KAtomic (HOLDERS index)) t) (m_view x))).
Proof.
  intros I Hm Ex Ht Hx. set (V := view_join _ _). assert (view_le (pl_view s) V) as HV by (intros key; unfold V; view_lia).
  apply PInv_local; [done|done|intros i; by rewrite Hm|]. unfold pc_ok. pl_cbn.
  destruct (pi_zero _ I _ _ _ Ex Hx) as [Hlast|]; [|lia].
  destruct (pi_out _ I index) as (y & Ey & Hv & _). pose proof Ey as Ey'. unfold newest in Ey'. rewrite <- Hlast in Ey'. cbn [pred] in Ey'.
  rewrite Ex in Ey'. injection Ey' as <-. rewrite Hm, Hx in Hv. assert (total s index = O) as Et by lia. split; [exact Et|].
  intros j Hj. pl_cbn. assert (index ∉ pl_held s j) as Hn by (intros H; apply total_held in H; [lia|done]).
  pose proof (pi_reads _ I index j x Hj Ey Hn). unfold V. view_lia.
Qed.

Lemma pool_release_ok s k pc :
  PInv s -> (mine (pl_pc s) k = S (mine pc k))%nat -> (forall i, i <> k -> mine pc i = mine (pl_pc s) i) ->
  (forall m V, pl_mem s = pl_mem s -> m_cell m = m_cell (pl_mem s) -> (forall i, m_at m (LEN i) = m_at (pl_mem s) (LEN i)) ->
    (forall i, m_at m (TAG i) = m_at (pl_mem s) (TAG i)) -> view_le (pl_view s) V -> pc_ok (pl_produce s m pc V)) ->
  exists m V, pool_release (pl_mem s) k (pl_view s) = Some (m, V) /\ PInv (pl_produce s m pc V).
Proof.
  intros I Hk Hm Hpc. destruct (pi_out _ I k) as (x & Ex & Hv & Hx). unfold pool_release.
  rewrite (rmw_newest _ _ _ _ _ _ Ex). cbn [mbind option_bind acquires releases]. eexists _, _. split; [done|].
  set (V := view_join (view_see _ _ _) view_bot). assert (view_le (pl_view s) V) as HV by (intros key; unfold V; view_lia).
  apply PInv_holders; [done|done| |done| | | |].
  - unfold V, view_join. rewrite view_see_eq. lia.
  - cbn [m_val]. rewrite Hv, Hk. unfold wsub, wrap. rewrite Z.mod_small by lia. lia.
  - cbn [m_val]. unfold wsub, wrap. pose proof (Z.mod_pos_bound (m_val x - 1) (2 ^ 64) ltac:(lia)). lia.
  - intros j Hj Hn. cbn [m_view]. pose proof (pi_reads _ I k j x Hj Ex Hn). pose proof (HV (KRead k j)). unfold view_join at 1. lia.
  - apply Hpc; [done|done| | |done]; intros i; apply m_push_at_ne, words_ne.
Qed.

Lemma PInv_found s k : PInv s -> pl_pc s = PoolFound k ->
  forall m V, atomic_store (pl_mem s) Relaxed (HOLDERS k) 1 (pl_view s) = (m, V) -> PInv (pl_produce s m (PoolWriter k 0) V).
Proof.
  intros I Ep m V [= <- <-]. pose proof (pi_pc _ I) as Hpc. unfold pc_ok in Hpc. rewrite Ep in Hpc. destruct Hpc as (Ht & Hc).
  assert (0 <= size) as Hs by (destruct (pi_size _ I k) as (b & _ & <-); apply zlen_nonneg).
  apply PInv_holders; [done|apply view_see_le| | | | | |].
  - rewrite view_see_eq. lia.
  - intros i Hne. rewrite Ep. cbn. by rewrite decide_False.
  - cbn [m_val mine]. rewrite decide_True, Ht by done. done.
  - done.
  - intros j Hj _. specialize (Hc j Hj). pose proof (view_see_le (pl_view s) (KAtomic (HOLDERS k)) (length (m_at (pl_mem s) (HOLDERS k))) (KRead k j)). lia.
  - unfold pc_ok, clean, total in *. pl_cbn. split; [done|]. split; [|lia]. intros j Hj. rewrite m_push_cell. grow view_see_le. by apply Hc.
Qed.

Lemma PInv_publish s k len tag rings :
  PInv s -> pl_pc s = PoolWriter k len -> rings_ok rings ->
  forall m V, atomic_store (pl_mem s) Relaxed (LEN k) len (pl_view s) = (m, V) ->
  PInv (pl_set_unit (pl_produce s m (PoolLen k tag rings) V) k (take (Z.to_nat len) (default [] (c_val (m_cell (pl_mem s) k))), tag)).
Proof.
  intros I Ep Hr m V [= <- <-]. pose proof (pi_pc _ I) as Hpc. unfold pc_ok in Hpc. rewrite Ep in Hpc. destruct Hpc as (Ht & Hc & Hlen).
  destruct (pi_size _ I k) as (b & Eb & Hb). set (u := (_, tag)).
  pose proof (PInv_set_unit s k len u I Ep) as I'.
  apply (PInv_word (pl_set_unit s k u) k (LEN k)); [done|by left|exact Ht|apply view_see_le| | |].
  - pl_cbn. rewrite view_see_eq. lia.
  - intros i. pl_cbn. by rewrite Ep.
  - unfold pc_ok, len_ok, total in *. pl_cbn. split; [done|]. split; [done|]. rewrite upd_eq. split; [|done].
    exists b. eexists. rewrite m_push_cell, newest_push_eq. split; [done|]. split; [done|]. cbn [m_val]. split; [lia|].
    unfold u. by rewrite Eb.
Qed.

Lemma PInv_tag s k tag rings : PInv s -> pl_pc s = PoolLen k tag rings ->
  forall m V, atomic_store (pl_mem s) Relaxed (TAG k) tag (pl_view s) = (m, V) -> PInv (pl_produce s m (PoolTag k rings) V).
Proof.
  intros I Ep m V [= <- <-]. pose proof (pi_pc _ I) as Hpc. unfold pc_ok in Hpc. rewrite Ep in Hpc. destruct Hpc as (Ht & Hr & Hl & ->).
  apply (PInv_word s k (TAG k)); [done|by right|done|apply view_see_le| | |].
  - rewrite view_see_eq. lia.
  - intros i. by rewrite Ep.
  - unfold pc_ok, unit_ok, len_ok, tag_ok, total in *. pl_cbn. split; [done|]. split; [done|]. split.
    + destruct Hl as (b & x & Eb & Ex & H). exists b, x. rewrite m_push_cell, newest_push_ne by apply words_ne. done.
    + eexists. by rewrite newest_push_eq.
Qed.

Lemma PInv_raise s k rings : PInv s -> pl_pc s = PoolTag k rings ->
  exists v m V, atomic_rmw (pl_mem s) Relaxed (HOLDERS k) (fun h => wadd 64 h (zlen rings)) (pl_view s) = Some (v, m, V) /\
    PInv (pl_produce s m (PoolPush k rings 0 0) V).
Proof.
  intros I Ep. pose proof (pi_pc _ I) as Hpc. unfold pc_ok in Hpc. rewrite Ep in Hpc. destruct Hpc as (Ht & Hr & Hl & Hg).
  destruct (pi_out _ I k) as (x & Ex & Hv & Hx). rewrite (rmw_newest _ _ _ _ _ _ Ex). cbn [acquires releases]. eexists _, _, _. split; [done|].
  rewrite Ep in Hv. cbn [mine] in Hv. rewrite decide_True, Ht in Hv by done. destruct Hr as [Hr Hn]. pose proof (zlen_nonneg rings).
  set (V := view_join (view_see _ _ _) view_bot). assert (view_le (pl_view s) V) as HV by (intros key; unfold V; view_lia).
  apply PInv_holders; [done|done| | | | | |].
  - unfold V, view_join. rewrite view_see_eq. lia.
  - intros i Hne. rewrite Ep. cbn. by rewrite !decide_False.
  - cbn [m_val mine]. rewrite Hv, decide_True, Ht by done. unfold wadd, wrap, zlen in *. rewrite Z.mod_small by lia. lia.
  - cbn [m_val]. rewrite Hv. unfold wadd, wrap. rewrite Z.mod_small by lia. lia.
  - intros j Hj Hin. cbn [m_view]. pose proof (pi_reads _ I k j x Hj Ex Hin). pose proof (HV (KRead k j)). unfold view_join at 1. lia.
  - unfold pc_ok, unit_ok, len_ok, tag_ok, knows, newest in *. pl_cbn.
    rewrite !(m_push_at_ne _ (HOLDERS k)) by apply words_ne. split; [done|]. split; [done|].
    pose proof (pi_lens _ I k). pose proof (pi_writes _ I k). pose proof (HV (KWrite k)). pose proof (HV (KAtomic (LEN k))).
    pose proof (HV (KAtomic (TAG k))). rewrite m_push_cell. lia.
Qed.

Lemma PInv_produce call s s' : PInv s -> produce_step slots size consumers call s = Some s' -> PInv s'.
Proof.
  intros I E. unfold produce_step in E. pose proof (pi_pc _ I) as Hpc. unfold pc_ok in Hpc.
  destruct (pl_pc s) as [|start step|k|k len|k tag rings|k rings|k rings at_ taken|k rings at_ taken|k] eqn:Ep;
    destruct call as [|t|unit_| |tag' rings'| |accepted|]; try done; try (by destruct rings).
  - injection E as <-. apply PInv_local; [done|by intros key|by rewrite Ep|done].
  - destruct (decide _); [injection E as <-; apply PInv_local; [done|by intros key|by rewrite Ep|done]|].
    destruct (atomic_load _ _ _ _ _) as [[h V]|] eqn:El; [|done]. cbn in E. injection E as <-.
    apply atomic_load_inv in El as (x & Ex & Ht & -> & ->). cbn [acquires].
    destruct (Z.eqb_spec (m_val x) 0) as [Hx|Hx].
    + apply PInv_scan; try done. by rewrite Ep.
    + apply PInv_local; [done| |by rewrite Ep|done]. intros key. view_lia.
  - destruct (atomic_store _ _ _ _ _) as [m V] eqn:Es. injection E as <-. by eapply PInv_hint, PInv_found.
  - destruct (Z.ltb_spec size (zlen unit_)); [by injection E as <-|].
    destruct (PInv_fill s k len unit_ I Ep) as (m & V & Ew & I'); [done|]. rewrite Ew in E. by injection E as <-.
  - destruct (PInv_written s k len I Ep) as (b & m & V & Er & I'). rewrite Er in E. by injection E as <-.
  - destruct (forallb _ rings' && _) eqn:Eg; [|done]. apply andb_true_iff in Eg as [Eg1 Eg2].
    assert (rings_ok rings') as Hr.
    { split; [|lia]. apply Forall_forall. intros r Hr. rewrite forallb_forall in Eg1. specialize (Eg1 r Hr). by apply bool_decide_eq_true in Eg1. }
    destruct (atomic_store _ _ _ _ _) as [m V] eqn:Es. injection E as <-. by eapply PInv_publish.
  - injection E as <-. apply PInv_local; [done|by intros key|by rewrite Ep|done].
  - destruct (atomic_store _ _ _ _ _) as [m V] eqn:Es. injection E as <-. by eapply PInv_tag.
  - destruct (PInv_raise s k rings I Ep) as (v & m & V & Er & I'). rewrite Er in E. by injection E as <-.
  - destruct rings as [|r rings]; [done|]. destruct accepted; injection E as <-; [by eapply PInv_push|].
    destruct Hpc as ([Hr Hn] & Hu & Hk). inversion Hr; subst. rewrite zlen_cons in Hn.
    apply PInv_local; [done|by intros key|by rewrite Ep|]. unfold pc_ok. pl_cbn. split; [split; [done|lia]|]. split; [done|]. exact Hk.
  - destruct rings as [|r rings]; [|done]. injection E as <-. apply PInv_local; [done|by intros key|by rewrite Ep|done].
  - destruct (pool_release_ok s k (PoolPush k rings (at_ + 1) taken) I) as (m & V & Er & I').
    + rewrite Ep. cbn. by rewrite !decide_True.
    + intros i Hne. rewrite Ep. cbn. by rewrite !decide_False.
    + intros m V _ Ec EL ET HV. unfold pc_ok, unit_ok, len_ok, tag_ok, knows, newest in *. pl_cbn. rewrite Ec, EL, ET.
      destruct Hpc as (Hr & Hu & Hk). split; [done|]. split; [done|].
      pose proof (HV (KWrite k)). pose proof (HV (KAtomic (LEN k))). pose proof (HV (KAtomic (TAG k))). lia.
    + rewrite Er in E. by injection E as <-.
  - destruct (pool_release_ok s k PoolIdle I) as (m & V & Er & I').
    + rewrite Ep. cbn. by rewrite decide_True.
    + intros i Hne. rewrite Ep. cbn. by rewrite decide_False.
    + done.
    + rewrite Er in E. by injection E as <-.
Qed.

(** ** The consumers' steps *)

Lemma holds_elem s j i : holds s j i = true -> i ∈ pl_held s j.
Proof. unfold holds. rewrite existsb_exists. intros (x & Hx & ->%Nat.eqb_eq). by apply list_elem_of_In. Qed.

Lemma elem_remove1_ne i x l : i ∈ l -> i <> x -> i ∈ remove1 x l.
Proof.
  induction l as [|y l IH]; intros Hi Hne; [done|]. cbn [remove1]. apply elem_of_cons in Hi as [->|Hi].
  - destruct (Nat.eqb_spec x y); [done|]. apply elem_of_cons. by left.
  - destruct (Nat.eqb x y); [done|]. apply elem_of_cons. right. by apply IH.
Qed.

(** The consumer takes the index off its ring, and the producer's view with it. *)
Lemma PInv_claim s j k W queue :
  PInv s -> (j < consumers)%nat -> pl_queue s j = (k, W) :: queue ->
  PInv (pl_consume (pl_set_held (pl_set_queue s j queue) j (pl_held s j ++ [k])) j (pl_mem s) (pl_reading s j) (view_join (pl_cview s j) W)).
Proof.
  intros I Hj Eq. assert (knows s k W) as Hk by (apply (pi_queue _ I j); rewrite Eq; apply elem_of_cons; by left).
  assert (forall i, held_by (upd (pl_queue s) j queue) (upd (pl_held s) j (pl_held s j ++ [k])) consumers i = total s i) as Etot.
  { intros i. pose proof (held_by_upd (pl_queue s) (pl_held s) consumers i j queue (pl_held s j ++ [k]) Hj) as H.
    rewrite Eq in H. cbn [fmap list_fmap fst] in H. rewrite times_snoc, times_cons in H. unfold total. lia. }
  assert (forall j' V, V = (if decide (j = j') then view_join (pl_cview s j) W else pl_cview s j') -> view_le (pl_cview s j') V) as HV.
  { intros j' V ->. destruct (decide (j = j')) as [<-|]; [apply view_join_l|by intros key]. }
  assert (forall i, clean (pl_consume (pl_set_held (pl_set_queue s j queue) j (pl_held s j ++ [k])) j (pl_mem s) (pl_reading s j) (view_join (pl_cview s j) W)) i
    = clean s i) as Ecl by done.
  destruct I. split; unfold total, knows, unit_ok, len_ok, tag_ok in *; pl_cbn; try done.
  - unfold pc_ok, total in *. pl_cbn. by destruct (pl_pc s); rewrite ?Etot.
  - intros i. rewrite Etot. apply pi_out0.
  - intros i j' x Hj' Ex Hn. apply pi_reads0; [done..|]. intros H. apply Hn. destruct (decide (j = j')) as [<-|Hne].
    + rewrite upd_eq. apply elem_of_app. by left.
    + by rewrite upd_ne.
  - intros i j' Hj'. grow (HV j' (upd (pl_cview s) j (view_join (pl_cview s j) W) j') eq_refl). by apply pi_creads0.
  - intros j' i W' H. destruct (decide (j = j')) as [<-|Hne].
    + rewrite upd_eq in H. apply (pi_queue0 j). rewrite Eq. apply elem_of_cons. by right.
    + rewrite upd_ne in H by done. by apply (pi_queue0 j').
  - intros j' i H. destruct (decide (j = j')) as [<-|Hne].
    + rewrite upd_eq in H. rewrite ?upd_eq. apply elem_of_app in H as [H|H].
      * specialize (pi_held0 _ _ H). unfold view_join. lia.
      * apply list_elem_of_singleton in H as ->. unfold view_join. lia.
    + rewrite upd_ne in H by done. rewrite ?upd_ne by done. by apply pi_held0.
  - intros j' Hj'. rewrite !upd_ne by lia. by apply pi_range0.
  - intros i H. rewrite Etot in H. by apply pi_unit0.
  - intros j' i len H. destruct (decide (j = j')) as [<-|Hne].
    + rewrite upd_eq in H. rewrite ?upd_eq. destruct (pi_reading0 _ _ _ H) as (? & Hi & ?). split; [done|]. split; [|done]. apply elem_of_app. by left.
    + rewrite upd_ne in H by done. rewrite ?upd_ne by done. by apply pi_reading0.
Qed.

(** The consumer's own view and pending length change, nothing shared. *)
Lemma PInv_look s j r V :
  PInv s -> view_le (pl_cview s j) V ->
  (forall i len, r = Some (i, len) -> (j < consumers)%nat /\ i ∈ pl_held s j /\ len = zlen (fst (pl_unit s i))) ->
  PInv (pl_consume s j (pl_mem s) r V).
Proof.
  intros I HV Hr. assert (forall j', view_le (pl_cview s j') (upd (pl_cview s) j V j')) as HU.
  { intros j'. destruct (decide (j = j')) as [<-|Hne]; [by rewrite upd_eq|]. rewrite upd_ne by done. by intros key. }
  destruct I. split; unfold total, knows, unit_ok, len_ok, tag_ok in *; pl_cbn; try done.
  - intros i j' Hj'. grow HU. by apply pi_creads0.
  - intros j' i H. pose proof (HU j' (KWrite i)). pose proof (HU j' (KAtomic (LEN i))). pose proof (HU j' (KAtomic (TAG i))).
    specialize (pi_held0 _ _ H). lia.
  - intros j' i len H. destruct (decide (j = j')) as [<-|Hne]; [rewrite upd_eq in H; by apply Hr|].
    rewrite upd_ne in H by done. by apply pi_reading0.
Qed.

(** What a held frame's length and tag answer. *)
Lemma frame_length s j k t x :
  PInv s -> k ∈ pl_held s j -> m_at (pl_mem s) (LEN k) !! t = Some x -> (pl_cview s j (KAtomic (LEN k)) <= t)%nat ->
  m_val x = zlen (fst (pl_unit s k)).
Proof.
  intros I Hk Ex Ht. destruct (pi_held _ I j k Hk) as (_ & Hl & _). pose proof (lookup_lt_Some _ _ _ Ex).
  destruct (pi_unit _ I k (total_held _ _ _ I Hk)) as [(b & y & Eb & Ey & Hy & <-) _].
  destruct (newest_at _ _ t _ Ey) as [Et|]; [|lia]. rewrite Ex in Et. injection Et as <-. rewrite zlen_take. lia.
Qed.

Lemma frame_tag s j k t x :
  PInv s -> k ∈ pl_held s j -> m_at (pl_mem s) (TAG k) !! t = Some x -> (pl_cview s j (KAtomic (TAG k)) <= t)%nat ->
  m_val x = snd (pl_unit s k).
Proof.
  intros I Hk Ex Ht. destruct (pi_held _ I j k Hk) as (_ & _ & Hl). pose proof (lookup_lt_Some _ _ _ Ex).
  destruct (pi_unit _ I k (total_held _ _ _ I Hk)) as [_ (y & Ey & <-)].
  destruct (newest_at _ _ t _ Ey) as [Et|]; [|lia]. rewrite Ex in Et. by injection Et as <-.
Qed.

(** The bytes of a held frame are read without a race and are the unit's. *)
Lemma PInv_bytes s j k len :
  PInv s -> (j < consumers)%nat -> pl_reading s j = Some (k, len) ->
  exists b m V, cell_read (pl_mem s) j k (pl_cview s j) = Some (b, m, V) /\ default [] (get_range b 0 len) = fst (pl_unit s k) /\
    PInv (pl_saw_bytes (pl_consume s j m None V) k (default [] (get_range b 0 len))).
Proof.
  intros I Hj Er. destruct (pi_reading _ I _ _ _ Er) as (_ & Hk & Hl).
  destruct (pi_held _ I j k Hk) as (Hw & _). pose proof (total_held _ _ _ I Hk) as Htot.
  destruct (pi_unit _ I k Htot) as [(b & y & Eb & Ey & Hy & Eu) _]. exists b. eexists _, _. split; [by apply cell_read_ok|].
  assert (default [] (get_range b 0 len) = fst (pl_unit s k)) as Egot.
  { rewrite <- Eu in Hl |- *. rewrite zlen_take in Hl. assert (len = m_val y) as -> by lia. rewrite get_range_eq by lia.
    rewrite drop_0. cbn. f_equal. lia. }
  split; [done|]. rewrite Egot. set (V := view_see _ _ _).
  assert (forall j', view_le (pl_cview s j') (upd (pl_cview s) j V j')) as HU.
  { intros j'. destruct (decide (j = j')) as [<-|Hne]; [rewrite upd_eq; apply view_see_le|]. rewrite upd_ne by done. by intros key. }
  pose proof (pi_pc _ I) as Hpc. destruct I. split; unfold total, knows, unit_ok, len_ok, tag_ok in *; pl_cbn; try done; cbn [m_at m_cell].
  - unfold pc_ok, clean, unit_ok, len_ok, tag_ok, knows, total in *. pl_cbn. cbn [m_cell m_at].
    assert (forall i, c_val (upd (m_cell (pl_mem s)) k (mkCell (Some b) (c_writes (m_cell (pl_mem s) k)) (upd (c_reads (m_cell (pl_mem s) k)) j (S (c_reads (m_cell (pl_mem s) k) j)))) i)
      = c_val (m_cell (pl_mem s) i)) as Ev by (intros i; destruct (decide (k = i)) as [<-|Hne]; [by rewrite upd_eq|by rewrite upd_ne]).
    destruct (pl_pc s) as [| |k'|k' ?| | | | |]; try done.
    + destruct Hpc as [Ht Hc]. split; [done|]. intros j' Hj'. rewrite upd_ne by (intros ->; lia). by apply Hc.
    + destruct Hpc as (Ht & Hc & Hlen). split; [done|]. split; [|done]. intros j' Hj'. rewrite upd_ne by (intros ->; lia). by apply Hc.
    + by rewrite Ev.
    + by rewrite Ev.
    + rewrite Ev. destruct (decide (k = index)) as [<-|Hne]; [by rewrite upd_eq|by rewrite upd_ne].
    + rewrite Ev. destruct (decide (k = index)) as [<-|Hne]; [by rewrite upd_eq|by rewrite upd_ne].
  - intros i j' x Hj' Ex Hn. destruct (decide (k = i)) as [<-|Hne]; [|rewrite upd_ne by done; by apply pi_reads0].
    rewrite upd_eq. cbn [c_reads]. rewrite upd_ne by (intros ->; done). by apply pi_reads0.
  - intros i j' Hj'. destruct (decide (k = i)) as [<-|Hne].
    + rewrite upd_eq. cbn [c_reads]. destruct (decide (j = j')) as [<-|Hne']; [|rewrite !upd_ne by done; by apply pi_creads0].
      rewrite !upd_eq. unfold V. rewrite view_see_eq. lia.
    + rewrite upd_ne by done. grow HU. by apply pi_creads0.
  - intros i. destruct (decide (k = i)) as [<-|Hne]; [|rewrite upd_ne by done; by apply pi_preads0].
    rewrite upd_eq. cbn [c_reads]. rewrite upd_ne by lia. apply pi_preads0.
  - intros i. destruct (decide (k = i)) as [<-|Hne]; [rewrite upd_eq|rewrite upd_ne by done]; apply pi_writes0.
  - intros j' i W H. specialize (pi_queue0 _ _ _ H). destruct (decide (k = i)) as [<-|Hne]; [rewrite upd_eq|rewrite upd_ne by done]; done.
  - intros j' i H. pose proof (HU j' (KWrite i)). pose proof (HU j' (KAtomic (LEN i))). pose proof (HU j' (KAtomic (TAG i))).
    specialize (pi_held0 _ _ H). destruct (decide (k = i)) as [<-|Hne]; [rewrite upd_eq|rewrite upd_ne by done]; cbn [c_writes]; lia.
  - intros i H. specialize (pi_unit0 i H). destruct (decide (k = i)) as [<-|Hne]; [rewrite upd_eq|rewrite upd_ne by done; done].
    cbn [c_val]. by rewrite <- Eb.
  - intros j' i l H. destruct (decide (j = j')) as [<-|Hne]; [by rewrite upd_eq in H|]. rewrite upd_ne in H by done. by apply pi_reading0.
  - intros i. destruct (decide (k = i)) as [<-|Hne]; [rewrite upd_eq|rewrite upd_ne by done; apply pi_size0].
    destruct (pi_size0 k) as (b' & Eb' & Hb'). rewrite Eb in Eb'. injection Eb' as <-. by exists b.
  - apply Forall_app. split; [done|]. by apply Forall_singleton.
Qed.

(** A frame is dropped: its reader's accesses go with the count. *)
Lemma PInv_drop_frame s j k :
  PInv s -> (j < consumers)%nat -> k ∈ pl_held s j -> fst <$> pl_reading s j <> Some k ->
  exists m V, pool_release (pl_mem s) k (pl_cview s j) = Some (m, V) /\
    PInv (pl_consume (pl_set_held s j (remove1 k (pl_held s j))) j m (pl_reading s j) V).
Proof.
  intros I Hj Hk Hnr. pose proof (total_held _ _ _ I Hk) as Htot. destruct (pi_out _ I k) as (x & Ex & Hv & Hx). unfold pool_release.
  rewrite (rmw_newest _ _ _ _ _ _ Ex). cbn [mbind option_bind acquires releases]. eexists _, _. split; [done|].
  set (V := view_join (view_see _ _ _) view_bot). assert (view_le (pl_cview s j) V) as HV by (intros key; unfold V; view_lia).
  set (y := mkMsg _ _).
  assert (forall i, (held_by (pl_queue s) (upd (pl_held s) j (remove1 k (pl_held s j))) consumers i + if decide (k = i) then 1 else 0)%nat = total s i) as Etot.
  { intros i. pose proof (held_by_upd_held (pl_queue s) (pl_held s) consumers i j (remove1 k (pl_held s j)) Hj) as H.
    pose proof (times_remove1 i k (pl_held s j) Hk). unfold total. lia. }
  assert (forall i, m_at (m_push (pl_mem s) (HOLDERS k) y) (LEN i) = m_at (pl_mem s) (LEN i)) as EL
    by (intros i; apply m_push_at_ne, words_ne).
  assert (forall i, m_at (m_push (pl_mem s) (HOLDERS k) y) (TAG i) = m_at (pl_mem s) (TAG i)) as ET
    by (intros i; apply m_push_at_ne, words_ne).
  assert (forall j', view_le (pl_cview s j') (upd (pl_cview s) j V j')) as HU.
  { intros j'. destruct (decide (j = j')) as [<-|Hne]; [by rewrite upd_eq|]. rewrite upd_ne by done. by intros key. }
  assert (forall j' i, i ∈ upd (pl_held s) j (remove1 k (pl_held s j)) j' -> i ∈ pl_held s j') as Hsub.
  { intros j' i. destruct (decide (j = j')) as [<-|Hne]; [rewrite upd_eq; apply elem_remove1|by rewrite upd_ne]. }
  pose proof (pi_pc _ I) as Hpc. destruct I. split; unfold total, knows, unit_ok, len_ok, tag_ok, newest in *; pl_cbn; try done.
  - unfold pc_ok, clean, unit_ok, len_ok, tag_ok, knows, total, newest in *. pl_cbn.
    destruct (pl_pc s) as [| |k'|k' ?|k' ? ?|k' ?|k' ? ? ?|k' ? ? ?|]; try done; rewrite ?EL, ?ET; try done;
      pose proof (Etot k'); destruct Hpc as [Ht Hpc]; (split; [lia|done]).
  - intros i. destruct (decide (i = k)) as [->|Hne].
    + exists y. split; [apply newest_push_eq|]. specialize (Etot k). rewrite decide_True in Etot by done. unfold y. cbn [m_val].
      unfold wsub, wrap. rewrite Z.mod_small by lia. lia.
    + rewrite m_push_at_ne by (by apply words_ne). destruct (pi_out0 i) as (z & Ez & Hz & Hb). exists z.
      specialize (Etot i). rewrite decide_False in Etot by done. split; [done|]. split; [lia|done].
  - intros i t z Ez Hz. destruct (decide (i = k)) as [->|Hne].
    + rewrite m_push_at_eq in Ez |- *. rewrite length_app. change (length [y]) with 1%nat. apply lookup_app_Some in Ez as [Ez|[Hge Ez]].
      * destruct (pi_zero0 k t z Ez Hz) as [Hlast|]; [|by right]. exfalso. rewrite <- Hlast in Ex. cbn [pred] in Ex. rewrite Ez in Ex.
        injection Ex as <-. lia.
      * left. apply lookup_lt_Some in Ez. change (length [y]) with 1%nat in Ez. lia.
    + rewrite m_push_at_ne in Ez |- * by (by apply words_ne). by apply (pi_zero0 i t z).
  - intros i j' z Hj' Ez Hn. destruct (decide (i = k)) as [->|Hne].
    + fold (newest (m_push (pl_mem s) (HOLDERS k) y) (HOLDERS k)) in Ez. rewrite newest_push_eq in Ez. injection Ez as <-.
      unfold y. cbn [m_view]. destruct (decide (j = j')) as [<-|Hne].
      * specialize (pi_creads0 k j Hj). specialize (HV (KRead k j)). rewrite m_push_cell. unfold view_join at 1. lia.
      * rewrite upd_ne in Hn by done. specialize (pi_reads0 k j' x Hj' Ex Hn). rewrite m_push_cell. pose proof (view_join_l (m_view x) V (KRead k j')). lia.
    + rewrite m_push_at_ne in Ez by (by apply words_ne). destruct (decide (j = j')) as [<-|Hne'].
      * apply pi_reads0; [done..|]. intros H. apply Hn. rewrite upd_eq. by apply elem_remove1_ne.
      * rewrite upd_ne in Hn by done. by apply pi_reads0.
  - intros i j' Hj'. grow HU. by apply pi_creads0.
  - intros i. rewrite EL, ET. apply pi_lens0.
  - intros j' i W H. rewrite EL, ET. by apply (pi_queue0 j').
  - intros j' i H. rewrite EL, ET. pose proof (HU j' (KWrite i)). pose proof (HU j' (KAtomic (LEN i))). pose proof (HU j' (KAtomic (TAG i))).
    specialize (pi_held0 _ _ (Hsub _ _ H)). rewrite m_push_cell. lia.
  - intros j' Hj'. rewrite upd_ne by lia. by apply pi_range0.
  - intros i H. rewrite EL, ET. apply pi_unit0. specialize (Etot i). lia.
  - intros j' i len H. destruct (decide (j = j')) as [<-|Hne].
    + rewrite upd_eq in H. rewrite upd_eq. destruct (pi_reading0 _ _ _ H) as (? & Hi & ?). split; [done|]. split; [|done].
      apply elem_remove1_ne; [done|]. intros ->. apply Hnr. by rewrite H.
    + rewrite upd_ne in H by done. rewrite upd_ne by done. by apply pi_reading0.
Qed.

Lemma PInv_consume j call s s' : PInv s -> consume_step consumers j call s = Some s' -> PInv s'.
Proof.
  intros I E. unfold consume_step in E. case_bool_decide as Hj; [|done]. destruct call as [|k t| |k t|k].
  - destruct (pl_queue s j) as [|[k W] queue] eqn:Eq; [done|]. injection E as <-. by eapply PInv_claim.
  - destruct (holds s j k) eqn:Hh; [|done]. apply holds_elem in Hh.
    destruct (atomic_load _ _ _ _ _) as [[len V]|] eqn:El; [|done]. cbn in E. injection E as <-.
    apply atomic_load_inv in El as (x & Ex & Ht & -> & ->). apply PInv_look; [done|intros key; view_lia|].
    intros i l [= <- <-]. split; [done|]. split; [done|]. by eapply frame_length.
  - destruct (pl_reading s j) as [[k len]|] eqn:Er; [|done]. cbn in E.
    destruct (PInv_bytes s j k len I Hj Er) as (b & m & V & Ec & _ & I'). rewrite Ec in E. by injection E as <-.
  - destruct (holds s j k) eqn:Hh; [|done]. apply holds_elem in Hh.
    destruct (atomic_load _ _ _ _ _) as [[tag V]|] eqn:El; [|done]. cbn in E. injection E as <-.
    apply atomic_load_inv in El as (x & Ex & Ht & -> & ->).
    assert (PInv (pl_consume s j (pl_mem s) (pl_reading s j) (view_join (view_see (pl_cview s j) (KAtomic (TAG k)) t) view_bot))) as I'.
    { apply PInv_look; [done|intros key; view_lia|]. intros i l Er. by apply (pi_reading _ I). }
    pose proof (frame_tag s j k t x I Hh Ex Ht) as Etag. destruct I'. split; try done. pl_cbn.
    apply Forall_app. split; [done|]. by apply Forall_singleton.
  - destruct (holds s j k) eqn:Hh; [|done]. apply holds_elem in Hh. cbn [andb] in E. case_bool_decide as Hr; [done|]. cbn [negb] in E.
    destruct (PInv_drop_frame s j k I Hj Hh Hr) as (m & V & Er & I'). rewrite Er in E. by injection E as <-.
Qed.

Lemma PInv_run acts s s' : PInv s -> pool_run slots size consumers acts s = Some s' -> PInv s'.
Proof.
  revert s. induction acts as [|a acts IH]; intros s I E; [by injection E as <-|]. cbn in E.
  destruct (pool_step slots size consumers a s) as [s1|] eqn:E1; [|done]. apply (IH s1); [|done].
  unfold pool_step in E1. rewrite (pi_ub _ I) in E1. destruct a; [by eapply PInv_produce|by eapply PInv_consume].
Qed.

(** Somebody has the slot: the producer, a queue or a reader. *)
Definition in_use s i : Prop :=
  (0 < mine (pl_pc s) i)%nat \/ exists j, (j < consumers)%nat /\ (i ∈ (pl_queue s j).*1 \/ i ∈ pl_held s j).

Lemma held_by_pos queue held n i :
  (0 < held_by queue held n i)%nat -> exists j, (j < n)%nat /\ (i ∈ (queue j).*1 \/ i ∈ held j).
Proof.
  induction n as [|n IH]; intros H; [cbn in H; lia|]. cbn in H.
  destruct (Nat.eq_dec (times i (queue n).*1) O) as [Hq|Hq]; [destruct (Nat.eq_dec (times i (held n)) O) as [Hh|Hh]|].
  - destruct IH as (j & Hj & Hi); [lia|]. exists j. split; [lia|done].
  - exists n. split; [lia|]. right. apply list_elem_of_In, (count_occ_In Nat.eq_dec). unfold times in Hh. lia.
  - exists n. split; [lia|]. left. apply list_elem_of_In, (count_occ_In Nat.eq_dec). unfold times in Hq. lia.
Qed.

Lemma in_use_iff s i : PInv s -> in_use s i <-> (0 < mine (pl_pc s) i + total s i)%nat.
Proof.
  intros I. unfold in_use. split.
  - intros [H|(j & Hj & [H|H])]; [lia| |].
    + apply list_elem_of_fmap in H as ([i' W] & -> & H). apply total_queue in H; [cbn in *; lia|done].
    + apply total_held in H; [lia|done].
  - intros H. destruct (Nat.eq_dec (mine (pl_pc s) i) O) as [Hm|Hm]; [right|left; lia]. apply held_by_pos. unfold total in H. lia.
Qed.

End Spec.

(** C16: Whatever the interleaving of the producer and the consumers, whichever of the
    values open to it each load answers with and whichever rings refuse: no access
    of a slot's bytes races with another; every read of a held frame gave the bytes
    and the tag that were published in it; and a slot's newest count is zero exactly
    when neither the writer, nor a ring, nor a reader has it, so every hold comes
    back and no slot in use is given out. *)
Theorem pool_sound (slots : nat) (size : Z) (consumers : nat) (acts : list PoolAct) (s : Pool) :
  0 <= size -> pool_run slots size consumers acts (Pool_new size) = Some s ->
  pl_ub s = false /\
  Forall (fun p => fst p = snd p) (pl_bytes s) /\ Forall (fun p => fst p = snd p) (pl_tags s) /\
  forall i, exists x, newest (pl_mem s) (HOLDERS i) = Some x /\ 0 <= m_val x < 2 ^ 64 /\ (m_val x = 0 <-> ~ in_use consumers s i) /\
    (pl_pc s = PoolFound i -> ~ in_use consumers s i).
Proof.
  intros Hs E. assert (PInv size consumers s) as I by (eapply PInv_run; [by apply PInv_init|exact E]).
  split; [apply (pi_ub _ _ _ I)|]. split; [apply (pi_bytes _ _ _ I)|]. split; [apply (pi_tags _ _ _ I)|].
  intros i. destruct (pi_out _ _ _ I i) as (x & Ex & Hv & Hx). exists x. rewrite (in_use_iff size consumers s i I).
  split; [done|]. split; [lia|]. split; [lia|]. intros Ep. pose proof (pi_pc _ _ _ I) as Hpc. unfold pc_ok in Hpc. rewrite Ep in Hpc.
  destruct Hpc as [Ht _]. rewrite Ep. cbn. lia.
Qed.

Lemma pool_sound_witness :
  exists s, pool_run 1 4 2 sample_pool (Pool_new 4) = Some s /\ pl_ub s = false /\ Forall (fun p => fst p = snd p) (pl_bytes s).
Proof.
  destruct (pool_run 1 4 2 sample_pool (Pool_new 4)) as [s|] eqn:E; [|vm_compute in E; discriminate].
  exists s. destruct (pool_sound 1 4 2 sample_pool s ltac:(lia) E) as (Hu & Hb & _). split; [reflexivity|]. split; [exact Hu|exact Hb].
Defined.
