(* ===== verification/Latest.v ===== *)
(** The latest-wins ring between one producer and one consumer
    (crates/common/src/latest.rs): [begin], [set], [publish_gated] and [abandon] on the
    one side, [take_open] and [release] on the other, and [reopen] from a third
    thread, one step per shared access, under the memory of Atomic. *)

From S2P Require Import Prelude Atomic.

Definition FREE : Z := 0.
Definition FILLING : Z := 1.
Definition READY : Z := 2.
Definition HELD : Z := 3.
Definition STATE_BITS : Z := 2.
Definition STATE_MASK : Z := Z.shiftl 1 STATE_BITS - 1.

Definition pack (seq state : Z) : Z := Z.lor (wrap 64 (Z.shiftl seq STATE_BITS)) state.
Definition state_of (word : Z) : Z := Z.land word STATE_MASK.
Definition seq_of (word : Z) : Z := Z.shiftr word STATE_BITS.

(** What a caller's check says of a gate. *)
Inductive Gate := Open | Shut | Never.

(** The words of slot [i]; its payload is cell [i]. *)
Definition SLOT (i : nat) : nat := 2 * i.
Definition GATE (i : nat) : nat := 2 * i + 1.

(** The payload cell is shared by two threads. *)
Definition LT_PRODUCER : nat := 0.
Definition LT_CONSUMER : nat := 1.

Section Model.
Context {T : Type} (N : nat).

(** Where the producer is: between calls; in [begin], looking for a free slot, about
    to exchange one, looking for the oldest ready one, counting, about to steal; in
    [publish_gated], about to store the gate, then the state; in [abandon]. *)
Inductive ProducerPc :=
| ProdIdle
| BeginFree (i : nat)
| BeginTake (i : nat) (now : Z)
| BeginReady (i : nat) (oldest : option (nat * Z))
| BeginCount (i taken : nat)
| BeginSteal (i : nat) (seen : Z)
| PublishGate (i : nat) (gate seq : Z)
| PublishState (i : nat) (seq : Z)
| Abandon (i : nat) (now : Z).

(** Where the consumer is: between calls; in [take_open] after [after], looking at a
    slot, at its gate, about to exchange the newest open one, asking its gate again,
    putting it back, discarding the older ones, reading the payload; in [release]. *)
Inductive ConsumerPc :=
| ConsIdle
| TakeScan (i : nat) (newest : option (nat * Z)) (shut : option Z) (after : Z)
| TakeGate (i : nat) (now : Z) (newest : option (nat * Z)) (shut : option Z) (after : Z)
| TakeClaim (i : nat) (seen after : Z)
| TakeCheck (i : nat) (seen after : Z)
| TakeBack (i : nat) (seen after : Z)
| TakeOlder (k i : nat) (seen after : Z)
| TakeFree (k : nat) (now : Z) (i : nat) (seen after : Z)
| TakeRead (i : nat) (seen after : Z)
| Release_ (i : nat) (now : Z).

Inductive ReopenPc :=
| ReopIdle
| ReopScan (k : nat)
| ReopFree (k : nat) (now : Z).

Record Taken := mkTaken { tk_index : nat; tk_seq : Z; tk_payload : T; tk_after : Z }.

(** The ring and its three threads; which slots the producer fills and the consumer
    holds, and what was published and handed out. *)
Record Latest := mkLatest {
  lt_mem : Mem T;
  lt_next : Z;
  lt_prod : ProducerPc;
  lt_pview : view;
  lt_filling : list nat;
  lt_cons : ConsumerPc;
  lt_cview : view;
  lt_held : list nat;
  lt_reop : ReopenPc;
  lt_rview : view;
  lt_published : list T;
  lt_taken : list Taken;
  lt_ub : bool;
}.

(** [Latest::new]. *)
Definition Latest_new (blank : T) : Latest :=
  mkLatest (mem_init (fun _ => 0) (Some blank)) 1 ProdIdle view_bot [] ConsIdle view_bot [] ReopIdle view_bot [] [] false.

Definition lt_produce (s : Latest) (m : Mem T) (pc : ProducerPc) (V : view) (filling : list nat) : Latest :=
  mkLatest m (lt_next s) pc V filling (lt_cons s) (lt_cview s) (lt_held s) (lt_reop s) (lt_rview s) (lt_published s) (lt_taken s) (lt_ub s).
Definition lt_consume (s : Latest) (m : Mem T) (pc : ConsumerPc) (V : view) (held : list nat) : Latest :=
  mkLatest m (lt_next s) (lt_prod s) (lt_pview s) (lt_filling s) pc V held (lt_reop s) (lt_rview s) (lt_published s) (lt_taken s) (lt_ub s).
Definition lt_reopen (s : Latest) (m : Mem T) (pc : ReopenPc) (V : view) : Latest :=
  mkLatest m (lt_next s) (lt_prod s) (lt_pview s) (lt_filling s) (lt_cons s) (lt_cview s) (lt_held s) pc V (lt_published s) (lt_taken s) (lt_ub s).
Definition lt_stamp (s : Latest) (next : Z) (payload : T) : Latest :=
  mkLatest (lt_mem s) next (lt_prod s) (lt_pview s) (lt_filling s) (lt_cons s) (lt_cview s) (lt_held s) (lt_reop s) (lt_rview s)
    (lt_published s ++ [payload]) (lt_taken s) (lt_ub s).
Definition lt_handed (s : Latest) (x : Taken) : Latest :=
  mkLatest (lt_mem s) (lt_next s) (lt_prod s) (lt_pview s) (lt_filling s) (lt_cons s) (lt_cview s) (lt_held s) (lt_reop s) (lt_rview s)
    (lt_published s) (lt_taken s ++ [x]) (lt_ub s).
Definition lt_undefined (s : Latest) : Latest :=
  mkLatest (lt_mem s) (lt_next s) (lt_prod s) (lt_pview s) (lt_filling s) (lt_cons s) (lt_cview s) (lt_held s) (lt_reop s) (lt_rview s)
    (lt_published s) (lt_taken s) true.

Fixpoint drop1 (i : nat) (l : list nat) : list nat :=
  match l with
  | [] => []
  | x :: l => if Nat.eqb i x then l else x :: drop1 i l
  end.

(** What the producer calls where it is between calls; [LtStep] is its next access. *)
Inductive ProducerCall :=
| LtBegin
| LtSet (i : nat) (payload : T)
| LtPublish (i : nat) (gate : Z)
| LtAbandon (i : nat)
| LtStep.

Definition lt_producer_step (call : ProducerCall) (t : nat) (s : Latest) : option Latest :=
  let m := lt_mem s in
  let V := lt_pview s in
  let filling := lt_filling s in
  match lt_prod s, call with
  | ProdIdle, LtBegin => Some (lt_produce s m (BeginFree 0) V filling)
  | BeginFree i, LtStep =>
      if decide (i = N) then Some (lt_produce s m (BeginReady 0 None) V filling)
      else
      '(now, V) ← atomic_load m Relaxed (SLOT i) t V;
      Some (lt_produce s m (if state_of now =? FREE then BeginTake i now else BeginFree (S i)) V filling)
  | BeginTake i now, LtStep =>
      '(won, m, V) ← compare_exchange m Acquire Relaxed (SLOT i) now (pack (seq_of now) FILLING) t V;
      if won : bool then Some (lt_produce s m ProdIdle V (i :: filling)) else Some (lt_produce s m (BeginFree (S i)) V filling)
  | BeginReady i oldest, LtStep =>
      if decide (i = N) then
        match oldest with
        | None => Some (lt_produce s m (BeginCount 0 0) V filling)
        | Some (index, seen) => Some (lt_produce s m (BeginSteal index seen) V filling)
        end
      else
      '(now, V) ← atomic_load m Acquire (SLOT i) t V;
      let oldest := if (state_of now =? READY) && match oldest with None => true | Some (_, w) => seq_of now <? seq_of w end
                    then Some (i, now) else oldest in
      Some (lt_produce s m (BeginReady (S i) oldest) V filling)
  | BeginCount i taken, LtStep =>
      if decide (i = N) then Some (lt_produce s m (if decide (taken = N) then ProdIdle else BeginFree 0) V filling)
      else
      '(now, m, V) ← atomic_rmw m AcqRel (SLOT i) (fun h => Z.lor h 0) V;
      Some (lt_produce s m (BeginCount (S i) (if (state_of now =? HELD) || (state_of now =? FILLING) then S taken else taken)) V filling)
  | BeginSteal i seen, LtStep =>
      '(won, m, V) ← compare_exchange m Acquire Relaxed (SLOT i) seen (pack (seq_of seen) FILLING) t V;
      if won : bool then Some (lt_produce s m ProdIdle V (i :: filling)) else Some (lt_produce s m (BeginFree 0) V filling)
  | ProdIdle, LtSet i payload =>
      if existsb (Nat.eqb i) filling then
        match cell_write m 2 i payload V with
        | None => Some (lt_undefined s)
        | Some (m, V) => Some (lt_produce s m ProdIdle V filling)
        end
      else None
  | ProdIdle, LtPublish i gate =>
      if existsb (Nat.eqb i) filling then
        payload ← c_val (m_cell m i);
        let seq := lt_next s in
        Some (lt_stamp (lt_produce s m (PublishGate i gate seq) V filling) (wadd 64 seq 1) payload)
      else None
  | PublishGate i gate seq, LtStep =>
      let '(m, V) := atomic_store m Relaxed (GATE i) gate V in Some (lt_produce s m (PublishState i seq) V filling)
  | PublishState i seq, LtStep =>
      let '(m, V) := atomic_store m Release (SLOT i) (pack seq READY) V in Some (lt_produce s m ProdIdle V (drop1 i filling))
  | ProdIdle, LtAbandon i =>
      if existsb (Nat.eqb i) filling then
        '(now, V) ← atomic_load m Relaxed (SLOT i) t V; Some (lt_produce s m (Abandon i now) V filling)
      else None
  | Abandon i now, LtStep =>
      let '(m, V) := atomic_store m Release (SLOT i) (pack (seq_of now) FREE) V in Some (lt_produce s m ProdIdle V (drop1 i filling))
  | _, _ => None
  end.

(** What the consumer calls; [CtStep] carries what its check says of the gate read. *)
Inductive ConsumerCall :=
| CtTake (after : Z)
| CtRelease (i : nat)
| CtStep (says : Gate).

Definition lt_consumer_step (call : ConsumerCall) (t : nat) (s : Latest) : option Latest :=
  let m := lt_mem s in
  let V := lt_cview s in
  let held := lt_held s in
  match lt_cons s, call with
  | ConsIdle, CtTake after => Some (lt_consume s m (TakeScan 0 None None after) V held)
  | TakeScan i newest shut after, CtStep _ =>
      if decide (i = N) then
        match newest with
        | None => Some (lt_consume s m ConsIdle V held)
        | Some (index, seen) => Some (lt_consume s m (TakeClaim index seen after) V held)
        end
      else
      '(now, V) ← atomic_load m Acquire (SLOT i) t V;
      if negb (state_of now =? READY) || (seq_of now <=? after) then Some (lt_consume s m (TakeScan (S i) newest shut after) V held)
      else Some (lt_consume s m (TakeGate i now newest shut after) V held)
  | TakeGate i now newest shut after, CtStep says =>
      '(gate, V) ← atomic_load m Relaxed (GATE i) t V;
      let '(newest, shut) :=
        match says with
        | Open => (if match newest with None => true | Some (_, w) => seq_of w <? seq_of now end then Some (i, now) else newest, shut)
        | Shut => (newest, Some match shut with None => gate | Some g => Z.min g gate end)
        | Never => (newest, shut)
        end in
      Some (lt_consume s m (TakeScan (S i) newest shut after) V held)
  | TakeClaim i seen after, CtStep _ =>
      '(won, m, V) ← compare_exchange m Acquire Relaxed (SLOT i) seen (pack (seq_of seen) HELD) t V;
      if won : bool then Some (lt_consume s m (TakeCheck i seen after) V held)
      else Some (lt_consume s m (TakeScan 0 None None after) V held)
  | TakeCheck i seen after, CtStep says =>
      '(_, V) ← atomic_load m Relaxed (GATE i) t V;
      Some (lt_consume s m match says with Open => TakeOlder 0 i seen after | _ => TakeBack i seen after end V held)
  | TakeBack i seen after, CtStep _ =>
      let '(m, V) := atomic_store m Release (SLOT i) seen V in
      Some (lt_consume s m (TakeScan 0 None None after) V held)
  | TakeOlder k i seen after, CtStep _ =>
      if decide (k = N) then Some (lt_consume s m (TakeRead i seen after) V held)
      else
      '(now, V) ← atomic_load m Acquire (SLOT k) t V;
      Some (lt_consume s m (if (state_of now =? READY) && (seq_of now <? seq_of seen) then TakeFree k now i seen after
                            else TakeOlder (S k) i seen after) V held)
  | TakeFree k now i seen after, CtStep _ =>
      '(_, m, V) ← compare_exchange m AcqRel Relaxed (SLOT k) now (pack (seq_of now) FREE) t V;
      Some (lt_consume s m (TakeOlder (S k) i seen after) V held)
  | TakeRead i seen after, CtStep _ =>
      match cell_read m LT_CONSUMER i V with
      | None => Some (lt_undefined s)
      | Some (payload, m, V) =>
          Some (lt_handed (lt_consume s m ConsIdle V (i :: held)) (mkTaken i (seq_of seen) payload after))
      end
  | ConsIdle, CtRelease i =>
      if bool_decide (i < N)%nat then
        '(now, V) ← atomic_load m Relaxed (SLOT i) t V;
        Some (lt_consume s m (if state_of now =? HELD then Release_ i now else ConsIdle) V held)
      else None
  | Release_ i now, CtStep _ =>
      '(won, m, V) ← compare_exchange m AcqRel Relaxed (SLOT i) now (pack (seq_of now) FREE) t V;
      Some (lt_consume s m ConsIdle V (if won : bool then drop1 i held else held))
  | _, _ => None
  end.

(** [reopen]'s walk over the slots. *)
Definition lt_reopen_step (t : nat) (s : Latest) : option Latest :=
  let m := lt_mem s in
  let V := lt_rview s in
  match lt_reop s with
  | ReopIdle => Some (lt_reopen s m (ReopScan 0) V)
  | ReopScan k =>
      if decide (k = N) then Some (lt_reopen s m ReopIdle V)
      else
      '(now, V) ← atomic_load m Acquire (SLOT k) t V;
      Some (lt_reopen s m (if state_of now =? READY then ReopFree k now else ReopScan (S k)) V)
  | ReopFree k now =>
      '(_, m, V) ← compare_exchange m AcqRel Relaxed (SLOT k) now (pack (seq_of now) FREE) t V;
      Some (lt_reopen s m (ReopScan (S k)) V)
  end.

Inductive LatestAct :=
| Filling (call : ProducerCall) (t : nat)
| Showing (call : ConsumerCall) (t : nat)
| Reopening (t : nat).

Definition latest_step (a : LatestAct) (s : Latest) : option Latest :=
  if lt_ub s then None
  else match a with
       | Filling call t => lt_producer_step call t s
       | Showing call t => lt_consumer_step call t s
       | Reopening t => lt_reopen_step t s
       end.

Fixpoint latest_run (acts : list LatestAct) (s : Latest) : option Latest :=
  match acts with
  | [] => Some s
  | a :: acts => s ← latest_step a s; latest_run acts s
  end.

End Model.
