(* ===== verification/LatestSpec.v ===== *)
(** The latest-wins ring's contract: a slot is filled by nobody while the consumer has
    it, and what is handed out is what was published, under its own sequence. *)

From S2P Require Import Prelude Atomic Latest.

(** ** Packed words *)

Lemma pack_eq seq st : 0 <= seq < 2 ^ 62 -> 0 <= st < 4 -> pack seq st = seq * 4 + st.
Proof.
  intros Hs Ht. unfold pack, STATE_BITS. rewrite Z.shiftl_mul_pow2 by lia. change (2 ^ 2) with 4. unfold wrap. rewrite Z.mod_small by lia.
  rewrite <- Z.lxor_lor, <- Z.add_nocarry_lxor; [done| |].
  all: apply Z.bits_inj'; intros n Hn; rewrite Z.land_spec, Z.bits_0.
  all: destruct (Z.lt_ge_cases n 2); [replace (seq * 4) with (seq * 2 ^ 2) by lia; by rewrite Z.mul_pow2_bits_low|].
  all: rewrite (Z.bits_above_log2 st), andb_false_r; [done|lia|].
  all: destruct (decide (st = 0)) as [->|]; [cbn; lia|]. all: apply Z.log2_lt_pow2; [lia|]. all: apply (Z.lt_le_trans _ (2 ^ 2)); [lia|].
  all: apply Z.pow_le_mono_r; lia.
Qed.

Lemma state_of_pack seq st : 0 <= seq < 2 ^ 62 -> 0 <= st < 4 -> state_of (pack seq st) = st.
Proof.
  intros Hs Ht. rewrite pack_eq by done. unfold state_of, STATE_MASK, STATE_BITS. change (Z.shiftl 1 2 - 1) with (Z.ones 2).
  rewrite Z.land_ones by lia. change (2 ^ 2) with 4. rewrite Z.add_comm, Z_mod_plus_full. by apply Z.mod_small.
Qed.

Lemma seq_of_pack seq st : 0 <= seq < 2 ^ 62 -> 0 <= st < 4 -> seq_of (pack seq st) = seq.
Proof.
  intros Hs Ht. rewrite pack_eq by done. unfold seq_of, STATE_BITS. rewrite Z.shiftr_div_pow2 by lia. change (2 ^ 2) with 4.
  rewrite Z.div_add_l by lia. rewrite Z.div_small by lia. lia.
Qed.

Section Spec.
Context {T : Type} (N : nat).
Implicit Types (s : Latest (T:=T)) (V : view) (i k : nat).

(** The slot the consumer has in hand during a take. *)
Definition busy (pc : ConsumerPc) : option (nat * Z * Z) :=
  match pc with
  | TakeCheck i seen after | TakeBack i seen after | TakeOlder _ i seen after | TakeFree _ _ i seen after | TakeRead i seen after =>
      Some (i, seen, after)
  | _ => None
  end.

Definition claimed s i : Prop := i ∈ lt_held s \/ (exists seen after, busy (lt_cons s) = Some (i, seen, after)).

(** The slot carries what was published under [seq]. *)
Definition carries s i (seq : Z) : Prop :=
  1 <= seq /\ exists v, lt_published s !! Z.to_nat (seq - 1) = Some v /\ c_val (m_cell (lt_mem s) i) = Some v.

Definition word_ok s (w : Z) : Prop :=
  exists seq st, w = pack seq st /\ 0 <= seq <= zlen (lt_published s) /\ 0 <= st < 4.

Record slot_ok s i (x : Msg) : Prop := mkSlotOk {
  so_word : word_ok s (m_val x);
  so_filling : state_of (m_val x) = FILLING <-> i ∈ lt_filling s;
  so_claimed : state_of (m_val x) = HELD <-> claimed s i;
  so_ready : state_of (m_val x) = READY ->
    carries s i (seq_of (m_val x)) /\ (c_writes (m_cell (lt_mem s) i) <= m_view x (KWrite i))%nat;
  so_reads : state_of (m_val x) = FREE \/ state_of (m_val x) = READY ->
    (c_reads (m_cell (lt_mem s) i) LT_CONSUMER <= m_view x (KRead i LT_CONSUMER))%nat;
}.

Definition ready_word (w : Z) : Prop := state_of w = READY.

Definition prod_ok s : Prop :=
  match lt_prod s with
  | BeginTake _ now => state_of now = FREE
  | BeginReady _ (Some (_, w)) => ready_word w
  | BeginSteal _ seen => ready_word seen
  | PublishGate i _ seq | PublishState i seq => i ∈ lt_filling s /\ seq = zlen (lt_published s) /\ carries s i seq
  | Abandon i now => i ∈ lt_filling s /\ word_ok s now
  | _ => True
  end.

Definition pending_ok (w : Z) (after : Z) : Prop := ready_word w /\ after < seq_of w.

Definition cons_ok s : Prop :=
  match busy (lt_cons s) with
  | Some (i, seen, after) => pending_ok seen after /\ word_ok s seen /\ carries s i (seq_of seen) /\
      (c_writes (m_cell (lt_mem s) i) <= lt_cview s (KWrite i))%nat /\ i ∉ lt_held s
  | None => True
  end /\
  match lt_cons s with
  | TakeScan _ (Some (_, w)) _ after => pending_ok w after
  | TakeGate _ now newest _ after => pending_ok now after /\ match newest with Some (_, w) => pending_ok w after | None => True end
  | TakeClaim _ seen after => pending_ok seen after
  | TakeFree _ now _ _ _ => ready_word now
  | Release_ _ now => state_of now = HELD
  | _ => True
  end.

Definition reop_ok s : Prop := match lt_reop s with ReopFree _ now => ready_word now | _ => True end.

Definition taken_ok s (x : Taken) : Prop :=
  tk_after x < tk_seq x /\ 1 <= tk_seq x /\ lt_published s !! Z.to_nat (tk_seq x - 1) = Some (tk_payload x).

Record LInv s : Prop := mkLInv {
  li_ub : lt_ub s = false;
  li_next : lt_next s = zlen (lt_published s) + 1;
  li_few : zlen (lt_published s) < 2 ^ 62 - 1;
  li_words : forall i t x, m_at (lt_mem s) (SLOT i) !! t = Some x -> word_ok s (m_val x);
  li_slots : forall i, exists x, newest (lt_mem s) (SLOT i) = Some x /\ slot_ok s i x;
  li_fillings : NoDup (lt_filling s);
  li_helds : NoDup (lt_held s);
  li_fill_reads : forall i, i ∈ lt_filling s -> (c_reads (m_cell (lt_mem s) i) LT_CONSUMER <= lt_pview s (KRead i LT_CONSUMER))%nat;
  li_writes : forall i, (c_writes (m_cell (lt_mem s) i) <= lt_pview s (KWrite i))%nat;
  li_preads : forall i, c_reads (m_cell (lt_mem s) i) LT_PRODUCER = O;
  li_creads : forall i, (c_reads (m_cell (lt_mem s) i) LT_CONSUMER <= lt_cview s (KRead i LT_CONSUMER))%nat;
  li_prod : prod_ok s;
  li_cons : cons_ok s;
  li_reop : reop_ok s;
  li_taken : Forall (taken_ok s) (lt_taken s);
  li_vals : forall i, exists v, c_val (m_cell (lt_mem s) i) = Some v;
}.

Lemma LInv_init blank : LInv (Latest_new blank).
Proof.
  assert (forall l t x, m_at (lt_mem (Latest_new blank)) l !! t = Some x -> m_val x = 0) as Hz.
  { intros l [|t] x E; [by injection E as <-|done]. }
  split; try done; try (by constructor); try (by intros; apply not_elem_of_nil in H).
  - intros i t x E. rewrite (Hz _ _ _ E). exists 0, 0. done.
  - intros i. eexists. split; [done|]. split; try done.
    + by exists 0, 0.
    + split; [done|]. intros H. by apply not_elem_of_nil in H.
    + split; [done|]. intros [H|(? & ? & H)]; [by apply not_elem_of_nil in H|done].
  - intros i. by eexists.
Qed.

Lemma drop1_elem i x l : i ∈ drop1 x l -> i ∈ l.
Proof.
  induction l as [|y l IH]; [done|]. cbn [drop1]. rewrite elem_of_cons. destruct (Nat.eqb x y); [by right|].
  intros [->|H]%elem_of_cons; [by left|]. right. by apply IH.
Qed.

Lemma drop1_elem_ne i x l : i ∈ l -> i <> x -> i ∈ drop1 x l.
Proof.
  induction l as [|y l IH]; intros Hi Hne; [done|]. cbn [drop1]. apply elem_of_cons in Hi as [->|Hi].
  - destruct (Nat.eqb_spec x y); [done|]. apply elem_of_cons. by left.
  - destruct (Nat.eqb x y); [done|]. apply elem_of_cons. right. by apply IH.
Qed.

Lemma drop1_gone x l : NoDup l -> x ∉ drop1 x l.
Proof.
  induction 1 as [|y l Hy Hl IH]; [apply not_elem_of_nil|]. cbn [drop1]. destruct (Nat.eqb_spec x y) as [->|Hne].
  - done.
  - intros [->|H]%elem_of_cons; done.
Qed.

Lemma drop1_nodup x l : NoDup l -> NoDup (drop1 x l).
Proof.
  induction 1 as [|y l Hy Hl IH]; [constructor|]. cbn [drop1]. destruct (Nat.eqb x y); [done|]. constructor; [|done].
  intros H. apply Hy. by eapply drop1_elem.
Qed.

(** ** Frames *)

Record Moves s s' : Prop := mkMoves {
  mv_next : lt_next s' = lt_next s;
  mv_published : lt_published s' = lt_published s;
  mv_taken : lt_taken s' = lt_taken s;
  mv_ub : lt_ub s' = lt_ub s;
  mv_pview : view_le (lt_pview s) (lt_pview s');
  mv_cview : view_le (lt_cview s) (lt_cview s');
  mv_cells : m_cell (lt_mem s') = m_cell (lt_mem s);
}.

Ltac word_cong E := unfold word_ok, carries, taken_ok in *; rewrite ?E in *.

(** No slot changes hands. *)
Lemma LInv_local s s' :
  LInv s -> Moves s s' -> (forall i, m_at (lt_mem s') (SLOT i) = m_at (lt_mem s) (SLOT i)) ->
  lt_filling s' = lt_filling s -> lt_held s' = lt_held s -> (forall i, claimed s' i <-> claimed s i) ->
  prod_ok s' -> cons_ok s' -> reop_ok s' -> LInv s'.
Proof.
  intros [] [] Em Ef Eh Ec Hp Hc Hr. split; rewrite ?mv_next0, ?mv_published0, ?mv_taken0, ?mv_ub0, ?Ef, ?Eh, ?mv_cells0; try done.
  - intros i t x E. rewrite Em in E. unfold word_ok. rewrite mv_published0. by apply (li_words0 i t).
  - intros i. destruct (li_slots0 i) as (x & Ex & []). exists x. unfold newest in *. rewrite Em. split; [done|].
    split; unfold word_ok, carries; rewrite ?mv_published0, ?Ef, ?mv_cells0, ?Ec; done.
  - intros i Hi. etransitivity; [by apply li_fill_reads0|apply mv_pview0].
  - intros i. etransitivity; [apply li_writes0|apply mv_pview0].
  - intros i. etransitivity; [apply li_creads0|apply mv_cview0].
  - eapply Forall_impl; [|exact li_taken0]. intros x. unfold taken_ok. by rewrite mv_published0.
Qed.

(** One slot's word changes. *)
Lemma LInv_slot s s' k x :
  LInv s -> Moves s s' -> lt_mem s' = m_push (lt_mem s) (SLOT k) x ->
  (forall i, i <> k -> (i ∈ lt_filling s' <-> i ∈ lt_filling s) /\ (claimed s' i <-> claimed s i)) ->
  NoDup (lt_filling s') -> NoDup (lt_held s') -> slot_ok s' k x ->
  (k ∈ lt_filling s' -> (c_reads (m_cell (lt_mem s) k) LT_CONSUMER <= lt_pview s' (KRead k LT_CONSUMER))%nat) ->
  prod_ok s' -> cons_ok s' -> reop_ok s' -> LInv s'.
Proof.
  intros [] [] Em Ho Hnf Hnh Hk Hr Hp Hc Hre.
  assert (forall i, i <> k -> m_at (lt_mem s') (SLOT i) = m_at (lt_mem s) (SLOT i)) as Eo.
  { intros i Hne. rewrite Em. apply m_push_at_ne. unfold SLOT. lia. }
  split; rewrite ?mv_next0, ?mv_published0, ?mv_taken0, ?mv_ub0, ?mv_cells0; try done.
  - intros i t y E. unfold word_ok. destruct (decide (i = k)) as [->|Hne].
    + rewrite Em, m_push_at_eq in E. apply lookup_app_Some in E as [E|[_ E]].
      * rewrite mv_published0. by apply (li_words0 k t).
      * apply list_lookup_singleton_Some in E as [_ <-]. apply (so_word _ _ _ Hk).
    + rewrite Eo in E by done. rewrite mv_published0. by apply (li_words0 i t).
  - intros i. destruct (decide (i = k)) as [->|Hne].
    + exists x. rewrite Em. split; [apply newest_push_eq|done].
    + destruct (li_slots0 i) as (y & Ey & []). exists y. unfold newest in *. rewrite Eo by done. split; [done|].
      destruct (Ho i Hne) as [Hf Hcl]. split; unfold word_ok, carries; rewrite ?mv_published0, ?mv_cells0, ?Hf, ?Hcl; done.
  - intros i Hi. destruct (decide (i = k)) as [->|Hne]; [by apply Hr|]. etransitivity; [apply li_fill_reads0; by apply Ho|apply mv_pview0].
  - intros i. etransitivity; [apply li_writes0|apply mv_pview0].
  - intros i. etransitivity; [apply li_creads0|apply mv_cview0].
  - eapply Forall_impl; [|exact li_taken0]. intros z. unfold taken_ok. by rewrite mv_published0.
Qed.

Lemma slot_gate_ne i k : SLOT i <> GATE k /\ GATE i <> SLOT k /\ (i <> k -> SLOT i <> SLOT k).
Proof. unfold SLOT, GATE. lia. Qed.

(** A word is decided by its sequence and state. *)
Lemma word_split s w : LInv s -> word_ok s w -> exists seq st, w = pack seq st /\ 0 <= seq < 2 ^ 62 /\ 0 <= st < 4 /\
  state_of w = st /\ seq_of w = seq.
Proof.
  intros I (seq & st & -> & Hs & Ht). pose proof (li_few _ I). exists seq, st. split; [done|]. split; [lia|]. split; [done|].
  split; [apply state_of_pack|apply seq_of_pack]; lia.
Qed.

Lemma repack_ok s w st : LInv s -> word_ok s w -> 0 <= st < 4 ->
  word_ok s (pack (seq_of w) st) /\ state_of (pack (seq_of w) st) = st /\ seq_of (pack (seq_of w) st) = seq_of w.
Proof.
  intros I Hw Ht. destruct Hw as (seq & st0 & -> & Hs & Ht0). pose proof (li_few _ I). rewrite seq_of_pack by lia.
  split; [exists seq, st; done|]. split; [apply state_of_pack|apply seq_of_pack]; lia.
Qed.

(** ** The producer's steps *)

Ltac lt_cbn := cbn [lt_produce lt_consume lt_reopen lt_stamp lt_handed lt_mem lt_next lt_prod lt_pview lt_filling lt_cons lt_cview lt_held
  lt_reop lt_rview lt_published lt_taken lt_ub].
Ltac moves := split; lt_cbn; try done; try (intros key; view_lia).

Lemma not_filling s i x : LInv s -> newest (lt_mem s) (SLOT i) = Some x -> state_of (m_val x) <> FILLING -> i ∉ lt_filling s.
Proof. intros I Ex Hs H. destruct (li_slots _ I i) as (y & Ey & []). rewrite Ex in Ey. injection Ey as <-. by apply Hs, so_filling0. Qed.

Lemma not_claimed s i x : LInv s -> newest (lt_mem s) (SLOT i) = Some x -> state_of (m_val x) <> HELD -> ~ claimed s i.
Proof. intros I Ex Hs H. destruct (li_slots _ I i) as (y & Ey & []). rewrite Ex in Ey. injection Ey as <-. by apply Hs, so_claimed0. Qed.

Lemma newest_ok s i x : LInv s -> newest (lt_mem s) (SLOT i) = Some x -> slot_ok s i x.
Proof. intros I Ex. destruct (li_slots _ I i) as (y & Ey & Hy). rewrite Ex in Ey. by injection Ey as <-. Qed.

(** The exchange that takes a slot to fill. *)
Lemma LInv_fill s i x W :
  LInv s -> newest (lt_mem s) (SLOT i) = Some x -> state_of (m_val x) = FREE \/ state_of (m_val x) = READY ->
  LInv (lt_produce s (m_push (lt_mem s) (SLOT i) (mkMsg (pack (seq_of (m_val x)) FILLING) W)) ProdIdle
    (view_join (view_see (lt_pview s) (KAtomic (SLOT i)) (length (m_at (lt_mem s) (SLOT i)))) (m_view x)) (i :: lt_filling s)).
Proof.
  intros I Ex Hst. pose proof (newest_ok _ _ _ I Ex) as Hx.
  assert (i ∉ lt_filling s) as Hnf by (eapply not_filling; [done..|]; destruct Hst as [-> | ->]; done).
  assert (~ claimed s i) as Hnc by (eapply not_claimed; [done..|]; destruct Hst as [-> | ->]; done).
  destruct (repack_ok s (m_val x) FILLING I (so_word _ _ _ Hx) ltac:(done)) as (Hw & Es & Eq).
  eapply (LInv_slot s _ i); [done|moves|done| | |apply (li_helds _ I)| | | |apply (li_cons _ I)|apply (li_reop _ I)].
  - intros j Hne. lt_cbn. split; [|done]. rewrite elem_of_cons. split; [by intros [->|]|by right].
  - lt_cbn. constructor; [done|apply (li_fillings _ I)].
  - split; cbn [m_val m_view]; lt_cbn; rewrite ?Es; try done.
    + split; [|done]. intros _. apply elem_of_cons. by left.
    + intros [|]; done.
  - intros _. lt_cbn. pose proof (so_reads _ _ _ Hx Hst). view_lia.
  - done.
Qed.

(** A slot being filled is given up, published or not. *)
Lemma LInv_give s i w st :
  LInv s -> i ∈ lt_filling s -> word_ok s w -> state_of w = st -> st = FREE \/ st = READY /\ carries s i (seq_of w) ->
  forall m V, atomic_store (lt_mem s) Release (SLOT i) w (lt_pview s) = (m, V) ->
  LInv (lt_produce s m ProdIdle V (drop1 i (lt_filling s))).
Proof.
  intros I Hi Hw Hst Hc m V [= <- <-]. cbn [releases]. destruct (li_slots _ I i) as (x & Ex & Hx).
  assert (~ claimed s i) as Hnc.
  { eapply not_claimed; [done..|]. intros H. apply (so_filling _ _ _ Hx) in Hi. rewrite H in Hi. done. }
  set (V := view_see _ _ _). assert (view_le (lt_pview s) V) as HV by apply view_see_le.
  eapply (LInv_slot s _ i); [done|moves|done| | |apply (li_helds _ I)| | | |apply (li_cons _ I)|apply (li_reop _ I)].
  - intros j Hne. lt_cbn. split; [|done]. split; [apply drop1_elem|]. intros Hj. by apply drop1_elem_ne.
  - lt_cbn. apply drop1_nodup, (li_fillings _ I).
  - split; cbn [m_val m_view]; lt_cbn; rewrite ?Hst.
    + done.
    + split; [destruct Hc as [-> | [-> _]]; done|]. intros H. by apply drop1_gone in H; [|apply (li_fillings _ I)].
    + split; [destruct Hc as [-> | [-> _]]; done|done].
    + intros Hr. destruct Hc as [-> | [_ Hc]]; [done|]. split; [done|]. etransitivity; [apply (li_writes _ I)|apply HV].
    + intros _. etransitivity; [by apply (li_fill_reads _ I)|apply HV].
  - intros H. by apply drop1_gone in H; [|apply (li_fillings _ I)].
  - done.
Qed.

(** The counting read leaves the word as it is. *)
Lemma LInv_count s i pc x W :
  LInv s -> newest (lt_mem s) (SLOT i) = Some x -> prod_ok (lt_produce s (lt_mem s) pc (lt_pview s) (lt_filling s)) ->
  view_le (m_view x) W ->
  forall V, view_le (lt_pview s) V ->
  LInv (lt_produce s (m_push (lt_mem s) (SLOT i) (mkMsg (Z.lor (m_val x) 0) W)) pc V (lt_filling s)).
Proof.
  intros I Ex Hp HW V HV. rewrite Z.lor_0_r. pose proof (newest_ok _ _ _ I Ex) as Hx.
  eapply (LInv_slot s _ i); [done|moves|done|done|apply (li_fillings _ I)|apply (li_helds _ I)| | |exact Hp|apply (li_cons _ I)|apply (li_reop _ I)].
  - destruct Hx. split; cbn [m_val m_view]; try done.
    + intros Hr. destruct (so_ready0 Hr) as [Hc Hwr]. split; [done|]. etransitivity; [exact Hwr|apply HW].
    + intros Hr. etransitivity; [by apply so_reads0|apply HW].
  - intros Hi. etransitivity; [by apply (li_fill_reads _ I)|apply HV].
Qed.

(** The payload is written. *)
Lemma LInv_set s i payload :
  LInv s -> lt_prod s = ProdIdle -> i ∈ lt_filling s ->
  exists m V, cell_write (lt_mem s) 2 i payload (lt_pview s) = Some (m, V) /\ LInv (lt_produce s m ProdIdle V (lt_filling s)).
Proof.
  intros I Ep Hi. eexists _, _. split.
  { apply cell_write_ok; [apply (li_writes _ I)|]. intros [|[|tid]] Ht; [|change (S O) with LT_CONSUMER|lia].
    - change O with LT_PRODUCER. rewrite (li_preads _ I). lia.
    - by apply (li_fill_reads _ I). }
  set (V := view_see _ _ _). assert (view_le (lt_pview s) V) as HV by apply view_see_le.
  destruct (li_slots _ I i) as (x & Ex & Hx). assert (state_of (m_val x) = FILLING) as Hst by (by apply (so_filling _ _ _ Hx)).
  assert (~ claimed s i) as Hnc by (eapply not_claimed; [done..|]; by rewrite Hst).
  destruct I. split; unfold taken_ok, word_ok in *; lt_cbn; try done; cbn [m_at m_cell].
  - intros j. destruct (li_slots0 j) as (y & Ey & Hy). exists y. split; [done|]. destruct (decide (i = j)) as [<-|Hne].
    + rewrite Ex in Ey. injection Ey as <-. destruct Hx. split; try done; rewrite Hst; [done|]. by intros [|].
    + destruct Hy. split; try done; unfold carries; lt_cbn; cbn [m_cell]; by rewrite upd_ne.
  - intros j Hj. destruct (decide (i = j)) as [<-|Hne]; [rewrite upd_eq|rewrite upd_ne by done]; cbn [c_reads];
      (etransitivity; [by apply li_fill_reads0|apply HV]).
  - intros j. destruct (decide (i = j)) as [<-|Hne]; [rewrite upd_eq|rewrite upd_ne by done]; cbn [c_writes].
    + unfold V. rewrite view_see_eq. lia.
    + etransitivity; [apply li_writes0|apply HV].
  - intros j. destruct (decide (i = j)) as [<-|Hne]; [rewrite upd_eq|rewrite upd_ne by done]; cbn [c_reads]; apply li_preads0.
  - intros j. destruct (decide (i = j)) as [<-|Hne]; [rewrite upd_eq|rewrite upd_ne by done]; cbn [c_reads]; apply li_creads0.
  - unfold cons_ok, carries, word_ok in *. lt_cbn. cbn [m_cell]. destruct li_cons0 as [Hb Hm]. split; [|done].
    destruct (busy (lt_cons s)) as [[[j seen] after]|] eqn:Eb; [|done].
    assert (i <> j) by (intros <-; apply Hnc; right; by rewrite Eb; eauto). by rewrite upd_ne.
  - intros j. destruct (decide (i = j)) as [<-|Hne]; [rewrite upd_eq; by eexists|rewrite upd_ne by done; apply li_vals0].
Qed.

(** A publish draws its sequence. *)
Lemma LInv_stamp s i gate payload :
  LInv s -> lt_prod s = ProdIdle -> i ∈ lt_filling s -> c_val (m_cell (lt_mem s) i) = Some payload ->
  zlen (lt_published s ++ [payload]) < 2 ^ 62 - 1 ->
  LInv (lt_stamp (lt_produce s (lt_mem s) (PublishGate i gate (lt_next s)) (lt_pview s) (lt_filling s)) (wadd 64 (lt_next s) 1) payload).
Proof.
  intros I Ep Hi Ev Hfew. pose proof (li_next _ I) as En. pose proof (zlen_nonneg (lt_published s)).
  assert (zlen (lt_published s ++ [payload]) = zlen (lt_published s) + 1) as El by (rewrite zlen_app; done).
  assert (forall w, word_ok s w -> word_ok (lt_stamp (lt_produce s (lt_mem s) (PublishGate i gate (lt_next s)) (lt_pview s) (lt_filling s)) (wadd 64 (lt_next s) 1) payload) w) as Hw.
  { intros w (seq & st & -> & Hs & Ht). exists seq, st. lt_cbn. split; [done|]. split; [lia|done]. }
  assert (forall j seq, carries s j seq -> carries (lt_stamp (lt_produce s (lt_mem s) (PublishGate i gate (lt_next s)) (lt_pview s) (lt_filling s)) (wadd 64 (lt_next s) 1) payload) j seq) as Hc.
  { intros j seq (Hs & v & Hv & Hcv). split; [done|]. exists v. lt_cbn. split; [|done]. by apply lookup_app_l_Some. }
  set (s' := lt_stamp _ _ _) in *. destruct I. split; try done.
  - unfold s'. lt_cbn. rewrite El, En. unfold wadd. rewrite wrap_small by (unfold fits; lia). lia.
  - intros j t x E. apply Hw. by apply (li_words0 j t).
  - intros j. destruct (li_slots0 j) as (x & Ex & []). exists x. split; [done|]. split; try done; [by apply Hw|].
    intros Hr. destruct (so_ready0 Hr). split; [by apply Hc|done].
  - unfold prod_ok, s'. lt_cbn. split; [done|]. split; [lia|]. split; [lia|]. exists payload. lt_cbn. split; [|done].
    rewrite En. replace (Z.to_nat (zlen (lt_published s) + 1 - 1)) with (length (lt_published s)) by (unfold zlen; lia).
    by rewrite lookup_app_r, Nat.sub_diag.
  - unfold cons_ok in *. destruct li_cons0 as [Hb Hm]. split; [|done]. cbn [s' lt_stamp lt_produce lt_cons] in *.
    destruct (busy (lt_cons s)) as [[[j seen] after]|]; [|done]. destruct Hb as (Hp & Hwd & Hcr & Hrest). split; [done|]. split; [by apply Hw|]. split; [by apply Hc|done].
  - eapply Forall_impl; [|exact li_taken0]. intros x (H1 & H2 & H3). split; [done|]. split; [done|]. unfold s'. lt_cbn. by apply lookup_app_l_Some.
Qed.

Lemma existsb_elem i l : existsb (Nat.eqb i) l = true -> i ∈ l.
Proof. rewrite existsb_exists. intros (x & Hx & ->%Nat.eqb_eq). by apply list_elem_of_In. Qed.

Ltac local_step I := eapply (LInv_local _ _ I); [moves|done|done|done|done| |apply (li_cons _ I)|apply (li_reop _ I)].

Lemma LInv_produce call t s s' :
  LInv s -> lt_producer_step N call t s = Some s' -> zlen (lt_published s') < 2 ^ 62 - 1 -> LInv s'.
Proof.
  intros I E Hfew. unfold lt_producer_step in E. pose proof (li_prod _ I) as Hp. unfold prod_ok in Hp.
  destruct (lt_prod s) as [|i|i now|i oldest|i taken|i seen|i gate seq|i seq|i now] eqn:Ep; destruct call as [|k payload|k gate'|k|]; try done.
  - injection E as <-. by local_step I.
  - destruct (existsb _ _) eqn:Ex; [|done]. apply existsb_elem in Ex.
    destruct (LInv_set s k payload I Ep Ex) as (m & V & Ew & I'). rewrite Ew in E. by injection E as <-.
  - destruct (existsb _ _) eqn:Ex; [|done]. apply existsb_elem in Ex. destruct (c_val _) as [payload|] eqn:Ev; [|done]. cbn in E.
    injection E as <-. by apply LInv_stamp.
  - destruct (existsb _ _) eqn:Ex; [|done]. apply existsb_elem in Ex.
    destruct (atomic_load _ _ _ _ _) as [[now V]|] eqn:El; [|done]. cbn in E. injection E as <-.
    pose proof (load_view_le _ _ _ _ _ _ _ El) as HV. apply atomic_load_inv in El as (x & Ex' & _ & -> & _). local_step I.
    split; [done|]. by apply (li_words _ I k t).
  - destruct (decide _); [injection E as <-; by local_step I|]. destruct (atomic_load _ _ _ _ _) as [[now V]|] eqn:El; [|done]. cbn in E.
    injection E as <-. pose proof (load_view_le _ _ _ _ _ _ _ El) as HV. local_step I.
    unfold prod_ok. lt_cbn. by destruct (Z.eqb_spec (state_of now) FREE).
  - destruct (compare_exchange _ _ _ _ _ _ _ _) as [[[won m] V]|] eqn:Ex; [|done]. cbn in E.
    apply exchange_inv in Ex as [(-> & x & Ex & <- & -> & ->)|(-> & -> & HV)]; injection E as <-; [|by local_step I].
    cbn [acquires releases]. apply LInv_fill; [done..|by left].
  - destruct (decide _).
    + destruct oldest as [[k w]|]; injection E as <-; by local_step I.
    + destruct (atomic_load _ _ _ _ _) as [[now V]|] eqn:El; [|done]. cbn in E.
      injection E as <-. pose proof (load_view_le _ _ _ _ _ _ _ El) as HV. local_step I. unfold prod_ok. lt_cbn.
      destruct (_ && _) eqn:Eb; [|done]. by apply andb_true_iff in Eb as [Eb%Z.eqb_eq _].
  - destruct (decide _); [injection E as <-; local_step I; unfold prod_ok; lt_cbn; by destruct (decide _)|].
    destruct (li_slots _ I i) as (x & Ex & _). rewrite (rmw_newest _ _ _ _ _ _ Ex) in E. cbn [mbind option_bind] in E. injection E as <-.
    apply LInv_count; [done..|by apply view_join_l|]. intros key. view_lia.
  - destruct (compare_exchange _ _ _ _ _ _ _ _) as [[[won m] V]|] eqn:Ex; [|done]. cbn in E.
    apply exchange_inv in Ex as [(-> & x & Ex & <- & -> & ->)|(-> & -> & HV)]; injection E as <-; [|by local_step I].
    cbn [acquires releases]. apply LInv_fill; [done..|by right].
  - destruct (atomic_store _ _ _ _ _) as [m V] eqn:Es. injection E as <-. injection Es as <- <-.
    eapply (LInv_local _ _ I); [moves; by apply view_see_le| |done|done|done| |apply (li_cons _ I)|apply (li_reop _ I)].
    + intros j. lt_cbn. apply m_push_at_ne, slot_gate_ne.
    + exact Hp.
  - destruct (atomic_store _ _ _ _ _) as [m V] eqn:Es. injection E as <-. destruct Hp as (Hi & -> & Hc).
    pose proof (li_few _ I). pose proof (zlen_nonneg (lt_published s)).
    eapply (LInv_give s i (pack (zlen (lt_published s)) READY) READY); [done|done| |by apply state_of_pack; [lia|]| |exact Es].
    + exists (zlen (lt_published s)), READY. split; [done|]. split; [lia|done].
    + right. split; [done|]. by rewrite seq_of_pack by (done || lia).
  - destruct (atomic_store _ _ _ _ _) as [m V] eqn:Es. injection E as <-. destruct Hp as (Hi & Hw).
    destruct (repack_ok s now FREE I Hw ltac:(done)) as (Hw' & Est & _).
    eapply LInv_give; [done|done|exact Hw'|exact Est|by left|exact Es].
Qed.

(** ** The consumer's steps *)

(** The exchange that takes the newest open slot. *)
Lemma LInv_claim s i x after W :
  LInv s -> lt_cons s = TakeClaim i (m_val x) after -> newest (lt_mem s) (SLOT i) = Some x ->
  LInv (lt_consume s (m_push (lt_mem s) (SLOT i) (mkMsg (pack (seq_of (m_val x)) HELD) W)) (TakeCheck i (m_val x) after)
    (view_join (view_see (lt_cview s) (KAtomic (SLOT i)) (length (m_at (lt_mem s) (SLOT i)))) (m_view x)) (lt_held s)).
Proof.
  intros I Ep Ex. pose proof (newest_ok _ _ _ I Ex) as Hx. pose proof (li_cons _ I) as [_ Hp]. rewrite Ep in Hp.
  pose proof Hp as [Hst Haft]. unfold ready_word in Hst.
  assert (i ∉ lt_filling s) as Hnf by (eapply not_filling; [done..|]; by rewrite Hst).
  assert (~ claimed s i) as Hnc by (eapply not_claimed; [done..|]; by rewrite Hst).
  destruct (repack_ok s (m_val x) HELD I (so_word _ _ _ Hx) ltac:(done)) as (Hw & Es & Eq). destruct (so_ready _ _ _ Hx Hst) as [Hc Hwr].
  eapply (LInv_slot s _ i); [done|moves|done| |apply (li_fillings _ I)|apply (li_helds _ I)| | |apply (li_prod _ I)| |apply (li_reop _ I)].
  - intros j Hne. split; [done|]. unfold claimed. lt_cbn. rewrite Ep. cbn [busy]. split.
    + intros [|(? & ? & [= -> _ _])]; [by left|done].
    + intros [|(? & ? & [=])]. by left.
  - split; cbn [m_val m_view]; lt_cbn; rewrite ?Es; try done.
    + split; [|done]. intros _. right. lt_cbn. by eexists _, _.
    + by intros [|].
  - done.
  - unfold cons_ok. lt_cbn. cbn [busy]. split; [|done]. split; [done|]. split; [apply (so_word _ _ _ Hx)|]. split; [done|]. split; [|intros H; apply Hnc; by left].
    rewrite m_push_cell. etransitivity; [exact Hwr|apply view_join_r].
Qed.

(** The slot whose gate closed meanwhile is put back. *)
Lemma LInv_back s i seen after :
  LInv s -> lt_cons s = TakeBack i seen after ->
  forall m V, atomic_store (lt_mem s) Release (SLOT i) seen (lt_cview s) = (m, V) ->
  LInv (lt_consume s m (TakeScan 0 None None after) V (lt_held s)).
Proof.
  intros I Ep m V [= <- <-]. cbn [releases]. pose proof (li_cons _ I) as [Hb _]. rewrite Ep in Hb. cbn [busy] in Hb.
  destruct Hb as ((Hst & _) & Hw & Hc & Hwr & Hnh). unfold ready_word in Hst.
  destruct (li_slots _ I i) as (x & Ex & Hx).
  assert (claimed s i) as Hcl by (right; rewrite Ep; cbn; by eexists _, _). apply (so_claimed _ _ _ Hx) in Hcl.
  assert (i ∉ lt_filling s) as Hnf by (eapply not_filling; [done..|]; by rewrite Hcl).
  set (V := view_see _ _ _). assert (view_le (lt_cview s) V) as HV by apply view_see_le.
  eapply (LInv_slot s _ i); [done|moves|done| |apply (li_fillings _ I)|apply (li_helds _ I)| | |apply (li_prod _ I)|done|apply (li_reop _ I)].
  - intros j Hne. split; [done|]. unfold claimed. lt_cbn. rewrite Ep. cbn [busy]. split.
    + intros [|(? & ? & [=])]. by left.
    + intros [|(? & ? & [= -> _ _])]; [by left|done].
  - split; cbn [m_val m_view]; lt_cbn; rewrite ?Hst; try done.
    + split; [done|]. intros [H|(? & ? & [=])]. done.
    + intros _. split; [done|]. etransitivity; [exact Hwr|apply HV].
    + intros _. etransitivity; [apply (li_creads _ I)|apply HV].
  - done.
Qed.

(** A published slot is let go by an exchange of whichever thread. *)
Lemma LInv_discard s s' k x W :
  LInv s -> Moves s s' -> newest (lt_mem s) (SLOT k) = Some x -> state_of (m_val x) = READY -> view_le (m_view x) W ->
  lt_mem s' = m_push (lt_mem s) (SLOT k) (mkMsg (pack (seq_of (m_val x)) FREE) W) ->
  lt_filling s' = lt_filling s -> lt_held s' = lt_held s -> (forall i, claimed s' i <-> claimed s i) ->
  prod_ok s' -> cons_ok s' -> reop_ok s' -> LInv s'.
Proof.
  intros I M Ex Hst HW Em Ef Eh Ec Hp Hc Hr. pose proof (newest_ok _ _ _ I Ex) as Hx.
  assert (k ∉ lt_filling s) as Hnf by (eapply not_filling; [done..|]; by rewrite Hst).
  assert (~ claimed s k) as Hnc by (eapply not_claimed; [done..|]; by rewrite Hst).
  destruct (repack_ok s (m_val x) FREE I (so_word _ _ _ Hx) ltac:(done)) as (Hw & Es & Eq).
  eapply (LInv_slot s _ k); [done|done|exact Em| | | | | |done|done|done].
  - intros i _. by rewrite Ef, Ec.
  - rewrite Ef. apply (li_fillings _ I).
  - rewrite Eh. apply (li_helds _ I).
  - split; cbn [m_val m_view]; rewrite ?Es, ?Ef, ?Ec; try done.
    + unfold word_ok. by rewrite (mv_published _ _ M).
    + intros _. rewrite (mv_cells _ _ M). etransitivity; [apply (so_reads _ _ _ Hx); by right|apply HW].
  - by rewrite Ef.
Qed.

(** A held slot is given back. *)
Lemma LInv_release s i x W V :
  LInv s -> lt_cons s = Release_ i (m_val x) -> newest (lt_mem s) (SLOT i) = Some x -> view_le (lt_cview s) W -> view_le (lt_cview s) V ->
  LInv (lt_consume s (m_push (lt_mem s) (SLOT i) (mkMsg (pack (seq_of (m_val x)) FREE) W)) ConsIdle V (drop1 i (lt_held s))).
Proof.
  intros I Ep Ex HW HV. pose proof (newest_ok _ _ _ I Ex) as Hx. pose proof (li_cons _ I) as [_ Hst]. rewrite Ep in Hst.
  assert (i ∉ lt_filling s) as Hnf by (eapply not_filling; [done..|]; by rewrite Hst).
  destruct (repack_ok s (m_val x) FREE I (so_word _ _ _ Hx) ltac:(done)) as (Hw & Es & Eq).
  assert (forall j, claimed (lt_consume s (m_push (lt_mem s) (SLOT i) (mkMsg (pack (seq_of (m_val x)) FREE) W)) ConsIdle V (drop1 i (lt_held s))) j <-> j ∈ drop1 i (lt_held s)) as Ec.
  { intros j. unfold claimed. lt_cbn. cbn [busy]. split; [|by left]. by intros [|(? & ? & [=])]. }
  eapply (LInv_slot s _ i); [done|moves|done| |apply (li_fillings _ I)| | | |apply (li_prod _ I)|done|apply (li_reop _ I)].
  - intros j Hne. split; [done|]. rewrite Ec. unfold claimed. rewrite Ep. cbn [busy]. split.
    + intros H. left. by eapply drop1_elem.
    + intros [H|(? & ? & [=])]. by apply drop1_elem_ne.
  - lt_cbn. apply drop1_nodup, (li_helds _ I).
  - split; cbn [m_val m_view]; rewrite ?Es, ?Ec; lt_cbn; try done.
    + split; [done|]. intros H. by apply drop1_gone in H; [|apply (li_helds _ I)].
    + intros _. etransitivity; [apply (li_creads _ I)|apply HW].
  - done.
Qed.

(** The payload of the slot in hand is read. *)
Lemma LInv_read s i seen after :
  LInv s -> lt_cons s = TakeRead i seen after ->
  exists v m V, cell_read (lt_mem s) LT_CONSUMER i (lt_cview s) = Some (v, m, V) /\
    LInv (lt_handed (lt_consume s m ConsIdle V (i :: lt_held s)) (mkTaken i (seq_of seen) v after)).
Proof.
  intros I Ep. pose proof (li_cons _ I) as [Hb _]. rewrite Ep in Hb. cbn [busy] in Hb.
  destruct Hb as ((Hst & Haft) & Hw & (Hseq & v & Hv & Hcv) & Hwr & Hnh). exists v. eexists _, _. split; [by apply cell_read_ok|].
  set (V := view_see _ _ _). assert (view_le (lt_cview s) V) as HV by apply view_see_le.
  destruct (li_slots _ I i) as (x & Ex & Hx).
  assert (claimed s i) as Hcl by (right; rewrite Ep; cbn; by eexists _, _).
  assert (state_of (m_val x) = HELD) as Hst' by (by apply (so_claimed _ _ _ Hx)).
  assert (i ∉ lt_filling s) as Hnf by (eapply not_filling; [done..|]; by rewrite Hst').
  assert (forall m j, claimed (lt_handed (lt_consume s m ConsIdle V (i :: lt_held s)) (mkTaken i (seq_of seen) v after)) j <-> claimed s j) as Ec.
  { intros m j. unfold claimed. lt_cbn. rewrite Ep. cbn [busy]. rewrite elem_of_cons. split.
    - intros [[->|H]|(? & ? & [=])]; [right; by eexists _, _|by left].
    - intros [H|(? & ? & [= -> _ _])]; left; [by right|by left]. }
  assert (forall j, c_val (upd (m_cell (lt_mem s)) i (mkCell (Some v) (c_writes (m_cell (lt_mem s) i)) (upd (c_reads (m_cell (lt_mem s) i)) LT_CONSUMER (S (c_reads (m_cell (lt_mem s) i) LT_CONSUMER)))) j) =
    c_val (m_cell (lt_mem s) j)) as Evl by (intros j; destruct (decide (i = j)) as [<-|Hne]; [by rewrite upd_eq|by rewrite upd_ne]).
  pose proof (li_prod _ I) as Hpr. destruct I. split; unfold word_ok in *; lt_cbn; try done; cbn [m_at m_cell].
  - intros j. destruct (li_slots0 j) as (y & Ey & Hy). exists y. split; [done|]. destruct (decide (i = j)) as [<-|Hne].
    + rewrite Ex in Ey. injection Ey as <-. destruct Hx. split; try done; rewrite ?Ec, ?Hst'; try done. by intros [|].
    + destruct Hy. split; try done; rewrite ?Ec; try done; unfold carries; lt_cbn; cbn [m_cell]; by rewrite upd_ne.
  - constructor; [done|done].
  - intros j Hj. rewrite upd_ne by (by intros ->). by apply li_fill_reads0.
  - intros j. destruct (decide (i = j)) as [<-|Hne]; [rewrite upd_eq|rewrite upd_ne by done]; apply li_writes0.
  - intros j. destruct (decide (i = j)) as [<-|Hne]; [rewrite upd_eq|rewrite upd_ne by done; apply li_preads0]. cbn [c_reads].
    rewrite upd_ne by done. apply li_preads0.
  - intros j. destruct (decide (i = j)) as [<-|Hne]; [rewrite upd_eq|rewrite upd_ne by done]; cbn [c_reads].
    + rewrite upd_eq. unfold V. rewrite view_see_eq. lia.
    + etransitivity; [apply li_creads0|apply HV].
  - unfold prod_ok, carries in *. lt_cbn. cbn [m_cell]. destruct (lt_prod s); try done; by rewrite Evl.
  - apply Forall_app. split; [exact li_taken0|]. apply Forall_singleton. done.
  - intros j. rewrite Evl. apply li_vals0.
Qed.

(** The consumer moves without a slot changing hands. *)
Lemma LInv_look s pc V :
  LInv s -> view_le (lt_cview s) V -> busy pc = busy (lt_cons s) ->
  match pc with
  | TakeScan _ (Some (_, w)) _ after => pending_ok w after
  | TakeGate _ now newest _ after => pending_ok now after /\ match newest with Some (_, w) => pending_ok w after | None => True end
  | TakeClaim _ seen after => pending_ok seen after
  | TakeFree _ now _ _ _ => ready_word now
  | Release_ _ now => state_of now = HELD
  | _ => True
  end -> LInv (lt_consume s (lt_mem s) pc V (lt_held s)).
Proof.
  intros I HV Eb Hpc. eapply (LInv_local s); [done|moves|done|done|done| |apply (li_prod _ I)| |apply (li_reop _ I)].
  - intros i. unfold claimed. lt_cbn. by rewrite Eb.
  - pose proof (li_cons _ I) as [Hb _]. unfold cons_ok. lt_cbn. rewrite Eb. split; [|done].
    destruct (busy (lt_cons s)) as [[[i seen] after]|]; [|done]. destruct Hb as (? & ? & ? & Hwr & ?). split; [done|]. split; [done|].
    split; [done|]. split; [|done]. etransitivity; [exact Hwr|apply HV].
Qed.

Lemma LInv_consume call t s s' : LInv s -> lt_consumer_step N call t s = Some s' -> LInv s'.
Proof.
  intros I E. unfold lt_consumer_step in E. pose proof (li_cons _ I) as [Hb Hp].
  destruct (lt_cons s) as [|i new shut after|i now new shut after|i seen after|i seen after|i seen after|k i seen after|k now i seen after|i seen after|i now] eqn:Ep;
    destruct call as [after'|k'|says]; try done.
  - injection E as <-. apply LInv_look; [done|by intros key|by rewrite Ep|done].
  - case_bool_decide; [|done]. destruct (atomic_load _ _ _ _ _) as [[now V]|] eqn:El; [|done]. cbn in E. injection E as <-.
    pose proof (load_view_le _ _ _ _ _ _ _ El) as HV. destruct (Z.eqb_spec (state_of now) HELD); apply LInv_look; try done; by rewrite Ep.
  - destruct (decide _).
    + destruct new as [[k w]|]; injection E as <-; (apply LInv_look; [done|by intros key|by rewrite Ep|done]).
    + destruct (atomic_load _ _ _ _ _) as [[now V]|] eqn:El; [|done]. cbn in E. pose proof (load_view_le _ _ _ _ _ _ _ El) as HV.
      destruct (_ || _) eqn:Eb; injection E as <-; (apply LInv_look; [done|done|by rewrite Ep|]); [done|].
      apply orb_false_iff in Eb as [E1 E2]. apply negb_false_iff, Z.eqb_eq in E1. split; [|done]. split; [done|lia].
  - destruct (atomic_load _ _ _ _ _) as [[gate V]|] eqn:El; [|done]. cbn in E. pose proof (load_view_le _ _ _ _ _ _ _ El) as HV.
    destruct Hp as [Hnow Hnew]. destruct says; injection E as <-; (apply LInv_look; [done|done|by rewrite Ep|]); try done.
    destruct new as [[k w]|]; [|done]. by destruct (seq_of w <? seq_of now).
  - destruct (compare_exchange _ _ _ _ _ _ _ _) as [[[won m] V]|] eqn:Ex; [|done]. cbn in E.
    apply exchange_inv in Ex as [(-> & x & Ex & <- & -> & ->)|(-> & -> & HV)]; injection E as <-.
    + cbn [acquires releases]. by apply LInv_claim.
    + apply LInv_look; [done|done|by rewrite Ep|done].
  - destruct (atomic_load _ _ _ _ _) as [[gate V]|] eqn:El; [|done]. cbn in E. pose proof (load_view_le _ _ _ _ _ _ _ El) as HV.
    injection E as <-. destruct says; (apply LInv_look; [done|done|by rewrite Ep|done]).
  - destruct (atomic_store _ _ _ _ _) as [m V] eqn:Es. injection E as <-. by eapply LInv_back.
  - destruct (decide _); [injection E as <-; apply LInv_look; [done|by intros key|by rewrite Ep|done]|].
    destruct (atomic_load _ _ _ _ _) as [[now V]|] eqn:El; [|done]. cbn in E. pose proof (load_view_le _ _ _ _ _ _ _ El) as HV.
    injection E as <-. destruct (_ && _) eqn:Eb; (apply LInv_look; [done|done|by rewrite Ep|]); [|done].
    by apply andb_true_iff in Eb as [Eb%Z.eqb_eq _].
  - destruct (compare_exchange _ _ _ _ _ _ _ _) as [[[won m] V]|] eqn:Ex; [|done]. cbn in E. injection E as <-.
    apply exchange_inv in Ex as [(-> & x & Ex & <- & -> & ->)|(-> & -> & HV)]; [|apply LInv_look; [done|done|by rewrite Ep|done]].
    cbn [acquires releases]. eapply (LInv_discard s _ k x); [done|moves|done|exact Hp|apply view_join_l|done|done|done| |apply (li_prod _ I)| |apply (li_reop _ I)].
    + intros j. unfold claimed. lt_cbn. by rewrite Ep.
    + unfold cons_ok. lt_cbn. cbn [busy] in Hb |- *. split; [|done]. destruct Hb as (? & ? & ? & Hwr & ?). split; [done|]. split; [done|]. split; [done|].
      split; [|done]. rewrite m_push_cell. etransitivity; [exact Hwr|]. view_lia.
  - destruct (LInv_read s i seen after I Ep) as (v & m & V & Er & I'). rewrite Er in E. by injection E as <-.
  - destruct (compare_exchange _ _ _ _ _ _ _ _) as [[[won m] V]|] eqn:Ex; [|done]. cbn in E. injection E as <-.
    apply exchange_inv in Ex as [(-> & x & Ex & <- & -> & ->)|(-> & -> & HV)]; [|apply LInv_look; [done|done|by rewrite Ep|done]].
    cbn [acquires releases]. apply LInv_release; [done|done|done| |]; intros key; view_lia.
Qed.

Lemma LInv_reopen t s s' : LInv s -> lt_reopen_step N t s = Some s' -> LInv s'.
Proof.
  intros I E. unfold lt_reopen_step in E. pose proof (li_reop _ I) as Hr. unfold reop_ok in Hr. destruct (lt_reop s) as [|k|k now] eqn:Ep.
  - injection E as <-. eapply (LInv_local s); [done|moves|done..|apply (li_prod _ I)|apply (li_cons _ I)|done].
  - destruct (decide _); [injection E as <-; eapply (LInv_local s); [done|moves|done..|apply (li_prod _ I)|apply (li_cons _ I)|done]|].
    destruct (atomic_load _ _ _ _ _) as [[now V]|] eqn:El; [|done]. cbn in E. injection E as <-.
    eapply (LInv_local s); [done|moves|done..|apply (li_prod _ I)|apply (li_cons _ I)|].
    unfold reop_ok. lt_cbn. by destruct (Z.eqb_spec (state_of now) READY).
  - destruct (compare_exchange _ _ _ _ _ _ _ _) as [[[won m] V]|] eqn:Ex; [|done]. cbn in E. injection E as <-.
    apply exchange_inv in Ex as [(-> & x & Ex & <- & -> & ->)|(-> & -> & HV)].
    + cbn [acquires releases]. eapply (LInv_discard s _ k x); [done|moves|done|exact Hr|apply view_join_l|done|done|done|done|apply (li_prod _ I)|apply (li_cons _ I)|done].
    + eapply (LInv_local s); [done|moves|done..|apply (li_prod _ I)|apply (li_cons _ I)|done].
Qed.

(** ** Runs *)

Lemma step_published a s s' : latest_step N a s = Some s' -> zlen (lt_published s) <= zlen (lt_published s').
Proof.
  unfold latest_step. destruct (lt_ub s); [done|]. intros E. pose proof (zlen_nonneg (lt_published s)).
  destruct a as [call t|call t|t]; [unfold lt_producer_step in E; destruct (lt_prod s), call|unfold lt_consumer_step in E; destruct (lt_cons s), call|
    unfold lt_reopen_step in E; destruct (lt_reop s)]; try done;
  repeat (match type of E with
    | context [match ?e with _ => _ end] => destruct e
    | context [?e ≫= _] => destruct e; cbn [mbind option_bind] in E
    end; try done); injection E as <-; lt_cbn; try done; rewrite zlen_app; change (zlen [_]) with 1; lia.
Qed.

Lemma run_published acts s s' : latest_run N acts s = Some s' -> zlen (lt_published s) <= zlen (lt_published s').
Proof.
  revert s. induction acts as [|a acts IH]; intros s E; [by injection E as <-|]. cbn in E.
  destruct (latest_step N a s) as [s1|] eqn:E1; [|done]. apply step_published in E1. apply IH in E. lia.
Qed.

Lemma LInv_run acts s s' : LInv s -> latest_run N acts s = Some s' -> zlen (lt_published s') < 2 ^ 62 - 1 -> LInv s'.
Proof.
  revert s. induction acts as [|a acts IH]; intros s I E Hf; [by injection E as <-|]. cbn in E.
  destruct (latest_step N a s) as [s1|] eqn:E1; [|done]. apply (IH s1); [|done|done]. pose proof (run_published _ _ _ E) as Hp.
  unfold latest_step in E1. rewrite (li_ub _ I) in E1.
  destruct a; [eapply LInv_produce; [done|exact E1|lia]|by eapply LInv_consume|by eapply LInv_reopen].
Qed.

End Spec.

(** C17: Whatever the interleaving of the producer, the consumer and a reopening thread,
    whatever the caller's check says of each gate it is asked about, and whichever of
    the values open to it each load answers with, up to 2^62 publishes: no access of
    a payload races with another; whatever was handed out is the payload published
    under the sequence it was handed out with, newer than asked; no slot the consumer
    has, taken or being taken, is ever being filled; and its word says held until the
    consumer gives it back. *)
Theorem latest_sound {T} (N : nat) (blank : T) (acts : list LatestAct) (s : Latest) :
  latest_run N acts (Latest_new blank) = Some s -> zlen (lt_published s) < 2 ^ 62 - 1 ->
  lt_ub s = false /\ Forall (taken_ok s) (lt_taken s) /\
  forall i, claimed s i -> i ∉ lt_filling s /\ exists x, newest (lt_mem s) (SLOT i) = Some x /\ state_of (m_val x) = HELD.
Proof.
  intros E Hf. pose proof (LInv_run N acts _ _ (LInv_init blank) E Hf) as I. split; [apply (li_ub _ I)|]. split; [apply (li_taken _ I)|].
  intros i Hc. destruct (li_slots _ I i) as (x & Ex & Hx). assert (state_of (m_val x) = HELD) as Hs by (by apply (so_claimed _ _ _ Hx)).
  split; [|by exists x]. eapply not_filling; [done..|]. by rewrite Hs.
Qed.

(** A picture published, stolen before it is shown, published anew, and taken while
    the exchange of the first look fails. *)
Definition sample_latest : list LatestAct :=
  let fill p := [Filling LtBegin 0; Filling LtStep 0; Filling LtStep 0; Filling (LtSet 0 p) 0; Filling (LtPublish 0 0) 0; Filling LtStep 0; Filling LtStep 0] in
  fill 7 ++
  [Showing (CtTake 0) 0; Showing (CtStep Open) 2; Showing (CtStep Open) 1; Showing (CtStep Open) 0] ++
  [Filling LtBegin 0; Filling LtStep 2; Filling LtStep 0; Filling LtStep 2; Filling LtStep 0; Filling LtStep 2;
   Filling (LtSet 0 8) 0; Filling (LtPublish 0 0) 0; Filling LtStep 0; Filling LtStep 0] ++
  [Showing (CtStep Open) 4; Showing (CtStep Open) 4; Showing (CtStep Open) 2; Showing (CtStep Open) 0; Showing (CtStep Open) 4;
   Showing (CtStep Open) 2; Showing (CtStep Open) 5; Showing (CtStep Open) 0; Showing (CtStep Open) 0].
Example latest_sample :
  (s ← latest_run 1 sample_latest (Latest_new 0); Some (lt_published s, lt_taken s, lt_held s, lt_ub s)) =
  Some ([7; 8], [mkTaken 0 2 8 0], [0%nat], false).
Proof. vm_compute. reflexivity. Qed.

Lemma latest_sound_witness :
  exists s, latest_run 1 sample_latest (Latest_new 0) = Some s /\ lt_ub s = false /\ Forall (taken_ok s) (lt_taken s).
Proof.
  destruct (latest_run 1 sample_latest (Latest_new 0)) as [s|] eqn:E; [|vm_compute in E; discriminate].
  assert (zlen (lt_published s) = 2) as Hl.
  { apply (f_equal (fun o => match o with Some s => zlen (lt_published s) | None => 0 end)) in E. rewrite <- E. vm_compute. reflexivity. }
  exists s. destruct (latest_sound 1 0 sample_latest s E ltac:(rewrite Hl; lia)) as (Hu & Ht & _).
  split; [reflexivity|]. split; [exact Hu|exact Ht].
Defined.
