(* ===== verification/Net.v ===== *)
(** Socket addresses, as the language's library has them, and the canonical
    form every part of the core compares them in (crates/core/src/stun.rs). *)

From S2P Require Import Prelude.

(** [IpAddr]: the octets, four or sixteen of them. *)
Inductive IpAddr :=
  | IpV4 (octets : list Z)
  | IpV6 (octets : list Z).

(** [SocketAddr]; the flow label and scope of an IPv6 address are part of its
    identity. *)
Inductive SocketAddr :=
  | SockV4 (octets : list Z) (port : Z)
  | SockV6 (octets : list Z) (port flowinfo scope_id : Z).

#[global] Instance IpAddr_eq_dec : EqDecision IpAddr.
Proof. solve_decision. Defined.
#[global] Instance SocketAddr_eq_dec : EqDecision SocketAddr.
Proof. solve_decision. Defined.

(** [SocketAddr::new], [ip], [port], [is_ipv4]. *)
Definition SocketAddr_new (ip : IpAddr) (port : Z) : SocketAddr :=
  match ip with
  | IpV4 o => SockV4 o port
  | IpV6 o => SockV6 o port 0 0
  end.
Definition sock_ip (a : SocketAddr) : IpAddr :=
  match a with SockV4 o _ => IpV4 o | SockV6 o _ _ _ => IpV6 o end.
Definition sock_port (a : SocketAddr) : Z :=
  match a with SockV4 _ p => p | SockV6 _ p _ _ => p end.
Definition is_ipv4 (a : SocketAddr) : bool :=
  match a with SockV4 _ _ => true | SockV6 _ _ _ _ => false end.

(** [Ipv6Addr::to_ipv4_mapped]. *)
Definition to_ipv4_mapped (octets : list Z) : option (list Z) :=
  if decide (take 12 octets = repeat 0 10 ++ [0xFF; 0xFF]) then Some (drop 12 octets) else None.

(** [Ipv4Addr::is_loopback] and [is_unspecified]. *)
Definition is_loopback (octets : list Z) : bool := bool_decide (head octets = Some 127).
Definition is_unspecified (octets : list Z) : bool := bool_decide (octets = [0; 0; 0; 0]).

(** [stun::canonical]. *)
Definition canonical (addr : SocketAddr) : SocketAddr :=
  match addr with
  | SockV6 o port _ _ =>
      match to_ipv4_mapped o with
      | Some v4 => SocketAddr_new (IpV4 v4) port
      | None => addr
      end
  | SockV4 _ _ => addr
  end.

(** The same collapse of a bare address, where a datagram's local address is
    recorded. *)
Definition canonical_ip (ip : IpAddr) : IpAddr :=
  match ip with
  | IpV6 o => from_option IpV4 ip (to_ipv4_mapped o)
  | IpV4 _ => ip
  end.

(** [nat::Answer]: where a server is, and where it saw the socket. *)
Record Answer := mkAnswer {
  an_server : SocketAddr;
  an_mapped : SocketAddr;
}.

(** What the types of the source guarantee: octets of the right number and
    size, ports of sixteen bits. *)
Definition sock_ok (a : SocketAddr) : Prop :=
  match a with
  | SockV4 o p => zlen o = 4 /\ bytes_ok o /\ fits 16 p
  | SockV6 o p f s => zlen o = 16 /\ bytes_ok o /\ fits 16 p /\ fits 32 f /\ fits 32 s
  end.
Definition ip_ok (a : IpAddr) : Prop :=
  match a with
  | IpV4 o => zlen o = 4 /\ bytes_ok o
  | IpV6 o => zlen o = 16 /\ bytes_ok o
  end.

Lemma canonical_ok a : sock_ok a -> sock_ok (canonical a).
Proof.
  destruct a as [o p|o p f s]; cbn; [done|]. intros H. pose proof H as (Hl & Hb & Hp & _).
  unfold to_ipv4_mapped. case_decide; cbn; [|done].
  split_and!; [rewrite zlen_drop; lia|by apply Forall_drop|done].
Qed.

Lemma canonical_idem a : canonical (canonical a) = canonical a.
Proof.
  destruct a as [o p|o p f s]; [done|]. cbn. destruct (to_ipv4_mapped o) eqn:E; [done|]. cbn. by rewrite E.
Qed.

Lemma canonical_v6 o p f s : canonical (SockV6 o p f s) = SockV6 o p f s <-> to_ipv4_mapped o = None.
Proof. cbn. by destruct (to_ipv4_mapped o). Qed.
