(* ===== verification/Slots.v ===== *)
(** Fixed tables of optional slots, as the connectivity code keeps its
    candidates, servers, answers, permissions and channels in. *)

From S2P Require Import Prelude.

Lemma put_at_elem {A} (l : list A) i v x : x ∈ put_at l i v -> x = v \/ x ∈ l.
Proof.
  unfold put_at. intros [j Hj]%list_elem_of_lookup_1. apply list_lookup_insert_Some in Hj as [(_ & -> & _)|[_ H]].
  - by left.
  - right. by eapply list_elem_of_lookup_2.
Qed.

Section slots.
  Context {A : Type}.
  Implicit Types (slots : list (option A)) (p : A -> bool) (f : A -> A).

(** [slots.iter().flatten()]. *)
Definition flatten (slots : list (option A)) : list A := omap id slots.

(** [slots.iter_mut().find(|slot| slot.is_none())], filled. *)
Fixpoint fill_first (slots : list (option A)) (a : A) : option (list (option A)) :=
  match slots with
  | [] => None
  | None :: rest => Some (Some a :: rest)
  | Some x :: rest => rest' ← fill_first rest a; Some (Some x :: rest')
  end.

(** [slots.iter_mut().flatten().find(p)], with [f] done to it. *)
Fixpoint update_first (p : A -> bool) (f : A -> A) (slots : list (option A)) : list (option A) :=
  match slots with
  | [] => []
  | None :: rest => None :: update_first p f rest
  | Some x :: rest => if p x then Some (f x) :: rest else Some x :: update_first p f rest
  end.

(** [slots.iter().position(..)] over the filled slots: the index and the
    contents of the first that satisfies [p]. *)
Fixpoint position_from (i : Z) (p : A -> bool) (slots : list (option A)) : option (Z * A) :=
  match slots with
  | [] => None
  | None :: rest => position_from (i + 1) p rest
  | Some x :: rest => if p x then Some (i, x) else position_from (i + 1) p rest
  end.
Definition position (p : A -> bool) (slots : list (option A)) : option (Z * A) := position_from 0 p slots.

(** The first filled slot's contents, and the table with that slot emptied. *)
Fixpoint take_first (slots : list (option A)) : option (A * list (option A)) :=
  match slots with
  | [] => None
  | None :: rest => '(a, rest) ← take_first rest; Some (a, None :: rest)
  | Some x :: rest => Some (x, None :: rest)
  end.

(** [slots.get_mut(i).and_then(Option::as_mut)], with [f] done to it. *)
Definition update_at (i : Z) (f : A -> A) (slots : list (option A)) : list (option A) :=
  match get_at slots i with
  | Some (Some x) => put_at slots i (Some (f x))
  | _ => slots
  end.

Lemma flatten_cons o slots :
  flatten (o :: slots) = match o with Some x => x :: flatten slots | None => flatten slots end.
Proof. by destruct o. Qed.

Lemma elem_flatten x slots : x ∈ flatten slots <-> Some x ∈ slots.
Proof.
  unfold flatten. rewrite list_elem_of_omap. split.
  - intros (o & Ho & E). by destruct o; cbn in E; [injection E as ->|].
  - intros H. by exists (Some x).
Qed.

Lemma flatten_repeat_None n : flatten (repeat None n) = [].
Proof. by induction n. Qed.

Lemma fill_first_length slots a slots' : fill_first slots a = Some slots' -> length slots' = length slots.
Proof.
  revert slots'. induction slots as [|[x|] slots IH]; intros slots' E; cbn in E; [done| |by injection E as <-].
  destruct (fill_first slots a) as [r|] eqn:Er; [|done]. injection E as <-. cbn. f_equal. by apply IH.
Qed.

(** Filling appends in the order of arrival, and is refused by a full table. *)
Lemma fill_first_flatten slots a slots' x :
  fill_first slots a = Some slots' -> x ∈ flatten slots' <-> x = a \/ x ∈ flatten slots.
Proof.
  revert slots'. induction slots as [|[y|] slots IH]; intros slots' E; cbn [fill_first] in E; [done| |].
  - destruct (fill_first slots a) as [r|] eqn:Er; [|done]. injection E as <-.
    rewrite !flatten_cons. rewrite !elem_of_cons, (IH r eq_refl). tauto.
  - injection E as <-. rewrite !flatten_cons. by rewrite elem_of_cons.
Qed.

Lemma fill_first_None slots a : fill_first slots a = None <-> length (flatten slots) = length slots.
Proof.
  induction slots as [|[y|] slots IH]; cbn [fill_first]; rewrite ?flatten_cons; cbn; [done| |].
  - destruct (fill_first slots a) as [r|]; split; try done.
    + intros [= E]. by apply IH in E.
    + intros _. f_equal. by apply IH.
  - split; [done|]. intros E. assert (length (flatten slots) <= length slots)%nat; [|lia].
    clear. induction slots as [|[y|] slots IH]; rewrite ?flatten_cons; cbn; lia.
Qed.

Lemma flatten_length slots : (length (flatten slots) <= length slots)%nat.
Proof. induction slots as [|[y|] slots IH]; rewrite ?flatten_cons; cbn; lia. Qed.

Lemma update_first_length p f slots : length (update_first p f slots) = length slots.
Proof. induction slots as [|[x|] slots IH]; cbn; [done| |by f_equal]. destruct (p x); cbn; by rewrite ?IH. Qed.

(** Only the first match changes. *)
Lemma update_first_flatten p f slots :
  (exists l1 x l2, flatten slots = l1 ++ x :: l2 /\ p x = true /\ Forall (fun y => p y = false) l1 /\
     flatten (update_first p f slots) = l1 ++ f x :: l2) \/
  (Forall (fun y => p y = false) (flatten slots) /\ update_first p f slots = slots).
Proof.
  induction slots as [|[x|] slots IH]; cbn [update_first].
  - right. split; [constructor|done].
  - rewrite !flatten_cons. destruct (p x) eqn:E.
    + left. exists [], x, (flatten slots). rewrite ?flatten_cons. split_and!; [done..|constructor|done].
    + destruct IH as [(l1 & y & l2 & E1 & Hy & Hl & E2)|[Hl E2]].
      * left. exists (x :: l1), y, l2. rewrite ?flatten_cons, E1, E2. split_and!; [done..|by constructor|done].
      * right. split; [by constructor|]. by rewrite E2.
  - rewrite !flatten_cons. destruct IH as [(l1 & y & l2 & E1 & Hy & Hl & E2)|[Hl E2]].
    + left. exists l1, y, l2. rewrite ?flatten_cons. done.
    + right. split; [done|]. by rewrite E2.
Qed.

Lemma update_first_elem p f slots x :
  x ∈ flatten (update_first p f slots) ->
  x ∈ flatten slots \/ exists y, y ∈ flatten slots /\ p y = true /\ x = f y.
Proof.
  destruct (update_first_flatten p f slots) as [(l1 & y & l2 & E1 & Hy & _ & ->)|[_ ->]]; [|by left].
  rewrite E1. rewrite elem_of_app, elem_of_cons. intros [H|[->|H]].
  - left. rewrite elem_of_app, elem_of_cons. tauto.
  - right. exists y. rewrite elem_of_app, elem_of_cons. tauto.
  - left. rewrite elem_of_app, elem_of_cons. tauto.
Qed.

Lemma position_from_elem i p slots j x :
  position_from i p slots = Some (j, x) ->
  i <= j /\ get_at slots (j - i) = Some (Some x) /\ p x = true.
Proof.
  revert i. induction slots as [|[y|] slots IH]; intros i E; cbn in E; [done| |].
  - destruct (p y) eqn:Ey; [injection E as <- <-|].
    + split_and!; [lia|by rewrite Z.sub_diag|done].
    + apply IH in E as (Hj & Hx & Hp). split_and!; [lia| |done].
      unfold get_at in *. replace (Z.to_nat (j - i)) with (S (Z.to_nat (j - (i + 1)))) by lia. done.
  - apply IH in E as (Hj & Hx & Hp). split_and!; [lia| |done].
    unfold get_at in *. replace (Z.to_nat (j - i)) with (S (Z.to_nat (j - (i + 1)))) by lia. done.
Qed.

Lemma position_elem p slots j x :
  position p slots = Some (j, x) -> 0 <= j /\ get_at slots j = Some (Some x) /\ p x = true.
Proof. intros (? & H & ?)%position_from_elem. by rewrite Z.sub_0_r in H. Qed.

Lemma position_None p slots : position p slots = None <-> Forall (fun x => p x = false) (flatten slots).
Proof.
  unfold position. generalize 0. induction slots as [|[y|] slots IH]; intros i; cbn [position_from].
  - split; [constructor|done].
  - rewrite flatten_cons. rewrite Forall_cons_iff. destruct (p y); [split; [done|by intros [? _]]|].
    rewrite IH. tauto.
  - rewrite flatten_cons. apply IH.
Qed.

Lemma get_at_flatten slots i x : get_at slots i = Some (Some x) -> x ∈ flatten slots.
Proof. intros H. apply elem_flatten. by eapply list_elem_of_lookup_2. Qed.

Lemma take_first_flatten slots a slots' :
  take_first slots = Some (a, slots') -> flatten slots = a :: flatten slots' /\ length slots' = length slots.
Proof.
  revert slots'. induction slots as [|[x|] slots IH]; intros slots' E; cbn in E; [done| |].
  - injection E as <- <-. by rewrite !flatten_cons.
  - destruct (take_first slots) as [[b r]|] eqn:Er; [|done]. injection E as <- <-.
    destruct (IH r eq_refl) as [E1 E2]. rewrite !flatten_cons. cbn. by rewrite E1, E2.
Qed.

Lemma take_first_None slots : take_first slots = None <-> flatten slots = [].
Proof.
  induction slots as [|[x|] slots IH]; rewrite ?flatten_cons; cbn; [done..|].
  destruct (take_first slots) as [[b r]|]; cbn; [|done]. destruct IH as [_ IH]. split; [done|]. intros E. by apply IH in E.
Qed.

Lemma update_at_length i f slots : length (update_at i f slots) = length slots.
Proof. unfold update_at. destruct (get_at slots i) as [[x|]|]; [|done..]. unfold put_at. apply length_insert. Qed.

Lemma update_at_elem i f slots x :
  x ∈ flatten (update_at i f slots) ->
  x ∈ flatten slots \/ exists y, y ∈ flatten slots /\ get_at slots i = Some (Some y) /\ x = f y.
Proof.
  unfold update_at. destruct (get_at slots i) as [[y|]|] eqn:E; [|by left..].
  rewrite elem_flatten. intros [[= ->]|H]%put_at_elem.
  - right. exists y. split_and!; [by eapply get_at_flatten|done|done].
  - left. by apply elem_flatten.
Qed.
End slots.

#[global] Arguments flatten : simpl never.
#[global] Arguments position : simpl never.
#[global] Arguments update_at : simpl never.
