(* ===== verification/Injector.v ===== *)
(** One guest's input: from a control message to kernel input events
    (crates/inject/src/event.rs).

    What a method does to the sink it is handed is the list of calls it makes, in
    order; what the sink answers ([host_locks], [takes_reports]) is an argument. *)

From S2P Require Import Prelude CoreError Slots Control Pad Gamepad.

Definition SYN_REPORT : Z := 0.
Definition MSC_SCAN : Z := 4.
Definition REL_X : Z := 0x00.
Definition REL_Y : Z := 0x01.
Definition REL_HWHEEL : Z := 0x06.
Definition REL_WHEEL : Z := 0x08.
Definition REL_WHEEL_HI_RES : Z := 0x0b.
Definition REL_HWHEEL_HI_RES : Z := 0x0c.
Definition ABS_X : Z := 0x00.
Definition ABS_Y : Z := 0x01.
Definition BTN_LEFT : Z := 0x110.
Definition BTN_RIGHT : Z := 0x111.
Definition BTN_MIDDLE : Z := 0x112.
Definition BTN_SIDE : Z := 0x113.
Definition BTN_EXTRA : Z := 0x114.
Definition KEY_CAPSLOCK : Z := 58.
Definition KEY_NUMLOCK : Z := 69.
Definition USAGE_CAPS_LOCK : Z := 57.
Definition USAGE_NUM_LOCK : Z := 83.
Definition MOD_NUM : Z := 0x1000.
Definition MOD_CAPS : Z := 0x2000.
Definition MOD_GUI : Z := Z.lor 0x0400 0x0800.
Definition MODIFIERS : list Z := [224; 225; 226; 227; 228; 229; 230; 231].
Definition ATTENTION : list Z := [224; 226; 76].
Definition WHEEL_DETENT : Z := 120.
Definition ABS_RANGE : Z := 65535.
Definition KEY_SLOTS : Z := 256.
Definition BUTTONS : Z := 5.
Definition SCRATCH : Z := 64.

Inductive Device := Keyboard | Pointer | PointerAbsolute | Gamepad_ (id : Z).
#[global] Instance Device_eq_dec : EqDecision Device.
Proof. solve_decision. Defined.

(** The calls of the trait [Sink]. *)
Inductive SinkCall :=
| Emit (device : Device) (events : list Event)
| SinkUnplug (pad : Z)
| SinkReport (pad : Z) (inbound : PadInbound)
| SinkGuide (allowed : bool).

Record Locks := mkLocks { lk_num : bool; lk_caps : bool }.
Record Permissions := mkPermissions { pm_keyboard : bool; pm_pointer : bool; pm_gamepad : bool }.
Definition Permissions_default : Permissions := mkPermissions true true true.

Record Place := mkPlace { pc_x : Z; pc_y : Z; pc_width : Z; pc_height : Z; pc_desktop_width : Z; pc_desktop_height : Z }.
Record Extents := mkExtents { ex_width : Z; ex_height : Z; ex_place : Place }.
Definition Extents_alone (width height : Z) : Extents := mkExtents width height (mkPlace 0 0 width height width height).
Definition Extents_placed (width height : Z) (place : Place) : Extents := mkExtents width height place.

Record Tally := mkTally { ta_keys : Z; ta_buttons : Z; ta_wheels : Z; ta_motions : Z; ta_pads : Z }.
#[export] Instance Tally_eta : Eta Tally := fun t => mkTally (ta_keys t) (ta_buttons t) (ta_wheels t) (ta_motions t) (ta_pads t).

Definition Tally_count (opcode : Z) (t : Tally) : Tally :=
  if opcode =? op_KEYBOARD then t <| ta_keys ::= fun n => sat_add 32 n 1 |>
  else if opcode =? op_MOUSE_BUTTON then t <| ta_buttons ::= fun n => sat_add 32 n 1 |>
  else if opcode =? op_MOUSE_WHEEL then t <| ta_wheels ::= fun n => sat_add 32 n 1 |>
  else if (opcode =? op_MOUSE_MOTION) || (opcode =? op_MOUSE_MOTION_STREAM) then t <| ta_motions ::= fun n => sat_add 32 n 1 |>
  else if (opcode =? op_GAMEPAD_BUTTON) || (opcode =? op_GAMEPAD_AXIS) || (opcode =? op_GAMEPAD_STATE) || (opcode =? op_GAMEPAD_UNPLUG)
  then t <| ta_pads ::= fun n => sat_add 32 n 1 |>
  else t.

(** [event::Pad]. *)
Record PadSlot := mkPadSlot { ps_id : Z; ps_buttons : Z; ps_raw : bool }.
#[export] Instance PadSlot_eta : Eta PadSlot := fun p => mkPadSlot (ps_id p) (ps_buttons p) (ps_raw p).

Record Injector := mkInjector {
  ij_extents : Extents;
  ij_permissions : Permissions;
  ij_keys : list bool;
  ij_buttons : list bool;
  ij_pressed_on : list Device;
  ij_absolute : bool;
  ij_last_abs : option (Z * Z);
  ij_commanded : option (Z * Z);
  ij_relative : bool;
  ij_num_lock : option bool;
  ij_caps_lock : option bool;
  ij_floor : bool;
  ij_owner : bool;
  ij_pads : list (option PadSlot);
  ij_tally : Tally;
  ij_scratch : list Event;
  ij_used : Z;
}.
#[export] Instance Injector_eta : Eta Injector := fun s =>
  mkInjector (ij_extents s) (ij_permissions s) (ij_keys s) (ij_buttons s) (ij_pressed_on s) (ij_absolute s) (ij_last_abs s)
    (ij_commanded s) (ij_relative s) (ij_num_lock s) (ij_caps_lock s) (ij_floor s) (ij_owner s) (ij_pads s) (ij_tally s)
    (ij_scratch s) (ij_used s).

Definition Injector_new (extents : Extents) : Injector :=
  mkInjector extents Permissions_default (repeat false (Z.to_nat KEY_SLOTS)) (repeat false (Z.to_nat BUTTONS))
    (repeat PointerAbsolute (Z.to_nat BUTTONS)) false None None false None None true false
    (repeat None (Z.to_nat MAX_PADS)) (mkTally 0 0 0 0 0) (repeat (mkEvent 0 0 0) (Z.to_nat SCRATCH)) 0.

(** ** Helpers *)

Definition as_i32 (value : Z) : Z := as_signed 32 value.
Definition low16 (value : Z) : Z := wrap 16 value.
Definition high16_signed (value : Z) : Z := as_signed 16 (wrap 16 (Z.shiftr value 16)).
(** [a - b] on [i32]. *)
Definition sub32 (a b : Z) : Z := as_signed 32 (wsub 32 a b).

Definition is_some {A} (o : option A) : bool := match o with Some _ => true | None => false end.

Definition lock_owed (was : option bool) (now : bool) (host : option bool) (named : bool) : bool :=
  match host with
  | Some host =>
      if named then xorb host now
      else match was with None => now | Some was => xorb was now end && xorb host now
  | None => negb named && bool_decide (was = Some (negb now))
  end.

Definition is_modifier (key : Z) : bool := existsb (fun usage => bool_decide (key_code usage = Some key)) MODIFIERS.

Definition button_code (button : Z) : option Z :=
  match button with
  | 1 => Some BTN_LEFT
  | 2 => Some BTN_MIDDLE
  | 3 => Some BTN_RIGHT
  | 4 => Some BTN_SIDE
  | 5 => Some BTN_EXTRA
  | _ => None
  end.

Definition detents (units : Z) : Z :=
  let whole := Z.quot units WHEEL_DETENT in
  if negb (whole =? 0) then whole else if 0 <? units then 1 else -1.

Definition scale (value extent origin within desktop : Z) : Z :=
  if (extent <=? 0) || (desktop <=? 0) then 0
  else
  let clamped := clamp value 0 extent in
  let pixel := clamp (Z.quot (clamped * within) extent) 0 (Z.max (within - 1) 0) in
  let placed := origin + pixel in
  clamp (Z.quot ((2 * placed + 1) * (ABS_RANGE + 1)) (2 * desktop)) 0 ABS_RANGE.

(** ** Writing events *)

Definition push (kind code value : Z) (s : Injector) : Injector :=
  match get_at (ij_scratch s) (ij_used s) with
  | None => s
  | Some _ => s <| ij_scratch := put_at (ij_scratch s) (ij_used s) (mkEvent kind code value) |> <| ij_used := ij_used s + 1 |>
  end.

(** [Injector::report]: the end of a report. *)
Definition syn_report (s : Injector) : Injector := push EV_SYN SYN_REPORT 0 s.

Definition flush (device : Device) (s : Injector) : Injector * list SinkCall :=
  (s <| ij_used := 0 |>, match get_range (ij_scratch s) 0 (ij_used s) with Some events => [Emit device events] | None => [] end).

Definition of_bool (b : bool) : Z := if b then 1 else 0.

Definition key_events (usage key : Z) (pressed : bool) (s : Injector) : Injector :=
  let s := match scan_code usage with Some scan => push EV_MSC MSC_SCAN scan s | None => s end in
  syn_report (push EV_KEY key (of_bool pressed) s).

Definition tap (usage key : Z) (s : Injector) : Injector := key_events usage key false (key_events usage key true s).

Definition lock_sync (modifiers injected : Z) (host : option Locks) (s : Injector) : Injector :=
  let num := negb (Z.land modifiers MOD_NUM =? 0) in
  let was := ij_num_lock s in
  let s := s <| ij_num_lock := Some num |> in
  let s := if lock_owed was num (lk_num <$> host) (injected =? KEY_NUMLOCK) then tap USAGE_NUM_LOCK KEY_NUMLOCK s else s in
  let caps := negb (Z.land modifiers MOD_CAPS =? 0) in
  let was := ij_caps_lock s in
  let s := s <| ij_caps_lock := Some caps |> in
  if lock_owed was caps (lk_caps <$> host) (injected =? KEY_CAPSLOCK) then tap USAGE_CAPS_LOCK KEY_CAPSLOCK s else s.

(** ** Letting go *)

(** The loop of [release_keys_but] over the keys left. *)
Fixpoint release_loop (kept : Z -> bool) (keys : list Z) (s : Injector) : Injector * list SinkCall :=
  match keys with
  | [] => if 0 <? ij_used s then flush Keyboard (syn_report s) else (s, [])
  | key :: keys =>
      if negb (bool_decide (get_at (ij_keys s) key = Some true)) || kept key then release_loop kept keys s
      else
      let s := push EV_KEY key 0 (s <| ij_keys := put_at (ij_keys s) key false |>) in
      if SCRATCH <=? ij_used s + 1 then
        let '(s, out) := flush Keyboard (syn_report s) in
        let '(s, out') := release_loop kept keys (s <| ij_used := 0 |>) in (s, out ++ out')
      else release_loop kept keys s
  end.

Definition release_keys_but (kept : Z -> bool) (s : Injector) : Injector * list SinkCall :=
  release_loop kept (map Z.of_nat (seq 0 (Z.to_nat KEY_SLOTS))) (s <| ij_used := 0 |>).

Definition release_keys (s : Injector) : Injector * list SinkCall :=
  let '(s, out) := release_keys_but (fun _ => false) s in
  (s <| ij_num_lock := None |> <| ij_caps_lock := None |>, out).

(** One button of the inner loop of [release_buttons]. *)
Definition release_button (device : Device) (s : Injector) (index : Z) : Injector :=
  if negb (bool_decide (get_at (ij_buttons s) index = Some true)) || negb (bool_decide (get_at (ij_pressed_on s) index = Some device)) then s
  else
  let s := s <| ij_buttons := put_at (ij_buttons s) index false |> in
  match button_code (index + 1) with Some code => push EV_KEY code 0 s | None => s end.

(** One turn of its outer loop. *)
Definition release_on (device : Device) (s : Injector) : Injector * list SinkCall :=
  let s := foldl (release_button device) (s <| ij_used := 0 |>) (map Z.of_nat (seq 0 (Z.to_nat BUTTONS))) in
  if 0 <? ij_used s then flush device (syn_report s) else (s, []).

Definition release_buttons (s : Injector) : Injector * list SinkCall :=
  let '(s, out) := release_on PointerAbsolute s in
  let '(s, out') := release_on Pointer s in (s, out ++ out').

(** ** Pads *)

Definition HAT : Z := Z.lor (Z.lor bit_DPAD_UP bit_DPAD_DOWN) (Z.lor bit_DPAD_LEFT bit_DPAD_RIGHT).

(** One keyed bit of [buttons_changed]. *)
Definition push_bit (changed after : Z) (s : Injector) (bit : Z) : Injector :=
  if Z.land changed bit =? 0 then s
  else match key_for_bit bit with
       | Some code => push EV_KEY code (of_bool (negb (Z.land after bit =? 0))) s
       | None => s
       end.

Definition buttons_changed (id before after : Z) (s : Injector) : Injector * list SinkCall :=
  let changed := Z.lxor before after in
  if changed =? 0 then (s, [])
  else
  let s := foldl (push_bit changed after) (s <| ij_used := 0 |>) KEYED_BITS in
  let s := if negb (Z.land changed HAT =? 0)
           then push EV_ABS axis_HAT0Y (hat_y after) (push EV_ABS axis_HAT0X (hat_x after) s) else s in
  if ij_used s =? 0 then (s, []) else flush (Gamepad_ id) (syn_report s).

(** [self.pads.iter().position(..)] by identifier. *)
Definition pad_at (id : Z) (s : Injector) : option (Z * PadSlot) := position (fun p => ps_id p =? id) (ij_pads s).

(** [Injector::pad]: the slot, and the state afterwards. *)
Definition Injector_pad (id : Z) (raw : bool) (s : Injector) : Injector * option Z :=
  match pad_at id s with
  | Some (index, _) => (s, Some index)
  | None =>
      match fst <$> list_find (fun o => o = None) (ij_pads s) with
      | None => (s, None)
      | Some index => (s <| ij_pads := put_at (ij_pads s) (Z.of_nat index) (Some (mkPadSlot id 0 raw)) |>, Some (Z.of_nat index))
      end
  end.

Definition standard_pad (id : Z) (s : Injector) : Injector * option Z :=
  match Injector_pad id false s with
  | (s, None) => (s, None)
  | (s, Some index) =>
      let raw := match get_at (ij_pads s) index with Some (Some p) => ps_raw p | _ => false end in
      (s, if raw then None else Some index)
  end.

Definition unplug (id : Z) (s : Injector) : Injector * list SinkCall :=
  match pad_at id s with
  | None => (s, [])
  | Some (index, _) => (s <| ij_pads := put_at (ij_pads s) index None |>, [SinkUnplug id])
  end.

Definition pad_report (takes_reports : bool) (message : Control) (s : Injector) : Injector * list SinkCall :=
  match parse_report message with
  | None | Some TouchBlock => (s, [])
  | Some inbound =>
      let id := ct_a1 message in
      let '(s, raw) := match pad_at id s with
                       | Some (_, p) => (s, ps_raw p)
                       | None => if takes_reports then let '(s, index) := Injector_pad id true s in (s, is_some index) else (s, false)
                       end in
      (s, if raw : bool then [SinkReport id inbound] else [])
  end.

(** One pad of the loop of [centre_pads]. *)
Definition centre_pad (index : Z) (s : Injector) : Injector * list SinkCall :=
  match get_at (ij_pads s) index with
  | Some (Some p) =>
      if ps_raw p then (s, [])
      else
      let s := s <| ij_pads := update_at index (fun p => p <| ps_buttons := 0 |>) (ij_pads s) |> in
      let '(s, out) := buttons_changed (ps_id p) (ps_buttons p) 0 s in
      let s := foldl (fun s axis => push EV_ABS axis 0 s) (s <| ij_used := 0 |>) [axis_X; axis_Y; axis_RX; axis_RY; axis_Z; axis_RZ] in
      let '(s, out') := flush (Gamepad_ (ps_id p)) (syn_report s) in (s, out ++ out')
  | _ => (s, [])
  end.

(** A loop over the pad slots. *)
Fixpoint each_pad (f : Z -> Injector -> Injector * list SinkCall) (indices : list Z) (s : Injector) : Injector * list SinkCall :=
  match indices with
  | [] => (s, [])
  | index :: indices => let '(s, out) := f index s in let '(s, out') := each_pad f indices s in (s, out ++ out')
  end.
Definition PAD_INDICES : list Z := map Z.of_nat (seq 0 (Z.to_nat MAX_PADS)).

Definition centre_pads (s : Injector) : Injector * list SinkCall := each_pad centre_pad PAD_INDICES s.

(** One pad of the loop of [release_pads]. *)
Definition unplug_raw (index : Z) (s : Injector) : Injector * list SinkCall :=
  match get_at (ij_pads s) index with
  | Some (Some p) => if ps_raw p then unplug (ps_id p) s else (s, [])
  | _ => (s, [])
  end.

Definition release_pads (s : Injector) : Injector * list SinkCall :=
  let '(s, out) := centre_pads s in
  let '(s, out') := each_pad unplug_raw PAD_INDICES s in (s, out ++ out').

(** [Injector::axis]. *)
Definition pad_axis (id which value : Z) (s : Injector) : Injector * list SinkCall :=
  match (match which with
         | 0 => Some (axis_X, pad_stick value false)
         | 1 => Some (axis_Y, pad_stick value false)
         | 2 => Some (axis_RX, pad_stick value false)
         | 3 => Some (axis_RY, pad_stick value false)
         | 4 => Some (axis_Z, trigger_from_axis value)
         | 5 => Some (axis_RZ, trigger_from_axis value)
         | _ => None
         end) with
  | None => (s, [])
  | Some (code, scaled) => flush (Gamepad_ id) (syn_report (push EV_ABS code scaled (s <| ij_used := 0 |>)))
  end.

(** The fields of a whole-pad message's body, past its three bytes of padding. *)
Definition state_fields (body : list Z) : option (list Z) := get_range body 3 (3 + 12).
Definition field16 (fields : list Z) (offset : Z) : Z :=
  from_be [default 0 (get_at fields offset); default 0 (get_at fields (offset + 1))].

(** [Injector::pad_state]. *)
Definition whole_pad (id : Z) (body : list Z) (s : Injector) : Injector * list SinkCall :=
  match state_fields body with
  | None => (s, [])
  | Some fields =>
      let at_ offset := as_signed 16 (field16 fields offset) in
      let buttons := field16 fields 0 in
      let buttons := if negb (ij_owner s) then Z.land buttons (not16 bit_GUIDE) else buttons in
      match standard_pad id s with
      | (s, None) => (s, [])
      | (s, Some index) =>
          let before := match get_at (ij_pads s) index with Some (Some p) => ps_buttons p | _ => 0 end in
          let s := s <| ij_pads := update_at index (fun p => p <| ps_buttons := buttons |>) (ij_pads s) |> in
          let '(s, out) := buttons_changed id before buttons s in
          let s := push EV_ABS axis_X (pad_stick (at_ 2) false) (s <| ij_used := 0 |>) in
          let s := push EV_ABS axis_Y (pad_stick (at_ 4) true) s in
          let s := push EV_ABS axis_RX (pad_stick (at_ 6) false) s in
          let s := push EV_ABS axis_RY (pad_stick (at_ 8) true) s in
          let s := push EV_ABS axis_Z (default 0 (get_at fields 10)) s in
          let s := push EV_ABS axis_RZ (default 0 (get_at fields 11)) s in
          let '(s, out') := flush (Gamepad_ id) (syn_report s) in (s, out ++ out')
      end
  end.

(** A button of one pad: the arm of [on_control]. *)
Definition pad_button (index_ down id : Z) (s : Injector) : Injector * list SinkCall :=
  match bit_for_index index_ with
  | None => (s, [])
  | Some bit =>
      if (bit =? bit_GUIDE) && negb (ij_owner s) then (s, [])
      else
      match standard_pad id s with
      | (s, None) => (s, [])
      | (s, Some index) =>
          match get_at (ij_pads s) index with
          | Some (Some p) =>
              let before := ps_buttons p in
              let after := if down =? 0 then Z.land before (not16 bit) else Z.lor before bit in
              let s := s <| ij_pads := put_at (ij_pads s) index (Some (p <| ps_buttons := after |>)) |> in
              buttons_changed (ps_id p) before after s
          | _ => (s, [])
          end
      end
  end.

(** ** Keyboard and pointer *)

Definition pointer_allowed (s : Injector) : bool := pm_pointer (ij_permissions s) && ij_floor s.

(** [Injector::pointer]. *)
Definition current_pointer (s : Injector) : Device := if ij_absolute s then PointerAbsolute else Pointer.

Definition keyboard (code modifiers : Z) (pressed : bool) (host : option Locks) (s : Injector) : Injector * list SinkCall :=
  match try_from 16 code with
  | None => (s, [])
  | Some peer_code =>
      match key_code peer_code with
      | None => (s, [])
      | Some key =>
          if is_some host && ((key =? KEY_CAPSLOCK) || (key =? KEY_NUMLOCK)) then
            flush Keyboard (lock_sync modifiers key host (s <| ij_used := 0 |>))
          else
          let commanding := negb (Z.land modifiers MOD_GUI =? 0) in
          let '(s, out) := if commanding then release_keys_but is_modifier s else (s, []) in
          let tapped := commanding && pressed && negb (is_modifier key) in
          match get_at (ij_keys s) key with
          | None => (s, out)
          | Some held =>
              if negb pressed && negb held then (s, out)
              else
              let s := s <| ij_keys := put_at (ij_keys s) key (pressed && negb tapped) |> in
              let s := lock_sync modifiers key host (s <| ij_used := 0 |>) in
              let s := key_events peer_code key pressed s in
              let s := if tapped then key_events peer_code key false s else s in
              let '(s, out') := flush Keyboard s in (s, out ++ out')
          end
      end
  end.

(** The device a press of [code] goes down on. *)
Definition press_device (code : Z) (s : Injector) : Device :=
  if (code =? BTN_SIDE) || (code =? BTN_EXTRA) then Pointer else current_pointer s.

Definition button (number : Z) (pressed : bool) (s : Injector) : Injector * list SinkCall :=
  if number <? 1 then (s, [])
  else
  let index := number - 1 in
  match get_at (ij_buttons s) index, button_code number with
  | Some held, Some code =>
      if negb pressed && negb held then (s, [])
      else
      let s := s <| ij_buttons := put_at (ij_buttons s) index pressed |> in
      let '(s, device) :=
        if pressed then
          let device := press_device code s in
          (match get_at (ij_pressed_on s) index with
           | Some _ => s <| ij_pressed_on := put_at (ij_pressed_on s) index device |>
           | None => s
           end, device)
        else (s, default Pointer (get_at (ij_pressed_on s) index)) in
      flush device (syn_report (push EV_KEY code (of_bool pressed) (s <| ij_used := 0 |>)))
  | _, _ => (s, [])
  end.

Definition wheel (x y : Z) (s : Injector) : Injector * list SinkCall :=
  if (x =? 0) && (y =? 0) then (s, [])
  else
  let s := s <| ij_used := 0 |> in
  let s := if negb (y =? 0) then push EV_REL REL_WHEEL_HI_RES y (push EV_REL REL_WHEEL (detents y) s) else s in
  let s := if negb (x =? 0) then push EV_REL REL_HWHEEL_HI_RES x (push EV_REL REL_HWHEEL (detents x) s) else s in
  flush (current_pointer s) (syn_report s).

(** A motion by deltas. *)
Definition move_by (x y : Z) (s : Injector) : Injector * list SinkCall :=
  let s := s <| ij_absolute := false |> <| ij_used := 0 |> in
  flush Pointer (syn_report (push EV_REL REL_Y y (push EV_REL REL_X x s))).

Definition motion (relative : bool) (x y : Z) (s : Injector) : Injector * list SinkCall :=
  if relative then move_by x y (s <| ij_last_abs := None |>)
  else if ij_relative s then
    let previous := ij_last_abs s in
    let s := s <| ij_last_abs := Some (x, y) |> in
    match previous with
    | None => (s, [])
    | Some (px, py) => move_by (sub32 x px) (sub32 y py) s
    end
  else
  let s := s <| ij_last_abs := None |> <| ij_absolute := true |> <| ij_used := 0 |> <| ij_commanded := Some (x, y) |> in
  let e := ij_extents s in
  let p := ex_place e in
  let s := push EV_ABS ABS_X (scale x (ex_width e) (pc_x p) (pc_width p) (pc_desktop_width p)) s in
  let s := push EV_ABS ABS_Y (scale y (ex_height e) (pc_y p) (pc_height p) (pc_desktop_height p)) s in
  flush PointerAbsolute (syn_report s).

(** ** The operations *)

Definition release_all (s : Injector) : Injector * list SinkCall :=
  let '(s, out) := release_keys s in
  let '(s, out') := release_buttons s in
  let '(s, out'') := centre_pads s in (s, out ++ out' ++ out'').

Definition set_permissions (permissions : Permissions) (s : Injector) : Injector * list SinkCall :=
  let was := ij_permissions s in
  let s := s <| ij_permissions := permissions |> in
  let '(s, out) := if pm_keyboard was && negb (pm_keyboard permissions) then release_keys s else (s, []) in
  let '(s, out') := if pm_pointer was && negb (pm_pointer permissions) then release_buttons s else (s, []) in
  let '(s, out'') := if pm_gamepad was && negb (pm_gamepad permissions) then release_pads s else (s, []) in
  (s, out ++ out' ++ out'').

Definition set_owner (owner : bool) (s : Injector) : Injector * list SinkCall := (s <| ij_owner := owner |>, [SinkGuide owner]).

Definition set_floor (held : bool) (s : Injector) : Injector * list SinkCall :=
  let '(s, out) := if ij_floor s && negb held then release_buttons s else (s, []) in
  (s <| ij_floor := held |>, out).

Definition holds_pointer_button (s : Injector) : bool := existsb id (ij_buttons s).

Definition pad_holding (mask : Z) (s : Injector) : option Z :=
  ps_id <$> find (fun p => Z.land (ps_buttons p) mask =? mask) (flatten (ij_pads s)).

Definition set_relative (relative : bool) (s : Injector) : Injector :=
  let s := if negb relative then s <| ij_last_abs := None |> else s in
  s <| ij_relative := relative |>.

Definition set_extents (extents : Extents) (s : Injector) : Injector := s <| ij_extents := extents |>.

(** The presses, then the releases, of [secure_attention]. *)
Definition chord_down (s : Injector) (usage : Z) : Injector :=
  match key_code usage with Some key => key_events usage key true s | None => s end.
Definition chord_up (s : Injector) (usage : Z) : Injector :=
  match key_code usage with
  | None => s
  | Some key =>
      let s := key_events usage key false s in
      match get_at (ij_keys s) key with Some _ => s <| ij_keys := put_at (ij_keys s) key false |> | None => s end
  end.

Definition secure_attention (s : Injector) : Injector * list SinkCall * bool :=
  if negb (pm_keyboard (ij_permissions s)) then (s, [], false)
  else
  let s := foldl chord_down (s <| ij_used := 0 |>) ATTENTION in
  let s := foldl chord_up s (reverse ATTENTION) in
  (flush Keyboard s, true).

Definition on_control (host : option Locks) (takes_reports : bool) (message : Control) (s : Injector) : Injector * list SinkCall :=
  let s := s <| ij_tally := Tally_count (ct_opcode message) (ij_tally s) |> in
  let opcode := ct_opcode message in
  let a0 := ct_a0 message in
  let a1 := ct_a1 message in
  let a2 := ct_a2 message in
  let pads := pm_gamepad (ij_permissions s) in
  if (opcode =? op_KEYBOARD) && pm_keyboard (ij_permissions s) then keyboard a0 a1 (negb (a2 =? 0)) host s
  else if (opcode =? op_MOUSE_BUTTON) && pointer_allowed s then button a0 (negb (a1 =? 0)) s
  else if (opcode =? op_MOUSE_WHEEL) && pointer_allowed s then wheel (as_i32 a0) (as_i32 a1) s
  else if (opcode =? op_MOUSE_MOTION) && pointer_allowed s then motion (negb (a0 =? 0)) (as_i32 a1) (as_i32 a2) s
  else if (opcode =? op_MOUSE_MOTION_STREAM) && pointer_allowed s then
    motion (negb (Z.land a0 1 =? 0)) (low16 a1) (high16_signed a1) s
  else if (opcode =? op_PAD_REPORT) && pads then pad_report takes_reports message s
  else if (opcode =? op_GAMEPAD_BUTTON) && pads then pad_button a0 a1 a2 s
  else if (opcode =? op_GAMEPAD_AXIS) && pads then
    match standard_pad a2 s with
    | (s, None) => (s, [])
    | (s, Some index) =>
        match get_at (ij_pads s) index with
        | Some (Some p) => pad_axis (ps_id p) a0 (high16_signed (wrap 32 (Z.shiftl a1 16))) s
        | _ => (s, [])
        end
    end
  else if opcode =? op_GAMEPAD_UNPLUG then unplug a2 s
  else if (opcode =? op_GAMEPAD_STATE) && pads then whole_pad a0 (ct_body message) s
  else if opcode =? op_RELEASE then release_all s
  else (s, []).
