(* ===== verification/InjectorFacts.v ===== *)
(** What a guest's keys and pointer leave on the devices: the kernel's view of the
    events emitted, and what each keyboard and pointer operation does to it. *)

From S2P Require Import Prelude CoreError Slots Control Pad Gamepad Injector.

(** ** The devices, as their events leave them *)

Definition event_down (code : Z) (b : bool) (e : Event) : bool :=
  if (ev_kind e =? EV_KEY) && (ev_code e =? code) then negb (ev_value e =? 0) else b.
Definition call_down (d : Device) (code : Z) (b : bool) (c : SinkCall) : bool :=
  match c with
  | Emit d' events => if decide (d = d') then foldl (event_down code) b events else b
  | SinkUnplug id => if decide (d = Gamepad_ id) then false else b
  | _ => b
  end.

(** Whether a key or button of a device is down after the calls made. *)
Definition down (d : Device) (code : Z) (tr : list SinkCall) : bool := foldl (call_down d code) false tr.

Definition event_axis (code : Z) (v : Z) (e : Event) : Z :=
  if (ev_kind e =? EV_ABS) && (ev_code e =? code) then ev_value e else v.
Definition call_axis (d : Device) (code : Z) (v : Z) (c : SinkCall) : Z :=
  match c with
  | Emit d' events => if decide (d = d') then foldl (event_axis code) v events else v
  | SinkUnplug id => if decide (d = Gamepad_ id) then 0 else v
  | _ => v
  end.

(** Where an axis of a device is. *)
Definition axis_at (d : Device) (code : Z) (tr : list SinkCall) : Z := foldl (call_axis d code) 0 tr.

(** What the device of a pad sent as its own reports has: the last of them, and nothing
    once it is unplugged. *)
Definition call_report (id : Z) (r : option PadInbound) (c : SinkCall) : option PadInbound :=
  match c with
  | SinkReport id' inbound => if decide (id = id') then Some inbound else r
  | SinkUnplug id' => if decide (id = id') then None else r
  | _ => r
  end.
Definition reported (id : Z) (tr : list SinkCall) : option PadInbound := foldl (call_report id) None tr.

Lemma reported_app id tr out : reported id (tr ++ out) = foldl (call_report id) (reported id tr) out.
Proof. apply foldl_app. Qed.

Lemma down_app d code tr out : down d code (tr ++ out) = foldl (call_down d code) (down d code tr) out.
Proof. apply foldl_app. Qed.

Lemma axis_at_app d code tr out : axis_at d code (tr ++ out) = foldl (call_axis d code) (axis_at d code tr) out.
Proof. apply foldl_app. Qed.

(** The calls go to devices of one kind. *)
Definition call_to (P : Device -> Prop) (c : SinkCall) : Prop :=
  match c with Emit d _ => P d | SinkUnplug id | SinkReport id _ => P (Gamepad_ id) | SinkGuide _ => True end.

Lemma foldl_down_other P d code out b : Forall (call_to P) out -> ~ P d -> foldl (call_down d code) b out = b.
Proof.
  intros H Hd. revert b. induction H as [|c out Hc _ IH]; intros b; [done|]. cbn [foldl].
  replace (call_down d code b c) with b; [apply IH|]. destruct c; cbn in *; try done; by destruct (decide _); [subst|].
Qed.

Lemma foldl_axis_other P d code out v : Forall (call_to P) out -> ~ P d -> foldl (call_axis d code) v out = v.
Proof.
  intros H Hd. revert v. induction H as [|c out Hc _ IH]; intros v; [done|]. cbn [foldl].
  replace (call_axis d code v c) with v; [apply IH|]. destruct c; cbn in *; try done; by destruct (decide _); [subst|].
Qed.

Lemma foldl_report_other P id out r : Forall (call_to P) out -> ~ P (Gamepad_ id) -> foldl (call_report id) r out = r.
Proof.
  intros H Hd. revert r. induction H as [|c out Hc _ IH]; intros r; [done|]. cbn [foldl].
  replace (call_report id r c) with r; [apply IH|]. destruct c; cbn in *; try done; by destruct (decide _); [subst|].
Qed.

(** A call hands over at most a scratch of events, and never half a report. *)
Definition SYN : Event := mkEvent EV_SYN SYN_REPORT 0.
Definition batch_ok (events : list Event) : Prop := zlen events <= SCRATCH /\ (events = [] \/ exists l, events = l ++ [SYN]).
Definition call_ok (c : SinkCall) : Prop := match c with Emit _ events => batch_ok events | _ => True end.

(** Events that only let go. *)
Definition lets_go (e : Event) : Prop := ev_kind e = EV_KEY -> ev_value e = 0.

Lemma lets_go_down code b evs :
  Forall lets_go evs -> foldl (event_down code) b evs = true -> b = true /\ ~ In (mkEvent EV_KEY code 0) evs.
Proof.
  intros H. revert b. induction H as [|e evs He _ IH]; intros b E; [split; [done|intros []]|]. cbn [foldl] in E.
  apply IH in E as [E Hn]. unfold event_down, lets_go in *. destruct (Z.eqb_spec (ev_kind e) EV_KEY) as [Ek|Ek]; cbn [andb] in E.
  - rewrite (He Ek) in E. destruct (Z.eqb_spec (ev_code e) code); [done|]. split; [done|]. intros [->|H]; [done|by apply Hn].
  - split; [done|]. intros [->|H]; [done|by apply Hn].
Qed.

(** ** The scratch *)

Definition core (s : Injector) : Injector := s <| ij_scratch := [] |> <| ij_used := 0 |>.
Definition Ready (s : Injector) : Prop := zlen (ij_scratch s) = SCRATCH.

(** [evs] is what is written so far, and nothing else of [s0] has changed. *)
Record Wrote (s0 s : Injector) (evs : list Event) : Prop := mkWrote {
  wr_ready : Ready s;
  wr_used : ij_used s = zlen evs;
  wr_evs : take (length evs) (ij_scratch s) = evs;
  wr_core : core s = core s0;
}.

Lemma wrote_start s : Ready s -> Wrote s (s <| ij_used := 0 |>) [].
Proof. intros H. by split. Qed.

Lemma wrote_push s0 s evs kind code v :
  Wrote s0 s evs -> zlen evs < SCRATCH -> Wrote s0 (push kind code v s) (evs ++ [mkEvent kind code v]).
Proof.
  intros [Hr Hu He Hc] Hl. unfold Ready in Hr. unfold push. pose proof (zlen_nonneg evs).
  destruct (get_at_Some (ij_scratch s) (ij_used s)) as [old ->]; [lia|]. split.
  - unfold Ready. cbn. by rewrite zlen_put_at.
  - cbn. rewrite zlen_app, Hu. done.
  - cbn. rewrite put_at_range by lia. unfold put_range. rewrite Hu. replace (Z.to_nat (zlen evs)) with (length evs) by (unfold zlen; lia).
    rewrite He, app_assoc, take_app_le by done. rewrite take_ge; done.
  - exact Hc.
Qed.

Lemma wrote_flush s0 s evs d : Wrote s0 s evs -> zlen evs <= SCRATCH ->
  flush d s = (s <| ij_used := 0 |>, [Emit d evs]) /\ Wrote s0 (s <| ij_used := 0 |>) [].
Proof.
  intros [Hr Hu He Hc] Hl. split; [|by split]. unfold flush. unfold Ready in Hr. rewrite get_range_eq by (pose proof (zlen_nonneg evs); lia).
  do 3 f_equal. rewrite Hu, drop_0, Z.sub_0_r. by replace (Z.to_nat (zlen evs)) with (length evs) by (unfold zlen; lia).
Qed.

(** Writing within [n] events more. *)
Definition Writes (f : Injector -> Injector) (evs : list Event) : Prop :=
  forall s0 s pre, Wrote s0 s pre -> zlen pre + zlen evs <= SCRATCH -> Wrote s0 (f s) (pre ++ evs).

Lemma Writes_push kind code v : Writes (push kind code v) [mkEvent kind code v].
Proof. intros s0 s pre H Hl. apply wrote_push; [done|]. change (zlen [mkEvent kind code v]) with 1 in Hl. lia. Qed.

Lemma Writes_comp f g a b : Writes f a -> Writes g b -> Writes (fun s => g (f s)) (a ++ b).
Proof.
  intros Hf Hg s0 s pre H Hl. rewrite zlen_app in Hl. pose proof (zlen_nonneg a). pose proof (zlen_nonneg b).
  rewrite app_assoc. apply Hg; [apply Hf; [done|lia]|]. rewrite zlen_app. lia.
Qed.

Lemma Writes_id : Writes (fun s => s) [].
Proof. intros s0 s pre H _. by rewrite app_nil_r. Qed.

Lemma Writes_if (b : bool) f evs : Writes f evs -> Writes (fun s => if b then f s else s) (if b then evs else []).
Proof. intros H. destruct b; [done|apply Writes_id]. Qed.

Lemma Writes_foldl {A} (f : Injector -> A -> Injector) (g : A -> list Event) l :
  (forall a, Writes (fun s => f s a) (g a)) -> Writes (fun s => foldl f s l) (concat (map g l)).
Proof.
  intros H. induction l as [|a l IH]; [apply Writes_id|]. cbn [foldl map concat].
  apply (Writes_comp (fun s => f s a) (fun s => foldl f s l)); [apply H|apply IH].
Qed.

(** A batch written from nothing and flushed. *)
Lemma flush_batch f evs d s :
  Writes f evs -> zlen evs + 1 <= SCRATCH -> Ready s ->
  exists s', flush d (syn_report (f (s <| ij_used := 0 |>))) = (s', [Emit d (evs ++ [SYN])]) /\ core s' = core s /\ Ready s' /\
    batch_ok (evs ++ [SYN]).
Proof.
  intros Hf Hl Hs. assert (Wrote s (syn_report (f (s <| ij_used := 0 |>))) (evs ++ [SYN])) as Hw.
  { apply (Writes_comp f syn_report evs [SYN] Hf (Writes_push _ _ _) s _ []); [by apply wrote_start|]. rewrite zlen_app. done. }
  destruct (wrote_flush _ _ _ d Hw) as [E [Hr _ _ Hc]]; [rewrite zlen_app; done|].
  eexists. split; [exact E|]. split; [exact Hc|]. split; [exact Hr|]. split; [rewrite zlen_app; done|right; by eexists].
Qed.

(** The fields the invariant is about. *)
Lemma core_fields s s' : core s = core s' ->
  (ij_keys s = ij_keys s' /\ ij_buttons s = ij_buttons s' /\ ij_pressed_on s = ij_pressed_on s') /\
  (ij_pads s = ij_pads s' /\ ij_permissions s = ij_permissions s') /\ (ij_floor s = ij_floor s' /\ ij_absolute s = ij_absolute s' /\ ij_owner s = ij_owner s').
Proof.
  intros H. split_and!; [apply (f_equal ij_keys H)|apply (f_equal ij_buttons H)|apply (f_equal ij_pressed_on H)|apply (f_equal ij_pads H)
    |apply (f_equal ij_permissions H)|apply (f_equal ij_floor H)|apply (f_equal ij_absolute H)|apply (f_equal ij_owner H)].
Qed.

(** ** Keys let go *)

Lemma event_down_syn code b evs : foldl (event_down code) b (evs ++ [SYN]) = foldl (event_down code) b evs.
Proof. by rewrite foldl_app. Qed.

Lemma wrote_self s0 s evs : Wrote s0 s evs -> Wrote s s evs.
Proof. by intros []. Qed.

Lemma wrote_base a b s evs : core a = core b -> Wrote a s evs -> Wrote b s evs.
Proof. intros E []. split; congruence. Qed.

Lemma wrote_keys s evs keys : Wrote s s evs -> Wrote (s <| ij_keys := keys |>) (s <| ij_keys := keys |>) evs.
Proof. by intros []. Qed.

(** What a release of keys does: which are held afterwards, and what is down. *)
Record Released (kept : Z -> bool) (ks : list Z) (pre : list Event) (s s' : Injector) (out : list SinkCall) : Prop := mkReleased {
  rl_core : core s' = core (s <| ij_keys := ij_keys s' |>);
  rl_ready : Ready s';
  rl_len : zlen (ij_keys s') = zlen (ij_keys s);
  rl_to : Forall (call_to (eq Keyboard)) out;
  rl_ok : Forall call_ok out;
  rl_held : forall c, 0 <= c -> get_at (ij_keys s') c = Some true <-> get_at (ij_keys s) c = Some true /\ ~ (In c ks /\ kept c = false);
  rl_down : forall c b, 0 <= c -> foldl (call_down Keyboard c) b out = true ->
    foldl (event_down c) b pre = true /\ ~ (get_at (ij_keys s) c = Some true /\ In c ks /\ kept c = false);
}.

Lemma Released_nil kept pre s :
  Wrote s s pre -> zlen pre + 1 <= SCRATCH ->
  let '(s', out) := if 0 <? ij_used s then flush Keyboard (syn_report s) else (s, []) in Released kept [] pre s s' out.
Proof.
  intros Hw Hl. assert (ij_used s = zlen pre) as Hu by apply Hw. destruct (Z.ltb_spec 0 (ij_used s)).
  - assert (Wrote s (syn_report s) (pre ++ [SYN])) as Hw' by (apply wrote_push; [done|lia]).
    destruct (wrote_flush _ _ _ Keyboard Hw') as [-> Hw'']; [rewrite zlen_app; done|]. pose proof (wr_core _ _ _ Hw'') as Hc.
    pose proof (core_fields _ _ Hc) as ((Hk & _) & _). cbn in Hk. split.
    + rewrite Hc. unfold core, set_field. cbn. by rewrite Hk.
    + apply Hw''.
    + cbn. by rewrite Hk.
    + by repeat constructor.
    + constructor; [|constructor]. split; [rewrite zlen_app; done|right; by eexists].
    + intros c Hc0. cbn. rewrite Hk. cbn. tauto.
    + intros c b Hc0. cbn [foldl call_down]. rewrite decide_True by done. rewrite event_down_syn. cbn. tauto.
  - assert (pre = []) as -> by (apply nil_length_inv; unfold zlen in Hu; pose proof (zlen_nonneg pre); unfold zlen in *; lia).
    split; try done; cbn; try tauto. apply Hw.
Qed.

Lemma get_put_key (keys : list bool) key c v :
  0 <= key < zlen keys -> 0 <= c -> get_at (put_at keys key v) c = if decide (c = key) then Some v else get_at keys c.
Proof. intros Hk Hc. destruct (decide (c = key)) as [->|]; [by rewrite get_put_at_eq|]. rewrite get_put_at_ne by lia. done. Qed.

Lemma release_loop_ok kept ks s pre :
  Wrote s s pre -> zlen pre + 1 < SCRATCH -> Forall (fun k => 0 <= k < zlen (ij_keys s)) ks ->
  exists s' out, release_loop kept ks s = (s', out) /\ Released kept ks pre s s' out.
Proof.
  revert s pre. induction ks as [|key ks IH]; intros s pre Hw Hl Hks; cbn [release_loop].
  { pose proof (Released_nil kept pre s Hw ltac:(lia)) as H. destruct (if 0 <? ij_used s then _ else _) as [s' out]. by eexists _, _. }
  inversion Hks as [|x l Hk Hks']; subst x l. destruct (negb (bool_decide (get_at (ij_keys s) key = Some true)) || kept key) eqn:Eskip.
  - destruct (IH s pre Hw Hl Hks') as (s' & out & -> & []). eexists _, _. split; [done|].
    assert (forall c, get_at (ij_keys s) c = Some true -> kept c = false -> c <> key) as Hne.
    { intros c Hc Hkc ->. rewrite Hc, Hkc, bool_decide_eq_true_2 in Eskip by done. done. }
    split; try done.
    + intros c Hc. rewrite rl_held0 by done. cbn [In]. firstorder congruence.
    + intros c b Hc Hd. apply rl_down0 in Hd as [Hd Hn]; [|done]. split; [done|]. intros (Hc' & [<-|Hin] & Hkc); [by apply (Hne key)|]. by apply Hn.
  - apply orb_false_iff in Eskip as [Ek%negb_false_iff%bool_decide_eq_true Hkept].
    set (s1 := s <| ij_keys := put_at (ij_keys s) key false |>).
    assert (Wrote s1 s1 pre) as Hw1 by (by apply wrote_keys). set (e := mkEvent EV_KEY key 0).
    assert (Wrote s1 (push EV_KEY key 0 s1) (pre ++ [e])) as Hw2 by (apply wrote_push; [done|lia]).
    pose proof (wr_core _ _ _ Hw2) as Hc2. pose proof (core_fields _ _ Hc2) as ((Hk2 & _) & _). set (s2 := push EV_KEY key 0 s1) in *.
    assert (zlen (ij_keys s2) = zlen (ij_keys s)) as Hlen2 by (rewrite Hk2; cbn; by rewrite zlen_put_at).
    assert (zlen (pre ++ [e]) = zlen pre + 1) as Hl2 by (by rewrite zlen_app).
    assert (Forall (fun k => 0 <= k < zlen (ij_keys s2)) ks) as Hks2 by (by rewrite Hlen2).
    (* what the rest of the loop does, from a state with these keys *)
    assert (forall s3 pre3 s' out out0, core s3 = core s2 -> Released kept ks pre3 s3 s' out -> Forall (call_to (eq Keyboard)) out0 -> Forall call_ok out0 ->
      (forall c b, foldl (event_down c) (foldl (call_down Keyboard c) b out0) pre3 = foldl (event_down c) b (pre ++ [e])) ->
      Released kept (key :: ks) pre s s' (out0 ++ out)) as Hrest.
    { intros s3 pre3 s' out out0 Hc3 [] Hto Hok Hd3. pose proof (core_fields _ _ Hc3) as ((Hk3 & _) & _).
      assert (forall c, 0 <= c -> get_at (ij_keys s3) c = if decide (c = key) then Some false else get_at (ij_keys s) c) as Hg
        by (intros c Hc; rewrite Hk3, Hk2; cbn; by apply get_put_key). split.
      - rewrite rl_core0. unfold core, set_field in *. cbn in *. by injection Hc3 as -> -> _ -> -> -> -> -> -> -> -> -> -> -> ->; injection Hc2 as -> -> _ -> -> -> -> -> -> -> -> -> -> -> ->.
      - done.
      - by rewrite rl_len0, Hk3.
      - by apply Forall_app.
      - by apply Forall_app.
      - intros c Hc. rewrite rl_held0, Hg by done. cbn [In]. destruct (decide (c = key)) as [->|Hne]; [rewrite Hkept; firstorder congruence|firstorder congruence].
      - intros c b Hc Hd. rewrite foldl_app in Hd. apply rl_down0 in Hd as [Hd Hn]; [|done]. rewrite Hd3, foldl_app in Hd. cbn [foldl] in Hd.
        unfold event_down at 1 in Hd. cbn [ev_kind ev_code ev_value e] in Hd. change (EV_KEY =? EV_KEY) with true in Hd. cbn [andb] in Hd.
        destruct (Z.eqb_spec key c) as [->|Hne]; [done|]. split; [done|]. intros (Hc' & [->|Hin] & Hkc); [done|]. apply Hn.
        rewrite Hg, decide_False by (done || congruence). done. }
    destruct (Z.leb_spec SCRATCH (ij_used s2 + 1)) as [Hfull|Hroom].
    + rewrite (wr_used _ _ _ Hw2), Hl2 in Hfull.
      assert (Wrote s1 (syn_report s2) ((pre ++ [e]) ++ [SYN])) as Hw3 by (apply wrote_push; [done|lia]).
      assert (zlen ((pre ++ [e]) ++ [SYN]) = zlen pre + 2) as Hl3 by (rewrite zlen_app, Hl2; change (zlen [SYN]) with 1; lia).
      destruct (wrote_flush _ _ _ Keyboard Hw3) as [-> Hw4]; [lia|]. set (s4 := syn_report s2 <| ij_used := 0 |>) in *.
      assert (core s4 = core s2) as Hc4 by (rewrite (wr_core _ _ _ Hw4), Hc2; done).
      destruct (IH (s4 <| ij_used := 0 |>) []) as (s' & out & -> & Hr).
      { apply (wrote_self s4), wrote_start. apply Hw4. }
      { by vm_compute. }
      { pose proof (core_fields _ _ Hc4) as ((Hk4 & _) & _). cbn. cbn in Hk4. by rewrite Hk4. }
      eexists _, _. split; [done|]. apply (Hrest _ [] _ _ _ Hc4 Hr); [by repeat constructor| |].
      * constructor; [|constructor]. split; [unfold SCRATCH in *; lia|right; by eexists].
      * intros c b. cbn [foldl call_down]. rewrite decide_True by done. by rewrite event_down_syn.
    + rewrite (wr_used _ _ _ Hw2), Hl2 in Hroom. destruct (IH s2 (pre ++ [e])) as (s' & out & -> & Hr); [by eapply wrote_self|lia|done|].
      eexists _, _. split; [done|]. apply (Hrest s2 (pre ++ [e]) s' out []); done.
Qed.

(** ** Keystrokes *)

(** A keystroke's events. *)
Definition key_evs (usage key : Z) (pressed : bool) : list Event :=
  match scan_code usage with Some scan => [mkEvent EV_MSC MSC_SCAN scan] | None => [] end ++ [mkEvent EV_KEY key (of_bool pressed)] ++ [SYN].

Lemma key_evs_len usage key pressed : zlen (key_evs usage key pressed) <= 3.
Proof. unfold key_evs. by destruct (scan_code usage). Qed.

Lemma Writes_key usage key pressed : Writes (key_events usage key pressed) (key_evs usage key pressed).
Proof.
  unfold key_evs, key_events. destruct (scan_code usage) as [scan|].
  - apply (Writes_comp (push EV_MSC MSC_SCAN scan) (fun s => syn_report (push EV_KEY key (of_bool pressed) s))); [apply Writes_push|].
    apply (Writes_comp (push EV_KEY key (of_bool pressed)) syn_report); apply Writes_push.
  - rewrite app_nil_l. apply (Writes_comp (push EV_KEY key (of_bool pressed)) syn_report); apply Writes_push.
Qed.

Lemma key_evs_down usage key pressed code b :
  foldl (event_down code) b (key_evs usage key pressed) = if key =? code then pressed else b.
Proof.
  unfold key_evs. destruct (scan_code usage); cbn; unfold event_down; cbn; destruct (key =? code); by destruct pressed.
Qed.

(** Batches that are whole so far. *)
Definition whole_evs (evs : list Event) : Prop := evs = [] \/ exists l, evs = l ++ [SYN].

Lemma whole_app a b : whole_evs a -> whole_evs b -> whole_evs (a ++ b).
Proof.
  intros Ha [->|[l ->]]; [by rewrite app_nil_r|]. right. exists (a ++ l). by rewrite app_assoc.
Qed.

Lemma whole_key usage key pressed : whole_evs (key_evs usage key pressed).
Proof. right. unfold key_evs. rewrite app_assoc. by eexists. Qed.

(** A lock tapped. *)
Definition tap_evs (usage key : Z) : list Event := key_evs usage key true ++ key_evs usage key false.

Lemma Writes_tap usage key : Writes (tap usage key) (tap_evs usage key).
Proof. apply (Writes_comp (key_events usage key true) (key_events usage key false)); apply Writes_key. Qed.

Lemma wrote_locks s evs num caps : Wrote s s evs -> Wrote (s <| ij_num_lock := num |> <| ij_caps_lock := caps |>) (s <| ij_num_lock := num |> <| ij_caps_lock := caps |>) evs.
Proof. by intros []. Qed.

(** The locks brought into step: a few taps, and only the two records of the locks. *)
Lemma lock_sync_ok modifiers injected host s pre :
  Wrote s s pre -> zlen pre + 12 <= SCRATCH ->
  exists num caps evs, Wrote (s <| ij_num_lock := num |> <| ij_caps_lock := caps |>) (lock_sync modifiers injected host s) (pre ++ evs) /\
    zlen evs <= 12 /\ whole_evs evs /\ forall code b, foldl (event_down code) b evs = true -> b = true.
Proof.
  intros Hw Hl. unfold lock_sync. set (num := negb (Z.land modifiers MOD_NUM =? 0)). set (caps := negb (Z.land modifiers MOD_CAPS =? 0)).
  set (n := lock_owed (ij_num_lock s) num (lk_num <$> host) (injected =? KEY_NUMLOCK)).
  set (evs1 := if n then tap_evs USAGE_NUM_LOCK KEY_NUMLOCK else []).
  assert (zlen evs1 <= 6 /\ whole_evs evs1 /\ forall code b, foldl (event_down code) b evs1 = true -> b = true) as (Hl1 & Hw1 & Hd1).
  { unfold evs1. destruct n; [|split; [done|split; [by left|done]]]. split; [done|]. split; [apply whole_app; apply whole_key|].
    intros code b. unfold tap_evs. rewrite foldl_app, !key_evs_down. by destruct (_ =? code). }
  set (s1 := s <| ij_num_lock := Some num |>). assert (Wrote s1 s1 pre) as Ws1 by (by destruct Hw).
  assert (Wrote s1 (if n then tap USAGE_NUM_LOCK KEY_NUMLOCK s1 else s1) (pre ++ evs1)) as Ws2.
  { apply (Writes_if n _ _ (Writes_tap USAGE_NUM_LOCK KEY_NUMLOCK)); [done|]. fold evs1. lia. }
  set (s2 := if n then tap USAGE_NUM_LOCK KEY_NUMLOCK s1 else s1) in *.
  set (c := lock_owed (ij_caps_lock s2) caps (lk_caps <$> host) (injected =? KEY_CAPSLOCK)).
  set (evs2 := if c then tap_evs USAGE_CAPS_LOCK KEY_CAPSLOCK else []).
  assert (zlen evs2 <= 6 /\ whole_evs evs2 /\ forall code b, foldl (event_down code) b evs2 = true -> b = true) as (Hl2 & Hw2 & Hd2).
  { unfold evs2. destruct c; [|split; [done|split; [by left|done]]]. split; [done|]. split; [apply whole_app; apply whole_key|].
    intros code b. unfold tap_evs. rewrite foldl_app, !key_evs_down. by destruct (_ =? code). }
  set (s3 := s2 <| ij_caps_lock := Some caps |>). assert (Wrote (s1 <| ij_caps_lock := Some caps |>) s3 (pre ++ evs1)) as Ws3.
  { destruct Ws2 as [R U E C]. split; [done..|]. change (core s2 <| ij_caps_lock := Some caps |> = core s1 <| ij_caps_lock := Some caps |>). by rewrite C. }
  exists (Some num), (Some caps), (evs1 ++ evs2). split; [|split; [|split]].
  - rewrite app_assoc. apply (Writes_if c _ _ (Writes_tap USAGE_CAPS_LOCK KEY_CAPSLOCK)); [done|]. fold evs2. rewrite zlen_app. lia.
  - rewrite zlen_app. lia.
  - by apply whole_app.
  - intros code b H. rewrite foldl_app in H. by apply Hd2, Hd1 in H.
Qed.

(** ** The keyboard *)

(** Everything the guest has down on its keyboard is tracked. *)
Definition KInv (s : Injector) (tr : list SinkCall) : Prop :=
  zlen (ij_keys s) = KEY_SLOTS /\ forall c, 0 <= c -> down Keyboard c tr = true -> get_at (ij_keys s) c = Some true.

(** What an operation on the keyboard leaves alone. *)
Record KOp (s s' : Injector) (out : list SinkCall) : Prop := mkKOp {
  ko_buttons : ij_buttons s' = ij_buttons s;
  ko_pressed : ij_pressed_on s' = ij_pressed_on s;
  ko_pads : ij_pads s' = ij_pads s;
  ko_permissions : ij_permissions s' = ij_permissions s;
  ko_floor : ij_floor s' = ij_floor s;
  ko_owner : ij_owner s' = ij_owner s;
  ko_to : Forall (call_to (eq Keyboard)) out;
  ko_ok : Forall call_ok out;
  ko_ready : Ready s';
}.

Lemma KOp_trans s1 s2 s3 o1 o2 : KOp s1 s2 o1 -> KOp s2 s3 o2 -> KOp s1 s3 (o1 ++ o2).
Proof. intros [] []. split; try congruence; by apply Forall_app. Qed.

Lemma KOp_same s : Ready s -> KOp s s [].
Proof. by split. Qed.

Lemma KOp_core s s' out k n c :
  core s' = core (s <| ij_keys := k |> <| ij_num_lock := n |> <| ij_caps_lock := c |>) -> Ready s' ->
  Forall (call_to (eq Keyboard)) out -> Forall call_ok out -> KOp s s' out.
Proof. intros H Hr Ht Ho. pose proof (core_fields _ _ H) as ((_ & ? & ?) & (? & ?) & (? & _ & ?)). by split. Qed.

Lemma release_keys_but_ok kept s tr :
  Ready s -> KInv s tr ->
  exists s' out, release_keys_but kept s = (s', out) /\ KOp s s' out /\ KInv s' (tr ++ out) /\
    (forall c, 0 <= c -> get_at (ij_keys s') c = Some true -> get_at (ij_keys s) c = Some true /\ kept c = true).
Proof.
  intros Hr [Hl Hk]. unfold release_keys_but. set (ks := map Z.of_nat (seq 0 (Z.to_nat KEY_SLOTS))).
  assert (forall c, In c ks <-> 0 <= c < KEY_SLOTS) as Hin.
  { intros c. unfold ks. rewrite in_map_iff. split; [intros (n & <- & Hn%in_seq); unfold KEY_SLOTS in *; lia|].
    intros Hc. exists (Z.to_nat c). split; [lia|]. apply in_seq. unfold KEY_SLOTS in *. lia. }
  destruct (release_loop_ok kept ks (s <| ij_used := 0 |>) []) as (s' & out & -> & []).
  { by apply (wrote_self s), wrote_start. }
  { by vm_compute. }
  { apply Forall_forall. intros c Hc. rewrite Hin in Hc. cbn. by rewrite Hl. }
  cbn in rl_len0, rl_held0, rl_down0.
  assert (forall c, 0 <= c -> get_at (ij_keys s) c = Some true -> 0 <= c < KEY_SLOTS) as Hb
    by (intros c Hc E; apply get_at_lt in E; lia).
  eexists _, _. split; [done|]. split; [|split; [split|]].
  - apply (KOp_core s s' out (ij_keys s') (ij_num_lock s) (ij_caps_lock s)); [|done..]. by destruct s.
  - by rewrite rl_len0.
  - intros c Hc Hd. rewrite down_app in Hd. apply rl_down0 in Hd as [Hd Hn]; [|done]. cbn in Hd. apply rl_held0; [done|].
    specialize (Hk c Hc Hd). split; [done|]. intros [H1 H2]. by apply Hn.
  - intros c Hc H. apply rl_held0 in H as [H1 H2]; [|done]. split; [done|]. apply not_false_is_true. intros Hkc. apply H2.
    split; [|done]. apply Hin. by apply Hb.
Qed.

Lemma release_keys_ok s tr :
  Ready s -> KInv s tr ->
  exists s' out, release_keys s = (s', out) /\ KOp s s' out /\ KInv s' (tr ++ out) /\ (forall c, 0 <= c -> get_at (ij_keys s') c <> Some true).
Proof.
  intros Hr I. unfold release_keys. destruct (release_keys_but_ok (fun _ => false) s tr Hr I) as (s' & out & -> & Ho & Hi & Hn).
  eexists _, _. split; [done|]. split; [|split].
  - by destruct Ho.
  - exact Hi.
  - intros c Hc E. by apply Hn in E as [_ E].
Qed.

(** A batch of keyboard events flushed. *)
Lemma keyboard_flush s1 s evs :
  Wrote s1 s evs -> zlen evs <= SCRATCH -> whole_evs evs ->
  exists s', flush Keyboard s = (s', [Emit Keyboard evs]) /\ core s' = core s1 /\ Ready s' /\ Forall (call_to (eq Keyboard)) [Emit Keyboard evs] /\
    Forall call_ok [Emit Keyboard evs].
Proof.
  intros Hw Hl Hwh. destruct (wrote_flush _ _ _ Keyboard Hw Hl) as [-> [Hr _ _ Hc]]. eexists. split; [done|]. split; [exact Hc|]. split; [done|].
  split; (apply Forall_cons_2; [|apply Forall_nil_2]); [done|by split].
Qed.

Lemma down_emit code tr evs : down Keyboard code (tr ++ [Emit Keyboard evs]) = foldl (event_down code) (down Keyboard code tr) evs.
Proof. rewrite down_app. cbn [foldl call_down]. by rewrite decide_True. Qed.

(** One batch of keyboard events, and what it leaves. *)
Lemma keyboard_batch s1 s evs tr num caps keys :
  Wrote (s1 <| ij_keys := keys |> <| ij_num_lock := num |> <| ij_caps_lock := caps |>) s evs -> zlen evs <= SCRATCH -> whole_evs evs ->
  zlen keys = KEY_SLOTS ->
  (forall c, 0 <= c -> foldl (event_down c) (down Keyboard c tr) evs = true -> get_at keys c = Some true) ->
  exists s', flush Keyboard s = (s', [Emit Keyboard evs]) /\ KOp s1 s' [Emit Keyboard evs] /\ KInv s' (tr ++ [Emit Keyboard evs]).
Proof.
  intros Hw Hl Hwh Hk Hd. destruct (keyboard_flush _ _ _ Hw Hl Hwh) as (s' & E & Hc & Hr & Ht & Ho).
  exists s'. split; [done|]. split; [by apply (KOp_core s1 s' _ keys num caps)|].
  pose proof (core_fields _ _ Hc) as ((Hk' & _) & _). cbn in Hk'. split; [by rewrite Hk'|].
  intros c Hc0 H. rewrite down_emit in H. rewrite Hk'. by apply Hd.
Qed.

Lemma keyboard_ok code modifiers pressed host s tr :
  Ready s -> KInv s tr ->
  exists s' out, keyboard code modifiers pressed host s = (s', out) /\ KOp s s' out /\ KInv s' (tr ++ out).
Proof.
  intros Hr Hi. unfold keyboard.
  assert (exists s' out, (s, []) = (s', out) /\ KOp s s' out /\ KInv s' (tr ++ out)) as Hnone
    by (exists s, []; split; [done|]; rewrite app_nil_r; split; [by apply KOp_same|done]).
  destruct (try_from 16 code) as [peer|] eqn:Epeer; [|exact Hnone]. destruct (key_code peer) as [key|] eqn:Ekey; [|exact Hnone].
  assert (0 <= peer) as Hpeer.
  { unfold try_from in Epeer. destruct (Z.leb_spec 0 code); [|done]. cbn [andb] in Epeer. destruct (code <? 2 ^ 16); by simplify_eq. }
  pose proof (key_code_bound _ _ Hpeer Ekey) as Hkey.
  destruct (is_some host && _).
  { destruct (lock_sync_ok modifiers key host (s <| ij_used := 0 |>) []) as (num & caps & evs & Hw & Hl & Hwh & Hd); [by apply (wrote_self s), wrote_start|by vm_compute|].
    destruct (keyboard_batch s (lock_sync modifiers key host (s <| ij_used := 0 |>)) evs tr num caps (ij_keys s)) as (s' & -> & Ho & Hi');
      [|unfold SCRATCH; lia|done|apply Hi| |].
    { eapply wrote_base; [|exact Hw]. by destruct s. }
    { intros c Hc H. apply Hd in H. by apply Hi. }
    by eexists _, _. }
  set (commanding := negb (Z.land modifiers MOD_GUI =? 0)).
  assert (exists s1 out1, (if commanding then release_keys_but is_modifier s else (s, [])) = (s1, out1) /\ KOp s s1 out1 /\ KInv s1 (tr ++ out1)) as (s1 & out1 & -> & Ho1 & Hi1).
  { destruct commanding.
    - destruct (release_keys_but_ok is_modifier s tr Hr Hi) as (s1 & out1 & E & Ho & Hi1 & _). by exists s1, out1.
    - exists s, []. rewrite app_nil_r. split; [done|]. split; [by apply KOp_same|done]. }
  set (tapped := commanding && pressed && negb (is_modifier key)).
  destruct (get_at (ij_keys s1) key) as [held|] eqn:Eheld; [|by eexists _, _].
  destruct (negb pressed && negb held); [by eexists _, _|].
  set (keys := put_at (ij_keys s1) key (pressed && negb tapped)).
  destruct (lock_sync_ok modifiers key host (s1 <| ij_keys := keys |> <| ij_used := 0 |>) []) as (num & caps & evs & Hw & Hl & Hwh & Hd);
    [apply (wrote_self (s1 <| ij_keys := keys |>)), wrote_start; exact (ko_ready _ _ _ Ho1)|by vm_compute|].
  set (s2 := lock_sync _ _ _ _) in *. rewrite app_nil_l in Hw.
  pose proof (key_evs_len peer key pressed) as Hl1. pose proof (key_evs_len peer key false) as Hl2.
  pose proof (Writes_key peer key pressed _ _ _ Hw ltac:(unfold SCRATCH; lia)) as Hw1.
  pose proof (Writes_if tapped _ _ (Writes_key peer key false) _ _ _ Hw1) as Hw2.
  set (tail_ := if tapped then key_evs peer key false else []) in *.
  assert (zlen tail_ <= 3) as Hl3 by (unfold tail_; by destruct tapped).
  destruct (keyboard_batch s1 (if tapped then key_events peer key false (key_events peer key pressed s2) else key_events peer key pressed s2)
    ((evs ++ key_evs peer key pressed) ++ tail_) (tr ++ out1) num caps keys) as (s' & E & Ho & Hi').
  - eapply wrote_base; [|apply Hw2; rewrite zlen_app; unfold SCRATCH; lia]. by destruct s1.
  - rewrite !zlen_app. unfold SCRATCH. lia.
  - apply whole_app; [apply whole_app; [done|apply whole_key]|]. unfold tail_. destruct tapped; [apply whole_key|by left].
  - unfold keys. rewrite zlen_put_at. apply Hi1.
  - intros c Hc H. rewrite !foldl_app, key_evs_down in H. unfold keys. rewrite get_put_key by (rewrite ?(proj1 Hi1); unfold KEY_SLOTS; lia).
    unfold tail_ in H. destruct (Z.eqb_spec key c) as [->|Hne].
    + rewrite decide_True by done. destruct tapped; [rewrite key_evs_down, Z.eqb_refl in H; done|]. cbn in H. by rewrite H.
    + rewrite decide_False by congruence. apply Hi1; [done|]. eapply Hd. destruct tapped; [|exact H].
      rewrite key_evs_down in H. by destruct (Z.eqb_spec key c).
  - rewrite E. eexists _, _. split; [done|]. split; [by eapply KOp_trans|by rewrite app_assoc].
Qed.

(** The secure attention chord. *)
Lemma chord_up_ok usage key s0 s pre :
  key_code usage = Some key -> 0 <= usage -> zlen (ij_keys s0) = KEY_SLOTS ->
  Wrote s0 s pre -> zlen pre + 3 <= SCRATCH ->
  Wrote (s0 <| ij_keys := put_at (ij_keys s0) key false |>) (chord_up s usage) (pre ++ key_evs usage key false).
Proof.
  intros Ek Hu Hl Hw Hp. unfold chord_up. rewrite Ek. pose proof (key_code_bound _ _ Hu Ek) as Hb. pose proof (key_evs_len usage key false).
  pose proof (Writes_key usage key false _ _ _ Hw ltac:(lia)) as Hw'. set (s' := key_events _ _ _ s) in *.
  pose proof (core_fields _ _ (wr_core _ _ _ Hw')) as ((Hk & _) & _).
  destruct (get_at_Some (ij_keys s') key) as [held ->]; [rewrite Hk, Hl; unfold KEY_SLOTS; lia|]. rewrite Hk.
  destruct Hw' as [R U E C]. split; [done..|].
  change (core s' <| ij_keys := put_at (ij_keys s0) key false |> = core s0 <| ij_keys := put_at (ij_keys s0) key false |>). by rewrite C.
Qed.

Lemma chord_down_ok usage key : key_code usage = Some key -> Writes (fun s => chord_down s usage) (key_evs usage key true).
Proof. intros Ek s0 s pre. unfold chord_down. rewrite Ek. apply Writes_key. Qed.

Lemma secure_attention_ok s tr :
  Ready s -> KInv s tr ->
  exists s' out typed, secure_attention s = (s', out, typed) /\ KOp s s' out /\ KInv s' (tr ++ out).
Proof.
  intros Hr Hi. unfold secure_attention. destruct (negb _).
  { exists s, [], false. rewrite app_nil_r. split; [done|]. split; [by apply KOp_same|done]. }
  assert (key_code 224 = Some 29) as E1 by reflexivity. assert (key_code 226 = Some 56) as E2 by reflexivity. assert (key_code 76 = Some 111) as E3 by reflexivity.
  set (evs := key_evs 224 29 true ++ key_evs 226 56 true ++ key_evs 76 111 true).
  assert (Writes (fun s => foldl chord_down s ATTENTION) evs) as Hdown.
  { cbn [foldl ATTENTION]. apply (Writes_comp (fun s => chord_down s 224) (fun s => chord_down (chord_down s 226) 76)); [by apply chord_down_ok|].
    apply (Writes_comp (fun s => chord_down s 226) (fun s => chord_down s 76)); by apply chord_down_ok. }
  pose proof (Hdown s _ [] (wrote_start s Hr) ltac:(by vm_compute)) as Hw. rewrite app_nil_l in Hw. set (s1 := foldl chord_down _ _) in *.
  change (reverse ATTENTION) with [76; 226; 224]. cbn [foldl].
  apply (chord_up_ok 76 111) in Hw; [|done|done|apply Hi|by vm_compute].
  apply (chord_up_ok 226 56) in Hw; [|done|done|cbn; rewrite zlen_put_at; apply Hi|by vm_compute].
  apply (chord_up_ok 224 29) in Hw; [|done|done|cbn; rewrite !zlen_put_at; apply Hi|by vm_compute]. cbn [ij_keys] in Hw.
  set (all := ((evs ++ _) ++ _) ++ _) in Hw.
  destruct (keyboard_batch s (chord_up (chord_up (chord_up s1 76) 226) 224) all tr (ij_num_lock s) (ij_caps_lock s)
    (put_at (put_at (put_at (ij_keys s) 111 false) 56 false) 29 false)) as (s' & -> & Ho & Hi').
  - eapply wrote_base; [|exact Hw]. by destruct s.
  - by vm_compute.
  - right. unfold all, key_evs. rewrite !app_assoc. by eexists.
  - rewrite !zlen_put_at. apply Hi.
  - intros c Hc H. unfold all, evs in H. rewrite !foldl_app, !key_evs_down in H.
    destruct (Z.eqb_spec 29 c); [done|]. destruct (Z.eqb_spec 56 c); [done|]. destruct (Z.eqb_spec 111 c); [done|].
    rewrite !get_put_at_ne by lia. by apply Hi.
  - by exists s', [Emit Keyboard all], true.
Qed.

(** ** The pointer *)

Definition pointing (d : Device) : Prop := d = Pointer \/ d = PointerAbsolute.

(** Everything down on a pointer is a tracked button, released on the device that
    pressed it. *)
Definition HeldOn (s : Injector) (d : Device) (c : Z) : Prop :=
  exists i, 0 <= i /\ button_code (i + 1) = Some c /\ get_at (ij_buttons s) i = Some true /\ get_at (ij_pressed_on s) i = Some d.
Record BInv (s : Injector) (tr : list SinkCall) : Prop := mkBInv {
  bi_buttons : zlen (ij_buttons s) = BUTTONS;
  bi_pressed : zlen (ij_pressed_on s) = BUTTONS;
  bi_pointing : Forall pointing (ij_pressed_on s);
  bi_down : forall d c, pointing d -> down d c tr = true -> HeldOn s d c;
}.

(** What an operation on a pointer leaves alone. *)
Record BOp (s s' : Injector) (out : list SinkCall) : Prop := mkBOp {
  bo_keys : ij_keys s' = ij_keys s;
  bo_pads : ij_pads s' = ij_pads s;
  bo_permissions : ij_permissions s' = ij_permissions s;
  bo_floor : ij_floor s' = ij_floor s;
  bo_owner : ij_owner s' = ij_owner s;
  bo_to : Forall (call_to pointing) out;
  bo_ok : Forall call_ok out;
  bo_ready : Ready s';
}.

Lemma BOp_trans s1 s2 s3 o1 o2 : BOp s1 s2 o1 -> BOp s2 s3 o2 -> BOp s1 s3 (o1 ++ o2).
Proof. intros [] []. split; try congruence; by apply Forall_app. Qed.

Lemma BOp_same s : Ready s -> BOp s s [].
Proof. by split. Qed.

Lemma button_code_inj i j c : button_code i = Some c -> button_code j = Some c -> i = j.
Proof.
  unfold button_code. intros Hi Hj.
  repeat match goal with H : match ?x with _ => _ end = Some _ |- _ => destruct x; try discriminate end; by simplify_eq.
Qed.

Lemma button_code_range i c : button_code i = Some c -> 1 <= i <= 5.
Proof. unfold button_code. intros H. repeat case_match; simplify_eq; lia. Qed.

(** A batch for a pointer flushed. *)
Lemma pointer_batch s1 s evs d :
  Wrote s1 s evs -> zlen evs + 1 <= SCRATCH -> pointing d ->
  exists s', flush d (syn_report s) = (s', [Emit d (evs ++ [SYN])]) /\ core s' = core s1 /\ Ready s' /\
    Forall (call_to pointing) [Emit d (evs ++ [SYN])] /\ Forall call_ok [Emit d (evs ++ [SYN])].
Proof.
  intros Hw Hl Hd. assert (Wrote s1 (syn_report s) (evs ++ [SYN])) as Hw' by (apply wrote_push; [done|lia]).
  assert (zlen (evs ++ [SYN]) <= SCRATCH) as Hl' by (by rewrite zlen_app).
  destruct (wrote_flush _ _ _ d Hw' Hl') as [-> [Hr _ _ Hc]]. eexists. split; [done|]. split; [exact Hc|]. split; [done|].
  split; (apply Forall_cons_2; [|apply Forall_nil_2]); [done|]. split; [done|]. right. by eexists.
Qed.

Lemma down_emit_syn d code tr d' evs :
  down d code (tr ++ [Emit d' (evs ++ [SYN])]) = if decide (d = d') then foldl (event_down code) (down d code tr) evs else down d code tr.
Proof. rewrite down_app. cbn [foldl call_down]. destruct (decide (d = d')); [apply event_down_syn|done]. Qed.

(** The buttons of one device let go. *)
Record Freed (device : Device) (idx : list Z) (s s' : Injector) (evs : list Event) : Prop := mkFreed {
  fr_core : core s' = core (s <| ij_buttons := ij_buttons s' |>);
  fr_len : zlen (ij_buttons s') = zlen (ij_buttons s);
  fr_held : forall i, 0 <= i -> get_at (ij_buttons s') i = Some true <->
    get_at (ij_buttons s) i = Some true /\ ~ (In i idx /\ get_at (ij_pressed_on s) i = Some device);
  fr_lets : Forall (fun e => ev_kind e = EV_KEY /\ ev_value e = 0) evs;
  fr_evs : forall i c, In i idx -> get_at (ij_buttons s) i = Some true -> get_at (ij_pressed_on s) i = Some device ->
    button_code (i + 1) = Some c -> In (mkEvent EV_KEY c 0) evs;
  fr_only : Forall (fun e => exists i, get_at (ij_pressed_on s) i = Some device /\ button_code (i + 1) = Some (ev_code e)) evs;
}.

Lemma release_button_ok device idx s pre :
  Wrote s s pre -> zlen pre + zlen idx <= SCRATCH -> Forall (fun i => 0 <= i < zlen (ij_buttons s)) idx ->
  exists evs, Wrote (foldl (release_button device) s idx) (foldl (release_button device) s idx) (pre ++ evs) /\ zlen evs <= zlen idx /\
    Freed device idx s (foldl (release_button device) s idx) evs.
Proof.
  revert s pre. induction idx as [|i idx IH]; intros s pre Hw Hl Hi.
  { exists []. rewrite app_nil_r. split; [done|]. split; [done|]. split; [by destruct s|done| |constructor|done|constructor]. cbn. tauto. }
  inversion Hi as [|x l Hi0 Hi']; subst x l. rewrite zlen_cons in *. cbn [foldl].
  remember (release_button device s i) as sr eqn:Esr. unfold release_button in Esr.
  destruct (negb (bool_decide (get_at (ij_buttons s) i = Some true)) || negb (bool_decide (get_at (ij_pressed_on s) i = Some device))) eqn:Eskip; subst sr.
  - destruct (IH s pre Hw ltac:(lia) Hi') as (evs & Hw' & Hl' & []).
    assert (~ (get_at (ij_buttons s) i = Some true /\ get_at (ij_pressed_on s) i = Some device)) as Hno
      by (intros [H1 H2]; by rewrite !bool_decide_eq_true_2 in Eskip).
    exists evs. split; [done|]. split; [lia|]. split; try done.
    + intros j Hj. rewrite fr_held0 by done. cbn [In]. split; intros [H1 H2]; (split; [done|]); [intros [[<-|H] ?]; [by apply Hno|by apply H2]|tauto].
    + intros j c [<-|Hj] H1 H2; [by destruct Hno|by eapply fr_evs0].
  - apply orb_false_iff in Eskip as [Eb%negb_false_iff%bool_decide_eq_true Ep%negb_false_iff%bool_decide_eq_true].
    set (s1 := s <| ij_buttons := put_at (ij_buttons s) i false |>). assert (Wrote s1 s1 pre) as Hw1 by (by destruct Hw).
    set (e1 := match button_code (i + 1) with Some code => [mkEvent EV_KEY code 0] | None => [] end).
    set (s2 := match button_code (i + 1) with Some code => push EV_KEY code 0 s1 | None => s1 end).
    assert (zlen e1 <= 1) as Hl1 by (unfold e1; by destruct (button_code (i + 1))).
    assert (Wrote s1 s2 (pre ++ e1)) as Hw2.
    { unfold s2, e1. destruct (button_code (i + 1)); [apply wrote_push; [done|pose proof (zlen_nonneg idx); lia]|by rewrite app_nil_r]. }
    pose proof (wr_core _ _ _ Hw2) as Hc2. pose proof (core_fields _ _ Hc2) as ((_ & Hb2 & Hp2) & _). cbn in Hb2, Hp2.
    destruct (IH s2 (pre ++ e1)) as (evs & Hw' & Hl' & []); [by eapply wrote_self|rewrite zlen_app; lia| |].
    { rewrite Hb2. by rewrite zlen_put_at. }
    assert (forall j, 0 <= j -> get_at (ij_buttons s2) j = if decide (j = i) then Some false else get_at (ij_buttons s) j) as Hg
      by (intros j Hj; rewrite Hb2; by apply get_put_key).
    exists (e1 ++ evs). rewrite app_assoc. split; [done|]. split; [rewrite zlen_app; lia|]. split.
    + rewrite fr_core0. transitivity (core s2 <| ij_buttons := ij_buttons (foldl (release_button device) s2 idx) |>); [done|]. by rewrite Hc2.
    + by rewrite fr_len0, Hb2, zlen_put_at.
    + intros j Hj. rewrite fr_held0, Hg, Hp2 by done. cbn [In]. destruct (decide (j = i)) as [->|Hne]; [rewrite Ep|]; firstorder congruence.
    + apply Forall_app. split; [|done]. unfold e1. destruct (button_code (i + 1)); repeat constructor.
    + intros j c Hj H1 H2 Hc. apply in_app_iff. destruct (decide (j = i)) as [->|Hne].
      * left. unfold e1. rewrite Hc. by left.
      * right. destruct Hj as [<-|Hj]; [done|]. apply (fr_evs0 j c Hj); [|by rewrite Hp2|done]. rewrite Hg, decide_False; [done..|].
        eapply proj1, (proj1 (Forall_forall _ _) Hi'), Hj.
    + apply Forall_app. split; [|by rewrite <- Hp2]. unfold e1. destruct (button_code (i + 1)) eqn:Ec; [|constructor]. constructor; [|constructor]. by exists i.
Qed.

Lemma lets_go_all evs : Forall (fun e => ev_kind e = EV_KEY /\ ev_value e = 0) evs -> Forall lets_go evs.
Proof. intros H. eapply Forall_impl; [|exact H]. intros e [_ Hv] _. exact Hv. Qed.

Lemma pointing_dec_down d c tr evs d' :
  pointing d -> pointing d' -> Forall lets_go evs -> down d c (tr ++ [Emit d' (evs ++ [SYN])]) = true ->
  down d c tr = true /\ (d = d' -> ~ In (mkEvent EV_KEY c 0) evs).
Proof.
  intros Hd Hd' Hl H. rewrite down_emit_syn in H. destruct (decide (d = d')) as [->|Hne]; [|by split].
  apply lets_go_down in H as [? ?]; [|done]. by split.
Qed.

Lemma release_on_ok device s tr :
  pointing device -> Ready s -> BInv s tr ->
  exists s' out, release_on device s = (s', out) /\ BOp s s' out /\ BInv s' (tr ++ out) /\ ij_pressed_on s' = ij_pressed_on s /\
    forall i, 0 <= i -> get_at (ij_buttons s') i = Some true ->
      get_at (ij_buttons s) i = Some true /\ get_at (ij_pressed_on s) i <> Some device.
Proof.
  intros Hdev Hr [Hb Hp Hpt Hd]. unfold release_on. set (idx := map Z.of_nat (seq 0 (Z.to_nat BUTTONS))).
  assert (forall i, In i idx <-> 0 <= i < BUTTONS) as Hin by (intros i; change idx with [0;1;2;3;4]; cbn [In]; unfold BUTTONS; lia).
  destruct (release_button_ok device idx (s <| ij_used := 0 |>) []) as (evs & Hw & Hl & []).
  { by apply (wrote_self s), wrote_start. }
  { by vm_compute. }
  { apply Forall_forall. intros i Hi. rewrite Hin in Hi. cbn. by rewrite Hb. }
  set (s1 := foldl (release_button device) (s <| ij_used := 0 |>) idx) in *. rewrite app_nil_l in Hw. cbn in fr_len0, fr_held0, fr_evs0.
  assert (forall i, 0 <= i -> get_at (ij_buttons s1) i = Some true -> get_at (ij_buttons s) i = Some true /\ get_at (ij_pressed_on s) i <> Some device) as Hheld.
  { intros i Hi E. pose proof (get_at_lt _ _ _ Hi E) as Hlt. apply fr_held0 in E as [E Hn]; [|done]. split; [done|]. intros Ed. apply Hn. split; [|done].
    apply Hin. lia. }
  pose proof (core_fields _ _ fr_core0) as ((Hk1 & _ & Hp1) & (Hpad1 & Hpm1) & (Hfl1 & _ & How1)). cbn in *.
  assert (forall s' out, core s' = core s1 -> Ready s' -> Forall (call_to pointing) out -> Forall call_ok out ->
    (forall d c, pointing d -> down d c (tr ++ out) = true -> down d c tr = true /\ (d = device -> ~ In (mkEvent EV_KEY c 0) evs)) ->
    BOp s s' out /\ BInv s' (tr ++ out) /\ ij_pressed_on s' = ij_pressed_on s /\
    forall i, 0 <= i -> get_at (ij_buttons s') i = Some true -> get_at (ij_buttons s) i = Some true /\ get_at (ij_pressed_on s) i <> Some device) as Hfin.
  { intros s' out Hc Hr' Ht Ho Hdown. pose proof (core_fields _ _ Hc) as ((Hk2 & Hb2 & Hp2) & (Hpad2 & Hpm2) & (Hfl2 & _ & How2)).
    assert (ij_pressed_on s' = ij_pressed_on s) as Ep by congruence.
    split; [by split; try congruence|]. split; [|split; [done|by rewrite Hb2]]. split; [congruence|congruence|by rewrite Ep|].
    intros d c Hpd H. apply Hdown in H as [H Hn]; [|done]. destruct (Hd d c Hpd H) as (i & Hi & Ec & Ebi & Epi).
    exists i. split; [done|]. split; [done|]. rewrite Ep. split; [|done]. rewrite Hb2. apply fr_held0; [done|]. split; [done|].
    intros [Hii Edev]. apply Hn; [congruence|]. by eapply fr_evs0. }
  assert (ij_used s1 = zlen evs) as Hu by apply Hw. destruct (Z.ltb_spec 0 (ij_used s1)) as [Hpos|Hz].
  - destruct (pointer_batch s1 s1 evs device Hw) as (s' & -> & Hc & Hr' & Ht & Ho); [change (zlen idx) with 5 in Hl; unfold SCRATCH; lia|done|].
    eexists _, _. split; [done|]. apply (Hfin s' _ Hc Hr' Ht Ho). intros d c Hpd H. apply (pointing_dec_down d c tr evs device); auto using lets_go_all.
  - assert (evs = []) as -> by (destruct evs; [done|rewrite zlen_cons in Hu; pose proof (zlen_nonneg evs); lia]).
    eexists _, _. split; [done|]. apply Hfin; [done|apply Hw|done..|]. intros d c _ H. rewrite app_nil_r in H. by split; [|intros _ []].
Qed.

(** A call that lets go of keys or buttons of a pointer, and says nothing else to it. *)
Definition only_releases (c : SinkCall) : Prop :=
  match c with Emit d events => pointing d -> Forall (fun e => e = SYN \/ ev_kind e = EV_KEY /\ ev_value e = 0) events | _ => True end.

Lemma release_on_calls device s tr : pointing device -> Ready s -> BInv s tr -> Forall only_releases (snd (release_on device s)).
Proof.
  intros Hdev Hr [Hb _ _ _]. unfold release_on. set (idx := map Z.of_nat (seq 0 (Z.to_nat BUTTONS))).
  destruct (release_button_ok device idx (s <| ij_used := 0 |>) []) as (evs & Hw & Hl & []).
  { by apply (wrote_self s), wrote_start. }
  { by vm_compute. }
  { apply Forall_forall. intros i Hi. change idx with [0; 1; 2; 3; 4] in Hi. cbn. rewrite Hb. cbn [In] in Hi. unfold BUTTONS. lia. }
  set (s1 := foldl (release_button device) (s <| ij_used := 0 |>) idx) in *. rewrite app_nil_l in Hw. destruct (0 <? ij_used s1); [|constructor].
  destruct (pointer_batch s1 s1 evs device Hw) as (s' & -> & _); [change (zlen idx) with 5 in Hl; unfold SCRATCH; lia|done|].
  cbn [snd]. constructor; [|constructor]. intros _. apply Forall_app. split; [eapply Forall_impl; [|exact fr_lets0]; by right|constructor; [by left|constructor]].
Qed.

Lemma release_buttons_ok s tr :
  Ready s -> BInv s tr ->
  exists s' out, release_buttons s = (s', out) /\ BOp s s' out /\ BInv s' (tr ++ out) /\ forall i, 0 <= i -> get_at (ij_buttons s') i <> Some true.
Proof.
  intros Hr Hi. unfold release_buttons.
  destruct (release_on_ok PointerAbsolute s tr ltac:(by right) Hr Hi) as (s1 & o1 & -> & Ho1 & Hi1 & Ep1 & Hn1).
  destruct (release_on_ok Pointer s1 _ ltac:(by left) (bo_ready _ _ _ Ho1) Hi1) as (s2 & o2 & -> & Ho2 & Hi2 & Ep2 & Hn2).
  eexists _, _. split; [done|]. split; [by eapply BOp_trans|]. split; [by rewrite app_assoc|].
  intros i Hi0 E. apply Hn2 in E as [E En2]; [|done]. apply Hn1 in E as [E En1]; [|done]. rewrite Ep1 in En2.
  assert (i < zlen (ij_pressed_on s)) as Hlt by (rewrite (bi_pressed _ _ Hi), <- (bi_buttons _ _ Hi); by eapply get_at_lt).
  destruct (get_at_Some (ij_pressed_on s) i) as [d Ed]; [lia|].
  destruct (proj1 (Forall_lookup _ _) (bi_pointing _ _ Hi) _ _ Ed) as [->| ->]; congruence.
Qed.

Lemma release_buttons_calls s tr : Ready s -> BInv s tr -> Forall only_releases (snd (release_buttons s)).
Proof.
  intros Hr Hi. unfold release_buttons. pose proof (release_on_calls PointerAbsolute s tr ltac:(by right) Hr Hi) as H1.
  destruct (release_on_ok PointerAbsolute s tr ltac:(by right) Hr Hi) as (s1 & o1 & E1 & Ho1 & Hi1 & _). rewrite E1 in *.
  pose proof (release_on_calls Pointer s1 _ ltac:(by left) (bo_ready _ _ _ Ho1) Hi1) as H2. destruct (release_on Pointer s1) as [s2 o2]. by apply Forall_app.
Qed.

(** A press of a button already held, on another device than the first. *)
Definition strands (number : Z) (pressed : bool) (s : Injector) : bool :=
  match button_code number with
  | Some code => pressed && bool_decide (get_at (ij_buttons s) (number - 1) = Some true)
                   && negb (bool_decide (get_at (ij_pressed_on s) (number - 1) = Some (press_device code s)))
  | None => false
  end.

Lemma press_device_pointing code s : pointing (press_device code s).
Proof. unfold press_device, current_pointer. destruct (_ || _); [by left|]. destruct (ij_absolute s); [by right|by left]. Qed.

Lemma BOp_core s s' out b p a la cm :
  core s' = core (s <| ij_buttons := b |> <| ij_pressed_on := p |> <| ij_absolute := a |> <| ij_last_abs := la |> <| ij_commanded := cm |>) -> Ready s' ->
  Forall (call_to pointing) out -> Forall call_ok out -> BOp s s' out.
Proof. intros H Hr Ht Ho. pose proof (core_fields _ _ H) as ((? & _ & _) & (? & ?) & (? & _ & ?)). by split. Qed.

(** One batch of pointer events, from a state with these buttons. *)
Lemma pointer_step s s1 evs d tr b p a la cm :
  Wrote (s <| ij_buttons := b |> <| ij_pressed_on := p |> <| ij_absolute := a |> <| ij_last_abs := la |> <| ij_commanded := cm |>) s1 evs ->
  zlen evs + 1 <= SCRATCH -> pointing d -> zlen b = BUTTONS -> zlen p = BUTTONS -> Forall pointing p ->
  (forall d' c, pointing d' -> (if decide (d' = d) then foldl (event_down c) (down d' c tr) evs else down d' c tr) = true ->
    exists i, 0 <= i /\ button_code (i + 1) = Some c /\ get_at b i = Some true /\ get_at p i = Some d') ->
  exists s' out, flush d (syn_report s1) = (s', out) /\ BOp s s' out /\ BInv s' (tr ++ out).
Proof.
  intros Hw Hl Hd Hb Hp Hpt Hdown. destruct (pointer_batch _ _ _ _ Hw Hl Hd) as (s' & -> & Hc & Hr & Ht & Ho).
  eexists _, _. split; [done|]. split; [by eapply BOp_core|]. pose proof (core_fields _ _ Hc) as ((_ & Hb' & Hp') & _). cbn in Hb', Hp'.
  split; [by rewrite Hb'|by rewrite Hp'|by rewrite Hp'|]. intros d' c Hd' H. rewrite down_emit_syn in H. unfold HeldOn. rewrite Hb', Hp'. by apply Hdown.
Qed.

Lemma pointer_none s tr : Ready s -> BInv s tr -> exists s' out, (s, []) = (s', out) /\ BOp s s' out /\ BInv s' (tr ++ out).
Proof. intros Hr Hi. exists s, []. rewrite app_nil_r. split; [done|]. split; [by apply BOp_same|done]. Qed.

Lemma button_ok number pressed s tr :
  strands number pressed s = false -> Ready s -> BInv s tr ->
  exists s' out, button number pressed s = (s', out) /\ BOp s s' out /\ BInv s' (tr ++ out).
Proof.
  intros Hstr Hr Hi. pose proof (pointer_none s tr Hr Hi) as Hnone. unfold button. destruct (Z.ltb_spec number 1) as [|Hn]; [exact Hnone|].
  destruct (get_at (ij_buttons s) (number - 1)) as [held|] eqn:Eheld; [|exact Hnone].
  destruct (button_code number) as [code|] eqn:Ecode; [|exact Hnone].
  destruct (negb pressed && negb held) eqn:Eskip; [exact Hnone|].
  pose proof (button_code_range _ _ Ecode) as Hrange. unfold strands in Hstr. rewrite Ecode in Hstr.
  destruct Hi as [Hb Hp Hpt Hd]. set (index := number - 1) in *. replace number with (index + 1) in * by lia.
  assert (0 <= index < BUTTONS) as Hidx by (unfold BUTTONS; lia).
  destruct (get_at_Some (ij_pressed_on s) index) as [was Ewas]; [lia|].
  change (ij_pressed_on (s <| ij_buttons := ?b |>)) with (ij_pressed_on s). rewrite Ewas.
  assert (pointing was) as Hwas by exact (proj1 (Forall_lookup _ _) Hpt _ _ Ewas).
  destruct pressed.
  - set (device := press_device code _). assert (device = press_device code s) as Edev by reflexivity. rewrite <- Edev in Hstr. clearbody device.
    set (b := put_at (ij_buttons s) index true). set (p := put_at (ij_pressed_on s) index device). set (s1 := s <| ij_buttons := b |> <| ij_pressed_on := p |>).
    apply (pointer_step s (push EV_KEY code 1 (s1 <| ij_used := 0 |>)) [mkEvent EV_KEY code 1] device tr b p (ij_absolute s) (ij_last_abs s) (ij_commanded s)).
    + eapply (wrote_base s1); [by destruct s|]. by apply (wrote_push s1 _ []); [apply wrote_start|].
    + by vm_compute.
    + rewrite Edev. apply press_device_pointing.
    + unfold b. by rewrite zlen_put_at.
    + unfold p. by rewrite zlen_put_at.
    + apply Forall_insert; [done|]. rewrite Edev. apply press_device_pointing.
    + intros d c Hpd H. unfold b, p. destruct (decide (d = device /\ c = code)) as [[-> ->]|Hne].
      { exists index. split; [lia|]. split; [done|]. by rewrite !get_put_at_eq by lia. }
      assert (down d c tr = true) as Hdn.
      { destruct (decide (d = device)) as [->|]; [|done]. cbn in H. unfold event_down in H. cbn in H. by destruct (Z.eqb_spec code c); [subst; destruct Hne|]. }
      destruct (Hd d c Hpd Hdn) as (i & Hi0 & Ec & Ebi & Epi). exists i. split; [done|]. split; [done|].
      destruct (decide (i = index)) as [->|Hii]; [|by rewrite !get_put_at_ne by lia].
      assert (c = code) as -> by congruence. rewrite Eheld in Ebi. injection Ebi as ->. rewrite Ewas in Epi. injection Epi as ->.
      rewrite Eheld, Ewas, (bool_decide_eq_true_2 (Some true = Some true)) in Hstr by done. cbn [andb] in Hstr. apply negb_false_iff, bool_decide_eq_true in Hstr.
      injection Hstr as ->. by destruct Hne.
  - cbn [default]. set (b := put_at (ij_buttons s) index false). set (s1 := s <| ij_buttons := b |>).
    apply (pointer_step s (push EV_KEY code 0 (s1 <| ij_used := 0 |>)) [mkEvent EV_KEY code 0] was tr b (ij_pressed_on s) (ij_absolute s) (ij_last_abs s) (ij_commanded s)).
    + eapply (wrote_base s1); [by destruct s|]. by apply (wrote_push s1 _ []); [apply wrote_start|].
    + by vm_compute.
    + done.
    + unfold b. by rewrite zlen_put_at.
    + done.
    + done.
    + intros d c Hpd H. assert (~ (d = was /\ c = code) /\ down d c tr = true) as [Hne Hdn].
      { destruct (decide (d = was)) as [->|Hdw]; [|split; [by intros [??]|done]]. cbn in H. unfold event_down in H. cbn in H.
        destruct (Z.eqb_spec code c); [done|]. split; [by intros [_ ->]|done]. }
      destruct (Hd d c Hpd Hdn) as (i & Hi0 & Ec & Ebi & Epi). exists i. split; [done|]. split; [done|]. split; [|done].
      destruct (decide (i = index)) as [->|Hii]; [destruct Hne; split; congruence|]. unfold b. by rewrite get_put_at_ne by lia.
Qed.

(** Events that move no button. *)
Lemma quiet_down c b evs : Forall (fun e => ev_kind e <> EV_KEY) evs -> foldl (event_down c) b evs = b.
Proof.
  intros H. induction H as [|e evs He _ IH]; [done|]. cbn [foldl]. unfold event_down at 2. destruct (Z.eqb_spec (ev_kind e) EV_KEY); done.
Qed.

(** A batch of them leaves the buttons as they were. *)
Lemma quiet_step s s1 evs d tr a la cm :
  Ready s -> BInv s tr -> Wrote (s <| ij_absolute := a |> <| ij_last_abs := la |> <| ij_commanded := cm |>) s1 evs ->
  zlen evs + 1 <= SCRATCH -> pointing d -> Forall (fun e => ev_kind e <> EV_KEY) evs ->
  exists s' out, flush d (syn_report s1) = (s', out) /\ BOp s s' out /\ BInv s' (tr ++ out).
Proof.
  intros Hr [Hb Hp Hpt Hd] Hw Hl Hpd Hq. apply (pointer_step s s1 evs d tr (ij_buttons s) (ij_pressed_on s) a la cm); try done.
  intros d' c Hd' H. apply (Hd d' c); [done|]. rewrite quiet_down in H by done. by destruct (decide (d' = d)).
Qed.

Lemma current_pointing s : pointing (current_pointer s).
Proof. unfold current_pointer. destruct (ij_absolute s); [by right|by left]. Qed.

Lemma wheel_ok x y s tr :
  Ready s -> BInv s tr -> exists s' out, wheel x y s = (s', out) /\ BOp s s' out /\ BInv s' (tr ++ out).
Proof.
  intros Hr Hi. unfold wheel. destruct ((x =? 0) && (y =? 0)); [by apply pointer_none|].
  assert (forall code hi v, Writes (fun s => push EV_REL hi v (push EV_REL code (detents v) s)) [mkEvent EV_REL code (detents v); mkEvent EV_REL hi v]) as Hpair
    by (intros code hi v; apply (Writes_comp (push EV_REL code (detents v)) (push EV_REL hi v) [_] [_]); apply Writes_push).
  pose proof (Writes_if (negb (y =? 0)) _ _ (Hpair REL_WHEEL REL_WHEEL_HI_RES y)) as Hy.
  pose proof (Writes_if (negb (x =? 0)) _ _ (Hpair REL_HWHEEL REL_HWHEEL_HI_RES x)) as Hx.
  set (evs := (if negb (y =? 0) then [mkEvent EV_REL REL_WHEEL (detents y); mkEvent EV_REL REL_WHEEL_HI_RES y] else []) ++ (if negb (x =? 0) then [mkEvent EV_REL REL_HWHEEL (detents x); mkEvent EV_REL REL_HWHEEL_HI_RES x] else [])).
  assert (zlen evs <= 4 /\ Forall (fun e => ev_kind e <> EV_KEY) evs) as [Hl Hq].
  { unfold evs. destruct (negb (y =? 0)), (negb (x =? 0)); (split; [by vm_compute|repeat constructor; done]). }
  pose proof (Writes_comp _ _ _ _ Hy Hx _ _ [] (wrote_start s Hr) ltac:(fold evs; change (zlen []) with 0; unfold SCRATCH; lia)) as Hw.
  cbv beta in Hw. rewrite app_nil_l in Hw.
  apply (quiet_step s _ evs _ tr (ij_absolute s) (ij_last_abs s) (ij_commanded s)); [done|done| |unfold SCRATCH; lia|apply current_pointing|done].
  eapply wrote_base; [|exact Hw]. by destruct s.
Qed.

Lemma move_by_ok x y s s0 a la cm tr :
  Ready s0 -> BInv s0 tr -> s = s0 <| ij_absolute := a |> <| ij_last_abs := la |> <| ij_commanded := cm |> ->
  exists s' out, move_by x y s = (s', out) /\ BOp s0 s' out /\ BInv s' (tr ++ out).
Proof.
  intros Hr Hi ->. unfold move_by. set (s1 := _ <| ij_used := 0 |>).
  apply (quiet_step s0 _ [mkEvent EV_REL REL_X x; mkEvent EV_REL REL_Y y] Pointer tr false la cm); [done|done| |by vm_compute|by left|repeat constructor; done].
  apply (wrote_push _ _ [mkEvent EV_REL REL_X x]); [|by vm_compute]. apply (wrote_push _ _ []); [|by vm_compute].
  eapply wrote_base; [|apply wrote_start; exact Hr]. by destruct s0.
Qed.

Lemma motion_ok relative x y s tr :
  Ready s -> BInv s tr -> exists s' out, motion relative x y s = (s', out) /\ BOp s s' out /\ BInv s' (tr ++ out).
Proof.
  intros Hr Hi. unfold motion. destruct relative.
  { apply (move_by_ok x y _ s (ij_absolute s) None (ij_commanded s) tr); [done|done|by destruct s]. }
  destruct (ij_relative s).
  - destruct (ij_last_abs s) as [[px py]|] eqn:E.
    + apply (move_by_ok _ _ _ s (ij_absolute s) (Some (x, y)) (ij_commanded s) tr); [done|done|by destruct s].
    + eexists _, _. split; [done|]. rewrite app_nil_r. split; [by split|]. by destruct Hi.
  - set (p := ex_place (ij_extents s)). cbv zeta.
    set (vx := scale x _ _ _ _). set (vy := scale y _ _ _ _).
    apply (quiet_step s _ [mkEvent EV_ABS ABS_X vx; mkEvent EV_ABS ABS_Y vy] PointerAbsolute tr true None (Some (x, y)));
      [done|done| |by vm_compute|by right|repeat constructor; done].
    apply (wrote_push _ _ [mkEvent EV_ABS ABS_X vx]); [|by vm_compute]. apply (wrote_push _ _ []); [|by vm_compute].
    split; [exact Hr|done|done|by destruct s].
Qed.
