(* ===== verification/InjectorPads.v ===== *)
(** The injector's pads: what each operation leaves on the devices, and that a pad
    is there what its tracked buttons say. *)

From S2P Require Import Prelude CoreError Slots Control Pad Gamepad Injector InjectorFacts.

(** ** Buttons as keys *)

Definition arm_of (c : Z) (arms : list (Z * Z)) : option Z := fst <$> find (fun e => snd e =? c) arms.

(** Whether the key of code [c] is down in these buttons. *)
Definition pad_down (buttons c : Z) : bool :=
  match arm_of c key_arms with Some bit => negb (Z.land buttons bit =? 0) | None => false end.

Definition bit_evs (changed after : Z) (arm : Z * Z) : list Event :=
  if Z.land changed (fst arm) =? 0 then [] else [mkEvent EV_KEY (snd arm) (of_bool (negb (Z.land after (fst arm) =? 0)))].

Lemma bit_evs_down changed after c arm b :
  foldl (event_down c) b (bit_evs changed after arm) =
    if (snd arm =? c) && negb (Z.land changed (fst arm) =? 0) then negb (Z.land after (fst arm) =? 0) else b.
Proof.
  unfold bit_evs. destruct (Z.land changed (fst arm) =? 0); [by rewrite andb_false_r|]. cbn [foldl negb]. rewrite andb_true_r.
  unfold event_down. cbn [ev_kind ev_code ev_value]. change (EV_KEY =? EV_KEY) with true. cbn [andb]. destruct (snd arm =? c); [|done].
  by destruct (Z.land after (fst arm) =? 0).
Qed.

Lemma arms_down changed after c arms b :
  NoDup (map snd arms) ->
  foldl (event_down c) b (concat (map (bit_evs changed after) arms)) =
    match arm_of c arms with
    | Some bit => if Z.land changed bit =? 0 then b else negb (Z.land after bit =? 0)
    | None => b
    end.
Proof.
  intros Hnd. revert b. induction arms as [|arm arms IH]; intros b; [done|]. cbn [map concat]. rewrite foldl_app, bit_evs_down.
  cbn [map] in Hnd. inversion_clear Hnd as [|? ? Hn Hnd']. rewrite IH by done. unfold arm_of. cbn [find]. destruct (Z.eqb_spec (snd arm) c) as [<-|Hne].
  - cbn [andb fmap option_fmap option_map]. destruct (find _ arms) as [[bit code]|] eqn:E.
    + exfalso. apply Hn. apply find_some in E as [Hin Ec]. cbn in Ec. apply Z.eqb_eq in Ec as ->. apply list_elem_of_In.
      apply (in_map snd) in Hin. exact Hin.
    + cbn. by destruct (Z.land changed (fst arm) =? 0).
  - done.
Qed.

(** A mask none of whose bits changed reads the same. *)
Lemma unchanged_mask a b m m' : Z.land (Z.lxor a b) m = 0 -> Z.land m m' = m' -> Z.land a m' = Z.land b m'.
Proof.
  intros H Hm. apply Z.bits_inj'. intros n Hn. rewrite !Z.land_spec.
  assert (Z.testbit (Z.land (Z.lxor a b) m) n = false) as Hz by (by rewrite H, Z.bits_0).
  assert (Z.testbit (Z.land m m') n = Z.testbit m' n) as Hm' by (by rewrite Hm). rewrite Z.land_spec in *. rewrite Z.lxor_spec in Hz.
  destruct (Z.testbit a n), (Z.testbit b n), (Z.testbit m n), (Z.testbit m' n); done.
Qed.

Lemma arms_distinct : NoDup (map snd key_arms).
Proof. by apply (bool_decide_unpack _). Qed.

Definition changed_evs (before after : Z) : list Event :=
  concat (map (bit_evs (Z.lxor before after) after) key_arms) ++
  (if negb (Z.land (Z.lxor before after) HAT =? 0) then [mkEvent EV_ABS axis_HAT0X (hat_x after); mkEvent EV_ABS axis_HAT0Y (hat_y after)] else []).

Lemma axis_quiet c v evs : Forall (fun e => ev_kind e <> EV_ABS) evs -> foldl (event_axis c) v evs = v.
Proof.
  intros H. induction H as [|e evs He _ IH]; [done|]. cbn [foldl]. unfold event_axis at 2. destruct (Z.eqb_spec (ev_kind e) EV_ABS); done.
Qed.

Lemma bits_quiet changed after arms : Forall (fun e => ev_kind e = EV_KEY) (concat (map (bit_evs changed after) arms)).
Proof.
  induction arms as [|arm arms IH]; [constructor|]. cbn [map concat]. apply Forall_app. split; [|done]. unfold bit_evs.
  destruct (_ =? 0); repeat constructor.
Qed.

Lemma changed_down before after c : foldl (event_down c) (pad_down before c) (changed_evs before after) = pad_down after c.
Proof.
  unfold changed_evs. rewrite foldl_app, arms_down by exact arms_distinct.
  rewrite quiet_down by (destruct (negb _); repeat constructor; done). unfold pad_down. destruct (arm_of c key_arms) as [bit|]; [|done].
  destruct (Z.eqb_spec (Z.land (Z.lxor before after) bit) 0) as [E|]; [|done].
  by rewrite (unchanged_mask before after bit bit E (Z.land_diag _)).
Qed.

Lemma hat_same before after :
  Z.land (Z.lxor before after) HAT = 0 -> hat_x before = hat_x after /\ hat_y before = hat_y after.
Proof.
  intros E. assert (forall bit, Z.land HAT bit = bit -> Z.land before bit = Z.land after bit) as H by (intros bit; by apply unchanged_mask).
  unfold hat_x, hat_y, axis_of. by rewrite !H.
Qed.

Lemma changed_axis before after c v :
  (c = axis_HAT0X -> v = hat_x before) -> (c = axis_HAT0Y -> v = hat_y before) ->
  foldl (event_axis c) v (changed_evs before after) =
    if c =? axis_HAT0X then hat_x after else if c =? axis_HAT0Y then hat_y after else v.
Proof.
  intros Hx Hy. unfold changed_evs. rewrite foldl_app, (axis_quiet c v (concat (map _ key_arms)))
    by (eapply Forall_impl; [|apply bits_quiet]; intros e He; by rewrite He).
  destruct (Z.eqb_spec (Z.land (Z.lxor before after) HAT) 0) as [E|_]; cbn [negb].
  - destruct (hat_same _ _ E) as [<- <-]. cbn [foldl]. destruct (Z.eqb_spec c axis_HAT0X); [by apply Hx|]. destruct (Z.eqb_spec c axis_HAT0Y); [by apply Hy|done].
  - cbn [foldl]. unfold event_axis. cbn [ev_kind ev_code ev_value]. change (EV_ABS =? EV_ABS) with true. cbn [andb].
    rewrite (Z.eqb_sym axis_HAT0X), (Z.eqb_sym axis_HAT0Y). destruct (Z.eqb_spec c axis_HAT0X) as [->|]; [done|]. done.
Qed.

Lemma changed_len before after : zlen (changed_evs before after) <= 13.
Proof.
  unfold changed_evs. assert (forall arms, zlen (concat (map (bit_evs (Z.lxor before after) after) arms)) <= zlen arms) as H.
  { induction arms as [|arm arms IH]; [done|]. cbn [map concat]. rewrite zlen_app, zlen_cons. unfold bit_evs at 1.
    destruct (_ =? 0); [change (zlen (@nil Event)) with 0; lia|]. change (zlen [_]) with 1. lia. }
  rewrite zlen_app. specialize (H key_arms). change (zlen key_arms) with 11 in H. destruct (negb _); [change (zlen [_; _]) with 2; lia|].
  change (zlen (@nil Event)) with 0. lia.
Qed.

(** ** The table of pads *)

Definition pad_with (id : Z) (pads : list (option PadSlot)) : option PadSlot := snd <$> position (fun p => ps_id p =? id) pads.

(** The slots hold distinct pads. *)
Record Distinct (pads : list (option PadSlot)) : Prop := mkDistinct {
  di_len : zlen pads = MAX_PADS;
  di_ids : forall i j p q, 0 <= i -> 0 <= j -> get_at pads i = Some (Some p) -> get_at pads j = Some (Some q) -> ps_id p = ps_id q -> i = j;
}.

Lemma pad_with_spec id pads p :
  Distinct pads -> pad_with id pads = Some p <-> exists i, 0 <= i /\ get_at pads i = Some (Some p) /\ ps_id p = id.
Proof.
  intros Hd. unfold pad_with. split.
  - destruct (position _ pads) as [[i q]|] eqn:E; [|done]. cbn. intros [= ->]. apply position_elem in E as (Hi & Hg & Hp). exists i. split; [done|].
    split; [done|]. by apply Z.eqb_eq.
  - intros (i & Hi & Hg & Hid). destruct (position _ pads) as [[j q]|] eqn:E.
    + apply position_elem in E as (Hj & Hgj & Hq). apply Z.eqb_eq in Hq. cbn. assert (i = j) as -> by (eapply di_ids; [done..|congruence]). congruence.
    + apply position_None in E. rewrite Forall_forall in E. specialize (E p (proj1 (list_elem_of_In _ _) (get_at_flatten _ _ _ Hg))). apply Z.eqb_neq in E. done.
Qed.

Lemma pad_with_None id pads i p : Distinct pads -> pad_with id pads = None -> 0 <= i -> get_at pads i = Some (Some p) -> ps_id p <> id.
Proof. intros Hd E Hi Hg Hid. assert (pad_with id pads = Some p) as E' by (apply pad_with_spec; eauto). congruence. Qed.

Lemma pad_with_ext id pads pads' :
  Distinct pads -> Distinct pads' ->
  (forall p, ps_id p = id -> (exists i, 0 <= i /\ get_at pads i = Some (Some p)) <-> exists i, 0 <= i /\ get_at pads' i = Some (Some p)) ->
  pad_with id pads = pad_with id pads'.
Proof.
  intros Hd Hd' H. apply option_eq. intros p. rewrite !pad_with_spec by done.
  split; intros (i & Hi & Hg & <-); destruct (H p eq_refl) as [H1 H2]; [destruct H1 as (j & ? & ?)|destruct H2 as (j & ? & ?)]; eauto.
Qed.

Lemma get_put_slot (pads : list (option PadSlot)) i j o :
  0 <= i < zlen pads -> 0 <= j -> get_at (put_at pads i o) j = if decide (j = i) then Some o else get_at pads j.
Proof. intros Hi Hj. destruct (decide (j = i)) as [->|]; [by rewrite get_put_at_eq|]. by rewrite get_put_at_ne by lia. Qed.

(** A slot written, with the pad it held or with a new one. *)
Lemma put_some_ok pads i o p' :
  Distinct pads -> 0 <= i -> get_at pads i = Some o -> (forall p, o = Some p -> ps_id p = ps_id p') ->
  (o = None -> pad_with (ps_id p') pads = None) ->
  Distinct (put_at pads i (Some p')) /\
  forall id, pad_with id (put_at pads i (Some p')) = if decide (ps_id p' = id) then Some p' else pad_with id pads.
Proof.
  intros Hd Hi Hg Hsame Hnew. pose proof (get_at_lt _ _ _ Hi Hg) as Hlt.
  assert (forall j p, 0 <= j -> j <> i -> get_at pads j = Some (Some p) -> ps_id p <> ps_id p') as Hother.
  { intros j p Hj Hji Hgj E. destruct o as [q|].
    - apply Hji. eapply (di_ids _ Hd); [done..|]. by rewrite (Hsame q).
    - by eapply pad_with_None in E; eauto. }
  assert (Distinct (put_at pads i (Some p'))) as Hd'.
  { split; [rewrite zlen_put_at; apply Hd|]. intros j k p q Hj Hk. rewrite !get_put_slot by lia. intros Ep Eq E.
    destruct (decide (j = i)) as [->|Hji], (decide (k = i)) as [->|Hki]; simplify_eq;
      [done|exfalso; eapply (Hother k q); [done..|congruence]|exfalso; eapply (Hother j p); [done..|congruence]|].
    by eapply (di_ids _ Hd). }
  split; [done|]. intros id. destruct (decide (ps_id p' = id)) as [<-|Hne].
  - apply pad_with_spec; [done|]. exists i. rewrite get_put_at_eq by lia. done.
  - apply pad_with_ext; [done..|]. intros p <-. split; intros (j & Hj & Hgj); exists j; (split; [done|]); rewrite get_put_slot in * by lia.
    + destruct (decide (j = i)); by simplify_eq.
    + destruct (decide (j = i)) as [->|]; [|done]. rewrite Hg in Hgj. injection Hgj as ->. by rewrite (Hsame p) in Hne.
Qed.

(** A slot emptied. *)
Lemma put_none_ok pads i p :
  Distinct pads -> 0 <= i -> get_at pads i = Some (Some p) ->
  Distinct (put_at pads i None) /\
  forall id, pad_with id (put_at pads i None) = if decide (ps_id p = id) then None else pad_with id pads.
Proof.
  intros Hd Hi Hg. pose proof (get_at_lt _ _ _ Hi Hg) as Hlt.
  assert (Distinct (put_at pads i None)) as Hd'.
  { split; [rewrite zlen_put_at; apply Hd|]. intros j k q r Hj Hk. rewrite !get_put_slot by lia.
    destruct (decide (j = i)), (decide (k = i)); try done. by apply (di_ids _ Hd). }
  split; [done|]. intros id. destruct (decide (ps_id p = id)) as [<-|Hne].
  - destruct (pad_with _ (put_at _ _ _)) as [q|] eqn:E; [|done]. apply pad_with_spec in E as (j & Hj & Hgj & Hq); [|done].
    rewrite get_put_slot in Hgj by lia. destruct (decide (j = i)); [done|]. by assert (j = i) by (by eapply (di_ids _ Hd)).
  - apply pad_with_ext; [done..|]. intros q Hq. split; intros (j & Hj & Hgj); exists j; (split; [done|]); rewrite get_put_slot in * by lia;
      (destruct (decide (j = i)) as [->|]; [by simplify_eq|done]).
Qed.

(** ** A pad on its device *)

Definition AXES : list Z := [axis_X; axis_Y; axis_RX; axis_RY; axis_Z; axis_RZ; axis_HAT0X; axis_HAT0Y].

(** A pad sent as states, as against one sent as its own reports. *)
Definition standard (o : option PadSlot) : option PadSlot := match o with Some p => if ps_raw p then None else Some p | None => None end.
Definition std_buttons (o : option PadSlot) : Z := match standard o with Some p => ps_buttons p | None => 0 end.

Definition raw_pad (o : option PadSlot) : bool := match o with Some p => ps_raw p | None => false end.

(** What the device of [id] has: its keys and its hat are the tracked buttons', a pad not
    sent as states has nothing anywhere, and one not sent as reports was given none. *)
Record PadIs (o : option PadSlot) (id : Z) (tr : list SinkCall) : Prop := mkPadIs {
  pi_down : forall c, down (Gamepad_ id) c tr = pad_down (std_buttons o) c;
  pi_hat_x : axis_at (Gamepad_ id) axis_HAT0X tr = hat_x (std_buttons o);
  pi_hat_y : axis_at (Gamepad_ id) axis_HAT0Y tr = hat_y (std_buttons o);
  pi_rest : forall c, standard o = None \/ ~ In c AXES -> axis_at (Gamepad_ id) c tr = 0;
  pi_report : raw_pad o = false -> reported id tr = None;
}.

Definition PInv (s : Injector) (tr : list SinkCall) : Prop :=
  Distinct (ij_pads s) /\ forall id, PadIs (pad_with id (ij_pads s)) id tr.

(** What an operation on pads leaves alone. *)
Record POp (s s' : Injector) (out : list SinkCall) : Prop := mkPOp {
  po_keys : ij_keys s' = ij_keys s;
  po_buttons : ij_buttons s' = ij_buttons s;
  po_pressed : ij_pressed_on s' = ij_pressed_on s;
  po_permissions : ij_permissions s' = ij_permissions s;
  po_floor : ij_floor s' = ij_floor s;
  po_owner : ij_owner s' = ij_owner s;
  po_to : Forall (call_to (fun d => exists id, d = Gamepad_ id)) out;
  po_ok : Forall call_ok out;
  po_ready : Ready s';
}.

Lemma POp_trans s1 s2 s3 o1 o2 : POp s1 s2 o1 -> POp s2 s3 o2 -> POp s1 s3 (o1 ++ o2).
Proof. intros [] []. split; try congruence; by apply Forall_app. Qed.

Lemma POp_same s : Ready s -> POp s s [].
Proof. by split. Qed.

Lemma call_to_weaken (P Q : Device -> Prop) out : (forall d, P d -> Q d) -> Forall (call_to P) out -> Forall (call_to Q) out.
Proof. intros H Ho. eapply Forall_impl; [|exact Ho]. intros c Hc. destruct c; cbn in *; auto. Qed.

Lemma POp_core s s' out pads id :
  core s' = core (s <| ij_pads := pads |>) -> Ready s' -> Forall (call_to (eq (Gamepad_ id))) out -> Forall call_ok out -> POp s s' out.
Proof.
  intros H Hr Ht Ho. pose proof (core_fields _ _ H) as ((? & ? & ?) & (_ & ?) & (? & _ & ?)). split; try done.
  eapply call_to_weaken; [|exact Ht]. intros d <-. by eexists.
Qed.

Lemma PadIs_other o id id' tr out : id' <> id -> Forall (call_to (eq (Gamepad_ id))) out -> PadIs o id' tr -> PadIs o id' (tr ++ out).
Proof.
  intros Hne Ho []. split; intros;
    rewrite ?down_app, ?axis_at_app, ?reported_app, ?(foldl_down_other _ _ _ _ _ Ho), ?(foldl_axis_other _ _ _ _ _ Ho), ?(foldl_report_other _ _ _ _ Ho) by congruence; auto.
Qed.

(** One pad written and spoken to. *)
Lemma PInv_at s s' tr out id o :
  PInv s tr -> Distinct (ij_pads s') -> (forall id', pad_with id' (ij_pads s') = if decide (id = id') then o else pad_with id' (ij_pads s)) ->
  Forall (call_to (eq (Gamepad_ id))) out -> PadIs o id (tr ++ out) -> PInv s' (tr ++ out).
Proof.
  intros [_ Hi] Hd Hw Ho Hp. split; [done|]. intros id'. rewrite Hw. destruct (decide (id = id')) as [<-|Hne]; [done|]. by eapply PadIs_other.
Qed.

(** ** Speaking to a pad *)

(** Calls to one pad's device that change no more than the scratch. *)
Record Spoke (id : Z) (s s' : Injector) (out : list SinkCall) : Prop := mkSpoke {
  sp_core : core s' = core s;
  sp_ready : Ready s';
  sp_to : Forall (call_to (eq (Gamepad_ id))) out;
  sp_ok : Forall call_ok out;
}.

Lemma Spoke_trans id s1 s2 s3 o1 o2 : Spoke id s1 s2 o1 -> Spoke id s2 s3 o2 -> Spoke id s1 s3 (o1 ++ o2).
Proof. intros [] []. split; try congruence; by apply Forall_app. Qed.

Lemma pad_flush id s0 s evs :
  Wrote s0 s evs -> zlen evs + 1 <= SCRATCH ->
  exists s', flush (Gamepad_ id) (syn_report s) = (s', [Emit (Gamepad_ id) (evs ++ [SYN])]) /\ Spoke id s0 s' [Emit (Gamepad_ id) (evs ++ [SYN])].
Proof.
  intros Hw Hl. assert (Wrote s0 (syn_report s) (evs ++ [SYN])) as Hw' by (apply wrote_push; [done|lia]).
  destruct (wrote_flush _ _ _ (Gamepad_ id) Hw') as [-> [Hr _ _ Hc]]; [by rewrite zlen_app|]. eexists. split; [done|]. split; [exact Hc|done| |].
  - by repeat constructor.
  - constructor; [|constructor]. split; [by rewrite zlen_app|right; by eexists].
Qed.

Lemma axis_emit_syn id c tr evs :
  axis_at (Gamepad_ id) c (tr ++ [Emit (Gamepad_ id) (evs ++ [SYN])]) = foldl (event_axis c) (axis_at (Gamepad_ id) c tr) evs.
Proof. rewrite axis_at_app. cbn [foldl call_axis]. rewrite decide_True by done. by rewrite foldl_app. Qed.

Lemma Writes_changed before after :
  Writes (fun s => let s := foldl (push_bit (Z.lxor before after) after) s KEYED_BITS in
    if negb (Z.land (Z.lxor before after) HAT =? 0) then push EV_ABS axis_HAT0Y (hat_y after) (push EV_ABS axis_HAT0X (hat_x after) s) else s)
    (changed_evs before after).
Proof.
  set (changed := Z.lxor before after).
  set (g := fun bit => if Z.land changed bit =? 0 then [] else match key_for_bit bit with
    | Some code => [mkEvent EV_KEY code (of_bool (negb (Z.land after bit =? 0)))] | None => [] end).
  assert (Writes (fun s => foldl (push_bit changed after) s KEYED_BITS) (concat (map g KEYED_BITS))) as Hbits.
  { apply Writes_foldl. intros bit. unfold push_bit, g. destruct (_ =? 0); [apply Writes_id|]. destruct (key_for_bit bit); [apply Writes_push|apply Writes_id]. }
  apply (Writes_comp (fun s => foldl (push_bit changed after) s KEYED_BITS)
    (fun s => if negb (Z.land changed HAT =? 0) then push EV_ABS axis_HAT0Y (hat_y after) (push EV_ABS axis_HAT0X (hat_x after) s) else s)
    (concat (map (bit_evs changed after) key_arms))); [exact Hbits|].
  apply (Writes_if _ (fun s => push EV_ABS axis_HAT0Y (hat_y after) (push EV_ABS axis_HAT0X (hat_x after) s)) [_; _]).
  apply (Writes_comp (push EV_ABS axis_HAT0X (hat_x after)) (push EV_ABS axis_HAT0Y (hat_y after)) [_] [_]); apply Writes_push.
Qed.

Lemma reported_emit id tr d evs : reported id (tr ++ [Emit d evs]) = reported id tr.
Proof. by rewrite reported_app. Qed.

Lemma standard_not_raw o : standard o <> None -> raw_pad o = false.
Proof. destruct o as [p|]; [|done]. cbn. by destruct (ps_raw p). Qed.

(** The tracked buttons and the device change together. *)
Lemma PadIs_changed o o' id tr before after :
  PadIs o id tr -> raw_pad o = false -> std_buttons o = before -> standard o' <> None -> std_buttons o' = after ->
  PadIs o' id (tr ++ [Emit (Gamepad_ id) (changed_evs before after ++ [SYN])]).
Proof.
  intros [Hd Hx Hy Hr Hrep] Hraw Hb Ho' Ha. rewrite Hb in *. split; intros.
  - rewrite down_emit_syn, decide_True by done. rewrite Hd, changed_down. by rewrite Ha.
  - rewrite axis_emit_syn, (changed_axis before after) by (intros; congruence). by rewrite Ha.
  - rewrite axis_emit_syn, (changed_axis before after) by (intros; congruence). by rewrite Ha.
  - destruct H as [?|Hc]; [done|]. rewrite axis_emit_syn. assert (c <> axis_HAT0X /\ c <> axis_HAT0Y) as [Hcx Hcy].
    { split; intros ->; apply Hc; cbn; tauto. }
    rewrite (changed_axis before after) by done. destruct (Z.eqb_spec c axis_HAT0X); [done|]. destruct (Z.eqb_spec c axis_HAT0Y); [done|]. auto.
  - rewrite reported_emit. auto.
Qed.

(** Only the pad itself matters. *)
Lemma PadIs_same o o' id tr : PadIs o id tr -> std_buttons o = std_buttons o' -> (standard o' = None -> standard o = None) ->
  (raw_pad o' = false -> raw_pad o = false) -> PadIs o' id tr.
Proof. intros [Hd Hx Hy Hr Hrep] Hb Hs Hraw. rewrite Hb in *. split; [done..| |by auto]. intros c [H|H]; apply Hr; auto. Qed.

Lemma buttons_changed_ok id before after s tr o o' :
  Ready s -> PadIs o id tr -> raw_pad o = false -> std_buttons o = before -> standard o' <> None -> std_buttons o' = after ->
  exists s' out, buttons_changed id before after s = (s', out) /\ Spoke id s s' out /\ PadIs o' id (tr ++ out).
Proof.
  intros Hr Hp Hraw Hb Ho' Ha. unfold buttons_changed. destruct (Z.eqb_spec (Z.lxor before after) 0) as [E|_].
  { apply Z.lxor_eq in E. eexists _, _. split; [done|]. rewrite app_nil_r. split; [by split|]. eapply PadIs_same; [done|congruence|done|done]. }
  pose proof (Writes_changed before after s _ [] (wrote_start s Hr)) as Hw. rewrite app_nil_l in Hw. pose proof (changed_len before after) as Hl.
  cbv zeta in Hw. cbv zeta. set (s1 := if negb _ then _ else _) in *. specialize (Hw ltac:(change (zlen (@nil Event)) with 0; unfold SCRATCH; lia)).
  pose proof (PadIs_changed o o' id tr before after Hp Hraw Hb Ho' Ha) as Hp'.
  destruct (Z.eqb_spec (ij_used s1) 0) as [Hu|_].
  - rewrite (wr_used _ _ _ Hw) in Hu. assert (changed_evs before after = []) as E by (by apply nil_length_inv; unfold zlen in Hu; lia).
    rewrite E in Hp'. eexists _, _. split; [done|]. split; [split; [apply Hw|apply Hw|done|done]|]. rewrite app_nil_r.
    split; intros; [rewrite <- (pi_down _ _ _ Hp')|rewrite <- (pi_hat_x _ _ _ Hp')|rewrite <- (pi_hat_y _ _ _ Hp')|rewrite <- (pi_rest _ _ _ Hp' c H)
      |rewrite <- (pi_report _ _ _ Hp' H)]; rewrite ?down_emit_syn, ?axis_emit_syn, ?reported_emit; by try destruct (decide _).
  - destruct (pad_flush id s s1 (changed_evs before after) Hw) as (s' & -> & Hs); [unfold SCRATCH; lia|]. by eexists _, _.
Qed.

(** Sticks and triggers. *)
Definition STICKS : list Z := [axis_X; axis_Y; axis_RX; axis_RY; axis_Z; axis_RZ].

Lemma Writes_axes l : Writes (fun s => foldl (fun s a => push EV_ABS (fst a) (snd a) s) s l) (map (fun a => mkEvent EV_ABS (fst a) (snd a)) l).
Proof.
  induction l as [|a l IH]; [apply Writes_id|]. cbn [foldl map].
  apply (Writes_comp (push EV_ABS (fst a) (snd a)) (fun s => foldl (fun s a => push EV_ABS (fst a) (snd a) s) s l) [_]); [apply Writes_push|apply IH].
Qed.

Lemma axes_other c v (l : list (Z * Z)) :
  ~ In c (map fst l) -> foldl (event_axis c) v (map (fun a => mkEvent EV_ABS (fst a) (snd a)) l) = v.
Proof.
  induction l as [|a l IH]; [done|]. cbn [map foldl In]. intros Hn. unfold event_axis at 2. cbn [ev_kind ev_code ev_value].
  destruct (Z.eqb_spec (fst a) c) as [E|_]; [destruct Hn; by left|]. rewrite andb_false_r. apply IH. tauto.
Qed.

Lemma axes_ok id (l : list (Z * Z)) s tr o :
  Ready s -> zlen l <= 8 -> (forall c, In c (map fst l) -> In c STICKS) -> standard o <> None -> PadIs o id tr ->
  exists s', flush (Gamepad_ id) (syn_report (foldl (fun s a => push EV_ABS (fst a) (snd a) s) (s <| ij_used := 0 |>) l)) =
      (s', [Emit (Gamepad_ id) (map (fun a => mkEvent EV_ABS (fst a) (snd a)) l ++ [SYN])]) /\
    Spoke id s s' [Emit (Gamepad_ id) (map (fun a => mkEvent EV_ABS (fst a) (snd a)) l ++ [SYN])] /\
    PadIs o id (tr ++ [Emit (Gamepad_ id) (map (fun a => mkEvent EV_ABS (fst a) (snd a)) l ++ [SYN])]).
Proof.
  intros Hr Hl Hin Ho [Hd Hx Hy Hrest Hrep]. assert (zlen (map (fun a => mkEvent EV_ABS (fst a) (snd a)) l) = zlen l) as Hlen by (unfold zlen; by rewrite length_map).
  pose proof (Writes_axes l s _ [] (wrote_start s Hr) ltac:(rewrite Hlen; change (zlen (@nil Event)) with 0; unfold SCRATCH; lia)) as Hw. rewrite app_nil_l in Hw.
  destruct (pad_flush id s _ _ Hw) as (s' & E & Hs); [rewrite Hlen; unfold SCRATCH; lia|]. exists s'. split; [exact E|]. split; [done|].
  assert (forall c, ~ In c STICKS -> axis_at (Gamepad_ id) c (tr ++ [Emit (Gamepad_ id) (map (fun a => mkEvent EV_ABS (fst a) (snd a)) l ++ [SYN])]) = axis_at (Gamepad_ id) c tr) as Hax.
  { intros c Hc. rewrite axis_emit_syn. apply axes_other. intros H. by apply Hc, Hin. }
  split.
  - intros c. rewrite down_emit_syn, decide_True by done. rewrite quiet_down; [apply Hd|]. apply Forall_map, Forall_true. by intros a.
  - rewrite Hax; [done|]. cbn. intuition discriminate.
  - rewrite Hax; [done|]. cbn. intuition discriminate.
  - intros c [H|H]; [done|]. rewrite Hax; [by apply Hrest; right|]. intros Hc. apply H. cbn in *. tauto.
  - rewrite reported_emit. exact Hrep.
Qed.

(** ** The operations on pads *)

(** A message of a guest that does not own the desktop presses no Guide. *)
Definition guided (id : Z) (s : Injector) : Prop := Z.land (std_buttons (pad_with id (ij_pads s))) bit_GUIDE <> 0.
Definition NoGuide (s s' : Injector) : Prop := ij_owner s = false -> forall id, guided id s' -> guided id s.

Record PStep (s : Injector) (tr : list SinkCall) (s' : Injector) (out : list SinkCall) : Prop := mkPStep {
  pt_op : POp s s' out;
  pt_inv : PInv s' (tr ++ out);
  pt_guide : NoGuide s s';
}.

Lemma PStep_trans s1 tr s2 s3 o1 o2 : PStep s1 tr s2 o1 -> PStep s2 (tr ++ o1) s3 o2 -> PStep s1 tr s3 (o1 ++ o2).
Proof.
  intros [Ho1 Hi1 Hg1] [Ho2 Hi2 Hg2]. split; [by eapply POp_trans|by rewrite app_assoc|]. intros Hw id H. apply Hg1; [done|]. apply Hg2; [|done].
  by rewrite (po_owner _ _ _ Ho1).
Qed.

Lemma PStep_none s tr : Ready s -> PInv s tr -> PStep s tr s [].
Proof. intros Hr Hi. split; [by apply POp_same|by rewrite app_nil_r|by intros _ id]. Qed.

(** A pad's slot written, and calls made to its device. *)
Lemma PStep_at s s' tr out id i old p' :
  PInv s tr -> 0 <= i -> get_at (ij_pads s) i = Some old -> (forall p, old = Some p -> ps_id p = ps_id p') ->
  (old = None -> pad_with (ps_id p') (ij_pads s) = None) -> ps_id p' = id ->
  core s' = core (s <| ij_pads := put_at (ij_pads s) i (Some p') |>) -> Ready s' ->
  Forall (call_to (eq (Gamepad_ id))) out -> Forall call_ok out -> PadIs (Some p') id (tr ++ out) ->
  (ij_owner s = false -> Z.land (std_buttons (Some p')) bit_GUIDE <> 0 -> guided id s) ->
  PStep s tr s' out.
Proof.
  intros Hi Hi0 Hg Hsame Hnew <- Hc Hr Hto Hok Hp Hgd. destruct (put_some_ok _ _ _ _ (proj1 Hi) Hi0 Hg Hsame Hnew) as [Hd Hw].
  pose proof (core_fields _ _ Hc) as (_ & (Epads & _) & _). cbn in Epads. split.
  - by eapply POp_core.
  - eapply (PInv_at s s' tr out (ps_id p') (Some p')); [done|by rewrite Epads|intros id'; by rewrite Epads|done|done].
  - intros Ho id. unfold guided at 1. rewrite Epads, Hw. destruct (decide _) as [<-|]; [by apply Hgd|done].
Qed.

Lemma pad_at_with id s : pad_with id (ij_pads s) = snd <$> pad_at id s.
Proof. done. Qed.

Lemma pad_at_elem id s i p : pad_at id s = Some (i, p) -> 0 <= i /\ get_at (ij_pads s) i = Some (Some p) /\ ps_id p = id.
Proof. intros (Hi & Hg & Hp)%position_elem. by apply Z.eqb_eq in Hp. Qed.

Lemma Injector_pad_ok id raw s tr s' r :
  Ready s -> PInv s tr -> Injector_pad id raw s = (s', r) ->
  PStep s tr s' [] /\ match r with
    | Some index => 0 <= index /\ exists p, get_at (ij_pads s') index = Some (Some p) /\ ps_id p = id /\ (pad_at id s = None -> p = mkPadSlot id 0 raw)
    | None => True
    end.
Proof.
  intros Hr Hi. unfold Injector_pad. destruct (pad_at id s) as [[i p]|] eqn:E.
  { intros [= <- <-]. split; [by apply PStep_none|]. apply pad_at_elem in E as (? & ? & ?). split; [done|]. by exists p. }
  destruct (list_find _ (ij_pads s)) as [[n o]|] eqn:Ef; cbn [fmap option_fmap option_map fst]; intros [= <- <-]; [|by split; [apply PStep_none|]].
  apply list_find_Some in Ef as (Hg & -> & _). assert (get_at (ij_pads s) (Z.of_nat n) = Some None) as Hg' by (unfold get_at; by rewrite Nat2Z.id).
  assert (pad_with id (ij_pads s) = None) as Hnone by (by rewrite pad_at_with, E). split.
  - eapply (PStep_at s _ tr [] id (Z.of_nat n) None (mkPadSlot id 0 raw)); try done; try lia; [|by destruct raw].
    rewrite app_nil_r. eapply PadIs_same; [apply (proj2 Hi id)|rewrite Hnone; by destruct raw|by rewrite Hnone|by rewrite Hnone].
  - split; [lia|]. eexists. cbn. rewrite get_put_at_eq; [done|]. apply get_at_lt in Hg'; lia.
Qed.

Lemma standard_pad_ok id s tr s' r :
  Ready s -> PInv s tr -> standard_pad id s = (s', r) ->
  PStep s tr s' [] /\ match r with
    | Some index => 0 <= index /\ exists p, get_at (ij_pads s') index = Some (Some p) /\ ps_id p = id /\ ps_raw p = false
    | None => True
    end.
Proof.
  intros Hr Hi. unfold standard_pad. destruct (Injector_pad id false s) as [s1 [index|]] eqn:E; intros [= <- <-];
    destruct (Injector_pad_ok _ _ _ _ _ _ Hr Hi E) as [Hs H]; (split; [done|]); [|done].
  destruct H as (Hi0 & p & Hg & Hid & _). rewrite Hg. destruct (ps_raw p) eqn:Eraw; [done|]. split; [done|]. by exists p.
Qed.

Lemma pad_with_at s i p : Distinct (ij_pads s) -> 0 <= i -> get_at (ij_pads s) i = Some (Some p) -> pad_with (ps_id p) (ij_pads s) = Some p.
Proof. intros Hd Hi Hg. apply pad_with_spec; eauto. Qed.

(** A tracked pad's buttons set, and its device told. *)
Lemma set_buttons_ok s tr i p after :
  Ready s -> PInv s tr -> 0 <= i -> get_at (ij_pads s) i = Some (Some p) -> ps_raw p = false ->
  (ij_owner s = false -> Z.land after bit_GUIDE <> 0 -> Z.land (ps_buttons p) bit_GUIDE <> 0) ->
  exists s' out, buttons_changed (ps_id p) (ps_buttons p) after (s <| ij_pads := put_at (ij_pads s) i (Some (p <| ps_buttons := after |>)) |>) = (s', out) /\
    PStep s tr s' out /\ core s' = core (s <| ij_pads := put_at (ij_pads s) i (Some (p <| ps_buttons := after |>)) |>) /\
    Forall (call_to (eq (Gamepad_ (ps_id p)))) out.
Proof.
  intros Hr Hi Hi0 Hg Hraw Hgd. set (p' := p <| ps_buttons := after |>). set (s1 := s <| ij_pads := _ |>).
  pose proof (pad_with_at s i p (proj1 Hi) Hi0 Hg) as Hw. pose proof (proj2 Hi (ps_id p)) as Hp. rewrite Hw in Hp.
  assert (std_buttons (Some p) = ps_buttons p) as Eb by (unfold std_buttons, standard; by rewrite Hraw).
  assert (standard (Some p') = Some p') as Es' by (unfold standard; cbn; by rewrite Hraw).
  assert (std_buttons (Some p') = after) as Eb' by (unfold std_buttons; by rewrite Es').
  destruct (buttons_changed_ok (ps_id p) (ps_buttons p) after s1 tr (Some p) (Some p') Hr Hp Hraw Eb ltac:(by rewrite Es') Eb') as (s' & out & E & [Hc Hr' Ht Ho] & Hp').
  exists s', out. split; [done|]. split; [|done].
  eapply (PStep_at s s' tr out (ps_id p) i (Some p) p'); try done.
  - by intros q [= ->].
  - rewrite Eb'. intros Hw' H. unfold guided. rewrite Hw, Eb. by apply Hgd.
Qed.

(** A batch of sticks and triggers of a tracked pad. *)
Lemma set_axes_ok s tr i p l :
  Ready s -> PInv s tr -> 0 <= i -> get_at (ij_pads s) i = Some (Some p) -> ps_raw p = false ->
  zlen l <= 8 -> (forall c, In c (map fst l) -> In c STICKS) ->
  exists s', flush (Gamepad_ (ps_id p)) (syn_report (foldl (fun s a => push EV_ABS (fst a) (snd a) s) (s <| ij_used := 0 |>) l)) =
      (s', [Emit (Gamepad_ (ps_id p)) (map (fun a => mkEvent EV_ABS (fst a) (snd a)) l ++ [SYN])]) /\
    PStep s tr s' [Emit (Gamepad_ (ps_id p)) (map (fun a => mkEvent EV_ABS (fst a) (snd a)) l ++ [SYN])] /\ core s' = core s.
Proof.
  intros Hr Hi Hi0 Hg Hraw Hl Hin. pose proof (pad_with_at s i p (proj1 Hi) Hi0 Hg) as Hw. pose proof (proj2 Hi (ps_id p)) as Hp. rewrite Hw in Hp.
  destruct (axes_ok (ps_id p) l s tr (Some p) Hr Hl Hin ltac:(unfold standard; by rewrite Hraw) Hp) as (s' & E & [Hc Hr' Ht Ho] & Hp').
  exists s'. split; [exact E|]. split; [|done]. pose proof (core_fields _ _ Hc) as (_ & (Epads & _) & _). split.
  - eapply (POp_core s s' _ (ij_pads s)); [|done..]. rewrite Hc. by destruct s.
  - eapply (PInv_at s s' tr _ (ps_id p) (Some p)); [done|rewrite Epads; apply Hi| |done|done].
    intros id'. rewrite Epads. by destruct (decide _) as [<-|].
  - intros _ id. unfold guided. by rewrite Epads.
Qed.

Lemma bit_for_index_guide n bit : bit_for_index n = Some bit -> bit <> bit_GUIDE -> Z.land bit bit_GUIDE = 0.
Proof. unfold bit_for_index. intros H Hne. repeat case_match; simplify_eq; done. Qed.

Lemma pad_button_ok n down_ id s tr :
  Ready s -> PInv s tr -> exists s' out, pad_button n down_ id s = (s', out) /\ PStep s tr s' out.
Proof.
  intros Hr Hi. assert (exists s' out, (s, []) = (s', out) /\ PStep s tr s' out) as Hnone by (eexists _, _; split; [done|by apply PStep_none]).
  unfold pad_button. destruct (bit_for_index n) as [bit|] eqn:Ebit; [|exact Hnone]. destruct ((bit =? bit_GUIDE) && negb (ij_owner s)) eqn:Eguide; [exact Hnone|].
  destruct (standard_pad id s) as [s1 r] eqn:Epad. destruct (standard_pad_ok _ _ _ _ _ Hr Hi Epad) as [Hs1 Hp]. pose proof (pt_inv _ _ _ _ Hs1) as Hi1.
  rewrite app_nil_r in Hi1. pose proof (po_ready _ _ _ (pt_op _ _ _ _ Hs1)) as Hr1.
  destruct r as [i|]; [|by eexists _, _]. destruct Hp as (Hi0 & p & Hg & Hid & Hraw). rewrite Hg. cbv zeta.
  set (after := if down_ =? 0 then _ else _).
  destruct (set_buttons_ok s1 tr i p after Hr1 Hi1 Hi0 Hg Hraw) as (s' & out & -> & Hs & _).
  - rewrite (po_owner _ _ _ (pt_op _ _ _ _ Hs1)). intros Ho Ha Hb. apply Ha. unfold after. destruct (down_ =? 0).
    + rewrite <- Z.land_assoc, (Z.land_comm (not16 _)), Z.land_assoc. by rewrite Hb.
    + rewrite Z.land_lor_distr_l, Hb, Z.lor_0_l. apply (bit_for_index_guide _ _ Ebit). intros ->. by rewrite Ho in Eguide.
  - eexists _, _. split; [done|]. change out with ([] ++ out). eapply PStep_trans; [exact Hs1|by rewrite app_nil_r].
Qed.

Lemma pad_axis_ok which value s tr i p :
  Ready s -> PInv s tr -> 0 <= i -> get_at (ij_pads s) i = Some (Some p) -> ps_raw p = false ->
  exists s' out, pad_axis (ps_id p) which value s = (s', out) /\ PStep s tr s' out.
Proof.
  intros Hr Hi Hi0 Hg Hraw. unfold pad_axis. destruct (match which with 0 => _ | _ => _ end) as [[code scaled]|] eqn:E; [|eexists _, _; split; [done|by apply PStep_none]].
  destruct (set_axes_ok s tr i p [(code, scaled)] Hr Hi Hi0 Hg Hraw) as (s' & Ef & Hs & _); [done| |by eexists _, _].
  intros c [<-|[]]. repeat case_match; simplify_eq; cbn; tauto.
Qed.

Lemma whole_pad_ok id body s tr :
  Ready s -> PInv s tr -> exists s' out, whole_pad id body s = (s', out) /\ PStep s tr s' out.
Proof.
  intros Hr Hi. unfold whole_pad. destruct (state_fields body) as [fields|]; [|eexists _, _; split; [done|by apply PStep_none]]. cbv zeta.
  set (buttons := if negb (ij_owner s) then _ else _). destruct (standard_pad id s) as [s1 r] eqn:Epad.
  destruct (standard_pad_ok _ _ _ _ _ Hr Hi Epad) as [Hs1 Hp]. pose proof (pt_inv _ _ _ _ Hs1) as Hi1. rewrite app_nil_r in Hi1.
  pose proof (po_ready _ _ _ (pt_op _ _ _ _ Hs1)) as Hr1. destruct r as [i|]; [|by eexists _, _]. destruct Hp as (Hi0 & p & Hg & <- & Hraw). unfold update_at. rewrite Hg.
  destruct (set_buttons_ok s1 tr i p buttons Hr1 Hi1 Hi0 Hg Hraw) as (s2 & out2 & -> & Hs2 & Hc2 & _).
  { rewrite (po_owner _ _ _ (pt_op _ _ _ _ Hs1)). intros Ho. unfold buttons. rewrite Ho. cbn [negb]. intros H. exfalso. apply H.
    rewrite <- Z.land_assoc. change (Z.land (not16 bit_GUIDE) bit_GUIDE) with 0. apply Z.land_0_r. }
  pose proof (core_fields _ _ Hc2) as (_ & (Epads & _) & _). cbn in Epads. pose proof (get_at_lt _ _ _ Hi0 Hg) as Hlt.
  destruct (set_axes_ok s2 (tr ++ out2) i (p <| ps_buttons := buttons |>)
    [(axis_X, pad_stick (as_signed 16 (field16 fields 2)) false); (axis_Y, pad_stick (as_signed 16 (field16 fields 4)) true);
     (axis_RX, pad_stick (as_signed 16 (field16 fields 6)) false); (axis_RY, pad_stick (as_signed 16 (field16 fields 8)) true);
     (axis_Z, default 0 (get_at fields 10)); (axis_RZ, default 0 (get_at fields 11))]) as (s3 & Ef & Hs3 & _).
  - apply (pt_op _ _ _ _ Hs2).
  - apply Hs2.
  - done.
  - rewrite Epads. apply get_put_at_eq. lia.
  - done.
  - done.
  - by intros c Hc.
  - cbn [foldl fst snd] in Ef. cbn [ps_id] in Ef. eexists _, _. split.
    { exact (f_equal (fun r => let '(s, out') := r in (s, out2 ++ out')) Ef). }
    change (out2 ++ ?o) with ([] ++ (out2 ++ o)). eapply PStep_trans; [exact Hs1|]. rewrite app_nil_r. by eapply PStep_trans.
Qed.

(** A report to a pad that is sent as its reports. *)
Lemma PadIs_report o id id' inbound tr : (id = id' -> raw_pad o = true) -> PadIs o id tr -> PadIs o id (tr ++ [SinkReport id' inbound]).
Proof.
  intros H [Hd Hx Hy Hr Hrep]. split; intros; rewrite ?down_app, ?axis_at_app, ?reported_app; cbn [foldl call_down call_axis call_report]; auto.
  destruct (decide (id = id')) as [->|]; [|by auto]. by rewrite H in H0.
Qed.

Lemma pad_report_ok takes message s tr :
  Ready s -> PInv s tr -> exists s' out, pad_report takes message s = (s', out) /\ PStep s tr s' out.
Proof.
  intros Hr Hi. assert (exists s' out, (s, []) = (s', out) /\ PStep s tr s' out) as Hnone by (eexists _, _; split; [done|by apply PStep_none]).
  unfold pad_report. cbv zeta. set (id := ct_a1 message).
  assert (forall inbound, exists s' out, (let '(s0, raw) := match pad_at id s with
                       | Some (_, p) => (s, ps_raw p)
                       | None => if takes then let '(s, index) := Injector_pad id true s in (s, is_some index) else (s, false)
                       end in (s0, if raw : bool then [SinkReport id inbound] else [])) = (s', out) /\ PStep s tr s' out) as Hgo.
  { intros inbound. destruct (match pad_at id s with Some _ => _ | None => _ end) as [s1 raw] eqn:E. eexists _, _. split; [done|].
    assert (PStep s tr s1 [] /\ (raw = true -> raw_pad (pad_with id (ij_pads s1)) = true)) as [Hs1 Hraw].
    { rewrite pad_at_with. destruct (pad_at id s) as [[i p]|] eqn:Eat; [injection E as <- <-; rewrite Eat; by split; [apply PStep_none|]|].
      destruct takes; [|by injection E as <- <-; split; [apply PStep_none|]].
      destruct (Injector_pad id true s) as [s2 r] eqn:Ep. injection E as <- <-. destruct (Injector_pad_ok _ _ _ _ _ _ Hr Hi Ep) as [Hs Hp].
      split; [done|]. destruct r as [i|]; [|done]. intros _. destruct Hp as (Hi0 & p & Hg & Hid & Hnew). rewrite <- pad_at_with, <- Hid.
      rewrite (pad_with_at s2 i p) by (done || apply Hs). by rewrite (Hnew Eat). }
    destruct raw; [|done]. specialize (Hraw eq_refl). change [SinkReport id inbound] with ([] ++ [SinkReport id inbound]). eapply PStep_trans; [exact Hs1|].
    destruct Hs1 as [[] [Hd Hp] _]. rewrite app_nil_r in *. split; [split; try done; constructor; try done; by exists id| |by intros _ id'].
    split; [done|]. intros id'. apply PadIs_report; [by intros ->|apply Hp]. }
  destruct (parse_report message) as [[]|]; first [exact Hnone|apply Hgo].
Qed.

Lemma unplug_ok id s tr :
  Ready s -> PInv s tr -> exists s' out, unplug id s = (s', out) /\ PStep s tr s' out /\
    core s' = core (s <| ij_pads := match pad_at id s with Some (i, _) => put_at (ij_pads s) i None | None => ij_pads s end |>) /\
    Forall (fun c => c = SinkUnplug id) out.
Proof.
  intros Hr Hi. unfold unplug. destruct (pad_at id s) as [[i p]|] eqn:E.
  2: { eexists _, _. split; [done|]. split; [by apply PStep_none|]. split; [by destruct s|constructor]. }
  apply pad_at_elem in E as (Hi0 & Hg & <-). eexists _, _. split; [done|]. destruct (put_none_ok _ _ _ (proj1 Hi) Hi0 Hg) as [Hd Hw]. split.
  - split.
    + by eapply (POp_core s _ _ _ (ps_id p)); [reflexivity|..]; [|repeat constructor..].
    + eapply (PInv_at s _ tr _ (ps_id p) None); [done|exact Hd|exact Hw|by repeat constructor|].
      split; intros; rewrite ?down_app, ?axis_at_app, ?reported_app; cbn [foldl call_down call_axis call_report]; rewrite decide_True by done; try done.
      unfold pad_down. by destruct (arm_of c key_arms); rewrite ?Z.land_0_l.
    + intros _ id. unfold guided. cbn [ij_pads]. change (ij_pads (s <| ij_pads := ?x |>)) with x. rewrite Hw. by destruct (decide _).
  - split; [done|by repeat constructor].
Qed.

(** ** Centring *)

Definition centred (id : Z) (tr : list SinkCall) : Prop := forall c, axis_at (Gamepad_ id) c tr = 0.

(** A pad with nothing held and nothing away from its centre, if it is sent as states. *)
Definition Rest (id : Z) (s : Injector) (tr : list SinkCall) : Prop :=
  forall p, pad_with id (ij_pads s) = Some p -> ps_raw p = false -> ps_buttons p = 0 /\ centred id tr.

(** What of a slot centring leaves as it was. *)
Definition shape (pads : list (option PadSlot)) (i : Z) : option (option (Z * bool)) :=
  option_map (option_map (fun p => (ps_id p, ps_raw p))) (get_at pads i).

Lemma sticks_zero c v : In c STICKS -> foldl (event_axis c) v (map (fun a => mkEvent EV_ABS (fst a) (snd a)) (map (fun a => (a, 0)) STICKS)) = 0.
Proof. cbn [In STICKS]. intros H. repeat destruct H as [<-|H]; [reflexivity..|destruct H]. Qed.

Lemma hat_zero : hat_x 0 = 0 /\ hat_y 0 = 0.
Proof. done. Qed.

(** After the batch that centres it, nothing of a pad at rest is away. *)
Lemma centred_batch o id tr :
  PadIs o id tr -> std_buttons o = 0 ->
  centred id (tr ++ [Emit (Gamepad_ id) (map (fun a => mkEvent EV_ABS (fst a) (snd a)) (map (fun a => (a, 0)) STICKS) ++ [SYN])]).
Proof.
  intros [_ Hx Hy Hr _] Hb c. rewrite axis_emit_syn. destruct (decide (In c STICKS)) as [Hc|Hc]; [by apply sticks_zero|].
  rewrite axes_other by (intros H; apply Hc; by rewrite map_map, map_id in H). rewrite Hb in *.
  destruct (decide (c = axis_HAT0X)) as [->|Hnx]; [exact Hx|]. destruct (decide (c = axis_HAT0Y)) as [->|Hny]; [exact Hy|].
  apply Hr. right. unfold AXES, STICKS in *. cbn in *. intuition congruence.
Qed.

Lemma Rest_other id id' s s' tr out :
  id' <> id -> pad_with id' (ij_pads s') = pad_with id' (ij_pads s) -> Forall (call_to (eq (Gamepad_ id))) out -> Rest id' s tr -> Rest id' s' (tr ++ out).
Proof.
  intros Hne Hp Ho H p. rewrite Hp. intros E Hraw. destruct (H p E Hraw) as [Hb Hc]. split; [done|]. intros c.
  rewrite axis_at_app, (foldl_axis_other _ _ _ _ _ Ho) by congruence. apply Hc.
Qed.

Lemma get_at_shape pads i p : get_at pads i = Some (Some p) -> shape pads i = Some (Some (ps_id p, ps_raw p)).
Proof. intros H. unfold shape. by rewrite H. Qed.

Lemma shape_get_at pads i id raw : shape pads i = Some (Some (id, raw)) -> exists p, get_at pads i = Some (Some p) /\ ps_id p = id /\ ps_raw p = raw.
Proof. unfold shape. destruct (get_at pads i) as [[p|]|]; cbn; intros [= <- <-]. by exists p. Qed.

Lemma shape_put pads i p p' j :
  0 <= i -> 0 <= j -> get_at pads i = Some (Some p) -> ps_id p' = ps_id p -> ps_raw p' = ps_raw p ->
  shape (put_at pads i (Some p')) j = shape pads j.
Proof.
  intros Hi Hj Hg Hid Hraw. pose proof (get_at_lt _ _ _ Hi Hg). unfold shape. rewrite get_put_slot by lia.
  destruct (decide (j = i)) as [->|]; [|done]. rewrite Hg. cbn. by rewrite Hid, Hraw.
Qed.

(** One pad centred. *)
Record Centres (i : Z) (s : Injector) (tr : list SinkCall) (s' : Injector) (out : list SinkCall) : Prop := mkCentres {
  ce_step : PStep s tr s' out;
  ce_shape : forall j, 0 <= j -> shape (ij_pads s') j = shape (ij_pads s) j;
  ce_keep : forall id, Rest id s tr -> Rest id s' (tr ++ out);
  ce_rest : forall id raw, shape (ij_pads s) i = Some (Some (id, raw)) -> Rest id s' (tr ++ out);
}.

Lemma centre_pad_ok i s tr :
  0 <= i -> Ready s -> PInv s tr -> exists s' out, centre_pad i s = (s', out) /\ Centres i s tr s' out.
Proof.
  intros Hi0 Hr Hi. unfold centre_pad.
  assert (forall o, get_at (ij_pads s) i = o -> (forall p, o = Some (Some p) -> ps_raw p = true) ->
    exists s' out, (s, []) = (s', out) /\ Centres i s tr s' out) as Hnone.
  { intros o Eo Ho. eexists _, _. split; [done|]. split; [by apply PStep_none|done|by intros id; rewrite app_nil_r|].
    intros id raw E p Ep Hraw. apply shape_get_at in E as (q & Hg & <- & <-). rewrite (pad_with_at s i q) in Ep by (done || apply Hi).
    injection Ep as <-. rewrite Ho in Hraw; [done|congruence]. }
  destruct (get_at (ij_pads s) i) as [[p|]|] eqn:Hg; [|by apply (Hnone (Some None))|by apply (Hnone None)].
  destruct (ps_raw p) eqn:Hraw; [by apply (Hnone (Some (Some p))); [|intros q [= <-]]|]. cbv zeta.
  pose proof (get_at_lt _ _ _ Hi0 Hg) as Hlt. set (p0 := p <| ps_buttons := 0 |>).
  assert (update_at i (fun p => p <| ps_buttons := 0 |>) (ij_pads s) = put_at (ij_pads s) i (Some p0)) as -> by (unfold update_at; by rewrite Hg).
  destruct (set_buttons_ok s tr i p 0 Hr Hi Hi0 Hg Hraw) as (s1 & o1 & E1 & Hs1 & Hc1 & Ht1); [by intros _ []|]. fold p0 in E1, Hc1. rewrite E1.
  pose proof (core_fields _ _ Hc1) as (_ & (Epads & _) & _). cbn in Epads.
  assert (get_at (ij_pads s1) i = Some (Some p0)) as Hg1 by (rewrite Epads; apply get_put_at_eq; lia).
  destruct (set_axes_ok s1 (tr ++ o1) i p0 (map (fun a => (a, 0)) STICKS) (po_ready _ _ _ (pt_op _ _ _ _ Hs1)) (pt_inv _ _ _ _ Hs1) Hi0 Hg1 Hraw)
    as (s2 & Ef & Hs2 & Hc2); [done|by intros c Hc|].
  pose proof (core_fields _ _ Hc2) as (_ & (Epads2 & _) & _). set (o2 := [Emit _ _]) in *. eexists _, _. split.
  { exact (f_equal (fun r => let '(s, out') := r in (s, o1 ++ out')) Ef). }
  pose proof (PStep_trans _ _ _ _ _ _ Hs1 Hs2) as Hs. assert (Rest (ps_id p) s2 (tr ++ o1 ++ o2)) as Hrest.
  { intros q E _. rewrite Epads2 in E. change (ps_id p) with (ps_id p0) in *. rewrite (pad_with_at s1 i p0) in E by (done || apply Hs1). injection E as <-.
    split; [done|]. rewrite app_assoc. unfold o2. change (ps_id p0) with (ps_id p) at 1. apply (centred_batch (Some p0)).
    - rewrite <- (pad_with_at s1 i p0) by (done || apply Hs1). apply (proj2 (pt_inv _ _ _ _ Hs1)).
    - unfold std_buttons, standard. by destruct (ps_raw p0). }
  split; [done| | |].
  - intros j Hj. rewrite Epads2, Epads. by eapply shape_put.
  - intros id H. destruct (decide (id = ps_id p)) as [->|Hne]; [done|]. eapply (Rest_other (ps_id p)); [done| | |done].
    + rewrite Epads2, Epads. destruct (put_some_ok (ij_pads s) i (Some p) p0 (proj1 Hi) Hi0 Hg) as [_ ->]; [by intros q [= ->]|done|].
      by rewrite decide_False by (cbn; congruence).
    + apply Forall_app. split; [done|]. by repeat constructor.
  - intros id raw E. rewrite (get_at_shape _ _ _ Hg) in E. by injection E as <- <-.
Qed.

(** Every pad in a list of slots centred. *)
Lemma centre_loop_ok l s tr :
  Forall (fun i => 0 <= i) l -> Ready s -> PInv s tr ->
  exists s' out, each_pad centre_pad l s = (s', out) /\ PStep s tr s' out /\ (forall j, 0 <= j -> shape (ij_pads s') j = shape (ij_pads s) j) /\
    (forall id, Rest id s tr -> Rest id s' (tr ++ out)) /\
    (forall i id raw, In i l -> shape (ij_pads s) i = Some (Some (id, raw)) -> Rest id s' (tr ++ out)).
Proof.
  revert s tr. induction l as [|i l IH]; intros s tr Hl Hr Hi; cbn [each_pad].
  { eexists _, _. split; [done|]. split; [by apply PStep_none|]. rewrite app_nil_r. split; [done|]. by split. }
  inversion Hl as [|x y Hi0 Hl']; subst x y. destruct (centre_pad_ok i s tr Hi0 Hr Hi) as (s1 & o1 & -> & [Hs1 Hsh1 Hk1 Hr1]).
  destruct (IH s1 (tr ++ o1) Hl' (po_ready _ _ _ (pt_op _ _ _ _ Hs1)) (pt_inv _ _ _ _ Hs1)) as (s2 & o2 & -> & Hs2 & Hsh2 & Hk2 & Hr2).
  eexists _, _. split; [done|]. rewrite app_assoc. split; [by eapply PStep_trans|]. split; [intros j Hj; by rewrite Hsh2, Hsh1|].
  split; [intros id H; by apply Hk2, Hk1|]. intros j id raw [<-|Hj] E; [apply Hk2; by eapply Hr1|]. eapply (Hr2 j id raw Hj). rewrite Hsh1; [done|].
  by apply (proj1 (Forall_forall _ _) Hl').
Qed.

Lemma pad_indices i : In i PAD_INDICES <-> 0 <= i < MAX_PADS.
Proof. change PAD_INDICES with [0; 1; 2; 3]. cbn [In]. unfold MAX_PADS. lia. Qed.

Lemma pad_indices_pos : Forall (fun i => 0 <= i) PAD_INDICES.
Proof. apply Forall_forall. intros i H%pad_indices. lia. Qed.

Lemma centre_pads_ok s tr :
  Ready s -> PInv s tr ->
  exists s' out, centre_pads s = (s', out) /\ PStep s tr s' out /\ forall id, Rest id s' (tr ++ out).
Proof.
  intros Hr Hi. destruct (centre_loop_ok PAD_INDICES s tr) as (s' & out & E & Hs & Hsh & _ & Hrest); [exact pad_indices_pos|done|done|].
  exists s', out. split; [exact E|]. split; [done|]. intros id p Hp. pose proof Hp as Hp'. apply pad_with_spec in Hp' as (i & Hi0 & Hg & <-); [|apply Hs].
  assert (i < MAX_PADS) as Hlt by (rewrite <- (di_len _ (proj1 (pt_inv _ _ _ _ Hs))); by eapply get_at_lt).
  revert Hp. eapply (Hrest i (ps_id p)); [by apply pad_indices|]. rewrite <- Hsh by done. by apply get_at_shape.
Qed.

(** Centring gives no report and unplugs nothing. *)
Definition is_emit (c : SinkCall) : Prop := match c with Emit _ _ => True | _ => False end.

Lemma flush_emits_only d s : Forall is_emit (snd (flush d s)).
Proof. unfold flush. cbn [snd]. destruct (get_range _ _ _); repeat constructor. Qed.

Lemma centre_pads_emit s : Forall is_emit (snd (centre_pads s)).
Proof.
  unfold centre_pads. generalize PAD_INDICES as l. intros l. revert s. induction l as [|i l IH]; intros s; [constructor|]. cbn [each_pad].
  assert (Forall is_emit (snd (centre_pad i s))) as H.
  { unfold centre_pad. destruct (get_at (ij_pads s) i) as [[p|]|]; [|constructor..]. destruct (ps_raw p); [constructor|]. cbv zeta.
    set (s1 := s <| ij_pads := _ |>). assert (Forall is_emit (snd (buttons_changed (ps_id p) (ps_buttons p) 0 s1))) as Hb.
    { unfold buttons_changed. cbv zeta. destruct (_ =? 0); [constructor|]. destruct (ij_used _ =? 0); [constructor|apply flush_emits_only]. }
    destruct (buttons_changed _ _ _ _) as [s2 o2]. pose proof (flush_emits_only (Gamepad_ (ps_id p))
      (syn_report (foldl (fun s axis => push EV_ABS axis 0 s) (s2 <| ij_used := 0 |>) [axis_X; axis_Y; axis_RX; axis_RY; axis_Z; axis_RZ]))) as Hf.
    destruct (flush _ _) as [s3 o3]. by apply Forall_app. }
  destruct (centre_pad i s) as [s1 o1]. specialize (IH s1). destruct (each_pad centre_pad l s1) as [s2 o2]. by apply Forall_app.
Qed.

Lemma reported_emits id tr out : Forall is_emit out -> reported id (tr ++ out) = reported id tr.
Proof.
  intros H. rewrite reported_app. generalize (reported id tr) as r. induction H as [|c out Hc _ IH]; intros r; [done|]. destruct c; try done. apply IH.
Qed.

(** Every pad sent as its reports unplugged. *)
Definition no_raw (i : Z) (s : Injector) : Prop := forall p, get_at (ij_pads s) i = Some (Some p) -> ps_raw p = false.

Lemma Rest_unplug id s s' tr out id' :
  core s' = core (s <| ij_pads := match pad_at id s with Some (i, _) => put_at (ij_pads s) i None | None => ij_pads s end |>) ->
  Distinct (ij_pads s) -> Forall (fun c => c = SinkUnplug id) out -> Rest id' s tr -> Rest id' s' (tr ++ out).
Proof.
  intros Hc Hd Ho H. pose proof (core_fields _ _ Hc) as (_ & (Epads & _) & _). cbn in Epads.
  assert (forall p, pad_with id' (ij_pads s') = Some p -> pad_with id' (ij_pads s) = Some p) as Hw.
  { intros p. rewrite Epads. destruct (pad_at id s) as [[i q]|] eqn:E; [|done]. apply pad_at_elem in E as (Hi & Hg & Hq).
    destruct (put_none_ok _ _ _ Hd Hi Hg) as [_ ->]. by destruct (decide _). }
  intros p Hp Hraw. destruct (H p (Hw p Hp) Hraw) as [Hb Hcn]. split; [done|]. intros c. rewrite axis_at_app, Hcn. clear -Ho.
  induction Ho as [|x out -> _ IH]; [done|]. cbn [foldl call_axis]. by destruct (decide _).
Qed.

Lemma unplug_raw_ok i s tr :
  0 <= i -> Ready s -> PInv s tr ->
  exists s' out, unplug_raw i s = (s', out) /\ PStep s tr s' out /\ (forall id, Rest id s tr -> Rest id s' (tr ++ out)) /\
    no_raw i s' /\ (forall j, 0 <= j -> no_raw j s -> no_raw j s').
Proof.
  intros Hi0 Hr Hi. assert (no_raw i s -> exists s' out, (s, []) = (s', out) /\ PStep s tr s' out /\ (forall id, Rest id s tr -> Rest id s' (tr ++ out)) /\
    no_raw i s' /\ (forall j, 0 <= j -> no_raw j s -> no_raw j s')) as Hnone.
  { intros H. eexists _, _. split; [done|]. split; [by apply PStep_none|]. by rewrite app_nil_r. }
  unfold unplug_raw. destruct (get_at (ij_pads s) i) as [[p|]|] eqn:Hg; [|apply Hnone; unfold no_raw; by rewrite Hg..].
  destruct (ps_raw p) eqn:Hraw; [|apply Hnone; unfold no_raw; rewrite Hg; by intros q [= <-]].
  destruct (unplug_ok (ps_id p) s tr Hr Hi) as (s' & out & -> & Hs & Hc & Ho). eexists _, _. split; [done|]. split; [done|].
  split; [intros id; by apply (Rest_unplug (ps_id p) s s' tr out id Hc (proj1 Hi) Ho)|].
  pose proof (core_fields _ _ Hc) as (_ & (Epads & _) & _). cbn in Epads.
  assert (exists q, pad_at (ps_id p) s = Some (i, q)) as [q E].
  { pose proof (pad_with_at s i p (proj1 Hi) Hi0 Hg) as E. rewrite pad_at_with in E. destruct (pad_at (ps_id p) s) as [[k q]|] eqn:Ek; [|done].
    exists q. apply pad_at_elem in Ek as (Hk & Hgk & Hq). by assert (i = k) as -> by (by eapply (di_ids _ (proj1 Hi))). }
  rewrite E in Epads. pose proof (get_at_lt _ _ _ Hi0 Hg).
  assert (forall j, 0 <= j -> get_at (ij_pads s') j = if decide (j = i) then Some None else get_at (ij_pads s) j) as Hget
    by (intros j Hj; rewrite Epads; apply get_put_slot; lia).
  unfold no_raw. rewrite Hget by done. rewrite decide_True by done. split; [done|]. intros j Hj Hn r. rewrite Hget by done. destruct (decide (j = i)); [done|apply Hn].
Qed.

Lemma unplug_loop_ok l s tr :
  Forall (fun i => 0 <= i) l -> Ready s -> PInv s tr ->
  exists s' out, each_pad unplug_raw l s = (s', out) /\ PStep s tr s' out /\ (forall id, Rest id s tr -> Rest id s' (tr ++ out)) /\
    (forall j, 0 <= j -> no_raw j s \/ In j l -> no_raw j s').
Proof.
  revert s tr. induction l as [|i l IH]; intros s tr Hl Hr Hi; cbn [each_pad].
  { eexists _, _. split; [done|]. split; [by apply PStep_none|]. rewrite app_nil_r. split; [done|]. by intros j _ [?|[]]. }
  inversion Hl as [|x y Hi0 Hl']; subst x y. destruct (unplug_raw_ok i s tr Hi0 Hr Hi) as (s1 & o1 & -> & Hs1 & Hk1 & Hn1 & Hm1).
  destruct (IH s1 (tr ++ o1) Hl' (po_ready _ _ _ (pt_op _ _ _ _ Hs1)) (pt_inv _ _ _ _ Hs1)) as (s2 & o2 & -> & Hs2 & Hk2 & Hn2).
  eexists _, _. split; [done|]. rewrite app_assoc. split; [by eapply PStep_trans|]. split; [intros id H; by apply Hk2, Hk1|].
  intros j Hj [H|[<-|H]]; apply Hn2; auto.
Qed.

Lemma release_pads_ok s tr :
  Ready s -> PInv s tr ->
  exists s' out, release_pads s = (s', out) /\ PStep s tr s' out /\ (forall id, Rest id s' (tr ++ out)) /\
    forall id p, pad_with id (ij_pads s') = Some p -> ps_raw p = false.
Proof.
  intros Hr Hi. unfold release_pads. destruct (centre_pads_ok s tr Hr Hi) as (s1 & o1 & -> & Hs1 & Hrest1).
  destruct (unplug_loop_ok PAD_INDICES s1 (tr ++ o1)) as (s2 & o2 & -> & Hs2 & Hk2 & Hn2);
    [exact pad_indices_pos|apply (pt_op _ _ _ _ Hs1)|apply Hs1|].
  eexists _, _. split; [done|]. split; [by eapply PStep_trans|]. rewrite app_assoc. split; [intros id; apply Hk2, Hrest1|].
  intros id p Hp. apply pad_with_spec in Hp as (i & Hi0 & Hg & _); [|apply Hs2]. apply (Hn2 i Hi0); [right|done].
  apply pad_indices. rewrite <- (di_len _ (proj1 (pt_inv _ _ _ _ Hs2))). split; [done|]. by eapply get_at_lt.
Qed.
