(* ===== verification/InjectorSpec.v ===== *)
(** A guest's whole run: what is on its devices is what is tracked of it and allowed to
    it, and a release leaves nothing. *)

From S2P Require Import Prelude CoreError Slots Control Pad Gamepad Injector InjectorFacts InjectorPads.

(** ** The injector as a machine *)

Inductive Op :=
| OpControl (host : option Locks) (takes_reports : bool) (message : Control)
| OpPermissions (permissions : Permissions)
| OpOwner (owner : bool)
| OpFloor (held : bool)
| OpRelative (relative : bool)
| OpExtents (extents : Extents)
| OpAttention
| OpReleaseAll
| OpReleaseKeys
| OpReleaseButtons.

Definition op_step (op : Op) (s : Injector) : Injector * list SinkCall :=
  match op with
  | OpControl host takes message => on_control host takes message s
  | OpPermissions permissions => set_permissions permissions s
  | OpOwner owner => set_owner owner s
  | OpFloor held => set_floor held s
  | OpRelative relative => (set_relative relative s, [])
  | OpExtents extents => (set_extents extents s, [])
  | OpAttention => fst (secure_attention s)
  | OpReleaseAll => release_all s
  | OpReleaseKeys => release_keys s
  | OpReleaseButtons => release_buttons s
  end.

(** The messages that press a button a second time, on another device. *)
Definition stranding (op : Op) (s : Injector) : bool :=
  match op with
  | OpControl _ _ message =>
      (ct_opcode message =? op_MOUSE_BUTTON) && pointer_allowed s && strands (ct_a0 message) (negb (ct_a1 message =? 0)) s
  | _ => false
  end.

(** The runs of an injector that strand no button. *)
Inductive Reach (extents : Extents) : Injector -> list SinkCall -> Prop :=
| reach_new : Reach extents (Injector_new extents) []
| reach_step s tr op s' out :
    Reach extents s tr -> stranding op s = false -> op_step op s = (s', out) -> Reach extents s' (tr ++ out).

(** ** What is idle *)

Definition KIdle (s : Injector) : Prop := forall c, 0 <= c -> get_at (ij_keys s) c <> Some true.
Definition BIdle (s : Injector) : Prop := forall i, 0 <= i -> get_at (ij_buttons s) i <> Some true.
Definition PIdle (s : Injector) (tr : list SinkCall) : Prop :=
  (forall id, Rest id s tr) /\ forall id p, pad_with id (ij_pads s) = Some p -> ps_raw p = false.

(** What is down is tracked, and what is called is whole. *)
Record Base (s : Injector) (tr : list SinkCall) : Prop := mkBase {
  in_ready : Ready s;
  in_keys : KInv s tr;
  in_buttons : BInv s tr;
  in_pads : PInv s tr;
  in_ok : Forall call_ok tr;
}.

(** What holds after every operation: besides, what is not allowed is idle. *)
Record Inv (s : Injector) (tr : list SinkCall) : Prop := mkInv {
  in_base : Base s tr;
  in_kidle : pm_keyboard (ij_permissions s) = false -> KIdle s;
  in_bidle : pointer_allowed s = false -> BIdle s;
  in_pidle : pm_gamepad (ij_permissions s) = false -> PIdle s tr;
}.

(** An operation on one kind of device leaves the others' state and devices alone. *)
Lemma KInv_other P s s' tr out : KInv s tr -> ij_keys s' = ij_keys s -> Forall (call_to P) out -> ~ P Keyboard -> KInv s' (tr ++ out).
Proof. intros [Hl Hd] E Ho Hn. split; rewrite E; [done|]. intros c Hc. rewrite down_app, (foldl_down_other _ _ _ _ _ Ho Hn). by apply Hd. Qed.

Lemma BInv_other P s s' tr out :
  BInv s tr -> ij_buttons s' = ij_buttons s -> ij_pressed_on s' = ij_pressed_on s -> Forall (call_to P) out -> (forall d, pointing d -> ~ P d) -> BInv s' (tr ++ out).
Proof.
  intros [Hb Hp Hpt Hd] Eb Ep Ho Hn. split; rewrite ?Eb, ?Ep; [done..|]. intros d c Hpd H. rewrite down_app, (foldl_down_other _ _ _ _ _ Ho (Hn d Hpd)) in H.
  destruct (Hd d c Hpd H) as (i & Hi). exists i. by rewrite Eb, Ep.
Qed.

Lemma PadIs_outside P o id tr out : Forall (call_to P) out -> ~ P (Gamepad_ id) -> PadIs o id tr -> PadIs o id (tr ++ out).
Proof.
  intros Ho Hn [Hd Hx Hy Hr Hrep]. split; intros;
    rewrite ?down_app, ?axis_at_app, ?reported_app, ?(foldl_down_other _ _ _ _ _ Ho Hn), ?(foldl_axis_other _ _ _ _ _ Ho Hn), ?(foldl_report_other _ _ _ _ Ho Hn); auto.
Qed.

Lemma PInv_other P s s' tr out : PInv s tr -> ij_pads s' = ij_pads s -> Forall (call_to P) out -> (forall id, ~ P (Gamepad_ id)) -> PInv s' (tr ++ out).
Proof. intros [Hd Hp] E Ho Hn. split; rewrite E; [done|]. intros id. by eapply PadIs_outside. Qed.

Lemma PIdle_other P s s' tr out : PIdle s tr -> ij_pads s' = ij_pads s -> Forall (call_to P) out -> (forall id, ~ P (Gamepad_ id)) -> PIdle s' (tr ++ out).
Proof.
  intros [Hr Hn] E Ho Hp. split; [|by rewrite E]. intros id p. rewrite E. intros Ep Hraw. destruct (Hr id p Ep Hraw) as [Hb Hc]. split; [done|].
  intros c. rewrite axis_at_app, (foldl_axis_other _ _ _ _ _ Ho (Hp id)). apply Hc.
Qed.

Lemma pointing_not_keyboard d : pointing d -> ~ Keyboard = d.
Proof. by intros [->| ->]. Qed.

Lemma Base_K s tr s' out : Base s tr -> KOp s s' out -> KInv s' (tr ++ out) -> Base s' (tr ++ out).
Proof.
  intros [] [] Hk. split; [done|done| | |by apply Forall_app].
  - eapply BInv_other; [done..|]. apply pointing_not_keyboard.
  - by eapply PInv_other.
Qed.

Lemma Base_B s tr s' out : Base s tr -> BOp s s' out -> BInv s' (tr ++ out) -> Base s' (tr ++ out).
Proof.
  intros [] [] Hb. split; [done| |done| |by apply Forall_app].
  - eapply KInv_other; [done..|]. by intros [|].
  - eapply PInv_other; [done..|]. by intros id [|].
Qed.

Lemma Base_P s tr s' out : Base s tr -> PStep s tr s' out -> Base s' (tr ++ out).
Proof.
  intros [] [[] Hp _]. split; [done| | |done|by apply Forall_app].
  - eapply KInv_other; [done..|]. by intros [id E].
  - eapply BInv_other; [done..|]. intros d [->| ->] [id E]; done.
Qed.

Lemma PIdle_K s s' tr out : KOp s s' out -> PIdle s tr -> PIdle s' (tr ++ out).
Proof. intros [] H. by eapply PIdle_other. Qed.

Lemma PIdle_B s s' tr out : BOp s s' out -> PIdle s tr -> PIdle s' (tr ++ out).
Proof. intros [] H. eapply PIdle_other; [done..|]. by intros id [|]. Qed.

Lemma Inv_K s tr s' out :
  Inv s tr -> KOp s s' out -> KInv s' (tr ++ out) -> (pm_keyboard (ij_permissions s) = false -> KIdle s') -> Inv s' (tr ++ out).
Proof.
  intros [Hb Hk Hbi Hp] Ho Hk' Hi. split; [by eapply Base_K|by rewrite (ko_permissions _ _ _ Ho)| |].
  - unfold pointer_allowed, BIdle. by rewrite (ko_permissions _ _ _ Ho), (ko_floor _ _ _ Ho), (ko_buttons _ _ _ Ho).
  - rewrite (ko_permissions _ _ _ Ho). intros H. by eapply PIdle_K, Hp.
Qed.

Lemma Inv_B s tr s' out :
  Inv s tr -> BOp s s' out -> BInv s' (tr ++ out) -> (pointer_allowed s = false -> BIdle s') -> Inv s' (tr ++ out).
Proof.
  intros [Hb Hk Hbi Hp] Ho Hb' Hi. split; [by eapply Base_B| | |].
  - unfold KIdle. by rewrite (bo_permissions _ _ _ Ho), (bo_keys _ _ _ Ho).
  - unfold pointer_allowed. by rewrite (bo_permissions _ _ _ Ho), (bo_floor _ _ _ Ho).
  - rewrite (bo_permissions _ _ _ Ho). intros H. by eapply PIdle_B, Hp.
Qed.

Lemma Inv_P s tr s' out :
  Inv s tr -> PStep s tr s' out -> (pm_gamepad (ij_permissions s) = false -> PIdle s' (tr ++ out)) -> Inv s' (tr ++ out).
Proof.
  intros [Hb Hk Hbi Hp] Hs Hi. pose proof (pt_op _ _ _ _ Hs) as Ho. split; [by eapply Base_P| | |by rewrite (po_permissions _ _ _ Ho)].
  - unfold KIdle. by rewrite (po_permissions _ _ _ Ho), (po_keys _ _ _ Ho).
  - unfold pointer_allowed, BIdle. by rewrite (po_permissions _ _ _ Ho), (po_floor _ _ _ Ho), (po_buttons _ _ _ Ho).
Qed.

(** The fields the invariant does not read. *)
Lemma Base_fields s s' tr :
  Base s tr -> ij_scratch s' = ij_scratch s -> ij_keys s' = ij_keys s -> ij_buttons s' = ij_buttons s -> ij_pressed_on s' = ij_pressed_on s ->
  ij_pads s' = ij_pads s -> Base s' tr.
Proof.
  intros [Hr Hk Hb Hp Ho] Es Ek Eb Epr Ep. split; [by unfold Ready; rewrite Es|by unfold KInv; rewrite Ek| |by unfold PInv; rewrite Ep|done].
  destruct Hb as [H1 H2 H3 H4]. split; unfold HeldOn; rewrite ?Eb, ?Epr; done.
Qed.

Lemma Inv_fields s s' tr :
  Inv s tr -> ij_scratch s' = ij_scratch s -> ij_keys s' = ij_keys s -> ij_buttons s' = ij_buttons s -> ij_pressed_on s' = ij_pressed_on s ->
  ij_pads s' = ij_pads s -> ij_permissions s' = ij_permissions s -> ij_floor s' = ij_floor s -> Inv s' tr.
Proof.
  intros [Hb Hk Hbi Hp] Es Ek Eb Epr Ep Epm Ef. split; [by eapply Base_fields|..];
    unfold KIdle, BIdle, PIdle, Rest, pointer_allowed; by rewrite ?Epm, ?Ef, ?Ek, ?Eb, ?Ep.
Qed.

(** Nor the contents of the scratch. *)
Lemma Inv_ready s s' tr :
  Inv s tr -> Ready s' -> ij_keys s' = ij_keys s -> ij_buttons s' = ij_buttons s -> ij_pressed_on s' = ij_pressed_on s ->
  ij_pads s' = ij_pads s -> ij_permissions s' = ij_permissions s -> ij_floor s' = ij_floor s -> Inv s' tr.
Proof.
  intros Hi Hr Ek Eb Epr Ep Epm Ef. set (s0 := s <| ij_scratch := ij_scratch s' |>). apply (Inv_fields s0); try done.
  destruct Hi as [[_ Hk Hb Hp Ho] Hki Hbi Hpi]. split; [|done..]. split; [exact Hr|done| |done..]. by destruct Hb.
Qed.

Lemma Inv_new extents : Inv (Injector_new extents) [].
Proof.
  split; [|done..]. split; [done| | | |constructor].
  - by split.
  - split; [done|done|repeat constructor; by right|done].
  - split; [split; [done|]|].
    + intros i j p q Hi Hj H. exfalso. revert H. unfold get_at. cbn. by destruct (Z.to_nat i) as [|[|[|[|]]]].
    + intros id. change (ij_pads (Injector_new extents)) with (repeat (@None PadSlot) 4). split; [|done..]. intros c. unfold pad_down.
      by destruct (arm_of c key_arms); rewrite ?Z.land_0_l.
Qed.

(** ** Every operation keeps it *)

Lemma release_keys_inv s tr : Inv s tr -> exists s' out, release_keys s = (s', out) /\ Inv s' (tr ++ out) /\ KOp s s' out /\ KIdle s'.
Proof.
  intros Hi. destruct (release_keys_ok s tr (in_ready _ _ (in_base _ _ Hi)) (in_keys _ _ (in_base _ _ Hi))) as (s' & out & E & Ho & Hk & Hn).
  exists s', out. split; [done|]. split; [|done]. by apply (Inv_K s).
Qed.

Lemma release_buttons_inv s tr : Inv s tr -> exists s' out, release_buttons s = (s', out) /\ Inv s' (tr ++ out) /\ BOp s s' out /\ BIdle s'.
Proof.
  intros Hi. destruct (release_buttons_ok s tr (in_ready _ _ (in_base _ _ Hi)) (in_buttons _ _ (in_base _ _ Hi))) as (s' & out & E & Ho & Hk & Hn).
  exists s', out. split; [done|]. split; [|done]. by apply (Inv_B s).
Qed.

(** Centring keeps idle pads idle: it adds none. *)
Lemma PIdle_after s s' tr tr' :
  Distinct (ij_pads s) -> Distinct (ij_pads s') -> (forall j, 0 <= j -> shape (ij_pads s') j = shape (ij_pads s) j) ->
  (forall id, Rest id s' tr') -> PIdle s tr -> PIdle s' tr'.
Proof.
  intros Hd Hd' Hs Hr [_ Hn]. split; [done|]. intros id p Hp. apply pad_with_spec in Hp as (i & Hi & Hg & Hid); [|done].
  apply get_at_shape in Hg. rewrite Hs in Hg by done. apply shape_get_at in Hg as (q & Hg & Hq & <-).
  apply (Hn id). apply pad_with_spec; [done|]. exists i. split; [done|]. split; [done|congruence].
Qed.

Lemma centre_pads_inv s tr :
  Inv s tr -> exists s' out, centre_pads s = (s', out) /\ Inv s' (tr ++ out) /\ POp s s' out /\ forall id, Rest id s' (tr ++ out).
Proof.
  intros Hi. pose proof (in_ready _ _ (in_base _ _ Hi)) as Hr. pose proof (in_pads _ _ (in_base _ _ Hi)) as Hp.
  destruct (centre_loop_ok PAD_INDICES s tr pad_indices_pos Hr Hp) as (s' & out & E & Hs & Hsh & _).
  destruct (centre_pads_ok s tr Hr Hp) as (s'' & out' & E' & _ & Hrest). unfold centre_pads in *. rewrite E in E'. injection E' as <- <-.
  exists s', out. split; [done|]. split; [|by split; [apply Hs|]]. apply (Inv_P s); [done|done|]. intros H.
  eapply (PIdle_after s); [apply Hp|apply (pt_inv _ _ _ _ Hs)|done|done|by apply Hi].
Qed.

Lemma release_all_inv s tr :
  Inv s tr -> exists s' out, release_all s = (s', out) /\ Inv s' (tr ++ out) /\ KIdle s' /\ BIdle s' /\ (forall id, Rest id s' (tr ++ out)) /\
    forall id, reported id (tr ++ out) = reported id tr.
Proof.
  intros Hi. unfold release_all. destruct (release_keys_inv s tr Hi) as (s1 & o1 & -> & Hi1 & Ho1 & Hk1).
  destruct (release_buttons_inv s1 _ Hi1) as (s2 & o2 & -> & Hi2 & Ho2 & Hb2).
  pose proof (centre_pads_emit s2) as He. destruct (centre_pads_inv s2 _ Hi2) as (s3 & o3 & E3 & Hi3 & Ho3 & Hr3). rewrite E3 in *. eexists _, _. split; [done|].
  rewrite !app_assoc. split; [done|]. split; [|split; [|split; [done|]]].
  - unfold KIdle. by rewrite (po_keys _ _ _ Ho3), (bo_keys _ _ _ Ho2).
  - unfold BIdle. by rewrite (po_buttons _ _ _ Ho3).
  - intros id. rewrite reported_emits by done. rewrite !reported_app.
    rewrite (foldl_report_other _ _ _ _ (bo_to _ _ _ Ho2)), (foldl_report_other _ _ _ _ (ko_to _ _ _ Ho1)); [done|done|by intros [|]].
Qed.

Lemma set_floor_inv held s tr : Inv s tr -> exists s' out, set_floor held s = (s', out) /\ Inv s' (tr ++ out).
Proof.
  intros Hi. unfold set_floor. destruct (ij_floor s && negb held) eqn:E.
  - destruct (release_buttons_inv s tr Hi) as (s1 & o1 & -> & Hi1 & Ho1 & Hb1). eexists _, _. split; [done|].
    destruct Hi1 as [Hb Hk _ Hp]. split; [by eapply Base_fields|done|by intros _|done].
  - exists (s <| ij_floor := held |>), []. split; [done|]. rewrite app_nil_r. destruct Hi as [Hb Hk Hbi Hp]. split; [by eapply Base_fields|done| |done].
    unfold pointer_allowed in *. change (BIdle (s <| ij_floor := held |>)) with (BIdle s). cbn. intros H. apply Hbi.
    destruct (pm_pointer (ij_permissions s)), (ij_floor s), held; done.
Qed.

Lemma release_pads_base s tr :
  Base s tr -> exists s' out, release_pads s = (s', out) /\ Base s' (tr ++ out) /\ POp s s' out /\ PIdle s' (tr ++ out).
Proof.
  intros Hb. destruct (release_pads_ok s tr (in_ready _ _ Hb) (in_pads _ _ Hb)) as (s' & out & E & Hs & Hr & Hn).
  exists s', out. split; [done|]. split; [by apply (Base_P s)|]. split; [apply Hs|done].
Qed.

(** A release made only when the permission goes. *)
Lemma withdraw_keys (b : bool) s tr :
  Base s tr -> exists s' out, (if b then release_keys s else (s, [])) = (s', out) /\ Base s' (tr ++ out) /\ KOp s s' out /\
    (b = true \/ KIdle s -> KIdle s').
Proof.
  intros Hb. destruct b.
  - destruct (release_keys_ok s tr (in_ready _ _ Hb) (in_keys _ _ Hb)) as (s' & out & E & Ho & Hk & Hn). exists s', out. split; [done|].
    split; [by apply (Base_K s)|]. split; [done|by intros _].
  - eexists _, _. split; [done|]. rewrite app_nil_r. split; [done|]. split; [apply KOp_same, Hb|by intros [|]].
Qed.

Lemma withdraw_buttons (b : bool) s tr :
  Base s tr -> exists s' out, (if b then release_buttons s else (s, [])) = (s', out) /\ Base s' (tr ++ out) /\ BOp s s' out /\
    (b = true \/ BIdle s -> BIdle s').
Proof.
  intros Hb. destruct b.
  - destruct (release_buttons_ok s tr (in_ready _ _ Hb) (in_buttons _ _ Hb)) as (s' & out & E & Ho & Hk & Hn). exists s', out. split; [done|].
    split; [by apply (Base_B s)|]. split; [done|by intros _].
  - eexists _, _. split; [done|]. rewrite app_nil_r. split; [done|]. split; [apply BOp_same, Hb|by intros [|]].
Qed.

Lemma withdraw_pads (b : bool) s tr :
  Base s tr -> exists s' out, (if b then release_pads s else (s, [])) = (s', out) /\ Base s' (tr ++ out) /\ POp s s' out /\
    (b = true \/ PIdle s tr -> PIdle s' (tr ++ out)).
Proof.
  intros Hb. destruct b.
  - destruct (release_pads_base s tr Hb) as (s' & out & E & Hb' & Ho & Hp). exists s', out. split; [done|]. split; [done|]. split; [done|by intros _].
  - eexists _, _. split; [done|]. rewrite app_nil_r. split; [done|]. split; [apply POp_same, Hb|by intros [|]].
Qed.

Lemma set_permissions_inv p s tr : Inv s tr -> exists s' out, set_permissions p s = (s', out) /\ Inv s' (tr ++ out) /\ ij_permissions s' = p /\ ij_floor s' = ij_floor s.
Proof.
  intros [Hb Hk Hbi Hp]. unfold set_permissions. cbv zeta. set (s0 := s <| ij_permissions := p |>).
  assert (Base s0 tr) as Hb0 by (by eapply Base_fields).
  destruct (withdraw_keys (pm_keyboard (ij_permissions s) && negb (pm_keyboard p)) s0 tr Hb0) as (s1 & o1 & -> & Hb1 & Ho1 & Hk1).
  destruct (withdraw_buttons (pm_pointer (ij_permissions s) && negb (pm_pointer p)) s1 _ Hb1) as (s2 & o2 & -> & Hb2 & Ho2 & Hbi2).
  destruct (withdraw_pads (pm_gamepad (ij_permissions s) && negb (pm_gamepad p)) s2 _ Hb2) as (s3 & o3 & -> & Hb3 & Ho3 & Hp3).
  eexists _, _. split; [done|]. rewrite !app_assoc.
  assert (ij_permissions s3 = p) as Epm by (by rewrite (po_permissions _ _ _ Ho3), (bo_permissions _ _ _ Ho2), (ko_permissions _ _ _ Ho1)).
  assert (ij_floor s3 = ij_floor s) as Efl by (by rewrite (po_floor _ _ _ Ho3), (bo_floor _ _ _ Ho2), (ko_floor _ _ _ Ho1)).
  split; [|done]. split; [done|..]; unfold pointer_allowed; rewrite Epm, ?Efl.
  - intros Hn. unfold KIdle. rewrite (po_keys _ _ _ Ho3), (bo_keys _ _ _ Ho2). apply Hk1. rewrite Hn.
    destruct (pm_keyboard (ij_permissions s)); [by left|right; by apply Hk].
  - intros Hn. unfold BIdle. rewrite (po_buttons _ _ _ Ho3). apply Hbi2. unfold pointer_allowed in Hbi.
    destruct (pm_pointer (ij_permissions s)); cbn [andb] in *; [|right; unfold BIdle; rewrite (ko_buttons _ _ _ Ho1); by apply Hbi].
    destruct (pm_pointer p); [right; unfold BIdle; rewrite (ko_buttons _ _ _ Ho1); by apply Hbi|by left].
  - intros Hn. apply Hp3. rewrite Hn. destruct (pm_gamepad (ij_permissions s)); [by left|right]. eapply PIdle_B, PIdle_K; [done..|]. by apply Hp.
Qed.

Lemma Inv_same s tr : Inv s tr -> exists s' out, (s, []) = (s', out) /\ Inv s' (tr ++ out).
Proof. intros Hi. exists s, []. by rewrite app_nil_r. Qed.

(** An operation on pads while they are allowed. *)
Lemma allowed_pads s tr (r : Injector * list SinkCall) :
  Inv s tr -> pm_gamepad (ij_permissions s) = true -> (exists s' out, r = (s', out) /\ PStep s tr s' out) ->
  exists s' out, r = (s', out) /\ Inv s' (tr ++ out).
Proof. intros Hi Hp (s' & out & E & Hs). exists s', out. split; [done|]. apply (Inv_P s); [done..|]. by rewrite Hp. Qed.

Lemma allowed_pointer s tr (r : Injector * list SinkCall) :
  Inv s tr -> pointer_allowed s = true -> (exists s' out, r = (s', out) /\ BOp s s' out /\ BInv s' (tr ++ out)) ->
  exists s' out, r = (s', out) /\ Inv s' (tr ++ out).
Proof. intros Hi Hp (s' & out & E & Ho & Hb). exists s', out. split; [done|]. apply (Inv_B s); [done..|]. by rewrite Hp. Qed.

Lemma unplug_inv id s tr : Inv s tr -> exists s' out, unplug id s = (s', out) /\ Inv s' (tr ++ out).
Proof.
  intros Hi. pose proof (in_pads _ _ (in_base _ _ Hi)) as Hp. destruct (unplug_ok id s tr (in_ready _ _ (in_base _ _ Hi)) Hp) as (s' & out & E & Hs & Hc & Ho).
  exists s', out. split; [done|]. apply (Inv_P s); [done|done|]. intros Hn. destruct (in_pidle _ _ Hi Hn) as [Hr Hraw].
  split; [intros id'; by apply (Rest_unplug id s s' tr out id' Hc (proj1 Hp) Ho)|]. intros id' p Hw. apply (Hraw id').
  pose proof (core_fields _ _ Hc) as (_ & (Epads & _) & _). cbn in Epads. rewrite Epads in Hw. destruct (pad_at id s) as [[i q]|] eqn:Eq; [|done].
  apply pad_at_elem in Eq as (Hi0 & Hg & _). destruct (put_none_ok _ _ _ (proj1 Hp) Hi0 Hg) as [_ Hput]. rewrite Hput in Hw. by destruct (decide _).
Qed.

(** The axis arm of [on_control]. *)
Lemma axis_arm_ok id which value s tr :
  Ready s -> PInv s tr ->
  exists s' out, match standard_pad id s with
    | (s, None) => (s, [])
    | (s, Some index) => match get_at (ij_pads s) index with Some (Some p) => pad_axis (ps_id p) which value s | _ => (s, []) end
    end = (s', out) /\ PStep s tr s' out.
Proof.
  intros Hr Hi. destruct (standard_pad id s) as [s1 r] eqn:Epad. destruct (standard_pad_ok _ _ _ _ _ Hr Hi Epad) as [Hs1 Hp].
  pose proof (pt_inv _ _ _ _ Hs1) as Hi1. rewrite app_nil_r in Hi1. destruct r as [i|]; [|by eexists _, _].
  destruct Hp as (Hi0 & p & Hg & _ & Hraw). rewrite Hg.
  destruct (pad_axis_ok which value s1 tr i p (po_ready _ _ _ (pt_op _ _ _ _ Hs1)) Hi1 Hi0 Hg Hraw) as (s2 & o2 & -> & Hs2).
  eexists _, _. split; [done|]. change o2 with ([] ++ o2). eapply PStep_trans; [exact Hs1|by rewrite app_nil_r].
Qed.

Lemma on_control_inv host takes message s tr :
  Inv s tr -> stranding (OpControl host takes message) s = false ->
  exists s' out, on_control host takes message s = (s', out) /\ Inv s' (tr ++ out).
Proof.
  intros Hi0 Hst. unfold on_control. cbv zeta. set (s1 := s <| ij_tally := _ |>).
  assert (Inv s1 tr) as Hi by (by eapply Inv_fields). pose proof (in_ready _ _ (in_base _ _ Hi)) as Hr.
  pose proof (in_keys _ _ (in_base _ _ Hi)) as Hk. pose proof (in_buttons _ _ (in_base _ _ Hi)) as Hb. pose proof (in_pads _ _ (in_base _ _ Hi)) as Hp.
  change (pointer_allowed s) with (pointer_allowed s1) in Hst. change (strands (ct_a0 message) (negb (ct_a1 message =? 0)) s) with
    (strands (ct_a0 message) (negb (ct_a1 message =? 0)) s1) in Hst.
  destruct ((ct_opcode message =? op_KEYBOARD) && pm_keyboard (ij_permissions s1)) eqn:E1.
  { apply andb_true_iff in E1 as [_ E1]. destruct (keyboard_ok (ct_a0 message) (ct_a1 message) (negb (ct_a2 message =? 0)) host s1 tr Hr Hk) as (s' & out & E & Ho & Hk').
    exists s', out. split; [done|]. apply (Inv_K s1); [done..|]. by rewrite E1. }
  destruct ((ct_opcode message =? op_MOUSE_BUTTON) && pointer_allowed s1) eqn:E2.
  { pose proof E2 as [_ Ea]%andb_true_iff. apply (allowed_pointer s1); [done..|]. apply button_ok; [|done..].
    unfold stranding in Hst. change (pointer_allowed s) with (pointer_allowed s1) in Hst. rewrite E2 in Hst. exact Hst. }
  destruct ((ct_opcode message =? op_MOUSE_WHEEL) && pointer_allowed s1) eqn:E3.
  { apply andb_true_iff in E3 as [_ E3]. apply (allowed_pointer s1); [done..|]. by apply wheel_ok. }
  destruct ((ct_opcode message =? op_MOUSE_MOTION) && pointer_allowed s1) eqn:E4.
  { apply andb_true_iff in E4 as [_ E4]. apply (allowed_pointer s1); [done..|]. by apply motion_ok. }
  destruct ((ct_opcode message =? op_MOUSE_MOTION_STREAM) && pointer_allowed s1) eqn:E5.
  { apply andb_true_iff in E5 as [_ E5]. apply (allowed_pointer s1); [done..|]. by apply motion_ok. }
  destruct ((ct_opcode message =? op_PAD_REPORT) && pm_gamepad (ij_permissions s1)) eqn:E6.
  { apply andb_true_iff in E6 as [_ E6]. apply (allowed_pads s1); [done..|]. by apply pad_report_ok. }
  destruct ((ct_opcode message =? op_GAMEPAD_BUTTON) && pm_gamepad (ij_permissions s1)) eqn:E7.
  { apply andb_true_iff in E7 as [_ E7]. apply (allowed_pads s1); [done..|]. by apply pad_button_ok. }
  destruct ((ct_opcode message =? op_GAMEPAD_AXIS) && pm_gamepad (ij_permissions s1)) eqn:E8.
  { apply andb_true_iff in E8 as [_ E8]. apply (allowed_pads s1); [done..|]. by apply axis_arm_ok. }
  destruct (ct_opcode message =? op_GAMEPAD_UNPLUG); [by apply unplug_inv|].
  destruct ((ct_opcode message =? op_GAMEPAD_STATE) && pm_gamepad (ij_permissions s1)) eqn:E9.
  { apply andb_true_iff in E9 as [_ E9]. apply (allowed_pads s1); [done..|]. by apply whole_pad_ok. }
  destruct (ct_opcode message =? op_RELEASE); [|by apply Inv_same].
  destruct (release_all_inv s1 tr Hi) as (s' & out & E & Hi' & _). by exists s', out.
Qed.

Lemma step_inv op s tr : Inv s tr -> stranding op s = false -> exists s' out, op_step op s = (s', out) /\ Inv s' (tr ++ out).
Proof.
  intros Hi Hst. destruct op; cbn [op_step].
  - by apply on_control_inv.
  - destruct (set_permissions_inv permissions s tr Hi) as (s' & out & E & Hi' & _). by exists s', out.
  - eexists _, _. split; [done|]. apply (Inv_fields (s <| ij_owner := owner |>)); [|done..].
    assert (Inv (s <| ij_owner := owner |>) tr) as [[] Hk Hb Hp] by (by eapply Inv_fields).
    split; [|done..|].
    + split; [done| | | |by apply Forall_app; split; [|repeat constructor]].
      * by eapply (KInv_other (fun _ => False)); [|done|repeat constructor|tauto].
      * by eapply (BInv_other (fun _ => False)); [|done|done|repeat constructor|tauto].
      * by eapply (PInv_other (fun _ => False)); [|done|repeat constructor|tauto].
    + intros H. by eapply (PIdle_other (fun _ => False)); [apply Hp|done|repeat constructor|tauto].
  - by apply set_floor_inv.
  - eexists _, _. split; [done|]. rewrite app_nil_r. apply (Inv_fields s); [done|by destruct relative..].
  - eexists _, _. split; [done|]. rewrite app_nil_r. by apply (Inv_fields s).
  - destruct (secure_attention_ok s tr (in_ready _ _ (in_base _ _ Hi)) (in_keys _ _ (in_base _ _ Hi))) as (s' & out & typed & E & Ho & Hk).
    exists s', out. rewrite E. split; [done|]. apply (Inv_K s); [done..|]. intros Hn. unfold secure_attention in E. rewrite Hn in E. injection E as <- <- <-.
    by apply Hi.
  - destruct (release_all_inv s tr Hi) as (s' & out & E & Hi' & _). by exists s', out.
  - destruct (release_keys_inv s tr Hi) as (s' & out & E & Hi' & _). by exists s', out.
  - destruct (release_buttons_inv s tr Hi) as (s' & out & E & Hi' & _). by exists s', out.
Qed.

Lemma reach_inv extents s tr : Reach extents s tr -> Inv s tr.
Proof.
  induction 1 as [|s tr op s' out _ IH Hst E]; [apply Inv_new|]. destruct (step_inv op s tr IH Hst) as (s'' & out' & E' & Hi).
  rewrite E in E'. by injection E' as <- <-.
Qed.

(** ** The Guide button *)













(** A pad at rest has nothing down and nothing away from its centre. *)
Lemma pad_at_rest s tr id c :
  PInv s tr -> Rest id s tr -> down (Gamepad_ id) c tr = false /\ axis_at (Gamepad_ id) c tr = 0.
Proof.
  intros [_ Hp] Hr. destruct (Hp id) as [Hd _ _ Hax]. unfold Rest, std_buttons, standard in *.
  assert (pad_down 0 c = false) as H0 by (unfold pad_down; by destruct (arm_of c key_arms); rewrite ?Z.land_0_l).
  destruct (pad_with id (ij_pads s)) as [p|]; [|split; [by rewrite Hd|by apply Hax; left]]. destruct (ps_raw p) eqn:Hraw; [split; [by rewrite Hd|by apply Hax; left]|].
  destruct (Hr p eq_refl Hraw) as [Hb Hc]. split; [|apply Hc]. by rewrite Hd, Hb.
Qed.

(** ** Runs *)

(** A run of operations, which stops at one that strands a button. *)
Fixpoint run (ops : list Op) (s : Injector) (tr : list SinkCall) : option (Injector * list SinkCall) :=
  match ops with
  | [] => Some (s, tr)
  | op :: ops => if stranding op s then None else let '(s, out) := op_step op s in run ops s (tr ++ out)
  end.

Lemma run_reach extents ops s tr s' tr' : Reach extents s tr -> run ops s tr = Some (s', tr') -> Reach extents s' tr'.
Proof.
  revert s tr. induction ops as [|op ops IH]; intros s tr Hr; cbn [run]; [by intros [= <- <-]|].
  destruct (stranding op s) eqn:Hst; [done|]. destruct (op_step op s) as [s1 o1] eqn:E. apply IH. by eapply reach_step.
Qed.

(** A control message of three arguments. *)
Definition msg (opcode a0 a1 a2 : Z) : Op := OpControl None false (mkControl a0 a1 a2 opcode []).

(** Two keys, two buttons on two devices, and a pad with a button, a direction and a
    trigger. *)
Definition busy : list Op :=
  [ OpOwner true; msg op_KEYBOARD 4 0 1; msg op_KEYBOARD 225 0x1000 1; msg op_MOUSE_MOTION 0 960 540;
    msg op_MOUSE_BUTTON 1 1 0; msg op_MOUSE_MOTION 1 5 7;
    msg op_MOUSE_BUTTON 3 1 0; msg op_MOUSE_WHEEL 0 120 0; msg op_GAMEPAD_BUTTON 0 1 9; msg op_GAMEPAD_BUTTON 11 1 9;
    msg op_GAMEPAD_BUTTON 5 1 9; msg op_GAMEPAD_AXIS 5 32767 9 ].
Definition screen : Extents := Extents_alone 1920 1080.

Definition busy_view (r : option (Injector * list SinkCall)) : option (list bool * list Z) :=
  '(s, tr) ← r;
  Some ([down Keyboard 30 tr; down Keyboard 42 tr; down Pointer BTN_LEFT tr; down PointerAbsolute BTN_LEFT tr; down Pointer BTN_RIGHT tr;
         down (Gamepad_ 9) key_SOUTH tr; ij_owner s],
        [axis_at (Gamepad_ 9) axis_HAT0Y tr; axis_at (Gamepad_ 9) axis_RZ tr]).

Example busy_run : busy_view (run busy (Injector_new screen) []) = Some ([true; true; false; true; true; true; true], [-1; 255]).
Proof. vm_compute. reflexivity. Qed.

(** A pad sent as its own reports, and then the pad permission withdrawn. *)
Definition plugged : list Op :=
  [ OpControl None true (mkControl INPUT_LEN 7 0x0CE6 op_PAD_REPORT (USB_INPUT_ID :: repeat 0 (Z.to_nat (INPUT_LEN - 1)))); OpPermissions (mkPermissions true true false) ].
Definition plugged_view (r : option (Injector * list SinkCall)) : option (bool * bool) :=
  '(s, tr) ← r; Some (is_some (reported 7 (take 1 tr)), pm_gamepad (ij_permissions s)).
Example plugged_run : plugged_view (run plugged (Injector_new screen) []) = Some (true, false).
Proof. vm_compute. reflexivity. Qed.

(** ** The properties *)

(** C6: Nothing a guest has stays behind. In any run that strands no button, that is, in
    which no button is pressed again while it is held on the other pointer: what the guest
    may not use now is up, whatever was withdrawn and in what order, and without the pad
    permission no pad sent as its own reports is left with a report; a report is only
    ever standing on a pad that is tracked as sent so; letting everything go leaves no key
    or button of any device down and every pad sent as states centred, and leaves a pad
    sent as its own reports what its last report says; and what is handed to the devices
    is whole batches of events that fit the scratch. *)
Theorem nothing_held extents s tr :
  Reach extents s tr ->
  (pm_keyboard (ij_permissions s) = false -> forall c, 0 <= c -> down Keyboard c tr = false) /\
  (pointer_allowed s = false -> forall d c, pointing d -> down d c tr = false) /\
  (pm_gamepad (ij_permissions s) = false ->
    forall id, reported id tr = None /\ forall c, down (Gamepad_ id) c tr = false /\ axis_at (Gamepad_ id) c tr = 0) /\
  (forall id, reported id tr <> None -> exists p, pad_with id (ij_pads s) = Some p /\ ps_raw p = true) /\
  (exists s' out, release_all s = (s', out) /\ (forall id, reported id (tr ++ out) = reported id tr) /\
    forall c, 0 <= c -> (forall d, down d c (tr ++ out) = false) /\ forall id, axis_at (Gamepad_ id) c (tr ++ out) = 0) /\
  Forall call_ok tr.
Proof.
  intros Hi%reach_inv. assert (forall s tr, Base s tr -> KIdle s -> forall c, 0 <= c -> down Keyboard c tr = false) as HK.
  { intros s0 tr0 Hb Hk c Hc. apply not_true_is_false. intros H. by apply (Hk c Hc), Hb. }
  assert (forall s tr, Base s tr -> BIdle s -> forall d c, pointing d -> down d c tr = false) as HB.
  { intros s0 tr0 Hb Hk d c Hd. apply not_true_is_false. intros H. destruct (bi_down _ _ (in_buttons _ _ Hb) d c Hd H) as (i & Hi0 & _ & Hp & _). by apply (Hk i). }
  assert (forall s tr, Base s tr -> (forall id, Rest id s tr) -> forall id c, down (Gamepad_ id) c tr = false /\ axis_at (Gamepad_ id) c tr = 0) as HP.
  { intros s0 tr0 Hb Hr id c. apply (pad_at_rest s0); [apply Hb|apply Hr]. }
  destruct Hi as [Hb Hk Hbi Hp]. split; [intros H; apply HK with s; auto|]. split; [intros H; apply HB with s; auto|].
  pose proof (in_pads _ _ Hb) as [_ Hpads]. split; [|split; [|split; [|apply Hb]]].
  { intros H id. destruct (Hp H) as [Hrest Hraw]. split; [|intros c; by apply HP with s]. apply (pi_report _ _ _ (Hpads id)).
    destruct (pad_with id (ij_pads s)) as [p|] eqn:E; [by apply (Hraw id)|done]. }
  { intros id H. pose proof (pi_report _ _ _ (Hpads id)) as Hrep. destruct (pad_with id (ij_pads s)) as [p|]; [|by destruct H; apply Hrep].
    exists p. split; [done|]. cbn in Hrep. by destruct (ps_raw p); [|destruct H; apply Hrep]. }
  destruct (release_all_inv s tr) as (s' & out & E & [Hb' _ _ _] & Hk' & Hbi' & Hr' & Hrep); [done|]. exists s', out. split; [done|]. split; [done|]. intros c Hc. split.
  - intros [| | |id]; [by apply HK with s'|by apply HB with s'; [| |left]|by apply HB with s'; [| |right]|by apply HP with s'].
  - intros id. by apply HP with s'.
Qed.

Lemma nothing_held_witness :
  exists s tr, run busy (Injector_new screen) [] = Some (s, tr) /\
    down Keyboard 30 tr = true /\ down PointerAbsolute BTN_LEFT tr = true /\ down Pointer BTN_RIGHT tr = true /\ down (Gamepad_ 9) key_SOUTH tr = true /\
    (exists s' out, release_all s = (s', out) /\ (forall d, down d 30 (tr ++ out) = false) /\ (forall d, down d BTN_LEFT (tr ++ out) = false) /\
      forall id, axis_at (Gamepad_ id) axis_RZ (tr ++ out) = 0) /\
    exists s0 tr0, run plugged (Injector_new screen) [] = Some (s0, tr0) /\ reported 7 (take 1 tr0) <> None /\ reported 7 tr0 = None.
Proof.
  pose proof busy_run as H. destruct (run busy (Injector_new screen) []) as [[s tr]|] eqn:E; [|discriminate]. exists s, tr.
  cbn [busy_view mbind option_bind] in H. injection H as H1 H2 H3 H4 H5 H6 H7 H8 H9. split; [reflexivity|]. split; [assumption|].
  split; [assumption|]. split; [assumption|]. split; [assumption|].
  destruct (nothing_held screen s tr (run_reach screen busy _ _ _ _ (reach_new screen) E)) as (_ & _ & _ & _ & (s' & out & Er & _ & Hall) & _).
  split; [|]. { exists s', out. split; [assumption|]. split; [apply (Hall 30); lia|]. split; [apply (Hall BTN_LEFT); unfold BTN_LEFT; lia|].
  apply (Hall axis_RZ); unfold axis_RZ; lia. }
  clear - s. pose proof plugged_run as H. destruct (run plugged (Injector_new screen) []) as [[s0 tr0]|] eqn:E; [|discriminate]. exists s0, tr0.
  split; [reflexivity|]. cbn [plugged_view mbind option_bind] in H. injection H as H1 H2. split; [by destruct (reported 7 (take 1 tr0))|].
  destruct (nothing_held screen s0 tr0 (run_reach screen plugged _ _ _ _ (reach_new screen) E)) as (_ & _ & Hpad & _). by apply (Hpad H2 7).
Defined.



(** ** Where an absolute position lands *)

(** The input stack takes the axis back to a pixel. *)
Definition landed (value desktop : Z) : Z := value * desktop / (ABS_RANGE + 1).

Lemma scale_lands value extent origin within desktop :
  0 < extent -> 0 < within -> 0 <= origin -> origin + within <= desktop -> desktop <= 32768 ->
  0 <= scale value extent origin within desktop <= ABS_RANGE /\
  landed (scale value extent origin within desktop) desktop = origin + Z.min (clamp value 0 extent * within / extent) (within - 1).
Proof.
  intros He Hw Ho Hd Hmax. unfold scale. destruct (Z.leb_spec extent 0), (Z.leb_spec desktop 0); try lia. cbn [orb]. cbv zeta.
  set (c := clamp value 0 extent). assert (0 <= c <= extent) as Hc by (unfold c, clamp; lia).
  rewrite (Z.quot_div_nonneg (c * within) extent) by nia. set (q := c * within / extent). assert (0 <= q) as Hq by (apply Z.div_pos; nia).
  assert (clamp q 0 (Z.max (within - 1) 0) = Z.min q (within - 1)) as -> by (unfold clamp; lia). set (p := origin + Z.min q (within - 1)).
  assert (0 <= p < desktop) as Hp by (unfold p; lia). change (ABS_RANGE + 1) with 65536. rewrite (Z.quot_div_nonneg ((2 * p + 1) * 65536) (2 * desktop)) by nia.
  set (v := (2 * p + 1) * 65536 / (2 * desktop)).
  pose proof (Z.mul_div_le ((2 * p + 1) * 65536) (2 * desktop) ltac:(lia)) as Hlo.
  pose proof (Z.mul_succ_div_gt ((2 * p + 1) * 65536) (2 * desktop) ltac:(lia)) as Hhi. fold v in Hlo, Hhi.
  assert (0 <= v) as Hv0 by (apply Z.div_pos; nia). assert (v <= 65535) as Hv1 by nia. unfold landed.
  assert (clamp v 0 ABS_RANGE = v) as -> by (unfold clamp, ABS_RANGE; lia). split; [unfold ABS_RANGE; lia|]. change (ABS_RANGE + 1) with 65536. symmetry. apply (Z.div_unique _ _ p (v * desktop - p * 65536)); [left; nia|lia].
Qed.

(** C33. An absolute motion lands where it points: on a desktop of at most 32768 pixels,
    the position sent is one report on the absolute pointer, within the axis, which the
    input stack takes back to exactly the pixel of the captured output that the picture's
    coordinate names, and so never to a pixel of another output, whatever the guest
    sends. *)
Theorem absolute_lands x y s :
  Ready s -> ij_relative s = false ->
  let e := ij_extents s in
  let p := ex_place e in
  0 < ex_width e -> 0 < ex_height e -> 0 < pc_width p -> 0 < pc_height p -> 0 <= pc_x p -> 0 <= pc_y p ->
  pc_x p + pc_width p <= pc_desktop_width p -> pc_y p + pc_height p <= pc_desktop_height p ->
  pc_desktop_width p <= 32768 -> pc_desktop_height p <= 32768 ->
  exists s' vx vy, motion false x y s = (s', [Emit PointerAbsolute [mkEvent EV_ABS ABS_X vx; mkEvent EV_ABS ABS_Y vy; SYN]]) /\
    0 <= vx <= ABS_RANGE /\ 0 <= vy <= ABS_RANGE /\
    landed vx (pc_desktop_width p) = pc_x p + Z.min (clamp x 0 (ex_width e) * pc_width p / ex_width e) (pc_width p - 1) /\
    landed vy (pc_desktop_height p) = pc_y p + Z.min (clamp y 0 (ex_height e) * pc_height p / ex_height e) (pc_height p - 1) /\
    pc_x p <= landed vx (pc_desktop_width p) < pc_x p + pc_width p /\ pc_y p <= landed vy (pc_desktop_height p) < pc_y p + pc_height p.
Proof.
  intros Hr Hrel e p Hew Heh Hpw Hph Hpx Hpy Hdw Hdh Hmw Hmh. unfold motion. rewrite Hrel. cbv zeta.
  change (ij_extents (s <| ij_last_abs := None |> <| ij_absolute := true |> <| ij_used := 0 |> <| ij_commanded := Some (x, y) |>)) with e. fold p.
  destruct (scale_lands x _ _ _ _ Hew Hpw Hpx Hdw Hmw) as [Hbx Hlx]. destruct (scale_lands y _ _ _ _ Heh Hph Hpy Hdh Hmh) as [Hby Hly].
  set (vx := scale x _ _ _ _) in *. set (vy := scale y _ _ _ _) in *. set (s1 := s <| ij_last_abs := None |> <| ij_absolute := true |> <| ij_used := 0 |> <| ij_commanded := Some (x, y) |>).
  assert (Wrote s1 s1 []) as Hw by (by split).
  assert (Wrote s1 (syn_report (push EV_ABS ABS_Y vy (push EV_ABS ABS_X vx s1))) [mkEvent EV_ABS ABS_X vx; mkEvent EV_ABS ABS_Y vy; SYN]) as Hw3.
  { apply (wrote_push _ _ [_; _]); [|by vm_compute]. apply (wrote_push _ _ [_]); [|by vm_compute]. by apply (wrote_push _ _ []). }
  destruct (wrote_flush _ _ _ PointerAbsolute Hw3) as [-> _]; [by vm_compute|]. eexists _, vx, vy. split; [done|]. split; [done|]. split; [done|].
  split; [done|]. split; [done|]. rewrite Hlx, Hly.
  assert (forall v e w, 0 < e -> 0 < w -> 0 <= clamp v 0 e * w / e) as Hq by (intros; apply Z.div_pos; [unfold clamp; nia|lia]).
  pose proof (Hq x (ex_width e) (pc_width p) Hew Hpw). pose proof (Hq y (ex_height e) (pc_height p) Heh Hph). lia.
Qed.

(** The right-hand one of two outputs side by side, and a position past its edge. *)
Lemma absolute_lands_witness :
  exists s' vx vy, motion false 5000 540 (Injector_new (Extents_placed 1920 1080 (mkPlace 1920 0 1920 1080 3840 1080))) =
      (s', [Emit PointerAbsolute [mkEvent EV_ABS ABS_X vx; mkEvent EV_ABS ABS_Y vy; SYN]]) /\ landed vx 3840 = 3839 /\ landed vy 1080 = 540.
Proof.
  destruct (absolute_lands 5000 540 (Injector_new (Extents_placed 1920 1080 (mkPlace 1920 0 1920 1080 3840 1080)))) as (s' & vx & vy & E & _ & _ & Hx & Hy & _);
    try reflexivity; try (cbn; lia). exists s', vx, vy. split; [exact E|]. split; [exact Hx|exact Hy].
Defined.

(** ** What strands a button *)

(** Calls that neither press nor let go of one button of one device. *)
Definition quiet (d : Device) (c : Z) (out : list SinkCall) : Prop := forall b, foldl (call_down d c) b out = b.

Lemma quiet_nil d c : quiet d c [].
Proof. done. Qed.
Lemma quiet_app d c o1 o2 : quiet d c o1 -> quiet d c o2 -> quiet d c (o1 ++ o2).
Proof. intros H1 H2 b. by rewrite foldl_app, H1, H2. Qed.
Lemma quiet_to P d c out : Forall (call_to P) out -> ~ P d -> quiet d c out.
Proof. intros Ho Hn b. by eapply foldl_down_other. Qed.
Lemma quiet_emit d c d' evs : (d = d' -> Forall (fun e => ev_kind e = EV_KEY -> ev_code e <> c) evs) -> quiet d c [Emit d' evs].
Proof.
  intros H b. cbn [foldl call_down]. destruct (decide (d = d')) as [E|]; [|done]. specialize (H E). clear E. revert b.
  induction H as [|e evs He _ IH]; intros b; [done|]. cbn [foldl]. unfold event_down at 2.
  destruct (Z.eqb_spec (ev_kind e) EV_KEY) as [Ek|]; [|apply IH]. destruct (Z.eqb_spec (ev_code e) c) as [Ec|]; [by destruct (He Ek)|apply IH].
Qed.

Lemma quiet_batch f evs d' s d c :
  Writes f evs -> zlen evs + 1 <= SCRATCH -> Ready s -> (d = d' -> Forall (fun e => ev_kind e = EV_KEY -> ev_code e <> c) evs) ->
  quiet d c (snd (flush d' (syn_report (f (s <| ij_used := 0 |>))))).
Proof.
  intros Hf Hl Hr H. destruct (flush_batch f evs d' s Hf Hl Hr) as (s' & -> & _). apply quiet_emit. intros E. apply Forall_app. split; [by apply H|].
  constructor; [done|constructor].
Qed.

(** What one batch leaves of the fields. *)
Lemma batch_pressed f evs d' s :
  Writes f evs -> zlen evs + 1 <= SCRATCH -> Ready s -> ij_pressed_on (fst (flush d' (syn_report (f (s <| ij_used := 0 |>))))) = ij_pressed_on s.
Proof. intros Hf Hl Hr. destruct (flush_batch f evs d' s Hf Hl Hr) as (s' & -> & Hc & _). apply (core_fields _ _ Hc). Qed.

(** The button [n], of code [c], is recorded on another device than [d], and stays so. *)
Record Stays (n : Z) (d : Device) (c : Z) (s : Injector) (r : Injector * list SinkCall) : Prop := mkStays {
  st_quiet : quiet d c (snd r);
  st_pressed : get_at (ij_pressed_on (fst r)) (n - 1) = get_at (ij_pressed_on s) (n - 1);
}.

Lemma Stays_same n d c s : Stays n d c s (s, []).
Proof. by split. Qed.

Lemma Stays_from n d c s s0 r : ij_pressed_on s0 = ij_pressed_on s -> Stays n d c s0 r -> Stays n d c s r.
Proof. intros E []. split; [done|]. by rewrite <- E. Qed.

Lemma Stays_batch n d c s s1 f evs d' :
  Writes f evs -> zlen evs + 1 <= SCRATCH -> Ready s1 -> (d = d' -> Forall (fun e => ev_kind e = EV_KEY -> ev_code e <> c) evs) ->
  get_at (ij_pressed_on s1) (n - 1) = get_at (ij_pressed_on s) (n - 1) -> Stays n d c s (flush d' (syn_report (f (s1 <| ij_used := 0 |>)))).
Proof. intros Hf Hl Hr H E. split; [by eapply quiet_batch|]. by erewrite batch_pressed. Qed.

Lemma no_keys_quiet c evs : Forall (fun e => ev_kind e <> EV_KEY) evs -> Forall (fun e => ev_kind e = EV_KEY -> ev_code e <> c) evs.
Proof. intros H. eapply Forall_impl; [|exact H]. by intros e He Ek. Qed.

Lemma Writes_two k1 c1 v1 k2 c2 v2 : Writes (fun s => push k2 c2 v2 (push k1 c1 v1 s)) [mkEvent k1 c1 v1; mkEvent k2 c2 v2].
Proof. apply (Writes_comp (push k1 c1 v1) (push k2 c2 v2) [_] [_]); apply Writes_push. Qed.

Lemma wheel_stays n d c x y s : Ready s -> Stays n d c s (wheel x y s).
Proof.
  intros Hr. unfold wheel. destruct ((x =? 0) && (y =? 0)); [apply Stays_same|]. cbv zeta.
  pose proof (Writes_comp _ _ _ _ (Writes_if (negb (y =? 0)) _ _ (Writes_two EV_REL REL_WHEEL (detents y) EV_REL REL_WHEEL_HI_RES y))
    (Writes_if (negb (x =? 0)) _ _ (Writes_two EV_REL REL_HWHEEL (detents x) EV_REL REL_HWHEEL_HI_RES x))) as Hw. cbv beta in Hw.
  match goal with |- Stays _ _ _ _ (flush ?x _) => generalize x; intros dev end.
  refine (Stays_batch n d c s s _ _ dev Hw _ Hr _ eq_refl).
  - by destruct (negb (y =? 0)), (negb (x =? 0)); vm_compute.
  - intros _. apply no_keys_quiet. by destruct (negb (y =? 0)), (negb (x =? 0)); repeat constructor.
Qed.

Lemma motion_stays n d c relative x y s : Ready s -> Stays n d c s (motion relative x y s).
Proof.
  intros Hr. assert (forall x y s1, Ready s1 -> get_at (ij_pressed_on s1) (n - 1) = get_at (ij_pressed_on s) (n - 1) -> Stays n d c s (move_by x y s1)) as Hmove.
  { intros x0 y0 s1 Hr1 E. unfold move_by. cbv zeta. set (s2 := s1 <| ij_absolute := false |>). assert (Ready s2) as Hr2 by exact Hr1.
    refine (Stays_batch n d c s s2 _ _ Pointer (Writes_two EV_REL REL_X x0 EV_REL REL_Y y0) _ Hr2 _ E).
    - done.
    - intros _. apply no_keys_quiet. by repeat constructor. }
  unfold motion. destruct relative; [by apply Hmove|]. destruct (ij_relative s).
  - destruct (ij_last_abs s) as [[px py]|]; [by apply Hmove|by split].
  - cbv zeta. match goal with |- Stays _ _ _ _ (flush _ (syn_report (push _ _ ?b (push _ _ ?a _)))) => generalize a, b; intros vx vy end.
    set (s1 := s <| ij_last_abs := None |> <| ij_absolute := true |> <| ij_commanded := Some (x, y) |>).
    assert (Ready s1) as Hr1 by exact Hr. refine (Stays_batch n d c s s1 _ _ PointerAbsolute (Writes_two EV_ABS ABS_X vx EV_ABS ABS_Y vy) _ Hr1 _ eq_refl); [done|].
    intros _. apply no_keys_quiet. by repeat constructor.
Qed.

Lemma release_on_stays n d c device s tr :
  pointing device -> Ready s -> BInv s tr -> button_code n = Some c -> get_at (ij_pressed_on s) (n - 1) <> Some d -> Stays n d c s (release_on device s).
Proof.
  intros Hdev Hr Hi Hc Hp. destruct (release_on_ok device s tr Hdev Hr Hi) as (s' & out & E & _ & _ & Ep & _).
  split; [|by rewrite E; cbn [fst]; rewrite Ep]. clear E Ep s' out. unfold release_on. set (idx := map Z.of_nat (seq 0 (Z.to_nat BUTTONS))).
  destruct (release_button_ok device idx (s <| ij_used := 0 |>) []) as (evs & Hw & Hl & [_ _ _ _ _ Honly]).
  { by apply (wrote_self s), wrote_start. }
  { by vm_compute. }
  { apply Forall_forall. intros i Hi0. change idx with [0; 1; 2; 3; 4] in Hi0. cbn. rewrite (bi_buttons _ _ Hi). cbn [In] in Hi0. unfold BUTTONS. lia. }
  set (s1 := foldl (release_button device) (s <| ij_used := 0 |>) idx) in *. rewrite app_nil_l in Hw. destruct (0 <? ij_used s1); [|apply quiet_nil].
  destruct (pointer_batch s1 s1 evs device Hw) as (s' & -> & _); [change (zlen idx) with 5 in Hl; unfold SCRATCH; lia|done|].
  cbn [snd]. apply quiet_emit. intros ->. apply Forall_app. split; [|constructor; [done|constructor]].
  eapply Forall_impl; [|exact Honly]. intros e (i & Hpi & Hci) _ Ec. rewrite Ec in Hci. pose proof (button_code_inj _ _ _ Hc Hci) as ->.
  apply Hp. by rewrite Z.add_simpl_r.
Qed.

Lemma Stays_trans n d c s s1 o1 s2 o2 : Stays n d c s (s1, o1) -> Stays n d c s1 (s2, o2) -> Stays n d c s (s2, o1 ++ o2).
Proof. intros [Hq1 Hp1] [Hq2 Hp2]. split; [by apply quiet_app|]. cbn [fst] in *. congruence. Qed.

Lemma release_buttons_stays n d c s tr :
  Ready s -> BInv s tr -> button_code n = Some c -> get_at (ij_pressed_on s) (n - 1) <> Some d -> Stays n d c s (release_buttons s).
Proof.
  intros Hr Hi Hc Hp. unfold release_buttons. pose proof (release_on_stays n d c PointerAbsolute s tr ltac:(by right) Hr Hi Hc Hp) as H1.
  destruct (release_on_ok PointerAbsolute s tr ltac:(by right) Hr Hi) as (s1 & o1 & E1 & Ho1 & Hi1 & Ep1 & _). rewrite E1 in *.
  pose proof (release_on_stays n d c Pointer s1 _ ltac:(by left) (bo_ready _ _ _ Ho1) Hi1 Hc ltac:(by rewrite Ep1)) as H2.
  destruct (release_on Pointer s1) as [s2 o2]. by eapply Stays_trans.
Qed.

Lemma K_stays n d c s s' out : pointing d -> KOp s s' out -> Stays n d c s (s', out).
Proof. intros Hd []. split; [|cbn [fst]; congruence]. eapply quiet_to; [done|]. by destruct Hd as [->| ->]. Qed.

Lemma P_stays n d c s s' out : pointing d -> POp s s' out -> Stays n d c s (s', out).
Proof. intros Hd []. split; [|cbn [fst]; congruence]. eapply quiet_to; [done|]. by intros [id ->]; destruct Hd. Qed.

(** One press or release of a button, in full. *)
Lemma button_eq n pressed s held c was :
  Ready s -> get_at (ij_buttons s) (n - 1) = Some held -> get_at (ij_pressed_on s) (n - 1) = Some was -> button_code n = Some c -> pressed || held = true ->
  let device := if pressed then press_device c s else was in
  exists s', button n pressed s = (s', [Emit device [mkEvent EV_KEY c (of_bool pressed); SYN]]) /\ Ready s' /\
    core s' = core (s <| ij_buttons := put_at (ij_buttons s) (n - 1) pressed |>
                      <| ij_pressed_on := if pressed then put_at (ij_pressed_on s) (n - 1) device else ij_pressed_on s |>).
Proof.
  intros Hr Hb Hp Hc Hph. pose proof (button_code_range _ _ Hc) as Hn. unfold button. destruct (Z.ltb_spec n 1); [lia|]. rewrite Hb, Hc.
  change (ij_pressed_on (s <| ij_buttons := ?b |>)) with (ij_pressed_on s). rewrite Hp.
  destruct pressed; cbn [negb andb default]; [|cbn [orb] in Hph; rewrite Hph; cbn [negb]].
  - cbv zeta. set (s1 := s <| ij_buttons := _ |> <| ij_pressed_on := _ |>). change (press_device c (s <| ij_buttons := _ |>)) with (press_device c s).
    destruct (flush_batch (push EV_KEY c (of_bool true)) [mkEvent EV_KEY c (of_bool true)] (press_device c s) s1 (Writes_push _ _ _)) as (s' & E & Hcore & Hr' & _); [done|done|].
    exists s'. split; [exact E|]. by split.
  - set (s1 := s <| ij_buttons := _ |>).
    destruct (flush_batch (push EV_KEY c (of_bool false)) [mkEvent EV_KEY c (of_bool false)] was s1 (Writes_push _ _ _)) as (s' & E & Hcore & Hr' & _); [done|done|].
    exists s'. split; [exact E|]. split; [done|]. rewrite Hcore. by destruct s.
Qed.

Lemma button_stays n d c number pressed s tr :
  Ready s -> BInv s tr -> button_code n = Some c -> get_at (ij_pressed_on s) (n - 1) <> Some d -> (number = n -> pressed = false) ->
  Stays n d c s (button number pressed s).
Proof.
  intros Hr [Hb Hp _ _] Hc Hpd Hn. pose proof (button_code_range _ _ Hc) as Hrange.
  destruct (Z.ltb_spec number 1) as [Hlt|Hge]; [unfold button; rewrite (proj2 (Z.ltb_lt _ _) Hlt); apply Stays_same|].
  destruct (get_at (ij_buttons s) (number - 1)) as [held|] eqn:Eh.
  2: { unfold button. destruct (number <? 1); [apply Stays_same|]. rewrite Eh. apply Stays_same. }
  pose proof (get_at_lt (ij_buttons s) (number - 1) held ltac:(lia) Eh) as Hlt. destruct (get_at_Some (ij_pressed_on s) (number - 1)) as [was Ew]; [lia|].
  destruct (button_code number) as [c'|] eqn:Ec.
  2: { unfold button. destruct (number <? 1); [apply Stays_same|]. rewrite Eh, Ec. apply Stays_same. }
  destruct (pressed || held) eqn:Eph.
  2: { unfold button. destruct (number <? 1); [apply Stays_same|]. rewrite Eh, Ec. destruct pressed; [done|]. cbn [orb] in Eph. rewrite Eph. apply Stays_same. }
  destruct (button_eq number pressed s held c' was Hr Eh Ew Ec Eph) as (s' & -> & _ & Hcore).
  pose proof (core_fields _ _ Hcore) as ((_ & _ & Hpr) & _). cbn in Hpr. split; cbn [fst snd].
  - apply quiet_emit. intros Ed. constructor; [|constructor; [done|constructor]]. intros _ Ecc. cbn in Ecc. subst c'.
    pose proof (button_code_inj _ _ _ Hc Ec) as <-. rewrite (Hn eq_refl) in Ed. congruence.
  - rewrite Hpr. destruct pressed; [|done]. assert (number <> n) as Hne by (intros E; by specialize (Hn E)). by rewrite get_put_at_ne by lia.
Qed.
Lemma release_all_stays n d c s tr :
  Inv s tr -> pointing d -> button_code n = Some c -> get_at (ij_pressed_on s) (n - 1) <> Some d -> Stays n d c s (release_all s).
Proof.
  intros Hi Hd Hc Hp. unfold release_all. destruct (release_keys_inv s tr Hi) as (s1 & o1 & -> & Hi1 & Ho1 & _).
  pose proof (K_stays n d c _ _ _ Hd Ho1) as H1. assert (get_at (ij_pressed_on s1) (n - 1) <> Some d) as Hp1 by (by rewrite (ko_pressed _ _ _ Ho1)).
  pose proof (release_buttons_stays n d c s1 _ (in_ready _ _ (in_base _ _ Hi1)) (in_buttons _ _ (in_base _ _ Hi1)) Hc Hp1) as H2.
  destruct (release_buttons_inv s1 _ Hi1) as (s2 & o2 & E2 & Hi2 & _). rewrite E2 in *.
  destruct (centre_pads_inv s2 _ Hi2) as (s3 & o3 & -> & _ & Ho3 & _). pose proof (P_stays n d c _ _ _ Hd Ho3) as H3.
  eapply Stays_trans; [exact H1|]. by eapply Stays_trans.
Qed.

Lemma permissions_stays n d c p s tr :
  Inv s tr -> pointing d -> button_code n = Some c -> get_at (ij_pressed_on s) (n - 1) <> Some d -> Stays n d c s (set_permissions p s).
Proof.
  intros [Hb _ _ _] Hd Hc Hp. unfold set_permissions. cbv zeta. set (s0 := s <| ij_permissions := p |>). assert (Base s0 tr) as Hb0 by (by eapply Base_fields).
  apply (Stays_from n d c s s0); [done|]. change (ij_pressed_on s) with (ij_pressed_on s0) in Hp.
  destruct (withdraw_keys (pm_keyboard (ij_permissions s) && negb (pm_keyboard p)) s0 tr Hb0) as (s1 & o1 & -> & Hb1 & Ho1 & _).
  pose proof (K_stays n d c _ _ _ Hd Ho1) as H1. assert (get_at (ij_pressed_on s1) (n - 1) <> Some d) as Hp1 by (by rewrite (ko_pressed _ _ _ Ho1)).
  assert (Stays n d c s1 (if pm_pointer (ij_permissions s) && negb (pm_pointer p) then release_buttons s1 else (s1, []))) as H2.
  { destruct (_ && _); [|apply Stays_same]. by eapply release_buttons_stays; [apply Hb1|apply Hb1|..]. }
  destruct (withdraw_buttons (pm_pointer (ij_permissions s) && negb (pm_pointer p)) s1 _ Hb1) as (s2 & o2 & E2 & Hb2 & _). rewrite E2 in *.
  assert (Stays n d c s2 (if pm_gamepad (ij_permissions s) && negb (pm_gamepad p) then release_pads s2 else (s2, []))) as H3.
  { destruct (pm_gamepad (ij_permissions s) && negb (pm_gamepad p)); [|apply Stays_same]. destruct (release_pads_base s2 _ Hb2) as (s3 & o3 & -> & _ & Ho3 & _). by apply P_stays. }
  destruct (if pm_gamepad _ && _ then release_pads s2 else (s2, [])) as [s3 o3]. eapply Stays_trans; [exact H1|]. by eapply Stays_trans.
Qed.

(** A message that presses the button [n]. *)
Definition presses (n : Z) (op : Op) : bool :=
  match op with OpControl _ _ message => (ct_opcode message =? op_MOUSE_BUTTON) && (ct_a0 message =? n) && negb (ct_a1 message =? 0) | _ => false end.

Lemma control_stays n d c host takes message s tr :
  Inv s tr -> pointing d -> button_code n = Some c -> get_at (ij_pressed_on s) (n - 1) <> Some d -> presses n (OpControl host takes message) = false ->
  Stays n d c s (on_control host takes message s).
Proof.
  intros Hi0 Hd Hc Hp Hno. unfold on_control. cbv zeta. set (s1 := s <| ij_tally := _ |>). assert (Inv s1 tr) as Hi by (by eapply Inv_fields).
  apply (Stays_from n d c s s1); [done|]. change (ij_pressed_on s) with (ij_pressed_on s1) in Hp. pose proof (in_ready _ _ (in_base _ _ Hi)) as Hr.
  pose proof (in_keys _ _ (in_base _ _ Hi)) as Hk. pose proof (in_buttons _ _ (in_base _ _ Hi)) as Hb. pose proof (in_pads _ _ (in_base _ _ Hi)) as Hpads.
  assert (forall r : Injector * list SinkCall, (exists s' out, r = (s', out) /\ PStep s1 tr s' out) -> Stays n d c s1 r) as HP
    by (intros r (s2 & o2 & -> & Hs); apply (P_stays n d c s1 s2 o2 Hd), Hs).
  destruct ((ct_opcode message =? op_KEYBOARD) && _).
  { destruct (keyboard_ok (ct_a0 message) (ct_a1 message) (negb (ct_a2 message =? 0)) host s1 tr Hr Hk) as (s2 & o2 & -> & Ho & _). by apply K_stays. }
  destruct ((ct_opcode message =? op_MOUSE_BUTTON) && pointer_allowed s1) eqn:E2.
  { apply (button_stays n d c _ _ s1 tr Hr Hb Hc Hp). intros En. apply andb_true_iff in E2 as [E2 _]. unfold presses in Hno. rewrite E2, En, Z.eqb_refl in Hno. exact Hno. }
  clear E2 Hno. destruct (_ && _); [by apply wheel_stays|]. destruct (_ && _); [by apply motion_stays|]. destruct (_ && _); [by apply motion_stays|].
  destruct (_ && _); [by apply HP, pad_report_ok|]. destruct (_ && _); [by apply HP, pad_button_ok|]. destruct (_ && _); [by apply HP, axis_arm_ok|].
  destruct (_ =? op_GAMEPAD_UNPLUG).
  { destruct (unplug_ok (ct_a2 message) s1 tr Hr Hpads) as (s2 & o2 & E & Hs & _). apply HP. by exists s2, o2. }
  destruct (_ && _); [by apply HP, whole_pad_ok|]. destruct (_ =? op_RELEASE); [|apply Stays_same]. by eapply release_all_stays.
Qed.

Lemma step_stays n d c op s tr :
  Inv s tr -> pointing d -> button_code n = Some c -> get_at (ij_pressed_on s) (n - 1) <> Some d -> presses n op = false -> Stays n d c s (op_step op s).
Proof.
  intros Hi Hd Hc Hp Hno. pose proof (in_ready _ _ (in_base _ _ Hi)) as Hr. pose proof (in_buttons _ _ (in_base _ _ Hi)) as Hb. destruct op; cbn [op_step].
  - by eapply control_stays.
  - by eapply permissions_stays.
  - by split.
  - unfold set_floor. destruct (ij_floor s && negb held); [|by split].
    pose proof (release_buttons_stays n d c s tr Hr Hb Hc Hp) as [Hq Hpr]. destruct (release_buttons s) as [s1 o1]. by split.
  - split; [done|]. by destruct relative.
  - by split.
  - destruct (secure_attention_ok s tr Hr (in_keys _ _ (in_base _ _ Hi))) as (s1 & o1 & typed & -> & Ho1 & _). by apply K_stays.
  - by eapply release_all_stays.
  - destruct (release_keys_inv s tr Hi) as (s1 & o1 & -> & _ & Ho1 & _). by apply K_stays.
  - by eapply release_buttons_stays.
Qed.

Lemma run_stays n d c ops s g tr s' tr' :
  Inv s g -> pointing d -> button_code n = Some c -> get_at (ij_pressed_on s) (n - 1) <> Some d -> forallb (fun op => negb (presses n op)) ops = true ->
  run ops s tr = Some (s', tr') -> down d c tr' = down d c tr /\ get_at (ij_pressed_on s') (n - 1) <> Some d /\ exists g', Inv s' g'.
Proof.
  revert s g tr. induction ops as [|op ops IH]; intros s g tr Hi Hd Hc Hp Hno; cbn [run].
  { intros [= <- <-]. split; [done|]. split; [done|]. by exists g. }
  cbn [forallb] in Hno. apply andb_true_iff in Hno as [Hop%negb_true_iff Hno]. destruct (stranding op s) eqn:Hst; [done|].
  pose proof (step_stays n d c op s g Hi Hd Hc Hp Hop) as [Hq Hpr]. destruct (step_inv op s g Hi Hst) as (s1 & o1 & E & Hi1). rewrite E in *. cbn [fst snd] in *.
  intros Hrun. destruct (IH s1 _ _ Hi1 Hd Hc ltac:(by rewrite Hpr) Hno Hrun) as (Hdn & Hrest). split; [|done]. by rewrite Hdn, down_app, Hq.
Qed.

Lemma control_button n a1 s :
  pointer_allowed s = true ->
  op_step (msg op_MOUSE_BUTTON n a1 0) s = button n (negb (a1 =? 0)) (s <| ij_tally := Tally_count op_MOUSE_BUTTON (ij_tally s) |>).
Proof.
  intros Hp. cbn [op_step msg]. unfold on_control. cbv zeta. cbn [ct_opcode ct_a0 ct_a1 ct_a2 ct_body].
  change (op_MOUSE_BUTTON =? op_KEYBOARD) with false. change (op_MOUSE_BUTTON =? op_MOUSE_BUTTON) with true. cbn [andb].
  change (pointer_allowed (s <| ij_tally := ?t |>)) with (pointer_allowed s). by rewrite Hp.
Qed.

(** The state after a second press is the one a release and a press would have left, and
    the devices would then have been told of both. *)
Lemma repress_inv n c d s tr :
  Inv s tr -> pointer_allowed s = true -> button_code n = Some c -> get_at (ij_buttons s) (n - 1) = Some true -> get_at (ij_pressed_on s) (n - 1) = Some d ->
  exists s1, op_step (msg op_MOUSE_BUTTON n 1 0) s = (s1, [Emit (press_device c s) [mkEvent EV_KEY c 1; SYN]]) /\
    get_at (ij_pressed_on s1) (n - 1) = Some (press_device c s) /\ exists g, Inv s1 g.
Proof.
  intros Hi Ha Hc Hb Hp. pose proof (in_ready _ _ (in_base _ _ Hi)) as Hr. pose proof (button_code_range _ _ Hc) as Hn.
  pose proof (get_at_lt (ij_buttons s) (n - 1) true ltac:(lia) Hb) as Hlb. pose proof (get_at_lt (ij_pressed_on s) (n - 1) d ltac:(lia) Hp) as Hlp.
  set (t := s <| ij_tally := Tally_count op_MOUSE_BUTTON (ij_tally s) |>).
  assert (Ready t) as Hrt by exact Hr.
  destruct (button_eq n true t true c d Hrt Hb Hp Hc eq_refl) as (s1 & E1 & Hr1 & Hc1). change (press_device c t) with (press_device c s) in *.
  assert (op_step (msg op_MOUSE_BUTTON n 1 0) s = (s1, [Emit (press_device c s) [mkEvent EV_KEY c 1; SYN]])) as Ep by (rewrite control_button by done; exact E1).
  pose proof (core_fields _ _ Hc1) as ((Hk1 & Hb1 & Hp1) & (Hpd1 & Hpm1) & (Hf1 & Hab1 & Ho1)). cbn in Hk1, Hb1, Hp1, Hpd1, Hpm1, Hf1, Hab1, Ho1.
  exists s1. split; [done|]. split; [by rewrite Hp1, get_put_at_eq by lia|].
  destruct (button_eq n false t true c d Hrt Hb Hp Hc eq_refl) as (r & Er & Hrr & Hcr).
  pose proof (core_fields _ _ Hcr) as ((Hkr & Hbr & Hpr) & (Hpdr & Hpmr) & (Hfr & Habr & Hor)). cbn in Hkr, Hbr, Hpr, Hpdr, Hpmr, Hfr, Habr, Hor.
  destruct (step_inv (msg op_MOUSE_BUTTON n 0 0) s tr Hi) as (r' & o & Er' & Hir).
  { unfold stranding, strands. cbn [msg ct_opcode ct_a0 ct_a1]. rewrite Hc. by rewrite andb_false_r. }
  rewrite control_button in Er' by done. change (negb (0 =? 0)) with false in Er'. fold t in Er'. rewrite Er in Er'. injection Er' as <- <-.
  assert (pointer_allowed r = true) as Har by (unfold pointer_allowed in *; by rewrite Hpmr, Hfr).
  assert (get_at (ij_buttons r) (n - 1) = Some false) as Hbr0 by (by rewrite Hbr, get_put_at_eq by lia).
  assert (get_at (ij_pressed_on r) (n - 1) = Some d) as Hpr0 by (by rewrite Hpr).
  destruct (step_inv (msg op_MOUSE_BUTTON n 1 0) r _ Hir) as (s2 & o & E2 & Hi2).
  { unfold stranding, strands. cbn [msg ct_opcode ct_a0 ct_a1]. rewrite Hc, Hbr0. rewrite (bool_decide_eq_false_2 (Some false = Some true)) by done. by rewrite !andb_false_r. }
  rewrite control_button in E2 by done. set (u := r <| ij_tally := _ |>) in E2. assert (Ready u) as Hru by exact Hrr.
  destruct (button_eq n true u false c d Hru Hbr0 Hpr0 Hc eq_refl) as (s2' & E2' & Hr2 & Hc2).
  change (negb (1 =? 0)) with true in E2. rewrite E2' in E2. injection E2 as <- <-.
  pose proof (core_fields _ _ Hc2) as ((Hk2 & Hb2 & Hp2) & (Hpd2 & Hpm2) & (Hf2 & Hab2 & Ho2)). cbn in Hk2, Hb2, Hp2, Hpd2, Hpm2, Hf2, Hab2, Ho2.
  eexists. eapply Inv_ready; [exact Hi2|exact Hr1|..]; try congruence.
  - rewrite Hb1, Hb2, Hbr. unfold put_at. by rewrite list_insert_insert_eq.
  - rewrite Hp1, Hp2, Hpr. f_equal. unfold press_device, current_pointer. change (ij_absolute u) with (ij_absolute r). by rewrite Habr.
Qed.

(** C37: The condition of [nothing_held] is needed. Let a button be down on one pointer in any
    such run, and be pressed again, the pointer allowed, when a press goes to the other. Whatever follows,
    until that button is pressed once more or another is stranded, it stays down on the
    first: releases of it, of everything, the floor or a permission withdrawn, any number
    and in any order; and after a release of everything no button is tracked any more,
    while that one is still down. *)
Theorem repress_strands_button extents s tr n c d s1 out1 later s' tr' :
  Reach extents s tr -> pointer_allowed s = true -> button_code n = Some c -> pointing d -> down d c tr = true -> press_device c s <> d ->
  op_step (msg op_MOUSE_BUTTON n 1 0) s = (s1, out1) ->
  forallb (fun op => negb (presses n op)) later = true -> run later s1 (tr ++ out1) = Some (s', tr') ->
  down d c tr' = true /\
  exists s'' out, release_all s' = (s'', out) /\ (forall i, 0 <= i -> get_at (ij_buttons s'') i <> Some true) /\ down d c (tr' ++ out) = true.
Proof.
  intros Hi%reach_inv Ha Hc Hd Hdown Hne Ep Hno Hrun. destruct (bi_down _ _ (in_buttons _ _ (in_base _ _ Hi)) d c Hd Hdown) as (i & Hi0 & Hci & Hbi & Hpi).
  pose proof (button_code_inj _ _ _ Hc Hci) as ->. rewrite <- (Z.add_simpl_r i 1) in Hbi, Hpi.
  destruct (repress_inv (i + 1) c d s tr Hi Ha Hc Hbi Hpi) as (s1' & Ep' & Hp1 & g & Hi1). rewrite Ep in Ep'. injection Ep' as <- ->.
  destruct (run_stays (i + 1) d c later s1 g _ s' tr' Hi1 Hd Hc ltac:(by rewrite Hp1; intros [= E]) Hno Hrun) as (Hdn & Hp' & g' & Hi').
  assert (down d c tr' = true) as Hdt by (rewrite Hdn, down_app; cbn [foldl call_down]; by rewrite decide_False). split; [done|].
  pose proof (release_all_stays (i + 1) d c s' g' Hi' Hd Hc Hp') as [Hq _]. destruct (release_all_inv s' g' Hi') as (s'' & out & E & _ & _ & Hb'' & _).
  rewrite E in Hq. exists s'', out. split; [done|]. split; [done|]. by rewrite down_app, Hq.
Qed.

(** A button pressed on the absolute pointer and the pointer moved by deltas; then, after
    the second press, a release, the floor and the permission withdrawn. *)
Definition pressed_once : list Op := [ msg op_MOUSE_MOTION 0 960 540; msg op_MOUSE_BUTTON 1 1 0; msg op_MOUSE_MOTION 1 5 7 ].
Definition let_go : list Op := [ msg op_MOUSE_BUTTON 1 0 0; OpReleaseAll; OpFloor false; OpPermissions (mkPermissions true false true) ].

Lemma repress_strands_button_witness :
  exists s tr s1 out1 s' tr', run pressed_once (Injector_new screen) [] = Some (s, tr) /\ op_step (msg op_MOUSE_BUTTON 1 1 0) s = (s1, out1) /\
    run let_go s1 (tr ++ out1) = Some (s', tr') /\ pointer_allowed s' = false /\ down PointerAbsolute BTN_LEFT tr' = true.
Proof.
  destruct (run pressed_once (Injector_new screen) []) as [[s tr]|] eqn:E0; [|vm_compute in E0; discriminate].
  pose proof (run_reach screen pressed_once _ _ _ _ (reach_new screen) E0) as Hr. vm_compute in E0. injection E0 as <- <-.
  match goal with H : Reach _ ?a ?b |- _ => pose (s := a); pose (tr := b) end.
  destruct (op_step (msg op_MOUSE_BUTTON 1 1 0) s) as [s1 out1] eqn:E1.
  destruct (run let_go s1 (tr ++ out1)) as [[s' tr']|] eqn:E2; [|vm_compute in E1; injection E1 as <- <-; vm_compute in E2; discriminate].
  exists s, tr, s1, out1, s', tr'. split; [reflexivity|]. split; [exact E1|]. split; [exact E2|].
  destruct (repress_strands_button screen s tr 1 BTN_LEFT PointerAbsolute s1 out1 let_go s' tr' Hr) as [H _]; try reflexivity; try assumption.
  - by right.
  - discriminate.
  - split; [|exact H]. vm_compute in E1. injection E1 as <- <-. vm_compute in E2. injection E2 as <- <-. reflexivity.
Defined.
