(* ===== verification/Gate.v ===== *)
(** Which guests receive an encoded frame (crates/host/src/gate.rs): the cascade, the
    mark a skipping guest is tested against, and the throttle on keyframe requests. *)

From S2P Require Import Prelude Float64.

Definition MAX_GUESTS : Z := 16.
Definition KEYFRAME_INTERVAL_MS : f64 := f64_of_Z 500.
Definition MARK_WINDOW_MS : f64 := f64_of_Z 2000.

(** Whether [interval] has passed between two readings, or the clock restarted. *)
Definition elapsed (then_ now_ms interval : f64) : bool := f64_ltb now_ms then_ || f64_geb (f64_sub now_ms then_) interval.

(** [ceiling]: the rate is an [f32], every one of which is an [f64] and compares alike. *)
Definition gate_ceiling (rate_mbps : f64) : Z :=
  if f64_geb rate_mbps (f64_of_Z 30) then 4000 else if f64_geb rate_mbps (f64_of_Z 20) then 2500 else 1500.

(** [gate::Guest]. *)
Record GateGuest := mkGateGuest { gg_ceiling : Z; gg_outstanding : Z; gg_pending_keyframe : bool }.
#[export] Instance GateGuest_eta : Eta GateGuest := fun g => mkGateGuest (gg_ceiling g) (gg_outstanding g) (gg_pending_keyframe g).

Definition Guest_joining (rate_mbps : f64) : GateGuest := mkGateGuest (gate_ceiling rate_mbps) 0 true.
Definition Guest_set_outstanding (g : GateGuest) (fragments : Z) : GateGuest := g <| gg_outstanding := fragments |>.
Definition Guest_is_skipping (g : GateGuest) : bool := gg_pending_keyframe g.
Definition Guest_mark_skipping (g : GateGuest) : GateGuest := g <| gg_pending_keyframe := true |>.
Definition Guest_set_rate (g : GateGuest) (rate_mbps : f64) : GateGuest := g <| gg_ceiling := gate_ceiling rate_mbps |>.
Definition Guest_has_room_for (g : GateGuest) (fragments : Z) : bool := sat_add 32 (gg_outstanding g) fragments <=? gg_ceiling g.

Inductive Keyframe := NotNeeded | Request.
#[global] Instance Keyframe_eq_dec : EqDecision Keyframe.
Proof. solve_decision. Defined.

Record Gate := mkGate {
  ga_largest : Z;
  ga_previous : Z;
  ga_window_began_ms : option f64;
  ga_last_request_ms : option f64;
}.
#[export] Instance Gate_eta : Eta Gate := fun g => mkGate (ga_largest g) (ga_previous g) (ga_window_began_ms g) (ga_last_request_ms g).

Definition Gate_new : Gate := mkGate 0 0 None None.

Definition Gate_largest (g : Gate) : Z := Z.max (ga_largest g) (ga_previous g).

Definition Gate_roll (g : Gate) (now_ms : f64) : Gate :=
  match ga_window_began_ms g with
  | None => g <| ga_window_began_ms := Some now_ms |>
  | Some began =>
      if elapsed began now_ms MARK_WINDOW_MS
      then g <| ga_previous := ga_largest g |> <| ga_largest := 0 |> <| ga_window_began_ms := Some now_ms |>
      else g
  end.

Definition Gate_throttle_allows (g : Gate) (now_ms : f64) : bool :=
  match ga_last_request_ms g with None => true | Some last => elapsed last now_ms KEYFRAME_INTERVAL_MS end.

Definition Gate_request_keyframe (g : Gate) (now_ms : f64) : Gate * Keyframe :=
  if negb (Gate_throttle_allows g now_ms) then (g, NotNeeded) else (g <| ga_last_request_ms := Some now_ms |>, Request).

(** One guest of the loop of [admit]: the guest, whether it takes the frame, and
    whether it asks for a keyframe. *)
Definition admit_guest (fragments mark : Z) (keyframe : bool) (guest : GateGuest) : GateGuest * bool * bool :=
  if gg_pending_keyframe guest then
    if negb keyframe then (guest, false, Guest_has_room_for guest mark)
    else if negb (Guest_has_room_for guest fragments) then (guest, false, Guest_has_room_for guest mark)
    else (guest <| gg_pending_keyframe := false |>, true, false)
  else if negb (Guest_has_room_for guest fragments) then (guest <| gg_pending_keyframe := true |>, false, false)
  else (guest, true, false).

(** The loop: the guests, the indices delivered to in order, and what is wanted. *)
Fixpoint admit_loop (fragments mark : Z) (keyframe : bool) (index : Z) (guests : list GateGuest) : list GateGuest * list Z * bool :=
  match guests with
  | [] => ([], [], false)
  | guest :: guests =>
      let '(guest, took, wants) := admit_guest fragments mark keyframe guest in
      let '(guests, delivered, wanted) := admit_loop fragments mark keyframe (index + 1) guests in
      (guest :: guests, (if took : bool then index :: delivered else delivered), (wants || wanted)%bool)
  end.

Definition Gate_admit (g : Gate) (fragments : Z) (keyframe : bool) (now_ms : f64) (guests : list GateGuest) :
    Gate * list GateGuest * list Z * Keyframe :=
  let g := Gate_roll g now_ms in
  let g := g <| ga_largest := Z.max (ga_largest g) fragments |> in
  let mark := Gate_largest g in
  let '(guests, delivered, wanted) := admit_loop fragments mark keyframe 0 guests in
  let '(g, answer) := if wanted : bool then Gate_request_keyframe g now_ms else (g, NotNeeded) in
  (g, guests, delivered, answer).

(** ** One pass over the guests *)

Definition takes (fragments mark : Z) (keyframe : bool) (g : GateGuest) : bool := snd (fst (admit_guest fragments mark keyframe g)).
Definition admitted (fragments mark : Z) (keyframe : bool) (g : GateGuest) : GateGuest := fst (fst (admit_guest fragments mark keyframe g)).
Definition asks (fragments mark : Z) (keyframe : bool) (g : GateGuest) : bool := snd (admit_guest fragments mark keyframe g).

Lemma admit_loop_spec fragments mark keyframe index guests :
  let '(guests', delivered, wanted) := admit_loop fragments mark keyframe index guests in
  guests' = map (admitted fragments mark keyframe) guests /\ wanted = existsb (asks fragments mark keyframe) guests /\
  Forall (fun j => index <= j) delivered /\
  forall i, In (index + Z.of_nat i) delivered <-> exists g, guests !! i = Some g /\ takes fragments mark keyframe g = true.
Proof.
  revert index. induction guests as [|g guests IH]; intros index; cbn [admit_loop].
  { split; [done|]. split; [done|]. split; [constructor|]. intros i. split; [intros []|intros (g & H & _); done]. }
  specialize (IH (index + 1)). destruct (admit_loop fragments mark keyframe (index + 1) guests) as [[guests' delivered] wanted].
  destruct IH as (-> & -> & Hle & Hin). unfold takes, admitted, asks in *. cbn [map existsb].
  destruct (admit_guest fragments mark keyframe g) as [[g' took] wants] eqn:E. cbn [fst snd].
  assert (Forall (fun j => index <= j) delivered) as Hle' by (eapply Forall_impl; [|exact Hle]; cbn; lia).
  assert (~ In index delivered) as Hni by (intros H; apply (proj1 (Forall_forall _ _) Hle) in H; lia).
  split; [done|]. split; [done|]. split; [destruct took; [by constructor; [lia|]|done]|].
  intros [|i].
  - rewrite Z.add_0_r. cbn [lookup list_lookup]. split.
    + intros H. exists g. split; [done|]. rewrite E. destruct took; [done|by destruct Hni].
    + intros (g0 & [= <-] & Ht). rewrite E in Ht. cbn in Ht. subst took. by left.
  - replace (index + Z.of_nat (S i)) with (index + 1 + Z.of_nat i) by lia. change ((g :: guests) !! S i) with (guests !! i). rewrite <- Hin.
    destruct took; [|done]. cbn [In]. split; [intros [H|H]; [lia|done]|by right].
Qed.

Lemma sat_add_le a b : 0 <= b -> Z.min a (2 ^ 32 - 1) <= sat_add 32 a b.
Proof. unfold sat_add. lia. Qed.

(** What one guest's turn does. *)
Lemma admit_guest_cases fragments mark keyframe g :
  (takes fragments mark keyframe g = true -> Guest_has_room_for g fragments = true /\ (gg_pending_keyframe g = true -> keyframe = true)) /\
  gg_pending_keyframe (admitted fragments mark keyframe g) = negb (takes fragments mark keyframe g) /\
  gg_ceiling (admitted fragments mark keyframe g) = gg_ceiling g /\ gg_outstanding (admitted fragments mark keyframe g) = gg_outstanding g.
Proof.
  unfold takes, admitted, admit_guest. destruct (gg_pending_keyframe g) eqn:Ep, keyframe, (Guest_has_room_for g fragments) eqn:Er; cbn; by rewrite ?Ep.
Qed.

(** ** A stream's whole run *)

(** What a guest was offered: a frame, whether it took it, and what would then be in
    flight to it against its ceiling. *)
Record Offer := mkOffer { of_keyframe : bool; of_taken : bool; of_load : Z; of_ceiling : Z }.

Inductive GateOp :=
| OpAdmit (fragments : Z) (keyframe : bool) (now_ms : f64)
| OpOutstanding (index : nat) (fragments : Z)
| OpMark (index : nat)
| OpRate (index : nat) (rate_mbps : f64)
| OpJoin (rate_mbps : f64)
| OpLeave (index : nat)
| OpAsk (now_ms : f64).

(** A stream: its gate, and its guests with what each was offered, newest first. *)
Definition Streaming : Type := Gate * list (GateGuest * list Offer).

Definition offer (fragments : Z) (keyframe : bool) (delivered : list Z) (i : nat) (before : GateGuest * list Offer) (after : GateGuest) : GateGuest * list Offer :=
  (after, mkOffer keyframe (existsb (Z.eqb (Z.of_nat i)) delivered) (sat_add 32 (gg_outstanding (fst before)) fragments) (gg_ceiling (fst before)) :: snd before).

Definition gate_step (op : GateOp) (st : Streaming) : Streaming :=
  let '(g, guests) := st in
  match op with
  | OpAdmit fragments keyframe now_ms =>
      let '(g, after, delivered, _) := Gate_admit g fragments keyframe now_ms (map fst guests) in
      (g, imap (fun i p => offer fragments keyframe delivered i (fst p) (snd p)) (zip guests after))
  | OpOutstanding i fragments => (g, alter (fun p => (Guest_set_outstanding (fst p) fragments, snd p)) i guests)
  | OpMark i => (g, alter (fun p => (Guest_mark_skipping (fst p), mkOffer false false 0 0 :: snd p)) i guests)
  | OpRate i rate_mbps => (g, alter (fun p => (Guest_set_rate (fst p) rate_mbps, snd p)) i guests)
  | OpJoin rate_mbps => (g, guests ++ [(Guest_joining rate_mbps, [])])
  | OpLeave i => (g, swap_remove guests i)
  | OpAsk now_ms => (fst (Gate_request_keyframe g now_ms), guests)
  end.

Definition gate_run (ops : list GateOp) : Streaming := foldl (fun st op => gate_step op st) (Gate_new, []) ops.

(** The ceilings there are. *)
Definition ceiling_step (ceiling : Z) : Prop := ceiling = 1500 \/ ceiling = 2500 \/ ceiling = 4000.

(** Every frame taken is within the ceiling, and is a keyframe or follows a frame
    taken. *)
Fixpoint chained (offers : list Offer) : Prop :=
  match offers with
  | [] => True
  | o :: rest =>
      (of_taken o = true -> (of_load o <= of_ceiling o /\ ceiling_step (of_ceiling o)) /\ (of_keyframe o = true \/ exists p rest', rest = p :: rest' /\ of_taken p = true)) /\ chained rest
  end.

Record guest_ok (p : GateGuest * list Offer) : Prop := mkGuestOk {
  go_ceiling : ceiling_step (gg_ceiling (fst p));
  go_chained : chained (snd p);
  go_latch : gg_pending_keyframe (fst p) = false -> exists o rest, snd p = o :: rest /\ of_taken o = true;
}.

Lemma gate_ceiling_step rate : ceiling_step (gate_ceiling rate).
Proof. unfold gate_ceiling, ceiling_step. repeat destruct (f64_geb _ _); lia. Qed.

Lemma offer_ok fragments mark keyframe before delivered i :
  guest_ok before ->
  (In (Z.of_nat i) delivered <-> takes fragments mark keyframe (fst before) = true) ->
  guest_ok (offer fragments keyframe delivered i before (admitted fragments mark keyframe (fst before))).
Proof.
  intros [Hc Hch Hl] Hin. destruct (admit_guest_cases fragments mark keyframe (fst before)) as (Ht & Hp & Hce & _).
  assert (existsb (Z.eqb (Z.of_nat i)) delivered = takes fragments mark keyframe (fst before)) as Eb.
  { apply eq_true_iff_eq. rewrite <- Hin, existsb_exists. split; [intros (x & Hx & <-%Z.eqb_eq); done|]. intros H. exists (Z.of_nat i). by rewrite Z.eqb_refl. }
  split; unfold offer; cbn [fst snd]; rewrite ?Eb.
  - by rewrite Hce.
  - cbn [chained of_taken of_load of_ceiling of_keyframe]. split; [|done]. intros Etk. destruct (Ht Etk) as [Hroom Hk].
    unfold Guest_has_room_for in Hroom. apply Z.leb_le in Hroom. split; [done|]. destruct (gg_pending_keyframe (fst before)) eqn:Epend; [left; by apply Hk|].
    right. destruct (Hl eq_refl) as (o & rest & E & Eo). by exists o, rest.
  - rewrite Hp. intros Etk%negb_false_iff. eexists _, _. by split.
Qed.

Lemma alter_ok (f : GateGuest * list Offer -> GateGuest * list Offer) i guests :
  (forall p, guest_ok p -> guest_ok (f p)) -> Forall guest_ok guests -> Forall guest_ok (alter f i guests).
Proof. intros Hf H. apply Forall_alter; [done|]. intros p _ Hp. by apply Hf. Qed.

Lemma gate_step_ok op st : Forall guest_ok (snd st) -> Forall guest_ok (snd (gate_step op st)).
Proof.
  destruct st as [g guests]. cbn [snd]. intros H. destruct op; cbn [gate_step snd].
  - unfold Gate_admit. cbv zeta. set (g1 := _ <| ga_largest := _ |>). pose proof (admit_loop_spec fragments (Gate_largest g1) keyframe 0 (map fst guests)) as Hspec.
    destruct (admit_loop fragments (Gate_largest g1) keyframe 0 (map fst guests)) as [[after delivered] wanted]. destruct Hspec as (-> & _ & _ & Hin).
    destruct (if wanted then _ else _) as [g2 answer]. cbn [snd]. apply Forall_lookup. intros i p. rewrite list_lookup_imap.
    destruct (zip guests _ !! i) as [[before aft]|] eqn:E; [|done]. cbn [fmap option_fmap option_map]. intros [= <-]. cbn [fst snd].
    apply lookup_zip_with_Some in E as (b & a & [= -> ->] & Eb & Ea). rewrite map_map in Ea. rewrite list_lookup_fmap, Eb in Ea. injection Ea as <-.
    apply offer_ok; [by eapply Forall_lookup_1|]. specialize (Hin i). rewrite Z.add_0_l in Hin. rewrite Hin. split.
    + intros (g0 & Eg & Ht). change (map fst guests) with (fst <$> guests) in Eg. rewrite list_lookup_fmap, Eb in Eg. by injection Eg as <-.
    + intros Ht. exists (fst b). split; [|done]. change (map fst guests) with (fst <$> guests). by rewrite list_lookup_fmap, Eb.
  - apply alter_ok; [|done]. intros p []. by split.
  - apply alter_ok; [|done]. intros p []. split; [done|by split|done].
  - apply alter_ok; [|done]. intros p []. split; [apply gate_ceiling_step|done|done].
  - apply Forall_app. split; [done|]. constructor; [|constructor]. split; [apply gate_ceiling_step|done|done].
  - by apply Forall_swap_remove.
  - done.
Qed.

(** What a taken frame refers back through: frames taken, to a keyframe taken. *)
Definition decodable (offers : list Offer) : Prop :=
  exists run key older, offers = run ++ key :: older /\ Forall (fun o => of_taken o = true) run /\ of_taken key = true /\ of_keyframe key = true.

Lemma chained_decodable newer o rest :
  chained (newer ++ o :: rest) -> of_taken o = true -> (of_load o <= of_ceiling o /\ ceiling_step (of_ceiling o)) /\ decodable (o :: rest).
Proof.
  induction newer as [|n newer IH]; cbn [app chained]; [|by intros [_ H]; apply IH].
  intros [Ho Hrest] Ht. split; [by apply Ho|]. revert o Ho Ht Hrest. induction rest as [|p rest IH]; intros o Ho Ht Hrest.
  - destruct (Ho Ht) as [_ [Hk|(p & rest' & E & _)]]; [|done]. by exists [], o, [].
  - destruct (Ho Ht) as [_ [Hk|(p' & rest' & [= <- <-] & Hp)]]; [by exists [], o, (p :: rest)|]. cbn [chained] in Hrest. destruct Hrest as [Hp' Hrest].
    destruct (IH p Hp' Hp Hrest) as (run & key & older & E & Hr & Hk & Hkey). exists (o :: run), key, older. rewrite E. split; [done|]. split; [by constructor|done].
Qed.

Lemma gate_run_ok ops : Forall guest_ok (snd (gate_run ops)).
Proof.
  unfold gate_run. assert (Forall guest_ok (snd (Gate_new, @nil (GateGuest * list Offer)))) as H by constructor. revert H. generalize (Gate_new, @nil (GateGuest * list Offer)).
  induction ops as [|op ops IH]; intros st H; [done|]. cbn [foldl]. by apply IH, gate_step_ok.
Qed.

(** C19: The cascade. Whatever a stream does, with guests joining, leaving and falling behind,
    rates changing and frames lost before delivery, every frame a guest is given is
    within its ceiling, which is one of the three there are for a configured rate, 1500,
    2500 and 4000 whatever the depth of the peer's ring (1500 for some), and is decodable:
    every frame from the guest's latest keyframe to it was given to that guest, none
    missing between. *)
Theorem cascade ops i p newer o older :
  snd (gate_run ops) !! i = Some p -> snd p = newer ++ o :: older -> of_taken o = true ->
  (of_load o <= of_ceiling o /\ ceiling_step (of_ceiling o)) /\ decodable (o :: older).
Proof.
  intros Hp E Ht. apply (chained_decodable newer); [|done]. rewrite <- E. eapply go_chained, Forall_lookup_1; [apply gate_run_ok|exact Hp].
Qed.

(** A guest that takes its first keyframe, falls behind for a frame, misses the next
    although it has room again, and takes the keyframe after. *)
Definition sample_run : list GateOp :=
  [ OpJoin (f64_of_Z 10); OpAdmit 20 false (f64_of_Z 0); OpAdmit 900 true (f64_of_Z 16); OpAdmit 30 false (f64_of_Z 33); OpOutstanding 0 1490;
    OpAdmit 40 false (f64_of_Z 50); OpOutstanding 0 0; OpAdmit 10 false (f64_of_Z 66); OpAdmit 800 true (f64_of_Z 83); OpAdmit 12 false (f64_of_Z 100) ].

Lemma cascade_witness :
  exists p, snd (gate_run sample_run) !! 0%nat = Some p /\
    map of_taken (snd p) = [true; true; false; false; true; true; false] /\
    decodable (snd p) /\ decodable (drop 4 (snd p)).
Proof.
  destruct (snd (gate_run sample_run) !! 0%nat) as [p|] eqn:E; [|vm_compute in E; discriminate]. exists p.
  assert (Some p = snd (gate_run sample_run) !! 0%nat) as E' by (symmetry; exact E). vm_compute in E'. injection E' as E'.
  assert (exists o older, snd p = [] ++ o :: older /\ of_taken o = true) as (o1 & r1 & E1 & T1) by (rewrite E'; eexists _, _; split; reflexivity).
  assert (exists o older, snd p = take 4 (snd p) ++ o :: older /\ of_taken o = true) as (o2 & r2 & E2 & T2) by (rewrite E'; eexists _, _; split; reflexivity).
  split; [reflexivity|]. split; [rewrite E'; reflexivity|]. split.
  - destruct (cascade sample_run 0 p [] o1 r1 E E1 T1) as [_ H]. rewrite E1. exact H.
  - destruct (cascade sample_run 0 p (take 4 (snd p)) o2 r2 E E2 T2) as [_ H]. replace (drop 4 (snd p)) with (o2 :: r2); [exact H|].
    rewrite <- (take_drop 4 (snd p)) in E2 at 1. apply app_inv_head in E2. symmetry. exact E2.
Defined.

(** ** Recovery *)

(** The passes of a stream: each frame with the guests it is offered to. *)
Definition Pass : Type := Z * bool * f64 * list GateGuest.
Definition pass_gate (g : Gate) (p : Pass) : Gate := let '(fragments, keyframe, now_ms, guests) := p in fst (fst (fst (Gate_admit g fragments keyframe now_ms guests))).

(** The passes at which the window rolled. *)
Definition rolled (g : Gate) (now_ms : f64) : bool :=
  match ga_window_began_ms g with None => false | Some began => elapsed began now_ms MARK_WINDOW_MS end.
Fixpoint rolls (g : Gate) (passes : list Pass) : nat :=
  match passes with
  | [] => 0
  | p :: passes => (if rolled g (snd (fst p)) then 1 else 0) + rolls (pass_gate g p) passes
  end.

Lemma request_marks g now_ms :
  ga_largest (fst (Gate_request_keyframe g now_ms)) = ga_largest g /\ ga_previous (fst (Gate_request_keyframe g now_ms)) = ga_previous g.
Proof. unfold Gate_request_keyframe. by destruct (Gate_throttle_allows g now_ms). Qed.

Lemma pass_marks g fragments keyframe now_ms guests :
  let g' := fst (fst (fst (Gate_admit g fragments keyframe now_ms guests))) in
  ga_largest g' = Z.max (if rolled g now_ms then 0 else ga_largest g) fragments /\ ga_previous g' = if rolled g now_ms then ga_largest g else ga_previous g.
Proof.
  unfold Gate_admit. cbv zeta. destruct (admit_loop _ _ _ _ _) as [[after delivered] wanted]. set (g1 := _ <| ga_largest := _ |>).
  assert (ga_largest g1 = Z.max (if rolled g now_ms then 0 else ga_largest g) fragments /\ ga_previous g1 = if rolled g now_ms then ga_largest g else ga_previous g) as [E1 E2].
  { unfold g1, Gate_roll, rolled. destruct (ga_window_began_ms g); [|done]. by destruct (elapsed _ _ _). }
  destruct wanted; [|done]. pose proof (request_marks g1 now_ms) as [H1 H2]. destruct (Gate_request_keyframe g1 now_ms). cbn [fst] in *. by rewrite H1, H2.
Qed.

(** The mark is of the last two windows. *)
Lemma mark_decays F passes g (n : nat) :
  0 <= F -> Forall (fun p : Pass => fst (fst (fst p)) <= F) passes ->
  ((1 <= n)%nat -> ga_largest g <= F) -> ((2 <= n)%nat -> ga_previous g <= F) -> (2 <= n + rolls g passes)%nat ->
  Gate_largest (foldl pass_gate g passes) <= F.
Proof.
  intros HF. revert g n. induction passes as [|[[[fragments keyframe] now_ms] guests] passes IH]; intros g n Hp Hl Hpr Hn.
  - cbn in *. unfold Gate_largest. rewrite Nat.add_0_r in Hn. specialize (Hl ltac:(lia)). specialize (Hpr ltac:(lia)). lia.
  - apply Forall_cons_iff in Hp as [Hf Hp]. cbn [fst] in Hf. cbn [foldl rolls snd fst] in *. unfold pass_gate at 2. unfold pass_gate at 1 in Hn.
    destruct (pass_marks g fragments keyframe now_ms guests) as [E1 E2]. set (g' := fst (fst (fst _))) in *.
    apply (IH g' (n + if rolled g now_ms then 1 else 0)%nat); [done|..]; rewrite ?E1, ?E2; destruct (rolled g now_ms); lia.
Qed.

Lemma has_room_mono g a b : a <= b -> Guest_has_room_for g b = true -> Guest_has_room_for g a = true.
Proof. unfold Guest_has_room_for, sat_add. rewrite !Z.leb_le. lia. Qed.

(** C21: A guest latched gets out. Once the window has rolled twice with no frame past what
    the guest has room for, whatever larger was sent before, the next pass asks for a
    keyframe unless one was asked for within the interval, and the next keyframe is
    delivered to it and clears its latch. *)
Theorem gate_recovers g0 passes F fragments now_ms guests i guest :
  0 <= F -> Forall (fun p : Pass => fst (fst (fst p)) <= F) passes -> (2 <= rolls g0 passes)%nat -> fragments <= F ->
  guests !! i = Some guest -> gg_pending_keyframe guest = true -> Guest_has_room_for guest F = true ->
  let g := foldl pass_gate g0 passes in
  (Gate_throttle_allows g now_ms = true -> snd (Gate_admit g fragments false now_ms guests) = Request) /\
  (let '(_, guests', delivered, _) := Gate_admit g fragments true now_ms guests in
   In (Z.of_nat i) delivered /\ exists guest', guests' !! i = Some guest' /\ gg_pending_keyframe guest' = false).
Proof.
  intros HF Hp Hr Hf Hi Hpend Hroom g. pose proof (mark_decays F passes g0 0 HF Hp ltac:(lia) ltac:(lia) Hr) as Hmark. fold g in Hmark.
  assert (Gate_largest (Gate_roll g now_ms <| ga_largest := Z.max (ga_largest (Gate_roll g now_ms)) fragments |>) <= F) as Hmark'.
  { unfold Gate_largest in *. unfold Gate_roll. destruct (ga_window_began_ms g); [destruct (elapsed _ _ _)|]; cbn; lia. }
  split; unfold Gate_admit; cbv zeta; set (g1 := _ <| ga_largest := _ |>).
  - intros Ht. pose proof (admit_loop_spec fragments (Gate_largest g1) false 0 guests) as H.
    destruct (admit_loop _ _ _ _ _) as [[after delivered] wanted]. destruct H as (_ & -> & _ & _).
    assert (existsb (asks fragments (Gate_largest g1) false) guests = true) as ->.
    { apply existsb_exists. exists guest. split; [apply list_elem_of_In; by eapply list_elem_of_lookup_2|]. unfold asks, admit_guest. rewrite Hpend. cbn.
      by apply (has_room_mono _ _ F); [exact Hmark'|]. }
    unfold Gate_request_keyframe. assert (Gate_throttle_allows g1 now_ms = Gate_throttle_allows g now_ms) as ->.
    { unfold g1, Gate_throttle_allows, Gate_roll. destruct (ga_window_began_ms g); [destruct (elapsed _ _ MARK_WINDOW_MS)|]; done. }
    by rewrite Ht.
  - pose proof (admit_loop_spec fragments (Gate_largest g1) true 0 guests) as H.
    destruct (admit_loop _ _ _ _ _) as [[after delivered] wanted]. destruct H as (-> & _ & _ & Hin). destruct (if wanted then _ else _) as [g2 answer].
    assert (takes fragments (Gate_largest g1) true guest = true) as Htk.
    { unfold takes, admit_guest. rewrite Hpend, (has_room_mono guest fragments F Hf Hroom). done. }
    split.
    + apply (Hin i). eauto.
    + exists (admitted fragments (Gate_largest g1) true guest). change (map (admitted fragments (Gate_largest g1) true) guests) with (admitted fragments (Gate_largest g1) true <$> guests).
      rewrite list_lookup_fmap, Hi. split; [done|]. destruct (admit_guest_cases fragments (Gate_largest g1) true guest) as (_ & -> & _). by rewrite Htk.
Qed.

(** One frame of 2000 fragments, then small ones for two windows. *)
Lemma gate_recovers_witness :
  let guest := Guest_joining (f64_of_Z 10) in
  let passes := [(30, false, f64_of_Z 2100, [guest]); (30, false, f64_of_Z 4200, [guest])] in
  let g0 := pass_gate Gate_new (2000, true, f64_of_Z 0, [guest]) in
  Gate_largest g0 = 2000 /\ snd (Gate_admit (foldl pass_gate g0 passes) 25 false (f64_of_Z 9000) [guest]) = Request.
Proof.
  cbv zeta. set (guest := Guest_joining (f64_of_Z 10)). split; [vm_compute; reflexivity|].
  apply (gate_recovers (pass_gate Gate_new (2000, true, f64_of_Z 0, [guest])) [(30, false, f64_of_Z 2100, [guest]); (30, false, f64_of_Z 4200, [guest])]
    30 25 (f64_of_Z 9000) [guest] 0 guest); try reflexivity; try lia.
  repeat constructor; vm_compute; discriminate.
Defined.
