(* ===== verification/Rate.v ===== *)
(** The bitrate of the one encoder, over every guest sharing it (crates/host/src/rate.rs).
    A tick is [None] where a controller's clamp panics. *)

From Stdlib Require Import SpecFloat.
From S2P Require Import Prelude Float64 Congestion.

Definition MIB : f64 := f64_of_Z 1048576.
Definition from_decimal_mbps (mbps : f64) : f64 := f64_mul mbps (f64_div (f64_of_Z 1000000) MIB).
Definition to_decimal_mbps (rate_mib : f64) : f64 := f64_mul rate_mib (f64_div MIB (f64_of_Z 1000000)).

(** [x as u32]: truncated, saturating, and zero for a NaN. *)
Definition f64_as_u32 (x : f64) : Z :=
  match x with
  | S754_finite false m e => Z.min (Z.shiftl (Z.pos m) e) (2 ^ 32 - 1)
  | S754_infinity false => 2 ^ 32 - 1
  | _ => 0
  end.
Definition to_encoder_bps (rate_mib : f64) : Z := f64_as_u32 (f64_mul rate_mib MIB).

Definition DEADBAND_MBPS : f64 := f64_lit 1 100.

(** [rate::Sample]. *)
Record Sample := mkSample { sm_window : Z; sm_stale : Z; sm_measured_mbps : f64 }.

Record Budget := mkBudget {
  bu_configured_mbps : f64;
  bu_min_mbps : f64;
  bu_guests : Z;
  bu_applied_mbps : f64;
  bu_audio_mbps : f64;
}.
#[export] Instance Budget_eta : Eta Budget := fun b =>
  mkBudget (bu_configured_mbps b) (bu_min_mbps b) (bu_guests b) (bu_applied_mbps b) (bu_audio_mbps b).

Definition Budget_new (configured_mbps min_mbps : f64) : Budget := mkBudget configured_mbps min_mbps 0 f64_zero f64_zero.

Definition Budget_ceiling (b : Budget) : f64 :=
  let left_ := f64_max (f64_sub (bu_configured_mbps b) (bu_audio_mbps b)) f64_zero in
  f64_max (f64_div left_ (f64_of_Z (Z.max (bu_guests b) 1))) (bu_min_mbps b).

Definition Budget_rebound (b : Budget) (guests : Z) (controllers : list Controller) : Budget * list Controller :=
  let b := b <| bu_guests := guests |> in
  let ceiling := Budget_ceiling b in
  (b, map (fun c => Controller_set_bounds c (bu_min_mbps b) ceiling) controllers).

Definition Budget_set_audio (b : Budget) (audio_mbps : f64) (controllers : list Controller) : Budget * list Controller :=
  let b := b <| bu_audio_mbps := f64_max audio_mbps f64_zero |> in
  Budget_rebound b (bu_guests b) controllers.

Definition Budget_reconfigure (b : Budget) (configured_mbps min_mbps : f64) (controllers : list Controller) : Budget * list Controller :=
  let b := b <| bu_configured_mbps := configured_mbps |> <| bu_min_mbps := f64_min min_mbps configured_mbps |> in
  Budget_rebound b (bu_guests b) controllers.

(** The loop over the controllers and their samples. *)
Fixpoint tick_loop (best : option f64) (controllers : list Controller) (samples : list Sample) : option (list Controller * option f64) :=
  match controllers, samples with
  | c :: controllers, s :: samples =>
      match Controller_tick c (sm_window s) (sm_stale s) (sm_measured_mbps s) with
      | (_, None) => None
      | (c, Some rate) =>
          let best := Some (match best with Some current => f64_min current rate | None => rate end) in
          '(controllers, best) ← tick_loop best controllers samples; Some (c :: controllers, best)
      end
  | _, _ => Some (controllers, best)
  end.

Definition f64_abs (x : f64) : f64 := SFabs x.

Definition Budget_tick (b : Budget) (controllers : list Controller) (samples : list Sample) : option (Budget * list Controller * option f64) :=
  '(controllers, best) ← tick_loop None controllers samples;
  match best with
  | None => Some (b, controllers, None)
  | Some best =>
      if f64_leb (f64_abs (f64_sub best (bu_applied_mbps b))) DEADBAND_MBPS then Some (b, controllers, None)
      else Some (b <| bu_applied_mbps := best |>, controllers, Some best)
  end.

(** ** A stream's run *)

(** What the stream does with its budget and its guests' controllers. *)
Inductive BudgetOp :=
| OpGuests (guests : Z)
| OpAudio (audio_mbps : f64)
| OpReconfigure (configured_mbps min_mbps : f64)
| OpSeat (level : Z) (lo hi : f64) (guests : Z)
| OpUnseat (index : nat) (guests : Z)
| OpTick (samples : list Sample).

(** The state, and the rate to hand to the encoder. *)
Definition budget_step (op : BudgetOp) (b : Budget) (cs : list Controller) : option (Budget * list Controller * option f64) :=
  match op with
  | OpGuests guests => let '(b, cs) := Budget_rebound b guests cs in Some (b, cs, None)
  | OpAudio audio => let '(b, cs) := Budget_set_audio b audio cs in Some (b, cs, None)
  | OpReconfigure configured min => let '(b, cs) := Budget_reconfigure b configured min cs in Some (b, cs, None)
  | OpSeat level lo hi guests => let '(b, cs) := Budget_rebound b guests (cs ++ [Controller_new level lo hi]) in Some (b, cs, None)
  | OpUnseat index guests => let '(b, cs) := Budget_rebound b guests (swap_remove cs index) in Some (b, cs, None)
  | OpTick samples => Budget_tick b cs samples
  end.

(** The numbers a stream is given: a floor that is a number, and a new controller's
    own bounds in order. *)
Definition budget_op_ok (op : BudgetOp) : Prop :=
  match op with
  | OpReconfigure configured min => f64_is_nan configured = false \/ f64_is_nan min = false
  | OpSeat _ lo hi _ => f64_leb lo hi = true
  | _ => True
  end.

Inductive BudgetRun (configured min : f64) : Budget -> list Controller -> Prop :=
| budget_start : BudgetRun configured min (Budget_new configured min) []
| budget_next b cs op b' cs' rate :
    BudgetRun configured min b cs -> budget_op_ok op -> budget_step op b cs = Some (b', cs', rate) -> BudgetRun configured min b' cs'.

(** Every controller is well formed, within the budget's bounds. *)
Record budget_ok (b : Budget) (cs : list Controller) : Prop := mkBudgetOk {
  bk_min : f64_is_nan (bu_min_mbps b) = false;
  bk_controllers : Forall (fun c => cc_wf c /\ cc_min_mbps c = bu_min_mbps b /\ cc_max_mbps c = Budget_ceiling b) cs;
}.

Lemma max_right x y : f64_is_nan y = false -> f64_leb y (f64_max x y) = true.
Proof.
  intros Hy. unfold f64_max. destruct (f64_is_nan x) eqn:Hx; [by apply leb_refl|]. rewrite Hy.
  destruct (f64_ltb x y) eqn:E; [by apply leb_refl|by apply ltb_false_geb].
Qed.

Lemma ceiling_above b : f64_is_nan (bu_min_mbps b) = false -> f64_leb (bu_min_mbps b) (Budget_ceiling b) = true.
Proof. intros H. by apply max_right. Qed.

Lemma min_not_nan x y : f64_is_nan x = false \/ f64_is_nan y = false -> f64_is_nan (f64_min x y) = false.
Proof. unfold f64_min. destruct (f64_is_nan x) eqn:Hx, (f64_is_nan y) eqn:Hy; intros [|]; try done; by destruct (f64_ltb y x). Qed.

Lemma rebound_ok b guests cs :
  f64_is_nan (bu_min_mbps b) = false -> Forall cc_wf cs -> let '(b', cs') := Budget_rebound b guests cs in budget_ok b' cs'.
Proof.
  intros Hm Hc. unfold Budget_rebound. cbv zeta. set (b' := b <| bu_guests := guests |>). split; [done|]. apply Forall_map. eapply Forall_impl; [|exact Hc].
  intros c Hw. split; [|split].
  - apply (run_wf c (CallBounds _ _) Hw). by apply (ceiling_above b').
  - unfold Controller_set_bounds. cbn. repeat (destruct (f64_gtb _ _); cbn); done.
  - unfold Controller_set_bounds. cbn. repeat (destruct (f64_gtb _ _); cbn); done.
Qed.

Lemma budget_wf b cs : budget_ok b cs -> Forall cc_wf cs.
Proof. intros [_ H]. eapply Forall_impl; [|exact H]. by intros c [? _]. Qed.

Lemma tick_bounds c window stale measured :
  cc_min_mbps (fst (Controller_tick c window stale measured)) = cc_min_mbps c /\ cc_max_mbps (fst (Controller_tick c window stale measured)) = cc_max_mbps c.
Proof.
  unfold Controller_tick. destruct (Controller_is_congested _ _ _).
  - unfold Controller_cut. cbn [fst]. by destruct (_ =? 0).
  - cbn [fst]. destruct (_ =? 0); [|done]. cbn [cc_reset_pending set_field]. destruct (cc_reset_pending c); [done|]. by destruct (f64_gtb _ _).
Qed.

(** A well-formed controller's tick answers within its bounds. *)
Lemma tick_rate c window stale measured :
  cc_wf c -> exists c' rate, Controller_tick c window stale measured = (c', Some rate) /\ cc_wf c' /\
    cc_min_mbps c' = cc_min_mbps c /\ cc_max_mbps c' = cc_max_mbps c /\
    f64_leb (cc_min_mbps c) rate = true /\ f64_leb rate (cc_max_mbps c) = true.
Proof.
  intros Hw. pose proof (tick_wf c window stale measured Hw) as Hw'. pose proof (tick_bounds c window stale measured) as [E1 E2].
  assert (snd (Controller_tick c window stale measured) = Controller_rate_mbps (fst (Controller_tick c window stale measured))) as Hr.
  { unfold Controller_tick. destruct (Controller_is_congested _ _ _); [|done]. unfold Controller_cut. by destruct (_ =? 0). }
  destruct (Controller_tick c window stale measured) as [c' r]. cbn [fst snd] in *. destruct Hw' as [Hb Hc Hp Hs].
  unfold Controller_rate_mbps in Hr. destruct (f64_clamp (cc_current_mbps c') (cc_min_mbps c') (cc_max_mbps c')) as [x|] eqn:E.
  - destruct (clamp_bounds _ _ _ _ E Hc) as [H1 H2]. exists c', x. rewrite Hr, <- E1, <- E2. done.
  - unfold f64_clamp in E. by rewrite Hb in E.
Qed.

(** The least of the rates the controllers of these guests answer. *)
Definition within (lo hi : f64) (rate : f64) : Prop := f64_leb lo rate = true /\ f64_leb rate hi = true.

Lemma min_within lo hi x y : within lo hi x -> within lo hi y -> within lo hi (f64_min x y).
Proof.
  intros Hx Hy. unfold f64_min. destruct (leb_not_nan _ _ (proj2 Hx)) as [-> _], (leb_not_nan _ _ (proj2 Hy)) as [-> _]. by destruct (f64_ltb y x).
Qed.

Lemma tick_loop_ok lo hi best cs samples :
  Forall (fun c => cc_wf c /\ cc_min_mbps c = lo /\ cc_max_mbps c = hi) cs -> (forall r, best = Some r -> within lo hi r) ->
  exists cs' best', tick_loop best cs samples = Some (cs', best') /\
    Forall (fun c => cc_wf c /\ cc_min_mbps c = lo /\ cc_max_mbps c = hi) cs' /\ (forall r, best' = Some r -> within lo hi r).
Proof.
  intros Hc. revert best samples. induction Hc as [|c cs (Hw & Elo & Ehi) Hc IH]; intros best samples Hb; [by exists [], best|].
  destruct samples as [|s samples]; [exists (c :: cs), best; split; [done|split; [by constructor|done]]|].
  cbn [tick_loop]. destruct (tick_rate c (sm_window s) (sm_stale s) (sm_measured_mbps s) Hw) as (c' & rate & -> & Hw' & E1 & E2 & H1 & H2).
  rewrite Elo, Ehi in *. assert (within lo hi rate) as Hrate by done.
  destruct (IH (Some (match best with Some current => f64_min current rate | None => rate end)) samples) as (cs' & best' & -> & Hcs' & Hb').
  { intros r [= <-]. destruct best as [current|]; [apply min_within; [by apply Hb|done]|done]. }
  exists (c' :: cs'), best'. split; [done|]. split; [|done]. by constructor.
Qed.

Lemma budget_step_ok op b cs :
  budget_ok b cs -> budget_op_ok op ->
  exists b' cs' rate, budget_step op b cs = Some (b', cs', rate) /\ budget_ok b' cs' /\
    (forall r, rate = Some r -> within (bu_min_mbps b) (Budget_ceiling b) r).
Proof.
  intros Hb Hop. pose proof (budget_wf _ _ Hb) as Hw. destruct Hb as [Hm Hc]. destruct op; cbn [budget_step].
  - pose proof (rebound_ok b guests cs Hm Hw). destruct (Budget_rebound b guests cs). by eexists _, _, _.
  - unfold Budget_set_audio. set (b1 := b <| bu_audio_mbps := _ |>). pose proof (rebound_ok b1 (bu_guests b1) cs Hm Hw). destruct (Budget_rebound b1 _ cs). by eexists _, _, _.
  - unfold Budget_reconfigure. set (b1 := b <| bu_configured_mbps := _ |> <| bu_min_mbps := _ |>).
    assert (f64_is_nan (bu_min_mbps b1) = false) as Hm1 by (apply min_not_nan; cbn in Hop; tauto).
    pose proof (rebound_ok b1 (bu_guests b1) cs Hm1 Hw). destruct (Budget_rebound b1 _ cs). by eexists _, _, _.
  - assert (Forall cc_wf (cs ++ [Controller_new level lo hi])) as Hw1 by (apply Forall_app; split; [done|constructor; [by apply new_cc_wf|constructor]]).
    pose proof (rebound_ok b guests _ Hm Hw1). destruct (Budget_rebound b guests _). by eexists _, _, _.
  - pose proof (rebound_ok b guests _ Hm (Forall_swap_remove _ _ index Hw)). destruct (Budget_rebound b guests _). by eexists _, _, _.
  - unfold Budget_tick. destruct (tick_loop_ok _ _ None cs samples Hc ltac:(done)) as (cs' & best & -> & Hc' & Hbest). cbn [mbind option_bind].
    destruct best as [best|]; [|by exists b, cs', None].
    destruct (f64_leb _ DEADBAND_MBPS); [by exists b, cs', None|]. eexists _, cs', _. split; [done|]. split; [by split|]. intros r [= <-]. by apply Hbest.
Qed.

Lemma budget_run_ok configured min b cs : f64_is_nan min = false -> BudgetRun configured min b cs -> budget_ok b cs.
Proof.
  intros Hm. induction 1 as [|b cs op b' cs' rate _ IH Hop E]; [by split; [|constructor]|].
  destruct (budget_step_ok op b cs IH Hop) as (b1 & cs1 & r1 & E1 & Hok & _). rewrite E in E1. by injection E1 as <- <- <-.
Qed.

(** C22: The rate is shared. Whatever the room does (guests arriving and leaving, sound
    charged, the rate reconfigured, ticks on any measurements), no tick panics, and a
    rate handed to the encoder is at least the floor and at most the ceiling, which is
    what sound leaves of the configured rate divided by the guests, or the floor where
    that is more; and it is handed over only when it moved past the deadband. *)
Theorem rate_shared configured min b cs samples :
  f64_is_nan min = false -> BudgetRun configured min b cs ->
  exists b' cs' rate, Budget_tick b cs samples = Some (b', cs', rate) /\
    match rate with
    | Some r => f64_leb (bu_min_mbps b) r = true /\
        f64_leb r (f64_max (f64_div (f64_max (f64_sub (bu_configured_mbps b) (bu_audio_mbps b)) f64_zero) (f64_of_Z (Z.max (bu_guests b) 1))) (bu_min_mbps b)) = true /\
        bu_applied_mbps b' = r /\ f64_leb (f64_abs (f64_sub r (bu_applied_mbps b))) DEADBAND_MBPS = false
    | None => b' = b
    end.
Proof.
  intros Hm Hr. pose proof (budget_run_ok _ _ _ _ Hm Hr) as Hok. destruct (budget_step_ok (OpTick samples) b cs Hok I) as (b' & cs' & rate & E & _ & Hrate).
  cbn [budget_step] in E. exists b', cs', rate. split; [done|]. unfold Budget_tick in E.
  destruct (tick_loop None cs samples) as [[cs1 best]|]; [|done]. cbn [mbind option_bind] in E. destruct best as [best|]; [|by injection E as <- <- <-].
  destruct (f64_leb _ DEADBAND_MBPS) eqn:Ed; injection E as <- <- <-; [done|]. destruct (Hrate best eq_refl) as [H1 H2]. done.
Qed.

(** Two guests, sound, and a tick. *)
Lemma rate_shared_witness :
  exists b cs, BudgetRun (f64_of_Z 20) (f64_of_Z 1) b cs /\ zlen cs = 2 /\
    exists b' cs' r, Budget_tick b cs [mkSample 50 0 f64_zero; mkSample 50 0 f64_zero] = Some (b', cs', Some r) /\
      f64_leb (f64_of_Z 1) r = true /\ f64_leb r (f64_of_Z 9) = true.
Proof.
  set (c := Controller_new 1 (f64_of_Z 1) (f64_of_Z 20)).
  destruct (budget_step (OpSeat 1 (f64_of_Z 1) (f64_of_Z 20) 1) (Budget_new (f64_of_Z 20) (f64_of_Z 1)) []) as [[[b1 cs1] r1]|] eqn:E1; [|vm_compute in E1; discriminate].
  destruct (budget_step (OpSeat 1 (f64_of_Z 1) (f64_of_Z 20) 2) b1 cs1) as [[[b2 cs2] r2]|] eqn:E2; [|injection E1 as <- <- <-; vm_compute in E2; discriminate].
  destruct (budget_step (OpAudio (f64_of_Z 2)) b2 cs2) as [[[b cs] r3]|] eqn:E3; [|injection E1 as <- <- <-; injection E2 as <- <- <-; vm_compute in E3; discriminate].
  assert (BudgetRun (f64_of_Z 20) (f64_of_Z 1) b cs) as Hrun.
  { eapply budget_next; [eapply budget_next; [eapply budget_next; [apply budget_start| |exact E1]| |exact E2]| |exact E3]; vm_compute; reflexivity || exact I. }
  destruct (rate_shared (f64_of_Z 20) (f64_of_Z 1) b cs [mkSample 50 0 f64_zero; mkSample 50 0 f64_zero] eq_refl Hrun) as (b' & cs' & rate & E & H).
  exists b, cs. split; [exact Hrun|]. injection E1 as <- <- <-. injection E2 as <- <- <-. vm_compute in E3. injection E3 as <- <- <-. split; [reflexivity|].
  destruct rate as [r|]; [|vm_compute in E; discriminate]. exists b', cs', r. split; [exact E|].
  destruct H as (H1 & H2 & _). split; [exact H1|]. vm_compute in E. injection E as <- <- <-. vm_compute. reflexivity.
Defined.
