(* ===== verification/Arbiter.v ===== *)
(** Who has the pointer (crates/host/src/floor.rs), and the two places a guest's thread
    asks (crates/host/src/admission.rs): with each message that moves a pointer, and once
    a pass.

    The floor is one state under a lock, so each operation is one step of it; a poisoned
    lock is not modelled. An operation that may announce a change of holder answers it as
    well. *)

From S2P Require Import Prelude Float64 CoreError Slots Control Pad Gamepad Injector InjectorFacts InjectorPads InjectorSpec.

Definition HOLD_MS : f64 := f64_of_Z 500.
Definition HOLD_MIN_MS : f64 := f64_of_Z 50.
Definition HOLD_MAX_MS : f64 := f64_of_Z 5000.

(** [Floor], what it shares, and its state. *)
Record Floor := mkFloor {
  fl_enabled : bool;
  fl_hold_ms : f64;
  fl_holder : option Z;
  fl_since_ms : f64;
}.
#[export] Instance Floor_eta : Eta Floor := fun f => mkFloor (fl_enabled f) (fl_hold_ms f) (fl_holder f) (fl_since_ms f).

Definition Floor_with_hold (enabled : bool) (hold_ms : f64) : Floor :=
  let hold_ms := if f64_is_finite hold_ms then f64_clamp_to hold_ms HOLD_MIN_MS HOLD_MAX_MS else HOLD_MS in
  mkFloor enabled hold_ms None f64_zero.
Definition Floor_new (enabled : bool) : Floor := Floor_with_hold enabled HOLD_MS.

(** Whether the last movement is within the hold. *)
Definition within_hold (f : Floor) (now_ms : f64) : bool := f64_ltb (f64_sub now_ms (fl_since_ms f)) (fl_hold_ms f).

(** [claim]: the answer, and the new holder where it changed. *)
Definition Floor_claim (f : Floor) (guest : Z) (owner : bool) (now_ms : f64) : Floor * bool * option Z :=
  if negb (fl_enabled f) then (f, true, None)
  else
  let refused := match fl_holder f with
                 | Some held => negb (held =? guest) && negb owner && within_hold f now_ms
                 | None => false
                 end in
  if refused then (f, false, None)
  else
  let raised := if bool_decide (fl_holder f = Some guest) then None else Some guest in
  (f <| fl_holder := Some guest |> <| fl_since_ms := now_ms |>, true, raised).

Definition Floor_refresh (f : Floor) (guest : Z) (now_ms : f64) : Floor :=
  if negb (fl_enabled f) then f
  else if bool_decide (fl_holder f = Some guest) then f <| fl_since_ms := now_ms |> else f.

Definition Floor_holds (f : Floor) (guest : Z) (now_ms : f64) : bool :=
  if negb (fl_enabled f) then true
  else match fl_holder f with
       | Some held => (held =? guest) || f64_geb (f64_sub now_ms (fl_since_ms f)) (fl_hold_ms f)
       | None => true
       end.

Definition Floor_release (f : Floor) (guest : Z) : Floor :=
  if bool_decide (fl_holder f = Some guest) then f <| fl_holder := None |> else f.

(** ** A guest's thread *)

Definition follow_pointer (f : Floor) (guest : Z) (now_ms : f64) (s : Injector) : Floor * Injector * list SinkCall :=
  let f := if holds_pointer_button s then Floor_refresh f guest now_ms else f in
  let holds := Floor_holds f guest now_ms in
  let '(s, out) := set_floor holds s in (f, s, out).

Definition moves_the_pointer (opcode : Z) : bool :=
  (opcode =? op_MOUSE_BUTTON) || (opcode =? op_MOUSE_WHEEL) || (opcode =? op_MOUSE_MOTION) || (opcode =? op_MOUSE_MOTION_STREAM).

(** What [drain_control] does with a message it offers to the input. *)
Definition take_input (f : Floor) (guest : Z) (owner : bool) (now_ms : f64) (host : option Locks) (takes : bool) (message : Control) (s : Injector) :
    Floor * Injector * list SinkCall :=
  let '(f, s, out) :=
    if moves_the_pointer (ct_opcode message) then
      let '(f, holds, _) := Floor_claim f guest owner now_ms in
      let '(s, out) := set_floor holds s in (f, s, out)
    else (f, s, []) in
  let '(s, out') := on_control host takes message s in (f, s, out ++ out').

(** ** The floor as others leave it *)

Inductive FloorOp :=
| FloorClaim (guest : Z) (owner : bool) (now_ms : f64)
| FloorRefresh (guest : Z) (now_ms : f64)
| FloorHolds (guest : Z) (now_ms : f64)
| FloorRelease (guest : Z).

Definition floor_step (f : Floor) (op : FloorOp) : Floor :=
  match op with
  | FloorClaim guest owner now_ms => fst (fst (Floor_claim f guest owner now_ms))
  | FloorRefresh guest now_ms => Floor_refresh f guest now_ms
  | FloorHolds _ _ => f
  | FloorRelease guest => Floor_release f guest
  end.

(** An operation of a guest other than [holder], which may not take the pointer from it
    at the time it comes. *)
Definition cannot_take (holder : Z) (f : Floor) (op : FloorOp) : Prop :=
  match op with
  | FloorClaim guest owner now_ms => guest <> holder /\ owner = false /\ within_hold f now_ms = true
  | FloorRefresh guest _ | FloorRelease guest => guest <> holder
  | FloorHolds _ _ => True
  end.

Lemma cannot_take_step holder f op :
  fl_enabled f = true -> fl_holder f = Some holder -> cannot_take holder f op -> floor_step f op = f.
Proof.
  intros He Hh. destruct op as [guest owner now_ms|guest now_ms|guest now_ms|guest]; cbn [cannot_take floor_step]; [|intros Hne..|].
  - intros (Hne & -> & Hw). unfold Floor_claim. rewrite He, Hh, Hw. cbn [negb]. destruct (Z.eqb_spec holder guest); [done|]. done.
  - unfold Floor_refresh. rewrite He, Hh. cbn [negb]. rewrite bool_decide_eq_false_2 by congruence. done.
  - done.
  - intros Hne. unfold Floor_release. rewrite Hh, bool_decide_eq_false_2 by congruence. done.
Qed.

Lemma cannot_take_run holder f ops :
  fl_enabled f = true -> fl_holder f = Some holder -> Forall (cannot_take holder f) ops -> foldl floor_step f ops = f.
Proof. intros He Hh H. induction H as [|op ops Hop _ IH]; [done|]. cbn [foldl]. by rewrite (cannot_take_step holder). Qed.

Lemma claim_granted f guest owner now_ms f' raised :
  fl_enabled f = true -> Floor_claim f guest owner now_ms = (f', true, raised) ->
  fl_enabled f' = true /\ fl_hold_ms f' = fl_hold_ms f /\ fl_holder f' = Some guest /\ fl_since_ms f' = now_ms.
Proof.
  intros He. unfold Floor_claim. rewrite He. cbn [negb]. destruct (match fl_holder f with Some held => _ | None => false end); [done|].
  intros [= <- _]. done.
Qed.

Lemma ltb_not_geb x y : f64_ltb x y = true -> f64_geb x y = false.
Proof.
  unfold f64_ltb, f64_geb, SpecFloat.SFltb, SpecFloat.SFleb. rewrite (SFcompare_swap x y). by destruct (SpecFloat.SFcompare x y) as [[]|].
Qed.

(** The hold is within its bounds, whatever was asked for. *)
Lemma hold_bounds enabled hold_ms :
  f64_leb HOLD_MIN_MS (fl_hold_ms (Floor_with_hold enabled hold_ms)) = true /\ f64_leb (fl_hold_ms (Floor_with_hold enabled hold_ms)) HOLD_MAX_MS = true.
Proof.
  unfold Floor_with_hold. cbn [fl_hold_ms]. destruct (f64_is_finite hold_ms) eqn:E; [|by vm_compute].
  apply (clamp_bounds hold_ms); [by unfold f64_clamp|by destruct hold_ms].
Qed.

(** ** What a guest without the pointer does *)

Lemma set_floor_false s tr :
  Inv s tr -> exists s' out, set_floor false s = (s', out) /\ Inv s' (tr ++ out) /\ ij_floor s' = false /\ Forall only_releases out.
Proof.
  intros Hi. destruct (set_floor_inv false s tr Hi) as (s' & out & E & Hi'). exists s', out. split; [done|]. split; [done|]. unfold set_floor in E.
  pose proof (release_buttons_calls s tr (in_ready _ _ (in_base _ _ Hi)) (in_buttons _ _ (in_base _ _ Hi))) as Hc.
  rewrite andb_true_r in E. destruct (ij_floor s); [|by injection E as <- <-]. destruct (release_buttons s) as [s1 o1]. by injection E as <- <-.
Qed.

Lemma floor_lost_up s tr d c : Inv s tr -> ij_floor s = false -> pointing d -> down d c tr = false.
Proof.
  intros Hi Hf Hd. apply not_true_is_false. intros H. destruct (bi_down _ _ (in_buttons _ _ (in_base _ _ Hi)) d c Hd H) as (i & Hi0 & _ & Hb & _).
  apply (in_bidle _ _ Hi) in Hb; [done| |done]. unfold pointer_allowed. rewrite Hf. by destruct (pm_pointer _).
Qed.

Lemma moves_refused host takes message s :
  moves_the_pointer (ct_opcode message) = true -> ij_floor s = false -> exists s', on_control host takes message s = (s', []).
Proof.
  unfold moves_the_pointer. intros Hm Hf. unfold on_control. cbv zeta. set (s1 := s <| ij_tally := _ |>).
  assert (pointer_allowed s1 = false) as -> by (unfold pointer_allowed; change (ij_floor s1) with (ij_floor s); rewrite Hf; by destruct (pm_pointer _)).
  rewrite !andb_false_r.
  assert (forall o, In o [op_KEYBOARD; op_PAD_REPORT; op_GAMEPAD_BUTTON; op_GAMEPAD_AXIS; op_GAMEPAD_UNPLUG; op_GAMEPAD_STATE; op_RELEASE] -> (ct_opcode message =? o) = false) as Hne.
  { intros o Ho. apply Z.eqb_neq. intros E. rewrite E in Hm. cbn [In] in Ho. repeat destruct Ho as [<-|Ho]; [vm_compute in Hm; discriminate..|destruct Ho]. }
  rewrite !Hne by (cbn [In]; tauto). cbn [andb]. by eexists.
Qed.

(** C20: One driver, where arbitration is on. Once a guest's claim of the pointer is granted,
    no other guest but an owner can take it within the hold, whatever the others ask. Let
    another guest's injector have stranded no button, that is, no button was pressed again
    while it was held on the other pointer ([repress_strands_button]). Then what that
    guest's thread does meanwhile reaches no pointer: neither a message that would move one
    nor a pass of its loop presses, moves or scrolls anything, and each lets go of every
    button the guest still held, so that after it nothing of it is down on a pointer. *)
Theorem one_driver f a owner t f1 raised ops g now_ms extents s tr :
  fl_enabled f = true -> Floor_claim f a owner t = (f1, true, raised) -> Forall (cannot_take a f1) ops ->
  g <> a -> f64_ltb (f64_sub now_ms t) (fl_hold_ms f) = true -> Reach extents s tr ->
  foldl floor_step f1 ops = f1 /\ fl_holder f1 = Some a /\ (forall now, Floor_holds f1 a now = true) /\ Floor_holds f1 g now_ms = false /\
  (let '(f2, s', out) := follow_pointer f1 g now_ms s in
   f2 = f1 /\ Forall only_releases out /\ forall d c, pointing d -> down d c (tr ++ out) = false) /\
  (forall host takes message, moves_the_pointer (ct_opcode message) = true ->
   let '(f2, s', out) := take_input f1 g false now_ms host takes message s in
   f2 = f1 /\ Forall only_releases out /\ forall d c, pointing d -> down d c (tr ++ out) = false).
Proof.
  intros He Hc Hops Hga Hlt Hreach%reach_inv. destruct (claim_granted _ _ _ _ _ _ He Hc) as (He1 & Hh1 & Ha1 & Ht1).
  assert (within_hold f1 now_ms = true) as Hw by (unfold within_hold; by rewrite Ht1, Hh1). pose proof (ltb_not_geb _ _ Hlt) as Hge.
  assert (Floor_holds f1 g now_ms = false) as Hnot.
  { unfold Floor_holds. rewrite He1, Ha1, Ht1, Hh1, Hge. cbn [negb]. destruct (Z.eqb_spec a g); [congruence|done]. }
  assert (Floor_refresh f1 g now_ms = f1) as Hrf by (apply (cannot_take_step a f1 (FloorRefresh g now_ms)); done).
  destruct (set_floor_false s tr Hreach) as (s' & out & E & Hi' & Hf' & Hout).
  split; [by apply (cannot_take_run a)|]. split; [done|]. split; [|split; [done|split]].
  - intros now. unfold Floor_holds. rewrite He1, Ha1. cbn [negb]. by rewrite Z.eqb_refl.
  - unfold follow_pointer. assert ((if holds_pointer_button s then Floor_refresh f1 g now_ms else f1) = f1) as -> by (by destruct (holds_pointer_button s)).
    rewrite Hnot, E. split; [done|]. split; [done|]. intros d c Hd. by apply (floor_lost_up s').
  - intros host takes message Hm. unfold take_input. rewrite Hm. assert (Floor_claim f1 g false now_ms = (f1, false, None)) as ->.
    { unfold Floor_claim. rewrite He1, Ha1, Hw. cbn [negb]. destruct (Z.eqb_spec a g); [congruence|done]. }
    rewrite E. destruct (moves_refused host takes message s' Hm Hf') as [s2 ->]. rewrite app_nil_r. split; [done|]. split; [done|].
    intros d c Hd. by apply (floor_lost_up s').
Qed.

(** Guest 1 takes the pointer while guest 2, which had it before, holds a button. *)
Lemma one_driver_witness :
  exists s tr f1, run [msg op_MOUSE_BUTTON 1 1 0] (Injector_new screen) [] = Some (s, tr) /\ down Pointer BTN_LEFT tr = true /\
    Floor_claim (Floor_new true) 1 false (f64_of_Z 1000) = (f1, true, Some 1) /\
    (let '(_, _, out) := follow_pointer f1 2 (f64_of_Z 1200) s in Forall only_releases out /\ down Pointer BTN_LEFT (tr ++ out) = false) /\
    Floor_holds f1 2 (f64_of_Z 1200) = false.
Proof.
  destruct (run [msg op_MOUSE_BUTTON 1 1 0] (Injector_new screen) []) as [[s tr]|] eqn:E; [|vm_compute in E; discriminate].
  destruct (Floor_claim (Floor_new true) 1 false (f64_of_Z 1000)) as [[f1 b] r] eqn:Ef. exists s, tr, f1.
  assert (b = true /\ r = Some 1) as [-> ->] by (vm_compute in Ef; injection Ef as _ <- <-; split; reflexivity).
  assert (option_map (fun r => down Pointer BTN_LEFT (snd r)) (run [msg op_MOUSE_BUTTON 1 1 0] (Injector_new screen) []) = Some true) as Hd by (vm_compute; reflexivity).
  rewrite E in Hd. injection Hd as Hd.
  destruct (one_driver (Floor_new true) 1 false (f64_of_Z 1000) f1 (Some 1) [FloorRefresh 2 (f64_of_Z 1100)] 2 (f64_of_Z 1200) screen s tr) as (_ & _ & _ & Hn & Hf & _).
  - vm_compute. reflexivity.
  - exact Ef.
  - repeat constructor. cbn. lia.
  - lia.
  - vm_compute. reflexivity.
  - exact (run_reach screen [msg op_MOUSE_BUTTON 1 1 0] _ _ _ _ (reach_new screen) E).
  - split; [reflexivity|]. split; [exact Hd|]. split; [reflexivity|]. destruct (follow_pointer f1 2 (f64_of_Z 1200) s) as [[f2 s'] out].
    destruct Hf as (_ & Ho & Hup). split; [|exact Hn]. split; [exact Ho|apply Hup; left; reflexivity].
Defined.
