(* ===== verification/Negotiation.v ===== *)
(** Session initialization and what a stream owes its peer after it
    (crates/host/src/session.rs).  Logging, and with it nothing else, is left out. *)

From Stdlib Require Import SpecFloat.
From S2P Require Import Prelude CoreError Float64 Control Init Rate.

Definition INIT_DEADLINE_MS : f64 := f64_of_Z 5000.
Definition PRIMARY_STREAM : Z := 0.
Definition LATENCY_INTERVAL_MS : f64 := f64_of_Z 2000.
Definition LATENCY_WEIGHT : f64 := f64_lit 1 10.

(** [session::State]. *)
Inductive NegotiationState := AwaitingInit | NegotiationReady | Abandoned.
#[global] Instance NegotiationState_eq_dec : EqDecision NegotiationState.
Proof. solve_decision. Defined.

Record Negotiation := mkNegotiation {
  ne_state : NegotiationState;
  ne_opened_ms : f64;
  ne_asked : option Init;
  ne_flags : Z;
  ne_reconfigure : bool;
  ne_seen : Z;
  ne_frames : Z;
  ne_latency_ms : f64;
  ne_reported_ms : option f64;
  ne_announce : option Z;
}.
#[export] Instance Negotiation_eta : Eta Negotiation := fun n =>
  mkNegotiation (ne_state n) (ne_opened_ms n) (ne_asked n) (ne_flags n) (ne_reconfigure n) (ne_seen n) (ne_frames n) (ne_latency_ms n)
    (ne_reported_ms n) (ne_announce n).

Definition Negotiation_opened (now_ms : f64) : Negotiation :=
  mkNegotiation AwaitingInit now_ms None 0 false 0 0 f64_zero None None.

Definition Negotiation_ready (n : Negotiation) : bool := bool_decide (ne_state n = NegotiationReady).

Definition Negotiation_tick (n : Negotiation) (now_ms : f64) : Negotiation * NegotiationState :=
  let n := if bool_decide (ne_state n = AwaitingInit) && f64_geb (f64_sub now_ms (ne_opened_ms n)) INIT_DEADLINE_MS
           then n <| ne_state := Abandoned |> else n in
  (n, ne_state n).

Definition Negotiation_note (n : Negotiation) (message : Control) : Negotiation :=
  let bit := Z.shiftl 1 (Z.min (ct_opcode message) 63) in
  if negb (Z.land (ne_seen n) bit =? 0) then n else n <| ne_seen := Z.lor (ne_seen n) bit |>.

Definition Negotiation_on_control (n : Negotiation) (message : Control) : Negotiation * bool :=
  let n := Negotiation_note n message in
  if ct_opcode message =? op_INIT then
    if negb (bool_decide (ne_state n = AwaitingInit)) then (n, true)
    else match init_parse (ct_body message) with
         | Ok asked =>
             (n <| ne_flags := Z.lor (in_flags asked) FLAG_FULL_RANGE |> <| ne_asked := Some asked |> <| ne_state := NegotiationReady |>, true)
         | Err _ => (n, true)
         end
  else if ct_opcode message =? op_ENCODER_CONFIG then
    if negb (ct_a0 message =? PRIMARY_STREAM) then (n, true)
    else
    let n := n <| ne_flags := Z.lor (ct_a1 message) FLAG_FULL_RANGE |> in
    (if negb (ct_a2 message =? 0) then n <| ne_reconfigure := true |> else n, true)
  else (n, false).

Definition Negotiation_take_reconfigure (n : Negotiation) : Negotiation * bool := (n <| ne_reconfigure := false |>, ne_reconfigure n).

Definition Negotiation_encoder_initialised (n : Negotiation) (generation : Z) : Negotiation := n <| ne_announce := Some generation |>.

(** [on_frame]: its [Reports] are the generation they announce. *)
Definition Negotiation_on_frame (n : Negotiation) (sample_ms : f64) : Negotiation * option Z :=
  let n := n <| ne_frames := wadd 64 (ne_frames n) 1 |> in
  let n := n <| ne_latency_ms :=
    if ne_frames n =? 1 then sample_ms
    else f64_add (f64_mul (f64_sub (f64_of_Z 1) LATENCY_WEIGHT) (ne_latency_ms n)) (f64_mul LATENCY_WEIGHT sample_ms) |> in
  (n <| ne_announce := None |>, ne_announce n).

Definition microseconds (ms : f64) : Z :=
  let us := f64_mul ms (f64_of_Z 1000) in
  if negb (f64_is_finite us) || f64_leb us f64_zero then 0
  else if f64_geb us (f64_of_Z (2 ^ 32 - 1)) then 2 ^ 32 - 1
  else f64_as_u32 us.

Definition Negotiation_latency_report (n : Negotiation) (now_ms : f64) (stream : Z) : Negotiation * option Control :=
  let due := match ne_reported_ms n with None => true | Some last => f64_geb (f64_sub now_ms last) LATENCY_INTERVAL_MS end in
  if negb due then (n, None)
  else (n <| ne_reported_ms := Some now_ms |>, Some (mkControl 1 (microseconds (ne_latency_ms n)) stream op_ENCODE_LATENCY [])).

Definition Reports_generation_message (generation : option Z) (stream : Z) : option Control :=
  (fun g => mkControl stream g 0 op_ENCODER_GENERATION []) <$> generation.

(** ** A guest's run *)

Inductive NegotiationOp :=
| OpTake (message : Control)
| OpTick (now_ms : f64)
| OpFrame (sample_ms : f64)
| OpLatency (now_ms : f64) (stream : Z)
| OpInitialised (generation : Z)
| OpTakeReconfigure.

(** What an operation answers, where it goes out to somebody. *)
Inductive Said :=
| SaidGeneration (generation : Z)
| SaidLatency (now_ms : f64) (message : Control)
| SaidReconfigure.

Definition negotiation_step (n : Negotiation) (op : NegotiationOp) : Negotiation * list Said :=
  match op with
  | OpTake message => (fst (Negotiation_on_control n message), [])
  | OpTick now_ms => (fst (Negotiation_tick n now_ms), [])
  | OpFrame sample_ms => let '(n, g) := Negotiation_on_frame n sample_ms in (n, match g with Some g => [SaidGeneration g] | None => [] end)
  | OpLatency now_ms stream => let '(n, m) := Negotiation_latency_report n now_ms stream in (n, match m with Some m => [SaidLatency now_ms m] | None => [] end)
  | OpInitialised generation => (Negotiation_encoder_initialised n generation, [])
  | OpTakeReconfigure => let '(n, b) := Negotiation_take_reconfigure n in (n, if b : bool then [SaidReconfigure] else [])
  end.

(** The run, its operations newest first, and what was said, newest first. *)
Fixpoint negotiation_run (opened_ms : f64) (ops : list NegotiationOp) : Negotiation * list Said :=
  match ops with
  | [] => (Negotiation_opened opened_ms, [])
  | op :: ops => let '(n, said) := negotiation_run opened_ms ops in let '(n, more) := negotiation_step n op in (n, more ++ said)
  end.

(** ** What settles it *)

(** The outcome, by the operations alone: the first declaration that reads, or the
    first tick at the deadline, whichever comes first. *)
Fixpoint outcome (opened_ms : f64) (ops : list NegotiationOp) : NegotiationState * option Init :=
  match ops with
  | [] => (AwaitingInit, None)
  | op :: ops =>
      match outcome opened_ms ops with
      | (AwaitingInit, _) =>
          match op with
          | OpTake message =>
              if ct_opcode message =? op_INIT
              then match init_parse (ct_body message) with Ok asked => (NegotiationReady, Some asked) | Err _ => (AwaitingInit, None) end
              else (AwaitingInit, None)
          | OpTick now_ms => if f64_geb (f64_sub now_ms opened_ms) INIT_DEADLINE_MS then (Abandoned, None) else (AwaitingInit, None)
          | _ => (AwaitingInit, None)
          end
      | settled => settled
      end
  end.

(** The flags in force: the latest declaration about the stream sent. *)
Fixpoint declared (opened_ms : f64) (ops : list NegotiationOp) : Z :=
  match ops with
  | [] => 0
  | OpTake message :: ops =>
      if ct_opcode message =? op_INIT then
        match fst (outcome opened_ms ops), init_parse (ct_body message) with
        | AwaitingInit, Ok asked => Z.lor (in_flags asked) FLAG_FULL_RANGE
        | _, _ => declared opened_ms ops
        end
      else if (ct_opcode message =? op_ENCODER_CONFIG) && (ct_a0 message =? PRIMARY_STREAM) then Z.lor (ct_a1 message) FLAG_FULL_RANGE
      else declared opened_ms ops
  | _ :: ops => declared opened_ms ops
  end.

(** The generation the next frame owes: the latest initialization since the last frame. *)
Fixpoint owed (ops : list NegotiationOp) : option Z :=
  match ops with
  | [] => None
  | OpInitialised generation :: _ => Some generation
  | OpFrame _ :: _ => None
  | _ :: ops => owed ops
  end.

(** Whether a reinitialization was asked for since it was last taken. *)
Fixpoint asked_again (ops : list NegotiationOp) : bool :=
  match ops with
  | [] => false
  | OpTake message :: ops =>
      ((ct_opcode message =? op_ENCODER_CONFIG) && (ct_a0 message =? PRIMARY_STREAM) && negb (ct_a2 message =? 0)) || asked_again ops
  | OpTakeReconfigure :: _ => false
  | _ :: ops => asked_again ops
  end.

(** When the latency last went out. *)
Fixpoint reported (said : list Said) : option f64 :=
  match said with
  | [] => None
  | SaidLatency now_ms _ :: _ => Some now_ms
  | _ :: said => reported said
  end.

Record negotiation_ok (opened_ms : f64) (ops : list NegotiationOp) (n : Negotiation) (said : list Said) : Prop := mkNegotiationOk {
  nk_outcome : outcome opened_ms ops = (ne_state n, ne_asked n);
  nk_opened : ne_opened_ms n = opened_ms;
  nk_flags : ne_flags n = declared opened_ms ops;
  nk_announce : ne_announce n = owed ops;
  nk_reconfigure : ne_reconfigure n = asked_again ops;
  nk_reported : ne_reported_ms n = reported said;
}.

Lemma note_fields n message : exists seen, Negotiation_note n message = n <| ne_seen := seen |>.
Proof. unfold Negotiation_note. destruct (negb _); [exists (ne_seen n); by destruct n|by eexists]. Qed.

Lemma outcome_awaiting opened_ms ops a : outcome opened_ms ops = (AwaitingInit, a) -> a = None.
Proof.
  revert a. induction ops as [|op ops IH]; intros a; cbn [outcome]; [by intros [= <-]|].
  destruct (outcome opened_ms ops) as [[] b]; [|done..]. intros H. repeat case_match; by simplify_eq.
Qed.

(** An operation that settles nothing. *)
Lemma outcome_same opened_ms ops op n said :
  negotiation_ok opened_ms ops n said ->
  match op with OpTake message => (ct_opcode message =? op_INIT) = false | OpTick now_ms => f64_geb (f64_sub now_ms opened_ms) INIT_DEADLINE_MS = false | _ => True end ->
  outcome opened_ms (op :: ops) = (ne_state n, ne_asked n).
Proof.
  intros [Ho _ _ _ _ _] Hop. cbn [outcome]. rewrite Ho. destruct (ne_state n) eqn:Es; [|done..].
  rewrite (outcome_awaiting _ _ _ Ho). by destruct op; rewrite ?Hop.
Qed.

Lemma take_ok opened_ms ops n said message :
  negotiation_ok opened_ms ops n said -> negotiation_ok opened_ms (OpTake message :: ops) (fst (Negotiation_on_control n message)) said.
Proof.
  intros Hok. pose proof Hok as [Ho Hop Hf Ha Hr Hrep]. unfold Negotiation_on_control. destruct (note_fields n message) as [seen ->].
  set (n1 := n <| ne_seen := seen |>). assert (bool_decide (ne_state n1 = AwaitingInit) = bool_decide (ne_state n = AwaitingInit)) as -> by done.
  destruct (ct_opcode message =? op_INIT) eqn:Ei.
  - assert ((ct_opcode message =? op_ENCODER_CONFIG) = false) as Ec by (apply Z.eqb_eq in Ei; apply Z.eqb_neq; by rewrite Ei).
    assert (ne_state n <> AwaitingInit -> negotiation_ok opened_ms (OpTake message :: ops) n1 said) as Hsettled.
    { intros Hs. split; cbn [outcome declared owed asked_again]; rewrite ?Ho, ?Ei, ?Ec; cbn [fst andb orb]; try done;
        change (ne_state n1) with (ne_state n); change (ne_asked n1) with (ne_asked n); change (ne_flags n1) with (ne_flags n); destruct (ne_state n) eqn:Es; congruence. }
    destruct (ne_state n) eqn:Es; [rewrite bool_decide_eq_true_2 by done|rewrite bool_decide_eq_false_2 by done; by apply Hsettled..]. cbn [negb].
    pose proof (outcome_awaiting _ _ _ Ho) as Hnone.
    destruct (init_parse (ct_body message)) as [asked|] eqn:Ep; split; cbn [fst]; cbn [outcome declared owed asked_again]; rewrite ?Ho, ?Ei, ?Ec, ?Ep; cbn [fst andb orb]; try done.
    change (ne_state n1) with (ne_state n). change (ne_asked n1) with (ne_asked n). by rewrite Es, Hnone.
  - pose proof (outcome_same opened_ms ops (OpTake message) n said Hok Ei) as Hout.
    destruct (ct_opcode message =? op_ENCODER_CONFIG) eqn:Ec; [|split; cbn [fst declared owed asked_again]; rewrite ?Ei, ?Ec; done].
    destruct (ct_a0 message =? PRIMARY_STREAM) eqn:E0; cbn [negb]; [|split; cbn [fst declared owed asked_again]; rewrite ?Ei, ?Ec, ?E0; done].
    destruct (ct_a2 message =? 0) eqn:E2; cbn [negb]; split; cbn [fst declared owed asked_again]; rewrite ?Ei, ?Ec, ?E0, ?E2; done.
Qed.

Lemma step_ok opened_ms ops n said op :
  negotiation_ok opened_ms ops n said ->
  let '(n', more) := negotiation_step n op in negotiation_ok opened_ms (op :: ops) n' (more ++ said).
Proof.
  intros Hok. pose proof Hok as [Ho Hop Hf Ha Hr Hrep]. destruct op; cbn [negotiation_step].
  - by apply take_ok.
  - unfold Negotiation_tick. destruct (f64_geb (f64_sub now_ms (ne_opened_ms n)) INIT_DEADLINE_MS) eqn:Eg; [|rewrite andb_false_r; split; try done; apply (outcome_same _ _ _ n said Hok); cbn; by rewrite <- Hop].
    rewrite andb_true_r. destruct (ne_state n) eqn:Es; [rewrite bool_decide_eq_true_2 by done|rewrite bool_decide_eq_false_2 by done..];
      (split; try done); cbn [outcome]; rewrite Ho; [|by cbn; rewrite Es..].
    rewrite <- Hop, Eg. cbn. by rewrite (outcome_awaiting _ _ _ Ho).
  - unfold Negotiation_on_frame. cbv zeta. destruct (ne_announce _); split; try done; by apply (outcome_same _ _ _ n said Hok).
  - unfold Negotiation_latency_report. destruct (negb _); split; try done; by apply (outcome_same _ _ _ n said Hok).
  - split; try done. by apply (outcome_same _ _ _ n said Hok).
  - unfold Negotiation_take_reconfigure. destruct (ne_reconfigure n); split; try done; by apply (outcome_same _ _ _ n said Hok).
Qed.

Lemma run_ok opened_ms ops : let '(n, said) := negotiation_run opened_ms ops in negotiation_ok opened_ms ops n said.
Proof.
  induction ops as [|op ops IH]; [done|]. cbn [negotiation_run]. destruct (negotiation_run opened_ms ops) as [n said].
  pose proof (step_ok opened_ms ops n said op IH). by destruct (negotiation_step n op).
Qed.

(** C23: A guest's negotiation is what it was told. Over any run, newest operation first: its
    state and what it asked for are settled once and for all by the first declaration
    that reads or the first tick at the deadline, whichever comes first; its flags are
    the latest declaration about the one stream sent, and carry the mark of a declaration;
    a frame announces the latest initialization since the frame before, once; a
    reinitialization is taken once for the requests since the last; and a latency report
    goes out when none has, or the interval has passed since the one before. *)
Theorem negotiation_follows opened_ms op ops :
  let '(n, said) := negotiation_run opened_ms ops in
  let '(n', more) := negotiation_step n op in
  (ne_state n', ne_asked n') = outcome opened_ms (op :: ops) /\
  (ne_state n <> AwaitingInit -> ne_state n' = ne_state n /\ ne_asked n' = ne_asked n) /\
  ne_flags n' = declared opened_ms (op :: ops) /\ (ne_flags n' <> 0 -> Z.testbit (ne_flags n') 3 = true) /\
  more = match op with
         | OpFrame _ => match owed ops with Some g => [SaidGeneration g] | None => [] end
         | OpTakeReconfigure => if asked_again ops then [SaidReconfigure] else []
         | OpLatency now_ms stream =>
             if match reported said with None => true | Some last => f64_geb (f64_sub now_ms last) LATENCY_INTERVAL_MS end
             then [SaidLatency now_ms (mkControl 1 (microseconds (ne_latency_ms n)) stream op_ENCODE_LATENCY [])] else []
         | _ => []
         end.
Proof.
  pose proof (run_ok opened_ms ops) as Hok. destruct (negotiation_run opened_ms ops) as [n said]. pose proof (step_ok opened_ms ops n said op Hok) as Hok'.
  destruct (negotiation_step n op) as [n' more] eqn:Estep. destruct Hok as [Ho Hop Hf Ha Hr Hrep], Hok' as [Ho' Hop' Hf' Ha' Hr' Hrep'].
  split; [done|]. split; [|split; [done|split]].
  - intros Hs. cbn [outcome] in Ho'. rewrite Ho in Ho'. destruct (ne_state n); [done|by injection Ho' as -> ->..].
  - rewrite Hf'. clear -n. intros Hne. assert (forall a, Z.testbit (Z.lor a FLAG_FULL_RANGE) 3 = true) as Hbit by (intros a; rewrite Z.lor_spec; by rewrite orb_true_r).
    revert Hne. generalize (op :: ops). clear op ops. intros ops. induction ops as [|[message| | | | |] ops IH]; cbn [declared]; try done.
    destruct (_ =? op_INIT); [destruct (fst (outcome opened_ms ops)), (init_parse (ct_body message)); auto|]. destruct ((ct_opcode message =? op_ENCODER_CONFIG) && _); auto.
  - destruct op; cbn [negotiation_step] in Estep; try (by injection Estep as <- <-).
    + unfold Negotiation_on_frame in Estep. cbv zeta in Estep. rewrite <- Ha. cbn in Estep. by injection Estep as <- <-.
    + unfold Negotiation_latency_report in Estep. rewrite <- Hrep. destruct (match ne_reported_ms n with None => true | _ => _ end); by injection Estep as <- <-.
    + unfold Negotiation_take_reconfigure in Estep. rewrite <- Hr. by injection Estep as <- <-.
Qed.
