(* ===== verification/BitWriter.v ===== *)
(** Writing the bit-level syntax of a coded header (crates/encode/src/bitstream.rs): the
    bit writer, the Exp-Golomb codes and emulation prevention, with what each writes as
    a list of bits. *)

From S2P Require Import Prelude.

Record BitWriter := mkBitWriter { bw_out : list Z; bw_bits : Z }.
#[export] Instance BitWriter_eta : Eta BitWriter := fun w => mkBitWriter (bw_out w) (bw_bits w).

(** [out.fill(0)]. *)
Definition BitWriter_new (out : list Z) : BitWriter := mkBitWriter (map (fun _ => 0) out) 0.

Definition BitWriter_bit_len (w : BitWriter) : Z := bw_bits w.

Definition BitWriter_finish (w : BitWriter) : list Z :=
  let bytes := (bw_bits w + 7) / 8 in
  default [] (get_range (bw_out w) 0 bytes).

Definition BitWriter_bit (w : BitWriter) (set : bool) : BitWriter * bool :=
  let index := bw_bits w / 8 in
  match get_at (bw_out w) index with
  | None => (w, false)
  | Some byte =>
      let w := if set then w <| bw_out := put_at (bw_out w) index (Z.lor byte (Z.shiftr 0x80 (bw_bits w mod 8))) |> else w in
      (w <| bw_bits := wadd 64 (bw_bits w) 1 |>, true)
  end.

(** [for shift in (0..count).rev()]; a shift of 32 or more is masked to five bits. *)
Fixpoint bits_loop (w : BitWriter) (value : Z) (count : nat) : BitWriter * bool :=
  match count with
  | O => (w, true)
  | S shift =>
      let '(w, fits) := BitWriter_bit w (Z.land (Z.shiftr value (Z.of_nat shift mod 32)) 1 =? 1) in
      if negb fits then (w, false) else bits_loop w value shift
  end.
Definition BitWriter_bits (w : BitWriter) (value count : Z) : BitWriter * bool := bits_loop w value (Z.to_nat count).

(** [leading_zeros] of a 32-bit value that is not zero. *)
Definition leading_zeros32 (value : Z) : Z := 31 - Z.log2 value.

Definition BitWriter_ue (w : BitWriter) (value : Z) : BitWriter * bool :=
  let shifted := sat_add 32 value 1 in
  let significant := 32 - leading_zeros32 shifted in
  let '(w, fits) := BitWriter_bits w 0 (significant - 1) in
  if negb fits then (w, false) else BitWriter_bits w shifted significant.

Definition sat_mul32 (a b : Z) : Z := Z.min (a * b) (2 ^ 32 - 1).
Definition BitWriter_se (w : BitWriter) (value : Z) : BitWriter * bool :=
  let magnitude := Z.abs value in
  let folded := if value <=? 0 then sat_mul32 magnitude 2 else sat_sub (sat_mul32 magnitude 2) 1 in
  BitWriter_ue w folded.

(** [while self.bits % 8 != 0]: at most seven turns. *)
Fixpoint pad_loop (fuel : nat) (w : BitWriter) : BitWriter * bool :=
  match fuel with
  | O => (w, true)
  | S fuel =>
      if bw_bits w mod 8 =? 0 then (w, true)
      else let '(w, fits) := BitWriter_bit w false in if negb fits then (w, false) else pad_loop fuel w
  end.
Definition BitWriter_trailing_bits (w : BitWriter) : BitWriter * bool :=
  let '(w, fits) := BitWriter_bit w true in
  if negb fits then (w, false) else pad_loop 8 w.

(** The loop of [escape]: the storage, the bytes written and the run of zeros. *)
Fixpoint escape_loop (payload out : list Z) (written zeros : Z) : list Z * option Z :=
  match payload with
  | [] => (out, Some written)
  | byte :: payload =>
      let inserted :=
        if (2 <=? zeros) && (byte <=? 3) then
          match get_at out written with None => None | Some _ => Some (put_at out written 3, written + 1, 0) end
        else Some (out, written, zeros) in
      match inserted with
      | None => (out, None)
      | Some (out, written, zeros) =>
          match get_at out written with
          | None => (out, None)
          | Some _ => escape_loop payload (put_at out written byte) (written + 1) (if byte =? 0 then zeros + 1 else 0)
          end
      end
  end.
Definition escape (payload out : list Z) : list Z * option Z := escape_loop payload out 0 0.

(** ** Bits, most significant first *)

Fixpoint bits_be (n : nat) (v : Z) : list bool :=
  match n with
  | O => []
  | S n => Z.testbit v (Z.of_nat n) :: bits_be n v
  end.

Definition bits_of (bytes : list Z) : list bool := flat_map (bits_be 8) bytes.

Lemma length_bits_be n v : length (bits_be n v) = n.
Proof. induction n; cbn; congruence. Qed.

Lemma zlen_bits_be n v : zlen (bits_be n v) = Z.of_nat n.
Proof. unfold zlen. by rewrite length_bits_be. Qed.

Lemma bits_of_app a b : bits_of (a ++ b) = bits_of a ++ bits_of b.
Proof. apply flat_map_app. Qed.

Lemma length_bits_of l : length (bits_of l) = (8 * length l)%nat.
Proof. induction l as [|b l IH]; [done|]. unfold bits_of in *. cbn [flat_map]. rewrite length_app, length_bits_be, IH. cbn [length]. lia. Qed.

Lemma zlen_bits_of l : zlen (bits_of l) = 8 * zlen l.
Proof. unfold zlen. rewrite length_bits_of. lia. Qed.

Lemma bits_of_zeros n : bits_of (repeat 0 n) = repeat false (8 * n).
Proof.
  induction n as [|n IH]; [done|]. replace (8 * S n)%nat with (8 + 8 * n)%nat by lia. rewrite repeat_app. cbn [repeat].
  change (bits_of (0 :: repeat 0 n)) with (bits_be 8 0 ++ bits_of (repeat 0 n)). by rewrite IH.
Qed.

Lemma bits_be_ext n a b : (forall i, 0 <= i < Z.of_nat n -> Z.testbit a i = Z.testbit b i) -> bits_be n a = bits_be n b.
Proof. induction n as [|n IH]; intros H; cbn; [done|]. rewrite H by lia. f_equal. apply IH. intros i Hi. apply H. lia. Qed.

Lemma bits_be_mod n v : bits_be n (v mod 2 ^ Z.of_nat n) = bits_be n v.
Proof. apply bits_be_ext. intros i Hi. by rewrite Z.mod_pow2_bits_low by lia. Qed.

Lemma bits_be_0 n : bits_be n 0 = repeat false n.
Proof. induction n as [|n IH]; cbn; [done|]. by rewrite Z.testbit_0_l, IH. Qed.

(** Reading them back. *)
Definition of_bits (l : list bool) : Z := foldl (fun v (b : bool) => 2 * v + (if b then 1 else 0)) 0 l.

Lemma of_bits_fold l v : foldl (fun v (b : bool) => 2 * v + (if b then 1 else 0)) v l = v * 2 ^ zlen l + of_bits l.
Proof.
  unfold of_bits. revert v. induction l as [|b l IH]; intros v; cbn [foldl]; [unfold zlen; cbn; lia|].
  rewrite IH, (IH (2 * 0 + _)), zlen_cons, Z.pow_add_r by (pose proof (zlen_nonneg l); lia). lia.
Qed.

Lemma of_bits_app a b : of_bits (a ++ b) = of_bits a * 2 ^ zlen b + of_bits b.
Proof. unfold of_bits at 1. rewrite foldl_app. apply of_bits_fold. Qed.

Lemma of_bits_be n v : 0 <= v -> of_bits (bits_be n v) = v mod 2 ^ Z.of_nat n.
Proof.
  intros Hv. induction n as [|n IH]; cbn [bits_be]; [by rewrite Z.mod_1_r|].
  change (?b :: ?l) with ([b] ++ l). rewrite of_bits_app, IH, zlen_bits_be.
  replace (Z.of_nat (S n)) with (Z.of_nat n + 1) by lia. rewrite Z.pow_add_r, Z.rem_mul_r by lia.
  unfold of_bits. cbn [foldl]. rewrite <- Z.testbit_spec' by lia. destruct (Z.testbit v (Z.of_nat n)); cbn; lia.
Qed.

Lemma of_bits_small n v : 0 <= v < 2 ^ Z.of_nat n -> of_bits (bits_be n v) = v.
Proof. intros H. rewrite of_bits_be by lia. by apply Z.mod_small. Qed.

(** ** What a writer holds *)

(** [l] was written, into storage of [cap] bytes clear beyond it. *)
Record wrote (cap : Z) (w : BitWriter) (l : list bool) : Prop := mkWrote {
  wr_bytes : bytes_ok (bw_out w);
  wr_cap : zlen (bw_out w) = cap;
  wr_bits : bw_bits w = zlen l;
  wr_fits : zlen l <= 8 * cap < 2 ^ 64;
  wr_out : bits_of (bw_out w) = l ++ repeat false (Z.to_nat (8 * cap - zlen l));
}.

Lemma wrote_new out : 8 * zlen out < 2 ^ 64 -> wrote (zlen out) (BitWriter_new out) [].
Proof.
  intros H. pose proof (zlen_nonneg out). assert (map (fun _ => 0) out = repeat 0 (length out)) as E by (induction out as [|b out IH]; cbn; [done|]; rewrite IH; [done|..]; rewrite ?zlen_cons in *; lia || apply zlen_nonneg).
  split; cbn; rewrite ?E.
  - apply Forall_forall. intros b Hb%repeat_spec. subst b. by apply fits_0.
  - unfold zlen. by rewrite repeat_length.
  - done.
  - rewrite zlen_nil. lia.
  - rewrite bits_of_zeros. f_equal. unfold zlen in *. cbn. lia.
Qed.

Lemma bits_be_set (j : nat) b : (j < 8)%nat -> bits_be 8 (Z.lor b (Z.shiftr 0x80 (Z.of_nat j))) = <[j := true]> (bits_be 8 b).
Proof.
  intros Hj. do 8 (destruct j as [|j]; [cbn [bits_be]; rewrite !Z.lor_spec;
    repeat match goal with |- context [Z.testbit (Z.shiftr 128 ?k) ?i] =>
      let b := eval vm_compute in (Z.testbit (Z.shiftr 128 k) i) in change (Z.testbit (Z.shiftr 128 k) i) with b end;
    by rewrite ?orb_true_r, ?orb_false_r|]). lia.
Qed.

Lemma lor_byte a b : fits 8 a -> fits 8 b -> fits 8 (Z.lor a b).
Proof.
  intros [Ha Ha'] [Hb Hb']. split; [by apply Z.lor_nonneg|]. destruct (Z.eq_dec (Z.lor a b) 0) as [->|]; [done|].
  apply Z.log2_lt_pow2; [assert (0 <= Z.lor a b) by (by apply Z.lor_nonneg); lia|]. rewrite Z.log2_lor by lia.
  assert (forall x, 0 <= x < 2 ^ 8 -> Z.log2 x < 8) as H.
  { intros x Hx. destruct (Z.eq_dec x 0) as [->|]; [done|]. apply Z.log2_lt_pow2; lia. }
  apply Z.max_lub_lt; by apply H.
Qed.

(** The bit at the write position of the storage. *)
Lemma bits_of_set out i j byte :
  (j < 8)%nat -> out !! i = Some byte -> bits_of (<[i := Z.lor byte (Z.shiftr 0x80 (Z.of_nat j))]> out) = <[(8 * i + j)%nat := true]> (bits_of out).
Proof.
  intros Hj H. rewrite <- (take_drop_middle out i byte H) at 2. rewrite insert_take_drop by (by eapply lookup_lt_Some).
  rewrite !bits_of_app. cbn [bits_of flat_map]. change (flat_map (bits_be 8)) with bits_of. rewrite bits_be_set by done.
  assert (length (bits_of (take i out)) = 8 * i)%nat as El by (rewrite length_bits_of, length_take; apply lookup_lt_Some in H; lia).
  rewrite insert_app_r_alt by lia. f_equal. replace (8 * i + j - length (bits_of (take i out)))%nat with j by lia.
  rewrite insert_app_l by (rewrite length_bits_be; lia). done.
Qed.

Lemma wrote_bit cap w l b :
  wrote cap w l -> zlen l < 8 * cap -> exists w', BitWriter_bit w b = (w', true) /\ wrote cap w' (l ++ [b]).
Proof.
  intros [Hb Hc Hl [Hf Hf'] Ho] Hlt. pose proof (zlen_nonneg l). unfold BitWriter_bit. rewrite Hl.
  assert (0 <= zlen l / 8 < cap) as Hi by (split; [apply Z.div_pos; lia|apply Z.div_lt_upper_bound; lia]).
  destruct (get_at_Some (bw_out w) (zlen l / 8)) as [byte Eb]; [by rewrite Hc|]. rewrite Eb.
  assert (zlen (l ++ [b]) = zlen l + 1) as El by (rewrite zlen_app; done).
  assert (wadd 64 (zlen l) 1 = zlen l + 1) as Ea by (apply wrap_small; unfold fits; lia).
  assert (bits_of (if b then put_at (bw_out w) (zlen l / 8) (Z.lor byte (Z.shiftr 0x80 (zlen l mod 8))) else bw_out w) =
    (l ++ [b]) ++ repeat false (Z.to_nat (8 * cap - zlen (l ++ [b])))) as Eo.
  { rewrite El. replace (Z.to_nat (8 * cap - zlen l)) with (S (Z.to_nat (8 * cap - (zlen l + 1)))) in Ho by lia. cbn [repeat] in Ho.
    destruct b; [|by rewrite Ho, <- app_assoc].
    assert (zlen l mod 8 = Z.of_nat (Z.to_nat (zlen l mod 8))) as Em by (pose proof (Z.mod_pos_bound (zlen l) 8); lia).
    rewrite Em. unfold put_at, get_at in *. rewrite (bits_of_set _ _ _ byte) by (done || (pose proof (Z.mod_pos_bound (zlen l) 8); lia)).
    rewrite Ho. replace (8 * Z.to_nat (zlen l / 8) + Z.to_nat (zlen l mod 8))%nat with (length l + 0)%nat
      by (pose proof (Z.div_mod (zlen l) 8); pose proof (Z.mod_pos_bound (zlen l) 8); unfold zlen in *; lia).
    rewrite insert_app_r. by rewrite <- app_assoc. }
  assert (bytes_ok (if b then put_at (bw_out w) (zlen l / 8) (Z.lor byte (Z.shiftr 0x80 (zlen l mod 8))) else bw_out w)) as Eok.
  { destruct b; [|done]. apply Forall_insert; [done|]. apply lor_byte; [by eapply Forall_lookup_1|].
    pose proof (Z.mod_pos_bound (zlen l) 8). split; [by apply Z.shiftr_nonneg|]. rewrite Z.shiftr_div_pow2 by lia.
    apply Z.div_lt_upper_bound; [lia|]. assert (1 <= 2 ^ (zlen l mod 8)) by (apply Z.lt_pred_le, Z.pow_pos_nonneg; lia). lia. }
  eexists. split; [reflexivity|]. destruct b; (split; cbn [bw_out bw_bits set_field] in *; [done| |cbn; by rewrite Hl, El, Ea|lia|done]);
    cbn; by rewrite ?zlen_put_at.
Qed.

Lemma land_odd x : (Z.land x 1 =? 1) = Z.odd x.
Proof. assert (Z.land x 1 = x mod 2) as -> by (apply (Z.land_ones x 1); lia). rewrite Zmod_odd. by destruct (Z.odd x). Qed.

Lemma land_bit v k : (Z.land (Z.shiftr v k) 1 =? 1) = Z.testbit v k.
Proof. by rewrite land_odd, Z.testbit_odd. Qed.

(** What an operation writes, where there is room. *)
Definition puts (f : BitWriter -> BitWriter * bool) (l : list bool) : Prop :=
  forall cap w l0, wrote cap w l0 -> zlen l0 + zlen l <= 8 * cap -> exists w', f w = (w', true) /\ wrote cap w' (l0 ++ l).

Lemma puts_bit b : puts (fun w => BitWriter_bit w b) [b].
Proof. intros cap w l0 Hw H. apply wrote_bit; [done|]. change (zlen [b]) with 1 in H. lia. Qed.

Lemma puts_loop v n : (n <= 32)%nat -> puts (fun w => bits_loop w v n) (bits_be n v).
Proof.
  induction n as [|n IH]; intros Hn cap w l0 Hw H; cbn [bits_loop bits_be] in *; [exists w; split; [done|by rewrite app_nil_r]|].
  rewrite zlen_cons, zlen_bits_be in H. assert ((Z.land (Z.shiftr v (Z.of_nat n mod 32)) 1 =? 1) = Z.testbit v (Z.of_nat n)) as ->.
  { rewrite Z.mod_small by lia. apply land_bit. }
  destruct (wrote_bit cap w l0 (Z.testbit v (Z.of_nat n)) Hw) as (w1 & -> & Hw1); [lia|]. cbn [negb].
  destruct (IH ltac:(lia) cap w1 _ Hw1) as (w2 & -> & Hw2); [rewrite zlen_app, zlen_bits_be; change (zlen [_]) with 1; lia|].
  exists w2. split; [done|]. by rewrite <- app_assoc in Hw2.
Qed.

Lemma puts_bits v n : n <= 32 -> puts (fun w => BitWriter_bits w v n) (bits_be (Z.to_nat n) v).
Proof. intros H. apply puts_loop. lia. Qed.

(** The unsigned Exp-Golomb code of a number: as many zeros as it has bits past the first,
    one more than it, and the signed numbers folded onto it. *)
Definition golomb (v : Z) : list bool :=
  let n := Z.to_nat (Z.log2 (v + 1)) in repeat false n ++ bits_be (S n) (v + 1).

Definition fold_sign (v : Z) : Z := if v <=? 0 then - 2 * v else 2 * v - 1.

Lemma zlen_golomb v : 0 <= v -> zlen (golomb v) = 2 * Z.log2 (v + 1) + 1.
Proof.
  intros H. pose proof (Z.log2_nonneg (v + 1)). unfold golomb, zlen. cbv zeta. rewrite length_app, repeat_length, length_bits_be. lia.
Qed.

Lemma golomb_short v : 0 <= v < 2 ^ 32 - 1 -> zlen (golomb v) <= 63.
Proof.
  intros H. rewrite zlen_golomb by lia. assert (Z.log2 (v + 1) < 32) by (apply Z.log2_lt_pow2; lia). lia.
Qed.

Lemma puts_ue v : 0 <= v < 2 ^ 32 - 1 -> puts (fun w => BitWriter_ue w v) (golomb v).
Proof.
  intros H cap w l0 Hw Hl. unfold BitWriter_ue, golomb in *. cbv zeta in *. rewrite zlen_app, zlen_bits_be in Hl.
  assert (sat_add 32 v 1 = v + 1) as -> by (unfold sat_add; lia). unfold leading_zeros32.
  pose proof (Z.log2_nonneg (v + 1)). assert (Z.log2 (v + 1) < 32) by (apply Z.log2_lt_pow2; lia).
  replace (32 - (31 - Z.log2 (v + 1)) - 1) with (Z.log2 (v + 1)) by lia.
  destruct (puts_bits 0 (Z.log2 (v + 1)) ltac:(lia) cap w l0 Hw) as (w1 & -> & Hw1).
  { rewrite bits_be_0. unfold zlen in *. lia. }
  cbn [negb]. replace (32 - (31 - Z.log2 (v + 1))) with (Z.log2 (v + 1) + 1) by lia. rewrite bits_be_0 in Hw1.
  destruct (puts_bits (v + 1) (Z.log2 (v + 1) + 1) ltac:(lia) cap w1 _ Hw1) as (w2 & -> & Hw2).
  { rewrite zlen_bits_be, zlen_app. lia. }
  exists w2. split; [done|]. rewrite <- app_assoc in Hw2. by replace (Z.to_nat (Z.log2 (v + 1) + 1)) with (S (Z.to_nat (Z.log2 (v + 1)))) in Hw2 by lia.
Qed.

Lemma puts_se v : - 2 ^ 31 < v < 2 ^ 31 -> puts (fun w => BitWriter_se w v) (golomb (fold_sign v)).
Proof.
  intros H. unfold BitWriter_se, fold_sign, sat_mul32, sat_sub. cbv zeta. destruct (Z.leb_spec v 0).
  - replace (Z.min (Z.abs v * 2) (2 ^ 32 - 1)) with (-2 * v) by lia. apply puts_ue. lia.
  - replace (Z.max (Z.min (Z.abs v * 2) (2 ^ 32 - 1) - 1) 0) with (2 * v - 1) by lia. apply puts_ue. lia.
Qed.

(** A result that is not looked at. *)
Definition put_ (f : BitWriter -> BitWriter * bool) (w : BitWriter) : BitWriter := fst (f w).

Lemma wrote_put cap f w l0 l : puts f l -> wrote cap w l0 -> zlen l0 + zlen l <= 8 * cap -> wrote cap (put_ f w) (l0 ++ l).
Proof. intros Hf Hw H. destruct (Hf cap w l0 Hw H) as (w' & E & Hw'). unfold put_. by rewrite E. Qed.

Lemma wrote_pad fuel cap w l :
  wrote cap w l -> zlen l <= 8 * cap -> (8 - zlen l mod 8 <= Z.of_nat fuel) ->
  exists w' k, pad_loop fuel w = (w', true) /\ (k < 8)%nat /\ wrote cap w' (l ++ repeat false k) /\ (zlen l + Z.of_nat k) mod 8 = 0.
Proof.
  revert w l. induction fuel as [|fuel IH]; intros w l Hw Hl Hf; [pose proof (Z.mod_pos_bound (zlen l) 8); lia|].
  cbn [pad_loop]. rewrite (wr_bits _ _ _ Hw). destruct (Z.eqb_spec (zlen l mod 8) 0) as [E|E].
  { exists w, 0%nat. rewrite app_nil_r, Z.add_0_r. split; [done|]. split; [lia|]. done. }
  destruct (wrote_bit cap w l false Hw) as (w1 & -> & Hw1); [destruct (Z.eq_dec (zlen l) (8 * cap)) as [E'|]; [rewrite E', Z.mul_comm, Z.mod_mul in E; lia|lia]|].
  cbn [negb]. assert (zlen (l ++ [false]) = zlen l + 1) as El by (rewrite zlen_app; done).
  destruct (Z.eq_dec ((zlen l + 1) mod 8) 0) as [E1|E1].
  { exists w1, 1%nat. destruct fuel as [|fuel]; cbn [pad_loop]; rewrite ?(wr_bits _ _ _ Hw1), ?El, ?E1; (split; [done|]); (split; [lia|]); done. }
  assert ((zlen l + 1) mod 8 = zlen l mod 8 + 1) as Em by (clear -E E1; Z.div_mod_to_equations; lia).
  destruct (IH w1 _ Hw1) as (w2 & k & -> & Hk & Hw2 & Hmod); [rewrite El; destruct Hw1 as [_ _ _ ? _]; lia|rewrite El; lia|].
  rewrite El in Hmod. exists w2, (S k). split; [done|]. rewrite <- app_assoc in Hw2. cbn [repeat]. split; [|split; [done|by replace (zlen l + Z.of_nat (S k)) with (zlen l + 1 + Z.of_nat k) by lia]].
  destruct (decide (k < 7)%nat); [lia|]. exfalso. clear -E E1 Hmod Hk n. assert (k = 7)%nat as -> by lia. Z.div_mod_to_equations. lia.
Qed.

Lemma wrote_trailing cap w l :
  wrote cap w l -> zlen l < 8 * cap ->
  exists w' k, BitWriter_trailing_bits w = (w', true) /\ (k < 8)%nat /\ wrote cap w' (l ++ true :: repeat false k) /\ (zlen l + 1 + Z.of_nat k) mod 8 = 0.
Proof.
  intros Hw Hl. unfold BitWriter_trailing_bits. destruct (wrote_bit cap w l true Hw Hl) as (w1 & -> & Hw1). cbn [negb].
  assert (zlen (l ++ [true]) = zlen l + 1) as El by (rewrite zlen_app; done).
  destruct (wrote_pad 8 cap w1 _ Hw1) as (w2 & k & -> & Hk & Hw2 & Hm); [rewrite El; lia|pose proof (Z.mod_pos_bound (zlen (l ++ [true])) 8); lia|].
  exists w2, k. rewrite <- app_assoc in Hw2. by rewrite El in Hm.
Qed.

(** The bytes of a finished writer: what was written, and zeros to the byte. *)
Lemma wrote_finish cap w l :
  wrote cap w l -> exists k, (k < 8)%nat /\ bytes_ok (BitWriter_finish w) /\ bits_of (BitWriter_finish w) = l ++ repeat false k /\
    8 * zlen (BitWriter_finish w) = zlen l + Z.of_nat k.
Proof.
  intros [Hb Hc Hl [Hf Hf'] Ho]. pose proof (zlen_nonneg l). unfold BitWriter_finish. cbv zeta. rewrite Hl.
  set (n := (zlen l + 7) / 8). assert (8 * n - zlen l < 8 /\ zlen l <= 8 * n) as [Hn Hn'] by (unfold n; Z.div_mod_to_equations; lia).
  assert (0 <= n <= cap) as Hn0 by lia. rewrite get_range_eq by lia. cbn [default]. unfold id. rewrite drop_0, Z.sub_0_r.
  exists (Z.to_nat (8 * n - zlen l)). split; [lia|].
  assert (zlen (take (Z.to_nat n) (bw_out w)) = n) as En by (rewrite zlen_take; lia). split; [by apply Forall_take|]. split; [|rewrite En; lia].
  assert (bits_of (take (Z.to_nat n) (bw_out w)) = take (8 * Z.to_nat n) (bits_of (bw_out w))) as ->.
  { rewrite <- (take_drop (Z.to_nat n) (bw_out w)) at 2. rewrite bits_of_app, take_app_length'; [done|]. rewrite length_bits_of. unfold zlen in En. lia. }
  rewrite Ho, take_app_ge by (unfold zlen in *; lia). f_equal.
  replace (Z.to_nat (8 * cap - zlen l)) with (Z.to_nat (8 * n - zlen l) + Z.to_nat (8 * (cap - n)))%nat by lia.
  rewrite repeat_app, take_app_length'; [done|]. rewrite repeat_length. unfold zlen in *. lia.
Qed.

(** ** Emulation prevention *)

(** What is written for a payload after a run of zeros. *)
Fixpoint escaped (zeros : Z) (payload : list Z) : list Z :=
  match payload with
  | [] => []
  | byte :: payload =>
      if (2 <=? zeros) && (byte <=? 3) then 3 :: byte :: escaped (if byte =? 0 then 1 else 0) payload
      else byte :: escaped (if byte =? 0 then zeros + 1 else 0) payload
  end.

(** The payload behind escapes: a three after two zeros is dropped, and the byte after
    it is taken as it is. *)
Fixpoint unescape (zeros : Z) (bytes : list Z) : list Z :=
  match bytes with
  | [] => []
  | byte :: bytes =>
      if (2 <=? zeros) && (byte =? 3) then unescape 0 bytes
      else byte :: unescape (if byte =? 0 then zeros + 1 else 0) bytes
  end.

Lemma unescape_escaped zeros payload : unescape zeros (escaped zeros payload) = payload.
Proof.
  revert zeros. induction payload as [|byte payload IH]; intros zeros; cbn [escaped]; [done|].
  destruct (2 <=? zeros) eqn:E2, (byte <=? 3) eqn:E3; cbn [andb unescape]; rewrite ?E2; cbn [andb]; [cbn; f_equal; destruct (byte =? 0); apply IH|..];
    try (f_equal; apply IH). destruct (Z.eqb_spec byte 3); [lia|]. by rewrite IH.
Qed.

(** No start code, and nothing that could be taken for one, after a run of zeros. *)
Fixpoint no_start (zeros : Z) (bytes : list Z) : Prop :=
  match bytes with
  | [] => True
  | byte :: bytes => (2 <= zeros -> 3 <= byte) /\ no_start (if byte =? 0 then zeros + 1 else 0) bytes
  end.

Lemma escaped_no_start zeros payload : 0 <= zeros <= 2 -> no_start zeros (escaped zeros payload).
Proof.
  revert zeros. induction payload as [|byte payload IH]; intros zeros Hz; cbn [escaped]; [done|].
  destruct (Z.leb_spec 2 zeros), (Z.leb_spec byte 3); cbn [andb no_start]; (split; [lia|]).
  - cbn. split; [lia|]. destruct (byte =? 0); apply IH; lia.
  - destruct (Z.eqb_spec byte 0); [lia|]. apply IH. lia.
  - destruct (byte =? 0); apply IH; lia.
  - destruct (Z.eqb_spec byte 0); apply IH; lia.
Qed.

Lemma escaped_last zeros payload byte : last payload 0 = byte -> payload <> [] -> byte <> 0 -> last (escaped zeros payload) 0 = byte.
Proof.
  revert zeros. induction payload as [|b payload IH]; intros zeros Hl Hne Hb; [done|]. cbn [escaped].
  destruct payload as [|c payload].
  - cbn in Hl. subst b. by destruct ((2 <=? zeros) && (byte <=? 3)).
  - assert (forall z, last (escaped z (c :: payload)) 0 = byte) as H by (intros z; by apply IH).
    assert (forall z, escaped z (c :: payload) <> []) as Hn by (intros z; cbn; by destruct (_ && _)).
    assert (forall x l, l <> [] -> last (x :: l) 0 = last l 0) as Hc by (intros x [|]; done).
    destruct ((2 <=? zeros) && (b <=? 3)); rewrite !Hc by done; apply H.
Qed.

Lemma put_at_mid (pre : list Z) x y post : put_at (pre ++ x :: post) (zlen pre) y = (pre ++ [y]) ++ post.
Proof. unfold put_at, zlen. rewrite Nat2Z.id, <- app_assoc. rewrite insert_app_r_alt by lia. by rewrite Nat.sub_diag. Qed.

(** What the loop writes, after what is before, and how it refuses. *)
Lemma escape_loop_eq payload pre rest zeros :
  zlen (escaped zeros payload) <= zlen rest ->
  escape_loop payload (pre ++ rest) (zlen pre) zeros =
    (pre ++ escaped zeros payload ++ drop (length (escaped zeros payload)) rest, Some (zlen pre + zlen (escaped zeros payload))).
Proof.
  revert pre rest zeros. induction payload as [|byte payload IH]; intros pre rest zeros Hl; cbn [escape_loop escaped] in *.
  - by rewrite zlen_nil, Z.add_0_r.
  - destruct ((2 <=? zeros) && (byte <=? 3)) eqn:E; rewrite !zlen_cons in Hl;
      [pose proof (zlen_nonneg (escaped (if byte =? 0 then 1 else 0) payload))|pose proof (zlen_nonneg (escaped (if byte =? 0 then zeros + 1 else 0) payload))].
    + destruct rest as [|x [|y rest]]; [change (zlen (@nil Z)) with 0 in Hl; lia|rewrite zlen_cons in Hl; change (zlen (@nil Z)) with 0 in Hl; lia|]. rewrite !zlen_cons in Hl.
      rewrite get_at_mid, put_at_mid by done. assert (zlen pre + 1 = zlen (pre ++ [3])) as -> by (rewrite zlen_app; done).
      rewrite get_at_mid, put_at_mid by done. assert (zlen (pre ++ [3]) + 1 = zlen ((pre ++ [3]) ++ [byte])) as -> by (rewrite (zlen_app (pre ++ [3])); done).
      change (0 + 1) with 1. rewrite IH by lia. rewrite !zlen_cons, !zlen_app, <- !app_assoc. change (zlen [_]) with 1. cbn [app length drop]. f_equal. f_equal. lia.
    + destruct rest as [|x rest]; [change (zlen (@nil Z)) with 0 in Hl; lia|]. rewrite !zlen_cons in Hl.
      rewrite get_at_mid, put_at_mid by done. assert (zlen pre + 1 = zlen (pre ++ [byte])) as -> by (rewrite zlen_app; done).
      rewrite IH by lia. rewrite !zlen_cons, !zlen_app, <- !app_assoc. change (zlen [_]) with 1. cbn [app length drop]. f_equal. f_equal. lia.
Qed.

Lemma escape_loop_short payload pre rest zeros :
  zlen rest < zlen (escaped zeros payload) -> snd (escape_loop payload (pre ++ rest) (zlen pre) zeros) = None.
Proof.
  revert pre rest zeros. induction payload as [|byte payload IH]; intros pre rest zeros Hl; cbn [escape_loop escaped] in *.
  - pose proof (zlen_nonneg rest). change (zlen (@nil Z)) with 0 in Hl. lia.
  - assert (get_at (pre ++ []) (zlen pre) = None) as Hend by (unfold get_at, zlen; apply lookup_ge_None_2; rewrite length_app; cbn; lia).
    destruct ((2 <=? zeros) && (byte <=? 3)) eqn:E; rewrite !zlen_cons in Hl.
    + destruct rest as [|x rest]; [by rewrite Hend|]. rewrite get_at_mid, put_at_mid by done.
      assert (zlen pre + 1 = zlen (pre ++ [3])) as -> by (rewrite zlen_app; done). rewrite zlen_cons in Hl.
      destruct rest as [|y rest].
      { assert (get_at ((pre ++ [3]) ++ []) (zlen (pre ++ [3])) = None) as -> by (unfold get_at, zlen; apply lookup_ge_None_2; rewrite length_app; cbn; lia). done. }
      rewrite zlen_cons in Hl. rewrite get_at_mid, put_at_mid by done. assert (zlen (pre ++ [3]) + 1 = zlen ((pre ++ [3]) ++ [byte])) as -> by (rewrite (zlen_app (pre ++ [3])); done).
      change (0 + 1) with 1. apply IH. lia.
    + destruct rest as [|x rest]; [by rewrite Hend|]. rewrite zlen_cons in Hl. rewrite get_at_mid, put_at_mid by done.
      assert (zlen pre + 1 = zlen (pre ++ [byte])) as -> by (rewrite zlen_app; done). apply IH. lia.
Qed.

Lemma escape_written_eq payload out :
  zlen (escaped 0 payload) <= zlen out -> escape payload out = (escaped 0 payload ++ drop (length (escaped 0 payload)) out, Some (zlen (escaped 0 payload))).
Proof. apply (escape_loop_eq payload [] out 0). Qed.

Lemma escape_short payload out : zlen out < zlen (escaped 0 payload) -> snd (escape payload out) = None.
Proof. apply (escape_loop_short payload [] out 0). Qed.
