(* ===== verification/BitReader.v ===== *)
(** Reading the bit-level syntax of a coded header (crates/decode/src/bits.rs) and finding
    the units of an access unit (crates/decode/src/nal.rs), with what each operation
    reads as a list of bits. *)

From S2P Require Import Prelude BitWriter.

Inductive ParseError := ParseTruncated | ParseOutOfRange | NoParameterSet | TooMany | ParseUnsupported.

(** [BitReader]; [last_set] is the outer [Option], once looked for. *)
Record BitReader := mkBitReader {
  br_data : list Z;
  br_byte : Z;
  br_left : Z;
  br_current : Z;
  br_zeros : Z;
  br_consumed : Z;
  br_last_set : option (option Z);
  br_escapes : Z;
}.
#[export] Instance BitReader_eta : Eta BitReader := fun r =>
  mkBitReader (br_data r) (br_byte r) (br_left r) (br_current r) (br_zeros r) (br_consumed r) (br_last_set r) (br_escapes r).

(** [Result] with the reader as it stands afterwards, also behind an error. *)
Definition reading (A : Type) : Type := BitReader -> BitReader * (ParseError + A).
#[global] Instance reading_ret : MRet reading := fun A a r => (r, inr a).
#[global] Instance reading_bind : MBind reading := fun A B f m r =>
  match m r with
  | (r, inr a) => f a r
  | (r, inl e) => (r, inl e)
  end.
Definition refuse {A} (e : ParseError) : reading A := fun r => (r, inl e).
Definition or_refuse {A} (o : option A) (e : ParseError) : reading A := fun r => (r, match o with Some a => inr a | None => inl e end).

Definition BitReader_new (data : list Z) : BitReader := mkBitReader data 0 0 0 0 0 None 0.

Definition BitReader_position (r : BitReader) : Z := br_consumed r.
Definition BitReader_escapes (r : BitReader) : Z := br_escapes r.
Definition BitReader_byte_offset (r : BitReader) : Z := br_byte r.

(** [*self.data.get(self.byte).ok_or(Truncated)?; self.byte += 1]. *)
Definition next_byte : reading Z := fun r =>
  match get_at (br_data r) (br_byte r) with
  | None => (r, inl ParseTruncated)
  | Some b => (r <| br_byte := wadd 64 (br_byte r) 1 |>, inr b)
  end.

(** The escape byte: skipped, and it resets the run. *)
Definition past_escape (next : Z) : reading Z := fun r =>
  if (2 <=? br_zeros r) && (next =? 3)
  then next_byte (r <| br_zeros := 0 |> <| br_escapes := wadd 32 (br_escapes r) 1 |>)
  else (r, inr next).

Definition loaded (next : Z) : reading unit := fun r =>
  (r <| br_zeros := if next =? 0 then wadd 32 (br_zeros r) 1 else 0 |> <| br_current := next |> <| br_left := 8 |>, inr ()).

Definition BitReader_load : reading unit := next ← next_byte; next ← past_escape next; loaded next.

Definition load_if_empty : reading unit := fun r => if br_left r =? 0 then BitReader_load r else (r, inr ()).
Definition current_bit : reading bool := fun r =>
  let left_ := br_left r - 1 in
  (r <| br_left := left_ |> <| br_consumed := wadd 64 (br_consumed r) 1 |>, inr (Z.land (Z.shiftr (br_current r) left_) 1 =? 1)).
Definition BitReader_bit : reading bool := _ ← load_if_empty; current_bit.

Definition BitReader_flag : reading bool := BitReader_bit.

Fixpoint read_loop (value : Z) (count : nat) : reading Z :=
  match count with
  | O => mret value
  | S count => b ← BitReader_bit; read_loop (Z.lor (wrap 32 (Z.shiftl value 1)) (if b : bool then 1 else 0)) count
  end.
Definition BitReader_bits (count : Z) : reading Z :=
  if 32 <? count then refuse ParseOutOfRange else read_loop 0 (Z.to_nat count).

Definition BitReader_u8 (count : Z) : reading Z :=
  if 8 <? count then refuse ParseOutOfRange else v ← BitReader_bits count; or_refuse (try_from 8 v) ParseOutOfRange.

(** [while !self.bit()?], leaving after 32 zeros. *)
Fixpoint zeros_loop (fuel : nat) (zeros : Z) : reading Z :=
  match fuel with
  | O => refuse ParseOutOfRange
  | S fuel => b ← BitReader_bit; if b : bool then mret zeros else if 31 <? zeros + 1 then refuse ParseOutOfRange else zeros_loop fuel (zeros + 1)
  end.
Definition BitReader_ue : reading Z :=
  zeros ← zeros_loop 33 0;
  if zeros =? 0 then mret 0
  else rest ← BitReader_bits zeros; or_refuse (checked_add 32 (Z.shiftl 1 zeros - 1) rest) ParseOutOfRange.

Definition BitReader_ue_max (max : Z) : reading Z :=
  value ← BitReader_ue; if max <? value then refuse ParseOutOfRange else mret value.

Definition BitReader_se : reading Z :=
  code ← BitReader_ue;
  let magnitude := (code + 1) / 2 in
  magnitude ← or_refuse (if magnitude <? 2 ^ 31 then Some magnitude else None) ParseOutOfRange;
  mret (if Z.land code 1 =? 1 then magnitude else - magnitude).

(** [trailing_zeros] of a byte that is not zero. *)
Fixpoint trailing_zeros (fuel : nat) (b : Z) : Z :=
  match fuel with
  | O => 0
  | S fuel => if Z.testbit b 0 then 0 else 1 + trailing_zeros fuel (Z.shiftr b 1)
  end.

Fixpoint last_set_loop (data : list Z) (zeros position : Z) (last : option Z) : option Z :=
  match data with
  | [] => last
  | b :: data =>
      if (2 <=? zeros) && (b =? 3) then last_set_loop data 0 position last
      else
      let last := if negb (b =? 0) then Some (position + 7 - trailing_zeros 8 b) else last in
      last_set_loop data (if b =? 0 then wadd 32 zeros 1 else 0) (position + 8) last
  end.
Definition last_set_bit (data : list Z) : option Z := last_set_loop data 0 0 None.

Definition BitReader_more_rbsp_data : reading bool := fun r =>
  let '(r, last) :=
    match br_last_set r with
    | Some last => (r, last)
    | None => let last := last_set_bit (br_data r) in (r <| br_last_set := Some last |>, last)
    end in
  (r, inr match last with Some last => br_consumed r <? last | None => false end).

Definition BitReader_align (r : BitReader) : BitReader := r <| br_consumed := wadd 64 (br_consumed r) (br_left r) |> <| br_left := 0 |>.

Fixpoint skip_bits_loop (count : nat) : reading unit :=
  match count with
  | O => mret ()
  | S count => _ ← BitReader_bit; skip_bits_loop count
  end.
Definition BitReader_skip (count : Z) : reading unit := skip_bits_loop (Z.to_nat count).

(** ** Units *)

Record Unit_ := mkUnit { un_bytes : list Z; un_offset : Z }.
Record Units := mkUnits { us_data : list Z; us_at : Z }.
Definition Units_new (data : list Z) : Units := mkUnits data 0.

(** [tail.windows(3).position(|w| w == [0, 0, 1])]. *)
Fixpoint window_position (tail : list Z) : option Z :=
  match tail with
  | a :: tail' =>
      match tail' with
      | b :: c :: _ => if (a =? 0) && (b =? 0) && (c =? 1) then Some 0 else at_ ← window_position tail'; Some (at_ + 1)
      | _ => None
      end
  | [] => None
  end.

Definition next_start_code (data : list Z) (from : Z) : option Z :=
  tail ← get_range data from (zlen data);
  at_ ← window_position tail;
  Some (from + at_).

(** Where the unit that begins here ends: a zero ahead of the next start code is framing. *)
Definition unit_end (data : list Z) (begin : Z) : Z :=
  match next_start_code data begin with
  | Some next => if (begin <? next) && bool_decide (get_at data (next - 1) = Some 0) then next - 1 else next
  | None => zlen data
  end.

(** [next]; an empty unit is stepped over, each time further into the data. *)
Fixpoint units_next (fuel : nat) (u : Units) : Units * option Unit_ :=
  match fuel with
  | O => (u, None)
  | S fuel =>
      match next_start_code (us_data u) (us_at u) with
      | None => (u, None)
      | Some start_code =>
          let begin := start_code + 3 in
          let end_ := unit_end (us_data u) begin in
          let u := mkUnits (us_data u) end_ in
          match get_range (us_data u) begin end_ with
          | None => (u, None)
          | Some [] => units_next fuel u
          | Some bytes => (u, Some (mkUnit bytes begin))
          end
      end
  end.
Definition Units_next (u : Units) : Units * option Unit_ := units_next (S (length (us_data u))) u.

(** Every unit, as a [for] loop takes them. *)
Fixpoint units_loop (fuel : nat) (u : Units) : list Unit_ :=
  match fuel with
  | O => []
  | S fuel => let '(u, unit_) := Units_next u in match unit_ with Some x => x :: units_loop fuel u | None => [] end
  end.
Definition Units_all (data : list Z) : list Unit_ := units_loop (S (length data)) (Units_new data).

(** ** What a reader reads *)

(** The bits ahead of a reader, escapes gone. *)
Definition rest (r : BitReader) : list bool :=
  bits_be (Z.to_nat (br_left r)) (br_current r) ++ bits_of (unescape (br_zeros r) (drop (Z.to_nat (br_byte r)) (br_data r))).

(** A reader over [data] that has read [pre]. *)
Record reader_ok (data : list Z) (r : BitReader) (pre : list bool) : Prop := mkReaderOk {
  ro_data : br_data r = data;
  ro_bytes : bytes_ok data;
  ro_size : zlen data < 2 ^ 32;
  ro_byte : 0 <= br_byte r <= zlen data;
  ro_left : 0 <= br_left r <= 8;
  ro_zeros : 0 <= br_zeros r <= br_byte r;
  ro_pre : bits_of (unescape 0 data) = pre ++ rest r;
  ro_consumed : br_consumed r = zlen pre;
  ro_last : br_last_set r = None \/ br_last_set r = Some (last_set_bit data);
}.

Lemma reader_new data : bytes_ok data -> zlen data < 2 ^ 32 -> reader_ok data (BitReader_new data) [].
Proof. intros H Hl. pose proof (zlen_nonneg data). split; cbn; try done; try lia. by left. Qed.

Definition gets {A} (m : reading A) (l : list bool) (a : A) : Prop :=
  forall data pre r l', reader_ok data r pre -> rest r = l ++ l' ->
  exists r', m r = (r', inr a) /\ reader_ok data r' (pre ++ l) /\ rest r' = l'.

Lemma gets_ret {A} (a : A) : gets (mret a) [] a.
Proof. intros data pre r l' Hok Hr. exists r. by rewrite app_nil_r. Qed.

Lemma gets_bind {A B} (m : reading A) (k : A -> reading B) l l2 a b : gets m l a -> gets (k a) l2 b -> gets (m ≫= k) (l ++ l2) b.
Proof.
  intros Hm Hk data pre r l' Hok Hr. rewrite <- app_assoc in Hr. destruct (Hm data pre r _ Hok Hr) as (r1 & E & Hok1 & Hr1).
  destruct (Hk data _ r1 l' Hok1 Hr1) as (r2 & E2 & Hok2 & Hr2). exists r2. rewrite app_assoc. split; [|done]. unfold mbind, reading_bind. by rewrite E.
Qed.

Lemma gets_bind_ret {A B} (m : reading A) (k : A -> reading B) l a b : gets m l a -> gets (k a) [] b -> gets (m ≫= k) l b.
Proof. intros Hm Hk. rewrite <- (app_nil_r l). by eapply gets_bind. Qed.

Lemma gets_or_refuse {A} (o : option A) e a : o = Some a -> gets (or_refuse o e) [] a.
Proof. intros ->. intros data pre r l' Hok Hr. exists r. by rewrite app_nil_r. Qed.

Lemma unescape_length z l : zlen (unescape z l) <= zlen l.
Proof.
  revert z. induction l as [|b l IH]; intros z; cbn [unescape]; [done|]. rewrite zlen_cons.
  destruct (_ && _); [specialize (IH 0); lia|]. rewrite zlen_cons. specialize (IH (if b =? 0 then z + 1 else 0)). lia.
Qed.

Lemma consumed_bound data r pre : reader_ok data r pre -> zlen pre + zlen (rest r) <= 8 * zlen data.
Proof.
  intros [_ _ _ _ _ _ Hp _ _]. rewrite <- zlen_app, <- Hp, zlen_bits_of. pose proof (unescape_length 0 data). lia.
Qed.

Lemma drop_cons_lookup {A} (l : list A) i x : l !! i = Some x -> drop i l = x :: drop (S i) l.
Proof. intros H. by rewrite (drop_S l x i H). Qed.

Lemma load_ok data r pre :
  reader_ok data r pre -> br_left r = 0 ->
  (rest r = [] /\ exists r', BitReader_load r = (r', inl ParseTruncated)) \/
  (exists r', BitReader_load r = (r', inr ()) /\ reader_ok data r' pre /\ br_left r' = 8 /\ rest r' = rest r).
Proof.
  destruct r as [d byte left_ cur zeros consumed lastset escapes]. intros [Hd Hb Hs Hby Hl Hz Hp Hc Hlast] H0.
  unfold BitReader_load, mbind, reading_bind, past_escape, loaded, next_byte, get_at, rest in *. cbn in *. subst left_ d. change (Z.to_nat 0) with 0%nat in *. cbn [bits_be app] in *.
  destruct (data !! Z.to_nat byte) as [b|] eqn:E.
  2: { left. apply lookup_ge_None in E. split; [|by eexists]. by rewrite drop_ge by lia. }
  pose proof (lookup_lt_Some _ _ _ E) as Hlt. rewrite (drop_cons_lookup data _ b E) in *. cbn [unescape] in *.
  assert (wadd 64 byte 1 = byte + 1) as -> by (apply wrap_small; unfold fits, zlen in *; lia). cbn.
  assert (forall z, 0 <= z <= byte -> wadd 32 z 1 = z + 1) as Ez by (intros z Hz'; apply wrap_small; unfold fits, zlen in *; lia).
  replace (S (Z.to_nat byte)) with (Z.to_nat (byte + 1)) in * by lia.
  destruct ((2 <=? zeros) && (b =? 3)) eqn:Esc; cbn.
  - destruct (data !! Z.to_nat (byte + 1)) as [c|] eqn:Ec.
    2: { left. apply lookup_ge_None in Ec. split; [|by eexists]. by rewrite drop_ge by lia. }
    right. pose proof (lookup_lt_Some _ _ _ Ec) as Hlt'. rewrite (drop_cons_lookup data _ c Ec) in *. cbn [unescape] in *. change (0 + 1) with 1 in *.
    replace (S (Z.to_nat (byte + 1))) with (Z.to_nat (byte + 1 + 1)) in * by lia.
    assert (wadd 64 (byte + 1) 1 = byte + 1 + 1) as Ew' by (apply wrap_small; unfold fits, zlen in *; lia).
    eexists. split; [reflexivity|]. rewrite ?Ew', ?(Ez 0) by lia.
    split; [split|split; [done|]]; cbn; rewrite ?Ew', ?(Ez 0) by lia; try done; try lia; unfold zlen in *; destruct (c =? 0); lia.
  - right. eexists. split; [reflexivity|]. rewrite (Ez zeros) by lia.
    split; [split|split; [done|]]; cbn; rewrite ?(Ez zeros) by lia; try done; try lia; unfold zlen in *; destruct (b =? 0); lia.
Qed.

Lemma current_bit_ok data r pre :
  reader_ok data r pre -> 0 < br_left r ->
  exists r' b, current_bit r = (r', inr b) /\ reader_ok data r' (pre ++ [b]) /\ rest r = b :: rest r'.
Proof.
  intros Hok Hl. pose proof (consumed_bound data r pre Hok) as Hbound. destruct r as [d byte left_ cur zeros consumed lastset escapes]. destruct Hok as [Hd Hb Hs Hby Hlr Hz Hp Hc Hlast].
  unfold current_bit, rest in *. cbn in *. subst d consumed. replace (Z.to_nat left_) with (S (Z.to_nat (left_ - 1))) in * by lia. cbn [bits_be app] in *.
  assert ((Z.land (Z.shiftr cur (left_ - 1)) 1 =? 1) = Z.testbit cur (Z.of_nat (Z.to_nat (left_ - 1)))) as ->.
  { rewrite Z2Nat.id by lia. apply land_bit. }
  eexists _, _. split; [reflexivity|]. split; [|done]. rewrite zlen_cons in Hbound. pose proof (zlen_nonneg pre).
  assert (wadd 64 (zlen pre) 1 = zlen pre + 1) as Ew.
  { apply wrap_small. unfold fits. match type of Hbound with _ + (zlen ?l + 1) <= _ => pose proof (zlen_nonneg l) end. lia. }
  split; cbn; try done; try lia.
  - unfold rest. cbn. by rewrite <- app_assoc, Hp.
  - by rewrite Ew, zlen_app.
Qed.

Lemma bit_spec data r pre :
  reader_ok data r pre ->
  match rest r with
  | [] => exists r', BitReader_bit r = (r', inl ParseTruncated)
  | b :: l' => exists r', BitReader_bit r = (r', inr b) /\ reader_ok data r' (pre ++ [b]) /\ rest r' = l'
  end.
Proof.
  intros Hok. unfold BitReader_bit, mbind, reading_bind, load_if_empty. destruct (Z.eqb_spec (br_left r) 0) as [E|E].
  - destruct (load_ok data r pre Hok E) as [[Hr [r' ->]]|(r' & -> & Hok' & Hl' & <-)]; [rewrite Hr; by eexists|].
    destruct (current_bit_ok data r' pre Hok' ltac:(lia)) as (r2 & b & -> & Hok2 & ->). by exists r2.
  - destruct (current_bit_ok data r pre Hok) as (r2 & b & -> & Hok2 & ->); [destruct Hok; lia|]. by exists r2.
Qed.

Lemma gets_bit b : gets BitReader_bit [b] b.
Proof. intros data pre r l' Hok Hr. pose proof (bit_spec data r pre Hok) as H. by rewrite Hr in H. Qed.

Lemma lor_double v (b : bool) : 0 <= v -> Z.lor (2 * v) (if b then 1 else 0) = 2 * v + (if b then 1 else 0).
Proof.
  intros H. destruct b; [|by rewrite Z.lor_0_r, Z.add_0_r]. by destruct v.
Qed.

Lemma gets_loop l v n : length l = n -> 0 <= v -> (v + 1) * 2 ^ Z.of_nat n <= 2 ^ 32 -> gets (read_loop v n) l (v * 2 ^ Z.of_nat n + of_bits l).
Proof.
  revert v l. induction n as [|n IH]; intros v l Hl Hv Hb.
  - destruct l; [|done]. change (2 ^ Z.of_nat 0) with 1. rewrite Z.mul_1_r, Z.add_0_r. apply gets_ret.
  - destruct l as [|b l]; [done|]. cbn [read_loop]. change (b :: l) with ([b] ++ l). eapply gets_bind; [apply gets_bit|].
    replace (Z.of_nat (S n)) with (Z.of_nat n + 1) in * by lia. rewrite Z.pow_add_r in * by lia. change (2 ^ 1) with 2 in *.
    assert (0 < 2 ^ Z.of_nat n) by lia. assert (2 * (v + 1) <= 2 ^ 32) by nia.
    assert (wrap 32 (Z.shiftl v 1) = 2 * v) as -> by (rewrite Z.shiftl_mul_pow2, wrap_small by (unfold fits; lia); lia).
    rewrite lor_double by done. set (v' := 2 * v + (if b then 1 else 0)). replace (v * (2 ^ Z.of_nat n * 2) + of_bits ([b] ++ l)) with (v' * 2 ^ Z.of_nat n + of_bits l).
    + apply IH; [by injection Hl|unfold v'; destruct b; lia|unfold v'; destruct b; nia].
    + rewrite of_bits_app. replace (zlen l) with (Z.of_nat n) by (unfold zlen; injection Hl; lia). unfold v', of_bits at 2. cbn. destruct b; lia.
Qed.

Lemma gets_bits v n : 0 <= n <= 32 -> 0 <= v < 2 ^ n -> gets (BitReader_bits n) (bits_be (Z.to_nat n) v) v.
Proof.
  intros Hn Hv. unfold BitReader_bits. destruct (Z.ltb_spec 32 n); [lia|].
  assert (2 ^ n <= 2 ^ 32) by (apply Z.pow_le_mono_r; lia).
  pose proof (gets_loop (bits_be (Z.to_nat n) v) 0 (Z.to_nat n)) as Hg. rewrite length_bits_be, Z.mul_0_l, Z.add_0_l, of_bits_small, Z2Nat.id in Hg by (rewrite ?Z2Nat.id; lia).
  apply Hg; [done|lia|lia].
Qed.

Lemma gets_u8 v n : 0 <= n <= 8 -> 0 <= v < 2 ^ n -> gets (BitReader_u8 n) (bits_be (Z.to_nat n) v) v.
Proof.
  intros Hn Hv. unfold BitReader_u8. destruct (Z.ltb_spec 8 n); [lia|]. assert (2 ^ n <= 2 ^ 8) by (apply Z.pow_le_mono_r; lia).
  eapply gets_bind_ret; [apply gets_bits; lia|]. apply gets_or_refuse. unfold try_from. cbv zeta. destruct (Z.ltb_spec v (2 ^ 8)); [|lia]. by destruct (Z.leb_spec 0 v); [|lia].
Qed.

Lemma gets_zeros fuel n zeros : (n < fuel)%nat -> zeros + Z.of_nat n <= 31 -> gets (zeros_loop fuel zeros) (repeat false n ++ [true]) (zeros + Z.of_nat n).
Proof.
  revert n zeros. induction fuel as [|fuel IH]; intros n zeros Hf Hn; [lia|]. cbn [zeros_loop]. destruct n as [|n]; cbn [repeat app].
  - rewrite Z.add_0_r. eapply gets_bind_ret; [apply gets_bit|]. apply gets_ret.
  - change (false :: repeat false n ++ [true]) with ([false] ++ (repeat false n ++ [true])). eapply gets_bind; [apply gets_bit|]. cbn match.
    destruct (Z.ltb_spec 31 (zeros + 1)); [lia|]. replace (zeros + Z.of_nat (S n)) with (zeros + 1 + Z.of_nat n) by lia. apply IH; lia.
Qed.

Lemma gets_ue v : 0 <= v < 2 ^ 32 - 1 -> gets BitReader_ue (golomb v) v.
Proof.
  intros H. unfold BitReader_ue, golomb. cbv zeta. pose proof (Z.log2_nonneg (v + 1)) as Hn. assert (Z.log2 (v + 1) < 32) as Hn32 by (apply Z.log2_lt_pow2; lia).
  pose proof (Z.log2_spec (v + 1) ltac:(lia)) as [Hlo Hhi]. set (n := Z.log2 (v + 1)) in *. replace (Z.succ n) with (n + 1) in Hhi by lia. rewrite Z.pow_add_r in Hhi by lia. change (2 ^ 1) with 2 in Hhi.
  cbn [bits_be]. rewrite Z2Nat.id by done.
  assert (Z.testbit (v + 1) n = true) as -> by (unfold n; apply Z.bit_log2; lia).
  change (true :: bits_be (Z.to_nat n) (v + 1)) with ([true] ++ bits_be (Z.to_nat n) (v + 1)). rewrite app_assoc.
  eapply gets_bind; [apply (gets_zeros 33 _ 0); lia|]. rewrite Z.add_0_l, Z2Nat.id by done. destruct (Z.eqb_spec n 0) as [E|E].
  - rewrite E. assert (v = 0) as -> by (rewrite E in *; lia). apply gets_ret.
  - assert (bits_be (Z.to_nat n) (v + 1) = bits_be (Z.to_nat n) (v + 1 - 2 ^ n)) as ->.
    { rewrite <- (bits_be_mod _ (v + 1)), Z2Nat.id by done. f_equal. symmetry. apply (Z.mod_unique (v + 1) (2 ^ n) 1); lia. }
    eapply gets_bind_ret; [apply gets_bits; lia|]. apply gets_or_refuse. unfold checked_add. rewrite Z.shiftl_mul_pow2, Z.mul_1_l by done.
    replace (2 ^ n - 1 + (v + 1 - 2 ^ n)) with v by lia. by destruct (Z.ltb_spec v (2 ^ 32)); [|lia].
Qed.

Lemma gets_ue_max v max : 0 <= v <= max -> v < 2 ^ 32 - 1 -> gets (BitReader_ue_max max) (golomb v) v.
Proof.
  intros H Hv. unfold BitReader_ue_max. eapply gets_bind_ret; [apply gets_ue; lia|]. destruct (Z.ltb_spec max v); [lia|]. apply gets_ret.
Qed.

Lemma gets_se v : - 2 ^ 31 < v < 2 ^ 31 -> gets BitReader_se (golomb (fold_sign v)) v.
Proof.
  intros H. unfold BitReader_se, fold_sign. destruct (Z.leb_spec v 0) as [Hv|Hv].
  - eapply gets_bind_ret; [apply gets_ue; lia|]. cbv zeta. replace ((-2 * v + 1) / 2) with (- v) by (Z.div_mod_to_equations; lia).
    eapply gets_bind_ret; [apply gets_or_refuse; by destruct (Z.ltb_spec (- v) (2 ^ 31)); [|lia]|].
    rewrite land_odd. replace (-2 * v) with (2 * - v) by lia. rewrite Z.odd_mul. cbn [Z.odd andb]. rewrite Z.opp_involutive. apply gets_ret.
  - eapply gets_bind_ret; [apply gets_ue; lia|]. cbv zeta. replace ((2 * v - 1 + 1) / 2) with v by (Z.div_mod_to_equations; lia).
    eapply gets_bind_ret; [apply gets_or_refuse; by destruct (Z.ltb_spec v (2 ^ 31)); [|lia]|].
    rewrite land_odd, Z.odd_sub, Z.odd_mul. apply gets_ret.
Qed.

Lemma gets_skip_loop l : gets (skip_bits_loop (length l)) l ().
Proof.
  induction l as [|b l IH]; cbn [length skip_bits_loop]; [apply gets_ret|]. change (b :: l) with ([b] ++ l). eapply gets_bind; [apply gets_bit|done].
Qed.

Lemma gets_skip n l : zlen l = n -> gets (BitReader_skip n) l ().
Proof. intros <-. unfold BitReader_skip, zlen. rewrite Nat2Z.id. apply gets_skip_loop. Qed.

(** ** More syntax *)

(** Where the last set bit is. *)
Fixpoint last_true (l : list bool) : option nat :=
  match l with
  | [] => None
  | b :: l => match last_true l with Some i => Some (S i) | None => if b : bool then Some 0%nat else None end
  end.

Lemma last_true_app a b : last_true (a ++ b) = match last_true b with Some i => Some (length a + i)%nat | None => last_true a end.
Proof.
  induction a as [|x a IH]; cbn [app last_true length]; [by destruct (last_true b)|]. rewrite IH. by destruct (last_true b).
Qed.

Lemma last_true_lt l i : last_true l = Some i -> (i < length l)%nat.
Proof.
  revert i. induction l as [|b l IH]; intros i; cbn [last_true length]; [done|]. destruct (last_true l) as [j|]; [intros [= <-]; specialize (IH j eq_refl); lia|].
  destruct b; [intros [= <-]; lia|done].
Qed.

Lemma last_true_byte b :
  fits 8 b -> last_true (bits_be 8 b) = if b =? 0 then None else Some (Z.to_nat (7 - trailing_zeros 8 b)).
Proof.
  intros H. pose proof (byte_forall (fun b => bool_decide (last_true (bits_be 8 b) = if b =? 0 then None else Some (Z.to_nat (7 - trailing_zeros 8 b)))) ltac:(by vm_compute) b H) as E.
  by apply bool_decide_eq_true in E.
Qed.

Lemma trailing_byte b : fits 8 b -> b <> 0 -> trailing_zeros 8 b <= 7.
Proof.
  intros H Hb. pose proof (byte_forall (fun b => (b =? 0) || (trailing_zeros 8 b <=? 7)) ltac:(by vm_compute) b H) as E. cbn beta in E.
  destruct (Z.eqb_spec b 0); [done|]. by apply Z.leb_le.
Qed.

Lemma last_set_loop_eq data zeros position last :
  bytes_ok data -> 0 <= zeros -> zeros + zlen data < 2 ^ 32 ->
  last_set_loop data zeros position last = match last_true (bits_of (unescape zeros data)) with Some i => Some (position + Z.of_nat i) | None => last end.
Proof.
  intros Hb. revert zeros position last. induction Hb as [|b data Hb _ IH]; intros zeros position last Hz Hs; [done|].
  rewrite zlen_cons in Hs. pose proof (zlen_nonneg data). cbn [last_set_loop unescape]. destruct ((2 <=? zeros) && (b =? 3)); [apply IH; lia|].
  assert ((if b =? 0 then wadd 32 zeros 1 else 0) = if b =? 0 then zeros + 1 else 0) as ->.
  { destruct (b =? 0); [|done]. apply wrap_small. unfold fits. lia. }
  change (bits_of (b :: ?l)) with (bits_be 8 b ++ bits_of l). rewrite last_true_app, last_true_byte, length_bits_be by done.
  rewrite IH by (destruct (b =? 0); lia). destruct (last_true (bits_of (unescape _ data))); [f_equal; lia|].
  destruct (Z.eqb_spec b 0) as [|Hne]; cbn [negb]; [done|]. pose proof (trailing_byte b Hb Hne). f_equal. lia.
Qed.

Lemma last_set_bit_eq data : bytes_ok data -> zlen data < 2 ^ 32 -> last_set_bit data = Z.of_nat <$> last_true (bits_of (unescape 0 data)).
Proof. intros Hb Hs. unfold last_set_bit. rewrite last_set_loop_eq by done. by destruct (last_true _). Qed.

(** True while any bit but the last set one remains. *)
Lemma more_spec data r pre :
  reader_ok data r pre ->
  exists r', BitReader_more_rbsp_data r = (r', inr (match last_true (rest r) with Some (S _) => true | _ => false end)) /\ reader_ok data r' pre /\ rest r' = rest r.
Proof.
  intros Hok. pose proof Hok as [Hd Hb Hs Hby Hl Hz Hp Hc Hlast].
  assert (match last_set_bit data with Some last => br_consumed r <? last | None => false end = match last_true (rest r) with Some (S _) => true | _ => false end) as Hm.
  { rewrite last_set_bit_eq, Hp, Hc, last_true_app by done. unfold zlen. destruct (last_true (rest r)) as [[|i]|]; cbn.
    - apply Z.ltb_ge. lia.
    - apply Z.ltb_lt. lia.
    - destruct (last_true pre) as [j|] eqn:E; [|done]. apply last_true_lt in E. apply Z.ltb_ge. cbn. lia. }
  unfold BitReader_more_rbsp_data. destruct Hlast as [->| ->]; rewrite ?Hd.
  - eexists. split; [cbn [br_consumed]; change (br_consumed (r <| br_last_set := _ |>)) with (br_consumed r); by rewrite Hm|]. split; [|done].
    destruct r. split; cbn in *; try done. by right.
  - exists r. by rewrite Hm.
Qed.

Lemma gets_more l data pre r :
  reader_ok data r pre -> rest r = l -> (exists i, last_true l = Some (S i)) ->
  exists r', BitReader_more_rbsp_data r = (r', inr true) /\ reader_ok data r' pre /\ rest r' = l.
Proof. intros Hok <- [i Hi]. pose proof (more_spec data r pre Hok) as H. by rewrite Hi in H. Qed.

(** ** Framing *)

(** Units each led by a four-byte start code, and where they lie. *)
Definition framed (units : list (list Z)) : list Z := flat_map (fun u => [0; 0; 0; 1] ++ u) units.
Fixpoint located (at_ : Z) (units : list (list Z)) : list Unit_ :=
  match units with
  | [] => []
  | u :: units => mkUnit u (at_ + 4) :: located (at_ + 4 + zlen u) units
  end.

Lemma framed_cons u units : framed (u :: units) = 0 :: 0 :: 0 :: 1 :: u ++ framed units.
Proof. done. Qed.

Lemma window_in zeros u tail :
  0 <= zeros -> no_start zeros u -> window_position (u ++ 0 :: 0 :: 0 :: 1 :: tail) = Some (zlen u + 1).
Proof.
  revert zeros. induction u as [|a u IH]; intros zeros Hz Hn; [done|]. destruct Hn as [_ Hn].
  rewrite zlen_cons. cbn [app window_position]. assert (exists b c l, u ++ 0 :: 0 :: 0 :: 1 :: tail = b :: c :: l /\ (a =? 0) && (b =? 0) && (c =? 1) = false) as (b & c & l & E & Hw).
  { destruct u as [|b [|c u]]; cbn [app]; eexists _, _, _; (split; [reflexivity|]); [by rewrite andb_false_r..|].
    destruct (Z.eqb_spec a 0), (Z.eqb_spec b 0), (Z.eqb_spec c 1); try done. subst. destruct Hn as [_ [Hc _]]. cbn in Hc. lia. }
  rewrite E, Hw, <- E, (IH (if a =? 0 then zeros + 1 else 0)); [|destruct (a =? 0); lia|done]. cbn. f_equal.
Qed.

Lemma window_none zeros u : 0 <= zeros -> no_start zeros u -> window_position u = None.
Proof.
  revert zeros. induction u as [|a u IH]; intros zeros Hz Hn; [done|]. destruct Hn as [_ Hn]. cbn [window_position].
  destruct u as [|b [|c u]]; [done..|]. assert ((a =? 0) && (b =? 0) && (c =? 1) = false) as ->.
  { destruct (Z.eqb_spec a 0), (Z.eqb_spec b 0), (Z.eqb_spec c 1); try done. subst. destruct Hn as [_ [Hc _]]. cbn in Hc. lia. }
  rewrite (IH (if a =? 0 then zeros + 1 else 0)); [done|destruct (a =? 0); lia|done].
Qed.

Lemma next_start_at before tail : next_start_code (before ++ tail) (zlen before) = (fun p => zlen before + p) <$> window_position tail.
Proof.
  unfold next_start_code. rewrite zlen_app, get_range_eq by (pose proof (zlen_nonneg before); pose proof (zlen_nonneg tail); rewrite ?zlen_app; lia).
  rewrite drop_app_length' by (unfold zlen; lia). replace (zlen before + zlen tail - zlen before) with (zlen tail) by lia.
  rewrite take_ge by (unfold zlen; lia). cbn. by destruct (window_position tail).
Qed.

Lemma units_next_framed fuel before u units :
  u <> [] -> no_start 0 u ->
  units_next (S fuel) (mkUnits (before ++ framed (u :: units)) (zlen before)) =
    (mkUnits (before ++ framed (u :: units)) (zlen before + 4 + zlen u), Some (mkUnit u (zlen before + 4))).
Proof.
  intros Hu Hn. cbn [units_next us_data us_at]. rewrite next_start_at, framed_cons.
  change (window_position (0 :: 0 :: 0 :: 1 :: _)) with (Some 1). cbn [fmap option_fmap option_map].
  set (data := before ++ 0 :: 0 :: 0 :: 1 :: u ++ framed units). assert (data = (before ++ [0; 0; 0; 1]) ++ u ++ framed units) as Ed by (unfold data; by rewrite <- app_assoc).
  assert (zlen before + 1 + 3 = zlen (before ++ [0; 0; 0; 1])) as -> by (rewrite zlen_app; change (zlen [_; _; _; _]) with 4; lia).
  set (b4 := before ++ [0; 0; 0; 1]) in *. assert (zlen b4 = zlen before + 4) as Eb by (unfold b4; rewrite zlen_app; done).
  pose proof (zlen_nonneg before). pose proof (zlen_nonneg u).
  assert (unit_end data (zlen b4) = zlen b4 + zlen u) as ->.
  { unfold unit_end. rewrite Ed, next_start_at. destruct units as [|v units].
    - cbn [framed flat_map]. rewrite app_nil_r, (window_none 0) by done. cbn. by rewrite zlen_app.
    - rewrite framed_cons, (window_in 0) by done. cbn [fmap option_fmap option_map].
      destruct (Z.ltb_spec (zlen b4) (zlen b4 + (zlen u + 1))); [|lia]. replace (zlen b4 + (zlen u + 1) - 1) with (zlen (b4 ++ u)) by (rewrite zlen_app; lia).
      rewrite app_assoc, get_at_mid by done. rewrite bool_decide_eq_true_2 by done. cbn [andb]. by rewrite zlen_app. }
  assert (get_range data (zlen b4) (zlen b4 + zlen u) = Some u) as -> by (rewrite Ed; apply get_range_mid; lia). rewrite <- Eb. destruct u; done.
Qed.

Lemma units_framed fuel before units :
  Forall (fun u => u <> [] /\ no_start 0 u) units -> (length units < fuel)%nat ->
  units_loop fuel (mkUnits (before ++ framed units) (zlen before)) = located (zlen before) units.
Proof.
  intros H. revert fuel before. induction H as [|u units [Hu Hn] _ IH]; intros fuel before Hf; (destruct fuel as [|fuel]; [cbn in Hf; lia|]).
  - cbn [framed flat_map units_loop]. unfold Units_next. cbn [units_next us_data us_at]. rewrite next_start_at. done.
  - cbn [units_loop]. unfold Units_next. cbn [us_data]. rewrite units_next_framed by done. cbn [located]. f_equal.
    assert (before ++ framed (u :: units) = (before ++ [0; 0; 0; 1] ++ u) ++ framed units) as -> by (cbn; by rewrite <- !app_assoc).
    assert (zlen before + 4 + zlen u = zlen (before ++ [0; 0; 0; 1] ++ u)) as -> by (rewrite !zlen_app; change (zlen [_; _; _; _]) with 4; lia).
    apply IH. cbn in Hf. lia.
Qed.

Lemma Units_framed units : Forall (fun u => u <> [] /\ no_start 0 u) units -> Units_all (framed units) = located 0 units.
Proof.
  intros H. unfold Units_all, Units_new. apply (units_framed _ []); [done|]. clear H. induction units as [|u units IH]; [cbn; lia|].
  cbn [framed flat_map]. change (flat_map _ units) with (framed units). rewrite !length_app. cbn [length]. lia.
Qed.
