(* ===== verification/H264Write.v ===== *)
(** The H.264 headers an encoder writes itself (crates/encode/src/h264.rs): the sequence
    and picture parameter sets and the slice header.  A run of calls whose results are
    not looked at is the list of them. *)

From S2P Require Import Prelude BitWriter.

Definition START_CODE : list Z := [0; 0; 0; 1].
Definition PROFILE_HIGH : Z := 100.
Definition VIDEO_FORMAT_UNSPECIFIED : Z := 5.
Definition BT709 : Z := 1.

(** [h264::Params]. *)
Record Params := mkParams {
  hp_width : Z;
  hp_height : Z;
  hp_fps : Z;
  hp_level_idc : Z;
  hp_log2_max_frame_num_minus4 : Z;
  hp_log2_max_poc_lsb_minus4 : Z;
  hp_max_num_ref_frames : Z;
}.

Definition Params_width_in_mbs (p : Params) : Z := (hp_width p + 15) / 16.
Definition Params_height_in_mbs (p : Params) : Z := (hp_height p + 15) / 16.
Definition Params_crop (p : Params) : Z * Z :=
  (wsub 32 (wrap 32 (Params_width_in_mbs p * 16)) (hp_width p) / 2, wsub 32 (wrap 32 (Params_height_in_mbs p * 16)) (hp_height p) / 2).

(** ** Statements *)

Definition stmt : Type := BitWriter -> BitWriter.
Definition w_bit (b : bool) : stmt := put_ (fun w => BitWriter_bit w b).
Definition w_bits (v n : Z) : stmt := put_ (fun w => BitWriter_bits w v n).
Definition w_ue (v : Z) : stmt := put_ (fun w => BitWriter_ue w v).
Definition w_se (v : Z) : stmt := put_ (fun w => BitWriter_se w v).
Definition run_stmts (l : list stmt) (w : BitWriter) : BitWriter := foldl (fun w f => f w) w l.

(** [emit]: the start code byte by byte, the unit header, the escaped payload. *)
Fixpoint emit_bytes (bytes out : list Z) (written : Z) : list Z * option Z :=
  match bytes with
  | [] => (out, Some written)
  | byte :: bytes => match get_at out written with None => (out, None) | Some _ => emit_bytes bytes (put_at out written byte) (written + 1) end
  end.
Definition emit (header : Z) (payload out : list Z) : list Z * option Z :=
  match emit_bytes (START_CODE ++ [header]) out 0 with
  | (out, None) => (out, None)
  | (out, Some written) =>
      match get_range out written (zlen out) with
      | None => (out, None)
      | Some tail =>
          let '(tail, n) := escape payload tail in
          (put_range out written tail, n ← n; Some (written + n))
      end
  end.

(** ** The sequence parameter set *)

Definition sps_stmts (p : Params) : list stmt :=
  let '(right_, bottom) := Params_crop p in
  let cropping := (0 <? right_) || (0 <? bottom) in
  [ w_bits PROFILE_HIGH 8; w_bits 0 8; w_bits (hp_level_idc p) 8; w_ue 0;
    w_ue 1; w_ue 0; w_ue 0; w_bit false; w_bit false;
    w_ue (hp_log2_max_frame_num_minus4 p); w_ue 0; w_ue (hp_log2_max_poc_lsb_minus4 p); w_ue (hp_max_num_ref_frames p); w_bit false;
    w_ue (wsub 32 (Params_width_in_mbs p) 1); w_ue (wsub 32 (Params_height_in_mbs p) 1); w_bit true; w_bit true;
    w_bit cropping ] ++
  (if cropping then [w_ue 0; w_ue right_; w_ue 0; w_ue bottom] else []) ++
  [ w_bit true; w_bit false; w_bit false; w_bit true; w_bits VIDEO_FORMAT_UNSPECIFIED 3; w_bit false; w_bit true;
    w_bits BT709 8; w_bits BT709 8; w_bits BT709 8; w_bit false;
    w_bit true; w_bits 1 32; w_bits (sat_mul32 (hp_fps p) 2) 32; w_bit true;
    w_bit false; w_bit false; w_bit false;
    w_bit true; w_bit true; w_ue 2; w_ue 1; w_ue 16; w_ue 16; w_ue 0; w_ue (hp_max_num_ref_frames p) ].

Definition sequence_parameter_set (p : Params) (out : list Z) : list Z * option Z :=
  let w := run_stmts (sps_stmts p) (BitWriter_new (repeat 0 128)) in
  let '(w, fits) := BitWriter_trailing_bits w in
  if negb fits then (out, None) else emit 0x67 (BitWriter_finish w) out.

(** ** The picture parameter set *)

Definition pps_stmts : list stmt :=
  [ w_ue 0; w_ue 0; w_bit true; w_bit false; w_ue 0; w_ue 0; w_ue 0; w_bit false; w_bits 0 2; w_se 0; w_se 0; w_se 0;
    w_bit true; w_bit false; w_bit false; w_bit true; w_bit false; w_se 0 ].

Definition picture_parameter_set (out : list Z) : list Z * option Z :=
  let w := run_stmts pps_stmts (BitWriter_new (repeat 0 64)) in
  let '(w, fits) := BitWriter_trailing_bits w in
  if negb fits then (out, None) else emit 0x68 (BitWriter_finish w) out.

(** ** The slice header *)

(** [SliceHeader] of the writer, and [Picture]. *)
Record WrittenHeader := mkWrittenHeader { wh_bytes_written : Z; wh_bit_length : Z }.
Inductive Picture := Refresh (idr_pic_id : Z) | Predicted (frame_num poc_lsb : Z).

Definition slice_stmts (p : Params) (picture : Picture) : list stmt :=
  [ w_ue 0; match picture with Refresh _ => w_ue 7 | Predicted _ _ => w_ue 5 end; w_ue 0;
    w_bits (match picture with Refresh _ => 0 | Predicted frame_num _ => frame_num end) (wadd 32 (hp_log2_max_frame_num_minus4 p) 4) ] ++
  match picture with Refresh idr_pic_id => [w_ue idr_pic_id] | Predicted _ _ => [] end ++
  [ w_bits (match picture with Refresh _ => 0 | Predicted _ poc_lsb => poc_lsb end) (wadd 32 (hp_log2_max_poc_lsb_minus4 p) 4) ] ++
  match picture with Refresh _ => [] | Predicted _ _ => [w_bit false; w_bit false] end ++
  match picture with Refresh _ => [w_bit false; w_bit false] | Predicted _ _ => [w_bit false] end ++
  match picture with Refresh _ => [] | Predicted _ _ => [w_ue 0] end ++
  [ w_se 0; w_ue 0; w_se 0; w_se 0 ].

Definition slice_header (p : Params) (picture : Picture) (out : list Z) : list Z * option WrittenHeader :=
  let w := run_stmts (slice_stmts p picture) (BitWriter_new (repeat 0 64)) in
  let bit_length := BitWriter_bit_len w in
  let payload := BitWriter_finish w in
  let header := match picture with Refresh _ => 0x65 | Predicted _ _ => 0x41 end in
  let '(out, n) := emit header payload out in
  (out, bytes_written ← n; Some (mkWrittenHeader bytes_written (bit_length + (zlen START_CODE + 1) * 8))).

(** ** The counters between pictures *)

(** What crates/encode/src/vaapi.rs keeps of the pictures it coded: the identifier the
    next refresh carries, the last frame number, and the one reference's counters. *)
Record Counters := mkCounters { ct_idr_pic_id : Z; ct_frame_num : Z; ct_reference : option (Z * Z) }.
Definition Counters_new : Counters := mkCounters 0 0 None.
Definition poc_period (p : Params) : Z := wrap 32 (Z.shiftl 1 (wadd 32 (hp_log2_max_poc_lsb_minus4 p) 4)).

(** The picture [submit_from] plans and the counters it leaves. *)
Definition plan_picture (p : Params) (c : Counters) (force_keyframe : bool) : Picture * Counters :=
  let refresh := force_keyframe || bool_decide (ct_reference c = None) in
  let '(frame_num, poc) :=
    if refresh then (0, 0)
    else
      let next := wadd 32 (ct_frame_num c) 1 mod wrap 32 (Z.shiftl 1 (wadd 32 (hp_log2_max_frame_num_minus4 p) 4)) in
      (next, wrap 32 (next * 2) mod poc_period p) in
  (if refresh then Refresh (ct_idr_pic_id c) else Predicted frame_num poc,
   mkCounters (if refresh then Z.lxor (ct_idr_pic_id c) 1 else ct_idr_pic_id c) frame_num (Some (frame_num, poc))).

(** ** What they write *)

Definition says (f : stmt) (l : list bool) : Prop :=
  forall cap w l0, wrote cap w l0 -> zlen l0 + zlen l <= 8 * cap -> wrote cap (f w) (l0 ++ l).

Lemma says_bit b : says (w_bit b) [b].
Proof. intros cap w l0. apply wrote_put, puts_bit. Qed.
Lemma says_bits v n : n <= 32 -> says (w_bits v n) (bits_be (Z.to_nat n) v).
Proof. intros Hn cap w l0. apply wrote_put. by apply (puts_bits v n). Qed.
Lemma says_ue v : 0 <= v < 2 ^ 32 - 1 -> says (w_ue v) (golomb v).
Proof. intros Hv cap w l0. apply wrote_put. by apply (puts_ue v). Qed.
Lemma says_se v : - 2 ^ 31 < v < 2 ^ 31 -> says (w_se v) (golomb (fold_sign v)).
Proof. intros Hv cap w l0. apply wrote_put. by apply (puts_se v). Qed.

Lemma says_step f fs l ls : says f l -> says (run_stmts fs) ls -> says (run_stmts (f :: fs)) (l ++ ls).
Proof.
  intros Hf Hfs cap w l0 Hw Hl. rewrite zlen_app in Hl. pose proof (zlen_nonneg ls). rewrite app_assoc. cbn [run_stmts foldl].
  apply Hfs; [apply Hf; [done|lia]|]. rewrite zlen_app. lia.
Qed.

Lemma says_last f l : says f l -> says (run_stmts [f]) l.
Proof. done. Qed.

(** A whole unit: its bytes, and the storage after it. *)
Definition unit_bytes (header : Z) (payload : list Z) : list Z := START_CODE ++ header :: escaped 0 payload.

Lemma emit_bytes_eq bytes pre rest :
  zlen bytes <= zlen rest -> emit_bytes bytes (pre ++ rest) (zlen pre) = (pre ++ bytes ++ drop (length bytes) rest, Some (zlen pre + zlen bytes)).
Proof.
  revert pre rest. induction bytes as [|b bytes IH]; intros pre rest H; cbn [emit_bytes]; [by rewrite zlen_nil, Z.add_0_r|]. rewrite zlen_cons in H.
  pose proof (zlen_nonneg bytes). destruct rest as [|x rest]; [change (zlen (@nil Z)) with 0 in H; lia|]. rewrite zlen_cons in H.
  rewrite get_at_mid, put_at_mid by done. assert (zlen pre + 1 = zlen (pre ++ [b])) as -> by (rewrite zlen_app; done).
  rewrite IH by lia. rewrite (zlen_app pre), (zlen_cons b bytes), <- !app_assoc. change (zlen [b]) with 1. cbn [app length drop]. f_equal. f_equal. lia.
Qed.

Lemma emit_bytes_short bytes pre rest : zlen rest < zlen bytes -> snd (emit_bytes bytes (pre ++ rest) (zlen pre)) = None.
Proof.
  revert pre rest. induction bytes as [|b bytes IH]; intros pre rest H; cbn [emit_bytes]; [change (zlen (@nil Z)) with 0 in H; pose proof (zlen_nonneg rest); lia|]. rewrite zlen_cons in H.
  destruct rest as [|x rest].
  { assert (get_at (pre ++ []) (zlen pre) = None) as -> by (unfold get_at, zlen; apply lookup_ge_None_2; rewrite Nat2Z.id, app_nil_r; lia). done. }
  rewrite zlen_cons in H. rewrite get_at_mid, put_at_mid by done. assert (zlen pre + 1 = zlen (pre ++ [b])) as -> by (rewrite zlen_app; done). apply IH. lia.
Qed.

Lemma emit_eq header payload out :
  zlen (unit_bytes header payload) <= zlen out ->
  emit header payload out = (unit_bytes header payload ++ drop (length (unit_bytes header payload)) out, Some (zlen (unit_bytes header payload))).
Proof.
  intros H. assert (unit_bytes header payload = (START_CODE ++ [header]) ++ escaped 0 payload) as E by done. rewrite E in *. rewrite zlen_app in H.
  unfold emit. set (h := START_CODE ++ [header]) in *. pose proof (zlen_nonneg (escaped 0 payload)). assert (zlen h = 5) as Eh by done.
  assert (emit_bytes h out 0 = (h ++ drop (length h) out, Some (zlen h))) as -> by (apply (emit_bytes_eq h [] out); lia).
  assert (zlen (drop (length h) out) = zlen out - 5) as Ed by (rewrite zlen_drop; unfold zlen in *; lia).
  rewrite zlen_app, get_range_eq by (rewrite ?zlen_app; lia). rewrite drop_app_length' by (unfold zlen; lia). rewrite take_ge by (unfold zlen in *; lia).
  rewrite escape_written_eq by lia. cbn [mbind option_bind]. rewrite put_range_app by lia. f_equal.
  - rewrite <- !app_assoc. f_equal. f_equal. rewrite (drop_ge (drop (length h) out) (length (_ ++ _))) by (rewrite length_app, !length_drop; lia).
    by rewrite app_nil_r, drop_drop, length_app.
  - by rewrite zlen_app.
Qed.

Lemma emit_short header payload out : zlen out < zlen (unit_bytes header payload) -> snd (emit header payload out) = None.
Proof.
  intros H. assert (unit_bytes header payload = (START_CODE ++ [header]) ++ escaped 0 payload) as E by done. rewrite E, zlen_app in H.
  unfold emit. set (h := START_CODE ++ [header]) in *. assert (zlen h = 5) as Eh by done. destruct (Z.ltb_spec (zlen out) 5).
  { pose proof (emit_bytes_short h [] out ltac:(lia)) as Hn. change ([] ++ out) with out in Hn. change (zlen (@nil Z)) with 0 in Hn. destruct (emit_bytes h out 0) as [o []]; done. }
  assert (emit_bytes h out 0 = (h ++ drop (length h) out, Some (zlen h))) as -> by (apply (emit_bytes_eq h [] out); lia).
  assert (zlen (drop (length h) out) = zlen out - 5) as Ed by (rewrite zlen_drop; unfold zlen in *; lia).
  rewrite zlen_app, get_range_eq by (rewrite ?zlen_app; lia). rewrite drop_app_length' by (unfold zlen; lia). rewrite take_ge by (unfold zlen in *; lia).
  pose proof (escape_short payload (drop (length h) out) ltac:(lia)) as Hn. destruct (escape payload _) as [t []]; done.
Qed.
