(* ===== verification/H264Read.v ===== *)
(** The H.264 headers a decoder reads (crates/decode/src/h264/sps.rs, pps.rs and slice.rs).
    An array is the list of its elements, a fixed list with a count the list of the items
    counted. *)

From S2P Require Import Prelude BitWriter BitReader.

Definition ue_u8 (max : Z) : reading Z := v ← BitReader_ue_max max; or_refuse (try_from 8 v) ParseOutOfRange.
Definition ue_u16 (max : Z) : reading Z := v ← BitReader_ue_max max; or_refuse (try_from 16 v) ParseOutOfRange.
Fixpoint repeat_reading (n : nat) (m : reading unit) : reading unit :=
  match n with O => mret () | S n => _ ← m; repeat_reading n m end.
Definition when {A} (b : bool) (m : reading A) (otherwise : A) : reading A := if b then m else mret otherwise.

(** ** Scaling lists *)

Definition DEFAULT_4X4_INTRA : list Z := [6; 13; 20; 28; 13; 20; 28; 32; 20; 28; 32; 37; 28; 32; 37; 42].
Definition DEFAULT_4X4_INTER : list Z := [10; 14; 20; 24; 14; 20; 24; 27; 20; 24; 27; 30; 24; 27; 30; 34].
Definition DEFAULT_8X8_INTRA : list Z :=
  [6; 10; 13; 16; 18; 23; 25; 27; 10; 11; 16; 18; 23; 25; 27; 29; 13; 16; 18; 23; 25; 27; 29; 31;
   16; 18; 23; 25; 27; 29; 31; 33; 18; 23; 25; 27; 29; 31; 33; 36; 23; 25; 27; 29; 31; 33; 36; 38;
   25; 27; 29; 31; 33; 36; 38; 40; 27; 29; 31; 33; 36; 38; 40; 42].
Definition DEFAULT_8X8_INTER : list Z :=
  [9; 13; 15; 17; 19; 21; 22; 24; 13; 13; 17; 19; 21; 22; 24; 25; 15; 17; 19; 21; 22; 24; 25; 27;
   17; 19; 21; 22; 24; 25; 27; 28; 19; 21; 22; 24; 25; 27; 28; 30; 21; 22; 24; 25; 27; 28; 30; 32;
   22; 24; 25; 27; 28; 30; 32; 33; 24; 25; 27; 28; 30; 32; 33; 35].
Definition ZIGZAG_4X4 : list Z := [0; 1; 4; 8; 5; 2; 3; 6; 9; 12; 13; 10; 7; 11; 14; 15].
Definition ZIGZAG_8X8 : list Z :=
  [0; 1; 8; 16; 9; 2; 3; 10; 17; 24; 32; 25; 18; 11; 4; 5; 12; 19; 26; 33; 40; 48; 41; 34; 27; 20;
   13; 6; 7; 14; 21; 28; 35; 42; 49; 56; 57; 50; 43; 36; 29; 22; 15; 23; 30; 37; 44; 51; 58; 59;
   52; 45; 38; 31; 39; 46; 53; 60; 61; 54; 47; 55; 62; 63].

Record ScalingLists := mkScalingLists { sc_list_4x4 : list (list Z); sc_list_8x8 : list (list Z) }.
#[export] Instance ScalingLists_eta : Eta ScalingLists := fun s => mkScalingLists (sc_list_4x4 s) (sc_list_8x8 s).
Definition ScalingLists_FLAT : ScalingLists := mkScalingLists (repeat (repeat 16 16) 6) (repeat (repeat 16 64) 2).

Definition ScalingLists_fallback_4x4 (s : ScalingLists) (i : Z) : ScalingLists :=
  let source := if i =? 0 then DEFAULT_4X4_INTRA else if i =? 3 then DEFAULT_4X4_INTER
                else default (repeat 16 16) (get_at (sc_list_4x4 s) (i - 1)) in
  s <| sc_list_4x4 := put_at (sc_list_4x4 s) i source |>.
Definition ScalingLists_fallback_8x8 (s : ScalingLists) (i : Z) : ScalingLists :=
  s <| sc_list_8x8 := put_at (sc_list_8x8 s) i (if i =? 0 then DEFAULT_8X8_INTRA else DEFAULT_8X8_INTER) |>.

(** One coded list: the loop over the order its values come in. *)
Fixpoint scaling_list_loop (zigzag : list Z) (j : Z) (last next : Z) (use_default : bool) (out : list Z) : reading (list Z * bool) :=
  match zigzag with
  | [] => mret (out, use_default)
  | at_ :: zigzag =>
      '(next, use_default) ←
        (if negb (next =? 0)
         then delta ← BitReader_se;
              (if negb ((-128 <=? delta) && (delta <=? 127)) then refuse ParseOutOfRange
               else let next := (last + delta + 256) mod 256 in mret (next, (j =? 0) && (next =? 0)))
         else mret (next, use_default));
      let value := if next =? 0 then last else next in
      match get_at out at_ with
      | None => refuse ParseOutOfRange
      | Some _ => v ← or_refuse (try_from 8 value) ParseOutOfRange; scaling_list_loop zigzag (j + 1) value next use_default (put_at out at_ v)
      end
  end.
Definition scaling_list (out zigzag : list Z) : reading (list Z * bool) := scaling_list_loop zigzag 0 8 8 false out.

(** One turn of the loop of [scaling_lists], and the loop from its [i]th turn. *)
Definition scaling_lists_turn (i : Z) (rule_a : bool) (lists : ScalingLists) : reading ScalingLists :=
  present ← BitReader_flag;
  if i <? 6 then
    if present : bool then
      '(coded, use_default) ← scaling_list (repeat 0 16) ZIGZAG_4X4;
      let list_ := if use_default : bool then if i <? 3 then DEFAULT_4X4_INTRA else DEFAULT_4X4_INTER else coded in
      mret (lists <| sc_list_4x4 := put_at (sc_list_4x4 lists) i list_ |>)
    else mret (if rule_a || negb (i mod 3 =? 0) then ScalingLists_fallback_4x4 lists i else lists)
  else
    let k := i - 6 in
    if present : bool then
      '(coded, use_default) ← scaling_list (repeat 0 64) ZIGZAG_8X8;
      mret (if use_default : bool then ScalingLists_fallback_8x8 lists k else lists <| sc_list_8x8 := put_at (sc_list_8x8 lists) k coded |>)
    else mret (if rule_a then ScalingLists_fallback_8x8 lists k else lists).
Fixpoint scaling_lists_loop (n : nat) (i : Z) (rule_a : bool) (lists : ScalingLists) : reading ScalingLists :=
  match n with
  | O => mret lists
  | S n => lists ← scaling_lists_turn i rule_a lists; scaling_lists_loop n (i + 1) rule_a lists
  end.
Definition scaling_lists (lists : ScalingLists) (count : Z) (rule_a : bool) : reading ScalingLists :=
  scaling_lists_loop (Z.to_nat (Z.min count 8)) 0 rule_a lists.

(** ** The sequence parameter set *)

Record Vui := mkVui { vu_max_num_reorder_frames : option Z; vu_max_dec_frame_buffering : option Z; vu_video_full_range : bool }.
Definition Vui_default : Vui := mkVui None None false.

Record Sps := mkSps {
  sp_profile_idc : Z; sp_constraint_flags : Z; sp_level_idc : Z; sp_id : Z;
  sp_chroma_format_idc : Z; sp_separate_colour_plane : bool; sp_bit_depth_luma_minus8 : Z; sp_bit_depth_chroma_minus8 : Z;
  sp_qpprime_y_zero_transform_bypass : bool; sp_scaling_matrix_present : bool; sp_scaling : ScalingLists;
  sp_log2_max_frame_num_minus4 : Z; sp_pic_order_cnt_type : Z; sp_log2_max_pic_order_cnt_lsb_minus4 : Z;
  sp_delta_pic_order_always_zero : bool; sp_offset_for_non_ref_pic : Z; sp_offset_for_top_to_bottom_field : Z;
  sp_num_ref_frames_in_pic_order_cnt_cycle : Z; sp_offset_for_ref_frame : list Z;
  sp_max_num_ref_frames : Z; sp_gaps_in_frame_num_allowed : bool;
  sp_pic_width_in_mbs_minus1 : Z; sp_pic_height_in_map_units_minus1 : Z;
  sp_frame_mbs_only : bool; sp_mb_adaptive_frame_field : bool; sp_direct_8x8_inference : bool;
  sp_crop : option (Z * Z * Z * Z); sp_vui : Vui;
}.

Definition Sps_coded_width (s : Sps) : Z := (sp_pic_width_in_mbs_minus1 s + 1) * 16.
Definition Sps_coded_height (s : Sps) : Z := (sp_pic_height_in_map_units_minus1 s + 1) * 16 * (if sp_frame_mbs_only s then 1 else 2).
Definition Sps_frame_height_in_mbs (s : Sps) : Z := (sp_pic_height_in_map_units_minus1 s + 1) * (if sp_frame_mbs_only s then 1 else 2).
Definition Sps_visible (s : Sps) : Z * Z :=
  let '(w, h) := (Sps_coded_width s, Sps_coded_height s) in
  match sp_crop s with
  | None => (w, h)
  | Some (left_, right_, top, bottom) =>
      let unit_x := if (sp_chroma_format_idc s =? 0) || (sp_chroma_format_idc s =? 3) then 1 else 2 in
      let unit_y := (if sp_chroma_format_idc s =? 1 then 2 else 1) * (if sp_frame_mbs_only s then 1 else 2) in
      let cw := sat_sub w (sat_mul32 (wadd 32 left_ right_) unit_x) in
      let ch := sat_sub h (sat_mul32 (wadd 32 top bottom) unit_y) in
      (Z.max cw 1, Z.max ch 1)
  end.
Definition Sps_max_frame_num (s : Sps) : Z := Z.shiftl 1 (sp_log2_max_frame_num_minus4 s + 4).
Definition Sps_max_pic_order_cnt_lsb (s : Sps) : Z := Z.shiftl 1 (sp_log2_max_pic_order_cnt_lsb_minus4 s + 4).
Definition clamp (lo hi v : Z) : Z := Z.min (Z.max v lo) hi.

(** The level's picture buffer in macroblocks. *)
Definition max_dpb_mbs (s : Sps) : Z :=
  let level := sp_level_idc s in
  if (level =? 9) || (level =? 10) then 396
  else if level =? 11 then if negb (Z.land (sp_constraint_flags s) 0x10 =? 0) && negb (sp_profile_idc s =? 100) then 396 else 900
  else if (level =? 12) || (level =? 13) || (level =? 20) then 2376
  else if level =? 21 then 4752
  else if (level =? 22) || (level =? 30) then 8100
  else if level =? 31 then 18000
  else if level =? 32 then 20480
  else if (level =? 40) || (level =? 41) then 32768
  else if level =? 42 then 34816
  else if level =? 50 then 110400
  else if (level =? 51) || (level =? 52) then 184320
  else 696320.
Definition Sps_max_dpb_frames (s : Sps) : Z :=
  let frame_mbs := (sp_pic_width_in_mbs_minus1 s + 1) * Sps_frame_height_in_mbs s in
  clamp 1 16 (max_dpb_mbs s / Z.max frame_mbs 1).
Definition Sps_reorder_frames (s : Sps) : option Z := vu_max_num_reorder_frames (sp_vui s).
Definition Sps_dpb_frames (s : Sps) : Z :=
  let declared := match vu_max_dec_frame_buffering (sp_vui s) with Some d => d | None => Sps_max_dpb_frames s end in
  clamp 1 16 (Z.max declared (sp_max_num_ref_frames s)).

Definition hrd_parameters : reading unit :=
  cpb_cnt_minus1 ← BitReader_ue_max 31;
  _ ← BitReader_skip 4; _ ← BitReader_skip 4;
  _ ← repeat_reading (Z.to_nat (cpb_cnt_minus1 + 1)) (_ ← BitReader_ue; _ ← BitReader_ue; _ ← BitReader_flag; mret ());
  _ ← BitReader_skip 5; _ ← BitReader_skip 5; _ ← BitReader_skip 5; BitReader_skip 5.

Definition vui_parameters : reading Vui :=
  aspect ← BitReader_flag;
  _ ← when aspect (idc ← BitReader_u8 8; when (idc =? 255) (_ ← BitReader_skip 16; BitReader_skip 16) ()) ();
  overscan ← BitReader_flag;
  _ ← when overscan (_ ← BitReader_flag; mret ()) ();
  signal ← BitReader_flag;
  full_range ← when signal
    (_ ← BitReader_skip 3;
     full_range ← BitReader_flag;
     colour ← BitReader_flag;
     _ ← when colour (_ ← BitReader_skip 8; _ ← BitReader_skip 8; BitReader_skip 8) ();
     mret full_range) false;
  chroma_loc ← BitReader_flag;
  _ ← when chroma_loc (_ ← BitReader_ue; _ ← BitReader_ue; mret ()) ();
  timing ← BitReader_flag;
  _ ← when timing (_ ← BitReader_skip 32; _ ← BitReader_skip 32; _ ← BitReader_flag; mret ()) ();
  nal_hrd ← BitReader_flag;
  _ ← when nal_hrd hrd_parameters ();
  vcl_hrd ← BitReader_flag;
  _ ← when vcl_hrd hrd_parameters ();
  _ ← when (nal_hrd || vcl_hrd) (_ ← BitReader_flag; mret ()) ();
  _ ← BitReader_flag;
  restriction ← BitReader_flag;
  when restriction
    (_ ← BitReader_flag; _ ← BitReader_ue; _ ← BitReader_ue; _ ← BitReader_ue; _ ← BitReader_ue;
     reorder ← BitReader_ue_max 16;
     buffering ← BitReader_ue_max 16;
     mret (mkVui (Some reorder) (Some buffering) full_range))
    (mkVui None None full_range).

Definition high_profiles : list Z := [100; 110; 122; 244; 44; 83; 86; 118; 128; 138; 139; 134; 135].

(** The fields only the high profiles carry. *)
Record HighFields := mkHighFields {
  hf_chroma_format_idc : Z; hf_separate_colour_plane : bool; hf_bit_depth_luma_minus8 : Z; hf_bit_depth_chroma_minus8 : Z;
  hf_qpprime : bool; hf_scaling_matrix_present : bool; hf_scaling : ScalingLists;
}.
Definition high_fields : reading HighFields :=
  chroma_format_idc ← ue_u8 3;
  separate ← when (chroma_format_idc =? 3) BitReader_flag false;
  luma ← ue_u8 6;
  chroma ← ue_u8 6;
  qpprime ← BitReader_flag;
  matrix ← BitReader_flag;
  scaling ← when matrix (scaling_lists ScalingLists_FLAT (if chroma_format_idc =? 3 then 12 else 8) true) ScalingLists_FLAT;
  mret (mkHighFields chroma_format_idc separate luma chroma qpprime matrix scaling).

(** The picture order count fields. *)
Record PocFields := mkPocFields {
  pf_log2_max_pic_order_cnt_lsb_minus4 : Z; pf_delta_pic_order_always_zero : bool; pf_offset_for_non_ref_pic : Z;
  pf_offset_for_top_to_bottom_field : Z; pf_num_ref_frames_in_pic_order_cnt_cycle : Z; pf_offset_for_ref_frame : list Z;
}.
Fixpoint poc_offsets (n : nat) (i : Z) (offsets : list Z) : reading (list Z) :=
  match n with
  | O => mret offsets
  | S n => match get_at offsets i with
           | None => refuse ParseOutOfRange
           | Some _ => v ← BitReader_se; poc_offsets n (i + 1) (put_at offsets i v)
           end
  end.
Definition poc_fields (pic_order_cnt_type : Z) : reading PocFields :=
  if pic_order_cnt_type =? 0 then lsb ← ue_u8 12; mret (mkPocFields lsb false 0 0 0 (repeat 0 255))
  else if pic_order_cnt_type =? 1 then
    always_zero ← BitReader_flag;
    non_ref ← BitReader_se;
    top_to_bottom ← BitReader_se;
    cycle ← ue_u8 255;
    offsets ← poc_offsets (Z.to_nat cycle) 0 (repeat 0 255);
    mret (mkPocFields 0 always_zero non_ref top_to_bottom cycle offsets)
  else mret (mkPocFields 0 false 0 0 0 (repeat 0 255)).

Definition sps_body : reading Sps :=
  profile_idc ← BitReader_u8 8;
  constraint_flags ← BitReader_u8 8;
  level_idc ← BitReader_u8 8;
  id ← ue_u8 31;
  high ← when (existsb (Z.eqb profile_idc) high_profiles) high_fields (mkHighFields 1 false 0 0 false false ScalingLists_FLAT);
  log2_max_frame_num_minus4 ← ue_u8 12;
  pic_order_cnt_type ← ue_u8 2;
  poc ← poc_fields pic_order_cnt_type;
  max_num_ref_frames ← ue_u8 16;
  gaps ← BitReader_flag;
  width ← ue_u16 1023;
  height ← ue_u16 1023;
  frame_mbs_only ← BitReader_flag;
  adaptive ← when (negb frame_mbs_only) BitReader_flag false;
  direct ← BitReader_flag;
  cropping ← BitReader_flag;
  crop ← when cropping (l ← BitReader_ue; r ← BitReader_ue; t ← BitReader_ue; b ← BitReader_ue; mret (Some (l, r, t, b))) None;
  vui_present ← BitReader_flag;
  vui ← when vui_present vui_parameters Vui_default;
  mret (mkSps profile_idc constraint_flags level_idc id (hf_chroma_format_idc high) (hf_separate_colour_plane high)
    (hf_bit_depth_luma_minus8 high) (hf_bit_depth_chroma_minus8 high) (hf_qpprime high) (hf_scaling_matrix_present high) (hf_scaling high)
    log2_max_frame_num_minus4 pic_order_cnt_type (pf_log2_max_pic_order_cnt_lsb_minus4 poc) (pf_delta_pic_order_always_zero poc)
    (pf_offset_for_non_ref_pic poc) (pf_offset_for_top_to_bottom_field poc) (pf_num_ref_frames_in_pic_order_cnt_cycle poc)
    (pf_offset_for_ref_frame poc) max_num_ref_frames gaps width height frame_mbs_only adaptive direct crop vui).
Definition sps_parse (payload : list Z) : ParseError + Sps := snd (sps_body (BitReader_new payload)).

(** ** The picture parameter set *)

Record Pps := mkPps {
  pp_id : Z; pp_sps_id : Z; pp_entropy_coding_mode : bool; pp_bottom_field_pic_order_in_frame_present : bool;
  pp_num_slice_groups_minus1 : Z; pp_num_ref_idx_l0_default_active_minus1 : Z; pp_num_ref_idx_l1_default_active_minus1 : Z;
  pp_weighted_pred : bool; pp_weighted_bipred_idc : Z;
  pp_pic_init_qp_minus26 : Z; pp_pic_init_qs_minus26 : Z; pp_chroma_qp_index_offset : Z;
  pp_deblocking_filter_control_present : bool; pp_constrained_intra_pred : bool; pp_redundant_pic_cnt_present : bool;
  pp_transform_8x8_mode : bool; pp_scaling_matrix_present : bool; pp_scaling : ScalingLists; pp_second_chroma_qp_index_offset : Z;
}.

(** [small_signed], whose bounds are those of an [i8] or narrower. *)
Definition small_signed (value min max : Z) : option Z :=
  if (value <? min) || (max <? value) then None else if (-128 <=? value) && (value <=? 127) then Some value else None.
Definition se_small (min max : Z) : reading Z := v ← BitReader_se; or_refuse (small_signed v min max) ParseOutOfRange.

(** Slice groups, parsed and then refused. *)
Definition slice_groups (num_slice_groups_minus1 : Z) : reading unit :=
  map_type ← BitReader_ue_max 6;
  if map_type =? 0 then repeat_reading (Z.to_nat (num_slice_groups_minus1 + 1)) (_ ← BitReader_ue; mret ())
  else if map_type =? 2 then repeat_reading (Z.to_nat num_slice_groups_minus1) (_ ← BitReader_ue; _ ← BitReader_ue; mret ())
  else if (3 <=? map_type) && (map_type <=? 5) then _ ← BitReader_flag; _ ← BitReader_ue; mret ()
  else if map_type =? 6 then
    count ← BitReader_ue;
    let bits := 32 - leading_zeros32 num_slice_groups_minus1 in
    repeat_reading (Z.to_nat (count + 1)) (BitReader_skip bits)
  else mret ().

(** What follows the flags, where anything does. *)
Definition pps_extension (sps : Sps) (chroma_qp_index_offset : Z) : reading (bool * bool * ScalingLists * Z) :=
  more ← BitReader_more_rbsp_data;
  when more
    (transform_8x8_mode ← BitReader_flag;
     matrix ← BitReader_flag;
     scaling ← when matrix
       (scaling_lists (sp_scaling sps) (6 + (if transform_8x8_mode : bool then if sp_chroma_format_idc sps =? 3 then 6 else 2 else 0))
          (negb (sp_scaling_matrix_present sps))) (sp_scaling sps);
     second ← se_small (-12) 12;
     mret (transform_8x8_mode, matrix, scaling, second))
    (false, false, sp_scaling sps, chroma_qp_index_offset).

Definition pps_body (sps_of : Z -> option Sps) : reading Pps :=
  id ← ue_u8 255;
  sps_id ← ue_u8 31;
  sps ← or_refuse (sps_of sps_id) NoParameterSet;
  entropy ← BitReader_flag;
  bottom ← BitReader_flag;
  groups ← ue_u8 7;
  _ ← when (0 <? groups) (_ ← slice_groups groups; refuse ParseUnsupported) ();
  l0 ← ue_u8 31;
  l1 ← ue_u8 31;
  weighted ← BitReader_flag;
  bipred ← BitReader_u8 2;
  qp ← se_small (-62) 25;
  qs ← se_small (-26) 25;
  chroma ← se_small (-12) 12;
  deblocking ← BitReader_flag;
  constrained ← BitReader_flag;
  redundant ← BitReader_flag;
  '(transform, matrix, scaling, second) ← pps_extension sps chroma;
  mret (mkPps id sps_id entropy bottom groups l0 l1 weighted bipred qp qs chroma deblocking constrained redundant transform matrix scaling second).
Definition pps_parse (payload : list Z) (sps_of : Z -> option Sps) : ParseError + Pps := snd (pps_body sps_of (BitReader_new payload)).

(** ** The slice header *)

Definition MAX_REFS : Z := 32.
Definition MAX_MODIFICATIONS : Z := MAX_REFS + 1.
Definition MAX_MMCO : Z := 32.

Inductive SliceType := SliceP | SliceB | SliceI | SliceSp | SliceSi.
#[global] Instance SliceType_eq_dec : EqDecision SliceType.
Proof. solve_decision. Defined.
Definition SliceType_from_code (code : Z) : SliceType :=
  let c := code mod 5 in if c =? 0 then SliceP else if c =? 1 then SliceB else if c =? 2 then SliceI else if c =? 3 then SliceSp else SliceSi.
Definition SliceType_code (t : SliceType) : Z := match t with SliceP => 0 | SliceB => 1 | SliceI => 2 | SliceSp => 3 | SliceSi => 4 end.
Definition SliceType_is_intra (t : SliceType) : bool := match t with SliceI | SliceSi => true | _ => false end.
Definition SliceType_is_b (t : SliceType) : bool := match t with SliceB => true | _ => false end.

Inductive Modification := Subtract (difference : Z) | Add (difference : Z) | LongTerm (number : Z).
Inductive Mmco :=
| UnmarkShort (difference : Z) | UnmarkLong (number : Z) | ToLong (difference index : Z) | MaxLongTerm (plus1 : Z) | UnmarkAll | CurrentLong (index : Z).

Record Weights := mkWeights {
  we_luma_weight : list Z; we_luma_offset : list Z; we_chroma_weight : list (list Z); we_chroma_offset : list (list Z);
  we_luma_flag : bool; we_chroma_flag : bool;
}.
#[export] Instance Weights_eta : Eta Weights := fun w =>
  mkWeights (we_luma_weight w) (we_luma_offset w) (we_chroma_weight w) (we_chroma_offset w) (we_luma_flag w) (we_chroma_flag w).
Definition Weights_defaults (luma_denom chroma_denom : Z) : Weights :=
  mkWeights (repeat (Z.shiftl 1 luma_denom) 32) (repeat 0 32) (repeat (repeat (Z.shiftl 1 chroma_denom) 2) 32) (repeat (repeat 0 2) 32) false false.

Record PredWeights := mkPredWeights { pw_luma_log2_denom : Z; pw_chroma_log2_denom : Z; pw_l0 : Weights; pw_l1 : Weights }.

Inductive Marking :=
| MarkingNone | MarkingIdr (no_output_of_prior_pics long_term : bool) | MarkingSliding | MarkingAdaptive (ops : list Mmco).

Record SliceHeader := mkSliceHeader {
  sh_nal_unit_type : Z; sh_nal_ref_idc : Z; sh_first_mb_in_slice : Z; sh_slice_type : SliceType; sh_pps_id : Z; sh_colour_plane_id : Z;
  sh_frame_num : Z; sh_field_pic : bool; sh_bottom_field : bool; sh_idr_pic_id : Z; sh_pic_order_cnt_lsb : Z;
  sh_delta_pic_order_cnt_bottom : Z; sh_delta_pic_order_cnt : Z * Z; sh_redundant_pic_cnt : Z; sh_direct_spatial_mv_pred : bool;
  sh_num_ref_idx_l0_active_minus1 : Z; sh_num_ref_idx_l1_active_minus1 : Z;
  sh_modifications_l0 : list Modification; sh_modifications_l1 : list Modification; sh_weights : option PredWeights; sh_marking : Marking;
  sh_cabac_init_idc : Z; sh_slice_qp_delta : Z; sh_sp_for_switch : bool; sh_slice_qs_delta : Z;
  sh_disable_deblocking_filter_idc : Z; sh_slice_alpha_c0_offset_div2 : Z; sh_slice_beta_offset_div2 : Z; sh_header_bits : Z;
}.
Definition SliceHeader_is_idr (h : SliceHeader) : bool := sh_nal_unit_type h =? 5.
Definition SliceHeader_is_reference (h : SliceHeader) : bool := negb (sh_nal_ref_idc h =? 0).
Definition SliceHeader_has_mmco5 (h : SliceHeader) : bool :=
  match sh_marking h with MarkingAdaptive ops => existsb (fun op => match op with UnmarkAll => true | _ => false end) ops | _ => false end.

(** The loops of [modifications] and [marking]: until the end marker, or the list is full. *)
Fixpoint modifications_loop (room : nat) (list_ : list Modification) : reading (list Modification) :=
  idc ← BitReader_ue_max 3;
  if 3 <=? idc then mret list_
  else
    v ← BitReader_ue;
    let op := if idc =? 0 then Subtract v else if idc =? 1 then Add v else LongTerm v in
    match room with O => refuse TooMany | S room => modifications_loop room (list_ ++ [op]) end.
Definition modifications : reading (list Modification) :=
  present ← BitReader_flag; when present (modifications_loop (Z.to_nat MAX_MODIFICATIONS) []) [].

Definition mmco_operation (code : Z) : reading Mmco :=
  if code =? 1 then v ← BitReader_ue; mret (UnmarkShort v)
  else if code =? 2 then v ← BitReader_ue; mret (UnmarkLong v)
  else if code =? 3 then difference ← BitReader_ue; index ← BitReader_ue; mret (ToLong difference index)
  else if code =? 4 then v ← BitReader_ue; mret (MaxLongTerm v)
  else if code =? 5 then mret UnmarkAll
  else v ← BitReader_ue; mret (CurrentLong v).
Fixpoint marking_loop (room : nat) (ops : list Mmco) : reading Marking :=
  code ← BitReader_ue_max 6;
  if code =? 0 then mret (MarkingAdaptive ops)
  else
    op ← mmco_operation code;
    match room with O => refuse TooMany | S room => marking_loop room (ops ++ [op]) end.
Definition marking (idr : bool) : reading Marking :=
  if idr then
    no_output ← BitReader_flag;
    long_term ← BitReader_flag;
    mret (MarkingIdr no_output long_term)
  else
    adaptive ← BitReader_flag;
    if negb adaptive then mret MarkingSliding else marking_loop (Z.to_nat MAX_MMCO) [].

(** A weight and its offset. *)
Definition weight_offset : reading (Z * Z) :=
  weight ← BitReader_se;
  offset ← BitReader_se;
  if negb ((-128 <=? weight) && (weight <=? 127)) || negb ((-128 <=? offset) && (offset <=? 127)) then refuse ParseOutOfRange
  else mret (weight, offset).

Definition put_pair (l : list (list Z)) (i j v : Z) : list (list Z) :=
  match get_at l i with Some row => put_at l i (put_at row j v) | None => l end.

Definition weights_turn (i : Z) (chroma : bool) (w : Weights) : reading Weights :=
  luma ← BitReader_flag;
  w ← when luma
    ('(weight, offset) ← weight_offset;
     mret (w <| we_luma_flag := true |> <| we_luma_weight := put_at (we_luma_weight w) i weight |> <| we_luma_offset := put_at (we_luma_offset w) i offset |>)) w;
  present ← when chroma BitReader_flag false;
  when present
    ('(weight0, offset0) ← weight_offset;
     '(weight1, offset1) ← weight_offset;
     mret (w <| we_chroma_flag := true |>
             <| we_chroma_weight := put_pair (put_pair (we_chroma_weight w) i 0 weight0) i 1 weight1 |>
             <| we_chroma_offset := put_pair (put_pair (we_chroma_offset w) i 0 offset0) i 1 offset1 |>)) w.
Fixpoint weights_loop (n : nat) (i : Z) (chroma : bool) (w : Weights) : reading Weights :=
  match n with
  | O => mret w
  | S n => w ← weights_turn i chroma w; weights_loop n (i + 1) chroma w
  end.
Definition weights (count : Z) (chroma : bool) (luma_denom chroma_denom : Z) : reading Weights :=
  weights_loop (Z.to_nat (Z.min count MAX_REFS)) 0 chroma (Weights_defaults luma_denom chroma_denom).

Definition pred_weights (sps : Sps) (slice_type : SliceType) (l0_active l1_active : Z) : reading (option PredWeights) :=
  let chroma := negb (sp_chroma_format_idc sps =? 0) && negb (sp_separate_colour_plane sps) in
  luma_denom ← ue_u8 7;
  chroma_denom ← when chroma (ue_u8 7) 0;
  l0 ← weights (l0_active + 1) chroma luma_denom chroma_denom;
  l1 ← when (SliceType_is_b slice_type) (weights (l1_active + 1) chroma luma_denom chroma_denom) (Weights_defaults luma_denom chroma_denom);
  mret (Some (mkPredWeights luma_denom chroma_denom l0 l1)).

(** From the picture order count to the direct prediction flag. *)
Definition slice_poc (sps : Sps) (pps : Pps) (field_pic : bool) : reading (Z * Z * (Z * Z)) :=
  '(lsb, bottom) ← when (sp_pic_order_cnt_type sps =? 0)
    (lsb ← BitReader_bits (sp_log2_max_pic_order_cnt_lsb_minus4 sps + 4);
     bottom ← when (pp_bottom_field_pic_order_in_frame_present pps && negb field_pic) BitReader_se 0;
     mret (lsb, bottom)) (0, 0);
  delta ← when ((sp_pic_order_cnt_type sps =? 1) && negb (sp_delta_pic_order_always_zero sps))
    (d0 ← BitReader_se;
     d1 ← when (pp_bottom_field_pic_order_in_frame_present pps && negb field_pic) BitReader_se 0;
     mret (d0, d1)) (0, 0);
  mret (lsb, bottom, delta).

Definition active_counts (pps : Pps) (slice_type : SliceType) (field_pic : bool) : reading (Z * Z) :=
  let defaults := (pp_num_ref_idx_l0_default_active_minus1 pps, pp_num_ref_idx_l1_default_active_minus1 pps) in
  override ← when (negb (SliceType_is_intra slice_type)) BitReader_flag false;
  when override
    (let max := if field_pic then 31 else 15 in
     l0 ← ue_u8 max;
     l1 ← when (SliceType_is_b slice_type) (ue_u8 max) (snd defaults);
     mret (l0, l1)) defaults.

Definition deblocking (pps : Pps) : reading (Z * Z * Z) :=
  when (pp_deblocking_filter_control_present pps)
    (idc ← ue_u8 2;
     '(alpha, beta) ← when (negb (idc =? 1)) (alpha ← se_small (-6) 6; beta ← se_small (-6) 6; mret (alpha, beta)) (0, 0);
     mret (idc, alpha, beta)) (0, 0, 0).

Definition header_position : reading Z := fun r => (r, inr (BitReader_position r)).

Definition slice_body (nal_unit_type nal_ref_idc : Z) (pps_of : Z -> option Pps) (sps_of : Z -> option Sps) : reading SliceHeader :=
  let idr := nal_unit_type =? 5 in
  first_mb ← BitReader_ue;
  code ← BitReader_ue_max 9;
  let slice_type := SliceType_from_code code in
  pps_id ← ue_u8 255;
  pps ← or_refuse (pps_of pps_id) NoParameterSet;
  sps ← or_refuse (sps_of (pp_sps_id pps)) NoParameterSet;
  if idr && negb (SliceType_is_intra slice_type) then refuse ParseOutOfRange
  else
  colour_plane_id ← when (sp_separate_colour_plane sps) (BitReader_u8 2) 0;
  frame_num ← BitReader_bits (sp_log2_max_frame_num_minus4 sps + 4);
  field_pic ← when (negb (sp_frame_mbs_only sps)) BitReader_flag false;
  bottom_field ← when field_pic BitReader_flag false;
  idr_pic_id ← when idr (BitReader_ue_max 65535) 0;
  '(lsb, bottom, delta) ← slice_poc sps pps field_pic;
  redundant ← when (pp_redundant_pic_cnt_present pps) (BitReader_ue_max 127) 0;
  direct ← when (SliceType_is_b slice_type) BitReader_flag false;
  '(l0, l1) ← active_counts pps slice_type field_pic;
  m0 ← when (negb (SliceType_is_intra slice_type)) modifications [];
  m1 ← when (negb (SliceType_is_intra slice_type) && SliceType_is_b slice_type) modifications [];
  weights ← when ((pp_weighted_pred pps && (bool_decide (slice_type = SliceP) || bool_decide (slice_type = SliceSp)))
                  || ((pp_weighted_bipred_idc pps =? 1) && SliceType_is_b slice_type)) (pred_weights sps slice_type l0 l1) None;
  marks ← when (negb (nal_ref_idc =? 0)) (marking idr) MarkingNone;
  cabac ← when (pp_entropy_coding_mode pps && negb (SliceType_is_intra slice_type)) (ue_u8 2) 0;
  qp_delta ← se_small (-87) 87;
  for_switch ← when (bool_decide (slice_type = SliceSp)) BitReader_flag false;
  qs_delta ← when (bool_decide (slice_type = SliceSp) || bool_decide (slice_type = SliceSi)) (se_small (-51) 51) 0;
  '(idc, alpha, beta) ← deblocking pps;
  bits ← header_position;
  mret (mkSliceHeader nal_unit_type nal_ref_idc first_mb slice_type pps_id colour_plane_id frame_num field_pic bottom_field idr_pic_id lsb bottom delta
    redundant direct l0 l1 m0 m1 weights marks cabac qp_delta for_switch qs_delta idc alpha beta bits).

Definition slice_parse (unit_ : list Z) (pps_of : Z -> option Pps) (sps_of : Z -> option Sps) : ParseError + SliceHeader :=
  match unit_ with
  | [] => inl ParseTruncated
  | first :: payload =>
      let nal_unit_type := Z.land first 0x1F in
      let nal_ref_idc := Z.land (Z.shiftr first 5) 0x03 in
      if (nal_unit_type =? 20) || (nal_unit_type =? 21) then inl ParseUnsupported
      else snd (slice_body nal_unit_type nal_ref_idc pps_of sps_of (BitReader_new payload))
  end.
