(* ===== verification/H264Spec.v ===== *)
(** The H.264 headers an encoder writes, as a decoder reads them: parameter sets
    ([parameter_sets_read]) and slice headers ([slice_header_read]), and the length
    reported for a slice header ([slice_length_exact], [slice_length_short]). *)

From S2P Require Import Prelude BitWriter BitReader H264Write H264Read.

(** ** Reading from a known position *)

Definition gets_from {A} (pre : list bool) (m : reading A) (l : list bool) (a : A) : Prop :=
  forall data r l', reader_ok data r pre -> rest r = l ++ l' ->
  exists r', m r = (r', inr a) /\ reader_ok data r' (pre ++ l) /\ rest r' = l'.

Lemma gets_at {A} pre (m : reading A) l a : gets m l a -> gets_from pre m l a.
Proof. intros H data r l'. apply H. Qed.

Lemma from_bind {A B} pre (m : reading A) (k : A -> reading B) l l2 a b :
  gets_from pre m l a -> gets_from (pre ++ l) (k a) l2 b -> gets_from pre (m ≫= k) (l ++ l2) b.
Proof.
  intros Hm Hk data r l' Hok Hr. rewrite <- app_assoc in Hr. destruct (Hm data r _ Hok Hr) as (r1 & E & Hok1 & Hr1).
  destruct (Hk data r1 l' Hok1 Hr1) as (r2 & E2 & Hok2 & Hr2). exists r2. rewrite app_assoc. split; [|done]. unfold mbind, reading_bind. by rewrite E.
Qed.

Lemma from_nil {A B} pre (m : reading A) (k : A -> reading B) l2 a b : gets m [] a -> gets_from pre (k a) l2 b -> gets_from pre (m ≫= k) l2 b.
Proof. intros Hm Hk. change l2 with ([] ++ l2). eapply from_bind; [by apply gets_at|]. by rewrite app_nil_r. Qed.

Lemma from_bind_last {A B} pre (m : reading A) (k : A -> reading B) l a b :
  gets_from pre m l a -> gets_from (pre ++ l) (k a) [] b -> gets_from pre (m ≫= k) l b.
Proof. intros Hm Hk. rewrite <- (app_nil_r l). by eapply from_bind. Qed.

Lemma from_ret {A} pre (a : A) : gets_from pre (mret a) [] a.
Proof. apply gets_at, gets_ret. Qed.

Lemma from_position pre : gets_from pre header_position [] (zlen pre).
Proof.
  intros data r l' Hok Hr. exists r. rewrite app_nil_r. split; [|done]. unfold header_position, BitReader_position. by rewrite (ro_consumed _ _ _ Hok).
Qed.

Lemma gets_nil {A B} (m : reading A) (k : A -> reading B) l a b : gets m [] a -> gets (k a) l b -> gets (m ≫= k) l b.
Proof. intros Hm Hk. change l with ([] ++ l). by eapply gets_bind. Qed.

Lemma try_from_small w v : 0 <= v < 2 ^ w -> try_from w v = Some v.
Proof. intros H. by apply try_from_ok. Qed.

Lemma gets_ue_u8 v max : 0 <= v <= max -> max < 256 -> gets (ue_u8 max) (golomb v) v.
Proof. intros H Hm. eapply gets_bind_ret; [apply gets_ue_max; lia|]. apply gets_or_refuse, try_from_small. lia. Qed.

Lemma gets_ue_u16 v max : 0 <= v <= max -> max < 65536 -> gets (ue_u16 max) (golomb v) v.
Proof. intros H Hm. eapply gets_bind_ret; [apply gets_ue_max; lia|]. apply gets_or_refuse, try_from_small. lia. Qed.

Lemma gets_se_small v lo hi : lo <= v <= hi -> -128 <= lo -> hi <= 127 -> gets (se_small lo hi) (golomb (fold_sign v)) v.
Proof.
  intros H Hl Hh. eapply gets_bind_ret; [apply gets_se; lia|]. apply gets_or_refuse. unfold small_signed.
  destruct (Z.ltb_spec v lo), (Z.ltb_spec hi v); try lia. cbn. destruct (Z.leb_spec (-128) v), (Z.leb_spec v 127); try lia. done.
Qed.

(** Parsing a payload whose bits are known. *)
Lemma parse_payload {A} (m : reading A) payload l l' a :
  bytes_ok payload -> zlen payload < 2 ^ 32 -> bits_of payload = l ++ l' -> gets_from [] m l a ->
  forall escaped_payload, unescape 0 escaped_payload = payload -> bytes_ok escaped_payload -> zlen escaped_payload < 2 ^ 32 -> snd (m (BitReader_new escaped_payload)) = inr a.
Proof.
  intros Hb Hs Hl Hm e He Hbe Hse. pose proof (reader_new e Hbe Hse) as Hok.
  destruct (Hm e (BitReader_new e) l' Hok) as (r' & E & _); [|by rewrite E].
  change (rest (BitReader_new e)) with (bits_of (unescape 0 e)). by rewrite He.
Qed.

Lemma escaped_bytes z payload : bytes_ok payload -> bytes_ok (escaped z payload).
Proof.
  intros H. revert z. induction H as [|b payload Hb _ IH]; intros z; cbn [escaped]; [constructor|].
  destruct (_ && _); repeat constructor; try done; try apply Hb; apply IH.
Qed.

Lemma escaped_length z payload : zlen payload <= zlen (escaped z payload) <= 2 * zlen payload.
Proof.
  revert z. induction payload as [|b payload IH]; intros z; cbn [escaped]; [done|]. rewrite (zlen_cons b payload).
  destruct (_ && _); rewrite !zlen_cons; [specialize (IH (if b =? 0 then 1 else 0))|specialize (IH (if b =? 0 then z + 1 else 0))]; lia.
Qed.

(** ** The parameter sets *)

(** What a device is asked for: a picture within 1024 macroblocks each way, a level that
    is a byte, counters of at most sixteen bits and at most sixteen references. *)
Record params_ok (p : Params) : Prop := mkParamsOk {
  po_width : 1 <= hp_width p <= 16384;
  po_height : 1 <= hp_height p <= 16384;
  po_fps : 0 <= hp_fps p < 2 ^ 32;
  po_level : 0 <= hp_level_idc p < 256;
  po_frame_num : 0 <= hp_log2_max_frame_num_minus4 p <= 12;
  po_poc : 0 <= hp_log2_max_poc_lsb_minus4 p <= 12;
  po_refs : 0 <= hp_max_num_ref_frames p <= 16;
}.

Definition cropped (p : Params) : bool := (0 <? fst (Params_crop p)) || (0 <? snd (Params_crop p)).

(** The set a decoder has read it as. *)
Definition read_sps (p : Params) : Sps :=
  mkSps 100 0 (hp_level_idc p) 0 1 false 0 0 false false ScalingLists_FLAT
    (hp_log2_max_frame_num_minus4 p) 0 (hp_log2_max_poc_lsb_minus4 p) false 0 0 0 (repeat 0 255)
    (hp_max_num_ref_frames p) false (Params_width_in_mbs p - 1) (Params_height_in_mbs p - 1) true false true
    (if cropped p then Some (0, fst (Params_crop p), 0, snd (Params_crop p)) else None)
    (mkVui (Some 0) (Some (hp_max_num_ref_frames p)) false).

Definition high_bits : list bool := golomb 1 ++ golomb 0 ++ golomb 0 ++ [false] ++ [false].
Definition crop_bits (p : Params) : list bool :=
  if cropped p then golomb 0 ++ golomb (fst (Params_crop p)) ++ golomb 0 ++ golomb (snd (Params_crop p)) else [].
Definition vui_bits (p : Params) : list bool :=
  [false] ++ [false] ++ [true] ++ (bits_be 3 5 ++ [false] ++ [true] ++ (bits_be 8 1 ++ bits_be 8 1 ++ bits_be 8 1)) ++ [false] ++
  [true] ++ (bits_be 32 1 ++ bits_be 32 (sat_mul32 (hp_fps p) 2) ++ [true]) ++ [false] ++ [false] ++ [false] ++
  [true] ++ ([true] ++ golomb 2 ++ golomb 1 ++ golomb 16 ++ golomb 16 ++ golomb 0 ++ golomb (hp_max_num_ref_frames p)).
Definition sps_bits (p : Params) : list bool :=
  bits_be 8 100 ++ bits_be 8 0 ++ bits_be 8 (hp_level_idc p) ++ golomb 0 ++ high_bits ++
  golomb (hp_log2_max_frame_num_minus4 p) ++ golomb 0 ++ golomb (hp_log2_max_poc_lsb_minus4 p) ++ golomb (hp_max_num_ref_frames p) ++ [false] ++
  golomb (Params_width_in_mbs p - 1) ++ golomb (Params_height_in_mbs p - 1) ++ [true] ++ [true] ++ [cropped p] ++ crop_bits p ++ [true] ++ vui_bits p.

Lemma mbs_bounds v : 1 <= v <= 16384 -> let m := (v + 15) / 16 in 1 <= m <= 1024 /\ v <= 16 * m < v + 16.
Proof. intros H m. unfold m. Z.div_mod_to_equations. lia. Qed.

Lemma crop_small v : 1 <= v <= 16384 -> let m := (v + 15) / 16 in wsub 32 (wrap 32 (m * 16)) v / 2 = (16 * m - v) / 2 /\ 0 <= (16 * m - v) / 2 < 8.
Proof.
  intros H m. destruct (mbs_bounds v H) as [H1 H2]. fold m in H1, H2. rewrite (wrap_small 32 (m * 16)) by (unfold fits; lia).
  unfold wsub. rewrite wrap_small by (unfold fits; lia). split; [f_equal; lia|]. split; [apply Z.div_pos; lia|apply Z.div_lt_upper_bound; lia].
Qed.

Lemma crop_bounds p : params_ok p -> 0 <= fst (Params_crop p) < 8 /\ 0 <= snd (Params_crop p) < 8.
Proof.
  intros [Hw Hh _ _ _ _ _]. unfold Params_crop, Params_width_in_mbs, Params_height_in_mbs. cbn [fst snd].
  destruct (crop_small _ Hw) as [-> ?], (crop_small _ Hh) as [-> ?]. done.
Qed.

Ltac saying := first [refine (says_bit _) | refine (says_bits _ _ _); lia | refine (says_ue _ _); lia | refine (says_se _ _); lia].
Ltac say_all :=
  match goal with |- says (run_stmts ?fs) ?l => let fs' := eval cbn [app] in fs in change (says (run_stmts fs') l) end;
  repeat (eapply says_step; [saying|]); apply says_last; saying.

Lemma sps_says p : params_ok p -> says (run_stmts (sps_stmts p)) (sps_bits p).
Proof.
  intros Hp. pose proof (crop_bounds p Hp) as [Hr Hb]. destruct Hp as [Hw Hh Hf Hl Hn Ho Hm].
  destruct (mbs_bounds _ Hw) as [Hw1 _], (mbs_bounds _ Hh) as [Hh1 _]. fold (Params_width_in_mbs p) in Hw1. fold (Params_height_in_mbs p) in Hh1.
  assert (wsub 32 (Params_width_in_mbs p) 1 = Params_width_in_mbs p - 1) as Ew by (apply wrap_small; unfold fits; lia).
  assert (wsub 32 (Params_height_in_mbs p) 1 = Params_height_in_mbs p - 1) as Eh by (apply wrap_small; unfold fits; lia).
  unfold sps_stmts, sps_bits, high_bits, crop_bits, vui_bits. rewrite Ew, Eh. destruct (Params_crop p) as [right_ bottom] eqn:Ec. cbn [fst snd] in Hr, Hb.
  assert (cropped p = (0 <? right_) || (0 <? bottom)) as -> by (unfold cropped; by rewrite Ec). cbn [fst snd].
  destruct ((0 <? right_) || (0 <? bottom)); rewrite <- ?app_assoc; [|change ([] ++ ?l) with l]; say_all.
Qed.

Lemma sps_bits_short p : params_ok p -> zlen (sps_bits p) <= 1000.
Proof.
  intros Hp. pose proof (crop_bounds p Hp) as [Hr Hb]. destruct Hp as [Hw Hh Hf Hl Hn Ho Hm].
  destruct (mbs_bounds _ Hw) as [Hw1 _], (mbs_bounds _ Hh) as [Hh1 _]. fold (Params_width_in_mbs p) in Hw1. fold (Params_height_in_mbs p) in Hh1.
  assert (zlen (crop_bits p) <= 140) as Hc.
  { unfold crop_bits. destruct (cropped p); [|done]. rewrite !zlen_app. pose proof (golomb_short (fst (Params_crop p)) ltac:(lia)). pose proof (golomb_short (snd (Params_crop p)) ltac:(lia)).
    change (zlen (golomb 0)) with 1. lia. }
  unfold sps_bits, vui_bits. rewrite !zlen_app, !zlen_bits_be. change (zlen high_bits) with 7. change (zlen [_]) with 1.
  pose proof (golomb_short (hp_log2_max_frame_num_minus4 p) ltac:(lia)). pose proof (golomb_short (hp_log2_max_poc_lsb_minus4 p) ltac:(lia)).
  pose proof (golomb_short (hp_max_num_ref_frames p) ltac:(lia)). pose proof (golomb_short (Params_width_in_mbs p - 1) ltac:(lia)).
  pose proof (golomb_short (Params_height_in_mbs p - 1) ltac:(lia)). change (zlen (golomb 0)) with 1. change (zlen (golomb 1)) with 3.
  change (zlen (golomb 2)) with 3. change (zlen (golomb 16)) with 9. lia.
Qed.

(** One step of reading: a field from the front of the bits, or one that is not there. *)
Ltac field :=
  first [apply gets_bit | apply gets_u8; lia | apply gets_ue_u8; lia | apply gets_ue_u16; lia | apply gets_ue; lia | apply gets_ue_max; lia
        | apply gets_skip; reflexivity | apply gets_ret].
Ltac get_field := eapply gets_bind; [field|]; cbv beta iota.
Ltac absent := eapply gets_nil; [apply gets_ret|]; cbv beta iota.

Lemma high_gets : gets high_fields high_bits (mkHighFields 1 false 0 0 false false ScalingLists_FLAT).
Proof.
  unfold high_fields, high_bits. get_field. absent. do 3 get_field. eapply gets_bind_ret; [field|]. absent. apply gets_ret.
Qed.

Lemma crop_gets p :
  params_ok p ->
  gets (when (cropped p) (l ← BitReader_ue; r ← BitReader_ue; t ← BitReader_ue; b ← BitReader_ue; mret (Some (l, r, t, b))) None) (crop_bits p)
    (if cropped p then Some (0, fst (Params_crop p), 0, snd (Params_crop p)) else None).
Proof.
  intros Hp. destruct (crop_bounds p Hp) as [Hr Hb]. unfold crop_bits, when. destruct (cropped p); [|apply gets_ret].
  do 3 get_field. eapply gets_bind_ret; [field|apply gets_ret].
Qed.

Lemma vui_gets p : params_ok p -> gets vui_parameters (vui_bits p) (mkVui (Some 0) (Some (hp_max_num_ref_frames p)) false).
Proof.
  intros Hp. destruct Hp as [_ _ _ _ _ _ Hm]. unfold vui_parameters, vui_bits, when.
  get_field. absent. get_field. absent. get_field.
  eapply gets_bind.
  { do 3 get_field. eapply gets_bind_ret; [get_field; get_field; field|apply gets_ret]. }
  cbv beta iota. get_field. absent. get_field. eapply gets_bind.
  { get_field. get_field. eapply gets_bind_ret; [field|apply gets_ret]. }
  cbv beta iota. get_field. absent. get_field. absent. absent. get_field. get_field.
  do 6 get_field. eapply gets_bind_ret; [field|apply gets_ret].
Qed.

Lemma sps_gets p : params_ok p -> gets sps_body (sps_bits p) (read_sps p).
Proof.
  intros Hp. pose proof (crop_gets p Hp) as Hcrop. pose proof (vui_gets p Hp) as Hvui. destruct Hp as [Hw Hh Hf Hl Hn Ho Hm].
  destruct (mbs_bounds _ Hw) as [Hw1 _], (mbs_bounds _ Hh) as [Hh1 _]. fold (Params_width_in_mbs p) in Hw1. fold (Params_height_in_mbs p) in Hh1.
  unfold sps_body, sps_bits. do 4 get_field. eapply gets_bind; [exact high_gets|]. cbv beta iota.
  get_field. get_field. eapply gets_bind; [eapply gets_bind_ret; [field|apply gets_ret]|]. cbv beta iota.
  do 4 get_field. get_field. absent. get_field. get_field. eapply gets_bind; [exact Hcrop|]. cbv beta iota. get_field.
  eapply gets_bind_ret; [exact Hvui|]. apply gets_ret.
Qed.

(** A unit written whole, start code and all, or refused for want of room. *)
Definition writes_unit (f : list Z -> list Z * option Z) (bytes : list Z) : Prop :=
  forall out, (zlen bytes <= zlen out -> f out = (bytes ++ drop (length bytes) out, Some (zlen bytes))) /\
    (zlen out < zlen bytes -> snd (f out) = None).

Lemma emit_writes header payload : writes_unit (emit header payload) (unit_bytes header payload).
Proof. intros out. split; [apply emit_eq|apply emit_short]. Qed.

(** The payload of a parameter set: its bits, the stop bit, and zeros to the byte. *)
Lemma set_payload cap fs l :
  says (run_stmts fs) l -> zlen l < 8 * cap < 2 ^ 32 ->
  exists w payload k, BitWriter_trailing_bits (run_stmts fs (BitWriter_new (repeat 0 (Z.to_nat cap)))) = (w, true) /\ BitWriter_finish w = payload /\
    bytes_ok payload /\ bits_of payload = l ++ true :: repeat false k /\ zlen payload <= cap.
Proof.
  intros Hs Hl. pose proof (zlen_nonneg l). assert (zlen (repeat 0 (Z.to_nat cap)) = cap) as Ec by (unfold zlen; rewrite repeat_length; lia).
  pose proof (wrote_new (repeat 0 (Z.to_nat cap)) ltac:(rewrite Ec; lia)) as Hw. rewrite Ec in Hw.
  pose proof (Hs cap _ [] Hw ltac:(change (zlen (@nil bool)) with 0; lia)) as Hw1. cbn [app] in Hw1.
  destruct (wrote_trailing cap _ l Hw1 ltac:(lia)) as (w2 & k & -> & Hk & Hw2 & Hm). destruct (wrote_finish cap w2 _ Hw2) as (k2 & Hk2 & Hb & Hbits & Hlen).
  exists w2, (BitWriter_finish w2), k. split; [done|]. split; [done|]. split; [done|].
  assert (zlen (l ++ true :: repeat false k) = zlen l + 1 + Z.of_nat k) as El by (rewrite zlen_app, zlen_cons; unfold zlen; rewrite repeat_length; lia). rewrite El in Hlen.
  assert (k2 = 0)%nat as -> by (Z.div_mod_to_equations; lia). rewrite app_nil_r in Hbits. split; [done|]. destruct Hw2 as [_ _ _ [Hf _] _]. lia.
Qed.

Lemma sps_payload p :
  params_ok p -> exists payload k, (forall out, sequence_parameter_set p out = emit 0x67 payload out) /\
    bytes_ok payload /\ bits_of payload = sps_bits p ++ true :: repeat false k /\ zlen payload <= 128.
Proof.
  intros Hp. pose proof (sps_bits_short p Hp). destruct (set_payload 128 _ _ (sps_says p Hp) ltac:(lia)) as (w & payload & k & E & Ef & Hb & Hbits & Hl).
  exists payload, k. split; [|done]. intros out. unfold sequence_parameter_set. change (Z.to_nat 128) with 128%nat in E. cbv zeta. rewrite E. by rewrite Ef.
Qed.

Definition pps_payload : list Z :=
  Eval vm_compute in BitWriter_finish (fst (BitWriter_trailing_bits (run_stmts pps_stmts (BitWriter_new (repeat 0 64))))).

Lemma pps_emits out : picture_parameter_set out = emit 0x68 pps_payload out.
Proof.
  unfold picture_parameter_set. cbv zeta. destruct (BitWriter_trailing_bits _) as [w fits] eqn:E.
  assert (fits = true /\ BitWriter_finish w = pps_payload) as [-> ->]; [|done].
  split; [change fits with (snd (w, fits))|change w with (fst (w, fits))]; rewrite <- E; vm_compute; reflexivity.
Qed.

(** The picture set a decoder has read. *)
Definition read_pps : Pps := mkPps 0 0 true false 0 0 0 false 0 0 0 0 true false false true false ScalingLists_FLAT 0.

Lemma unit_no_start header payload : header <> 0 -> no_start 0 (header :: escaped 0 payload).
Proof. intros H. split; [lia|]. destruct (Z.eqb_spec header 0); [done|]. apply escaped_no_start. lia. Qed.

Lemma visible_side m v : 1 <= v -> v <= 16 * m < v + 16 -> 0 <= (16 * m - v) / 2 -> Z.max (sat_sub (m * 16) (sat_mul32 (wadd 32 0 ((16 * m - v) / 2)) 2)) 1 = v + v mod 2.
Proof.
  intros Hv Hm H0. assert ((16 * m - v) / 2 < 8) by (apply Z.div_lt_upper_bound; lia).
  unfold wadd. rewrite wrap_small by (unfold fits; lia). unfold sat_mul32, sat_sub. Z.div_mod_to_equations. lia.
Qed.

(** C26: The parameter sets say what they were asked to, to the decoder of the same repository.
    For a picture within 1024 macroblocks each way, each set is written whole behind its
    start code or refused for want of room; the two units are found in the bytes as they
    were written, and parse, whatever emulation prevention put in; and what was parsed is a
    4:2:0 eight-bit video-range stream of the size asked for, rounded up to even, with the
    counters' widths asked for, that reorders nothing and holds its references. *)
Theorem parameter_sets_read p :
  params_ok p ->
  exists sps_unit pps_unit,
    writes_unit (sequence_parameter_set p) (START_CODE ++ sps_unit) /\ writes_unit picture_parameter_set (START_CODE ++ pps_unit) /\
    Units_all ((START_CODE ++ sps_unit) ++ START_CODE ++ pps_unit) = [mkUnit sps_unit 4; mkUnit pps_unit (8 + zlen sps_unit)] /\
    head sps_unit = Some 0x67 /\ head pps_unit = Some 0x68 /\
    sps_parse (tail sps_unit) = inr (read_sps p) /\
    pps_parse (tail pps_unit) (fun id => if id =? 0 then Some (read_sps p) else None) = inr read_pps /\
    Sps_visible (read_sps p) = (hp_width p + hp_width p mod 2, hp_height p + hp_height p mod 2) /\
    Sps_max_frame_num (read_sps p) = 2 ^ (hp_log2_max_frame_num_minus4 p + 4) /\
    Sps_max_pic_order_cnt_lsb (read_sps p) = 2 ^ (hp_log2_max_poc_lsb_minus4 p + 4) /\
    Sps_reorder_frames (read_sps p) = Some 0 /\ Sps_dpb_frames (read_sps p) = Z.max (hp_max_num_ref_frames p) 1.
Proof.
  intros Hp. destruct (sps_payload p Hp) as (payload & k & Hout & Hb & Hbits & Hl).
  exists (0x67 :: escaped 0 payload), (0x68 :: escaped 0 pps_payload).
  split; [intros out; rewrite Hout; apply emit_writes|]. split; [intros out; rewrite pps_emits; apply emit_writes|].
  split.
  { change ((START_CODE ++ 0x67 :: escaped 0 payload) ++ START_CODE ++ 0x68 :: escaped 0 pps_payload) with (framed [0x67 :: escaped 0 payload; 0x68 :: escaped 0 pps_payload]).
    rewrite Units_framed; [cbn [located]; rewrite Z.add_0_l; by replace (4 + zlen (0x67 :: escaped 0 payload) + 4) with (8 + zlen (0x67 :: escaped 0 payload)) by lia|]. repeat constructor; try done; try lia; try (by apply unit_no_start). }
  split; [done|]. split; [done|]. pose proof (escaped_length 0 payload). split.
  { eapply (parse_payload sps_body payload); [done|lia|exact Hbits|apply gets_at; by apply sps_gets|apply unescape_escaped|by apply escaped_bytes|cbn [tail]; lia]. }
  split; [vm_compute; reflexivity|]. pose proof (crop_bounds p Hp) as Hcb. destruct Hp as [Hw Hh _ _ Hn Ho Hm].
  split; [|split; [|split; [|split; [done|]]]].
  - destruct (mbs_bounds _ Hw) as [Hw1 Hw2], (mbs_bounds _ Hh) as [Hh1 Hh2]. destruct (crop_small _ Hw) as [Ew Hw3], (crop_small _ Hh) as [Eh Hh3].
    unfold Sps_visible, Sps_coded_width, Sps_coded_height, cropped, read_sps, Params_crop, Params_width_in_mbs, Params_height_in_mbs in *. cbn [sp_crop sp_pic_width_in_mbs_minus1 sp_pic_height_in_map_units_minus1 sp_frame_mbs_only sp_chroma_format_idc fst snd] in *.
    rewrite Ew, Eh in *. cbn match. replace ((hp_width p + 15) / 16 - 1 + 1) with ((hp_width p + 15) / 16) by lia. replace ((hp_height p + 15) / 16 - 1 + 1) with ((hp_height p + 15) / 16) by lia.
    set (mw := (hp_width p + 15) / 16) in *. set (mh := (hp_height p + 15) / 16) in *. unfold cropped, Params_crop, Params_width_in_mbs, Params_height_in_mbs. cbn [fst snd]. fold mw mh. rewrite Ew, Eh.
    destruct ((0 <? (16 * mw - hp_width p) / 2) || (0 <? (16 * mh - hp_height p) / 2)) eqn:Ec.
    + rewrite Z.mul_1_r. change (2 * 1) with 2. cbn [Z.eqb orb]. rewrite !visible_side by lia. done.
    + apply orb_false_iff in Ec as [E1%Z.ltb_ge E2%Z.ltb_ge]. f_equal; Z.div_mod_to_equations; lia.
  - unfold Sps_max_frame_num. cbn [read_sps sp_log2_max_frame_num_minus4]. rewrite Z.shiftl_mul_pow2 by lia. lia.
  - unfold Sps_max_pic_order_cnt_lsb. cbn [read_sps sp_log2_max_pic_order_cnt_lsb_minus4]. rewrite Z.shiftl_mul_pow2 by lia. lia.
  - unfold Sps_dpb_frames, clamp. cbn [read_sps sp_vui vu_max_dec_frame_buffering sp_max_num_ref_frames]. lia.
Qed.

(** 1920 by 1080: 68 rows of macroblocks, eight lines cropped. *)
Lemma parameter_sets_read_witness :
  exists sps_unit pps_unit,
    writes_unit (sequence_parameter_set (mkParams 1920 1080 60 42 4 4 1)) (START_CODE ++ sps_unit) /\
    sps_parse (tail sps_unit) = inr (read_sps (mkParams 1920 1080 60 42 4 4 1)) /\
    Sps_visible (read_sps (mkParams 1920 1080 60 42 4 4 1)) = (1920, 1080) /\
    Units_all ((START_CODE ++ sps_unit) ++ START_CODE ++ pps_unit) = [mkUnit sps_unit 4; mkUnit pps_unit (8 + zlen sps_unit)].
Proof.
  destruct (parameter_sets_read (mkParams 1920 1080 60 42 4 4 1)) as (s & q & Hs & _ & Hu & _ & _ & Hp & _ & Hv & _).
  - constructor; cbn; lia.
  - exists s, q. split; [exact Hs|]. split; [exact Hp|]. split; [exact Hv|exact Hu].
Defined.

(** ** The slice header *)

Definition is_refresh (picture : Picture) : bool := match picture with Refresh _ => true | Predicted _ _ => false end.
Definition frame_num_of (picture : Picture) : Z := match picture with Refresh _ => 0 | Predicted frame_num _ => frame_num end.
Definition poc_lsb_of (picture : Picture) : Z := match picture with Refresh _ => 0 | Predicted _ poc_lsb => poc_lsb end.
Definition idr_pic_id_of (picture : Picture) : Z := match picture with Refresh idr_pic_id => idr_pic_id | Predicted _ _ => 0 end.

(** Counters within their declared widths, and an identifier the standard allows. *)
Definition picture_ok (p : Params) (picture : Picture) : Prop :=
  0 <= frame_num_of picture < 2 ^ (hp_log2_max_frame_num_minus4 p + 4) /\
  0 <= poc_lsb_of picture < 2 ^ (hp_log2_max_poc_lsb_minus4 p + 4) /\ 0 <= idr_pic_id_of picture <= 65535.

Definition slice_bits (p : Params) (picture : Picture) : list bool :=
  golomb 0 ++ golomb (if is_refresh picture then 7 else 5) ++ golomb 0 ++
  bits_be (Z.to_nat (hp_log2_max_frame_num_minus4 p + 4)) (frame_num_of picture) ++
  (if is_refresh picture then golomb (idr_pic_id_of picture) else []) ++
  bits_be (Z.to_nat (hp_log2_max_poc_lsb_minus4 p + 4)) (poc_lsb_of picture) ++
  (if is_refresh picture then [false] ++ [false] else [false] ++ [false] ++ [false] ++ golomb 0) ++
  golomb 0 ++ golomb 0 ++ golomb 0 ++ golomb 0.

Definition read_slice (p : Params) (picture : Picture) : SliceHeader :=
  mkSliceHeader (if is_refresh picture then 5 else 1) (if is_refresh picture then 3 else 2) 0 (if is_refresh picture then SliceI else SliceP) 0 0
    (frame_num_of picture) false false (idr_pic_id_of picture) (poc_lsb_of picture) 0 (0, 0) 0 false 0 0 [] [] None
    (if is_refresh picture then MarkingIdr false false else MarkingSliding) 0 0 false 0 0 0 0 (zlen (slice_bits p picture)).

Lemma slice_says p picture : params_ok p -> picture_ok p picture -> says (run_stmts (slice_stmts p picture)) (slice_bits p picture).
Proof.
  intros [_ _ _ _ Hn Ho _] (Hf & Hp & Hi). unfold slice_stmts, slice_bits.
  assert (wadd 32 (hp_log2_max_frame_num_minus4 p) 4 = hp_log2_max_frame_num_minus4 p + 4) as -> by (apply wrap_small; unfold fits; lia).
  assert (wadd 32 (hp_log2_max_poc_lsb_minus4 p) 4 = hp_log2_max_poc_lsb_minus4 p + 4) as -> by (apply wrap_small; unfold fits; lia).
  destruct picture as [id|fn poc]; cbn [is_refresh frame_num_of poc_lsb_of idr_pic_id_of] in *; rewrite <- ?app_assoc; [|change ([] ++ ?l) with l]; say_all.
Qed.

Lemma slice_bits_short p picture : params_ok p -> picture_ok p picture -> zlen (slice_bits p picture) <= 200.
Proof.
  intros [_ _ _ _ Hn Ho _] (Hf & Hp & Hi). pose proof (golomb_short (idr_pic_id_of picture) ltac:(lia)).
  unfold slice_bits. rewrite !zlen_app, !zlen_bits_be.
  destruct picture; cbn [is_refresh] in *; rewrite ?zlen_app; change (zlen (golomb 0)) with 1; change (zlen (golomb 5)) with 5; change (zlen (golomb 7)) with 7; change (zlen [_]) with 1; rewrite ?zlen_nil; lia.
Qed.

Ltac get_from := eapply from_bind; [apply gets_at; first [field | apply (gets_bits _ _); lia | apply gets_se_small; lia]|]; cbv beta iota.
Ltac not_there := eapply from_nil; [apply gets_ret|]; cbv beta iota.

(** The sets a decoder holds once it read what the encoder wrote. *)
Definition sps_table (p : Params) (id : Z) : option Sps := if id =? 0 then Some (read_sps p) else None.
Definition pps_table (id : Z) : option Pps := if id =? 0 then Some read_pps else None.

Lemma slice_poc_gets p v :
  params_ok p -> 0 <= v < 2 ^ (hp_log2_max_poc_lsb_minus4 p + 4) ->
  gets (slice_poc (read_sps p) read_pps false) (bits_be (Z.to_nat (hp_log2_max_poc_lsb_minus4 p + 4)) v) (v, 0, (0, 0)).
Proof.
  intros [_ _ _ _ _ Ho _] Hv. unfold slice_poc. eapply gets_bind_ret.
  { eapply gets_bind_ret; [apply gets_bits; cbn; lia|]. absent. apply gets_ret. }
  cbv beta iota. absent. apply gets_ret.
Qed.

Lemma deblocking_gets : gets (deblocking read_pps) (golomb 0 ++ golomb 0 ++ golomb 0) (0, 0, 0).
Proof.
  unfold deblocking. eapply gets_bind; [field|]. cbv beta iota. eapply (gets_bind_ret _ _ _ (0, 0)); [|apply gets_ret]. cbn [negb Z.eqb when].
  eapply gets_bind; [apply (gets_se_small 0); lia|]. eapply gets_bind_ret; [apply (gets_se_small 0); lia|apply gets_ret].
Qed.

Ltac from_field := eapply from_bind; [apply gets_at; first [field | apply gets_bits; cbn; lia | refine (gets_se_small 0 _ _ _ _ _); lia]|]; cbv beta iota.
Ltac from_absent := eapply from_nil; [first [apply gets_ret | apply gets_or_refuse; eassumption]|]; cbv beta iota.

(** The end of a header, once its position is known. *)
Lemma from_end {A} pre n (k : Z -> A) a : n = zlen pre -> k n = a -> gets_from pre (bits ← header_position; mret (k bits)) [] a.
Proof. intros -> <-. change (@nil bool) with ([] ++ @nil bool). eapply from_bind; [apply from_position|]. rewrite app_nil_r. apply from_ret. Qed.

Lemma slice_gets p picture pps_of sps_of :
  params_ok p -> picture_ok p picture -> pps_of 0 = Some read_pps -> sps_of 0 = Some (read_sps p) ->
  gets_from [] (slice_body (if is_refresh picture then 5 else 1) (if is_refresh picture then 3 else 2) pps_of sps_of) (slice_bits p picture) (read_slice p picture).
Proof.
  intros Hok (Hf & Hp & Hi) Hpps Hsps. pose proof (fun v => slice_poc_gets p v Hok) as Hpoc. destruct Hok as [_ _ _ _ Hn Ho _].
  unfold read_slice. set (n := zlen (slice_bits p picture)). assert (n = zlen (slice_bits p picture)) as En by done. clearbody n.
  unfold slice_body, slice_bits in *. rewrite !zlen_app in En.
  destruct picture as [id|fn poc]; cbn [is_refresh frame_num_of poc_lsb_of idr_pic_id_of] in *.
  - do 3 from_field. from_absent. from_absent. from_absent. from_field. from_absent. from_absent. from_field.
    eapply from_bind; [apply gets_at, Hpoc; lia|]. cbv beta iota. do 2 from_absent. from_absent. do 3 from_absent.
    eapply from_bind; [apply gets_at; eapply gets_bind; [field|]; eapply gets_bind_ret; [field|apply gets_ret]|]. cbv beta iota.
    from_absent. from_field. do 2 from_absent. eapply from_bind_last; [apply gets_at, deblocking_gets|]. cbv beta iota.
    apply (from_end _ n); [|done]. rewrite En, !zlen_app. change (zlen (@nil bool)) with 0. lia.
  - rewrite <- ?app_assoc. change ([] ++ ?l) with l. do 3 from_field. from_absent. from_absent. from_absent. from_field. do 3 from_absent.
    eapply from_bind; [apply gets_at, Hpoc; lia|]. cbv beta iota. do 2 from_absent.
    eapply from_bind; [apply gets_at; eapply gets_bind_ret; [field|apply gets_ret]|]. cbv beta iota.
    eapply from_bind; [apply gets_at; eapply gets_bind_ret; [field|apply gets_ret]|]. cbv beta iota. do 2 from_absent.
    eapply from_bind; [apply gets_at; eapply gets_bind_ret; [field|apply gets_ret]|]. cbv beta iota.
    from_field. from_field. do 2 from_absent. eapply from_bind_last; [apply gets_at, deblocking_gets|]. cbv beta iota.
    apply (from_end _ n); [|done]. rewrite En, !zlen_app. change (zlen (@nil bool)) with 0. lia.
Qed.

Definition slice_payload (p : Params) (picture : Picture) : list Z :=
  BitWriter_finish (run_stmts (slice_stmts p picture) (BitWriter_new (repeat 0 64))).
Definition slice_unit (p : Params) (picture : Picture) : list Z :=
  (if is_refresh picture then 0x65 else 0x41) :: escaped 0 (slice_payload p picture).
(** How many bytes emulation prevention put into it. *)
Definition slice_escapes (p : Params) (picture : Picture) : Z := zlen (escaped 0 (slice_payload p picture)) - zlen (slice_payload p picture).

Lemma slice_payload_bits p picture :
  params_ok p -> picture_ok p picture ->
  BitWriter_bit_len (run_stmts (slice_stmts p picture) (BitWriter_new (repeat 0 64))) = zlen (slice_bits p picture) /\
  exists k, (k < 8)%nat /\ bytes_ok (slice_payload p picture) /\ bits_of (slice_payload p picture) = slice_bits p picture ++ repeat false k /\
    8 * zlen (slice_payload p picture) = zlen (slice_bits p picture) + Z.of_nat k.
Proof.
  intros Hok Hp. pose proof (slice_bits_short p picture Hok Hp). pose proof (wrote_new (repeat 0 64) ltac:(done)) as Hw. change (zlen (repeat 0 64)) with 64 in Hw.
  pose proof (slice_says p picture Hok Hp 64 _ [] Hw ltac:(change (zlen (@nil bool)) with 0; lia)) as Hw1. cbn [app] in Hw1.
  split; [apply (wr_bits _ _ _ Hw1)|]. exact (wrote_finish 64 _ _ Hw1).
Qed.

Lemma bits_be_inj a b l l' : bits_be 8 a ++ l = bits_be 8 b ++ l' -> bits_be 8 a = bits_be 8 b /\ l = l'.
Proof. intros H. apply app_inj_1 in H; [done|]. by rewrite !length_bits_be. Qed.

(** With eight-bit counters a predicted picture's header has no two zero bytes before a
    byte to escape: it starts with a one and ends with five of them. *)
Lemma predicted_clear p fn poc :
  params_ok p -> picture_ok p (Predicted fn poc) -> hp_log2_max_frame_num_minus4 p = 4 -> hp_log2_max_poc_lsb_minus4 p = 4 ->
  escaped 0 (slice_payload p (Predicted fn poc)) = slice_payload p (Predicted fn poc).
Proof.
  intros Hok Hp Hn Ho. destruct (slice_payload_bits p _ Hok Hp) as (_ & k & Hk & Hb & Hbits & Hl). set (payload := slice_payload p (Predicted fn poc)) in *.
  unfold slice_bits in *. cbn [is_refresh frame_num_of poc_lsb_of idr_pic_id_of] in *. rewrite Hn, Ho in *. change (Z.to_nat (4 + 4)) with 8%nat in *.
  rewrite !zlen_app, !zlen_bits_be in Hl. change (zlen (golomb 0)) with 1 in Hl. change (zlen (golomb 5)) with 5 in Hl. change (zlen [_]) with 1 in Hl. change (zlen (@nil bool)) with 0 in Hl.
  assert (zlen payload = 4 /\ k = 1%nat) as [E4 ->] by lia. destruct payload as [|b0 [|b1 [|b2 [|b3 [|b4 tail_]]]]]; rewrite ?zlen_cons in E4; change (zlen (@nil Z)) with 0 in E4; try lia; [|pose proof (zlen_nonneg tail_); lia].
  change (golomb 0) with [true] in Hbits. change (golomb 5) with [false; false; true; true; false] in Hbits. cbn [bits_of flat_map bits_be app repeat] in Hbits.
  injection Hbits as H0 _ _ _ _ _ _ _ _ _ _ _ _ _ _ _ _ _ _ _ _ _ _ _ _ _ H3 _ _ _ _ _.
  assert (b0 <> 0) as N0 by (intros ->; done). assert (3 < b3) as N3.
  { destruct (Z.leb_spec b3 3) as [Hle|]; [|done]. exfalso. inversion_clear Hb as [|? ? _ Hb1]. inversion_clear Hb1 as [|? ? _ Hb2]. inversion_clear Hb2 as [|? ? _ Hb3].
    inversion_clear Hb3 as [|? ? [Hb4 _] _]. assert (b3 = 0 \/ b3 = 1 \/ b3 = 2 \/ b3 = 3) as [->|[->|[->| ->]]] by lia; done. }
  cbn [escaped]. destruct (Z.eqb_spec b0 0); [done|]. cbn [Z.leb andb Z.compare]. destruct (Z.eqb_spec b1 0), (Z.eqb_spec b2 0), (Z.leb_spec b3 3); try lia; cbn; try done.
Qed.

Lemma refresh_clear p id :
  0 <= id <= 1 -> hp_log2_max_frame_num_minus4 p = 4 -> hp_log2_max_poc_lsb_minus4 p = 4 ->
  escaped 0 (slice_payload p (Refresh id)) = slice_payload p (Refresh id).
Proof.
  intros Hid Hn Ho. unfold slice_payload, slice_stmts. rewrite Hn, Ho. assert (id = 0 \/ id = 1) as [->| ->] by lia; vm_compute; reflexivity.
Qed.

(** C25: A slice header is what the decoder reads, and as long as it says. Whatever counters
    and identifier within their widths it carries, it is written whole behind its start
    code or refused for want of room, is one unit, and parses, against the parameter sets
    of the same encoder, to exactly those fields; the length reported is the bits of the
    header, with start code and unit header, so it ends in the last of the bytes written
    but those emulation prevention put in; and with the counters' widths of eight bits
    and the alternating identifier the backends use, there are none. *)
Theorem slice_header_read p picture :
  params_ok p -> picture_ok p picture ->
  let unit_ := slice_unit p picture in let h := mkWrittenHeader (4 + zlen unit_) (zlen (slice_bits p picture) + 40) in
  (forall out, (zlen (START_CODE ++ unit_) <= zlen out -> slice_header p picture out = ((START_CODE ++ unit_) ++ drop (length (START_CODE ++ unit_)) out, Some h)) /\
    (zlen out < zlen (START_CODE ++ unit_) -> snd (slice_header p picture out) = None)) /\
  Units_all (START_CODE ++ unit_) = [mkUnit unit_ 4] /\
  slice_parse unit_ pps_table (sps_table p) = inr (read_slice p picture) /\
  sh_header_bits (read_slice p picture) = wh_bit_length h - 40 /\
  8 * (wh_bytes_written h - slice_escapes p picture - 1) < wh_bit_length h <= 8 * (wh_bytes_written h - slice_escapes p picture) /\
  (hp_log2_max_frame_num_minus4 p = 4 -> hp_log2_max_poc_lsb_minus4 p = 4 -> idr_pic_id_of picture <= 1 -> slice_escapes p picture = 0).
Proof.
  intros Hok Hp unit_ h. destruct (slice_payload_bits p picture Hok Hp) as (Hlen & k & Hk & Hb & Hbits & Hl). pose proof (slice_bits_short p picture Hok Hp) as Hs.
  pose proof (escaped_length 0 (slice_payload p picture)) as He.
  assert (START_CODE ++ unit_ = unit_bytes (if is_refresh picture then 0x65 else 0x41) (slice_payload p picture)) as Eu by (by destruct picture).
  assert (zlen unit_ = 1 + zlen (escaped 0 (slice_payload p picture))) as Ez by (unfold unit_, slice_unit; rewrite zlen_cons; lia).
  assert (zlen (START_CODE ++ unit_) = 4 + zlen unit_) as Esz by (by rewrite zlen_app).
  split; [|split; [|split; [|split; [|split]]]].
  - intros out. unfold slice_header. cbv zeta. rewrite Hlen. fold (slice_payload p picture).
    replace (match picture with Refresh _ => 0x65 | Predicted _ _ => 0x41 end) with (if is_refresh picture then 0x65 else 0x41) by (by destruct picture).
    rewrite Eu in *. destruct (emit_writes (if is_refresh picture then 0x65 else 0x41) (slice_payload p picture) out) as [Hw Hn]. split; intros Hout.
    + rewrite Hw by done. cbn [mbind option_bind]. rewrite Esz. done.
    + specialize (Hn Hout). destruct (emit _ _ out) as [o n]. cbn in Hn. by subst n.
  - assert (START_CODE ++ unit_ = framed [unit_]) as -> by (cbn; by rewrite app_nil_r). rewrite Units_framed; [done|]. constructor; [|constructor]. split; [done|]. apply unit_no_start. by destruct (is_refresh picture).
  - pose proof (slice_gets p picture pps_table (sps_table p) Hok Hp eq_refl eq_refl) as Hg. assert (zlen (slice_payload p picture) <= 26) by lia.
    unfold unit_, slice_unit, slice_parse. pose proof (parse_payload _ (slice_payload p picture) _ _ _ Hb ltac:(lia) Hbits Hg (escaped 0 (slice_payload p picture))
      (unescape_escaped 0 _) (escaped_bytes 0 _ Hb) ltac:(lia)) as Hparse. destruct picture; exact Hparse.
  - cbn. lia.
  - cbn [h wh_bytes_written wh_bit_length]. unfold slice_escapes. rewrite Ez. lia.
  - intros Hn Ho Hi. unfold slice_escapes. destruct picture as [id|fn poc].
    + rewrite refresh_clear; [lia| |done|done]. destruct Hp as (_ & _ & ?). cbn in *. lia.
    + rewrite predicted_clear by done. lia.
Qed.

Definition sample_params : Params := mkParams 1920 1080 60 42 4 4 1.

(** The third picture after a refresh. *)
Lemma slice_header_read_witness :
  slice_parse (slice_unit sample_params (Predicted 3 6)) pps_table (sps_table sample_params) = inr (read_slice sample_params (Predicted 3 6)) /\
  slice_escapes sample_params (Predicted 3 6) = 0 /\ sh_frame_num (read_slice sample_params (Predicted 3 6)) = 3.
Proof.
  destruct (slice_header_read sample_params (Predicted 3 6)) as (_ & _ & Hp & _ & _ & He).
  - constructor; cbn; lia.
  - unfold picture_ok. cbn. lia.
  - split; [exact Hp|]. split; [apply He; cbn; lia|reflexivity].
Defined.

(** The length reported for a slice header leaves out what emulation prevention put into
    it: for a refresh whose identifier is 8191, one the standard allows, the last byte
    written, which holds the end of the header, lies wholly past the length reported, so
    slice data set from there overwrites it. *)
Theorem slice_length_short out :
  64 <= zlen out ->
  exists out' h, slice_header sample_params (Refresh 8191) out = (out', Some h) /\
    picture_ok sample_params (Refresh 8191) /\ slice_escapes sample_params (Refresh 8191) = 1 /\
    sh_header_bits (read_slice sample_params (Refresh 8191)) = wh_bit_length h - 40 /\
    wh_bytes_written h = 14 /\ wh_bit_length h <= 8 * (14 - 1) < wh_bit_length h + 8.
Proof.
  intros Hout. unfold slice_header. cbv zeta. fold (slice_payload sample_params (Refresh 8191)).
  assert (zlen (unit_bytes 0x65 (slice_payload sample_params (Refresh 8191))) = 14) as El by (vm_compute; reflexivity).
  rewrite emit_eq by lia. rewrite El. cbn [mbind option_bind]. eexists _, _. split; [reflexivity|].
  split; [unfold picture_ok; cbn; lia|]. split; [vm_compute; reflexivity|]. split; [vm_compute; reflexivity|]. split; [reflexivity|].
  assert (BitWriter_bit_len (run_stmts (slice_stmts sample_params (Refresh 8191)) (BitWriter_new (repeat 0 64))) = 58) as E by (vm_compute; reflexivity).
  cbn [wh_bit_length]. rewrite E. change (zlen START_CODE) with 4. lia.
Qed.

Lemma slice_length_short_witness :
  exists out' h, slice_header sample_params (Refresh 8191) (repeat 0 64) = (out', Some h) /\ wh_bit_length h <= 104.
Proof.
  destruct (slice_length_short (repeat 0 64)) as (out' & h & E & _ & _ & _ & _ & Hl & _); [vm_compute; discriminate|].
  exists out', h. split; [exact E|exact Hl].
Defined.
