(* ===== verification/Dpb.v ===== *)
(** The H.264 decoded picture buffer (crates/decode/src/h264/dpb.rs): picture order,
    reference marking, the reference lists, and the order pictures leave.  A picture's
    two fields are [en_top] and [en_bottom].  A fixed list filled from the entries is the
    list of what it holds: it has a place for each of them. *)

From S2P Require Import Prelude BitWriter BitReader H264Read.

Definition MAX_FRAMES : Z := 18.

Definition wrapping_i32 (z : Z) : Z := as_signed 32 (wrap 32 z).
Definition wrapping_i64 (z : Z) : Z := as_signed 64 (wrap 64 z).
Definition i32_or_0 (z : Z) : Z := if (- 2 ^ 31 <=? z) && (z <? 2 ^ 31) then z else 0.
Definition I32_MAX : Z := 2 ^ 31 - 1.

Inductive Reference := Unused | ShortTerm | LongTermRef.
#[global] Instance Reference_eq_dec : EqDecision Reference.
Proof. solve_decision. Defined.
Inductive Parity := TopField | BottomField.
#[global] Instance Parity_eq_dec : EqDecision Parity.
Proof. solve_decision. Defined.
Definition Parity_opposite (p : Parity) : Parity := match p with TopField => BottomField | BottomField => TopField end.
Inductive Structure := WholeFrame | OneField (p : Parity).
#[global] Instance Structure_eq_dec : EqDecision Structure.
Proof. solve_decision. Defined.

Record Field := mkField { fd_poc : Z; fd_reference : Reference; fd_present : bool }.
#[export] Instance Field_eta : Eta Field := fun f => mkField (fd_poc f) (fd_reference f) (fd_present f).

Record Entry := mkEntry {
  en_slot : Z;
  en_frame_num : Z;
  en_frame_num_wrap : Z;
  en_long_term_frame_idx : Z;
  en_top : Field;
  en_bottom : Field;
  en_non_existing : bool;
  en_output_needed : bool;
}.
#[export] Instance Entry_eta : Eta Entry := fun e =>
  mkEntry (en_slot e) (en_frame_num e) (en_frame_num_wrap e) (en_long_term_frame_idx e) (en_top e) (en_bottom e) (en_non_existing e) (en_output_needed e).

Definition fd_is (f : Field) (kind : Reference) : bool := bool_decide (fd_reference f = kind).
Definition Entry_is_reference (e : Entry) : bool := negb (fd_is (en_top e) Unused) || negb (fd_is (en_bottom e) Unused).
Definition Entry_has_short (e : Entry) : bool := fd_is (en_top e) ShortTerm || fd_is (en_bottom e) ShortTerm.
Definition Entry_has_long (e : Entry) : bool := fd_is (en_top e) LongTermRef || fd_is (en_bottom e) LongTermRef.
Definition Entry_frame_reference (e : Entry) (kind : Reference) : bool :=
  (fd_present (en_top e) && fd_is (en_top e) kind) && (fd_present (en_bottom e) && fd_is (en_bottom e) kind).
Definition Entry_poc (e : Entry) : Z :=
  match fd_present (en_top e), fd_present (en_bottom e) with
  | true, true => Z.min (fd_poc (en_top e)) (fd_poc (en_bottom e))
  | true, false => fd_poc (en_top e)
  | false, true => fd_poc (en_bottom e)
  | false, false => I32_MAX
  end.
Definition Entry_poc_marked (e : Entry) (kind : Reference) : Z :=
  match fd_present (en_top e) && fd_is (en_top e) kind, fd_present (en_bottom e) && fd_is (en_bottom e) kind with
  | true, true => Z.min (fd_poc (en_top e)) (fd_poc (en_bottom e))
  | true, false => fd_poc (en_top e)
  | false, true => fd_poc (en_bottom e)
  | false, false => I32_MAX
  end.
Definition Entry_field (e : Entry) (p : Parity) : Field := match p with TopField => en_top e | BottomField => en_bottom e end.
Definition put_field (e : Entry) (p : Parity) (f : Field) : Entry :=
  match p with TopField => e <| en_top := f |> | BottomField => e <| en_bottom := f |> end.
(** [for f in e.fields.iter_mut()]. *)
Definition each_field (g : Field -> Field) (e : Entry) : Entry := e <| en_top := g (en_top e) |> <| en_bottom := g (en_bottom e) |>.
Definition mark (r : Reference) (f : Field) : Field := f <| fd_reference := r |>.
Definition unmark_kind (kind : Reference) (f : Field) : Field := if fd_is f kind then mark Unused f else f.

Record RefPic := mkRefPic { rp_slot : Z; rp_top_poc : Z; rp_bottom_poc : Z; rp_frame_idx : Z; rp_long_term : bool; rp_parity : option Parity }.

(** [RefList]: the array of 32 and its count. *)
Record RefList := mkRefList { rl_items : list (option RefPic); rl_len : Z }.
Definition RefList_default : RefList := mkRefList (repeat None 32) 0.
Definition RefList_push (l : RefList) (x : RefPic) : option RefList :=
  if rl_len l <? MAX_REFS then Some (mkRefList (put_at (rl_items l) (rl_len l) (Some x)) (rl_len l + 1)) else None.
(** [let _ = l.push(..)] for each. *)
Definition push_all (l : RefList) (xs : list RefPic) : RefList := foldl (fun l x => default l (RefList_push l x)) l xs.

Record Output := mkOutput { ou_slot : Z; ou_poc : Z }.

Record Current := mkCurrent {
  cu_slot : Z;
  cu_structure : Structure;
  cu_frame_num : Z;
  cu_top_poc : Z;
  cu_bottom_poc : Z;
  cu_idr : bool;
  cu_reference : bool;
  cu_mmco5 : bool;
  cu_pair_of : option Z;
}.

Record Previous := mkPrevious {
  pv_poc_msb : Z;
  pv_poc_lsb : Z;
  pv_frame_num : Z;
  pv_frame_num_offset : Z;
  pv_ref_frame_num : Z;
  pv_mmco5 : bool;
  pv_mmco5_bottom : bool;
  pv_top_poc_after_mmco5 : Z;
}.
#[export] Instance Previous_eta : Eta Previous := fun p =>
  mkPrevious (pv_poc_msb p) (pv_poc_lsb p) (pv_frame_num p) (pv_frame_num_offset p) (pv_ref_frame_num p) (pv_mmco5 p) (pv_mmco5_bottom p)
    (pv_top_poc_after_mmco5 p).
Definition Previous_default : Previous := mkPrevious 0 0 0 0 0 false false 0.

Record Dpb := mkDpb {
  dp_entries : list (option Entry);
  dp_capacity : Z;
  dp_max_num_ref_frames : Z;
  dp_max_long_term_frame_idx : option Z;
  dp_reorder : Z;
  dp_reorder_declared : bool;
  dp_last_output_poc : option Z;
  dp_previous_decoded_poc : option Z;
  dp_previous : Previous;
  dp_slot_in_dpb : list bool;
  dp_slot_pending_output : list bool;
  dp_output : list Output;
}.
#[export] Instance Dpb_eta : Eta Dpb := fun d =>
  mkDpb (dp_entries d) (dp_capacity d) (dp_max_num_ref_frames d) (dp_max_long_term_frame_idx d) (dp_reorder d) (dp_reorder_declared d)
    (dp_last_output_poc d) (dp_previous_decoded_poc d) (dp_previous d) (dp_slot_in_dpb d) (dp_slot_pending_output d) (dp_output d).

Definition Dpb_new : Dpb :=
  mkDpb (repeat None 18) 1 1 None 0 false None None Previous_default (repeat false 18) (repeat false 18) [].

Definition Dpb_configure (d : Dpb) (sps : Sps) : Dpb :=
  let d := d <| dp_capacity := Z.min (Sps_dpb_frames sps) 16 |> <| dp_max_num_ref_frames := Z.max (sp_max_num_ref_frames sps) 1 |> in
  match Sps_reorder_frames sps with Some reorder => d <| dp_reorder := reorder |> <| dp_reorder_declared := true |> | None => d end.

Definition release_slot (held : list bool) (slot : Z) : list bool := put_at held slot false.

(** The loop of [clear]. *)
Fixpoint clear_entries (entries : list (option Entry)) (held : list bool) : list (option Entry) * list bool :=
  match entries with
  | [] => ([], held)
  | e :: entries =>
      let held := match e with Some e => release_slot held (en_slot e) | None => held end in
      let '(entries, held) := clear_entries entries held in (None :: entries, held)
  end.
Definition Dpb_clear (d : Dpb) : Dpb :=
  let '(entries, held) := clear_entries (dp_entries d) (dp_slot_in_dpb d) in
  mkDpb entries (dp_capacity d) (dp_max_num_ref_frames d) None 0 false None None Previous_default held (repeat false 18) [].

Definition Dpb_taken (d : Dpb) (slot : Z) : Dpb := d <| dp_slot_pending_output := put_at (dp_slot_pending_output d) slot false |>.

Definition Dpb_next_output (d : Dpb) : Dpb * option Output :=
  match dp_output d with [] => (d, None) | first :: out => (d <| dp_output := out |>, Some first) end.

(** The first slot neither held nor waiting to be read back; one past the end counts as
    both. *)
Definition slot_free (d : Dpb) (s : Z) : bool :=
  negb (default true (get_at (dp_slot_in_dpb d) s)) && negb (default true (get_at (dp_slot_pending_output d) s)).
Definition free_slot (d : Dpb) : option Z := find (slot_free d) (map Z.of_nat (seq 0 18)).

Definition flatten_entries (entries : list (option Entry)) : list Entry := omap id entries.
Definition held_entries (d : Dpb) : list Entry := flatten_entries (dp_entries d).
Definition entry_count (d : Dpb) : Z := zlen (held_entries d).
Definition short_term_count (d : Dpb) : Z := zlen (List.filter Entry_has_short (held_entries d)).
Definition long_term_count (d : Dpb) : Z := zlen (List.filter Entry_has_long (held_entries d)).

(** Neither referenced nor waiting for output. *)
Definition entry_done (e : Entry) : bool := negb (Entry_is_reference e) && negb (en_output_needed e).
Fixpoint compact_entries (entries : list (option Entry)) (held : list bool) : list (option Entry) * list bool :=
  match entries with
  | [] => ([], held)
  | e :: entries =>
      let '(e, held) := match e with
                        | Some x => if entry_done x then (None, release_slot held (en_slot x)) else (Some x, held)
                        | None => (None, held)
                        end in
      let '(entries, held) := compact_entries entries held in (e :: entries, held)
  end.
Definition Dpb_compact (d : Dpb) : Dpb :=
  let '(entries, held) := compact_entries (dp_entries d) (dp_slot_in_dpb d) in d <| dp_entries := entries |> <| dp_slot_in_dpb := held |>.

(** The waiting picture with the smallest order count, the first of them. *)
Definition waiting (e : Entry) : bool := en_output_needed e && negb (en_non_existing e).
Fixpoint best_waiting (entries : list (option Entry)) (i : Z) (best : option (Z * Z)) : option (Z * Z) :=
  match entries with
  | [] => best
  | e :: entries =>
      let best := match e with
                  | Some e => if waiting e && match best with None => true | Some (_, poc) => Entry_poc e <? poc end then Some (i, Entry_poc e) else best
                  | None => best
                  end in
      best_waiting entries (i + 1) best
  end.
Definition bump_one (d : Dpb) : Dpb * bool :=
  match best_waiting (dp_entries d) 0 None with
  | None => (d, false)
  | Some (index, poc) =>
      let d := match get_at (dp_entries d) index with
               | Some (Some e) =>
                   d <| dp_entries := put_at (dp_entries d) index (Some (e <| en_output_needed := false |>)) |>
                     <| dp_slot_pending_output := put_at (dp_slot_pending_output d) (en_slot e) true |>
                     <| dp_output := if zlen (dp_output d) <? MAX_FRAMES then dp_output d ++ [mkOutput (en_slot e) poc] else dp_output d |>
                     <| dp_last_output_poc := Some poc |>
               | _ => d
               end in
      (Dpb_compact d, true)
  end.

Definition waiting_output (d : Dpb) : Z := zlen (List.filter waiting (held_entries d)).

(** [while condition(self) { if !self.bump_one() { break } }]: a turn of it lets one
    waiting picture go, and there are no more of them than entries. *)
Fixpoint bump_while (fuel : nat) (condition : Dpb -> bool) (d : Dpb) : Dpb :=
  match fuel with
  | O => d
  | S fuel => if condition d then let '(d, bumped) := bump_one d in if bumped : bool then bump_while fuel condition d else d else d
  end.
Definition BUMPS : nat := 19.
Definition Dpb_flush (d : Dpb) : Dpb := bump_while BUMPS (fun _ => true) d.
Definition Dpb_drain (d : Dpb) : Dpb := Dpb_flush d.

Definition on_entries (f : Entry -> Entry) (d : Dpb) : Dpb := d <| dp_entries ::= map (option_map f) |>.
Definition discard_waiting (d : Dpb) : Dpb := Dpb_compact (on_entries (fun e => e <| en_output_needed := false |>) d).

(** ** The order count *)

Definition structure_of (h : SliceHeader) : Structure :=
  if sh_field_pic h then OneField (if sh_bottom_field h then BottomField else TopField) else WholeFrame.

Definition frame_num_offset (d : Dpb) (sps : Sps) (h : SliceHeader) : Z :=
  if SliceHeader_is_idr h then 0
  else
    let prev := if pv_mmco5 (dp_previous d) then 0 else pv_frame_num_offset (dp_previous d) in
    if sh_frame_num h <? pv_frame_num (dp_previous d) then wadd 32 prev (Sps_max_frame_num sps) else prev.

Definition counts_lsb (d : Dpb) (sps : Sps) (h : SliceHeader) : Z * Z :=
  let v := dp_previous d in
  let '(prev_msb, prev_lsb) :=
    if SliceHeader_is_idr h then (0, 0)
    else if pv_mmco5 v then
      if pv_mmco5_bottom v then (0, 0) else (0, if 0 <=? pv_top_poc_after_mmco5 v then pv_top_poc_after_mmco5 v else 0)
    else (pv_poc_msb v, pv_poc_lsb v) in
  let max_lsb := Sps_max_pic_order_cnt_lsb sps in
  let lsb := sh_pic_order_cnt_lsb h in
  let msb := if (lsb <? prev_lsb) && (max_lsb / 2 <=? prev_lsb - lsb) then prev_msb + max_lsb
             else if (prev_lsb <? lsb) && (max_lsb / 2 <? lsb - prev_lsb) then prev_msb - max_lsb
             else prev_msb in
  let top := i32_or_0 (msb + lsb) in
  match structure_of h with
  | WholeFrame => (top, wrapping_i32 (top + sh_delta_pic_order_cnt_bottom h))
  | OneField _ => (top, top)
  end.

Definition sum_offsets (l : list Z) : Z := foldl Z.add 0 l.
Definition counts_cycle (d : Dpb) (sps : Sps) (h : SliceHeader) : Z * Z :=
  let offset := frame_num_offset d sps h in
  let cycle := sp_num_ref_frames_in_pic_order_cnt_cycle sps in
  let abs_frame_num := if negb (cycle =? 0) then wadd 32 offset (sh_frame_num h) else 0 in
  let abs_frame_num := if (sh_nal_ref_idc h =? 0) && (0 <? abs_frame_num) then abs_frame_num - 1 else abs_frame_num in
  let expected :=
    if (0 <? abs_frame_num) && negb (cycle =? 0) then
      let cycle_count := (abs_frame_num - 1) / cycle in
      let in_cycle := (abs_frame_num - 1) mod cycle in
      let per_cycle := sum_offsets (take (Z.to_nat cycle) (sp_offset_for_ref_frame sps)) in
      wrapping_i64 (cycle_count * per_cycle + sum_offsets (take (Z.to_nat (in_cycle + 1)) (sp_offset_for_ref_frame sps)))
    else 0 in
  let expected := if sh_nal_ref_idc h =? 0 then wrapping_i64 (expected + sp_offset_for_non_ref_pic sps) else expected in
  let expected := i32_or_0 expected in
  let '(d0, d1) := sh_delta_pic_order_cnt h in
  match structure_of h with
  | WholeFrame =>
      let top := wrapping_i32 (expected + d0) in
      (top, wrapping_i32 (wrapping_i32 (top + sp_offset_for_top_to_bottom_field sps) + d1))
  | OneField TopField => let top := wrapping_i32 (expected + d0) in (top, top)
  | OneField BottomField => let bottom := wrapping_i32 (wrapping_i32 (expected + sp_offset_for_top_to_bottom_field sps) + d0) in (bottom, bottom)
  end.

Definition counts_decode_order (d : Dpb) (sps : Sps) (h : SliceHeader) : Z * Z :=
  let offset := frame_num_offset d sps h in
  let temp := if SliceHeader_is_idr h then 0
              else let n := wadd 32 offset (sh_frame_num h) in if sh_nal_ref_idc h =? 0 then 2 * n - 1 else 2 * n in
  let temp := i32_or_0 temp in (temp, temp).

Definition order_counts (d : Dpb) (sps : Sps) (h : SliceHeader) : Z * Z :=
  if sp_pic_order_cnt_type sps =? 0 then counts_lsb d sps h
  else if sp_pic_order_cnt_type sps =? 1 then counts_cycle d sps h
  else counts_decode_order d sps h.

(** ** Placing the current picture *)

Definition dpb_pairs (h : SliceHeader) (parity : Parity) (e : Entry) : bool :=
  negb (en_non_existing e) && (en_frame_num e =? sh_frame_num h) && fd_present (Entry_field e (Parity_opposite parity)) && negb (fd_present (Entry_field e parity)).
(** The last entry that pairs, with its index. *)
Fixpoint latest_pair (h : SliceHeader) (parity : Parity) (entries : list (option Entry)) (i : Z) (latest : option (Z * Entry)) : option (Z * Entry) :=
  match entries with
  | [] => latest
  | e :: entries =>
      latest_pair h parity entries (i + 1) (match e with Some e => if dpb_pairs h parity e then Some (i, e) else latest | None => latest end)
  end.
Definition pair_of (d : Dpb) (h : SliceHeader) (parity : Parity) : option Z :=
  if SliceHeader_is_idr h then None
  else match latest_pair h parity (dp_entries d) 0 None with
       | Some (i, e) => if negb (fd_is (Entry_field e (Parity_opposite parity)) Unused) || negb (SliceHeader_is_reference h) then Some i else None
       | None => None
       end.

(** [insert]: the first empty place. *)
Fixpoint insert_entry (entries : list (option Entry)) (entry : Entry) : option (list (option Entry)) :=
  match entries with
  | [] => None
  | None :: entries => Some (Some entry :: entries)
  | Some e :: entries => entries ← insert_entry entries entry; Some (Some e :: entries)
  end.
Definition Dpb_insert (d : Dpb) (entry : Entry) : Dpb * (ParseError + unit) :=
  match insert_entry (dp_entries d) entry with
  | None => (d, inl TooMany)
  | Some entries => (d <| dp_entries := entries |>, inr ())
  end.

(** Unmark the short-term frame with the smallest [FrameNumWrap], the first of them. *)
Fixpoint oldest_short (entries : list (option Entry)) (i : Z) (oldest : option (Z * Z)) : option (Z * Z) :=
  match entries with
  | [] => oldest
  | e :: entries =>
      let oldest := match e with
                    | Some e => if Entry_has_short e && match oldest with None => true | Some (_, w) => en_frame_num_wrap e <? w end
                                then Some (i, en_frame_num_wrap e) else oldest
                    | None => oldest
                    end in
      oldest_short entries (i + 1) oldest
  end.
Definition evict_oldest_short (d : Dpb) : Dpb * bool :=
  match oldest_short (dp_entries d) 0 None with
  | None => (d, false)
  | Some (index, _) =>
      let d := match get_at (dp_entries d) index with
               | Some (Some e) => d <| dp_entries := put_at (dp_entries d) index (Some (each_field (unmark_kind ShortTerm) e)) |>
               | _ => d
               end in
      (Dpb_compact d, true)
  end.
(** [while condition(self) && self.evict_oldest_short() {}]: a turn leaves one short-term
    entry fewer. *)
Fixpoint evict_while (fuel : nat) (condition : Dpb -> bool) (d : Dpb) : Dpb :=
  match fuel with
  | O => d
  | S fuel => if condition d then let '(d, evicted) := evict_oldest_short d in if evicted : bool then evict_while fuel condition d else d else d
  end.
Definition sliding_window (d : Dpb) : Dpb :=
  evict_while BUMPS (fun d => Z.max (dp_max_num_ref_frames d) 1 <=? short_term_count d + long_term_count d) d.

(** Room for a picture: pictures waiting to leave go first; then a slot, held. *)
Definition no_room (d : Dpb) : bool := bool_decide (free_slot d = None) || (Z.max (dp_capacity d) 1 <? entry_count d).
Definition claim_slot (d : Dpb) : Dpb * (ParseError + Z) :=
  let d := bump_while BUMPS no_room d in
  match free_slot d with
  | None => (d, inl TooMany)
  | Some slot => (d <| dp_slot_in_dpb := put_at (dp_slot_in_dpb d) slot true |>, inr slot)
  end.

Definition gap_entry (slot unused : Z) : Entry := mkEntry slot unused 0 0 (mkField 0 ShortTerm true) (mkField 0 ShortTerm true) true false.
(** The loop of [fill_gap]; it gives up after 33 frames. *)
Fixpoint fill_loop (fuel : nat) (d : Dpb) (max frame_num unused inserted : Z) : Dpb * (ParseError + unit) :=
  match fuel with
  | O => (d, inl TooMany)
  | S fuel =>
      if unused =? frame_num then (d, inr ())
      else if 16 * 2 <? inserted then (d, inl TooMany)
      else
      let d := sliding_window d in
      match claim_slot d with
      | (d, inl e) => (d, inl e)
      | (d, inr slot) =>
          match Dpb_insert d (gap_entry slot unused) with
          | (d, inl e) => (d, inl e)
          | (d, inr _) =>
              let d := d <| dp_previous ::= fun v => v <| pv_ref_frame_num := unused |> <| pv_frame_num := unused |> |> in
              fill_loop fuel d max frame_num (wadd 32 unused 1 mod max) (inserted + 1)
          end
      end
  end.
Definition fill_gap (d : Dpb) (sps : Sps) (h : SliceHeader) : Dpb * (ParseError + unit) :=
  let max := Sps_max_frame_num sps in
  let prev := pv_ref_frame_num (dp_previous d) in
  if (sh_frame_num h =? prev) || (sh_frame_num h =? wadd 32 prev 1 mod max) then (d, inr ())
  else if negb (sp_gaps_in_frame_num_allowed sps) then (d, inl ParseOutOfRange)
  else fill_loop 34 d max (sh_frame_num h) (wadd 32 prev 1 mod max) 0.

(** What an instantaneous refresh does to the buffer before it. *)
Definition begin_idr (d : Dpb) (h : SliceHeader) : Dpb :=
  let drop := match sh_marking h with MarkingIdr true _ => true | _ => false end in
  let d := on_entries (each_field (mark Unused)) d in
  let d := if drop then discard_waiting d else Dpb_flush d in
  let d := Dpb_compact d in
  d <| dp_max_long_term_frame_idx := None |> <| dp_previous ::= fun v => v <| pv_ref_frame_num := 0 |> |>
    <| dp_last_output_poc := None |> <| dp_previous_decoded_poc := None |>.

Definition Dpb_begin (d : Dpb) (sps : Sps) (h : SliceHeader) : Dpb * (ParseError + Current) :=
  let structure := structure_of h in
  let idr := SliceHeader_is_idr h in
  let mmco5 := SliceHeader_has_mmco5 h in
  let d := if idr then begin_idr d h else d in
  let pair := match structure with OneField parity => pair_of d h parity | WholeFrame => None end in
  match (if bool_decide (pair = None) && negb idr then fill_gap d sps h else (d, inr ())) with
  | (d, inl e) => (d, inl e)
  | (d, inr _) =>
      let '(top_poc, bottom_poc) := order_counts d sps h in
      let '(d, claimed) :=
        match pair with
        | Some index => (d, match get_at (dp_entries d) index with Some (Some e) => inr (en_slot e) | _ => inl ParseOutOfRange end)
        | None => claim_slot d
        end in
      match claimed with
      | inl e => (d, inl e)
      | inr slot => (d, inr (mkCurrent slot structure (sh_frame_num h) top_poc bottom_poc idr (SliceHeader_is_reference h) mmco5 pair))
      end
  end.

(** ** Picture numbers and reference lists *)

Definition number_frames (d : Dpb) (sps : Sps) (c : Current) : Dpb :=
  let max := Sps_max_frame_num sps in
  on_entries (fun e => e <| en_frame_num_wrap := i32_or_0 (if cu_frame_num c <? en_frame_num e then en_frame_num e - max else en_frame_num e) |>) d.

(** [2 * n + 1] for the current field's own parity, [2 * n] for the other's. *)
Definition pic_num (e : Entry) (parity : option Parity) (c : Current) : Z :=
  match cu_structure c, parity with
  | OneField cur, Some p => if decide (p = cur) then wrapping_i32 (2 * en_frame_num_wrap e + 1) else wrapping_i32 (2 * en_frame_num_wrap e)
  | _, _ => en_frame_num_wrap e
  end.
Definition long_term_pic_num (e : Entry) (parity : option Parity) (c : Current) : Z :=
  match cu_structure c, parity with
  | OneField cur, Some p => if decide (p = cur) then wrap 32 (2 * en_long_term_frame_idx e + 1) else wrap 32 (2 * en_long_term_frame_idx e)
  | _, _ => en_long_term_frame_idx e
  end.

Definition ref_pic (e : Entry) (parity : option Parity) : RefPic :=
  let long_term := match parity with Some p => fd_is (Entry_field e p) LongTermRef | None => Entry_frame_reference e LongTermRef end in
  mkRefPic (en_slot e) (fd_poc (en_top e)) (fd_poc (en_bottom e)) (if long_term then en_long_term_frame_idx e else en_frame_num e) long_term parity.

Definition reference_frames (d : Dpb) : list RefPic := take 16 (map (fun e => ref_pic e None) (List.filter Entry_is_reference (held_entries d))).

(** [sort_by_key]: a stable insertion sort. *)
Fixpoint insert_by (key : Entry -> Z) (x : Entry) (l : list Entry) : list Entry :=
  match l with
  | [] => [x]
  | y :: l => if key x <? key y then x :: y :: l else y :: insert_by key x l
  end.
Definition sort_by_key (key : Entry -> Z) (l : list Entry) : list Entry := foldl (fun l x => insert_by key x l) [] l.

Definition sorted_short_frames (d : Dpb) (c : Current) : list Entry :=
  sort_by_key (fun e => - pic_num e None c) (List.filter (fun e => Entry_frame_reference e ShortTerm) (held_entries d)).
Definition sorted_long_frames (d : Dpb) : list Entry :=
  sort_by_key en_long_term_frame_idx (List.filter (fun e => Entry_frame_reference e LongTermRef) (held_entries d)).

Definition frame_refs (l : list Entry) : list RefPic := map (fun e => ref_pic e None) l.
Definition init_p_frame (d : Dpb) (c : Current) (l0 : RefList) : RefList :=
  push_all (push_all l0 (frame_refs (sorted_short_frames d c))) (frame_refs (sorted_long_frames d)).

Definition same_ref (a b : RefPic) : bool :=
  (rp_slot a =? rp_slot b) && bool_decide (rp_parity a = rp_parity b) && Bool.eqb (rp_long_term a) (rp_long_term b).
Definition RefList_slice (l : RefList) : list (option RefPic) := take (Z.to_nat (rl_len l)) (rl_items l).
Definition swap_if_equal (l0 l1 : RefList) : RefList :=
  if (1 <? rl_len l1) && (rl_len l1 =? rl_len l0) then
    let same := forallb (fun p => match p with (Some a, Some b) => same_ref a b | _ => false end) (zip (RefList_slice l0) (RefList_slice l1)) in
    if same then
      match get_at (rl_items l1) 0, get_at (rl_items l1) 1 with
      | Some a, Some b => mkRefList (put_at (put_at (rl_items l1) 0 b) 1 a) (rl_len l1)
      | _, _ => l1
      end
    else l1
  else l1.

Definition init_b_frame (d : Dpb) (c : Current) (l0 l1 : RefList) : RefList * RefList :=
  let poc := Z.min (cu_top_poc c) (cu_bottom_poc c) in
  let short := List.filter (fun e => Entry_frame_reference e ShortTerm) (held_entries d) in
  let below := sort_by_key (fun e => - Entry_poc e) (List.filter (fun e => Entry_poc e <? poc) short) in
  let above := sort_by_key Entry_poc (List.filter (fun e => negb (Entry_poc e <? poc)) short) in
  let long := sorted_long_frames d in
  let l0 := push_all l0 (frame_refs (below ++ above ++ long)) in
  let l1 := push_all l1 (frame_refs (above ++ below ++ long)) in
  (l0, swap_if_equal l0 l1).

Definition field_frames (d : Dpb) (kind : Reference) : list Entry :=
  List.filter (fun e => (fd_present (en_top e) && fd_is (en_top e) kind) || (fd_present (en_bottom e) && fd_is (en_bottom e) kind)) (held_entries d).

(** The first frame from [start] whose field of this parity is marked so. *)
Fixpoint find_field (frames : list Entry) (start i : Z) (want : Parity) (kind : Reference) : option (Z * Entry) :=
  match frames with
  | [] => None
  | e :: frames =>
      if (start <=? i) && fd_present (Entry_field e want) && fd_is (Entry_field e want) kind then Some (i, e)
      else find_field frames start (i + 1) want kind
  end.
(** The rest of one parity, until the list is full. *)
Fixpoint push_rest (frames : list Entry) (start i : Z) (other : Parity) (kind : Reference) (out : RefList) : RefList :=
  match frames with
  | [] => out
  | e :: frames =>
      if (start <=? i) && fd_present (Entry_field e other) && fd_is (Entry_field e other) kind then
        match RefList_push out (ref_pic e (Some other)) with
        | None => out
        | Some out => push_rest frames start (i + 1) other kind out
        end
      else push_rest frames start (i + 1) other kind out
  end.
(** [alternate]: the next frame to try for the parity wanted and for the other; each turn
    takes one field. *)
Fixpoint alternate_loop (fuel : nat) (frames : list Entry) (next_want next_other : Z) (want : Parity) (kind : Reference) (out : RefList) : RefList :=
  match fuel with
  | O => out
  | S fuel =>
      match find_field frames next_want 0 want kind with
      | Some (i, e) =>
          match RefList_push out (ref_pic e (Some want)) with
          | None => out
          | Some out => alternate_loop fuel frames next_other (i + 1) (Parity_opposite want) kind out
          end
      | None => push_rest frames next_other 0 (Parity_opposite want) kind out
      end
  end.
Definition alternate (frames : list Entry) (parity : Parity) (kind : Reference) (out : RefList) : RefList := alternate_loop 37 frames 0 0 parity kind out.

Definition init_p_field (d : Dpb) (parity : Parity) (l0 : RefList) : RefList :=
  let short := sort_by_key (fun e => - en_frame_num_wrap e) (field_frames d ShortTerm) in
  let long := sort_by_key en_long_term_frame_idx (field_frames d LongTermRef) in
  alternate long parity LongTermRef (alternate short parity ShortTerm l0).

Definition init_b_field (d : Dpb) (c : Current) (parity : Parity) (l0 l1 : RefList) : RefList * RefList :=
  let poc := match parity with TopField => cu_top_poc c | BottomField => cu_bottom_poc c end in
  let short := field_frames d ShortTerm in
  let below := sort_by_key (fun e => - Entry_poc_marked e ShortTerm) (List.filter (fun e => Entry_poc_marked e ShortTerm <=? poc) short) in
  let above := sort_by_key (fun e => Entry_poc_marked e ShortTerm) (List.filter (fun e => negb (Entry_poc_marked e ShortTerm <=? poc)) short) in
  let long := sort_by_key en_long_term_frame_idx (field_frames d LongTermRef) in
  let l0 := alternate long parity LongTermRef (alternate (below ++ above) parity ShortTerm l0) in
  let l1 := alternate long parity LongTermRef (alternate (above ++ below) parity ShortTerm l1) in
  (l0, swap_if_equal l0 l1).

(** The first entry a search takes something from. *)
Fixpoint find_map {A B} (f : A -> option B) (l : list A) : option B :=
  match l with [] => None | x :: l => match f x with Some y => Some y | None => find_map f l end end.

Definition find_short (d : Dpb) (c : Current) (num : Z) : option RefPic :=
  find_map (fun e =>
    match cu_structure c with
    | WholeFrame => if Entry_frame_reference e ShortTerm && (pic_num e None c =? num) then Some (ref_pic e None) else None
    | OneField _ =>
        find_map (fun p => let f := Entry_field e p in
          if fd_present f && fd_is f ShortTerm && (pic_num e (Some p) c =? num) then Some (ref_pic e (Some p)) else None) [TopField; BottomField]
    end) (held_entries d).
Definition find_long (d : Dpb) (c : Current) (num : Z) : option RefPic :=
  find_map (fun e =>
    match cu_structure c with
    | WholeFrame => if Entry_frame_reference e LongTermRef && (long_term_pic_num e None c =? num) then Some (ref_pic e None) else None
    | OneField _ =>
        find_map (fun p => let f := Entry_field e p in
          if fd_present f && fd_is f LongTermRef && (long_term_pic_num e (Some p) c =? num) then Some (ref_pic e (Some p)) else None) [TopField; BottomField]
    end) (held_entries d).

Definition pic_nums (sps : Sps) (c : Current) : Z * Z :=
  match cu_structure c with
  | WholeFrame => (Sps_max_frame_num sps, cu_frame_num c)
  | OneField _ => (2 * Sps_max_frame_num sps, 2 * cu_frame_num c + 1)
  end.

(** A picture put in at [index], in a working list of one more than [active]: those from
    there on move up one, from the last; *)
Fixpoint shift_loop (count : nat) (c : Z) (work : list (option RefPic)) : list (option RefPic) :=
  match count with O => work | S count => shift_loop count (c - 1) (put_at work c (mjoin (get_at work (c - 1)))) end.
(** then those that are not the picture are kept, [n] the next place. *)
Fixpoint keep_loop (count : nat) (c n : Z) (found : RefPic) (work : list (option RefPic)) : list (option RefPic) * Z :=
  match count with
  | O => (work, n)
  | S count =>
      match mjoin (get_at work c) with
      | Some item => if negb (same_ref item found) then keep_loop count (c + 1) (n + 1) found (put_at work n (Some item)) else keep_loop count (c + 1) n found work
      | None => keep_loop count (c + 1) n found work
      end
  end.
Definition put_reference (l : RefList) (index active : Z) (found : RefPic) : RefList :=
  let work := take 33 (rl_items l ++ [None]) in
  let work := shift_loop (Z.to_nat (active - index)) active work in
  let work := put_at work index (Some found) in
  let '(work, n) := keep_loop (Z.to_nat (active - index)) (index + 1) (index + 1) found work in
  let work := take (Z.to_nat n) work ++ map (fun _ => None) (drop (Z.to_nat n) work) in
  mkRefList (take 32 work) (Z.max (Z.min n MAX_REFS) (index + 1)).

(** The predicted number after an operation, and the picture it names. *)
Definition named_picture (d : Dpb) (c : Current) (max_pic_num curr_pic_num : Z) (op : Modification) (pred : Z) : Z * option RefPic :=
  match op with
  | LongTerm n => (pred, find_long d c n)
  | Subtract diff | Add diff =>
      let abs := diff + 1 in
      let no_wrap := match op with Subtract _ => pred - abs | _ => pred + abs end in
      let no_wrap := if no_wrap <? 0 then no_wrap + max_pic_num else if max_pic_num <=? no_wrap then no_wrap - max_pic_num else no_wrap in
      (no_wrap, find_short d c (if curr_pic_num <? no_wrap then no_wrap - max_pic_num else no_wrap))
  end.
Fixpoint modify_loop (d : Dpb) (c : Current) (max_pic_num curr_pic_num : Z) (ops : list Modification) (index active pred : Z) (l : RefList) :
    ParseError + RefList :=
  match ops with
  | [] => inr l
  | op :: ops =>
      if active <=? index then inl TooMany
      else
      let '(pred, found) := named_picture d c max_pic_num curr_pic_num op pred in
      match found with
      | None => inl ParseOutOfRange
      | Some found => modify_loop d c max_pic_num curr_pic_num ops (index + 1) active pred (put_reference l index active found)
      end
  end.
Definition modify (d : Dpb) (sps : Sps) (c : Current) (ops : list Modification) (active : Z) (l : RefList) : ParseError + RefList :=
  let '(max_pic_num, curr_pic_num) := pic_nums sps c in
  let active := Z.min active MAX_REFS in
  match modify_loop d c max_pic_num curr_pic_num ops 0 active curr_pic_num l with
  | inl e => inl e
  | inr l => inr (if active <? rl_len l then mkRefList (take 32 (take (Z.to_nat active) (rl_items l) ++ repeat None 32)) active else l)
  end.

Definition reference_lists (d : Dpb) (sps : Sps) (c : Current) (h : SliceHeader) : Dpb * (ParseError + (RefList * RefList)) :=
  let d := number_frames d sps c in
  if SliceType_is_intra (sh_slice_type h) then (d, inr (RefList_default, RefList_default))
  else
  let '(l0, l1) :=
    match cu_structure c with
    | WholeFrame =>
        if SliceType_is_b (sh_slice_type h) then init_b_frame d c RefList_default RefList_default
        else (init_p_frame d c RefList_default, RefList_default)
    | OneField parity =>
        if SliceType_is_b (sh_slice_type h) then init_b_field d c parity RefList_default RefList_default
        else (init_p_field d parity RefList_default, RefList_default)
    end in
  (d,
   match modify d sps c (sh_modifications_l0 h) (sh_num_ref_idx_l0_active_minus1 h + 1) l0 with
   | inl e => inl e
   | inr l0 =>
       if SliceType_is_b (sh_slice_type h) then
         match modify d sps c (sh_modifications_l1 h) (sh_num_ref_idx_l1_active_minus1 h + 1) l1 with inl e => inl e | inr l1 => inr (l0, l1) end
       else inr (l0, l1)
   end).

(** ** Marking after decoding *)

Definition unmark_long_term_idx (d : Dpb) (idx : Z) (except_slot : option Z) : Dpb :=
  on_entries (fun e =>
    if Entry_has_long e && (en_long_term_frame_idx e =? idx) && negb (bool_decide (Some (en_slot e) = except_slot))
    then each_field (unmark_kind LongTermRef) e else e) d.

(** The number of a short-term field by its frame's, before the width of the operation. *)
Definition field_num (cur p : Parity) (n : Z) : Z := if decide (p = cur) then 2 * n + 1 else 2 * n.

Definition unmark_short_by_pic_num (d : Dpb) (c : Current) (num : Z) : Dpb :=
  on_entries (fun e =>
    match cu_structure c with
    | WholeFrame => if Entry_frame_reference e ShortTerm && (en_frame_num_wrap e =? num) then each_field (mark Unused) e else e
    | OneField cur =>
        foldl (fun e p => let f := Entry_field e p in
          if fd_present f && fd_is f ShortTerm && (field_num cur p (en_frame_num_wrap e) =? num) then put_field e p (mark Unused f) else e) e [TopField; BottomField]
    end) d.
Definition unmark_long_by_pic_num (d : Dpb) (c : Current) (num : Z) : Dpb :=
  on_entries (fun e =>
    match cu_structure c with
    | WholeFrame => if Entry_frame_reference e LongTermRef && (en_long_term_frame_idx e =? num) then each_field (mark Unused) e else e
    | OneField cur =>
        foldl (fun e p => let f := Entry_field e p in
          if fd_present f && fd_is f LongTermRef && (wrap 32 (field_num cur p (en_long_term_frame_idx e)) =? num) then put_field e p (mark Unused f) else e) e [TopField; BottomField]
    end) d.

(** What [ToLong] does to the frame it names. *)
Definition to_long (c : Current) (num idx : Z) (e : Entry) : Entry :=
  let e := match cu_structure c with
           | WholeFrame => each_field (fun f => if fd_is f ShortTerm then mark LongTermRef f else f) e
           | OneField cur =>
               foldl (fun e p => let f := Entry_field e p in
                 if fd_present f && fd_is f ShortTerm && (field_num cur p (en_frame_num_wrap e) =? num) then put_field e p (mark LongTermRef f) else e) e [TopField; BottomField]
           end in
  e <| en_long_term_frame_idx := idx |>.

(** [apply_mmco], with the current picture's long-term index as the operations so far
    have it. *)
Definition apply_mmco (d : Dpb) (sps : Sps) (c : Current) (op : Mmco) (long : option Z) : Dpb * option Z :=
  let '(_, curr_pic_num) := pic_nums sps c in
  let '(d, long) :=
    match op with
    | UnmarkShort diff => (unmark_short_by_pic_num d c (curr_pic_num - (diff + 1)), long)
    | UnmarkLong n => (unmark_long_by_pic_num d c n, long)
    | ToLong diff idx =>
        let num := curr_pic_num - (diff + 1) in
        let target := rp_slot <$> find_short d c num in
        let d := unmark_long_term_idx d idx target in
        (on_entries (fun e => if bool_decide (Some (en_slot e) = target) then to_long c num idx e else e) d, long)
    | MaxLongTerm plus1 =>
        let max := if 1 <=? plus1 then Some (plus1 - 1) else None in
        let d := d <| dp_max_long_term_frame_idx := max |> in
        (on_entries (fun e => if Entry_has_long e && match max with None => true | Some m => m <? en_long_term_frame_idx e end
                              then each_field (unmark_kind LongTermRef) e else e) d, long)
    | UnmarkAll => (on_entries (each_field (mark Unused)) d <| dp_max_long_term_frame_idx := None |>, long)
    | CurrentLong idx =>
        let own := match cu_pair_of c with
                   | Some i => match get_at (dp_entries d) i with Some (Some e) => Some (en_slot e) | _ => None end
                   | None => None
                   end in
        (unmark_long_term_idx d idx own, Some idx)
    end in
  (Dpb_compact d, long).

Definition apply_mmcos (d : Dpb) (sps : Sps) (c : Current) (ops : list Mmco) : Dpb * option Z :=
  foldl (fun p op => apply_mmco (fst p) sps c op (snd p)) (d, None) ops.

(** The marking a reference picture carries; the second field of a reference pair takes
    its first field's. *)
Definition apply_marking (d : Dpb) (sps : Sps) (c : Current) (h : SliceHeader) : Dpb * option Z :=
  if negb (cu_reference c) then (d, None)
  else
    match sh_marking h with
    | MarkingIdr _ idr_long => (d <| dp_max_long_term_frame_idx := if idr_long then Some 0 else None |>, if idr_long then Some 0 else None)
    | MarkingAdaptive ops => apply_mmcos d sps c ops
    | MarkingSliding | MarkingNone =>
        let second_of_reference_pair :=
          match cu_pair_of c with
          | Some i => match get_at (dp_entries d) i with Some (Some e) => Entry_has_short e | _ => false end
          | None => false
          end in
        (if second_of_reference_pair then d else sliding_window d, None)
    end.

(** The current picture into the buffer. *)
Definition store_current (d : Dpb) (c : Current) (frame_num top_poc bottom_poc : Z) (reference : Reference) (long : option Z) : Dpb * (ParseError + unit) :=
  match cu_pair_of c with
  | Some index =>
      match get_at (dp_entries d) index with
      | Some (Some e) =>
          let e := match cu_structure c with
                   | OneField parity =>
                       let poc := match parity with TopField => top_poc | BottomField => bottom_poc end in
                       let e := put_field e parity (mkField poc reference true) in
                       match long with Some idx => e <| en_long_term_frame_idx := idx |> | None => e end
                   | WholeFrame => e
                   end in
          (d <| dp_entries := put_at (dp_entries d) index (Some e) |>, inr ())
      | _ => (d, inl ParseOutOfRange)
      end
  | None =>
      let '(top, bottom) := match cu_structure c with WholeFrame => (true, true) | OneField TopField => (true, false) | OneField BottomField => (false, true) end in
      Dpb_insert d (mkEntry (cu_slot c) frame_num (i32_or_0 frame_num) (default 0 long)
        (mkField top_poc (if top : bool then reference else Unused) top) (mkField bottom_poc (if bottom : bool then reference else Unused) bottom) false true)
  end.

(** What the next picture's order count derivation needs. *)
Definition carry_previous (d : Dpb) (sps : Sps) (c : Current) (h : SliceHeader) (frame_num top_poc bottom_poc : Z) : Dpb :=
  let v := dp_previous d in
  let v :=
    if cu_reference c then
      let v := v <| pv_ref_frame_num := frame_num |> <| pv_poc_msb := 0 |> <| pv_poc_lsb := 0 |> in
      if sp_pic_order_cnt_type sps =? 0 then
        let msb_of poc := if cu_mmco5 c then 0 else i32_or_0 (poc - sh_pic_order_cnt_lsb h) in
        let v := v <| pv_poc_msb := match cu_structure c with OneField BottomField => msb_of bottom_poc | _ => msb_of top_poc end |> in
        v <| pv_poc_lsb := if cu_mmco5 c then 0 else sh_pic_order_cnt_lsb h |>
      else v
    else v in
  let v := v <| pv_frame_num_offset := if cu_mmco5 c then 0 else frame_num_offset (d <| dp_previous := v |>) sps h |> in
  d <| dp_previous := v <| pv_frame_num := frame_num |> <| pv_mmco5 := cu_mmco5 c |>
    <| pv_mmco5_bottom := bool_decide (cu_structure c = OneField BottomField) |> <| pv_top_poc_after_mmco5 := top_poc |> |>.

Definition bump_as_needed (d : Dpb) (c : Current) (h : SliceHeader) : Dpb :=
  let poc := Z.min (cu_top_poc c) (cu_bottom_poc c) in
  let d :=
    if negb (dp_reorder_declared d) && negb (cu_idr c) then
      let d := if SliceType_is_b (sh_slice_type h) || match dp_previous_decoded_poc d with Some prev => 2 <? poc - prev | None => false end
               then d <| dp_reorder := Z.max (dp_reorder d) 1 |> else d in
      if match dp_last_output_poc d with Some last => poc <? last | None => false end then d <| dp_reorder := Z.min (dp_reorder d + 1) 16 |> else d
    else d in
  let d := d <| dp_previous_decoded_poc := Some poc |> in
  let d := bump_while BUMPS (fun d => dp_reorder d <? waiting_output d) d in
  bump_while BUMPS (fun d => Z.max (dp_capacity d) 1 <? entry_count d) d.

(** The entry a reset keeps back while what came before it leaves. *)
Fixpoint position_of (f : Entry -> bool) (entries : list (option Entry)) (i : Z) : option Z :=
  match entries with
  | [] => None
  | e :: entries => if match e with Some e => f e | None => false end then Some i else position_of f entries (i + 1)
  end.
Definition put_waiting (d : Dpb) (index : Z) (b : bool) : Dpb :=
  match get_at (dp_entries d) index with
  | Some (Some e) => d <| dp_entries := put_at (dp_entries d) index (Some (e <| en_output_needed := b |>)) |>
  | _ => d
  end.
Definition flush_before_reset (d : Dpb) (c : Current) : Dpb :=
  let keep := position_of (fun e => (en_slot e =? cu_slot c) && bool_decide (cu_pair_of c = None)) (dp_entries d) 0 in
  let d :=
    match keep with
    | None => Dpb_flush d
    | Some index =>
        let current_waiting := match get_at (dp_entries d) index with Some (Some e) => en_output_needed e | _ => false end in
        put_waiting (Dpb_flush (put_waiting d index false)) index current_waiting
    end in
  d <| dp_last_output_poc := None |>.

Definition Dpb_finish (d : Dpb) (sps : Sps) (c : Current) (h : SliceHeader) : Dpb * (ParseError + unit) :=
  let d := number_frames d sps c in
  let '(d, long) := apply_marking d sps c h in
  let temp := match cu_structure c with
              | WholeFrame => Z.min (cu_top_poc c) (cu_bottom_poc c)
              | OneField TopField => cu_top_poc c
              | OneField BottomField => cu_bottom_poc c
              end in
  let top_poc := if cu_mmco5 c then wrapping_i32 (cu_top_poc c - temp) else cu_top_poc c in
  let bottom_poc := if cu_mmco5 c then wrapping_i32 (cu_bottom_poc c - temp) else cu_bottom_poc c in
  let reference := if negb (cu_reference c) then Unused else if bool_decide (long = None) then ShortTerm else LongTermRef in
  let frame_num := if cu_mmco5 c then 0 else cu_frame_num c in
  match store_current d c frame_num top_poc bottom_poc reference long with
  | (d, inl e) => (d, inl e)
  | (d, inr _) =>
      let d := evict_while BUMPS (fun d => Z.max (dp_max_num_ref_frames d) 1 <? short_term_count d + long_term_count d) d in
      let d := carry_previous d sps c h frame_num top_poc bottom_poc in
      let d := if cu_mmco5 c then flush_before_reset d c else d in
      (bump_as_needed d c h, inr ())
  end.

Definition entry_slot (d : Dpb) (index : Z) : option Z := match get_at (dp_entries d) index with Some (Some e) => Some (en_slot e) | _ => None end.
