(* ===== verification/DpbSpec.v ===== *)
(** The H.264 picture buffer keeps its surfaces apart: a slot of the device belongs to
    one picture of the buffer, to one picture being decoded, or waits with one picture to
    be read back, whatever is decoded, marked, bumped or taken in whatever order; and the
    pictures that wait leave in order of their counts, none of them lost. *)

From S2P Require Import Prelude BitWriter BitReader H264Read Dpb.
From Stdlib Require Import Sorted.

(** ** What the buffer keeps *)

Definition slots (l : list Entry) : list Z := map en_slot l.
Definition dpb_slots (d : Dpb) : list Z := slots (held_entries d).
Definition queued (d : Dpb) : list Z := map ou_slot (dp_output d).
(** The pictures waiting for output, in the order of the entries. *)
Definition waiting_entries (d : Dpb) : list Entry := List.filter waiting (held_entries d).
Definition flag_set (flags : list bool) (s : Z) : Prop := 0 <= s /\ get_at flags s = Some true.

(** The buffer with slots [claimed] given to pictures not stored yet and slots [busy]
    with pictures the device still reads. *)
Record dpb_ok (claimed busy : list Z) (d : Dpb) : Prop := mkDpbOk {
  ok_entries : length (dp_entries d) = 18%nat;
  ok_flags : length (dp_slot_in_dpb d) = 18%nat /\ length (dp_slot_pending_output d) = 18%nat;
  ok_distinct : NoDup (dpb_slots d ++ claimed);
  ok_held : forall s, s ∈ dpb_slots d ++ claimed <-> flag_set (dp_slot_in_dpb d) s;
  ok_queue : NoDup (queued d ++ busy);
  ok_pending : forall s, s ∈ queued d ++ busy <-> flag_set (dp_slot_pending_output d) s;
  ok_waiting : forall e, e ∈ held_entries d -> waiting e = true -> en_slot e ∉ queued d ++ busy;
  ok_claimed : forall s, s ∈ claimed -> s ∉ queued d ++ busy;
}.

(** ** The fixed arrays *)

Lemma flatten_app a b : flatten_entries (a ++ b) = flatten_entries a ++ flatten_entries b.
Proof. apply omap_app. Qed.

#[local] Arguments flatten_entries : simpl never.
Lemma flatten_some e l : flatten_entries (Some e :: l) = e :: flatten_entries l.
Proof. done. Qed.
Lemma flatten_none l : flatten_entries (None :: l) = flatten_entries l.
Proof. done. Qed.

Lemma entry_split (l : list (option Entry)) i e : 0 <= i -> get_at l i = Some (Some e) ->
  exists l1 l2, l = l1 ++ Some e :: l2 /\ forall o, put_at l i o = l1 ++ o :: l2.
Proof.
  intros Hi H. unfold get_at in H. exists (take (Z.to_nat i) l), (drop (S (Z.to_nat i)) l). split.
  - symmetry. by apply take_drop_middle.
  - intros o. unfold put_at. apply insert_take_drop. by eapply lookup_lt_Some.
Qed.

Lemma get_release flags s s' : 0 <= s -> 0 <= s' -> (flag_set (release_slot flags s) s' <-> s <> s' /\ flag_set flags s').
Proof.
  intros Hs Hs'. unfold flag_set, release_slot. destruct (decide (s = s')) as [<-|Hne].
  - split; [|tauto]. intros [_ H]. exfalso. unfold get_at, put_at in H.
    destruct (decide (Z.to_nat s < length flags)%nat) as [Hl|Hl].
    + by rewrite list_lookup_insert_eq in H by lia.
    + rewrite lookup_ge_None_2 in H by (rewrite length_insert; lia). done.
  - rewrite get_put_at_ne by done. tauto.
Qed.

Lemma get_releases ss flags s : Forall (fun s => 0 <= s) ss -> 0 <= s ->
  (flag_set (foldl release_slot flags ss) s <-> s ∉ ss /\ flag_set flags s).
Proof.
  intros Hss Hs. revert flags. induction Hss as [|s' ss Hs' Hss IH]; intros flags; cbn [foldl].
  - split; [intros; split; [apply not_elem_of_nil|done]|tauto].
  - rewrite IH, get_release by done. rewrite not_elem_of_cons. naive_solver.
Qed.

Lemma length_releases ss flags : length (foldl release_slot flags ss) = length flags.
Proof. revert flags. induction ss as [|s ss IH]; intros flags; cbn; [done|]. rewrite IH. apply length_insert. Qed.

Lemma set_flag flags s s' : 0 <= s < zlen flags -> 0 <= s' -> (flag_set (put_at flags s true) s' <-> s' = s \/ flag_set flags s').
Proof.
  intros Hs Hs'. unfold flag_set. destruct (decide (s = s')) as [<-|Hne].
  - rewrite get_put_at_eq by done. naive_solver.
  - rewrite get_put_at_ne by lia. naive_solver.
Qed.

Lemma compact_entries_eq l flags :
  compact_entries l flags =
  (map (fun o => o ≫= fun e => if entry_done e then None else Some e) l, foldl release_slot flags (slots (List.filter entry_done (flatten_entries l)))).
Proof.
  revert flags. induction l as [|[e|] l IH]; intros flags; cbn [compact_entries]; [done| |].
  - rewrite flatten_some. cbn. destruct (entry_done e); cbn; by rewrite IH.
  - rewrite flatten_none. by rewrite IH.
Qed.

Lemma flatten_compact l :
  flatten_entries (map (fun o => o ≫= fun e => if entry_done e then None else Some e) l) = List.filter (fun e => negb (entry_done e)) (flatten_entries l).
Proof.
  induction l as [|[e|] l IH]; cbn [map]; [done| |].
  - rewrite flatten_some. cbn. destruct (entry_done e); cbn; by rewrite ?flatten_some, ?flatten_none, IH.
  - rewrite flatten_none. exact IH.
Qed.

Lemma clear_entries_eq l flags : clear_entries l flags = (map (fun _ => None) l, foldl release_slot flags (slots (flatten_entries l))).
Proof.
  revert flags. induction l as [|[e|] l IH]; intros flags; cbn [clear_entries]; [done| |]; rewrite ?flatten_some, ?flatten_none; by rewrite IH.
Qed.

Lemma elem_of_slots s l : s ∈ slots l <-> exists e, s = en_slot e /\ e ∈ l.
Proof. apply list_elem_of_fmap. Qed.
Lemma elem_of_lfilter (p : Entry -> bool) e l : e ∈ List.filter p l <-> e ∈ l /\ p e = true.
Proof. rewrite !list_elem_of_In. apply filter_In. Qed.

Lemma partition_slots (p : Entry -> bool) l : slots l ≡ₚ slots (List.filter p l) ++ slots (List.filter (fun e => negb (p e)) l).
Proof. induction l as [|e l IH]; [done|]. cbn. destruct (p e); cbn; rewrite IH; [done|]. by rewrite Permutation_middle. Qed.

(** ** Changes that move no slot *)

(** The same picture, which waits only if it waited. *)
Definition same_picture (e e' : Entry) : Prop := en_slot e' = en_slot e /\ (waiting e' = true -> waiting e = true).
#[local] Instance same_picture_preorder : PreOrder same_picture.
Proof. split; [by intros e|]. unfold same_picture. intros a b c [? ?] [? ?]. split; [congruence|tauto]. Qed.

Record keeps (d d' : Dpb) : Prop := mkKeeps {
  kp_length : length (dp_entries d') = length (dp_entries d);
  kp_held : Forall2 same_picture (held_entries d) (held_entries d');
  kp_in_dpb : dp_slot_in_dpb d' = dp_slot_in_dpb d;
  kp_pending : dp_slot_pending_output d' = dp_slot_pending_output d;
  kp_output : dp_output d' = dp_output d;
}.

Lemma keeps_same d d' :
  dp_entries d' = dp_entries d -> dp_slot_in_dpb d' = dp_slot_in_dpb d -> dp_slot_pending_output d' = dp_slot_pending_output d -> dp_output d' = dp_output d ->
  keeps d d'.
Proof.
  intros He Hi Hp Ho. split; rewrite ?He; try done. unfold held_entries. rewrite He. reflexivity.
Qed.

#[local] Instance keeps_preorder : PreOrder keeps.
Proof.
  split; [intros d; by apply keeps_same|].
  intros d1 d2 d3 [L1 H1 I1 P1 O1] [L2 H2 I2 P2 O2]. split; [congruence| |congruence..].
  by transitivity (held_entries d2).
Qed.

Lemma keeps_entries f d : (forall e, same_picture e (f e)) -> keeps d (on_entries f d).
Proof.
  intros Hf. split; try done; cbn; [apply length_map|]. unfold held_entries. cbn.
  induction (dp_entries d) as [|[e|] l IH]; cbn [map option_map]; [constructor| |]; rewrite ?flatten_some, ?flatten_none; [|done].
  constructor; [apply Hf|done].
Qed.

Lemma keeps_put d i e e' :
  0 <= i -> get_at (dp_entries d) i = Some (Some e) -> same_picture e e' ->
  keeps d (d <| dp_entries := put_at (dp_entries d) i (Some e') |>).
Proof.
  intros Hi He Hs. destruct (entry_split _ _ _ Hi He) as (l1 & l2 & El & Ep).
  split; try done; cbn; [apply length_insert|]. unfold held_entries. cbn. rewrite Ep, El, !flatten_app, !flatten_some.
  apply Forall2_app; [reflexivity|]. constructor; [done|reflexivity].
Qed.

Lemma keeps_slots d d' : keeps d d' -> dpb_slots d' = dpb_slots d.
Proof. intros K. unfold dpb_slots, slots. induction (kp_held _ _ K) as [|e e' l l' [He _] _ IH]; [done|]. cbn. by rewrite He, IH. Qed.

Lemma ok_keeps claimed busy d d' : keeps d d' -> dpb_ok claimed busy d -> dpb_ok claimed busy d'.
Proof.
  intros K [Hl Hf Hd Hh Hq Hp Hw Hc]. pose proof (keeps_slots _ _ K) as Es. unfold queued in *.
  split; unfold queued; rewrite ?Es, ?(kp_length _ _ K), ?(kp_in_dpb _ _ K), ?(kp_pending _ _ K), ?(kp_output _ _ K); try done.
  intros e' He' Ww. apply list_elem_of_lookup in He' as [j He'].
  destruct (Forall2_lookup_r _ _ _ _ _ (kp_held _ _ K) He') as (e & He & Hs & Hww). rewrite Hs. apply Hw; [by eapply list_elem_of_lookup_2|by apply Hww].
Qed.

(** ** Removing what is done *)

Lemma compact_entries_of d : dp_entries (Dpb_compact d) = map (fun o => o ≫= fun e => if entry_done e then None else Some e) (dp_entries d).
Proof. unfold Dpb_compact. by rewrite compact_entries_eq. Qed.
Lemma compact_held d : held_entries (Dpb_compact d) = List.filter (fun e => negb (entry_done e)) (held_entries d).
Proof. unfold held_entries. by rewrite compact_entries_of, flatten_compact. Qed.
Lemma compact_output d : dp_output (Dpb_compact d) = dp_output d.
Proof. unfold Dpb_compact. by rewrite compact_entries_eq. Qed.
Lemma compact_pending d : dp_slot_pending_output (Dpb_compact d) = dp_slot_pending_output d.
Proof. unfold Dpb_compact. by rewrite compact_entries_eq. Qed.
Lemma compact_in_dpb d : dp_slot_in_dpb (Dpb_compact d) = foldl release_slot (dp_slot_in_dpb d) (slots (List.filter entry_done (held_entries d))).
Proof. unfold Dpb_compact. by rewrite compact_entries_eq. Qed.

Lemma ok_released claimed busy d d' gone :
  dpb_ok claimed busy d -> dpb_slots d ≡ₚ gone ++ dpb_slots d' -> dp_slot_in_dpb d' = foldl release_slot (dp_slot_in_dpb d) gone ->
  length (dp_entries d') = length (dp_entries d) -> dp_slot_pending_output d' = dp_slot_pending_output d -> dp_output d' = dp_output d ->
  (forall e, e ∈ held_entries d' -> e ∈ held_entries d) -> dpb_ok claimed busy d'.
Proof.
  intros [Hl Hf Hd Hh Hq Hp Hw Hc] Hsplit Hflags Hl' Hp' Ho' He.
  rewrite Hsplit, <- app_assoc, list.NoDup_app in Hd. destruct Hd as (_ & Hgone & Hd).
  assert (Hall : forall s, s ∈ gone ++ dpb_slots d' ++ claimed <-> flag_set (dp_slot_in_dpb d) s) by (intros s; by rewrite <- Hh, Hsplit, app_assoc).
  assert (Hpos : Forall (fun s => 0 <= s) gone).
  { apply list.Forall_forall. intros s Hs. apply (Hall s). apply elem_of_app. by left. }
  split; unfold queued in *; rewrite ?Hl', ?Hp', ?Ho', ?Hflags, ?length_releases; try done; [|naive_solver].
  intros s. split.
  - intros Hs. assert (flag_set (dp_slot_in_dpb d) s) as Hset by (apply Hall, elem_of_app; by right).
    apply get_releases; [done|by destruct Hset|]. split; [|done]. intros Hg. by apply (Hgone s Hg).
  - intros Hs. assert (0 <= s) as H0 by by destruct Hs. apply get_releases in Hs as [Hn Hs]; [|done..].
    apply Hall in Hs. apply elem_of_app in Hs as [|]; [contradiction|done].
Qed.

Lemma ok_compact claimed busy d : dpb_ok claimed busy d -> dpb_ok claimed busy (Dpb_compact d).
Proof.
  intros Hd. eapply (ok_released _ _ _ _ _ Hd).
  - unfold dpb_slots. rewrite compact_held. apply partition_slots.
  - by rewrite compact_in_dpb.
  - rewrite compact_entries_of. apply length_map.
  - apply compact_pending.
  - apply compact_output.
  - intros e. rewrite compact_held. by intros [? _]%elem_of_lfilter.
Qed.

(** ** A waiting picture leaves *)

Definition let_go (d : Dpb) (i : Z) (e : Entry) : Dpb :=
  d <| dp_entries := put_at (dp_entries d) i (Some (e <| en_output_needed := false |>)) |>
    <| dp_slot_pending_output := put_at (dp_slot_pending_output d) (en_slot e) true |>
    <| dp_output := if zlen (dp_output d) <? MAX_FRAMES then dp_output d ++ [mkOutput (en_slot e) (Entry_poc e)] else dp_output d |>
    <| dp_last_output_poc := Some (Entry_poc e) |>.

(** The first entry of a kind with the smallest key, which is what both scans of the
    buffer look for. *)
Fixpoint least (p : Entry -> bool) (key : Entry -> Z) (entries : list (option Entry)) (i : Z) (best : option (Z * Z)) : option (Z * Z) :=
  match entries with
  | [] => best
  | e :: entries =>
      let best := match e with
                  | Some e => if p e && match best with None => true | Some (_, w) => key e <? w end then Some (i, key e) else best
                  | None => best
                  end in
      least p key entries (i + 1) best
  end.

Lemma least_spec (p : Entry -> bool) (key : Entry -> Z) l i best :
  (least p key l i best = best /\ forall e, e ∈ flatten_entries l -> p e = true -> exists j w, best = Some (j, w) /\ w <= key e) \/
  (exists e l1 l2, l = l1 ++ Some e :: l2 /\ least p key l i best = Some (i + zlen l1, key e) /\ p e = true /\
     (forall e', e' ∈ flatten_entries l -> p e' = true -> key e <= key e') /\
     match best with Some (_, w) => key e < w | None => True end).
Proof.
  revert i best. induction l as [|[e|] l IH]; intros i best; cbn [least].
  - left. split; [done|]. intros e H. by apply not_elem_of_nil in H.
  - rewrite flatten_some. destruct (p e && _) eqn:Ee.
    + apply andb_true_iff in Ee as [Ew Ep].
      destruct (IH (i + 1) (Some (i, key e))) as [[-> Hle]|(e' & l1 & l2 & -> & -> & Hw & Hmin & Hlt)].
      * right. exists e, [], l. split_and!; try done.
        -- by rewrite Z.add_0_r.
        -- intros e' [->|He']%elem_of_cons Hw'; [done|]. destruct (Hle e' He' Hw') as (j & w & Hj & Hp). congruence.
        -- destruct best as [[? w]|]; [|done]. by apply Z.ltb_lt.
      * right. exists e', (Some e :: l1), l2. split_and!; try done.
        -- do 2 f_equal. rewrite zlen_cons. lia.
        -- intros e2 [->|He2]%elem_of_cons Hw2; [lia|]. by apply Hmin.
        -- destruct best as [[? w]|]; [|done]. apply Z.ltb_lt in Ep. lia.
    + destruct (IH (i + 1) best) as [[-> Hle]|(e' & l1 & l2 & -> & -> & Hw & Hmin & Hlt)].
      * left. split; [done|]. intros e' [->|He']%elem_of_cons Hw'; [|by apply Hle]. rewrite Hw' in Ee. cbn in Ee.
        destruct best as [[j w]|]; [|done]. apply Z.ltb_ge in Ee. by exists j, w.
      * right. exists e', (Some e :: l1), l2. split_and!; try done.
        -- do 2 f_equal. rewrite zlen_cons. lia.
        -- intros e2 [->|He2]%elem_of_cons Hw2; [|by apply Hmin]. rewrite Hw2 in Ee. cbn in Ee.
           destruct best as [[j w]|]; [|done]. apply Z.ltb_ge in Ee. lia.
  - rewrite flatten_none. destruct (IH (i + 1) best) as [?|(e' & l1 & l2 & -> & -> & ? & ? & ?)]; [by left|].
    right. exists e', (None :: l1), l2. split_and!; try done. do 2 f_equal. rewrite zlen_cons. lia.
Qed.

Lemma best_waiting_least l i best : best_waiting l i best = least waiting Entry_poc l i best.
Proof. revert i best. induction l as [|e l IH]; intros i best; [done|]. cbn [best_waiting least]. apply IH. Qed.

Lemma oldest_short_least l i oldest : oldest_short l i oldest = least Entry_has_short en_frame_num_wrap l i oldest.
Proof. revert i oldest. induction l as [|e l IH]; intros i oldest; [done|]. cbn [oldest_short least]. apply IH. Qed.

(** A picture leaves as long as one waits: one with the smallest count. *)
Lemma bump_one_spec d :
  (bump_one d = (d, false) /\ waiting_entries d = []) \/
  (exists i e, 0 <= i /\ get_at (dp_entries d) i = Some (Some e) /\ waiting e = true /\ bump_one d = (Dpb_compact (let_go d i e), true) /\
     forall e', e' ∈ waiting_entries d -> Entry_poc e <= Entry_poc e').
Proof.
  unfold bump_one, waiting_entries, held_entries. rewrite best_waiting_least. destruct (least_spec waiting Entry_poc (dp_entries d) 0 None) as [[-> Hn]|(e & l1 & l2 & El & -> & Hw & Hmin & _)].
  - left. split; [done|]. destruct (List.filter waiting _) as [|e l] eqn:Ef; [done|]. exfalso.
    assert (e ∈ List.filter waiting (flatten_entries (dp_entries d))) as [He Hw]%elem_of_lfilter by (rewrite Ef; by left).
    by destruct (Hn e He Hw) as (? & ? & ? & _).
  - right. assert (get_at (dp_entries d) (zlen l1) = Some (Some e)) as Hg by (rewrite El; by apply get_at_mid).
    exists (zlen l1), e. rewrite Z.add_0_l, Hg. split_and!; try done; [apply zlen_nonneg|].
    intros e' [He' Hw']%elem_of_lfilter. by apply Hmin.
Qed.

Lemma slots_bound (l : list Z) : NoDup l -> (forall s, s ∈ l -> 0 <= s < 18) -> zlen l <= 18.
Proof.
  intros Hn Hb. assert (l ⊆+ seqZ 0 18) as Hs by (apply NoDup_submseteq; [done|]; intros s Hs; apply elem_of_seqZ; by apply Hb in Hs).
  apply submseteq_length in Hs. rewrite length_seqZ in Hs. unfold zlen. lia.
Qed.

Lemma flag_range flags s : length flags = 18%nat -> flag_set flags s -> 0 <= s < 18.
Proof. intros Hl [H0 Hs]. apply get_at_lt in Hs; [|done]. unfold zlen in Hs. lia. Qed.

Lemma queue_room claimed busy d s : dpb_ok claimed busy d -> 0 <= s < 18 -> s ∉ queued d ++ busy -> zlen (dp_output d) < MAX_FRAMES.
Proof.
  intros [_ [_ Hf] _ _ Hq Hp _ _] Hs Hn.
  assert (zlen (s :: queued d ++ busy) <= 18) as Hb.
  { apply slots_bound; [by constructor|]. intros s' [->|Hs']%elem_of_cons; [done|]. apply Hp in Hs'. by apply (flag_range _ _ Hf). }
  unfold queued, zlen in *. cbn [length] in Hb. rewrite length_app, length_map in Hb. unfold MAX_FRAMES. lia.
Qed.

Lemma queue_push claimed busy d s poc :
  dpb_ok claimed busy d -> 0 <= s < 18 -> s ∉ queued d ++ busy -> s ∉ claimed -> (forall e, e ∈ held_entries d -> waiting e = true -> en_slot e <> s) ->
  dpb_ok claimed busy
    (d <| dp_slot_pending_output := put_at (dp_slot_pending_output d) s true |> <| dp_output := dp_output d ++ [mkOutput s poc] |> <| dp_last_output_poc := Some poc |>).
Proof.
  intros [Hl Hf Hd Hh Hq Hp Hw Hc] Hs Hn Hnc Hne.
  assert (Hin : forall s', s' ∈ queued d ++ s :: busy <-> s' = s \/ s' ∈ queued d ++ busy).
  { intros s'. rewrite <- Permutation_middle, elem_of_cons. done. }
  split; unfold queued in *; cbn; rewrite ?map_app, <- ?app_assoc; cbn; try done.
  - unfold put_at. by rewrite length_insert.
  - rewrite <- Permutation_middle. by constructor.
  - intros s'. rewrite Hin, Hp. split.
    + intros [->|H]; (apply set_flag; [unfold zlen; lia|..]); [lia|by left|by destruct H|by right].
    + intros H. assert (0 <= s') by by destruct H. apply set_flag in H; [done|unfold zlen; lia|done].
  - intros e He Ww. rewrite Hin. intros [E|H]; [by apply (Hne e)|by apply (Hw e)].
  - intros s' Hs'. rewrite Hin. intros [->|H]; [contradiction|by apply (Hc s')].
Qed.

Lemma entry_range claimed busy d e : dpb_ok claimed busy d -> e ∈ held_entries d -> 0 <= en_slot e < 18.
Proof.
  intros [_ [Hf _] _ Hh _ _ _ _] He. apply (flag_range (dp_slot_in_dpb d)); [done|]. apply Hh, elem_of_app. left.
  apply elem_of_slots. by exists e.
Qed.

Lemma get_held d i e : 0 <= i -> get_at (dp_entries d) i = Some (Some e) -> e ∈ held_entries d.
Proof.
  intros Hi He. destruct (entry_split _ _ _ Hi He) as (l1 & l2 & El & _). unfold held_entries. rewrite El, flatten_app, flatten_some.
  apply elem_of_app. right. by left.
Qed.

Lemma slots_unique d claimed busy l1 e l2 : dpb_ok claimed busy d -> dp_entries d = l1 ++ Some e :: l2 ->
  en_slot e ∉ slots (flatten_entries (l1 ++ l2)) ++ claimed.
Proof.
  intros [_ _ Hd _ _ _ _ _] El. unfold dpb_slots, held_entries, slots in *. rewrite El, !flatten_app, flatten_some, !map_app in *. cbn [map] in Hd.
  rewrite <- app_assoc in Hd. cbn [app] in Hd. rewrite <- Permutation_middle, app_assoc in Hd. by apply list.NoDup_cons in Hd as [? _].
Qed.

Lemma ok_let_go claimed busy d i e : dpb_ok claimed busy d -> 0 <= i -> get_at (dp_entries d) i = Some (Some e) -> waiting e = true ->
  dpb_ok claimed busy (let_go d i e) /\ dp_output (let_go d i e) = dp_output d ++ [mkOutput (en_slot e) (Entry_poc e)].
Proof.
  intros Hd Hi He Hw. pose proof (get_held _ _ _ Hi He) as Hin. pose proof (entry_range _ _ _ _ Hd Hin) as Hr.
  pose proof (ok_waiting _ _ _ Hd e Hin Hw) as Hnq. pose proof (queue_room _ _ _ _ Hd Hr Hnq) as Hroom. apply Z.ltb_lt in Hroom.
  unfold let_go. cbn. rewrite Hroom. split; [|done].
  set (d1 := d <| dp_entries := put_at (dp_entries d) i (Some (e <| en_output_needed := false |>)) |>).
  assert (dpb_ok claimed busy d1) as Hd1 by (apply (ok_keeps _ _ d); [by apply (keeps_put d i e)|done]).
  apply (queue_push _ _ d1 (en_slot e) (Entry_poc e)); [done..| |].
  - destruct (entry_split _ _ _ Hi He) as (l1 & l2 & El & _). intros Hc. apply (slots_unique _ _ _ _ _ _ Hd El), elem_of_app. by right.
  - intros e' He' Hw' Es. destruct (entry_split _ _ _ Hi He) as (l1 & l2 & El & Ep). pose proof (slots_unique _ _ _ _ _ _ Hd El) as Hu.
    unfold held_entries, d1 in He'. cbn in He'. rewrite Ep, flatten_app, flatten_some, elem_of_app, elem_of_cons in He'.
    destruct He' as [He'|[->|He']]; [|done|]; apply Hu, elem_of_app; left; rewrite <- Es; apply elem_of_slots; exists e';
      (split; [done|]); rewrite flatten_app; apply elem_of_app; auto.
Qed.

Lemma ok_bump_one claimed busy d : dpb_ok claimed busy d -> dpb_ok claimed busy (fst (bump_one d)).
Proof.
  intros Hd. destruct (bump_one_spec d) as [[-> _]|(i & e & Hi & He & Hw & -> & _)]; [done|]. apply ok_compact. by apply ok_let_go.
Qed.

(** Whatever a turn keeps, the loop keeps. *)
Lemma bump_while_keeps (P : Dpb -> Prop) : (forall d, P d -> P (fst (bump_one d))) -> forall fuel c d, P d -> P (bump_while fuel c d).
Proof.
  intros Hb. induction fuel as [|fuel IH]; intros c d Hd; cbn [bump_while]; [done|]. destruct (c d); [|done].
  specialize (Hb d Hd). destruct (bump_one d) as [d' [|]]; [by apply IH|done].
Qed.
Lemma ok_bump_while claimed busy fuel c d : dpb_ok claimed busy d -> dpb_ok claimed busy (bump_while fuel c d).
Proof. apply bump_while_keeps. apply ok_bump_one. Qed.

(** ** Slots given and taken *)

Lemma flag_clear flags s : length flags = 18%nat -> 0 <= s < 18 -> negb (default true (get_at flags s)) = true <-> ~ flag_set flags s.
Proof.
  intros Hl Hs. destruct (get_at_Some flags s) as [[|] Hv]; [unfold zlen; lia|..]; unfold flag_set; rewrite Hv; cbn; naive_solver.
Qed.

Lemma free_slot_spec claimed busy d s : dpb_ok claimed busy d -> free_slot d = Some s ->
  0 <= s < 18 /\ s ∉ dpb_slots d ++ claimed /\ s ∉ queued d ++ busy.
Proof.
  intros [_ [Hf1 Hf2] _ Hh _ Hp _ _] [Hin Hfree]%find_some. apply in_map_iff in Hin as (n & <- & Hn%in_seq).
  apply andb_true_iff in Hfree as [H1 H2]. apply (flag_clear _ _ Hf1) in H1; [|lia]. apply (flag_clear _ _ Hf2) in H2; [|lia].
  split; [lia|]. by rewrite Hh, Hp.
Qed.

Definition claim_ok (claimed busy : list Z) (p : Dpb * (ParseError + Z)) : Prop :=
  match p with (d, inl _) => dpb_ok claimed busy d | (d, inr s) => dpb_ok (s :: claimed) busy d end.

Lemma ok_claim claimed busy d : dpb_ok claimed busy d -> claim_ok claimed busy (claim_slot d).
Proof.
  intros Hd. unfold claim_slot. apply (ok_bump_while _ _ BUMPS no_room) in Hd. revert Hd. generalize (bump_while BUMPS no_room d) as d'. clear d. intros d Hd.
  destruct (free_slot _) as [s|] eqn:Ef; [|done]. cbn.
  destruct (free_slot_spec _ _ _ _ Hd Ef) as (Hs & Hn & Hq). destruct Hd as [Hl Hf Hd Hh Hqu Hp Hw Hc].
  split; cbn; try done.
  - by unfold put_at; rewrite length_insert.
  - change (dpb_slots (_ <| dp_slot_in_dpb := _ |>)) with (dpb_slots d). rewrite <- Permutation_middle. by constructor.
  - intros s'. change (dpb_slots (_ <| dp_slot_in_dpb := _ |>)) with (dpb_slots d).
    rewrite <- Permutation_middle, elem_of_cons, Hh. split.
    + intros [->|H]; (apply set_flag; [unfold zlen; lia|..]); [lia|by left|by destruct H|by right].
    + intros H. assert (0 <= s') by by destruct H. apply set_flag in H; [done|unfold zlen; lia|done].
  - intros s' [->|Hs']%elem_of_cons; [done|by apply Hc].
Qed.

Lemma insert_entry_spec l e : (exists l1 l2, l = l1 ++ None :: l2 /\ insert_entry l e = Some (l1 ++ Some e :: l2)) \/ length (flatten_entries l) = length l.
Proof.
  induction l as [|[x|] l [(l1 & l2 & -> & IH)|IH]]; [by right|..]; cbn.
  - left. exists (Some x :: l1), l2. by rewrite IH.
  - right. rewrite flatten_some. cbn. by rewrite IH.
  - left. by exists [], (l1 ++ None :: l2).
  - left. by exists [], l.
Qed.

(** A claimed slot always finds a place in the buffer. *)
Lemma ok_insert claimed busy d e : dpb_ok (en_slot e :: claimed) busy d -> exists d', Dpb_insert d e = (d', inr ()) /\ dpb_ok claimed busy d' /\
  exists l1 l2, dp_entries d = l1 ++ None :: l2 /\ d' = d <| dp_entries := l1 ++ Some e :: l2 |>.
Proof.
  intros [Hl Hf Hd Hh Hq Hp Hw Hc]. unfold Dpb_insert. destruct (insert_entry_spec (dp_entries d) e) as [(l1 & l2 & El & Ei)|Hfull].
  - rewrite Ei. eexists. split; [done|]. split; [|by exists l1, l2].
    assert (Hs : forall d', dp_entries d' = l1 ++ Some e :: l2 -> dpb_slots d' ++ claimed ≡ₚ dpb_slots d ++ en_slot e :: claimed).
    { intros d' Hd'. unfold dpb_slots, held_entries. rewrite Hd', El, !flatten_app, flatten_some, flatten_none. unfold slots. rewrite !map_app. cbn.
      rewrite <- !app_assoc. cbn. rewrite !Permutation_middle. done. }
    split; cbn; try done.
    + rewrite El, !length_app in Hl. rewrite length_app. done.
    + by rewrite Hs.
    + intros s. rewrite Hs by done. apply Hh.
    + intros e' He' Hw'. unfold held_entries in He'. cbn in He'. rewrite flatten_app, flatten_some, elem_of_app, elem_of_cons in He'.
      destruct He' as [He'|[->|He']]; [|apply Hc; by left|]; (apply Hw; [|done]); unfold held_entries; rewrite El, flatten_app, flatten_none; apply elem_of_app; auto.
    + intros s Hs'. apply Hc. by right.
  - exfalso. assert (zlen (dpb_slots d ++ en_slot e :: claimed) <= 18) as Hb.
    { apply slots_bound; [done|]. intros s Hs. apply Hh in Hs. by apply (flag_range _ _ (proj1 Hf)). }
    unfold zlen, dpb_slots, slots, held_entries in Hb. rewrite length_app, length_map in Hb. cbn in Hb. lia.
Qed.

(** ** Marking moves no slot *)

Lemma ok_fields claimed busy d d' :
  dp_entries d' = dp_entries d -> dp_slot_in_dpb d' = dp_slot_in_dpb d -> dp_slot_pending_output d' = dp_slot_pending_output d -> dp_output d' = dp_output d ->
  dpb_ok claimed busy d -> dpb_ok claimed busy d'.
Proof. intros. by apply (ok_keeps _ _ d); [apply keeps_same|]. Qed.

Lemma ok_on_entries claimed busy f d : (forall e, same_picture e (f e)) -> dpb_ok claimed busy d -> dpb_ok claimed busy (on_entries f d).
Proof. intros Hf. apply ok_keeps. by apply keeps_entries. Qed.

Lemma same_put_field e p f : same_picture e (put_field e p f).
Proof. by destruct p. Qed.
Lemma same_if (b : bool) e e1 e2 : same_picture e e1 -> same_picture e e2 -> same_picture e (if b then e1 else e2).
Proof. by destruct b. Qed.
Lemma same_trans e e1 e2 : same_picture e e1 -> same_picture e1 e2 -> same_picture e e2.
Proof. by transitivity e1. Qed.
Lemma same_fields (l : list Parity) (h : Entry -> Parity -> bool) (m : Field -> Field) e :
  same_picture e (foldl (fun e p => if h e p then put_field e p (m (Entry_field e p)) else e) e l).
Proof.
  revert e. induction l as [|p l IH]; intros e; cbn; [done|]. eapply same_trans; [|apply IH]. apply same_if; [apply same_put_field|done].
Qed.

Lemma ok_number_frames claimed busy d sps c : dpb_ok claimed busy d -> dpb_ok claimed busy (number_frames d sps c).
Proof. apply ok_on_entries. done. Qed.

Lemma oldest_short_index l i oldest r : 0 <= i -> (forall j w, oldest = Some (j, w) -> 0 <= j) -> oldest_short l i oldest = r -> forall j w, r = Some (j, w) -> 0 <= j.
Proof.
  revert i oldest. induction l as [|e l IH]; intros i oldest Hi Ho; cbn [oldest_short]; [intros <-; exact Ho|]. apply IH; [lia|].
  destruct e as [e|]; [|exact Ho]. destruct (Entry_has_short e && _); [|exact Ho]. naive_solver.
Qed.

Lemma ok_put_entry claimed busy d i f : 0 <= i -> (forall e, same_picture e (f e)) -> dpb_ok claimed busy d ->
  dpb_ok claimed busy match get_at (dp_entries d) i with Some (Some e) => d <| dp_entries := put_at (dp_entries d) i (Some (f e)) |> | _ => d end.
Proof.
  intros Hi Hf Hd. destruct (get_at (dp_entries d) i) as [[e|]|] eqn:He; [|done..]. apply (ok_keeps _ _ d); [|done]. apply (keeps_put _ _ e); [done..|apply Hf].
Qed.

Lemma ok_evict claimed busy d : dpb_ok claimed busy d -> dpb_ok claimed busy (fst (evict_oldest_short d)).
Proof.
  intros Hd. unfold evict_oldest_short. destruct (oldest_short _ _ _) as [[i w]|] eqn:Eo; [|done]. apply ok_compact.
  apply (ok_put_entry _ _ d i (each_field (unmark_kind ShortTerm))); [|done|done].
  by eapply (oldest_short_index _ 0 None _ _ _ Eo).
  Unshelve. all: done.
Qed.

Lemma evict_while_keeps (P : Dpb -> Prop) : (forall d, P d -> P (fst (evict_oldest_short d))) -> forall fuel c d, P d -> P (evict_while fuel c d).
Proof.
  intros Hb. induction fuel as [|fuel IH]; intros c d Hd; cbn [evict_while]; [done|]. destruct (c d); [|done].
  specialize (Hb d Hd). destruct (evict_oldest_short d) as [d' [|]]; [by apply IH|done].
Qed.
Lemma ok_evict_while claimed busy fuel c d : dpb_ok claimed busy d -> dpb_ok claimed busy (evict_while fuel c d).
Proof. apply evict_while_keeps. apply ok_evict. Qed.

Lemma ok_unmark_long claimed busy d idx except : dpb_ok claimed busy d -> dpb_ok claimed busy (unmark_long_term_idx d idx except).
Proof. apply ok_on_entries. intros e. by apply same_if. Qed.

Lemma ok_mmco claimed busy d sps c op long : dpb_ok claimed busy d -> dpb_ok claimed busy (fst (apply_mmco d sps c op long)).
Proof.
  intros Hd. unfold apply_mmco. destruct (pic_nums sps c) as [max_ curr]. destruct op as [diff|n|diff idx|plus1| |idx]; apply ok_compact.
  - apply ok_on_entries; [|done]. intros e. destruct (cu_structure c); [by apply same_if|]. apply same_fields.
  - apply ok_on_entries; [|done]. intros e. destruct (cu_structure c); [by apply same_if|]. apply same_fields.
  - apply ok_on_entries; [|by apply ok_unmark_long]. intros e. apply same_if; [|done]. unfold to_long.
    eapply same_trans; [|by split]. destruct (cu_structure c); [done|]. apply same_fields.
  - apply ok_on_entries; [intros e; by apply same_if|]. eapply ok_fields; [..|exact Hd]; done.
  - eapply ok_fields; [..|apply (ok_on_entries _ _ (each_field (mark Unused)) d); [done|exact Hd]]; done.
  - by apply ok_unmark_long.
Qed.

Lemma ok_marking claimed busy d sps c h : dpb_ok claimed busy d -> dpb_ok claimed busy (fst (apply_marking d sps c h)).
Proof.
  intros Hd. unfold apply_marking. destruct (negb _); [done|]. destruct (sh_marking h) as [|? ?| |ops]; cbn [fst].
  - case_match; [done|by apply ok_evict_while].
  - eapply ok_fields; [..|exact Hd]; done.
  - case_match; [done|by apply ok_evict_while].
  - unfold apply_mmcos. assert (forall p, dpb_ok claimed busy (fst p) -> dpb_ok claimed busy (fst (foldl (fun p op => apply_mmco (fst p) sps c op (snd p)) p ops))) as H; [|by apply (H (d, None))].
    induction ops as [|op ops IH]; intros p Hp; cbn [foldl]; [done|]. apply IH. by apply ok_mmco.
Qed.

(** ** The references *)

(** The reference pictures, whether or not they wait for output. *)
Definition erased (e : Entry) : Entry := e <| en_output_needed := false |>.
Definition refs_of (l : list Entry) : list Entry := map erased (List.filter Entry_is_reference l).
Definition references (d : Dpb) : list Entry := refs_of (held_entries d).

Lemma refs_of_app a b : refs_of (a ++ b) = refs_of a ++ refs_of b.
Proof. unfold refs_of. by rewrite List.filter_app, map_app. Qed.
Lemma refs_of_cons e l : refs_of (e :: l) = refs_of [e] ++ refs_of l.
Proof. apply (refs_of_app [e]). Qed.
Lemma references_split d l1 e l2 : dp_entries d = l1 ++ Some e :: l2 -> references d = refs_of (flatten_entries l1) ++ refs_of [e] ++ refs_of (flatten_entries l2).
Proof. intros E. unfold references, held_entries. by rewrite E, flatten_app, flatten_some, refs_of_app, refs_of_cons. Qed.

Lemma references_compact d : references (Dpb_compact d) = references d.
Proof.
  unfold references. rewrite compact_held. unfold refs_of, entry_done. induction (held_entries d) as [|e l IH]; [done|]. cbn.
  destruct (Entry_is_reference e) eqn:Er; cbn; [by rewrite Er; cbn; rewrite IH|]. destruct (en_output_needed e); cbn; [by rewrite Er|done].
Qed.

Lemma references_bump d : references (fst (bump_one d)) = references d.
Proof.
  destruct (bump_one_spec d) as [[-> _]|(i & e & Hi & He & _ & -> & _)]; [done|]. cbn [fst]. rewrite references_compact.
  destruct (entry_split _ _ _ Hi He) as (l1 & l2 & El & Ep). rewrite (references_split d l1 e l2 El).
  rewrite (references_split (let_go d i e) l1 (erased e) l2) by apply Ep.
  assert (refs_of [erased e] = refs_of [e]) as -> by (unfold refs_of; cbn; change (Entry_is_reference (erased e)) with (Entry_is_reference e); by destruct (Entry_is_reference e)).
  done.
Qed.

Lemma references_claim d : references (fst (claim_slot d)) = references d.
Proof.
  unfold claim_slot. assert (references (bump_while BUMPS no_room d) = references d) as <-
    by (apply (bump_while_keeps (fun d' => references d' = references d)); [|done]; intros d' <-; apply references_bump).
  by destruct (free_slot _).
Qed.

Lemma claim_max d : dp_max_num_ref_frames (fst (claim_slot d)) = dp_max_num_ref_frames d.
Proof.
  unfold claim_slot. assert (dp_max_num_ref_frames (bump_while BUMPS no_room d) = dp_max_num_ref_frames d) as <-.
  { apply (bump_while_keeps (fun d' => dp_max_num_ref_frames d' = dp_max_num_ref_frames d)); [|done]. intros d' <-.
    destruct (bump_one_spec d') as [[-> _]|(i & e & _ & _ & _ & -> & _)]; [done|]. unfold Dpb_compact. by rewrite compact_entries_eq. }
  by destruct (free_slot _).
Qed.

(** Entries that count as short-term or long-term references. *)
Definition ref_count (l : list Entry) : Z := zlen (List.filter Entry_has_short l) + zlen (List.filter Entry_has_long l).

Lemma refs_of_filter (f : Entry -> bool) l :
  (forall e, f e = true -> Entry_is_reference e = true) -> (forall e, f (erased e) = f e) -> zlen (List.filter f (refs_of l)) = zlen (List.filter f l).
Proof.
  intros Hf He. induction l as [|e l IH]; [done|]. rewrite refs_of_cons, List.filter_app, zlen_app, IH. unfold refs_of. cbn.
  destruct (Entry_is_reference e) eqn:Er; cbn; [rewrite He|].
  - destruct (f e); cbn; rewrite ?zlen_cons; change (zlen (@nil Entry)) with 0; lia.
  - destruct (f e) eqn:Ef; [by rewrite (Hf e Ef) in Er|done].
Qed.

Lemma short_reference e : Entry_has_short e = true -> Entry_is_reference e = true.
Proof. unfold Entry_has_short, Entry_is_reference, fd_is. by destruct (fd_reference (en_top e)), (fd_reference (en_bottom e)). Qed.
Lemma long_reference e : Entry_has_long e = true -> Entry_is_reference e = true.
Proof. unfold Entry_has_long, Entry_is_reference, fd_is. by destruct (fd_reference (en_top e)), (fd_reference (en_bottom e)). Qed.

Lemma ref_count_eq d : short_term_count d + long_term_count d = ref_count (references d).
Proof.
  unfold short_term_count, long_term_count, ref_count, references. rewrite !refs_of_filter; try done; [apply long_reference|apply short_reference].
Qed.

Lemma filter_perm (f : Entry -> bool) l l' : l ≡ₚ l' -> List.filter f l ≡ₚ List.filter f l'.
Proof. induction 1 as [|x l l' _ IH|x y l|l l' l'' _ IH1 _ IH2]; cbn; [done| | |by rewrite IH1]; destruct (f x); try destruct (f y); rewrite ?IH; try done; constructor. Qed.
Lemma zlen_perm {A} (l l' : list A) : l ≡ₚ l' -> zlen l = zlen l'.
Proof. intros H. unfold zlen. by rewrite (Permutation_length H). Qed.
Lemma ref_count_perm l l' : l ≡ₚ l' -> ref_count l = ref_count l'.
Proof. intros H. unfold ref_count. by rewrite !(zlen_perm _ _ (filter_perm _ _ _ H)). Qed.
Lemma ref_count_cons e l : ref_count (e :: l) = ref_count [e] + ref_count l.
Proof. unfold ref_count. cbn. destruct (Entry_has_short e), (Entry_has_long e); cbn; rewrite ?zlen_cons; change (zlen (@nil Entry)) with 0; lia. Qed.

Definition unmarked (e : Entry) : Entry := each_field (unmark_kind ShortTerm) e.
Lemma unmarked_count e : Entry_has_short e = true -> ref_count (refs_of [unmarked e]) = ref_count [e] - 1.
Proof. destruct e as [? ? ? ? [? [] ?] [? [] ?] ? ?]; intros H; try discriminate H; reflexivity. Qed.

(** Evicting takes the marks from a short-term reference with the smallest number. *)
Lemma evict_references d :
  (List.filter Entry_has_short (references d) = [] /\ evict_oldest_short d = (d, false)) \/
  (exists e rest d', evict_oldest_short d = (d', true) /\ references d ≡ₚ e :: rest /\ references d' ≡ₚ refs_of [unmarked e] ++ rest /\
     Entry_has_short e = true /\ (forall e', e' ∈ references d -> Entry_has_short e' = true -> en_frame_num_wrap e <= en_frame_num_wrap e') /\
     dp_max_num_ref_frames d' = dp_max_num_ref_frames d).
Proof.
  assert (forall e, e ∈ references d -> Entry_has_short e = true ->
    exists e0, e0 ∈ flatten_entries (dp_entries d) /\ Entry_has_short e0 = true /\ en_frame_num_wrap e0 = en_frame_num_wrap e) as Hback.
  { intros e He Hs. apply list_elem_of_fmap in He as (e0 & -> & [He0 _]%elem_of_lfilter). by exists e0. }
  unfold evict_oldest_short. rewrite oldest_short_least.
  destruct (least_spec Entry_has_short en_frame_num_wrap (dp_entries d) 0 None) as [[-> Hn]|(e & l1 & l2 & El & -> & Hs & Hmin & _)].
  - left. split; [|done]. destruct (List.filter Entry_has_short (references d)) as [|e l] eqn:Ef; [done|]. exfalso.
    assert (e ∈ List.filter Entry_has_short (references d)) as [He Hs]%elem_of_lfilter by (rewrite Ef; by left).
    destruct (Hback e He Hs) as (e0 & H0 & Hs0 & _). by destruct (Hn e0 H0 Hs0) as (? & ? & ? & _).
  - right. assert (get_at (dp_entries d) (zlen l1) = Some (Some e)) as Hg by (rewrite El; by apply get_at_mid). rewrite Z.add_0_l, Hg.
    destruct (entry_split _ _ _ (zlen_nonneg l1) Hg) as (k1 & k2 & Ek & Ep). pose proof (references_split d k1 e k2 Ek) as Er.
    assert (refs_of [e] = [erased e]) as Ee by (unfold refs_of; cbn; by rewrite (short_reference e Hs)). rewrite Ee in Er.
    exists (erased e), (refs_of (flatten_entries k1) ++ refs_of (flatten_entries k2)). eexists. split; [reflexivity|].
    split; [rewrite Er; cbn [app]; symmetry; apply Permutation_middle|]. split; [|split; [done|split]].
    + rewrite references_compact. erewrite references_split by (cbn; apply Ep). rewrite !app_assoc. apply Permutation_app_tail.
      rewrite Permutation_app_comm. apply Permutation_app_tail. unfold refs_of, unmarked. cbn.
      change (Entry_is_reference (each_field (unmark_kind ShortTerm) (erased e))) with (Entry_is_reference (each_field (unmark_kind ShortTerm) e)).
      by destruct (Entry_is_reference _).
    + intros e' He' Hs'. destruct (Hback e' He' Hs') as (e0 & H0 & Hs0 & <-). by apply Hmin.
    + unfold Dpb_compact. by rewrite compact_entries_eq.
Qed.

(** ** Beginning a picture *)

Lemma ok_flush claimed busy d : dpb_ok claimed busy d -> dpb_ok claimed busy (Dpb_flush d).
Proof. apply ok_bump_while. Qed.

Lemma ok_discard claimed busy d : dpb_ok claimed busy d -> dpb_ok claimed busy (discard_waiting d).
Proof. intros Hd. apply ok_compact, ok_on_entries; [|done]. intros e. by split. Qed.

Lemma ok_begin_idr claimed busy d h : dpb_ok claimed busy d -> dpb_ok claimed busy (begin_idr d h).
Proof.
  intros Hd. unfold begin_idr. eapply (ok_fields _ _ (Dpb_compact _)); [reflexivity..|]. apply ok_compact.
  assert (dpb_ok claimed busy (on_entries (each_field (mark Unused)) d)) by by apply ok_on_entries.
  destruct (match sh_marking h with MarkingIdr true _ => true | _ => false end); [by apply ok_discard|by apply ok_flush].
Qed.

Lemma ok_fill claimed busy fuel d max frame_num unused inserted :
  dpb_ok claimed busy d -> dpb_ok claimed busy (fst (fill_loop fuel d max frame_num unused inserted)).
Proof.
  revert d unused inserted. induction fuel as [|fuel IH]; intros d unused inserted Hd; cbn [fill_loop]; [done|].
  case_match; [done|]. case_match; [done|]. assert (dpb_ok claimed busy (sliding_window d)) as Hw by by apply ok_evict_while.
  pose proof (ok_claim _ _ _ Hw) as Hc. destruct (claim_slot (sliding_window d)) as [d' [e|s]]; [exact Hc|]. cbn in Hc.
  destruct (ok_insert _ _ _ (gap_entry s unused) Hc) as (d2 & -> & Hd2 & _). apply IH. eapply ok_fields; [..|exact Hd2]; done.
Qed.

Lemma ok_fill_gap claimed busy d sps h : dpb_ok claimed busy d -> dpb_ok claimed busy (fst (fill_gap d sps h)).
Proof. intros Hd. unfold fill_gap. case_match; [done|]. case_match; [done|]. by apply ok_fill. Qed.

(** The slot a begun picture has been given, unless it is a second field's. *)
Definition given (c : Current) : list Z := match cu_pair_of c with None => [cu_slot c] | Some _ => [] end.
(** A second field goes where its first is. *)
Definition paired (d : Dpb) (c : Current) : Prop :=
  forall i, cu_pair_of c = Some i -> 0 <= i /\ exists e, get_at (dp_entries d) i = Some (Some e) /\ en_slot e = cu_slot c.

Lemma latest_pair_index h p l i latest j e : 0 <= i -> (forall j e, latest = Some (j, e) -> 0 <= j) -> latest_pair h p l i latest = Some (j, e) -> 0 <= j.
Proof.
  revert i latest. induction l as [|[x|] l IH]; intros i latest Hi Hl; cbn [latest_pair]; [apply Hl|apply IH; [lia|]..]; [|exact Hl].
  destruct (dpb_pairs h p x); [naive_solver|exact Hl].
Qed.

Lemma pair_of_index d h p i : pair_of d h p = Some i -> 0 <= i.
Proof.
  unfold pair_of. destruct (SliceHeader_is_idr h); [done|]. destruct (latest_pair _ _ _ _ _) as [[j e]|] eqn:El; [|done].
  destruct (_ || _); [|done]. intros [= <-]. by apply (latest_pair_index h p (dp_entries d) 0 None j e).
Qed.

Definition begin_ok (claimed busy : list Z) (p : Dpb * (ParseError + Current)) : Prop :=
  match p with (d, inl _) => dpb_ok claimed busy d | (d, inr c) => dpb_ok (given c ++ claimed) busy d /\ paired d c end.

Lemma ok_begin claimed busy d sps h : dpb_ok claimed busy d -> begin_ok claimed busy (Dpb_begin d sps h).
Proof.
  intros Hd. unfold Dpb_begin. set (d1 := if SliceHeader_is_idr h then begin_idr d h else d).
  assert (dpb_ok claimed busy d1) as Hd1 by (unfold d1; case_match; [by apply ok_begin_idr|done]). clearbody d1.
  set (pair := match structure_of h with OneField parity => pair_of d1 h parity | WholeFrame => None end).
  assert (forall i, pair = Some i -> 0 <= i) as Hp by (unfold pair; case_match; [done|]; intros i; apply pair_of_index).
  assert (dpb_ok claimed busy (fst (if bool_decide (pair = None) && negb (SliceHeader_is_idr h) then fill_gap d1 sps h else (d1, inr ())))) as Hg
    by (case_match; [by apply ok_fill_gap|done]).
  clearbody pair.
  destruct (if bool_decide (pair = None) && negb (SliceHeader_is_idr h) then fill_gap d1 sps h else (d1, inr ())) as [d2 [e|u]]; [exact Hg|]. cbn in Hg.
  destruct (order_counts d2 sps h) as [top bottom]. destruct pair as [i|].
  - destruct (get_at (dp_entries d2) i) as [[e|]|] eqn:He; cbn; [|done..]. split; [done|]. intros j [= <-]. split; [by apply Hp|by exists e].
  - pose proof (ok_claim _ _ _ Hg) as Hc. destruct (claim_slot d2) as [d3 [e|s]]; [exact Hc|]. cbn. by split.
Qed.

(** ** Finishing it *)

Lemma ok_store claimed busy d c frame_num top bottom reference long :
  dpb_ok (given c ++ claimed) busy d -> (forall i, cu_pair_of c = Some i -> 0 <= i) ->
  dpb_ok claimed busy (fst (store_current d c frame_num top bottom reference long)) /\
  (cu_pair_of c = None -> snd (store_current d c frame_num top bottom reference long) = inr ()).
Proof.
  intros Hd Hi. unfold store_current, given in *. destruct (cu_pair_of c) as [i|]; cbn [app] in Hd.
  - split; [|done]. pose proof (Hi i eq_refl) as H0. destruct (get_at (dp_entries d) i) as [[e|]|] eqn:He; cbn [fst]; [|done..].
    apply (ok_keeps _ _ d); [|done]. apply (keeps_put _ _ e); [done..|].
    destruct (cu_structure c) as [|p]; [done|]. eapply same_trans; [apply same_put_field|]. destruct long; [by split|done].
  - destruct (match cu_structure c with WholeFrame => _ | OneField TopField => _ | OneField BottomField => _ end) as [t b].
    destruct (ok_insert claimed busy d (mkEntry (cu_slot c) frame_num (i32_or_0 frame_num) (default 0 long)
      (mkField top (if t : bool then reference else Unused) t) (mkField bottom (if b : bool then reference else Unused) b) false true) Hd) as (d2 & -> & Hd2 & _).
    by split.
Qed.

(** A picture put aside while the others leave: it neither waits nor is read. *)
Record set_aside (busy : list Z) (s : Z) (d : Dpb) : Prop := mkSetAside {
  sa_queue : s ∉ queued d ++ busy;
  sa_quiet : forall e, e ∈ held_entries d -> waiting e = true -> en_slot e <> s;
}.
(** What is at an index, if anything still is. *)
Definition at_index (i s : Z) (gap : bool) (d : Dpb) : Prop :=
  forall e, get_at (dp_entries d) i = Some (Some e) -> en_slot e = s /\ en_non_existing e = gap.

Lemma let_go_keeps d j e : 0 <= j -> get_at (dp_entries d) j = Some (Some e) ->
  Forall2 same_picture (held_entries d) (held_entries (let_go d j e)).
Proof. intros Hj He. apply (kp_held d (d <| dp_entries := put_at (dp_entries d) j (Some (e <| en_output_needed := false |>)) |>)). by apply (keeps_put _ _ e). Qed.

Lemma held_back l l' e' : Forall2 same_picture l l' -> e' ∈ l' -> exists e, e ∈ l /\ same_picture e e'.
Proof.
  intros H (j & Hj)%list_elem_of_lookup. destruct (Forall2_lookup_r _ _ _ _ _ H Hj) as (e & He & Hs). exists e. split; [by eapply list_elem_of_lookup_2|done].
Qed.

Lemma compact_index d i e : get_at (dp_entries (Dpb_compact d)) i = Some (Some e) -> get_at (dp_entries d) i = Some (Some e).
Proof.
  rewrite compact_entries_of. unfold get_at. rewrite list_lookup_fmap. destruct (dp_entries d !! Z.to_nat i) as [[x|]|]; cbn; [|done..].
  by destruct (entry_done x).
Qed.

Lemma aside_bump_one claimed busy s d : dpb_ok claimed busy d -> set_aside busy s d -> set_aside busy s (fst (bump_one d)).
Proof.
  intros Hd [Hq Hw]. destruct (bump_one_spec d) as [[-> _]|(j & e & Hj & He & Hwe & -> & _)]; [done|]. cbn [fst].
  pose proof (Hw e (get_held _ _ _ Hj He) Hwe) as Hne. destruct (ok_let_go _ _ _ _ _ Hd Hj He Hwe) as [_ Eo]. split.
  - unfold queued in *. rewrite compact_output, Eo, map_app, !elem_of_app in *. cbn. rewrite elem_of_cons. intros [[H|[H|H]]|H]; [tauto|congruence|by apply not_elem_of_nil in H|tauto].
  - intros e' He' Hw'. rewrite compact_held in He'. apply elem_of_lfilter in He' as [He' _].
    destruct (held_back _ _ _ (let_go_keeps d j e Hj He) He') as (e0 & He0 & Hs & Hww). rewrite Hs. by apply Hw; [|apply Hww].
Qed.

Lemma index_bump_one i s gap d : 0 <= i -> at_index i s gap d -> at_index i s gap (fst (bump_one d)).
Proof.
  intros Hi0 Hi. destruct (bump_one_spec d) as [[-> _]|(j & e & Hj & He & Hwe & -> & _)]; [done|]. cbn [fst].
  intros e' He'. apply compact_index in He'. unfold let_go in He'. cbn in He'. destruct (decide (i = j)) as [->|Hij].
  - rewrite get_put_at_eq in He'; [|split; [done|by eapply get_at_lt]]. injection He' as <-. cbn. by apply Hi.
  - rewrite get_put_at_ne in He' by lia. by apply Hi.
Qed.

Lemma put_waiting_index d i e b : 0 <= i -> get_at (dp_entries d) i = Some (Some e) -> at_index i (en_slot e) (en_non_existing e) (put_waiting d i b).
Proof.
  intros Hi He e' He'. unfold put_waiting in He'. rewrite He in He'. cbn in He'. rewrite get_put_at_eq in He'; [|split; [done|by eapply get_at_lt]].
  by injection He' as <-.
Qed.

Lemma put_waiting_aside claimed busy d i e : dpb_ok claimed busy d -> 0 <= i -> get_at (dp_entries d) i = Some (Some e) -> waiting e = true ->
  set_aside busy (en_slot e) (put_waiting d i false).
Proof.
  intros Hd Hi He Hw. unfold put_waiting. rewrite He. destruct (entry_split _ _ _ Hi He) as (l1 & l2 & El & Ep).
  pose proof (slots_unique _ _ _ _ _ _ Hd El) as Hu. split.
  - apply (ok_waiting _ _ _ Hd); [by eapply get_held|done].
  - intros e' He' Hw' Es. unfold held_entries in He'. cbn in He'. rewrite Ep, flatten_app, flatten_some, elem_of_app, elem_of_cons in He'.
    destruct He' as [He'|[->|He']]; [|done|]; apply Hu; rewrite <- Es; apply elem_of_app; left; apply elem_of_slots; exists e';
      (split; [done|]); rewrite flatten_app, elem_of_app; auto.
Qed.

Lemma position_of_spec f l i j : position_of f l i = Some j -> exists e, i <= j /\ l !! Z.to_nat (j - i) = Some (Some e) /\ f e = true.
Proof.
  revert i. induction l as [|[x|] l IH]; intros i; cbn [position_of]; [done|..].
  - destruct (f x) eqn:Ex.
    + intros [= <-]. exists x. rewrite Z.sub_diag. by split_and!.
    + intros (e & Hi & Hl & He)%IH. exists e. split; [lia|]. replace (Z.to_nat (j - i)) with (S (Z.to_nat (j - (i + 1)))) by lia. done.
  - intros (e & Hi & Hl & He)%IH. exists e. split; [lia|]. replace (Z.to_nat (j - i)) with (S (Z.to_nat (j - (i + 1)))) by lia. done.
Qed.

Lemma ok_put_waiting claimed busy d i e b : dpb_ok claimed busy d -> 0 <= i -> get_at (dp_entries d) i = Some (Some e) ->
  (b = true -> en_non_existing e = false -> en_slot e ∉ queued d ++ busy) -> dpb_ok claimed busy (put_waiting d i b).
Proof.
  intros Hd Hi He Hb. unfold put_waiting. rewrite He. pose proof Hd as [Hl Hf Hdi Hh Hq Hp Hww Hc]. destruct (entry_split _ _ _ Hi He) as (l1 & l2 & El & Ep).
  assert (Es : forall d', dp_entries d' = put_at (dp_entries d) i (Some (e <| en_output_needed := b |>)) -> dpb_slots d' = dpb_slots d).
  { intros d' Ed. unfold dpb_slots, held_entries. rewrite Ed, Ep, El, !flatten_app, !flatten_some. unfold slots. by rewrite !map_app. }
  split; cbn; rewrite ?Es by done; try done; [unfold put_at; by rewrite length_insert|].
  intros e' He' Hw'. unfold held_entries in He'. cbn in He'. rewrite Ep, flatten_app, flatten_some, elem_of_app, elem_of_cons in He'.
  destruct He' as [He'|[->|He']];
    [|apply andb_true_iff in Hw' as [Hb' Hg%negb_true_iff]; by apply Hb|];
    (apply Hww; [|done]); unfold held_entries; rewrite El, flatten_app, flatten_some, elem_of_app, elem_of_cons; auto.
Qed.

Lemma ok_flush_before_reset claimed busy d c : dpb_ok claimed busy d -> dpb_ok claimed busy (flush_before_reset d c).
Proof.
  intros Hd. unfold flush_before_reset. destruct (position_of _ _ _) as [i|] eqn:Epos; [|eapply (ok_fields _ _ (Dpb_flush d)); [done..|by apply ok_flush]].
  apply position_of_spec in Epos as (e & Hi & He & _). rewrite Z.sub_0_r in He. change (get_at (dp_entries d) i = Some (Some e)) in He. rewrite He.
  set (d1 := put_waiting d i false). assert (dpb_ok claimed busy d1) as Hd1 by (by apply (ok_put_waiting _ _ _ _ e)).
  assert (at_index i (en_slot e) (en_non_existing e) (Dpb_flush d1)) as Hidx.
  { apply (bump_while_keeps (at_index i (en_slot e) (en_non_existing e))); [intros; by apply index_bump_one|]. by apply put_waiting_index. }
  assert (waiting e = true -> set_aside busy (en_slot e) (Dpb_flush d1)) as Haside.
  { intros Hw. apply (bump_while_keeps (fun d => dpb_ok claimed busy d /\ set_aside busy (en_slot e) d)) with (fuel := BUMPS) (c := fun _ => true) (d := d1).
    - intros d' [? ?]. split; [by apply ok_bump_one|by eapply aside_bump_one].
    - split; [done|]. by eapply put_waiting_aside. }
  apply ok_flush in Hd1. revert Hd1 Hidx Haside. generalize (Dpb_flush d1) as d2. intros d2 Hd2 Hidx Haside.
  eapply (ok_fields _ _ (put_waiting d2 i (en_output_needed e))); [done..|].
  destruct (get_at (dp_entries d2) i) as [[e2|]|] eqn:He2; [|unfold put_waiting; by rewrite He2..].
  destruct (Hidx e2 He2) as [Es Eg]. apply (ok_put_waiting _ _ _ _ e2); [done..|]. intros Ho Hg. rewrite Es. apply Haside.
  unfold waiting. by rewrite Ho, <- Eg, Hg.
Qed.

Lemma ok_bump_as_needed claimed busy d c h : dpb_ok claimed busy d -> dpb_ok claimed busy (bump_as_needed d c h).
Proof.
  intros Hd. unfold bump_as_needed. apply ok_bump_while, ok_bump_while. eapply (ok_fields _ _ d); [..|exact Hd]; by repeat case_match.
Qed.

(** Finishing a picture stores it in the slot it was given; one that was given its own
    slot is stored without fail. *)
Lemma ok_finish claimed busy d sps c h : dpb_ok (given c ++ claimed) busy d -> (forall i, cu_pair_of c = Some i -> 0 <= i) ->
  dpb_ok claimed busy (fst (Dpb_finish d sps c h)) /\ (cu_pair_of c = None -> snd (Dpb_finish d sps c h) = inr ()).
Proof.
  intros Hd Hi. unfold Dpb_finish. apply (ok_number_frames _ _ d sps c) in Hd. apply (ok_marking _ _ _ sps c h) in Hd.
  destruct (apply_marking _ sps c h) as [d1 long]. cbn [fst] in Hd.
  match goal with |- context [store_current d1 c ?fn ?t ?b ?r long] => destruct (ok_store claimed busy d1 c fn t b r long Hd Hi) as [Hs Hr]; destruct (store_current d1 c fn t b r long) as [d2 [e|u]] end;
    cbn [fst snd] in Hs, Hr |- *; [split; [done|intros H; by specialize (Hr H)]|]. split; [|by destruct u].
  apply ok_bump_as_needed. case_match; [apply ok_flush_before_reset|];
    (eapply ok_fields; [..|eapply ok_evict_while, Hs]; done).
Qed.

(** ** The other operations *)

Lemma ok_new : dpb_ok [] [] Dpb_new.
Proof.
  assert (Hf : forall s, ~ flag_set (repeat false 18) s).
  { intros s [Hs H]. apply list_elem_of_lookup_2, list_elem_of_In, repeat_spec in H. done. }
  split; cbn; try done; try (intros ? H; by apply not_elem_of_nil in H); try constructor; try (intros H; by apply not_elem_of_nil in H); try (intros H; by apply Hf in H).
Qed.

Lemma ok_perm claimed claimed' busy busy' d : claimed ≡ₚ claimed' -> busy ≡ₚ busy' -> dpb_ok claimed busy d -> dpb_ok claimed' busy' d.
Proof.
  intros Hc Hb [Hl Hf Hd Hh Hq Hp Hw Hcl]. split; try done.
  - by rewrite <- Hc.
  - intros s. by rewrite <- Hc.
  - by rewrite <- Hb.
  - intros s. by rewrite <- Hb.
  - intros e. rewrite <- Hb. apply Hw.
  - intros s. rewrite <- Hb, <- Hc. apply Hcl.
Qed.

(** The device has read a picture back. *)
Lemma ok_taken claimed busy d s : dpb_ok claimed (s :: busy) d -> dpb_ok claimed busy (Dpb_taken d s).
Proof.
  intros [Hl Hf Hd Hh Hq Hp Hw Hc].
  assert (forall s', s' ∈ queued d ++ s :: busy <-> s' = s \/ s' ∈ queued d ++ busy) as Hin by (intros s'; by rewrite <- Permutation_middle, elem_of_cons).
  assert (0 <= s) as H0 by (assert (flag_set (dp_slot_pending_output d) s) as [? _] by (apply Hp, Hin; by left); done).
  rewrite <- Permutation_middle in Hq. apply list.NoDup_cons in Hq as [Hn Hq].
  split; try done.
  - cbn. unfold put_at. by rewrite length_insert.
  - intros s'. cbn. change (put_at (dp_slot_pending_output d) s false) with (release_slot (dp_slot_pending_output d) s).
    specialize (Hp s'). rewrite Hin in Hp. change (queued (Dpb_taken d s)) with (queued d). split.
    + intros H. assert (flag_set (dp_slot_pending_output d) s') as Hs by (apply Hp; by right). apply get_release; [done|by destruct Hs|]. split; [|done]. by intros <-.
    + intros H. assert (0 <= s') by by destruct H. apply get_release in H as [Hne Hs]; [|done..]. apply Hp in Hs as [->|]; [congruence|done].
  - intros e He Hwe H. apply (Hw e He Hwe), Hin. by right.
  - intros s' Hs' H. apply (Hc s' Hs'), Hin. by right.
Qed.

(** A picture handed to the device is its until taken. *)
Lemma ok_next_output claimed busy d d' o : Dpb_next_output d = (d', Some o) -> dpb_ok claimed busy d -> dpb_ok claimed (ou_slot o :: busy) d'.
Proof.
  unfold Dpb_next_output. destruct (dp_output d) as [|first out] eqn:Eo; [done|]. intros [= <- <-] [Hl Hf Hd Hh Hq Hp Hw Hc].
  assert (queued d ++ busy ≡ₚ map ou_slot out ++ ou_slot first :: busy) as E by (unfold queued; rewrite Eo; cbn; apply Permutation_middle).
  split; try done; unfold queued; cbn.
  - by rewrite <- E.
  - intros s. by rewrite <- E.
  - intros e. rewrite <- E. apply Hw.
  - intros s. rewrite <- E. apply Hc.
Qed.
Lemma ok_no_output claimed busy d d' : Dpb_next_output d = (d', None) -> dpb_ok claimed busy d -> dpb_ok claimed busy d'.
Proof. unfold Dpb_next_output. destruct (dp_output d); [|done]. by intros [= <-]. Qed.

Lemma ok_clear claimed busy d : dpb_ok claimed busy d -> dpb_ok claimed [] (Dpb_clear d).
Proof.
  intros Hd. unfold Dpb_clear. rewrite clear_entries_eq.
  assert (forall l : list (option Entry), flatten_entries (map (fun _ => None) l) = []) as Hnil by (induction l; [done|]; cbn [map]; by rewrite flatten_none).
  pose proof (ok_new) as [_ [_ _] _ _ _ Hp0 _ _].
  assert (dpb_ok claimed busy (d <| dp_entries := map (fun _ => None) (dp_entries d) |> <| dp_slot_in_dpb := foldl release_slot (dp_slot_in_dpb d) (dpb_slots d) |>)) as Hd1.
  { eapply (ok_released _ _ _ _ (dpb_slots d) Hd); try done; cbn.
    - unfold dpb_slots, held_entries. cbn. rewrite Hnil. cbn. by rewrite app_nil_r.
    - apply length_map.
    - unfold held_entries. cbn. rewrite Hnil. intros e He. by apply not_elem_of_nil in He. }
  destruct Hd1 as [Hl Hf Hdi Hh _ _ _ _]. cbn in Hl, Hf. split; cbn; try done; [tauto|constructor|..].
  - intros e He. unfold held_entries in He. cbn in He. rewrite Hnil in He. by apply not_elem_of_nil in He.
  - intros s _ H. by apply not_elem_of_nil in H.
Qed.

Lemma ok_configure claimed busy d sps : dpb_ok claimed busy d -> dpb_ok claimed busy (Dpb_configure d sps).
Proof. intros Hd. eapply ok_fields; [..|exact Hd]; unfold Dpb_configure; by case_match. Qed.
Lemma ok_reference_lists claimed busy d sps c h : dpb_ok claimed busy d -> dpb_ok claimed busy (fst (reference_lists d sps c h)).
Proof.
  intros Hd. unfold reference_lists. apply (ok_number_frames _ _ _ sps c) in Hd. destruct (SliceType_is_intra _); [done|].
  destruct (match cu_structure c with WholeFrame => _ | OneField parity => _ end) as [l0 l1]. done.
Qed.

Lemma paired_reference_lists d sps c h : paired d c -> paired (fst (reference_lists d sps c h)) c.
Proof.
  intros Hp. assert (paired (number_frames d sps c) c) as Hn.
  { intros i Hi. destruct (Hp i Hi) as (H0 & e & He & Hs). split; [done|]. unfold number_frames, on_entries, get_at in *. cbn.
    rewrite list_lookup_fmap, He. cbn. by eexists. }
  unfold reference_lists. destruct (SliceType_is_intra _); [exact Hn|].
  destruct (match cu_structure c with WholeFrame => _ | OneField parity => _ end) as [l0 l1]. exact Hn.
Qed.

(** ** Pictures leave in the order of their counts *)

Definition output_of (e : Entry) : Output := mkOutput (en_slot e) (Entry_poc e).

(** A turn moves one waiting picture, of the smallest count, to the end of the queue. *)
Lemma bump_one_output claimed busy d : dpb_ok claimed busy d ->
  (bump_one d = (d, false) /\ waiting_entries d = []) \/
  (exists e d', bump_one d = (d', true) /\ waiting_entries d ≡ₚ e :: waiting_entries d' /\ dp_output d' = dp_output d ++ [output_of e] /\
     forall e', e' ∈ waiting_entries d -> Entry_poc e <= Entry_poc e').
Proof.
  intros Hd. destruct (bump_one_spec d) as [?|(i & e & Hi & He & Hw & Hb & Hmin)]; [by left|right].
  exists e, (Dpb_compact (let_go d i e)). split_and!; [done| | |exact Hmin].
  - destruct (entry_split _ _ _ Hi He) as (l1 & l2 & El & Ep). unfold waiting_entries. rewrite compact_held. unfold held_entries at 2. cbn.
    assert (forall l, List.filter waiting (List.filter (fun e => negb (entry_done e)) l) = List.filter waiting l) as Hf.
    { induction l as [|x l IH]; [done|]. cbn. destruct (entry_done x) eqn:Ex; cbn; [|by rewrite IH].
      rewrite IH. unfold entry_done in Ex. apply andb_true_iff in Ex as [_ Ex%negb_true_iff]. unfold waiting. by rewrite Ex. }
    rewrite Hf, Ep. unfold held_entries. rewrite El, !flatten_app, !flatten_some, !filter_app. cbn [List.filter]. rewrite Hw. cbn.
    by rewrite Permutation_middle.
  - rewrite compact_output. by apply (ok_let_go _ _ _ _ _ Hd Hi He Hw).
Qed.

Lemma flush_turns claimed busy fuel d : dpb_ok claimed busy d -> (length (waiting_entries d) < fuel)%nat ->
  exists es, let d' := bump_while fuel (fun _ => true) d in
    waiting_entries d' = [] /\ waiting_entries d ≡ₚ es /\ dp_output d' = dp_output d ++ map output_of es /\ StronglySorted Z.le (map Entry_poc es).
Proof.
  revert d. induction fuel as [|fuel IH]; intros d Hd Hlen; [lia|]. cbn [bump_while].
  pose proof (ok_bump_one _ _ _ Hd) as Hd'. destruct (bump_one_output _ _ _ Hd) as [[-> Hn]|(e & d' & Hb & Hp & Ho & Hmin)].
  - exists []. cbn. rewrite Hn, app_nil_r. by split_and!; [..|constructor].
  - rewrite Hb in Hd' |- *. destruct (IH d') as (es & Hn & Hes & Ho' & Hs); [done|rewrite Hp in Hlen; cbn in Hlen; lia|].
    exists (e :: es). split_and!; [done|by rewrite Hp, Hes|rewrite Ho', Ho; by rewrite <- app_assoc|]. cbn. constructor; [done|].
    apply list.Forall_forall. intros z (x & -> & Hx)%list_elem_of_fmap. apply Hmin. rewrite Hp, Hes. by right.
Qed.

Lemma held_few claimed busy d : dpb_ok claimed busy d -> (length (waiting_entries d) < BUMPS)%nat.
Proof.
  intros Hd. unfold waiting_entries, BUMPS. pose proof (filter_length_le waiting (held_entries d)) as Hf.
  assert (length (held_entries d) <= length (dp_entries d))%nat as Hl.
  { unfold held_entries. induction (dp_entries d) as [|[e|] l IH]; [done|..]; rewrite ?flatten_some, ?flatten_none; cbn [length]; lia. }
  rewrite (ok_entries _ _ _ Hd) in Hl. lia.
Qed.

Lemma drain_order claimed busy d : dpb_ok claimed busy d ->
  waiting_entries (Dpb_drain d) = [] /\
  exists es, es ≡ₚ waiting_entries d /\ dp_output (Dpb_drain d) = dp_output d ++ map output_of es /\ StronglySorted Z.le (map Entry_poc es).
Proof.
  intros Hd. destruct (flush_turns claimed busy BUMPS d Hd (held_few _ _ _ Hd)) as (es & Hn & Hp & Ho & Hs).
  split; [exact Hn|]. exists es. by split_and!.
Qed.

(** ** Modifying a reference list *)

Lemma shift_eq (pre mid : list (option RefPic)) x post :
  exists h, shift_loop (length mid) (zlen pre + zlen mid) (pre ++ mid ++ x :: post) = pre ++ h :: mid ++ post.
Proof.
  revert x post. induction mid as [|y mid IH] using rev_ind; intros x post; [by exists x|].
  rewrite length_app, Nat.add_1_r. cbn [shift_loop]. rewrite zlen_app, <- app_assoc. change (zlen [y]) with 1. cbn [app].
  assert (get_at (pre ++ mid ++ y :: x :: post) (zlen pre + (zlen mid + 1) - 1) = Some y) as ->.
  { rewrite app_assoc. apply get_at_mid. rewrite zlen_app. lia. }
  cbn [mjoin option_join]. assert (put_at (pre ++ mid ++ y :: x :: post) (zlen pre + (zlen mid + 1)) y = pre ++ mid ++ y :: y :: post) as ->.
  { rewrite !app_assoc. change (y :: x :: post) with ([y] ++ x :: post). rewrite app_assoc. unfold put_at, zlen.
    rewrite insert_app_r_alt by (rewrite !length_app; cbn; lia). rewrite !length_app.
    replace (Z.to_nat _ - _)%nat with 0%nat by (cbn; lia). cbn. by rewrite <- app_assoc. }
  replace (zlen pre + (zlen mid + 1) - 1) with (zlen pre + zlen mid) by lia. destruct (IH y (y :: post)) as (h & ->). exists h. by rewrite <- app_assoc.
Qed.

Definition kept_refs (found : RefPic) (l : list (option RefPic)) : list RefPic := List.filter (fun item => negb (same_ref item found)) (omap id l).

Lemma keep_eq found (done_ junk mid post : list (option RefPic)) :
  exists junk', keep_loop (length mid) (zlen done_ + zlen junk) (zlen done_) found (done_ ++ junk ++ mid ++ post) =
    (done_ ++ map Some (kept_refs found mid) ++ junk' ++ post, zlen done_ + zlen (kept_refs found mid)) /\ (length junk' + length (kept_refs found mid) = length junk + length mid)%nat.
Proof.
  revert done_ junk. induction mid as [|x mid IH]; intros done_ junk; cbn [length keep_loop].
  - exists junk. cbn. split; [by rewrite Z.add_0_r|lia].
  - change ((x :: mid) ++ post) with (x :: mid ++ post).
    assert (get_at (done_ ++ junk ++ x :: mid ++ post) (zlen done_ + zlen junk) = Some x) as ->.
    { rewrite app_assoc. apply get_at_mid. by rewrite zlen_app. }
    cbn [mjoin option_join]. destruct (match x with Some item => negb (same_ref item found) | None => false end) eqn:Ex.
    + destruct x as [item|]; [|done]. rewrite Ex. assert (exists junk2, put_at (done_ ++ junk ++ Some item :: mid ++ post) (zlen done_) (Some item) = (done_ ++ [Some item]) ++ junk2 ++ mid ++ post /\ length junk2 = length junk) as (junk2 & -> & El).
      { destruct junk as [|j junk].
        - exists []. unfold put_at, zlen. rewrite Nat2Z.id. cbn [app]. rewrite insert_app_r_alt by lia. rewrite Nat.sub_diag. cbn. by rewrite <- app_assoc.
        - exists (junk ++ [Some item]). unfold put_at, zlen. rewrite Nat2Z.id. cbn [app]. rewrite insert_app_r_alt by lia. rewrite Nat.sub_diag. cbn.
          rewrite <- !app_assoc. cbn. split; [done|]. rewrite length_app. cbn. lia. }
      destruct (IH (done_ ++ [Some item]) junk2) as (junk' & E & Hl). replace (zlen done_ + zlen junk + 1) with (zlen (done_ ++ [Some item]) + zlen junk2) by (unfold zlen; rewrite length_app; cbn [length]; lia).
      replace (zlen done_ + 1) with (zlen (done_ ++ [Some item])) by (by rewrite zlen_app). rewrite E. exists junk'. unfold kept_refs in *. cbn [omap list_omap id]. cbn. rewrite Ex. cbn.
      rewrite <- app_assoc. cbn. split; [f_equal; unfold zlen; rewrite length_app; cbn [length]; lia|lia].
    + assert (kept_refs found (x :: mid) = kept_refs found mid) as Ek by (unfold kept_refs; destruct x as [item|]; cbn; [by rewrite Ex|done]). rewrite Ek.
      destruct (IH done_ (junk ++ [x])) as (junk' & E & Hl). rewrite zlen_app in E. change (zlen [x]) with 1 in E. rewrite Z.add_assoc in E. rewrite <- app_assoc in E. cbn [app] in E.
      exists junk'. rewrite length_app in Hl. cbn in Hl. split; [|lia]. destruct x as [item|]; [rewrite Ex|]; exact E.
Qed.

(** The picture goes in at its place, and what follows is what followed without it. *)
Lemma put_reference_eq l index active found : length (rl_items l) = 32%nat -> 0 <= index < active -> active <= 32 ->
  let kept := kept_refs found (take (Z.to_nat (active - index)) (drop (Z.to_nat index) (rl_items l))) in
  exists k, (Z.to_nat index + 1 + length kept + k = 33)%nat /\
    rl_items (put_reference l index active found) = take 32 (take (Z.to_nat index) (rl_items l) ++ Some found :: map Some kept ++ repeat None k) /\
    rl_len (put_reference l index active found) = Z.max (Z.min (index + 1 + zlen kept) MAX_REFS) (index + 1).
Proof.
  intros Hl Hi Ha. set (items := rl_items l) in *. set (pre := take (Z.to_nat index) items). set (mid := take (Z.to_nat (active - index)) (drop (Z.to_nat index) items)). intros kept.
  destruct (lookup_lt_is_Some_2 (items ++ [None]) (Z.to_nat active)) as [x Hx]; [rewrite length_app; cbn [length]; lia|]. set (post := drop (S (Z.to_nat active)) (items ++ [None])).
  assert (length pre = Z.to_nat index) as Lp by (unfold pre; rewrite length_take; lia).
  assert (length mid = Z.to_nat (active - index)) as Lm by (unfold mid; rewrite length_take, length_drop; lia).
  assert (length post = (32 - Z.to_nat active)%nat) as Lq by (unfold post; rewrite length_drop, length_app; cbn [length]; lia).
  assert (take 33 (items ++ [None]) = pre ++ mid ++ x :: post) as Ew.
  { rewrite take_ge by (rewrite length_app; cbn [length]; lia). rewrite <- (take_drop (Z.to_nat active) (items ++ [None])) at 1.
    assert (drop (Z.to_nat active) (items ++ [None]) = x :: post) as ->.
    { by apply drop_S. }
    rewrite take_app_le by lia. rewrite app_assoc. f_equal. unfold pre, mid. rewrite <- (take_drop (Z.to_nat index) (take (Z.to_nat active) items)). f_equal.
    - rewrite take_take. f_equal. lia.
    - rewrite take_drop_commute. do 2 f_equal. lia. }
  unfold put_reference. fold items. rewrite Ew. destruct (shift_eq pre mid x post) as (h & E).
  assert (zlen pre = index /\ zlen mid = active - index) as [Zp Zm] by (unfold zlen; lia).
  rewrite <- Lm. replace (shift_loop (length mid) active (pre ++ mid ++ x :: post)) with (pre ++ h :: mid ++ post) by (rewrite <- E; f_equal; lia).
  assert (put_at (pre ++ h :: mid ++ post) index (Some found) = (pre ++ [Some found]) ++ [] ++ mid ++ post) as ->.
  { unfold put_at. rewrite insert_app_r_alt by lia. rewrite Lp, Nat.sub_diag. cbn. by rewrite <- app_assoc. }
  destruct (keep_eq found (pre ++ [Some found]) [] mid post) as (junk & Ek & Lj). cbn [length] in Lj.
  replace (zlen (pre ++ [Some found])) with (index + 1) in Ek by (unfold zlen; rewrite length_app; cbn [length]; lia). change (zlen (@nil (option RefPic))) with 0 in Ek. rewrite Z.add_0_r in Ek.
  rewrite Ek. fold kept. assert (length kept <= length mid)%nat as Lk by (unfold kept; lia). fold mid in kept.
  exists (length junk + length post)%nat. split; [fold kept in Lj; unfold kept in *; lia|]. split; [|done]. cbn [rl_items]. f_equal.
  rewrite (app_assoc (pre ++ [Some found]) (map Some kept)). rewrite take_app_length' by (unfold zlen; rewrite !length_app, length_map; cbn [length]; lia).
  rewrite drop_app_length' by (unfold zlen; rewrite !length_app, length_map; cbn [length]; lia). rewrite <- !app_assoc. cbn [app]. do 3 f_equal.
  rewrite <- length_app. generalize (junk ++ post). intros r. induction r as [|y r IH]; [done|]. cbn. by rewrite IH.
Qed.

(** The pictures a slice's operations name, in order, if all of them are there. *)
Fixpoint named_pictures (d : Dpb) (c : Current) (max_pic_num curr_pic_num : Z) (ops : list Modification) (pred : Z) : option (list RefPic) :=
  match ops with
  | [] => Some []
  | op :: ops =>
      let '(pred, found) := named_picture d c max_pic_num curr_pic_num op pred in
      found ← found; rest ← named_pictures d c max_pic_num curr_pic_num ops pred; Some (found :: rest)
  end.

(** [k] pictures put in one after another from [index] on. *)
Record put_in (index : Z) (found : list RefPic) (items items' : list (option RefPic)) : Prop := mkPutIn {
  pi_length : length items' = 32%nat;
  pi_front : take (Z.to_nat index + length found) items' = take (Z.to_nat index) items ++ map Some found;
  pi_rest : forall item, Some item ∈ drop (Z.to_nat index + length found) items' ->
    Some item ∈ drop (Z.to_nat index) items /\ Forall (fun f => same_ref item f = false) found;
}.

Lemma put_in_one l index active found : length (rl_items l) = 32%nat -> 0 <= index < active -> active <= 32 ->
  put_in index [found] (rl_items l) (rl_items (put_reference l index active found)).
Proof.
  intros Hl Hi Ha. destruct (put_reference_eq l index active found Hl Hi Ha) as (k & Hk & -> & _). set (kept := kept_refs found _) in *.
  set (pre := take (Z.to_nat index) (rl_items l)). assert (length pre = Z.to_nat index) as Lp by (unfold pre; rewrite length_take; lia).
  assert (take 32 (pre ++ Some found :: map Some kept ++ repeat None k) = pre ++ Some found :: take (31 - Z.to_nat index) (map Some kept ++ repeat None k)) as ->.
  { rewrite take_app_ge by lia. rewrite Lp. f_equal. replace (32 - Z.to_nat index)%nat with (S (31 - Z.to_nat index)) by lia. done. }
  split.
  - rewrite length_app. cbn [length]. rewrite length_take, length_app, length_map, repeat_length. lia.
  - cbn [length map]. fold pre. rewrite (app_assoc pre [Some found] _ : pre ++ Some found :: _ = _). apply take_app_length'. rewrite length_app. cbn [length]. lia.
  - cbn [length]. intros item. rewrite (app_assoc pre [Some found] _ : pre ++ Some found :: _ = _). rewrite drop_app_length' by (rewrite length_app; cbn [length]; lia).
    intros Hin. assert (Some item ∈ map Some kept ++ repeat None k) as [Hm|Hm]%elem_of_app.
    { apply list_elem_of_In in Hin. apply list_elem_of_In. rewrite <- (take_drop (31 - Z.to_nat index) (map Some kept ++ repeat None k)). apply in_or_app. by left. }
    + apply list_elem_of_fmap in Hm as (y & [= <-] & Hy). unfold kept, kept_refs in Hy. apply list_elem_of_In, filter_In in Hy as [Hy Hs%negb_true_iff].
      split; [|by constructor]. apply list_elem_of_In, list_elem_of_omap in Hy as (o & Ho & [= ->]).
      apply list_elem_of_In in Ho. apply list_elem_of_In. rewrite <- (take_drop (Z.to_nat (active - index)) (drop (Z.to_nat index) (rl_items l))). apply in_or_app. by left.
    + apply list_elem_of_In, repeat_spec in Hm. done.
Qed.

Lemma put_in_trans index f fs a b c : 0 <= index -> put_in index [f] a b -> put_in (index + 1) fs b c -> put_in index (f :: fs) a c.
Proof.
  intros Hi [_ F1 R1] [L2 F2 R2]. cbn [length map] in *. replace (Z.to_nat (index + 1)) with (Z.to_nat index + 1)%nat in * by lia.
  split; [done| |]; cbn [length map].
  - replace (Z.to_nat index + S (length fs))%nat with (Z.to_nat index + 1 + length fs)%nat by lia. rewrite F2, F1, <- app_assoc. done.
  - intros item Hin. replace (Z.to_nat index + S (length fs))%nat with (Z.to_nat index + 1 + length fs)%nat in Hin by lia.
    destruct (R2 item Hin) as [H2 Hf]. destruct (R1 item H2) as [H1 Hf1]. split; [done|]. constructor; [by inversion Hf1|done].
Qed.

Lemma modify_loop_spec d c max_ curr active ops : active <= 32 -> forall index pred l l', 0 <= index -> length (rl_items l) = 32%nat ->
  modify_loop d c max_ curr ops index active pred l = inr l' ->
  exists found, named_pictures d c max_ curr ops pred = Some found /\ length found = length ops /\ (ops <> [] -> index + zlen ops <= active) /\
    put_in index found (rl_items l) (rl_items l').
Proof.
  intros Ha. induction ops as [|op ops IH]; intros index pred l l' Hi Hl; cbn [modify_loop named_pictures].
  - intros [= <-]. exists []. split_and!; try done. split; [done|..]; cbn; rewrite Nat.add_0_r; [by rewrite app_nil_r|by split].
  - destruct (Z.leb_spec active index); [done|]. destruct (named_picture d c max_ curr op pred) as [pred' [f|]]; [|done]. cbn [mbind option_bind]. intros Hm.
    pose proof (put_in_one l index active f Hl ltac:(lia) Ha) as H1. destruct (IH (index + 1) pred' _ _ ltac:(lia) (pi_length _ _ _ _ H1) Hm) as (found & -> & Hlen & Hact & H2).
    exists (f :: found). cbn [length]. split_and!; [done|by rewrite Hlen| |by eapply put_in_trans].
    intros _. unfold zlen in *. cbn [length]. destruct ops as [|op' ops]; [cbn [length]; lia|]. specialize (Hact ltac:(done)). lia.
Qed.

Lemma modify_loop_error d c max_ curr active ops e : forall index pred l,
  modify_loop d c max_ curr ops index active pred l = inl e -> named_pictures d c max_ curr ops pred = None \/ active < index + zlen ops.
Proof.
  induction ops as [|op ops IH]; intros index pred l; cbn [modify_loop named_pictures]; [done|]. unfold zlen in *. cbn [length].
  destruct (Z.leb_spec active index); [intros _; right; lia|]. destruct (named_picture d c max_ curr op pred) as [pred' [f|]]; cbn [mbind option_bind]; [|by left].
  intros [->|H']%IH; [by left|right; lia].
Qed.

(** The list cut to its active length. *)
Lemma cut_items (items : list (option RefPic)) n k : length items = 32%nat -> (k <= n <= 32)%nat ->
  take k (take 32 (take n items ++ repeat None 32)) = take k items /\
  forall item, Some item ∈ drop k (take 32 (take n items ++ repeat None 32)) -> Some item ∈ drop k items.
Proof.
  intros Hl Hk. split.
  - rewrite take_take, Nat.min_l by lia. rewrite take_app_le by (rewrite length_take; lia). rewrite take_take. f_equal. lia.
  - intros item Hin. assert (Some item ∈ drop k (take n items ++ repeat None 32)) as H2.
    { rewrite list_elem_of_In in *. rewrite skipn_firstn_comm in Hin. rewrite <- (take_drop (32 - k) (drop k (take n items ++ repeat None 32))). apply in_or_app. by left. }
    rewrite drop_app_le in H2 by (rewrite length_take; lia). apply elem_of_app in H2 as [H2|H2].
    + rewrite list_elem_of_In in *. rewrite skipn_firstn_comm in H2. rewrite <- (take_drop (n - k) (drop k items)). apply in_or_app. by left.
    + apply list_elem_of_In, repeat_spec in H2. done.
Qed.

(** C27: A slice's modifications put the pictures it names first. Whatever the buffer and the
    initial list, they succeed exactly when each picture named by a number, each predicted
    from the last, is a reference in the buffer and there are no more of them than the
    list's active length; the list then begins with those pictures in the order named,
    is no longer than its active length, and goes on with pictures of the initial list
    none of which was named. *)
Theorem modifications_applied d sps c ops active l :
  length (rl_items l) = 32%nat -> 0 <= active ->
  let '(max_pic_num, curr_pic_num) := pic_nums sps c in
  let named := named_pictures d c max_pic_num curr_pic_num ops curr_pic_num in
  match modify d sps c ops active l with
  | inl _ => named = None \/ Z.min active MAX_REFS < zlen ops
  | inr l' =>
      exists found, named = Some found /\ zlen ops <= Z.min active MAX_REFS /\ rl_len l' <= Z.min active MAX_REFS /\
        length (rl_items l') = 32%nat /\ take (length ops) (rl_items l') = map Some found /\
        forall item, Some item ∈ drop (length ops) (rl_items l') -> Some item ∈ rl_items l /\ Forall (fun f => same_ref item f = false) found
  end.
Proof.
  intros Hl Ha. unfold modify. destruct (pic_nums sps c) as [max_ curr]. cbv zeta. assert (0 <= Z.min active MAX_REFS <= 32) as Hb by (unfold MAX_REFS; lia).
  revert Hb. generalize (Z.min active MAX_REFS) as act. intros act Hb. destruct (modify_loop d c max_ curr ops 0 act curr l) as [e|l1] eqn:Em.
  - destruct (modify_loop_error _ _ _ _ _ _ _ _ _ _ Em); [by left|right; lia].
  - destruct (modify_loop_spec d c max_ curr act ops ltac:(lia) 0 curr l l1 ltac:(lia) Hl Em) as (found & Hn & Hlen & Hact & [L1 F1 R1]).
    change (Z.to_nat 0) with 0%nat in *. cbn [Nat.add] in *. rewrite take_0 in F1. cbn [app] in F1. rewrite drop_0 in R1. rewrite Hlen in *.
    assert (zlen ops <= act) as Hz by (destruct ops as [|op ops']; [unfold zlen; cbn; lia|specialize (Hact ltac:(done)); lia]).
    exists found. split; [done|]. split; [done|]. destruct (Z.ltb_spec act (rl_len l1)) as [Hlt|Hge]; cbn [rl_items rl_len].
    + destruct (cut_items (rl_items l1) (Z.to_nat act) (length ops) L1 ltac:(unfold zlen in Hz; lia)) as [Hc Hr].
      split; [lia|]. split; [rewrite length_take, length_app, repeat_length; lia|]. split; [by rewrite Hc|]. intros item Hi. by apply R1, Hr.
    + by split_and!.
Qed.

Definition two_references : Dpb :=
  mkDpb (map (fun n => Some (mkEntry n (n + 1) (n + 1) 0 (mkField (2 * n) ShortTerm true) (mkField (2 * n) ShortTerm true) false false)) [0; 1] ++ repeat None 16)
    2 2 None 0 true None None Previous_default (repeat true 2 ++ repeat false 16) (repeat false 18) [].

Definition small_sps : Sps :=
  mkSps 100 0 42 0 1 false 0 0 false false ScalingLists_FLAT 4 0 4 false 0 0 0 (repeat 0 255) 2 false 0 0 true false true None Vui_default.
Definition third_frame : Current := mkCurrent 2 WholeFrame 3 4 4 false true false None.
Definition initial_list : RefList := init_p_frame two_references third_frame RefList_default.

(** Frame 3 against frames 2 and 1, told to take frame 1 first. *)
Lemma modifications_applied_witness :
  map rp_frame_idx (omap id (rl_items initial_list)) = [2; 1] /\
  exists l' found, modify two_references small_sps third_frame [Subtract 1] 2 initial_list = inr l' /\
    named_pictures two_references third_frame 256 3 [Subtract 1] 3 = Some found /\ take 1 (rl_items l') = map Some found /\ map rp_frame_idx (omap id (rl_items l')) = [1; 2].
Proof.
  split; [vm_compute; reflexivity|].
  pose proof (modifications_applied two_references small_sps third_frame [Subtract 1] 2 initial_list eq_refl ltac:(lia)) as H.
  change (pic_nums small_sps third_frame) with (256, 3) in H. cbv beta iota zeta in H.
  assert (exists l', modify two_references small_sps third_frame [Subtract 1] 2 initial_list = inr l' /\ map rp_frame_idx (omap id (rl_items l')) = [1; 2]) as (l' & E & Ei)
    by (eexists; split; vm_compute; reflexivity).
  rewrite E in H. destruct H as (found & Hn & _ & _ & _ & Ht & _). exists l', found. split; [exact E|]. split; [exact Hn|]. split; [exact Ht|exact Ei].
Defined.
