(* ===== verification/H264Stream.v ===== *)
(** An H.264 stream (crates/decode/src/h264/mod.rs): an access unit is split into units,
    its parameter sets kept, its picture placed in the buffer and staged with the lists
    its slices decode against; finishing it marks the buffer and lets pictures out.  A
    job's list of slices is what it holds of its 32 places; what an unstaged job holds is
    never seen. *)

From S2P Require Import Prelude BitWriter BitReader H264Read Dpb.

Definition MAX_SLICES : Z := 32.

#[global] Instance ScalingLists_eq_dec : EqDecision ScalingLists.
Proof. solve_decision. Defined.
#[global] Instance Vui_eq_dec : EqDecision Vui.
Proof. solve_decision. Defined.
#[global] Instance Sps_eq_dec : EqDecision Sps.
Proof. solve_decision. Defined.

Record Slice := mkSlice { sl_header : SliceHeader; sl_offset : Z; sl_len : Z; sl_l0 : RefList; sl_l1 : RefList }.
Record Job := mkJob { jb_sps : Sps; jb_pps : Pps; jb_current : Current; jb_references : list RefPic; jb_slices : list Slice }.
Inductive Read := ReadNothing | ReadPicture | ReadFormatChanged.

Record DecodeStream := mkDecodeStream {
  ds_sps : list (option Sps);
  ds_pps : list (option Pps);
  ds_active_sps : option Sps;
  ds_dpb : Dpb;
  ds_job : Job;
  ds_staged : bool;
}.
#[export] Instance DecodeStream_eta : Eta DecodeStream := fun s =>
  mkDecodeStream (ds_sps s) (ds_pps s) (ds_active_sps s) (ds_dpb s) (ds_job s) (ds_staged s).

Definition placeholder_sps : Sps :=
  mkSps 0 0 0 0 1 false 0 0 false false ScalingLists_FLAT 0 0 0 false 0 0 0 (repeat 0 255) 0 false 0 0 true false false None Vui_default.
Definition placeholder_pps : Pps := mkPps 0 0 false false 0 0 0 false 0 0 0 0 false false false false false ScalingLists_FLAT 0.

Definition DecodeStream_new : DecodeStream :=
  mkDecodeStream (repeat None 32) (repeat None 256) None Dpb_new
    (mkJob placeholder_sps placeholder_pps (mkCurrent 0 WholeFrame 0 0 0 false false false None) [] []) false.

Definition ds_staged_job (s : DecodeStream) : option Job := if ds_staged s then Some (ds_job s) else None.
Definition sps_of (s : DecodeStream) (id : Z) : option Sps := mjoin (get_at (ds_sps s) id).
Definition pps_of (s : DecodeStream) (id : Z) : option Pps := mjoin (get_at (ds_pps s) id).

Definition same_format (a b : Sps) : bool :=
  (Sps_coded_width a =? Sps_coded_width b) && (Sps_coded_height a =? Sps_coded_height b) &&
  (sp_bit_depth_luma_minus8 a =? sp_bit_depth_luma_minus8 b) && (sp_chroma_format_idc a =? sp_chroma_format_idc b).

(** Whether [next] begins a new primary coded picture after [first]. *)
Definition new_picture (first next : SliceHeader) (s : DecodeStream) : bool :=
  if negb (sh_frame_num first =? sh_frame_num next) || negb (sh_pps_id first =? sh_pps_id next) ||
     negb (eqb (sh_field_pic first) (sh_field_pic next)) ||
     (sh_field_pic first && negb (eqb (sh_bottom_field first) (sh_bottom_field next))) ||
     negb (eqb (sh_nal_ref_idc first =? 0) (sh_nal_ref_idc next =? 0)) ||
     negb (eqb (SliceHeader_is_idr first) (SliceHeader_is_idr next)) ||
     (SliceHeader_is_idr first && negb (sh_idr_pic_id first =? sh_idr_pic_id next))
  then true
  else
    let poc_type := match (p ← pps_of s (sh_pps_id first); sps_of s (pp_sps_id p)) with Some sps => sp_pic_order_cnt_type sps | None => 0 end in
    if poc_type =? 0 then
      negb (sh_pic_order_cnt_lsb first =? sh_pic_order_cnt_lsb next) || negb (sh_delta_pic_order_cnt_bottom first =? sh_delta_pic_order_cnt_bottom next)
    else if poc_type =? 1 then
      negb ((fst (sh_delta_pic_order_cnt first) =? fst (sh_delta_pic_order_cnt next)) && (snd (sh_delta_pic_order_cnt first) =? snd (sh_delta_pic_order_cnt next)))
    else false.

(** ** Reading an access unit *)

Definition put_sps (s : DecodeStream) (sps : Sps) : DecodeStream := s <| ds_sps := put_at (ds_sps s) (sp_id sps) (Some sps) |>.
Definition put_pps (s : DecodeStream) (pps : Pps) : DecodeStream := s <| ds_pps := put_at (ds_pps s) (pp_id pps) (Some pps) |>.

(** The loop over the units: the first slice's header and the slices so far. *)
Fixpoint read_units (units : list Unit_) (s : DecodeStream) (first : option SliceHeader) (slices : list Slice) :
    DecodeStream * (ParseError + (option SliceHeader * list Slice)) :=
  match units with
  | [] => (s, inr (first, slices))
  | nal :: units =>
      match un_bytes nal with
      | [] => read_units units s first slices
      | head :: payload =>
          let unit_type := Z.land head 0x1F in
          if unit_type =? 7 then
            match sps_parse payload with
            | inl e => (s, inl e)
            | inr sps =>
                if negb (sp_chroma_format_idc sps =? 1) || negb (sp_bit_depth_luma_minus8 sps =? 0) || negb (sp_bit_depth_chroma_minus8 sps =? 0)
                then (s, inl ParseUnsupported)
                else read_units units (put_sps s sps) first slices
            end
          else if unit_type =? 8 then
            match pps_parse payload (sps_of s) with
            | inl e => (s, inl e)
            | inr pps => read_units units (put_pps s pps) first slices
            end
          else if (unit_type =? 1) || (unit_type =? 5) then
            match slice_parse (un_bytes nal) (pps_of s) (sps_of s) with
            | inl e => (s, inl e)
            | inr header =>
                if negb (sh_redundant_pic_cnt header =? 0) then read_units units s first slices
                else if match first with Some first => new_picture first header s | None => false end then (s, inl ParseUnsupported)
                else if MAX_SLICES <=? zlen slices then (s, inl TooMany)
                else
                  read_units units s (Some (default header first))
                    (slices ++ [mkSlice header (un_offset nal) (zlen (un_bytes nal)) RefList_default RefList_default])
            end
          else read_units units s first slices
      end
  end.

(** The sequence the picture names comes into force; whether the format changed. *)
Definition adopt (s : DecodeStream) (sps : Sps) : DecodeStream * bool :=
  let configured := s <| ds_dpb ::= fun d => Dpb_configure d sps |> <| ds_active_sps := Some sps |> in
  match ds_active_sps s with
  | Some active =>
      if negb (same_format active sps) then (s <| ds_dpb ::= Dpb_drain |> <| ds_active_sps := None |>, true)
      else if bool_decide (active = sps) then (s, false)
      else (configured, false)
  | None => (configured, false)
  end.

(** Each slice's lists. *)
Fixpoint slice_lists (d : Dpb) (sps : Sps) (c : Current) (slices : list Slice) : Dpb * (ParseError + list Slice) :=
  match slices with
  | [] => (d, inr [])
  | slice :: slices =>
      match reference_lists d sps c (sl_header slice) with
      | (d, inl e) => (d, inl e)
      | (d, inr (l0, l1)) =>
          match slice_lists d sps c slices with
          | (d, inl e) => (d, inl e)
          | (d, inr slices) => (d, inr (mkSlice (sl_header slice) (sl_offset slice) (sl_len slice) l0 l1 :: slices))
          end
      end
  end.

(** Place the picture and stage it. *)
Definition stage (s : DecodeStream) (sps : Sps) (pps : Pps) (first : SliceHeader) (slices : list Slice) : DecodeStream * (ParseError + Read) :=
  match Dpb_begin (ds_dpb s) sps first with
  | (d, inl e) => (s <| ds_dpb := d |>, inl e)
  | (d, inr current) =>
      match slice_lists d sps current slices with
      | (d', inl e) => (s <| ds_dpb := d' |>, inl e)
      | (d', inr slices) =>
          (s <| ds_dpb := d' |> <| ds_job := mkJob sps pps current (reference_frames d) slices |> <| ds_staged := true |>, inr ReadPicture)
      end
  end.

Definition DecodeStream_read (s : DecodeStream) (unit_ : list Z) : DecodeStream * (ParseError + Read) :=
  match read_units (Units_all unit_) (s <| ds_staged := false |>) None [] with
  | (s, inl e) => (s, inl e)
  | (s, inr (None, _)) => (s, inr ReadNothing)
  | (s, inr (Some first, slices)) =>
      match pps_of s (sh_pps_id first) with
      | None => (s, inl NoParameterSet)
      | Some pps =>
          match sps_of s (pp_sps_id pps) with
          | None => (s, inl NoParameterSet)
          | Some sps =>
              match adopt s sps with
              | (s, true) => (s, inr ReadFormatChanged)
              | (s, false) => stage s sps pps first slices
              end
          end
      end
  end.

(** ** What follows it *)

Definition DecodeStream_finish (s : DecodeStream) : DecodeStream * (ParseError + unit) :=
  if negb (ds_staged s) then (s, inr ())
  else
    let s := s <| ds_staged := false |> in
    match jb_slices (ds_job s) with
    | [] => (s, inl ParseOutOfRange)
    | first :: _ =>
        let '(d, r) := Dpb_finish (ds_dpb s) (jb_sps (ds_job s)) (jb_current (ds_job s)) (sl_header first) in (s <| ds_dpb := d |>, r)
    end.
Definition DecodeStream_abandon (s : DecodeStream) : DecodeStream := s <| ds_staged := false |>.
Definition DecodeStream_reset (s : DecodeStream) : DecodeStream :=
  mkDecodeStream (map (fun _ => None) (ds_sps s)) (map (fun _ => None) (ds_pps s)) None (Dpb_clear (ds_dpb s)) (ds_job s) false.
Definition DecodeStream_drain (s : DecodeStream) : DecodeStream := s <| ds_dpb ::= Dpb_drain |>.
Definition DecodeStream_next_output (s : DecodeStream) : DecodeStream * option Output :=
  let '(d, o) := Dpb_next_output (ds_dpb s) in (s <| ds_dpb := d |>, o).
(** [self.h264.dpb.taken(slot)], as a backend calls it. *)
Definition stream_taken (s : DecodeStream) (slot : Z) : DecodeStream := s <| ds_dpb ::= fun d => Dpb_taken d slot |>.
