(* ===== verification/H264Play.v ===== *)
(** What a host codes a client decodes: the pictures the encoder plans, its parameter
    sets and its slice headers, read by the decoder's stream and placed in its picture
    buffer, whatever slice data the device wrote after the headers.  Every picture is
    decoded against the one before it and leaves as soon as it is decoded. *)

From S2P Require Import Prelude BitWriter BitReader H264Write H264Read H264Spec Dpb H264Stream.

(** ** The bytes *)

(** What a writer leaves in a buffer with room. *)
Definition written (f : list Z -> list Z * option Z) : list Z :=
  match f (repeat 0 2048) with (out, Some n) => take (Z.to_nat n) out | (_, None) => [] end.

(** A slice's unit: its header, then whatever bits of slice data the device wrote, with
    emulation prevention. *)
Definition carries (p : Params) (picture : Picture) (unit_ : list Z) : Prop :=
  exists payload data, bytes_ok payload /\ zlen payload < 2 ^ 30 /\ bits_of payload = slice_bits p picture ++ data /\
    unit_ = (if is_refresh picture then 0x65 else 0x41) :: escaped 0 payload.

(** A refresh has the parameter sets before it. *)
Definition access_unit (p : Params) (picture : Picture) (unit_ : list Z) : list Z :=
  (if is_refresh picture then written (sequence_parameter_set p) ++ written picture_parameter_set else []) ++ START_CODE ++ unit_.

(** The pictures planned, and the counters after them. *)
Fixpoint plan_all (p : Params) (c : Counters) (forces : list bool) : list Picture * Counters :=
  match forces with
  | [] => ([], c)
  | force :: forces => let '(picture, c) := plan_picture p c force in let '(pictures, c) := plan_all p c forces in (picture :: pictures, c)
  end.

(** ** A picture shown *)

(** The picture as staged, the list its first slice decodes against, and what left. *)
Record Shown := mkShown { sw_current : Current; sw_l0 : list (option RefPic); sw_output : Output }.

(** Read, decode, finish, and read back the one picture that leaves. *)
Definition show (s : DecodeStream) (unit_ : list Z) : option (DecodeStream * Shown) :=
  match DecodeStream_read s unit_ with
  | (s, inr ReadPicture) =>
      let j := ds_job s in
      match jb_slices j, DecodeStream_finish s with
      | [slice], (s, inr _) =>
          match DecodeStream_next_output s with
          | (s, Some o) => if zlen (dp_output (ds_dpb s)) =? 0 then Some (stream_taken s (ou_slot o), mkShown (jb_current j) (RefList_slice (sl_l0 slice)) o) else None
          | _ => None
          end
      | _, _ => None
      end
  | _ => None
  end.
Fixpoint show_all (s : DecodeStream) (units : list (list Z)) : option (DecodeStream * list Shown) :=
  match units with
  | [] => Some (s, [])
  | unit_ :: units => '(s, this) ← show s unit_; '(s, shown) ← show_all s units; Some (s, this :: shown)
  end.

(** What is shown is what was coded: a refresh decodes alone, a predicted picture against
    the picture before it and into another surface; and each leaves itself. *)
Fixpoint chained (before : option Shown) (pictures : list Picture) (shown : list Shown) : Prop :=
  match pictures, shown with
  | [], [] => True
  | picture :: pictures, this :: shown =>
      let c := sw_current this in
      cu_idr c = is_refresh picture /\ cu_frame_num c = frame_num_of picture /\ cu_pair_of c = None /\
      sw_output this = mkOutput (cu_slot c) (Z.min (cu_top_poc c) (cu_bottom_poc c)) /\
      (if is_refresh picture then sw_l0 this = []
       else exists b ref, before = Some b /\ sw_l0 this = [Some ref] /\ rp_slot ref = cu_slot (sw_current b) /\ rp_slot ref <> cu_slot c /\
              rp_frame_idx ref = cu_frame_num (sw_current b) /\ rp_long_term ref = false /\ rp_parity ref = None) /\
      chained (Some this) pictures shown
  | _, _ => False
  end.

(** ** The buffer of such a stream *)

Definition flags2 (h0 h1 : bool) : list bool := h0 :: h1 :: repeat false 16.
Definition one (o : option Entry) (held pending : list bool) (out : list Output) (last dec : option Z) (v : Previous) : Dpb :=
  mkDpb (o :: repeat None 17) 1 1 None 0 true last dec v held pending out.
Definition ref_entry (slot frame_num wrap_ long top bottom : Z) : Entry :=
  mkEntry slot frame_num wrap_ long (mkField top ShortTerm true) (mkField bottom ShortTerm true) false false.

(** Slot [b], 0 or 1, holds the one reference. *)
Definition holds_one (b frame_num : Z) (d : Dpb) : Prop :=
  (b = 0 \/ b = 1) /\ exists w long top bottom last dec v, pv_ref_frame_num v = frame_num /\
    d = one (Some (ref_entry b frame_num w long top bottom)) (flags2 (b =? 0) (b =? 1)) (flags2 false false) [] last dec v.

Lemma sliding_one b fn w long top bottom other last dec v : b = 0 \/ b = 1 ->
  sliding_window (one (Some (ref_entry b fn w long top bottom)) (flags2 ((b =? 0) || other) ((b =? 1) || other)) (flags2 false false) [] last dec v) =
  one None (flags2 ((b =? 1) && other) ((b =? 0) && other)) (flags2 false false) [] last dec v.
Proof. intros [-> | ->]; destruct other; reflexivity. Qed.

Definition whole_frame (slot frame_num top bottom : Z) (idr : bool) : Current := mkCurrent slot WholeFrame frame_num top bottom idr true false None.

(** A buffer with nothing in it, or the one reference. *)
Definition at_rest (d : Dpb) : Prop := (exists last dec v, d = one None (flags2 false false) (flags2 false false) [] last dec v) \/ exists b fn, holds_one b fn d.

Lemma refresh_empties p id d : at_rest d -> exists v, begin_idr d (read_slice p (Refresh id)) = one None (flags2 false false) (flags2 false false) [] None None v.
Proof.
  intros [(last & dec & v & ->)|(b & fn & [-> | ->] & w & long & top & bottom & last & dec & v & _ & ->)]; exists (v <| pv_ref_frame_num := 0 |>);
    vm_compute; reflexivity.
Qed.

Lemma begin_refresh p id d : at_rest d ->
  exists v, Dpb_begin d (read_sps p) (read_slice p (Refresh id)) = (one None (flags2 true false) (flags2 false false) [] None None v, inr (whole_frame 0 0 0 0 true)).
Proof.
  intros Hd. destruct (refresh_empties p id d Hd) as (v & E). exists v. unfold Dpb_begin.
  change (SliceHeader_is_idr (read_slice p (Refresh id))) with true. change (structure_of (read_slice p (Refresh id))) with WholeFrame. cbn iota. rewrite E.
  rewrite bool_decide_true by done. cbn [negb andb]. reflexivity.
Qed.

(** Storing the one picture: it leaves at once, and stays as the one reference. *)
Lemma finish_one p slot frame_num top bottom idr h d d1 last dec v :
  slot = 0 \/ slot = 1 ->
  number_frames d (read_sps p) (whole_frame slot frame_num top bottom idr) = d1 ->
  apply_marking d1 (read_sps p) (whole_frame slot frame_num top bottom idr) h = (one None (flags2 (slot =? 0) (slot =? 1)) (flags2 false false) [] last dec v, None) ->
  exists d2, Dpb_finish d (read_sps p) (whole_frame slot frame_num top bottom idr) h = (d2, inr ()) /\
    Dpb_next_output d2 = (d2 <| dp_output := [] |>, Some (mkOutput slot (Z.min top bottom))) /\
    holds_one slot frame_num (Dpb_taken (d2 <| dp_output := [] |>) slot).
Proof.
  intros Hslot <- Hm. unfold Dpb_finish. rewrite Hm. clear Hm.
  cbn [cu_structure cu_top_poc cu_bottom_poc cu_mmco5 cu_reference cu_frame_num whole_frame negb]. cbv zeta. rewrite bool_decide_true by done.
  set (e := mkEntry slot frame_num (i32_or_0 frame_num) 0 (mkField top ShortTerm true) (mkField bottom ShortTerm true) false true).
  assert (store_current (one None (flags2 (slot =? 0) (slot =? 1)) (flags2 false false) [] last dec v) (whole_frame slot frame_num top bottom idr) frame_num top bottom ShortTerm None =
    (one (Some e) (flags2 (slot =? 0) (slot =? 1)) (flags2 false false) [] last dec v, inr ())) as -> by reflexivity.
  assert (forall c, evict_while BUMPS (fun d => Z.max (dp_max_num_ref_frames d) 1 <? short_term_count d + long_term_count d)
    (one (Some e) c (flags2 false false) [] last dec v) = one (Some e) c (flags2 false false) [] last dec v) as -> by reflexivity.
  assert (exists v', pv_ref_frame_num v' = frame_num /\
    carry_previous (one (Some e) (flags2 (slot =? 0) (slot =? 1)) (flags2 false false) [] last dec v) (read_sps p) (whole_frame slot frame_num top bottom idr) h frame_num top bottom =
    one (Some e) (flags2 (slot =? 0) (slot =? 1)) (flags2 false false) [] last dec v') as (v' & Hv & ->) by (eexists; split; [|reflexivity]; reflexivity).
  assert (bump_as_needed (one (Some e) (flags2 (slot =? 0) (slot =? 1)) (flags2 false false) [] last dec v') (whole_frame slot frame_num top bottom idr) h =
    one (Some (e <| en_output_needed := false |>)) (flags2 (slot =? 0) (slot =? 1)) (flags2 (slot =? 0) (slot =? 1)) [mkOutput slot (Z.min top bottom)]
      (Some (Z.min top bottom)) (Some (Z.min top bottom)) v') as -> by (destruct Hslot as [-> | ->]; reflexivity).
  eexists. split; [reflexivity|]. split; [reflexivity|]. split; [done|].
  exists (i32_or_0 frame_num), 0, top, bottom, (Some (Z.min top bottom)), (Some (Z.min top bottom)), v'. split; [done|]. destruct Hslot as [-> | ->]; reflexivity.
Qed.

Lemma finish_refresh p id v : let d := one None (flags2 true false) (flags2 false false) [] None None v in
  exists d2, Dpb_finish d (read_sps p) (whole_frame 0 0 0 0 true) (read_slice p (Refresh id)) = (d2, inr ()) /\
    Dpb_next_output d2 = (d2 <| dp_output := [] |>, Some (mkOutput 0 0)) /\ holds_one 0 0 (Dpb_taken (d2 <| dp_output := [] |>) 0).
Proof. intros d. by eapply (finish_one p 0 0 0 0 true (read_slice p (Refresh id)) d d None None v); [left| |]. Qed.

Lemma finish_predicted p fn' poc b fn w long t0 b0 last dec v top bottom :
  b = 0 \/ b = 1 ->
  let d := one (Some (ref_entry b fn w long t0 b0)) (flags2 true true) (flags2 false false) [] last dec v in
  exists d2, Dpb_finish d (read_sps p) (whole_frame (1 - b) fn' top bottom false) (read_slice p (Predicted fn' poc)) = (d2, inr ()) /\
    Dpb_next_output d2 = (d2 <| dp_output := [] |>, Some (mkOutput (1 - b) (Z.min top bottom))) /\
    holds_one (1 - b) fn' (Dpb_taken (d2 <| dp_output := [] |>) (1 - b)).
Proof.
  intros Hb d. set (w' := i32_or_0 (if fn' <? fn then fn - Sps_max_frame_num (read_sps p) else fn)).
  apply (finish_one p (1 - b) fn' top bottom false (read_slice p (Predicted fn' poc)) d
    (one (Some (ref_entry b fn w' long t0 b0)) (flags2 true true) (flags2 false false) [] last dec v) last dec v); [lia|reflexivity|].
  change (apply_marking ?d ?sps ?c _) with (sliding_window d, @None Z). f_equal.
  destruct Hb as [-> | ->]; reflexivity.
Qed.

Lemma fill_gap_next d sps h : sh_frame_num h = wadd 32 (pv_ref_frame_num (dp_previous d)) 1 mod Sps_max_frame_num sps -> fill_gap d sps h = (d, inr ()).
Proof. intros E. unfold fill_gap. by rewrite <- E, Z.eqb_refl, orb_true_r. Qed.

Lemma begin_predicted p fn' poc b fn d : holds_one b fn d -> fn' = wadd 32 fn 1 mod Sps_max_frame_num (read_sps p) ->
  exists w long t0 b0 last dec v top bottom, pv_ref_frame_num v = fn /\
    Dpb_begin d (read_sps p) (read_slice p (Predicted fn' poc)) =
    (one (Some (ref_entry b fn w long t0 b0)) (flags2 true true) (flags2 false false) [] last dec v, inr (whole_frame (1 - b) fn' top bottom false)).
Proof.
  intros (Hb & w & long & t0 & b0 & last & dec & v & Hv & ->) Hfn. unfold Dpb_begin.
  change (SliceHeader_is_idr (read_slice p (Predicted fn' poc))) with false. change (structure_of (read_slice p (Predicted fn' poc))) with WholeFrame. cbn iota.
  rewrite bool_decide_true by done. cbn [negb andb]. rewrite fill_gap_next by (cbn; by rewrite Hv).
  destruct (order_counts _ _ _) as [top bottom]. exists w, long, t0, b0, last, dec, v, top, bottom. split; [done|].
  destruct Hb as [-> | ->]; reflexivity.
Qed.


(** The slice's list: the one reference. *)
Lemma lists_predicted p fn' poc b fn w long t0 b0 held last dec v top bottom :
  exists w' l0,
    reference_lists (one (Some (ref_entry b fn w long t0 b0)) held (flags2 false false) [] last dec v) (read_sps p) (whole_frame (1 - b) fn' top bottom false)
      (read_slice p (Predicted fn' poc)) =
    (one (Some (ref_entry b fn w' long t0 b0)) held (flags2 false false) [] last dec v, inr (l0, RefList_default)) /\
    RefList_slice l0 = [Some (mkRefPic b t0 b0 fn false None)].
Proof. eexists _, _. split; reflexivity. Qed.

(** ** Reading an access unit *)

Lemma written_unit f bytes : writes_unit f bytes -> zlen bytes <= 2048 -> written f = bytes.
Proof.
  intros Hf Hl. unfold written. destruct (Hf (repeat 0 2048)) as [-> _]; [|change (zlen (repeat 0 2048)) with 2048; lia].
  unfold zlen. rewrite Nat2Z.id. apply take_app_length.
Qed.

Lemma read_pps_unit sps_of p : sps_of 0 = Some (read_sps p) -> pps_parse (escaped 0 pps_payload) sps_of = inr read_pps.
Proof.
  intros H. assert (forall o, sps_of 0 = o -> pps_parse (escaped 0 pps_payload) sps_of = pps_parse (escaped 0 pps_payload) (fun _ => o)) as E.
  { intros o <-. vm_compute. by destruct (sps_of 0). }
  rewrite (E _ H). vm_compute. reflexivity.
Qed.

Lemma read_slice_unit p picture unit_ pps_of sps_of :
  params_ok p -> picture_ok p picture -> carries p picture unit_ -> pps_of 0 = Some read_pps -> sps_of 0 = Some (read_sps p) ->
  slice_parse unit_ pps_of sps_of = inr (read_slice p picture) /\ unit_ <> [] /\ no_start 0 unit_ /\
  exists payload, unit_ = (if is_refresh picture then 0x65 else 0x41) :: payload.
Proof.
  intros Hok Hp (payload & data & Hb & Hl & Hbits & ->) Hpps Hsps. pose proof (escaped_length 0 payload) as He.
  split; [|split; [done|split; [apply unit_no_start; by destruct picture|by eexists]]].
  pose proof (parse_payload _ payload _ _ _ Hb ltac:(lia) Hbits (slice_gets p picture pps_of sps_of Hok Hp Hpps Hsps) (escaped 0 payload)
    (unescape_escaped 0 _) (escaped_bytes 0 _ Hb) ltac:(lia)) as Hparse. unfold slice_parse. destruct picture; exact Hparse.
Qed.

(** The sets as units, and what a decoder reads of them. *)
Lemma set_units p : params_ok p -> exists sps_payload_,
  written (sequence_parameter_set p) = START_CODE ++ 0x67 :: sps_payload_ /\ written picture_parameter_set = START_CODE ++ 0x68 :: escaped 0 pps_payload /\
  no_start 0 (0x67 :: sps_payload_) /\ sps_parse sps_payload_ = inr (read_sps p).
Proof.
  intros Hp. destruct (sps_payload p Hp) as (payload & k & Hout & Hb & Hbits & Hl). exists (escaped 0 payload). pose proof (escaped_length 0 payload) as He.
  split; [|split; [|split]].
  - apply written_unit; [intros out; rewrite Hout; apply emit_writes|]. rewrite zlen_app, zlen_cons. change (zlen START_CODE) with 4. lia.
  - apply written_unit; [intros out; rewrite pps_emits; apply emit_writes|]. vm_compute. discriminate.
  - by apply unit_no_start.
  - eapply (parse_payload sps_body payload); [done|lia|exact Hbits|apply gets_at; by apply sps_gets|apply unescape_escaped|by apply escaped_bytes|lia].
Qed.

(** A stream the encoder's sets have reached, or a new one. *)
Record tuned (p : Params) (s : DecodeStream) : Prop := mkTuned {
  tn_tables : 0 < zlen (ds_sps s) /\ 0 < zlen (ds_pps s);
  tn_active : ds_active_sps s = None \/ ds_active_sps s = Some (read_sps p);
  tn_dpb : at_rest (Dpb_configure (ds_dpb s) (read_sps p)) /\ (ds_active_sps s = Some (read_sps p) -> at_rest (ds_dpb s));
}.

Lemma configure_at_rest p d : hp_max_num_ref_frames p = 1 -> at_rest d -> Dpb_configure d (read_sps p) = d.
Proof.
  intros H1 [(last & dec & v & ->)|(b & fn & Hb & w & long & t & b0 & last & dec & v & _ & ->)];
    unfold Dpb_configure, Sps_dpb_frames, Sps_reorder_frames; cbn; rewrite H1; reflexivity.
Qed.

Lemma new_tuned p : hp_max_num_ref_frames p = 1 -> tuned p DecodeStream_new.
Proof.
  intros H1. split; [split; reflexivity|by left|]. split; [|done]. left. exists None, None, Previous_default.
  unfold Dpb_configure, Sps_dpb_frames, Sps_reorder_frames. cbn. rewrite H1. reflexivity.
Qed.

Lemma get_put_table {A} (l : list (option A)) (x : A) : 0 < zlen l -> mjoin (get_at (put_at l 0 (Some x)) 0) = Some x.
Proof. intros H. rewrite get_put_at_eq by lia. done. Qed.

Lemma adopt_tuned p s : hp_max_num_ref_frames p = 1 -> tuned p s ->
  exists s', adopt s (read_sps p) = (s', false) /\ at_rest (ds_dpb s') /\ ds_sps s' = ds_sps s /\ ds_pps s' = ds_pps s /\
    ds_active_sps s' = Some (read_sps p) /\ ds_staged s' = ds_staged s /\ (ds_active_sps s = Some (read_sps p) -> s' = s).
Proof.
  intros H1 [_ [Ha|Ha] [Hc Hr]]; unfold adopt; rewrite Ha; [eexists; by split_and!|].
  unfold same_format. rewrite !Z.eqb_refl. cbn [negb andb]. rewrite bool_decide_true by done. exists s. split_and!; auto.
Qed.

Lemma framed_units units : Forall (fun u => u <> [] /\ no_start 0 u) units -> Units_all (flat_map (fun u => START_CODE ++ u) units) = located 0 units.
Proof. intros H. change (flat_map (fun u => START_CODE ++ u) units) with (framed units). by apply Units_framed. Qed.

(** One unit at a time. *)
Lemma units_sps payload off units s first slices p : sps_parse payload = inr (read_sps p) ->
  read_units (mkUnit (0x67 :: payload) off :: units) s first slices = read_units units (put_sps s (read_sps p)) first slices.
Proof. intros H. cbn [read_units un_bytes]. change (Z.land 0x67 0x1F) with 7. cbn [Z.eqb Pos.eqb]. by rewrite H. Qed.
Lemma units_pps payload off units s first slices pps : pps_parse payload (sps_of s) = inr pps ->
  read_units (mkUnit (0x68 :: payload) off :: units) s first slices = read_units units (put_pps s pps) first slices.
Proof. intros H. cbn [read_units un_bytes]. change (Z.land 0x68 0x1F) with 8. cbn [Z.eqb Pos.eqb]. by rewrite H. Qed.
Lemma units_slice p picture unit_ off s :
  params_ok p -> picture_ok p picture -> carries p picture unit_ -> sps_of s 0 = Some (read_sps p) -> pps_of s 0 = Some read_pps ->
  read_units [mkUnit unit_ off] s None [] =
  (s, inr (Some (read_slice p picture), [mkSlice (read_slice p picture) off (zlen unit_) RefList_default RefList_default])).
Proof.
  intros Hok Hp Hc Hs Hps. destruct (read_slice_unit p picture unit_ (pps_of s) (sps_of s) Hok Hp Hc Hps Hs) as (E & _ & _ & payload & ->).
  cbn [read_units un_bytes]. replace (Z.land (if is_refresh picture then 0x65 else 0x41) 0x1F) with (if is_refresh picture then 5 else 1) by (by destruct picture).
  rewrite E. by destruct picture.
Qed.

(** Reading a refresh: the sets are kept, and the slice is the picture. *)
Definition one_slice (p : Params) (picture : Picture) (slices : list Slice) : Prop := exists slice, slices = [slice] /\ sl_header slice = read_slice p picture.
Definition has_sets (p : Params) (s : DecodeStream) : Prop := sps_of s 0 = Some (read_sps p) /\ pps_of s 0 = Some read_pps.

Lemma read_refresh p id unit_ s :
  params_ok p -> picture_ok p (Refresh id) -> carries p (Refresh id) unit_ -> tuned p s -> ds_staged s = false -> exists s' slices,
    read_units (Units_all (access_unit p (Refresh id) unit_)) s None [] = (s', inr (Some (read_slice p (Refresh id)), slices)) /\
    one_slice p (Refresh id) slices /\ has_sets p s' /\ ds_staged s' = false /\ tuned p s'.
Proof.
  intros Hok Hp Hc [[Ht1 Ht2] Ha Hd] Hst. destruct (set_units p Hok) as (sp & E1 & E2 & Hns & Hsp).
  destruct (read_slice_unit p _ unit_ (fun id => if id =? 0 then Some read_pps else None) (fun id => if id =? 0 then Some (read_sps p) else None) Hok Hp Hc eq_refl eq_refl)
    as (_ & Hne & Hnu & _).
  assert (Units_all (access_unit p (Refresh id) unit_) = located 0 [0x67 :: sp; 0x68 :: escaped 0 pps_payload; unit_]) as ->.
  { rewrite <- framed_units; [unfold access_unit; cbn [is_refresh]; rewrite E1, E2; cbn [flat_map]; by rewrite <- !app_assoc, app_nil_r|].
    constructor; [by split|]. constructor; [split; [done|by apply unit_no_start]|]. constructor; [by split|constructor]. }
  set (s1 := put_sps s (read_sps p)). assert (sps_of s1 0 = Some (read_sps p)) as Hs1 by (unfold sps_of, s1, put_sps; cbn [ds_sps]; by apply get_put_table).
  set (s2 := put_pps s1 read_pps). assert (pps_of s2 0 = Some read_pps) as Hs2 by (unfold pps_of, s2, put_pps; cbn [ds_pps]; by apply get_put_table).
  cbn [located]. rewrite (units_sps _ _ _ _ _ _ p Hsp). fold s1. rewrite (units_pps _ _ _ _ _ _ read_pps (read_pps_unit _ p Hs1)). fold s2.
  rewrite (units_slice p (Refresh id)) by done. eexists s2, _. split; [reflexivity|]. split; [eexists; split; reflexivity|]. split; [by split|]. split; [exact Hst|].
  split; [|exact Ha|exact Hd]. split; [exact (eq_ind_r (fun n => 0 < n) Ht1 (zlen_put_at _ _ _))|exact (eq_ind_r (fun n => 0 < n) Ht2 (zlen_put_at _ _ _))].
Qed.

Lemma read_predicted p fn poc unit_ s :
  params_ok p -> picture_ok p (Predicted fn poc) -> carries p (Predicted fn poc) unit_ -> has_sets p s -> exists slices,
    read_units (Units_all (access_unit p (Predicted fn poc) unit_)) s None [] = (s, inr (Some (read_slice p (Predicted fn poc)), slices)) /\
    one_slice p (Predicted fn poc) slices.
Proof.
  intros Hok Hp Hc [Hs Hps]. destruct (read_slice_unit p _ unit_ _ _ Hok Hp Hc Hps Hs) as (_ & Hne & Hnu & _).
  assert (Units_all (access_unit p (Predicted fn poc) unit_) = located 0 [unit_]) as ->.
  { rewrite <- framed_units; [cbn [flat_map]; by rewrite app_nil_r|]. constructor; [by split|constructor]. }
  cbn [located]. rewrite (units_slice p (Predicted fn poc)) by done. eexists. split; [reflexivity|]. eexists. split; reflexivity.
Qed.

(** ** Showing a picture *)

Lemma show_staged s unit_ s1 slice d2 o :
  DecodeStream_read s unit_ = (s1, inr ReadPicture) -> jb_slices (ds_job s1) = [slice] -> ds_staged s1 = true ->
  Dpb_finish (ds_dpb s1) (jb_sps (ds_job s1)) (jb_current (ds_job s1)) (sl_header slice) = (d2, inr ()) ->
  Dpb_next_output d2 = (d2 <| dp_output := [] |>, Some o) ->
  show s unit_ = Some (s1 <| ds_staged := false |> <| ds_dpb := Dpb_taken (d2 <| dp_output := [] |>) (ou_slot o) |>,
                       mkShown (jb_current (ds_job s1)) (RefList_slice (sl_l0 slice)) o).
Proof.
  intros Hr Hsl Hst Hf Ho. unfold show. rewrite Hr, Hsl. unfold DecodeStream_finish. rewrite Hst. cbn [negb].
  change (ds_job (s1 <| ds_staged := false |>)) with (ds_job s1). change (ds_dpb (s1 <| ds_staged := false |>)) with (ds_dpb s1). rewrite Hsl, Hf.
  unfold DecodeStream_next_output. cbn [ds_dpb]. change (ds_dpb (_ <| ds_dpb := d2 |>)) with d2. by rewrite Ho.
Qed.

Record playing (p : Params) (b frame_num : Z) (s : DecodeStream) : Prop := mkPlaying {
  py_sets : has_sets p s;
  py_tables : 0 < zlen (ds_sps s) /\ 0 < zlen (ds_pps s);
  py_active : ds_active_sps s = Some (read_sps p);
  py_dpb : holds_one b frame_num (ds_dpb s);
}.

Lemma playing_tuned p b fn s : hp_max_num_ref_frames p = 1 -> playing p b fn s -> tuned p s.
Proof.
  intros H1 [_ Ht Ha Hd]. assert (at_rest (ds_dpb s)) as Hr by exact (or_intror (ex_intro _ b (ex_intro _ fn Hd))). constructor; [exact Ht|right; exact Ha|]. split; [|intros _; exact Hr]. rewrite (configure_at_rest p _ H1 Hr). exact Hr.
Qed.

(** Once its headers are read, a picture of the sequence in force is staged. *)
Lemma read_staged p picture s unit_ s1 slices :
  hp_max_num_ref_frames p = 1 -> read_units (Units_all unit_) (s <| ds_staged := false |>) None [] = (s1, inr (Some (read_slice p picture), slices)) ->
  has_sets p s1 -> tuned p s1 ->
  exists s2, DecodeStream_read s unit_ = stage s2 (read_sps p) read_pps (read_slice p picture) slices /\ has_sets p s2 /\
    (0 < zlen (ds_sps s2) /\ 0 < zlen (ds_pps s2)) /\ ds_active_sps s2 = Some (read_sps p) /\ at_rest (ds_dpb s2) /\ (ds_active_sps s1 = Some (read_sps p) -> s2 = s1).
Proof.
  intros H1 Hu [Hs Hps] Ht. unfold DecodeStream_read. rewrite Hu. change (sh_pps_id (read_slice p picture)) with 0. rewrite Hps.
  change (pp_sps_id read_pps) with 0. rewrite Hs. destruct (adopt_tuned p s1 H1 Ht) as (s2 & -> & Hr & Es & Ep & Ha & _ & Hsame).
  exists s2. split; [done|]. unfold has_sets, sps_of, pps_of in *. rewrite Es, Ep. destruct Ht as [[? ?] _ _]. by split_and!.
Qed.

Lemma show_refresh p id unit_ s :
  params_ok p -> hp_max_num_ref_frames p = 1 -> picture_ok p (Refresh id) -> carries p (Refresh id) unit_ -> tuned p s ->
  exists s', show s (access_unit p (Refresh id) unit_) = Some (s', mkShown (whole_frame 0 0 0 0 true) [] (mkOutput 0 0)) /\ playing p 0 0 s'.
Proof.
  intros Hok H1 Hp Hc Ht. destruct (read_refresh p id unit_ (s <| ds_staged := false |>) Hok Hp Hc) as (s1 & slices & Hu & (slice & -> & Hh) & Hsets & Hst & Ht1);
    [by destruct Ht|done|].
  destruct (read_staged p (Refresh id) s _ s1 [slice] H1 Hu Hsets Ht1) as (s2 & Hr & Hsets2 & Htab & Ha & Hrest & _).
  destruct (begin_refresh p id _ Hrest) as (v & Hb). destruct (finish_refresh p id v) as (d2 & Hf & Ho & Hone).
  set (d1 := one None (flags2 true false) (flags2 false false) [] None None v) in *.
  set (s3 := s2 <| ds_dpb := d1 |> <| ds_job := mkJob (read_sps p) read_pps (whole_frame 0 0 0 0 true) [] [mkSlice (sl_header slice) (sl_offset slice) (sl_len slice) RefList_default RefList_default] |> <| ds_staged := true |>).
  assert (stage s2 (read_sps p) read_pps (read_slice p (Refresh id)) [slice] = (s3, inr ReadPicture)) as Es.
  { unfold stage, s3. rewrite Hb. cbn [slice_lists]. rewrite Hh. reflexivity. }
  rewrite Es in Hr. pose proof (show_staged s _ s3 (mkSlice (sl_header slice) (sl_offset slice) (sl_len slice) RefList_default RefList_default) d2 (mkOutput 0 0) Hr eq_refl eq_refl) as Hshow.
  eexists. split; [apply Hshow; [cbn [sl_header]; rewrite Hh; exact Hf|exact Ho]|]. by split.
Qed.

Lemma show_predicted p fn' poc unit_ b fn s :
  params_ok p -> hp_max_num_ref_frames p = 1 -> picture_ok p (Predicted fn' poc) -> carries p (Predicted fn' poc) unit_ -> playing p b fn s ->
  fn' = wadd 32 fn 1 mod Sps_max_frame_num (read_sps p) ->
  exists s' top bottom t0 b0, show s (access_unit p (Predicted fn' poc) unit_) =
      Some (s', mkShown (whole_frame (1 - b) fn' top bottom false) [Some (mkRefPic b t0 b0 fn false None)] (mkOutput (1 - b) (Z.min top bottom))) /\
    playing p (1 - b) fn' s'.
Proof.
  intros Hok H1 Hp Hc Hpl Hfn. pose proof Hpl as [Hsets Htab Ha Hd].
  set (s0 := s <| ds_staged := false |>). destruct (read_predicted p fn' poc unit_ s0 Hok Hp Hc Hsets) as (slices & Hu & slice & -> & Hh).
  assert (tuned p s0) as Ht by (apply (playing_tuned p b fn); [done|]; by split).
  destruct (read_staged p (Predicted fn' poc) s (access_unit p (Predicted fn' poc) unit_) s0 [slice] H1 Hu Hsets Ht) as (s2 & Hr & _ & _ & _ & _ & Hsame). rewrite (Hsame Ha) in Hr. clear s2 Hsame.
  destruct (begin_predicted p fn' poc b fn (ds_dpb s) Hd Hfn) as (w & long & t0 & b0 & last & dec & v & top & bottom & Hv & Hb).
  destruct (lists_predicted p fn' poc b fn w long t0 b0 (flags2 true true) last dec v top bottom) as (w' & l0 & Hl & Hl0).
  destruct Hd as [Hbb _]. destruct (finish_predicted p fn' poc b fn w' long t0 b0 last dec v top bottom Hbb) as (d2 & Hf & Ho & Hone).
  set (sl := mkSlice (sl_header slice) (sl_offset slice) (sl_len slice) l0 RefList_default).
  set (d1 := one (Some (ref_entry b fn w' long t0 b0)) (flags2 true true) (flags2 false false) [] last dec v) in *.
  assert (exists refs, stage s0 (read_sps p) read_pps (read_slice p (Predicted fn' poc)) [slice] =
    (s0 <| ds_dpb := d1 |> <| ds_job := mkJob (read_sps p) read_pps (whole_frame (1 - b) fn' top bottom false) refs [sl] |> <| ds_staged := true |>, inr ReadPicture))
    as (refs & Es).
  { eexists. unfold stage. change (ds_dpb s0) with (ds_dpb s). rewrite Hb. cbn [slice_lists]. rewrite Hh, Hl. unfold sl. rewrite Hh. reflexivity. }
  rewrite Es in Hr. pose proof (show_staged s _ _ sl d2 (mkOutput (1 - b) (Z.min top bottom)) Hr eq_refl eq_refl) as Hshow.
  eexists _, top, bottom, t0, b0. split.
  - rewrite <- Hl0. apply Hshow; [cbn [sl_header sl]; rewrite Hh; exact Hf|exact Ho].
  - by split.
Qed.

(** ** The encoder's counters and the decoder's buffer in step *)

Record in_step (p : Params) (c : Counters) (fn : Z) : Prop := mkInStep {
  is_frame_num : ct_frame_num c = fn /\ 0 <= fn < 2 ^ (hp_log2_max_frame_num_minus4 p + 4);
  is_idr_pic_id : ct_idr_pic_id c = 0 \/ ct_idr_pic_id c = 1;
  is_reference : ct_reference c <> None;
}.

Lemma counter_period n : 0 <= n <= 12 -> wrap 32 (Z.shiftl 1 (wadd 32 n 4)) = 2 ^ (n + 4) /\ 16 <= 2 ^ (n + 4) <= 65536.
Proof.
  intros Hn. assert (wadd 32 n 4 = n + 4) as -> by (apply wrap_small; unfold fits; lia). rewrite Z.shiftl_mul_pow2 by lia.
  pose proof (Z.pow_le_mono_r 2 4 (n + 4) ltac:(lia) ltac:(lia)). pose proof (Z.pow_le_mono_r 2 (n + 4) 16 ltac:(lia) ltac:(lia)).
  change (2 ^ 4) with 16 in *. change (2 ^ 16) with 65536 in *. rewrite wrap_small by (unfold fits; lia). lia.
Qed.

Lemma plan_refresh p c force : params_ok p -> ct_idr_pic_id c = 0 \/ ct_idr_pic_id c = 1 -> force || bool_decide (ct_reference c = None) = true ->
  exists c', plan_picture p c force = (Refresh (ct_idr_pic_id c), c') /\ in_step p c' 0 /\ picture_ok p (Refresh (ct_idr_pic_id c)).
Proof.
  intros [_ _ _ _ Hn Ho _] Hid Hf. unfold plan_picture. rewrite Hf. eexists. split; [reflexivity|].
  destruct (counter_period _ Hn) as [_ ?], (counter_period _ Ho) as [_ ?]. split; [split; cbn; [lia|destruct Hid as [-> | ->]; auto|done]|].
  unfold picture_ok. cbn. lia.
Qed.

Lemma plan_predicted p c fn : params_ok p -> in_step p c fn ->
  exists fn' poc c', plan_picture p c false = (Predicted fn' poc, c') /\ in_step p c' fn' /\ picture_ok p (Predicted fn' poc) /\
    fn' = wadd 32 fn 1 mod Sps_max_frame_num (read_sps p) /\ fn' = (fn + 1) mod 2 ^ (hp_log2_max_frame_num_minus4 p + 4).
Proof.
  intros [_ _ _ _ Hn Ho _] [[Hfn Hr] Hid Href]. unfold plan_picture, poc_period. rewrite Hfn. rewrite bool_decide_false by done. cbn [orb].
  destruct (counter_period _ Hn) as [En Bn], (counter_period _ Ho) as [Eo Bo]. rewrite En, Eo.
  eexists _, _, _. split; [reflexivity|].
  assert (Sps_max_frame_num (read_sps p) = 2 ^ (hp_log2_max_frame_num_minus4 p + 4)) as -> by (unfold Sps_max_frame_num; cbn; rewrite Z.shiftl_mul_pow2 by lia; lia).
  assert (wadd 32 fn 1 = fn + 1) as -> by (apply wrap_small; unfold fits; lia).
  pose proof (Z.mod_pos_bound (fn + 1) (2 ^ (hp_log2_max_frame_num_minus4 p + 4)) ltac:(lia)).
  pose proof (Z.mod_pos_bound (wrap 32 ((fn + 1) mod 2 ^ (hp_log2_max_frame_num_minus4 p + 4) * 2)) (2 ^ (hp_log2_max_poc_lsb_minus4 p + 4)) ltac:(lia)).
  split; [by split|]. split; [unfold picture_ok; cbn; lia|done].
Qed.

(** What a stream has last shown. *)
Definition last_shown (b fn : Z) (this : Shown) : Prop := cu_slot (sw_current this) = b /\ cu_frame_num (sw_current this) = fn.

Lemma play_on p : params_ok p -> hp_max_num_ref_frames p = 1 -> forall forces c s b fn before units_,
  playing p b fn s -> in_step p c fn -> last_shown b fn before -> Forall2 (carries p) (fst (plan_all p c forces)) units_ ->
  exists s' shown b' fn', show_all s (zip_with (access_unit p) (fst (plan_all p c forces)) units_) = Some (s', shown) /\
    chained (Some before) (fst (plan_all p c forces)) shown /\ playing p b' fn' s' /\ in_step p (snd (plan_all p c forces)) fn'.
Proof.
  intros Hok H1. induction forces as [|force forces IH]; intros c s b fn before units_ Hpl Hc Hl Hcar; cbn [plan_all] in *.
  - exists s, [], b, fn. by split_and!.
  - destruct force.
    + destruct (plan_refresh p c true Hok (is_idr_pic_id _ _ _ Hc) eq_refl) as (c' & Ep & Hc' & Hp). rewrite Ep in *.
      specialize (IH c'). destruct (plan_all p c' forces) as [pictures c2]. cbn [fst snd] in *. apply Forall2_cons_inv_l in Hcar as (u & us & Hu & Hus & ->). cbn [zip_with show_all].
      destruct (show_refresh p _ u s Hok H1 Hp Hu (playing_tuned _ _ _ _ H1 Hpl)) as (s1 & Es & Hpl1). rewrite Es. cbn [mbind option_bind].
      destruct (IH s1 0 0 (mkShown (whole_frame 0 0 0 0 true) [] (mkOutput 0 0)) us Hpl1 Hc' ltac:(done) Hus) as (s' & shown & b' & fn' & -> & Hch & Hpl' & Hc2).
      eexists _, _, b', fn'. split; [reflexivity|]. cbn [chained]. by split_and!.
    + destruct (plan_predicted p c fn Hok Hc) as (fn1 & poc & c' & Ep & Hc' & Hp & Hfn & _). rewrite Ep in *.
      specialize (IH c'). destruct (plan_all p c' forces) as [pictures c2]. cbn [fst snd] in *. apply Forall2_cons_inv_l in Hcar as (u & us & Hu & Hus & ->). cbn [zip_with show_all].
      destruct (show_predicted p fn1 poc u b fn s Hok H1 Hp Hu Hpl Hfn) as (s1 & top & bottom & t0 & b0 & Es & Hpl1). rewrite Es. cbn [mbind option_bind].
      destruct (IH s1 (1 - b) fn1 (mkShown (whole_frame (1 - b) fn1 top bottom false) [Some (mkRefPic b t0 b0 fn false None)] (mkOutput (1 - b) (Z.min top bottom))) us Hpl1 Hc'
        ltac:(by split) Hus) as (s' & shown & b' & fn' & -> & Hch & Hpl' & Hc2).
      eexists _, _, b', fn'. split; [reflexivity|]. destruct Hl as [Hlb Hlf]. cbn [chained sw_current cu_idr cu_frame_num cu_pair_of sw_output sw_l0 whole_frame is_refresh frame_num_of cu_slot].
      split_and!; try done. exists before, (mkRefPic b t0 b0 fn false None). cbn. split_and!; try done. lia.
Qed.

(** From the start: the first picture is a refresh, whatever was asked for. *)
Lemma play_all p forces units_ : params_ok p -> hp_max_num_ref_frames p = 1 -> forces <> [] ->
  Forall2 (carries p) (fst (plan_all p Counters_new forces)) units_ ->
  exists s shown b fn, show_all DecodeStream_new (zip_with (access_unit p) (fst (plan_all p Counters_new forces)) units_) = Some (s, shown) /\
    chained None (fst (plan_all p Counters_new forces)) shown /\ playing p b fn s /\ in_step p (snd (plan_all p Counters_new forces)) fn.
Proof.
  intros Hok H1 Hne Hcar. destruct forces as [|force forces]; [done|]. cbn [plan_all] in *.
  destruct (plan_refresh p Counters_new force Hok ltac:(by left) (orb_true_r force)) as (c' & Ep & Hc' & Hp). rewrite Ep in *.
  pose proof (play_on p Hok H1 forces c') as IH. destruct (plan_all p c' forces) as [pictures c2]. cbn [fst snd] in *.
  apply Forall2_cons_inv_l in Hcar as (u & us & Hu & Hus & ->). cbn [zip_with show_all].
  destruct (show_refresh p _ u DecodeStream_new Hok H1 Hp Hu (new_tuned p H1)) as (s1 & Es & Hpl1). rewrite Es. cbn [mbind option_bind].
  destruct (IH s1 0 0 (mkShown (whole_frame 0 0 0 0 true) [] (mkOutput 0 0)) us Hpl1 Hc' ltac:(done) Hus) as (s' & shown & b' & fn' & -> & Hch & Hpl' & Hc2).
  eexists _, _, b', fn'. split; [reflexivity|]. cbn [chained]. by split_and!.
Qed.



(** Slice data appended to a header. *)
Lemma carries_data p picture data : params_ok p -> picture_ok p picture -> bytes_ok data -> zlen data < 2 ^ 29 ->
  carries p picture ((if is_refresh picture then 0x65 else 0x41) :: escaped 0 (slice_payload p picture ++ data)).
Proof.
  intros Hok Hp Hd Hl. destruct (slice_payload_bits p picture Hok Hp) as (_ & k & Hk & Hb & Hbits & Hlen). pose proof (slice_bits_short p picture Hok Hp).
  exists (slice_payload p picture ++ data), (repeat false k ++ bits_of data). split; [by apply Forall_app|]. split; [rewrite zlen_app; lia|].
  split; [by rewrite bits_of_app, Hbits, <- app_assoc|done].
Qed.

(** C7: A host's pictures are decoded by a client of the same code. Whatever keyframes are
    forced, and whatever slice data the device wrote behind the headers, every access unit
    is read as one picture, staged and finished without error, and that picture leaves at
    once: a refresh decodes alone, and a predicted picture against exactly one reference,
    the picture before it, from another surface, under the number it was coded with. *)
Theorem stream_decodes p forces units_ :
  params_ok p -> hp_max_num_ref_frames p = 1 -> forces <> [] ->
  let pictures := fst (plan_all p Counters_new forces) in
  Forall2 (carries p) pictures units_ ->
  exists s shown, show_all DecodeStream_new (zip_with (access_unit p) pictures units_) = Some (s, shown) /\ chained None pictures shown.
Proof.
  intros Hok H1 Hne pictures Hcar. destruct (play_all p forces units_ Hok H1 Hne Hcar) as (s & shown & b & fn & Hs & Hc & _ & _). by exists s, shown.
Qed.

Definition sample_data : list Z := [0; 0; 1; 0; 0; 0; 255].
Definition sample_unit (picture : Picture) : list Z :=
  (if is_refresh picture then 0x65 else 0x41) :: escaped 0 (slice_payload sample_params picture ++ sample_data).
Lemma sample_params_ok : params_ok sample_params.
Proof. constructor; cbn; lia. Qed.
Lemma sample_carries picture : picture_ok sample_params picture -> carries sample_params picture (sample_unit picture).
Proof.
  intros Hp. apply carries_data; [apply sample_params_ok|done| |done]. apply list.Forall_forall. intros x Hx.
  repeat (apply elem_of_cons in Hx as [->|Hx]; [done|]). by apply not_elem_of_nil in Hx.
Qed.

(** A refresh, a predicted picture, a forced keyframe and another predicted picture, with
    slice data full of start codes. *)
Lemma stream_decodes_witness :
  let pictures := [Refresh 0; Predicted 1 2; Refresh 1; Predicted 1 2] in
  fst (plan_all sample_params Counters_new [false; false; true; false]) = pictures /\
  exists s shown, show_all DecodeStream_new (zip_with (access_unit sample_params) pictures (map sample_unit pictures)) = Some (s, shown) /\ chained None pictures shown.
Proof.
  intros pictures. split; [vm_compute; reflexivity|].
  apply (stream_decodes sample_params [false; false; true; false] (map sample_unit pictures)); [apply sample_params_ok|reflexivity|discriminate|].
  change (fst (plan_all sample_params Counters_new [false; false; true; false])) with pictures. unfold pictures.
  repeat (apply list.Forall2_cons; split; [apply sample_carries; unfold picture_ok; cbn; lia|]). constructor.
Defined.


