(* ===== verification/H264StreamSpec.v ===== *)
(** What an H.264 stream promises the device it decodes on, in every run of reads,
    finished and abandoned pictures, and surfaces read back: no frame and no first field
    is decoded into a surface the buffer or the device still needs, such a picture can
    always be finished, and what waits leaves in order.  And what it does not do: an
    abandoned picture's surface is never used again, a second field may be decoded into
    a surface that is shown, and of the frames inserted for a gap one is kept. *)

From S2P Require Import Prelude BitWriter BitReader H264Write H264Read H264Spec Dpb DpbSpec H264Stream H264Play.
From Stdlib Require Import Sorted.
From stdpp Require Import relations.
#[local] Open Scope Z_scope.

(** ** Runs *)

(** A stream and the surfaces the device reads from, a step at a time. *)
Inductive device_step : list Z * DecodeStream -> list Z * DecodeStream -> Prop :=
| step_read busy s unit_ : device_step (busy, s) (busy, fst (DecodeStream_read s unit_))
| step_finish busy s : device_step (busy, s) (busy, fst (DecodeStream_finish s))
| step_abandon busy s : device_step (busy, s) (busy, DecodeStream_abandon s)
| step_drain busy s : device_step (busy, s) (busy, DecodeStream_drain s)
| step_reset busy s : device_step (busy, s) ([], DecodeStream_reset s)
| step_output busy s s' o : DecodeStream_next_output s = (s', Some o) -> device_step (busy, s) (ou_slot o :: busy, s')
| step_taken busy busy' s slot : busy ≡ₚ slot :: busy' -> device_step (busy, s) (busy', stream_taken s slot).
Definition device_run : list Z * DecodeStream -> list Z * DecodeStream -> Prop := rtc device_step.

Definition held_by (s : DecodeStream) : list Z := match ds_staged_job s with Some j => given (jb_current j) | None => [] end.

(** The slots in [lost] belong to pictures that are gone. *)
Record stream_ok (lost busy : list Z) (s : DecodeStream) : Prop := mkStreamOk {
  so_dpb : exists more, dpb_ok (held_by s ++ more ++ lost) busy (ds_dpb s);
  so_staged : forall j, ds_staged_job s = Some j -> (forall i, cu_pair_of (jb_current j) = Some i -> 0 <= i) /\ jb_slices j <> [];
}.

(** ** Every step keeps the surfaces apart *)

Lemma unstaged_ok lost busy s s' : stream_ok lost busy s -> ds_dpb s' = ds_dpb s -> ds_staged s' = false -> stream_ok lost busy s'.
Proof.
  intros [[more Hd] _] Ed Es. split.
  - exists (held_by s ++ more). unfold held_by at 1, ds_staged_job. rewrite Ed, Es. cbn [app]. by rewrite <- app_assoc.
  - intros j. unfold ds_staged_job. by rewrite Es.
Qed.

(** A change of the buffer of a stream with nothing staged. *)
Lemma unstaged_dpb lost busy busy' s d : stream_ok lost busy s -> ds_staged s = false ->
  (forall claimed, dpb_ok claimed busy (ds_dpb s) -> dpb_ok claimed busy' d) -> forall s', ds_staged s' = false -> ds_dpb s' = d -> stream_ok lost busy' s'.
Proof.
  intros [[more Hd] _] Es Hk s' Es' Ed. split.
  - exists more. unfold held_by, ds_staged_job in *. rewrite Es in Hd. rewrite Es', Ed. by apply Hk.
  - intros j. unfold ds_staged_job. by rewrite Es'.
Qed.

(** Another change of the buffer. *)
Lemma staged_dpb lost busy busy' s d : stream_ok lost busy s ->
  (forall claimed, dpb_ok claimed busy (ds_dpb s) -> dpb_ok claimed busy' d) -> stream_ok lost busy' (s <| ds_dpb := d |>).
Proof. intros [[more Hd] Hs] Hk. split; [|exact Hs]. exists more. by apply Hk. Qed.

Lemma read_units_keeps units s first slices :
  let '(s', r) := read_units units s first slices in
  ds_dpb s' = ds_dpb s /\ ds_staged s' = ds_staged s /\
  forall first' slices', r = inr (Some first', slices') -> (first = None \/ slices <> []) -> slices' <> [].
Proof.
  revert s first slices. induction units as [|nal units IH]; intros s first slices; cbn [read_units].
  - split_and!; [done..|]. intros f' sl' [= -> <-] [|]; done.
  - destruct (un_bytes nal) as [|head payload]; [apply IH|].
    destruct (_ =? 7); [|destruct (_ =? 8); [|destruct (_ || _); [|apply IH]]].
    + destruct (sps_parse payload) as [e|sps]; [done|]. destruct (_ || _); [done|]. apply (IH (put_sps s sps)).
    + destruct (pps_parse payload _) as [e|pps]; [done|]. apply (IH (put_pps s pps)).
    + destruct (slice_parse _ _ _) as [e|header]; [done|]. destruct (negb _); [apply IH|].
      destruct (match first with Some _ => _ | None => _ end); [done|]. destruct (_ <=? _); [done|].
      match goal with |- context [read_units units s ?f ?l] => specialize (IH s f l); destruct (read_units units s f l) as [s' r] end.
      destruct IH as (Hd & Hs & Hf). split_and!; [done..|]. intros f' sl' Hr _. apply (Hf f' sl' Hr). right. by destruct slices.
Qed.

Lemma slice_lists_ok claimed busy d sps c slices : dpb_ok claimed busy d ->
  dpb_ok claimed busy (fst (slice_lists d sps c slices)) /\ forall slices', snd (slice_lists d sps c slices) = inr slices' -> slices <> [] -> slices' <> [].
Proof.
  revert d. induction slices as [|slice slices IH]; intros d Hd; cbn [slice_lists]; [done|].
  apply (ok_reference_lists _ _ _ sps c (sl_header slice)) in Hd. destruct (reference_lists d sps c _) as [d1 [e|[l0 l1]]]; [done|].
  destruct (IH d1 Hd) as [Hd2 _]. destruct (slice_lists d1 sps c slices) as [d2 [e|ss]]; cbn in *; [done|]. split; [done|]. by intros ? [= <-].
Qed.

Lemma stage_ok lost busy s sps pps first slices : stream_ok lost busy s -> ds_staged s = false -> slices <> [] ->
  stream_ok lost busy (fst (stage s sps pps first slices)).
Proof.
  intros Hs Es Hne. unfold stage. pose proof Hs as [[more Hd] _]. unfold held_by, ds_staged_job in Hd. rewrite Es in Hd. cbn [app] in Hd.
  pose proof (ok_begin _ _ _ sps first Hd) as Hb. destruct (Dpb_begin (ds_dpb s) sps first) as [d [e|c]]; cbn [begin_ok] in Hb.
  - split; [exists more|intros j; unfold ds_staged_job; cbn; by rewrite Es]. unfold held_by, ds_staged_job. cbn. by rewrite Es.
  - destruct Hb as [Hb Hpair]. destruct (slice_lists_ok _ _ _ sps c slices Hb) as [Hd2 Hne2].
    destruct (slice_lists d sps c slices) as [d2 [e|ss]]; cbn [fst snd] in *.
    + split; [exists (given c ++ more)|intros j; unfold ds_staged_job; cbn; by rewrite Es].
      unfold held_by, ds_staged_job. cbn. rewrite Es. cbn. by rewrite <- app_assoc.
    + split; [by exists more|]. intros j [= <-]. cbn. split; [intros i Hi; by apply Hpair in Hi as [? _]|by apply Hne2].
Qed.

Lemma adopt_ok lost busy s sps : stream_ok lost busy s -> ds_staged s = false ->
  stream_ok lost busy (fst (adopt s sps)) /\ ds_staged (fst (adopt s sps)) = false.
Proof.
  intros Hs Es. unfold adopt. assert (forall claimed, dpb_ok claimed busy (ds_dpb s) -> dpb_ok claimed busy (Dpb_configure (ds_dpb s) sps)) as Hc by (intros; by apply ok_configure).
  destruct (ds_active_sps s) as [active|]; [|by split; [apply (unstaged_dpb _ _ _ _ _ Hs Es Hc)|]].
  destruct (negb _).
  - split; [|done]. eapply (unstaged_dpb _ _ busy _ _ Hs Es); [|done|reflexivity]. intros claimed. apply ok_flush.
  - case_bool_decide; [done|]. by split; [apply (unstaged_dpb _ _ _ _ _ Hs Es Hc)|].
Qed.

Lemma read_ok lost busy s unit_ : stream_ok lost busy s -> stream_ok lost busy (fst (DecodeStream_read s unit_)).
Proof.
  intros Hs. unfold DecodeStream_read. pose proof (read_units_keeps (Units_all unit_) (s <| ds_staged := false |>) None []) as Hu.
  destruct (read_units _ _ _ _) as [s1 [e|[[first|] slices]]]; destruct Hu as (Hd & Hst & Hf);
    (assert (stream_ok lost busy s1) as Hs1 by (by apply (unstaged_ok _ _ s))); [done| |done].
  cbn in Hst. specialize (Hf first slices eq_refl ltac:(by left)). destruct (pps_of s1 _) as [pps|]; [|done]. destruct (sps_of s1 _) as [sps|]; [|done].
  destruct (adopt_ok _ _ _ sps Hs1 Hst) as [Ha Hast]. destruct (adopt s1 sps) as [s2 [|]]; cbn [fst] in *; [done|]. by apply stage_ok.
Qed.

(** A second field that is staged has the slot of the picture it completes. *)
Lemma slice_lists_paired d sps c slices : paired d c -> paired (fst (slice_lists d sps c slices)) c.
Proof.
  revert d. induction slices as [|slice slices IH]; intros d Hd; cbn [slice_lists]; [done|].
  apply (paired_reference_lists _ sps c (sl_header slice)) in Hd. destruct (reference_lists d sps c _) as [d1 [e|[l0 l1]]]; [done|].
  specialize (IH d1 Hd). by destruct (slice_lists d1 sps c slices) as [d2 [e|ss]].
Qed.

Lemma stage_paired lost busy s sps pps first slices j : stream_ok lost busy s -> ds_staged s = false ->
  ds_staged_job (fst (stage s sps pps first slices)) = Some j -> paired (ds_dpb (fst (stage s sps pps first slices))) (jb_current j).
Proof.
  intros [[more Hd] _] Es. unfold stage. pose proof (ok_begin _ _ _ sps first Hd) as Hb.
  destruct (Dpb_begin (ds_dpb s) sps first) as [d [e|c]]; [unfold ds_staged_job; cbn; by rewrite Es|]. destruct Hb as [_ Hp].
  apply (slice_lists_paired _ sps _ slices) in Hp. destruct (slice_lists d sps c slices) as [d2 [e|ss]]; [unfold ds_staged_job; cbn; by rewrite Es|].
  by intros [= <-].
Qed.

Lemma read_paired lost busy s unit_ j : stream_ok lost busy s ->
  ds_staged_job (fst (DecodeStream_read s unit_)) = Some j -> paired (ds_dpb (fst (DecodeStream_read s unit_))) (jb_current j).
Proof.
  intros Hs. unfold DecodeStream_read. pose proof (read_units_keeps (Units_all unit_) (s <| ds_staged := false |>) None []) as Hu.
  destruct (read_units _ _ _ _) as [s1 [e|[[first|] slices]]]; destruct Hu as (Hd & Hst & _); cbn in Hst;
    (assert (forall s2, ds_staged s2 = false -> ds_staged_job s2 = Some j -> paired (ds_dpb s2) (jb_current j)) as Hno by (unfold ds_staged_job; by intros s2 ->));
    [by apply Hno| |by apply Hno].
  assert (stream_ok lost busy s1) as Hs1 by (by apply (unstaged_ok _ _ s)).
  destruct (pps_of s1 _) as [pps|]; [|by apply Hno]. destruct (sps_of s1 _) as [sps|]; [|by apply Hno].
  destruct (adopt_ok _ _ _ sps Hs1 Hst) as [Ha Hast]. destruct (adopt s1 sps) as [s2 [|]]; cbn [fst] in *; [by apply Hno|]. by eapply stage_paired.
Qed.

Lemma finish_ok lost busy s : stream_ok lost busy s -> stream_ok lost busy (fst (DecodeStream_finish s)) /\
  forall j, ds_staged_job s = Some j -> cu_pair_of (jb_current j) = None -> snd (DecodeStream_finish s) = inr ().
Proof.
  intros Hs. unfold DecodeStream_finish. pose proof Hs as [[more Hd] Hj]. unfold held_by, ds_staged_job in *. destruct (ds_staged s) eqn:Es; cbn [negb]; [|done].
  destruct (Hj _ eq_refl) as [Hi Hne].
  change (ds_dpb (s <| ds_staged := false |>)) with (ds_dpb s). change (ds_job (s <| ds_staged := false |>)) with (ds_job s).
  destruct (jb_slices (ds_job s)) as [|first rest]; [done|].
  destruct (ok_finish _ _ _ (jb_sps (ds_job s)) _ (sl_header first) Hd Hi) as [Hf Hr].
  destruct (Dpb_finish (ds_dpb s) _ _ _) as [d r]. cbn [fst snd] in *. split; [|intros j [= <-]; exact Hr].
  split; [by exists more|]. done.
Qed.

Lemma device_step_ok lost p p' : device_step p p' -> stream_ok lost (fst p) (snd p) -> stream_ok lost (fst p') (snd p').
Proof.
  intros Hstep Hs. destruct Hstep as [busy s unit_|busy s|busy s|busy s|busy s|busy s s' o Ho|busy busy' s slot Hb]; cbn [fst snd] in *.
  - by apply read_ok.
  - by apply finish_ok.
  - by apply (unstaged_ok _ _ s).
  - apply (staged_dpb _ busy); [done|]. intros claimed. apply ok_flush.
  - destruct Hs as [[more Hd] _]. split; [|done]. exists (held_by s ++ more). cbn. rewrite <- app_assoc. by eapply ok_clear.
  - unfold DecodeStream_next_output in Ho. destruct (Dpb_next_output (ds_dpb s)) as [d o'] eqn:En. injection Ho as <- ->.
    apply (staged_dpb _ busy); [done|]. intros claimed. by apply ok_next_output.
  - apply (staged_dpb _ busy); [done|]. intros claimed Hd. apply ok_taken. by eapply ok_perm; [..|exact Hd].
Qed.

Lemma device_run_ok lost p p' : device_run p p' -> stream_ok lost (fst p) (snd p) -> stream_ok lost (fst p') (snd p').
Proof. intros Hrun Hs. induction Hrun as [p|p p' p'' Hstep _ IH]; [done|]. apply IH. by eapply device_step_ok. Qed.

Lemma new_ok : stream_ok [] [] DecodeStream_new.
Proof. split; [|done]. exists []. apply ok_new. Qed.

Lemma reached_ok busy s : device_run ([], DecodeStream_new) (busy, s) -> stream_ok [] busy s.
Proof. intros H. apply (device_run_ok [] _ _ H). apply new_ok. Qed.

(** What the invariant says of the surfaces. *)
Lemma dpb_exclusive claimed busy d : dpb_ok claimed busy d ->
  NoDup (dpb_slots d) /\ NoDup (queued d ++ busy) /\ Forall (fun slot => 0 <= slot < MAX_FRAMES) (claimed ++ dpb_slots d ++ queued d ++ busy) /\
  (forall e, e ∈ held_entries d -> waiting e = true -> en_slot e ∉ queued d ++ busy) /\
  NoDup claimed /\ forall slot, slot ∈ claimed -> slot ∉ dpb_slots d ++ queued d ++ busy.
Proof.
  intros [_ [Hf1 Hf2] Hd Hh Hq Hp Hw Hc]. pose proof Hd as (Hd1 & Hd2 & Hd3)%list.NoDup_app. split_and!; [done|done| |done|done|].
  - apply list.Forall_forall. intros slot [H|[H|H]%elem_of_app]%elem_of_app.
    + apply (flag_range _ _ Hf1), Hh, elem_of_app. by right.
    + apply (flag_range _ _ Hf1), Hh, elem_of_app. by left.
    + by apply (flag_range _ _ Hf2), Hp.
  - intros slot Hs [H|H]%elem_of_app; [by apply (Hd2 slot)|by apply (Hc slot)].
Qed.

(** ** The properties *)

(** C8: No surface is decoded into while it is needed, second fields apart. In whatever
    order access units are read, pictures finished, abandoned, taken or drained, and the
    stream reset: the buffer holds each of the eighteen slots for one picture at most; the
    pictures queued and the pictures the device still reads have slots of their own, which
    no picture still to be output shares; the slot of a staged picture that is not the
    second field of a pair is none of these, and finishing that picture succeeds; and a
    read that stages a second field gives it the slot of the picture of the buffer it
    completes, which may have been queued already ([second_field_shown]). *)
Theorem surfaces_exclusive busy s :
  device_run ([], DecodeStream_new) (busy, s) ->
  let d := ds_dpb s in
  NoDup (dpb_slots d) /\ NoDup (queued d ++ busy) /\ Forall (fun slot => 0 <= slot < MAX_FRAMES) (dpb_slots d ++ queued d ++ busy) /\
  (forall e, e ∈ held_entries d -> waiting e = true -> en_slot e ∉ queued d ++ busy) /\
  (forall j, ds_staged_job s = Some j -> cu_pair_of (jb_current j) = None ->
    0 <= cu_slot (jb_current j) < MAX_FRAMES /\ cu_slot (jb_current j) ∉ dpb_slots d ++ queued d ++ busy /\ snd (DecodeStream_finish s) = inr ()) /\
  forall unit_ j i, let s' := fst (DecodeStream_read s unit_) in ds_staged_job s' = Some j -> cu_pair_of (jb_current j) = Some i ->
    entry_slot (ds_dpb s') i = Some (cu_slot (jb_current j)).
Proof.
  intros Hrun d. pose proof (reached_ok _ _ Hrun) as Hs. pose proof Hs as [[more Hd] _].
  destruct (dpb_exclusive _ _ _ Hd) as (H1 & H2 & H3 & H4 & _ & H5). split_and!; [done|done|by apply Forall_app in H3 as [_ H3]|done| |].
  - intros j Hj Hp. assert (cu_slot (jb_current j) ∈ held_by s ++ more ++ []) as Hin.
    { apply elem_of_app. left. unfold held_by, given. rewrite Hj, Hp. by left. }
    split_and!; [| |by apply H5|by eapply finish_ok].
    1,2: rewrite list.Forall_forall in H3; apply H3, elem_of_app; by left.
  - intros unit_ j i s' Hj Hi. subst s'. destruct (read_paired _ _ _ _ _ Hs Hj i Hi) as (_ & e & He & <-). unfold entry_slot. by rewrite He.
Qed.

(** C24: What waits leaves in order, and none of it is lost. Draining a stream, in any state it
    reaches, leaves nothing waiting, and what it adds to the queue is every waiting picture
    once, under its own slot and order count, the counts ascending. *)
Theorem drained_in_order busy s :
  device_run ([], DecodeStream_new) (busy, s) ->
  let d := ds_dpb s in let d' := ds_dpb (DecodeStream_drain s) in
  waiting_entries d' = [] /\
  exists es, es ≡ₚ waiting_entries d /\ dp_output d' = dp_output d ++ map (fun e => mkOutput (en_slot e) (Entry_poc e)) es /\ StronglySorted Z.le (map Entry_poc es).
Proof. intros Hrun. destruct (reached_ok _ _ Hrun) as [[more Hd] _]. by eapply drain_order. Qed.

(** C28: An abandoned picture's surface is never used again, unless the picture is the second
    field of a pair, whose surface is its first field's. Whatever follows, a reset included,
    its slot stays claimed: no picture of the buffer, of the queue or of the device has it,
    and no picture staged later that has a slot of its own is decoded into it. *)
Theorem abandoned_slot_lost busy s j busy' later :
  device_run ([], DecodeStream_new) (busy, s) -> ds_staged_job s = Some j -> cu_pair_of (jb_current j) = None ->
  device_run (busy, DecodeStream_abandon s) (busy', later) ->
  let slot := cu_slot (jb_current j) in
  slot ∉ dpb_slots (ds_dpb later) ++ queued (ds_dpb later) ++ busy' /\ get_at (dp_slot_in_dpb (ds_dpb later)) slot = Some true /\
  forall j', ds_staged_job later = Some j' -> cu_pair_of (jb_current j') = None -> cu_slot (jb_current j') <> slot.
Proof.
  intros Hrun Hj Hp Hlater slot. pose proof (reached_ok _ _ Hrun) as [[more Hd] _].
  assert (stream_ok [slot] busy (DecodeStream_abandon s)) as Hs.
  { split; [|done]. exists more. eapply ok_perm; [|done|exact Hd]. unfold held_by. rewrite Hj. unfold given. rewrite Hp. cbn.
    rewrite app_nil_r. by rewrite Permutation_app_comm. }
  apply (device_run_ok [slot] _ _ Hlater) in Hs as [[more' Hd'] _]. cbn [fst snd] in Hd'. destruct (dpb_exclusive _ _ _ Hd') as (_ & _ & _ & _ & Hn & Ho).
  assert (slot ∈ held_by later ++ more' ++ [slot]) as Hin by (rewrite !elem_of_app; right; right; by left).
  split_and!; [by apply Ho|by apply (ok_held _ _ _ Hd'), elem_of_app; right|].
  intros j' Hj' Hp' E. unfold held_by in Hn. rewrite Hj' in Hn. unfold given in Hn. rewrite Hp' in Hn. cbn in Hn. apply list.NoDup_cons in Hn as [Hn _].
  apply Hn. rewrite E, elem_of_app. right. by left.
Qed.

(** ** At concrete runs *)

Definition sample_au : list Z := access_unit sample_params (Refresh 0) (sample_unit (Refresh 0)).
Definition sample_stream : DecodeStream := fst (DecodeStream_read DecodeStream_new sample_au).
Lemma slots_run : device_run ([], DecodeStream_new) ([], sample_stream).
Proof. apply rtc_once. apply step_read. Qed.
Lemma sample_staged : ds_staged_job sample_stream = Some (ds_job sample_stream) /\ jb_current (ds_job sample_stream) = whole_frame 0 0 0 0 true.
Proof. split; vm_compute; reflexivity. Qed.

Lemma surfaces_exclusive_witness : 0 ∉ dpb_slots (ds_dpb sample_stream) ++ queued (ds_dpb sample_stream) ++ [] /\ snd (DecodeStream_finish sample_stream) = inr ().
Proof.
  destruct (surfaces_exclusive [] sample_stream slots_run) as (_ & _ & _ & _ & H & _). destruct sample_staged as [Hj Hc].
  specialize (H _ Hj). rewrite Hc in H. destruct (H eq_refl) as (_ & Hn & Hf). split; [exact Hn|exact Hf].
Defined.

Lemma drained_in_order_witness : waiting_entries (ds_dpb (DecodeStream_drain sample_stream)) = [].
Proof. exact (proj1 (drained_in_order [] sample_stream slots_run)). Defined.

(** Eighteen pictures abandoned, and no more are decoded, not even after a reset. *)
Definition abandoned_reads (n : nat) : DecodeStream := Nat.iter n (fun s => DecodeStream_abandon (fst (DecodeStream_read s sample_au))) DecodeStream_new.
Lemma abandoned_slot_lost_witness :
  (let later := fst (DecodeStream_read (DecodeStream_abandon sample_stream) sample_au) in
   0 ∉ dpb_slots (ds_dpb later) ++ queued (ds_dpb later) ++ [] /\ get_at (dp_slot_in_dpb (ds_dpb later)) 0 = Some true) /\
  snd (DecodeStream_read (abandoned_reads 17) sample_au) = inr ReadPicture /\ snd (DecodeStream_read (abandoned_reads 18) sample_au) = inl TooMany /\
  snd (DecodeStream_read (DecodeStream_reset (abandoned_reads 18)) sample_au) = inl TooMany.
Proof.
  split; [|split_and!; vm_compute; reflexivity]. intros later. destruct sample_staged as [Hj Hc].
  assert (device_run ([], DecodeStream_abandon sample_stream) ([], later)) as Hrun by (apply rtc_once; apply step_read).
  pose proof (abandoned_slot_lost [] sample_stream (ds_job sample_stream) [] later slots_run Hj) as H. rewrite Hc in H.
  destruct (H eq_refl Hrun) as (Hn & Hh & _). split; [exact Hn|exact Hh].
Defined.

(** ** Gaps in frame numbers *)

(** A picture that was decoded, with a number above zero if it is a short-term reference. *)
Definition numbered (e : Entry) : Prop := en_non_existing e = false /\ (Entry_has_short e = true -> 0 < en_frame_num_wrap e).

Lemma evict_while_S fuel condition d :
  evict_while (S fuel) condition d =
    if condition d then let '(d, evicted) := evict_oldest_short d in if evicted then evict_while fuel condition d else d else d.
Proof. done. Qed.

(** A full window gives up one short-term reference, one with the smallest number. *)
Lemma slide d :
  ref_count (references d) = Z.max (dp_max_num_ref_frames d) 1 -> List.filter Entry_has_short (references d) <> [] ->
  exists e rest, references d ≡ₚ e :: rest /\ references (sliding_window d) ≡ₚ refs_of [unmarked e] ++ rest /\ Entry_has_short e = true /\
    (forall e', e' ∈ references d -> Entry_has_short e' = true -> en_frame_num_wrap e <= en_frame_num_wrap e') /\
    dp_max_num_ref_frames (sliding_window d) = dp_max_num_ref_frames d /\ ref_count (references (sliding_window d)) = Z.max (dp_max_num_ref_frames d) 1 - 1.
Proof.
  intros Hn Hs. destruct (evict_references d) as [[E _]|(e & rest & d' & E & Hd & Hd' & He & Hmin & Hm)]; [done|].
  assert (ref_count (references d') = Z.max (dp_max_num_ref_frames d) 1 - 1) as Hc.
  { rewrite (ref_count_perm _ _ Hd'). rewrite (ref_count_perm _ _ Hd), ref_count_cons in Hn. pose proof (unmarked_count e He) as Hu.
    assert (ref_count (refs_of [unmarked e] ++ rest) = ref_count (refs_of [unmarked e]) + ref_count rest) as ->; [|lia].
    unfold ref_count. rewrite !List.filter_app, !zlen_app. lia. }
  assert (sliding_window d = d') as ->.
  { unfold sliding_window. change BUMPS with (S (S (Nat.pred (Nat.pred BUMPS)))).
    rewrite evict_while_S. rewrite ref_count_eq, Hn, Z.leb_refl, E. rewrite evict_while_S. rewrite ref_count_eq, Hc, Hm.
    by rewrite (proj2 (Z.leb_gt _ _)) by lia. }
  exists e, rest. by split_and!.
Qed.

(** One frame inserted: it joins what the window left. *)
Lemma gap_turn claimed busy d slot unused d1 d2 :
  dpb_ok claimed busy d -> claim_slot (sliding_window d) = (d1, inr slot) -> Dpb_insert d1 (gap_entry slot unused) = (d2, inr ()) ->
  dpb_ok claimed busy d2 /\ references d2 ≡ₚ gap_entry slot unused :: references (sliding_window d) /\
  dp_max_num_ref_frames d2 = dp_max_num_ref_frames (sliding_window d).
Proof.
  intros Hd Hc Hi. assert (dpb_ok claimed busy (sliding_window d)) as Hw by by apply ok_evict_while.
  revert Hw Hc. generalize (sliding_window d). intros w Hw Hc. pose proof (ok_claim _ _ _ Hw) as Hok. pose proof (references_claim w) as Hr. pose proof (claim_max w) as Hm.
  rewrite Hc in Hok, Hr, Hm. cbn in Hok, Hr, Hm. destruct (ok_insert _ _ _ (gap_entry slot unused) Hok) as (d2' & E & Hd2 & l1 & l2 & El & ->).
  rewrite E in Hi. injection Hi as <-. split; [done|]. split; [|exact Hm]. rewrite <- Hr.
  rewrite (references_split _ l1 (gap_entry slot unused) l2) by reflexivity. unfold references, held_entries.
  rewrite El, flatten_app, flatten_none, refs_of_app. symmetry. apply Permutation_middle.
Qed.

(** Once a frame was inserted, every further one takes its place. *)
Lemma gap_replaced claimed busy fuel d max frame_num unused inserted slot last rest d' :
  dpb_ok claimed busy d -> references d ≡ₚ gap_entry slot last :: rest -> Forall numbered rest ->
  ref_count (references d) = Z.max (dp_max_num_ref_frames d) 1 -> wadd 32 last 1 mod max = unused ->
  fill_loop fuel d max frame_num unused inserted = (d', inr ()) ->
  exists slot' last', references d' ≡ₚ gap_entry slot' last' :: rest /\ wadd 32 last' 1 mod max = frame_num.
Proof.
  revert d unused inserted slot last. induction fuel as [|fuel IH]; intros d unused inserted slot last Hd Hr Hrest Hn Hu; cbn [fill_loop]; [done|].
  destruct (Z.eqb_spec unused frame_num) as [<-|_]; [intros [= <-]; by exists slot, last|]. destruct (_ <? inserted); [done|].
  assert (gap_entry slot last ∈ references d) as Hin by (rewrite Hr; by left).
  destruct (slide d Hn) as (e & rest' & Hd' & Hw & He & Hmin & Hm & Hc).
  { intros E. assert (gap_entry slot last ∈ List.filter Entry_has_short (references d)) as Hf by (by apply elem_of_lfilter). rewrite E in Hf. by apply not_elem_of_nil in Hf. }
  pose proof (Hmin _ Hin eq_refl) as Hle. cbn in Hle. assert (e = gap_entry slot last) as ->.
  { assert (e ∈ references d) as Hee by (rewrite Hd'; by left). rewrite Hr in Hee. apply elem_of_cons in Hee as [->|Hee]; [done|].
    rewrite list.Forall_forall in Hrest. destruct (Hrest e Hee) as [_ Hpos]. specialize (Hpos He). lia. }
  assert (rest' ≡ₚ rest) as Hq by (apply (Permutation_cons_inv (a := gap_entry slot last)); by rewrite <- Hd', Hr).
  change (refs_of [unmarked (gap_entry slot last)]) with (@nil Entry) in Hw. cbn [app] in Hw. rewrite Hq in Hw.
  destruct (claim_slot (sliding_window d)) as [d1 [err|slot1]] eqn:Ec; [done|]. destruct (Dpb_insert d1 (gap_entry slot1 unused)) as [d2 [err|[]]] eqn:Ei; [done|].
  destruct (gap_turn _ _ _ _ _ _ _ Hd Ec Ei) as (Hd2 & Hr2 & Hm2). rewrite Hw in Hr2. apply IH with (slot := slot1) (last := unused); try done.
  - by eapply ok_fields; [..|exact Hd2].
  - change (ref_count (references d2) = Z.max (dp_max_num_ref_frames d2) 1).
    rewrite (ref_count_perm _ _ Hr2), ref_count_cons, <- (ref_count_perm _ _ Hw), Hc, Hm2, Hm. change (ref_count [gap_entry slot1 unused]) with 1. lia.
Qed.

(** C39: Of the frames inserted for a gap only the last is kept. Let the window be full of
    decoded references, one at least short-term and those numbered above zero, and let any number of
    frames be missing from a stream that may leave frames out. If the gap is filled, the
    references are then those before it, the oldest of them let go, and one inserted
    frame, the last: each frame inserted is evicted for the next, its number still zero, as
    if it were older than every picture that was decoded. *)
Theorem gap_evicts_inserted claimed busy d sps h d' :
  dpb_ok claimed busy d -> Forall numbered (references d) -> 0 < short_term_count d ->
  short_term_count d + long_term_count d = Z.max (dp_max_num_ref_frames d) 1 ->
  sp_gaps_in_frame_num_allowed sps = true -> sh_frame_num h <> pv_ref_frame_num (dp_previous d) ->
  sh_frame_num h <> wadd 32 (pv_ref_frame_num (dp_previous d)) 1 mod Sps_max_frame_num sps -> fill_gap d sps h = (d', inr ()) ->
  exists oldest rest slot last, references d ≡ₚ oldest :: rest /\ Entry_has_short oldest = true /\
    (forall e, e ∈ references d -> Entry_has_short e = true -> en_frame_num_wrap oldest <= en_frame_num_wrap e) /\
    wadd 32 last 1 mod Sps_max_frame_num sps = sh_frame_num h /\ references d' ≡ₚ gap_entry slot last :: refs_of [unmarked oldest] ++ rest.
Proof.
  intros Hd Hnum Hs Hn Hg Hne1 Hne2. unfold fill_gap. cbv zeta. rewrite (proj2 (Z.eqb_neq _ _) Hne1), (proj2 (Z.eqb_neq _ _) Hne2), Hg. cbn [orb negb].
  set (max := Sps_max_frame_num sps). set (unused := wadd 32 _ 1 mod max) in *. change (wadd 32 _ 1 mod Sps_max_frame_num sps) with unused in Hne2.
  change (34%nat) with (S 33). cbn [fill_loop]. rewrite (proj2 (Z.eqb_neq unused (sh_frame_num h))) by congruence. change (16 * 2 <? 0) with false. cbv iota.
  rewrite ref_count_eq in Hn. destruct (slide d Hn) as (e & rest & Hr & Hw & He & Hmin & Hm & Hc).
  { intros E. unfold short_term_count in Hs. rewrite <- (refs_of_filter Entry_has_short) in Hs; [|apply short_reference|done]. unfold references in E. by rewrite E in Hs. }
  destruct (claim_slot (sliding_window d)) as [d1 [err|slot]] eqn:Ec; [done|]. destruct (Dpb_insert d1 (gap_entry slot unused)) as [d2 [err|[]]] eqn:Ei; [done|].
  destruct (gap_turn _ _ _ _ _ _ _ Hd Ec Ei) as (Hd2 & Hr2 & Hm2). rewrite Hw in Hr2. intros Hfill.
  assert (Forall numbered (refs_of [unmarked e] ++ rest)) as Hq.
  { rewrite Hr in Hnum. apply list.Forall_cons in Hnum as [[Hex _] Hrest]. apply Forall_app. split; [|done]. unfold refs_of. cbn.
    destruct (Entry_is_reference (unmarked e)); cbn; [|constructor]. constructor; [|constructor]. split; [exact Hex|].
    intros Hsh. exfalso. revert Hsh. clear. by destruct e as [? ? ? ? [? [] ?] [? [] ?] ? ?]. }
  destruct (gap_replaced claimed busy 33 (d2 <| dp_previous ::= fun v => v <| pv_ref_frame_num := unused |> <| pv_frame_num := unused |> |>) max (sh_frame_num h)
    (wadd 32 unused 1 mod max) (0 + 1) slot unused (refs_of [unmarked e] ++ rest) d') as (slot' & last' & Hfin & Hlast); try done.
  { by eapply ok_fields; [..|exact Hd2]. }
  { change (ref_count (references d2) = Z.max (dp_max_num_ref_frames d2) 1).
    rewrite (ref_count_perm _ _ Hr2), ref_count_cons, <- (ref_count_perm _ _ Hw), Hc, Hm2, Hm. change (ref_count [gap_entry slot unused]) with 1. lia. }
  exists e, rest, slot', last'. by split_and!.
Qed.


#[local] Instance Sps_eta : Eta Sps := fun s =>
  mkSps (sp_profile_idc s) (sp_constraint_flags s) (sp_level_idc s) (sp_id s) (sp_chroma_format_idc s) (sp_separate_colour_plane s)
    (sp_bit_depth_luma_minus8 s) (sp_bit_depth_chroma_minus8 s) (sp_qpprime_y_zero_transform_bypass s) (sp_scaling_matrix_present s) (sp_scaling s)
    (sp_log2_max_frame_num_minus4 s) (sp_pic_order_cnt_type s) (sp_log2_max_pic_order_cnt_lsb_minus4 s) (sp_delta_pic_order_always_zero s)
    (sp_offset_for_non_ref_pic s) (sp_offset_for_top_to_bottom_field s) (sp_num_ref_frames_in_pic_order_cnt_cycle s) (sp_offset_for_ref_frame s)
    (sp_max_num_ref_frames s) (sp_gaps_in_frame_num_allowed s) (sp_pic_width_in_mbs_minus1 s) (sp_pic_height_in_map_units_minus1 s)
    (sp_frame_mbs_only s) (sp_mb_adaptive_frame_field s) (sp_direct_8x8_inference s) (sp_crop s) (sp_vui s).

(** Four references, with gaps allowed; a predicted frame that may use all four. *)
Definition gap_params : H264Write.Params := mkParams 1920 1080 60 42 4 4 4.
Definition gap_sps : Sps := read_sps gap_params <| sp_gaps_in_frame_num_allowed := true |>.
Definition four_references (h : SliceHeader) : SliceHeader :=
  mkSliceHeader (sh_nal_unit_type h) (sh_nal_ref_idc h) (sh_first_mb_in_slice h) (sh_slice_type h) (sh_pps_id h) (sh_colour_plane_id h) (sh_frame_num h)
    (sh_field_pic h) (sh_bottom_field h) (sh_idr_pic_id h) (sh_pic_order_cnt_lsb h) (sh_delta_pic_order_cnt_bottom h) (sh_delta_pic_order_cnt h)
    (sh_redundant_pic_cnt h) (sh_direct_spatial_mv_pred h) 3 (sh_num_ref_idx_l1_active_minus1 h) (sh_modifications_l0 h) (sh_modifications_l1 h)
    (sh_weights h) (sh_marking h) (sh_cabac_init_idc h) (sh_slice_qp_delta h) (sh_sp_for_switch h) (sh_slice_qs_delta h)
    (sh_disable_deblocking_filter_idc h) (sh_slice_alpha_c0_offset_div2 h) (sh_slice_beta_offset_div2 h) (sh_header_bits h).
Definition gap_header (frame_num : Z) : SliceHeader :=
  four_references (read_slice gap_params (if frame_num =? 0 then Refresh 0 else Predicted frame_num (2 * frame_num))).

(** Decode a frame and read it back: the numbers of the frames its list names. *)
Definition decode_frame (d : Dpb) (frame_num : Z) : option (Dpb * list Z) :=
  match Dpb_begin d gap_sps (gap_header frame_num) with
  | (d, inr c) =>
      match reference_lists d gap_sps c (gap_header frame_num) with
      | (d, inr (l0, _)) =>
          match Dpb_finish d gap_sps c (gap_header frame_num) with
          | (d, inr _) =>
              match Dpb_next_output d with
              | (d, Some o) => Some (Dpb_taken d (ou_slot o), map rp_frame_idx (omap id (RefList_slice l0)))
              | _ => None
              end
          | _ => None
          end
      | _ => None
      end
  | _ => None
  end.
Fixpoint decode_frames (d : Dpb) (frame_nums : list Z) : option (list (list Z)) :=
  match frame_nums with
  | [] => Some []
  | n :: frame_nums => '(d, l0) ← decode_frame d n; rest ← decode_frames d frame_nums; Some (l0 :: rest)
  end.

(** With four references and frames 4 and 5 missing, frame 6 is decoded against 5, 3, 2, 1;
    had they come it would have been against 5, 4, 3, 2. *)
Example gap_lists :
  decode_frames (Dpb_configure Dpb_new gap_sps) [0; 1; 2; 3; 6] = Some [[]; [0]; [1; 0]; [2; 1; 0]; [5; 3; 2; 1]] /\
  decode_frames (Dpb_configure Dpb_new gap_sps) [0; 1; 2; 3; 4; 5; 6] = Some [[]; [0]; [1; 0]; [2; 1; 0]; [3; 2; 1; 0]; [4; 3; 2; 1]; [5; 4; 3; 2]].
Proof. split; vm_compute; reflexivity. Qed.

(** The buffer after some frames, each decoded and read back. *)
Fixpoint decoded (d : Dpb) (frame_nums : list Z) : Dpb :=
  match frame_nums with
  | [] => d
  | n :: frame_nums => match decode_frame d n with Some (d, _) => decoded d frame_nums | None => d end
  end.
Lemma decode_frame_ok d n d' l : dpb_ok [] [] d -> decode_frame d n = Some (d', l) -> dpb_ok [] [] d'.
Proof.
  intros Hd. unfold decode_frame. pose proof (ok_begin _ _ _ gap_sps (gap_header n) Hd) as Hb.
  destruct (Dpb_begin d gap_sps _) as [d1 [e|c]]; [done|]. destruct Hb as [Hb Hpair].
  apply (ok_reference_lists _ _ _ gap_sps c (gap_header n)) in Hb. destruct (reference_lists d1 gap_sps c _) as [d2 [e|[l0 l1]]]; [done|]. cbn [fst] in Hb.
  destruct (ok_finish _ _ _ gap_sps c (gap_header n) Hb) as [Hf _]; [intros i Hi; by apply Hpair in Hi as [? _]|].
  destruct (Dpb_finish d2 gap_sps c _) as [d3 [e|[]]]; [done|]. destruct (Dpb_next_output d3) as [d4 [o|]] eqn:Eo; [|done].
  intros [= <- _]. apply ok_taken. exact (ok_next_output _ _ _ _ _ Eo Hf).
Qed.
Lemma decoded_ok frame_nums d : dpb_ok [] [] d -> dpb_ok [] [] (decoded d frame_nums).
Proof.
  revert d. induction frame_nums as [|n frame_nums IH]; intros d Hd; [done|]. cbn [decoded].
  destruct (decode_frame d n) as [[d' l]|] eqn:E; [|done]. apply IH. by eapply decode_frame_ok.
Qed.

(** Frames 0 to 4 decoded, 5 and 6 missing. *)
Definition gap_buffer : Dpb := decoded (Dpb_configure Dpb_new gap_sps) [0; 1; 2; 3; 4].
Lemma gap_evicts_inserted_witness :
  map en_frame_num (references gap_buffer) = [4; 1; 2; 3] /\ exists oldest rest slot last,
    references gap_buffer ≡ₚ oldest :: rest /\ wadd 32 last 1 mod Sps_max_frame_num gap_sps = 7 /\
    references (fst (fill_gap gap_buffer gap_sps (gap_header 7))) ≡ₚ gap_entry slot last :: refs_of [unmarked oldest] ++ rest.
Proof.
  split; [vm_compute; reflexivity|].
  destruct (gap_evicts_inserted [] [] gap_buffer gap_sps (gap_header 7) (fst (fill_gap gap_buffer gap_sps (gap_header 7))))
    as (oldest & rest & slot & last & Hr & _ & _ & Hl & H).
  - apply decoded_ok, ok_configure, ok_new.
  - vm_compute. repeat constructor.
  - vm_compute. reflexivity.
  - vm_compute. reflexivity.
  - reflexivity.
  - vm_compute. discriminate.
  - vm_compute. discriminate.
  - vm_compute. reflexivity.
  - exists oldest, rest, slot, last. split; [exact Hr|]. split; [exact Hl|exact H].
Defined.

(** ** Second fields *)

(** One field of a picture. *)
Definition field_header (bottom : bool) (h : SliceHeader) : SliceHeader :=
  mkSliceHeader (sh_nal_unit_type h) (sh_nal_ref_idc h) (sh_first_mb_in_slice h) (sh_slice_type h) (sh_pps_id h) (sh_colour_plane_id h) (sh_frame_num h)
    true bottom (sh_idr_pic_id h) (sh_pic_order_cnt_lsb h) (sh_delta_pic_order_cnt_bottom h) (sh_delta_pic_order_cnt h)
    (sh_redundant_pic_cnt h) (sh_direct_spatial_mv_pred h) 3 (sh_num_ref_idx_l1_active_minus1 h) (sh_modifications_l0 h) (sh_modifications_l1 h)
    (sh_weights h) (sh_marking h) (sh_cabac_init_idc h) (sh_slice_qp_delta h) (sh_sp_for_switch h) (sh_slice_qs_delta h)
    (sh_disable_deblocking_filter_idc h) (sh_slice_alpha_c0_offset_div2 h) (sh_slice_beta_offset_div2 h) (sh_header_bits h).

(** Nothing reordered: the first field of a frame leaves as soon as it is finished, and the
    second is given the surface that is queued to be shown. *)
Example second_field_shown :
  let d := decoded (Dpb_configure Dpb_new gap_sps) [0] in
  let top := field_header false (gap_header 1) in
  match Dpb_begin d gap_sps top with
  | (d, inr c) =>
      let d := fst (Dpb_finish d gap_sps c top) in
      cu_pair_of c = None /\ queued d = [cu_slot c] /\
      match Dpb_begin d gap_sps (field_header true (gap_header 1)) with
      | (d', inr c') => cu_pair_of c' <> None /\ cu_slot c' ∈ queued d'
      | _ => False
      end
  | _ => False
  end.
Proof. vm_compute. split_and!; [done..|by left]. Qed.
