(* ===== verification/Stun.v ===== *)
(** The connectivity-check codec (crates/core/src/stun.rs): binding requests and
    responses, and the authentication that makes them trustworthy.

    The digests are code outside the repository: [Digests] is what the hmac,
    sha1 and md-5 crates offer, [DigestLaws] the sizes they document. *)

From S2P Require Import Prelude CoreError Crc32 Effect Net.

(** [HmacSha1::new_from_slice] and the finished digest of what was fed to it;
    [Sha1] and [Md5] of what was fed to them. *)
Class Digests := {
  HmacSha1_new : list Z -> option (list Z -> list Z);
  Sha1_digest : list Z -> list Z;
  Md5_digest : list Z -> list Z;
}.

(** HMAC takes a key of any length; digests are twenty and sixteen bytes. *)
Class DigestLaws (D : Digests) : Prop := {
  hmac_total : forall key, exists mac, HmacSha1_new key = Some mac /\
    forall m, zlen (mac m) = 20 /\ bytes_ok (mac m);
  sha1_len : forall m, zlen (Sha1_digest m) = 20;
  sha1_bytes : forall m, bytes_ok (Sha1_digest m);
  md5_len : forall m, zlen (Md5_digest m) = 16;
  md5_bytes : forall m, bytes_ok (Md5_digest m);
}.

Definition STUN_HEADER_LEN : Z := 20.
Definition MAGIC_COOKIE : Z := 0x2112A442.
Definition MIN_MESSAGE : Z := 52.
Definition MAX_MESSAGE : Z := 256.
Definition MAX_BUILT : Z := MAX_MESSAGE.
Definition MAX_UFRAG : Z := 32.

Definition TYPE_BINDING_REQUEST : Z := 0x0001.
Definition TYPE_BINDING_SUCCESS : Z := 0x0101.

Definition ATTR_USERNAME : Z := 0x0006.
Definition ATTR_MESSAGE_INTEGRITY : Z := 0x0008.
Definition ATTR_XOR_MAPPED_ADDRESS : Z := 0x0020.
Definition ATTR_PRIORITY : Z := 0x0024.
Definition ATTR_FINGERPRINT : Z := 0x8028.
Definition ATTR_ICE_CONTROLLED : Z := 0x8029.
Definition ATTR_NETWORK_COST : Z := 0xC057.

Definition INTEGRITY_LEN : Z := 24.
Definition FINGERPRINT_LEN : Z := 8.
Definition TRAILER_LEN : Z := INTEGRITY_LEN + FINGERPRINT_LEN.
Definition FINGERPRINT_XOR : Z := 0x5354554E.
Definition PRIORITY_VALUE : Z := 0x6E001EFF.
Definition NETWORK_COST_VALUE : Z := 0x00000032.

(** [TransactionId]: twelve bytes. *)
Definition TransactionId : Type := list Z.
Definition tid_ok (tid : TransactionId) : Prop := zlen tid = 12 /\ bytes_ok tid.

Inductive StunMethod := BindingRequest | BindingSuccess.

#[global] Instance StunMethod_eq_dec : EqDecision StunMethod.
Proof. solve_decision. Defined.

Record StunMessage := mkStunMessage {
  sm_bytes : list Z;
  sm_method : StunMethod;
  sm_tid : TransactionId;
  sm_integrity_at : option Z;
}.

(** ** Fields *)

Definition stun_be16 (bytes : list Z) (at_ : Z) : result Z :=
  slot ← ok_or (get_range bytes at_ (at_ + 2)) Malformed;
  a ← ok_or (head slot) Malformed;
  b ← ok_or (get_at slot 1) Malformed;
  Ok (from_be [a; b]).

Definition stun_be32 (bytes : list Z) (at_ : Z) : result Z :=
  slot ← ok_or (get_range bytes at_ (at_ + 4)) Malformed;
  Ok (from_be slot).

Definition put_be16 (at_ value : Z) : eff (list Z) unit := write_at at_ (to_be 2 value).

(** ** The attribute iterator *)

Record Attributes := mkAttributes {
  at_bytes : list Z;
  at_at : Z;
  at_end : Z;
  at_done : bool;
}.

#[export] Instance Attributes_eta : Eta Attributes := fun a =>
  mkAttributes (at_bytes a) (at_at a) (at_end a) (at_done a).

Definition Attributes_new (bytes : list Z) (end_ : Z) : Attributes :=
  mkAttributes bytes STUN_HEADER_LEN end_ false.

(** How far a value of [len] bytes is padded. *)
Definition pad_len (len : Z) : Z := (4 - len mod 4) mod 4.

Definition Attributes_next (a : Attributes) : Attributes * option (result (Z * list Z * Z)) :=
  if at_done a || (at_end a <? at_at a + 4) then (a, None)
  else
  match stun_be16 (at_bytes a) (at_at a) with
  | Err error => (a <| at_done := true |>, Some (Err error))
  | Ok kind =>
  match stun_be16 (at_bytes a) (at_at a + 2) with
  | Err error => (a <| at_done := true |>, Some (Err error))
  | Ok len =>
      let start := at_at a + 4 in
      match checked_add USIZE start len with
      | Some stop =>
          if stop <=? at_end a then
            match get_range (at_bytes a) start stop with
            | None => (a <| at_done := true |>, Some (Err Malformed))
            | Some value =>
                let next := stop + pad_len len in
                (a <| at_at := next |>, Some (Ok (kind, value, next)))
            end
          else (a <| at_done := true |>, Some (Err Malformed))
      | None => (a <| at_done := true |>, Some (Err Malformed))
      end
  end
  end.

(** The iterator never gives more than one attribute per four bytes. *)
Definition walk_fuel (bytes : list Z) : nat := S (length bytes).

(** [while let Some(attribute) = walk.next() { reached = attribute?.2 }]. *)
Fixpoint walk_reached (fuel : nat) (walk : Attributes) (reached : Z) : result Z :=
  match fuel with
  | O => Ok reached
  | S fuel' =>
      match Attributes_next walk with
      | (_, None) => Ok reached
      | (_, Some (Err e)) => Err e
      | (walk, Some (Ok (_, _, next))) => walk_reached fuel' walk next
      end
  end.

(** [while let Some(Ok((kind, value, _))) = walk.next() { if kind == k .. }]:
    the first value of a kind. *)
Fixpoint walk_find (fuel : nat) (walk : Attributes) (k : Z) : option (list Z) :=
  match fuel with
  | O => None
  | S fuel' =>
      match Attributes_next walk with
      | (walk, Some (Ok (kind, value, _))) =>
          if kind =? k then Some value else walk_find fuel' walk k
      | _ => None
      end
  end.

(** ** Addresses on the wire *)

Definition COOKIE_BYTES : list Z := to_be 4 MAGIC_COOKIE.

(** [encode_mapped]: a write in the caller's buffer, returning its length. *)
Definition encode_mapped (addr : SocketAddr) (tid : TransactionId) : eff (list Z) Z :=
  let addr := canonical addr in
  let port := Z.lxor (sock_port addr) 0x2112 in
  _ ← write_at 0 [0];
  _ ← put_be16 2 port;
  match sock_ip addr with
  | IpV4 octets =>
      _ ← write_at 1 [0x01];
      _ ← write_at 4 (xor_bytes COOKIE_BYTES octets);
      mret 8
  | IpV6 octets =>
      _ ← write_at 1 [0x02];
      _ ← write_at 4 (xor_bytes (COOKIE_BYTES ++ tid) octets);
      mret 20
  end.

Definition decode_mapped (value : list Z) (tid : TransactionId) : option SocketAddr :=
  family ← get_at value 1;
  b2 ← get_at value 2;
  b3 ← get_at value 3;
  let port := Z.lxor (from_be [b2; b3]) 0x2112 in
  if family =? 0x01 then
    raw ← get_range value 4 8;
    Some (SocketAddr_new (IpV4 (xor_bytes COOKIE_BYTES raw)) port)
  else if family =? 0x02 then
    raw ← get_range value 4 20;
    Some (canonical (SocketAddr_new (IpV6 (xor_bytes (COOKIE_BYTES ++ tid) raw)) port))
  else None.

(** ** Authentication *)

(** [integrity_of]. *)
Definition integrity_of `{Digests} (bytes : list Z) (at_ : Z) (key : list Z) : result (list Z) :=
  mac ← ok_or (HmacSha1_new key) BadKeyLength;
  claimed ← ok_or (try_from 16 (at_ + 4)) Oversized;
  head ← ok_or (get_range bytes 0 2) Malformed;
  rest ← ok_or (get_range bytes 4 at_) Malformed;
  Ok (mac (head ++ to_be 2 claimed ++ rest)).

(** [fingerprint_of]. *)
Definition fingerprint_of (bytes : list Z) (at_ : Z) : result Z :=
  claimed ← ok_or (try_from 16 (at_ + 12)) Oversized;
  head ← ok_or (get_range bytes 0 2) Malformed;
  let crc := Crc32_update Crc32_new head in
  let crc := Crc32_update crc (to_be 2 claimed) in
  rest ← ok_or (get_range bytes 4 (at_ + INTEGRITY_LEN)) Malformed;
  Ok (Z.lxor (Crc32_finish (Crc32_update crc rest)) FINGERPRINT_XOR).

(** ** Text *)

(** One continuation byte, and the ranges the second byte of a sequence is
    held to. *)
Definition in_range (lo hi b : Z) : bool := (lo <=? b) && (b <=? hi).

(** [core::str::from_utf8] accepts exactly the well-formed sequences. *)
Fixpoint utf8_valid (bytes : list Z) : bool :=
  match bytes with
  | [] => true
  | a :: rest =>
      if in_range 0x00 0x7F a then utf8_valid rest
      else match rest with
      | [] => false
      | b :: rest =>
          if in_range 0xC2 0xDF a && in_range 0x80 0xBF b then utf8_valid rest
          else match rest with
          | [] => false
          | c :: rest =>
              if in_range 0x80 0xBF c &&
                 ((a =? 0xE0) && in_range 0xA0 0xBF b
                  || (in_range 0xE1 0xEC a || in_range 0xEE 0xEF a) && in_range 0x80 0xBF b
                  || (a =? 0xED) && in_range 0x80 0x9F b)
              then utf8_valid rest
              else match rest with
              | [] => false
              | d :: rest =>
                  in_range 0x80 0xBF c && in_range 0x80 0xBF d &&
                  ((a =? 0xF0) && in_range 0x90 0xBF b
                   || in_range 0xF1 0xF3 a && in_range 0x80 0xBF b
                   || (a =? 0xF4) && in_range 0x80 0x8F b) &&
                  utf8_valid rest
              end
          end
      end
  end.

Definition from_utf8 (bytes : list Z) : option (list Z) := if utf8_valid bytes then Some bytes else None.

(** ** [Message] *)

(** Whether the trailer sits at [at_]: the closure given to [filter]. *)
Definition trailer_at (datagram : list Z) (at_ : Z) : bool :=
  bool_decide (stun_be16 datagram at_ = Ok ATTR_MESSAGE_INTEGRITY) &&
  bool_decide (stun_be16 datagram (at_ + 2) = Ok 20) &&
  bool_decide (stun_be16 datagram (at_ + INTEGRITY_LEN) = Ok ATTR_FINGERPRINT) &&
  bool_decide (stun_be16 datagram (at_ + INTEGRITY_LEN + 2) = Ok 4).

Definition StunMessage_parse (datagram : list Z) : result StunMessage :=
  if (zlen datagram <? STUN_HEADER_LEN) || (MAX_MESSAGE <? zlen datagram) then Err Malformed
  else
  head ← ok_or (get_range datagram 0 STUN_HEADER_LEN) Malformed;
  kind ← stun_be16 head 0;
  method ← (if kind =? TYPE_BINDING_REQUEST then Ok BindingRequest
            else if kind =? TYPE_BINDING_SUCCESS then Ok BindingSuccess
            else Err Malformed);
  cookie ← stun_be32 head 4;
  if negb (cookie =? MAGIC_COOKIE) then Err Malformed
  else
  claimed ← stun_be16 head 2;
  if negb (claimed =? zlen datagram - STUN_HEADER_LEN) then Err Malformed
  else
  tid ← ok_or (get_range head 8 20) Malformed;
  let integrity_at :=
    if MIN_MESSAGE <=? zlen datagram then
      let at_ := zlen datagram - TRAILER_LEN in
      if trailer_at datagram at_ then Some at_ else None
    else None in
  let end_ := default (zlen datagram) integrity_at in
  reached ← walk_reached (walk_fuel datagram) (Attributes_new datagram end_) STUN_HEADER_LEN;
  if negb (reached =? end_) then Err Malformed
  else Ok (mkStunMessage datagram method tid integrity_at).

Definition StunMessage_is_authenticated (m : StunMessage) : bool :=
  match sm_integrity_at m with Some _ => true | None => false end.

Definition StunMessage_verify `{Digests} (m : StunMessage) (password : list Z) : bool :=
  match sm_integrity_at m with
  | None => false
  | Some at_ =>
  match stun_be32 (sm_bytes m) (at_ + INTEGRITY_LEN + 4), fingerprint_of (sm_bytes m) at_ with
  | Ok expected, Ok actual =>
      if negb (expected =? actual) then false
      else
      match integrity_of (sm_bytes m) at_ password, get_range (sm_bytes m) (at_ + 4) (at_ + 24) with
      | Ok mac, Some carried => ct_eq mac carried
      | _, _ => false
      end
  | _, _ => false
  end
  end.

Definition StunMessage_attributes_end (m : StunMessage) : Z :=
  default (zlen (sm_bytes m)) (sm_integrity_at m).

(** The first value of kind [k] in the attribute area. *)
Definition StunMessage_find (m : StunMessage) (k : Z) : option (list Z) :=
  walk_find (walk_fuel (sm_bytes m)) (Attributes_new (sm_bytes m) (StunMessage_attributes_end m)) k.

Definition StunMessage_username (m : StunMessage) : option (list Z) :=
  value ← StunMessage_find m ATTR_USERNAME; from_utf8 value.

Definition StunMessage_mapped_address (m : StunMessage) : option SocketAddr :=
  value ← StunMessage_find m ATTR_XOR_MAPPED_ADDRESS; decode_mapped value (sm_tid m).

(** ** [Writer] *)

Record Writer := mkWriter {
  wr_buf : list Z;
  wr_at : Z;
  wr_tid : TransactionId;
}.

#[export] Instance Writer_eta : Eta Writer := fun w => mkWriter (wr_buf w) (wr_at w) (wr_tid w).

Definition Writer_new (buf : list Z) : Writer := mkWriter buf 0 (repeat 0 12).

Definition Writer_put (bytes : list Z) : eff Writer unit := fun w =>
  match checked_add USIZE (wr_at w) (zlen bytes) with
  | None => (w, Err Oversized)
  | Some end_ =>
      match get_range (wr_buf w) (wr_at w) end_ with
      | None => (w, Err BufferTooSmall)
      | Some _ => (w <| wr_buf := put_range (wr_buf w) (wr_at w) bytes |> <| wr_at := end_ |>, Ok ())
      end
  end.

Definition set_tid (tid : TransactionId) : eff Writer unit := fun w => (w <| wr_tid := tid |>, Ok ()).

Definition Writer_header (kind : Z) (tid : TransactionId) : eff Writer unit :=
  _ ← set_tid tid;
  _ ← Writer_put (to_be 2 kind);
  _ ← Writer_put (to_be 2 0);
  _ ← Writer_put (to_be 4 MAGIC_COOKIE);
  Writer_put tid.

Definition Writer_attribute_header (kind len : Z) : eff Writer unit :=
  len ← lift (ok_or (try_from 16 len) Oversized);
  _ ← Writer_put (to_be 2 kind);
  Writer_put (to_be 2 len).

Definition Writer_pad (len : Z) : eff Writer unit :=
  zeros ← lift (ok_or (get_range [0; 0; 0] 0 (pad_len len)) Malformed);
  Writer_put zeros.

Definition Writer_attribute (kind : Z) (value : list Z) : eff Writer unit :=
  _ ← Writer_attribute_header kind (zlen value);
  _ ← Writer_put value;
  Writer_pad (zlen value).

(** The part of [seal] that works on the message's own bytes. *)
Definition seal_trailer `{Digests} (at_ total : Z) (password : list Z) : eff (list Z) Z :=
  _ ← put_be16 at_ ATTR_MESSAGE_INTEGRITY;
  _ ← put_be16 (at_ + 2) 20;
  buf ← ask;
  mac ← lift (integrity_of buf at_ password);
  _ ← write_at (at_ + 4) mac;
  _ ← put_be16 (at_ + INTEGRITY_LEN) ATTR_FINGERPRINT;
  _ ← put_be16 (at_ + INTEGRITY_LEN + 2) 4;
  buf ← ask;
  crc ← lift (fingerprint_of buf at_);
  _ ← write_at (at_ + INTEGRITY_LEN + 4) (to_be 4 crc);
  length ← lift (ok_or (try_from 16 (at_ + 12)) Oversized);
  _ ← put_be16 2 length;
  mret total.

Definition Writer_seal `{Digests} (password : list Z) : eff Writer Z := fun w =>
  let at_ := wr_at w in
  match checked_add USIZE at_ TRAILER_LEN with
  | None => (w, Err Oversized)
  | Some total =>
      if MAX_MESSAGE <? total then (w, Err Oversized)
      else if total <? MIN_MESSAGE then (w, Err Malformed)
      else
      match get_range (wr_buf w) 0 total with
      | None => (w, Err BufferTooSmall)
      | Some buf =>
          let '(buf, res) := seal_trailer at_ total password buf in
          (w <| wr_buf := put_range (wr_buf w) 0 buf |>, res)
      end
  end.

(** A writer's run on a caller's buffer. *)
Definition on_buffer {A} (m : eff Writer A) : eff (list Z) A := fun out =>
  let '(w, res) := m (Writer_new out) in (wr_buf w, res).

(** ** The encoders *)

Definition encode_binding_request `{Digests} (tid : TransactionId) (local_ufrag remote_ufrag tiebreaker
    password : list Z) : eff (list Z) Z :=
  if (MAX_UFRAG <? zlen local_ufrag) || (MAX_UFRAG <? zlen remote_ufrag) then fail Oversized
  else on_buffer (
  _ ← Writer_header TYPE_BINDING_REQUEST tid;
  user_len ← lift (ok_or (n ← checked_add USIZE (zlen remote_ufrag) 1;
                          checked_add USIZE n (zlen local_ufrag)) Oversized);
  _ ← Writer_attribute_header ATTR_USERNAME user_len;
  _ ← Writer_put remote_ufrag;
  _ ← Writer_put [58];
  _ ← Writer_put local_ufrag;
  _ ← Writer_pad user_len;
  _ ← Writer_attribute ATTR_NETWORK_COST (to_be 4 NETWORK_COST_VALUE);
  _ ← Writer_attribute ATTR_ICE_CONTROLLED tiebreaker;
  _ ← Writer_attribute ATTR_PRIORITY (to_be 4 PRIORITY_VALUE);
  Writer_seal password).

(** [put_be16] on the writer's buffer. *)
Definition on_wr_buf {A} (m : eff (list Z) A) : eff Writer A :=
  on_part wr_buf (fun buf w => w <| wr_buf := buf |>) m.

Definition encode_reflexive_request (tid : TransactionId) : eff (list Z) Z := on_buffer (
  _ ← Writer_header TYPE_BINDING_REQUEST tid;
  w ← ask;
  _ ← on_wr_buf (put_be16 2 0);
  mret (wr_at w)).

(** The twenty-byte scratch value an address is written to. *)
Definition mapped_value (addr : SocketAddr) (tid : TransactionId) : result (list Z) :=
  let '(value, res) := encode_mapped addr tid (repeat 0 20) in
  written ← res;
  ok_or (get_range value 0 written) BufferTooSmall.

Definition encode_binding_response `{Digests} (tid : TransactionId) (observed : SocketAddr)
    (password : list Z) : eff (list Z) Z := on_buffer (
  _ ← Writer_header TYPE_BINDING_SUCCESS tid;
  value ← lift (mapped_value observed tid);
  _ ← Writer_attribute ATTR_XOR_MAPPED_ADDRESS value;
  Writer_seal password).
