(* ===== verification/StunFacts.v ===== *)
(** Layout lemmas of the check codec: the attribute area as a list of attributes,
    what the iterator makes of it, and what a writer leaves in its buffer. *)

From S2P Require Import Prelude CoreError Crc32 Effect Net Stun.

(** ** Fields at a known offset *)

Lemma be16_pair (a b : Z) : from_be [a; b] = a * 256 + b.
Proof. unfold from_be. cbn. lia. Qed.

Lemma stun_be16_eq bytes at_ :
  0 <= at_ -> stun_be16 bytes at_ = s ← ok_or (get_range bytes at_ (at_ + 2)) Malformed; Ok (from_be s).
Proof.
  intros H0. unfold stun_be16. destruct (get_range bytes at_ (at_ + 2)) as [s|] eqn:E; [|done].
  apply get_range_zlen in E; [|done]. unfold zlen in E.
  by destruct s as [|a [|b []]]; cbn in E; try lia.
Qed.

Lemma stun_be16_mid pre v post at_ :
  at_ = zlen pre -> fits 16 v -> stun_be16 (pre ++ to_be 2 v ++ post) at_ = Ok v.
Proof.
  intros -> Hv. pose proof (zlen_nonneg pre). rewrite stun_be16_eq by done.
  rewrite get_range_mid by (rewrite ?zlen_to_be; lia). cbn [ok_or mbind result_bind]. by rewrite (from_to_be 2).
Qed.

Lemma stun_be16_bytes bytes at_ v : bytes_ok bytes -> stun_be16 bytes at_ = Ok v -> fits 16 v.
Proof.
  intros Hb. unfold stun_be16. destruct (get_range bytes at_ (at_ + 2)) as [s|] eqn:E; [|done].
  apply get_range_Some in E as (_ & _ & ->). set (s := take _ _).
  assert (bytes_ok s) as Hs by (by apply Forall_take, Forall_drop). cbn [ok_or mbind result_bind].
  destruct s as [|a [|b s]]; cbn; try done. intros [= <-]. rewrite be16_pair.
  inversion_clear Hs as [|? ? H1 Hs']. inversion_clear Hs' as [|? ? H2 _]. unfold fits in *. lia.
Qed.

Lemma stun_be32_mid pre v post at_ :
  at_ = zlen pre -> fits 32 v -> stun_be32 (pre ++ to_be 4 v ++ post) at_ = Ok v.
Proof.
  intros -> Hv. unfold stun_be32. rewrite get_range_mid by (rewrite ?zlen_to_be; lia).
  cbn [ok_or mbind result_bind]. by rewrite (from_to_be 4).
Qed.

Lemma pad_len_bounds len : 0 <= pad_len len < 4.
Proof. unfold pad_len. apply Z.mod_pos_bound. lia. Qed.

Lemma pad_len_mult len : (len + pad_len len) mod 4 = 0.
Proof.
  unfold pad_len. rewrite Zplus_mod_idemp_r. replace (len + (4 - len mod 4)) with (4 + (len - len mod 4)) by lia.
  rewrite Z.mod_eq by lia. modlia.
Qed.

(** ** The attribute area *)

(** One attribute as the wire has it: kind, value and whatever pads it. *)
Record Attr := mkAttr { attr_kind : Z; attr_value : list Z; attr_padding : list Z }.

Definition attr_ok (a : Attr) : Prop :=
  fits 16 (attr_kind a) /\ fits 16 (zlen (attr_value a)) /\
  zlen (attr_padding a) = pad_len (zlen (attr_value a)).

Definition attr_wire (a : Attr) : list Z :=
  to_be 2 (attr_kind a) ++ to_be 2 (zlen (attr_value a)) ++ attr_value a ++ attr_padding a.

Definition attrs_wire (l : list Attr) : list Z := concat (map attr_wire l).

(** The first value of a kind. *)
Fixpoint find_attr (k : Z) (l : list Attr) : option (list Z) :=
  match l with
  | [] => None
  | a :: l => if attr_kind a =? k then Some (attr_value a) else find_attr k l
  end.

Lemma zlen_attr_wire a :
  zlen (attr_wire a) = 4 + zlen (attr_value a) + zlen (attr_padding a).
Proof. unfold attr_wire. rewrite !zlen_app, !zlen_to_be. lia. Qed.

Lemma attrs_wire_cons a l : attrs_wire (a :: l) = attr_wire a ++ attrs_wire l.
Proof. done. Qed.

Lemma attrs_wire_app l1 l2 : attrs_wire (l1 ++ l2) = attrs_wire l1 ++ attrs_wire l2.
Proof. unfold attrs_wire. by rewrite map_app, concat_app. Qed.

Lemma attrs_wire_length l : (4 * length l <= length (attrs_wire l))%nat.
Proof.
  induction l as [|a l IH]; [done|]. rewrite attrs_wire_cons, length_app. cbn [length].
  pose proof (zlen_attr_wire a) as E. unfold zlen in E. lia.
Qed.

(** The iterator on an attribute that is there. *)
Lemma next_attr pre a post end_ :
  attr_ok a -> zlen pre + zlen (attr_wire a) <= end_ + 3 -> zlen pre + 4 + zlen (attr_value a) <= end_ ->
  zlen (pre ++ attr_wire a ++ post) < 2 ^ 63 ->
  Attributes_next (mkAttributes (pre ++ attr_wire a ++ post) (zlen pre) end_ false) =
    (mkAttributes (pre ++ attr_wire a ++ post) (zlen (pre ++ attr_wire a)) end_ false,
     Some (Ok (attr_kind a, attr_value a, zlen (pre ++ attr_wire a)))).
Proof.
  intros (Hk & Hv & Hp) Hl Hstop Hz. pose proof (pad_len_bounds (zlen (attr_value a))).
  pose proof (zlen_nonneg (attr_value a)). pose proof (zlen_nonneg pre). pose proof (zlen_nonneg post).
  rewrite !zlen_app, zlen_attr_wire in Hz. unfold Attributes_next. cbn [at_done at_end at_at at_bytes orb].
  rewrite (proj2 (Z.ltb_ge _ _)) by lia.
  assert (pre ++ attr_wire a ++ post =
    (pre ++ to_be 2 (attr_kind a)) ++ to_be 2 (zlen (attr_value a)) ++ attr_value a ++ attr_padding a ++ post) as E
    by (unfold attr_wire; by rewrite <- !app_assoc).
  rewrite E at 1. rewrite <- app_assoc, stun_be16_mid by done.
  rewrite E at 1. rewrite stun_be16_mid by (rewrite ?zlen_app, ?zlen_to_be; done || lia).
  unfold checked_add. rewrite (proj2 (Z.ltb_lt _ _)) by lia. rewrite (proj2 (Z.leb_le _ _)) by lia.
  rewrite E at 1. rewrite app_assoc.
  rewrite get_range_mid by (rewrite ?zlen_app, ?zlen_to_be; lia).
  assert (zlen pre + 4 + zlen (attr_value a) + pad_len (zlen (attr_value a)) = zlen (pre ++ attr_wire a)) as ->
    by (rewrite zlen_app, zlen_attr_wire; lia). done.
Qed.

Lemma next_end bytes at_ end_ done_ :
  end_ < at_ + 4 -> Attributes_next (mkAttributes bytes at_ end_ done_) = (mkAttributes bytes at_ end_ done_, None).
Proof.
  intros H. unfold Attributes_next. cbn [at_done at_end at_at].
  rewrite (proj2 (Z.ltb_lt _ _)) by lia. by rewrite orb_true_r.
Qed.

(** Walking an area that is a list of attributes reaches its end, and finds the
    first of a kind. *)
Lemma walk_attrs l pre post fuel reached k :
  Forall attr_ok l -> (length l < fuel)%nat -> zlen (pre ++ attrs_wire l ++ post) < 2 ^ 63 ->
  (l = [] -> reached = zlen pre) ->
  let walk := mkAttributes (pre ++ attrs_wire l ++ post) (zlen pre) (zlen pre + zlen (attrs_wire l)) false in
  walk_reached fuel walk reached = Ok (zlen pre + zlen (attrs_wire l)) /\
  walk_find fuel walk k = find_attr k l.
Proof.
  revert pre fuel reached. induction l as [|a l IH]; intros pre [|fuel] reached Hok Hf Hz Hr; cbn [length] in Hf; try lia.
  - cbn [walk_reached walk_find attrs_wire map concat find_attr]. change (zlen []) with 0. cbv zeta.
    rewrite next_end by lia. rewrite Hr by done. by rewrite Z.add_0_r.
  - inversion_clear Hok as [|? ? Ha Hok']. cbv zeta. cbn [walk_reached walk_find find_attr].
    rewrite attrs_wire_cons, <- app_assoc in *.
    assert (zlen (attr_wire a) = 4 + zlen (attr_value a) + zlen (attr_padding a)) as Ew by apply zlen_attr_wire.
    pose proof (zlen_nonneg (attrs_wire l)). pose proof (zlen_nonneg (attr_padding a)).
    rewrite zlen_app. rewrite next_attr by (done || lia).
    specialize (IH (pre ++ attr_wire a) fuel (zlen (pre ++ attr_wire a)) Hok' ltac:(lia)).
    rewrite <- app_assoc in IH. destruct (IH Hz ltac:(done)) as [I1 I2]. rewrite zlen_app in I1, I2.
    rewrite <- !Z.add_assoc in I1, I2. rewrite zlen_app. rewrite I1. split; [done|].
    destruct (attr_kind a =? k); [done|]. apply I2.
Qed.

(** Conversely, what the iterator gives is an attribute that is there. *)
Lemma split_at (l : list Z) n : 0 <= n <= zlen l -> exists a b, l = a ++ b /\ zlen a = n.
Proof.
  intros H. exists (take (Z.to_nat n) l), (drop (Z.to_nat n) l). rewrite take_drop, zlen_take. split; [done|lia].
Qed.

Lemma stun_be16_split pre rest at_ v :
  bytes_ok rest -> at_ = zlen pre -> stun_be16 (pre ++ rest) at_ = Ok v ->
  exists post, rest = to_be 2 v ++ post /\ fits 16 v.
Proof.
  intros Hb -> E. pose proof (zlen_nonneg pre). rewrite stun_be16_eq in E by done.
  destruct (get_range (pre ++ rest) (zlen pre) (zlen pre + 2)) as [s|] eqn:Er; [|done].
  pose proof Er as (_ & Hl & _)%get_range_Some. rewrite zlen_app in Hl.
  destruct (split_at rest 2 ltac:(lia)) as (a & post & -> & Ha).
  rewrite get_range_mid in Er by lia. injection Er as <-. injection E as <-.
  apply Forall_app in Hb as [Hba _]. exists post. split.
  - f_equal. replace 2%nat with (length a) by (unfold zlen in Ha; lia). by rewrite to_from_be.
  - pose proof (from_be_fits a Hba) as F. by rewrite Ha in F.
Qed.

Lemma next_inv pre rest end_ w k v n :
  bytes_ok rest -> n <= zlen (pre ++ rest) ->
  Attributes_next (mkAttributes (pre ++ rest) (zlen pre) end_ false) = (w, Some (Ok (k, v, n))) ->
  exists a post, rest = attr_wire a ++ post /\ attr_ok a /\ k = attr_kind a /\ v = attr_value a /\
    n = zlen (pre ++ attr_wire a) /\ w = mkAttributes (pre ++ rest) n end_ false.
Proof.
  intros Hb Hn. unfold Attributes_next. cbn [at_done at_end at_at at_bytes orb].
  destruct (end_ <? zlen pre + 4); [done|].
  destruct (stun_be16 (pre ++ rest) (zlen pre)) as [kind|] eqn:Ek; [|done].
  destruct (stun_be16_split pre rest _ _ Hb eq_refl Ek) as (r1 & -> & Hk).
  rewrite app_assoc at 1. apply Forall_app in Hb as [_ Hb].
  destruct (stun_be16 ((pre ++ to_be 2 kind) ++ r1) (zlen pre + 2)) as [len|] eqn:El; [|done].
  destruct (stun_be16_split (pre ++ to_be 2 kind) r1 _ _ Hb ltac:(by rewrite zlen_app, zlen_to_be) El) as (r2 & -> & Hlen).
  apply Forall_app in Hb as [_ Hb]. destruct (checked_add _ _ _) as [stop|] eqn:Ec; [|done].
  unfold checked_add in Ec. destruct (_ <? _) in Ec; [|done]. injection Ec as <-.
  destruct (_ <=? end_); [|done].
  destruct (get_range _ _ _) as [value|] eqn:Ev; [|done]. intros [= <- <- <- <-].
  pose proof Ev as (_ & Hl & _)%get_range_Some. destruct Hlen as [Hlen0 Hlen1].
  pose proof (pad_len_bounds len) as Hp. rewrite !zlen_app, !zlen_to_be in Hl, Hn.
  destruct (split_at r2 len ltac:(lia)) as (val & r3 & -> & Hv). rewrite zlen_app in Hn.
  destruct (split_at r3 (pad_len len) ltac:(lia)) as (padding & post & -> & Hpad).
  assert (value = val) as ->.
  { replace (pre ++ to_be 2 kind ++ to_be 2 len ++ val ++ padding ++ post)
      with ((pre ++ to_be 2 kind ++ to_be 2 len) ++ val ++ padding ++ post) in Ev by (by rewrite <- !app_assoc).
    rewrite get_range_mid in Ev by (rewrite ?zlen_app, ?zlen_to_be; lia). by injection Ev. }
  exists (mkAttr kind val padding), post. unfold attr_wire, attr_ok. cbn [attr_kind attr_value attr_padding].
  rewrite Hv. split_and!; try done; [by rewrite <- !app_assoc|].
  rewrite !zlen_app, !zlen_to_be. lia.
Qed.

Lemma walk_reached_le fuel bytes at_ end_ :
  walk_reached fuel (mkAttributes bytes at_ end_ false) at_ = Ok end_ -> at_ <= end_.
Proof.
  destruct fuel as [|fuel]; cbn [walk_reached]; [intros [= ->]; lia|].
  unfold Attributes_next. cbn [at_done at_end at_at at_bytes orb].
  destruct (Z.ltb_spec end_ (at_ + 4)); [intros [= ->]; lia|lia].
Qed.

Lemma walk_inv fuel pre rest end_ :
  bytes_ok rest -> end_ <= zlen (pre ++ rest) ->
  walk_reached fuel (mkAttributes (pre ++ rest) (zlen pre) end_ false) (zlen pre) = Ok end_ ->
  exists l post, rest = attrs_wire l ++ post /\ Forall attr_ok l /\ end_ = zlen pre + zlen (attrs_wire l).
Proof.
  revert pre rest. induction fuel as [|fuel IH]; intros pre rest Hb He; cbn [walk_reached].
  { intros [= <-]. exists [], rest. split_and!; [done|constructor|]. cbn. change (zlen []) with 0. lia. }
  destruct (Attributes_next _) as [w [[[[k v] n]|]|]] eqn:En; [|done|].
  2: { intros [= <-]. exists [], rest. split_and!; [done|constructor|]. cbn. change (zlen []) with 0. lia. }
  intros Hw. assert (exists p, w = mkAttributes (pre ++ rest) p end_ false /\ p = n) as (p & -> & ->).
  { revert En. unfold Attributes_next. cbn [at_done at_end at_at at_bytes orb].
    repeat case_match; try done. intros [= <- _ _ <-]. by eexists. }
  pose proof (walk_reached_le _ _ _ _ Hw) as Hle.
  destruct (next_inv pre rest end_ _ k v n Hb ltac:(lia) En) as (a & post & -> & Ha & _ & _ & -> & _).
  apply Forall_app in Hb as [_ Hb]. rewrite app_assoc in Hw, He.
  destruct (IH _ _ Hb He Hw) as (l & post' & -> & Hl & ->).
  exists (a :: l), post'. rewrite attrs_wire_cons, <- app_assoc, !zlen_app. split_and!; [done|by constructor|lia].
Qed.

(** ** Writers *)

Definition at_pre (pre rest : list Z) (tid : TransactionId) : Writer := mkWriter (pre ++ rest) (zlen pre) tid.

(** [m] appends [l] where there is room for it. *)
Definition writes (m : eff Writer unit) (l : list Z) : Prop := forall pre rest tid,
  zlen l <= zlen rest -> zlen pre + zlen rest < 2 ^ 64 ->
  m (at_pre pre rest tid) = (at_pre (pre ++ l) (drop (length l) rest) tid, Ok ()).

Lemma writes_put bytes : writes (Writer_put bytes) bytes.
Proof.
  intros pre rest tid Hl Hz. pose proof (zlen_nonneg pre). pose proof (zlen_nonneg bytes).
  unfold Writer_put, at_pre. cbn [wr_at wr_buf]. unfold checked_add.
  rewrite (proj2 (Z.ltb_lt _ _)) by lia. rewrite get_range_eq by (rewrite ?zlen_app; lia).
  unfold set_field. cbn [wr_at wr_buf wr_tid]. rewrite put_range_app by done. by rewrite zlen_app, app_assoc.
Qed.

Lemma writes_bind {B} m l (k : eff Writer B) pre rest tid :
  writes m l -> zlen l <= zlen rest -> zlen pre + zlen rest < 2 ^ 64 ->
  (_ ← m; k) (at_pre pre rest tid) = k (at_pre (pre ++ l) (drop (length l) rest) tid).
Proof. intros Hm Hl Hz. unfold mbind, eff_bind. by rewrite (Hm pre rest tid Hl Hz). Qed.

Lemma writes_seq m1 l1 m2 l2 : writes m1 l1 -> writes m2 l2 -> writes (_ ← m1; m2) (l1 ++ l2).
Proof.
  intros H1 H2 pre rest tid Hl Hz. rewrite zlen_app in Hl. pose proof (zlen_nonneg l1). pose proof (zlen_nonneg l2).
  rewrite (writes_bind _ _ _ _ _ _ H1) by lia.
  rewrite H2 by (rewrite ?zlen_app, zlen_drop; unfold zlen in *; lia).
  by rewrite app_assoc, drop_drop, length_app.
Qed.

Lemma writes_lift {A} (r : result A) a k l : r = Ok a -> writes (k a) l -> writes (x ← lift r; k x) l.
Proof. intros -> H. exact H. Qed.

Lemma writes_attribute_header kind len :
  fits 16 len -> writes (Writer_attribute_header kind len) (to_be 2 kind ++ to_be 2 len).
Proof.
  intros H. unfold Writer_attribute_header. eapply writes_lift; [by rewrite try_from_ok|].
  apply writes_seq; apply writes_put.
Qed.

Definition zeros (n : Z) : list Z := repeat 0 (Z.to_nat n).

Lemma zlen_zeros n : 0 <= n -> zlen (zeros n) = n.
Proof. intros. unfold zlen, zeros. rewrite repeat_length. lia. Qed.

Lemma writes_pad len : writes (Writer_pad len) (zeros (pad_len len)).
Proof.
  unfold Writer_pad. pose proof (pad_len_bounds len).
  assert (get_range [0; 0; 0] 0 (pad_len len) = Some (zeros (pad_len len))) as E.
  { assert (pad_len len = 0 \/ pad_len len = 1 \/ pad_len len = 2 \/ pad_len len = 3) as [->|[->|[->| ->]]] by lia; done. }
  eapply writes_lift; [by rewrite E|]. apply writes_put.
Qed.

(** An attribute padded with zeros, as every encoder writes it. *)
Definition zattr (kind : Z) (value : list Z) : Attr := mkAttr kind value (zeros (pad_len (zlen value))).

Lemma zattr_ok kind value : fits 16 kind -> fits 16 (zlen value) -> attr_ok (zattr kind value).
Proof. intros ? ?. split_and!; [done..|]. apply zlen_zeros, pad_len_bounds. Qed.

Lemma writes_attribute kind value :
  fits 16 (zlen value) -> writes (Writer_attribute kind value) (attr_wire (zattr kind value)).
Proof.
  intros H. unfold Writer_attribute, attr_wire, zattr. cbn [attr_kind attr_value attr_padding].
  rewrite app_assoc. apply writes_seq; [by apply writes_attribute_header|].
  apply writes_seq; [apply writes_put|apply writes_pad].
Qed.

(** A program that appends [l] and goes on as [k]. *)
Definition leads {B} (m : eff Writer B) (l : list Z) (k : eff Writer B) : Prop := forall pre rest tid,
  zlen l <= zlen rest -> zlen pre + zlen rest < 2 ^ 64 ->
  m (at_pre pre rest tid) = k (at_pre (pre ++ l) (drop (length l) rest) tid).

Lemma leads_writes {B} m l (k : eff Writer B) : writes m l -> leads (_ ← m; k) l k.
Proof. intros H pre rest tid Hl Hz. by apply writes_bind. Qed.

Lemma leads_lift {A B} (r : result A) a (k : A -> eff Writer B) l k' :
  r = Ok a -> leads (k a) l k' -> leads (x ← lift r; k x) l k'.
Proof. intros -> H. exact H. Qed.

Lemma leads_trans {B} (m k1 k2 : eff Writer B) l1 l2 : leads m l1 k1 -> leads k1 l2 k2 -> leads m (l1 ++ l2) k2.
Proof.
  intros H1 H2 pre rest tid Hl Hz. rewrite zlen_app in Hl. pose proof (zlen_nonneg l1). pose proof (zlen_nonneg l2).
  rewrite H1 by lia. rewrite H2 by (rewrite ?zlen_app, zlen_drop; unfold zlen in *; lia).
  by rewrite app_assoc, drop_drop, length_app.
Qed.

Lemma leads_put {B} bytes l (k k' : eff Writer B) : leads k l k' -> leads (_ ← Writer_put bytes; k) (bytes ++ l) k'.
Proof. intros H. eapply leads_trans; [apply leads_writes, writes_put|done]. Qed.

Lemma leads_attribute {B} kind value l (k k' : eff Writer B) :
  fits 16 (zlen value) -> leads k l k' ->
  leads (_ ← Writer_attribute kind value; k) (attr_wire (zattr kind value) ++ l) k'.
Proof. intros Hv H. eapply leads_trans; [by apply leads_writes, writes_attribute|done]. Qed.

Lemma leads_done {B} (k : eff Writer B) : leads k [] k.
Proof. intros pre rest tid _ _. by rewrite app_nil_r. Qed.

(** The header as written: the length is still open. *)
Definition stun_head (kind len : Z) (tid : TransactionId) : list Z :=
  to_be 2 kind ++ to_be 2 len ++ COOKIE_BYTES ++ tid.

Lemma zlen_stun_head kind len tid : zlen tid = 12 -> zlen (stun_head kind len tid) = STUN_HEADER_LEN.
Proof. intros H. unfold stun_head. rewrite !zlen_app, !zlen_to_be, H. done. Qed.

Lemma writer_header_eq kind tid out :
  zlen tid = 12 -> STUN_HEADER_LEN <= zlen out -> zlen out < 2 ^ 64 ->
  Writer_header kind tid (Writer_new out) = (at_pre (stun_head kind 0 tid) (drop 20 out) tid, Ok ()).
Proof.
  intros Ht Hl Hz. unfold STUN_HEADER_LEN in *.
  assert (writes (_ ← Writer_put (to_be 2 kind); _ ← Writer_put (to_be 2 0);
    _ ← Writer_put (to_be 4 MAGIC_COOKIE); Writer_put tid) (stun_head kind 0 tid)) as W
    by (repeat apply writes_seq; apply writes_put).
  pose proof (zlen_stun_head kind 0 tid Ht) as Eh. unfold STUN_HEADER_LEN in Eh.
  specialize (W [] out tid ltac:(rewrite Eh; lia) ltac:(change (zlen []) with 0; lia)).
  replace (length (stun_head kind 0 tid)) with 20%nat in W by (unfold zlen in Eh; lia).
  unfold Writer_header, set_tid, Writer_new. exact W.
Qed.
