(* ===== verification/StunSpec.v ===== *)
(** What the check codec promises: sealed messages, round trips, and that a
    message verifies exactly when it is what sealing produces. *)

From S2P Require Import Prelude CoreError Crc32 Packet Effect Net Stun StunFacts.

Section sealing.
  Context {D : Digests} {L : DigestLaws D}.

(** The digest under a key. *)
Definition hmac (key m : list Z) : list Z :=
  match HmacSha1_new key with Some mac => mac m | None => [] end.

Lemma hmac_len key m : zlen (hmac key m) = 20.
Proof. unfold hmac. destruct (hmac_total key) as (f & -> & Hf). apply Hf. Qed.

Lemma hmac_bytes key m : bytes_ok (hmac key m).
Proof. unfold hmac. destruct (hmac_total key) as (f & -> & Hf). apply Hf. Qed.

(** A sealed message, field by field: the digest is taken over the message as
    if it ended with the integrity attribute, the checksum over the message as
    if it ended with the fingerprint. *)
Definition sealed_mac (pw : list Z) (kind : Z) (tid body : list Z) : list Z :=
  hmac pw (stun_head kind (zlen body + 24) tid ++ body).

Definition integrity_attr (mac : list Z) : list Z := to_be 2 ATTR_MESSAGE_INTEGRITY ++ to_be 2 20 ++ mac.

Definition sealed_crc (kind : Z) (tid body mac : list Z) : Z :=
  Z.lxor (crc32_of (stun_head kind (zlen body + 32) tid ++ body ++ integrity_attr mac)) FINGERPRINT_XOR.

Definition fingerprint_attr (crc : Z) : list Z := to_be 2 ATTR_FINGERPRINT ++ to_be 2 4 ++ to_be 4 crc.

Definition stun_sealed (pw : list Z) (kind : Z) (tid body : list Z) : list Z :=
  let mac := sealed_mac pw kind tid body in
  stun_head kind (zlen body + 32) tid ++ body ++ integrity_attr mac
    ++ fingerprint_attr (sealed_crc kind tid body mac).

Lemma zlen_integrity_attr mac : zlen mac = 20 -> zlen (integrity_attr mac) = 24.
Proof. intros H. unfold integrity_attr. rewrite !zlen_app, !zlen_to_be. lia. Qed.

Lemma zlen_fingerprint_attr crc : zlen (fingerprint_attr crc) = 8.
Proof. done. Qed.

Lemma zlen_stun_sealed pw kind tid body :
  zlen tid = 12 -> zlen (stun_sealed pw kind tid body) = 52 + zlen body.
Proof.
  intros H. unfold stun_sealed. rewrite !zlen_app, zlen_stun_head, zlen_integrity_attr, zlen_fingerprint_attr
    by (done || apply hmac_len). unfold STUN_HEADER_LEN. lia.
Qed.

(** ** The two hashes *)

Lemma head_split kind len tid : stun_head kind len tid = to_be 2 kind ++ to_be 2 len ++ (COOKIE_BYTES ++ tid).
Proof. done. Qed.

Lemma head_range kind len tid body post at_ :
  zlen tid = 12 -> at_ = 20 + zlen body ->
  get_range (stun_head kind len tid ++ body ++ post) 0 2 = Some (to_be 2 kind) /\
  get_range (stun_head kind len tid ++ body ++ post) 4 at_ = Some (COOKIE_BYTES ++ tid ++ body).
Proof.
  intros Ht ->. pose proof (zlen_nonneg body). rewrite head_split. rewrite <- !app_assoc. split.
  - apply get_range_head. done.
  - rewrite (app_assoc (to_be 2 kind)).
    replace (COOKIE_BYTES ++ tid ++ body ++ post) with ((COOKIE_BYTES ++ tid ++ body) ++ post) by (by rewrite <- !app_assoc).
    apply get_range_mid; [done|]. rewrite !zlen_app, Ht. change (zlen COOKIE_BYTES) with 4. lia.
Qed.

Lemma integrity_of_eq key kind len tid body post at_ :
  zlen tid = 12 -> at_ = 20 + zlen body -> zlen body + 24 < 2 ^ 16 ->
  integrity_of (stun_head kind len tid ++ body ++ post) at_ key = Ok (sealed_mac key kind tid body).
Proof.
  intros Ht Ha Hb. pose proof (zlen_nonneg body). unfold integrity_of, sealed_mac, hmac.
  destruct (hmac_total key) as (f & -> & _). destruct (head_range kind len tid body post at_ Ht Ha) as [-> ->].
  rewrite try_from_ok by (unfold fits; lia). cbn [ok_or mbind result_bind].
  replace (at_ + 4) with (zlen body + 24) by lia. rewrite head_split. by rewrite <- !app_assoc.
Qed.

Lemma crc_update_app c a b : Crc32_update (Crc32_update c a) b = Crc32_update c (a ++ b).
Proof. unfold Crc32_update. cbn [crc_reg]. by rewrite foldl_app. Qed.

Lemma fingerprint_of_eq kind len tid body mac post at_ :
  zlen tid = 12 -> zlen mac = 20 -> at_ = 20 + zlen body -> zlen body + 32 < 2 ^ 16 ->
  fingerprint_of (stun_head kind len tid ++ body ++ integrity_attr mac ++ post) at_ = Ok (sealed_crc kind tid body mac).
Proof.
  intros Ht Hm Ha Hb. pose proof (zlen_nonneg body). unfold fingerprint_of, sealed_crc, INTEGRITY_LEN.
  rewrite app_assoc with (l := body).
  destruct (head_range kind len tid (body ++ integrity_attr mac) post (at_ + 24) Ht) as [-> ->];
    [rewrite zlen_app, zlen_integrity_attr by done; lia|].
  rewrite try_from_ok by (unfold fits; lia). cbn [ok_or mbind result_bind].
  rewrite !crc_update_app. unfold crc32_of. replace (at_ + 12) with (zlen body + 32) by lia.
  rewrite head_split. by rewrite <- !app_assoc.
Qed.

(** ** Sealing *)

Lemma write_at_app (pre r bytes : list Z) a :
  a = zlen pre -> zlen bytes <= zlen r ->
  write_at a bytes (pre ++ r) = (pre ++ bytes ++ drop (length bytes) r, Ok ()).
Proof.
  intros -> Hl. pose proof (zlen_nonneg pre). rewrite write_at_ok by (rewrite ?zlen_app; lia).
  by rewrite put_range_app.
Qed.

Lemma write_at_mid (pre old new post : list Z) a :
  a = zlen pre -> length old = length new ->
  write_at a new (pre ++ old ++ post) = (pre ++ new ++ post, Ok ()).
Proof.
  intros -> Hl. rewrite write_at_app by (rewrite ?zlen_app; unfold zlen; lia || done).
  by rewrite <- Hl, drop_app_length.
Qed.

(** A write that fills the next stretch of the buffer. *)
Lemma write_step {B} (k : eff (list Z) B) (pre old new post : list Z) a :
  a = zlen pre -> zlen old = zlen new ->
  (_ ← write_at a new; k) (pre ++ old ++ post) = k ((pre ++ new) ++ post).
Proof.
  intros Ha Hl. rewrite (eff_step _ _ _ ((pre ++ new) ++ post) ()); [done|].
  rewrite write_at_mid by (done || unfold zlen in Hl; lia). by rewrite <- app_assoc.
Qed.

Lemma seal_trailer_eq pw kind tid body r :
  zlen tid = 12 -> zlen r = 32 -> zlen body + 52 <= 256 ->
  seal_trailer (20 + zlen body) (52 + zlen body) pw (stun_head kind 0 tid ++ body ++ r)
    = (stun_sealed pw kind tid body, Ok (52 + zlen body)).
Proof.
  intros Ht Hr Hb. pose proof (zlen_nonneg body).
  destruct (split_at r 2 ltac:(lia)) as (r1 & r' & -> & H1). rewrite zlen_app in Hr.
  destruct (split_at r' 2 ltac:(lia)) as (r2 & r'' & -> & H2). rewrite zlen_app in Hr.
  destruct (split_at r'' 20 ltac:(lia)) as (r3 & r' & -> & H3). rewrite zlen_app in Hr.
  destruct (split_at r' 2 ltac:(lia)) as (r4 & r'' & -> & H4). rewrite zlen_app in Hr.
  destruct (split_at r'' 2 ltac:(lia)) as (r5 & r6 & -> & H5). rewrite zlen_app in Hr.
  pose proof (zlen_stun_head kind 0 tid Ht) as Eh. unfold STUN_HEADER_LEN in Eh.
  set (mac := sealed_mac pw kind tid body). assert (zlen mac = 20) as Em by apply hmac_len.
  set (crc := sealed_crc kind tid body mac).
  unfold seal_trailer, put_be16, INTEGRITY_LEN. rewrite (app_assoc (stun_head kind 0 tid) body).
  rewrite write_step by (rewrite ?zlen_app, ?zlen_to_be; lia).
  rewrite write_step by (rewrite ?zlen_app, ?zlen_to_be; lia).
  rewrite ask_step, (lift_step _ _ _ mac) by (rewrite <- !app_assoc; apply integrity_of_eq; done || lia).
  rewrite write_step by (rewrite ?zlen_app, ?zlen_to_be; lia).
  rewrite write_step by (rewrite ?zlen_app, ?zlen_to_be; lia).
  rewrite write_step by (rewrite ?zlen_app, ?zlen_to_be; lia).
  rewrite ask_step, (lift_step _ _ _ crc).
  2: { rewrite <- !app_assoc. apply (fingerprint_of_eq kind 0 tid body mac (to_be 2 _ ++ to_be 2 _ ++ r6)); done || lia. }
  rewrite <- (app_nil_r r6). rewrite write_step by (rewrite ?zlen_app, ?zlen_to_be; lia).
  rewrite (lift_step _ _ _ (zlen body + 32)) by (rewrite try_from_ok by (unfold fits; lia); cbn; f_equal; lia).
  erewrite eff_step.
  2: { rewrite head_split, <- !app_assoc. apply write_at_mid; done. }
  unfold stun_sealed, integrity_attr, fingerprint_attr. fold mac. fold crc. rewrite head_split. rewrite <- !app_assoc.
  by rewrite app_nil_r.
Qed.

Lemma writer_seal_eq pw kind tid body rest :
  zlen tid = 12 -> zlen body + 52 <= 256 -> 32 <= zlen rest -> zlen rest < 2 ^ 63 ->
  Writer_seal pw (at_pre (stun_head kind 0 tid ++ body) rest tid)
    = (mkWriter (stun_sealed pw kind tid body ++ drop 32 rest) (20 + zlen body) tid, Ok (52 + zlen body)).
Proof.
  intros Ht Hb Hr Hz. pose proof (zlen_nonneg body). unfold Writer_seal, at_pre. cbn [wr_at wr_buf].
  pose proof (zlen_stun_head kind 0 tid Ht) as Eh. unfold STUN_HEADER_LEN in Eh.
  assert (zlen (stun_head kind 0 tid ++ body) = 20 + zlen body) as Ep by (rewrite zlen_app; lia).
  rewrite Ep. unfold checked_add, TRAILER_LEN, INTEGRITY_LEN, FINGERPRINT_LEN, MAX_MESSAGE, MIN_MESSAGE.
  rewrite (proj2 (Z.ltb_lt _ _)) by lia. rewrite (proj2 (Z.ltb_ge 256 _)) by lia.
  rewrite (proj2 (Z.ltb_ge _ 52)) by lia.
  destruct (split_at rest 32 ltac:(lia)) as (r & post & -> & Hr32).
  rewrite (app_assoc _ r post), get_range_head by (rewrite zlen_app; lia).
  replace (20 + zlen body + (24 + 8)) with (52 + zlen body) by lia.
  rewrite <- (app_assoc (stun_head kind 0 tid) body r), seal_trailer_eq by done.
  unfold set_field. cbn [wr_at wr_buf wr_tid]. rewrite put_range_0.
  pose proof (zlen_stun_sealed pw kind tid body Ht) as Es.
  rewrite drop_app_length' by (rewrite !length_app; unfold zlen in *; rewrite ?length_app in Ep; lia).
  rewrite drop_app_length' by (unfold zlen in Hr32; lia). done.
Qed.

(** ** Encoding *)

(** What a writer that fills the attribute area and seals leaves. *)
Lemma sealed_by m kind tid body pw out :
  leads m body (Writer_seal pw) ->
  zlen tid = 12 -> 52 + zlen body <= 256 -> 52 + zlen body <= zlen out -> zlen out < 2 ^ 63 ->
  on_buffer (_ ← Writer_header kind tid; m) out
    = (stun_sealed pw kind tid body ++ drop (52 + length body) out, Ok (52 + zlen body)).
Proof.
  intros Hm Ht Hb Hl Hz. pose proof (zlen_nonneg body). unfold on_buffer.
  erewrite eff_step by (apply writer_header_eq; unfold STUN_HEADER_LEN; lia).
  assert (zlen (drop 20 out) = zlen out - 20) as Ed by (rewrite zlen_drop; lia).
  rewrite Hm by (rewrite ?zlen_stun_head by done; unfold STUN_HEADER_LEN; lia).
  rewrite drop_drop, writer_seal_eq by (first [done|lia|rewrite zlen_drop; unfold zlen in *; lia]).
  cbn [wr_buf]. rewrite drop_drop. do 3 f_equal. lia.
Qed.

Definition request_attrs (local_ufrag remote_ufrag tiebreaker : list Z) : list Attr :=
  [zattr ATTR_USERNAME (remote_ufrag ++ [58] ++ local_ufrag);
   zattr ATTR_NETWORK_COST (to_be 4 NETWORK_COST_VALUE);
   zattr ATTR_ICE_CONTROLLED tiebreaker;
   zattr ATTR_PRIORITY (to_be 4 PRIORITY_VALUE)].

(** An address as its attribute's value carries it. *)
Definition mapped_bytes (addr : SocketAddr) (tid : TransactionId) : list Z :=
  match canonical addr with
  | SockV4 o p => [0; 1] ++ to_be 2 (Z.lxor p 0x2112) ++ xor_bytes COOKIE_BYTES o
  | SockV6 o p _ _ => [0; 2] ++ to_be 2 (Z.lxor p 0x2112) ++ xor_bytes (COOKIE_BYTES ++ tid) o
  end.

(** An address as it comes off the wire: canonical, and without the flow label
    and scope no attribute carries. *)
Definition wire_addr (addr : SocketAddr) : SocketAddr := SocketAddr_new (sock_ip (canonical addr)) (sock_port (canonical addr)).

Definition response_attrs (observed : SocketAddr) (tid : TransactionId) : list Attr :=
  [zattr ATTR_XOR_MAPPED_ADDRESS (mapped_bytes observed tid)].

Lemma zlen_zattr kind value : zlen (attr_wire (zattr kind value)) = 4 + zlen value + pad_len (zlen value).
Proof. rewrite zlen_attr_wire. cbn [attr_value attr_padding zattr]. by rewrite zlen_zeros by apply pad_len_bounds. Qed.

Lemma zattr_wire kind value :
  attr_wire (zattr kind value) = to_be 2 kind ++ to_be 2 (zlen value) ++ value ++ zeros (pad_len (zlen value)).
Proof. done. Qed.

Lemma zlen_request_attrs lu ru tb :
  zlen lu <= 32 -> zlen ru <= 32 -> zlen tb = 8 -> zlen (attrs_wire (request_attrs lu ru tb)) <= 100.
Proof.
  intros Hl Hr Ht. unfold request_attrs. rewrite !attrs_wire_cons, !zlen_app, !zlen_zattr, !zlen_to_be, !zlen_app, Ht.
  change (zlen [58]) with 1. change (zlen (attrs_wire [])) with 0.
  change (pad_len (Z.of_nat 4)) with 0. change (pad_len 8) with 0.
  pose proof (zlen_nonneg lu). pose proof (zlen_nonneg ru).
  unfold pad_len. modlia.
Qed.

Lemma request_attrs_ok lu ru tb :
  zlen lu <= 32 -> zlen ru <= 32 -> zlen tb = 8 -> Forall attr_ok (request_attrs lu ru tb).
Proof.
  intros Hl Hr Ht. pose proof (zlen_nonneg lu). pose proof (zlen_nonneg ru).
  repeat constructor; cbn [attr_kind zattr attr_value attr_padding]; try (unfold fits; done);
    try apply zlen_zeros, pad_len_bounds; unfold fits;
    rewrite ?zlen_app, ?zlen_to_be, ?Ht; change (zlen [58]) with 1; lia.
Qed.

Lemma zlen_xor mask l : zlen l <= zlen mask -> zlen (xor_bytes mask l) = zlen l.
Proof. unfold zlen. intros. rewrite length_xor_bytes; lia. Qed.

Lemma zlen_mapped_bytes addr tid :
  sock_ok addr -> zlen tid = 12 ->
  zlen (mapped_bytes addr tid) = if is_ipv4 (canonical addr) then 8 else 20.
Proof.
  intros Ha Ht. apply canonical_ok in Ha. unfold mapped_bytes. destruct (canonical addr) as [o p|o p f s]; cbn in Ha.
  - destruct Ha as (Ho & _). rewrite !zlen_app, zlen_to_be, zlen_xor by (by rewrite Ho). by rewrite Ho.
  - destruct Ha as (Ho & _). rewrite !zlen_app, zlen_to_be, zlen_xor by (by rewrite zlen_app, Ho, Ht). by rewrite Ho.
Qed.

Lemma mapped_value_eq addr tid :
  sock_ok addr -> zlen tid = 12 -> mapped_value addr tid = Ok (mapped_bytes addr tid).
Proof.
  intros Ha Ht. apply canonical_ok in Ha. unfold mapped_value, encode_mapped, mapped_bytes, put_be16.
  destruct (canonical addr) as [o p|o p f s]; cbn [sock_ip sock_port]; destruct Ha as (Ho & _).
  - assert (length (xor_bytes COOKIE_BYTES o) = 4%nat) as Hx
      by (rewrite length_xor_bytes by (unfold zlen in Ho; cbn; lia); unfold zlen in Ho; lia).
    pose proof (length_to_be 2 (Z.lxor p 0x2112)) as Hp.
    generalize dependent (xor_bytes COOKIE_BYTES o). generalize dependent (to_be 2 (Z.lxor p 0x2112)).
    intros pt Hp x Hx. explicit_list Hp. explicit_list Hx. reflexivity.
  - assert (length (xor_bytes (COOKIE_BYTES ++ tid) o) = 16%nat) as Hx.
    { rewrite length_xor_bytes; [unfold zlen in Ho; lia|].
      rewrite length_app. change (length COOKIE_BYTES) with 4%nat. unfold zlen in *. lia. }
    pose proof (length_to_be 2 (Z.lxor p 0x2112)) as Hp.
    generalize dependent (xor_bytes (COOKIE_BYTES ++ tid) o). generalize dependent (to_be 2 (Z.lxor p 0x2112)).
    intros pt Hp x Hx. explicit_list Hp. explicit_list Hx. reflexivity.
Qed.

Lemma port_mask p : fits 16 p -> fits 16 (Z.lxor p 0x2112) /\ Z.lxor (Z.lxor p 0x2112) 0x2112 = p.
Proof.
  intros Hp. split; [by apply lxor_fits|]. by rewrite Z.lxor_assoc, Z.lxor_nilpotent, Z.lxor_0_r.
Qed.

Lemma decode_v4 q0 q1 raw tid :
  zlen raw = 4 -> decode_mapped ([0; 1] ++ [q0; q1] ++ raw) tid
    = Some (SockV4 (xor_bytes COOKIE_BYTES raw) (Z.lxor (from_be [q0; q1]) 0x2112)).
Proof. intros H. unfold zlen in H. explicit_list H. reflexivity. Qed.

Lemma decode_v6 q0 q1 raw tid :
  zlen raw = 16 -> decode_mapped ([0; 2] ++ [q0; q1] ++ raw) tid
    = Some (canonical (SockV6 (xor_bytes (COOKIE_BYTES ++ tid) raw) (Z.lxor (from_be [q0; q1]) 0x2112) 0 0)).
Proof. intros H. unfold zlen in H. explicit_list H. reflexivity. Qed.

Lemma to_be_2 v : exists q0 q1, to_be 2 v = [q0; q1].
Proof. by eexists _, _. Qed.

Lemma decode_mapped_bytes addr tid :
  sock_ok addr -> zlen tid = 12 -> decode_mapped (mapped_bytes addr tid) tid = Some (wire_addr addr).
Proof.
  intros Ha Ht. apply canonical_ok in Ha as Hc. pose proof (canonical_idem addr) as Hi.
  unfold mapped_bytes, wire_addr. destruct (canonical addr) as [o p|o p f s] eqn:Ec; cbn in Hc.
  - destruct Hc as (Ho & _ & Hp). destruct (port_mask p Hp) as [Hq Eq].
    pose proof (from_to_be 2 _ Hq) as Ep. destruct (to_be_2 (Z.lxor p 0x2112)) as (q0 & q1 & E).
    rewrite E in *. rewrite decode_v4 by (by rewrite zlen_xor; rewrite Ho).
    rewrite Ep, Eq, xor_bytes_involutive by (unfold zlen in Ho; cbn; lia). done.
  - destruct Hc as (Ho & _ & Hp & _). destruct (port_mask p Hp) as [Hq Eq]. apply canonical_v6 in Hi.
    assert (zlen o <= zlen (COOKIE_BYTES ++ tid)) as Hlo by (by rewrite zlen_app, Ho, Ht).
    pose proof (from_to_be 2 _ Hq) as Ep. destruct (to_be_2 (Z.lxor p 0x2112)) as (q0 & q1 & E).
    rewrite E in *. rewrite decode_v6 by (by rewrite zlen_xor).
    rewrite Ep, Eq, xor_bytes_involutive by (unfold zlen in Hlo; lia). cbn. by rewrite Hi.
Qed.

Lemma encode_request_eq tid lu ru tb pw out :
  zlen tid = 12 -> zlen lu <= MAX_UFRAG -> zlen ru <= MAX_UFRAG -> zlen tb = 8 ->
  MAX_BUILT <= zlen out -> zlen out < 2 ^ 63 ->
  let body := attrs_wire (request_attrs lu ru tb) in
  encode_binding_request tid lu ru tb pw out
    = (stun_sealed pw TYPE_BINDING_REQUEST tid body ++ drop (52 + length body) out, Ok (52 + zlen body)).
Proof.
  intros Ht Hl Hr Htb Ho Hz body. unfold MAX_UFRAG, MAX_BUILT, MAX_MESSAGE in *.
  pose proof (zlen_request_attrs lu ru tb Hl Hr Htb) as Hb. fold body in Hb.
  pose proof (zlen_nonneg lu). pose proof (zlen_nonneg ru).
  unfold encode_binding_request, MAX_UFRAG. rewrite !(proj2 (Z.ltb_ge 32 _)) by done. cbn [orb].
  apply sealed_by; [|done|lia|lia|done].
  unfold checked_add. rewrite (proj2 (Z.ltb_lt _ (2 ^ 64))) by lia. cbn [mbind option_bind].
  rewrite (proj2 (Z.ltb_lt _ (2 ^ 64))) by lia. eapply leads_lift; [done|].
  set (user := ru ++ [58] ++ lu). assert (zlen ru + 1 + zlen lu = zlen user) as ->
    by (unfold user; rewrite !zlen_app; change (zlen [58]) with 1; lia).
  assert (body = (to_be 2 ATTR_USERNAME ++ to_be 2 (zlen user)) ++ ru ++ [58] ++ lu ++ zeros (pad_len (zlen user))
    ++ attr_wire (zattr ATTR_NETWORK_COST (to_be 4 NETWORK_COST_VALUE)) ++ attr_wire (zattr ATTR_ICE_CONTROLLED tb)
    ++ attr_wire (zattr ATTR_PRIORITY (to_be 4 PRIORITY_VALUE)) ++ []) as ->.
  { unfold body, request_attrs. fold user. rewrite !attrs_wire_cons, (zattr_wire ATTR_USERNAME), <- !app_assoc.
    do 2 f_equal. unfold user at 1. by rewrite <- !app_assoc. }
  eapply leads_trans.
  { apply leads_writes, writes_attribute_header. unfold fits, user. rewrite !zlen_app. change (zlen [58]) with 1. lia. }
  do 3 apply leads_put. eapply leads_trans; [apply leads_writes, writes_pad|].
  repeat (apply leads_attribute; [unfold fits; rewrite ?zlen_to_be, ?Htb; lia|]). apply leads_done.
Qed.

Lemma zlen_response_attrs observed tid :
  sock_ok observed -> zlen tid = 12 -> zlen (attrs_wire (response_attrs observed tid)) <= 24.
Proof.
  intros Ha Ht. unfold response_attrs. rewrite attrs_wire_cons, zlen_app, zlen_zattr, zlen_mapped_bytes by done.
  by destruct (is_ipv4 _).
Qed.

Lemma response_attrs_ok observed tid :
  sock_ok observed -> zlen tid = 12 -> Forall attr_ok (response_attrs observed tid).
Proof.
  intros Ha Ht. repeat constructor; cbn [attr_kind zattr attr_value attr_padding]; try done;
    try apply zlen_zeros, pad_len_bounds; rewrite zlen_mapped_bytes by done; by destruct (is_ipv4 _).
Qed.

Lemma encode_response_eq tid observed pw out :
  sock_ok observed -> zlen tid = 12 -> MAX_BUILT <= zlen out -> zlen out < 2 ^ 63 ->
  let body := attrs_wire (response_attrs observed tid) in
  encode_binding_response tid observed pw out
    = (stun_sealed pw TYPE_BINDING_SUCCESS tid body ++ drop (52 + length body) out, Ok (52 + zlen body)).
Proof.
  intros Ha Ht Ho Hz body. unfold MAX_BUILT, MAX_MESSAGE in *.
  pose proof (zlen_response_attrs observed tid Ha Ht) as Hb. fold body in Hb.
  apply sealed_by; [|done|lia|lia|done]. eapply leads_lift; [by apply mapped_value_eq|].
  apply leads_attribute; [|apply leads_done]. rewrite zlen_mapped_bytes by done. by destruct (is_ipv4 _).
Qed.

(** ** Parsing *)

Definition method_kind (m : StunMethod) : Z :=
  match m with BindingRequest => TYPE_BINDING_REQUEST | BindingSuccess => TYPE_BINDING_SUCCESS end.

Definition kind_method (kind : Z) : result StunMethod :=
  if kind =? TYPE_BINDING_REQUEST then Ok BindingRequest
  else if kind =? TYPE_BINDING_SUCCESS then Ok BindingSuccess
  else Err Malformed.

Lemma kind_method_iff kind m : kind_method kind = Ok m <-> kind = method_kind m.
Proof.
  unfold kind_method, method_kind, TYPE_BINDING_REQUEST, TYPE_BINDING_SUCCESS.
  destruct m; zcases; split; (done || congruence || lia).
Qed.

(** Where the trailer is, if it is there. *)
Definition integrity_place (d : list Z) : option Z :=
  if MIN_MESSAGE <=? zlen d then
    let at_ := zlen d - TRAILER_LEN in if trailer_at d at_ then Some at_ else None
  else None.

(** The walk that ends the parser. *)
Definition parse_area (d : list Z) (method : StunMethod) (tid : TransactionId) : result StunMessage :=
  let end_ := default (zlen d) (integrity_place d) in
  reached ← walk_reached (walk_fuel d) (Attributes_new d end_) STUN_HEADER_LEN;
  if negb (reached =? end_) then Err Malformed else Ok (mkStunMessage d method tid (integrity_place d)).

(** The fields of a header that is laid out, as both parsers read them. *)
Lemma head_reads kind len cookie tid rest :
  zlen tid = 12 -> fits 16 kind -> fits 16 len -> fits 32 cookie ->
  let h := to_be 2 kind ++ to_be 2 len ++ to_be 4 cookie ++ tid in
  get_range (to_be 2 kind ++ to_be 2 len ++ to_be 4 cookie ++ tid ++ rest) 0 STUN_HEADER_LEN = Some h /\
  stun_be16 h 0 = Ok kind /\ stun_be32 h 4 = Ok cookie /\ stun_be16 h 2 = Ok len /\
  get_range h 8 20 = Some tid.
Proof.
  intros Ht Hk Hl Hc h. split_and!.
  - replace (to_be 2 kind ++ to_be 2 len ++ to_be 4 cookie ++ tid ++ rest) with (h ++ rest)
      by (unfold h; by rewrite <- !app_assoc). apply get_range_head.
    unfold h. rewrite !zlen_app, !zlen_to_be, Ht. done.
  - exact (stun_be16_mid [] kind _ 0 eq_refl Hk).
  - unfold h. rewrite (app_assoc (to_be 2 kind)). by apply stun_be32_mid.
  - by apply stun_be16_mid.
  - replace h with ((to_be 2 kind ++ to_be 2 len ++ to_be 4 cookie) ++ tid ++ [])
      by (unfold h; by rewrite app_nil_r, <- !app_assoc).
    apply get_range_mid; [done|]. rewrite Ht. done.
Qed.

(** The parser on a header that is laid out. *)
Lemma parse_head kind len cookie tid rest :
  zlen tid = 12 -> fits 16 kind -> fits 16 len -> fits 32 cookie ->
  let d := to_be 2 kind ++ to_be 2 len ++ to_be 4 cookie ++ tid ++ rest in
  StunMessage_parse d =
    if MAX_MESSAGE <? zlen d then Err Malformed
    else method ← kind_method kind;
         if negb (cookie =? MAGIC_COOKIE) then Err Malformed
         else if negb (len =? zlen d - STUN_HEADER_LEN) then Err Malformed
         else parse_area d method tid.
Proof.
  intros Ht Hk Hl Hc d. unfold StunMessage_parse. pose proof (zlen_nonneg rest).
  assert (zlen d = 20 + zlen rest) as Ed by (unfold d; rewrite !zlen_app, !zlen_to_be, Ht; lia).
  rewrite (proj2 (Z.ltb_ge (zlen d) _)) by (unfold STUN_HEADER_LEN; lia). cbn [orb].
  destruct (MAX_MESSAGE <? zlen d); [done|].
  destruct (head_reads kind len cookie tid rest Ht Hk Hl Hc) as (Eh & Ek & Ec & El & Et).
  fold d in Eh. rewrite Eh. cbn [ok_or mbind result_bind]. by rewrite Ek, Ec, El, Et.
Qed.

Lemma parse_short d : zlen d < STUN_HEADER_LEN -> StunMessage_parse d = Err Malformed.
Proof. intros H. unfold StunMessage_parse. by rewrite (proj2 (Z.ltb_lt _ _)). Qed.

Lemma head_fields d :
  bytes_ok d -> STUN_HEADER_LEN <= zlen d -> exists kind len cookie tid rest,
    d = to_be 2 kind ++ to_be 2 len ++ to_be 4 cookie ++ tid ++ rest /\
    zlen tid = 12 /\ fits 16 kind /\ fits 16 len /\ fits 32 cookie /\ bytes_ok tid /\ bytes_ok rest.
Proof.
  unfold STUN_HEADER_LEN. intros Hb Hl.
  destruct (split_at d 2 ltac:(lia)) as (a & d1 & -> & Ha). rewrite zlen_app in Hl.
  destruct (split_at d1 2 ltac:(lia)) as (b & d2 & -> & Hbl). rewrite zlen_app in Hl.
  destruct (split_at d2 4 ltac:(lia)) as (c & d3 & -> & Hc). rewrite zlen_app in Hl.
  destruct (split_at d3 12 ltac:(lia)) as (tid & rest & -> & Ht).
  apply Forall_app in Hb as [Ba Hb]. apply Forall_app in Hb as [Bb Hb]. apply Forall_app in Hb as [Bc Hb].
  apply Forall_app in Hb as [Bt Br].
  exists (from_be a), (from_be b), (from_be c), tid, rest.
  pose proof (from_be_fits a Ba) as Fa. pose proof (from_be_fits b Bb) as Fb. pose proof (from_be_fits c Bc) as Fc.
  rewrite Ha in Fa. rewrite Hbl in Fb. rewrite Hc in Fc. split_and!; try done.
  repeat f_equal.
  - rewrite <- (to_from_be a Ba) at 1. f_equal. unfold zlen in Ha. lia.
  - rewrite <- (to_from_be b Bb) at 1. f_equal. unfold zlen in Hbl. lia.
  - rewrite <- (to_from_be c Bc) at 1. f_equal. unfold zlen in Hc. lia.
Qed.

(** The attribute area, between the header and the trailer. *)
Lemma integrity_place_le d : default (zlen d) (integrity_place d) <= zlen d.
Proof.
  unfold integrity_place, TRAILER_LEN, INTEGRITY_LEN, FINGERPRINT_LEN. zcases; [|cbn; lia].
  destruct (trailer_at _ _); cbn; lia.
Qed.

Lemma parse_area_inv head rest method tid m :
  zlen head = STUN_HEADER_LEN -> bytes_ok rest -> parse_area (head ++ rest) method tid = Ok m ->
  m = mkStunMessage (head ++ rest) method tid (integrity_place (head ++ rest)) /\
  exists attrs post, rest = attrs_wire attrs ++ post /\ Forall attr_ok attrs /\
    default (zlen (head ++ rest)) (integrity_place (head ++ rest)) = STUN_HEADER_LEN + zlen (attrs_wire attrs).
Proof.
  intros Eh Hb. pose proof (integrity_place_le (head ++ rest)) as Hend. unfold parse_area, Attributes_new.
  set (end_ := default _ _) in *. destruct (walk_reached _ _ _) as [reached|] eqn:Ew; [|done].
  cbn [mbind result_bind]. destruct (Z.eqb_spec reached end_) as [->|]; [|done]. cbn [negb]. intros [= <-].
  split; [done|]. rewrite <- Eh in Ew.
  destruct (walk_inv _ _ _ _ Hb Hend Ew) as (l & post & E & Hl & He). rewrite Eh in He. eauto.
Qed.

Lemma parse_area_ok head attrs post method tid :
  let d := head ++ attrs_wire attrs ++ post in
  zlen head = STUN_HEADER_LEN -> Forall attr_ok attrs -> zlen d <= MAX_MESSAGE ->
  default (zlen d) (integrity_place d) = STUN_HEADER_LEN + zlen (attrs_wire attrs) ->
  parse_area d method tid = Ok (mkStunMessage d method tid (integrity_place d)).
Proof.
  intros d Eh Hl Hd He. unfold parse_area, Attributes_new. rewrite He, <- Eh. unfold MAX_MESSAGE in Hd.
  pose proof (attrs_wire_length attrs).
  destruct (walk_attrs attrs head post (walk_fuel d) (zlen head) 0 Hl) as [W _].
  - unfold walk_fuel, d. rewrite !length_app. lia.
  - unfold d in Hd. lia.
  - done.
  - fold d in W. rewrite W. cbn [mbind result_bind]. by rewrite Z.eqb_refl.
Qed.

Lemma find_attrs m head attrs post k :
  sm_bytes m = head ++ attrs_wire attrs ++ post -> zlen head = STUN_HEADER_LEN -> Forall attr_ok attrs ->
  StunMessage_attributes_end m = STUN_HEADER_LEN + zlen (attrs_wire attrs) -> zlen (sm_bytes m) < 2 ^ 63 ->
  StunMessage_find m k = find_attr k attrs.
Proof.
  intros Eb Eh Hl He Hz. unfold StunMessage_find, Attributes_new. rewrite He, <- Eh. rewrite Eb in *.
  apply (walk_attrs attrs head post _ (zlen head) k Hl); [|done|done].
  pose proof (attrs_wire_length attrs). unfold walk_fuel. rewrite !length_app. lia.
Qed.

(** ** The trailer *)

Lemma trailer_fields pre trailer at_ :
  bytes_ok trailer -> zlen trailer = TRAILER_LEN -> at_ = zlen pre ->
  trailer_at (pre ++ trailer) at_ = true ->
  exists mac crc, trailer = integrity_attr mac ++ fingerprint_attr crc /\ zlen mac = 20 /\ bytes_ok mac /\ fits 32 crc.
Proof.
  unfold TRAILER_LEN, INTEGRITY_LEN, FINGERPRINT_LEN. intros Hb Hl -> Ht. unfold trailer_at, INTEGRITY_LEN in Ht.
  rewrite !andb_true_iff, !bool_decide_eq_true in Ht. destruct Ht as [[[E1 E2] E3] E4].
  destruct (stun_be16_split pre trailer _ _ Hb eq_refl E1) as (t1 & -> & _). rewrite app_assoc in *.
  apply Forall_app in Hb as [_ Hb]. rewrite zlen_app, zlen_to_be in Hl.
  destruct (stun_be16_split (pre ++ to_be 2 ATTR_MESSAGE_INTEGRITY) t1 (zlen pre + 2) _ Hb
    ltac:(by rewrite zlen_app, zlen_to_be) E2) as (t2 & -> & _). rewrite app_assoc in *.
  apply Forall_app in Hb as [_ Hb]. rewrite zlen_app, zlen_to_be in Hl.
  destruct (split_at t2 20 ltac:(lia)) as (mac & t3 & -> & Hm). rewrite app_assoc in *.
  apply Forall_app in Hb as [Hbm Hb]. rewrite zlen_app in Hl.
  set (p3 := ((pre ++ to_be 2 ATTR_MESSAGE_INTEGRITY) ++ to_be 2 20) ++ mac) in *.
  assert (zlen p3 = zlen pre + 24) as Z3 by (unfold p3; rewrite !zlen_app, !zlen_to_be, Hm; lia).
  destruct (stun_be16_split p3 t3 (zlen pre + 24) _ Hb ltac:(lia) E3) as (t4 & -> & _).
  rewrite app_assoc in *. apply Forall_app in Hb as [_ Hb]. rewrite zlen_app, zlen_to_be in Hl.
  destruct (stun_be16_split (p3 ++ to_be 2 ATTR_FINGERPRINT) t4 (zlen pre + 24 + 2) _ Hb
    ltac:(rewrite zlen_app, zlen_to_be, Z3; lia) E4) as (t5 & -> & _).
  apply Forall_app in Hb as [_ Hb]. rewrite zlen_app, zlen_to_be in Hl.
  exists mac, (from_be t5). assert (zlen t5 = 4) as H5 by lia.
  pose proof (from_be_fits t5 Hb) as F. rewrite H5 in F. split_and!; try done.
  unfold integrity_attr, fingerprint_attr. rewrite <- !app_assoc. do 4 f_equal.
  rewrite <- (to_from_be t5 Hb) at 1. do 2 f_equal. unfold zlen in H5. lia.
Qed.

Lemma trailer_placed pre mac crc at_ :
  zlen mac = 20 -> at_ = zlen pre -> trailer_at (pre ++ integrity_attr mac ++ fingerprint_attr crc) at_ = true.
Proof.
  intros Hm ->. unfold trailer_at, integrity_attr, fingerprint_attr, INTEGRITY_LEN.
  rewrite !andb_true_iff, !bool_decide_eq_true. rewrite <- !app_assoc. split_and!.
  - by apply stun_be16_mid.
  - rewrite (app_assoc pre). apply stun_be16_mid; [|done]. by rewrite zlen_app, zlen_to_be.
  - rewrite (app_assoc pre), (app_assoc _ (to_be 2 20)), (app_assoc _ mac).
    apply stun_be16_mid; [|done]. rewrite !zlen_app, !zlen_to_be, Hm. lia.
  - rewrite (app_assoc pre), (app_assoc _ (to_be 2 20)), (app_assoc _ mac), (app_assoc _ (to_be 2 ATTR_FINGERPRINT)).
    apply stun_be16_mid; [|done]. rewrite !zlen_app, !zlen_to_be, Hm. lia.
Qed.

(** What verifying compares. *)
Lemma verify_fields kind len tid body mac crc m pw :
  sm_bytes m = stun_head kind len tid ++ body ++ integrity_attr mac ++ fingerprint_attr crc ->
  sm_integrity_at m = Some (20 + zlen body) ->
  zlen tid = 12 -> zlen mac = 20 -> bytes_ok mac -> fits 32 crc -> zlen body + 32 < 2 ^ 16 ->
  StunMessage_verify m pw = true <->
  mac = sealed_mac pw kind tid body /\ crc = sealed_crc kind tid body mac.
Proof.
  intros Eb Ei Ht Hm Hbm Hc Hl. pose proof (zlen_nonneg body).
  pose proof (zlen_stun_head kind len tid Ht) as Eh. unfold STUN_HEADER_LEN in Eh.
  unfold StunMessage_verify. rewrite Ei, Eb. unfold INTEGRITY_LEN.
  replace (stun_head kind len tid ++ body ++ integrity_attr mac ++ fingerprint_attr crc)
    with ((stun_head kind len tid ++ body ++ integrity_attr mac ++ to_be 2 ATTR_FINGERPRINT ++ to_be 2 4) ++ to_be 4 crc ++ [])
    at 1 by (unfold fingerprint_attr; by rewrite app_nil_r, <- !app_assoc).
  rewrite stun_be32_mid by (done || (rewrite !zlen_app, Eh, zlen_integrity_attr by done; rewrite !zlen_to_be; lia)).
  rewrite fingerprint_of_eq by (done || lia). rewrite integrity_of_eq by (done || lia).
  assert (get_range (stun_head kind len tid ++ body ++ integrity_attr mac ++ fingerprint_attr crc)
    (20 + zlen body + 4) (20 + zlen body + 24) = Some mac) as ->.
  { unfold integrity_attr. rewrite <- !app_assoc.
    rewrite (app_assoc _ body), (app_assoc _ (to_be 2 ATTR_MESSAGE_INTEGRITY)), (app_assoc _ (to_be 2 20)).
    apply get_range_mid; rewrite ?zlen_app, ?Eh, ?zlen_to_be, ?Hm; lia. }
  destruct (Z.eqb_spec crc (sealed_crc kind tid body mac)) as [E|E]; cbn [negb].
  - rewrite ct_eq_iff; [|apply hmac_bytes|done|].
    + split; [by intros ->|by intros [-> _]].
    + pose proof (hmac_len pw (stun_head kind (zlen body + 24) tid ++ body)) as Hs. fold (sealed_mac pw kind tid body) in Hs.
      unfold zlen in *. lia.
  - split; [done|]. by intros [_ ?].
Qed.

(** ** Sealed messages are accepted, and nothing else is *)

Lemma stun_sealed_split pw kind tid body :
  let mac := sealed_mac pw kind tid body in
  stun_sealed pw kind tid body
  = (stun_head kind (zlen body + 32) tid ++ body) ++ integrity_attr mac ++ fingerprint_attr (sealed_crc kind tid body mac).
Proof. unfold stun_sealed. by rewrite <- app_assoc. Qed.

Lemma integrity_place_sealed pw kind tid body :
  zlen tid = 12 -> integrity_place (stun_sealed pw kind tid body) = Some (20 + zlen body).
Proof.
  intros Ht. pose proof (zlen_nonneg body). unfold integrity_place, MIN_MESSAGE. rewrite zlen_stun_sealed by done.
  rewrite (proj2 (Z.leb_le _ _)) by lia. unfold TRAILER_LEN, INTEGRITY_LEN, FINGERPRINT_LEN. cbv zeta.
  replace (52 + zlen body - (24 + 8)) with (20 + zlen body) by lia.
  rewrite stun_sealed_split, trailer_placed; [done|apply hmac_len|].
  rewrite zlen_app, zlen_stun_head by done. unfold STUN_HEADER_LEN. lia.
Qed.

Lemma parse_sealed pw method tid attrs :
  zlen tid = 12 -> Forall attr_ok attrs -> zlen (attrs_wire attrs) + 52 <= MAX_MESSAGE ->
  let d := stun_sealed pw (method_kind method) tid (attrs_wire attrs) in
  StunMessage_parse d = Ok (mkStunMessage d method tid (Some (20 + zlen (attrs_wire attrs)))).
Proof.
  intros Ht Hl Hz d. pose proof (zlen_nonneg (attrs_wire attrs)). unfold MAX_MESSAGE in Hz.
  pose proof (zlen_stun_sealed pw (method_kind method) tid (attrs_wire attrs) Ht) as Ed. fold d in Ed.
  pose proof (integrity_place_sealed pw (method_kind method) tid (attrs_wire attrs) Ht) as Ep. fold d in Ep.
  set (post := integrity_attr (sealed_mac pw (method_kind method) tid (attrs_wire attrs))
    ++ fingerprint_attr (sealed_crc (method_kind method) tid (attrs_wire attrs) (sealed_mac pw (method_kind method) tid (attrs_wire attrs)))).
  assert (StunMessage_parse d = parse_area d method tid) as ->.
  { assert (d = to_be 2 (method_kind method) ++ to_be 2 (zlen (attrs_wire attrs) + 32) ++ to_be 4 MAGIC_COOKIE
      ++ tid ++ attrs_wire attrs ++ post) as E by (unfold d, post, stun_sealed, stun_head; by rewrite <- !app_assoc).
    rewrite E at 1. rewrite parse_head; [|done|by destruct method|unfold fits; lia|done]. rewrite <- E.
    rewrite Ed. unfold MAX_MESSAGE, STUN_HEADER_LEN. rewrite (proj2 (Z.ltb_ge _ _)) by lia.
    rewrite (proj2 (kind_method_iff _ method) eq_refl). cbn [mbind result_bind]. rewrite Z.eqb_refl. cbn [negb].
    rewrite (proj2 (Z.eqb_eq _ _)) by lia. done. }
  assert (d = stun_head (method_kind method) (zlen (attrs_wire attrs) + 32) tid ++ attrs_wire attrs ++ post) as E by done.
  rewrite <- Ep, E. apply parse_area_ok; [by apply zlen_stun_head|done|rewrite <- E; unfold MAX_MESSAGE; lia|].
  rewrite <- E, Ep. done.
Qed.

Lemma bytes_app a b : bytes_ok a -> bytes_ok b -> bytes_ok (a ++ b).
Proof. intros. by apply Forall_app. Qed.

Lemma stun_head_bytes kind len tid : bytes_ok tid -> bytes_ok (stun_head kind len tid).
Proof. intros H. repeat (apply bytes_app; [apply to_be_ok|]). done. Qed.

Lemma verify_sealed pw method tid attrs :
  zlen tid = 12 -> zlen (attrs_wire attrs) + 52 <= MAX_MESSAGE -> bytes_ok tid -> bytes_ok (attrs_wire attrs) ->
  let d := stun_sealed pw (method_kind method) tid (attrs_wire attrs) in
  StunMessage_verify (mkStunMessage d method tid (Some (20 + zlen (attrs_wire attrs)))) pw = true.
Proof.
  intros Ht Hz Bt Ba d. unfold MAX_MESSAGE in Hz. eapply verify_fields; try done; try apply hmac_len; try apply hmac_bytes.
  - unfold sealed_crc, crc32_of, Crc32_finish, Crc32_update. cbn [crc_reg].
    apply lxor_fits; [lia| |done]. apply lxor_fits; [lia| |done]. apply crc_fold_fits; [|done].
    apply bytes_app; [by apply stun_head_bytes|]. apply bytes_app; [done|].
    apply bytes_app; [apply to_be_ok|]. apply bytes_app; [apply to_be_ok|apply hmac_bytes].
  - lia.
Qed.

(** A message that parses carries the trailer its place says, or none. *)
Lemma parse_inv d m :
  bytes_ok d -> StunMessage_parse d = Ok m ->
  exists len attrs post, d = stun_head (method_kind (sm_method m)) len (sm_tid m) ++ attrs_wire attrs ++ post /\
    tid_ok (sm_tid m) /\ Forall attr_ok attrs /\ sm_bytes m = d /\ sm_integrity_at m = integrity_place d /\
    zlen d <= MAX_MESSAGE /\ len = zlen d - STUN_HEADER_LEN /\
    default (zlen d) (integrity_place d) = STUN_HEADER_LEN + zlen (attrs_wire attrs).
Proof.
  intros Hb E. destruct (Z.lt_ge_cases (zlen d) STUN_HEADER_LEN) as [Hs|Hl].
  { by rewrite parse_short in E. }
  destruct (head_fields d Hb Hl) as (kind & len & cookie & tid & rest & Ed & Ht & Hk & Hlen & Hc & Bt & Br).
  rewrite Ed, parse_head, <- Ed in E by done. destruct (Z.ltb_spec MAX_MESSAGE (zlen d)) as [|Hmax]; [done|].
  destruct (kind_method kind) as [method|] eqn:Em; [|done]. cbn [mbind result_bind] in E.
  destruct (Z.eqb_spec cookie MAGIC_COOKIE) as [->|]; [|done]. cbn [negb] in E.
  destruct (Z.eqb_spec len (zlen d - STUN_HEADER_LEN)) as [El|]; [|done]. cbn [negb] in E.
  apply kind_method_iff in Em as ->.
  assert (d = stun_head (method_kind method) len tid ++ rest) as Ed'
    by (rewrite Ed; unfold stun_head; by rewrite <- !app_assoc).
  rewrite Ed' in E. destruct (parse_area_inv _ rest method tid m (zlen_stun_head _ _ _ Ht) Br E)
    as (-> & attrs & post & -> & Ha & He).
  rewrite <- Ed' in *. cbn [sm_method sm_tid sm_bytes sm_integrity_at].
  exists len, attrs, post. split_and!; done.
Qed.

Lemma verify_inv d m pw :
  bytes_ok d -> StunMessage_parse d = Ok m -> StunMessage_verify m pw = true ->
  exists attrs, Forall attr_ok attrs /\ tid_ok (sm_tid m) /\ zlen (attrs_wire attrs) + 52 <= MAX_MESSAGE /\
    d = stun_sealed pw (method_kind (sm_method m)) (sm_tid m) (attrs_wire attrs) /\
    forall k, StunMessage_find m k = find_attr k attrs.
Proof.
  intros Hb Hp Hv. destruct (parse_inv d m Hb Hp) as (len & attrs & post & Ed & [Ht Bt] & Ha & Em & Ei & Hmax & El & He).
  pose proof (zlen_stun_head (method_kind (sm_method m)) len (sm_tid m) Ht) as Eh.
  pose proof (zlen_nonneg (attrs_wire attrs)). unfold MAX_MESSAGE, STUN_HEADER_LEN in *.
  assert (forall k, StunMessage_find m k = find_attr k attrs) as Hf.
  { intros k. eapply find_attrs; [by rewrite Em|done|done| |rewrite Em; lia].
    unfold StunMessage_attributes_end. rewrite Em, Ei. done. }
  destruct (integrity_place d) as [at_|] eqn:Ep.
  2: { unfold StunMessage_verify in Hv. by rewrite Ei in Hv. }
  cbn in He. unfold integrity_place, MIN_MESSAGE in Ep. destruct (Z.leb_spec 52 (zlen d)) as [H52|]; [|done].
  cbv zeta in Ep. destruct (trailer_at d (zlen d - TRAILER_LEN)) eqn:Et; [|done]. injection Ep as Eat.
  unfold TRAILER_LEN, INTEGRITY_LEN, FINGERPRINT_LEN in *.
  assert (zlen d = 20 + zlen (attrs_wire attrs) + zlen post) as Ez by (rewrite Ed, !zlen_app, Eh; lia).
  assert (bytes_ok post) as Bp by (rewrite Ed in Hb; apply Forall_app in Hb as [_ Hb]; by apply Forall_app in Hb as [_ ?]).
  rewrite Ed, (app_assoc _ (attrs_wire attrs)) in Et.
  destruct (trailer_fields (stun_head (method_kind (sm_method m)) len (sm_tid m) ++ attrs_wire attrs) post _ Bp
    ltac:(unfold TRAILER_LEN, INTEGRITY_LEN, FINGERPRINT_LEN; lia) (eq_refl _)
    ltac:(replace (zlen (stun_head (method_kind (sm_method m)) len (sm_tid m) ++ attrs_wire attrs)) with (zlen d - (24 + 8))
      by (rewrite zlen_app; lia); by rewrite <- Et, <- (app_assoc _ (attrs_wire attrs)), <- Ed)) as (mac & crc & -> & Hm & Bm & Hc).
  rewrite verify_fields in Hv; [|by rewrite Em, Ed|rewrite Ei; f_equal; lia|done..|lia].
  exists attrs. destruct Hv as [-> ->]. split_and!; try done; [lia|].
  rewrite Ed. unfold stun_sealed. do 2 f_equal. lia.
Qed.

(** A sealed message at the head of a buffer, as a receiver takes it. *)
Lemma take_sealed pw kind tid body out :
  zlen tid = 12 -> 52 + zlen body <= zlen out ->
  let out' := stun_sealed pw kind tid body ++ drop (52 + length body) out in
  take (Z.to_nat (52 + zlen body)) out' = stun_sealed pw kind tid body /\ zlen out' = zlen out.
Proof.
  intros Ht Hl out'. pose proof (zlen_stun_sealed pw kind tid body Ht) as E. split.
  - apply take_app_length'. unfold zlen in *. lia.
  - unfold out'. rewrite zlen_app, E, zlen_drop. unfold zlen in *. lia.
Qed.

Lemma sealed_is_check pw method tid body :
  demux_classify (stun_sealed pw (method_kind method) tid body) = Check.
Proof.
  apply demux_check_iff. unfold stun_sealed, stun_head. rewrite <- !app_assoc.
  destruct method; eexists _, _; (split; [reflexivity|]); split; done || lia.
Qed.

Lemma zeros_ok n : bytes_ok (zeros n).
Proof. unfold zeros. induction (Z.to_nat n); constructor; [unfold fits; lia|done]. Qed.

Lemma zattr_bytes kind value : bytes_ok value -> bytes_ok (attr_wire (zattr kind value)).
Proof.
  intros H. rewrite zattr_wire. apply bytes_app; [apply to_be_ok|]. apply bytes_app; [apply to_be_ok|].
  apply bytes_app; [done|]. apply zeros_ok.
Qed.

Lemma attrs_bytes kind value l :
  bytes_ok value -> bytes_ok (attrs_wire l) -> bytes_ok (attrs_wire (zattr kind value :: l)).
Proof. intros Hv Hl. rewrite attrs_wire_cons. apply bytes_app; [by apply zattr_bytes|done]. Qed.

Lemma mapped_bytes_ok addr tid : sock_ok addr -> bytes_ok tid -> bytes_ok (mapped_bytes addr tid).
Proof.
  intros Ha Bt. apply canonical_ok in Ha. unfold mapped_bytes.
  assert (bytes_ok COOKIE_BYTES) as Bc by apply to_be_ok.
  destruct (canonical addr); destruct Ha as (_ & Bo & _);
    (apply bytes_app; [repeat constructor; unfold fits; lia|]); (apply bytes_app; [apply to_be_ok|]);
    apply xor_bytes_ok; try done. by apply bytes_app.
Qed.

(** A sealed message in a caller's buffer, at the peer. *)
Lemma sealed_received pw method tid attrs out :
  tid_ok tid -> Forall attr_ok attrs -> bytes_ok (attrs_wire attrs) ->
  zlen (attrs_wire attrs) + 52 <= MAX_MESSAGE -> MAX_BUILT <= zlen out ->
  let out' := stun_sealed pw (method_kind method) tid (attrs_wire attrs) ++ drop (52 + length (attrs_wire attrs)) out in
  let d := take (Z.to_nat (52 + zlen (attrs_wire attrs))) out' in
  zlen out' = zlen out /\ exists m, demux_classify d = Check /\ StunMessage_parse d = Ok m /\
    sm_method m = method /\ sm_tid m = tid /\ StunMessage_verify m pw = true /\
    forall k, StunMessage_find m k = find_attr k attrs.
Proof.
  intros [Ht Bt] Ha Ba Hz Ho out' d. unfold MAX_BUILT, MAX_MESSAGE in *.
  destruct (take_sealed pw (method_kind method) tid (attrs_wire attrs) out Ht ltac:(lia)) as [Ed El].
  split; [done|]. fold out' in Ed. fold d in Ed. rewrite Ed. eexists. split; [apply sealed_is_check|].
  split; [by apply parse_sealed|]. split; [done|]. split; [done|]. split; [by apply verify_sealed|].
  intros k. eapply find_attrs; [reflexivity|by apply zlen_stun_head|done|done|]. cbn [sm_bytes].
  rewrite zlen_stun_sealed by done. lia.
Qed.
End sealing.

(** Checks round-trip.  A request or a response built into a buffer with
    room for any check is a datagram of at most 256 bytes that the
    demultiplexer hands to the connectivity engine; the peer parses it back to
    the same method and transaction, it verifies under the password it was
    built with, and it carries the two user fragments, or the address the
    request was seen from, in the canonical form. *)
Theorem check_roundtrip (D : Digests) (L : DigestLaws D) (tid lu ru tb pw out : list Z) (observed : SocketAddr) :
  tid_ok tid -> zlen lu <= MAX_UFRAG -> zlen ru <= MAX_UFRAG -> zlen tb = 8 ->
  bytes_ok lu -> bytes_ok ru -> bytes_ok tb -> sock_ok observed -> MAX_BUILT <= zlen out < 2 ^ 63 ->
  (exists out' n m, encode_binding_request tid lu ru tb pw out = (out', Ok n) /\ zlen out' = zlen out /\
    n <= MAX_MESSAGE /\ let d := take (Z.to_nat n) out' in
    demux_classify d = Check /\ StunMessage_parse d = Ok m /\
    sm_method m = BindingRequest /\ sm_tid m = tid /\ StunMessage_verify m pw = true /\
    StunMessage_username m = from_utf8 (ru ++ [58] ++ lu)) /\
  (exists out' n m, encode_binding_response tid observed pw out = (out', Ok n) /\ zlen out' = zlen out /\
    n <= MAX_MESSAGE /\ let d := take (Z.to_nat n) out' in
    demux_classify d = Check /\ StunMessage_parse d = Ok m /\
    sm_method m = BindingSuccess /\ sm_tid m = tid /\ StunMessage_verify m pw = true /\
    StunMessage_mapped_address m = Some (wire_addr observed)).
Proof.
  intros Htid Hlu Hru Htb Blu Bru Btb Ho [Hout Hout']. pose proof Htid as [Ht Bt]. split.
  - pose proof (zlen_request_attrs lu ru tb Hlu Hru Htb) as Hz. rewrite encode_request_eq by done.
    destruct (sealed_received pw BindingRequest tid (request_attrs lu ru tb) out Htid
      (request_attrs_ok lu ru tb Hlu Hru Htb)) as [El (m & Hc & Hp & Hm & Hi & Hv & Hf)]; [|unfold MAX_MESSAGE; lia|done|].
    { apply attrs_bytes; [|apply attrs_bytes; [apply to_be_ok|apply attrs_bytes; [done|apply attrs_bytes; [apply to_be_ok|constructor]]]].
      apply bytes_app; [done|]. apply bytes_app; [repeat constructor; unfold fits; lia|done]. }
    eexists _, _, m. cbv zeta. split_and!; try done; [unfold MAX_MESSAGE; lia|].
    unfold StunMessage_username. by rewrite Hf.
  - pose proof (zlen_response_attrs observed tid Ho Ht) as Hz. rewrite encode_response_eq by done.
    destruct (sealed_received pw BindingSuccess tid (response_attrs observed tid) out Htid
      (response_attrs_ok observed tid Ho Ht)) as [El (m & Hc & Hp & Hm & Hi & Hv & Hf)]; [|unfold MAX_MESSAGE; lia|done|].
    { apply attrs_bytes; [by apply mapped_bytes_ok|constructor]. }
    eexists _, _, m. cbv zeta. split_and!; try done; [unfold MAX_MESSAGE; lia|].
    unfold StunMessage_mapped_address. rewrite Hf, Hi. cbn [response_attrs find_attr attr_kind zattr].
    rewrite Z.eqb_refl. cbn [mbind option_bind attr_value]. by apply decode_mapped_bytes.
Qed.

(** Digests of the documented sizes: the first twenty bytes, the key ahead of
    the message, and a sixteen-byte fold. *)
Definition sample_digests : Digests := {|
  HmacSha1_new := fun key => Some (fun m => to_be 20 (from_be key * 256 + from_be m));
  Sha1_digest := fun m => to_be 20 (from_be (drop 16 m) * 2 ^ 64);
  Md5_digest := fun m => to_be 16 (from_be m);
|}.

#[export] Instance sample_laws : DigestLaws sample_digests.
Proof.
  split; cbn [HmacSha1_new Sha1_digest Md5_digest sample_digests]; intros.
  - eexists. split; [done|]. intros m. split; [apply zlen_to_be|apply to_be_ok].
  - apply zlen_to_be.
  - apply to_be_ok.
  - apply zlen_to_be.
  - apply to_be_ok.
Qed.

Definition sample_tid : list Z := [1; 2; 3; 4; 5; 6; 7; 8; 9; 10; 11; 12].
Definition sample_peer : SocketAddr := SockV4 [192; 0; 2; 7] 40000.

Lemma check_roundtrip_witness :
  exists out' n m, encode_binding_request (H := sample_digests) sample_tid [97; 98] [99; 100] [1; 2; 3; 4; 5; 6; 7; 8]
      [112; 119] (repeat 0 256) = (out', Ok n) /\ zlen out' = 256 /\ n <= MAX_MESSAGE /\
    let d := take (Z.to_nat n) out' in
    demux_classify d = Check /\ StunMessage_parse d = Ok m /\
    sm_method m = BindingRequest /\ sm_tid m = sample_tid /\ StunMessage_verify (H := sample_digests) m [112; 119] = true /\
    StunMessage_username m = Some [99; 100; 58; 97; 98].
Proof.
  refine (proj1 (check_roundtrip sample_digests sample_laws sample_tid [97; 98] [99; 100] [1; 2; 3; 4; 5; 6; 7; 8]
    [112; 119] (repeat 0 256) sample_peer _ _ _ _ _ _ _ _ _));
    unfold tid_ok, sample_tid, sock_ok, sample_peer, bytes_ok; split_and?; repeat constructor; try (unfold fits; lia); done.
Defined.

(** C30: what is believed is what was sealed.  A datagram parses and verifies
    under a password as a given method and transaction exactly when it is the
    sealing, under that password, of that method, that transaction and some
    list of attributes, within 256 bytes: nothing of the message, its length
    field, its trailer or its checksum can be changed, and the attributes a
    receiver reads are those sealed. *)
Theorem check_accepted_iff (D : Digests) (L : DigestLaws D) (d pw tid : list Z) (method : StunMethod) :
  bytes_ok d ->
  (exists m, StunMessage_parse d = Ok m /\ StunMessage_verify m pw = true /\
     sm_method m = method /\ sm_tid m = tid) <->
  (exists attrs, Forall attr_ok attrs /\ tid_ok tid /\ zlen (attrs_wire attrs) + 52 <= MAX_MESSAGE /\
     d = stun_sealed pw (method_kind method) tid (attrs_wire attrs) /\
     exists m, StunMessage_parse d = Ok m /\ forall k, StunMessage_find m k = find_attr k attrs).
Proof.
  intros Hb. split.
  - intros (m & Hp & Hv & <- & <-). destruct (verify_inv d m pw Hb Hp Hv) as (attrs & Ha & Ht & Hz & Ed & Hf).
    exists attrs. repeat (split; [done|]). by exists m.
  - intros (attrs & Ha & [Ht Bt] & Hz & -> & _). eexists. split; [by apply parse_sealed|]. split; [|done].
    apply verify_sealed; try done. unfold stun_sealed in Hb. apply Forall_app in Hb as [_ Hb].
    by apply Forall_app in Hb as [? _].
Qed.

(** A check with no attributes at all. *)
Definition sample_sealed : list Z := stun_sealed (D := sample_digests) [112] 1 sample_tid [].

Lemma check_accepted_iff_witness :
  exists m, StunMessage_parse sample_sealed = Ok m /\ StunMessage_verify (H := sample_digests) m [112] = true /\
    sm_method m = BindingRequest /\ sm_tid m = sample_tid.
Proof.
  apply (proj2 (check_accepted_iff sample_digests sample_laws sample_sealed [112] sample_tid BindingRequest
    ltac:(vm_compute; repeat constructor; discriminate))).
  exists []. split; [constructor|].
  split; [split; [reflexivity|repeat constructor; unfold fits; lia]|].
  split; [by vm_compute|]. split; [reflexivity|].
  eexists. split; [vm_compute; reflexivity|]. intros k. reflexivity.
Defined.
