(* ===== verification/Conn.v ===== *)
(** The punch (crates/core/src/conn.rs): candidates in, checks out, a path or a
    typed failure.  One definition per method, the whole of [get_output] and
    [process_input] included. *)

From Stdlib Require Import SpecFloat.
From S2P Require Import Prelude CoreError Float64 Effect Net Slots Stun.

Definition CHECK_CADENCE_MS : f64 := f64_of_Z 500.
Definition PUNCH_WINDOW_MS : f64 := f64_of_Z 7500.
Definition PACING_MS : f64 := f64_of_Z 10.
Definition PROBE_TTL : Z := 4.
Definition MAX_CANDIDATES : Z := 16.
Definition MAX_PENDING : Z := 16.
Definition MAX_SERVERS : Z := 4.

Inductive Ttl := Ttl_Default | Ttl_Probe.

#[global] Instance Ttl_eq_dec : EqDecision Ttl.
Proof. solve_decision. Defined.

Record Egress := mkEgress {
  eg_to : SocketAddr;
  eg_ttl : Ttl;
  eg_len : Z;
  eg_from : option IpAddr;
}.

(** [conn::Failure], [conn::State], [conn::Inbound], [conn::Kind]. *)
Inductive ConnFailure := ProbeTimeout | NoCandidates.

Inductive ConnState :=
  | Checking
  | Established (addr : SocketAddr)
  | Failed (failure : ConnFailure).

Inductive ConnInbound :=
  | CheckAnswered
  | Reachable (addr : SocketAddr)
  | PathEstablished (addr : SocketAddr)
  | Reflexive (addr : SocketAddr)
  | Redundant.

Inductive Kind := Kind_Direct | Kind_Reflexive | Kind_Wan.

#[global] Instance ConnFailure_eq_dec : EqDecision ConnFailure.
Proof. solve_decision. Defined.
#[global] Instance ConnState_eq_dec : EqDecision ConnState.
Proof. solve_decision. Defined.
#[global] Instance Kind_eq_dec : EqDecision Kind.
Proof. solve_decision. Defined.

Definition Kind_marked (lan reflexive : bool) : Kind :=
  if lan then Kind_Direct else if reflexive then Kind_Reflexive else Kind_Wan.

Record Credentials := mkCredentials {
  cr_local_ufrag : list Z;
  cr_local_pwd : list Z;
  cr_remote_ufrag : list Z;
  cr_remote_pwd : list Z;
}.

(** ** [SentIds] *)

Definition SENT_IDS : Z := 16.

Record SentIds := mkSentIds {
  si_slots : list (option TransactionId);
  si_at : Z;
}.

Definition SentIds_new : SentIds := mkSentIds (repeat None (Z.to_nat SENT_IDS)) 0.

Definition SentIds_push (s : SentIds) (tid : TransactionId) : SentIds :=
  let slots := match get_at (si_slots s) (si_at s) with
               | Some _ => put_at (si_slots s) (si_at s) (Some tid)
               | None => si_slots s
               end in
  mkSentIds slots ((si_at s + 1) mod SENT_IDS).

Definition SentIds_contains (s : SentIds) (tid : TransactionId) : bool :=
  existsb (fun sent => bool_decide (sent = tid)) (flatten (si_slots s)).

(** ** State *)

Record Candidate := mkCandidate {
  cd_addr : SocketAddr;
  cd_kind : Kind;
  cd_last_check_ms : option f64;
  cd_sent : SentIds;
}.

#[export] Instance Candidate_eta : Eta Candidate := fun c =>
  mkCandidate (cd_addr c) (cd_kind c) (cd_last_check_ms c) (cd_sent c).

Record Server := mkServer {
  sv_addr : SocketAddr;
  sv_last_probe_ms : option f64;
  sv_sent : SentIds;
  sv_answered : bool;
  sv_mapped : option SocketAddr;
}.

#[export] Instance Server_eta : Eta Server := fun s =>
  mkServer (sv_addr s) (sv_last_probe_ms s) (sv_sent s) (sv_answered s) (sv_mapped s).

Record Conn := mkConn {
  cn_credentials : Credentials;
  cn_seed : list Z;
  cn_candidates : list (option Candidate);
  cn_servers : list (option Server);
  cn_pending : list (option (SocketAddr * TransactionId * option IpAddr));
  cn_state : ConnState;
  cn_answered : option (SocketAddr * option IpAddr);
  cn_checked : bool;
  cn_peer_ready : bool;
  cn_local : option IpAddr;
  cn_started_ms : f64;
  cn_last_sent_ms : option f64;
  cn_probe_sent : bool;
  cn_counter : Z;
}.

#[export] Instance Conn_eta : Eta Conn := fun c =>
  mkConn (cn_credentials c) (cn_seed c) (cn_candidates c) (cn_servers c) (cn_pending c) (cn_state c)
    (cn_answered c) (cn_checked c) (cn_peer_ready c) (cn_local c) (cn_started_ms c) (cn_last_sent_ms c)
    (cn_probe_sent c) (cn_counter c).

Definition Conn_new (credentials : Credentials) (seed : list Z) (now_ms : f64) : Conn :=
  mkConn credentials seed (repeat None (Z.to_nat MAX_CANDIDATES)) (repeat None (Z.to_nat MAX_SERVERS))
    (repeat None (Z.to_nat MAX_PENDING)) Checking None false false None now_ms None false 0.

Definition Conn_reflexive (c : Conn) : list SocketAddr := omap sv_mapped (flatten (cn_servers c)).

Definition Conn_answers (c : Conn) : list Answer :=
  omap (fun s => mapped ← sv_mapped s; Some (mkAnswer (sv_addr s) mapped)) (flatten (cn_servers c)).

Definition Conn_path (c : Conn) : option SocketAddr :=
  match cn_state c with Established addr => Some addr | _ => None end.

Definition Conn_reachable (c : Conn) : option SocketAddr := fst <$> cn_answered c.

Definition Conn_set_peer_ready (c : Conn) : Conn := c <| cn_peer_ready := true |>.

Definition Conn_checkable (c : Conn) (kind : Kind) : bool := bool_decide (kind = Kind_Direct) || cn_peer_ready c.

Definition is_checking (s : ConnState) : bool := match s with Checking => true | _ => false end.

Definition Conn_add_candidate (c : Conn) (addr : SocketAddr) (kind : Kind) : Conn * result unit :=
  let addr := canonical addr in
  if existsb (fun x => bool_decide (cd_addr x = addr)) (flatten (cn_candidates c)) then (c, Ok ())
  else
  match fill_first (cn_candidates c) (mkCandidate addr kind None SentIds_new) with
  | None => (c, Err Oversized)
  | Some slots => (c <| cn_candidates := slots |>, Ok ())
  end.

Definition Conn_candidate_count (c : Conn) : Z := zlen (flatten (cn_candidates c)).

Definition Conn_add_server (c : Conn) (addr : SocketAddr) : Conn * result unit :=
  let addr := canonical addr in
  if existsb (fun x => bool_decide (sv_addr x = addr)) (flatten (cn_servers c)) then (c, Ok ())
  else
  match fill_first (cn_servers c) (mkServer addr None SentIds_new false None) with
  | None => (c, Err Oversized)
  | Some slots => (c <| cn_servers := slots |>, Ok ())
  end.

(** ** Input *)

Definition Conn_queue_response (c : Conn) (to : SocketAddr) (tid : TransactionId) (local : option IpAddr) :
    Conn * result unit :=
  match fill_first (cn_pending c) (to, tid, local) with
  | None => (c, Err Oversized)
  | Some slots => (c <| cn_pending := slots |>, Ok ())
  end.

Definition Conn_establish (c : Conn) : Conn * option ConnInbound :=
  match cn_answered c with
  | None => (c, None)
  | Some (addr, local) =>
      if negb (cn_checked c) || negb (is_checking (cn_state c)) then (c, None)
      else (c <| cn_state := Established addr |> <| cn_local := local |>, Some (PathEstablished addr))
  end.

Section digests.
  Context `{D : Digests}.

(** The arm of [process_input] for a peer's check. *)
Definition Conn_on_request (c : Conn) (message : StunMessage) (from : SocketAddr) (local : option IpAddr) :
    Conn * result ConnInbound :=
  if negb (StunMessage_verify message (cr_local_pwd (cn_credentials c))) then (c, Err Decrypt)
  else
  let '(c, _) := Conn_add_candidate c from Kind_Direct in
  match Conn_queue_response c from (sm_tid message) local with
  | (c, Err e) => (c, Err e)
  | (c, Ok _) =>
      let c := c <| cn_checked := true |> in
      let '(c, established) := Conn_establish c in
      (c, Ok (default CheckAnswered established))
  end.

(** The arm for an answer: a reflexive server's, then a peer's. *)
Definition Conn_on_success (c : Conn) (message : StunMessage) (from : SocketAddr) (local : option IpAddr) :
    Conn * result ConnInbound :=
  let tid := sm_tid message in
  let expected s := SentIds_contains (sv_sent s) tid && bool_decide (sv_addr s = from) in
  if existsb expected (flatten (cn_servers c)) then
    let c := c <| cn_servers ::= update_first expected (fun s => s <| sv_answered := true |>) |> in
    match StunMessage_mapped_address message with
    | Some mapped =>
        (c <| cn_servers ::= update_first expected (fun s => s <| sv_mapped := Some mapped |>) |>,
         Ok (Reflexive mapped))
    | None => (c, Err Malformed)
    end
  else if negb (StunMessage_verify message (cr_remote_pwd (cn_credentials c))) then (c, Err Decrypt)
  else if negb (existsb (fun x => SentIds_contains (cd_sent x) tid) (flatten (cn_candidates c)))
  then (c, Ok Redundant)
  else if negb (is_checking (cn_state c)) || match cn_answered c with Some _ => true | None => false end
  then (c, Ok Redundant)
  else
  let c := c <| cn_answered := Some (from, local) |> in
  let '(c, established) := Conn_establish c in
  (c, Ok (default (Reachable from) established)).

Definition Conn_process_input (c : Conn) (datagram : list Z) (from : SocketAddr) (local : option IpAddr) :
    Conn * result ConnInbound :=
  let from := canonical from in
  let local := canonical_ip <$> local in
  match StunMessage_parse datagram with
  | Err e => (c, Err e)
  | Ok message =>
      match sm_method message with
      | BindingRequest => Conn_on_request c message from local
      | BindingSuccess => Conn_on_success c message from local
      end
  end.
End digests.

Definition Conn_owes_answer (c : Conn) : bool :=
  match flatten (cn_pending c) with [] => false | _ => true end.

Definition Conn_poll (c : Conn) (now_ms : f64) : Conn :=
  if negb (is_checking (cn_state c)) then c
  else if f64_geb (f64_sub now_ms (cn_started_ms c)) PUNCH_WINDOW_MS then
    c <| cn_state := Failed (if Conn_candidate_count c =? 0 then NoCandidates else ProbeTimeout) |>
  else c.

(** ** Timers *)

Definition Conn_pace_wait (c : Conn) (now_ms : f64) : f64 :=
  match cn_last_sent_ms c with
  | Some last => f64_max (f64_sub (f64_add last PACING_MS) now_ms) f64_zero
  | None => f64_zero
  end.

(** When something last sent at [last] is due again. *)
Definition due_in (last : option f64) (now_ms : f64) : f64 :=
  match last with
  | Some last => f64_max (f64_sub (f64_add last CHECK_CADENCE_MS) now_ms) f64_zero
  | None => f64_zero
  end.

Definition Conn_next_timer_ms (c : Conn) (now_ms : f64) : f64 :=
  let owed := Conn_owes_answer c in
  if negb (is_checking (cn_state c)) then
    if owed then Conn_pace_wait c now_ms else S754_infinity false
  else
  let soonest := f64_max (f64_sub (f64_add (cn_started_ms c) PUNCH_WINDOW_MS) now_ms) f64_zero in
  let soonest := if owed then f64_min soonest (Conn_pace_wait c now_ms) else soonest in
  let soonest :=
    foldl (fun soonest x =>
      if negb (Conn_checkable c (cd_kind x)) then soonest
      else f64_min soonest (f64_max (due_in (cd_last_check_ms x) now_ms) (Conn_pace_wait c now_ms)))
      soonest (flatten (cn_candidates c)) in
  foldl (fun soonest x =>
    f64_min soonest (f64_max (due_in (sv_last_probe_ms x) now_ms) (Conn_pace_wait c now_ms)))
    soonest (List.filter (fun s => negb (sv_answered s)) (flatten (cn_servers c))).

(** ** Output *)

Section output.
  Context `{D : Digests}.

(** [derive_transaction_id]: the first twelve bytes of the digest. *)
Definition derive_transaction_id (seed : list Z) (counter : Z) : TransactionId :=
  let digest := Sha1_digest (seed ++ to_be 4 counter) in
  put_range (repeat 0 12) 0 (take 12 digest).

Definition Conn_next_transaction_id (c : Conn) : Conn * TransactionId :=
  let counter := cn_counter c in
  (c <| cn_counter := wadd 32 counter 1 |>, derive_transaction_id (cn_seed c) counter).

Definition Conn_tiebreaker (c : Conn) : list Z := put_range (repeat 0 8) 0 (take 8 (cn_seed c)).

Definition Conn_emit_check (c : Conn) (to : SocketAddr) (ttl : Ttl) (now_ms : f64) (out : list Z) :
    Conn * list Z * result Egress :=
  let '(c, tid) := Conn_next_transaction_id c in
  let cr := cn_credentials c in
  match encode_binding_request tid (cr_local_ufrag cr) (cr_remote_ufrag cr) (Conn_tiebreaker c)
          (cr_remote_pwd cr) out with
  | (out, Err e) => (c, out, Err e)
  | (out, Ok len) =>
      let c := c <| cn_candidates ::= update_first (fun x => bool_decide (cd_addr x = to))
                                        (fun x => x <| cd_sent ::= fun s => SentIds_push s tid |>) |> in
      let c := c <| cn_last_sent_ms := Some now_ms |> in
      (c, out, Ok (mkEgress to ttl len (cn_local c)))
  end.

Definition Conn_emit_reflexive (c : Conn) (index : Z) (to : SocketAddr) (now_ms : f64) (out : list Z) :
    Conn * list Z * result Egress :=
  let '(c, tid) := Conn_next_transaction_id c in
  match encode_reflexive_request tid out with
  | (out, Err e) => (c, out, Err e)
  | (out, Ok len) =>
      let c := c <| cn_servers ::= update_at index (fun s =>
                      s <| sv_last_probe_ms := Some now_ms |> <| sv_sent ::= fun i => SentIds_push i tid |>) |> in
      let c := c <| cn_last_sent_ms := Some now_ms |> in
      (c, out, Ok (mkEgress to Ttl_Default len None))
  end.

Definition Conn_emit_response (c : Conn) (to : SocketAddr) (tid : TransactionId) (local : option IpAddr)
    (now_ms : f64) (out : list Z) : Conn * list Z * result Egress :=
  match encode_binding_response tid to (cr_local_pwd (cn_credentials c)) out with
  | (out, Err e) => (c, out, Err e)
  | (out, Ok len) =>
      let c := c <| cn_last_sent_ms := Some now_ms |> in
      (c, out, Ok (mkEgress to Ttl_Default len local))
  end.

(** Whether something last sent at [last] may be sent again. *)
Definition ready (last : option f64) (now_ms : f64) : bool :=
  match last with
  | Some last => f64_geb (f64_sub now_ms last) CHECK_CADENCE_MS
  | None => true
  end.

(** The candidate the one probe goes to. *)
Definition probe_target (c : Conn) : option SocketAddr :=
  cd_addr <$> List.find (fun x => bool_decide (cd_kind x = Kind_Reflexive)) (flatten (cn_candidates c)).

Definition Conn_get_output (c : Conn) (now_ms : f64) (out : list Z) : Conn * list Z * option (result Egress) :=
  if f64_gtb (Conn_pace_wait c now_ms) f64_zero then (c, out, None)
  else
  match take_first (cn_pending c) with
  | Some (to, tid, local, slots) =>
      let c := c <| cn_pending := slots |> in
      let '(c, out, res) := Conn_emit_response c to tid local now_ms out in (c, out, Some res)
  | None =>
  if negb (is_checking (cn_state c)) then (c, out, None)
  else
  match (if cn_probe_sent c then None else probe_target c) with
  | Some to =>
      let c := c <| cn_probe_sent := true |> in
      let '(c, out, res) := Conn_emit_check c to Ttl_Probe now_ms out in (c, out, Some res)
  | None =>
  match position (fun s => negb (sv_answered s) && ready (sv_last_probe_ms s) now_ms) (cn_servers c) with
  | Some (index, server) =>
      let '(c, out, res) := Conn_emit_reflexive c index (sv_addr server) now_ms out in (c, out, Some res)
  | None =>
  match position (fun x => Conn_checkable c (cd_kind x) && ready (cd_last_check_ms x) now_ms) (cn_candidates c) with
  | Some (index, candidate) =>
      let '(c, out, res) := Conn_emit_check c (cd_addr candidate) Ttl_Default now_ms out in
      let c := match res with
               | Ok _ => c <| cn_candidates ::= update_at index (fun x => x <| cd_last_check_ms := Some now_ms |>) |>
               | Err _ => c
               end in
      (c, out, Some res)
  | None => (c, out, None)
  end
  end
  end
  end.
End output.
