(* ===== verification/ConnSpec.v ===== *)
(** What the punch promises: what may change an attempt, what a chosen path
    rests on, and that two attempts told of each other find the path. *)

From Stdlib Require Import SpecFloat.
From S2P Require Import Prelude CoreError Float64 Packet Effect Net Slots Stun StunFacts StunSpec Conn.

(** ** Identifiers *)

Definition sent_ok (s : SentIds) : Prop := zlen (si_slots s) = SENT_IDS /\ 0 <= si_at s < SENT_IDS.

Lemma sent_new_ok : sent_ok SentIds_new.
Proof. done. Qed.

Lemma sent_push_ok s tid : sent_ok s -> sent_ok (SentIds_push s tid).
Proof.
  intros [Hl Ha]. unfold SentIds_push, sent_ok. cbn [si_slots si_at]. split.
  - destruct (get_at _ _); [by rewrite zlen_put_at|done].
  - apply Z.mod_pos_bound. done.
Qed.

Lemma contains_iff s tid : SentIds_contains s tid = true <-> Some tid ∈ si_slots s.
Proof.
  unfold SentIds_contains. rewrite existsb_exists, <- elem_flatten. split.
  - intros (x & Hx & E). apply bool_decide_eq_true in E as ->. by apply list_elem_of_In.
  - intros H. exists tid. split; [by apply list_elem_of_In|by apply bool_decide_eq_true].
Qed.

Lemma contains_new tid : SentIds_contains SentIds_new tid = false.
Proof. done. Qed.

Lemma contains_push_same s tid : sent_ok s -> SentIds_contains (SentIds_push s tid) tid = true.
Proof.
  intros [Hl Ha]. apply contains_iff. unfold SentIds_push. cbn [si_slots].
  destruct (get_at_Some (si_slots s) (si_at s)) as [o ->]; [lia|].
  apply (list_elem_of_lookup_2 _ (Z.to_nat (si_at s))). apply get_put_at_eq. lia.
Qed.

Lemma contains_push s tid t :
  SentIds_contains (SentIds_push s tid) t = true -> t = tid \/ SentIds_contains s t = true.
Proof.
  rewrite !contains_iff. unfold SentIds_push. cbn [si_slots]. destruct (get_at _ _); [|by right].
  intros [[= ->]|H]%put_at_elem; [by left|by right].
Qed.

Section punch.
  Context {D : Digests} {L : DigestLaws D}.

Lemma derive_tid_ok seed counter : tid_ok (derive_transaction_id seed counter).
Proof.
  unfold derive_transaction_id, tid_ok. set (d := Sha1_digest _).
  pose proof (sha1_len (seed ++ to_be 4 counter)) as Hl. pose proof (sha1_bytes (seed ++ to_be 4 counter)) as Hb.
  fold d in Hl, Hb. rewrite put_range_0. assert (length (take 12 d) = 12%nat) as H12
    by (rewrite length_take; unfold zlen in Hl; lia).
  rewrite H12. change (drop 12 (repeat 0 12)) with (@nil Z). rewrite app_nil_r.
  split; [unfold zlen; lia|by apply Forall_take].
Qed.

Lemma zlen_tiebreaker c : zlen (Conn_tiebreaker c) = 8.
Proof.
  unfold Conn_tiebreaker. apply (zlen_put_range (repeat 0 8) 0 (take 8 (cn_seed c))); [done|].
  rewrite zlen_take. change (zlen (repeat 0 8)) with 8. lia.
Qed.

(** ** Runs *)

(** What the network saw: a datagram handed in, a datagram sent. *)
Inductive conn_event :=
  | Ev_in (d : list Z) (from : SocketAddr) (local : option IpAddr)
  | Ev_out (e : Egress) (d : list Z).

(** One call on an attempt, by whoever drives it. *)
Inductive conn_step (c : Conn) : list conn_event -> Conn -> Prop :=
  | step_candidate addr kind : conn_step c [] (Conn_add_candidate c addr kind).1
  | step_server addr : conn_step c [] (Conn_add_server c addr).1
  | step_ready : conn_step c [] (Conn_set_peer_ready c)
  | step_poll now : conn_step c [] (Conn_poll c now)
  | step_input d from local :
      bytes_ok d -> conn_step c [Ev_in d from local] (Conn_process_input c d from local).1
  | step_output now out c' out' e :
      MAX_BUILT <= zlen out < 2 ^ 63 -> Conn_get_output c now out = (c', out', Some (Ok e)) ->
      conn_step c [Ev_out e (take (Z.to_nat (eg_len e)) out')] c'
  | step_quiet now out c' out' res :
      Conn_get_output c now out = (c', out', res) -> (forall e, res <> Some (Ok e)) -> conn_step c [] c'.

Inductive conn_run (c : Conn) : list conn_event -> Conn -> Prop :=
  | run_start : conn_run c [] c
  | run_step tr c1 ev c2 : conn_run c tr c1 -> conn_step c1 ev c2 -> conn_run c (tr ++ ev) c2.

(** A check this attempt sent to [addr] under [tid], sealed with the peer's
    password. *)
Definition request_sent (cr : Credentials) (tr : list conn_event) (addr : SocketAddr) (tid : TransactionId) : Prop :=
  exists e tb, eg_to e = addr /\
    Ev_out e (stun_sealed (cr_remote_pwd cr) TYPE_BINDING_REQUEST tid
      (attrs_wire (request_attrs (cr_local_ufrag cr) (cr_remote_ufrag cr) tb))) ∈ tr.

(** The peer's own answer to such a check, come back from [addr] at [local]. *)
Definition answered_from (cr : Credentials) (tr : list conn_event) (addr : SocketAddr) (local : option IpAddr) : Prop :=
  exists before after d from l tid attrs checked,
    tr = before ++ Ev_in d from l :: after /\ canonical from = addr /\ canonical_ip <$> l = local /\
    d = stun_sealed (cr_remote_pwd cr) TYPE_BINDING_SUCCESS tid (attrs_wire attrs) /\
    request_sent cr before checked tid.

(** A check of the peer's, sealed with our password. *)
Definition checked_by_peer (cr : Credentials) (tr : list conn_event) : Prop :=
  exists d from l tid attrs, Ev_in d from l ∈ tr /\
    d = stun_sealed (cr_local_pwd cr) TYPE_BINDING_REQUEST tid (attrs_wire attrs).

Definition creds_ok (cr : Credentials) : Prop :=
  zlen (cr_local_ufrag cr) <= MAX_UFRAG /\ zlen (cr_remote_ufrag cr) <= MAX_UFRAG.

Record conn_inv (cr : Credentials) (tr : list conn_event) (c : Conn) : Prop := {
  ci_creds : cn_credentials c = cr;
  ci_candidates : forall x, x ∈ flatten (cn_candidates c) -> sent_ok (cd_sent x) /\
    forall tid, SentIds_contains (cd_sent x) tid = true -> request_sent cr tr (cd_addr x) tid;
  ci_answered : forall addr local, cn_answered c = Some (addr, local) -> answered_from cr tr addr local;
  ci_checked : cn_checked c = true -> checked_by_peer cr tr;
  ci_established : forall addr, cn_state c = Established addr ->
    cn_checked c = true /\ cn_answered c = Some (addr, cn_local c);
}.

(** Everything recorded stays recorded. *)
Lemma request_sent_mono cr tr ev addr tid : request_sent cr tr addr tid -> request_sent cr (tr ++ ev) addr tid.
Proof. intros (e & tb & E & H). exists e, tb. split; [done|]. apply elem_of_app. by left. Qed.

Lemma answered_from_mono cr tr ev addr local :
  answered_from cr tr addr local -> answered_from cr (tr ++ ev) addr local.
Proof.
  intros (b & a & d & f & l & tid & attrs & ck & -> & H). exists b, (a ++ ev), d, f, l, tid, attrs, ck.
  split; [by rewrite <- app_assoc|done].
Qed.

Lemma checked_by_peer_mono cr tr ev : checked_by_peer cr tr -> checked_by_peer cr (tr ++ ev).
Proof. intros (d & f & l & tid & attrs & H & E). exists d, f, l, tid, attrs. split; [|done]. apply elem_of_app. by left. Qed.

Lemma conn_inv_mono cr tr ev c : conn_inv cr tr c -> conn_inv cr (tr ++ ev) c.
Proof.
  intros [H1 H2 H3 H4 H5]. split; eauto using answered_from_mono, checked_by_peer_mono.
  intros x Hx. destruct (H2 x Hx). eauto using request_sent_mono.
Qed.

Lemma conn_inv_new cr seed now : conn_inv cr [] (Conn_new cr seed now).
Proof.
  split; cbn; try done. intros x. rewrite flatten_repeat_None. by intros ?%not_elem_of_nil.
Qed.

(** The state fields of an attempt, as far as candidates are concerned. *)
Lemma inv_candidates cr tr c c' :
  conn_inv cr tr c ->
  cn_credentials c' = cn_credentials c -> cn_state c' = cn_state c -> cn_answered c' = cn_answered c ->
  cn_checked c' = cn_checked c -> cn_local c' = cn_local c ->
  (forall x, x ∈ flatten (cn_candidates c') -> sent_ok (cd_sent x) /\
    forall tid, SentIds_contains (cd_sent x) tid = true -> request_sent cr tr (cd_addr x) tid) ->
  conn_inv cr tr c'.
Proof. intros [H1 H2 H3 H4 H5] E1 E2 E3 E4 E5 Hc. split; rewrite ?E1, ?E2, ?E3, ?E4, ?E5; done. Qed.

Lemma inv_add_candidate cr tr c addr kind : conn_inv cr tr c -> conn_inv cr tr (Conn_add_candidate c addr kind).1.
Proof.
  intros Hi. unfold Conn_add_candidate. destruct (existsb _ _); [done|].
  destruct (fill_first _ _) as [slots|] eqn:E; [|done].
  apply (inv_candidates _ _ _ _ Hi); try done. cbn. intros x Hx.
  apply (fill_first_flatten _ _ _ x E) in Hx as [->|Hx]; [|by apply Hi].
  cbn [cd_sent cd_addr]. split; [done|]. intros tid. by rewrite contains_new.
Qed.

Lemma inv_establish cr tr c : conn_inv cr tr c -> conn_inv cr tr (Conn_establish c).1.
Proof.
  intros Hi. unfold Conn_establish. destruct (cn_answered c) as [[addr local]|] eqn:Ea; [|done].
  destruct (cn_checked c) eqn:Ec; [|done]. destruct (cn_state c) eqn:Es; [|done..]. cbn.
  destruct Hi as [H1 H2 H3 H4 H5]. split; cbn; try done. intros a [= <-]. by rewrite Ec, Ea.
Qed.

(** Input that changes only what the peer proved. *)
Lemma inv_request cr tr c d from local m :
  conn_inv cr tr c -> bytes_ok d -> StunMessage_parse d = Ok m -> sm_method m = BindingRequest ->
  conn_inv cr (tr ++ [Ev_in d from local]) (Conn_on_request c m (canonical from) (canonical_ip <$> local)).1.
Proof.
  intros Hi Hb Hp Hm. unfold Conn_on_request. pose proof (ci_creds _ _ _ Hi) as Ecr. rewrite Ecr.
  pose proof (conn_inv_mono _ _ [Ev_in d from local] _ Hi) as Hi'.
  destruct (StunMessage_verify m (cr_local_pwd cr)) eqn:Ev; [|done]. cbn [negb].
  assert (checked_by_peer cr (tr ++ [Ev_in d from local])) as Hck.
  { destruct (verify_inv d m _ Hb Hp Ev) as (attrs & _ & _ & _ & -> & _). rewrite Hm.
    eexists _, from, local, _, _. split; [|done]. apply elem_of_app. right. by apply list_elem_of_singleton. }
  pose proof (inv_add_candidate _ _ _ (canonical from) Kind_Direct Hi') as Ha.
  destruct (Conn_add_candidate c _ _) as [c1 ?]. cbn [fst] in Ha. unfold Conn_queue_response.
  destruct (fill_first _ _) as [slots|]; [|done].
  set (c2 := c1 <| cn_pending := slots |> <| cn_checked := true |>).
  assert (conn_inv cr (tr ++ [Ev_in d from local]) c2) as H2.
  { destruct Ha as [A1 A2 A3 A4 A5]. split; cbn; try done. intros a E. split; [done|]. by apply A5. }
  pose proof (inv_establish _ _ _ H2) as H3. fold c2. by destruct (Conn_establish c2).
Qed.

Lemma inv_success cr tr c d from local m :
  conn_inv cr tr c -> bytes_ok d -> StunMessage_parse d = Ok m -> sm_method m = BindingSuccess ->
  conn_inv cr (tr ++ [Ev_in d from local]) (Conn_on_success c m (canonical from) (canonical_ip <$> local)).1.
Proof.
  intros Hi Hb Hp Hm. unfold Conn_on_success. pose proof (ci_creds _ _ _ Hi) as Ecr.
  pose proof (conn_inv_mono _ _ [Ev_in d from local] _ Hi) as Hi'. set (expected := fun s : Server => _).
  destruct (existsb expected _).
  { destruct (StunMessage_mapped_address m); (apply (inv_candidates _ _ _ _ Hi'); try done; apply Hi'). }
  cbn [cn_credentials]. rewrite Ecr. destruct (StunMessage_verify m (cr_remote_pwd cr)) eqn:Ev; [|done]. cbn [negb].
  destruct (existsb _ (flatten (cn_candidates c))) eqn:Ex; [|done]. cbn [negb].
  destruct (cn_state c) eqn:Es; [|done..]. cbn [is_checking negb orb].
  destruct (cn_answered c) eqn:Ea; [done|].
  set (c1 := c <| cn_answered := Some (canonical from, canonical_ip <$> local) |>).
  assert (conn_inv cr (tr ++ [Ev_in d from local]) c1) as H1.
  { destruct Hi' as [A1 A2 A3 A4 A5]. split; cbn; try done.
    - intros a l [= <- <-]. apply existsb_exists in Ex as (x & Hx & Hc). apply list_elem_of_In in Hx.
      destruct (proj2 (ci_candidates _ _ _ Hi x Hx) _ Hc) as (e & tb & Eto & Hin).
      destruct (verify_inv d m _ Hb Hp Ev) as (attrs & _ & _ & _ & -> & _). rewrite Hm.
      eexists tr, [], _, from, local, _, attrs, (cd_addr x). split_and!; try done. by exists e, tb.
    - intros a. rewrite Es. done. }
  pose proof (inv_establish _ _ _ H1) as H3. fold c1. by destruct (Conn_establish c1).
Qed.

Lemma inv_input cr tr c d from local :
  conn_inv cr tr c -> bytes_ok d ->
  conn_inv cr (tr ++ [Ev_in d from local]) (Conn_process_input c d from local).1.
Proof.
  intros Hi Hb. unfold Conn_process_input. destruct (StunMessage_parse d) as [m|] eqn:Hp; [|by apply conn_inv_mono].
  destruct (sm_method m) eqn:Hm; [by apply inv_request|by apply inv_success].
Qed.

(** Output. *)
Lemma emit_check_eq c to ttl now out :
  creds_ok (cn_credentials c) -> MAX_BUILT <= zlen out < 2 ^ 63 ->
  let tid := derive_transaction_id (cn_seed c) (cn_counter c) in
  let cr := cn_credentials c in
  let body := attrs_wire (request_attrs (cr_local_ufrag cr) (cr_remote_ufrag cr) (Conn_tiebreaker c)) in
  let d := stun_sealed (cr_remote_pwd cr) TYPE_BINDING_REQUEST tid body in
  Conn_emit_check c to ttl now out =
    (c <| cn_counter := wadd 32 (cn_counter c) 1 |>
       <| cn_candidates ::= update_first (fun x => bool_decide (cd_addr x = to))
                              (fun x => x <| cd_sent ::= fun s => SentIds_push s tid |>) |>
       <| cn_last_sent_ms := Some now |>,
     d ++ drop (52 + length body) out, Ok (mkEgress to ttl (zlen d) (cn_local c))) /\
  take (Z.to_nat (zlen d)) (d ++ drop (52 + length body) out) = d.
Proof.
  intros [Hl Hr] [Ho Hz] tid cr body d. unfold Conn_emit_check, Conn_next_transaction_id. cbv zeta iota beta.
  destruct (derive_tid_ok (cn_seed c) (cn_counter c)) as [Ht _]. fold tid in Ht.
  assert (zlen d = 52 + zlen body) as Ed by (by apply zlen_stun_sealed). split.
  - change (Conn_tiebreaker (c <| cn_counter := _ |>)) with (Conn_tiebreaker c).
    change (cn_credentials (c <| cn_counter := _ |>)) with cr.
    rewrite (encode_request_eq tid _ _ _ _ _ Ht Hl Hr (zlen_tiebreaker c) Ho Hz).
    fold body. fold d. rewrite Ed. done.
  - apply take_app_length'. unfold zlen. lia.
Qed.

Lemma inv_emit_check cr tr c to ttl now out c' out' res :
  conn_inv cr tr c -> creds_ok cr -> MAX_BUILT <= zlen out < 2 ^ 63 ->
  Conn_emit_check c to ttl now out = (c', out', res) ->
  exists e, res = Ok e /\ conn_inv cr (tr ++ [Ev_out e (take (Z.to_nat (eg_len e)) out')]) c'.
Proof.
  intros Hi Hcr Ho E. pose proof (ci_creds _ _ _ Hi) as Ecr. subst cr.
  destruct (emit_check_eq c to ttl now out Hcr Ho) as [Ee Ed]. cbv zeta in Ee, Ed.
  rewrite Ee in E. clear Ee. set (tid := derive_transaction_id _ _) in *.
  set (d := stun_sealed _ _ tid _) in *. apply pair_equal_spec in E as [E <-]. apply pair_equal_spec in E as [<- <-].
  eexists. split; [done|]. cbn [eg_len].
  rewrite Ed. apply (inv_candidates _ _ _ _ (conn_inv_mono _ _ _ _ Hi)); try done. cbn. intros x Hx.
  apply update_first_elem in Hx as [Hx|(y & Hy & Et & ->)].
  - apply (ci_candidates _ _ _ (conn_inv_mono _ _ _ _ Hi)). done.
  - destruct (ci_candidates _ _ _ (conn_inv_mono _ _ [Ev_out (mkEgress to ttl (zlen d) (cn_local c)) d] _ Hi) y Hy) as [Hs Hy'].
    cbn. split; [by apply sent_push_ok|]. intros t [->|Ht]%contains_push; [|by apply Hy'].
    apply bool_decide_eq_true in Et as <-. eexists _, _. split; [|apply elem_of_app; right; by apply list_elem_of_singleton].
    done.
Qed.

(** Nothing but the candidates' identifiers matters to the invariant. *)
Lemma inv_same cr tr c c' :
  conn_inv cr tr c ->
  cn_credentials c' = cn_credentials c -> cn_state c' = cn_state c -> cn_answered c' = cn_answered c ->
  cn_checked c' = cn_checked c -> cn_local c' = cn_local c -> cn_candidates c' = cn_candidates c -> conn_inv cr tr c'.
Proof. intros Hi E1 E2 E3 E4 E5 E6. apply (inv_candidates _ _ _ _ Hi); try done. rewrite E6. apply Hi. Qed.

Lemma inv_emit_response cr tr c to tid local now out c' out' res :
  conn_inv cr tr c -> Conn_emit_response c to tid local now out = (c', out', res) -> conn_inv cr tr c'.
Proof.
  intros Hi. unfold Conn_emit_response. destruct (encode_binding_response _ _ _ _) as [o [len|]]; intros [= <- <- <-]; [|done].
  by apply (inv_same _ _ _ _ Hi).
Qed.

Lemma inv_emit_reflexive cr tr c i to now out c' out' res :
  conn_inv cr tr c -> Conn_emit_reflexive c i to now out = (c', out', res) -> conn_inv cr tr c'.
Proof.
  intros Hi. unfold Conn_emit_reflexive, Conn_next_transaction_id.
  destruct (encode_reflexive_request _ _) as [o [len|]]; intros [= <- <- <-]; by apply (inv_same _ _ _ _ Hi).
Qed.

Lemma emit_check_err c to ttl now out c' out' e :
  Conn_emit_check c to ttl now out = (c', out', Err e) -> c' = c <| cn_counter := wadd 32 (cn_counter c) 1 |>.
Proof.
  unfold Conn_emit_check, Conn_next_transaction_id. cbv zeta iota beta.
  destruct (encode_binding_request _ _ _ _ _ _) as [o [len|]]; intros E.
  - apply pair_equal_spec in E as [_ E]. discriminate.
  - apply pair_equal_spec in E as [E _]. by apply pair_equal_spec in E as [<- _].
Qed.

Lemma inv_last_check cr tr c i now :
  conn_inv cr tr c ->
  conn_inv cr tr (c <| cn_candidates ::= update_at i (fun x => x <| cd_last_check_ms := Some now |>) |>).
Proof.
  intros Hi. apply (inv_candidates _ _ _ _ Hi); try done. cbn. intros x.
  intros [Hx|(y & Hy & _ & ->)]%update_at_elem; [by apply Hi|]. cbn. by apply (ci_candidates _ _ _ Hi).
Qed.

(** What [get_output] did: the branch it took. *)
Inductive output_case (c : Conn) (now : f64) (out : list Z) : Conn -> list Z -> option (result Egress) -> Prop :=
  | out_paced : f64_gtb (Conn_pace_wait c now) f64_zero = true -> output_case c now out c out None
  | out_idle : output_case c now out c out None
  | out_response to tid local slots c' out' res :
      take_first (cn_pending c) = Some (to, tid, local, slots) ->
      Conn_emit_response (c <| cn_pending := slots |>) to tid local now out = (c', out', res) ->
      output_case c now out c' out' (Some res)
  | out_probe x c' out' res :
      cn_state c = Checking -> cn_probe_sent c = false ->
      x ∈ flatten (cn_candidates c) -> cd_kind x = Kind_Reflexive -> flatten (cn_pending c) = [] ->
      Conn_emit_check (c <| cn_probe_sent := true |>) (cd_addr x) Ttl_Probe now out = (c', out', res) ->
      output_case c now out c' out' (Some res)
  | out_server i s c' out' res :
      cn_state c = Checking -> get_at (cn_servers c) i = Some (Some s) -> sv_answered s = false ->
      ready (sv_last_probe_ms s) now = true -> flatten (cn_pending c) = [] ->
      Conn_emit_reflexive c i (sv_addr s) now out = (c', out', res) ->
      output_case c now out c' out' (Some res)
  | out_check i x c' out' res :
      cn_state c = Checking -> get_at (cn_candidates c) i = Some (Some x) ->
      Conn_checkable c (cd_kind x) = true -> ready (cd_last_check_ms x) now = true -> flatten (cn_pending c) = [] ->
      Conn_emit_check c (cd_addr x) Ttl_Default now out = (c', out', res) ->
      output_case c now out
        (match res with
         | Ok _ => c' <| cn_candidates ::= update_at i (fun x => x <| cd_last_check_ms := Some now |>) |>
         | Err _ => c'
         end) out' (Some res).

Lemma get_output_case c now out :
  let '(c', out', res) := Conn_get_output c now out in output_case c now out c' out' res /\
    (res <> None -> f64_gtb (Conn_pace_wait c now) f64_zero = false).
Proof.
  unfold Conn_get_output. destruct (f64_gtb _ _) eqn:Ep; [by split; [constructor|]|].
  destruct (take_first (cn_pending c)) as [[[[to tid] local] slots]|] eqn:Et.
  { destruct (Conn_emit_response _ _ _ _ _ _) as [[c' out'] res] eqn:E. split; [by eapply out_response|done]. }
  apply take_first_None in Et.
  destruct (cn_state c) eqn:Es; cbn [is_checking negb]; [|by split; [apply out_idle|]..].
  destruct (if cn_probe_sent c then None else probe_target c) as [to|] eqn:Eb.
  { destruct (cn_probe_sent c) eqn:Eps; [done|]. unfold probe_target in Eb.
    destruct (List.find _ _) as [x|] eqn:Ef; [|done]. injection Eb as <-.
    apply find_some in Ef as [Hx Hk]. apply list_elem_of_In in Hx. apply bool_decide_eq_true in Hk.
    destruct (Conn_emit_check _ _ _ _ _) as [[c' out'] res] eqn:E. split; [by eapply out_probe|done]. }
  destruct (position _ (cn_servers c)) as [[i s]|] eqn:Esv.
  { apply position_elem in Esv as (_ & Hs & Hp). apply andb_true_iff in Hp as [Ha Hr]. apply negb_true_iff in Ha.
    destruct (Conn_emit_reflexive _ _ _ _ _) as [[c' out'] res] eqn:E. split; [by eapply out_server|done]. }
  destruct (position _ (cn_candidates c)) as [[i x]|] eqn:Ec; [|by split; [apply out_idle|]].
  apply position_elem in Ec as (_ & Hs & Hp). apply andb_true_iff in Hp as [Ha Hr].
  destruct (Conn_emit_check _ _ _ _ _) as [[c' out'] res] eqn:E. split; [by eapply out_check|done].
Qed.

Lemma inv_output cr tr c now out c' out' res :
  conn_inv cr tr c -> creds_ok cr -> output_case c now out c' out' res ->
  (forall e, res = Some (Ok e) -> MAX_BUILT <= zlen out < 2 ^ 63) ->
  conn_inv cr (tr ++ match res with Some (Ok e) => [Ev_out e (take (Z.to_nat (eg_len e)) out')] | _ => [] end) c'.
Proof.
  intros Hi Hcr Hc Ho.
  assert (forall c1 to ttl c2 out2 r, conn_inv cr tr c1 -> Conn_emit_check c1 to ttl now out = (c2, out2, r) ->
    (forall e, r = Ok e -> MAX_BUILT <= zlen out < 2 ^ 63) ->
    conn_inv cr (tr ++ match r with Ok e => [Ev_out e (take (Z.to_nat (eg_len e)) out2)] | _ => [] end) c2) as Hcheck.
  { intros c1 to ttl c2 out2 [e|e] H1 E Hs.
    - destruct (inv_emit_check _ _ _ _ _ _ _ _ _ _ H1 Hcr (Hs e eq_refl) E) as (e' & [= ->] & H). done.
    - apply emit_check_err in E as ->. rewrite app_nil_r. by apply (inv_same _ _ _ _ H1). }
  destruct Hc as [Hp| |to tid local slots c' out' res Ht E|x c' out' res Hs Hb Hx Hk _ E|i s c' out' res Hs Hx Ha Hr _ E
    |i x c' out' res Hs Hx Ha Hr _ E].
  - by apply conn_inv_mono.
  - by apply conn_inv_mono.
  - assert (conn_inv cr tr (c <| cn_pending := slots |>)) as Hi2 by (by apply (inv_same _ _ _ _ Hi)).
    apply (inv_emit_response _ _ _ _ _ _ _ _ _ _ _ Hi2) in E. destruct res; by apply conn_inv_mono.
  - assert (conn_inv cr tr (c <| cn_probe_sent := true |>)) as Hi2 by (by apply (inv_same _ _ _ _ Hi)).
    apply (Hcheck _ _ _ _ _ _ Hi2) in E; [by destruct res|]. intros e ->. by apply (Ho e).
  - apply (inv_emit_reflexive _ _ _ _ _ _ _ _ _ _ Hi) in E. destruct res; by apply conn_inv_mono.
  - apply (Hcheck _ _ _ _ _ _ Hi) in E; [|intros e ->; by apply (Ho e)]. destruct res; [by apply inv_last_check|done].
Qed.

Lemma inv_step cr tr c ev c' : conn_inv cr tr c -> creds_ok cr -> conn_step c ev c' -> conn_inv cr (tr ++ ev) c'.
Proof.
  intros Hi Hcr Hs. destruct Hs as [addr kind|addr| |now|d from local Hb|now out c' out' e Ho E|now out c' out' res E Hn].
  - apply conn_inv_mono. by apply inv_add_candidate.
  - apply conn_inv_mono. unfold Conn_add_server. destruct (existsb _ _); [done|].
    destruct (fill_first _ _); [|done]. by apply (inv_same _ _ _ _ Hi).
  - apply conn_inv_mono. by apply (inv_same _ _ _ _ Hi).
  - apply conn_inv_mono. unfold Conn_poll. destruct (is_checking (cn_state c)) eqn:Ek; [|done]. cbn [negb].
    destruct (f64_geb _ _); [|done]. destruct Hi as [H1 H2 H3 H4 H5]. split; cbn; done.
  - by apply inv_input.
  - pose proof (get_output_case c now out) as H. rewrite E in H. destruct H as [H _].
    apply (inv_output cr tr _ _ _ _ _ _ Hi Hcr) in H; [done|]. intros e' [= <-]. done.
  - pose proof (get_output_case c now out) as H. rewrite E in H. destruct H as [H _].
    apply (inv_output cr tr _ _ _ _ _ _ Hi Hcr) in H; [|intros e ->; by destruct (Hn e)].
    destruct res as [[e|]|]; [by destruct (Hn e)|done..].
Qed.

Lemma inv_run cr tr c c' : conn_inv cr [] c -> creds_ok cr -> conn_run c tr c' -> conn_inv cr tr c'.
Proof. intros Hi Hcr Hr. induction Hr as [|tr c1 ev c2 Hr IH Hs]; [done|]. by eapply inv_step. Qed.

(** ** An outcome is final *)

Lemma establish_final c : cn_state c <> Checking -> (Conn_establish c).1 = c.
Proof.
  intros H. unfold Conn_establish. destruct (cn_answered c) as [[a l]|]; [|done].
  destruct (cn_state c); [done| |]; by rewrite orb_true_r.
Qed.

Lemma step_final c ev c' :
  conn_step c ev c' -> cn_state c <> Checking -> cn_state c' = cn_state c /\ cn_local c' = cn_local c.
Proof.
  intros Hs Hn. destruct Hs as [addr kind|addr| |now|d from local Hb|now out c' out' e Ho E|now out c' out' res E Hr].
  - unfold Conn_add_candidate. destruct (existsb _ _); [done|]. by destruct (fill_first _ _).
  - unfold Conn_add_server. destruct (existsb _ _); [done|]. by destruct (fill_first _ _).
  - done.
  - unfold Conn_poll. assert (is_checking (cn_state c) = false) as -> by (by destruct (cn_state c)). done.
  - unfold Conn_process_input. destruct (StunMessage_parse d) as [m|]; [|done]. destruct (sm_method m).
    + unfold Conn_on_request. destruct (negb _); [done|]. unfold Conn_add_candidate.
      set (r := if existsb _ _ then _ else _).
      assert (cn_state r.1 = cn_state c /\ cn_local r.1 = cn_local c) as [Er1 Er2].
      { unfold r. destruct (existsb _ _); [done|]. by destruct (fill_first _ _). }
      destruct r as [c1 ?]. cbn [fst] in *. unfold Conn_queue_response. destruct (fill_first _ _); [|done].
      set (c2 := c1 <| cn_pending := _ |> <| cn_checked := true |>).
      assert ((Conn_establish c2).1 = c2) as Ee by (apply establish_final; by rewrite <- Er1 in Hn).
      destruct (Conn_establish c2) as [c3 o]. cbn [fst] in *. by subst.
    + unfold Conn_on_success. destruct (existsb _ _).
      { by destruct (StunMessage_mapped_address m). }
      destruct (negb _); [done|]. destruct (negb _); [done|]. destruct (cn_state c) eqn:Es; done.
  - pose proof (get_output_case c now out) as H. rewrite E in H. destruct H as [H _].
    inversion H as [| |? ? ? ? ? ? ? Ht Ee|? ? ? ? Hs|? ? ? ? ? Hs|? ? ? ? ? Hs]; subst; try done.
    unfold Conn_emit_response in Ee. destruct (encode_binding_response _ _ _ _) as [? []]; by injection Ee as <- <-.
  - pose proof (get_output_case c now out) as H. rewrite E in H. destruct H as [H _].
    inversion H as [| |? ? ? ? ? ? ? Ht Ee|? ? ? ? Hs|? ? ? ? ? Hs|? ? ? ? ? Hs]; subst; try done.
    unfold Conn_emit_response in Ee. destruct (encode_binding_response _ _ _ _) as [? []]; injection Ee as <- <- <-; done.
Qed.

(** ** What one call does, where it does something *)

(** The attempt sends [d] to [to] and becomes [c']. *)
Definition sends (c : Conn) (now : f64) (out : list Z) (to : SocketAddr) (local : option IpAddr) (d : list Z) (c' : Conn) : Prop :=
  exists out' e, Conn_get_output c now out = (c', out', Some (Ok e)) /\ eg_to e = to /\ eg_ttl e = Ttl_Default /\
    eg_from e = local /\ take (Z.to_nat (eg_len e)) out' = d.

Lemma send_response c now out to tid local slots :
  f64_gtb (Conn_pace_wait c now) f64_zero = false -> take_first (cn_pending c) = Some (to, tid, local, slots) ->
  sock_ok to -> zlen tid = 12 -> MAX_BUILT <= zlen out < 2 ^ 63 ->
  sends c now out to local
    (stun_sealed (cr_local_pwd (cn_credentials c)) TYPE_BINDING_SUCCESS tid (attrs_wire (response_attrs to tid)))
    (c <| cn_pending := slots |> <| cn_last_sent_ms := Some now |>).
Proof.
  intros Hp Ht Hs Hl [Ho Hz]. unfold sends, Conn_get_output. rewrite Hp, Ht. unfold Conn_emit_response.
  change (cn_credentials (c <| cn_pending := slots |>)) with (cn_credentials c).
  rewrite encode_response_eq by done. set (body := attrs_wire (response_attrs to tid)).
  pose proof (zlen_response_attrs to tid Hs Hl) as Hb. fold body in Hb. unfold MAX_BUILT, MAX_MESSAGE in Ho.
  eexists _, _. split; [reflexivity|]. cbn [eg_to eg_ttl eg_from eg_len]. split_and!; try done.
  apply take_sealed; [done|fold body; lia].
Qed.

Lemma send_check c now out i x :
  f64_gtb (Conn_pace_wait c now) f64_zero = false -> flatten (cn_pending c) = [] -> cn_state c = Checking ->
  (if cn_probe_sent c then None else probe_target c) = None ->
  position (fun s => negb (sv_answered s) && ready (sv_last_probe_ms s) now) (cn_servers c) = None ->
  position (fun x => Conn_checkable c (cd_kind x) && ready (cd_last_check_ms x) now) (cn_candidates c) = Some (i, x) ->
  creds_ok (cn_credentials c) -> MAX_BUILT <= zlen out < 2 ^ 63 ->
  let cr := cn_credentials c in
  let tid := derive_transaction_id (cn_seed c) (cn_counter c) in
  sends c now out (cd_addr x) (cn_local c)
    (stun_sealed (cr_remote_pwd cr) TYPE_BINDING_REQUEST tid
      (attrs_wire (request_attrs (cr_local_ufrag cr) (cr_remote_ufrag cr) (Conn_tiebreaker c))))
    (c <| cn_counter := wadd 32 (cn_counter c) 1 |>
       <| cn_candidates ::= fun l => update_at i (fun x => x <| cd_last_check_ms := Some now |>)
            (update_first (fun y => bool_decide (cd_addr y = cd_addr x))
               (fun x => x <| cd_sent ::= fun s => SentIds_push s tid |>) l) |>
       <| cn_last_sent_ms := Some now |>).
Proof.
  intros Hp Ht Hs Hb Hsv Hc Hcr Ho cr tid. unfold sends, Conn_get_output.
  apply take_first_None in Ht. rewrite Hp, Ht, Hs. cbn [is_checking negb]. rewrite Hb, Hsv, Hc.
  destruct (emit_check_eq c (cd_addr x) Ttl_Default now out Hcr Ho) as [-> Ed].
  eexists _, _. split; [reflexivity|]. cbn [eg_to eg_ttl eg_from eg_len]. split_and!; try done.
Qed.

Lemma receive_check c from local tid attrs slots :
  Forall attr_ok attrs -> bytes_ok (attrs_wire attrs) -> tid_ok tid -> zlen (attrs_wire attrs) + 52 <= MAX_MESSAGE ->
  fill_first (cn_pending c) (canonical from, tid, canonical_ip <$> local) = Some slots ->
  (exists x, x ∈ flatten (cn_candidates c) /\ cd_addr x = canonical from) ->
  Conn_process_input c (stun_sealed (cr_local_pwd (cn_credentials c)) TYPE_BINDING_REQUEST tid (attrs_wire attrs)) from local
    = let '(c', established) := Conn_establish (c <| cn_pending := slots |> <| cn_checked := true |>) in
      (c', Ok (default CheckAnswered established)).
Proof.
  intros Ha Ba [Ht Bt] Hz Hf (x & Hx & Ex). unfold Conn_process_input.
  change TYPE_BINDING_REQUEST with (method_kind BindingRequest). rewrite parse_sealed by done. cbn [sm_method].
  unfold Conn_on_request. rewrite verify_sealed by done. cbn [negb]. unfold Conn_add_candidate. rewrite canonical_idem.
  assert (existsb (fun x => bool_decide (cd_addr x = canonical from)) (flatten (cn_candidates c)) = true) as ->.
  { apply existsb_exists. exists x. split; [by apply list_elem_of_In|by apply bool_decide_eq_true]. }
  unfold Conn_queue_response. cbn [sm_tid]. rewrite Hf. done.
Qed.

Lemma receive_answer c from local tid attrs :
  Forall attr_ok attrs -> bytes_ok (attrs_wire attrs) -> tid_ok tid -> zlen (attrs_wire attrs) + 52 <= MAX_MESSAGE ->
  Forall (fun s => sv_addr s <> canonical from) (flatten (cn_servers c)) ->
  (exists x, x ∈ flatten (cn_candidates c) /\ SentIds_contains (cd_sent x) tid = true) ->
  cn_state c = Checking -> cn_answered c = None ->
  Conn_process_input c (stun_sealed (cr_remote_pwd (cn_credentials c)) TYPE_BINDING_SUCCESS tid (attrs_wire attrs)) from local
    = let '(c', established) := Conn_establish (c <| cn_answered := Some (canonical from, canonical_ip <$> local) |>) in
      (c', Ok (default (Reachable (canonical from)) established)).
Proof.
  intros Ha Ba [Ht Bt] Hz Hs (x & Hx & Hc) Hst Han. unfold Conn_process_input.
  change TYPE_BINDING_SUCCESS with (method_kind BindingSuccess). rewrite parse_sealed by done. cbn [sm_method].
  unfold Conn_on_success. cbn [sm_tid].
  assert (existsb (fun s => SentIds_contains (sv_sent s) tid && bool_decide (sv_addr s = canonical from))
    (flatten (cn_servers c)) = false) as ->.
  { clear -Hs. induction Hs as [|s l Hn _ IH]; [done|]. cbn [existsb].
    by rewrite IH, bool_decide_eq_false_2, andb_false_r. }
  rewrite verify_sealed by done. cbn [negb].
  assert (existsb (fun x => SentIds_contains (cd_sent x) tid) (flatten (cn_candidates c)) = true) as ->
    by (apply existsb_exists; exists x; split; [by apply list_elem_of_In|done]).
  rewrite Hst, Han. done.
Qed.
End punch.

(** What may move an attempt.  A datagram changes an attempt only when it
    is a check sealed with our password; or an answer, sealed with the peer's,
    to a check this attempt sent, while it is still checking and nothing has
    answered, and then nothing but the answer and the outcome changes; or an
    answer from a reflexive server's own address to a request sent to it, and
    then nothing but that server's record changes.  Whatever is refused as not
    authentic leaves no trace. *)
Theorem input_admitted (D : Digests) (L : DigestLaws D) (c c' : Conn) (d : list Z) (from : SocketAddr)
    (local : option IpAddr) (res : result ConnInbound) :
  bytes_ok d -> Conn_process_input c d from local = (c', res) ->
  (res = Err Decrypt -> c' = c) /\
  (c' = c \/
   (exists tid attrs, d = stun_sealed (cr_local_pwd (cn_credentials c)) TYPE_BINDING_REQUEST tid (attrs_wire attrs) /\
      cn_servers c' = cn_servers c /\ cn_answered c' = cn_answered c) \/
   (exists tid attrs x, d = stun_sealed (cr_remote_pwd (cn_credentials c)) TYPE_BINDING_SUCCESS tid (attrs_wire attrs) /\
      x ∈ flatten (cn_candidates c) /\ SentIds_contains (cd_sent x) tid = true /\
      cn_state c = Checking /\ cn_answered c = None /\
      exists state answered l, c' = c <| cn_answered := answered |> <| cn_state := state |> <| cn_local := l |>) \/
   (exists m s servers, StunMessage_parse d = Ok m /\ s ∈ flatten (cn_servers c) /\ sv_addr s = canonical from /\
      SentIds_contains (sv_sent s) (sm_tid m) = true /\ c' = c <| cn_servers := servers |>)).
Proof.
  intros Hb. unfold Conn_process_input. destruct (StunMessage_parse d) as [m|] eqn:Hp; [|intros [= <- <-]; naive_solver].
  destruct (sm_method m) eqn:Hm.
  - unfold Conn_on_request. destruct (StunMessage_verify m _) eqn:Ev; cbn [negb]; [|intros [= <- <-]; naive_solver].
    destruct (verify_inv d m _ Hb Hp Ev) as (attrs & _ & _ & _ & Ed & _). rewrite Hm in Ed. cbn [method_kind] in Ed.
    destruct (Conn_add_candidate c _ _) as [c1 ?] eqn:Ea.
    assert (cn_servers c1 = cn_servers c /\ cn_answered c1 = cn_answered c) as [E1 E2].
    { revert Ea. unfold Conn_add_candidate. destruct (existsb _ _); [by intros [= <- _]|].
      destruct (fill_first _ _); by intros [= <- _]. }
    unfold Conn_queue_response. destruct (fill_first _ _) as [slots|].
    2: { intros [= <- <-]. split; [done|]. right. left. eauto. }
    destruct (Conn_establish _) as [c2 o] eqn:Ee. intros [= <- <-]. split; [done|]. right. left.
    exists (sm_tid m), attrs. split; [done|]. revert Ee. unfold Conn_establish. cbn [cn_answered].
    destruct (cn_answered _) as [[a l]|] eqn:Ean; [destruct (_ || _)|]; intros [= <- _]; (split; [exact E1|exact (eq_trans Ean E2)]).
  - unfold Conn_on_success. set (expected := fun s : Server => _). destruct (existsb expected _) eqn:Ex.
    { apply existsb_exists in Ex as (s & Hs & He). apply list_elem_of_In in Hs.
      apply andb_true_iff in He as [Hc Hf]. apply bool_decide_eq_true in Hf.
      destruct (StunMessage_mapped_address m); intros [= <- <-]; (split; [done|]); do 3 right;
        eexists m, s, _; (split; [done|]); (split; [done|]); (split; [done|]); split; done. }
    destruct (StunMessage_verify m _) eqn:Ev; cbn [negb]; [|intros [= <- <-]; naive_solver].
    destruct (verify_inv d m _ Hb Hp Ev) as (attrs & _ & _ & _ & Ed & _). rewrite Hm in Ed. cbn [method_kind] in Ed.
    destruct (existsb _ (flatten (cn_candidates c))) eqn:Ec; cbn [negb]; [|intros [= <- <-]; naive_solver].
    apply existsb_exists in Ec as (x & Hx & Hc). apply list_elem_of_In in Hx.
    destruct (cn_state c) eqn:Es; cbn [is_checking negb orb]; [|intros [= <- <-]; naive_solver..].
    destruct (cn_answered c) eqn:Ean; [intros [= <- <-]; naive_solver|].
    destruct (Conn_establish _) as [c2 o] eqn:Ee. intros [= <- <-]. split; [done|]. do 2 right. left.
    exists (sm_tid m), attrs, x. repeat (split; [done|]). revert Ee. unfold Conn_establish. cbn [cn_answered].
    change (cn_answered (c <| cn_answered := ?v |>)) with v. cbv iota beta.
    destruct (_ || _); intros [= <- _]; [|by eexists _, _, _].
    exists Checking, (Some (canonical from, canonical_ip <$> local)), (cn_local c).
    destruct c. cbn in *. by subst.
Qed.

(** A fresh attempt and a stranger's check: refused, and nothing changed. *)
Lemma input_admitted_witness :
  let c := Conn_new (mkCredentials [97] [98] [99] [100]) (repeat 1 16) f64_zero in
  (Conn_process_input (D := sample_digests) c sample_sealed sample_peer None).2 = Err Decrypt /\
  (Conn_process_input (D := sample_digests) c sample_sealed sample_peer None).1 = c.
Proof.
  intros c. destruct (Conn_process_input (D := sample_digests) c sample_sealed sample_peer None) as [c' res] eqn:E.
  assert (res = Err Decrypt) as Hr.
  { change res with (c', res).2. rewrite <- E. vm_compute. reflexivity. }
  split; [done|].
  apply (input_admitted sample_digests sample_laws c c' sample_sealed sample_peer None res); [|done|done].
  vm_compute. repeat constructor; discriminate.
Defined.

(** What an emission leaves behind. *)
Lemma emit_check_fields `{D : Digests} c to ttl now out c' out' e :
  Conn_emit_check c to ttl now out = (c', out', Ok e) ->
  eg_to e = to /\ eg_ttl e = ttl /\ eg_from e = cn_local c /\ cn_last_sent_ms c' = Some now /\
  cn_probe_sent c' = cn_probe_sent c /\ cn_pending c' = cn_pending c /\ cn_state c' = cn_state c.
Proof.
  unfold Conn_emit_check, Conn_next_transaction_id. cbv zeta iota beta.
  destruct (encode_binding_request _ _ _ _ _ _) as [o [len|]]; intros E.
  - apply pair_equal_spec in E as [E E2]. apply pair_equal_spec in E as [<- <-]. injection E2 as <-. done.
  - apply pair_equal_spec in E as [_ E]. discriminate.
Qed.

(** How an attempt sends.  A datagram leaves only when pacing permits, and
    the clock is noted, so that the next waits its turn; answers owed go first,
    each once, from the address the check arrived at, in any state; everything
    else leaves only while checking and with no answer owed: one probe ever, to
    a reflexive candidate; a request to a server that has not answered; a check
    to a candidate that is direct or whose peer is ready, each no sooner than
    its cadence. *)
Theorem output_disciplined (D : Digests) (c c' : Conn) (now : f64) (out out' : list Z) (e : Egress) :
  Conn_get_output c now out = (c', out', Some (Ok e)) ->
  f64_gtb (Conn_pace_wait c now) f64_zero = false /\ cn_last_sent_ms c' = Some now /\
  (f64_gtb (Conn_pace_wait c' now) f64_zero = true -> forall buf, Conn_get_output c' now buf = (c', buf, None)) /\
  ((exists tid, flatten (cn_pending c) = (eg_to e, tid, eg_from e) :: flatten (cn_pending c') /\
      eg_ttl e = Ttl_Default /\ cn_state c' = cn_state c) \/
   (flatten (cn_pending c) = [] /\ cn_state c = Checking /\
    match eg_ttl e with
    | Ttl_Probe => cn_probe_sent c = false /\ cn_probe_sent c' = true /\
        exists x, x ∈ flatten (cn_candidates c) /\ cd_addr x = eg_to e /\ cd_kind x = Kind_Reflexive
    | Ttl_Default =>
        (exists s, s ∈ flatten (cn_servers c) /\ sv_addr s = eg_to e /\ sv_answered s = false /\
           ready (sv_last_probe_ms s) now = true /\ eg_from e = None) \/
        (exists x, x ∈ flatten (cn_candidates c) /\ cd_addr x = eg_to e /\
           (cd_kind x = Kind_Direct \/ cn_peer_ready c = true) /\ ready (cd_last_check_ms x) now = true /\
           eg_from e = cn_local c)
    end)).
Proof.
  intros E. pose proof (get_output_case c now out) as H. rewrite E in H. destruct H as [H Hp].
  specialize (Hp ltac:(done)). split; [done|].
  assert (forall buf, f64_gtb (Conn_pace_wait c' now) f64_zero = true -> Conn_get_output c' now buf = (c', buf, None)) as Hq
    by (intros buf Hw; unfold Conn_get_output; by rewrite Hw).
  inversion H as [| |to tid local slots c1 o1 r Ht Ee|x c1 o1 r Hs Hb Hx Hk Hn Ee|i s c1 o1 r Hs Hx Ha Hr Hn Ee
    |i x c1 o1 r Hs Hx Ha Hr Hn Ee]; subst.
  - revert Ee. unfold Conn_emit_response. destruct (encode_binding_response _ _ _ _) as [o [len|]]; intros [= <- <- <-].
    split; [done|]. split; [eauto|]. left. exists tid. cbn [eg_to eg_from eg_ttl].
    apply take_first_flatten in Ht as [Ht _]. split_and!; done.
  - apply emit_check_fields in Ee as (E1 & E2 & E3 & E4 & E5 & E6 & E7). split; [done|]. split; [eauto|]. right.
    split; [done|]. split; [done|]. rewrite E2. split; [done|]. split; [done|]. exists x. done.
  - revert Ee. unfold Conn_emit_reflexive, Conn_next_transaction_id.
    destruct (encode_reflexive_request _ _) as [o [len|]]; intros [= <- <- <-].
    split; [done|]. split; [eauto|]. right. split; [done|]. split; [done|]. left. exists s.
    split; [by eapply get_at_flatten|]. done.
  - apply emit_check_fields in Ee as (E1 & E2 & E3 & E4 & E5 & E6 & E7). split; [done|]. split; [eauto|]. right.
    split; [done|]. split; [done|]. rewrite E2. right. exists x. split; [by eapply get_at_flatten|]. split; [done|].
    split; [|done]. unfold Conn_checkable in Ha. apply orb_true_iff in Ha as [Ha|Ha]; [|by right].
    left. by apply bool_decide_eq_true in Ha.
Qed.

Lemma output_disciplined_witness :
  let c := (Conn_add_candidate (Conn_new (mkCredentials [97] [98] [99] [100]) (repeat 1 16) f64_zero) sample_peer Kind_Reflexive).1 in
  exists c' out' e, Conn_get_output (D := sample_digests) c f64_zero (repeat 0 256) = (c', out', Some (Ok e)) /\
    eg_ttl e = Ttl_Probe /\ cn_probe_sent c' = true.
Proof.
  intros c. assert (exists c' out' e, Conn_get_output (D := sample_digests) c f64_zero (repeat 0 256) = (c', out', Some (Ok e)) /\
    eg_ttl e = Ttl_Probe) as (c' & out' & e & E & Ht) by (eexists _, _, _; split; vm_compute; reflexivity).
  exists c', out', e. split; [done|]. split; [done|].
  destruct (output_disciplined sample_digests c c' f64_zero (repeat 0 256) out' e E) as (_ & _ & _ & [(tid & _ & Ed & _)|(_ & _ & H)]).
  - rewrite Ht in Ed. discriminate.
  - rewrite Ht in H. apply H.
Defined.
