(* ===== verification/Handshake.v ===== *)
(** Two attempts and a network that delivers: the exchange by which both sides
    find the path. *)

From Stdlib Require Import SpecFloat.
From S2P Require Import Prelude CoreError Float64 Packet Effect Net Slots Stun StunFacts StunSpec Conn ConnSpec.

(** An attempt told of one direct candidate. *)
Definition told (cr : Credentials) (seed : list Z) (now : f64) (peer : SocketAddr) : Conn :=
  (Conn_add_candidate (Conn_new cr seed now) peer Kind_Direct).1.

(** The two sides of one credential exchange. *)
Definition mirrored (a b : Credentials) : Prop :=
  cr_local_pwd b = cr_remote_pwd a /\ cr_remote_pwd b = cr_local_pwd a.

Definition creds_bytes (cr : Credentials) : Prop :=
  creds_ok cr /\ bytes_ok (cr_local_ufrag cr) /\ bytes_ok (cr_remote_ufrag cr).

(** Enough time since the last datagram for pacing to permit another. *)
Definition paced (last now : f64) : Prop :=
  f64_gtb (f64_max (f64_sub (f64_add last PACING_MS) now) f64_zero) f64_zero = false.

Section handshake.
  Context {D : Digests} {L : DigestLaws D}.

Lemma tiebreaker_bytes c : bytes_ok (cn_seed c) -> bytes_ok (Conn_tiebreaker c).
Proof.
  intros H. unfold Conn_tiebreaker. rewrite put_range_0. apply bytes_app; [by apply Forall_take|].
  apply Forall_drop. repeat constructor; unfold fits; lia.
Qed.

(** The attributes of a check an attempt sends are those of a well-formed one. *)
Lemma check_attrs cr c :
  creds_bytes cr -> bytes_ok (cn_seed c) ->
  let attrs := request_attrs (cr_local_ufrag cr) (cr_remote_ufrag cr) (Conn_tiebreaker c) in
  Forall attr_ok attrs /\ bytes_ok (attrs_wire attrs) /\ zlen (attrs_wire attrs) + 52 <= MAX_MESSAGE.
Proof.
  intros ([Hl Hr] & Bl & Br) Hs attrs. pose proof (zlen_tiebreaker c) as Ht. split_and!.
  - by apply request_attrs_ok.
  - apply attrs_bytes; [|apply attrs_bytes; [apply to_be_ok|apply attrs_bytes; [by apply tiebreaker_bytes|
      apply attrs_bytes; [apply to_be_ok|constructor]]]].
    apply bytes_app; [done|]. apply bytes_app; [repeat constructor; unfold fits; lia|done].
  - pose proof (zlen_request_attrs _ _ _ Hl Hr Ht). unfold attrs, MAX_MESSAGE. lia.
Qed.

Lemma answer_attrs to tid :
  sock_ok to -> tid_ok tid ->
  let attrs := response_attrs to tid in
  Forall attr_ok attrs /\ bytes_ok (attrs_wire attrs) /\ zlen (attrs_wire attrs) + 52 <= MAX_MESSAGE.
Proof.
  intros Hs [Ht Bt] attrs. split_and!.
  - by apply response_attrs_ok.
  - apply attrs_bytes; [by apply mapped_bytes_ok|constructor].
  - pose proof (zlen_response_attrs to tid Hs Ht). unfold attrs, MAX_MESSAGE. lia.
Qed.

(** An attempt with one candidate and no server, field by field. *)
Definition attempt (cr : Credentials) (seed : list Z) (now : f64) (x : Candidate)
    (pend : option (SocketAddr * TransactionId * option IpAddr)) (state : ConnState)
    (answered : option (SocketAddr * option IpAddr)) (checked : bool) (local : option IpAddr)
    (last : option f64) (counter : Z) : Conn :=
  mkConn cr seed (Some x :: repeat None 15) (repeat None 4) (pend :: repeat None 15) state answered checked false
    local now last false counter.

Lemma told_eq cr seed now peer :
  canonical peer = peer ->
  told cr seed now peer
    = attempt cr seed now (mkCandidate peer Kind_Direct None SentIds_new) None Checking None false None None 0.
Proof. intros E. unfold told, Conn_add_candidate. rewrite E. done. Qed.

Context (out : list Z) (Ho : MAX_BUILT <= zlen out < 2 ^ 63).

(** The candidate is checked: its first check, pacing permitting. *)
Lemma attempt_checks cr seed t0 peer answered checked local last now :
  creds_bytes cr -> match last with Some t => paced t now | None => True end ->
  let x := mkCandidate peer Kind_Direct None SentIds_new in
  let tid := derive_transaction_id seed 0 in
  let c := attempt cr seed t0 x None Checking answered checked local last 0 in
  sends c now out peer local
    (stun_sealed (cr_remote_pwd cr) TYPE_BINDING_REQUEST tid
      (attrs_wire (request_attrs (cr_local_ufrag cr) (cr_remote_ufrag cr) (Conn_tiebreaker c))))
    (attempt cr seed t0 (mkCandidate peer Kind_Direct (Some now) (SentIds_push SentIds_new tid)) None Checking
      answered checked local (Some now) 1).
Proof.
  intros [Hcr _] Hp x tid c.
  assert (f64_gtb (Conn_pace_wait c now) f64_zero = false) as Hpw by (destruct last; done).
  pose proof (send_check c now out 0 x Hpw eq_refl eq_refl eq_refl eq_refl eq_refl Hcr Ho) as H.
  cbn [update_first cn_candidates c attempt] in H. unfold set_field in H.
  cbn [cn_candidates attempt c update_first cd_addr x] in H. rewrite bool_decide_eq_true_2 in H by done. exact H.
Qed.

(** A check that arrives is answered. *)
Lemma attempt_answers cr seed t0 x answered checked local last counter now tid to l :
  match last with Some t => paced t now | None => True end -> sock_ok to -> zlen tid = 12 ->
  forall state,
  sends (attempt cr seed t0 x (Some (to, tid, l)) state answered checked local last counter) now out to l
    (stun_sealed (cr_local_pwd cr) TYPE_BINDING_SUCCESS tid (attrs_wire (response_attrs to tid)))
    (attempt cr seed t0 x None state answered checked local (Some now) counter).
Proof.
  intros Hp Hs Hl state. set (c := attempt cr seed t0 x (Some (to, tid, l)) state answered checked local last counter).
  assert (f64_gtb (Conn_pace_wait c now) f64_zero = false) as Hpw by (destruct last; done).
  exact (send_response c now out to tid l (repeat None 16) Hpw eq_refl Hs Hl Ho).
Qed.
End handshake.

(** C12: two attempts find each other.  Each side is told the other's address
    and holds its half of the credentials; every datagram sent is delivered,
    and pacing is respected.  Then the four datagrams of the exchange are sent
    and believed, in this order, and both sides end with the other's address
    as the path, each keeping the local address it was reached at. *)
Theorem handshake (D : Digests) (L : DigestLaws D) (crA crB : Credentials) (seedA seedB out : list Z)
    (a b : SocketAddr) (la lb : option IpAddr) (t0 t1 t2 t3 : f64) :
  creds_bytes crA -> creds_bytes crB -> mirrored crA crB -> bytes_ok seedA -> bytes_ok seedB ->
  sock_ok a -> sock_ok b -> canonical a = a -> canonical b = b ->
  paced t1 t2 -> paced t0 t3 -> MAX_BUILT <= zlen out < 2 ^ 63 ->
  exists A1 A2 A3 A4 A5 B1 B2 B3 B4 B5 d1 d2 d3 d4,
    A1 = told crA seedA t0 b /\ B1 = told crB seedB t0 a /\
    sends A1 t0 out b None d1 A2 /\ Conn_process_input B1 d1 a lb = (B2, Ok CheckAnswered) /\
    sends B2 t1 out a (canonical_ip <$> lb) d2 B3 /\ Conn_process_input A2 d2 b la = (A3, Ok (Reachable b)) /\
    sends B3 t2 out a None d3 B4 /\ Conn_process_input A3 d3 b la = (A4, Ok (PathEstablished b)) /\
    sends A4 t3 out b (canonical_ip <$> la) d4 A5 /\ Conn_process_input B4 d4 a lb = (B5, Ok (PathEstablished a)) /\
    Conn_path A5 = Some b /\ Conn_path B5 = Some a /\
    cn_local A5 = canonical_ip <$> la /\ cn_local B5 = canonical_ip <$> lb.
Proof.
  intros HA HB [M1 M2] SA SB Ha Hb Ca Cb P12 P03 Ho.
  pose proof (derive_tid_ok seedA 0) as TA. pose proof (derive_tid_ok seedB 0) as TB.
  set (tA := derive_transaction_id seedA 0) in *. set (tB := derive_transaction_id seedB 0) in *.
  set (ca := mkCandidate b Kind_Direct None SentIds_new). set (cb := mkCandidate a Kind_Direct None SentIds_new).
  set (ca' := mkCandidate b Kind_Direct (Some t0) (SentIds_push SentIds_new tA)).
  set (cb' := mkCandidate a Kind_Direct (Some t2) (SentIds_push SentIds_new tB)).
  set (la' := canonical_ip <$> la). set (lb' := canonical_ip <$> lb).
  set (A1 := attempt crA seedA t0 ca None Checking None false None None 0).
  set (B1 := attempt crB seedB t0 cb None Checking None false None None 0).
  destruct (check_attrs crA A1 HA SA) as (QA1 & QA2 & QA3). destruct (check_attrs crB B1 HB SB) as (QB1 & QB2 & QB3).
  destruct (answer_attrs a tA Ha TA) as (RA1 & RA2 & RA3). destruct (answer_attrs b tB Hb TB) as (RB1 & RB2 & RB3).
  set (qA := request_attrs _ _ (Conn_tiebreaker A1)) in *. set (qB := request_attrs _ _ (Conn_tiebreaker B1)) in *.
  exists A1, (attempt crA seedA t0 ca' None Checking None false None (Some t0) 1),
    (attempt crA seedA t0 ca' None Checking (Some (b, la')) false None (Some t0) 1),
    (attempt crA seedA t0 ca' (Some (b, tB, la')) (Established b) (Some (b, la')) true la' (Some t0) 1),
    (attempt crA seedA t0 ca' None (Established b) (Some (b, la')) true la' (Some t3) 1),
    B1, (attempt crB seedB t0 cb (Some (a, tA, lb')) Checking None true None None 0),
    (attempt crB seedB t0 cb None Checking None true None (Some t1) 0),
    (attempt crB seedB t0 cb' None Checking None true None (Some t2) 1),
    (attempt crB seedB t0 cb' None (Established a) (Some (a, lb')) true lb' (Some t2) 1),
    (stun_sealed (cr_remote_pwd crA) TYPE_BINDING_REQUEST tA (attrs_wire qA)),
    (stun_sealed (cr_local_pwd crB) TYPE_BINDING_SUCCESS tA (attrs_wire (response_attrs a tA))),
    (stun_sealed (cr_remote_pwd crB) TYPE_BINDING_REQUEST tB (attrs_wire qB)),
    (stun_sealed (cr_local_pwd crA) TYPE_BINDING_SUCCESS tB (attrs_wire (response_attrs b tB))).
  split; [by rewrite told_eq|]. split; [by rewrite told_eq|].
  split; [by apply (attempt_checks out Ho crA seedA t0 b None false None None t0 HA)|].
  split.
  { rewrite <- M1. change (cr_local_pwd crB) with (cr_local_pwd (cn_credentials B1)).
    rewrite (receive_check B1 a lb tA qA (Some (canonical a, tA, lb') :: repeat None 15)); try done.
    - by rewrite Ca.
    - rewrite Ca. exists cb. split; [by left|done]. }
  split; [by apply attempt_answers; [done|..|apply TA]|].
  set (A2 := attempt crA seedA t0 ca' None Checking None false None (Some t0) 1).
  split.
  { rewrite M1. change (cr_remote_pwd crA) with (cr_remote_pwd (cn_credentials A2)).
    rewrite (receive_answer A2 b la tA (response_attrs a tA)); try done.
    - by rewrite Cb.
    - exists ca'. split; [by left|]. by apply contains_push_same. }
  split; [by apply (attempt_checks out Ho crB seedB t0 a None true None (Some t1) t2 HB)|].
  set (A3 := attempt crA seedA t0 ca' None Checking (Some (b, la')) false None (Some t0) 1).
  split.
  { rewrite M2. change (cr_local_pwd crA) with (cr_local_pwd (cn_credentials A3)).
    rewrite (receive_check A3 b la tB qB (Some (canonical b, tB, la') :: repeat None 15)); try done.
    - by rewrite Cb.
    - rewrite Cb. exists ca'. split; [by left|done]. }
  split; [by apply attempt_answers; [done|..|apply TB]|].
  set (B4 := attempt crB seedB t0 cb' None Checking None true None (Some t2) 1).
  split.
  { rewrite <- M2. change (cr_remote_pwd crB) with (cr_remote_pwd (cn_credentials B4)).
    rewrite (receive_answer B4 a lb tB (response_attrs b tB)); try done.
    - by rewrite Ca.
    - exists cb'. split; [by left|]. by apply contains_push_same. }
  done.
Qed.

Definition sample_credentials : Credentials := mkCredentials [97; 98] [108; 112] [99; 100] [114; 112].
Definition sample_mirror : Credentials := mkCredentials [99; 100] [114; 112] [97; 98] [108; 112].
Definition sample_here : SocketAddr := SockV4 [198; 51; 100; 9] 50000.
Definition sample_seed : list Z := repeat 7 16.

Lemma handshake_witness :
  exists A1 A2 A3 A4 A5 B1 B2 B3 B4 B5 d1 d2 d3 d4,
    A1 = told sample_credentials sample_seed (f64_of_Z 0) sample_peer /\
    B1 = told sample_mirror sample_seed (f64_of_Z 0) sample_here /\
    sends (D := sample_digests) A1 (f64_of_Z 0) (repeat 0 256) sample_peer None d1 A2 /\
    Conn_process_input (D := sample_digests) B1 d1 sample_here None = (B2, Ok CheckAnswered) /\
    sends (D := sample_digests) B2 (f64_of_Z 1) (repeat 0 256) sample_here None d2 B3 /\
    Conn_process_input (D := sample_digests) A2 d2 sample_peer None = (A3, Ok (Reachable sample_peer)) /\
    sends (D := sample_digests) B3 (f64_of_Z 20) (repeat 0 256) sample_here None d3 B4 /\
    Conn_process_input (D := sample_digests) A3 d3 sample_peer None = (A4, Ok (PathEstablished sample_peer)) /\
    sends (D := sample_digests) A4 (f64_of_Z 21) (repeat 0 256) sample_peer None d4 A5 /\
    Conn_process_input (D := sample_digests) B4 d4 sample_here None = (B5, Ok (PathEstablished sample_here)) /\
    Conn_path A5 = Some sample_peer /\ Conn_path B5 = Some sample_here /\ cn_local A5 = None /\ cn_local B5 = None.
Proof.
  apply (handshake sample_digests sample_laws sample_credentials sample_mirror sample_seed sample_seed (repeat 0 256)
    sample_here sample_peer None None (f64_of_Z 0) (f64_of_Z 1) (f64_of_Z 20) (f64_of_Z 21)).
  1,2: split_and!; [split|..]; (by vm_compute) || (repeat constructor; unfold fits; lia).
  1: by split.
  1,2: repeat constructor; unfold fits; lia.
  1,2: cbn; split_and!; [done|repeat constructor; unfold fits; lia|unfold fits; lia].
  all: by vm_compute.
Defined.

(** C3: a path is proven in both directions.  However an attempt is driven,
    if it has chosen a path, then some datagram arrived from that very address
    that is an answer sealed with the peer's password to a check this attempt
    had sent before, the local address kept is the one that answer arrived at,
    and the peer has sent a check sealed with ours; and whatever happens next,
    the path and the local address never change. *)
Theorem path_proven (D : Digests) (L : DigestLaws D) (cr : Credentials) (seed : list Z) (now : f64)
    (tr : list conn_event) (c : Conn) (addr : SocketAddr) :
  creds_ok cr -> conn_run (Conn_new cr seed now) tr c -> cn_state c = Established addr ->
  answered_from cr tr addr (cn_local c) /\ checked_by_peer cr tr /\
  forall tr' c', conn_run c tr' c' -> cn_state c' = Established addr /\ cn_local c' = cn_local c.
Proof.
  intros Hcr Hr Hs. pose proof (inv_run cr tr _ _ (conn_inv_new cr seed now) Hcr Hr) as Hi.
  destruct (ci_established _ _ _ Hi addr Hs) as [Hc Ha]. split_and!.
  - by apply (ci_answered _ _ _ Hi).
  - by apply (ci_checked _ _ _ Hi).
  - intros tr' c' Hr'. induction Hr' as [|tr' c1 ev c2 _ IH Hst]; [done|]. destruct IH as [I1 I2].
    destruct (step_final _ _ _ Hst) as [-> ->]; [by rewrite I1|done].
Qed.

(** One side of such an exchange, computed. *)
Definition sample_start : Conn := Conn_new sample_credentials sample_seed (f64_of_Z 0).
Definition sample_told : Conn := (Conn_add_candidate sample_start sample_peer Kind_Direct).1.
Definition sample_sent : Conn := (Conn_get_output (D := sample_digests) sample_told (f64_of_Z 0) (repeat 0 256)).1.1.
Definition sample_id : list Z := derive_transaction_id (D := sample_digests) sample_seed 0.
Definition sample_answer : list Z := stun_sealed (D := sample_digests) [114; 112] TYPE_BINDING_SUCCESS sample_id [].
Definition sample_check : list Z := stun_sealed (D := sample_digests) [108; 112] TYPE_BINDING_REQUEST sample_id [].
Definition sample_reached : Conn := (Conn_process_input (D := sample_digests) sample_sent sample_answer sample_peer None).1.
Definition sample_found : Conn := (Conn_process_input (D := sample_digests) sample_reached sample_check sample_peer None).1.

Lemma path_proven_witness :
  exists tr, answered_from (D := sample_digests) sample_credentials tr sample_peer None /\
    checked_by_peer (D := sample_digests) sample_credentials tr.
Proof.
  assert (bytes_ok sample_answer /\ bytes_ok sample_check) as [Ba Bc]
    by (split; vm_compute; repeat constructor; discriminate).
  assert (conn_run (D := sample_digests) sample_start [] sample_start) as R0 by constructor.
  pose proof (run_step _ _ _ _ _ R0 (step_candidate sample_start sample_peer Kind_Direct)) as R1.
  change (Conn_add_candidate sample_start sample_peer Kind_Direct).1 with sample_told in R1.
  set (r := Conn_get_output (D := sample_digests) sample_told (f64_of_Z 0) (repeat 0 256)).
  assert (exists e out', r = (sample_sent, out', Some (Ok e))) as (e & out' & Ee) by (eexists _, _; vm_compute; reflexivity).
  assert (MAX_BUILT <= zlen (repeat 0 256) < 2 ^ 63) as Hz by (split; [vm_compute; discriminate|vm_compute; reflexivity]).
  assert (conn_step (D := sample_digests) sample_told [Ev_out e (take (Z.to_nat (eg_len e)) out')] sample_sent) as S2.
  { exact (step_output sample_told (f64_of_Z 0) (repeat 0 256) sample_sent out' e Hz Ee). }
  pose proof (run_step _ _ _ _ _ R1 S2) as R2.
  pose proof (run_step _ _ _ _ _ R2 (step_input sample_sent sample_answer sample_peer None Ba)) as R3.
  fold sample_reached in R3.
  pose proof (run_step _ _ _ _ _ R3 (step_input sample_reached sample_check sample_peer None Bc)) as R4.
  fold sample_found in R4. unfold sample_start in R4.
  assert (creds_ok sample_credentials) as Hc by (split; vm_compute; discriminate).
  assert (cn_state sample_found = Established sample_peer) as Hs by (vm_compute; reflexivity).
  assert (cn_local sample_found = None) as Hl by (vm_compute; reflexivity).
  destruct (path_proven sample_digests sample_laws _ _ _ _ _ _ Hc R4 Hs) as (H1 & H2 & _).
  rewrite Hl in H1. eexists. split; [exact H1|exact H2].
Defined.
