(* ===== verification/NatProbe.v ===== *)
(** The translation in front of a socket (crates/core/src/nat.rs): what the
    answers of reflexive servers say of it, and the probe that asks them. *)

From Stdlib Require Import SpecFloat.
From S2P Require Import Prelude CoreError Float64 Effect Net Slots Stun StunFacts StunSpec Conn.

(** [nat::Mapping]. *)
Inductive Mapping :=
  | Mapping_NoAnswer
  | Mapping_Unknown
  | Mapping_None
  | Mapping_Independent
  | Mapping_Dependent
  | Mapping_AddressDependent
  | Mapping_AddressAndPortDependent.

#[global] Instance Mapping_eq_dec : EqDecision Mapping.
Proof. solve_decision. Defined.

Record Verdict := mkVerdict {
  vd_mapping : Mapping;
  vd_public : option SocketAddr;
  vd_port_preserved : bool;
}.

(** [nat::v4]. *)
Definition nat_v4 (answer : Answer) : option Answer :=
  let server := canonical (an_server answer) in
  let mapped := canonical (an_mapped answer) in
  if is_ipv4 server && is_ipv4 mapped then Some (mkAnswer server mapped) else None.

(** The pairs of answers from two ports of one address: whether the two saw one
    public port. *)
Definition port_pairs (heard : list Answer) : list bool :=
  a ← heard;
  map (fun b => bool_decide (an_mapped a = an_mapped b))
    (List.filter (fun b => bool_decide (sock_ip (an_server b) = sock_ip (an_server a))
                           && negb (sock_port (an_server b) =? sock_port (an_server a))) heard).

(** [nat::classify]. *)
Definition nat_classify (local : option SocketAddr) (answers : list Answer) : Verdict :=
  let heard := omap nat_v4 answers in
  match heard with
  | [] => mkVerdict Mapping_NoAnswer None false
  | first :: _ =>
      let public := an_mapped first in
      let local := canonical <$> local in
      let verdict mapping :=
        mkVerdict mapping (Some public)
          (match local with Some l => sock_port l =? sock_port public | None => false end) in
      if bool_decide (local = Some public) then verdict Mapping_None
      else if negb (existsb (fun a => negb (bool_decide (sock_ip (an_server a) = sock_ip (an_server first)))) heard)
      then verdict Mapping_Unknown
      else if forallb (fun a => bool_decide (an_mapped a = public)) heard then verdict Mapping_Independent
      else
      match port_pairs heard with
      | [] => verdict Mapping_Dependent
      | same :: pairs =>
          if same && forallb id pairs then verdict Mapping_AddressDependent
          else verdict Mapping_AddressAndPortDependent
      end
  end.

(** [nat::number]. *)
Definition nat_number (mapping : Mapping) (confirmed : bool) : option Z :=
  match mapping with
  | Mapping_None => Some 1
  | _ =>
      if confirmed then Some 2
      else match mapping with
      | Mapping_Independent => Some 2
      | Mapping_Dependent | Mapping_AddressDependent | Mapping_AddressAndPortDependent
      | Mapping_NoAnswer => Some 3
      | _ => None
      end
  end.

(** ** The probe *)

Record Asked := mkAsked {
  ak_addr : SocketAddr;
  ak_last_ms : option f64;
  ak_sent : SentIds;
  ak_mapped : option SocketAddr;
}.

#[export] Instance Asked_eta : Eta Asked := fun a => mkAsked (ak_addr a) (ak_last_ms a) (ak_sent a) (ak_mapped a).

Record Probe := mkProbe {
  pb_seed : list Z;
  pb_counter : Z;
  pb_servers : list (option Asked);
  pb_last_sent_ms : option f64;
}.

#[export] Instance Probe_eta : Eta Probe := fun p =>
  mkProbe (pb_seed p) (pb_counter p) (pb_servers p) (pb_last_sent_ms p).

Definition Probe_new (seed : list Z) : Probe := mkProbe seed 0 (repeat None (Z.to_nat MAX_SERVERS)) None.

Definition Probe_add_server (p : Probe) (addr : SocketAddr) : Probe * result unit :=
  let addr := canonical addr in
  if existsb (fun s => bool_decide (ak_addr s = addr)) (flatten (pb_servers p)) then (p, Ok ())
  else
  match fill_first (pb_servers p) (mkAsked addr None SentIds_new None) with
  | None => (p, Err Oversized)
  | Some slots => (p <| pb_servers := slots |>, Ok ())
  end.

Definition Probe_asked (p : Probe) : Z := zlen (flatten (pb_servers p)).

Definition is_some {A} (o : option A) : bool := match o with Some _ => true | None => false end.

Definition Probe_done (p : Probe) : bool := forallb (fun s => is_some (ak_mapped s)) (flatten (pb_servers p)).

Definition Probe_answers (p : Probe) : list Answer :=
  omap (fun s => mapped ← ak_mapped s; Some (mkAnswer (ak_addr s) mapped)) (flatten (pb_servers p)).

Definition Probe_next_timer_ms (p : Probe) (now_ms : f64) : f64 :=
  let pace := match pb_last_sent_ms p with
              | Some last => f64_max (f64_sub (f64_add last PACING_MS) now_ms) f64_zero
              | None => f64_zero
              end in
  foldl f64_min (S754_infinity false)
    (map (fun s => match ak_last_ms s with
                   | Some last => f64_max (f64_sub (f64_add last CHECK_CADENCE_MS) now_ms) pace
                   | None => pace
                   end)
       (List.filter (fun s => negb (is_some (ak_mapped s))) (flatten (pb_servers p)))).

Section probe.
  Context `{D : Digests}.

Definition Probe_get_output (p : Probe) (now_ms : f64) (out : list Z) :
    Probe * list Z * option (result (SocketAddr * Z)) :=
  if match pb_last_sent_ms p with
     | Some last => f64_ltb (f64_sub now_ms last) PACING_MS
     | None => false
     end then (p, out, None)
  else
  match position (fun s => negb (is_some (ak_mapped s)) && ready (ak_last_ms s) now_ms) (pb_servers p) with
  | None => (p, out, None)
  | Some (index, server) =>
      let tid := derive_transaction_id (pb_seed p) (pb_counter p) in
      match encode_reflexive_request tid out with
      | (out, Err error) => (p, out, Some (Err error))
      | (out, Ok len) =>
          let p := p <| pb_servers ::= update_at index (fun s =>
                          s <| ak_last_ms := Some now_ms |> <| ak_sent ::= fun i => SentIds_push i tid |>) |>
                     <| pb_counter := wadd 32 (pb_counter p) 1 |>
                     <| pb_last_sent_ms := Some now_ms |> in
          (p, out, Some (Ok (ak_addr server, len)))
      end
  end.
End probe.

Definition Probe_process_input (p : Probe) (datagram : list Z) (from : SocketAddr) : Probe * result unit :=
  let from := canonical from in
  match StunMessage_parse datagram with
  | Err e => (p, Err e)
  | Ok message =>
      if negb (bool_decide (sm_method message = BindingSuccess)) then (p, Err Malformed)
      else
      let tid := sm_tid message in
      let expected s := bool_decide (ak_addr s = from) && SentIds_contains (ak_sent s) tid in
      if negb (existsb expected (flatten (pb_servers p))) then (p, Err Decrypt)
      else
      match StunMessage_mapped_address message with
      | None => (p, Err Malformed)
      | Some mapped =>
          (p <| pb_servers ::= update_first expected (fun s => s <| ak_mapped := Some mapped |>) |>, Ok ())
      end
  end.

(** ** The verdict, against the translator *)

(** A translator puts the socket at [f server] for that server. *)
Definition heard_by (f : SocketAddr -> SocketAddr) (servers : list SocketAddr) : list Answer :=
  map (fun s => mkAnswer s (f s)) servers.

(** How translators map (RFC 4787). *)
Definition endpoint_independent (f : SocketAddr -> SocketAddr) : Prop := forall s t, f s = f t.
Definition address_dependent (f : SocketAddr -> SocketAddr) : Prop :=
  forall s t, f s = f t <-> sock_ip s = sock_ip t.
Definition address_and_port_dependent (f : SocketAddr -> SocketAddr) : Prop :=
  forall s t, f s = f t <-> (sock_ip s = sock_ip t /\ sock_port s = sock_port t).

(** Two ports of one server address were asked. *)
Definition two_ports (servers : list SocketAddr) : Prop :=
  exists s t, s ∈ servers /\ t ∈ servers /\ sock_ip s = sock_ip t /\ sock_port s <> sock_port t.

Lemma heard_v4 f servers :
  Forall (fun s => is_ipv4 s = true) servers -> (forall s, is_ipv4 (f s) = true) ->
  omap nat_v4 (heard_by f servers) = heard_by f servers.
Proof.
  assert (forall a, is_ipv4 a = true -> canonical a = a) as Hc by (by intros []).
  intros Hs Hf. induction Hs as [|s l Hs _ IH]; [done|]. cbn [heard_by map]. unfold nat_v4 at 1. cbn [omap list_omap].
  cbn [an_server an_mapped]. rewrite !Hc by done. rewrite Hs, Hf. cbn [andb]. f_equal. exact IH.
Qed.

Lemma port_pairs_heard f servers b :
  b ∈ port_pairs (heard_by f servers) <->
  exists s t, s ∈ servers /\ t ∈ servers /\ sock_ip s = sock_ip t /\ sock_port s <> sock_port t /\
    b = bool_decide (f s = f t).
Proof.
  unfold port_pairs, heard_by. rewrite list_elem_of_bind. split.
  - intros (a & Hb & Ha). apply list_elem_of_fmap in Ha as (s & -> & Hs).
    apply list_elem_of_In, in_map_iff in Hb as (y & <- & Hy). apply filter_In in Hy as [Hy Hp].
    apply list_elem_of_In, list_elem_of_fmap in Hy as (t & -> & Ht). cbn [an_server an_mapped] in *.
    apply andb_true_iff in Hp as [Hi Hn]. apply bool_decide_eq_true in Hi. apply negb_true_iff, Z.eqb_neq in Hn.
    exists s, t. split_and!; done.
  - intros (s & t & Hs & Ht & Hi & Hn & ->). exists (mkAnswer s (f s)). split.
    + apply list_elem_of_In, in_map_iff. exists (mkAnswer t (f t)). split; [done|]. apply filter_In.
      split; [by apply list_elem_of_In, list_elem_of_fmap; eauto|]. cbn [an_server].
      apply andb_true_iff. split; [by apply bool_decide_eq_true|]. apply negb_true_iff, Z.eqb_neq. congruence.
    + apply list_elem_of_fmap. eauto.
Qed.

Lemma forallb_elem (l : list bool) : forallb id l = true <-> forall b, b ∈ l -> b = true.
Proof. rewrite forallb_forall. split; intros H b Hb; apply H; by apply list_elem_of_In. Qed.

Lemma existsb_heard f (p : SocketAddr -> bool) l : existsb (fun a => p (an_server a)) (heard_by f l) = existsb p l.
Proof. induction l as [|x l IH]; [done|]. cbn [heard_by map existsb an_server]. f_equal. exact IH. Qed.

Lemma forallb_heard f (p : SocketAddr -> bool) l :
  forallb (fun a => p (an_mapped a)) (heard_by f l) = forallb (fun s => p (f s)) l.
Proof. induction l as [|x l IH]; [done|]. cbn [heard_by map forallb an_mapped]. f_equal. exact IH. Qed.

(** The verdict on answers that were heard whole. *)
Lemma classify_heard f s0 rest local :
  let servers := s0 :: rest in
  Forall (fun s => is_ipv4 s = true) servers -> (forall s, is_ipv4 (f s) = true) ->
  let v := nat_classify local (heard_by f servers) in
  vd_public v = Some (f s0) /\
  vd_mapping v =
    if decide (canonical <$> local = Some (f s0)) then Mapping_None
    else if negb (existsb (fun s => negb (bool_decide (sock_ip s = sock_ip s0))) servers) then Mapping_Unknown
    else if forallb (fun s => bool_decide (f s = f s0)) servers then Mapping_Independent
    else match port_pairs (heard_by f servers) with
         | [] => Mapping_Dependent
         | same :: pairs => if same && forallb id pairs then Mapping_AddressDependent else Mapping_AddressAndPortDependent
         end.
Proof.
  intros servers Hs Hf v. unfold v, nat_classify. rewrite heard_v4 by done.
  assert (heard_by f servers = mkAnswer s0 (f s0) :: heard_by f rest) as Eh by done.
  rewrite Eh. cbv iota zeta beta. rewrite <- Eh. cbn [an_mapped an_server].
  match goal with |- context [existsb ?p (heard_by f servers)] =>
    replace (existsb p (heard_by f servers)) with (existsb (fun s => negb (bool_decide (sock_ip s = sock_ip s0))) servers)
      by (symmetry; exact (existsb_heard f (fun s => negb (bool_decide (sock_ip s = sock_ip s0))) servers)) end.
  match goal with |- context [forallb ?p (heard_by f servers)] =>
    replace (forallb p (heard_by f servers)) with (forallb (fun s => bool_decide (f s = f s0)) servers)
      by (symmetry; exact (forallb_heard f (fun m => bool_decide (m = f s0)) servers)) end.
  case_decide as Hl; [by rewrite bool_decide_eq_true_2|]. rewrite bool_decide_eq_false_2 by done.
  destruct (negb _); [done|]. destruct (forallb _ _); [done|].
  destruct (port_pairs _) as [|same pairs]; [done|]. by destruct (same && _).
Qed.

(** The verdict names the translator.  Where IPv4 servers answered, in the
    order they were asked, with the places a translator [f] put the socket at,
    the verdict carries the first place seen; it says nothing translates
    exactly when that is the socket's own address, cannot tell with servers at
    one address only, and otherwise is right about an endpoint-independent, an
    address-dependent and an address-and-port-dependent translator, as far as
    the ports asked can distinguish the last two; the console's number follows. *)
Theorem classify_correct (f : SocketAddr -> SocketAddr) (s0 : SocketAddr) (rest : list SocketAddr)
    (local : option SocketAddr) :
  let servers := s0 :: rest in
  Forall (fun s => is_ipv4 s = true) servers -> (forall s, is_ipv4 (f s) = true) ->
  let v := nat_classify local (heard_by f servers) in
  vd_public v = Some (f s0) /\
  (vd_mapping v = Mapping_None <-> canonical <$> local = Some (f s0)) /\
  (canonical <$> local <> Some (f s0) ->
   (Forall (fun s => sock_ip s = sock_ip s0) servers -> vd_mapping v = Mapping_Unknown) /\
   ((exists t, t ∈ servers /\ sock_ip t <> sock_ip s0) ->
    (endpoint_independent f -> vd_mapping v = Mapping_Independent /\ nat_number (vd_mapping v) false = Some 2) /\
    (address_dependent f -> nat_number (vd_mapping v) false = Some 3 /\
       (two_ports servers -> vd_mapping v = Mapping_AddressDependent) /\
       (~ two_ports servers -> vd_mapping v = Mapping_Dependent)) /\
    (address_and_port_dependent f -> nat_number (vd_mapping v) false = Some 3 /\
       (two_ports servers -> vd_mapping v = Mapping_AddressAndPortDependent) /\
       (~ two_ports servers -> vd_mapping v = Mapping_Dependent)))).
Proof.
  intros servers Hs Hf v. destruct (classify_heard f s0 rest local Hs Hf) as [Hp Hm]. fold servers in Hp, Hm. fold v in Hp, Hm.
  split; [done|]. split.
  { rewrite Hm. case_decide; [done|]. split; [|done].
    destruct (negb _); [done|]. destruct (forallb _ _); [done|].
    destruct (port_pairs _) as [|b l]; [done|]. by destruct (b && _). }
  intros Hl. rewrite decide_False in Hm by done. split.
  { intros Hall. rewrite Hm. replace (existsb _ servers) with false; [done|].
    symmetry. apply not_true_is_false. rewrite existsb_exists. intros (s & Hin & Hs').
    apply negb_true_iff, bool_decide_eq_false in Hs'. apply Hs'. rewrite Forall_forall in Hall. first [exact (Hall s Hin)|exact (Hall s (proj2 (list_elem_of_In _ _) Hin))]. }
  intros (t & Ht & Hn).
  assert (existsb (fun s => negb (bool_decide (sock_ip s = sock_ip s0))) servers = true) as Ex.
  { apply existsb_exists. exists t. split; [by apply list_elem_of_In|]. by rewrite bool_decide_eq_false_2. }
  rewrite Ex in Hm. cbn [negb] in Hm.
  assert (f t <> f s0 -> forallb (fun s => bool_decide (f s = f s0)) servers = false) as Hdep.
  { intros Hne. apply not_true_is_false. rewrite forallb_forall. intros H.
    apply Hne. exact (proj1 (bool_decide_eq_true _) (H t (proj1 (list_elem_of_In _ _) Ht))). }
  assert (s0 ∈ servers) as H0 by (by left). split_and!.
  - intros Hi. assert (vd_mapping v = Mapping_Independent) as ->; [|done]. rewrite Hm.
    replace (forallb _ servers) with true; [done|]. symmetry. apply forallb_forall. intros s _.
    apply bool_decide_eq_true. apply Hi.
  - intros Ha. rewrite Hdep in Hm by (rewrite (Ha t s0); done).
    assert (forall b, b ∈ port_pairs (heard_by f servers) -> b = true) as Hb.
    { intros b (s & t' & _ & _ & Hi & _ & ->)%port_pairs_heard. apply bool_decide_eq_true. by apply Ha. }
    destruct (port_pairs (heard_by f servers)) as [|b l] eqn:Ep.
    + rewrite Hm. split_and!; [done| |done]. intros (s & u & Hs' & Hu & Hi & Hpn).
      assert (bool_decide (f s = f u) ∈ port_pairs (heard_by f servers)) as Hin by (apply port_pairs_heard; eauto 10).
      rewrite Ep in Hin. by apply not_elem_of_nil in Hin.
    + rewrite (Hb b ltac:(by left)) in Hm. replace (forallb id l) with true in Hm.
      2: { symmetry. apply forallb_elem. intros b' Hb'. apply Hb. by right. }
      rewrite Hm. split_and!; [done|done|]. intros Hno. exfalso. apply Hno.
      assert (b ∈ port_pairs (heard_by f servers)) as Hin by (rewrite Ep; by left).
      apply port_pairs_heard in Hin as (s & u & ? & ? & ? & ? & _). by exists s, u.
  - intros Ha. rewrite Hdep in Hm by (rewrite (Ha t s0); naive_solver).
    assert (forall b, b ∈ port_pairs (heard_by f servers) -> b = false) as Hb.
    { intros b (s & t' & _ & _ & Hi & Hpn & ->)%port_pairs_heard. apply bool_decide_eq_false. rewrite (Ha s t'). naive_solver. }
    destruct (port_pairs (heard_by f servers)) as [|b l] eqn:Ep.
    + rewrite Hm. split_and!; [done| |done]. intros (s & u & Hs' & Hu & Hi & Hpn).
      assert (bool_decide (f s = f u) ∈ port_pairs (heard_by f servers)) as Hin by (apply port_pairs_heard; eauto 10).
      rewrite Ep in Hin. by apply not_elem_of_nil in Hin.
    + rewrite (Hb b ltac:(by left)) in Hm. cbn [andb] in Hm. rewrite Hm. split_and!; [done|done|].
      intros Hno. exfalso. apply Hno.
      assert (b ∈ port_pairs (heard_by f servers)) as Hin by (rewrite Ep; by left).
      apply port_pairs_heard in Hin as (s & u & ? & ? & ? & ? & _). by exists s, u.
Qed.

Lemma classify_correct_witness :
  vd_mapping (nat_classify None (heard_by (fun _ => sample_peer)
    [SockV4 [1; 1; 1; 1] 3478; SockV4 [1; 1; 1; 1] 3479; SockV4 [2; 2; 2; 2] 3478])) = Mapping_Independent.
Proof.
  refine (proj1 (proj1 (proj2 (proj2 (proj2 (classify_correct (fun _ => sample_peer) (SockV4 [1; 1; 1; 1] 3478)
    [SockV4 [1; 1; 1; 1] 3479; SockV4 [2; 2; 2; 2] 3478] None _ _)) _) _) _)).
  - repeat constructor.
  - done.
  - done.
  - exists (SockV4 [2; 2; 2; 2] 3478). split; [by right; right; left|done].
  - done.
Defined.

(** A probe believes only its own servers.  A datagram is admitted exactly
    when it is a well-formed answer from a server this probe asked, under an
    identifier the probe sent to that server, with an address in it; then that
    server's record alone takes the address; anything else is refused and
    changes nothing. *)
Theorem probe_admits (p p' : Probe) (d : list Z) (from : SocketAddr) (res : result unit) :
  Probe_process_input p d from = (p', res) ->
  (res = Ok () <-> exists m s mapped, StunMessage_parse d = Ok m /\ sm_method m = BindingSuccess /\
     s ∈ flatten (pb_servers p) /\ ak_addr s = canonical from /\ SentIds_contains (ak_sent s) (sm_tid m) = true /\
     StunMessage_mapped_address m = Some mapped) /\
  (res <> Ok () -> p' = p) /\
  (res = Ok () -> exists m mapped before s after, StunMessage_parse d = Ok m /\
     StunMessage_mapped_address m = Some mapped /\
     flatten (pb_servers p) = before ++ s :: after /\ ak_addr s = canonical from /\
     flatten (pb_servers p') = before ++ (s <| ak_mapped := Some mapped |>) :: after).
Proof.
  unfold Probe_process_input. destruct (StunMessage_parse d) as [m|e].
  2: { intros [= <- <-]. split_and!; [split; [done|]|done|done]. by intros (? & ? & ? & ? & _). }
  case_bool_decide as Hm; cbn [negb].
  2: { intros [= <- <-]. split_and!; [split; [done|]|done|done]. intros (? & ? & ? & [= <-] & ? & _). done. }
  set (expected := fun s : Asked => _).
  assert (forall s, expected s = true <-> ak_addr s = canonical from /\ SentIds_contains (ak_sent s) (sm_tid m) = true) as He.
  { intros s. unfold expected. by rewrite andb_true_iff, bool_decide_eq_true. }
  destruct (existsb expected _) eqn:Ex; cbn [negb].
  2: { intros [= <- <-]. split_and!; [split; [done|]|done|done].
       intros (m' & s & ? & [= <-] & _ & Hs & Ha & Hc & _). assert (existsb expected (flatten (pb_servers p)) = true); [|congruence].
       apply existsb_exists. exists s. split; [by apply list_elem_of_In|by apply He]. }
  apply existsb_exists in Ex as (s & Hs & Es). apply list_elem_of_In in Hs. apply He in Es as [Ea Ec].
  destruct (StunMessage_mapped_address m) as [mapped|] eqn:Emap.
  2: { intros [= <- <-]. split_and!; [split; [done|]|done|done]. intros (m' & ? & ? & [= <-] & _ & _ & _ & _ & ?). congruence. }
  intros [= <- <-]. split_and!; [split; [|done]|done|].
  - intros _. by exists m, s, mapped.
  - intros _. cbn. set (f := fun s : Asked => _).
    destruct (update_first_flatten expected f (pb_servers p)) as [(l1 & x & l2 & E1 & Hx & _ & E2)|[Hall _]].
    + exists m, mapped, l1, x, l2. split_and!; try done. by apply He.
    + rewrite Forall_forall in Hall. specialize (Hall s ltac:(first [done|by apply list_elem_of_In])).
      assert (expected s = true) by (by apply He). congruence.
Qed.

(** A probe that asked one server, and that server's answer. *)
Definition sample_probe : Probe :=
  (Probe_get_output (D := sample_digests) (Probe_add_server (Probe_new (repeat 7 16)) sample_peer).1 f64_zero (repeat 0 64)).1.1.
Definition sample_reflexive : list Z :=
  let tid := derive_transaction_id (D := sample_digests) (repeat 7 16) 0 in
  let body := attrs_wire (response_attrs (SockV4 [203; 0; 113; 5] 6000) tid) in
  stun_head TYPE_BINDING_SUCCESS (zlen body) tid ++ body.

Lemma probe_admits_witness :
  (Probe_process_input sample_probe sample_reflexive sample_peer).2 = Ok () /\
  exists m mapped, StunMessage_parse sample_reflexive = Ok m /\ StunMessage_mapped_address m = Some mapped.
Proof.
  destruct (Probe_process_input sample_probe sample_reflexive sample_peer) as [p' res] eqn:E.
  assert (res = Ok ()) as Hr by (change res with (p', res).2; rewrite <- E; vm_compute; reflexivity).
  split; [done|].
  destruct (proj2 (proj2 (probe_admits sample_probe p' sample_reflexive sample_peer res E)) Hr) as (m & mapped & _ & _ & _ & H1 & H2 & _).
  by exists m, mapped.
Defined.
