(* ===== verification/Turn.v ===== *)
(** The relay codec (crates/core/src/turn.rs): requests, answers, and the two
    framings a datagram to or from a peer travels in. *)

From S2P Require Import Prelude CoreError Effect Net Stun.

Definition CHANNEL_HEADER_LEN : Z := 4.
Definition FIRST_CHANNEL : Z := 0x4000.
Definition LAST_CHANNEL : Z := 0x4FFF.
Definition MAX_REALM : Z := 128.
Definition MAX_NONCE : Z := 128.
Definition UNAUTHORIZED : Z := 401.
Definition STALE_NONCE : Z := 438.
Definition NO_CODE : Z := 0.
Definition TRANSPORT_UDP : Z := 17.

Definition METHOD_ALLOCATE : Z := 0x0003.
Definition METHOD_REFRESH : Z := 0x0004.
Definition METHOD_SEND : Z := 0x0006.
Definition METHOD_DATA : Z := 0x0007.
Definition METHOD_CREATE_PERMISSION : Z := 0x0008.
Definition METHOD_CHANNEL_BIND : Z := 0x0009.

Definition CLASS_MASK : Z := 0x0110.
Definition CLASS_REQUEST : Z := 0x0000.
Definition CLASS_INDICATION : Z := 0x0010.
Definition CLASS_SUCCESS : Z := 0x0100.
Definition CLASS_ERROR : Z := 0x0110.

Definition ATTR_ERROR_CODE : Z := 0x0009.
Definition ATTR_CHANNEL_NUMBER : Z := 0x000C.
Definition ATTR_LIFETIME : Z := 0x000D.
Definition ATTR_XOR_PEER_ADDRESS : Z := 0x0012.
Definition ATTR_DATA : Z := 0x0013.
Definition ATTR_REALM : Z := 0x0014.
Definition ATTR_NONCE : Z := 0x0015.
Definition ATTR_XOR_RELAYED_ADDRESS : Z := 0x0016.
Definition ATTR_REQUESTED_TRANSPORT : Z := 0x0019.

Definition DIGEST_LEN : Z := 20.

(** [Key]: sixteen bytes. *)
Definition Key : Type := list Z.

Definition Key_long_term `{Digests} (username realm password : list Z) : Key :=
  Md5_digest (username ++ [58] ++ realm ++ [58] ++ password).

Record Auth := mkAuth {
  au_username : list Z;
  au_realm : list Z;
  au_nonce : list Z;
  au_key : Key;
}.

(** ** [Builder]: the same three fields as the check codec's writer *)

Definition Builder : Type := Writer.

Definition Builder_put (bytes : list Z) : eff Builder unit := Writer_put bytes.

(** The header [Builder::new] writes. *)
Definition Builder_start (kind : Z) (tid : TransactionId) : eff Builder unit :=
  _ ← Builder_put (to_be 2 kind);
  _ ← Builder_put (to_be 2 0);
  _ ← Builder_put (to_be 4 MAGIC_COOKIE);
  Builder_put tid.

Definition Builder_skip (len : Z) : eff Builder unit := fun w =>
  match checked_add USIZE (wr_at w) len with
  | None => (w, Err Oversized)
  | Some end_ =>
      if zlen (wr_buf w) <? end_ then (w, Err BufferTooSmall)
      else (w <| wr_at := end_ |>, Ok ())
  end.

Definition Builder_attribute_header (kind len : Z) : eff Builder unit :=
  len ← lift (ok_or (try_from 16 len) Oversized);
  _ ← Builder_put (to_be 2 kind);
  Builder_put (to_be 2 len).

Definition Builder_pad (len : Z) : eff Builder unit :=
  zeros ← lift (ok_or (get_range [0; 0; 0] 0 (pad_len len)) Malformed);
  Builder_put zeros.

Definition Builder_attribute (kind : Z) (value : list Z) : eff Builder unit :=
  _ ← Builder_attribute_header kind (zlen value);
  _ ← Builder_put value;
  Builder_pad (zlen value).

Definition Builder_address (kind : Z) (addr : SocketAddr) : eff Builder unit :=
  w ← ask;
  value ← lift (mapped_value addr (wr_tid w));
  Builder_attribute kind value.

Definition Builder_finish : eff Builder Z :=
  w ← ask;
  len ← lift (ok_or (try_from 16 (wr_at w - STUN_HEADER_LEN)) Oversized);
  _ ← on_wr_buf (put_be16 2 len);
  mret (wr_at w).

(** [Builder::new(out, kind, tid)], then the rest, on the caller's buffer. *)
Definition built {A} (kind : Z) (tid : TransactionId) (m : eff Builder A) : eff (list Z) A := fun out =>
  let '(w, res) := (_ ← Builder_start kind tid; m) (mkWriter out 0 tid) in (wr_buf w, res).

Section digests.
  Context `{D : Digests}.

Definition Builder_seal (auth : Auth) : eff Builder Z :=
  _ ← Builder_attribute ATTR_USERNAME (au_username auth);
  _ ← Builder_attribute ATTR_NONCE (au_nonce auth);
  _ ← Builder_attribute ATTR_REALM (au_realm auth);
  w ← ask;
  let at_ := wr_at w in
  _ ← Builder_attribute_header ATTR_MESSAGE_INTEGRITY DIGEST_LEN;
  w ← ask;
  mac ← lift (integrity_of (wr_buf w) at_ (au_key auth));
  _ ← Builder_put mac;
  Builder_finish.

(** ** Requests *)

Definition encode_allocate (tid : TransactionId) (lifetime_s : Z) (auth : option Auth) : eff (list Z) Z :=
  built (Z.lor METHOD_ALLOCATE CLASS_REQUEST) tid (
  _ ← Builder_attribute ATTR_REQUESTED_TRANSPORT [TRANSPORT_UDP; 0; 0; 0];
  _ ← Builder_attribute ATTR_LIFETIME (to_be 4 lifetime_s);
  match auth with
  | Some auth => Builder_seal auth
  | None => Builder_finish
  end).

Definition encode_refresh (tid : TransactionId) (lifetime_s : Z) (auth : Auth) : eff (list Z) Z :=
  built (Z.lor METHOD_REFRESH CLASS_REQUEST) tid (
  _ ← Builder_attribute ATTR_LIFETIME (to_be 4 lifetime_s);
  Builder_seal auth).

Definition encode_create_permission (tid : TransactionId) (peer : IpAddr) (auth : Auth) : eff (list Z) Z :=
  built (Z.lor METHOD_CREATE_PERMISSION CLASS_REQUEST) tid (
  _ ← Builder_address ATTR_XOR_PEER_ADDRESS (SocketAddr_new peer 0);
  Builder_seal auth).

Definition check_channel (channel : Z) : result unit :=
  if (FIRST_CHANNEL <=? channel) && (channel <=? LAST_CHANNEL) then Ok () else Err Malformed.

Definition encode_channel_bind (tid : TransactionId) (channel : Z) (peer : SocketAddr) (auth : Auth) : eff (list Z) Z :=
  _ ← lift (check_channel channel);
  built (Z.lor METHOD_CHANNEL_BIND CLASS_REQUEST) tid (
  _ ← Builder_attribute ATTR_CHANNEL_NUMBER (to_be 2 channel ++ [0; 0]);
  _ ← Builder_address ATTR_XOR_PEER_ADDRESS peer;
  Builder_seal auth).
End digests.

(** ** Framing toward a peer *)

Definition INDICATION_HEADER_V4 : Z := STUN_HEADER_LEN + 4 + 8 + 4.

Definition indication_header_len (peer : SocketAddr) : Z :=
  match canonical peer with
  | SockV4 _ _ => INDICATION_HEADER_V4
  | SockV6 _ _ _ _ => INDICATION_HEADER_V4 + 12
  end.

Definition wrap_indication (tid : TransactionId) (peer : SocketAddr) (len : Z) : eff (list Z) Z :=
  built (Z.lor METHOD_SEND CLASS_INDICATION) tid (
  _ ← Builder_address ATTR_XOR_PEER_ADDRESS peer;
  _ ← Builder_attribute_header ATTR_DATA len;
  _ ← Builder_skip len;
  _ ← Builder_pad len;
  Builder_finish).

Definition wrap_channel (channel len : Z) : eff (list Z) Z :=
  _ ← lift (check_channel channel);
  total ← lift (ok_or (checked_add USIZE CHANNEL_HEADER_LEN len) Oversized);
  out ← ask;
  if zlen out <? total then fail BufferTooSmall
  else
  _ ← put_be16 0 channel;
  len ← lift (ok_or (try_from 16 len) Oversized);
  _ ← put_be16 2 len;
  mret total.

(** [usize::next_multiple_of(4)]. *)
Definition next_multiple_of_4 (n : Z) : Z := n + pad_len n.

Definition wrap_channel_padded (channel len : Z) : eff (list Z) Z :=
  total ← wrap_channel channel len;
  let padded := next_multiple_of_4 total in
  _ ← write_at total (repeat 0 (Z.to_nat (padded - total)));
  mret padded.

(** ** The stream *)

Record Frame := mkFrame {
  fr_wire : Z;
  fr_len : Z;
  fr_reserved : bool;
}.

(** [turn::frame]. *)
Definition turn_frame (head_ : list Z) : result (option Frame) :=
  match head head_ with
  | None => Ok None
  | Some byte =>
      let top := Z.shiftr byte 6 in
      if top =? 0 then
        if zlen head_ <? 8 then Ok None
        else
        cookie ← stun_be32 head_ 4;
        if negb (cookie =? MAGIC_COOKIE) then Err Malformed
        else
        body ← stun_be16 head_ 2;
        if negb (body mod 4 =? 0) then Err Malformed
        else
        let len := STUN_HEADER_LEN + body in
        Ok (Some (mkFrame len len false))
      else if top =? 1 then
        if zlen head_ <? CHANNEL_HEADER_LEN then Ok None
        else
        body ← stun_be16 head_ 2;
        let len := CHANNEL_HEADER_LEN + body in
        number ← stun_be16 head_ 0;
        Ok (Some (mkFrame (next_multiple_of_4 len) len (LAST_CHANNEL <? number)))
      else Err Malformed
  end.

(** ** What comes back *)

(** [turn::Method]. *)
Inductive TurnMethod := Allocate | Refresh | CreatePermission | ChannelBind.

#[global] Instance TurnMethod_eq_dec : EqDecision TurnMethod.
Proof. solve_decision. Defined.

Record Response := mkResponse {
  rs_bytes : list Z;
  rs_method : TurnMethod;
  rs_tid : TransactionId;
  rs_error : option Z;
  rs_integrity_at : option Z;
}.

(** [turn::Inbound]. *)
Inductive TurnInbound :=
  | TurnResponse (response : Response)
  | TurnIndication (peer : SocketAddr) (data : list Z)
  | TurnChannel (number : Z) (data : list Z).

Definition parse_channel (datagram : list Z) : result TurnInbound :=
  number ← stun_be16 datagram 0;
  len ← stun_be16 datagram 2;
  data ← ok_or (get_range datagram CHANNEL_HEADER_LEN (CHANNEL_HEADER_LEN + len)) Malformed;
  if CHANNEL_HEADER_LEN + next_multiple_of_4 len <? zlen datagram then Err Malformed
  else Ok (TurnChannel number data).

(** What the walk of [parse_message] gathers. *)
Record Gathered := mkGathered {
  ga_reached : Z;
  ga_integrity_at : option Z;
  ga_peer : option (list Z);
  ga_data : option (list Z);
  ga_error : option (list Z);
}.

#[export] Instance Gathered_eta : Eta Gathered := fun g =>
  mkGathered (ga_reached g) (ga_integrity_at g) (ga_peer g) (ga_data g) (ga_error g).

(** One turn of the loop: [None] where it returns [Malformed]. *)
Definition gather (g : Gathered) (attr : Z) (value : list Z) (next : Z) : option Gathered :=
  g ← match ga_integrity_at g with
      | Some _ => Some g
      | None =>
          if attr =? ATTR_MESSAGE_INTEGRITY then
            if zlen value =? DIGEST_LEN then Some (g <| ga_integrity_at := Some (ga_reached g) |>) else None
          else if attr =? ATTR_XOR_PEER_ADDRESS then
            Some (match ga_peer g with None => g <| ga_peer := Some value |> | Some _ => g end)
          else if attr =? ATTR_DATA then
            Some (match ga_data g with None => g <| ga_data := Some value |> | Some _ => g end)
          else if attr =? ATTR_ERROR_CODE then
            Some (match ga_error g with None => g <| ga_error := Some value |> | Some _ => g end)
          else Some g
      end;
  Some (g <| ga_reached := next |>).

Fixpoint gather_all (fuel : nat) (walk : Attributes) (g : Gathered) : result Gathered :=
  match fuel with
  | O => Ok g
  | S fuel' =>
      match Attributes_next walk with
      | (_, None) => Ok g
      | (_, Some (Err e)) => Err e
      | (walk, Some (Ok (attr, value, next))) =>
          match gather g attr value next with
          | None => Err Malformed
          | Some g => gather_all fuel' walk g
          end
      end
  end.

(** [turn::error_code]. *)
Definition error_code (value : list Z) : option Z :=
  b2 ← get_at value 2;
  let hundreds := Z.land b2 0x07 in
  rest ← get_at value 3;
  if (3 <=? hundreds) && (hundreds <=? 6) && (rest <? 100) then Some (hundreds * 100 + rest) else None.

Definition turn_method (method : Z) : result TurnMethod :=
  if method =? METHOD_ALLOCATE then Ok Allocate
  else if method =? METHOD_REFRESH then Ok Refresh
  else if method =? METHOD_CREATE_PERMISSION then Ok CreatePermission
  else if method =? METHOD_CHANNEL_BIND then Ok ChannelBind
  else Err Malformed.

Definition parse_message (datagram : list Z) : result TurnInbound :=
  head ← ok_or (get_range datagram 0 STUN_HEADER_LEN) Malformed;
  kind ← stun_be16 head 0;
  cookie ← stun_be32 head 4;
  if negb (cookie =? MAGIC_COOKIE) then Err Malformed
  else
  claimed ← stun_be16 head 2;
  if negb (claimed =? zlen datagram - STUN_HEADER_LEN) then Err Malformed
  else
  tid ← ok_or (get_range head 8 STUN_HEADER_LEN) Malformed;
  g ← gather_all (walk_fuel datagram) (Attributes_new datagram (zlen datagram))
        (mkGathered STUN_HEADER_LEN None None None None);
  if negb (ga_reached g =? zlen datagram) then Err Malformed
  else
  let method := Z.ldiff kind CLASS_MASK in
  let class := Z.land kind CLASS_MASK in
  if (method =? METHOD_DATA) && (class =? CLASS_INDICATION) then
    peer ← ok_or (value ← ga_peer g; decode_mapped value tid) Malformed;
    data ← ok_or (ga_data g) Malformed;
    Ok (TurnIndication peer data)
  else if (class =? CLASS_SUCCESS) || (class =? CLASS_ERROR) then
    method ← turn_method method;
    error ← (if class =? CLASS_ERROR then
               match ga_error g with
               | Some value => code ← ok_or (error_code value) Malformed; Ok (Some code)
               | None =>
                   match ga_integrity_at g with Some _ => Ok (Some NO_CODE) | None => Err Malformed end
               end
             else Ok None);
    Ok (TurnResponse (mkResponse datagram method tid error (ga_integrity_at g)))
  else Err Malformed.

(** [turn::parse]. *)
Definition turn_parse (datagram : list Z) : result TurnInbound :=
  match head datagram with
  | Some byte =>
      let top := Z.shiftr byte 6 in
      if top =? 0 then parse_message datagram
      else if top =? 1 then parse_channel datagram
      else Err Malformed
  | None => Err Malformed
  end.

(** ** [Response] *)

Record Challenge := mkChallenge {
  ch_realm : list Z;
  ch_nonce : list Z;
}.

Definition Response_is_success (r : Response) : bool := match rs_error r with None => true | Some _ => false end.

Definition Response_find (r : Response) (kind : Z) : option (list Z) :=
  let end_ := default (zlen (rs_bytes r)) (rs_integrity_at r) in
  walk_find (walk_fuel (rs_bytes r)) (Attributes_new (rs_bytes r) end_) kind.

Definition Response_challenge (r : Response) : option Challenge :=
  match rs_error r with
  | Some code =>
      if (code =? UNAUTHORIZED) || (code =? STALE_NONCE) then
        realm ← Response_find r ATTR_REALM;
        if negb (zlen realm <=? MAX_REALM) then None
        else
        nonce ← Response_find r ATTR_NONCE;
        if negb (negb (zlen nonce =? 0) && (zlen nonce <=? MAX_NONCE)) then None
        else Some (mkChallenge realm nonce)
      else None
  | None => None
  end.

Definition Response_relayed_address (r : Response) : option SocketAddr :=
  value ← Response_find r ATTR_XOR_RELAYED_ADDRESS; decode_mapped value (rs_tid r).

Definition Response_lifetime_s (r : Response) : option Z :=
  value ← Response_find r ATTR_LIFETIME;
  if zlen value =? 4 then Some (from_be value) else None.

Definition Response_is_authenticated (r : Response) : bool :=
  match rs_integrity_at r with Some _ => true | None => false end.

Definition Response_verify `{Digests} (r : Response) (key : Key) : bool :=
  match rs_integrity_at r with
  | None => false
  | Some at_ =>
      match integrity_of (rs_bytes r) at_ key, get_range (rs_bytes r) (at_ + 4) (at_ + 4 + DIGEST_LEN) with
      | Ok mac, Some carried => ct_eq mac carried
      | _, _ => false
      end
  end.
