(* ===== verification/TurnSpec.v ===== *)
(** What the relay codec promises: the wire form of every request, which
    answers are believed, the round trip of both framings, and that a stream of
    messages comes apart where it was put together. *)

From S2P Require Import Prelude CoreError Crc32 Packet Effect Net Stun StunFacts StunSpec Turn.

(** ** Building *)

Lemma stun_head_len_bytes kind len tid : zlen tid = 12 -> length (stun_head kind len tid) = 20%nat.
Proof. intros H. pose proof (zlen_stun_head kind len tid H) as E. unfold STUN_HEADER_LEN, zlen in E. lia. Qed.

(** The end of every builder: the length goes where the header left it open. *)
Lemma builder_finish_eq kind tid body rest :
  zlen tid = 12 -> fits 16 (zlen body) ->
  Builder_finish (at_pre (stun_head kind 0 tid ++ body) rest tid)
    = (at_pre (stun_head kind (zlen body) tid ++ body) rest tid, Ok (20 + zlen body)).
Proof.
  intros Ht Hb. unfold Builder_finish. rewrite ask_step. cbv beta. cbn [wr_at at_pre].
  assert (forall len, zlen (stun_head kind len tid ++ body) = 20 + zlen body) as Ez
    by (intros len; rewrite zlen_app, zlen_stun_head by done; reflexivity).
  rewrite Ez. replace (20 + zlen body - STUN_HEADER_LEN) with (zlen body) by (unfold STUN_HEADER_LEN; lia).
  rewrite (try_from_ok 16 (zlen body) Hb). rewrite (lift_step _ _ _ (zlen body) eq_refl).
  erewrite eff_step; [reflexivity|]. unfold on_wr_buf, on_part, at_pre, put_be16. cbn [wr_buf]. rewrite !Ez.
  rewrite !head_split. rewrite <- !app_assoc. rewrite write_at_mid; [|done|by rewrite !length_to_be].
  unfold set_field. cbn [wr_at wr_buf wr_tid]. done.
Qed.

(** A builder of transaction [tid] that appends [l] and goes on as [k]. *)
Definition leads_for {A} (tid : TransactionId) (m : eff Builder A) (l : list Z) (k : eff Builder A) : Prop :=
  forall pre rest, zlen l <= zlen rest -> zlen pre + zlen rest < 2 ^ 64 ->
  m (at_pre pre rest tid) = k (at_pre (pre ++ l) (drop (length l) rest) tid).

Section builders.
  Context {A : Type} (tid : TransactionId).
  Implicit Types k : eff Builder A.

Lemma leads_for_trans m k1 k2 l1 l2 :
  leads_for tid m l1 k1 -> leads_for tid k1 l2 k2 -> leads_for tid m (l1 ++ l2) k2.
Proof.
  intros H1 H2 pre rest Hl Hz. rewrite zlen_app in Hl. pose proof (zlen_nonneg l1). pose proof (zlen_nonneg l2).
  rewrite H1 by lia. rewrite H2 by (rewrite ?zlen_app, zlen_drop; unfold zlen in *; lia).
  by rewrite app_assoc, drop_drop, length_app.
Qed.

Lemma leads_for_writes m l k : writes m l -> leads_for tid (_ ← m; k) l k.
Proof. intros H pre rest Hl Hz. by apply writes_bind. Qed.

Lemma leads_for_done k : leads_for tid k [] k.
Proof. intros pre rest _ _. by rewrite app_nil_r. Qed.

Lemma leads_for_attribute kind value l k k' :
  fits 16 (zlen value) -> leads_for tid k (attrs_wire l) k' ->
  leads_for tid (_ ← Builder_attribute kind value; k) (attrs_wire (zattr kind value :: l)) k'.
Proof. intros Hv H. eapply leads_for_trans; [by apply leads_for_writes, (writes_attribute kind value)|done]. Qed.

(** An address is written under the builder's own transaction. *)
Lemma leads_for_address kind addr l k k' :
  sock_ok addr -> zlen tid = 12 -> leads_for tid k (attrs_wire l) k' ->
  leads_for tid (_ ← Builder_address kind addr; k) (attrs_wire (zattr kind (mapped_bytes addr tid) :: l)) k'.
Proof.
  intros Ha Ht H pre rest Hl Hz. etransitivity.
  2: { apply (leads_for_attribute kind (mapped_bytes addr tid) l k k'); [|done..].
       rewrite zlen_mapped_bytes by done. by destruct (is_ipv4 _). }
  unfold Builder_address, mbind, eff_bind, ask, lift. cbn [wr_tid at_pre]. by rewrite mapped_value_eq.
Qed.

Lemma built_by m kind body k out :
  leads_for tid m body k -> zlen tid = 12 -> 20 + zlen body <= zlen out -> zlen out < 2 ^ 63 ->
  built kind tid m out =
    let '(w, res) := k (at_pre (stun_head kind 0 tid ++ body) (drop (20 + length body) out) tid) in (wr_buf w, res).
Proof.
  intros Hm Ht Hl Hz. pose proof (zlen_nonneg body). unfold built, Builder in *.
  assert (leads_for tid (_ ← Builder_start kind tid; m) (stun_head kind 0 tid ++ body) k) as W.
  { eapply leads_for_trans; [|exact Hm]. apply leads_for_writes. unfold Builder_start, stun_head, Builder_put.
    repeat apply writes_seq; apply writes_put. }
  specialize (W [] out). change (at_pre [] out tid) with (mkWriter out 0 tid) in W.
  rewrite W; [|rewrite zlen_app, zlen_stun_head by done; unfold STUN_HEADER_LEN; lia|change (zlen []) with 0; lia].
  cbn [app]. rewrite length_app, stun_head_len_bytes by done. done.
Qed.
End builders.

Lemma built_finish m kind tid body out :
  leads_for tid m body Builder_finish ->
  zlen tid = 12 -> fits 16 (zlen body) -> 20 + zlen body <= zlen out -> zlen out < 2 ^ 63 ->
  built kind tid m out =
    (stun_head kind (zlen body) tid ++ body ++ drop (20 + length body) out, Ok (20 + zlen body)).
Proof.
  intros Hm Ht Hb Hl Hz. rewrite (built_by _ _ _ _ _ _ Hm) by done. rewrite builder_finish_eq by done.
  unfold at_pre. cbn [wr_buf]. by rewrite <- app_assoc.
Qed.

Section sealing.
  Context {D : Digests} {L : DigestLaws D}.

Definition auth_attrs (auth : Auth) : list Attr :=
  [zattr ATTR_USERNAME (au_username auth); zattr ATTR_NONCE (au_nonce auth); zattr ATTR_REALM (au_realm auth)].

(** A request as the wire has it: what it asks, who asks, and the digest of all
    of that under the long-term key. *)
Definition turn_sealed (auth : Auth) (kind : Z) (tid : TransactionId) (attrs : list Attr) : list Z :=
  let body := attrs_wire (attrs ++ auth_attrs auth) in
  stun_head kind (zlen body + 24) tid ++ body ++ integrity_attr (sealed_mac (au_key auth) kind tid body).

(** What the types guarantee of a credential, and the sizes a relay is held to. *)
Definition auth_ok (auth : Auth) : Prop :=
  zlen (au_username auth) <= 2 ^ 15 /\ zlen (au_realm auth) <= MAX_REALM /\ zlen (au_nonce auth) <= MAX_NONCE.

Lemma zlen_turn_sealed auth kind tid attrs :
  zlen tid = 12 -> zlen (turn_sealed auth kind tid attrs) = 44 + zlen (attrs_wire (attrs ++ auth_attrs auth)).
Proof.
  intros Ht. unfold turn_sealed. rewrite !zlen_app, zlen_stun_head, zlen_integrity_attr by (done || apply hmac_len).
  unfold STUN_HEADER_LEN. lia.
Qed.

Lemma leads_for_auth {A} tid auth (k : eff Builder A) :
  auth_ok auth ->
  leads_for tid (_ ← Builder_attribute ATTR_USERNAME (au_username auth); _ ← Builder_attribute ATTR_NONCE (au_nonce auth);
    _ ← Builder_attribute ATTR_REALM (au_realm auth); k) (attrs_wire (auth_attrs auth)) k.
Proof.
  intros (Hu & Hr & Hn). unfold MAX_REALM, MAX_NONCE in *.
  pose proof (zlen_nonneg (au_username auth)). pose proof (zlen_nonneg (au_realm auth)). pose proof (zlen_nonneg (au_nonce auth)).
  repeat (apply leads_for_attribute; [unfold fits; lia|]). apply leads_for_done.
Qed.

Lemma builder_seal_eq auth kind tid attrs rest :
  let body := attrs_wire (attrs ++ auth_attrs auth) in
  auth_ok auth -> zlen tid = 12 -> zlen body + 24 < 2 ^ 16 ->
  zlen (attrs_wire (auth_attrs auth)) + 24 <= zlen rest -> zlen rest < 2 ^ 63 ->
  Builder_seal auth (at_pre (stun_head kind 0 tid ++ attrs_wire attrs) rest tid) =
    (at_pre (turn_sealed auth kind tid attrs) (drop (length (attrs_wire (auth_attrs auth)) + 24) rest) tid,
     Ok (zlen (turn_sealed auth kind tid attrs))).
Proof.
  intros body Ha Ht Hb Hr Hz. unfold Builder_seal.
  assert (zlen body = zlen (attrs_wire attrs) + zlen (attrs_wire (auth_attrs auth))) as Eb
    by (unfold body; by rewrite attrs_wire_app, zlen_app).
  pose proof (zlen_nonneg (attrs_wire attrs)). pose proof (zlen_nonneg (attrs_wire (auth_attrs auth))).
  pose proof (zlen_stun_head kind 0 tid Ht) as Eh. unfold STUN_HEADER_LEN in Eh.
  rewrite (leads_for_auth tid auth _ Ha) by (rewrite ?zlen_app; lia).
  rewrite <- app_assoc, <- attrs_wire_app. fold body. rewrite ask_step. cbv zeta.
  set (rest1 := drop _ rest). set (mac := sealed_mac (au_key auth) kind tid body).
  assert (zlen mac = 20) as Em by apply hmac_len.
  assert (zlen rest1 = zlen rest - zlen (attrs_wire (auth_attrs auth))) as E1
    by (unfold rest1; rewrite zlen_drop; unfold zlen in *; lia).
  rewrite (writes_bind _ _ _ _ _ _ (writes_attribute_header ATTR_MESSAGE_INTEGRITY DIGEST_LEN ltac:(done)))
    by (rewrite ?zlen_app, ?zlen_to_be; lia).
  rewrite ask_step. unfold at_pre at 1 2. cbn [wr_buf wr_at].
  rewrite (lift_step _ _ _ mac).
  2: { rewrite <- !app_assoc. apply integrity_of_eq; [done|rewrite zlen_app, Eh; lia|lia]. }
  rewrite (writes_bind _ _ _ _ _ _ (writes_put mac)).
  2, 3: rewrite ?zlen_app, zlen_drop, ?zlen_to_be, length_app, !length_to_be; lia.
  assert (zlen (integrity_attr mac) = 24) as Ei by (apply zlen_integrity_attr, hmac_len).
  rewrite <- !app_assoc. change (to_be 2 ATTR_MESSAGE_INTEGRITY ++ to_be 2 DIGEST_LEN ++ mac) with (integrity_attr mac).
  rewrite builder_finish_eq by (done || (unfold fits; rewrite zlen_app; lia)).
  rewrite zlen_turn_sealed by done. fold body. rewrite zlen_app, Ei. unfold turn_sealed. fold body. fold mac.
  f_equal; [|f_equal; lia]. f_equal. unfold rest1. rewrite !drop_drop. f_equal.
  rewrite length_app, !length_to_be. unfold zlen in Em. lia.
Qed.

(** ** A message in a stream *)

Lemma attrs_wire_mult l : Forall attr_ok l -> zlen (attrs_wire l) mod 4 = 0.
Proof.
  induction 1 as [|a l (_ & _ & Hp) _ IH]; [done|]. rewrite attrs_wire_cons, zlen_app, zlen_attr_wire, Hp.
  pose proof (pad_len_mult (zlen (attr_value a))). modlia.
Qed.

(** The top bits of the first byte tell the two framings apart. *)
Lemma top_bits v post :
  0 <= v < 2 ^ 16 -> exists byte rest, to_be 2 v ++ post = byte :: rest /\ Z.shiftr byte 6 = v / 2 ^ 14.
Proof.
  intros Hv. eexists _, _. split; [reflexivity|]. rewrite Z.shiftr_div_pow2 by lia.
  change (8 * 1) with 8. rewrite ?Z.shiftr_div_pow2 by lia. rewrite (Z.mod_small (v / _)) by modlia.
  rewrite Z.div_div by lia. reflexivity.
Qed.

Lemma frame_message kind len tid more :
  0 <= kind < 2 ^ 14 -> fits 16 len -> len mod 4 = 0 ->
  turn_frame (stun_head kind len tid ++ more) = Ok (Some (mkFrame (20 + len) (20 + len) false)).
Proof.
  intros Hk Hl Hm. unfold stun_head. rewrite <- !app_assoc.
  destruct (top_bits kind (to_be 2 len ++ COOKIE_BYTES ++ tid ++ more) ltac:(lia)) as (byte & rest & E & Eb).
  unfold turn_frame. rewrite E at 1. cbn [head]. rewrite Eb, Z.div_small by lia. cbn [Z.eqb].
  pose proof (zlen_nonneg tid). pose proof (zlen_nonneg more).
  rewrite (proj2 (Z.ltb_ge _ 8)) by (rewrite !zlen_app, !zlen_to_be; change (zlen COOKIE_BYTES) with 4; lia).
  assert (stun_be32 (to_be 2 kind ++ to_be 2 len ++ COOKIE_BYTES ++ tid ++ more) 4 = Ok MAGIC_COOKIE) as ->
    by (rewrite (app_assoc (to_be 2 kind)); by apply stun_be32_mid).
  assert (stun_be16 (to_be 2 kind ++ to_be 2 len ++ COOKIE_BYTES ++ tid ++ more) 2 = Ok len) as ->
    by (by apply stun_be16_mid).
  cbn [mbind result_bind]. rewrite Z.eqb_refl. cbn [negb]. by rewrite Hm.
Qed.

Lemma auth_attrs_ok auth : auth_ok auth -> Forall attr_ok (auth_attrs auth).
Proof.
  intros (Hu & Hr & Hn). unfold MAX_REALM, MAX_NONCE in *.
  pose proof (zlen_nonneg (au_username auth)). pose proof (zlen_nonneg (au_realm auth)). pose proof (zlen_nonneg (au_nonce auth)).
  repeat (constructor; [apply zattr_ok; unfold fits; (done || lia)|]). constructor.
Qed.

Lemma zlen_auth_attrs auth : auth_ok auth -> zlen (attrs_wire (auth_attrs auth)) <= 2 ^ 15 + 277.
Proof.
  intros (Hu & Hr & Hn). unfold MAX_REALM, MAX_NONCE, auth_attrs in *. rewrite !attrs_wire_cons, !zlen_app, !zlen_zattr.
  pose proof (pad_len_bounds (zlen (au_username auth))). pose proof (pad_len_bounds (zlen (au_realm auth))).
  pose proof (pad_len_bounds (zlen (au_nonce auth))). change (zlen (attrs_wire [])) with 0. lia.
Qed.

(** A program that writes [wire] at the head of any buffer with room for it. *)
Definition writes_out (m : eff (list Z) Z) (wire : list Z) : Prop := forall out,
  zlen wire <= zlen out -> zlen out < 2 ^ 63 -> m out = (wire ++ drop (length wire) out, Ok (zlen wire)).

(** A message the stream reader takes whole, whatever follows. *)
Definition framed (wire : list Z) : Prop := forall more,
  turn_frame (wire ++ more) = Ok (Some (mkFrame (zlen wire) (zlen wire) false)).

Lemma sealed_framed auth kind tid attrs :
  auth_ok auth -> zlen tid = 12 -> 0 <= kind < 2 ^ 14 -> Forall attr_ok attrs -> zlen (attrs_wire attrs) <= 64 ->
  framed (turn_sealed auth kind tid attrs).
Proof.
  intros Ha Ht Hk Hok Hl more. rewrite zlen_turn_sealed by done. unfold turn_sealed. cbv zeta. rewrite <- app_assoc.
  set (body := attrs_wire _). assert (zlen body mod 4 = 0) as Hm.
  { apply attrs_wire_mult, Forall_app. split; [done|by apply auth_attrs_ok]. }
  pose proof (zlen_auth_attrs auth Ha). pose proof (zlen_nonneg body).
  assert (zlen body <= 2 ^ 15 + 400) by (unfold body; rewrite attrs_wire_app, zlen_app; lia).
  rewrite frame_message; [|done|unfold fits; lia|modlia].
  by replace (20 + (zlen body + 24)) with (44 + zlen body) by lia.
Qed.

Lemma built_seal m auth kind tid attrs :
  leads_for tid m (attrs_wire attrs) (Builder_seal auth) ->
  auth_ok auth -> zlen tid = 12 -> zlen (attrs_wire attrs) <= 64 ->
  writes_out (built kind tid m) (turn_sealed auth kind tid attrs).
Proof.
  intros Hm Ha Ht Hl out Ho Hz. rewrite zlen_turn_sealed, attrs_wire_app, zlen_app in Ho by done.
  pose proof (zlen_auth_attrs auth Ha). pose proof (zlen_nonneg (attrs_wire attrs)).
  pose proof (zlen_nonneg (attrs_wire (auth_attrs auth))).
  rewrite (built_by _ _ _ _ _ _ Hm) by (done || lia).
  rewrite builder_seal_eq; [|done..| | |]; [|rewrite ?attrs_wire_app, ?zlen_app, ?zlen_drop; unfold zlen in *; lia..].
  unfold at_pre. cbn [wr_buf]. rewrite drop_drop. do 3 f_equal.
  pose proof (zlen_turn_sealed auth kind tid attrs Ht) as E. rewrite attrs_wire_app in E. unfold zlen in E.
  rewrite length_app in E. lia.
Qed.

(** ** Requests *)

Definition allocate_attrs (lifetime_s : Z) : list Attr :=
  [zattr ATTR_REQUESTED_TRANSPORT [TRANSPORT_UDP; 0; 0; 0]; zattr ATTR_LIFETIME (to_be 4 lifetime_s)].
Definition refresh_attrs (lifetime_s : Z) : list Attr := [zattr ATTR_LIFETIME (to_be 4 lifetime_s)].
Definition permission_attrs (peer : IpAddr) (tid : TransactionId) : list Attr :=
  [zattr ATTR_XOR_PEER_ADDRESS (mapped_bytes (SocketAddr_new peer 0) tid)].
Definition channel_attrs (channel : Z) (peer : SocketAddr) (tid : TransactionId) : list Attr :=
  [zattr ATTR_CHANNEL_NUMBER (to_be 2 channel ++ [0; 0]); zattr ATTR_XOR_PEER_ADDRESS (mapped_bytes peer tid)].

Lemma mapped_attr_ok kind peer tid :
  fits 16 kind -> sock_ok peer -> zlen tid = 12 -> attr_ok (zattr kind (mapped_bytes peer tid)).
Proof.
  intros Hk Hp Ht. apply zattr_ok; [done|]. rewrite zlen_mapped_bytes by done. by destruct (is_ipv4 _).
Qed.

Lemma zlen_mapped_attr kind peer tid :
  sock_ok peer -> zlen tid = 12 -> zlen (attr_wire (zattr kind (mapped_bytes peer tid))) <= 24.
Proof. intros Hp Ht. rewrite zlen_zattr, zlen_mapped_bytes by done. by destruct (is_ipv4 _). Qed.

Lemma new_sock_ok ip port : ip_ok ip -> fits 16 port -> sock_ok (SocketAddr_new ip port).
Proof. destruct ip; cbn; intros [? ?] ?; split_and!; done. Qed.
End sealing.

(** Allocation without a credential: there is nothing to seal with. *)
Definition allocate_bare (tid : TransactionId) (lifetime_s : Z) : list Z :=
  stun_head METHOD_ALLOCATE 16 tid ++ attrs_wire (allocate_attrs lifetime_s).

Section requests.
  Context {D : Digests} {L : DigestLaws D} (tid : TransactionId) (auth : Auth).
  Hypothesis Ht : zlen tid = 12.
  Hypothesis Ha : auth_ok auth.

(** Sealed and taken whole by the stream reader. *)
Definition sent (m : eff (list Z) Z) (kind : Z) (attrs : list Attr) : Prop :=
  writes_out m (turn_sealed auth kind tid attrs) /\ framed (turn_sealed auth kind tid attrs).

Lemma sent_built m kind attrs :
  leads_for tid m (attrs_wire attrs) (Builder_seal auth) -> 0 <= kind < 2 ^ 14 ->
  Forall attr_ok attrs -> zlen (attrs_wire attrs) <= 64 -> sent (built kind tid m) kind attrs.
Proof. intros. split; [by apply built_seal|by apply sealed_framed]. Qed.

Lemma allocate_bare_sent lifetime_s :
  writes_out (encode_allocate tid lifetime_s None) (allocate_bare tid lifetime_s) /\
  framed (allocate_bare tid lifetime_s).
Proof.
  assert (zlen (allocate_bare tid lifetime_s) = 36) as Ez
    by (unfold allocate_bare; by rewrite zlen_app, zlen_stun_head).
  split.
  - intros out Ho Hz. unfold encode_allocate.
    rewrite (built_finish _ _ _ (attrs_wire (allocate_attrs lifetime_s))); [|..| |done]; try done.
    + rewrite Ez. unfold allocate_bare. rewrite <- app_assoc, length_app, stun_head_len_bytes by done. done.
    + repeat (apply leads_for_attribute; [done|]). apply leads_for_done.
    + rewrite Ez in Ho. exact Ho.
  - intros more. rewrite Ez. unfold allocate_bare. rewrite <- app_assoc. by apply frame_message.
Qed.
Lemma allocate_sent lifetime_s :
  sent (encode_allocate tid lifetime_s (Some auth)) METHOD_ALLOCATE (allocate_attrs lifetime_s).
Proof.
  apply sent_built; try done.
  - repeat (apply leads_for_attribute; [done|]). apply leads_for_done.
  - repeat (constructor; [by apply zattr_ok|]). constructor.
Qed.

Lemma refresh_sent lifetime_s : sent (encode_refresh tid lifetime_s auth) METHOD_REFRESH (refresh_attrs lifetime_s).
Proof.
  apply sent_built; try done.
  - repeat (apply leads_for_attribute; [done|]). apply leads_for_done.
  - repeat (constructor; [by apply zattr_ok|]). constructor.
Qed.

Lemma permission_sent ip :
  ip_ok ip -> sent (encode_create_permission tid ip auth) METHOD_CREATE_PERMISSION (permission_attrs ip tid).
Proof.
  intros Hi. pose proof (new_sock_ok ip 0 Hi (fits_0 16 ltac:(done))) as Hi0. apply sent_built; try done.
  - apply leads_for_address; [done..|]. apply leads_for_done.
  - constructor; [by apply mapped_attr_ok|constructor].
  - unfold permission_attrs. rewrite attrs_wire_cons, app_nil_r.
    pose proof (zlen_mapped_attr ATTR_XOR_PEER_ADDRESS _ tid Hi0 Ht). lia.
Qed.

Lemma channel_sent channel peer :
  (FIRST_CHANNEL <=? channel) && (channel <=? LAST_CHANNEL) = true -> sock_ok peer ->
  sent (encode_channel_bind tid channel peer auth) METHOD_CHANNEL_BIND (channel_attrs channel peer tid).
Proof.
  intros Ec Hp. unfold encode_channel_bind, check_channel. rewrite Ec. apply sent_built; try done.
  - apply leads_for_attribute; [done|]. apply leads_for_address; [done..|]. apply leads_for_done.
  - constructor; [by apply zattr_ok|]. constructor; [by apply mapped_attr_ok|constructor].
  - unfold channel_attrs. rewrite !attrs_wire_cons, app_nil_r, zlen_app.
    pose proof (zlen_mapped_attr ATTR_XOR_PEER_ADDRESS _ tid Hp Ht). change (zlen (attr_wire _)) with 8 at 1. lia.
Qed.
End requests.

(** Every request the relay client sends has its wire form.  An encoder
    given a buffer with room writes the header, what is asked (the lifetime, the
    peer's address masked under the transaction, the channel), then user name,
    nonce and realm, then the keyed digest of all of it as if the message ended
    there; it returns that length, touches nothing behind it, and the stream
    reader takes exactly that message off the front of any stream.  Allocation
    without a credential goes unsealed, and a channel outside the usable range
    is refused with the buffer untouched. *)
Theorem requests_wire (D : Digests) (L : DigestLaws D) (tid : TransactionId) (auth : Auth)
    (lifetime_s channel : Z) (ip : IpAddr) (peer : SocketAddr) :
  zlen tid = 12 -> auth_ok auth -> ip_ok ip -> sock_ok peer ->
  (writes_out (encode_allocate tid lifetime_s None) (allocate_bare tid lifetime_s) /\
   framed (allocate_bare tid lifetime_s)) /\
  sent tid auth (encode_allocate tid lifetime_s (Some auth)) METHOD_ALLOCATE (allocate_attrs lifetime_s) /\
  sent tid auth (encode_refresh tid lifetime_s auth) METHOD_REFRESH (refresh_attrs lifetime_s) /\
  sent tid auth (encode_create_permission tid ip auth) METHOD_CREATE_PERMISSION (permission_attrs ip tid) /\
  (if (FIRST_CHANNEL <=? channel) && (channel <=? LAST_CHANNEL)
   then sent tid auth (encode_channel_bind tid channel peer auth) METHOD_CHANNEL_BIND (channel_attrs channel peer tid)
   else forall out, encode_channel_bind tid channel peer auth out = (out, Err Malformed)).
Proof.
  intros Ht Ha Hi Hp. split; [exact (allocate_bare_sent tid Ht lifetime_s)|].
  split; [exact (allocate_sent tid auth Ht Ha lifetime_s)|].
  split; [exact (refresh_sent tid auth Ht Ha lifetime_s)|].
  split; [exact (permission_sent tid auth Ht Ha ip Hi)|].
  destruct (_ && _) eqn:Ec; [exact (channel_sent tid auth Ht Ha channel peer Ec Hp)|].
  intros out. unfold encode_channel_bind, check_channel. by rewrite Ec.
Qed.

Definition sample_auth : Auth :=
  mkAuth [117] [114] [110] (Key_long_term (H := sample_digests) [117] [114] [112]).

Lemma requests_wire_witness :
  sent (D := sample_digests) sample_tid sample_auth (encode_refresh (D := sample_digests) sample_tid 600 sample_auth)
    METHOD_REFRESH (refresh_attrs 600).
Proof.
  refine (proj1 (proj2 (proj2 (requests_wire sample_digests sample_laws sample_tid sample_auth 600 0x4000
    (IpV4 [192; 0; 2; 7]) sample_peer eq_refl _ _ _)))); vm_compute; split_and?;
    first [done|repeat constructor; discriminate].
Defined.

(** ** Answers *)

(** The attributes ahead of the first integrity attribute. *)
Fixpoint before_integrity (l : list Attr) : list Attr :=
  match l with
  | [] => []
  | a :: l => if attr_kind a =? ATTR_MESSAGE_INTEGRITY then [] else a :: before_integrity l
  end.

(** The first value, unless one was found already. *)
Definition or_find (o : option (list Z)) (k : Z) (l : list Attr) : option (list Z) :=
  match o with Some _ => o | None => find_attr k l end.

(** What the walk makes of an area that is a list of attributes. *)
Definition gathered (g : Gathered) (l : list Attr) : option Gathered :=
  let stop := ga_reached g + zlen (attrs_wire l) in
  match ga_integrity_at g with
  | Some _ => Some (g <| ga_reached := stop |>)
  | None =>
      let seen at_ := mkGathered stop at_ (or_find (ga_peer g) ATTR_XOR_PEER_ADDRESS (before_integrity l))
        (or_find (ga_data g) ATTR_DATA (before_integrity l)) (or_find (ga_error g) ATTR_ERROR_CODE (before_integrity l)) in
      match find_attr ATTR_MESSAGE_INTEGRITY l with
      | None => Some (seen None)
      | Some mac =>
          if zlen mac =? DIGEST_LEN then Some (seen (Some (ga_reached g + zlen (attrs_wire (before_integrity l))))) else None
      end
  end.

Lemma gathered_nil g : gathered g [] = Some g.
Proof.
  unfold gathered. destruct g as [r [i|] p d e]; cbn; unfold set_field; cbn; change (zlen []) with 0; rewrite Z.add_0_r;
    [done|]. by destruct p, d, e.
Qed.

Lemma gathered_cons g a l :
  gathered g (a :: l) =
    match gather g (attr_kind a) (attr_value a) (ga_reached g + zlen (attr_wire a)) with
    | None => None
    | Some g => gathered g l
    end.
Proof.
  unfold gathered, gather. destruct g as [r [i|] p d e].
  - rewrite attrs_wire_cons, zlen_app, Z.add_assoc. done.
  - cbn [ga_integrity_at find_attr before_integrity ga_reached ga_peer ga_data ga_error].
    rewrite attrs_wire_cons, zlen_app, Z.add_assoc.
    destruct (Z.eqb_spec (attr_kind a) ATTR_MESSAGE_INTEGRITY) as [Ek|Ek].
    + destruct (zlen (attr_value a) =? DIGEST_LEN); cbn; unfold set_field; cbn; [|done].
      rewrite Z.add_0_r. by destruct p, d, e.
    + cbn [find_attr or_find attrs_wire]. unfold or_find. cbn [find_attr]. rewrite (attrs_wire_cons a), zlen_app, Z.add_assoc.
      zcases; unfold set_field; cbn; destruct p, d, e; try done;
        unfold ATTR_XOR_PEER_ADDRESS, ATTR_DATA, ATTR_ERROR_CODE in *; try lia; done.
Qed.

Lemma gather_all_eq l pre fuel g :
  Forall attr_ok l -> (length l < fuel)%nat -> zlen (pre ++ attrs_wire l) < 2 ^ 63 -> ga_reached g = zlen pre ->
  gather_all fuel (mkAttributes (pre ++ attrs_wire l) (zlen pre) (zlen (pre ++ attrs_wire l)) false) g
    = ok_or (gathered g l) Malformed.
Proof.
  revert pre fuel g. induction l as [|a l IH]; intros pre [|fuel] g Hok Hf Hz Hr; cbn [length] in Hf; try lia; cbn [gather_all].
  - rewrite app_nil_r, next_end by lia. by rewrite gathered_nil.
  - inversion_clear Hok as [|? ? Ha Hok']. rewrite gathered_cons. rewrite attrs_wire_cons in *.
    pose proof (zlen_attr_wire a). pose proof (zlen_nonneg (attrs_wire l)). pose proof (zlen_nonneg (attr_padding a)).
    rewrite next_attr by (assumption || (rewrite !zlen_app; lia)). rewrite Hr, <- zlen_app.
    destruct (gather g _ _ _) as [g'|] eqn:Eg; [|done].
    rewrite app_assoc in *. apply IH; [done|lia|done|].
    revert Eg. unfold gather. destruct (match ga_integrity_at g with Some _ => _ | None => _ end); [|done].
    by intros [= <-].
Qed.

Lemma gather_walk fuel w g g' :
  gather_all fuel w g = Ok g' -> walk_reached fuel w (ga_reached g) = Ok (ga_reached g').
Proof.
  revert w g. induction fuel as [|fuel IH]; intros w g; cbn [gather_all walk_reached]; [by intros [= ->]|].
  destruct (Attributes_next w) as [w' [[[[k v] n]|e]|]]; [|done|by intros [= ->]].
  destruct (gather g k v n) as [g1|] eqn:Eg; [|done]. intros Hg. apply IH in Hg.
  assert (ga_reached g1 = n) as <-; [|done].
  revert Eg. unfold gather. destruct (match ga_integrity_at g with Some _ => _ | None => _ end); [|done].
  by intros [= <-].
Qed.

Lemma gather_all_inv pre rest g g' :
  bytes_ok rest -> ga_reached g = zlen pre -> zlen (pre ++ rest) < 2 ^ 63 ->
  let d := pre ++ rest in
  gather_all (walk_fuel d) (mkAttributes d (zlen pre) (zlen d) false) g = Ok g' -> ga_reached g' = zlen d ->
  exists l, rest = attrs_wire l /\ Forall attr_ok l /\ gathered g l = Some g'.
Proof.
  intros Hb Hr Hz d Hg Hd. pose proof (gather_walk _ _ _ _ Hg) as Hw. rewrite Hr, Hd in Hw.
  destruct (walk_inv _ _ _ _ Hb ltac:(done) Hw) as (l & post & -> & Hl & He).
  rewrite !zlen_app in He. assert (post = []) as -> by (apply length_zero_iff_nil; unfold zlen in He; lia).
  subst d. rewrite app_nil_r in *. exists l. split_and!; try done.
  rewrite gather_all_eq in Hg; try done.
  - by destruct (gathered g l); [injection Hg as ->|].
  - unfold walk_fuel. pose proof (attrs_wire_length l). rewrite length_app. lia.
Qed.

(** What becomes of a message whose attributes are known. *)
Definition interpret (d : list Z) (kind : Z) (tid : TransactionId) (g : Gathered) : result TurnInbound :=
  let method := Z.ldiff kind CLASS_MASK in
  let class := Z.land kind CLASS_MASK in
  if (method =? METHOD_DATA) && (class =? CLASS_INDICATION) then
    peer ← ok_or (value ← ga_peer g; decode_mapped value tid) Malformed;
    data ← ok_or (ga_data g) Malformed;
    Ok (TurnIndication peer data)
  else if (class =? CLASS_SUCCESS) || (class =? CLASS_ERROR) then
    method ← turn_method method;
    error ← (if class =? CLASS_ERROR then
               match ga_error g with
               | Some value => code ← ok_or (error_code value) Malformed; Ok (Some code)
               | None => match ga_integrity_at g with Some _ => Ok (Some NO_CODE) | None => Err Malformed end
               end
             else Ok None);
    Ok (TurnResponse (mkResponse d method tid error (ga_integrity_at g)))
  else Err Malformed.

Definition gather_start : Gathered := mkGathered STUN_HEADER_LEN None None None None.

Lemma parse_message_head kind len cookie tid rest :
  zlen tid = 12 -> fits 16 kind -> fits 16 len -> fits 32 cookie ->
  let d := to_be 2 kind ++ to_be 2 len ++ to_be 4 cookie ++ tid ++ rest in
  parse_message d =
    if negb (cookie =? MAGIC_COOKIE) then Err Malformed
    else if negb (len =? zlen d - STUN_HEADER_LEN) then Err Malformed
    else g ← gather_all (walk_fuel d) (Attributes_new d (zlen d)) gather_start;
         if negb (ga_reached g =? zlen d) then Err Malformed else interpret d kind tid g.
Proof.
  intros Ht Hk Hl Hc d. unfold parse_message.
  destruct (head_reads kind len cookie tid rest Ht Hk Hl Hc) as (Eh & Ek & Ec & El & Et).
  fold d in Eh. rewrite Eh. cbn [ok_or mbind result_bind]. rewrite Ek, Ec, El.
  change (get_range _ 8 STUN_HEADER_LEN) with (get_range (to_be 2 kind ++ to_be 2 len ++ to_be 4 cookie ++ tid) 8 20).
  by rewrite Et.
Qed.

(** A message that is a list of attributes under a header of the right length. *)
Lemma parse_message_attrs kind tid l :
  let d := stun_head kind (zlen (attrs_wire l)) tid ++ attrs_wire l in
  zlen tid = 12 -> fits 16 kind -> fits 16 (zlen (attrs_wire l)) -> Forall attr_ok l ->
  parse_message d = g ← ok_or (gathered gather_start l) Malformed; interpret d kind tid g.
Proof.
  intros d Ht Hk Hl Hok. pose proof (zlen_stun_head kind (zlen (attrs_wire l)) tid Ht) as Eh.
  assert (zlen d = 20 + zlen (attrs_wire l)) as Ed by (unfold d; rewrite zlen_app, Eh; done).
  replace d with (to_be 2 kind ++ to_be 2 (zlen (attrs_wire l)) ++ to_be 4 MAGIC_COOKIE ++ tid ++ attrs_wire l) at 1
    by (unfold d, stun_head; by rewrite <- !app_assoc).
  rewrite parse_message_head by done.
  replace (to_be 2 kind ++ to_be 2 (zlen (attrs_wire l)) ++ to_be 4 MAGIC_COOKIE ++ tid ++ attrs_wire l) with d
    by (unfold d, stun_head; by rewrite <- !app_assoc).
  rewrite Z.eqb_refl. cbn [negb]. rewrite (proj2 (Z.eqb_eq _ _)) by (rewrite Ed; unfold STUN_HEADER_LEN; lia). cbn [negb].
  destruct Hl as [Hl0 Hl1].
  pose proof (gather_all_eq l (stun_head kind (zlen (attrs_wire l)) tid) (walk_fuel d) gather_start Hok) as G.
  fold d in G. rewrite Eh in G. unfold Attributes_new. rewrite G; [|..|done].
  2: { unfold walk_fuel, d. pose proof (attrs_wire_length l). rewrite length_app. lia. }
  2: { rewrite Ed. lia. }
  destruct (gathered gather_start l) as [g|] eqn:Eg; [|done]. cbn [ok_or mbind result_bind].
  assert (ga_reached g = zlen d) as ->; [|by rewrite Z.eqb_refl].
  rewrite Ed. revert Eg. unfold gathered. cbn. repeat case_match; by intros [= <-].
Qed.

Lemma parse_message_inv d i :
  bytes_ok d -> zlen d < 2 ^ 63 -> parse_message d = Ok i -> exists kind tid l g,
    d = stun_head kind (zlen (attrs_wire l)) tid ++ attrs_wire l /\ tid_ok tid /\ fits 16 kind /\
    fits 16 (zlen (attrs_wire l)) /\ Forall attr_ok l /\ gathered gather_start l = Some g /\ interpret d kind tid g = Ok i.
Proof.
  intros Hb Hz. destruct (Z.lt_ge_cases (zlen d) STUN_HEADER_LEN) as [Hs|Hl].
  { unfold parse_message. by rewrite get_range_None by (unfold STUN_HEADER_LEN in *; lia). }
  destruct (head_fields d Hb Hl) as (kind & len & cookie & tid & rest & Ed & Ht & Hk & Hlen & Hc & Bt & Br).
  rewrite Ed, parse_message_head, <- Ed by done.
  destruct (Z.eqb_spec cookie MAGIC_COOKIE) as [->|]; [|done]. cbn [negb].
  destruct (Z.eqb_spec len (zlen d - STUN_HEADER_LEN)) as [El|]; [|done]. cbn [negb].
  destruct (gather_all _ _ _) as [g|] eqn:Eg; [|done]. cbn [mbind result_bind].
  destruct (Z.eqb_spec (ga_reached g) (zlen d)) as [Er|]; [|done]. cbn [negb]. intros Ei.
  assert (d = stun_head kind len tid ++ rest) as Ed' by (rewrite Ed; unfold stun_head; by rewrite <- !app_assoc).
  pose proof (zlen_stun_head kind len tid Ht) as Eh. unfold Attributes_new in Eg. rewrite <- Eh in Eg.
  rewrite Ed' in Eg, Er, Hz. destruct (gather_all_inv _ rest gather_start g Br ltac:(done) Hz Eg Er) as (l & -> & Hok & Hg).
  assert (len = zlen (attrs_wire l)) as -> by (rewrite El, Ed', zlen_app, Eh; lia).
  exists kind, tid, l, g. split_and!; done.
Qed.

(** ** Which answers are believed *)

Definition method_code (m : TurnMethod) : Z :=
  match m with
  | Allocate => METHOD_ALLOCATE
  | Refresh => METHOD_REFRESH
  | CreatePermission => METHOD_CREATE_PERMISSION
  | ChannelBind => METHOD_CHANNEL_BIND
  end.

Lemma turn_method_iff code m : turn_method code = Ok m <-> code = method_code m.
Proof.
  unfold turn_method. split.
  - zcases; intros E; try done; injection E as <-; cbn; lia.
  - intros ->. by destruct m.
Qed.

Lemma turn_parse_message kind len tid rest :
  0 <= kind < 2 ^ 14 ->
  turn_parse (stun_head kind len tid ++ rest) = parse_message (stun_head kind len tid ++ rest).
Proof.
  intros Hk. unfold turn_parse. unfold stun_head at 1. rewrite <- !app_assoc.
  destruct (top_bits kind (to_be 2 len ++ COOKIE_BYTES ++ tid ++ rest) ltac:(lia)) as (byte & r & E & Eb).
  rewrite E. cbn [head]. rewrite Eb, Z.div_small by lia. done.
Qed.

Lemma success_kind kind m :
  turn_method (Z.ldiff kind CLASS_MASK) = Ok m -> Z.land kind CLASS_MASK = CLASS_SUCCESS ->
  kind = Z.lor (method_code m) CLASS_SUCCESS.
Proof. intros E%turn_method_iff Hc. by rewrite <- E, <- Hc, Z.lor_ldiff_and. Qed.

Lemma before_split l mac :
  find_attr ATTR_MESSAGE_INTEGRITY l = Some mac -> Forall attr_ok l -> zlen mac = DIGEST_LEN ->
  exists post, l = before_integrity l ++ mkAttr ATTR_MESSAGE_INTEGRITY mac [] :: post /\ Forall attr_ok post.
Proof.
  induction l as [|a l IH]; [done|]. cbn [find_attr before_integrity].
  intros Hf Hok Hz. inversion_clear Hok as [|? ? Ha Hl].
  destruct (Z.eqb_spec (attr_kind a) ATTR_MESSAGE_INTEGRITY) as [Ek|].
  - injection Hf as Hv. exists l. split; [|done]. destruct a as [k v p], Ha as (_ & _ & Hp). cbn in *.
    subst. rewrite Hz in Hp. change (pad_len DIGEST_LEN) with 0 in Hp.
    assert (p = []) as -> by (apply length_zero_iff_nil; unfold zlen in Hp; lia).
    done.
  - destruct (IH Hf Hl Hz) as (post & E & Hp). exists post. split; [|done]. cbn. by rewrite <- E.
Qed.

Lemma before_none l : find_attr ATTR_MESSAGE_INTEGRITY (before_integrity l) = None.
Proof. induction l as [|a l IH]; [done|]. cbn. destruct (attr_kind a =? _) eqn:E; [done|]. cbn. by rewrite E. Qed.

Lemma before_eq l a post :
  find_attr ATTR_MESSAGE_INTEGRITY l = None -> attr_kind a = ATTR_MESSAGE_INTEGRITY ->
  before_integrity (l ++ a :: post) = l /\ find_attr ATTR_MESSAGE_INTEGRITY (l ++ a :: post) = Some (attr_value a).
Proof.
  intros Hl Ha. induction l as [|b l IH]; cbn; [by rewrite Ha|].
  cbn in Hl. destruct (attr_kind b =? _); [done|]. destruct (IH Hl) as [-> ->]. done.
Qed.

Section believed.
  Context {D : Digests} {L : DigestLaws D}.

(** An answer sealed under [key]: attributes, their digest, and whatever
    follows it unread. *)
Definition sealed_answer (key : Key) (kind : Z) (tid : TransactionId) (attrs post : list Attr) : list Z :=
  let l := attrs ++ mkAttr ATTR_MESSAGE_INTEGRITY (sealed_mac key kind tid (attrs_wire attrs)) [] :: post in
  stun_head kind (zlen (attrs_wire l)) tid ++ attrs_wire l.

Lemma integrity_wire mac : zlen mac = 20 -> attr_wire (mkAttr ATTR_MESSAGE_INTEGRITY mac []) = integrity_attr mac.
Proof. intros H. unfold attr_wire, integrity_attr. cbn [attr_kind attr_value attr_padding]. by rewrite H, app_nil_r. Qed.

Lemma verify_layout r key kind len tid attrs mac post :
  rs_bytes r = stun_head kind len tid ++ attrs_wire attrs ++ integrity_attr mac ++ post ->
  rs_integrity_at r = Some (20 + zlen (attrs_wire attrs)) ->
  zlen tid = 12 -> zlen mac = 20 -> bytes_ok mac -> zlen (attrs_wire attrs) + 24 < 2 ^ 16 ->
  Response_verify r key = true <-> mac = sealed_mac key kind tid (attrs_wire attrs).
Proof.
  intros Eb Ei Ht Hm Bm Hz. unfold Response_verify. rewrite Ei, Eb.
  pose proof (zlen_nonneg (attrs_wire attrs)). pose proof (zlen_stun_head kind len tid Ht) as Eh. unfold STUN_HEADER_LEN in Eh.
  rewrite integrity_of_eq by (done || lia).
  assert (get_range (stun_head kind len tid ++ attrs_wire attrs ++ integrity_attr mac ++ post)
    (20 + zlen (attrs_wire attrs) + 4) (20 + zlen (attrs_wire attrs) + 4 + DIGEST_LEN) = Some mac) as ->.
  { unfold integrity_attr.
    replace (stun_head kind len tid ++ attrs_wire attrs ++ (to_be 2 ATTR_MESSAGE_INTEGRITY ++ to_be 2 20 ++ mac) ++ post)
      with ((stun_head kind len tid ++ attrs_wire attrs ++ to_be 2 ATTR_MESSAGE_INTEGRITY ++ to_be 2 20) ++ mac ++ post)
      by (by rewrite <- !app_assoc).
    apply get_range_mid; [|rewrite Hm; unfold DIGEST_LEN; lia]. rewrite !zlen_app, !zlen_to_be, Eh. lia. }
  rewrite ct_eq_iff; [split; by intros ->| |done|].
  - apply hmac_bytes.
  - apply Nat2Z.inj. change (zlen (sealed_mac key kind tid (attrs_wire attrs)) = zlen mac). rewrite Hm. apply hmac_len.
Qed.

Lemma response_find_attrs r head attrs post k :
  rs_bytes r = head ++ attrs_wire attrs ++ post -> zlen head = STUN_HEADER_LEN ->
  default (zlen (rs_bytes r)) (rs_integrity_at r) = STUN_HEADER_LEN + zlen (attrs_wire attrs) ->
  Forall attr_ok attrs -> zlen (rs_bytes r) < 2 ^ 63 -> Response_find r k = find_attr k attrs.
Proof.
  intros Eb Eh Ei Hok Hz. unfold Response_find. rewrite Ei. unfold Attributes_new. rewrite <- Eh, Eb.
  apply (walk_attrs attrs head post (walk_fuel (head ++ attrs_wire attrs ++ post)) (zlen head) k); try done.
  - unfold walk_fuel. pose proof (attrs_wire_length attrs). rewrite !length_app. lia.
  - by rewrite <- Eb.
Qed.

Lemma answer_parses key m tid attrs post :
  let kind := Z.lor (method_code m) CLASS_SUCCESS in
  let d := sealed_answer key kind tid attrs post in
  tid_ok tid -> Forall attr_ok attrs -> Forall attr_ok post -> find_attr ATTR_MESSAGE_INTEGRITY attrs = None ->
  zlen d <= 20 + (2 ^ 16 - 1) ->
  let r := mkResponse d m tid None (Some (20 + zlen (attrs_wire attrs))) in
  turn_parse d = Ok (TurnResponse r) /\ Response_verify r key = true /\
  forall k, Response_find r k = find_attr k attrs.
Proof.
  intros kind d [Ht Bt] Hok Hpost Hnone Hz r. set (mac := sealed_mac key kind tid (attrs_wire attrs)).
  assert (zlen mac = 20) as Em by apply hmac_len.
  set (l := attrs ++ mkAttr ATTR_MESSAGE_INTEGRITY mac [] :: post).
  assert (attrs_wire l = attrs_wire attrs ++ integrity_attr mac ++ attrs_wire post) as El
    by (unfold l; by rewrite attrs_wire_app, attrs_wire_cons, integrity_wire).
  assert (Forall attr_ok l) as Hl.
  { apply Forall_app. split; [done|]. constructor; [|done]. split_and!; cbn; [done|by rewrite Em|by rewrite Em]. }
  assert (d = stun_head kind (zlen (attrs_wire l)) tid ++ attrs_wire l) as Ed by done.
  pose proof (zlen_stun_head kind (zlen (attrs_wire l)) tid Ht) as Eh. unfold STUN_HEADER_LEN in Eh.
  assert (zlen d = 20 + zlen (attrs_wire l)) as Ez by (rewrite Ed, zlen_app, Eh; done).
  pose proof (zlen_integrity_attr mac Em). pose proof (zlen_nonneg (attrs_wire post)). pose proof (zlen_nonneg (attrs_wire attrs)).
  assert (zlen (attrs_wire l) = zlen (attrs_wire attrs) + 24 + zlen (attrs_wire post)) as Ezl
    by (rewrite El, !zlen_app; lia).
  assert (0 <= kind < 2 ^ 14) as Hk by (by destruct m).
  split; [|split].
  - rewrite Ed, turn_parse_message by done. rewrite parse_message_attrs; [|done|unfold fits; lia|unfold fits; lia|done].
    unfold gathered. destruct (before_eq attrs (mkAttr ATTR_MESSAGE_INTEGRITY mac []) post Hnone eq_refl) as [Hb Hf].
    fold l in Hb, Hf. cbn [ga_integrity_at gather_start]. rewrite Hb, Hf. cbn [attr_value]. rewrite Em. cbn [Z.eqb DIGEST_LEN Pos.eqb].
    cbn [ok_or mbind result_bind]. rewrite <- Ed. unfold interpret. cbn [ga_integrity_at ga_reached].
    unfold r. by destruct m.
  - eapply (verify_layout r key kind (zlen (attrs_wire l)) tid attrs mac (attrs_wire post)); try done; [|apply hmac_bytes|lia].
    cbn [rs_bytes r]. by rewrite Ed, El.
  - intros k. eapply response_find_attrs; [cbn [rs_bytes r]; by rewrite Ed, El|by apply zlen_stun_head|done|done|].
    cbn [rs_bytes r]. lia.
Qed.
End believed.

(** The other direction: a success that verifies is sealed. *)
Lemma answer_inv {D : Digests} {L : DigestLaws D} d r key :
  bytes_ok d -> zlen d < 2 ^ 63 -> turn_parse d = Ok (TurnResponse r) -> rs_error r = None -> Response_verify r key = true ->
  exists attrs post, Forall attr_ok attrs /\ Forall attr_ok post /\ tid_ok (rs_tid r) /\
    find_attr ATTR_MESSAGE_INTEGRITY attrs = None /\ zlen d <= 20 + (2 ^ 16 - 1) /\
    d = sealed_answer key (Z.lor (method_code (rs_method r)) CLASS_SUCCESS) (rs_tid r) attrs post.
Proof.
  intros Hb Hz Hp He Hv. unfold turn_parse in Hp. destruct (head d); [|done].
  destruct (_ =? 0). 2: { destruct (_ =? 1); [|done]. unfold parse_channel in Hp. repeat bind_inv Hp; by destruct (_ <? _) in Hp. }
  destruct (parse_message_inv d _ Hb Hz Hp) as (kind & tid & l & g & Ed & Ht & Hk & Hl & Hok & Hg & Hi).
  unfold interpret in Hi. destruct (_ && _) in Hi; [by repeat bind_inv Hi|].
  destruct (_ || _) eqn:Ec in Hi; [|done]. destruct (turn_method _) as [m|] eqn:Em; [|done]. cbn [mbind result_bind] in Hi.
  destruct (Z.eqb_spec (Z.land kind CLASS_MASK) CLASS_ERROR) as [Ee|Ee].
  { exfalso. destruct (ga_error g) as [v|].
    - destruct (error_code v); [|done]. cbn in Hi. injection Hi as <-. done.
    - destruct (ga_integrity_at g); [|done]. cbn in Hi. injection Hi as <-. done. }
  cbn [mbind result_bind] in Hi. injection Hi as <-. cbn [rs_method rs_tid rs_error rs_integrity_at rs_bytes] in *.
  rewrite orb_false_r in Ec. apply Z.eqb_eq in Ec. pose proof (success_kind _ _ Em Ec) as Ekind.
  unfold gathered in Hg. cbn [ga_integrity_at gather_start ga_reached] in Hg.
  destruct (find_attr ATTR_MESSAGE_INTEGRITY l) as [mac|] eqn:Ef.
  2: { injection Hg as <-. unfold Response_verify in Hv. done. }
  destruct (Z.eqb_spec (zlen mac) DIGEST_LEN) as [Hmac|]; [|done]. injection Hg as <-.
  destruct (before_split l mac Ef Hok Hmac) as (post & El & Hpost). destruct Ht as [Ht Bt].
  set (attrs := before_integrity l) in *. pose proof (zlen_stun_head kind (zlen (attrs_wire l)) tid Ht) as Eh.
  assert (attrs_wire l = attrs_wire attrs ++ integrity_attr mac ++ attrs_wire post) as Ew
    by (rewrite El, attrs_wire_app, attrs_wire_cons, integrity_wire by done; done).
  pose proof (zlen_integrity_attr mac Hmac). pose proof (zlen_nonneg (attrs_wire post)). destruct Hl as [Hl0 Hl1].
  assert (bytes_ok mac) as Bm.
  { rewrite Ed, Ew in Hb. unfold integrity_attr in Hb. repeat (apply Forall_app in Hb as [? Hb]).
    match goal with H : Forall _ (_ ++ _ ++ mac) |- _ => repeat (apply Forall_app in H as [? H]) end. done. }
  rewrite (verify_layout _ key kind (zlen (attrs_wire l)) tid attrs mac (attrs_wire post)) in Hv.
  2: cbn [rs_bytes]; by rewrite Ed, Ew.
  2: done. 2, 3, 4: done.
  2: { rewrite Ew, !zlen_app in Hl1. lia. }
  exists attrs, post. split_and!; try done.
  - rewrite El in Hok. by apply Forall_app in Hok as [? _].
  - apply before_none.
  - rewrite Ed, zlen_app, Eh. unfold STUN_HEADER_LEN. lia.
  - unfold sealed_answer. cbv zeta. rewrite <- Ekind, <- Hv, <- El. done.
Qed.

(** What the relay is believed to have said is what was sealed.  A datagram
    parses as a success of a given method and transaction and verifies under the
    long-term key exactly when it is a header of the right length, attributes, the
    keyed digest of header and attributes as if the message ended there, and
    possibly more; and nothing past the digest is ever read: every attribute looked
    up is looked up among those it covers. *)
Theorem answer_believed_iff (D : Digests) (L : DigestLaws D) (d : list Z) (key : Key) (tid : TransactionId) (m : TurnMethod) :
  bytes_ok d -> zlen d < 2 ^ 63 ->
  (exists r, turn_parse d = Ok (TurnResponse r) /\ Response_is_success r = true /\ Response_verify r key = true /\
     rs_method r = m /\ rs_tid r = tid) <->
  (exists attrs post, Forall attr_ok attrs /\ Forall attr_ok post /\ tid_ok tid /\
     find_attr ATTR_MESSAGE_INTEGRITY attrs = None /\ zlen d <= 20 + (2 ^ 16 - 1) /\
     d = sealed_answer key (Z.lor (method_code m) CLASS_SUCCESS) tid attrs post /\
     exists r, turn_parse d = Ok (TurnResponse r) /\ forall k, Response_find r k = find_attr k attrs).
Proof.
  intros Hb Hz. split.
  - intros (r & Hp & Hs & Hv & <- & <-). unfold Response_is_success in Hs. destruct (rs_error r) eqn:Ee; [done|].
    destruct (answer_inv d r key Hb Hz Hp Ee Hv) as (attrs & post & Ha & Hpost & Ht & Hn & Hl & Ed).
    exists attrs, post. split_and!; try done; [apply Ht..|].
    rewrite Ed in Hl. destruct (answer_parses key (rs_method r) (rs_tid r) attrs post Ht Ha Hpost Hn Hl) as (P & _ & F).
    eexists. rewrite Ed. split; [exact P|exact F].
  - intros (attrs & post & Ha & Hpost & Ht & Hn & Hl & Ed & _). rewrite Ed in Hl.
    destruct (answer_parses key m tid attrs post Ht Ha Hpost Hn Hl) as (P & V & _).
    eexists. rewrite Ed. split; [exact P|]. split_and!; done || exact V.
Qed.

(** A refresh granted, with one attribute past the digest. *)
Definition sample_answer : list Z :=
  sealed_answer (D := sample_digests) [107] (Z.lor METHOD_REFRESH CLASS_SUCCESS) sample_tid
    [zattr ATTR_LIFETIME (to_be 4 600)] [zattr ATTR_LIFETIME (to_be 4 1)].

Lemma answer_believed_iff_witness :
  exists attrs post, Forall attr_ok attrs /\ Forall attr_ok post /\ tid_ok sample_tid /\
     find_attr ATTR_MESSAGE_INTEGRITY attrs = None /\ zlen sample_answer <= 20 + (2 ^ 16 - 1) /\
     sample_answer = sealed_answer (D := sample_digests) [107] (Z.lor (method_code Refresh) CLASS_SUCCESS) sample_tid attrs post /\
     exists r, turn_parse sample_answer = Ok (TurnResponse r) /\ forall k, Response_find r k = find_attr k attrs.
Proof.
  apply (proj1 (answer_believed_iff sample_digests sample_laws sample_answer [107] sample_tid Refresh
    ltac:(vm_compute; repeat constructor; discriminate) ltac:(vm_compute; reflexivity))).
  eexists. split; [vm_compute; reflexivity|]. split; [reflexivity|]. split; [vm_compute; reflexivity|]. split; reflexivity.
Defined.

(** ** The two framings *)

Definition channel_wire (channel : Z) (data : list Z) : list Z := to_be 2 channel ++ to_be 2 (zlen data) ++ data.

Lemma zlen_channel_wire channel data : zlen (channel_wire channel data) = 4 + zlen data.
Proof. unfold channel_wire. rewrite !zlen_app, !zlen_to_be. lia. Qed.

Lemma channel_top channel post :
  FIRST_CHANNEL <= channel <= LAST_CHANNEL ->
  exists byte rest, to_be 2 channel ++ post = byte :: rest /\ Z.shiftr byte 6 = 1.
Proof.
  unfold FIRST_CHANNEL, LAST_CHANNEL. intros Hc. destruct (top_bits channel post ltac:(lia)) as (b & r & E & Eb).
  exists b, r. split; [done|]. rewrite Eb. symmetry. apply (Z.div_unique _ _ _ (channel - 2 ^ 14)); lia.
Qed.

Lemma parse_channel_wire channel data padding :
  FIRST_CHANNEL <= channel <= LAST_CHANNEL -> fits 16 (zlen data) -> zlen padding <= pad_len (zlen data) ->
  turn_parse (channel_wire channel data ++ padding) = Ok (TurnChannel channel data).
Proof.
  intros Hc Hd Hp. unfold channel_wire. rewrite <- !app_assoc. unfold turn_parse.
  destruct (channel_top channel (to_be 2 (zlen data) ++ data ++ padding) Hc) as (b & r & E & Eb).
  rewrite E at 1. cbn [head]. rewrite Eb. cbn [Z.eqb Pos.eqb]. unfold parse_channel.
  assert (stun_be16 (to_be 2 channel ++ to_be 2 (zlen data) ++ data ++ padding) 0 = Ok channel) as ->.
  { apply (stun_be16_mid []); [done|]. unfold FIRST_CHANNEL, LAST_CHANNEL, fits in *. lia. }
  assert (stun_be16 (to_be 2 channel ++ to_be 2 (zlen data) ++ data ++ padding) 2 = Ok (zlen data)) as -> by (by apply stun_be16_mid).
  cbn [mbind result_bind]. unfold CHANNEL_HEADER_LEN.
  rewrite (app_assoc (to_be 2 channel)), get_range_mid by done. cbn [ok_or mbind result_bind].
  rewrite (proj2 (Z.ltb_ge _ _)); [done|]. unfold next_multiple_of_4. rewrite !zlen_app, !zlen_to_be. lia.
Qed.

Lemma frame_channel channel data more :
  FIRST_CHANNEL <= channel <= LAST_CHANNEL -> fits 16 (zlen data) ->
  let wire := channel_wire channel data ++ zeros (pad_len (zlen data)) in
  turn_frame (wire ++ more) = Ok (Some (mkFrame (zlen wire) (4 + zlen data) false)).
Proof.
  intros Hc Hd wire. assert (zlen wire = next_multiple_of_4 (4 + zlen data)) as ->.
  { unfold wire, next_multiple_of_4. rewrite zlen_app, zlen_channel_wire, zlen_zeros by apply pad_len_bounds.
    unfold pad_len. modlia. }
  unfold wire, channel_wire. rewrite <- !app_assoc. set (post := data ++ _).
  destruct (channel_top channel (to_be 2 (zlen data) ++ post) Hc) as (b & r & E & Eb). unfold turn_frame.
  rewrite E at 1. cbn [head]. rewrite Eb. cbn [Z.eqb Pos.eqb]. pose proof (zlen_nonneg post).
  rewrite (proj2 (Z.ltb_ge _ _)) by (rewrite !zlen_app, !zlen_to_be; unfold CHANNEL_HEADER_LEN; lia).
  assert (stun_be16 (to_be 2 channel ++ to_be 2 (zlen data) ++ post) 0 = Ok channel) as ->.
  { apply (stun_be16_mid []); [done|]. unfold FIRST_CHANNEL, LAST_CHANNEL, fits in *. lia. }
  assert (stun_be16 (to_be 2 channel ++ to_be 2 (zlen data) ++ post) 2 = Ok (zlen data)) as -> by (by apply stun_be16_mid).
  cbn [mbind result_bind]. rewrite (proj2 (Z.ltb_ge LAST_CHANNEL channel)) by lia. done.
Qed.

Lemma check_channel_ok channel : FIRST_CHANNEL <= channel <= LAST_CHANNEL -> check_channel channel = Ok ().
Proof.
  intros H. unfold check_channel. by rewrite (proj2 (Z.leb_le FIRST_CHANNEL _)), (proj2 (Z.leb_le channel _)) by lia.
Qed.

Lemma wrap_channel_eq channel h data rest :
  FIRST_CHANNEL <= channel <= LAST_CHANNEL -> zlen h = 4 -> fits 16 (zlen data) ->
  wrap_channel channel (zlen data) (h ++ data ++ rest) = (channel_wire channel data ++ rest, Ok (4 + zlen data)).
Proof.
  intros Hc Hh [Hd0 Hd]. unfold wrap_channel. rewrite check_channel_ok by done.
  rewrite (lift_step _ _ _ () eq_refl). unfold checked_add, CHANNEL_HEADER_LEN.
  rewrite (proj2 (Z.ltb_lt (4 + zlen data) _)) by lia. rewrite (lift_step _ _ _ (4 + zlen data)) by done. rewrite ask_step.
  pose proof (zlen_nonneg rest). rewrite (proj2 (Z.ltb_ge _ _)) by (rewrite !zlen_app; lia).
  destruct (split_at h 2 ltac:(lia)) as (h1 & h2 & -> & H1). rewrite zlen_app in Hh. rewrite <- (app_assoc h1).
  unfold put_be16. pose proof (write_step (len ← lift (ok_or (try_from 16 (zlen data)) Oversized); _ ← write_at 2 (to_be 2 len); mret (4 + zlen data))
    [] h1 (to_be 2 channel) (h2 ++ data ++ rest) 0 eq_refl ltac:(by rewrite zlen_to_be, H1)) as W.
  cbn [app] in W. rewrite W. rewrite (lift_step _ _ _ (zlen data)) by (by rewrite try_from_ok).
  rewrite write_step by (rewrite ?zlen_to_be; lia). unfold channel_wire. by rewrite <- !app_assoc.
Qed.

Lemma wrap_channel_padded_eq channel h data rest :
  FIRST_CHANNEL <= channel <= LAST_CHANNEL -> zlen h = 4 -> fits 16 (zlen data) -> pad_len (zlen data) <= zlen rest ->
  let wire := channel_wire channel data ++ zeros (pad_len (zlen data)) in
  wrap_channel_padded channel (zlen data) (h ++ data ++ rest)
    = (wire ++ drop (Z.to_nat (pad_len (zlen data))) rest, Ok (zlen wire)).
Proof.
  intros Hc Hh Hd Hr wire. unfold wrap_channel_padded. pose proof (pad_len_bounds (zlen data)).
  rewrite (eff_step _ _ _ _ _ (wrap_channel_eq channel h data rest Hc Hh Hd)). cbv zeta.
  assert (next_multiple_of_4 (4 + zlen data) = zlen wire) as ->.
  { unfold wire, next_multiple_of_4. rewrite zlen_app, zlen_channel_wire, zlen_zeros by lia. unfold pad_len. modlia. }
  assert (zlen wire - (4 + zlen data) = pad_len (zlen data)) as ->
    by (unfold wire; rewrite zlen_app, zlen_channel_wire, zlen_zeros by lia; lia).
  change (repeat 0 (Z.to_nat (pad_len (zlen data)))) with (zeros (pad_len (zlen data))).
  rewrite (eff_step _ _ _ (wire ++ drop (Z.to_nat (pad_len (zlen data))) rest) ()); [done|].
  rewrite write_at_app by (rewrite ?zlen_channel_wire, ?zlen_zeros; lia). unfold wire. rewrite <- app_assoc.
  unfold zeros at 2. by rewrite repeat_length.
Qed.

Definition SEND_KIND : Z := Z.lor METHOD_SEND CLASS_INDICATION.
Definition DATA_KIND : Z := Z.lor METHOD_DATA CLASS_INDICATION.

(** A message made of these attributes and nothing else. *)
Definition plain (kind : Z) (tid : TransactionId) (l : list Attr) : list Z :=
  stun_head kind (zlen (attrs_wire l)) tid ++ attrs_wire l.

Lemma builder_skip_eq pre data rest tid :
  zlen pre + zlen data + zlen rest < 2 ^ 63 ->
  Builder_skip (zlen data) (at_pre pre (data ++ rest) tid) = (at_pre (pre ++ data) rest tid, Ok ()).
Proof.
  intros Hz. pose proof (zlen_nonneg rest). unfold Builder_skip, at_pre, checked_add. cbn [wr_at wr_buf].
  rewrite (proj2 (Z.ltb_lt _ _)) by lia. rewrite (proj2 (Z.ltb_ge _ _)) by (rewrite !zlen_app; lia).
  unfold set_field. cbn [wr_at wr_buf wr_tid]. by rewrite zlen_app, <- app_assoc.
Qed.

Definition peer_attr (peer : SocketAddr) (tid : TransactionId) : Attr := zattr ATTR_XOR_PEER_ADDRESS (mapped_bytes peer tid).

Lemma zlen_peer_attr peer tid :
  sock_ok peer -> zlen tid = 12 -> 24 + zlen (attr_wire (peer_attr peer tid)) = indication_header_len peer.
Proof.
  intros Hp Ht. unfold peer_attr, indication_header_len. rewrite zlen_zattr, zlen_mapped_bytes by done.
  by destruct (canonical peer).
Qed.

Lemma wrap_indication_eq tid peer h data rest :
  sock_ok peer -> zlen tid = 12 -> zlen h = indication_header_len peer -> zlen data <= 2 ^ 15 ->
  pad_len (zlen data) <= zlen rest -> zlen rest < 2 ^ 62 ->
  let l := [peer_attr peer tid; zattr ATTR_DATA data] in
  wrap_indication tid peer (zlen data) (h ++ data ++ rest)
    = (plain SEND_KIND tid l ++ drop (Z.to_nat (pad_len (zlen data))) rest, Ok (zlen (plain SEND_KIND tid l))).
Proof.
  intros Hp Ht Hh Hd Hr Hz l. pose proof (pad_len_bounds (zlen data)) as Hpad. pose proof (zlen_nonneg data).
  set (b0 := attr_wire (peer_attr peer tid) ++ to_be 2 ATTR_DATA ++ to_be 2 (zlen data)).
  pose proof (zlen_peer_attr peer tid Hp Ht) as Ep.
  assert (zlen (attr_wire (peer_attr peer tid)) <= 24) as Hp24 by (by apply zlen_mapped_attr).
  pose proof (zlen_nonneg (attr_wire (peer_attr peer tid))).
  assert (zlen b0 = zlen h - 20) as Eb0 by (unfold b0; rewrite !zlen_app, !zlen_to_be; lia).
  assert (attrs_wire l = b0 ++ data ++ zeros (pad_len (zlen data))) as El
    by (unfold l, b0; rewrite !attrs_wire_cons, zattr_wire, app_nil_r; by rewrite <- !app_assoc).
  pose proof (zlen_stun_head SEND_KIND 0 tid Ht) as Eh. unfold STUN_HEADER_LEN in Eh.
  unfold wrap_indication. fold SEND_KIND. rewrite (built_by tid _ _ b0 (_ ← Builder_skip (zlen data); _ ← Builder_pad (zlen data); Builder_finish)).
  - rewrite (drop_app_length' h) by (unfold zlen in *; lia).
    rewrite (eff_step _ _ _ (at_pre ((stun_head SEND_KIND 0 tid ++ b0) ++ data) rest tid) ())
      by (apply builder_skip_eq; rewrite zlen_app; lia).
    rewrite (writes_bind _ _ _ _ _ _ (writes_pad (zlen data))) by (rewrite ?zlen_app, ?zlen_zeros; lia).
    rewrite <- !app_assoc, <- El. rewrite builder_finish_eq.
    + unfold at_pre, plain. cbn [wr_buf]. rewrite zlen_app, zlen_stun_head by done. unfold STUN_HEADER_LEN.
      unfold zeros. by rewrite repeat_length.
    + done.
    + rewrite El, !zlen_app, zlen_zeros by lia. unfold fits. lia.
  - eapply leads_for_trans; [|apply leads_for_writes, (writes_attribute_header ATTR_DATA (zlen data)); unfold fits; lia].
    pose proof (leads_for_address (A := Z) tid ATTR_XOR_PEER_ADDRESS peer [] (_ ← Builder_attribute_header ATTR_DATA (zlen data);
      _ ← Builder_skip (zlen data); _ ← Builder_pad (zlen data); Builder_finish) _ Hp Ht (leads_for_done _ _)) as W.
    by rewrite attrs_wire_cons, app_nil_r in W.
  - done.
  - rewrite !zlen_app. pose proof (zlen_nonneg rest). lia.
  - rewrite !zlen_app. lia.
Qed.

(** A data indication, the two attributes in either order. *)
Lemma data_indication_parses tid peer data :
  sock_ok peer -> zlen tid = 12 -> zlen data <= 2 ^ 15 ->
  forall l, l = [peer_attr peer tid; zattr ATTR_DATA data] \/ l = [zattr ATTR_DATA data; peer_attr peer tid] ->
  turn_parse (plain DATA_KIND tid l) = Ok (TurnIndication (wire_addr peer) data).
Proof.
  intros Hp Ht Hd l Hl. pose proof (zlen_nonneg data). pose proof (pad_len_bounds (zlen data)).
  assert (attr_ok (peer_attr peer tid)) as O1 by (by apply mapped_attr_ok).
  assert (attr_ok (zattr ATTR_DATA data)) as O2 by (apply zattr_ok; [done|unfold fits; lia]).
  assert (zlen (attr_wire (peer_attr peer tid)) <= 24) as Hp24 by (by apply zlen_mapped_attr).
  pose proof (zlen_zattr ATTR_DATA data) as Ez. pose proof (zlen_nonneg (attr_wire (peer_attr peer tid))).
  unfold plain. rewrite turn_parse_message by done.
  assert (fits 16 (zlen (attrs_wire l)) /\ Forall attr_ok l) as [Hz Hok].
  { destruct Hl as [-> | ->]; rewrite !attrs_wire_cons, app_nil_r, zlen_app; (split; [unfold fits; lia|]);
      (constructor; [done|]); (constructor; [done|constructor]). }
  rewrite parse_message_attrs by done.
  assert (gathered gather_start l =
    Some (mkGathered (20 + zlen (attrs_wire l)) None (Some (mapped_bytes peer tid)) (Some data) None)) as ->
    by (by destruct Hl as [-> | ->]).
  cbn [ok_or mbind result_bind]. unfold interpret. cbn [ga_peer ga_data mbind option_bind].
  rewrite decode_mapped_bytes by done. done.
Qed.

(** Both framings carry a datagram to its peer and back.  A caller leaves
    room for the header, places the data behind it and wraps it in place: the
    channel form is the channel, the length and the data, padded to four bytes on a
    stream; the indication form is a message of the peer's address and the data.
    Each form is recovered whole by the parser, padded or not, the indication with
    its two attributes in either order, and each is cut off the front of a stream
    at exactly the length it was given. *)
Theorem framing_roundtrip (tid : TransactionId) (peer : SocketAddr) (channel : Z) (h hi data rest more : list Z) :
  zlen tid = 12 -> sock_ok peer -> FIRST_CHANNEL <= channel <= LAST_CHANNEL -> zlen data <= 2 ^ 15 ->
  zlen h = 4 -> zlen hi = indication_header_len peer -> pad_len (zlen data) <= zlen rest -> zlen rest < 2 ^ 62 ->
  let len := zlen data in
  let after := drop (Z.to_nat (pad_len len)) rest in
  let bare := channel_wire channel data in
  let padded := bare ++ zeros (pad_len len) in
  let pair := [peer_attr peer tid; zattr ATTR_DATA data] in
  (wrap_channel channel len (h ++ data ++ rest) = (bare ++ rest, Ok (zlen bare)) /\
   turn_parse bare = Ok (TurnChannel channel data)) /\
  (wrap_channel_padded channel len (h ++ data ++ rest) = (padded ++ after, Ok (zlen padded)) /\
   turn_parse padded = Ok (TurnChannel channel data) /\
   turn_frame (padded ++ more) = Ok (Some (mkFrame (zlen padded) (zlen bare) false))) /\
  (wrap_indication tid peer len (hi ++ data ++ rest) =
     (plain SEND_KIND tid pair ++ after, Ok (zlen (plain SEND_KIND tid pair))) /\
   framed (plain SEND_KIND tid pair) /\
   turn_parse (plain DATA_KIND tid pair) = Ok (TurnIndication (wire_addr peer) data) /\
   turn_parse (plain DATA_KIND tid (reverse pair)) = Ok (TurnIndication (wire_addr peer) data)).
Proof.
  intros Ht Hp Hc Hd Hh Hhi Hr Hz len after bare padded pair. pose proof (zlen_nonneg data).
  pose proof (pad_len_bounds (zlen data)). assert (fits 16 (zlen data)) as Hf by (unfold fits; lia).
  pose proof (zlen_channel_wire channel data) as Eb. split; [|split].
  - split; [unfold bare; rewrite Eb; by apply wrap_channel_eq|].
    rewrite <- (app_nil_r bare). apply parse_channel_wire; [done..|]. change (zlen []) with 0. lia.
  - split; [by apply wrap_channel_padded_eq|]. split.
    + apply parse_channel_wire; [done..|]. unfold len. rewrite zlen_zeros; lia.
    + unfold bare at 1. rewrite Eb. by apply frame_channel.
  - split; [by apply wrap_indication_eq|]. split; [|split; apply data_indication_parses; try done; auto].
    intros m. unfold plain at 1. rewrite <- app_assoc, frame_message; [|done|..].
    + unfold plain. by rewrite zlen_app, zlen_stun_head.
    + unfold pair. rewrite !attrs_wire_cons, app_nil_r, zlen_app, zlen_zattr.
      pose proof (zlen_mapped_attr ATTR_XOR_PEER_ADDRESS peer tid Hp Ht) as H24. fold (peer_attr peer tid) in H24.
      pose proof (zlen_nonneg (attr_wire (peer_attr peer tid))). unfold fits. lia.
    + apply attrs_wire_mult. constructor; [by apply mapped_attr_ok|]. constructor; [by apply zattr_ok|constructor].
Qed.

Lemma framing_roundtrip_witness :
  turn_parse (plain DATA_KIND sample_tid [peer_attr sample_peer sample_tid; zattr ATTR_DATA [1; 2; 3; 4; 5]])
    = Ok (TurnIndication sample_peer [1; 2; 3; 4; 5]).
Proof.
  refine (proj1 (proj2 (proj2 (proj2 (proj2 (framing_roundtrip sample_tid sample_peer 0x4001 (repeat 0 4) (repeat 0 36)
    [1; 2; 3; 4; 5] (repeat 0 8) [] eq_refl _ _ _ eq_refl eq_refl _ _)))))); vm_compute; split_and?;
    first [done|repeat constructor; discriminate].
Defined.
