(* ===== verification/Relay.v ===== *)
(** The relay as a client keeps it (crates/core/src/relay.rs): an allocation, a
    permission for every address the host may be reached at, a channel for the
    path, and the typed ways it ends.  One definition per method. *)

From Stdlib Require Import SpecFloat.
From S2P Require Import Prelude CoreError Float64 Effect Net Slots Stun Conn Turn.

Definition LIFETIME_S : Z := 600.
Definition SETUP_DEADLINE_MS : f64 := f64_of_Z 5000.
Definition PERMISSION_MS : f64 := f64_of_Z 300000.
Definition RENEW_MS : f64 := f64_of_Z 240000.
Definition CHANNEL_MS : f64 := f64_of_Z 600000.
Definition ALLOCATE_RESEND_MS : f64 := f64_of_Z 500.
Definition RESEND_MS : f64 := f64_of_Z 2000.
Definition MAX_PERMISSIONS : Z := 8.
Definition MAX_CHANNELS : Z := 4.

Definition f64_infinity : f64 := S754_infinity false.
Definition f64_neg_infinity : f64 := S754_infinity true.

Inductive Carrier := Carrier_Datagram | Carrier_Stream.

(** [relay::Failure] and [relay::State]. *)
Inductive RelayFailure := Unreachable | Refused | Lost.

Inductive RelayState :=
  | Setup
  | Ready (relayed : SocketAddr)
  | RelayFailed (failure : RelayFailure)
  | Released.

#[global] Instance Carrier_eq_dec : EqDecision Carrier.
Proof. solve_decision. Defined.
#[global] Instance RelayFailure_eq_dec : EqDecision RelayFailure.
Proof. solve_decision. Defined.
#[global] Instance RelayState_eq_dec : EqDecision RelayState.
Proof. solve_decision. Defined.

(** [relay::reachable]. *)
Definition reachable (peer : SocketAddr) : bool :=
  match sock_ip (canonical peer) with
  | IpV4 ip => negb (is_loopback ip) && negb (is_unspecified ip)
  | IpV6 _ => false
  end.

(** ** Requests in flight *)

Record Pending := mkPending {
  pe_tid : TransactionId;
  pe_sent_ms : f64;
  pe_wait_ms : f64;
}.

Record Ids := mkIds {
  id_seed : list Z;
  id_counter : Z;
}.

Section ids.
  Context `{D : Digests}.

Definition Ids_next (ids : Ids) : Ids * TransactionId :=
  (mkIds (id_seed ids) (wadd 32 (id_counter ids) 1), derive_transaction_id (id_seed ids) (id_counter ids)).

(** [relay::step]. *)
Definition step (pending : option Pending) (due_ms now_ms : f64) (ids : Ids) (first_wait_ms : f64)
    (backoff resends : bool) : option Pending * Ids * option TransactionId :=
  match pending with
  | Some request =>
      if resends && f64_geb (f64_sub now_ms (pe_sent_ms request)) (pe_wait_ms request) then
        let wait_ms := if backoff then f64_mul (pe_wait_ms request) (f64_of_Z 2) else pe_wait_ms request in
        (Some (mkPending (pe_tid request) now_ms wait_ms), ids, Some (pe_tid request))
      else (pending, ids, None)
  | None =>
      if f64_geb now_ms due_ms then
        let '(ids, tid) := Ids_next ids in
        (Some (mkPending tid now_ms first_wait_ms), ids, Some tid)
      else (None, ids, None)
  end.
End ids.

Definition next_step_ms (pending : option Pending) (due_ms : f64) (resends : bool) : f64 :=
  match pending with
  | Some request => if negb resends then f64_infinity else f64_add (pe_sent_ms request) (pe_wait_ms request)
  | None => due_ms
  end.

(** ** [Lease] *)

Record Lease (T : Type) := mkLease {
  ls_target : T;
  ls_pending : option Pending;
  ls_due_ms : f64;
  ls_expires_ms : option f64;
  ls_refused : bool;
}.
Arguments mkLease {T}.
Arguments ls_target {T}.
Arguments ls_pending {T}.
Arguments ls_due_ms {T}.
Arguments ls_expires_ms {T}.
Arguments ls_refused {T}.

#[export] Instance Lease_eta T : Eta (Lease T) := fun l =>
  mkLease (ls_target l) (ls_pending l) (ls_due_ms l) (ls_expires_ms l) (ls_refused l).

Definition Lease_new {T} (target : T) : Lease T := mkLease target None f64_neg_infinity None false.

Definition Lease_grant {T} (life_ms now_ms : f64) (l : Lease T) : Lease T :=
  l <| ls_expires_ms := Some (f64_add now_ms life_ms) |> <| ls_due_ms := f64_add now_ms RENEW_MS |>.

Definition Lease_live {T} (l : Lease T) (now_ms : f64) : bool :=
  negb (ls_refused l) && match ls_expires_ms l with Some at_ => f64_ltb now_ms at_ | None => false end.

Inductive Ask :=
  | Ask_Allocate
  | Ask_Refresh (lifetime_s : Z)
  | Ask_Permission (ip : IpAddr)
  | Ask_Channel (number : Z) (peer : SocketAddr).

(** ** [Relay] *)

Record Relay := mkRelay {
  rl_server : SocketAddr;
  rl_carrier : Carrier;
  rl_username : list Z;
  rl_password : list Z;
  rl_ids : Ids;
  rl_state : RelayState;
  rl_started_ms : f64;
  rl_local : option IpAddr;
  rl_realm : list Z;
  rl_realm_len : Z;
  rl_nonce : list Z;
  rl_nonce_len : Z;
  rl_key : option Key;
  rl_allocating : option Pending;
  rl_relayed : option SocketAddr;
  rl_expires_ms : f64;
  rl_refresh_ms : f64;
  rl_refreshing : option Pending;
  rl_permissions : list (option (Lease IpAddr));
  rl_channels : list (option (Lease SocketAddr));
  rl_destination : option SocketAddr;
  rl_releasing : bool;
}.

#[export] Instance Relay_eta : Eta Relay := fun r =>
  mkRelay (rl_server r) (rl_carrier r) (rl_username r) (rl_password r) (rl_ids r) (rl_state r) (rl_started_ms r)
    (rl_local r) (rl_realm r) (rl_realm_len r) (rl_nonce r) (rl_nonce_len r) (rl_key r) (rl_allocating r)
    (rl_relayed r) (rl_expires_ms r) (rl_refresh_ms r) (rl_refreshing r) (rl_permissions r) (rl_channels r)
    (rl_destination r) (rl_releasing r).

Definition Relay_new (server : SocketAddr) (username password seed : list Z) (now_ms : f64) : Relay :=
  mkRelay (canonical server) Carrier_Datagram username password (mkIds seed 0) Setup now_ms None
    (repeat 0 (Z.to_nat MAX_REALM)) 0 (repeat 0 (Z.to_nat MAX_NONCE)) 0 None None None f64_infinity f64_infinity
    None (repeat None (Z.to_nat MAX_PERMISSIONS)) (repeat None (Z.to_nat MAX_CHANNELS)) None false.

Definition Relay_over (r : Relay) (carrier : Carrier) : Relay := r <| rl_carrier := carrier |>.

Definition Relay_resends (r : Relay) : bool := bool_decide (rl_carrier r = Carrier_Datagram).

(** [Relay::relayed]. *)
Definition Relay_offered (r : Relay) : option SocketAddr :=
  match rl_state r with Ready relayed => Some relayed | _ => None end.

Definition Relay_live (r : Relay) : bool :=
  match rl_state r with Setup | Ready _ => true | _ => false end.

Definition Relay_release (r : Relay) : Relay := if Relay_live r then r <| rl_releasing := true |> else r.

Definition Relay_fail (r : Relay) (failure : RelayFailure) : Relay :=
  if Relay_live r then r <| rl_state := RelayFailed failure |> else r.

Definition Relay_permit (r : Relay) (ip : IpAddr) : Relay :=
  if existsb (fun lease => bool_decide (ls_target lease = ip)) (flatten (rl_permissions r)) then r
  else match fill_first (rl_permissions r) (Lease_new ip) with
       | Some slots => r <| rl_permissions := slots |>
       | None => r
       end.

Definition Relay_relayable (r : Relay) (peer : SocketAddr) : bool :=
  reachable peer &&
  negb (existsb (fun lease => bool_decide (ls_target lease = sock_ip peer) && ls_refused lease)
          (flatten (rl_permissions r))).

Definition Relay_follow (r : Relay) (peer : SocketAddr) : Relay :=
  if bool_decide (rl_destination r = Some peer) then r
  else
  let r := r <| rl_destination := Some peer |> in
  if existsb (fun lease => bool_decide (ls_target lease = peer)) (flatten (rl_channels r)) then r
  else match fill_first (rl_channels r) (Lease_new peer) with
       | Some slots => r <| rl_channels := slots |>
       | None => r
       end.

(** [relay::channel_number]. *)
Definition channel_number (index : Z) : option Z :=
  i ← try_from 16 index; checked_add 16 FIRST_CHANNEL i.

Definition Relay_channel_for (r : Relay) (peer : SocketAddr) (now_ms : f64) : option Z :=
  '(index, _) ← position (fun lease => bool_decide (ls_target lease = peer) && Lease_live lease now_ms) (rl_channels r);
  channel_number index.

Definition Relay_channel_peer (r : Relay) (number : Z) : option SocketAddr :=
  if number <? FIRST_CHANNEL then None
  else
  slot ← get_at (rl_channels r) (number - FIRST_CHANNEL);
  ls_target <$> slot.

(** ** Output *)

Section relay.
  Context `{D : Digests}.

Definition Relay_indication_id (r : Relay) : Relay * TransactionId :=
  let '(ids, tid) := Ids_next (rl_ids r) in (r <| rl_ids := ids |>, tid).

(** The loops of [next_ask]: the first lease with something to send, its slot
    stepped. *)
Fixpoint step_leases {T} (index : Z) (named : Z -> bool) (slots : list (option (Lease T))) (now_ms : f64) (ids : Ids)
    (resends : bool) : option (Z * T * TransactionId * list (option (Lease T)) * Ids) :=
  match slots with
  | [] => None
  | slot :: rest =>
      let go := '(i, target, tid, rest, ids) ← step_leases (index + 1) named rest now_ms ids resends;
                Some (i, target, tid, slot :: rest, ids) in
      match slot with
      | None => go
      | Some lease =>
          if ls_refused lease || negb (named index) then go
          else
          match step (ls_pending lease) (ls_due_ms lease) now_ms ids RESEND_MS false resends with
          | (pending, ids, Some tid) =>
              Some (index, ls_target lease, tid, Some (lease <| ls_pending := pending |>) :: rest, ids)
          | _ => go
          end
      end
  end.

Definition Relay_next_ask (r : Relay) (now_ms : f64) : Relay * option (Ask * TransactionId) :=
  if rl_releasing r then
    let r := r <| rl_releasing := false |> <| rl_state := Released |> in
    match rl_relayed r with
    | Some _ => let '(ids, tid) := Ids_next (rl_ids r) in (r <| rl_ids := ids |>, Some (Ask_Refresh 0, tid))
    | None => (r, None)
    end
  else if negb (Relay_live r) then (r, None)
  else
  let resends := Relay_resends r in
  match rl_relayed r with
  | None =>
      let '(pending, ids, sent) := step (rl_allocating r) f64_neg_infinity now_ms (rl_ids r) ALLOCATE_RESEND_MS true resends in
      let r := r <| rl_allocating := pending |> <| rl_ids := ids |> in
      (r, tid ← sent; Some (Ask_Allocate, tid))
  | Some _ =>
  let '(pending, ids, sent) := step (rl_refreshing r) (rl_refresh_ms r) now_ms (rl_ids r) RESEND_MS false resends in
  let r := r <| rl_refreshing := pending |> <| rl_ids := ids |> in
  match sent with
  | Some tid => (r, Some (Ask_Refresh LIFETIME_S, tid))
  | None =>
  match step_leases 0 (fun _ => true) (rl_permissions r) now_ms (rl_ids r) resends with
  | Some (_, target, tid, slots, ids) =>
      (r <| rl_permissions := slots |> <| rl_ids := ids |>, Some (Ask_Permission target, tid))
  | None =>
  match step_leases 0 (fun index => match channel_number index with Some _ => true | None => false end)
          (rl_channels r) now_ms (rl_ids r) resends with
  | Some (index, target, tid, slots, ids) =>
      (r <| rl_channels := slots |> <| rl_ids := ids |>,
       number ← channel_number index; Some (Ask_Channel number target, tid))
  | None => (r, None)
  end
  end
  end
  end.

Definition Relay_auth (r : Relay) : option Auth :=
  key ← rl_key r;
  Some (mkAuth (rl_username r) (default [] (get_range (rl_realm r) 0 (rl_realm_len r)))
         (default [] (get_range (rl_nonce r) 0 (rl_nonce_len r))) key).

Definition Relay_encode (r : Relay) (ask : Ask) (tid : TransactionId) : eff (list Z) Z :=
  match ask, Relay_auth r with
  | Ask_Allocate, auth => encode_allocate tid LIFETIME_S auth
  | Ask_Refresh lifetime_s, Some auth => encode_refresh tid lifetime_s auth
  | Ask_Permission ip, Some auth => encode_create_permission tid ip auth
  | Ask_Channel number peer, Some auth => encode_channel_bind tid number peer auth
  | _, None => fail Malformed
  end.

Definition Relay_get_output (r : Relay) (now_ms : f64) (out : list Z) : Relay * list Z * option (result Z) :=
  match Relay_next_ask r now_ms with
  | (r, None) => (r, out, None)
  | (r, Some (ask, tid)) => let '(out, res) := Relay_encode r ask tid out in (r, out, Some res)
  end.

(** ** Answers *)

Definition Relay_renewed (r : Relay) (lifetime_s : option Z) (now_ms : f64) : Relay :=
  let seconds := match lifetime_s with Some s => if 0 <? s then s else LIFETIME_S | None => LIFETIME_S end in
  let lifetime_ms := f64_mul (f64_of_Z seconds) (f64_of_Z 1000) in
  r <| rl_expires_ms := f64_add now_ms lifetime_ms |>
    <| rl_refresh_ms := f64_add now_ms (f64_div lifetime_ms (f64_of_Z 2)) |>.

Definition Relay_adopt (r : Relay) (challenge : Challenge) : Relay :=
  match get_range (rl_realm r) 0 (zlen (ch_realm challenge)), get_range (rl_nonce r) 0 (zlen (ch_nonce challenge)) with
  | Some realm, Some nonce =>
      let same_realm := (rl_realm_len r =? zlen (ch_realm challenge)) && bool_decide (realm = ch_realm challenge) in
      let r :=
        if negb same_realm || match rl_key r with None => true | Some _ => false end then
          r <| rl_realm := put_range (rl_realm r) 0 (ch_realm challenge) |>
            <| rl_realm_len := zlen (ch_realm challenge) |>
            <| rl_key := Some (Key_long_term (rl_username r) (ch_realm challenge) (rl_password r)) |>
        else r in
      r <| rl_nonce := put_range (rl_nonce r) 0 (ch_nonce challenge) |>
        <| rl_nonce_len := zlen (ch_nonce challenge) |>
  | _, _ => r
  end.

Definition Relay_allocated (r : Relay) (response : Response) (now_ms : f64) : Relay :=
  let r := r <| rl_allocating := None |> in
  match rs_error response with
  | None =>
      match Response_relayed_address response with
      | Some relayed =>
          if is_ipv4 relayed then
            let r := r <| rl_relayed := Some relayed |> in
            let r := Relay_renewed r (Response_lifetime_s response) now_ms in
            Relay_permit r (sock_ip relayed)
          else Relay_fail r Refused
      | None => Relay_fail r Refused
      end
  | Some code =>
      match Response_challenge response with
      | Some challenge =>
          if (code =? STALE_NONCE) || match rl_key r with None => true | Some _ => false end
          then Relay_adopt r challenge else Relay_fail r Refused
      | None => Relay_fail r Refused
      end
  end.

Definition Relay_refreshed (r : Relay) (response : Response) (now_ms : f64) : Relay :=
  let r := r <| rl_refreshing := None |> in
  match rs_error response, Response_challenge response with
  | None, _ => Relay_renewed r (Response_lifetime_s response) now_ms
  | Some code, Some challenge => if code =? STALE_NONCE then Relay_adopt r challenge else Relay_fail r Lost
  | Some _, None => Relay_fail r Lost
  end.

Definition Relay_settle (r : Relay) : Relay :=
  match rl_state r, rl_relayed r with
  | Setup, Some relayed =>
      if existsb (fun lease => bool_decide (ls_target lease = sock_ip relayed) &&
                               (ls_refused lease || match ls_expires_ms lease with Some _ => true | None => false end))
           (flatten (rl_permissions r))
      then r <| rl_state := Ready relayed |> else r
  | _, _ => r
  end.

(** The stale nonce's challenge, if the answer is one. *)
Definition stale_challenge (response : Response) : option Challenge :=
  if bool_decide (rs_error response = Some STALE_NONCE) then Response_challenge response else None.

Definition Relay_permitted (r : Relay) (index : Z) (response : Response) (now_ms : f64) : Relay :=
  let r := match stale_challenge response with Some challenge => Relay_adopt r challenge | None => r end in
  let destination := sock_ip <$> rl_destination r in
  match get_at (rl_permissions r) index with
  | Some (Some lease) =>
      let lease := lease <| ls_pending := None |> in
      let '(lease, lost) :=
        match rs_error response with
        | None => (Lease_grant PERMISSION_MS now_ms lease, false)
        | Some _ =>
            match stale_challenge response with
            | Some _ => (lease, false)
            | None =>
                let renewal := match ls_expires_ms lease with Some _ => true | None => false end in
                (lease <| ls_refused := true |>, renewal && bool_decide (destination = Some (ls_target lease)))
            end
        end in
      let r := r <| rl_permissions := put_at (rl_permissions r) index (Some lease) |> in
      let r := if lost then Relay_fail r Lost else r in
      Relay_settle r
  | _ => r
  end.

Definition Relay_bound (r : Relay) (index : Z) (response : Response) (now_ms : f64) : Relay :=
  let r := match stale_challenge response with Some challenge => Relay_adopt r challenge | None => r end in
  match get_at (rl_channels r) index with
  | Some (Some lease) =>
      let lease := lease <| ls_pending := None |> in
      match rs_error response with
      | None =>
          let lease := Lease_grant CHANNEL_MS now_ms lease in
          let ip := sock_ip (ls_target lease) in
          r <| rl_channels := put_at (rl_channels r) index (Some lease) |>
            <| rl_permissions ::= update_first
                 (fun permission => bool_decide (ls_target permission = ip) && negb (ls_refused permission))
                 (fun permission => permission <| ls_expires_ms := Some (f64_add now_ms PERMISSION_MS) |>) |>
      | Some _ =>
          match stale_challenge response with
          | Some _ => r <| rl_channels := put_at (rl_channels r) index (Some lease) |>
          | None => r <| rl_channels := put_at (rl_channels r) index (Some (lease <| ls_refused := true |>)) |>
          end
      end
  | _ => r
  end.

(** The closure [answers]. *)
Definition answers (tid : TransactionId) (pending : option Pending) : bool :=
  match pending with Some p => bool_decide (pe_tid p = tid) | None => false end.

Definition Relay_answered (r : Relay) (response : Response) (now_ms : f64) : Relay :=
  if negb (Relay_live r) then r
  else
  let keyed := Response_is_success response || bool_decide (rs_error response = Some NO_CODE) in
  if keyed && negb (match rl_key r with Some key => Response_verify response key | None => false end) then r
  else
  let tid := rs_tid response in
  if answers tid (rl_allocating r) then Relay_allocated r response now_ms
  else if answers tid (rl_refreshing r) then Relay_refreshed r response now_ms
  else
  match position (fun lease => answers tid (ls_pending lease)) (rl_permissions r) with
  | Some (index, _) => Relay_permitted r index response now_ms
  | None =>
  match position (fun lease => answers tid (ls_pending lease)) (rl_channels r) with
  | Some (index, _) => Relay_bound r index response now_ms
  | None => r
  end
  end.

Definition Relay_unwrap (r : Relay) (datagram : list Z) (local : option IpAddr) (now_ms : f64) :
    Relay * result (option (SocketAddr * list Z)) :=
  let r := match rl_local r with None => r <| rl_local := canonical_ip <$> local |> | Some _ => r end in
  let toward peer data := if negb (reachable peer) then Err Malformed else Ok (Some (peer, data)) in
  match turn_parse datagram with
  | Err e => (r, Err e)
  | Ok (TurnResponse response) => (Relay_answered r response now_ms, Ok None)
  | Ok (TurnIndication peer data) => (r, toward peer data)
  | Ok (TurnChannel number data) =>
      match Relay_channel_peer r number with
      | Some peer => (r, toward peer data)
      | None => (r, Err Malformed)
      end
  end.
End relay.

(** ** Timers *)

Definition Relay_path_lapsed (r : Relay) (now_ms : f64) : bool :=
  match rl_destination r with
  | None => false
  | Some peer =>
      existsb (fun lease => bool_decide (ls_target lease = sock_ip peer) &&
                            match ls_expires_ms lease with Some at_ => f64_geb now_ms at_ | None => false end)
        (flatten (rl_permissions r))
  end.

Definition Relay_poll (r : Relay) (now_ms : f64) : Relay :=
  match rl_state r with
  | Setup =>
      if f64_geb (f64_sub now_ms (rl_started_ms r)) SETUP_DEADLINE_MS then Relay_fail r Unreachable else r
  | Ready _ =>
      if f64_geb now_ms (rl_expires_ms r) || Relay_path_lapsed r now_ms then Relay_fail r Lost else r
  | _ => r
  end.

Definition Relay_next_timer_ms (r : Relay) (now_ms : f64) : f64 :=
  if rl_releasing r then f64_zero
  else
  match (match rl_state r with
         | Setup => Some (f64_add (rl_started_ms r) SETUP_DEADLINE_MS)
         | Ready _ => Some (rl_expires_ms r)
         | _ => None
         end) with
  | None => f64_infinity
  | Some soonest =>
      let resends := Relay_resends r in
      let soonest :=
        match rl_relayed r with
        | None => f64_min soonest (next_step_ms (rl_allocating r) f64_neg_infinity resends)
        | Some _ =>
            let soonest := f64_min soonest (next_step_ms (rl_refreshing r) (rl_refresh_ms r) resends) in
            let soonest :=
              foldl (fun soonest lease =>
                let soonest := if negb (ls_refused lease)
                               then f64_min soonest (next_step_ms (ls_pending lease) (ls_due_ms lease) resends)
                               else soonest in
                if match rl_destination r with Some peer => bool_decide (sock_ip peer = ls_target lease) | None => false end
                then f64_min soonest (default f64_infinity (ls_expires_ms lease))
                else soonest)
                soonest (flatten (rl_permissions r)) in
            foldl (fun soonest lease => f64_min soonest (next_step_ms (ls_pending lease) (ls_due_ms lease) resends))
              soonest (List.filter (fun lease => negb (ls_refused lease)) (flatten (rl_channels r)))
        end in
      f64_max (f64_sub soonest now_ms) f64_zero
  end.
