(* ===== verification/RelaySpec.v ===== *)
(** What the relay client promises: what its grants rest on, what it asks and
    that it can always be asked, that its ends are ends, and the exchange that sets it up. *)

From Stdlib Require Import SpecFloat.
From S2P Require Import Prelude CoreError Float64 Effect Net Slots Stun StunFacts StunSpec Conn ConnSpec Turn.
From S2P Require Import TurnSpec Relay.

(** ** What comes off the wire is well formed *)

Lemma find_attr_bytes k l v : bytes_ok (attrs_wire l) -> find_attr k l = Some v -> bytes_ok v.
Proof.
  induction l as [|a l IH]; [done|]. rewrite attrs_wire_cons. intros [Ha Hl]%Forall_app. cbn [find_attr].
  destruct (attr_kind a =? k); [|by apply IH]. intros [= <-]. unfold attr_wire in Ha.
  apply Forall_app in Ha as [_ Ha]. apply Forall_app in Ha as [_ Ha]. by apply Forall_app in Ha as [? _].
Qed.

Lemma get_range_bytes l a b s : bytes_ok l -> get_range l a b = Some s -> bytes_ok s.
Proof. intros H (_ & _ & ->)%get_range_Some. by apply Forall_take, Forall_drop. Qed.

Lemma get_at_byte l i b : bytes_ok l -> get_at l i = Some b -> fits 8 b.
Proof. intros H E. unfold get_at in E. eapply (proj1 (Forall_lookup _ _)); eauto. Qed.

Lemma decode_mapped_ok value tid a : bytes_ok value -> tid_ok tid -> decode_mapped value tid = Some a -> sock_ok a.
Proof.
  intros Hv [Ht Bt]. unfold decode_mapped.
  destruct (get_at value 1) as [family|]; [|done]. destruct (get_at value 2) as [b2|] eqn:E2; [|done].
  destruct (get_at value 3) as [b3|] eqn:E3; [|done]. cbn [mbind option_bind].
  assert (fits 16 (Z.lxor (from_be [b2; b3]) 0x2112)) as Hp.
  { apply port_mask. rewrite be16_pair. pose proof (get_at_byte _ _ _ Hv E2). pose proof (get_at_byte _ _ _ Hv E3).
    unfold fits in *. lia. }
  assert (bytes_ok COOKIE_BYTES) as Bc by apply to_be_ok.
  destruct (family =? 1); [|destruct (family =? 2); [|done]].
  - destruct (get_range value 4 8) as [raw|] eqn:Er; [|done]. intros E. apply (inj Some) in E as <-.
    pose proof (get_range_bytes _ _ _ _ Hv Er). apply get_range_zlen in Er; [|done].
    unfold SocketAddr_new, sock_ok. split_and!; [by rewrite zlen_xor by (by rewrite Er)|by apply xor_bytes_ok|done].
  - destruct (get_range value 4 20) as [raw|] eqn:Er; [|done]. intros E. apply (inj Some) in E as <-.
    pose proof (get_range_bytes _ _ _ _ Hv Er). apply get_range_zlen in Er; [|done].
    apply canonical_ok. unfold SocketAddr_new, sock_ok. split_and!; try done; [|by apply xor_bytes_ok; [apply bytes_app|]].
    by rewrite zlen_xor by (by rewrite Er, zlen_app, Ht).
Qed.

Lemma sock_ip_ok a : sock_ok a -> ip_ok (sock_ip a).
Proof. destruct a; cbn; tauto. Qed.

Section relay.
  Context {D : Digests} {L : DigestLaws D}.

(** ** Runs *)

(** What the relay saw of it: a request asked under an identifier, a datagram
    come in. *)
Inductive relay_event :=
  | Rl_ask (ask : Ask) (tid : TransactionId)
  | Rl_in (d : list Z).

Inductive relay_step (r : Relay) : list relay_event -> Relay -> Prop :=
  | rs_permit ip : ip_ok ip -> relay_step r [] (Relay_permit r ip)
  | rs_follow peer : sock_ok peer -> relay_step r [] (Relay_follow r peer)
  | rs_release : relay_step r [] (Relay_release r)
  | rs_poll now : relay_step r [] (Relay_poll r now)
  | rs_indication : relay_step r [] (Relay_indication_id r).1
  | rs_input d local now :
      bytes_ok d -> zlen d < 2 ^ 63 -> relay_step r [Rl_in d] (Relay_unwrap r d local now).1
  | rs_output now r' ask tid :
      Relay_next_ask r now = (r', Some (ask, tid)) -> relay_step r [Rl_ask ask tid] r'
  | rs_quiet now r' : Relay_next_ask r now = (r', None) -> relay_step r [] r'.

Inductive relay_run (r : Relay) : list relay_event -> Relay -> Prop :=
  | rrun_start : relay_run r [] r
  | rrun_step tr r1 ev r2 : relay_run r tr r1 -> relay_step r1 ev r2 -> relay_run r (tr ++ ev) r2.

(** The relay's own word on a request: asked under [tid], then a success of that
    transaction sealed under the long-term key of some realm. *)
Definition granted (user pw : list Z) (tr : list relay_event) (asks : Ask -> Prop)
    (says : TransactionId -> list Attr -> Prop) : Prop :=
  exists before after d ask realm m tid attrs post,
    tr = before ++ Rl_in d :: after /\ asks ask /\ Rl_ask ask tid ∈ before /\
    d = sealed_answer (Key_long_term user realm pw) (Z.lor (method_code m) CLASS_SUCCESS) tid attrs post /\
    says tid attrs.

Definition anything (tid : TransactionId) (attrs : list Attr) : Prop := True.

(** The relayed address, as sealed. *)
Definition says_relayed (a : SocketAddr) (tid : TransactionId) (attrs : list Attr) : Prop :=
  exists v, find_attr ATTR_XOR_RELAYED_ADDRESS attrs = Some v /\ decode_mapped v tid = Some a.

Definition asks_ip (ip : IpAddr) (ask : Ask) : Prop :=
  match ask with
  | Ask_Permission ip' => ip' = ip
  | Ask_Channel _ peer => sock_ip peer = ip
  | _ => False
  end.
Definition asks_peer (peer : SocketAddr) (ask : Ask) : Prop :=
  match ask with Ask_Channel _ peer' => peer' = peer | _ => False end.

(** What a lease rests on: who it names, the request in flight, the grant. *)
Record lease_inv {T} (ok : T -> Prop) (asked : T -> Ask -> Prop) (grants : T -> Prop) (tr : list relay_event)
    (l : Lease T) : Prop := {
  li_target : ok (ls_target l);
  li_pending : forall p, ls_pending l = Some p -> exists ask, asked (ls_target l) ask /\ Rl_ask ask (pe_tid p) ∈ tr;
  li_expires : ls_expires_ms l <> None -> grants (ls_target l);
}.

Definition permission_inv user pw tr : Lease IpAddr -> Prop :=
  lease_inv ip_ok (fun ip ask => ask = Ask_Permission ip) (fun ip => granted user pw tr (asks_ip ip) anything) tr.
Definition channel_inv user pw tr : Lease SocketAddr -> Prop :=
  lease_inv sock_ok asks_peer (fun peer => granted user pw tr (asks_peer peer) anything) tr.

Definition cred_inv (user pw : list Z) (r : Relay) : Prop :=
  rl_username r = user /\ rl_password r = pw /\
  zlen (rl_realm r) = MAX_REALM /\ zlen (rl_nonce r) = MAX_NONCE /\
  0 <= rl_realm_len r <= MAX_REALM /\ 0 <= rl_nonce_len r <= MAX_NONCE /\
  (rl_key r = None \/ rl_key r = Some (Key_long_term user (take (Z.to_nat (rl_realm_len r)) (rl_realm r)) pw)).

Definition pending_inv (tr : list relay_event) (ask : Ask) (pending : option Pending) : Prop :=
  forall p, pending = Some p -> Rl_ask ask (pe_tid p) ∈ tr.

Record relay_inv (user pw seed : list Z) (tr : list relay_event) (r : Relay) : Prop := {
  ri_cred : cred_inv user pw r;
  ri_seed : id_seed (rl_ids r) = seed;
  ri_asked : forall ask tid, Rl_ask ask tid ∈ tr -> tid_ok tid;
  ri_allocating : pending_inv tr Ask_Allocate (rl_allocating r);
  ri_refreshing : pending_inv tr (Ask_Refresh LIFETIME_S) (rl_refreshing r);
  ri_permissions : forall l, l ∈ flatten (rl_permissions r) -> permission_inv user pw tr l;
  ri_channels : forall l, l ∈ flatten (rl_channels r) -> channel_inv user pw tr l;
  ri_channel_slots : length (rl_channels r) = Z.to_nat MAX_CHANNELS;
  ri_relayed : forall a, rl_relayed r = Some a -> sock_ok a /\ is_ipv4 a = true /\ rl_key r <> None /\
    granted user pw tr (eq Ask_Allocate) (says_relayed a);
  ri_once : rl_relayed r <> None -> rl_allocating r = None;
  ri_ready : forall a, rl_state r = Ready a -> rl_relayed r = Some a;
}.

Lemma granted_mono user pw tr ev asks says : granted user pw tr asks says -> granted user pw (tr ++ ev) asks says.
Proof.
  intros (b & a & d & ask & realm & m & tid & attrs & post & -> & H).
  exists b, (a ++ ev), d, ask, realm, m, tid, attrs, post. split; [by rewrite <- app_assoc|done].
Qed.

Lemma ask_mono tr ev ask tid : Rl_ask ask tid ∈ tr -> Rl_ask ask tid ∈ tr ++ ev.
Proof. intros. apply elem_of_app. by left. Qed.

Lemma lease_inv_mono {T} (ok : T -> Prop) asked (grants grants' : T -> Prop) tr ev l :
  (forall t, grants t -> grants' t) -> lease_inv ok asked grants tr l -> lease_inv ok asked grants' (tr ++ ev) l.
Proof.
  intros Hg [H1 H2 H3]. split; [done| |by auto]. intros p Hp. destruct (H2 p Hp) as (ask & ? & ?).
  eauto using ask_mono.
Qed.

Lemma relay_inv_mono user pw seed tr ev r :
  (forall ask tid, Rl_ask ask tid ∈ ev -> tid_ok tid) ->
  relay_inv user pw seed tr r -> relay_inv user pw seed (tr ++ ev) r.
Proof.
  intros Hev []. split; try done.
  - intros ask tid. rewrite elem_of_app. intros [H|H]; eauto.
  - intros p Hp. eauto using ask_mono.
  - intros p Hp. eauto using ask_mono.
  - intros l Hl. eapply lease_inv_mono; [|by apply ri_permissions0]. intros ip. apply granted_mono.
  - intros l Hl. eapply lease_inv_mono; [|by apply ri_channels0]. intros ip. apply granted_mono.
  - intros a Ha. destruct (ri_relayed0 a Ha) as (? & ? & ? & ?). split_and!; eauto using granted_mono.
Qed.

(** ** Operations that ask and answer nothing *)

Lemma take_put_range (l s : list Z) : zlen s <= zlen l -> take (length s) (put_range l 0 s) = s.
Proof. intros H. rewrite put_range_0. by rewrite take_app_length. Qed.

Section quiet.
  Context (user pw seed : list Z) (tr : list relay_event) (r : Relay).
  Hypothesis I : relay_inv user pw seed tr r.

Lemma fail_inv failure : relay_inv user pw seed tr (Relay_fail r failure).
Proof. unfold Relay_fail. destruct (Relay_live r); [|done]. by destruct I. Qed.

Lemma release_inv : relay_inv user pw seed tr (Relay_release r).
Proof. unfold Relay_release. destruct (Relay_live r); [|done]. by destruct I. Qed.

Lemma poll_inv now : relay_inv user pw seed tr (Relay_poll r now).
Proof. unfold Relay_poll. destruct (rl_state r); try done; destruct (_ : bool); try done; apply fail_inv. Qed.

Lemma renewed_inv lifetime now : relay_inv user pw seed tr (Relay_renewed r lifetime now).
Proof. by destruct I. Qed.

Lemma settle_inv : relay_inv user pw seed tr (Relay_settle r).
Proof.
  unfold Relay_settle. destruct (rl_state r); try done. destruct (rl_relayed r) as [a|] eqn:Er; [|done].
  destruct (existsb _ _); [|done]. destruct I. split; try done. cbn. intros b [= ->]. done.
Qed.

Lemma permit_inv ip : ip_ok ip -> relay_inv user pw seed tr (Relay_permit r ip).
Proof.
  intros Hip. unfold Relay_permit. destruct (existsb _ _); [done|].
  destruct (fill_first _ _) as [slots|] eqn:E; [|done]. destruct I. split; try done. cbn.
  intros l [->|H]%(fill_first_flatten _ _ _ _ E); [|by auto]. by split.
Qed.

Lemma follow_inv peer : sock_ok peer -> relay_inv user pw seed tr (Relay_follow r peer).
Proof.
  intros Hp. unfold Relay_follow. destruct (bool_decide _); [done|]. cbv zeta.
  destruct (existsb _ _); [by destruct I|].
  destruct (fill_first _ _) as [slots|] eqn:E; [|by destruct I]. destruct I. split; try done; cbn in *.
  - intros l [->|H]%(fill_first_flatten _ _ _ _ E); [|by auto]. by split.
  - by rewrite (fill_first_length _ _ _ E).
Qed.

Lemma adopt_inv challenge :
  relay_inv user pw seed tr (Relay_adopt r challenge) /\ rl_key (Relay_adopt r challenge) <> None \/
  Relay_adopt r challenge = r.
Proof.
  unfold Relay_adopt. destruct (get_range (rl_realm r) _ _) as [realm|] eqn:Er; [|by right].
  destruct (get_range (rl_nonce r) _ _) as [nonce|] eqn:En; [|by right]. cbv zeta.
  apply get_range_Some in Er as (_ & Hr & Er), En as (_ & Hn & En). cbn in Er. left.
  pose proof (zlen_nonneg (ch_realm challenge)). pose proof (zlen_nonneg (ch_nonce challenge)).
  destruct I as [(U & P & Zr & Zn & Lr & Ln & K) ? ? ? ? ? ? ? Hrel ? ?].
  destruct (_ || _) eqn:Ec.
  - split; [|done]. split; try done; cbn.
    + unfold cred_inv. cbn. rewrite !zlen_put_range by (cbn; lia). rewrite U, P, <- Zr, <- Zn. split_and!; try done; try lia.
      right. do 2 f_equal. unfold zlen. by rewrite Nat2Z.id, take_put_range.
    + intros a Ha. destruct (Hrel a Ha) as (? & ? & ? & ?). done.
  - apply orb_false_iff in Ec as [Es Ek]. destruct (rl_key r) as [key|] eqn:Hk; [|done].
    split; [|cbn; by rewrite Hk]. split; try done; cbn.
    + unfold cred_inv. cbn. rewrite zlen_put_range by (cbn; lia). rewrite <- Zn, Hk. split_and!; try done; lia.
    + rewrite Hk. done.
Qed.

Lemma adopt_keeps challenge : relay_inv user pw seed tr (Relay_adopt r challenge).
Proof. destruct (adopt_inv challenge) as [[? _]|E]; [done|by rewrite E]. Qed.
End quiet.

(** ** Answers *)

(** A success that verifies says what its sealed attributes say. *)
Lemma success_sealed d rsp key :
  bytes_ok d -> zlen d < 2 ^ 63 -> turn_parse d = Ok (TurnResponse rsp) -> rs_error rsp = None ->
  Response_verify rsp key = true ->
  exists attrs post, tid_ok (rs_tid rsp) /\ bytes_ok (attrs_wire attrs) /\
    d = sealed_answer key (Z.lor (method_code (rs_method rsp)) CLASS_SUCCESS) (rs_tid rsp) attrs post /\
    forall k, Response_find rsp k = find_attr k attrs.
Proof.
  intros Hb Hz Hp He Hv. destruct (answer_inv d rsp key Hb Hz Hp He Hv) as (attrs & post & Ha & Hpost & Ht & Hn & Hl & Ed).
  exists attrs, post. split; [done|]. split; [|split; [done|]].
  - rewrite Ed in Hb. unfold sealed_answer in Hb. cbv zeta in Hb. rewrite attrs_wire_app in Hb.
    apply Forall_app in Hb as [_ Hb]. by apply Forall_app in Hb as [? _].
  - rewrite Ed in Hl. destruct (answer_parses key (rs_method rsp) (rs_tid rsp) attrs post Ht Ha Hpost Hn Hl) as (P & _ & F).
    rewrite <- Ed in P, F. rewrite Hp in P. injection P as ->. exact F.
Qed.

Lemma answers_inv tid pending : answers tid pending = true -> exists p, pending = Some p /\ pe_tid p = tid.
Proof. destruct pending as [p|]; cbn; [|done]. intros E%bool_decide_eq_true. eauto. Qed.

Section answered.
  Context (user pw seed : list Z) (tr : list relay_event) (r : Relay) (d : list Z) (rsp : Response).
  Hypothesis I : relay_inv user pw seed tr r.
  Hypothesis Hb : bytes_ok d.
  Hypothesis Hz : zlen d < 2 ^ 63.
  Hypothesis Hp : turn_parse d = Ok (TurnResponse rsp).
  (** What [answered] has established of a success before anything is granted. *)
  Hypothesis Hkey : rs_error rsp = None -> exists key, rl_key r = Some key /\ Response_verify rsp key = true.

Let tr' := tr ++ [Rl_in d].

Lemma heard_inv : relay_inv user pw seed tr' r.
Proof. apply relay_inv_mono; [|done]. intros ask tid [=]%list_elem_of_singleton. Qed.

Lemma success_granted ask asks says :
  rs_error rsp = None -> asks ask -> Rl_ask ask (rs_tid rsp) ∈ tr ->
  (forall attrs, bytes_ok (attrs_wire attrs) -> (forall k, Response_find rsp k = find_attr k attrs) -> says (rs_tid rsp) attrs) ->
  granted user pw tr' asks says.
Proof.
  intros He Ha Ht Hs. destruct (Hkey He) as (key & Hk & Hv).
  destruct (success_sealed d rsp key Hb Hz Hp He Hv) as (attrs & post & _ & Ba & Ed & Hf).
  destruct I as [(_ & _ & _ & _ & _ & _ & [K|K]) ? ? ? ? ? ? ? ? ? ?]; [congruence|].
  rewrite K in Hk. injection Hk as <-.
  exists tr, [], d, ask, (take (Z.to_nat (rl_realm_len r)) (rl_realm r)), (rs_method rsp), (rs_tid rsp), attrs, post.
  split_and!; try done. by apply Hs.
Qed.

Lemma allocated_inv now :
  answers (rs_tid rsp) (rl_allocating r) = true -> relay_inv user pw seed tr' (Relay_allocated r rsp now).
Proof.
  intros (p & Ep & Et)%answers_inv. unfold Relay_allocated. cbv zeta.
  assert (relay_inv user pw seed tr' (r <| rl_allocating := None |>)) as I0.
  { pose proof heard_inv as []. split; try done. }
  destruct (rs_error rsp) as [code|] eqn:He in |- *.
  { destruct (Response_challenge rsp); [|by apply fail_inv]. destruct (_ || _); [by apply adopt_keeps|by apply fail_inv]. }
  destruct (Response_relayed_address rsp) as [a|] eqn:Ea; [|by apply fail_inv].
  destruct (is_ipv4 a) eqn:E4; [|by apply fail_inv].
  assert (Rl_ask Ask_Allocate (rs_tid rsp) ∈ tr) as Hask by (rewrite <- Et; by apply (ri_allocating _ _ _ _ _ I)).
  destruct (Hkey He) as (key & Hk & Hv).
  assert (forall attrs, bytes_ok (attrs_wire attrs) -> (forall k, Response_find rsp k = find_attr k attrs) ->
    sock_ok a /\ says_relayed a (rs_tid rsp) attrs) as Hs.
  { intros attrs Ba Hf. unfold Response_relayed_address in Ea. rewrite Hf in Ea.
    destruct (find_attr _ attrs) as [v|] eqn:Ev; [|done]. cbn in Ea. split; [|by exists v].
    eapply decode_mapped_ok; [by eapply find_attr_bytes|by eapply (ri_asked _ _ _ _ _ I)|done]. }
  assert (sock_ok a) as Ha.
  { destruct (success_sealed d rsp key Hb Hz Hp He Hv) as (attrs & post & _ & Ba & _ & Hf). by apply (Hs attrs). }
  apply permit_inv; [|by apply sock_ip_ok].
  apply renewed_inv. pose proof I0 as []. split; try done; cbn.
  - intros b [= <-]. split_and!; try done; [by rewrite Hk|].
    apply (success_granted Ask_Allocate); try done. intros attrs Ba Hf. by apply Hs.
  - intros b Hbr. apply (ri_ready _ _ _ _ _ I) in Hbr. rewrite (ri_once _ _ _ _ _ I) in Ep; [done|by rewrite Hbr].
Qed.

Lemma refreshed_inv now : relay_inv user pw seed tr' (Relay_refreshed r rsp now).
Proof.
  unfold Relay_refreshed. cbv zeta.
  assert (relay_inv user pw seed tr' (r <| rl_refreshing := None |>)) as I0 by (pose proof heard_inv as []; split; done).
  destruct (rs_error rsp) in |- *; destruct (Response_challenge rsp); try by apply renewed_inv.
  - destruct (_ =? _); [by apply adopt_keeps|by apply fail_inv].
  - by apply fail_inv.
Qed.

(** The relay once a stale nonce's challenge, if there was one, is adopted. *)
Definition after_stale (r : Relay) : Relay :=
  match stale_challenge rsp with Some challenge => Relay_adopt r challenge | None => r end.

Lemma after_stale_inv :
  relay_inv user pw seed tr' (after_stale r) /\ rl_permissions (after_stale r) = rl_permissions r /\
  rl_channels (after_stale r) = rl_channels r.
Proof.
  pose proof heard_inv as I'. unfold after_stale. destruct (stale_challenge rsp) as [c|]; [|done].
  split; [by apply adopt_keeps|]. unfold Relay_adopt. repeat case_match; done.
Qed.

Lemma set_permission_inv r1 index l l' :
  relay_inv user pw seed tr' r1 -> get_at (rl_permissions r1) index = Some (Some l) ->
  permission_inv user pw tr' l' ->
  relay_inv user pw seed tr' (r1 <| rl_permissions := put_at (rl_permissions r1) index (Some l') |>).
Proof.
  intros I1 El Hl. destruct I1. split; try done. cbn. intros x. rewrite elem_flatten.
  intros [[= ->]|H]%put_at_elem; [done|]. apply ri_permissions0. by apply elem_flatten.
Qed.

Lemma set_channel_inv r1 index l l' :
  relay_inv user pw seed tr' r1 -> get_at (rl_channels r1) index = Some (Some l) ->
  channel_inv user pw tr' l' ->
  relay_inv user pw seed tr' (r1 <| rl_channels := put_at (rl_channels r1) index (Some l') |>).
Proof.
  intros I1 El Hl. destruct I1. split; try done; cbn.
  - intros x. rewrite elem_flatten. intros [[= ->]|H]%put_at_elem; [done|]. apply ri_channels0. by apply elem_flatten.
  - unfold put_at. by rewrite length_insert.
Qed.

Lemma permitted_inv index now l :
  get_at (rl_permissions r) index = Some (Some l) -> answers (rs_tid rsp) (ls_pending l) = true ->
  relay_inv user pw seed tr' (Relay_permitted r index rsp now).
Proof.
  intros El (p & Ep & Et)%answers_inv. unfold Relay_permitted. fold (after_stale r).
  destruct after_stale_inv as (I1 & Epm & _). cbv zeta.
  assert (l ∈ flatten (rl_permissions r)) as Hin by (by eapply get_at_flatten).
  assert (permission_inv user pw tr' (l <| ls_pending := None |>)) as Hl0
    by (destruct (ri_permissions _ _ _ _ _ heard_inv l Hin); by split).
  rewrite <- Epm in El. rewrite El.
  destruct (rs_error rsp) as [code|] eqn:He in |- *.
  - destruct (stale_challenge rsp).
    + apply settle_inv. by eapply set_permission_inv.
    + apply settle_inv. assert (relay_inv user pw seed tr' (after_stale r <| rl_permissions := put_at (rl_permissions (after_stale r)) index
        (Some (l <| ls_pending := None |> <| ls_refused := true |>)) |>)) as I2
        by (eapply set_permission_inv; [done..|destruct Hl0; by split]).
      destruct (_ && _); [by apply fail_inv|done].
  - apply settle_inv. eapply set_permission_inv; [done..|]. destruct Hl0 as [T P G]. split; [done..|]. cbn. intros _.
    destruct (li_pending _ _ _ _ _ (ri_permissions _ _ _ _ _ I l Hin) p Ep) as (ask & -> & Hask).
    rewrite Et in Hask. by apply (success_granted (Ask_Permission (ls_target l))).
Qed.

Lemma bound_inv index now l :
  get_at (rl_channels r) index = Some (Some l) -> answers (rs_tid rsp) (ls_pending l) = true ->
  relay_inv user pw seed tr' (Relay_bound r index rsp now).
Proof.
  intros El (p & Ep & Et)%answers_inv. unfold Relay_bound. fold (after_stale r).
  destruct after_stale_inv as (I1 & _ & Ech). cbv zeta.
  assert (l ∈ flatten (rl_channels r)) as Hin by (by eapply get_at_flatten).
  assert (channel_inv user pw tr' (l <| ls_pending := None |>)) as Hl0
    by (destruct (ri_channels _ _ _ _ _ heard_inv l Hin); by split).
  rewrite <- Ech in El. rewrite El.
  destruct (rs_error rsp) as [code|] eqn:He in |- *.
  { destruct (stale_challenge rsp); (eapply set_channel_inv; [done..|]); destruct Hl0; by split. }
  destruct (li_pending _ _ _ _ _ (ri_channels _ _ _ _ _ I l Hin) p Ep) as (ask & Ha & Hask). rewrite Et in Hask.
  assert (relay_inv user pw seed tr' (after_stale r <| rl_channels := put_at (rl_channels (after_stale r)) index
      (Some (Lease_grant CHANNEL_MS now (l <| ls_pending := None |>))) |>)) as I2.
  { eapply set_channel_inv; [done..|]. destruct Hl0 as [T P G]. split; [done..|]. cbn. intros _.
    by apply (success_granted ask). }
  destruct I2. split; try done. cbn. intros x [H|(y & Hy & Hm & ->)]%update_first_elem; [by apply ri_permissions0|].
  destruct (ri_permissions0 y Hy) as [T P G]. split; [done..|]. cbn. intros _.
  apply andb_true_iff in Hm as [Em%bool_decide_eq_true _]. rewrite Em. apply (success_granted ask); try done.
  cbn. unfold asks_peer in Ha. destruct ask as [| | |n peer]; try done. cbn. by rewrite Ha.
Qed.
End answered.

Lemma answered_inv user pw seed tr r d rsp now :
  relay_inv user pw seed tr r -> bytes_ok d -> zlen d < 2 ^ 63 -> turn_parse d = Ok (TurnResponse rsp) ->
  relay_inv user pw seed (tr ++ [Rl_in d]) (Relay_answered r rsp now).
Proof.
  intros I Hb Hz Hp. assert (relay_inv user pw seed (tr ++ [Rl_in d]) r) as I' by (by apply heard_inv).
  unfold Relay_answered. destruct (negb _); [done|]. cbv zeta. destruct (_ && negb _) eqn:Ek; [done|].
  assert (rs_error rsp = None -> exists key, rl_key r = Some key /\ Response_verify rsp key = true) as Hkey.
  { intros He. unfold Response_is_success in Ek. rewrite He in Ek. cbn [orb andb] in Ek. apply negb_false_iff in Ek.
    destruct (rl_key r) as [key|]; [|done]. by exists key. }
  destruct (answers _ (rl_allocating r)) eqn:E1; [by apply allocated_inv|].
  destruct (answers _ (rl_refreshing r)) eqn:E2; [by apply refreshed_inv|].
  destruct (position _ (rl_permissions r)) as [[i l]|] eqn:E3.
  { apply position_elem in E3 as (_ & El & Ha). by eapply permitted_inv. }
  destruct (position _ (rl_channels r)) as [[i l]|] eqn:E4; [|done].
  apply position_elem in E4 as (_ & El & Ha). by eapply bound_inv.
Qed.

(** ** Asking *)

(** An identifier that goes out is the one already in flight, on a carrier that
    loses datagrams, or the next of the sequence. *)
Definition tid_source (pending : option Pending) (ids : Ids) (resends : bool) (tid : TransactionId) (ids' : Ids) : Prop :=
  (exists p, pending = Some p /\ pe_tid p = tid /\ resends = true /\ ids' = ids) \/
  (pending = None /\ (ids', tid) = Ids_next ids).

Lemma step_spec pending due now ids first backoff resends pending' ids' sent :
  step pending due now ids first backoff resends = (pending', ids', sent) ->
  match sent with
  | None => pending' = pending /\ ids' = ids
  | Some tid => tid_source pending ids resends tid ids' /\ exists p, pending' = Some p /\ pe_tid p = tid
  end.
Proof.
  unfold step, tid_source. destruct pending as [p|].
  - destruct (_ && _) eqn:E; intros [= <- <- <-]; [|done]. apply andb_true_iff in E as [-> _].
    split; [left; by exists p|]. by eexists.
  - destruct (f64_geb now due); intros [= <- <- <-]; [|done]. split; [by right|]. by eexists.
Qed.

Lemma tid_source_seed pending ids resends tid ids' :
  tid_source pending ids resends tid ids' -> id_seed ids' = id_seed ids.
Proof. intros [(p & _ & _ & _ & ->)|[_ [= -> _]]]; done. Qed.

Lemma step_leases_spec {T} named (slots : list (option (Lease T))) index now ids resends j target tid slots' ids' :
  step_leases index named slots now ids resends = Some (j, target, tid, slots', ids') ->
  exists l1 lease l2 p, slots = l1 ++ Some lease :: l2 /\ slots' = l1 ++ Some (lease <| ls_pending := Some p |>) :: l2 /\
    pe_tid p = tid /\ target = ls_target lease /\ j = index + zlen l1 /\ named j = true /\ ls_refused lease = false /\
    tid_source (ls_pending lease) ids resends tid ids'.
Proof.
  revert index slots'. induction slots as [|slot slots IH]; intros index slots' E; [done|]. cbn [step_leases] in E.
  assert (forall e, ('(i, target, tid, rest, ids) ← step_leases (index + 1) named slots now ids resends;
     Some (i, target, tid, slot :: rest, ids)) = Some e -> e = (j, target, tid, slots', ids') ->
     exists l1 lease l2 p, slot :: slots = l1 ++ Some lease :: l2 /\
       slots' = l1 ++ Some (lease <| ls_pending := Some p |>) :: l2 /\
       pe_tid p = tid /\ target = ls_target lease /\ j = index + zlen l1 /\ named j = true /\ ls_refused lease = false /\
       tid_source (ls_pending lease) ids resends tid ids') as Hgo.
  { intros e He ->. destruct (step_leases (index + 1) _ _ _ _ _) as [[[[[i t] u] rest] ids1]|] eqn:El; [|done].
    injection He as -> -> -> <- ->. destruct (IH _ _ El) as (l1 & lease & l2 & p & -> & -> & ? & ? & -> & ? & ? & ?).
    exists (slot :: l1), lease, l2, p. split_and!; try done. rewrite zlen_cons. lia. }
  destruct slot as [lease|]; [|by eapply Hgo]. destruct (_ || _) eqn:Er; [by eapply Hgo|].
  destruct (step _ _ _ _ _ _ _) as [[pending ids1] [t|]] eqn:Es; [|by eapply Hgo].
  injection E as <- <- -> <- ->. apply step_spec in Es as (Hs & p & -> & Ep). apply orb_false_iff in Er as [? ?%negb_false_iff].
  exists [], lease, slots, p. change (zlen []) with 0. rewrite Z.add_0_r. split_and!; done.
Qed.

Section asked.
  Context (user pw seed : list Z) (tr : list relay_event).

Lemma source_ok pending ids resends tid ids' :
  (forall p, pending = Some p -> tid_ok (pe_tid p)) -> tid_source pending ids resends tid ids' -> tid_ok tid.
Proof. intros Hp [(p & E & <- & _)|[_ [= _ ->]]]; [by apply Hp|apply derive_tid_ok]. Qed.

Lemma asked_inv r ask tid : relay_inv user pw seed tr r -> tid_ok tid -> relay_inv user pw seed (tr ++ [Rl_ask ask tid]) r.
Proof. intros I Ht. apply relay_inv_mono; [|done]. by intros a t [= -> ->]%list_elem_of_singleton. Qed.

Lemma ask_last ask tid : Rl_ask ask tid ∈ tr ++ [Rl_ask ask tid].
Proof. apply elem_of_app. right. by apply list_elem_of_singleton. Qed.

(** A lease asked for again keeps its grounds. *)
Lemma stepped_inv {T} (ok : T -> Prop) asked grants (l1 l2 : list (option (Lease T))) lease p ask :
  (forall l, l ∈ flatten (l1 ++ Some lease :: l2) -> lease_inv ok asked grants (tr ++ [Rl_ask ask (pe_tid p)]) l) ->
  asked (ls_target lease) ask ->
  forall l, l ∈ flatten (l1 ++ Some (lease <| ls_pending := Some p |>) :: l2) ->
  lease_inv ok asked grants (tr ++ [Rl_ask ask (pe_tid p)]) l.
Proof.
  intros H Ha l Hl. apply elem_flatten in Hl. rewrite elem_of_app, elem_of_cons in Hl.
  destruct Hl as [Hl|[[= ->]|Hl]].
  - apply H, elem_flatten. rewrite elem_of_app. by left.
  - destruct (H lease) as [T1 P1 G1]; [apply elem_flatten; rewrite elem_of_app, elem_of_cons; tauto|].
    split; [done| |done]. cbn. intros q [= <-]. exists ask. split; [done|apply ask_last].
  - apply H, elem_flatten. rewrite elem_of_app, elem_of_cons. tauto.
Qed.

Lemma ids_inv r ids : relay_inv user pw seed tr r -> id_seed ids = seed -> relay_inv user pw seed tr (r <| rl_ids := ids |>).
Proof. by intros [] ?. Qed.
End asked.

(** The lease loops, once the refresh has nothing to send. *)
Lemma leases_asked_inv user pw seed tr r now r' o :
  relay_inv user pw seed tr r ->
  match step_leases 0 (fun _ => true) (rl_permissions r) now (rl_ids r) (Relay_resends r) with
  | Some (_, target, tid, slots, ids) =>
      (r <| rl_permissions := slots |> <| rl_ids := ids |>, Some (Ask_Permission target, tid))
  | None =>
  match step_leases 0 (fun index => match channel_number index with Some _ => true | None => false end)
          (rl_channels r) now (rl_ids r) (Relay_resends r) with
  | Some (index, target, tid, slots, ids) =>
      (r <| rl_channels := slots |> <| rl_ids := ids |>,
       number ← channel_number index; Some (Ask_Channel number target, tid))
  | None => (r, None)
  end
  end = (r', o) ->
  match o with
  | Some (ask, tid) => relay_inv user pw seed (tr ++ [Rl_ask ask tid]) r'
  | None => relay_inv user pw seed tr r'
  end.
Proof.
  intros I. destruct (step_leases _ _ (rl_permissions r) _ _ _) as [[[[[j target] tid] slots] ids]|] eqn:Ep.
  { apply step_leases_spec in Ep as (l1 & lease & l2 & p & El & -> & <- & -> & _ & _ & _ & Hs). intros [= <- <-].
    assert (lease ∈ flatten (rl_permissions r)) as Hin by (rewrite El, elem_flatten, elem_of_app, elem_of_cons; tauto).
    assert (tid_ok (pe_tid p)) as Ht.
    { eapply source_ok; [|done]. intros q Hq. destruct (li_pending _ _ _ _ _ (ri_permissions _ _ _ _ _ I lease Hin) q Hq) as (? & _ & ?).
      by eapply (ri_asked _ _ _ _ _ I). }
    pose proof (asked_inv user pw seed tr r (Ask_Permission (ls_target lease)) (pe_tid p) I Ht) as []. split; try done; cbn.
    - by rewrite (tid_source_seed _ _ _ _ _ Hs).
    - rewrite El in ri_permissions0. by apply stepped_inv. }
  destruct (step_leases _ _ (rl_channels r) _ _ _) as [[[[[j target] tid] slots] ids]|] eqn:Ec; [|by intros [= <- <-]].
  apply step_leases_spec in Ec as (l1 & lease & l2 & p & El & -> & <- & -> & _ & Hn & _ & Hs).
  destruct (channel_number j) as [number|] eqn:En; [|done]. intros [= <- <-].
  assert (lease ∈ flatten (rl_channels r)) as Hin by (rewrite El, elem_flatten, elem_of_app, elem_of_cons; tauto).
  assert (tid_ok (pe_tid p)) as Ht.
  { eapply source_ok; [|done]. intros q Hq. destruct (li_pending _ _ _ _ _ (ri_channels _ _ _ _ _ I lease Hin) q Hq) as (? & _ & ?).
    by eapply (ri_asked _ _ _ _ _ I). }
  pose proof (asked_inv user pw seed tr r (Ask_Channel number (ls_target lease)) (pe_tid p) I Ht) as []. split; try done; cbn.
  - by rewrite (tid_source_seed _ _ _ _ _ Hs).
  - rewrite El in ri_channels0. by apply stepped_inv.
  - rewrite El in ri_channel_slots0. rewrite length_app in *. done.
Qed.

Lemma next_ask_inv user pw seed tr r now r' o :
  relay_inv user pw seed tr r -> Relay_next_ask r now = (r', o) ->
  match o with
  | Some (ask, tid) => relay_inv user pw seed (tr ++ [Rl_ask ask tid]) r'
  | None => relay_inv user pw seed tr r'
  end.
Proof.
  intros I. unfold Relay_next_ask. destruct (rl_releasing r).
  { cbv zeta. change (rl_relayed (r <| rl_releasing := false |> <| rl_state := Released |>)) with (rl_relayed r).
    destruct (rl_relayed r) eqn:Er; intros [= <- <-].
    - pose proof (asked_inv user pw seed tr r (Ask_Refresh 0) (derive_transaction_id (id_seed (rl_ids r)) (id_counter (rl_ids r))) I
        (derive_tid_ok _ _)) as []. by split.
    - destruct I. by split. }
  destruct (negb (Relay_live r)); [by intros [= <- <-]|]. cbv zeta.
  destruct (rl_relayed r) as [a|] eqn:Er.
  2: { destruct (step _ _ _ _ _ _ _) as [[pending ids] sent] eqn:Es. apply step_spec in Es. destruct sent as [tid|]; intros [= <- <-].
    - destruct Es as (Hs & p & -> & Ep). assert (tid_ok tid) as Ht.
      { eapply source_ok; [|done]. intros q Hq. eapply (ri_asked _ _ _ _ _ I), (ri_allocating _ _ _ _ _ I), Hq. }
      pose proof (asked_inv user pw seed tr r Ask_Allocate tid I Ht) as []. split; try done; cbn.
      + by rewrite (tid_source_seed _ _ _ _ _ Hs).
      + intros q [= <-]. rewrite Ep. apply ask_last.
    - destruct Es as [-> ->]. by destruct I. }
  destruct (step (rl_refreshing r) _ _ _ _ _ _) as [[pending ids] sent] eqn:Es. apply step_spec in Es.
  destruct sent as [tid|].
  { intros [= <- <-]. destruct Es as (Hs & p & -> & Ep). assert (tid_ok tid) as Ht.
    { eapply source_ok; [|done]. intros q Hq. eapply (ri_asked _ _ _ _ _ I), (ri_refreshing _ _ _ _ _ I), Hq. }
    pose proof (asked_inv user pw seed tr r (Ask_Refresh LIFETIME_S) tid I Ht) as []. split; try done; cbn.
    - by rewrite (tid_source_seed _ _ _ _ _ Hs).
    - intros q [= <-]. rewrite Ep. apply ask_last. }
  destruct Es as [-> ->].
  intros E. refine (leases_asked_inv user pw seed tr (r <| rl_refreshing := rl_refreshing r |> <| rl_ids := rl_ids r |>)
    now r' o _ E). by destruct I.
Qed.

(** ** Every run *)

Definition relay_start (server : SocketAddr) (user pw seed : list Z) (now : f64) (carrier : Carrier) : Relay :=
  Relay_over (Relay_new server user pw seed now) carrier.

Lemma relay_start_inv server user pw seed now carrier :
  relay_inv user pw seed [] (relay_start server user pw seed now carrier).
Proof.
  split; try done.
  - unfold cred_inv. split_and!; try done. by left.
  - by intros ask tid ?%elem_of_nil.
  - intros l Hl. apply elem_flatten, list_elem_of_In, repeat_spec in Hl. done.
  - intros l Hl. apply elem_flatten, list_elem_of_In, repeat_spec in Hl. done.
Qed.

Lemma relay_step_inv user pw seed tr r ev r' :
  relay_inv user pw seed tr r -> relay_step r ev r' -> relay_inv user pw seed (tr ++ ev) r'.
Proof.
  intros I []; rewrite ?app_nil_r.
  - by apply permit_inv.
  - by apply follow_inv.
  - by apply release_inv.
  - by apply poll_inv.
  - by apply ids_inv; [|apply (ri_seed _ _ _ _ _ I)].
  - unfold Relay_unwrap. cbv zeta. set (r0 := match rl_local r with None => _ | Some _ => _ end).
    assert (relay_inv user pw seed tr r0) as I0 by (unfold r0; destruct (rl_local r); [done|by destruct I]).
    assert (relay_inv user pw seed (tr ++ [Rl_in d]) r0) as I1 by (by apply heard_inv).
    destruct (turn_parse d) as [[rsp|peer data|number data]|] eqn:Ep; try done.
    + by apply answered_inv.
    + by destruct (Relay_channel_peer r0 number).
  - by apply (next_ask_inv user pw seed tr r now _ (Some (ask, tid))).
  - by apply (next_ask_inv user pw seed tr r now _ None).
Qed.

Lemma relay_run_inv server user pw seed now carrier tr r :
  relay_run (relay_start server user pw seed now carrier) tr r -> relay_inv user pw seed tr r.
Proof.
  induction 1 as [|tr r1 ev r2 _ IH Hs]; [apply relay_start_inv|by eapply relay_step_inv].
Qed.
End relay.

(** C10: nothing is granted but by the relay's own word.  In every run of a relay
    client, whatever datagrams arrive and in whatever order it is driven: a relayed
    address is offered only if it is IPv4 and stands, sealed under the long-term key
    of the configured credential, in a success that came back after an allocation
    was asked under that very transaction; and a permission or a channel has a
    lifetime only if a success so sealed answered a request for that address (a
    channel bound to a peer renews the permission of its address). *)
Theorem relay_grants_sealed (D : Digests) (L : DigestLaws D) (server : SocketAddr) (user pw seed : list Z) (now : f64)
    (carrier : Carrier) (tr : list relay_event) (r : Relay) :
  relay_run (relay_start server user pw seed now carrier) tr r ->
  (forall a, Relay_offered r = Some a ->
     is_ipv4 a = true /\ granted user pw tr (eq Ask_Allocate) (says_relayed a)) /\
  (forall l, l ∈ flatten (rl_permissions r) -> ls_expires_ms l <> None ->
     granted user pw tr (asks_ip (ls_target l)) anything) /\
  (forall l, l ∈ flatten (rl_channels r) -> ls_expires_ms l <> None ->
     granted user pw tr (asks_peer (ls_target l)) anything).
Proof.
  intros Hr. pose proof (relay_run_inv _ _ _ _ _ _ _ _ Hr) as I. split; [|split].
  - intros a Ha. unfold Relay_offered in Ha. destruct (rl_state r) eqn:Es; try done. injection Ha as ->.
    apply (ri_ready _ _ _ _ _ I) in Es. by destruct (ri_relayed _ _ _ _ _ I _ Es) as (_ & ? & _ & ?).
  - intros l Hl. apply (li_expires _ _ _ _ _ (ri_permissions _ _ _ _ _ I l Hl)).
  - intros l Hl. apply (li_expires _ _ _ _ _ (ri_channels _ _ _ _ _ I l Hl)).
Qed.

(** ** What is asked can be sent *)

(** Two requests for the same thing. *)
Definition same_ask (a b : Ask) : Prop :=
  match a, b with
  | Ask_Channel _ p, Ask_Channel _ q => p = q
  | _, _ => a = b
  end.

Lemma channel_number_ok index number :
  0 <= index < MAX_CHANNELS -> channel_number index = Some number -> FIRST_CHANNEL <= number <= LAST_CHANNEL.
Proof.
  unfold MAX_CHANNELS, channel_number. intros Hi. rewrite try_from_ok by (unfold fits; lia). cbn.
  unfold checked_add, FIRST_CHANNEL, LAST_CHANNEL. destruct (_ <? _); [|done]. intros [= <-]. lia.
Qed.

Section requests.
  Context {D : Digests} {L : DigestLaws D}.

(** What a request may be, given what has been asked before. *)
Record ask_ok (tr : list relay_event) (r r' : Relay) (ask : Ask) (tid : TransactionId) : Prop := {
  ao_auth : Relay_auth r' = Relay_auth r;
  ao_well : match ask with
            | Ask_Allocate => rl_relayed r = None
            | Ask_Refresh _ => rl_relayed r <> None
            | Ask_Permission ip => rl_relayed r <> None /\ ip_ok ip
            | Ask_Channel number peer => rl_relayed r <> None /\ FIRST_CHANNEL <= number <= LAST_CHANNEL /\ sock_ok peer
            end;
  ao_tid : tid = (Ids_next (rl_ids r)).2 \/
           rl_carrier r = Carrier_Datagram /\ exists ask', same_ask ask ask' /\ Rl_ask ask' tid ∈ tr;
}.

Lemma source_asked (tr : list relay_event) r pending tid ids' (asked : Ask -> Prop) ask :
  tid_source pending (rl_ids r) (Relay_resends r) tid ids' ->
  (forall p, pending = Some p -> exists ask', asked ask' /\ Rl_ask ask' (pe_tid p) ∈ tr) ->
  (forall ask', asked ask' -> same_ask ask ask') ->
  tid = (Ids_next (rl_ids r)).2 \/
  rl_carrier r = Carrier_Datagram /\ exists ask', same_ask ask ask' /\ Rl_ask ask' tid ∈ tr.
Proof.
  intros [(p & Ep & <- & Hs & _)|[_ E]] Hp Ha.
  - right. apply bool_decide_eq_true in Hs. split; [done|]. destruct (Hp p Ep) as (ask' & ? & ?). eauto.
  - left. by rewrite <- E.
Qed.

Lemma next_ask_ok user pw seed tr r now r' ask tid :
  relay_inv user pw seed tr r -> Relay_next_ask r now = (r', Some (ask, tid)) -> ask_ok tr r r' ask tid.
Proof.
  intros I. unfold Relay_next_ask. destruct (rl_releasing r).
  { cbv zeta. change (rl_relayed (r <| rl_releasing := false |> <| rl_state := Released |>)) with (rl_relayed r).
    destruct (rl_relayed r) eqn:Er; intros [= <- <- <-]. split; [done|by rewrite Er|by left]. }
  destruct (negb (Relay_live r)); [done|]. cbv zeta. destruct (rl_relayed r) as [a|] eqn:Er.
  2: { destruct (step _ _ _ _ _ _ _) as [[pending ids] [t|]] eqn:Es; [|done]. apply step_spec in Es as [Hs _].
    intros [= <- <- <-]. split; [done..|]. eapply (source_asked tr r _ _ _ (eq Ask_Allocate)); [done| |by intros ? <-].
    intros p Hp. exists Ask_Allocate. split; [done|]. by apply (ri_allocating _ _ _ _ _ I). }
  destruct (step (rl_refreshing r) _ _ _ _ _ _) as [[pending ids] [t|]] eqn:Es; apply step_spec in Es.
  { intros [= <- <- <-]. destruct Es as [Hs _]. split; [done|by rewrite Er|].
    eapply (source_asked tr r _ _ _ (eq (Ask_Refresh LIFETIME_S))); [done| |by intros ? <-].
    intros p Hp. eexists. split; [done|]. by apply (ri_refreshing _ _ _ _ _ I). }
  destruct Es as [-> ->].
  destruct (step_leases _ _ (rl_permissions _) _ _ _) as [[[[[j target] t] slots] ids']|] eqn:Ep.
  { apply step_leases_spec in Ep as (l1 & lease & l2 & p & El & _ & _ & -> & _ & _ & _ & Hs). intros [= <- <- <-].
    assert (lease ∈ flatten (rl_permissions r)) as Hin
      by (apply elem_flatten; change (rl_permissions r) with (rl_permissions (r <| rl_refreshing := rl_refreshing r |> <| rl_ids := rl_ids r |>));
          rewrite El, elem_of_app, elem_of_cons; tauto).
    destruct (ri_permissions _ _ _ _ _ I lease Hin) as [T P G]. split; [done|by rewrite Er|].
    eapply (source_asked tr r _ _ _ (eq (Ask_Permission (ls_target lease)))); [done| |by intros ? <-].
    intros q Hq. destruct (P q Hq) as (? & -> & ?). eauto. }
  destruct (step_leases _ _ (rl_channels _) _ _ _) as [[[[[j target] t] slots] ids']|] eqn:Ec; [|done].
  apply step_leases_spec in Ec as (l1 & lease & l2 & p & El & _ & _ & -> & Ej & Hn & _ & Hs).
  destruct (channel_number j) as [number|] eqn:En; [|done]. intros [= <- <- <-].
  change (rl_channels (r <| rl_refreshing := rl_refreshing r |> <| rl_ids := rl_ids r |>)) with (rl_channels r) in El.
  assert (lease ∈ flatten (rl_channels r)) as Hin by (rewrite El, elem_flatten, elem_of_app, elem_of_cons; tauto).
  destruct (ri_channels _ _ _ _ _ I lease Hin) as [T P G]. pose proof (ri_channel_slots _ _ _ _ _ I) as Hlen.
  rewrite El, length_app in Hlen. cbn in Hlen. split; [done| |].
  - rewrite Er. split_and!; try done; eapply (channel_number_ok j); try done; unfold zlen, MAX_CHANNELS in *; lia.
  - eapply (source_asked tr r _ _ _ (asks_peer (ls_target lease))); [done|exact P|].
    intros [| | |n peer]; cbn; done.
Qed.

(** A request as the wire has it, under the credential adopted so far. *)
Definition request_wire (r : Relay) (ask : Ask) (tid : TransactionId) : list Z :=
  match ask, Relay_auth r with
  | Ask_Allocate, None => allocate_bare tid LIFETIME_S
  | Ask_Allocate, Some auth => turn_sealed auth METHOD_ALLOCATE tid (allocate_attrs LIFETIME_S)
  | Ask_Refresh lifetime_s, Some auth => turn_sealed auth METHOD_REFRESH tid (refresh_attrs lifetime_s)
  | Ask_Permission ip, Some auth => turn_sealed auth METHOD_CREATE_PERMISSION tid (permission_attrs ip tid)
  | Ask_Channel number peer, Some auth => turn_sealed auth METHOD_CHANNEL_BIND tid (channel_attrs number peer tid)
  | _, None => []
  end.

(** The credential a relay holds is one every encoder takes. *)
Lemma relay_auth_ok user pw seed tr r auth :
  relay_inv user pw seed tr r -> zlen user <= 2 ^ 15 -> Relay_auth r = Some auth -> auth_ok auth /\ au_username auth = user.
Proof.
  intros I Hu. destruct (ri_cred _ _ _ _ _ I) as (<- & _ & Zr & Zn & Lr & Ln & _). unfold Relay_auth.
  destruct (rl_key r); [|done]. intros [= <-]. unfold auth_ok. cbn [au_username au_realm au_nonce].
  rewrite !get_range_eq by lia. cbn. rewrite !zlen_take. split_and!; try done; lia.
Qed.

Lemma zlen_sealed_le auth kind tid attrs :
  auth_ok auth -> zlen tid = 12 -> zlen (attrs_wire attrs) <= 64 ->
  zlen (turn_sealed auth kind tid attrs) <= zlen (au_username auth) + 400.
Proof.
  intros (_ & Hr & Hn) Ht Ha. rewrite zlen_turn_sealed, attrs_wire_app, zlen_app by done. unfold auth_attrs, MAX_REALM, MAX_NONCE in *.
  rewrite !attrs_wire_cons, !zlen_app, !zlen_zattr. change (zlen (attrs_wire [])) with 0.
  pose proof (pad_len_bounds (zlen (au_username auth))). pose proof (pad_len_bounds (zlen (au_realm auth))).
  pose proof (pad_len_bounds (zlen (au_nonce auth))). lia.
Qed.

Lemma channel_attrs_small number peer tid :
  sock_ok peer -> zlen tid = 12 -> zlen (attrs_wire (channel_attrs number peer tid)) <= 64.
Proof.
  intros Hp Ht. unfold channel_attrs. rewrite !attrs_wire_cons, app_nil_r, zlen_app, zlen_zattr.
  pose proof (zlen_mapped_attr ATTR_XOR_PEER_ADDRESS _ tid Hp Ht). change (zlen (to_be 2 number ++ [0; 0])) with 4.
  change (pad_len 4) with 0. lia.
Qed.

Lemma permission_attrs_small ip tid : ip_ok ip -> zlen tid = 12 -> zlen (attrs_wire (permission_attrs ip tid)) <= 64.
Proof.
  intros Hi Ht. unfold permission_attrs. rewrite attrs_wire_cons, app_nil_r.
  pose proof (zlen_mapped_attr ATTR_XOR_PEER_ADDRESS _ tid (new_sock_ok ip 0 Hi (fits_0 16 ltac:(done))) Ht). lia.
Qed.

Lemma encode_sent user pw seed tr r0 r ask tid out :
  relay_inv user pw seed tr r -> zlen user <= 2 ^ 15 -> tid_ok tid -> ask_ok tr r0 r ask tid ->
  (rl_relayed r0 <> None -> Relay_auth r <> None) ->
  zlen user + 400 <= zlen out -> zlen out < 2 ^ 63 ->
  let wire := request_wire r ask tid in
  Relay_encode r ask tid out = (wire ++ drop (length wire) out, Ok (zlen wire)) /\ framed wire.
Proof.
  intros I Hu [Ht _] [_ Hw _] Hk Hl Hz wire. unfold wire, request_wire, Relay_encode. pose proof (zlen_nonneg user).
  destruct (Relay_auth r) as [auth|] eqn:Ea.
  - destruct (relay_auth_ok _ _ _ _ _ _ I Hu Ea) as [Hau Eu].
    assert (forall m kind attrs, sent tid auth m kind attrs -> zlen (attrs_wire attrs) <= 64 ->
      m out = (turn_sealed auth kind tid attrs ++ drop (length (turn_sealed auth kind tid attrs)) out,
               Ok (zlen (turn_sealed auth kind tid attrs))) /\ framed (turn_sealed auth kind tid attrs)) as Hs.
    { intros m kind attrs [W F] Hsm. split; [|done]. apply W; [|done].
      pose proof (zlen_sealed_le auth kind tid attrs Hau Ht Hsm). rewrite Eu in *. lia. }
    destruct ask as [|s|ip|n peer].
    + apply Hs; [by apply allocate_sent|by vm_compute].
    + apply Hs; [by apply refresh_sent|]. unfold refresh_attrs. rewrite attrs_wire_cons, app_nil_r, zlen_zattr, zlen_to_be. done.
    + destruct Hw as [_ Hip]. apply Hs; [by apply permission_sent|by apply permission_attrs_small].
    + destruct Hw as (_ & Hn & Hp). apply Hs; [|by apply channel_attrs_small]. apply channel_sent; try done.
      by rewrite (proj2 (Z.leb_le _ _)), (proj2 (Z.leb_le _ _)) by lia.
  - destruct ask as [|s|ip|n peer].
    + destruct (allocate_bare_sent tid Ht LIFETIME_S) as [W F]. split; [|done]. apply W; [|done].
      unfold allocate_bare. rewrite zlen_app, zlen_stun_head by done. change (zlen (attrs_wire _)) with 16. unfold STUN_HEADER_LEN. lia.
    + by destruct (Hk Hw).
    + destruct Hw as [Hw _]. by destruct (Hk Hw).
    + destruct Hw as [Hw _]. by destruct (Hk Hw).
Qed.
End requests.

(** Whatever the relay client asks, it can send, and it asks in order.  In
    every run, a request that falls due is written whole, in its wire form under
    the credential adopted so far and as one message of a stream, into any buffer
    of four hundred bytes more than the user name: no request fails for want of a
    key, a nonce, a usable channel or an address.  Nothing but the allocation is
    asked for before there is one.  The identifier is the next of a sequence, or,
    over datagrams only, the one the same thing was last asked under. *)
Theorem relay_requests_sent (D : Digests) (L : DigestLaws D) (server : SocketAddr) (user pw seed : list Z) (start now : f64)
    (carrier : Carrier) (tr : list relay_event) (r r' : Relay) (ask : Ask) (tid : TransactionId) (out : list Z) :
  relay_run (relay_start server user pw seed start carrier) tr r ->
  Relay_next_ask r now = (r', Some (ask, tid)) ->
  zlen user <= 2 ^ 15 -> zlen user + 400 <= zlen out -> zlen out < 2 ^ 63 ->
  (let wire := request_wire r ask tid in
   Relay_get_output r now out = (r', wire ++ drop (length wire) out, Some (Ok (zlen wire))) /\ framed wire) /\
  (ask = Ask_Allocate <-> rl_relayed r = None) /\
  (tid = derive_transaction_id seed (id_counter (rl_ids r)) \/
   rl_carrier r = Carrier_Datagram /\ exists ask', same_ask ask ask' /\ Rl_ask ask' tid ∈ tr).
Proof.
  intros Hr Hn Hu Hl Hz. pose proof (relay_run_inv _ _ _ _ _ _ _ _ Hr) as I.
  pose proof (next_ask_ok _ _ _ _ _ _ _ _ _ I Hn) as A. pose proof (next_ask_inv _ _ _ _ _ _ _ _ I Hn) as I'. cbn in I'.
  pose proof A as [Ea Hw Hs]. split; [|split].
  - cbv zeta. unfold Relay_get_output. rewrite Hn. replace (request_wire r ask tid) with (request_wire r' ask tid)
      by (unfold request_wire; by rewrite Ea).
    destruct (encode_sent user pw seed _ r r' ask tid out I' Hu) as [-> F]; try done.
    + eapply (ri_asked _ _ _ _ _ I'), ask_last.
    + destruct Hs as [?|(? & a & ? & ?)]; split; try done; [by left|]. right. split; [done|]. exists a. split; [done|by apply ask_mono].
    + rewrite Ea. intros Hrel. destruct (rl_relayed r) as [a|] eqn:Er; [|done].
      destruct (ri_relayed _ _ _ _ _ I a Er) as (_ & _ & Hk & _). unfold Relay_auth. by destruct (rl_key r).
  - destruct ask; split; try done; try (by destruct Hw); intros E; by rewrite E in Hw; destruct Hw.
  - destruct Hs as [->|?]; [left|by right]. cbn. by rewrite (ri_seed _ _ _ _ _ I).
Qed.

(** ** Ends *)

Local Ltac stay := try done; (split; [assumption|]); (split; [assumption|]); (split; [reflexivity || assumption|]); assumption.

Lemma over_step `{D : Digests} r ev r' :
  Relay_live r = false -> rl_releasing r = false -> relay_step r ev r' ->
  Relay_live r' = false /\ rl_releasing r' = false /\ rl_state r' = rl_state r /\ forall ask tid, Rl_ask ask tid ∉ ev.
Proof.
  intros Hl Hr. assert (forall now, Relay_next_ask r now = (r, None)) as Hn
    by (intros now; unfold Relay_next_ask; by rewrite Hr, Hl).
  assert (forall ask tid, Rl_ask ask tid ∉ []) as Hnil by (by intros ask tid ?%elem_of_nil).
  intros Hs; destruct Hs as [ip _|peer _| |now| |d local now _ _|now r' ask tid E|now r' E].
  - unfold Relay_permit. repeat case_match; stay.
  - unfold Relay_follow. repeat case_match; stay.
  - unfold Relay_release. rewrite Hl. stay.
  - assert (Relay_poll r now = r) as -> by (unfold Relay_poll, Relay_live in *; by destruct (rl_state r)). stay.
  - stay.
  - assert (forall ask tid, Rl_ask ask tid ∉ [Rl_in d]) as Hd by (by intros ask tid [=]%list_elem_of_singleton).
    unfold Relay_unwrap. cbv zeta. set (r0 := match rl_local r with None => _ | Some _ => _ end).
    assert (Relay_live r0 = false /\ rl_releasing r0 = false /\ rl_state r0 = rl_state r) as (L0 & R0 & S0)
      by (unfold r0; by destruct (rl_local r)).
    destruct (turn_parse d) as [[rsp|peer data|number data]|]; [|stay| |stay].
    + unfold Relay_answered. rewrite L0. stay.
    + destruct (Relay_channel_peer r0 number); stay.
  - by rewrite Hn in E.
  - rewrite Hn in E. injection E as <-. stay.
Qed.

(** An end is an end.  Once a relay has failed or been released, with no
    release still owed, nothing that arrives and nothing it is told changes that:
    its state stays, it never asks again, every output is empty and its timer never
    fires.  Asked to release while live, its next output is a refresh of zero
    lifetime if it holds an allocation, and nothing otherwise, and it is released. *)
Theorem relay_final (D : Digests) (r : Relay) (tr : list relay_event) (r' : Relay) (now : f64) (out : list Z) :
  relay_run r tr r' ->
  (Relay_live r = false -> rl_releasing r = false ->
   rl_state r' = rl_state r /\ (forall ask tid, Rl_ask ask tid ∉ tr) /\
   Relay_get_output r' now out = (r', out, None) /\ Relay_next_timer_ms r' now = f64_infinity) /\
  (Relay_live r' = true ->
   exists r'', Relay_next_ask (Relay_release r') now =
       (r'', match rl_relayed r' with Some _ => Some (Ask_Refresh 0, (Ids_next (rl_ids r')).2) | None => None end) /\
     rl_state r'' = Released /\ rl_releasing r'' = false).
Proof.
  intros Hrun. split.
  - intros Hl Hr.
    assert (Relay_live r' = false /\ rl_releasing r' = false /\ rl_state r' = rl_state r /\ forall ask tid, Rl_ask ask tid ∉ tr)
      as (L' & R' & S' & T').
    { induction Hrun as [|tr r1 ev r2 _ IH Hs]; [split_and!; try done; by intros ask tid ?%elem_of_nil|].
      destruct IH as (L1 & R1 & <- & T1). destruct (over_step r1 ev r2 L1 R1 Hs) as (L2 & R2 & -> & T2). split_and!; try done.
      intros ask tid [H|H]%elem_of_app; [by eapply T1|by eapply T2]. }
    split_and!; try done.
    + unfold Relay_get_output, Relay_next_ask. by rewrite R', L'.
    + unfold Relay_next_timer_ms. rewrite R'. unfold Relay_live in L'. by destruct (rl_state r').
  - intros Hl. unfold Relay_release. rewrite Hl. unfold Relay_next_ask.
    change (rl_releasing (r' <| rl_releasing := true |>)) with true. cbv iota zeta.
    change (rl_relayed (r' <| rl_releasing := true |> <| rl_releasing := false |> <| rl_state := Released |>)) with (rl_relayed r').
    destruct (rl_relayed r'); by eexists.
Qed.

(** ** A run, for the theorems above *)

Section sample.
  #[local] Existing Instance sample_digests.

Definition sample_relayed : SocketAddr := SockV4 [198; 51; 100; 9] 50000.
Definition sample_seed : list Z := repeat 7 16.
Definition sample_key : Key := Key_long_term [117] [114] [112].
Definition sample_id (n : Z) : TransactionId := derive_transaction_id sample_seed n.
Definition run_challenge : list Z :=
  plain (Z.lor METHOD_ALLOCATE CLASS_ERROR) (sample_id 0)
    [zattr ATTR_ERROR_CODE [0; 0; 4; 1]; zattr ATTR_REALM [114]; zattr ATTR_NONCE [110]].
Definition run_allocated : list Z :=
  sealed_answer sample_key (Z.lor METHOD_ALLOCATE CLASS_SUCCESS) (sample_id 1)
    [zattr ATTR_XOR_RELAYED_ADDRESS (mapped_bytes sample_relayed (sample_id 1))] [].
Definition run_permitted : list Z :=
  sealed_answer sample_key (Z.lor METHOD_CREATE_PERMISSION CLASS_SUCCESS) (sample_id 2) [] [].

(** The states of that run. *)
Definition run0 : Relay := relay_start sample_peer [117] [112] sample_seed f64_zero Carrier_Stream.
Definition run1 : Relay := (Relay_next_ask run0 f64_zero).1.
Definition run2 : Relay := (Relay_unwrap run1 run_challenge None f64_zero).1.
Definition run3 : Relay := (Relay_next_ask run2 f64_zero).1.
Definition run4 : Relay := (Relay_unwrap run3 run_allocated None f64_zero).1.
Definition run5 : Relay := (Relay_next_ask run4 f64_zero).1.
Definition run6 : Relay := (Relay_unwrap run5 run_permitted None f64_zero).1.

Definition run_trace : list relay_event :=
  [Rl_ask Ask_Allocate (sample_id 0); Rl_in run_challenge; Rl_ask Ask_Allocate (sample_id 1); Rl_in run_allocated;
   Rl_ask (Ask_Permission (sock_ip sample_relayed)) (sample_id 2); Rl_in run_permitted].

Ltac check_bytes := vm_compute; repeat constructor; discriminate.

Lemma sample_setup : relay_run run0 [Rl_ask Ask_Allocate (sample_id 0); Rl_in run_challenge] run2.
Proof.
  apply (rrun_step run0 [Rl_ask Ask_Allocate (sample_id 0)] run1 [Rl_in run_challenge]).
  - apply (rrun_step run0 [] run0 [Rl_ask Ask_Allocate (sample_id 0)]); [apply rrun_start|].
    apply (rs_output run0 f64_zero). vm_compute. reflexivity.
  - apply (rs_input run1 run_challenge None f64_zero); [check_bytes|by vm_compute].
Qed.

Lemma sample_run : relay_run run0 run_trace run6.
Proof.
  apply (rrun_step run0 (take 5 run_trace) run5 [Rl_in run_permitted]).
  2: apply (rs_input run5 run_permitted None f64_zero); [check_bytes|by vm_compute].
  apply (rrun_step run0 (take 4 run_trace) run4 [Rl_ask (Ask_Permission (sock_ip sample_relayed)) (sample_id 2)]).
  2: apply (rs_output run4 f64_zero); vm_compute; reflexivity.
  apply (rrun_step run0 (take 3 run_trace) run3 [Rl_in run_allocated]).
  2: apply (rs_input run3 run_allocated None f64_zero); [check_bytes|by vm_compute].
  apply (rrun_step run0 (take 2 run_trace) run2 [Rl_ask Ask_Allocate (sample_id 1)]); [exact sample_setup|].
  apply (rs_output run2 f64_zero). vm_compute. reflexivity.
Qed.

Lemma relay_grants_sealed_witness :
  is_ipv4 sample_relayed = true /\ granted [117] [112] run_trace (eq Ask_Allocate) (says_relayed sample_relayed).
Proof.
  apply (proj1 (relay_grants_sealed sample_digests sample_laws sample_peer [117] [112] sample_seed f64_zero Carrier_Stream
    run_trace run6 sample_run)).
  vm_compute. reflexivity.
Defined.

Lemma relay_requests_sent_witness :
  (let wire := request_wire run2 Ask_Allocate (sample_id 1) in
   Relay_get_output run2 f64_zero (repeat 0 500) =
     (run3, wire ++ drop (length wire) (repeat 0 500), Some (Ok (zlen wire))) /\ framed wire).
Proof.
  refine (proj1 (relay_requests_sent sample_digests sample_laws sample_peer [117] [112] sample_seed f64_zero f64_zero
    Carrier_Stream [Rl_ask Ask_Allocate (sample_id 0); Rl_in run_challenge] run2 run3 Ask_Allocate (sample_id 1)
    (repeat 0 500) sample_setup _ _ _ _)); vm_compute; first [reflexivity|discriminate].
Defined.

(** The sample relay, released at once. *)
Definition run_over : Relay := (Relay_next_ask (Relay_release run6) f64_zero).1.

Lemma relay_final_witness :
  rl_state run_over = Released /\ Relay_get_output run_over f64_zero [] = (run_over, [], None).
Proof.
  split; [by vm_compute|].
  exact (proj1 (proj2 (proj2 (proj1 (relay_final sample_digests run_over [] run_over f64_zero [] (rrun_start run_over))
    ltac:(by vm_compute) ltac:(by vm_compute))))).
Defined.
End sample.

(** Setting a relay up: the challenge, the allocation, the relay's own machine
    permitted, and then the relayed address may be offered. *)

Lemma geb_neg_infinity x : f64_is_nan x = false -> f64_geb x f64_neg_infinity = true.
Proof. destruct x as [?|[]| |]; done. Qed.

(** ** The challenge *)

Definition challenge_attrs (realm nonce : list Z) : list Attr :=
  [zattr ATTR_ERROR_CODE [0; 0; 4; 1]; zattr ATTR_REALM realm; zattr ATTR_NONCE nonce].

(** A refusal for want of a credential, naming the realm and a nonce. *)
Definition challenge_wire (tid : TransactionId) (realm nonce : list Z) : list Z :=
  plain (Z.lor METHOD_ALLOCATE CLASS_ERROR) tid (challenge_attrs realm nonce).

Lemma challenge_parses tid realm nonce :
  zlen tid = 12 -> zlen realm <= MAX_REALM -> 0 < zlen nonce <= MAX_NONCE ->
  exists rsp, turn_parse (challenge_wire tid realm nonce) = Ok (TurnResponse rsp) /\ rs_tid rsp = tid /\
    rs_error rsp = Some UNAUTHORIZED /\ Response_challenge rsp = Some (mkChallenge realm nonce).
Proof.
  intros Ht Hr Hn. unfold MAX_REALM, MAX_NONCE in *. pose proof (zlen_nonneg realm).
  set (l := challenge_attrs realm nonce). set (d := challenge_wire tid realm nonce).
  assert (Forall attr_ok l) as Hok by (repeat (constructor; [apply zattr_ok; [done|unfold fits; done || lia]|]); constructor).
  assert (0 <= zlen (attrs_wire l) <= 300) as Hz.
  { unfold l, challenge_attrs. rewrite !attrs_wire_cons, !zlen_app, !zlen_zattr. change (zlen (attrs_wire [])) with 0.
    change (zlen [0; 0; 4; 1]) with 4. change (pad_len 4) with 0.
    pose proof (pad_len_bounds (zlen realm)). pose proof (pad_len_bounds (zlen nonce)). lia. }
  set (rsp := mkResponse d Allocate tid (Some UNAUTHORIZED) None). exists rsp.
  assert (forall k, Response_find rsp k = find_attr k l) as Hf.
  { intros k. apply (response_find_attrs rsp (stun_head (Z.lor METHOD_ALLOCATE CLASS_ERROR) (zlen (attrs_wire l)) tid) l []).
    - by rewrite app_nil_r.
    - by apply zlen_stun_head.
    - cbn [rs_integrity_at rsp default rs_bytes]. unfold d, challenge_wire, plain. by rewrite zlen_app, zlen_stun_head.
    - done.
    - cbn [rs_bytes rsp]. unfold d, challenge_wire, plain. rewrite zlen_app, zlen_stun_head by done. unfold STUN_HEADER_LEN.
      fold l. lia. }
  split_and!; try done.
  - unfold d, challenge_wire, plain. fold l. rewrite turn_parse_message by done. rewrite parse_message_attrs by (done || (unfold fits; lia)).
    assert (gathered gather_start l = Some (mkGathered (20 + zlen (attrs_wire l)) None None None (Some [0; 0; 4; 1]))) as -> by done.
    done.
  - unfold Response_challenge. cbn [rs_error rsp]. rewrite !Hf.
    change ((UNAUTHORIZED =? UNAUTHORIZED) || (UNAUTHORIZED =? STALE_NONCE)) with true. cbv iota.
    change (find_attr ATTR_REALM l) with (Some realm). change (find_attr ATTR_NONCE l) with (Some nonce).
    unfold mbind, option_bind, MAX_REALM, MAX_NONCE. rewrite (proj2 (Z.leb_le (zlen realm) _)) by lia.
    rewrite (proj2 (Z.leb_le (zlen nonce) _)), (proj2 (Z.eqb_neq (zlen nonce) _)) by lia. done.
Qed.

Section setup.
  Context {D : Digests} {L : DigestLaws D} (user pw seed : list Z).

(** A relay part way through setup: [n] identifiers spent, no allocation. *)
Record setting_up (n : Z) (key : option Key) (allocating : option Pending) (r : Relay) : Prop := {
  su_state : rl_state r = Setup;
  su_releasing : rl_releasing r = false;
  su_user : rl_username r = user;
  su_pw : rl_password r = pw;
  su_ids : rl_ids r = mkIds seed n;
  su_key : rl_key r = key;
  su_allocating : rl_allocating r = allocating;
  su_relayed : rl_relayed r = None;
  su_refreshing : rl_refreshing r = None;
  su_permissions : rl_permissions r = repeat None (Z.to_nat MAX_PERMISSIONS);
  su_realm : zlen (rl_realm r) = MAX_REALM;
  su_nonce : zlen (rl_nonce r) = MAX_NONCE;
}.

Lemma setup_ask n key r now :
  setting_up n key None r -> f64_is_nan now = false -> 0 <= n < 2 ^ 32 - 1 ->
  let tid := derive_transaction_id seed n in
  exists r' p, Relay_next_ask r now = (r', Some (Ask_Allocate, tid)) /\ pe_tid p = tid /\
    setting_up (n + 1) key (Some p) r'.
Proof.
  intros [] Hn Hc tid. unfold Relay_next_ask. rewrite su_releasing0. unfold Relay_live. rewrite su_state0. cbn [negb].
  rewrite su_relayed0, su_allocating0. unfold step. rewrite geb_neg_infinity by done. rewrite su_ids0. cbn [Ids_next id_seed id_counter].
  eexists _, (mkPending tid now ALLOCATE_RESEND_MS). split; [reflexivity|]. split; [reflexivity|]. split; try done. cbn.
  unfold wadd. by rewrite wrap_small by (unfold fits; lia).
Qed.

(** What [unwrap] does before it looks at the datagram changes nothing here. *)
Lemma setup_local n key p r local : setting_up n key p r -> setting_up n key p (match rl_local r with None => r <| rl_local := canonical_ip <$> local |> | Some _ => r end).
Proof. intros []. destruct (rl_local r); by split. Qed.

Lemma setup_challenged n p r realm nonce local now :
  setting_up n None (Some p) r -> zlen (pe_tid p) = 12 -> zlen realm <= MAX_REALM -> 0 < zlen nonce <= MAX_NONCE ->
  exists r', Relay_unwrap r (challenge_wire (pe_tid p) realm nonce) local now = (r', Ok None) /\
    setting_up n (Some (Key_long_term user realm pw)) None r'.
Proof.
  intros S Ht Hr Hn. destruct (challenge_parses (pe_tid p) realm nonce Ht Hr Hn) as (rsp & Hp & Et & He & Hc).
  unfold Relay_unwrap. rewrite Hp. apply (setup_local _ _ _ _ local) in S. set (r0 := match rl_local r with None => _ | Some _ => _ end) in *.
  destruct S. eexists. split; [reflexivity|]. unfold Relay_answered, Relay_live. rewrite su_state0. cbn [negb].
  unfold Response_is_success. rewrite He. rewrite (bool_decide_eq_false_2 (Some UNAUTHORIZED = Some NO_CODE)) by done. cbn [orb andb].
  rewrite Et, su_allocating0. cbn [answers]. rewrite bool_decide_eq_true_2 by done. unfold Relay_allocated. cbv zeta. rewrite He, Hc.
  change (rl_key (r0 <| rl_allocating := None |>)) with (rl_key r0). rewrite su_key0. rewrite orb_true_r.
  unfold Relay_adopt. cbn [ch_realm ch_nonce].
  change (rl_realm (r0 <| rl_allocating := None |>)) with (rl_realm r0). change (rl_nonce (r0 <| rl_allocating := None |>)) with (rl_nonce r0).
  pose proof (zlen_nonneg realm). pose proof (zlen_nonneg nonce). rewrite !get_range_eq by lia.
  change (rl_key (r0 <| rl_allocating := None |>)) with (rl_key r0). rewrite su_key0. rewrite orb_true_r.
  split; try done; cbn.
  - by rewrite su_user0, su_pw0.
  - rewrite zlen_put_range; lia.
  - rewrite zlen_put_range; lia.
Qed.

(** When a relay granted [seconds] at [now] asks for a refresh. *)
Definition refresh_at (now : f64) (seconds : Z) : f64 :=
  f64_add now (f64_div (f64_mul (f64_of_Z seconds) (f64_of_Z 1000)) (f64_of_Z 2)).

(** Allocated, and the relay's own machine still to be permitted. *)
Record allocated_at (n : Z) (key : Key) (a : SocketAddr) (refresh : f64) (lease : Lease IpAddr) (r : Relay) : Prop := {
  aa_state : rl_state r = Setup;
  aa_releasing : rl_releasing r = false;
  aa_ids : rl_ids r = mkIds seed n;
  aa_key : rl_key r = Some key;
  aa_allocating : rl_allocating r = None;
  aa_relayed : rl_relayed r = Some a;
  aa_refreshing : rl_refreshing r = None;
  aa_refresh : rl_refresh_ms r = refresh;
  aa_permissions : rl_permissions r = Some lease :: repeat None 7;
}.

Definition allocation_attrs (a : SocketAddr) (tid : TransactionId) (seconds : Z) : list Attr :=
  [zattr ATTR_XOR_RELAYED_ADDRESS (mapped_bytes a tid); zattr ATTR_LIFETIME (to_be 4 seconds)].

(** A success of [m] sealed under [key], with nothing past the digest. *)
Definition success_wire (key : Key) (m : TurnMethod) (tid : TransactionId) (attrs : list Attr) : list Z :=
  sealed_answer key (Z.lor (method_code m) CLASS_SUCCESS) tid attrs [].

Lemma success_parses key m tid attrs :
  tid_ok tid -> Forall attr_ok attrs -> find_attr ATTR_MESSAGE_INTEGRITY attrs = None -> zlen (attrs_wire attrs) <= 2 ^ 15 ->
  exists rsp, turn_parse (success_wire key m tid attrs) = Ok (TurnResponse rsp) /\ rs_tid rsp = tid /\ rs_error rsp = None /\
    Response_verify rsp key = true /\ forall k, Response_find rsp k = find_attr k attrs.
Proof.
  intros Ht Ha Hn Hz. destruct (answer_parses key m tid attrs [] Ht Ha (Forall_nil _) Hn) as (P & V & F).
  - unfold sealed_answer. cbv zeta. rewrite zlen_app, zlen_stun_head, attrs_wire_app, zlen_app, attrs_wire_cons by apply Ht.
    rewrite integrity_wire by apply hmac_len. rewrite zlen_app, zlen_integrity_attr by apply hmac_len.
    change (zlen (attrs_wire [])) with 0. unfold STUN_HEADER_LEN. lia.
  - eexists. split; [exact P|]. split_and!; try done; exact V.
Qed.

Lemma setup_allocated n key p r o port seconds local now :
  let a := SockV4 o port in
  setting_up n (Some key) (Some p) r -> tid_ok (pe_tid p) -> sock_ok a -> 0 < seconds < 2 ^ 32 ->
  exists r', Relay_unwrap r (success_wire key Allocate (pe_tid p) (allocation_attrs a (pe_tid p) seconds)) local now
      = (r', Ok None) /\
    allocated_at n key a (refresh_at now seconds) (Lease_new (IpV4 o)) r'.
Proof.
  intros a S Ht Ha Hs. set (attrs := allocation_attrs a (pe_tid p) seconds). pose proof Ht as [Ht12 _].
  destruct (success_parses key Allocate (pe_tid p) attrs Ht) as (rsp & Hp & Et & He & Hv & Hf).
  { constructor; [by apply mapped_attr_ok|]. constructor; [by apply zattr_ok|constructor]. }
  { done. }
  { unfold attrs, allocation_attrs. rewrite !attrs_wire_cons, zlen_app, app_nil_r.
    pose proof (zlen_mapped_attr ATTR_XOR_RELAYED_ADDRESS a (pe_tid p) Ha Ht12). rewrite (zlen_zattr ATTR_LIFETIME), zlen_to_be.
    change (pad_len (Z.of_nat 4)) with 0. lia. }
  assert (Response_relayed_address rsp = Some a) as Er.
  { unfold Response_relayed_address. rewrite Hf, Et. change (find_attr ATTR_XOR_RELAYED_ADDRESS attrs) with (Some (mapped_bytes a (pe_tid p))).
    cbn [mbind option_bind]. by rewrite decode_mapped_bytes. }
  assert (Response_lifetime_s rsp = Some seconds) as El.
  { unfold Response_lifetime_s. rewrite Hf. change (find_attr ATTR_LIFETIME attrs) with (Some (to_be 4 seconds)).
    cbn [mbind option_bind]. rewrite zlen_to_be. cbn [Z.of_nat Z.eqb]. change (4 =? 4) with true. cbv iota.
    rewrite (from_to_be 4); [done|]. unfold fits. cbn. lia. }
  unfold Relay_unwrap. rewrite Hp. apply (setup_local _ _ _ _ local) in S. set (r0 := match rl_local r with None => _ | Some _ => _ end) in *.
  destruct S. eexists. split; [reflexivity|]. unfold Relay_answered, Relay_live. rewrite su_state0. cbn [negb].
  rewrite su_key0, Hv. cbn [negb]. rewrite andb_false_r. rewrite Et, su_allocating0. cbn [answers].
  rewrite bool_decide_eq_true_2 by done. unfold Relay_allocated. cbv zeta. rewrite He, Er, El. cbn [is_ipv4 a].
  unfold Relay_permit. change (rl_permissions (Relay_renewed _ _ _)) with (rl_permissions r0). rewrite su_permissions0.
  cbn [Z.to_nat MAX_PERMISSIONS repeat flatten omap existsb fill_first].
  unfold Relay_renewed. rewrite (proj2 (Z.ltb_lt 0 seconds)) by lia. by split.
Qed.

Lemma setup_permit n key a refresh r ip now :
  allocated_at n key a refresh (Lease_new ip) r -> f64_is_nan now = false -> f64_geb now refresh = false -> 0 <= n < 2 ^ 32 - 1 ->
  let tid := derive_transaction_id seed n in
  exists r' p, Relay_next_ask r now = (r', Some (Ask_Permission ip, tid)) /\ pe_tid p = tid /\
    allocated_at (n + 1) key a refresh (Lease_new ip <| ls_pending := Some p |>) r'.
Proof.
  intros [] Hn Hf Hc tid. unfold Relay_next_ask. rewrite aa_releasing0. unfold Relay_live. rewrite aa_state0. cbn [negb].
  rewrite aa_relayed0, aa_refreshing0, aa_refresh0. unfold step at 1. rewrite Hf.
  change (rl_permissions (r <| rl_refreshing := None |> <| rl_ids := rl_ids r |>)) with (rl_permissions r).
  rewrite aa_permissions0. cbn [step_leases ls_refused Lease_new orb negb ls_pending ls_due_ms]. unfold step at 1.
  rewrite geb_neg_infinity by done. change (rl_ids (r <| rl_refreshing := None |> <| rl_ids := rl_ids r |>)) with (rl_ids r).
  rewrite aa_ids0. cbn [Ids_next id_seed id_counter]. eexists _, (mkPending tid now RESEND_MS).
  split; [reflexivity|]. split; [reflexivity|]. split; try done. cbn. unfold wadd. by rewrite wrap_small by (unfold fits; lia).
Qed.

Lemma setup_ready n key a refresh ip p r attrs local now :
  allocated_at n key a refresh (Lease_new ip <| ls_pending := Some p |>) r -> sock_ip a = ip -> tid_ok (pe_tid p) ->
  Forall attr_ok attrs -> find_attr ATTR_MESSAGE_INTEGRITY attrs = None -> zlen (attrs_wire attrs) <= 2 ^ 15 ->
  exists r', Relay_unwrap r (success_wire key CreatePermission (pe_tid p) attrs) local now = (r', Ok None) /\
    Relay_offered r' = Some a /\ rl_permissions r' = Some (Lease_grant PERMISSION_MS now (Lease_new ip)) :: repeat None 7.
Proof.
  intros A Ea Ht Ha Hn Hz. destruct (success_parses key CreatePermission (pe_tid p) attrs Ht Ha Hn Hz) as (rsp & Hp & Et & He & Hv & _).
  unfold Relay_unwrap. rewrite Hp. set (r0 := match rl_local r with None => _ | Some _ => _ end).
  assert (allocated_at n key a refresh (Lease_new ip <| ls_pending := Some p |>) r0) as [] by (destruct A; unfold r0; destruct (rl_local r); by split).
  eexists. split; [reflexivity|]. unfold Relay_answered, Relay_live. rewrite aa_state0. cbn [negb].
  rewrite aa_key0, Hv. cbn [negb]. rewrite andb_false_r. rewrite Et, aa_allocating0, aa_refreshing0. cbn [answers].
  rewrite aa_permissions0. unfold position. cbn [position_from ls_pending set_field Lease_new answers].
  rewrite bool_decide_eq_true_2 by done. unfold Relay_permitted, stale_challenge. rewrite He.
  rewrite bool_decide_eq_false_2 by done. cbv zeta. rewrite aa_permissions0.
  change (get_at (Some (Lease_new ip <| ls_pending := Some p |>) :: repeat None 7) 0) with (Some (Some (Lease_new ip <| ls_pending := Some p |>))).
  cbv iota. unfold Relay_settle.
  change (rl_state (r0 <| rl_permissions := _ |>)) with (rl_state r0). rewrite aa_state0.
  change (rl_relayed (r0 <| rl_permissions := _ |>)) with (rl_relayed r0). rewrite aa_relayed0.
  match goal with |- context [existsb ?f ?l] => assert (existsb f l = true) as -> end; [|done].
  apply existsb_exists. eexists. split; [left; reflexivity|]. apply andb_true_iff. split; [by apply bool_decide_eq_true|done].
Qed.
End setup.

(** Setup reaches a relayed address.  Started with any credential over either
    carrier, the client asks for an allocation; told the realm and a nonce, it asks
    again under the long-term key; granted an IPv4 address for some seconds, it asks
    for the relay's own machine to be permitted, unless a refresh has fallen due
    first; and on that grant the relayed address may be offered, and not before. *)
Theorem relay_setup (D : Digests) (L : DigestLaws D) (server : SocketAddr) (user pw seed realm nonce o : list Z)
    (port seconds : Z) (start t0 t1 t2 t3 t4 t5 : f64) (carrier : Carrier) (local : option IpAddr) :
  let a := SockV4 o port in
  let key := Key_long_term user realm pw in
  let tid n := derive_transaction_id seed n in
  zlen realm <= MAX_REALM -> 0 < zlen nonce <= MAX_NONCE -> sock_ok a -> 0 < seconds < 2 ^ 32 ->
  f64_is_nan t0 = false -> f64_is_nan t2 = false -> f64_is_nan t4 = false ->
  f64_geb t4 (refresh_at t3 seconds) = false ->
  exists r1 r2 r3 r4 r5 r6,
    Relay_next_ask (relay_start server user pw seed start carrier) t0 = (r1, Some (Ask_Allocate, tid 0)) /\
    Relay_unwrap r1 (challenge_wire (tid 0) realm nonce) local t1 = (r2, Ok None) /\
    Relay_next_ask r2 t2 = (r3, Some (Ask_Allocate, tid 1)) /\ rl_key r3 = Some key /\
    Relay_unwrap r3 (success_wire key Allocate (tid 1) (allocation_attrs a (tid 1) seconds)) local t3 = (r4, Ok None) /\
    Relay_next_ask r4 t4 = (r5, Some (Ask_Permission (IpV4 o), tid 2)) /\ Relay_offered r5 = None /\
    Relay_unwrap r5 (success_wire key CreatePermission (tid 2) []) local t5 = (r6, Ok None) /\ Relay_offered r6 = Some a.
Proof.
  intros a key tid Hr Hn Ha Hs N0 N2 N4 Hf. set (r0 := relay_start server user pw seed start carrier).
  assert (setting_up user pw seed 0 None None r0) as S0 by done.
  destruct (setup_ask user pw seed 0 None r0 t0 S0 N0 ltac:(lia)) as (r1 & p1 & E1 & P1 & S1).
  destruct (setup_challenged user pw seed 1 p1 r1 realm nonce local t1 S1) as (r2 & E2 & S2);
    [rewrite P1; apply derive_tid_ok|done..|]. rewrite P1 in E2.
  destruct (setup_ask user pw seed 1 (Some key) r2 t2 S2 N2 ltac:(lia)) as (r3 & p3 & E3 & P3 & S3).
  destruct (setup_allocated user pw seed 2 key p3 r3 o port seconds local t3 S3) as (r4 & E4 & S4);
    [rewrite P3; apply derive_tid_ok|done..|]. rewrite P3 in E4.
  destruct (setup_permit seed 2 key a _ r4 (IpV4 o) t4 S4 N4 Hf ltac:(lia)) as (r5 & p5 & E5 & P5 & S5).
  destruct (setup_ready seed 3 key a _ (IpV4 o) p5 r5 [] local t5 S5) as (r6 & E6 & O6 & _);
    [done|rewrite P5; apply derive_tid_ok|constructor|done..|]. rewrite P5 in E6.
  exists r1, r2, r3, r4, r5, r6. split; [exact E1|]. split; [exact E2|]. split; [exact E3|]. split; [apply S3|].
  split; [exact E4|]. split; [exact E5|]. split; [|split; [exact E6|exact O6]].
  unfold Relay_offered. by rewrite (aa_state _ _ _ _ _ _ _ S5).
Qed.

Lemma relay_setup_witness :
  exists r1 r2 r3 r4 r5 r6,
    Relay_next_ask (D := sample_digests) (relay_start sample_peer [117] [112] sample_seed f64_zero Carrier_Datagram) f64_zero
      = (r1, Some (Ask_Allocate, derive_transaction_id (D := sample_digests) sample_seed 0)) /\
    Relay_unwrap (D := sample_digests) r1 (challenge_wire (derive_transaction_id (D := sample_digests) sample_seed 0) [114] [110])
      None f64_zero = (r2, Ok None) /\
    Relay_next_ask (D := sample_digests) r2 f64_zero
      = (r3, Some (Ask_Allocate, derive_transaction_id (D := sample_digests) sample_seed 1)) /\ rl_key r3 = Some sample_key /\
    Relay_unwrap (D := sample_digests) r3 (success_wire (D := sample_digests) sample_key Allocate
      (derive_transaction_id (D := sample_digests) sample_seed 1)
      (allocation_attrs sample_relayed (derive_transaction_id (D := sample_digests) sample_seed 1) 600)) None f64_zero = (r4, Ok None) /\
    Relay_next_ask (D := sample_digests) r4 f64_zero
      = (r5, Some (Ask_Permission (IpV4 [198; 51; 100; 9]), derive_transaction_id (D := sample_digests) sample_seed 2)) /\
    Relay_offered r5 = None /\
    Relay_unwrap (D := sample_digests) r5 (success_wire (D := sample_digests) sample_key CreatePermission
      (derive_transaction_id (D := sample_digests) sample_seed 2) []) None f64_zero = (r6, Ok None) /\
    Relay_offered r6 = Some sample_relayed.
Proof.
  apply (relay_setup sample_digests sample_laws sample_peer [117] [112] sample_seed [114] [110] [198; 51; 100; 9] 50000 600
    f64_zero f64_zero f64_zero f64_zero f64_zero f64_zero f64_zero Carrier_Datagram None).
  - discriminate.
  - split; [reflexivity|discriminate].
  - split; [reflexivity|]. split; [|unfold fits; lia]. repeat (constructor; [unfold fits; lia|]). constructor.
  - lia.
  - reflexivity.
  - reflexivity.
  - reflexivity.
  - vm_compute. reflexivity.
Defined.
