(* ===== verification/Endpoint.v ===== *)
(** One peer, both state machines (crates/core/src/endpoint.rs): connectivity
    first, then media, through a relay or not.

    The media half is an interface: [Media] has the trait's methods, and the
    session of Session.v is its instance. *)

From Stdlib Require Import SpecFloat.
From S2P Require Import Prelude CoreError Channel Float64 Packet Effect Net Slots Stun Conn Turn Relay Session.

Inductive Fault := Fault_Handshake | Fault_Aborted.

(** The trait [Media], its default bodies at the instance. *)
Class Media (M : Type) := {
  MediaInbound : Type;
  media_path_ready : M -> f64 -> M;
  media_woke : M -> f64 -> M;
  media_process_input : M -> list Z -> f64 -> list Z -> M * list Z * result MediaInbound;
  media_poll : M -> f64 -> M;
  media_next_timer_ms : M -> f64 -> f64;
  media_get_output : M -> f64 -> list Z -> M * list Z * option (result Z);
  media_send_message : M -> Z -> list Z -> list Z -> M * result Z;
  media_take_message : M -> Z -> list Z -> M * list Z * option (result Z);
  media_health : M -> f64 -> Health;
  media_fault : M -> option Fault;
  media_send_pressure : M -> Z -> option Pressure;
  media_set_level : M -> Z -> M;
  media_srtt_ms : M -> f64;
  media_rtt_min_ms : M -> f64;
  media_last_ack_in_ms : M -> f64;
  media_recv_cumulative : M -> Z -> option Z;
  media_recv_drops : M -> Z -> option Drops;
}.
Arguments MediaInbound M {_}.

#[export] Instance Session_media : Media Session := {|
  MediaInbound := Inbound;
  media_path_ready := fun s _ => s;
  media_woke := fun s _ => s;
  media_process_input := Session_process_input;
  media_poll := Session_poll;
  media_next_timer_ms := Session_next_timer_ms;
  media_get_output := Session_get_output;
  media_send_message := Session_send_message;
  media_take_message := Session_take_message;
  media_health := Session_health;
  media_fault := fun _ => None;
  media_send_pressure := Session_send_pressure;
  media_set_level := Session_set_level;
  media_srtt_ms := se_srtt_ms;
  media_rtt_min_ms := Session_rtt_min_ms;
  media_last_ack_in_ms := se_last_ack_in_ms;
  media_recv_cumulative := Session_recv_cumulative;
  media_recv_drops := Session_recv_drops;
|}.

(** [endpoint::Inbound]. *)
Inductive EndpointInbound (I : Type) :=
  | Connectivity (inbound : ConnInbound)
  | MediaIn (inbound : I)
  | RelayIn.
Arguments Connectivity {I}.
Arguments MediaIn {I}.
Arguments RelayIn {I}.

Record Endpoint (M : Type) := mkEndpoint {
  ep_conn : Conn;
  ep_session : M;
  ep_relay : option Relay;
}.
Arguments mkEndpoint {M}.
Arguments ep_conn {M}.
Arguments ep_session {M}.
Arguments ep_relay {M}.

#[export] Instance Endpoint_eta M : Eta (Endpoint M) := fun e => mkEndpoint (ep_conn e) (ep_session e) (ep_relay e).

(** A datagram for the relay. *)
Definition to_relay (relay : Relay) (len : Z) : Egress :=
  mkEgress (rl_server relay) Ttl_Default len (rl_local relay).

(** [Result::map]. *)
Definition result_map {A B} (f : A -> B) (r : result A) : result B :=
  match r with Ok a => Ok (f a) | Err e => Err e end.

(** How the loop of [relayed_output] ends: with something to return, or broken
    out of. [Loop_fuel] is a loop that has not ended yet. *)
Inductive Loop := Loop_return (res : result Egress) | Loop_break | Loop_fuel.

Section endpoint.
  Context {M : Type} `{MM : Media M} `{D : Digests}.
  Implicit Types e : Endpoint M.

Definition Endpoint_new (conn : Conn) (session : M) : Endpoint M := mkEndpoint conn session None.
Definition Endpoint_relayed (conn : Conn) (session : M) (relay : Relay) : Endpoint M :=
  mkEndpoint conn session (Some relay).

Definition Endpoint_add_candidate (e : Endpoint M) (addr : SocketAddr) (kind : Kind) : Endpoint M * result unit :=
  match ep_relay e with
  | Some relay =>
      if negb (reachable addr) then (e, Ok ())
      else
      let e := e <| ep_relay := Some (Relay_permit relay (sock_ip (canonical addr))) |> in
      let '(conn, res) := Conn_add_candidate (ep_conn e) addr kind in (e <| ep_conn := conn |>, res)
  | None => let '(conn, res) := Conn_add_candidate (ep_conn e) addr kind in (e <| ep_conn := conn |>, res)
  end.

Definition Endpoint_path (e : Endpoint M) : option SocketAddr := Conn_path (ep_conn e).

Definition Endpoint_health (e : Endpoint M) (now_ms : f64) : Health := media_health (ep_session e) now_ms.

Definition Endpoint_woke (e : Endpoint M) (now_ms : f64) : Endpoint M :=
  e <| ep_session := media_woke (ep_session e) now_ms |>.

Definition Endpoint_fault (e : Endpoint M) : option Fault := media_fault (ep_session e).

(** [if let Some(relay) = self.relay.as_mut() { relay.follow(peer) }]. *)
Definition follow_path (peer : SocketAddr) (e : Endpoint M) : Endpoint M :=
  e <| ep_relay ::= fmap (fun relay => Relay_follow relay peer) |>.

Definition Endpoint_deliver (e : Endpoint M) (datagram : list Z) (from : SocketAddr) (local : option IpAddr)
    (now_ms : f64) (scratch : list Z) : Endpoint M * list Z * result (EndpointInbound (MediaInbound M)) :=
  match demux_classify datagram with
  | Check =>
      match Conn_process_input (ep_conn e) datagram from local with
      | (conn, Err error) => (e <| ep_conn := conn |>, scratch, Err error)
      | (conn, Ok inbound) =>
          let e := e <| ep_conn := conn |> in
          let e := match inbound with
                   | PathEstablished path =>
                       follow_path path (e <| ep_session := media_path_ready (ep_session e) now_ms |>)
                   | _ => e
                   end in
          (e, scratch, Ok (Connectivity inbound))
      end
  | Record_ =>
      match media_process_input (ep_session e) datagram now_ms scratch with
      | (session, scratch, Err error) => (e <| ep_session := session |>, scratch, Err error)
      | (session, scratch, Ok inbound) => (e <| ep_session := session |>, scratch, Ok (MediaIn inbound))
      end
  end.

Definition Endpoint_process_input (e : Endpoint M) (datagram : list Z) (from : SocketAddr) (local : option IpAddr)
    (now_ms : f64) (scratch : list Z) : Endpoint M * list Z * result (EndpointInbound (MediaInbound M)) :=
  match ep_relay e with
  | None => Endpoint_deliver e datagram from local now_ms scratch
  | Some relay =>
      if negb (bool_decide (canonical from = rl_server relay)) then (e, scratch, Err Malformed)
      else
      let '(relay, res) := Relay_unwrap relay datagram local now_ms in
      let e := e <| ep_relay := Some relay |> in
      match res with
      | Err error => (e, scratch, Err error)
      | Ok None => (e, scratch, Ok RelayIn)
      | Ok (Some (peer, data)) =>
          match Endpoint_deliver e data peer None now_ms scratch with
          | (e, scratch, Err error) => (e, scratch, Err error)
          | (e, scratch, Ok inbound) =>
              let e := match inbound, Conn_path (ep_conn e) with
                       | MediaIn _, Some _ => follow_path peer e
                       | _, _ => e
                       end in
              (e, scratch, Ok inbound)
          end
      end
  end.

Definition Endpoint_poll (e : Endpoint M) (now_ms : f64) : Endpoint M :=
  let e := e <| ep_relay ::= fmap (fun relay => Relay_poll relay now_ms) |> in
  let e := e <| ep_conn := Conn_poll (ep_conn e) now_ms |> in
  e <| ep_session := media_poll (ep_session e) now_ms |>.

Definition Endpoint_next_timer_ms (e : Endpoint M) (now_ms : f64) : f64 :=
  let session := media_next_timer_ms (ep_session e) now_ms in
  match ep_relay e with
  | None => f64_min (Conn_next_timer_ms (ep_conn e) now_ms) session
  | Some relay =>
      match Relay_offered relay with
      | None => f64_min (Relay_next_timer_ms relay now_ms) session
      | Some _ =>
          f64_min (f64_min (Relay_next_timer_ms relay now_ms) (Conn_next_timer_ms (ep_conn e) now_ms)) session
      end
  end.

(** ** Output *)

(** The loop of [relayed_output]: checks and answers, until one can be relayed
    or there are no more. *)
Fixpoint relayed_checks (fuel : nat) (conn : Conn) (relay : Relay) (now_ms : f64) (out : list Z) :
    Conn * Relay * list Z * Loop :=
  match fuel with
  | O => (conn, relay, out, Loop_fuel)
  | S fuel' =>
      let head := INDICATION_HEADER_V4 in
      match get_range out head (head + MAX_BUILT) with
      | None => (conn, relay, out, Loop_return (Err BufferTooSmall))
      | Some body =>
          let '(conn, body, result) := Conn_get_output conn now_ms body in
          let out := put_range out head body in
          match result with
          | None => (conn, relay, out, Loop_break)
          | Some (Err error) => (conn, relay, out, Loop_return (Err error))
          | Some (Ok egress) =>
              if bool_decide (eg_ttl egress = Ttl_Probe) || negb (Relay_relayable relay (eg_to egress))
              then relayed_checks fuel' conn relay now_ms out
              else
              let '(relay, tid) := Relay_indication_id relay in
              let '(out, res) := wrap_indication tid (eg_to egress) (eg_len egress) out in
              (conn, relay, out, Loop_return (result_map (to_relay relay) res))
          end
      end
  end.

(** Owed answers, the probe, servers and candidates, once each at one instant,
    and one more turn. *)
Definition CHECKS_FUEL : nat := Z.to_nat (MAX_PENDING + 1 + MAX_SERVERS + MAX_CANDIDATES + 1).

Definition Endpoint_relayed_media (e : Endpoint M) (relay : Relay) (now_ms : f64) (out : list Z) :
    Endpoint M * list Z * option (result Egress) :=
  match Conn_path (ep_conn e) with
  | None => (e, out, None)
  | Some path =>
      let to := default path (rl_destination relay) in
      let channel := Relay_channel_for relay to now_ms in
      let head := match channel with Some _ => CHANNEL_HEADER_LEN | None => indication_header_len to end in
      match get_range out head (zlen out) with
      | None => (e, out, Some (Err BufferTooSmall))
      | Some body =>
          let '(session, body, result) := media_get_output (ep_session e) now_ms body in
          let e := e <| ep_session := session |> in
          let out := put_range out head body in
          match result with
          | None => (e, out, None)
          | Some (Err error) => (e, out, Some (Err error))
          | Some (Ok len) =>
              let '(relay, (out, framed)) :=
                match channel, rl_carrier relay with
                | Some number, Carrier_Datagram => (relay, wrap_channel number len out)
                | Some number, Carrier_Stream => (relay, wrap_channel_padded number len out)
                | None, _ => let '(relay, tid) := Relay_indication_id relay in (relay, wrap_indication tid to len out)
                end in
              (e <| ep_relay := Some relay |>, out, Some (result_map (to_relay relay) framed))
          end
      end
  end.

Definition Endpoint_relayed_output (e : Endpoint M) (relay : Relay) (now_ms : f64) (out : list Z) :
    Endpoint M * list Z * option (result Egress) :=
  match Relay_get_output relay now_ms out with
  | (relay, out, Some result) => (e <| ep_relay := Some relay |>, out, Some (result_map (to_relay relay) result))
  | (relay, out, None) =>
      let e := e <| ep_relay := Some relay |> in
      match Relay_offered relay with
      | None => (e, out, None)
      | Some _ =>
          let '(conn, relay, out, ended) := relayed_checks CHECKS_FUEL (ep_conn e) relay now_ms out in
          let e := e <| ep_conn := conn |> <| ep_relay := Some relay |> in
          match ended with
          | Loop_return res => (e, out, Some res)
          | Loop_break =>
              if Conn_owes_answer conn then (e, out, None) else Endpoint_relayed_media e relay now_ms out
          | Loop_fuel => (e, out, None)
          end
      end
  end.

Definition Endpoint_get_output (e : Endpoint M) (now_ms : f64) (out : list Z) :
    Endpoint M * list Z * option (result Egress) :=
  match ep_relay e with
  | Some relay => Endpoint_relayed_output e relay now_ms out
  | None =>
      let '(conn, out, result) := Conn_get_output (ep_conn e) now_ms out in
      let e := e <| ep_conn := conn |> in
      match result with
      | Some result => (e, out, Some result)
      | None =>
          if Conn_owes_answer conn then (e, out, None)
          else
          match Conn_path conn with
          | None => (e, out, None)
          | Some to =>
              let '(session, out, result) := media_get_output (ep_session e) now_ms out in
              let e := e <| ep_session := session |> in
              (e, out, result_map (fun len => mkEgress to Ttl_Default len (cn_local conn)) <$> result)
          end
      end
  end.
End endpoint.
