(* ===== verification/EndpointSpec.v ===== *)
(** The laws of a media half, which the session keeps, and what the endpoint promises: every datagram to the engine it belongs to, media
    only on a proven path, and a relay attempt that talks to the relay alone. *)

From Stdlib Require Import SpecFloat.
From S2P Require Import Prelude CoreError Packet Float64 Send SendFacts SendPoll Envelope Session.
From S2P Require Import SessionFacts SessionSpec Effect Net Slots Stun StunFacts StunSpec Conn ConnSpec.
From S2P Require Import Handshake Turn TurnSpec Relay RelaySpec Endpoint.

(** What a media half promises the endpoint, and that the session keeps it. *)

(** A media half in good order stays so, and emits records: a datagram the peer's
    demultiplexer hands to its own media half, within the absolute ceiling and
    within the buffer, which stays the length it was. *)
Class MediaLaws (M : Type) (MM : Media M) (ok : M -> Prop) : Prop := {
  media_path_ready_ok : forall s now, ok s -> ok (media_path_ready s now);
  media_woke_ok : forall s now, ok s -> ok (media_woke s now);
  media_input_ok : forall s d now scratch, ok s -> bytes_ok d -> ok (media_process_input s d now scratch).1.1;
  media_poll_ok : forall s now, ok s -> ok (media_poll s now);
  media_output_ok : forall s now out, ok s -> ok (media_get_output s now out).1.1;
  media_output : forall s now out s' out' n,
    ok s -> media_get_output s now out = (s', out', Some (Ok n)) ->
    zlen out' = zlen out /\ 0 <= n <= zlen out /\ n <= MAX_DATAGRAM /\
    demux_classify (take (Z.to_nat n) out') = Record_;
}.

Lemma put_tail (out body : list Z) :
  get_range out ENVELOPE_LEN (zlen out) = Some body -> forall body', zlen body' = zlen body ->
  zlen (put_range out ENVELOPE_LEN body') = zlen out.
Proof.
  intros Hb body' Hl. pose proof (get_tail_len _ _ Hb). apply get_range_zlen in Hb; [|done].
  apply zlen_put_range; [done|]. unfold ENVELOPE_LEN in *. lia.
Qed.

Lemma seal_buffer s w out s' out' n :
  session_ok s -> Session_seal s w out = (s', out', Ok n) ->
  zlen out' = zlen out /\ 0 <= n <= zlen out /\ n <= MAX_DATAGRAM.
Proof.
  intros S H. unfold Session_seal in H. destruct (checked_add _ _ _); [|done]. cbn [se_envelope set_field] in H.
  destruct (Envelope_seal_in_place _ _ _ _) as [out1 [m|]] eqn:Es; [|done]. injection H as _ <- <-.
  pose proof (so_env s S). destruct (seal_in_place_inv _ _ _ _ _ _ Es)
    as (h & p & rest & c & tag & -> & Hh & Hp & -> & Hm & _ & _ & Hc & Ht & ->).
  rewrite !zlen_app, zlen_record_header by done. pose proof (zlen_nonneg p). pose proof (zlen_nonneg rest).
  split_and!; lia.
Qed.

Lemma drain_loop_buffer fuel s now out :
  session_ok s -> let '(_, out', res) := drain_loop fuel s now out in
  match res with
  | Some (Ok n) => zlen out' = zlen out /\ 0 <= n <= zlen out /\ n <= MAX_DATAGRAM
  | Some (Err _) => True
  | None => zlen out' = zlen out
  end.
Proof.
  revert s out. induction fuel as [|fuel IH]; intros s out S; [done|]. cbn [drain_loop].
  destruct (_ <=? _); [done|]. destruct (ring_at _ _) as [ring|] eqn:Er; [|apply IH; by destruct S].
  destruct (get_range _ _ _) as [body|] eqn:Eb; [|done].
  pose proof (ring_at_ok _ _ _ _ (so_send s S) Er) as W.
  pose proof (poll_send_wf ring now (se_srtt_ms s) (se_level s) body W) as W'.
  destruct (poll_send_scan ring W now (se_srtt_ms s) _ body (se_level s) eq_refl) as (o & sc & k & Hk & _ & _ & _ & Hres).
  destruct (SendRing_poll_send _ _ _ _ _) as [[ring' body'] res] eqn:Ep. cbn [fst] in W'.
  pose proof (put_send_ok s (se_drain_channel s) ring' S W') as S1.
  destruct Hres as [[_ E]|(Hlt & _ & m & fb & Hv & Hocc & _ & E)].
  - injection E as -> -> ->. pose proof (put_tail _ _ Eb body eq_refl) as Hl.
    specialize (IH (put_send s (se_drain_channel s) (end_pass (scanned ring o sc k)) <| se_drain_channel ::= fun n => n + 1 |>)
      (put_range out ENVELOPE_LEN body) ltac:(by destruct S1)). rewrite Hl in IH. exact IH.
  - destruct (encode_data _ _) as [out1 [w|err]] eqn:Ee; injection E as -> -> ->; [|done].
    destruct (encode_data_inv body (mkData (sr_channel ring) (spos ring k) (ss_last m) fb) _ _
      (proj1 (sg_channel ring (sw_geom ring W))) (spos_fits ring k) Ee) as (_ & -> & rest & -> & Hl).
    destruct (Session_seal _ _ _) as [[s2 out2] [n|]] eqn:Es; [|done].
    destruct (seal_buffer _ _ _ _ _ _ S1 Es) as (E1 & E2 & E3). by rewrite (put_tail _ _ Eb _ Hl) in *.
Qed.

Lemma emit_ack_buffer s out s' out' n :
  session_ok s -> Session_emit_ack s out = (s', out', Ok n) ->
  zlen out' = zlen out /\ 0 <= n <= zlen out /\ n <= MAX_DATAGRAM.
Proof.
  intros S H. unfold Session_emit_ack in H. set (s1 := if ack_nack _ then _ else s) in H.
  assert (session_ok (s1 <| se_trigger_nack := false |>)) as S1
    by (unfold s1; destruct (ack_nack _); [destruct (get_at _ _)|]; by destruct S).
  destruct (get_range _ _ _) as [body|] eqn:Eb; [|done].
  destruct (session_ack_ok s S) as (Hok & Hz & Hf & Hr). destruct (ack_wire_parse _ Hok Hz Hf Hr) as [Hw _].
  destruct (Z.le_gt_cases ACK_LEN (zlen body)) as [Hbig|Hsmall].
  - rewrite encode_ack_wire in H by done. apply seal_buffer in H as (E1 & E2 & E3); [|done].
    rewrite (put_tail _ _ Eb) in *; [done|..]; rewrite app_assoc, zlen_app, Hw, zlen_drop; unfold ACK_LEN in *; lia.
  - destruct (encode_ack_small body (Session_ack s) Hsmall) as [e E]. by rewrite E in H.
Qed.

Lemma get_output_buffer s now out s' out' n :
  session_ok s -> Session_get_output s now out = (s', out', Some (Ok n)) ->
  zlen out' = zlen out /\ 0 <= n <= zlen out /\ n <= MAX_DATAGRAM.
Proof.
  intros S H. unfold Session_get_output in H. set (s1 := if negb _ then _ else s) in H.
  assert (session_ok s1) as S1.
  { unfold s1. destruct (negb _); [|done]. destruct S. split; try done. apply rings_ok_map; [apply begin_pass_wf|done]. }
  pose proof (drain_loop_buffer DRAIN_FUEL s1 now out S1) as Hb. pose proof (drain_loop_ok DRAIN_FUEL s1 now out S1) as S2.
  destruct (drain_loop DRAIN_FUEL s1 now out) as [[s2 out2] [res|]]; [by injection H as _ -> ->|].
  destruct (se_ack_due s2); [|done]. destruct (Session_emit_ack _ _) as [[s4 out4] [m|]] eqn:E4; [|done].
  injection H as _ -> ->. cbn [fst] in S2.
  apply emit_ack_buffer in E4 as (E1 & E2 & E3); [by rewrite Hb in *|by destruct S2].
Qed.

#[export] Instance Session_media_laws : MediaLaws Session Session_media session_ok.
Proof.
  split; cbn; try done.
  - intros s d now scratch. apply process_input_ok.
  - intros s now. apply poll_ok.
  - intros s now out. apply get_output_ok.
  - intros s now out s' out' n S H. destruct (get_output_buffer _ _ _ _ _ _ S H) as (E1 & E2 & E3).
    destruct (get_output_emits _ _ _ _ _ _ S H) as (packet & (p & [] & _) & _). done.
Qed.

(** ** How much an attempt has to say at one instant *)

Definition count {A} (p : A -> bool) (slots : list (option A)) : nat := length (List.filter p (flatten slots)).

Lemma count_le {A} (p : A -> bool) slots : (count p slots <= length slots)%nat.
Proof.
  unfold count. pose proof (flatten_length slots). pose proof (filter_length_le p (flatten slots)). lia.
Qed.

Lemma count_swap {A} (p : A -> bool) l1 x y l2 :
  p x = true -> p y = false ->
  S (length (List.filter p (l1 ++ y :: l2))) = length (List.filter p (l1 ++ x :: l2)).
Proof. intros Hx Hy. rewrite !List.filter_app, !length_app. cbn [List.filter]. rewrite Hx, Hy. cbn. lia. Qed.

Lemma update_at_flatten {A} i (f : A -> A) slots x :
  get_at slots i = Some (Some x) ->
  exists l1 l2, flatten slots = l1 ++ x :: l2 /\ flatten (update_at i f slots) = l1 ++ f x :: l2.
Proof.
  intros E. unfold update_at. rewrite E. unfold get_at, put_at in *. generalize dependent (Z.to_nat i). clear i.
  induction slots as [|o slots IH]; intros [|i] E; try done.
  - cbn in E. injection E as ->. exists [], (flatten slots). by rewrite !flatten_cons.
  - cbn in E. destruct (IH i E) as (l1 & l2 & E1 & E2). change (<[S i := Some (f x)]> (o :: slots)) with (o :: <[i := Some (f x)]> slots).
    rewrite !flatten_cons.
    destruct o as [y|]; [exists (y :: l1), l2|exists l1, l2]; by rewrite E1, E2.
Qed.

Lemma count_update_at {A} (p : A -> bool) i f slots x :
  get_at slots i = Some (Some x) -> p x = true -> p (f x) = false -> S (count p (update_at i f slots)) = count p slots.
Proof.
  intros E Hx Hf. destruct (update_at_flatten i f slots x E) as (l1 & l2 & E1 & E2). unfold count. rewrite E1, E2.
  by apply count_swap.
Qed.

Lemma count_update_first {A} (p q : A -> bool) f slots :
  (forall x, p (f x) = p x) -> count p (update_first q f slots) = count p slots.
Proof.
  intros Hf. unfold count. destruct (update_first_flatten q f slots) as [(l1 & x & l2 & E1 & _ & _ & E2)|[_ E]]; [|by rewrite E].
  rewrite E1, E2, !List.filter_app, !length_app. cbn [List.filter]. rewrite Hf. by destruct (p x).
Qed.

(** Something sent this instant is not due again at it. *)
Lemma sent_not_ready now : ready (Some now) now = false.
Proof.
  unfold ready. assert (f64_sub now now = S754_nan \/ exists s, f64_sub now now = S754_zero s) as [->|[s ->]]; [|done..].
  destruct now as [s|s| |s m e]; cbn; [destruct s; right; by eexists|destruct s; by left|by left|].
  right. unfold SFsub. destruct s; cbn; rewrite ?Z.sub_diag; by eexists.
Qed.

Definition to_say (c : Conn) (now : f64) : nat :=
  length (flatten (cn_pending c)) + (if cn_probe_sent c then 0 else 1) +
  count (fun s => ready (sv_last_probe_ms s) now) (cn_servers c) +
  count (fun x => ready (cd_last_check_ms x) now) (cn_candidates c).

(** The tables are the sizes they were made. *)
Definition tables_ok (c : Conn) : Prop :=
  zlen (cn_pending c) = MAX_PENDING /\ zlen (cn_servers c) = MAX_SERVERS /\ zlen (cn_candidates c) = MAX_CANDIDATES.

Lemma update_first_get_at {A} (p : A -> bool) f slots i x :
  get_at slots i = Some (Some x) ->
  exists y, get_at (update_first p f slots) i = Some (Some y) /\ (y = x \/ y = f x).
Proof.
  unfold get_at. generalize (Z.to_nat i). clear i. induction slots as [|o slots IH]; intros [|i] E; try done.
  - cbn in E. injection E as ->. cbn. destruct (p x); eexists; (split; [done|]); tauto.
  - cbn in E. destruct o as [z|]; cbn; [destruct (p z); [eauto|]|]; by apply IH.
Qed.

Section checks.
  Context {D : Digests}.

(** A check marks the identifier it went out under, and nothing that is due. *)
Lemma emit_check_tables c to ttl now out c' out' e :
  Conn_emit_check c to ttl now out = (c', out', Ok e) ->
  cn_servers c' = cn_servers c /\ exists tid, cn_candidates c' =
    update_first (fun x => bool_decide (cd_addr x = to)) (fun x => x <| cd_sent ::= fun s => SentIds_push s tid |>) (cn_candidates c).
Proof.
  unfold Conn_emit_check, Conn_next_transaction_id. cbv zeta iota beta.
  destruct (encode_binding_request _ _ _ _ _ _) as [o [len|]]; intros E; apply pair_equal_spec in E as [E E2]; [|done].
  apply pair_equal_spec in E as [<- _]. split; [done|]. by eexists.
Qed.

Lemma output_says_less c now out c' out' e :
  Conn_get_output c now out = (c', out', Some (Ok e)) -> (to_say c' now < to_say c now)%nat /\ (tables_ok c -> tables_ok c').
Proof.
  intros E. pose proof (get_output_case c now out) as H. rewrite E in H. destruct H as [H _].
  inversion H as [| |to tid local slots c1 o1 r Ht Ee|x c1 o1 r Hs Hb Hx Hk Hn Ee|i s c1 o1 r Hs Hx Ha Hr Hn Ee
    |i x c1 o1 r Hs Hx Ha Hr Hn Ee]; subst.
  - revert Ee. unfold Conn_emit_response. destruct (encode_binding_response _ _ _ _) as [o [len|]]; intros [= <- <- <-].
    apply take_first_flatten in Ht as [Ht Hl]. unfold to_say, tables_ok, zlen. cbn. rewrite Ht, Hl. cbn [length]. split; [lia|done].
  - pose proof (emit_check_fields _ _ _ _ _ _ _ _ Ee) as (_ & _ & _ & _ & E5 & E6 & _).
    apply emit_check_tables in Ee as (Es & tid & Ec). unfold to_say, tables_ok, zlen. rewrite E5, E6, Es, Ec.
    rewrite update_first_length. rewrite count_update_first by done. cbn. rewrite Hb. split; [lia|done].
  - revert Ee. unfold Conn_emit_reflexive, Conn_next_transaction_id.
    destruct (encode_reflexive_request _ _) as [o [len|]]; intros [= <- <- <-].
    unfold to_say, tables_ok, zlen. cbn. rewrite update_at_length. split; [|done].
    pose proof (count_update_at (fun s => ready (sv_last_probe_ms s) now) i (fun s =>
      s <| sv_last_probe_ms := Some now |> <| sv_sent ::= fun j => SentIds_push j (derive_transaction_id (cn_seed c) (cn_counter c)) |>)
      (cn_servers c) s Hx Hr (sent_not_ready now)) as Hc. unfold set_field in *. lia.
  - pose proof (emit_check_fields _ _ _ _ _ _ _ _ Ee) as (_ & _ & _ & _ & E5 & E6 & _).
    apply emit_check_tables in Ee as (Es & tid & Ec). unfold to_say, tables_ok, zlen.
    change (cn_pending (c1 <| cn_candidates ::= _ |>)) with (cn_pending c1).
    change (cn_servers (c1 <| cn_candidates ::= _ |>)) with (cn_servers c1).
    change (cn_probe_sent (c1 <| cn_candidates ::= _ |>)) with (cn_probe_sent c1).
    change (cn_candidates (c1 <| cn_candidates ::= ?f |>)) with (f (cn_candidates c1)). cbv beta.
    rewrite update_at_length, E5, E6, Es, Ec, update_first_length. split; [|done].
    destruct (update_first_get_at (fun y => bool_decide (cd_addr y = cd_addr x))
      (fun y => y <| cd_sent ::= fun s => SentIds_push s tid |>) (cn_candidates c) i x Hx) as (y & Hy & Hxy).
    pose proof (count_update_at (fun y => ready (cd_last_check_ms y) now) i (fun y => y <| cd_last_check_ms := Some now |>)
      _ y Hy ltac:(by destruct Hxy as [-> | ->]) (sent_not_ready now)) as Hc.
    rewrite (count_update_first (fun y => ready (cd_last_check_ms y) now)) in Hc by done. lia.
Qed.

(** The loop ends: each turn that goes on says something. *)
Lemma relayed_checks_end fuel c relay now out :
  (to_say c now < fuel)%nat -> (relayed_checks fuel c relay now out).2 <> Loop_fuel.
Proof.
  revert c relay out. induction fuel as [|fuel IH]; intros c relay out Hf; [lia|]. cbn [relayed_checks].
  destruct (get_range _ _ _) as [body|]; [|done].
  destruct (Conn_get_output c now body) as [[c' body'] [[e|err]|]] eqn:Eo; [|done..].
  destruct (output_says_less _ _ _ _ _ _ Eo) as [Hl _]. destruct (_ || _); [apply IH; lia|].
  destruct (Relay_indication_id relay) as [r t]. by destruct (wrap_indication _ _ _ _) as [o [n|]].
Qed.

Lemma to_say_bound c now : tables_ok c -> (to_say c now < CHECKS_FUEL)%nat.
Proof.
  intros (H1 & H2 & H3). unfold to_say, CHECKS_FUEL, MAX_PENDING, MAX_SERVERS, MAX_CANDIDATES, zlen in *.
  pose proof (flatten_length (cn_pending c)). pose proof (count_le (fun s => ready (sv_last_probe_ms s) now) (cn_servers c)).
  pose proof (count_le (fun x => ready (cd_last_check_ms x) now) (cn_candidates c)). destruct (cn_probe_sent c); lia.
Qed.

Lemma output_err_tables c now out c' out' res :
  Conn_get_output c now out = (c', out', res) -> (forall e, res <> Some (Ok e)) -> tables_ok c -> tables_ok c'.
Proof.
  intros E Hn Hok. pose proof (get_output_case c now out) as H. rewrite E in H. destruct H as [H _].
  inversion H as [| |to tid local slots c1 o1 r Ht Ee|x c1 o1 r Hs Hb Hx Hk _ Ee|i s c1 o1 r Hs Hx Ha Hr _ Ee
    |i x c1 o1 r Hs Hx Ha Hr _ Ee]; subst; try done; destruct r as [e|e]; try by destruct (Hn e).
  - revert Ee. unfold Conn_emit_response. destruct (encode_binding_response _ _ _ _) as [o [len|]]; intros [= <- <- <-].
    apply take_first_flatten in Ht as [_ Hl]. unfold tables_ok, zlen in *. cbn. by rewrite Hl.
  - apply emit_check_err in Ee as ->. done.
  - revert Ee. unfold Conn_emit_reflexive, Conn_next_transaction_id.
    destruct (encode_reflexive_request _ _) as [o [len|]]; intros [= <- <- <-]. done.
  - apply emit_check_err in Ee as ->. done.
Qed.

Lemma add_candidate_tables c addr kind : tables_ok c -> tables_ok (Conn_add_candidate c addr kind).1.
Proof.
  intros (H1 & H2 & H3). unfold Conn_add_candidate. destruct (existsb _ _); [done|].
  destruct (fill_first _ _) as [l|] eqn:E; [|done]. unfold tables_ok, zlen in *. cbn. by rewrite (fill_first_length _ _ _ E).
Qed.

Lemma establish_tables c : tables_ok c -> tables_ok (Conn_establish c).1.
Proof. intros H. unfold Conn_establish. destruct (cn_answered c) as [[a l]|]; [|done]. by destruct (_ || _). Qed.

Lemma input_tables c d from local : tables_ok c -> tables_ok (Conn_process_input c d from local).1.
Proof.
  intros H. unfold Conn_process_input. destruct (StunMessage_parse d) as [m|]; [|done]. destruct (sm_method m).
  - unfold Conn_on_request. destruct (negb _); [done|]. pose proof (add_candidate_tables c (canonical from) Kind_Direct H) as H1.
    destruct (Conn_add_candidate _ _ _) as [c1 ?]. cbn [fst] in H1. unfold Conn_queue_response.
    destruct (fill_first _ _) as [l|] eqn:E; [|done].
    pose proof (establish_tables (c1 <| cn_pending := l |> <| cn_checked := true |>)) as H2.
    destruct (Conn_establish _) as [c2 ?]. cbn [fst] in *. apply H2. destruct H1 as (? & ? & ?).
    unfold tables_ok, zlen in *. cbn. by rewrite (fill_first_length _ _ _ E).
  - unfold Conn_on_success. destruct (existsb _ _).
    { destruct H as (? & ? & ?). destruct (StunMessage_mapped_address m); unfold tables_ok, zlen in *; cbn; by rewrite !update_first_length. }
    destruct (negb _); [done|]. destruct (negb _); [done|]. destruct (_ || _); [done|].
    pose proof (establish_tables (c <| cn_answered := Some (canonical from, canonical_ip <$> local) |>)) as H2.
    destruct (Conn_establish _) as [c2 ?]. cbn [fst] in *. by apply H2.
Qed.

Lemma run_tables c tr c' : tables_ok c -> conn_run c tr c' -> tables_ok c'.
Proof.
  intros H0. induction 1 as [|tr c1 ev c2 _ IH Hs]; [done|].
  destruct Hs as [addr kind|addr| |now|d from local _|now out c' out' e _ E|now out c' out' res E Hn].
  - by apply add_candidate_tables.
  - destruct IH as (? & ? & ?). unfold Conn_add_server. destruct (existsb _ _); [done|].
    destruct (fill_first _ _) as [l|] eqn:E; [|done]. unfold tables_ok, zlen in *. cbn. by rewrite (fill_first_length _ _ _ E).
  - done.
  - unfold Conn_poll. destruct (negb _); [done|]. by destruct (f64_geb _ _).
  - by apply input_tables.
  - by eapply output_says_less.
  - by eapply output_err_tables.
Qed.
End checks.

(** A relay attempt's loop over the checks it owes ends.  However an attempt
    has been driven and whatever the time, asking it for checks until one can be
    relayed comes to an end: at one instant an attempt says no more than its
    answers owed, its probe, and one request to each server and candidate, because
    what has just been sent is not due again. *)
Theorem relayed_loop_ends (D : Digests) (cr : Credentials) (seed : list Z) (start now : f64) (tr : list conn_event) (c : Conn)
    (relay : Relay) (out : list Z) :
  conn_run (Conn_new cr seed start) tr c ->
  (relayed_checks CHECKS_FUEL c relay now out).2 <> Loop_fuel.
Proof. intros Hr. apply relayed_checks_end, to_say_bound. eapply run_tables; [|exact Hr]. by vm_compute. Qed.

Lemma relayed_loop_ends_witness :
  (relayed_checks (D := sample_digests) CHECKS_FUEL (Conn_new (mkCredentials [97] [98] [99] [100]) (repeat 0 16) f64_zero)
    (relay_start sample_peer [117] [112] (repeat 0 16) f64_zero Carrier_Datagram) f64_zero (repeat 0 300)).2 <> Loop_fuel.
Proof.
  exact (relayed_loop_ends sample_digests (mkCredentials [97] [98] [99] [100]) (repeat 0 16) f64_zero f64_zero []
    (Conn_new (mkCredentials [97] [98] [99] [100]) (repeat 0 16) f64_zero)
    (relay_start sample_peer [117] [112] (repeat 0 16) f64_zero Carrier_Datagram) (repeat 0 300) (run_start _)).
Defined.

(** ** Direct attempts *)

Section direct.
  Context {M : Type} {MM : Media M} {ok : M -> Prop} {ML : MediaLaws M MM ok} {D : Digests} {L : DigestLaws D}.
  Implicit Types e : Endpoint M.

(** What the network saw: the punch's datagrams, and the media half's. *)
Inductive ep_event :=
  | Ep_conn (ev : conn_event)
  | Ep_media (eg : Egress) (d : list Z).

Definition conn_of (tr : list ep_event) : list conn_event :=
  omap (fun ev => match ev with Ep_conn ev => Some ev | Ep_media _ _ => None end) tr.

(** One call on a direct endpoint, or on the engine and the media half it lends
    its driver. *)
Inductive ep_step e : list ep_event -> Endpoint M -> Prop :=
  | es_conn ev c : conn_step (ep_conn e) ev c -> ep_step e (map Ep_conn ev) (e <| ep_conn := c |>)
  | es_session s : ok s -> ep_step e [] (e <| ep_session := s |>)
  | es_candidate addr kind : ep_step e [] (Endpoint_add_candidate e addr kind).1
  | es_woke now : ep_step e [] (Endpoint_woke e now)
  | es_poll now : ep_step e [] (Endpoint_poll e now)
  | es_check d from local now scratch :
      bytes_ok d -> demux_classify d = Check ->
      ep_step e [Ep_conn (Ev_in d from local)] (Endpoint_process_input e d from local now scratch).1.1
  | es_record d from local now scratch :
      bytes_ok d -> demux_classify d = Record_ -> ep_step e [] (Endpoint_process_input e d from local now scratch).1.1
  | es_output now out e' out' eg :
      MAX_BUILT <= zlen out < 2 ^ 63 -> Endpoint_get_output e now out = (e', out', Some (Ok eg)) ->
      let d := take (Z.to_nat (eg_len eg)) out' in
      ep_step e [match (Conn_get_output (ep_conn e) now out).2 with Some _ => Ep_conn (Ev_out eg d) | None => Ep_media eg d end] e'
  | es_quiet now out e' out' res :
      Endpoint_get_output e now out = (e', out', res) -> (forall eg, res <> Some (Ok eg)) -> ep_step e [] e'.

Inductive ep_run e : list ep_event -> Endpoint M -> Prop :=
  | erun_start : ep_run e [] e
  | erun_step tr e1 ev e2 : ep_run e tr e1 -> ep_step e1 ev e2 -> ep_run e (tr ++ ev) e2.

Lemma conn_of_app tr ev : conn_of (tr ++ ev) = conn_of tr ++ conn_of ev.
Proof. apply omap_app. Qed.

Lemma conn_of_map ev : conn_of (map Ep_conn ev) = ev.
Proof. induction ev; cbn; by f_equal. Qed.

(** A direct endpoint's step, seen from the punch: one step of it, or none. *)
Lemma ep_step_conn e ev e' :
  ep_relay e = None -> ep_step e ev e' ->
  ep_relay e' = None /\ (conn_step (ep_conn e) (conn_of ev) (ep_conn e') \/ conn_of ev = [] /\ ep_conn e' = ep_conn e).
Proof.
  intros Hr Hs. destruct Hs as [ev c Hc|s _|addr kind|now|now|d from local now scratch Hb Hd|d from local now scratch Hb Hd
    |now out e' out' eg Ho E d|now out e' out' res E Hn].
  - split; [done|]. left. by rewrite conn_of_map.
  - split; [done|]. by right.
  - unfold Endpoint_add_candidate. rewrite Hr. pose proof (step_candidate (ep_conn e) addr kind) as Hc.
    destruct (Conn_add_candidate _ _ _) as [c r]. split; [done|]. by left.
  - split; [done|]. by right.
  - unfold Endpoint_poll. cbn. rewrite Hr. split; [done|]. left. apply ConnSpec.step_poll.
  - unfold Endpoint_process_input, Endpoint_deliver. rewrite Hr, Hd. pose proof (ConnSpec.step_input (ep_conn e) d from local Hb) as Hc.
    destruct (Conn_process_input _ _ _ _) as [c [inbound|]]; [|split; [done|by left]].
    destruct inbound; (split; [|by left]); cbn; by rewrite Hr.
  - unfold Endpoint_process_input, Endpoint_deliver. rewrite Hr, Hd.
    destruct (media_process_input _ _ _ _) as [[s sc] [inbound|]]; (split; [done|by right]).
  - unfold Endpoint_get_output in E. rewrite Hr in E. destruct (Conn_get_output (ep_conn e) now out) as [[c o] [res|]] eqn:Ec.
    + injection E as <- <- ->. split; [done|]. left. cbn. by eapply ConnSpec.step_output.
    + assert (conn_step (ep_conn e) [] c) as Hc by (by eapply ConnSpec.step_quiet).
      cbn. destruct (Conn_owes_answer c); [done|]. destruct (Conn_path c) as [to|]; [|done].
      destruct (media_get_output _ _ _) as [[s o2] r]. injection E as <- _ _. split; [done|]. by left.
  - unfold Endpoint_get_output in E. rewrite Hr in E. destruct (Conn_get_output (ep_conn e) now out) as [[c o] [r|]] eqn:Ec.
    + injection E as <- <- <-. split; [done|]. left. cbn. by eapply ConnSpec.step_quiet.
    + assert (conn_step (ep_conn e) [] c) as Hc by (by eapply ConnSpec.step_quiet).
      destruct (Conn_owes_answer c); [injection E as <- _ _; split; [done|by left]|].
      destruct (Conn_path c) as [to|]; [|injection E as <- _ _; split; [done|by left]].
      destruct (media_get_output _ _ _) as [[s o2] r]. injection E as <- _ _. split; [done|]. by left.
Qed.

Lemma ep_step_media e ev e' : ep_relay e = None -> ok (ep_session e) -> ep_step e ev e' -> ok (ep_session e').
Proof.
  intros Hr Hm Hs. destruct Hs as [ev c Hc|s Hs|addr kind|now|now|d from local now scratch Hb Hd|d from local now scratch Hb Hd
    |now out e' out' eg Ho E d|now out e' out' res E Hn]; try done.
  - unfold Endpoint_add_candidate. rewrite Hr. by destruct (Conn_add_candidate _ _ _).
  - by apply media_woke_ok.
  - by apply media_poll_ok.
  - unfold Endpoint_process_input, Endpoint_deliver. rewrite Hr, Hd.
    destruct (Conn_process_input _ _ _ _) as [c [inbound|]]; [|done]. destruct inbound; try done. by apply media_path_ready_ok.
  - unfold Endpoint_process_input, Endpoint_deliver. rewrite Hr, Hd.
    pose proof (media_input_ok (ep_session e) d now scratch Hm Hb) as Hi.
    by destruct (media_process_input _ _ _ _) as [[s sc] [inbound|]].
  - unfold Endpoint_get_output in E. rewrite Hr in E. pose proof (media_output_ok (ep_session e) now) as Hmo.
    destruct (Conn_get_output (ep_conn e) now out) as [[c o] [r|]]; [by injection E as <- _ _|].
    destruct (Conn_owes_answer c); [done|]. destruct (Conn_path c) as [to|]; [|done].
    specialize (Hmo o Hm). cbn in E. destruct (media_get_output _ _ _) as [[s o2] r]. by injection E as <- _ _.
  - unfold Endpoint_get_output in E. rewrite Hr in E. pose proof (media_output_ok (ep_session e) now) as Hmo.
    destruct (Conn_get_output (ep_conn e) now out) as [[c o] [r|]]; [by injection E as <- _ _|].
    destruct (Conn_owes_answer c); [by injection E as <- _ _|]. destruct (Conn_path c) as [to|]; [|by injection E as <- _ _].
    specialize (Hmo o Hm). cbn in E. destruct (media_get_output _ _ _) as [[s o2] r]. by injection E as <- _ _.
Qed.

(** What holds along every run of a direct endpoint. *)
Lemma ep_run_inv cr seed start s tr e :
  creds_ok cr -> ok s -> ep_run (Endpoint_new (Conn_new cr seed start) s) tr e ->
  ep_relay e = None /\ ok (ep_session e) /\ conn_inv cr (conn_of tr) (ep_conn e).
Proof.
  intros Hcr Hs. induction 1 as [|tr e1 ev e2 _ (Hr & Hm & Hi) He]; [split; [done|]; split; [done|]; apply conn_inv_new|].
  destruct (ep_step_conn _ _ _ Hr He) as [Hr2 Hc]. split; [done|]. split; [exact (ep_step_media e1 ev e2 Hr Hm He)|].
  rewrite conn_of_app. destruct Hc as [Hc|[-> ->]]; [by eapply inv_step|]. by rewrite app_nil_r.
Qed.

(** A media datagram leaving. *)
Lemma media_step e eg d e' :
  ep_relay e = None -> ok (ep_session e) -> ep_step e [Ep_media eg d] e' ->
  exists c, conn_step (ep_conn e) [] c /\ ep_conn e' = c /\ Conn_owes_answer c = false /\
    cn_state c = Established (eg_to eg) /\ eg_from eg = cn_local c /\ eg_ttl eg = Ttl_Default /\
    demux_classify d = Record_ /\ zlen d <= MAX_DATAGRAM.
Proof.
  intros Hr Hm Hs. inversion Hs as [ev c Hc Eev| | | | | | |now out e1 out' eg' Ho E d' Eev|]; subst.
  { destruct ev; done. }
  unfold Endpoint_get_output in E. rewrite Hr in E.
  destruct (Conn_get_output (ep_conn e) now out) as [[c o] [r|]] eqn:Ec; cbn [snd] in Eev; [done|].
  destruct (Conn_owes_answer c) eqn:Eo; [done|]. destruct (Conn_path c) as [to|] eqn:Ep; [|done].
  cbn in E. destruct (media_get_output _ _ _) as [[s o2] [[len|]|]] eqn:Em; [|done..]. apply pair_equal_spec in E as [E Eg].
  apply pair_equal_spec in E as [<- <-]. injection Eg as <-. injection Eev as <- <-.
  destruct (media_output _ _ _ _ _ _ Hm Em) as (Hl & Hn & Hmax & Hd). exists c.
  unfold Conn_path in Ep. destruct (cn_state c) eqn:Est; try done. injection Ep as ->. split_and!; try done.
  - by eapply ConnSpec.step_quiet.
  - unfold d'. rewrite zlen_take. cbn. lia.
Qed.
End direct.

(** C4: media goes nowhere but to a proven path.  However a direct endpoint is
    driven, a datagram of the media half leaves only toward an address from which
    the peer's own answer to one of this attempt's checks came, and after a check
    of the peer's, both sealed with the exchanged passwords; it leaves from the local
    address that answer arrived at, while no answer is owed to the peer; and it is a
    record within the absolute ceiling, which the peer hands to its own media half. *)
Theorem media_on_proven_path (M : Type) (MM : Media M) (ok : M -> Prop) (ML : MediaLaws M MM ok)
    (D : Digests) (L : DigestLaws D) (cr : Credentials) (seed : list Z) (start : f64) (s : M)
    (tr : list ep_event) (e e' : Endpoint M) (eg : Egress) (d : list Z) :
  creds_ok cr -> ok s ->
  ep_run (ok := ok) (Endpoint_new (Conn_new cr seed start) s) tr e -> ep_step (ok := ok) e [Ep_media eg d] e' ->
  answered_from cr (conn_of tr) (eg_to eg) (eg_from eg) /\ checked_by_peer cr (conn_of tr) /\
  Conn_owes_answer (ep_conn e') = false /\ eg_ttl eg = Ttl_Default /\
  demux_classify d = Record_ /\ zlen d <= MAX_DATAGRAM.
Proof.
  intros Hcr Hs Hrun Hstep. destruct (ep_run_inv cr seed start s tr e Hcr Hs Hrun) as (Hr & Hm & Hi).
  destruct (media_step e eg d e' Hr Hm Hstep) as (c & Hc & -> & Ho & Hst & Hf & Ht & Hd & Hl).
  pose proof (inv_step cr (conn_of tr) _ _ _ Hi Hcr Hc) as Hi'. rewrite app_nil_r in Hi'.
  destruct (ci_established _ _ _ Hi' _ Hst) as [Hck Ha]. split_and!; try done.
  - rewrite Hf. by apply (ci_answered _ _ _ Hi').
  - by apply (ci_checked _ _ _ Hi').
Qed.

(** An endpoint whose punch has found its path and answered the peer, and whose
    session has something to send. *)
Definition found_conn : Conn := (Conn_get_output (D := sample_digests) sample_found (f64_of_Z 20) (repeat 0 256)).1.1.
Definition found_endpoint : Endpoint Session := Endpoint_new found_conn session3.

Lemma output_parts {A} (r : A * list Z * option (result Egress)) e :
  r.2 = Some (Ok e) -> r = (r.1.1, r.1.2, Some (Ok e)).
Proof. destruct r as [[c o] res]. cbn. by intros ->. Qed.

Lemma found_run : exists tr,
  ep_run (ok := session_ok) (D := sample_digests)
    (Endpoint_new (Conn_new sample_credentials Handshake.sample_seed (f64_of_Z 0)) session3) tr found_endpoint.
Proof.
  assert (bytes_ok Handshake.sample_answer /\ bytes_ok sample_check) as [Ba Bc] by (split; vm_compute; repeat constructor; discriminate).
  assert (MAX_BUILT <= zlen (repeat 0 256) < 2 ^ 63) as Hz by (split; [vm_compute; discriminate|vm_compute; reflexivity]).
  set (at_ c := Endpoint_new c session3 : Endpoint Session).
  assert (forall tr c ev c', ep_run (ok := session_ok) (D := sample_digests) (at_ sample_start) tr (at_ c) ->
    conn_step (D := sample_digests) c ev c' -> ep_run (ok := session_ok) (D := sample_digests) (at_ sample_start) (tr ++ map Ep_conn ev) (at_ c')) as Hgo.
  { intros tr c ev c' Hr Hs. eapply erun_step; [exact Hr|]. exact (es_conn (at_ c) ev c' Hs). }
  set (r := Conn_get_output (D := sample_digests) sample_told (f64_of_Z 0) (repeat 0 256)).
  set (e := mkEgress sample_peer Ttl_Default 92 None).
  assert (r.2 = Some (Ok e)) as Ee%output_parts by (vm_compute; reflexivity). change r.1.1 with sample_sent in Ee.
  set (r5 := Conn_get_output (D := sample_digests) sample_found (f64_of_Z 20) (repeat 0 256)).
  set (e5 := mkEgress sample_peer Ttl_Default 64 None).
  assert (r5.2 = Some (Ok e5)) as Ee5%output_parts by (vm_compute; reflexivity). change r5.1.1 with found_conn in Ee5.
  pose proof (Hgo _ sample_start _ sample_told (erun_start _) (step_candidate sample_start sample_peer Kind_Direct)) as R1.
  pose proof (Hgo _ sample_told _ sample_sent R1 (ConnSpec.step_output (D := sample_digests) sample_told (f64_of_Z 0) (repeat 0 256) sample_sent r.1.2 e Hz Ee)) as R2.
  pose proof (Hgo _ sample_sent _ sample_reached R2 (ConnSpec.step_input sample_sent Handshake.sample_answer sample_peer None Ba)) as R3.
  pose proof (Hgo _ sample_reached _ sample_found R3 (ConnSpec.step_input sample_reached sample_check sample_peer None Bc)) as R4.
  pose proof (Hgo _ sample_found _ found_conn R4
    (ConnSpec.step_output (D := sample_digests) sample_found (f64_of_Z 20) (repeat 0 256) found_conn r5.1.2 e5 Hz Ee5)) as R5.
  eexists. exact R5.
Qed.

(** Its punch has nothing more to say, and its session has. *)
Lemma found_quiet : (Conn_get_output (D := sample_digests) found_conn (f64_of_Z 40) (repeat 0 256)).2 = None.
Proof. vm_compute. reflexivity. Qed.

Lemma found_media : exists e' out' eg,
  Endpoint_get_output (MM := Session_media) (D := sample_digests) found_endpoint (f64_of_Z 40) (repeat 0 256) = (e', out', Some (Ok eg)).
Proof.
  assert ((Endpoint_get_output (MM := Session_media) (D := sample_digests) found_endpoint (f64_of_Z 40) (repeat 0 256)).2 =
    Some (Ok (mkEgress sample_peer Ttl_Default 44 None))) as E%output_parts by (vm_compute; reflexivity).
  eexists _, _, _. exact E.
Qed.

Lemma media_on_proven_path_witness :
  exists tr eg d e', ep_step (MM := Session_media) (ok := session_ok) (D := sample_digests) found_endpoint [Ep_media eg d] e' /\
    answered_from (D := sample_digests) sample_credentials (conn_of tr) (eg_to eg) (eg_from eg) /\ demux_classify d = Record_.
Proof.
  destruct found_run as [tr R]. destruct found_media as (e' & out' & eg & Er).
  assert (MAX_BUILT <= zlen (repeat 0 256) < 2 ^ 63) as Hz by (split; [vm_compute; discriminate|vm_compute; reflexivity]).
  pose proof (es_output (MM := Session_media) (ok := session_ok) (D := sample_digests) found_endpoint (f64_of_Z 40) (repeat 0 256)
    e' out' eg Hz Er) as S.
  cbv zeta in S. change (ep_conn found_endpoint) with found_conn in S. rewrite found_quiet in S.
  assert (creds_ok sample_credentials) as Hc by (split; vm_compute; discriminate).
  exists tr, eg, (take (Z.to_nat (eg_len eg)) out'), e'. split; [exact S|].
  destruct (media_on_proven_path Session Session_media session_ok Session_media_laws sample_digests sample_laws sample_credentials
    Handshake.sample_seed (f64_of_Z 0) session3 tr found_endpoint e' eg _ Hc session3_ok R S) as (H1 & _ & _ & _ & H2 & _).
  split; [exact H1|exact H2].
Defined.
