(* ===== verification/EndpointTyped.v ===== *)
(** A relay attempt driven through its endpoint: the relay and the punch inside it
    are only ever driven as their own runs allow, and every address and identifier
    they hold is one the types of the source admit. *)

From Stdlib Require Import SpecFloat.
From S2P Require Import Prelude CoreError Float64 Packet Effect Net Slots Stun StunFacts StunSpec Conn ConnSpec.
From S2P Require Import Handshake Turn TurnSpec Relay RelaySpec Session SessionFacts SessionSpec Endpoint EndpointSpec.

(** ** The punch *)

(** What the types of the source guarantee of an attempt's tables. *)
Record conn_typed (c : Conn) : Prop := {
  ct_tables : tables_ok c;
  ct_pending : forall to tid local, (to, tid, local) ∈ flatten (cn_pending c) -> sock_ok to /\ tid_ok tid;
  ct_servers : forall s, s ∈ flatten (cn_servers c) -> sock_ok (sv_addr s);
  ct_candidates : forall x, x ∈ flatten (cn_candidates c) -> sock_ok (cd_addr x);
  ct_answered : forall a l, cn_answered c = Some (a, l) -> sock_ok a;
  ct_path : forall p, Conn_path c = Some p -> sock_ok p;
}.

Lemma conn_new_typed cr seed start : conn_typed (Conn_new cr seed start).
Proof.
  split; try done.
  - intros to tid local H. cbn [cn_pending Conn_new] in H. rewrite flatten_repeat_None in H. by apply elem_of_nil in H.
  - intros s H. cbn [cn_servers Conn_new] in H. rewrite flatten_repeat_None in H. by apply elem_of_nil in H.
  - intros x H. cbn [cn_candidates Conn_new] in H. rewrite flatten_repeat_None in H. by apply elem_of_nil in H.
Qed.

Section conn.
  Context {D : Digests}.
  Implicit Types c : Conn.

Lemma add_candidate_typed c addr kind : conn_typed c -> sock_ok addr -> conn_typed (Conn_add_candidate c addr kind).1.
Proof.
  intros T Ha. pose proof (add_candidate_tables c addr kind (ct_tables c T)) as Ht. revert Ht. unfold Conn_add_candidate.
  destruct (existsb _ _); [done|]. destruct (fill_first _ _) as [slots|] eqn:E; [|done]. cbn [fst]. intros Ht.
  destruct T. split; try done. cbn. intros x [->|Hx]%(fill_first_flatten _ _ _ _ E); [by apply canonical_ok|auto].
Qed.

Lemma add_server_typed c addr : conn_typed c -> sock_ok addr -> conn_typed (Conn_add_server c addr).1.
Proof.
  intros [(? & Hs & ?) T2 T3 T4 T5 T6] Ha. unfold Conn_add_server. destruct (existsb _ _); [done|].
  destruct (fill_first _ _) as [slots|] eqn:E; [|done]. split; try done.
  - unfold tables_ok, zlen in *. cbn. by rewrite (fill_first_length _ _ _ E).
  - cbn. intros x [->|Hx]%(fill_first_flatten _ _ _ _ E); [by apply canonical_ok|auto].
Qed.

Lemma poll_typed c now : conn_typed c -> conn_typed (Conn_poll c now).
Proof. intros T. unfold Conn_poll. destruct (negb _); [done|]. destruct (f64_geb _ _); [|done]. destruct T. by split. Qed.

Lemma establish_typed c : conn_typed c -> conn_typed (Conn_establish c).1.
Proof.
  intros T. unfold Conn_establish. destruct (cn_answered c) as [[a l]|] eqn:E; [|done]. destruct (_ || _); [done|].
  pose proof (ct_answered c T a l E) as Ha. destruct T. split; try done. by intros p [= <-].
Qed.

Lemma conn_input_typed c d from local :
  conn_typed c -> bytes_ok d -> sock_ok from -> conn_typed (Conn_process_input c d from local).1.
Proof.
  intros T Hb Hf. unfold Conn_process_input. destruct (StunMessage_parse d) as [m|] eqn:Ep; [|done].
  destruct (parse_inv d m Hb Ep) as (_ & _ & _ & _ & Ht & _). apply canonical_ok in Hf. destruct (sm_method m).
  - unfold Conn_on_request. destruct (negb _); [done|]. pose proof (add_candidate_typed c (canonical from) Kind_Direct T Hf) as T1.
    destruct (Conn_add_candidate _ _ _) as [c1 ?]. cbn [fst] in T1. unfold Conn_queue_response.
    destruct (fill_first _ _) as [l|] eqn:E; [|done].
    pose proof (establish_typed (c1 <| cn_pending := l |> <| cn_checked := true |>)) as H2.
    destruct (Conn_establish _) as [c2 ?]. cbn [fst] in *. apply H2. destruct T1 as [(? & ? & ?) T1]. split; try done.
    + unfold tables_ok, zlen in *. cbn. by rewrite (fill_first_length _ _ _ E).
    + cbn. intros to tid lo [[= -> -> _]|Hx]%(fill_first_flatten _ _ _ _ E); [done|by eapply T1].
  - unfold Conn_on_success. destruct (existsb _ _).
    { destruct T as [(? & ? & ?) T2 T3]. destruct (StunMessage_mapped_address m) as [mapped|]; split; try done; cbn;
        try (unfold tables_ok, zlen in *; cbn; by rewrite !update_first_length).
      - intros s [[Hs|(y & Hy & _ & ->)]%update_first_elem|(y & [Hy|(z & Hz & _ & ->)]%update_first_elem & _ & ->)]%update_first_elem;
          [by apply T3|exact (T3 y Hy)|exact (T3 y Hy)|exact (T3 z Hz)].
      - intros s [Hs|(y & Hy & _ & ->)]%update_first_elem; [by apply T3|exact (T3 y Hy)]. }
    destruct (negb _); [done|]. destruct (negb _); [done|]. destruct (_ || _); [done|].
    pose proof (establish_typed (c <| cn_answered := Some (canonical from, canonical_ip <$> local) |>)) as H2.
    destruct (Conn_establish _) as [c2 ?]. cbn [fst] in *. apply H2. destruct T. split; try done. by intros a l [= <- _].
Qed.

Lemma emit_check_same c to ttl now out c' out' e :
  Conn_emit_check c to ttl now out = (c', out', Ok e) ->
  cn_pending c' = cn_pending c /\ cn_answered c' = cn_answered c /\ Conn_path c' = Conn_path c.
Proof.
  unfold Conn_emit_check, Conn_next_transaction_id. cbv zeta iota beta.
  destruct (encode_binding_request _ _ _ _ _ _) as [o [len|]]; intros E; apply pair_equal_spec in E as [E E2]; [|done].
  apply pair_equal_spec in E as [<- _]. done.
Qed.

(** Sending marks what was sent, and names nobody new. *)
Lemma conn_output_typed c now out : conn_typed c -> conn_typed (Conn_get_output c now out).1.1.
Proof.
  intros T. destruct (Conn_get_output c now out) as [[c' out'] res] eqn:E. cbn [fst].
  assert (tables_ok c') as Ht.
  { destruct res as [[e|]|]; [by eapply output_says_less, T|by eapply output_err_tables, T|by eapply output_err_tables, T]. }
  pose proof (get_output_case c now out) as H. rewrite E in H. destruct H as [H _].
  destruct T as [_ T2 T3 T4 T5 T6].
  inversion H as [| |to tid local slots c1 o1 r Hp Ee|x c1 o1 r Hs Hb Hx Hk Hn Ee|i s c1 o1 r Hs Hx Ha Hr Hn Ee
    |i x c1 o1 r Hs Hx Ha Hr Hn Ee]; subst; try done.
  - apply take_first_flatten in Hp as [Hp _].
    assert (c' = c <| cn_pending := slots |> \/ c' = c <| cn_pending := slots |> <| cn_last_sent_ms := Some now |>) as Hc.
    { revert Ee. unfold Conn_emit_response. destruct (encode_binding_response _ _ _ _) as [o [len|]]; intros Ee;
        apply pair_equal_spec in Ee as [Ee _]; apply pair_equal_spec in Ee as [<- _]; auto. }
    assert (forall a t l, (a, t, l) ∈ flatten slots -> sock_ok a /\ tid_ok t) as Hsl
      by (intros a t l Hin; apply (T2 a t l); rewrite Hp; apply elem_of_cons; by right).
    destruct Hc as [-> | ->]; by split.
  - destruct r as [e|e]; [|apply emit_check_err in Ee as ->; by split].
    pose proof (emit_check_same _ _ _ _ _ _ _ _ Ee) as (E1 & E2 & E3).
    apply emit_check_tables in Ee as (Es & tid & Ec). split; [done|by rewrite E1|by rewrite Es| |by rewrite E2|by rewrite E3].
    rewrite Ec. intros y [Hy|(z & Hz & _ & ->)]%update_first_elem; [by apply T4|exact (T4 z Hz)].
  - revert Ee. unfold Conn_emit_reflexive, Conn_next_transaction_id. destruct (encode_reflexive_request _ _) as [o [len|]];
      intros Ee; apply pair_equal_spec in Ee as [Ee _]; apply pair_equal_spec in Ee as [<- _]; split; try done.
    cbn. intros y [Hy|(z & Hz & _ & ->)]%update_at_elem; [by apply T3|exact (T3 z Hz)].
  - destruct r as [e|e]; [|apply emit_check_err in Ee as ->; by split].
    pose proof (emit_check_same _ _ _ _ _ _ _ _ Ee) as (E1 & E2 & E3).
    apply emit_check_tables in Ee as (Es & tid & Ec).
    split; cbn; [done|by rewrite E1|by rewrite Es| |by rewrite E2|intros p Hp; apply T6; rewrite <- E3; exact Hp].
    rewrite Ec. intros y Hy. apply update_at_elem in Hy.
    assert (forall z, z ∈ flatten (update_first (fun y => bool_decide (cd_addr y = cd_addr x))
      (fun y => y <| cd_sent ::= fun s => SentIds_push s tid |>) (cn_candidates c)) -> sock_ok (cd_addr z)) as Hall.
    { intros z [Hz|(w & Hw & _ & ->)]%update_first_elem; [by apply T4|exact (T4 w Hw)]. }
    destruct Hy as [Hy|(z & Hz & _ & ->)]; [by apply Hall|exact (Hall z Hz)].
Qed.
End conn.

(** ** The relay *)

(** A relay some run of its own has brought here, following a typed peer. *)
Record relay_reached `{D : Digests} (r0 r : Relay) : Prop := {
  rr_run : exists tr, relay_run r0 tr r;
  rr_destination : forall p, rl_destination r = Some p -> sock_ok p;
}.

Section relay.
  Context {D : Digests} {L : DigestLaws D}.

(** Only following a peer moves the destination. *)
Lemma answered_destination r rsp now : rl_destination (Relay_answered r rsp now) = rl_destination r.
Proof.
  assert (forall r f, rl_destination (Relay_fail r f) = rl_destination r) as Hf
    by (intros r1 f; unfold Relay_fail; by destruct (Relay_live r1)).
  assert (forall r ch, rl_destination (Relay_adopt r ch) = rl_destination r) as Ha
    by (intros r1 ch; unfold Relay_adopt; repeat case_match; done).
  assert (forall r ip, rl_destination (Relay_permit r ip) = rl_destination r) as Hp
    by (intros r1 ip; unfold Relay_permit; repeat case_match; done).
  assert (forall r, rl_destination (Relay_settle r) = rl_destination r) as Hs
    by (intros r1; unfold Relay_settle; repeat case_match; done).
  unfold Relay_answered. destruct (negb _); [done|]. cbv zeta. destruct (_ && _); [done|]. destruct (answers _ _).
  { unfold Relay_allocated. repeat case_match; rewrite ?Hp, ?Hf, ?Ha; done. }
  destruct (answers _ _); [unfold Relay_refreshed; repeat case_match; rewrite ?Hf, ?Ha; done|].
  destruct (position _ (rl_permissions r)) as [[i l]|].
  { unfold Relay_permitted. repeat case_match; rewrite ?Hs, ?Hf; cbn; rewrite ?Ha; done. }
  destruct (position _ (rl_channels r)) as [[i l]|]; [|done].
  unfold Relay_bound. repeat case_match; cbn; rewrite ?Ha; done.
Qed.

Lemma next_ask_destination r now r' o : Relay_next_ask r now = (r', o) -> rl_destination r' = rl_destination r.
Proof. unfold Relay_next_ask. intros E. repeat (case_match; simplify_eq/=; try done). Qed.

Lemma relay_step_destination r ev r' p :
  relay_step r ev r' -> (forall p, rl_destination r = Some p -> sock_ok p) -> rl_destination r' = Some p -> sock_ok p.
Proof.
  intros Hs Hd. destruct Hs as [ip _|peer Hp| |now| |d local now _ _|now r' ask tid E|now r' E]; try by apply Hd.
  - unfold Relay_permit. repeat case_match; by apply Hd.
  - unfold Relay_follow. repeat case_match; try by apply Hd. all: intros [= <-]; done.
  - unfold Relay_release. case_match; by apply Hd.
  - unfold Relay_poll, Relay_fail. repeat case_match; by apply Hd.
  - assert (rl_destination (Relay_unwrap r d local now).1 = rl_destination r) as ->; [|by apply Hd].
    unfold Relay_unwrap. cbv zeta. set (r0 := match rl_local r with None => _ | Some _ => _ end).
    assert (rl_destination r0 = rl_destination r) as <- by (unfold r0; by destruct (rl_local r)).
    destruct (turn_parse d) as [[rsp|peer data|number data]|]; try done; [apply answered_destination|].
    by destruct (Relay_channel_peer r0 number).
  - rewrite (next_ask_destination _ _ _ _ E). apply Hd.
  - rewrite (next_ask_destination _ _ _ _ E). apply Hd.
Qed.

Lemma reached_step r0 r ev r' : relay_reached r0 r -> relay_step r ev r' -> relay_reached r0 r'.
Proof.
  intros [[tr R] Hd] Hs. split; [eexists; by eapply rrun_step|]. intros p. by eapply relay_step_destination.
Qed.

Lemma before_integrity_bytes l : bytes_ok (attrs_wire l) -> bytes_ok (attrs_wire (before_integrity l)).
Proof.
  induction l as [|a l IH]; [done|]. rewrite attrs_wire_cons. intros [Ha Hl]%Forall_app. cbn [before_integrity].
  destruct (_ =? _); [by constructor|]. rewrite attrs_wire_cons. apply Forall_app. split; [done|by apply IH].
Qed.

Lemma gathered_bytes l g :
  bytes_ok (attrs_wire l) -> gathered gather_start l = Some g ->
  (forall v, ga_peer g = Some v -> bytes_ok v) /\ (forall v, ga_data g = Some v -> bytes_ok v).
Proof.
  intros Hb. apply before_integrity_bytes in Hb. unfold gathered, gather_start. cbn [ga_integrity_at ga_peer ga_data or_find].
  intros E. assert (ga_peer g = find_attr ATTR_XOR_PEER_ADDRESS (before_integrity l) /\
    ga_data g = find_attr ATTR_DATA (before_integrity l)) as [-> ->].
  { destruct (find_attr ATTR_MESSAGE_INTEGRITY l); [destruct (_ =? _); [|done]|]; injection E as <-; done. }
  split; intros v; by apply find_attr_bytes.
Qed.

(** Where what a datagram carries for a peer lies in it. *)
Lemma parse_carries d i :
  bytes_ok d -> zlen d < 2 ^ 63 -> turn_parse d = Ok i ->
  match i with
  | TurnResponse _ => True
  | TurnIndication peer data => sock_ok peer /\ bytes_ok data
  | TurnChannel _ data => bytes_ok data
  end.
Proof.
  intros Hb Hz. unfold turn_parse. destruct (head d) as [byte|]; [|done]. cbv zeta. destruct (_ =? 0); [|destruct (_ =? 1); [|done]].
  - intros E. destruct (parse_message_inv d i Hb Hz E) as (kind & tid & l & g & Ed & Ht & _ & _ & _ & Hg & Hi).
    rewrite Ed in Hb. apply Forall_app in Hb as [_ Hb]. destruct (gathered_bytes l g Hb Hg) as [Hp Hd].
    unfold interpret in Hi. destruct (_ && _); [|destruct (_ || _); [|done]].
    + destruct (ga_peer g) as [v|]; [|done]. cbn in Hi. destruct (decode_mapped v tid) as [a|] eqn:Em; [|done]. cbn in Hi.
      destruct (ga_data g) as [w|]; [|done]. injection Hi as <-.
      split; [exact (decode_mapped_ok v tid a (Hp v eq_refl) Ht Em)|exact (Hd _ eq_refl)].
    + destruct (turn_method _) as [m|]; [|done]. cbn in Hi. destruct (if Z.land kind CLASS_MASK =? CLASS_ERROR then _ else _) as [er|]; [|done]. by injection Hi as <-.
  - unfold parse_channel. destruct (stun_be16 d 0) as [number|]; [|done]. cbn. destruct (stun_be16 d 2) as [len|]; [|done]. cbn.
    destruct (get_range _ _ _) as [data|] eqn:Eg; [|done]. cbn. destruct (_ <? _); [done|]. intros [= <-].
    by eapply get_range_bytes.
Qed.

(** What a relay hands up is a datagram of bytes from an address. *)
Lemma unwrap_typed user pw seed tr r d local now r' peer data :
  relay_inv user pw seed tr r -> bytes_ok d -> zlen d < 2 ^ 63 ->
  Relay_unwrap r d local now = (r', Ok (Some (peer, data))) -> sock_ok peer /\ bytes_ok data.
Proof.
  intros I Hb Hz. unfold Relay_unwrap. cbv zeta. set (r0 := match rl_local r with None => _ | Some _ => _ end).
  assert (rl_channels r0 = rl_channels r) as Ec by (unfold r0; by destruct (rl_local r)).
  destruct (turn_parse d) as [i|] eqn:E; [|done]. pose proof (parse_carries d i Hb Hz E) as Hi.
  destruct i as [rsp|p1 d1|number d1]; [done|..].
  - destruct (negb _); [done|]. by intros [= _ <- <-].
  - destruct (Relay_channel_peer r0 number) as [p1|] eqn:Ep; [|done]. destruct (negb _); [done|]. intros [= _ <- <-].
    split; [|done]. revert Ep. unfold Relay_channel_peer. rewrite Ec. destruct (_ <? _); [done|].
    destruct (get_at _ _) as [[lease|]|] eqn:Eg; cbn; try done. intros [= <-].
    apply (ri_channels _ _ _ _ _ I lease). by eapply get_at_flatten.
Qed.
End relay.

(** ** The endpoint *)

(** A path announced is the path chosen. *)
Lemma input_path `{D : Digests} c d from local c' p :
  Conn_process_input c d from local = (c', Ok (PathEstablished p)) -> Conn_path c' = Some p.
Proof.
  assert (forall c1 c2 o d0, Conn_establish c1 = (c2, o) -> d0 <> PathEstablished p ->
    default d0 o = PathEstablished p -> Conn_path c2 = Some p) as He.
  { intros c1 c2 o d0. unfold Conn_establish. destruct (cn_answered c1) as [[a l]|]; [destruct (_ || _)|]; intros [= <- <-];
      cbn; congruence. }
  unfold Conn_process_input. destruct (StunMessage_parse d) as [m|]; [|done]. destruct (sm_method m).
  - unfold Conn_on_request, Conn_queue_response. destruct (negb _); [done|]. destruct (Conn_add_candidate _ _ _) as [c1 ?].
    destruct (fill_first _ _); [|done].
    destruct (Conn_establish _) as [c2 o] eqn:E. intros [<- Ho]%pair_equal_spec. apply (He _ _ _ CheckAnswered E); congruence.
  - unfold Conn_on_success. destruct (existsb _ _); [by destruct (StunMessage_mapped_address m)|].
    do 2 (destruct (negb _); [done|]). destruct (_ || _); [done|].
    destruct (Conn_establish _) as [c2 o] eqn:E. intros [<- Ho]%pair_equal_spec. apply (He _ _ _ (Reachable (canonical from)) E); congruence.
Qed.

Section endpoint.
  Context {M : Type} {MM : Media M} {ok : M -> Prop} {ML : MediaLaws M MM ok} {D : Digests} {L : DigestLaws D}.
  Context (server : SocketAddr) (user pw seed : list Z) (start : f64) (carrier : Carrier).
  Implicit Types e : Endpoint M.

Local Abbreviation r0 := (relay_start server user pw seed start carrier).

(** A relay attempt in good order. *)
Record relayed_typed (e : Endpoint M) (r : Relay) : Prop := {
  rt_relay : ep_relay e = Some r;
  rt_reached : relay_reached r0 r;
  rt_conn : conn_typed (ep_conn e);
  rt_session : ok (ep_session e);
}.

(** One call on a relayed endpoint, or on the engine, the relay and the media half
    it lends its driver. *)
Inductive relayed_step e : Endpoint M -> Prop :=
  | rp_candidate addr kind : sock_ok addr -> relayed_step e (Endpoint_add_candidate e addr kind).1
  | rp_server addr : sock_ok addr -> relayed_step e (e <| ep_conn := (Conn_add_server (ep_conn e) addr).1 |>)
  | rp_peer_ready : relayed_step e (e <| ep_conn ::= Conn_set_peer_ready |>)
  | rp_release : relayed_step e (e <| ep_relay ::= fmap Relay_release |>)
  | rp_session s : ok s -> relayed_step e (e <| ep_session := s |>)
  | rp_woke now : relayed_step e (Endpoint_woke e now)
  | rp_poll now : relayed_step e (Endpoint_poll e now)
  | rp_input d from local now scratch :
      bytes_ok d -> zlen d < 2 ^ 63 -> relayed_step e (Endpoint_process_input e d from local now scratch).1.1
  | rp_output now out : relayed_step e (Endpoint_get_output e now out).1.1.

Inductive relayed_run e : Endpoint M -> Prop :=
  | rp_start : relayed_run e e
  | rp_step e1 e2 : relayed_run e e1 -> relayed_step e1 e2 -> relayed_run e e2.

Lemma typed_relay e r ev r' :
  relayed_typed e r -> relay_step r ev r' -> relayed_typed (e <| ep_relay := Some r' |>) r'.
Proof. intros [E1 E2 E3 E4] Hs. split; try done. by eapply reached_step. Qed.

Lemma typed_conn e r c : relayed_typed e r -> conn_typed c -> relayed_typed (e <| ep_conn := c |>) r.
Proof. intros [] Hc. by split. Qed.

Lemma typed_session e r s : relayed_typed e r -> ok s -> relayed_typed (e <| ep_session := s |>) r.
Proof. intros [] Hs. by split. Qed.

Lemma typed_follow e r peer :
  relayed_typed e r -> sock_ok peer -> exists r', relayed_typed (follow_path peer e) r'.
Proof.
  intros T Hp. exists (Relay_follow r peer). pose proof (rt_relay e r T) as Er. unfold follow_path.
  assert (e <| ep_relay ::= fmap (fun relay => Relay_follow relay peer) |> = e <| ep_relay := Some (Relay_follow r peer) |>) as ->
    by (unfold set_field; cbn; by rewrite Er).
  eapply typed_relay; [done|]. by apply rs_follow.
Qed.

Lemma deliver_typed e r d from local now scratch :
  relayed_typed e r -> bytes_ok d -> sock_ok from ->
  exists r', relayed_typed (Endpoint_deliver e d from local now scratch).1.1 r'.
Proof.
  intros T Hb Hf. unfold Endpoint_deliver. destruct (demux_classify d).
  - pose proof (conn_input_typed (ep_conn e) d from local (rt_conn e r T) Hb Hf) as Hc.
    destruct (Conn_process_input _ _ _ _) as [c [inbound|err]] eqn:E; cbn [fst] in *; [|exists r; by apply typed_conn].
    pose proof (typed_conn e r c T Hc) as T1. destruct inbound as [| | |p|]; cbn [fst]; try (by exists r).
    apply (typed_follow _ r); [apply typed_session; [done|apply media_path_ready_ok, T]|].
    apply (ct_path c Hc), (input_path _ _ _ _ _ _ E).
  - pose proof (media_input_ok (ep_session e) d now scratch (rt_session e r T) Hb) as Hm.
    destruct (media_process_input _ _ _ _) as [[s sc] [inbound|err]]; exists r; by apply typed_session.
Qed.

Lemma checks_typed fuel c r now out c' r' out' ended :
  conn_typed c -> relay_reached r0 r -> relayed_checks fuel c r now out = (c', r', out', ended) ->
  conn_typed c' /\ relay_reached r0 r'.
Proof.
  revert c out. induction fuel as [|fuel IH]; intros c out Tc Tr E; cbn [relayed_checks] in E; [by simplify_eq|].
  destruct (get_range _ _ _) as [body|]; [|by simplify_eq]. pose proof (conn_output_typed c now body Tc) as Tc1.
  destruct (Conn_get_output c now body) as [[c1 body1] [[eg|err]|]]; cbn [fst] in Tc1; [|by simplify_eq..].
  destruct (_ || _); [by eapply IH|]. pose proof (reached_step r0 r _ _ Tr (rs_indication r)) as Tr1.
  destruct (Relay_indication_id r) as [r1 tid]. destruct (wrap_indication _ _ _ _) as [o res].
  apply pair_equal_spec in E as [E _]. apply pair_equal_spec in E as [E _]. by apply pair_equal_spec in E as [<- <-].
Qed.

Lemma relayed_media_typed e r now out :
  relayed_typed e r -> exists r', relayed_typed (Endpoint_relayed_media e r now out).1.1 r'.
Proof.
  intros T. unfold Endpoint_relayed_media. destruct (Conn_path (ep_conn e)) as [path|]; [|by exists r]. cbv zeta.
  destruct (get_range _ _ _) as [body|]; [|by exists r].
  pose proof (media_output_ok (ep_session e) now body (rt_session e r T)) as Hm.
  destruct (media_get_output _ _ _) as [[s b] [[len|err]|]]; cbn [fst] in Hm; [|exists r; by apply typed_session..].
  pose proof (typed_session e r s T Hm) as T1.
  assert (exists r', relayed_typed (e <| ep_session := s |> <| ep_relay := Some r |>) r') as Hsame.
  { exists r. destruct T1. by split. }
  destruct (Relay_channel_for _ _ _); [destruct (rl_carrier r)|].
  - by destruct (wrap_channel _ _ _).
  - by destruct (wrap_channel_padded _ _ _).
  - pose proof (typed_relay _ _ _ _ T1 (rs_indication r)) as T2. destruct (Relay_indication_id r) as [r1 tid].
    destruct (wrap_indication _ _ _ _). by exists r1.
Qed.

Lemma relayed_output_typed e r now out :
  relayed_typed e r -> exists r', relayed_typed (Endpoint_get_output e now out).1.1 r'.
Proof.
  intros T. unfold Endpoint_get_output. rewrite (rt_relay e r T). unfold Endpoint_relayed_output, Relay_get_output.
  destruct (Relay_next_ask r now) as [r1 [[ask tid]|]] eqn:Ea.
  { pose proof (typed_relay e r _ r1 T (rs_output r now r1 ask tid Ea)) as T1.
    destruct (Relay_encode r1 ask tid out) as [o res]. by exists r1. }
  pose proof (typed_relay e r _ r1 T (rs_quiet r now r1 Ea)) as T1. destruct (Relay_offered r1); [|by exists r1].
  destruct (relayed_checks _ _ _ _ _) as [[[c2 r2] o2] ended] eqn:El.
  destruct (checks_typed _ _ _ _ _ _ _ _ _ (rt_conn _ _ T1) (rt_reached _ _ T1) El) as [Tc Tr].
  assert (relayed_typed (e <| ep_relay := Some r1 |> <| ep_conn := c2 |> <| ep_relay := Some r2 |>) r2) as T2
    by (destruct T1; by split).
  destruct ended; [by exists r2| |by exists r2]. destruct (Conn_owes_answer c2); [by exists r2|]. by apply relayed_media_typed.
Qed.

Lemma relayed_input_typed e r d from local now scratch :
  relayed_typed e r -> bytes_ok d -> zlen d < 2 ^ 63 ->
  exists r', relayed_typed (Endpoint_process_input e d from local now scratch).1.1 r'.
Proof.
  intros T Hb Hz. unfold Endpoint_process_input. rewrite (rt_relay e r T). destruct (negb _); [by exists r|].
  pose proof (typed_relay e r _ _ T (rs_input r d local now Hb Hz)) as T1.
  destruct (Relay_unwrap r d local now) as [r1 res] eqn:Eu. cbn [fst] in T1.
  destruct res as [[[peer data]|]|]; [|by exists r1..].
  destruct (rr_run _ _ (rt_reached _ _ T)) as [tr Hrun]. apply relay_run_inv in Hrun.
  destruct (unwrap_typed _ _ _ _ _ _ _ _ _ _ _ Hrun Hb Hz Eu) as [Hp Hd].
  destruct (deliver_typed _ r1 data peer None now scratch T1 Hd Hp) as [r2 T2].
  destruct (Endpoint_deliver _ _ _ _ _ _) as [[e2 sc] [inbound|err]]; cbn [fst] in T2; [|by exists r2].
  destruct inbound, (Conn_path (ep_conn e2)); try (by exists r2). by eapply typed_follow.
Qed.

Lemma relayed_step_typed e r e' : relayed_typed e r -> relayed_step e e' -> exists r', relayed_typed e' r'.
Proof.
  intros T [addr kind Ha|addr Ha| | |s Hs|now|now|d from local now scratch Hb Hz|now out].
  - unfold Endpoint_add_candidate. rewrite (rt_relay e r T). destruct (negb _) eqn:Er; [by exists r|].
    assert (ip_ok (sock_ip (canonical addr))) as Hip by (by apply sock_ip_ok, canonical_ok).
    pose proof (typed_relay e r _ _ T (rs_permit r _ Hip)) as T1.
    pose proof (add_candidate_typed (ep_conn e) addr kind (rt_conn _ _ T) Ha) as Hc. cbv zeta.
    change (ep_conn (e <| ep_relay := Some (Relay_permit r (sock_ip (canonical addr))) |>)) with (ep_conn e).
    destruct (Conn_add_candidate _ _ _) as [c res]. eexists. by apply typed_conn.
  - exists r. apply typed_conn; [done|]. by apply add_server_typed; [apply T|].
  - exists r. destruct T as [E1 E2 [] E4]. by split.
  - exists (Relay_release r).
    assert (e <| ep_relay ::= fmap Relay_release |> = e <| ep_relay := Some (Relay_release r) |>) as ->
      by (unfold set_field; cbn; by rewrite (rt_relay e r T)).
    eapply typed_relay; [done|]. apply rs_release.
  - exists r. by apply typed_session.
  - exists r. apply typed_session; [done|]. apply media_woke_ok, T.
  - exists (Relay_poll r now). unfold Endpoint_poll.
    assert (e <| ep_relay ::= fmap (fun relay => Relay_poll relay now) |> = e <| ep_relay := Some (Relay_poll r now) |>) as ->
      by (unfold set_field; cbn; by rewrite (rt_relay e r T)).
    apply typed_session; [|apply media_poll_ok, T]. apply typed_conn; [|by apply poll_typed, T].
    eapply typed_relay; [done|]. apply rs_poll.
  - by eapply relayed_input_typed.
  - by eapply relayed_output_typed.
Qed.
End endpoint.

(** C14: a relay attempt stays in good order however it is driven.  Whatever
    datagrams of bytes arrive from wherever and in whatever order its driver calls, the
    relay inside the endpoint has been driven only as a run of its own allows, so
    everything shown of such runs holds of it; every address that either engine
    holds, checks, answers or follows is a well-formed one and every identifier owed
    an answer is twelve bytes; the tables keep their sizes, so the loop over the checks
    comes to an end; and the media half stays in good order. *)
Theorem relayed_endpoint_typed (M : Type) (MM : Media M) (ok : M -> Prop) (ML : MediaLaws M MM ok) (D : Digests)
    (L : DigestLaws D) (server : SocketAddr) (user pw seed : list Z) (start : f64) (carrier : Carrier)
    (cr : Credentials) (cseed : list Z) (s : M) (e : Endpoint M) :
  ok s ->
  relayed_run (ok := ok) (Endpoint_relayed (Conn_new cr cseed start) s (relay_start server user pw seed start carrier)) e ->
  exists r tr, ep_relay e = Some r /\ relay_run (relay_start server user pw seed start carrier) tr r /\
    (forall p, rl_destination r = Some p -> sock_ok p) /\
    (forall lease, lease ∈ flatten (rl_channels r) -> sock_ok (ls_target lease)) /\
    (forall lease, lease ∈ flatten (rl_permissions r) -> ip_ok (ls_target lease)) /\
    conn_typed (ep_conn e) /\ ok (ep_session e) /\
    forall relay now out, (relayed_checks CHECKS_FUEL (ep_conn e) relay now out).2 <> Loop_fuel.
Proof.
  intros Hs Hrun.
  assert (exists r, relayed_typed (ok := ok) server user pw seed start carrier e r) as [r [E1 [[tr R] Hd] Tc Tm]].
  { induction Hrun as [|e1 e2 _ [r T] Hst]; [|by eapply relayed_step_typed].
    exists (relay_start server user pw seed start carrier). split; [done| |apply conn_new_typed|done].
    split; [exists []; constructor|done]. }
  exists r, tr. pose proof (relay_run_inv _ _ _ _ _ _ _ _ R) as I. split_and!; try done.
  - intros lease Hl. exact (li_target _ _ _ _ _ (ri_channels _ _ _ _ _ I lease Hl)).
  - intros lease Hl. exact (li_target _ _ _ _ _ (ri_permissions _ _ _ _ _ I lease Hl)).
  - intros relay now out. apply relayed_checks_end, to_say_bound, Tc.
Qed.

(** A relay attempt told of a peer, asked for output. *)
Definition sample_relayed_start : Endpoint Session :=
  Endpoint_relayed (Conn_new sample_credentials (repeat 0 16) f64_zero) session3
    (relay_start sample_peer [117] [112] (repeat 0 16) f64_zero Carrier_Datagram).

Lemma relayed_endpoint_typed_witness :
  exists r tr, ep_relay (Endpoint_get_output (MM := Session_media) (D := sample_digests)
      (Endpoint_add_candidate sample_relayed_start sample_peer Kind_Direct).1 f64_zero (repeat 0 300)).1.1 = Some r /\
    relay_run (D := sample_digests) (relay_start sample_peer [117] [112] (repeat 0 16) f64_zero Carrier_Datagram) tr r.
Proof.
  assert (sock_ok sample_peer) as Hp by (vm_compute; repeat constructor; discriminate).
  pose proof (relayed_endpoint_typed Session Session_media session_ok Session_media_laws sample_digests sample_laws
    sample_peer [117] [112] (repeat 0 16) f64_zero Carrier_Datagram sample_credentials (repeat 0 16) session3
    (Endpoint_get_output (MM := Session_media) (D := sample_digests)
      (Endpoint_add_candidate sample_relayed_start sample_peer Kind_Direct).1 f64_zero (repeat 0 300)).1.1 session3_ok
    (rp_step _ _ _ (rp_step _ _ _ (rp_start _) (rp_candidate _ sample_peer Kind_Direct Hp)) (rp_output _ f64_zero (repeat 0 300))))
    as (r & tr & E & R & _).
  exists r, tr. split; [exact E|exact R].
Defined.
