(* ===== verification/EndpointRelay.v ===== *)
(** A relay attempt: everything it sends goes to the relay, framed so that what it
    carries is recovered whole, and nothing goes toward a peer too soon. *)

From Stdlib Require Import SpecFloat.
From S2P Require Import Prelude CoreError Float64 Packet Effect Net Slots Stun StunFacts StunSpec Conn ConnSpec.
From S2P Require Import Handshake Turn TurnSpec Relay RelaySpec Envelope Session SessionFacts SessionSpec Endpoint.
From S2P Require Import EndpointSpec EndpointTyped.

(** A datagram at the head of a buffer, with what was behind it. *)
Definition laid (out : list Z) (d : list Z) (out' : list Z) : Prop :=
  out' = d ++ drop (length d) out /\ zlen d <= MAX_BUILT /\ demux_classify d = Check.

Lemma Ok_inj {A} (a b : A) : Ok a = Ok b -> a = b.
Proof. by intros [=]. Qed.

Section output.
  Context {D : Digests} {L : DigestLaws D}.

Lemma encode_reflexive_eq tid out :
  zlen tid = 12 -> STUN_HEADER_LEN <= zlen out -> zlen out < 2 ^ 63 ->
  encode_reflexive_request tid out = (stun_head TYPE_BINDING_REQUEST 0 tid ++ drop 20 out, Ok 20).
Proof.
  intros Ht Hl Hz. unfold encode_reflexive_request, on_buffer.
  rewrite (eff_step _ _ _ _ _ (writer_header_eq TYPE_BINDING_REQUEST tid out Ht Hl ltac:(lia))).
  rewrite ask_step. cbv beta. unfold on_wr_buf, on_part, put_be16, mbind, eff_bind, at_pre. cbn [wr_buf wr_at].
  rewrite zlen_stun_head by done. rewrite head_split, <- !app_assoc. rewrite write_at_mid; [|done|by rewrite !length_to_be].
  done.
Qed.

Lemma reflexive_request_laid tid out :
  zlen tid = 12 -> MAX_BUILT <= zlen out ->
  laid out (stun_head TYPE_BINDING_REQUEST 0 tid) (stun_head TYPE_BINDING_REQUEST 0 tid ++ drop 20 out).
Proof.
  intros Ht Ho. unfold laid. rewrite stun_head_len_bytes, zlen_stun_head by done. split; [done|]. split; [done|].
  apply demux_check_iff. unfold stun_head. eexists _, _. split; [reflexivity|]. split; done || lia.
Qed.

Lemma sealed_laid pw m tid body out :
  zlen tid = 12 -> 52 + zlen body <= MAX_MESSAGE -> MAX_BUILT <= zlen out ->
  laid out (stun_sealed pw (method_kind m) tid body) (stun_sealed pw (method_kind m) tid body ++ drop (52 + length body) out).
Proof.
  intros Ht Hb Ho. pose proof (zlen_stun_sealed pw (method_kind m) tid body Ht) as E. split; [|split].
  - do 2 f_equal. unfold zlen in E. lia.
  - rewrite E. exact Hb.
  - apply sealed_is_check.
Qed.

Lemma request_laid c to ttl now out c' out' e :
  MAX_BUILT <= zlen out < 2 ^ 63 -> Conn_emit_check c to ttl now out = (c', out', Ok e) ->
  exists d, laid out d out' /\ zlen d = eg_len e.
Proof.
  intros [Hl Hz]. unfold Conn_emit_check, Conn_next_transaction_id. cbv zeta iota beta.
  set (tid := derive_transaction_id _ _). set (c1 := c <| cn_counter := _ |>).
  destruct (encode_binding_request _ _ _ _ _ _) as [o [len|]] eqn:E; intros H; apply pair_equal_spec in H as [H1 H2]; [|done].
  apply pair_equal_spec in H1 as [_ <-]. apply Ok_inj in H2 as <-. cbn [eg_len].
  assert (zlen (cr_local_ufrag (cn_credentials c1)) <= 32 /\ zlen (cr_remote_ufrag (cn_credentials c1)) <= 32) as [Hu Hr].
  { unfold encode_binding_request, MAX_UFRAG in E. destruct (_ || _) eqn:Eo; [done|]. apply orb_false_iff in Eo as [?%Z.ltb_ge ?%Z.ltb_ge]. done. }
  pose proof (zlen_tiebreaker c1) as Htb. assert (zlen tid = 12) as Ht by apply derive_tid_ok.
  rewrite encode_request_eq in E by done. apply pair_equal_spec in E as [<- E]. apply Ok_inj in E as <-.
  pose proof (zlen_request_attrs _ _ _ Hu Hr Htb) as Hb.
  eexists. split; [apply (sealed_laid _ BindingRequest); [done|unfold MAX_MESSAGE; lia|done]|].
  by rewrite zlen_stun_sealed.
Qed.

(** Whatever an attempt sends: a check-shaped datagram at the head of the buffer,
    toward an address of its tables. *)
Lemma conn_output_laid c now out c' out' e :
  conn_typed c -> MAX_BUILT <= zlen out < 2 ^ 63 -> Conn_get_output c now out = (c', out', Some (Ok e)) ->
  cn_state c' = cn_state c /\ sock_ok (eg_to e) /\ exists d, laid out d out' /\ zlen d = eg_len e.
Proof.
  intros [_ T1 T2 T3 _ _] Ho E. pose proof (get_output_case c now out) as H. rewrite E in H. destruct H as [H _].
  inversion H as [| |to tid local slots c1 o1 r Ht Ee|x c1 o1 r Hs Hb Hx Hk Hn Ee|i s c1 o1 r Hs Hx Ha Hr Hn Ee
    |i x c1 o1 r Hs Hx Ha Hr Hn Ee]; subst.
  - apply take_first_flatten in Ht as [Ht _]. destruct (T1 to tid local) as [Hto [Htid _]]; [rewrite Ht; apply elem_of_cons; by left|].
    revert Ee. unfold Conn_emit_response. rewrite encode_response_eq by (done || apply Ho).
    intros Ee. apply pair_equal_spec in Ee as [Ee E2]. apply pair_equal_spec in Ee as [<- <-]. apply Ok_inj in E2 as <-.
    split; [done|split; [done|]]. pose proof (zlen_response_attrs to tid Hto Htid) as Hb. eexists.
    split; [apply (sealed_laid _ BindingSuccess); [done|unfold MAX_MESSAGE; lia|apply Ho]|]. by rewrite zlen_stun_sealed.
  - pose proof (request_laid _ _ _ _ _ _ _ _ Ho Ee) as Hl. pose proof (emit_check_fields _ _ _ _ _ _ _ _ Ee) as (E1 & _ & _ & _ & _ & _ & E7).
    split; [done|split; [rewrite E1; by apply T3|done]].
  - revert Ee. unfold Conn_emit_reflexive, Conn_next_transaction_id. cbv zeta iota beta. unfold MAX_BUILT, MAX_MESSAGE in Ho.
    rewrite encode_reflexive_eq by (apply derive_tid_ok || unfold STUN_HEADER_LEN; lia). intros Ee.
    apply pair_equal_spec in Ee as [Ee E2]. apply pair_equal_spec in Ee as [<- <-]. apply Ok_inj in E2 as <-.
    split; [done|split; [apply T2; by eapply get_at_flatten|]].
    eexists. split; [apply reflexive_request_laid; [apply derive_tid_ok|apply Ho]|]. by rewrite zlen_stun_head by apply derive_tid_ok.
  - pose proof (request_laid _ _ _ _ _ _ _ _ Ho Ee) as Hl. pose proof (emit_check_fields _ _ _ _ _ _ _ _ Ee) as (E1 & _ & _ & _ & _ & _ & E7).
    split; [done|split; [rewrite E1; apply T3; by eapply get_at_flatten|done]].
Qed.

(** ** The loop over the checks *)

(** What the punch had to say that is not relayed is said and dropped: probes, and
    datagrams toward addresses the relay may not be asked to reach. *)
Inductive dropped (relayable : SocketAddr -> bool) (now : f64) : Conn -> Conn -> Prop :=
| dropped_none c : dropped relayable now c c
| dropped_one c body c1 body1 eg c2 :
    zlen body = MAX_BUILT -> Conn_get_output c now body = (c1, body1, Some (Ok eg)) ->
    eg_ttl eg = Ttl_Probe \/ relayable (eg_to eg) = false -> dropped relayable now c1 c2 -> dropped relayable now c c2.

(** The first datagram of the punch that may be relayed, as the relay is asked to pass
    it on: the bytes the punch wrote, all of them, toward the address it wrote them for. *)
Definition relayed_check (relayable : SocketAddr -> bool) (now : f64) (c c' : Conn) (d : list Z) : Prop :=
  exists c1 body body1 eg tid, dropped relayable now c c1 /\ zlen body = MAX_BUILT /\ Conn_get_output c1 now body = (c', body1, Some (Ok eg)) /\
    eg_ttl eg <> Ttl_Probe /\ relayable (eg_to eg) = true /\
    let check := take (Z.to_nat (eg_len eg)) body1 in
    zlen check = eg_len eg /\ demux_classify check = Check /\ d = plain SEND_KIND tid [peer_attr (eg_to eg) tid; zattr ATTR_DATA check].

(** The punch has nothing more to say that may be relayed. *)
Definition checks_done (relayable : SocketAddr -> bool) (now : f64) (c c' : Conn) : Prop :=
  dropped relayable now c c' /\ exists body, zlen body = MAX_BUILT /\ Conn_get_output c' now body = (c', body, None).

Lemma relayable_header relay peer : Relay_relayable relay peer = true -> indication_header_len peer = INDICATION_HEADER_V4.
Proof.
  unfold Relay_relayable, reachable, indication_header_len. intros [H _]%andb_true_iff. by destruct (canonical peer).
Qed.

Lemma indication_id_eq relay : exists tid, zlen tid = 12 /\ (Relay_indication_id relay).2 = tid /\
  forall n, to_relay (Relay_indication_id relay).1 n = to_relay relay n.
Proof. eexists. split; [|split; [reflexivity|done]]. apply derive_tid_ok. Qed.

(** A buffer with room for a check behind an indication's header. *)
Lemma check_room (out : list Z) :
  INDICATION_HEADER_V4 + MAX_BUILT + 3 <= zlen out ->
  exists h body rest : list Z, out = h ++ body ++ rest /\ zlen h = INDICATION_HEADER_V4 /\ zlen body = MAX_BUILT /\ 3 <= zlen rest.
Proof.
  unfold INDICATION_HEADER_V4, MAX_BUILT, MAX_MESSAGE, STUN_HEADER_LEN. intros H.
  destruct (split_at out 36 ltac:(lia)) as (h & t & -> & Hh). rewrite zlen_app in H.
  destruct (split_at t 256 ltac:(lia)) as (body & rest & -> & Hb). rewrite zlen_app in H.
  exists h, body, rest. split_and!; [done|exact Hh|exact Hb|lia].
Qed.

Lemma put_body (h body rest body' : list Z) a :
  a = zlen h -> zlen body' = zlen body -> put_range (h ++ body ++ rest) a body' = h ++ body' ++ rest.
Proof. intros -> Hl. rewrite put_range_app by done. by rewrite drop_app_length' by (unfold zlen in Hl; lia). Qed.

Lemma laid_zlen out d out' : laid out d out' -> zlen d <= zlen out -> zlen out' = zlen out.
Proof. intros (-> & _) H. unfold zlen in *. rewrite length_app, length_drop. lia. Qed.

Lemma relayed_checks_confined fuel c relay now out c' relay' out' ended :
  conn_typed c -> INDICATION_HEADER_V4 + MAX_BUILT + 3 <= zlen out < 2 ^ 62 ->
  relayed_checks fuel c relay now out = (c', relay', out', ended) ->
  match ended with
  | Loop_return (Ok eg) => eg = to_relay relay (eg_len eg) /\ relayed_check (Relay_relayable relay) now c c' (take (Z.to_nat (eg_len eg)) out')
  | Loop_break => relay' = relay /\ cn_state c' = cn_state c /\ zlen out' = zlen out /\ checks_done (Relay_relayable relay) now c c'
  | _ => True
  end.
Proof.
  revert c out. induction fuel as [|fuel IH]; intros c out T Ho E; cbn [relayed_checks] in E.
  { apply pair_equal_spec in E as [_ <-]. done. }
  destruct (check_room out ltac:(lia)) as (h & body & rest & -> & Hh & Hb & Hr).
  pose proof (zlen_nonneg rest). rewrite !zlen_app in Ho.
  rewrite get_range_mid in E by (rewrite ?Hh, ?Hb; done).
  destruct (Conn_get_output c now body) as [[c1 body1] [[eg|err]|]] eqn:Eo.
  - assert (MAX_BUILT <= zlen body < 2 ^ 63) as Hbb by (unfold MAX_BUILT, MAX_MESSAGE, INDICATION_HEADER_V4 in *; lia).
    destruct (conn_output_laid _ _ _ _ _ _ T Hbb Eo) as (Es & Hto & d & Hd & Hlen).
    pose proof (conn_output_typed c now body T) as T1. rewrite Eo in T1. cbn [fst] in T1.
    pose proof Hd as (Hbd & Hmax & Hcls).
    assert (zlen body1 = zlen body) as Hb1 by (apply (laid_zlen _ _ _ Hd); lia).
    rewrite put_body in E by done. destruct (_ || _) eqn:Eg.
    { specialize (IH c1 (h ++ body1 ++ rest) T1). rewrite !zlen_app, Hb1 in IH. specialize (IH Ho E).
      assert (eg_ttl eg = Ttl_Probe \/ Relay_relayable relay (eg_to eg) = false) as Hskip
        by (apply orb_true_iff in Eg as [?%bool_decide_eq_true|?%negb_true_iff]; auto).
      destruct ended as [[?|?]| |]; try done.
      - destruct IH as (? & c2 & b2 & b3 & eg2 & tid & Hdr & Hrest). split; [done|]. exists c2, b2, b3, eg2, tid. split; [by eapply dropped_one|done].
      - destruct IH as (? & -> & -> & Hdr & Hb2). split_and!; [done|by rewrite Es|by rewrite !zlen_app|]. split; [by eapply dropped_one|done]. }
    apply orb_false_iff in Eg as [Hprobe%bool_decide_eq_false Hrel%negb_false_iff].
    destruct (indication_id_eq relay) as (tid & Ht & Et & Esame). destruct (Relay_indication_id relay) as [relay1 tid1].
    cbn [fst snd] in Et, Esame. subst tid1. rewrite Hbd in E. rewrite <- Hlen in E. rewrite <- (app_assoc d) in E.
    pose proof (pad_len_bounds (zlen d)). pose proof (zlen_nonneg (drop (length d) body)).
    rewrite wrap_indication_eq in E.
    2: done. 2: done. 2: by rewrite (relayable_header relay). 2: unfold MAX_BUILT, MAX_MESSAGE in *; lia.
    2: rewrite zlen_app; lia.
    2: rewrite Hbd, zlen_app in Hb1; pose proof (zlen_nonneg d); rewrite zlen_app; unfold INDICATION_HEADER_V4, STUN_HEADER_LEN in *; lia.
    set (w := plain SEND_KIND tid _) in E. cbn [result_map] in E. apply pair_equal_spec in E as [E <-].
    apply pair_equal_spec in E as [E <-]. apply pair_equal_spec in E as [<- _]. rewrite Esame. cbn [to_relay eg_len]. split; [done|].
    exists c, body, body1, eg, tid. rewrite take_app_length' by (unfold zlen; lia).
    assert (take (Z.to_nat (eg_len eg)) body1 = d) as Htk by (rewrite Hbd; apply take_app_length'; unfold zlen in Hlen; lia).
    cbv zeta. rewrite Htk. split_and!; try done. constructor.
  - apply pair_equal_spec in E as [_ <-]. done.
  - apply pair_equal_spec in E as [E <-]. apply pair_equal_spec in E as [E <-]. apply pair_equal_spec in E as [<- <-].
    pose proof (get_output_case c now body) as Hc. rewrite Eo in Hc. destruct Hc as [Hc _].
    assert (c1 = c /\ body1 = body) as [-> ->] by (inversion Hc; done).
    split_and!; [done|done|by rewrite put_body|]. split; [constructor|]. by exists body.
Qed.
End output.

(** ** What a relay attempt sends *)

Lemma next_ask_server `{D : Digests} r now r1 o : Relay_next_ask r now = (r1, o) -> to_relay r1 = to_relay r.
Proof.
  unfold Relay_next_ask. intros E. unfold to_relay. repeat (case_match; simplify_eq/=; try done).
Qed.

(** A relay with nothing of its own to ask stands as it did, toward its peers. *)
Lemma next_ask_quiet `{D : Digests} r now r1 :
  Relay_next_ask r now = (r1, None) ->
  to_relay r1 = to_relay r /\ rl_carrier r1 = rl_carrier r /\ rl_destination r1 = rl_destination r /\
  rl_permissions r1 = rl_permissions r /\ rl_channels r1 = rl_channels r.
Proof.
  unfold Relay_next_ask. destruct (rl_releasing r).
  { destruct (rl_relayed _); [by destruct (Ids_next _)|]. intros E. apply pair_equal_spec in E as [<- _]. done. }
  destruct (negb _); [intros E; apply pair_equal_spec in E as [<- _]; done|]. cbv zeta. destruct (rl_relayed r).
  2: { destruct (step _ _ _ _ _ _ _) as [[pending ids] sent]. intros E. apply pair_equal_spec in E as [<- _]. done. }
  destruct (step _ _ _ _ _ _ _) as [[pending ids] [tid|]]; [done|]. cbn.
  destruct (step_leases _ _ (rl_permissions r) _ _ _) as [[[[[i t] u] l] ids1]|]; [done|].
  destruct (step_leases _ _ (rl_channels r) _ _ _) as [[[[[i t] u] l] ids1]|] eqn:El.
  - apply step_leases_spec in El as (? & ? & ? & ? & _ & _ & _ & _ & _ & Hn & _). by destruct (channel_number i).
  - intros E. apply pair_equal_spec in E as [<- _]. done.
Qed.

Lemma channel_for_ok r peer now number :
  zlen (rl_channels r) = MAX_CHANNELS -> Relay_channel_for r peer now = Some number -> FIRST_CHANNEL <= number <= LAST_CHANNEL.
Proof.
  intros Hl. unfold Relay_channel_for. destruct (position _ _) as [[j lease]|] eqn:E; [|done]. cbn. apply channel_number_ok.
  apply position_elem in E as (Hj & E & _). unfold get_at in E. apply lookup_lt_Some in E. unfold zlen in Hl. lia.
Qed.

(** A record as the relay is asked to pass it on: on the channel bound for the
    peer, framed as the carrier wants it, or as an indication naming the peer. *)
Definition relayed_record (relay : Relay) (now : f64) (to : SocketAddr) (record d : list Z) : Prop :=
  match Relay_channel_for relay to now, rl_carrier relay with
  | Some number, Carrier_Datagram => d = channel_wire number record
  | Some number, Carrier_Stream => d = channel_wire number record ++ zeros (pad_len (zlen record))
  | None, _ => exists tid, d = plain SEND_KIND tid [peer_attr to tid; zattr ATTR_DATA record]
  end.

(** A buffer that holds any datagram of the media half behind any header. *)
Definition ROOM : Z := INDICATION_HEADER_V4 + 12 + MAX_DATAGRAM + 3.

Lemma channel_slots `{DL : DigestLaws} server user pw seed start carrier tr r :
  relay_run (relay_start server user pw seed start carrier) tr r -> zlen (rl_channels r) = MAX_CHANNELS.
Proof. intros I%relay_run_inv. unfold zlen. by rewrite (ri_channel_slots _ _ _ _ _ I). Qed.

Section confined.
  Context {M : Type} {MM : Media M} {ok : M -> Prop} {ML : MediaLaws M MM ok} {D : Digests} {L : DigestLaws D}.
  Implicit Types e : Endpoint M.

Lemma framed_record relay now to h record rest n out' :
  sock_ok to -> zlen (rl_channels relay) = MAX_CHANNELS -> zlen record <= MAX_DATAGRAM -> 3 <= zlen rest < 2 ^ 62 ->
  zlen h = match Relay_channel_for relay to now with Some _ => CHANNEL_HEADER_LEN | None => indication_header_len to end ->
  (let '(relay, (out, framed)) :=
     match Relay_channel_for relay to now, rl_carrier relay with
     | Some number, Carrier_Datagram => (relay, wrap_channel number (zlen record) (h ++ record ++ rest))
     | Some number, Carrier_Stream => (relay, wrap_channel_padded number (zlen record) (h ++ record ++ rest))
     | None, _ => let '(relay, tid) := Relay_indication_id relay in (relay, wrap_indication tid to (zlen record) (h ++ record ++ rest))
     end in (out, result_map (to_relay relay) framed)) = (out', Ok n) ->
  n = to_relay relay (eg_len n) /\ relayed_record relay now to record (take (Z.to_nat (eg_len n)) out').
Proof.
  intros Hto Hch Hrec Hrest Hh. pose proof (pad_len_bounds (zlen record)). pose proof (zlen_nonneg record).
  assert (fits 16 (zlen record)) as Hf by (unfold fits, MAX_DATAGRAM in *; lia). unfold relayed_record.
  destruct (Relay_channel_for relay to now) as [number|] eqn:Ec.
  - pose proof (channel_for_ok _ _ _ _ Hch Ec) as Hn. destruct (rl_carrier relay).
    + rewrite wrap_channel_eq by done. rewrite <- zlen_channel_wire with (channel := number). set (w := channel_wire _ _).
      intros E. apply pair_equal_spec in E as [<- E]. apply Ok_inj in E as <-. split; [done|]. cbn [to_relay eg_len].
      by rewrite take_app_length' by (unfold zlen; lia).
    + rewrite wrap_channel_padded_eq by (done || lia). set (w := channel_wire _ _ ++ _).
      intros E. apply pair_equal_spec in E as [<- E]. apply Ok_inj in E as <-. split; [done|]. cbn [to_relay eg_len].
      by rewrite take_app_length' by (unfold zlen; lia).
  - destruct (indication_id_eq relay) as (tid & Ht & Et & Esame). destruct (Relay_indication_id relay) as [relay1 tid1].
    cbn [fst snd] in Et, Esame. subst tid1. unfold MAX_DATAGRAM in *. rewrite wrap_indication_eq by (done || lia).
    set (w := plain _ _ _). intros E. apply pair_equal_spec in E as [<- E]. apply Ok_inj in E as <-. rewrite Esame.
    split; [done|]. cbn [to_relay eg_len]. exists tid. by rewrite take_app_length' by (unfold zlen; lia).
Qed.

(** One record, the bytes the media half wrote and all of them. *)
Definition media_record (now : f64) (m m' : M) (record : list Z) : Prop :=
  exists body body1 len, media_get_output m now body = (m', body1, Some (Ok len)) /\ zlen record = len /\ record = take (Z.to_nat len) body1.

Lemma relayed_media_confined e relay now out e' out' eg :
  ok (ep_session e) -> zlen (rl_channels relay) = MAX_CHANNELS -> ROOM <= zlen out < 2 ^ 62 ->
  (forall p, Conn_path (ep_conn e) = Some p \/ rl_destination relay = Some p -> sock_ok p) ->
  Endpoint_relayed_media e relay now out = (e', out', Some (Ok eg)) ->
  eg = to_relay relay (eg_len eg) /\ ep_conn e' = ep_conn e /\ exists path record, Conn_path (ep_conn e) = Some path /\
    media_record now (ep_session e) (ep_session e') record /\ demux_classify record = Record_ /\ zlen record <= MAX_DATAGRAM /\
    relayed_record relay now (default path (rl_destination relay)) record (take (Z.to_nat (eg_len eg)) out').
Proof.
  intros Hm Hch Ho Hs. unfold Endpoint_relayed_media. destruct (Conn_path (ep_conn e)) as [path|]; [|done]. cbv zeta.
  set (to := default path _). assert (sock_ok to) as Hto by (unfold to; destruct (rl_destination relay); apply Hs; auto).
  set (head := match Relay_channel_for relay to now with Some _ => _ | None => _ end).
  assert (4 <= head <= 48) as Hhead.
  { unfold head, indication_header_len, CHANNEL_HEADER_LEN, INDICATION_HEADER_V4, STUN_HEADER_LEN.
    destruct (Relay_channel_for _ _ _); [lia|]. destruct (canonical to); lia. }
  assert (48 + MAX_DATAGRAM + 3 <= zlen out) as Hroom by apply Ho. unfold MAX_DATAGRAM in Hroom.
  destruct (split_at out head ltac:(lia)) as (h & body & -> & Hh). rewrite zlen_app in Ho, Hroom.
  assert (get_range (h ++ body) head (zlen (h ++ body)) = Some body) as ->.
  { rewrite <- (app_nil_r body) at 1. rewrite get_range_mid; [done|done|]. rewrite zlen_app. lia. }
  destruct (media_get_output _ _ _) as [[s body1] [[len|]|]] eqn:Em; [|done..].
  destruct (media_output _ _ _ _ _ _ Hm Em) as (Hl & Hn & Hmax & Hcls).
  destruct (split_at body1 len ltac:(lia)) as (record & rest & -> & Hrec).
  assert (media_record now (ep_session e) s record) as Hmedia.
  { exists body, (record ++ rest), len. split; [exact Em|]. split; [done|]. symmetry. apply take_app_length'. unfold zlen in Hrec. lia. }
  rewrite zlen_app in Hl. rewrite take_app_length' in Hcls by (unfold zlen in Hrec; lia).
  assert (put_range (h ++ body) head (record ++ rest) = h ++ record ++ rest) as ->.
  { rewrite <- (app_nil_r body). rewrite put_body; [by rewrite app_nil_r|done|]. by rewrite zlen_app. }
  subst len. cbv beta iota. intros E. pose proof (framed_record relay now to h record rest eg out' Hto Hch Hmax) as F.
  unfold MAX_DATAGRAM in *. specialize (F ltac:(lia) Hh). cbv beta iota zeta in F.
  clearbody head. destruct (match Relay_channel_for relay to now with Some _ => _ | None => _ end) as [relay1 [o framed]].
  apply pair_equal_spec in E as [E E2]. apply pair_equal_spec in E as [<- <-]. apply (inj Some) in E2.
  destruct F as [F1 F2]; [by rewrite E2|]. split; [done|]. split; [done|]. exists path, record. done.
Qed.
End confined.

(** C9: a relay attempt talks to the relay alone.  Whatever a relayed endpoint
    sends goes to the relay, with the ordinary hop limit and from the local address
    the relay first answered at.  It is the relay client's own request, when it has
    one due.  Otherwise the allocation stands, and it is either the first check or
    answer of the punch that may be relayed, every byte the punch wrote, inside an
    indication naming the address the punch wrote it for, what came before it (probes,
    and datagrams toward addresses the relay may not be asked to reach) dropped; or,
    when the punch has nothing more to say and has found its path, one record, every byte
    the media half wrote, within the absolute ceiling, toward the destination being
    followed (the path itself before any), on the channel bound for it, padded on a
    stream, and inside an indication when no channel stands.  The punch and the media
    half are then as those outputs left them.  The buffer is one that holds any datagram
    behind any framing. *)
Theorem relayed_output_confined (M : Type) (MM : Media M) (ok : M -> Prop) (ML : MediaLaws M MM ok) (D : Digests)
    (L : DigestLaws D) (server : SocketAddr) (user pw seed : list Z) (start : f64) (carrier : Carrier)
    (e : Endpoint M) (r : Relay) (now : f64) (out : list Z) (e' : Endpoint M) (out' : list Z) (eg : Egress) :
  relayed_typed (ok := ok) server user pw seed start carrier e r -> ROOM <= zlen out < 2 ^ 62 -> Endpoint_get_output e now out = (e', out', Some (Ok eg)) ->
  let d := take (Z.to_nat (eg_len eg)) out' in
  eg = mkEgress (rl_server r) Ttl_Default (eg_len eg) (rl_local r) /\
  match Relay_next_ask r now with
  | (r1, Some (ask, tid)) => Relay_encode r1 ask tid out = (out', Ok (eg_len eg))
  | (r1, None) =>
      is_Some (Relay_offered r1) /\
      (relayed_check (Relay_relayable r) now (ep_conn e) (ep_conn e') d /\ ep_session e' = ep_session e \/
       checks_done (Relay_relayable r) now (ep_conn e) (ep_conn e') /\
       exists path record, Conn_path (ep_conn e) = Some path /\ media_record now (ep_session e) (ep_session e') record /\
         demux_classify record = Record_ /\ zlen record <= MAX_DATAGRAM /\ relayed_record r now (default path (rl_destination r)) record d)
  end.
Proof.
  intros [Er [[tr Rr] Td] Tc Tm] Ho. pose proof (ct_path _ Tc) as Tp. pose proof (channel_slots _ _ _ _ _ _ _ _ Rr) as Tch. unfold Endpoint_get_output. rewrite Er. unfold Endpoint_relayed_output, Relay_get_output.
  destruct (Relay_next_ask r now) as [r1 [[ask tid]|]] eqn:Ea.
  { intros E. destruct (Relay_encode r1 ask tid out) as [o [n|]]; [|done].
    apply pair_equal_spec in E as [E E2]. apply pair_equal_spec in E as [_ <-]. apply (inj Some), Ok_inj in E2 as <-.
    split; [|done]. pose proof (next_ask_server _ _ _ _ Ea) as Es. exact (f_equal (fun f => f n) Es). }
  destruct (next_ask_quiet _ _ _ Ea) as (Es & Ec & Ed & Ep & Ech).
  assert (Relay_relayable r1 = Relay_relayable r) as Hck by (unfold Relay_relayable; by rewrite Ep).
  assert (forall to record d, relayed_record r1 now to record d -> relayed_record r now to record d) as Hrec.
  { intros to record d. unfold relayed_record, Relay_channel_for. by rewrite Ec, Ech. }
  destruct (Relay_offered r1) as [offered|]; [|done]. cbn [ep_conn set_field].
  change (ep_conn (e <| ep_relay := Some r1 |>)) with (ep_conn e).
  destruct (relayed_checks _ _ _ _ _) as [[[c1 r2] o1] ended] eqn:El.
  assert (INDICATION_HEADER_V4 + MAX_BUILT + 3 <= zlen out < 2 ^ 62) as Hroom
    by (unfold ROOM, MAX_DATAGRAM, MAX_BUILT, MAX_MESSAGE in *; lia).
  pose proof (relayed_checks_confined _ _ _ _ _ _ _ _ _ Tc Hroom El) as Hl. rewrite Hck in Hl. destruct ended as [[eg1|]| |]; try done.
  - intros E. apply pair_equal_spec in E as [E E2]. apply pair_equal_spec in E as [<- <-]. apply (inj Some), Ok_inj in E2 as <-.
    destruct Hl as [Hl1 Hl2]. rewrite Es in Hl1. split; [exact Hl1|]. split; [by eexists|]. left. by split.
  - destruct Hl as (-> & Hst & Hlen & Hdone). destruct (Conn_owes_answer c1); [done|]. intros E.
    assert (Conn_path c1 = Conn_path (ep_conn e)) as Hpath by (unfold Conn_path; by rewrite Hst).
    apply (relayed_media_confined (ok := ok)) in E as (E1 & Econn & path & record & E2 & Em & E3 & E4 & E5).
    + rewrite Es in E1. split; [exact E1|]. split; [by eexists|]. right. rewrite Econn. split; [exact Hdone|]. exists path, record.
      cbn in E2. rewrite Hpath in E2. rewrite Ed in E5. split_and!; try done. by apply Hrec.
    + done.
    + by rewrite Ech.
    + by rewrite Hlen.
    + cbn. rewrite Hpath, Ed. intros p [Hp|Hp]; [by apply Tp|by apply Td].
Qed.

(** The found punch of the direct attempt, carried by a relay that stands. *)
Definition relayed_endpoint : Endpoint Session := mkEndpoint found_conn session3 (Some run6).

Lemma found_typed : conn_typed found_conn.
Proof.
  assert (tables_ok found_conn /\ flatten (cn_pending found_conn) = [] /\ flatten (cn_servers found_conn) = [] /\
    (cd_addr <$> flatten (cn_candidates found_conn)) = [sample_peer] /\ cn_answered found_conn = Some (sample_peer, None) /\
    Conn_path found_conn = Some sample_peer) as (E0 & E1 & E2 & E3 & E4 & E5) by (vm_compute; done).
  assert (sock_ok sample_peer) as Hp by (vm_compute; repeat constructor; discriminate).
  split; [exact E0|rewrite E1|rewrite E2| |rewrite E4|rewrite E5].
  - intros to tid local H. destruct (not_elem_of_nil _ H).
  - intros s H. destruct (not_elem_of_nil _ H).
  - intros x Hx. apply (list_elem_of_fmap_2 cd_addr) in Hx. rewrite E3 in Hx. by apply list_elem_of_singleton in Hx as ->.
  - by intros a l [= <- _].
  - by intros p [= <-].
Qed.

Lemma relayed_endpoint_found :
  relayed_typed (ok := session_ok) (D := sample_digests) sample_peer [117] [112] sample_seed f64_zero Carrier_Stream
    relayed_endpoint run6.
Proof.
  split; [reflexivity| |exact found_typed|exact session3_ok]. split; [exists run_trace; exact sample_run|].
  assert (rl_destination run6 = None) as E by (vm_compute; reflexivity). rewrite E. done.
Qed.

Lemma relayed_sends :
  (Endpoint_get_output (MM := Session_media) (D := sample_digests) relayed_endpoint (f64_of_Z 40) (repeat 0 2100)).2 =
    Some (Ok (mkEgress sample_peer Ttl_Default 80 None)).
Proof. vm_compute. reflexivity. Qed.

Lemma relayed_output_confined_witness :
  exists out' eg, eg_to eg = sample_peer /\
    (Endpoint_get_output (MM := Session_media) (D := sample_digests) relayed_endpoint (f64_of_Z 40) (repeat 0 2100)).1.2 = out' /\
    ((exists c, relayed_check (D := sample_digests) (Relay_relayable run6) (f64_of_Z 40) found_conn c (take (Z.to_nat (eg_len eg)) out')) \/
     exists path record s, Conn_path found_conn = Some path /\ media_record (MM := Session_media) (f64_of_Z 40) session3 s record /\
       relayed_record run6 (f64_of_Z 40) path record (take (Z.to_nat (eg_len eg)) out')).
Proof.
  pose proof (output_parts _ _ relayed_sends) as E.
  eexists _, (mkEgress sample_peer Ttl_Default 80 None). split; [reflexivity|]. split; [reflexivity|].
  assert (ROOM <= zlen (repeat 0 2100) < 2 ^ 62) as Ho by (split; [vm_compute; discriminate|vm_compute; reflexivity]).
  pose proof (relayed_output_confined Session Session_media session_ok Session_media_laws sample_digests sample_laws
    sample_peer [117] [112] sample_seed f64_zero Carrier_Stream relayed_endpoint run6 (f64_of_Z 40) (repeat 0 2100) _ _ _ relayed_endpoint_found Ho E) as [_ H].
  assert (Relay_next_ask (D := sample_digests) run6 (f64_of_Z 40) = ((Relay_next_ask (D := sample_digests) run6 (f64_of_Z 40)).1, None)) as En
    by (vm_compute; reflexivity).
  rewrite En in H. destruct H as [_ [[Hc _]|(_ & path & record & Hp & Hm & _ & _ & Hr)]].
  - left. eexists. exact Hc.
  - right. exists path, record. eexists. split; [exact Hp|]. split; [exact Hm|exact Hr].
Defined.
