(* ===== verification/Stream.v ===== *)
(** The relay's stream (crates/net/src/stream.rs): one connection's bytes, the
    messages found in them in place, and the staging its messages are written from.
    What a read or a write of the socket answers is an argument. *)

From S2P Require Import Prelude CoreError Effect Envelope Stun StunFacts Turn.

Definition RELAY_MARGIN : Z := 64.
Definition RECV_SLOT : Z := MAX_DATAGRAM + RELAY_MARGIN.
Definition RECV_BATCH : Z := 64.
Definition RECEIVE : Z := 64 * 1024.
Definition STAGING : Z := 32 * 1024.
Definition LARGEST : Z := RECV_SLOT + 3.
Definition FRAMES : Z := RECV_BATCH.

(** The kinds of I/O error told apart. *)
Inductive IoError := WouldBlock | TimedOut | InvalidData | UnexpectedEof | OtherError.

(** How a write went. *)
Inductive Written := Now (taken : Z) | Pending_.

(** What a read or a write of the socket answers. *)
Inductive ReadOut := ReadBytes (l : list Z) | ReadError (e : IoError).
Inductive WriteOut := Wrote (w : Written) | WriteError (e : IoError).

Record Stream := mkStream {
  st_receive : list Z;
  st_start : Z;
  st_end : Z;
  st_consumed : Z;
  st_skip : Z;
  st_frames : list (Z * Z);
  st_found : Z;
  st_filled : bool;
  st_ended : bool;
  st_skipped : Z;
  st_staging : list Z;
  st_staged : Z;
  st_written : Z;
  st_blocked : bool;
  st_progress : Z;
}.

(** [Stream::with_stall], the socket aside. *)
Definition Stream_new (now : Z) : Stream :=
  mkStream (repeat 0 (Z.to_nat RECEIVE)) 0 0 0 0 (repeat (0, 0) (Z.to_nat FRAMES)) 0 false false 0
    (repeat 0 (Z.to_nat STAGING)) 0 0 false now.

(** ** Receiving *)

(** The locals and the fields [frame] moves. *)
Record Framing := mkFraming { fg_at : Z; fg_skip : Z; fg_skipped : Z; fg_frames : list (Z * Z); fg_found : Z }.

Fixpoint frame_loop (fuel : nat) (receive : list Z) (end_ : Z) (g : Framing) : Framing * option IoError :=
  match fuel with
  | O => (g, None)
  | S fuel' =>
      let at_ := fg_at g in
      if end_ <=? at_ then (g, None)
      else if 0 <? fg_skip g then
        let taken := Z.min (fg_skip g) (end_ - at_) in
        frame_loop fuel' receive end_ (mkFraming (at_ + taken) (fg_skip g - taken) (fg_skipped g) (fg_frames g) (fg_found g))
      else
      match turn_frame (default [] (get_range receive at_ end_)) with
      | Err _ => (g, Some InvalidData)
      | Ok None => (g, None)
      | Ok (Some frame) =>
          if fr_reserved frame || (LARGEST <? fr_wire frame) then
            frame_loop fuel' receive end_ (mkFraming at_ (fr_wire frame) (wadd 64 (fg_skipped g) 1) (fg_frames g) (fg_found g))
          else if (end_ - at_ <? fr_wire frame) || (fg_found g =? FRAMES) then (g, None)
          else
          let frames := match get_at (fg_frames g) (fg_found g) with
                        | Some _ => put_at (fg_frames g) (fg_found g) (at_, fr_len frame)
                        | None => fg_frames g
                        end in
          frame_loop fuel' receive end_ (mkFraming (at_ + fr_wire frame) (fg_skip g) (fg_skipped g) frames (fg_found g + 1))
      end
  end.

(** [Stream::frame]. *)
Definition Stream_frame (s : Stream) : Stream * option IoError :=
  let '(g, e) := frame_loop (S (S (2 * Z.to_nat (st_end s - st_start s)))) (st_receive s) (st_end s)
                   (mkFraming (st_start s) (st_skip s) (st_skipped s) (st_frames s) (st_found s)) in
  let consumed := match e with None => fg_at g | Some _ => st_consumed s end in
  (mkStream (st_receive s) (st_start s) (st_end s) consumed (fg_skip g) (fg_frames g) (fg_found g) (st_filled s) (st_ended s)
     (fg_skipped g) (st_staging s) (st_staged s) (st_written s) (st_blocked s) (st_progress s), e).

(** The first half of [drain]: what the last one handed out is let go, and a message
    cut by the buffer's end moved to the front. *)
Definition drain_shift (s : Stream) : Stream :=
  let start := st_consumed s in
  let '(receive, start, end_) :=
    if start =? st_end s then (st_receive s, 0, 0)
    else if zlen (st_receive s) - st_end s <? LARGEST then
      (put_range (st_receive s) 0 (default [] (get_range (st_receive s) start (st_end s))), 0, st_end s - start)
    else (st_receive s, start, st_end s) in
  mkStream receive start end_ start (st_skip s) (st_frames s) 0 false (st_ended s) (st_skipped s)
    (st_staging s) (st_staged s) (st_written s) (st_blocked s) (st_progress s).

(** The read. *)
Definition drain_read (read : ReadOut) (s : Stream) : Stream * option IoError :=
  if st_ended s then (s, None)
  else
  let free := zlen (st_receive s) - st_end s in
  let read := if free =? 0 then ReadError WouldBlock else read in
  let set receive end_ filled ended :=
    mkStream receive (st_start s) end_ (st_consumed s) (st_skip s) (st_frames s) (st_found s) filled ended (st_skipped s)
      (st_staging s) (st_staged s) (st_written s) (st_blocked s) (st_progress s) in
  match read with
  | ReadBytes [] => (set (st_receive s) (st_end s) (st_filled s) true, None)
  | ReadBytes l => (set (put_range (st_receive s) (st_end s) l) (st_end s + zlen l) (zlen l =? free) (st_ended s), None)
  | ReadError WouldBlock => (s, None)
  | ReadError e => (s, Some e)
  end.

(** [Stream::drain]. *)
Definition Stream_drain (read : ReadOut) (s : Stream) : Stream * (Z + IoError) :=
  match drain_read read (drain_shift s) with
  | (s, Some e) => (s, inr e)
  | (s, None) =>
      match Stream_frame s with
      | (s, Some e) => (s, inr e)
      | (s, None) => if st_ended s && (st_found s =? 0) then (s, inr UnexpectedEof) else (s, inl (st_found s))
      end
  end.

(** [Stream::saturated] and the bytes of [Stream::frames]. *)
Definition Stream_saturated (s : Stream) : bool := st_filled s || (st_found s =? FRAMES).
Definition Stream_frames (s : Stream) : list (list Z) :=
  omap (fun '(at_, len) => get_range (st_receive s) at_ (at_ + len)) (default [] (get_range (st_frames s) 0 (st_found s))).

(** ** Sending *)

(** The platform's half of a write: connected, and whether it holds a send. *)
Record StreamIo := mkIo { io_connected : bool; io_sending : bool }.

Definition Stream_room (io : StreamIo) (s : Stream) : option Z :=
  if negb (io_connected io) || st_blocked s || io_sending io then None
  else if zlen (st_staging s) - st_staged s <? LARGEST then None
  else Some (zlen (st_staging s) - st_staged s).

Definition with_staging (s : Stream) (staging : list Z) (staged written : Z) (blocked : bool) (progress : Z) : Stream :=
  mkStream (st_receive s) (st_start s) (st_end s) (st_consumed s) (st_skip s) (st_frames s) (st_found s) (st_filled s) (st_ended s)
    (st_skipped s) staging staged written blocked progress.

(** The caller's bytes written into [room], and [commit]. *)
Definition Stream_commit (now : Z) (message : list Z) (s : Stream) : Stream :=
  with_staging s (put_range (st_staging s) (st_staged s) message) (Z.min (st_staged s + zlen message) (zlen (st_staging s)))
    (st_written s) (st_blocked s) (if st_staged s =? 0 then now else st_progress s).

(** A write takes no more than it is given. *)
Definition io_write (out : WriteOut) (bytes : list Z) : WriteOut :=
  match out with Wrote (Now taken) => Wrote (Now (Z.max 0 (Z.min taken (zlen bytes)))) | out => out end.

(** The loop of [flush] over what each write answers; also what the socket took. *)
Fixpoint flush_loop (now : Z) (outs : list WriteOut) (io : StreamIo) (s : Stream) (wrote : Z) (sent : list Z)
    : Stream * StreamIo * list WriteOut * list Z * (Z + IoError) :=
  if (st_written s <? st_staged s) && negb (io_sending io) then
    match outs with
    | [] => (s, io, outs, sent, inl wrote)
    | out :: outs =>
        let unwritten := default [] (get_range (st_staging s) (st_written s) (st_staged s)) in
        match io_write out unwritten with
        | WriteError e => (s, io, outs, sent, inr e)
        | Wrote Pending_ => (s, mkIo (io_connected io) true, outs, sent, inl wrote)
        | Wrote (Now 0) => (s, io, outs, sent, inl wrote)
        | Wrote (Now taken) =>
            flush_loop now outs io (with_staging s (st_staging s) (st_staged s) (st_written s + taken) (st_blocked s) now) (wrote + taken)
              (sent ++ take (Z.to_nat taken) unwritten)
        end
    end
  else (s, io, outs, sent, inl wrote).

(** [Stream::flush]; [done] is what a held send has come to, if it has. *)
Definition Stream_flush (now : Z) (done : option (Z + IoError)) (outs : list WriteOut) (io : StreamIo) (s : Stream)
    : Stream * StreamIo * list WriteOut * list Z * (Z + IoError) :=
  let settle s :=
    let '(written, staged) := if st_written s =? st_staged s then (0, 0) else (st_written s, st_staged s) in
    with_staging s (st_staging s) staged written (written <? staged) (st_progress s) in
  let go io s wrote sent :=
    match flush_loop now outs io s wrote sent with
    | (s, io, outs, sent, inl wrote) => (settle s, io, outs, sent, inl wrote)
    | (s, io, outs, sent, inr e) => (s, io, outs, sent, inr e)
    end in
  match done with
  | Some (inr e) => (s, mkIo (io_connected io) false, outs, [], inr e)
  | Some (inl taken) =>
      let unwritten := default [] (get_range (st_staging s) (st_written s) (st_staged s)) in
      go (mkIo (io_connected io) false) (with_staging s (st_staging s) (st_staged s) (Z.min (st_written s + taken) (st_staged s)) (st_blocked s) now)
        taken (take (Z.to_nat taken) unwritten)
  | None => go io s 0 []
  end.

(** The loop of [send_from] over the messages [next] writes, in order; [done] is seen
    by the first flush.  Also the messages left and what the socket took. *)
Fixpoint send_from (fuel : nat) (now : Z) (msgs : list (list Z)) (done : option (Z + IoError)) (outs : list WriteOut)
    (io : StreamIo) (s : Stream) (staged : Z) (sent : list Z) : Stream * StreamIo * list (list Z) * list Z * (Z + IoError) :=
  match fuel with
  | O => (s, io, msgs, sent, inl staged)
  | S fuel' =>
      match Stream_room io s with
      | None =>
          match Stream_flush now done outs io s with
          | (s, io, _, more, inr e) => (s, io, msgs, sent ++ more, inr e)
          | (s, io, outs, more, inl _) =>
              match Stream_room io s with
              | Some _ => send_from fuel' now msgs None outs io s staged (sent ++ more)
              | None => (s, io, msgs, sent ++ more, inl staged)
              end
          end
      | Some _ =>
          match msgs with
          | [] =>
              match Stream_flush now done outs io s with
              | (s, io, _, more, inr e) => (s, io, [], sent ++ more, inr e)
              | (s, io, _, more, inl _) => (s, io, [], sent ++ more, inl staged)
              end
          | message :: msgs => send_from fuel' now msgs done outs io (Stream_commit now message s) (staged + 1) sent
          end
      end
  end.

(** [Stream::send_from]; a message takes at most two turns of its loop. *)
Definition Stream_send_from (now : Z) (msgs : list (list Z)) (done : option (Z + IoError)) (outs : list WriteOut) (io : StreamIo) (s : Stream)
    : Stream * StreamIo * list (list Z) * list Z * (Z + IoError) :=
  send_from (S (S (2 * length msgs))) now msgs done outs io s 0 [].

(** [Stream::wait]'s own check, before the platform waits. *)
Definition Stream_stalled (now stall : Z) (s : Stream) : bool := st_blocked s && (stall <=? now - st_progress s).

(** ** The messages of a byte stream *)

(** What the bytes of a stream say, however they arrive: the messages whole in them,
    and whether they run into something that is no message. *)
Fixpoint messages_in (fuel : nat) (bytes : list Z) : list (list Z) * bool :=
  match fuel with
  | O => ([], false)
  | S fuel' =>
      match turn_frame bytes with
      | Err _ => ([], true)
      | Ok None => ([], false)
      | Ok (Some f) =>
          if fr_reserved f || (LARGEST <? fr_wire f) then messages_in fuel' (drop (Z.to_nat (fr_wire f)) bytes)
          else if zlen bytes <? fr_wire f then ([], false)
          else let '(ms, broken) := messages_in fuel' (drop (Z.to_nat (fr_wire f)) bytes) in
               (take (Z.to_nat (fr_len f)) bytes :: ms, broken)
      end
  end.

Definition messages (bytes : list Z) : list (list Z) * bool := messages_in (S (length bytes)) bytes.

(** A message found is found from its first bytes alone, and is not empty. *)
Lemma turn_frame_more bytes more r : turn_frame bytes = r -> r <> Ok None -> turn_frame (bytes ++ more) = r.
Proof.
  intros <- Hn. destruct bytes as [|b l]; [done|]. unfold turn_frame in *. cbn [app head] in *. fold (app (b :: l) more).
  assert (forall a n, 0 <= a -> 0 <= n -> a + n <= zlen (b :: l) -> get_range ((b :: l) ++ more) a (a + n) = get_range (b :: l) a (a + n)) as Hg.
  { intros a n Ha Hn' Hl. rewrite !get_range_eq by (rewrite ?zlen_app; pose proof (zlen_nonneg more); lia). f_equal.
    rewrite drop_app_le by (unfold zlen in *; lia). rewrite take_app_le; [done|]. rewrite length_drop. unfold zlen in *. lia. }
  change (b :: l ++ more) with ((b :: l) ++ more). rewrite zlen_app. pose proof (zlen_nonneg more).
  destruct (Z.shiftr b 6 =? 0).
  - destruct (Z.ltb_spec (zlen (b :: l)) 8); [done|]. rewrite (proj2 (Z.ltb_ge _ 8)) by lia.
    unfold stun_be32, stun_be16. rewrite (Hg 4 4), (Hg 2 2) by lia. done.
  - destruct (Z.shiftr b 6 =? 1); [|done]. unfold CHANNEL_HEADER_LEN in *.
    destruct (Z.ltb_spec (zlen (b :: l)) 4); [done|]. rewrite (proj2 (Z.ltb_ge _ 4)) by lia.
    unfold stun_be16. rewrite (Hg 2 2), (Hg 0 2) by lia. done.
Qed.

Lemma be16_nonneg l a v : bytes_ok l -> stun_be16 l a = Ok v -> 0 <= v < 65536.
Proof. intros Hl H. by apply (stun_be16_bytes _ _ _ Hl) in H. Qed.

Lemma turn_frame_shape bytes f :
  bytes_ok bytes -> turn_frame bytes = Ok (Some f) -> 4 <= fr_len f <= fr_wire f /\ bytes <> [].
Proof.
  intros Hb E. destruct bytes as [|b l]; [done|]. split; [|done]. unfold turn_frame in E. cbn [head] in E.
  destruct (Z.shiftr b 6 =? 0).
  - destruct (_ <? 8); [done|]. destruct (stun_be32 _ _); [|done]. cbn in E. destruct (negb _); [done|].
    destruct (stun_be16 (b :: l) 2) as [body|] eqn:Eb; [|done]. cbn in E. apply be16_nonneg in Eb; [|done]. destruct (negb _); [done|].
    injection E as <-. unfold STUN_HEADER_LEN. cbn. lia.
  - destruct (_ =? 1); [|done]. destruct (_ <? CHANNEL_HEADER_LEN); [done|].
    destruct (stun_be16 (b :: l) 2) as [body|] eqn:Eb; [|done]. cbn in E. apply be16_nonneg in Eb; [|done].
    destruct (stun_be16 (b :: l) 0) as [number|]; [|done]. cbn in E. injection E as <-. cbn. unfold next_multiple_of_4, CHANNEL_HEADER_LEN.
    pose proof (pad_len_bounds (4 + body)). lia.
Qed.

Lemma bytes_ok_drop n l : bytes_ok l -> bytes_ok (drop n l).
Proof. apply Forall_drop. Qed.

Lemma drop_shrinks bytes f : bytes_ok bytes -> turn_frame bytes = Ok (Some f) ->
  (length (drop (Z.to_nat (fr_wire f)) bytes) < length bytes)%nat.
Proof.
  intros Hb E. destruct (turn_frame_shape _ _ Hb E) as [H Hne]. rewrite length_drop. destruct bytes; [done|]. cbn. lia.
Qed.

Lemma messages_in_enough n fuel bytes :
  bytes_ok bytes -> (length bytes < fuel)%nat -> (length bytes < n)%nat -> messages_in fuel bytes = messages_in n bytes.
Proof.
  revert n bytes. induction fuel as [|fuel IH]; intros n bytes Hb Hf Hn; [lia|]. destruct n as [|n]; [lia|]. cbn [messages_in].
  destruct (turn_frame bytes) as [[f|]|] eqn:E; [|done|done]. pose proof (drop_shrinks _ _ Hb E).
  rewrite (IH n) by (lia || by apply bytes_ok_drop). done.
Qed.

(** The reference, unfolded. *)
Lemma messages_eq bytes :
  bytes_ok bytes -> messages bytes =
    match turn_frame bytes with
    | Err _ => ([], true)
    | Ok None => ([], false)
    | Ok (Some f) =>
        if fr_reserved f || (LARGEST <? fr_wire f) then messages (drop (Z.to_nat (fr_wire f)) bytes)
        else if zlen bytes <? fr_wire f then ([], false)
        else let '(ms, broken) := messages (drop (Z.to_nat (fr_wire f)) bytes) in
             (take (Z.to_nat (fr_len f)) bytes :: ms, broken)
    end.
Proof.
  intros Hb. unfold messages at 1. cbn [messages_in]. destruct (turn_frame bytes) as [[f|]|] eqn:E; [|done|done].
  pose proof (drop_shrinks _ _ Hb E). unfold messages.
  by rewrite (messages_in_enough (S (length (drop (Z.to_nat (fr_wire f)) bytes)))) by (lia || by apply bytes_ok_drop).
Qed.

(** Messages put before others. *)
Definition before (ms : list (list Z)) (r : list (list Z) * bool) : list (list Z) * bool := (ms ++ fst r, snd r).

Lemma before_nil r : before [] r = r.
Proof. by destruct r. Qed.

Lemma before_app ms ms' r : before (ms ++ ms') r = before ms (before ms' r).
Proof. unfold before. cbn. by rewrite app_assoc. Qed.

(** The bytes between two places. *)
Definition slice (l : list Z) (a b : Z) : list Z := take (Z.to_nat (b - a)) (drop (Z.to_nat a) l).

Lemma slice_range l a b : 0 <= a <= b -> b <= zlen l -> get_range l a b = Some (slice l a b).
Proof. intros H Hl. rewrite get_range_eq by lia. unfold slice. done. Qed.

Lemma zlen_slice l a b : 0 <= a <= b -> b <= zlen l -> zlen (slice l a b) = b - a.
Proof. intros H Hl. unfold slice. rewrite zlen_take, zlen_drop. lia. Qed.

Lemma slice_drop l a b n : 0 <= a -> 0 <= n -> a + n <= b -> b <= zlen l -> drop (Z.to_nat n) (slice l a b) = slice l (a + n) b.
Proof.
  intros Ha Hn Hb Hl. unfold slice. rewrite skipn_firstn_comm, drop_drop. f_equal; [lia|]. f_equal. lia.
Qed.

Lemma slice_take l a b n : 0 <= a -> 0 <= n -> a + n <= b -> b <= zlen l -> take (Z.to_nat n) (slice l a b) = slice l a (a + n).
Proof. intros Ha Hn Hb Hl. unfold slice. rewrite take_take. f_equal. lia. Qed.

Lemma slice_ok l a b : bytes_ok l -> bytes_ok (slice l a b).
Proof. intros H. unfold slice. by apply Forall_take, Forall_drop. Qed.

Lemma drop_app_split (n : Z) (l more : list Z) :
  0 <= n <= zlen l -> drop (Z.to_nat n) (l ++ more) = drop (Z.to_nat n) l ++ more.
Proof. intros H. apply drop_app_le. unfold zlen in H. lia. Qed.

(** What the loop has found, from where it stands. *)
Record Found (receive : list Z) (end_ : Z) (g g' : Framing) (e : option IoError) (fs : list (Z * Z)) : Prop := mkFound {
  fd_at : fg_at g <= fg_at g' <= end_;
  fd_skip : 0 <= fg_skip g';
  fd_found : fg_found g' = fg_found g + zlen fs /\ fg_found g' <= FRAMES;
  fd_frames : fg_frames g' = put_range (fg_frames g) (fg_found g) fs;
  fd_places : Forall (fun '(a, l) => fg_at g <= a /\ 0 <= l /\ a + l <= end_) fs;
  fd_messages : forall more, bytes_ok more ->
    messages (drop (Z.to_nat (fg_skip g)) (slice receive (fg_at g) end_ ++ more)) =
    before (map (fun '(a, l) => slice receive a (a + l)) fs) (messages (drop (Z.to_nat (fg_skip g')) (slice receive (fg_at g') end_ ++ more)));
  fd_error : match e with
             | Some x => x = InvalidData /\ forall more, bytes_ok more -> messages (drop (Z.to_nat (fg_skip g')) (slice receive (fg_at g') end_ ++ more)) = ([], true)
             | None => fg_found g' = FRAMES \/
                 (messages (drop (Z.to_nat (fg_skip g')) (slice receive (fg_at g') end_)) = ([], false) /\ end_ - fg_at g' < LARGEST)
             end;
}.

Lemma turn_frame_none bytes : turn_frame bytes = Ok None -> zlen bytes < 8.
Proof.
  unfold turn_frame. destruct bytes as [|b l]; [done|]. cbn [head]. destruct (_ =? 0).
  - destruct (Z.ltb_spec (zlen (b :: l)) 8); [done|]. destruct (stun_be32 _ _); [|done]. cbn. destruct (negb _); [done|].
    destruct (stun_be16 _ _); [|done]. cbn. by destruct (negb _).
  - destruct (_ =? 1); [|done]. unfold CHANNEL_HEADER_LEN. destruct (Z.ltb_spec (zlen (b :: l)) 4); [lia|].
    destruct (stun_be16 _ 2); [|done]. cbn. by destruct (stun_be16 _ 0).
Qed.

Lemma Found_stop receive end_ g e :
  fg_at g <= end_ -> 0 <= fg_skip g -> fg_found g <= FRAMES ->
  match e with
  | Some x => x = InvalidData /\ forall more, bytes_ok more -> messages (drop (Z.to_nat (fg_skip g)) (slice receive (fg_at g) end_ ++ more)) = ([], true)
  | None => fg_found g = FRAMES \/
      (messages (drop (Z.to_nat (fg_skip g)) (slice receive (fg_at g) end_)) = ([], false) /\ end_ - fg_at g < LARGEST)
  end -> Found receive end_ g g e [].
Proof.
  intros Ha Hs Hf He. split; try done; try lia.
  - change (zlen []) with 0. lia.
  - by rewrite put_range_nil.
  - intros more _. by rewrite before_nil.
Qed.

(** One turn of the loop that hands nothing out. *)
Lemma Found_skip receive end_ g g1 g' e fs :
  Found receive end_ g1 g' e fs -> fg_at g <= fg_at g1 -> fg_found g1 = fg_found g -> fg_frames g1 = fg_frames g ->
  (forall more, bytes_ok more -> messages (drop (Z.to_nat (fg_skip g)) (slice receive (fg_at g) end_ ++ more)) =
    messages (drop (Z.to_nat (fg_skip g1)) (slice receive (fg_at g1) end_ ++ more))) ->
  Found receive end_ g g' e fs.
Proof.
  intros [] Ha Ef Efr Em. split; rewrite <- ?Ef, <- ?Efr; try done; try lia.
  - eapply Forall_impl; [|exact fd_places0]. intros [a l]. lia.
  - intros more Hm. rewrite Em by done. by apply fd_messages0.
Qed.

Lemma largest_eq : LARGEST = 2067.
Proof. reflexivity. Qed.

Lemma put_range_snoc {A} (l : list A) i x fs :
  0 <= i -> i + 1 + zlen fs <= zlen l -> put_range (put_at l i x) (i + 1) fs = put_range l i (x :: fs).
Proof.
  intros Hi Hl. pose proof (zlen_nonneg fs). rewrite put_at_range by lia.
  replace (i + 1) with (i + zlen [x]) by (change (zlen [x]) with 1; lia).
  rewrite put_range_twice by (change (zlen [x]) with 1; lia). done.
Qed.

Lemma frame_loop_found fuel receive end_ g g' e :
  bytes_ok receive -> 0 <= fg_at g <= end_ -> end_ <= zlen receive -> 0 <= fg_skip g -> 0 <= fg_found g <= FRAMES -> zlen (fg_frames g) = FRAMES ->
  2 * (end_ - fg_at g) + (if 0 <? fg_skip g then 0 else 1) < Z.of_nat fuel ->
  frame_loop fuel receive end_ g = (g', e) -> exists fs, Found receive end_ g g' e fs.
Proof.
  intros Hb. revert g. induction fuel as [|fuel IH]; intros g Hat Hend Hskip Hfound Hframes Hfuel E; [destruct (0 <? fg_skip g); lia|].
  cbn [frame_loop] in E. destruct (Z.leb_spec end_ (fg_at g)) as [Hge|Hlt].
  { injection E as <- <-. exists []. apply Found_stop; [lia..|]. right. rewrite largest_eq. split; [|lia].
    replace (slice receive (fg_at g) end_) with (@nil Z) by (unfold slice; by replace (Z.to_nat (end_ - fg_at g)) with O by lia).
    rewrite drop_nil. by vm_compute. }
  pose proof (slice_ok receive (fg_at g) end_ Hb) as Hsb. pose proof (zlen_slice receive (fg_at g) end_ ltac:(lia) ltac:(lia)) as Hsl.
  destruct (Z.ltb_spec 0 (fg_skip g)) as [Hs|Hs].
  { set (taken := Z.min (fg_skip g) (end_ - fg_at g)) in *.
    destruct (IH (mkFraming (fg_at g + taken) (fg_skip g - taken) (fg_skipped g) (fg_frames g) (fg_found g))) as [fs Hfs];
      cbn [fg_at fg_skip fg_skipped fg_frames fg_found]; [lia|lia|lia|lia|lia|destruct (0 <? fg_skip g - taken); lia|exact E|].
    exists fs. eapply (Found_skip _ _ g); [exact Hfs|cbn; lia|done|done|]. intros more Hm. cbn [fg_skip fg_at].
    rewrite <- (slice_drop receive (fg_at g) end_ taken) by lia. rewrite <- drop_app_split by lia. rewrite drop_drop. do 2 f_equal. lia. }
  assert (fg_skip g = 0) as Hz by lia. 
  assert (default [] (get_range receive (fg_at g) end_) = slice receive (fg_at g) end_) as Eh by (by rewrite slice_range by lia). rewrite Eh in E.
  destruct (turn_frame (slice receive (fg_at g) end_)) as [[f|]|] eqn:Ef.
  3: { injection E as <- <-. exists []. apply Found_stop; [lia..|]. split; [done|]. intros more Hm. rewrite Hz. change (Z.to_nat 0) with O. rewrite drop_0.
       rewrite messages_eq by (by apply Forall_app). by rewrite (turn_frame_more _ more _ Ef). }
  2: { injection E as <- <-. exists []. apply Found_stop; [lia..|]. right. rewrite Hz. change (Z.to_nat 0) with O. rewrite drop_0.
       rewrite messages_eq by done. rewrite Ef. split; [done|]. apply turn_frame_none in Ef. rewrite largest_eq. lia. }
  destruct (turn_frame_shape _ _ Hsb Ef) as [Hshape _].
  assert (forall more, bytes_ok more -> turn_frame (slice receive (fg_at g) end_ ++ more) = Ok (Some f)) as Efm
    by (intros more _; by apply turn_frame_more).
  destruct (fr_reserved f || (LARGEST <? fr_wire f)) eqn:Esk.
  { destruct (IH (mkFraming (fg_at g) (fr_wire f) (wadd 64 (fg_skipped g) 1) (fg_frames g) (fg_found g))) as [fs Hfs];
      cbn [fg_at fg_skip fg_skipped fg_frames fg_found]; [lia|lia|lia|lia|lia|rewrite (proj2 (Z.ltb_lt 0 (fr_wire f))) by lia; lia|exact E|].
    exists fs. eapply (Found_skip _ _ g); [exact Hfs|cbn; lia|done|done|]. intros more Hm. cbn [fg_skip fg_at]. rewrite Hz. change (Z.to_nat 0) with O. rewrite drop_0.
    rewrite messages_eq by (by apply Forall_app). rewrite Efm, Esk by done. done. }
  destruct ((end_ - fg_at g <? fr_wire f) || (fg_found g =? FRAMES)) eqn:Est.
  { injection E as <- <-. exists []. apply Found_stop; [lia..|]. apply orb_true_iff in Est as [Est|Est]; [right|left; lia].
    rewrite Hz. change (Z.to_nat 0) with O. rewrite drop_0. rewrite messages_eq by done. rewrite Ef, Esk.
    rewrite (proj2 (Z.ltb_lt (zlen _) _)) by lia. split; [done|]. lia. }
  assert (fr_wire f <= end_ - fg_at g /\ fg_found g < FRAMES) as [Hw Hfl] by lia.
  destruct (get_at_Some (fg_frames g) (fg_found g)) as [old Eold]; [lia|]. rewrite Eold in E.
  destruct (IH (mkFraming (fg_at g + fr_wire f) (fg_skip g) (fg_skipped g) (put_at (fg_frames g) (fg_found g) (fg_at g, fr_len f)) (fg_found g + 1))) as [fs Hfs];
    cbn [fg_at fg_skip fg_skipped fg_frames fg_found]; [lia|lia|lia|lia|by rewrite zlen_put_at|rewrite Hz; cbn [Z.ltb Z.compare]; lia|exact E|].
  destruct Hfs. cbn [fg_at fg_skip fg_skipped fg_frames fg_found] in *. exists ((fg_at g, fr_len f) :: fs).
  pose proof (zlen_cons (fg_at g, fr_len f) fs) as Hcons.
  split; try done; try lia.
  - rewrite fd_frames0. apply put_range_snoc; lia.
  - constructor; [lia|]. eapply Forall_impl; [|exact fd_places0]. intros [a l]. lia.
  - intros more Hm. rewrite Hz. rewrite Hz in fd_messages0. change (Z.to_nat 0) with O in *. rewrite drop_0. specialize (fd_messages0 more Hm). rewrite drop_0 in fd_messages0.
    rewrite messages_eq by (by apply Forall_app). rewrite Efm, Esk by done. rewrite zlen_app, Hsl. pose proof (zlen_nonneg more).
    rewrite (proj2 (Z.ltb_ge _ _)) by lia. rewrite drop_app_split by lia. rewrite slice_drop by lia. rewrite fd_messages0.
    unfold before. cbn [map app fst snd]. f_equal. f_equal. rewrite take_app_le by (unfold zlen in Hsl; lia). by apply slice_take; lia.
Qed.

(** ** Draining *)

(** How much a read may bring, and what it brings. *)
Definition free_after (s : Stream) : Z := zlen (st_receive (drain_shift s)) - st_end (drain_shift s).
Definition clip (s : Stream) (read : ReadOut) : ReadOut :=
  match read with ReadBytes l => ReadBytes (take (Z.to_nat (free_after s)) l) | e => e end.
Definition arrived (s : Stream) (read : ReadOut) : list Z :=
  if st_ended s then [] else match read with ReadBytes l => if free_after s =? 0 then [] else l | ReadError _ => [] end.

Record SInv (s : Stream) (total : list Z) (handed : list (list Z)) : Prop := mkSInv {
  si_receive : zlen (st_receive s) = RECEIVE;
  si_bytes : bytes_ok (st_receive s);
  si_frames : zlen (st_frames s) = FRAMES;
  si_places : 0 <= st_consumed s <= st_end s /\ st_end s <= RECEIVE;
  si_skip : 0 <= st_skip s;
  si_messages : forall more, bytes_ok more ->
    messages (total ++ more) = before handed (messages (drop (Z.to_nat (st_skip s)) (slice (st_receive s) (st_consumed s) (st_end s) ++ more)));
  si_room : st_found s = FRAMES \/
    (messages (drop (Z.to_nat (st_skip s)) (slice (st_receive s) (st_consumed s) (st_end s))) = ([], false) /\ st_end s - st_consumed s < LARGEST);
}.

Lemma SInv_new now : SInv (Stream_new now) [] [].
Proof.
  split.
  - vm_compute. reflexivity.
  - unfold Stream_new. cbn [st_receive]. apply Forall_forall. intros x Hx. apply repeat_spec in Hx as ->. done.
  - reflexivity.
  - unfold RECEIVE. cbn. lia.
  - done.
  - intros more _. rewrite before_nil. unfold Stream_new. cbn [st_skip st_receive st_consumed st_end]. unfold slice.
    change (Z.to_nat (0 - 0)) with O. change (Z.to_nat 0) with O. rewrite take_0, drop_0. reflexivity.
  - right. split; [|rewrite largest_eq; cbn; lia]. unfold Stream_new. cbn [st_skip st_receive st_consumed st_end]. unfold slice.
    change (Z.to_nat (0 - 0)) with O. rewrite take_0. reflexivity.
Qed.

Lemma receive_eq : RECEIVE = 65536.
Proof. reflexivity. Qed.

Lemma slice_put_front l t a : 0 <= a -> zlen t <= zlen l -> zlen t = a -> slice (put_range l 0 t) 0 a = t.
Proof.
  intros Ha Hl <-. rewrite put_range_0. unfold slice. rewrite drop_0, Z.sub_0_r. rewrite take_app_length'; [done|]. unfold zlen. lia.
Qed.

Lemma bytes_ok_put l a t : bytes_ok l -> bytes_ok t -> bytes_ok (put_range l a t).
Proof. intros Hl Ht. unfold put_range. apply Forall_app. split; [by apply Forall_take|]. apply Forall_app. split; [done|by apply Forall_drop]. Qed.

(** What is held stays, only where it is may change, and there is room for the rest
    of a message that was cut. *)
Lemma drain_shift_ok s total handed :
  SInv s total handed ->
  let s1 := drain_shift s in
  zlen (st_receive s1) = RECEIVE /\ bytes_ok (st_receive s1) /\ zlen (st_frames s1) = FRAMES /\
  0 <= st_start s1 <= st_end s1 /\ st_end s1 <= RECEIVE /\ st_start s1 = st_consumed s1 /\ st_skip s1 = st_skip s /\
  slice (st_receive s1) (st_start s1) (st_end s1) = slice (st_receive s) (st_consumed s) (st_end s) /\
  st_found s1 = 0 /\ st_ended s1 = st_ended s /\ (st_found s < FRAMES -> LARGEST <= free_after s).
Proof.
  intros [] s1. unfold s1, free_after, drain_shift. destruct si_places0 as [Hc He]. rewrite receive_eq, largest_eq in *.
  destruct (Z.eqb_spec (st_consumed s) (st_end s)) as [Eq|Hne].
  - cbn. repeat split; try done; try lia. rewrite Eq. unfold slice. rewrite !Z.sub_diag. done.
  - rewrite slice_range by lia. change (default [] (Some ?x)) with x.
    destruct (Z.ltb_spec (zlen (st_receive s) - st_end s) 2067) as [Hlt|Hge];
      cbn [st_receive st_start st_end st_consumed st_skip st_frames st_found st_ended].
    + change (default [] (Some (slice (st_receive s) (st_consumed s) (st_end s)))) with (slice (st_receive s) (st_consumed s) (st_end s)).
      pose proof (slice_ok (st_receive s) (st_consumed s) (st_end s) si_bytes0) as Hsb.
      assert (zlen (slice (st_receive s) (st_consumed s) (st_end s)) = st_end s - st_consumed s) as Hh by (apply zlen_slice; lia).
      set (h := slice (st_receive s) (st_consumed s) (st_end s)) in *.
      assert (zlen (put_range (st_receive s) 0 h) = 65536) as Hp by (rewrite zlen_put_range; lia).
      repeat split; try done; try lia.
      * by apply bytes_ok_put.
      * apply slice_put_front; lia.
    + repeat split; try done; try lia.
Qed.

(** The bytes of the frames found. *)
Lemma frames_bytes receive frames fs n :
  n = zlen fs -> zlen fs <= zlen frames -> Forall (fun '(a, l) => 0 <= a /\ 0 <= l /\ a + l <= zlen receive) fs ->
  omap (fun '(at_, len) => get_range receive at_ (at_ + len)) (default [] (get_range (put_range frames 0 fs) 0 n)) =
  map (fun '(a, l) => slice receive a (a + l)) fs.
Proof.
  intros -> Hl Hf. rewrite put_range_0, get_range_app_l. change (default [] (Some fs)) with fs.
  induction Hf as [|[a l] fs H _ IH]; [done|]. rewrite zlen_cons in Hl. cbn [omap list_omap map].
  rewrite slice_range by lia. f_equal. apply IH. lia.
Qed.

Definition read_ok (s : Stream) (read : ReadOut) : Prop :=
  match read with ReadBytes l => bytes_ok l /\ zlen l <= free_after s | ReadError _ => True end.

Lemma slice_put_end l a b t : 0 <= a <= b -> b + zlen t <= zlen l -> slice (put_range l b t) a (b + zlen t) = slice l a b ++ t.
Proof.
  intros Hab Hl. pose proof (zlen_nonneg t). unfold slice, put_range.
  rewrite drop_app_le by (rewrite length_take; unfold zlen in *; lia).
  rewrite app_assoc, take_app_le by (rewrite length_app, length_drop, length_take; unfold zlen in *; lia).
  rewrite skipn_firstn_comm. rewrite take_ge by (rewrite length_app, length_take, length_drop; unfold zlen in *; lia).
  do 2 f_equal. lia.
Qed.

(** The bytes a read brings go behind what is held. *)
Lemma drain_read_ok s read s2 e :
  read_ok s read ->
  let s1 := drain_shift s in
  zlen (st_receive s1) = RECEIVE -> bytes_ok (st_receive s1) -> 0 <= st_start s1 <= st_end s1 -> st_end s1 <= RECEIVE ->
  st_ended s1 = st_ended s -> drain_read read s1 = (s2, e) ->
  match e with
  | Some e => read = ReadError e
  | None =>
      zlen (st_receive s2) = RECEIVE /\ bytes_ok (st_receive s2) /\ st_frames s2 = st_frames s1 /\ st_start s2 = st_start s1 /\
      st_consumed s2 = st_consumed s1 /\ st_skip s2 = st_skip s1 /\ st_found s2 = st_found s1 /\
      st_start s1 <= st_end s2 <= RECEIVE /\ bytes_ok (arrived s read) /\
      slice (st_receive s2) (st_start s1) (st_end s2) = slice (st_receive s1) (st_start s1) (st_end s1) ++ arrived s read
  end.
Proof.
  intros Hr s1 Hl Hb Hst Hend Een E. unfold drain_read in E. unfold arrived. rewrite Een in E. fold (free_after s) in E. unfold read_ok in Hr.
  destruct (st_ended s). { injection E as <- <-. rewrite app_nil_r. repeat split; try done; try lia; apply Forall_nil_2. }
  replace (zlen (st_receive s1) - st_end s1) with (free_after s) in E by done.
  destruct (Z.eqb_spec (free_after s) 0) as [Hz|Hz].
  { injection E as <- <-. replace (match read with ReadBytes _ => [] | ReadError _ => [] end) with (@nil Z) by (by destruct read).
    rewrite app_nil_r. repeat split; try done; try lia; apply Forall_nil_2. }
  assert (free_after s = RECEIVE - st_end s1) as Hfree by (unfold free_after; fold s1; lia).
  destruct read as [[|x l]|err].
  - injection E as <- <-. rewrite app_nil_r. cbn. repeat split; try done; try lia; apply Forall_nil_2.
  - injection E as <- <-. destruct Hr as [Hrb Hrl]. cbn [st_receive st_frames st_start st_consumed st_skip st_found st_end].
    pose proof (zlen_nonneg (x :: l)). assert (zlen (put_range (st_receive s1) (st_end s1) (x :: l)) = RECEIVE) as Hpl by (rewrite zlen_put_range; lia).
    repeat split; try done; try lia.
    + by apply bytes_ok_put.
    + apply slice_put_end; lia.
  - destruct err; injection E as <- <-; try done. rewrite app_nil_r. repeat split; try done; try lia; apply Forall_nil_2.
Qed.

Lemma Stream_frame_ok s s' e :
  zlen (st_receive s) = RECEIVE -> bytes_ok (st_receive s) -> zlen (st_frames s) = FRAMES -> 0 <= st_start s <= st_end s -> st_end s <= RECEIVE ->
  0 <= st_skip s -> st_found s = 0 -> Stream_frame s = (s', e) ->
  exists g fs, Found (st_receive s) (st_end s) (mkFraming (st_start s) (st_skip s) (st_skipped s) (st_frames s) (st_found s)) g e fs /\
    st_receive s' = st_receive s /\ st_end s' = st_end s /\ st_skip s' = fg_skip g /\ st_frames s' = fg_frames g /\ st_found s' = fg_found g /\
    st_ended s' = st_ended s /\ (e = None -> st_consumed s' = fg_at g) /\
    Stream_frames s' = map (fun '(a, l) => slice (st_receive s) a (a + l)) fs.
Proof.
  intros Hl Hb Hf Hst Hend Hsk Hfd E. unfold Stream_frame in E. destruct (frame_loop _ _ _ _) as [g e'] eqn:El.
  injection E as <- <-. apply frame_loop_found in El as [fs Hfs]; cbn [fg_at fg_skip fg_skipped fg_frames fg_found];
    [|done|lia|lia|lia|rewrite Hfd; vm_compute; split; discriminate|done|destruct (0 <? st_skip s); lia].
  exists g, fs. split; [done|]. cbn [st_receive st_end st_skip st_frames st_found st_ended st_consumed]. repeat split; try done; [by intros ->|].
  unfold Stream_frames. cbn [st_frames st_receive st_found]. destruct Hfs. cbn [fg_at fg_skip fg_skipped fg_frames fg_found] in *.
  rewrite fd_frames0, Hfd in *. apply frames_bytes; [lia|lia|]. eapply Forall_impl; [|exact fd_places0]. intros [a l]. lia.
Qed.

Lemma drain_ok s total handed read s' r :
  SInv s total handed -> read_ok s read -> Stream_drain read s = (s', r) ->
  let total' := total ++ arrived s read in
  match r with
  | inl n => SInv s' total' (handed ++ Stream_frames s') /\ n = zlen (Stream_frames s') /\ st_found s' = n
  | inr e => read = ReadError e \/
      (e = InvalidData /\ exists ms, messages total' = (handed ++ ms, true)) \/
      (e = UnexpectedEof /\ messages total' = (handed, false) /\ st_ended s' = true)
  end.
Proof.
  intros I Hr E total'. destruct (drain_shift_ok s total handed I) as (Hl & Hb & Hf & Hst & Hend & Hcs & Hsk & Hsl & Hfd & Hen & _).
  unfold Stream_drain in E. destruct (drain_read read (drain_shift s)) as [s2 e2] eqn:E2.
  pose proof (drain_read_ok s read s2 e2 Hr Hl Hb Hst Hend Hen E2) as H2. destruct e2 as [e2|]; [injection E as <- <-; by left|].
  destruct H2 as (Hl2 & Hb2 & Hf2 & Hst2 & Hc2 & Hsk2 & Hfd2 & Hend2 & Har & Hsl2). destruct I.
  destruct (Stream_frame s2) as [s3 e3] eqn:E3.
  apply Stream_frame_ok in E3 as (g & fs & Hfs & Er3 & Ee3 & Es3 & Ef3 & En3 & Ed3 & Ec3 & Eb3);
    [|done|done|congruence|lia|lia|rewrite Hsk2, Hsk; done|congruence].
  assert (forall more, bytes_ok more -> messages (total' ++ more) =
    before (handed ++ Stream_frames s3) (messages (drop (Z.to_nat (fg_skip g)) (slice (st_receive s2) (fg_at g) (st_end s2) ++ more)))) as Hm.
  { intros more Hmb. unfold total'. rewrite <- app_assoc, si_messages0 by (by apply Forall_app).
    rewrite before_app, Eb3. f_equal. rewrite <- (fd_messages _ _ _ _ _ _ Hfs more Hmb). cbn [fg_skip fg_at].
    rewrite Hst2, Hsl2, Hsk2, Hsk, Hsl, <- app_assoc. done. }
  pose proof (fd_error _ _ _ _ _ _ Hfs) as He. destruct Hfs. cbn [fg_at fg_skip fg_skipped fg_frames fg_found] in *. destruct e3 as [e3|].
  { injection E as <- <-. right. left. destruct He as [-> He]. split; [done|]. exists (Stream_frames s3). specialize (Hm [] (Forall_nil_2 _)).
    rewrite He in Hm by apply Forall_nil_2. rewrite app_nil_r in Hm. rewrite Hm. unfold before. cbn. by rewrite app_nil_r. }
  specialize (Ec3 eq_refl).
  assert (zlen (Stream_frames s3) = fg_found g) as Hcount by (rewrite Eb3; unfold zlen in *; rewrite length_map; lia).
  assert (SInv s3 total' (handed ++ Stream_frames s3)) as I3.
  { split; rewrite ?Er3, ?Ee3, ?Es3, ?Ef3, ?En3, ?Ec3; try done; try lia.
    rewrite fd_frames0, zlen_put_range; rewrite ?Hf2; lia. }
  destruct (st_ended s3 && (st_found s3 =? 0)) eqn:Eeof.
  - injection E as <- <-. apply andb_true_iff in Eeof as [Een Ez%Z.eqb_eq]. right. right. split; [done|]. split; [|done].
    destruct (si_room _ _ _ I3) as [H|[H _]]; [rewrite H in Ez; done|]. pose proof (si_messages _ _ _ I3 [] (Forall_nil_2 _)) as Hm0.
    rewrite !app_nil_r, H in Hm0. rewrite Hm0. unfold before. cbn. rewrite app_nil_r. f_equal.
    assert (Stream_frames s3 = []) as ->; [|by rewrite app_nil_r]. apply nil_length_inv. unfold zlen in Hcount. lia.
  - injection E as <- <-. split; [done|]. split; [lia|done].
Qed.

(** ** A connection's reads *)

(** The drains of a connection, each over what its read answers: what was handed out,
    what arrived, and the error that ended it. *)
Fixpoint stream_run (reads : list ReadOut) (s : Stream) : Stream * list (list Z) * list Z * option IoError :=
  match reads with
  | [] => (s, [], [], None)
  | read :: reads =>
      let read := clip s read in
      match Stream_drain read s with
      | (s', inr e) => (s', [], arrived s read, Some e)
      | (s', inl _) =>
          let '(s'', handed, total, e) := stream_run reads s' in
          (s'', Stream_frames s' ++ handed, arrived s read ++ total, e)
      end
  end.

Definition read_bytes_ok (read : ReadOut) : Prop := match read with ReadBytes l => bytes_ok l | ReadError _ => True end.

Lemma clip_ok s read total handed : SInv s total handed -> read_bytes_ok read -> read_ok s (clip s read).
Proof.
  intros I H. destruct read as [l|e]; [|done]. destruct (drain_shift_ok _ _ _ I) as (Hl & _ & _ & _ & Hend & _).
  cbn [clip read_ok] in *. assert (0 <= free_after s) by (unfold free_after; lia). split; [by apply Forall_take|]. rewrite zlen_take. lia.
Qed.

(** What a run has handed out of what arrived. *)
Definition Delivered (total : list Z) (handed : list (list Z)) : Prop := exists rest, fst (messages total) = handed ++ rest.

Lemma SInv_delivered s total handed : SInv s total handed -> Delivered total handed.
Proof.
  intros I. pose proof (si_messages _ _ _ I [] (Forall_nil_2 _)) as H. rewrite app_nil_r in H. unfold Delivered. rewrite H. by eexists.
Qed.

Lemma SInv_all s total handed : SInv s total handed -> st_found s < FRAMES -> messages total = (handed, false).
Proof.
  intros I Hf. pose proof (si_messages _ _ _ I [] (Forall_nil_2 _)) as H. rewrite !app_nil_r in H.
  destruct (si_room _ _ _ I) as [Hx|[Hx _]]; [lia|]. rewrite Hx in H. rewrite H. unfold before. cbn. by rewrite app_nil_r.
Qed.

(** How a run can end. *)
Definition Ending (reads : list ReadOut) (s : Stream) (total : list Z) (handed : list (list Z)) (e : option IoError) : Prop :=
  match e with
  | None => st_found s < FRAMES -> messages total = (handed, false) /\ LARGEST <= free_after s
  | Some e => In (ReadError e) reads \/ (e = InvalidData /\ snd (messages total) = true) \/ (e = UnexpectedEof /\ messages total = (handed, false))
  end.

Lemma Ending_cons read reads s total handed e : Ending reads s total handed e -> Ending (read :: reads) s total handed e.
Proof. destruct e; cbn; tauto. Qed.

Lemma stream_run_ok reads s total handed s' more arrived' e :
  SInv s total handed -> Forall read_bytes_ok reads -> stream_run reads s = (s', more, arrived', e) ->
  Delivered (total ++ arrived') (handed ++ more) /\ Ending reads s' (total ++ arrived') (handed ++ more) e.
Proof.
  revert s total handed more arrived'. induction reads as [|read reads IH]; intros s total handed more arrived' I Hr E; cbn [stream_run] in E.
  { injection E as <- <- <- <-. rewrite !app_nil_r. split; [by eapply SInv_delivered|]. intros Hf.
    destruct (drain_shift_ok _ _ _ I) as (_&_&_&_&_&_&_&_&_&_&Hroom). split; [by eapply SInv_all|by apply Hroom]. }
  inversion Hr as [|x l Hr1 Hr2]; subst x l. pose proof (clip_ok _ _ _ _ I Hr1) as Hc.
  destruct (Stream_drain (clip s read) s) as [s1 [n|e1]] eqn:Ed; pose proof (drain_ok _ _ _ _ _ _ I Hc Ed) as Hd; cbn zeta in Hd.
  - destruct Hd as (I1 & _ & _). destruct (stream_run reads s1) as [[[s2 more2] total2] e2] eqn:E2. injection E as <- <- <- <-.
    destruct (IH _ _ _ _ _ I1 Hr2 E2) as [H1 H2]. rewrite <- !app_assoc in *. split; [done|by apply Ending_cons].
  - injection E as <- <- <- <-. rewrite app_nil_r. unfold Ending. destruct Hd as [Hd|[[-> [ms Hd]]|(-> & Hd & _)]].
    + split.
      * rewrite Hd. assert (arrived s (ReadError e1) = []) as -> by (unfold arrived; by destruct (st_ended s)). rewrite app_nil_r.
        by eapply SInv_delivered.
      * left. left. by destruct read.
    + rewrite Hd. split; [unfold Delivered; rewrite Hd; by eexists|]. right. left. done.
    + unfold Delivered. rewrite Hd. split; [exists []; by rewrite app_nil_r|]. right. right. done.
Qed.

(** C18: However the relay's bytes are cut into reads, what the drains hand out is what the
    bytes themselves say: the messages whole in them, in order and in full, less the
    reserved and the oversized.  Nothing is left behind once a drain has not filled its
    batch, there is then room for the largest message, the stream's end is said only
    after every message before it, and the stream is given up only for a read's own
    error or for a head that is no message. *)
Theorem stream_reassembles now reads s handed total e :
  Forall read_bytes_ok reads -> stream_run reads (Stream_new now) = (s, handed, total, e) ->
  (exists rest, fst (messages total) = handed ++ rest) /\
  match e with
  | None => st_found s < FRAMES -> messages total = (handed, false) /\ LARGEST <= free_after s
  | Some e => In (ReadError e) reads \/ (e = InvalidData /\ snd (messages total) = true) \/ (e = UnexpectedEof /\ messages total = (handed, false))
  end.
Proof.
  intros Hr E. destruct (stream_run_ok _ _ _ _ _ _ _ _ (SInv_new now) Hr E) as [H1 H2]. split; [exact H1|].
  destruct e; exact H2.
Qed.

(** Two messages of channel data around one on a reserved channel, cut in three. *)
Definition demo_reads : list ReadOut :=
  [ReadBytes [64; 1; 0; 5; 1; 2; 3]; ReadError WouldBlock; ReadBytes [4; 5; 0; 0; 0; 80; 0; 0; 1; 9; 0; 0]; ReadBytes [0; 64; 2; 0; 0]; ReadBytes []].

Lemma stream_reassembles_witness :
  exists s handed total e, stream_run demo_reads (Stream_new 0) = (s, handed, total, e) /\
    Forall read_bytes_ok demo_reads /\ handed = [[64; 1; 0; 5; 1; 2; 3; 4; 5]; [64; 2; 0; 0]] /\ e = Some UnexpectedEof /\
    exists rest, fst (messages total) = handed ++ rest.
Proof.
  assert (Forall read_bytes_ok demo_reads) as Hr by (unfold demo_reads; repeat apply Forall_cons_2; try apply Forall_nil_2; cbn [read_bytes_ok]; try exact I; unfold bytes_ok; repeat apply Forall_cons_2; try apply Forall_nil_2; unfold fits; lia).
  destruct (stream_run demo_reads (Stream_new 0)) as [[[s handed] total] e] eqn:E.
  exists s, handed, total, e. split; [done|]. split; [done|].
  assert (let '(_, h, _, e') := stream_run demo_reads (Stream_new 0) in (h, e') =
    ([[64; 1; 0; 5; 1; 2; 3; 4; 5]; [64; 2; 0; 0]], Some UnexpectedEof)) as Hv by (vm_compute; reflexivity).
  rewrite E in Hv. injection Hv as Hh He. split; [done|]. split; [done|]. exact (proj1 (stream_reassembles 0 demo_reads s handed total e Hr E)).
Defined.

(** ** A connection's writes *)

(** What has been staged and not yet been taken is what the staging still holds. *)
Definition owed (s : Stream) : list Z := slice (st_staging s) (st_written s) (st_staged s).
Record WInv (s : Stream) : Prop := mkWInv {
  wi_staging : zlen (st_staging s) = STAGING;
  wi_places : 0 <= st_written s <= st_staged s /\ st_staged s <= STAGING;
}.
Definition Settled (s : Stream) : Prop := st_blocked s = (st_written s <? st_staged s).

Lemma owed_take s taken blocked now :
  WInv s -> 0 <= taken -> st_written s + taken <= st_staged s ->
  WInv (with_staging s (st_staging s) (st_staged s) (st_written s + taken) blocked now) /\
  take (Z.to_nat taken) (owed s) ++ owed (with_staging s (st_staging s) (st_staged s) (st_written s + taken) blocked now) = owed s.
Proof.
  intros [] Ht Hb. split; [split; cbn; [done|lia]|]. unfold owed. cbn [st_staging st_written st_staged with_staging].
  rewrite <- (slice_drop (st_staging s) (st_written s) (st_staged s) taken) by lia. apply take_drop.
Qed.

Lemma owed_range s : WInv s -> default [] (get_range (st_staging s) (st_written s) (st_staged s)) = owed s.
Proof. intros []. by rewrite slice_range by lia. Qed.

Lemma zlen_owed s : WInv s -> zlen (owed s) = st_staged s - st_written s.
Proof. intros []. apply zlen_slice; lia. Qed.

Lemma flush_loop_ok now outs io s wrote sent s' io' outs' sent' r :
  WInv s -> flush_loop now outs io s wrote sent = (s', io', outs', sent', r) ->
  WInv s' /\ sent' ++ owed s' = sent ++ owed s.
Proof.
  revert io s wrote sent. induction outs as [|out outs IH]; intros io s wrote sent I E; cbn [flush_loop] in E.
  { destruct (_ && _); by injection E as <- <- <- <- <-. }
  destruct (_ && _) eqn:Eg; [|by injection E as <- <- <- <- <-]. rewrite owed_range in E by done.
  destruct out as [[taken|]|err]; cbn [io_write] in E; [|by injection E as <- <- <- <- <-..].
  set (n := Z.max 0 (Z.min taken (zlen (owed s)))) in *. pose proof (zlen_owed s I) as Hl. pose proof (zlen_nonneg (owed s)).
  assert (0 <= n <= zlen (owed s)) as Hn by lia. clearbody n.
  destruct n as [|n|n]; [by injection E as <- <- <- <- <-| |lia].
  destruct (owed_take s (Zpos n) (st_blocked s) now I ltac:(lia) ltac:(lia)) as [I' Ho].
  destruct (IH _ _ _ _ I' E) as [H1 H2]. split; [done|]. by rewrite H2, <- app_assoc, Ho.
Qed.

Lemma flush_ok now done outs io s s' io' outs' sent r :
  WInv s -> (forall n, done = Some (inl n) -> 0 <= n) -> Stream_flush now done outs io s = (s', io', outs', sent, r) ->
  WInv s' /\ sent ++ owed s' = owed s /\ match r with inl _ => Settled s' | inr _ => True end.
Proof.
  intros I Hd E. unfold Stream_flush in E.
  set (settle := fun x : Stream => let '(written, staged) := if st_written x =? st_staged x then (0, 0) else (st_written x, st_staged x) in
    with_staging x (st_staging x) staged written (written <? staged) (st_progress x)) in E.
  assert (forall x, WInv x -> WInv (settle x) /\ owed (settle x) = owed x /\ Settled (settle x)) as Hs.
  { intros x []. unfold settle, owed, Settled. destruct (Z.eqb_spec (st_written x) (st_staged x)) as [Eq|]; cbn;
      (split; [split; cbn; [done|lia]|split; [|done]]); [|done]. rewrite Eq. unfold slice. by rewrite !Z.sub_diag. }
  assert (forall io x wrote pre, WInv x ->
    match flush_loop now outs io x wrote pre with
    | (s, io, outs, sent, inl wrote) => (settle s, io, outs, sent, inl wrote)
    | (s, io, outs, sent, inr e) => (s, io, outs, sent, inr e)
    end = (s', io', outs', sent, r) -> WInv s' /\ sent ++ owed s' = pre ++ owed x /\ match r with inl _ => Settled s' | inr _ => True end) as Hgo.
  { intros io0 x wrote pre Ix Ef. destruct (flush_loop now outs io0 x wrote pre) as [[[[x' io1] o1] s1] r1] eqn:El.
    destruct (flush_loop_ok _ _ _ _ _ _ _ _ _ _ _ Ix El) as [I1 H1]. destruct r1; injection Ef as <- <- <- <- <-.
    - destruct (Hs _ I1) as (I2 & H2 & H3). by rewrite H2.
    - done. }
  destruct done as [[taken|err]|].
  - rewrite owed_range in E by done. specialize (Hd _ eq_refl). pose proof (zlen_owed s I). pose proof I as [? ?].
    set (n := Z.min taken (zlen (owed s))). assert (take (Z.to_nat taken) (owed s) = take (Z.to_nat n) (owed s)) as Et.
    { unfold n. destruct (Z.le_ge_cases taken (zlen (owed s))); [by rewrite Z.min_l by lia|]. rewrite Z.min_r by lia.
      rewrite !take_ge by (unfold zlen in *; lia). done. }
    replace (Z.min (st_written s + taken) (st_staged s)) with (st_written s + n) in E by (unfold n; lia).
    destruct (owed_take s n (st_blocked s) now I ltac:(unfold n; lia) ltac:(unfold n; lia)) as [I' Ho].
    destruct (Hgo _ _ _ _ I' E) as (H1 & H2 & H3). rewrite Et, Ho in H2. done.
  - injection E as <- <- <- <- <-. done.
  - exact (Hgo _ _ _ _ I E).
Qed.

Lemma commit_ok now message io s n :
  WInv s -> Stream_room io s = Some n -> zlen message <= LARGEST ->
  WInv (Stream_commit now message s) /\ owed (Stream_commit now message s) = owed s ++ message.
Proof.
  intros [] Hr Hm. unfold Stream_room in Hr. destruct (_ || _ || _); [done|].
  destruct (Z.ltb_spec (zlen (st_staging s) - st_staged s) LARGEST); [done|]. pose proof (zlen_nonneg message).
  unfold Stream_commit, owed. cbn [st_staging st_written st_staged with_staging]. rewrite Z.min_l by lia. split.
  - split; cbn; [rewrite zlen_put_range; lia|lia].
  - apply slice_put_end; lia.
Qed.

Definition done_ok (done : option (Z + IoError)) : Prop := match done with Some (inl n) => 0 <= n | _ => True end.

(** What a call leaves. *)
Record Sent (s s' : Stream) (io' : StreamIo) (msgs left : list (list Z)) (sent : list Z) (r : Z + IoError) : Prop := mkSent {
  se_inv : WInv s';
  se_bytes : exists took, msgs = took ++ left /\ sent ++ owed s' = owed s ++ concat took;
  se_done : match r with inl _ => Settled s' /\ (left = [] \/ Stream_room io' s' = None) | inr _ => True end;
}.

Lemma send_from_ok fuel now msgs done outs io s staged sent s' io' left sent' r :
  WInv s -> done_ok done -> Forall (fun m => zlen m <= LARGEST) msgs ->
  (2 * length msgs + match Stream_room io s with Some _ => 1 | None => 2 end <= fuel)%nat ->
  send_from fuel now msgs done outs io s staged sent = (s', io', left, sent', r) ->
  exists more, sent' = sent ++ more /\ Sent s s' io' msgs left more r.
Proof.
  revert msgs done outs io s staged sent. induction fuel as [|fuel IH]; intros msgs done outs io s staged sent I Hd Hm Hf E.
  { destruct (Stream_room io s); lia. }
  cbn [send_from] in E. destruct (Stream_room io s) as [n|] eqn:Er.
  - destruct msgs as [|message msgs].
    + destruct (Stream_flush now done outs io s) as [[[[s1 io1] o1] more] [w|err]] eqn:Ef;
        (apply flush_ok in Ef as (I1 & Ho & Hs); [|done|intros k ->; exact Hd]); injection E as <- <- <- <- <-; exists more; split; try done;
        (split; [done|exists []; cbn; by rewrite app_nil_r|]); [|done]. split; [done|by left].
    + inversion Hm as [|x l Hm1 Hm2]; subst x l. destruct (commit_ok now message io s n I Er Hm1) as [I1 Ho].
      apply IH in E as (more & -> & [I2 (took & -> & Hb) Hr]); [|done|done|done|cbn [length] in Hf; destruct (Stream_room io (Stream_commit _ _ _)); lia].
      exists more. split; [done|]. split; [done| |done]. exists (message :: took). split; [done|]. by rewrite Hb, Ho, <- app_assoc.
  - destruct (Stream_flush now done outs io s) as [[[[s1 io1] o1] more] [w|err]] eqn:Ef;
      (apply flush_ok in Ef as (I1 & Ho & Hs); [|done|intros k ->; exact Hd]).
    + destruct (Stream_room io1 s1) as [n|] eqn:Er1.
      * apply IH in E as (more2 & -> & [I2 (took & -> & Hb) Hr]); [|done|exact Logic.I|done|rewrite Er1; lia].
        exists (more ++ more2). split; [by rewrite app_assoc|]. split; [done| |done]. exists took. split; [done|].
        by rewrite <- app_assoc, Hb, app_assoc, Ho.
      * injection E as <- <- <- <- <-. exists more. split; [done|]. split; [done|exists []; cbn; by rewrite app_nil_r|]. split; [done|by right].
    + injection E as <- <- <- <- <-. exists more. split; [done|]. split; [done|exists []; cbn; by rewrite app_nil_r|done].
Qed.

(** One pass over the stream: the time, what [next] has, what a held send came to, and
    what each write answers. *)
Record Pass := mkPass { ps_now : Z; ps_msgs : list (list Z); ps_done : option (Z + IoError); ps_outs : list WriteOut; ps_connected : bool }.

(** The passes of a connection until one fails: what [next] was asked for and gave, and
    what the socket took. *)
Fixpoint send_run (passes : list Pass) (io : StreamIo) (s : Stream) : Stream * StreamIo * list (list Z) * list Z * option IoError :=
  match passes with
  | [] => (s, io, [], [], None)
  | p :: passes =>
      match Stream_send_from (ps_now p) (ps_msgs p) (ps_done p) (ps_outs p) (mkIo (ps_connected p) (io_sending io)) s with
      | (s', io', rest, sent, inr e) => (s', io', take (length (ps_msgs p) - length rest) (ps_msgs p), sent, Some e)
      | (s', io', rest, sent, inl _) =>
          let '(s'', io'', took, more, e) := send_run passes io' s' in
          (s'', io'', take (length (ps_msgs p) - length rest) (ps_msgs p) ++ took, sent ++ more, e)
      end
  end.

Definition pass_ok (p : Pass) : Prop := Forall (fun m => zlen m <= LARGEST) (ps_msgs p) /\ done_ok (ps_done p).

Lemma send_run_ok passes io s s' io' took sent e :
  WInv s -> Settled s -> Forall pass_ok passes -> send_run passes io s = (s', io', took, sent, e) ->
  WInv s' /\ sent ++ owed s' = owed s ++ concat took /\ (e = None -> Settled s').
Proof.
  revert io s took sent s' io' e. induction passes as [|p passes IH]; intros io s took sent s' io' e I Hs Hp E; cbn [send_run] in E.
  { injection E as <- <- <- <- <-. cbn. by rewrite app_nil_r. }
  inversion Hp as [|x l [Hp1 Hp2] Hp3]; subst x l.
  destruct (Stream_send_from _ _ _ _ _ s) as [[[[s1 io1] left] sent1] r1] eqn:E1. unfold Stream_send_from in E1.
  apply send_from_ok in E1 as (more & E1 & [I1 (took1 & Em & Hb) Hr]); [|done|done|done|destruct (Stream_room _ _); lia].
  cbn in E1. subst sent1. assert (take (length (ps_msgs p) - length left) (ps_msgs p) = took1) as Et
    by (rewrite Em, length_app; rewrite take_app_le by lia; apply take_ge; lia).
  rewrite Et in E. destruct r1 as [w|err].
  - destruct Hr as [Hs1 _]. destruct (send_run passes io1 s1) as [[[[s2 io2] took2] sent2] e2] eqn:E2.
    destruct (IH _ _ _ _ _ _ _ I1 Hs1 Hp3 E2) as (I2 & H2 & H3). injection E as <- <- <- <- <-. split; [done|]. split; [|done].
    rewrite <- app_assoc, H2, app_assoc, Hb, concat_app, app_assoc. done.
  - injection E as <- <- <- <- <-. split; [done|]. split; [done|done].
Qed.

Lemma WInv_new now : WInv (Stream_new now).
Proof. split; [vm_compute; reflexivity|]. change STAGING with 32768. cbn. lia. Qed.

(** What the core hands over is never dropped: over any passes, what the socket has
    taken, followed by what the staging still holds, is the messages [next] gave, whole
    and in order.  A stream not blocked owes nothing; and a pass asks [next] again until
    it has nothing more, or the stream takes no more now. *)
Theorem stream_sends now passes connected s io took sent e :
  Forall pass_ok passes -> send_run passes (mkIo connected false) (Stream_new now) = (s, io, took, sent, e) ->
  sent ++ owed s = concat took /\ (e = None -> st_blocked s = false -> sent = concat took) /\
  (forall p s' io' left more n, pass_ok p -> e = None ->
    Stream_send_from (ps_now p) (ps_msgs p) (ps_done p) (ps_outs p) (mkIo (ps_connected p) (io_sending io)) s = (s', io', left, more, inl n) ->
    left = [] \/ Stream_room io' s' = None).
Proof.
  intros Hp E. destruct (send_run_ok _ _ _ _ _ _ _ _ (WInv_new now) eq_refl Hp E) as (I & Hb & Hs).
  assert (sent ++ owed s = concat took) as Hall by (rewrite Hb; reflexivity). split; [done|]. split.
  - intros He Hbl. specialize (Hs He). unfold Settled in Hs. rewrite Hbl in Hs. destruct I. rewrite <- Hall.
    assert (owed s = []) as ->; [|by rewrite app_nil_r]. unfold owed, slice.
    replace (Z.to_nat (st_staged s - st_written s)) with O by lia. done.
  - intros p s' io' left more n [Hm Hd] _ Ef. unfold Stream_send_from in Ef.
    apply send_from_ok in Ef as (x & _ & Hx); [|done|done|done|destruct (Stream_room _ _); lia]. by destruct (se_done _ _ _ _ _ _ _ Hx).
Qed.

(** Two passes, the first write cut short. *)
Definition demo_passes : list Pass :=
  [mkPass 1 [[1; 2; 3]; [4; 5]] None [Wrote (Now 2); Wrote (Now 0)] true; mkPass 2 [[6]] None [Wrote (Now 9)] true; mkPass 3 [[7]] None [Wrote (Now 9)] true].

Lemma stream_sends_witness :
  exists s io took sent e, send_run demo_passes (mkIo true false) (Stream_new 0) = (s, io, took, sent, e) /\ Forall pass_ok demo_passes /\
    took = [[1; 2; 3]; [4; 5]; [6]; [7]] /\ e = None /\ sent ++ owed s = concat took.
Proof.
  assert (Forall pass_ok demo_passes) as Hp.
  { unfold demo_passes. repeat apply Forall_cons_2; try apply Forall_nil_2; (split; [|exact I]); cbn [ps_msgs];
      repeat apply Forall_cons_2; try apply Forall_nil_2; rewrite largest_eq; unfold zlen; cbn; lia. }
  destruct (send_run demo_passes (mkIo true false) (Stream_new 0)) as [[[[s io] took] sent] e] eqn:E.
  exists s, io, took, sent, e. split; [done|]. split; [done|].
  assert (let '(_, _, t, _, e') := send_run demo_passes (mkIo true false) (Stream_new 0) in (t, e') = ([[1; 2; 3]; [4; 5]; [6]; [7]], None)) as Hv
    by (vm_compute; reflexivity).
  rewrite E in Hv. injection Hv as Hh He. split; [done|]. split; [done|]. exact (proj1 (stream_sends 0 demo_passes true s io took sent e Hp E)).
Defined.
